(* ===== verification/_CoqProject ===== *)
-Q . S2P
Prelude.v
RlcPdu.v
RlcSdu.v
RlcSegs.v
RlcAm.v
RlcAmRx.v
RlcUm.v
RlcTm.v
RlcEntity.v
RlcEvents.v
RlcAmTx.v
RlcAmStatus.v
RlcAmSend.v
RlcAmAck.v
RlcAmOps.v
RlcAmLink.v
RlcUmProps.v
RlcModes.v
RlcUmLink.v
Pdcp.v
PdcpProps.v
UeManager.v
Bearers.v
Sdap.v
Gf2.v
Snow3g.v
NasStream.v
Crc.v
Asn1Utils.v
RlcApi.v
PdcpQueue.v
PdcpLocks.v
PdcpApi.v
Downlink.v
F1apIds.v
Nnsf.v
NrCommon.v
GtpU.v
GtpTunnels.v
N3.v
NrTbs.v
NrSegmentation.v
NrRateMatching.v
MacPdu.v
MacLink.v
MacUl.v
MacUlLink.v
MacBsr.v
MacRlc.v
CmHash.v
OduEgtp.v
OduTunnels.v
OduF1u.v
OduMsg.v
OduMsgInv.v
OduMsgOps.v
OduMsgChain.v
OduMsgPool.v
OduMac.v
OduMacBits.v
OduMacLink.v
Rar.v
RarLink.v
OduUm.v
OduUmDl.v
OduUmUl.v
Findings.v
MacFindings.v
OduFindings.v
OduMsgFindings.v
OduMacFindings.v
OduUmFindings.v
