(* ===== verification/Prelude.v ===== *)
(** OpenAirInterface 5G, CU side: verification library.

    * The program

    The repository holds the 5G stack of OpenAirInterface (oai_cu) and the O-DU of the O-RAN
    software community (osc_odu_high), which work together over the F1 interface.  This
    library models the layer-2 user plane of oai_cu/openair2, the path of a packet between
    the core network and the radio, parts of the control plane and of the common code
    around it, and the parts of the O-DU that it meets:
    - SDAP (SDAP/nr_sdap) maps QoS flows to data radio bearers and adds a one-byte header;
    - PDCP (LAYER2/nr_pdcp) numbers, ciphers and protects SDUs, and on reception recovers
      the COUNT, checks, reorders and delivers;
    - RLC (LAYER2/nr_rlc) segments SDUs into the transmission opportunities of MAC and
      reassembles them; in acknowledged mode (AM) it also retransmits, driven by status
      reports, polls and timers; UM and TM are the unacknowledged and transparent modes;
    - a manager in PDCP and in RLC keeps the entities of every UE and bearer; the API files of
      the two layers address them, configure them from RRC structures, and are joined by two
      queues with a thread each;
    - GTP-U (openair3/ocp-gtpu) carries the packets of a PDU session to and from the core
      network, and those of a bearer between CU and DU;
    - F1AP keeps the identities of the UEs between CU and DU, NGAP selects the AMF of a UE;
    - openair3/SECU ciphers and protects NAS messages and derives keys;
    - common code computes CRCs, frequencies, bands and allocation indications;
    - MAC (LAYER2/NR_MAC_gNB, NR_MAC_UE) fills transport blocks with the PDUs it asks RLC for and
      with control elements, takes blocks apart, and keeps the buffer status of a UE;
    - below MAC, a transport block gets a size, a CRC, is cut into code blocks, and the coded
      bits of a block are matched to the resources it has.
    - the O-DU (osc_odu_high) ends the GTP-U tunnels of the CU in its own EGTP layer and hands
      packets to its RLC; its packets are message buffers of the operating system layer (mt),
      chains of shared data blocks; its RLC exchanges PDUs with the RLC of a UE of OAI, and its MAC
      writes the blocks and random access responses that such a UE reads.
    The layers of OAI call each other through function pointers held in the entities.

    * How C is translated

    A C function is a Rocq function on the state it works on.  Its result is in [res]:
    [Ok], [Exit] (the program ends itself, [exit(1)] or a failed assertion), or [Fault] (what
    C leaves undefined: a null or dangling pointer, an access out of bounds; and, in the
    model only, a loop that used up its fuel).  Structures are records with the fields of the
    code; the update of a field is written [r <| f := v |>].  Integers are [Z] with the
    wrap-around of unsigned types and the conversions written out ([u8], [u16], [u32],
    [u64], [i32]); the remainder of C is [cmod].  Bytes are [Z].  SDUs of RLC are shared by
    their segments and live in an explicit heap with the reference counts of the code, so
    that leaks, double frees and uses after free are visible; the end pointers of lists are
    addresses.  Callbacks (delivery, maximum of retransmissions, messages to the neighbours)
    append to a list of events, which the API files turn into calls and messages.  Threads
    are step relations over critical sections.  Log output is left out.

    * Files

    - Prelude: results, machine integers, record update, bits, list lemmas, tactics, hints.
    - RlcPdu: nr_rlc_pdu.c (bit decoder and encoder, sorted list of received PDUs).
    - RlcSdu: nr_rlc_sdu.c (SDUs, segments, their lists) and the shared part of
      nr_rlc_entity.h.  RlcSegs: the memory invariant of segments and SDUs, for all modes.
    - RlcAm: nr_rlc_entity_am.c, every function.  RlcAmRx: reception, reassembly, windows
      and t-Reassembly.  RlcAmTx: the data PDU and segmentation.  RlcAmStatus: the size of
      status reports.  RlcAmSend: the invariant of transmission and that sending,
      retransmitting, timers and discards keep it.  RlcAmAck: acknowledgements.  RlcAmOps:
      the entity as a state machine.  RlcAmLink: a sender and a receiver over a channel.
    - RlcUm: nr_rlc_entity_um.c, every function.  RlcUmProps: its properties.  RlcUmLink: a
      sender and a receiver over a channel that keeps the order.
    - RlcTm: nr_rlc_entity_tm.c, every function.
    - RlcEntity: the function table of nr_rlc_entity.h as the class [RlcEntity], its three
      instances, the dispatch over them, and the laws every mode satisfies ([RlcLaws]).
      RlcEvents: every operation of every mode only appends events ([RlcCalls]).  RlcModes: the
      invariant of transparent mode, and a request for a PDU to an entity of any mode.
    - Pdcp: nr_pdcp_entity.c, nr_pdcp_sdu.c, the framing of NEA2 and NIA2.  PdcpProps: its
      properties.
    - UeManager: nr_rlc_ue_manager.c, nr_pdcp_ue_manager.c, generic in the entity through the
      class [ManagedEntity].  Bearers: the manager as a map from a UE and a bearer.
    - Sdap: nr_sdap_entity.c and nr_sdap.c.
    - Asn1Utils: the two asn1_utils.c.
    - RlcApi: nr_rlc_oai_api.c.  PdcpApi: nr_pdcp_oai_api.c and nr_pdcp_timer_thread.c.
      PdcpQueue: the queues between them.  PdcpLocks: their locks.  Downlink: a request to
      PDCP up to RLC, through the queue.
    - Gf2: polynomials over GF(2).  Snow3g: snow3g.c and rijndael.c.  NasStream:
      nas_stream_eea1/eia1/eea2/eia2.c, kdf.c, key_nas_deriver.c.  Crc: crc_byte.c.
    - F1apIds: f1ap_common.c.  Nnsf: ngap_gNB_nnsf.c and its use for the first NAS message.
    - NrCommon: nr_common.c and the NR-ARFCN conversions of nr_mac_common.c.
    - GtpU: gtp_itf.cpp.  GtpTunnels: its tunnels and its receiver.  N3: GTP-U and SDAP
      together, between the core network and PDCP.
    - NrTbs: nr_compute_tbs_common.c, nr_tbs_tools.c, the search for resource blocks of
      gNB_scheduler_primitives.c.  NrSegmentation: nr_segmentation.c, the part of
      nr_dlsch_coding.c up to the code blocks, the copies of nr_postDecode.  NrRateMatching:
      nr_rate_matching.c.
    - MacPdu: sub-headers, the downlink blocks of gNB_scheduler_dlsch.c and the parser of
      nr_ue_procedures.c.  MacLink: the two ends together, over the class [RlcService] of what
      MAC relies on.  MacUl: the uplink blocks and the buffer status of nr_ue_scheduler.c, the
      parser of gNB_scheduler_ulsch.c.  MacUlLink: the two ends together.  MacBsr: the buffer
      status.  MacRlc: RLC as an instance of [RlcService], and RLC over MAC.
    - CmHash: the hash lists of cm_hash.c.  OduEgtp: du_egtp.c, with the TEIDs of F1AP.
      OduTunnels: the table of tunnels of du_ue_mgr.c and the data paths of du_msg_hdl.c.
      OduF1u: both together, and with the GTP-U of the CU.
    - OduMsg: the message buffers of ss_msg.c.  OduMsgInv, OduMsgOps, OduMsgChain: their
      invariant and their operations.  OduMsgPool: a set of messages as byte strings.
    - OduMac: mac_mux.c and mac_demux.c.  OduMacBits: packing of bits.  OduMacLink: the blocks of
      the O-DU and the UE.  Rar: the random access response of gNB_scheduler_RA.c and of
      nr_ue_procedures.c.  RarLink: the responses of the O-DU and of the gNB, and the UE.
    - OduUm: rlc_umm_dl.c and rlc_umm_ul.c, with the reception buffers of rlc_utl_ul.c.  OduUmDl and
      OduUmUl: the O-DU and a UE of OAI in unacknowledged mode, in the two directions.
    - Findings, MacFindings, OduFindings, OduMsgFindings, OduMacFindings, OduUmFindings: concrete
      runs that show defects of the code.

    * What the theorems show

    - RLC AM, whole system: over a one-way channel that loses, duplicates and reorders data PDUs
      the receiver delivers only SDUs that were offered ([am_link_integrity]); in every state that
      the calls of [am_step] reach the invariants of both sides hold ([am_reachable_wf]).
    - RLC AM, reception: an SDU is delivered once, exactly when its bytes are complete
      ([am_recv_data_pdu_delivers]); arbitrary bytes cannot break the list
      ([am_recv_pdu_keeps_invariant]); the tests on the list are exact; t-Reassembly.
    - RLC AM, transmission: a request for a PDU always returns and serves what is most
      urgent, the status report before the head of the retransmit list before the head of the
      queue ([am_generate_pdu_total]); PDUs round trip; segmentation is a partition;
      status reports have the announced size; SDU queueing, discard, acknowledgement
      ([am_ack_pdu]) and deletion do what they should to lists, memory, windows and counters.
    - RLC UM: invariant, transmission, round trip with a peer, deletion; over a channel in
      order all SDUs arrive in order and without an SDU left ([um_link_in_order],
      [um_link_liveness]).  All modes: a request for a PDU returns, fits its buffer and gives a PDU
      exactly when there is something to send ([rlc_request_bounded]); re-establishment leaves
      nothing to send.
    - PDCP: recovery of COUNT, refinement of the reordering queue to a finite map,
      t-Reordering, security configuration, end-to-end transfer.
    - Managers: refinement of a finite map from RNTI to UE.  SDAP: transfer, the mapping
      table, entity lookup.  Configuration: the SN lengths are decoded as
      they should and create valid entities ([decoded_lengths_accepted]).
    - APIs: the entry points are the operations of the addressed entity and change nothing
      else ([rlc_api_refines], [pdcp_data_req_refines], [pdcp_data_ind_refines]); a
      configuration keeps what there is and creates what is asked for; the queues are FIFOs
      that drain; the locks have one deadlock; accepted requests reach RLC in order.
    - Security: the integrity algorithm computes the universal hash of its specification
      ([eia1_refines]); ciphering is an involution; the LFSR of SNOW 3G is invertible.
    - CRC: the table-driven routines are the polynomial remainder and detect bursts.
    - Control plane: the UE table of F1AP is a map in spite of what free entries keep
      ([f1ap_ids_refine]); the AMF that a UE gets ([first_req_amf]).
    - GTP-U: an end point is a map from UEs and bearers to tunnels, and a packet reaches the
      owner of its TEID only ([gtp_tunnels_refine]); packets cross an F1-U tunnel in both
      directions ([f1u_tunnel]) and the N3 interface with SDAP ([n3_user_plane]); the receiver
      does not read beyond its datagram ([receiver_reads_datagram]).
    - Transport blocks: sizes divide into code blocks, the search for resource blocks ends with
      the least number; segmentation and reassembly ([transport_block_roundtrip]), interleaving
      and rate matching ([rate_matching_roundtrip]) round trip.
    - MAC: a block carries exactly the PDUs that RLC gave, in order, in both directions
      ([dl_transport_block], [ul_transport_block]); after a report the gNB knows of all bytes that
      wait ([ul_buffer_report]); the buffer status is what RLC has
      ([bsr_tick_exact]).  RLC UM over MAC: what leaves the queue of the gNB is handed upwards by
      the UE ([dl_radio_um]).
    - Common: allocation indications and NR-ARFCNs round trip.
    - O-DU: through tunnels that come and go, the table and the hash list are a list of tunnels
      ([odu_tunnels_refine]); a packet crosses from the CU to the O-DU and back ([odu_f1u]).  The
      message buffers are byte strings, and sharing of blocks does not show ([msg_pool_refines]):
      that is why OduEgtp has messages as lists of bytes.  A UE of OAI reads the blocks of the O-DU
      ([odu_block_read]) and understands the random access responses of the O-DU and of OAI
      ([rar_understood]).  In unacknowledged mode every run of SDUs and transmission opportunities
      between the two implementations delivers the SDUs in order, in both directions
      ([odu_um_downlink], [odu_um_uplink]).

    * Assumptions

    AES-CTR, AES-CMAC and HMAC-SHA-256 are functions of OpenSSL and nettle: parameters of
    Pdcp and NasStream.  The end-to-end theorem assumes that AES-CTR is its own inverse and
    keeps the length, and that AES-CMAC gives 16 bytes.  The answer of PDCP to SDAP is a
    parameter, and so are the answers of RLC to MAC (bounded as [RlcService] says), the values of
    [random], the results of the socket calls, and the
    bytes that the stack of the GTP-U receiver holds before a datagram.  The host is little-endian; the CRC code is
    the variant without the instructions of Intel.  PdcpLocks has one thread of each kind.

    Invariants of AM are stated for acknowledgements without NACKs and for t-PollRetransmit
    expiring with something to retransmit; those of UM for transmission opportunities other
    than two bytes: outside, the code has the defects shown in Findings.  The link of
    RlcAmLink carries no status reports back, so the window does not move and no SN is used twice in
    it.  RLC over MAC is for blocks in which RLC is not offered exactly two bytes.  Tunnels of
    GTP-U are created once for a bearer and removed with their UE; the tunnels of the O-DU are not
    modified.  The theorems on the
    uplink are for blocks below 32 KiB with few enough SDUs for their headers to be counted in a
    byte, data on LCIDs 1, 2 and 4, no report of several LCGs due, and for the estimate of the gNB at
    most 300000 bytes in each LCG and, in the padding, room for a report of all: outside, see
    MacFindings.  Of the
    O-DU: TEIDs below 2^24, messages of at most 0x7FFF bytes, at most 127 references to a block, an
    allocator that returns addresses that are not in use, bandwidth parts below 180 blocks, the
    first eight time allocations and a slot of Msg3 that is not the first of a frame; in unacknowledged
    mode SDUs of at most 16000 bytes and grants below 2^15 other than 258 bytes, no discard timer, memory for
    what is received, and a channel that loses nothing: outside, see OduFindings, OduMsgFindings,
    OduMacFindings and OduUmFindings.

    * Fuel

    Loops that are not structural have fuel: a loop over delivered SNs visits another SN of
    the receive list each turn (fuel: length of the list plus one); the loop that writes
    NACKs handles at most 255 SNs per turn (fuel: number of SNs); the loops over missing
    data go to a shorter suffix of the list each turn; the loops of MAC advance by a byte each turn
    (fuel: length of the block).  In the O-DU: the loop over extension headers takes a byte of the
    message each turn, the release of tunnels removes one, the loops that extend a message place at
    least a byte, [packBytes] at least a bit, every turn of [um_dl_loop] takes an SDU from the queue or
    is the last one, every turn of [find_next] moves one of two SNs in the window; the demultiplexing of MAC does not end on some LCIDs
    (OduMacFindings).  That the fuel suffices is part of
    the theorems: [t_reassembly_expiry], [am_recv_pdu_keeps_invariant],
    [am_status_as_announced] and [am_generate_pdu_total] exclude [FuelExhausted].  For the
    loops that process received NACKs this is not yet proved.

    * Not modelled

    The threads of PDCP that read the network interface, RRC, the decisions of the MAC scheduler
    and the random access procedure, the encoding
    and decoding of NGAP, F1AP and E1AP messages (generated ASN.1 code), the LDPC encoder and
    decoder (generated) and the signal processing of the physical layer, LTE RLC.  Of the O-DU: the
    RLC in acknowledged and transparent mode, the scheduler, the handling of F1AP, E2AP and O1, the interface to the physical layer, the
    services of mt and cm beyond message buffers and hash lists, the generated codecs and the test
    stubs.  Not proved of what is modelled: the processing of NACKs under hypotheses that exclude
    the known defects, and that the NACKs of a status report are exactly the missing bytes. *)

From Stdlib Require Import Sorting.Sorted Sorting.Permutation.
From Stdlib Require Export ZArith Lia.
From stdpp Require Export base gmap list numbers.

#[global] Open Scope Z_scope.

(** ** Outcomes of a C function *)

(** What can go wrong: a dereferenced null pointer, a use of freed memory, an
    access outside an object, lists left half-updated by an error path, an overflow
    of signed arithmetic, and a loop that exceeds the fuel of its translation. *)
Inductive fault : Type :=
| NullDeref
| UseAfterFree
| OutOfBounds
| Inconsistent
| SignedOverflow
| FuelExhausted.

(** A call returns, calls [exit(1)] or [abort()], or faults. *)
Inductive res (A : Type) : Type :=
| Ok (a : A)
| Exit
| Fault (f : fault).
Arguments Ok {A} a.
Arguments Exit {A}.
Arguments Fault {A} f.

Declare Scope c_scope.
Delimit Scope c_scope with c.
#[global] Open Scope c_scope.

Definition rbind {A B} (m : res A) (k : A -> res B) : res B :=
  match m with
  | Ok a => k a
  | Exit => Exit
  | Fault f => Fault f
  end.

Notation "'let*' p ':=' m 'in' k" := (rbind m (fun p => k))
  (at level 10, p pattern, m at level 100, k at level 200) : c_scope.

Definition is_ok {A} (r : res A) : bool :=
  match r with Ok _ => true | _ => false end.

(** ** Integers of fixed width *)

Definition u8 (z : Z) : Z := z mod 2 ^ 8.
Definition u16 (z : Z) : Z := z mod 2 ^ 16.
Definition u32 (z : Z) : Z := z mod 2 ^ 32.
Definition u64 (z : Z) : Z := z mod 2 ^ 64.
(** Conversion to a 32-bit [int] (two's complement). *)
Definition i32 (z : Z) : Z := (z + 2 ^ 31) mod 2 ^ 32 - 2 ^ 31.
(** C's [%]: the remainder of the division that truncates towards zero. *)
Definition cmod (a b : Z) : Z := Z.rem a b.

Definition in_i32 (z : Z) : Prop := - 2 ^ 31 <= z < 2 ^ 31.
Definition is_byte (z : Z) : Prop := 0 <= z < 256.

Lemma cmod_pos a b : 0 <= a -> 0 < b -> cmod a b = a mod b.
Proof. intros. unfold cmod. apply Z.rem_mod_nonneg; lia. Qed.

Lemma cmod_bound a b : 0 <= a -> 0 < b -> 0 <= cmod a b < b.
Proof. intros. rewrite cmod_pos by lia. apply Z.mod_pos_bound. lia. Qed.

Lemma cmod_small a b : 0 <= a < b -> cmod a b = a.
Proof. intros. rewrite cmod_pos by lia. apply Z.mod_small. lia. Qed.

Lemma u64_small z : 0 <= z < 2 ^ 64 -> u64 z = z.
Proof. apply Z.mod_small. Qed.

Lemma u32_small z : 0 <= z < 2 ^ 32 -> u32 z = z.
Proof. apply Z.mod_small. Qed.

Lemma i32_small z : - 2 ^ 31 <= z < 2 ^ 31 -> i32 z = z.
Proof. intros H. unfold i32. rewrite Z.mod_small; lia. Qed.

Lemma u32_bound z : 0 <= u32 z < 2 ^ 32.
Proof. apply Z.mod_pos_bound. lia. Qed.

(** ** Record update

    [r <| f := v |>] is the record [r] with field [f] replaced by [v].  A record
    type declares its expansion once, as an instance of [Eta]. *)

Class Eta (R : Type) := eta : R -> R.
Class Update {R T : Type} (f : R -> T) := update : (T -> T) -> R -> R.

Ltac find_update :=
  lazymatch goal with
  | |- @Update ?R ?T ?f =>
    let g := fresh "g" in
    let r := fresh "r" in
    refine (fun (g : T -> T) (r : R) => _);
    let i := constr:(ltac:(typeclasses eauto) : Eta R) in
    let e := eval hnf in i in
    let t := eval cbv beta in (e r) in
    let p := eval pattern (f r) in t in
    lazymatch p with
    | ?F _ => let u := eval cbv beta in (F (g (f r))) in exact u
    end
  end.

#[global] Hint Extern 1 (Update _) => find_update : typeclass_instances.

Notation "r <| f := v |>" := (update (f := f) (fun _ => v) r)
  (at level 1, f at level 200, v at level 200, left associativity,
   format "r <| f  :=  v |>") : c_scope.

(** ** Lists *)

Fixpoint sumZ {A} (f : A -> Z) (l : list A) : Z :=
  match l with
  | [] => 0
  | x :: tl => f x + sumZ f tl
  end.

(** The three sorted lists of the user plane are filled by the same loop: walk
    to the first element before which the new one belongs. *)
Fixpoint insert_before {A} (stop : A -> bool) (x : A) (l : list A) : list A :=
  match l with
  | [] => [x]
  | y :: tl => if stop y then x :: l else y :: insert_before stop x tl
  end.

(** [buf[i]] of a buffer read inside its bounds. *)
Definition buf_get (buf : list Z) (i : Z) : Z := default 0 (buf !! Z.to_nat i).
Definition buf_set (buf : list Z) (i v : Z) : list Z := <[Z.to_nat i := u8 v]> buf.

(** [memcpy(&dst[off], src, length src)], inside the bounds of [dst]. *)
Definition buf_write (dst : list Z) (off : nat) (src : list Z) : list Z :=
  take off dst ++ src ++ drop (off + length src) dst.

Lemma buf_write_0 dst src : buf_write dst 0 src = src ++ drop (length src) dst.
Proof. reflexivity. Qed.

(** The bits of [v], most significant first, on [n] positions. *)
Fixpoint bits_be (n : nat) (v : Z) : list bool :=
  match n with
  | O => []
  | S k => Z.testbit v (Z.of_nat k) :: bits_be k v
  end.

Definition Z_of_bits (l : list bool) : Z :=
  fold_left (fun acc b => 2 * acc + Z.b2z b) l 0.

(** ** Automation *)

Create HintDb plane.
Create Rewrite HintDb plane_rw.

(** Reduce record projections of updated records. *)
Ltac rsimpl := cbn [update] in *; cbn in *.

(** Case analysis on the scrutinee of a [match] or [if] of the goal or of a
    hypothesis, with its equation kept. *)
Ltac case_match_in H :=
  match type of H with
  | context [ match ?x with _ => _ end ] =>
    lazymatch x with
    | context [ match _ with _ => _ end ] => fail
    | _ => let E := fresh "Hc" in destruct x eqn:E
    end
  end.

Ltac inv_ok :=
  repeat match goal with
  | H : Ok _ = Ok _ |- _ => injection H as H
  | H : Exit = Ok _ |- _ => discriminate H
  | H : Fault _ = Ok _ |- _ => discriminate H
  | H : Ok _ = Exit |- _ => discriminate H
  | H : Ok _ = Fault _ |- _ => discriminate H
  end; subst.

(** Turn boolean comparisons of the context into propositions. *)
Ltac b2p :=
  repeat match goal with
  | H : (_ && _)%bool = true |- _ => apply andb_prop in H as [? ?]
  | H : (_ || _)%bool = false |- _ => apply orb_false_elim in H as [? ?]
  | H : (_ || _)%bool = true |- _ => apply orb_prop in H
  | H : (_ && _)%bool = false |- _ => apply andb_false_iff in H
  | H : negb _ = true |- _ => apply negb_true_iff in H
  | H : negb _ = false |- _ => apply negb_false_iff in H
  | H : (_ =? _) = true |- _ => apply Z.eqb_eq in H
  | H : (_ =? _) = false |- _ => apply Z.eqb_neq in H
  | H : (_ <? _) = true |- _ => apply Z.ltb_lt in H
  | H : (_ <? _) = false |- _ => apply Z.ltb_ge in H
  | H : (_ <=? _) = true |- _ => apply Z.leb_le in H
  | H : (_ <=? _) = false |- _ => apply Z.leb_gt in H
  | H : (_ >? _) = true |- _ => rewrite Z.gtb_ltb in H; apply Z.ltb_lt in H
  | H : (_ >? _) = false |- _ => rewrite Z.gtb_ltb in H; apply Z.ltb_ge in H
  | H : (_ >=? _) = true |- _ => rewrite Z.geb_leb in H; apply Z.leb_le in H
  | H : (_ >=? _) = false |- _ => rewrite Z.geb_leb in H; apply Z.leb_gt in H
  end.

(** ** Lemmas on outcomes *)

Lemma rbind_ok {A B} (m : res A) (k : A -> res B) b :
  rbind m k = Ok b -> exists a, m = Ok a /\ k a = Ok b.
Proof. destruct m; cbn; intros; try discriminate. eauto. Qed.

Ltac bind_ok H :=
  let x := fresh "x" in
  let E := fresh "E" in
  apply rbind_ok in H as (x & E & H).

(** ** Lemmas on sums *)

Lemma sumZ_app {A} (f : A -> Z) l1 l2 : sumZ f (l1 ++ l2) = sumZ f l1 + sumZ f l2.
Proof. induction l1; cbn; lia. Qed.

Lemma sumZ_perm {A} (f : A -> Z) l1 l2 : Permutation l1 l2 -> sumZ f l1 = sumZ f l2.
Proof. induction 1; cbn; lia. Qed.

Lemma sumZ_nonneg {A} (f : A -> Z) l : Forall (fun x => 0 <= f x) l -> 0 <= sumZ f l.
Proof. induction 1; cbn; lia. Qed.

Lemma sumZ_ext {A} (f g : A -> Z) l :
  Forall (fun x => f x = g x) l -> sumZ f l = sumZ g l.
Proof. induction 1; cbn; lia. Qed.

(** Elements of a list without duplicates under [f] are determined by [f]. *)
Lemma NoDup_fmap_elem {A B} (f : A -> B) (l : list A) x y :
  NoDup (f <$> l) -> x ∈ l -> y ∈ l -> f x = f y -> x = y.
Proof.
  induction l as [|z l IH]; intros Hnd Hx Hy E; [by apply not_elem_of_nil in Hx|].
  rewrite fmap_cons, list.NoDup_cons in Hnd. destruct Hnd as [Hz Hnd].
  apply elem_of_cons in Hx as [->|Hx], Hy as [->|Hy]; [done| | |by apply IH].
  - destruct Hz. rewrite E. by apply list_elem_of_fmap_2.
  - destruct Hz. rewrite <- E. by apply list_elem_of_fmap_2.
Qed.

(** ** Lemmas on sorted insertion *)

Lemma insert_before_perm {A} stop (x : A) l :
  Permutation (insert_before stop x l) (x :: l).
Proof.
  induction l as [|y l IH]; cbn; [done|].
  destruct (stop y); [done|]. rewrite IH. apply perm_swap.
Qed.

Lemma insert_before_split {A} stop (x : A) l :
  exists l1 l2, l = l1 ++ l2 /\ insert_before stop x l = l1 ++ x :: l2 /\
    Forall (fun y => stop y = false) l1 /\
    (forall y tl, l2 = y :: tl -> stop y = true).
Proof.
  induction l as [|y l (l1 & l2 & -> & E & H1 & H2)]; cbn.
  - by exists [], [].
  - destruct (stop y) eqn:Hy.
    + exists [], (y :: l1 ++ l2). repeat split; try done. by intros ? ? [= <- <-].
    + exists (y :: l1), l2. rewrite E. repeat split; auto.
Qed.

Lemma insert_before_sorted {A} (R : A -> A -> Prop) stop (x : A) l :
  (forall y z, R y z -> stop y = true -> R x z) ->
  (forall y, stop y = true -> R x y) ->
  (forall y, y ∈ l -> stop y = false -> R y x) ->
  StronglySorted R l -> StronglySorted R (insert_before stop x l).
Proof.
  intros Htr Hgt Hle. induction 1 as [|y l Hs IH Hall]; cbn; [by repeat constructor|].
  destruct (stop y) eqn:Hy.
  - constructor; [by constructor|]. constructor; [auto|].
    eapply List.Forall_impl; [|exact Hall]. eauto.
  - constructor.
    + apply IH. intros z Hz. apply Hle. set_solver.
    + rewrite insert_before_perm. constructor; [|done]. apply Hle; [set_solver|done].
Qed.

Lemma ssorted_app {A} (R : A -> A -> Prop) l1 l2 :
  StronglySorted R (l1 ++ l2) <->
  StronglySorted R l1 /\ StronglySorted R l2 /\ Forall (fun x => Forall (R x) l2) l1.
Proof.
  induction l1 as [|x l1 IH]; cbn.
  - split; [intros H; split; [constructor|by split]|by intros (_ & ? & _)].
  - split.
    + inversion_clear 1 as [|? ? Hs Hall]. apply IH in Hs as (H1 & H2 & H3).
      apply Forall_app in Hall as [Ha Hb]. split; [by constructor|]. split; [done|by constructor].
    + intros (H1 & H2 & H3). inversion_clear H1 as [|? ? Hs Ha]. inversion_clear H3 as [|? ? Hb Hc].
      constructor; [by apply IH|]. apply Forall_app. done.
Qed.

Lemma filter_all {A} (P : A -> Prop) `{!forall x, Decision (P x)} (l : list A) :
  Forall P l -> filter P l = l.
Proof. induction 1 as [|x l Hx _ IH]; [done|]. by rewrite list.filter_cons, decide_True, IH. Qed.

Lemma filter_none {A} (P : A -> Prop) `{!forall x, Decision (P x)} (l : list A) :
  Forall (fun x => ~ P x) l -> filter P l = [].
Proof. induction 1 as [|x l Hx _ IH]; [done|]. by rewrite list.filter_cons, decide_False, IH. Qed.

Lemma filter_sorted {A} (R : A -> A -> Prop) P `{!forall x, Decision (P x)} (l : list A) :
  StronglySorted R l -> StronglySorted R (filter P l).
Proof.
  induction 1 as [|x l _ IH Hall]; [constructor|]. rewrite list.filter_cons.
  case_decide; [|done]. constructor; [done|]. rewrite Forall_forall in Hall |- *.
  intros y Hy. apply Hall, list_elem_of_In. apply list_elem_of_In, list_elem_of_filter in Hy. tauto.
Qed.

(** ** Lemmas on bit lists *)

Lemma length_bits_be n v : length (bits_be n v) = n.
Proof. induction n; cbn; auto. Qed.

Lemma bits_be_snoc n v b :
  bits_be (S n) (2 * v + Z.b2z b) = bits_be n v ++ [b].
Proof.
  revert v b. induction n as [|n IH]; intros v b.
  - cbn [bits_be app Z.of_nat]. f_equal. apply Z.testbit_0_r.
  - change (bits_be (S (S n)) (2 * v + Z.b2z b)) with
      (Z.testbit (2 * v + Z.b2z b) (Z.of_nat (S n)) :: bits_be (S n) (2 * v + Z.b2z b)).
    rewrite IH. cbn [bits_be app]. f_equal.
    rewrite Nat2Z.inj_succ. apply Z.testbit_succ_r. lia.
Qed.

Lemma bits_be_mod n m v : (n <= m)%nat -> bits_be n (v mod 2 ^ Z.of_nat m) = bits_be n v.
Proof.
  induction n as [|n IH]; intros H; cbn; [done|].
  rewrite IH by lia. f_equal. apply Z.mod_pow2_bits_low. lia.
Qed.

Lemma Z_of_bits_snoc l b : Z_of_bits (l ++ [b]) = 2 * Z_of_bits l + Z.b2z b.
Proof. unfold Z_of_bits. by rewrite fold_left_app. Qed.

Lemma Z_of_bits_cons b l :
  Z_of_bits (b :: l) = Z.b2z b * 2 ^ Z.of_nat (length l) + Z_of_bits l.
Proof.
  induction l as [|c l IH] using rev_ind.
  - unfold Z_of_bits. cbn [fold_left length Z.of_nat]. rewrite Z.pow_0_r. lia.
  - rewrite app_comm_cons, !Z_of_bits_snoc, IH, length_app. cbn [length].
    rewrite Nat.add_1_r, Nat2Z.inj_succ, Z.pow_succ_r by lia. lia.
Qed.

Lemma Z_of_bits_be n v : Z_of_bits (bits_be n v) = v mod 2 ^ Z.of_nat n.
Proof.
  revert v. induction n as [|n IH]; intros v.
  - cbn. by rewrite Z.mod_1_r.
  - rewrite (Z_div_mod_eq_full v 2) at 1.
    assert (Hb : v mod 2 = Z.b2z (Z.odd v)) by apply Zmod_odd.
    rewrite Hb, bits_be_snoc, Z_of_bits_snoc, IH, <- Hb.
    rewrite Nat2Z.inj_succ, Z.pow_succ_r by lia.
    rewrite (Z.rem_mul_r v 2 (2 ^ Z.of_nat n)) by lia. lia.
Qed.

Lemma Z_of_bits_bound l : 0 <= Z_of_bits l < 2 ^ Z.of_nat (length l).
Proof.
  induction l as [|b l IH] using rev_ind; [done|].
  rewrite Z_of_bits_snoc, length_app. cbn [length].
  replace (Z.of_nat (length l + 1)) with (Z.succ (Z.of_nat (length l))) by lia.
  rewrite Z.pow_succ_r by lia. destruct b; cbn; lia.
Qed.

Lemma Z_of_bits_small n v : 0 <= v < 2 ^ Z.of_nat n -> Z_of_bits (bits_be n v) = v.
Proof. intros. rewrite Z_of_bits_be. by apply Z.mod_small. Qed.

Lemma testbit_land_pow2 v k : 0 <= k -> negb (Z.land v (2 ^ k) =? 0) = Z.testbit v k.
Proof.
  intros Hk. destruct (Z.testbit v k) eqn:E.
  - apply negb_true_iff, Z.eqb_neq. intros H.
    assert (Z.testbit (Z.land v (2 ^ k)) k = true)
      by (rewrite Z.land_spec, E, Z.pow2_bits_true by lia; done).
    by rewrite H, Z.bits_0 in *.
  - apply negb_false_iff, Z.eqb_eq. apply Z.bits_inj_0. intros i.
    rewrite Z.land_spec. destruct (decide (i = k)) as [->|Hne]; [by rewrite E|].
    rewrite Z.pow2_bits_false by lia. apply andb_false_r.
Qed.

(** ** Lemmas on masks and shifts *)

Lemma land_ones_mod x k : 0 <= k -> Z.land x (2 ^ k - 1) = x mod 2 ^ k.
Proof. intros. rewrite <- Z.land_ones by done. by rewrite Z.ones_equiv, Z.sub_1_r. Qed.

Lemma lor_shiftl_add a b k : 0 <= k -> 0 <= b < 2 ^ k -> Z.lor (Z.shiftl a k) b = a * 2 ^ k + b.
Proof.
  intros Hk Hb. rewrite <- Z.shiftl_mul_pow2 by done. symmetry. apply Z.add_nocarry_lor.
  apply Z.bits_inj'. intros i Hi. rewrite Z.land_spec, Z.bits_0.
  destruct (Z.lt_ge_cases i k) as [Hlt|Hge].
  - by rewrite Z.shiftl_spec_low.
  - assert (2 ^ k <= 2 ^ i) by (apply Z.pow_le_mono_r; lia).
    rewrite (Z.testbit_eqb b i), Z.div_small by lia. apply andb_false_r.
Qed.

#[export] Hint Resolve Z_of_bits_bound insert_before_perm : plane.
#[export] Hint Rewrite @length_app @length_take @length_drop @length_insert length_bits_be : plane_rw.
