(* ===== verification/RlcPdu.v ===== *)
(** RLC PDUs of the NR RLC layer: [nr_rlc_pdu.c] and [nr_rlc_pdu.h].

    Received PDUs kept in a sorted list, the bit decoder and the bit encoder.
    The theorems: the list stays sorted and keeps its elements, the decoder
    reads the bits that the encoder wrote, and both stay inside the buffer. *)

From S2P Require Import Prelude.
From Stdlib Require Import Sorting.Sorted Sorting.Permutation.

(** ** Received PDUs *)

(** [data] is [None] when the C pointer is NULL: the SDU was processed. *)
Record nr_rlc_pdu_t := mk_pdu {
  pdu_sn : Z;
  pdu_data : option (list Z);
  pdu_size : Z;
  pdu_so : Z;
  pdu_is_first : bool;
  pdu_is_last : bool
}.

#[export] Instance eta_pdu : Eta nr_rlc_pdu_t :=
  fun p => mk_pdu (pdu_sn p) (pdu_data p) (pdu_size p) (pdu_so p) (pdu_is_first p)
                 (pdu_is_last p).

Definition nr_rlc_new_pdu (sn so : Z) (is_first is_last : bool) (data : list Z) (size : Z)
  : nr_rlc_pdu_t :=
  mk_pdu sn (Some (take (Z.to_nat size) data)) size so is_first is_last.

Definition nr_rlc_pdu_list_add (sn_compare : Z -> Z -> Z)
  (l : list nr_rlc_pdu_t) (pdu : nr_rlc_pdu_t) : list nr_rlc_pdu_t :=
  insert_before
    (fun cur => (sn_compare (pdu_sn cur) (pdu_sn pdu) >? 0)
                || ((pdu_sn cur =? pdu_sn pdu) && (pdu_so cur >? pdu_so pdu)))
    pdu l.

(** ** Decoder *)

Record nr_rlc_pdu_decoder_t := mk_dec {
  d_error : Z;
  d_byte : Z;
  d_bit : Z;
  d_buffer : list Z;
  d_size : Z
}.

#[export] Instance eta_dec : Eta nr_rlc_pdu_decoder_t :=
  fun d => mk_dec (d_error d) (d_byte d) (d_bit d) (d_buffer d) (d_size d).

Definition nr_rlc_pdu_decoder_init (buffer : list Z) (size : Z) : nr_rlc_pdu_decoder_t :=
  mk_dec 0 0 0 buffer size.

Definition nr_rlc_pdu_decoder_in_error (d : nr_rlc_pdu_decoder_t) : bool :=
  d_error d =? 1.

Definition get_bit (decoder : nr_rlc_pdu_decoder_t) : Z * nr_rlc_pdu_decoder_t :=
  if d_byte decoder >=? d_size decoder then
    (0, decoder <| d_error := 1 |>)
  else
    let ret := Z.land (Z.shiftr (buf_get (d_buffer decoder) (d_byte decoder))
                                (7 - d_bit decoder)) 1 in
    let decoder := decoder <| d_bit := d_bit decoder + 1 |> in
    let decoder :=
      if d_bit decoder =? 8 then
        decoder <| d_bit := 0 |> <| d_byte := d_byte decoder + 1 |>
      else decoder in
    (ret, decoder).

Fixpoint get_bits_loop (n : nat) (ret : Z) (decoder : nr_rlc_pdu_decoder_t)
  : Z * nr_rlc_pdu_decoder_t :=
  match n with
  | O => (ret, decoder)
  | S n =>
    let '(b, decoder) := get_bit decoder in
    let ret := Z.lor (Z.shiftl ret 1) b in
    if negb (d_error decoder =? 0) then (-1, decoder)
    else get_bits_loop n ret decoder
  end.

Definition nr_rlc_pdu_decoder_get_bits (decoder : nr_rlc_pdu_decoder_t) (count : Z)
  : res (Z * nr_rlc_pdu_decoder_t) :=
  if count >? 31 then Exit
  else Ok (get_bits_loop (Z.to_nat count) 0 decoder).

(** The callers' [x = get_bits(&decoder, n); R(decoder);], whose macro [R] is
    [if (nr_rlc_pdu_decoder_in_error(&d)) goto err]. *)
Notation "'getbits' ( x , d' ) ':=' ( d , n ) 'err' e 'in' k" :=
  (match nr_rlc_pdu_decoder_get_bits d n with
   | Ok (x, d') => if nr_rlc_pdu_decoder_in_error d' then e else k
   | Exit => Exit
   | Fault f => Fault f
   end)
  (at level 10, x binder, d' name, d at level 100, n at level 100,
   e at level 100, k at level 200) : c_scope.

(** ** Encoder *)

Record nr_rlc_pdu_encoder_t := mk_enc {
  e_byte : Z;
  e_bit : Z;
  e_buffer : list Z;
  e_size : Z
}.

#[export] Instance eta_enc : Eta nr_rlc_pdu_encoder_t :=
  fun e => mk_enc (e_byte e) (e_bit e) (e_buffer e) (e_size e).

Definition nr_rlc_pdu_encoder_init (buffer : list Z) (size : Z) : nr_rlc_pdu_encoder_t :=
  mk_enc 0 0 buffer size.

Definition put_bit (encoder : nr_rlc_pdu_encoder_t) (bit : Z) : res nr_rlc_pdu_encoder_t :=
  if e_byte encoder =? e_size encoder then Exit
  else
    let cell := buf_get (e_buffer encoder) (e_byte encoder) in
    let cell := u8 (Z.shiftl cell 1) in
    let cell := if negb (bit =? 0) then Z.lor cell 1 else cell in
    let encoder := encoder <| e_buffer := buf_set (e_buffer encoder) (e_byte encoder) cell |> in
    let encoder := encoder <| e_bit := e_bit encoder + 1 |> in
    if e_bit encoder =? 8 then
      Ok (encoder <| e_bit := 0 |> <| e_byte := e_byte encoder + 1 |>)
    else Ok encoder.

Fixpoint put_bits_loop (n : nat) (value x : Z) (encoder : nr_rlc_pdu_encoder_t)
  : res nr_rlc_pdu_encoder_t :=
  match n with
  | O => Ok encoder
  | S n =>
    let* encoder := put_bit encoder (Z.land value x) in
    put_bits_loop n value (Z.shiftr x 1) encoder
  end.

Definition nr_rlc_pdu_encoder_put_bits (encoder : nr_rlc_pdu_encoder_t) (value count : Z)
  : res nr_rlc_pdu_encoder_t :=
  if count >? 31 then Exit
  else put_bits_loop (Z.to_nat count) value (Z.shiftl 1 (count - 1)) encoder.

(** ** The received list *)

(** The order of the received list: by distance of the SN, then by offset. *)
Definition pdu_before (dist : Z -> Z) (a b : nr_rlc_pdu_t) : Prop :=
  dist (pdu_sn a) < dist (pdu_sn b) \/
  (pdu_sn a = pdu_sn b /\ pdu_so a <= pdu_so b).

(** ** What the codec state stands for *)

Definition bytes_bits (l : list Z) : list bool := flat_map (bits_be 8) l.

(** The bits written so far: those of the complete bytes, then the low bits of
    the byte in progress (the encoder shifts that byte left at each bit). *)
Definition written (e : nr_rlc_pdu_encoder_t) : list bool :=
  bytes_bits (take (Z.to_nat (e_byte e)) (e_buffer e)) ++
  bits_be (Z.to_nat (e_bit e)) (buf_get (e_buffer e) (e_byte e)).

Definition room (e : nr_rlc_pdu_encoder_t) : Z := 8 * e_size e - (8 * e_byte e + e_bit e).

Definition enc_ok (e : nr_rlc_pdu_encoder_t) : Prop :=
  e_size e = Z.of_nat (length (e_buffer e)) /\ 0 <= e_byte e /\
  0 <= e_bit e < 8 /\ 0 <= room e.

(** The bits still to be read. *)
Definition remaining (d : nr_rlc_pdu_decoder_t) : list bool :=
  drop (Z.to_nat (8 * d_byte d + d_bit d)) (bytes_bits (take (Z.to_nat (d_size d)) (d_buffer d))).

Definition dec_ok (d : nr_rlc_pdu_decoder_t) : Prop :=
  d_error d = 0 /\ 0 <= d_size d <= Z.of_nat (length (d_buffer d)) /\
  0 <= d_byte d /\ 0 <= d_bit d < 8.

(** Writing and reading a sequence of fields, each a value and its width. *)
Fixpoint put_fields (e : nr_rlc_pdu_encoder_t) (fs : list (Z * Z)) : res nr_rlc_pdu_encoder_t :=
  match fs with
  | [] => Ok e
  | (v, c) :: fs =>
    let* e := nr_rlc_pdu_encoder_put_bits e v c in put_fields e fs
  end.

Fixpoint get_fields (d : nr_rlc_pdu_decoder_t) (cs : list Z) : res (list Z * nr_rlc_pdu_decoder_t) :=
  match cs with
  | [] => Ok ([], d)
  | c :: cs =>
    let* (v, d) := nr_rlc_pdu_decoder_get_bits d c in
    let* (vs, d) := get_fields d cs in
    Ok (v :: vs, d)
  end.

Definition field_ok (f : Z * Z) : Prop := 0 < f.2 <= 31 /\ 0 <= f.1 < 2 ^ f.2.

Definition fields_bits (fs : list (Z * Z)) : list bool :=
  flat_map (fun f => bits_be (Z.to_nat f.2) f.1) fs.

(** ** Lemmas: bits of byte lists *)

Lemma bytes_bits_cons x l : bytes_bits (x :: l) = bits_be 8 x ++ bytes_bits l.
Proof. done. Qed.

Lemma length_bytes_bits l : length (bytes_bits l) = (8 * length l)%nat.
Proof.
  induction l; [done|]. rewrite bytes_bits_cons, length_app, IHl, length_bits_be. cbn. lia.
Qed.

Lemma bits_be_lookup n v j :
  (j < n)%nat -> bits_be n v !! j = Some (Z.testbit v (Z.of_nat n - 1 - Z.of_nat j)).
Proof.
  revert j. induction n as [|n IH]; intros j Hj; [lia|].
  destruct j as [|j]; cbn [bits_be].
  - cbn. do 2 f_equal. lia.
  - cbn. rewrite IH by lia. do 2 f_equal. lia.
Qed.

Lemma bytes_bits_lookup l i j x :
  l !! i = Some x -> (j < 8)%nat ->
  bytes_bits l !! (8 * i + j)%nat = Some (Z.testbit x (7 - Z.of_nat j)).
Proof.
  revert i. induction l as [|y l IH]; intros i Hi Hj; [done|].
  rewrite bytes_bits_cons. destruct i as [|i]; cbn in Hi.
  - injection Hi as ->. rewrite lookup_app_l by (rewrite length_bits_be; lia).
    replace (8 * 0 + j)%nat with j by lia. by rewrite bits_be_lookup by lia.
  - rewrite lookup_app_r by (rewrite length_bits_be; lia).
    rewrite length_bits_be.
    by replace (8 * S i + j - 8)%nat with (8 * i + j)%nat by lia; apply IH.
Qed.

Lemma bytes_bits_app l1 l2 : bytes_bits (l1 ++ l2) = bytes_bits l1 ++ bytes_bits l2.
Proof. apply flat_map_app. Qed.

(** ** Lemmas: the encoder *)

(** The byte in progress after one more bit. *)
Definition shift_in (cell : Z) (bit : bool) : Z :=
  if bit then Z.lor (u8 (Z.shiftl cell 1)) 1 else u8 (Z.shiftl cell 1).

Lemma shift_in_mod cell bit : shift_in cell bit = (2 * cell + Z.b2z bit) mod 2 ^ 8.
Proof.
  unfold shift_in, u8. rewrite Z.shiftl_mul_pow2 by lia. rewrite (Z.mul_comm cell).
  change (2 ^ 1) with 2. destruct bit; cbn [Z.b2z]; [|by rewrite Z.add_0_r].
  change (2 ^ 8) with (2 * 2 ^ 7). rewrite Z.mul_mod_distr_l by lia.
  assert (0 <= cell mod 2 ^ 7 < 2 ^ 7) by (apply Z.mod_pos_bound; lia).
  assert (Hl : Z.land (2 * (cell mod 2 ^ 7)) 1 = 0).
  { change 1 with (Z.ones 1). rewrite Z.land_ones by lia. rewrite Z.mul_comm.
    apply Z.mod_mul. lia. }
  rewrite <- Z.add_nocarry_lor by done.
  rewrite (Z.rem_mul_r (2 * cell + 1) 2) by lia.
  replace ((2 * cell + 1) mod 2) with 1 by (apply (Z.mod_unique _ _ cell); lia).
  replace ((2 * cell + 1) / 2) with cell by (apply (Z.div_unique _ _ _ 1); lia).
  lia.
Qed.

Lemma shift_in_bits k cell bit :
  (k <= 7)%nat -> bits_be (S k) (shift_in cell bit) = bits_be k cell ++ [bit].
Proof.
  intros. rewrite shift_in_mod, <- bits_be_snoc. apply (bits_be_mod (S k) 8). lia.
Qed.

Lemma put_bit_spec e b :
  enc_ok e -> 0 < room e ->
  exists e', put_bit e b = Ok e' /\ enc_ok e' /\ room e' = room e - 1 /\
    e_size e' = e_size e /\ written e' = written e ++ [negb (b =? 0)].
Proof.
  intros (Hsz & Hby & Hbi & Hroom) Hpos. unfold room in *. unfold put_bit.
  destruct (Z.eqb_spec (e_byte e) (e_size e)); [lia|]. cbn [e_byte e_bit e_size e_buffer update].
  assert (Hin : (Z.to_nat (e_byte e) < length (e_buffer e))%nat) by lia.
  set (old := buf_get (e_buffer e) (e_byte e)) in *.
  change (if negb (b =? 0) then _ else _) with (shift_in old (negb (b =? 0))).
  set (cell := shift_in old (negb (b =? 0))) in *.
  assert (Hu8 : forall k, (k <= 7)%nat -> bits_be (S k) (u8 cell) = bits_be k old ++ [negb (b =? 0)]).
  { intros k Hk. unfold u8. change (2 ^ 8) with (2 ^ Z.of_nat 8).
    rewrite (bits_be_mod (S k) 8) by lia. by apply shift_in_bits. }
  assert (Hl : buf_set (e_buffer e) (e_byte e) cell !! Z.to_nat (e_byte e) = Some (u8 cell))
    by (apply list_lookup_insert_eq; lia).
  assert (Hlen : length (buf_set (e_buffer e) (e_byte e) cell) = length (e_buffer e))
    by apply length_insert.
  assert (Htake : take (Z.to_nat (e_byte e)) (buf_set (e_buffer e) (e_byte e) cell)
                  = take (Z.to_nat (e_byte e)) (e_buffer e)) by (apply take_insert_ge; lia).
  destruct (Z.eqb_spec (e_bit e + 1) 8) as [Hb|Hb]; (eexists; split; [reflexivity|]);
    unfold enc_ok, room, written; cbn [e_byte e_bit e_size e_buffer update];
    rewrite ?Hlen; (split; [lia|]); (split; [lia|]); (split; [done|]).
  - replace (Z.to_nat (e_byte e + 1)) with (S (Z.to_nat (e_byte e))) by lia.
    rewrite (take_S_r _ _ (u8 cell)) by done.
    rewrite bytes_bits_app, Htake, bytes_bits_cons, Hu8 by lia.
    replace (Z.to_nat (e_bit e)) with 7%nat by lia. cbn [bytes_bits flat_map bits_be Z.to_nat].
    by rewrite !app_nil_r, app_assoc.
  - rewrite Htake, <- app_assoc. f_equal. unfold buf_get at 1. rewrite Hl. cbn [default].
    replace (Z.to_nat (e_bit e + 1)) with (S (Z.to_nat (e_bit e))) by lia. apply Hu8. lia.
Qed.

Lemma put_bits_loop_spec n : forall value e,
  enc_ok e -> Z.of_nat n <= room e ->
  exists e', put_bits_loop n value (Z.shiftl 1 (Z.of_nat n - 1)) e = Ok e' /\ enc_ok e' /\
    room e' = room e - Z.of_nat n /\ e_size e' = e_size e /\
    written e' = written e ++ bits_be n value.
Proof.
  induction n as [|n IH]; intros value e He Hr.
  - exists e. rewrite app_nil_r. split; [done|]. split; [done|]. split; [lia|done].
  - cbn [put_bits_loop].
    destruct (put_bit_spec e (Z.land value (Z.shiftl 1 (Z.of_nat (S n) - 1))))
      as (e1 & E1 & Hok1 & Hr1 & Hs1 & Hw1); [done|lia|].
    rewrite E1. cbn [rbind].
    replace (Z.shiftr (Z.shiftl 1 (Z.of_nat (S n) - 1)) 1) with (Z.shiftl 1 (Z.of_nat n - 1)).
    + destruct (IH value e1) as (e2 & E2 & Hok2 & Hr2 & Hs2 & Hw2); [done|lia|].
      exists e2. split; [done|]. split; [done|]. split; [lia|]. split; [lia|].
      rewrite Hw2, Hw1, <- app_assoc. cbn [bits_be app]. do 2 f_equal.
      replace (Z.of_nat (S n) - 1) with (Z.of_nat n) by lia.
      by rewrite Z.shiftl_1_l, testbit_land_pow2 by lia.
    + replace (Z.of_nat (S n) - 1) with (Z.of_nat n) by lia.
      destruct n as [|n]; [done|]. rewrite Z.shiftr_div_pow2, !Z.shiftl_1_l by lia.
      replace (Z.of_nat (S n)) with (Z.succ (Z.of_nat (S n) - 1)) at 2 by lia.
      rewrite Z.pow_succ_r by lia. rewrite Z.mul_comm. symmetry. apply Z.div_mul. lia.
Qed.

Lemma put_bits_spec e v c :
  enc_ok e -> 0 < c <= 31 -> c <= room e ->
  exists e', nr_rlc_pdu_encoder_put_bits e v c = Ok e' /\ enc_ok e' /\
    room e' = room e - c /\ e_size e' = e_size e /\
    written e' = written e ++ bits_be (Z.to_nat c) v.
Proof.
  intros He Hc Hr. unfold nr_rlc_pdu_encoder_put_bits.
  destruct (Z.gtb_spec c 31); [lia|].
  destruct (put_bits_loop_spec (Z.to_nat c) v e) as (e' & E & Hp); [done|lia|].
  rewrite Z2Nat.id in E, Hp by lia. eauto.
Qed.

(** Whatever the room, a call that returns leaves the encoder inside its buffer. *)
Lemma put_bit_keep e b e' :
  enc_ok e -> put_bit e b = Ok e' -> enc_ok e' /\ e_size e' = e_size e.
Proof.
  intros (Hs & Hby & Hbi & Hr) E. unfold put_bit in E. unfold room in Hr.
  destruct (Z.eqb_spec (e_byte e) (e_size e)) as [|Hne]; [done|].
  cbn [update e_bit e_byte e_buffer e_size] in E.
  destruct (Z.eqb_spec (e_bit e + 1) 8); injection E as <-; cbn [e_size]; (split; [|done]);
    unfold enc_ok, room, buf_set; cbn; rewrite length_insert; lia.
Qed.

Lemma put_bits_loop_keep n : forall v x e e',
  enc_ok e -> put_bits_loop n v x e = Ok e' -> enc_ok e' /\ e_size e' = e_size e.
Proof.
  induction n as [|n IH]; intros v x e e' Hok E; cbn [put_bits_loop] in E.
  - by injection E as <-.
  - bind_ok E. destruct (put_bit_keep _ _ _ Hok E0) as [Hok1 Hs1].
    destruct (IH _ _ _ _ Hok1 E) as [? ?]. split; [done|congruence].
Qed.

Lemma put_bits_keep e v c e' :
  enc_ok e -> nr_rlc_pdu_encoder_put_bits e v c = Ok e' -> enc_ok e' /\ e_size e' = e_size e.
Proof.
  intros Hok E. unfold nr_rlc_pdu_encoder_put_bits in E. destruct (_ >? 31); [done|].
  by eapply put_bits_loop_keep.
Qed.

(** Open the binds of an encoding that returned, keeping [enc_ok]. *)
Ltac put_bits_all H :=
  repeat match type of H with
  | rbind (nr_rlc_pdu_encoder_put_bits ?e _ _) _ = Ok _ =>
    let x := fresh "enc" in
    let E := fresh "Eenc" in
    apply rbind_ok in H as (x & E & H);
    match goal with Hok : enc_ok e |- _ =>
      destruct (put_bits_keep _ _ _ _ Hok E) as [? ?]; clear E
    end
  end.

(** Close [enc_ok x /\ e_size x = ...] from the last call, or from no call. *)
Ltac put_bits_last H :=
  lazymatch type of H with
  | nr_rlc_pdu_encoder_put_bits ?e _ _ = Ok _ =>
    match goal with Hok : enc_ok e |- _ =>
      destruct (put_bits_keep _ _ _ _ Hok H) as [? ?]; split; [done|congruence]
    end
  | Ok _ = Ok _ => injection H; intros; subst; split; [done|congruence]
  end.

Lemma fields_bits_cons v c fs : fields_bits ((v, c) :: fs) = bits_be (Z.to_nat c) v ++ fields_bits fs.
Proof. done. Qed.

Lemma length_fields_bits fs :
  Forall field_ok fs -> Z.of_nat (length (fields_bits fs)) = sumZ snd fs.
Proof.
  induction 1 as [|[v c] fs [Hc _] _ IH]; [done|].
  rewrite fields_bits_cons, length_app, length_bits_be. cbn in *. lia.
Qed.

Lemma put_fields_spec fs : forall e,
  Forall field_ok fs -> enc_ok e -> sumZ snd fs <= room e ->
  exists e', put_fields e fs = Ok e' /\ enc_ok e' /\
    room e' = room e - sumZ snd fs /\ e_size e' = e_size e /\
    written e' = written e ++ fields_bits fs.
Proof.
  induction fs as [|[v c] fs IH]; intros e Hf He Hr.
  - exists e. rewrite app_nil_r. cbn. split; [done|]. split; [done|]. split; [lia|done].
  - inversion_clear Hf as [|? ? [Hc Hv] Hf']. cbn in Hc, Hr.
    assert (0 <= sumZ snd fs).
    { apply sumZ_nonneg. eapply List.Forall_impl; [|exact Hf']. intros a [Ha _]. lia. }
    destruct (put_bits_spec e v c) as (e1 & E1 & Hok1 & Hr1 & Hs1 & Hw1); [done|done|lia|].
    destruct (IH e1) as (e2 & E2 & Hok2 & Hr2 & Hs2 & Hw2); [done|done|lia|].
    exists e2. cbn [put_fields]. rewrite E1. cbn [rbind]. split; [done|]. split; [done|].
    split; [cbn; lia|]. split; [lia|].
    by rewrite Hw2, Hw1, fields_bits_cons, app_assoc.
Qed.

(** ** Lemmas: the decoder *)

Lemma get_bit_spec d b tl :
  dec_ok d -> remaining d = b :: tl ->
  exists d', get_bit d = (Z.b2z b, d') /\ dec_ok d' /\ remaining d' = tl /\
    d_buffer d' = d_buffer d /\ d_size d' = d_size d /\
    8 * d_byte d' + d_bit d' = 8 * d_byte d + d_bit d + 1.
Proof.
  intros (Her & Hsz & Hby & Hbi) Hrem. unfold remaining in Hrem.
  set (pos := Z.to_nat (8 * d_byte d + d_bit d)) in *.
  set (bits := bytes_bits (take (Z.to_nat (d_size d)) (d_buffer d))) in *.
  assert (Hl : bits !! pos = Some b).
  { rewrite <- (Nat.add_0_r pos), <- lookup_drop, Hrem. done. }
  assert (Hbyte : d_byte d < d_size d).
  { apply lookup_lt_Some in Hl. subst bits pos.
    rewrite length_bytes_bits, length_take in Hl. lia. }
  assert (Hcell : exists x, take (Z.to_nat (d_size d)) (d_buffer d) !! Z.to_nat (d_byte d) = Some x)
    by (apply lookup_lt_is_Some; rewrite length_take; lia).
  destruct Hcell as [x Hx].
  pose proof (bytes_bits_lookup _ _ (Z.to_nat (d_bit d)) _ Hx) as Hb. 
  replace (8 * Z.to_nat (d_byte d) + Z.to_nat (d_bit d))%nat with pos in Hb by lia.
  fold bits in Hb. rewrite Hl in Hb. injection (Hb ltac:(lia)) as ->. clear Hb.
  assert (Htl : tl = drop (S pos) bits).
  { replace (S pos) with (pos + 1)%nat by lia. by rewrite <- drop_drop, Hrem. }
  assert (Hg : buf_get (d_buffer d) (d_byte d) = x).
  { unfold buf_get. rewrite lookup_take_Some in Hx. by rewrite (proj1 Hx). }
  unfold get_bit. destruct (Z.geb_spec (d_byte d) (d_size d)); [lia|].
  rewrite Hg. cbn [d_byte d_bit d_error d_size d_buffer update].
  replace (Z.land (Z.shiftr x (7 - d_bit d)) 1)
    with (Z.b2z (Z.testbit x (7 - Z.of_nat (Z.to_nat (d_bit d))))).
  2:{ rewrite Z2Nat.id by lia. change 1 with (Z.ones 1). rewrite Z.land_ones by lia.
      change (2 ^ 1) with 2. rewrite Z.shiftr_div_pow2 by lia. apply Z.testbit_spec'. lia. }
  destruct (Z.eqb_spec (d_bit d + 1) 8); (eexists; split; [reflexivity|]);
    unfold dec_ok, remaining; cbn [d_byte d_bit d_error d_size d_buffer update];
    (split; [lia|]); (split; [fold bits; rewrite Htl; f_equal; lia|]);
    (split; [done|]); (split; [done|]); lia.
Qed.

Lemma get_bit_over d :
  remaining d = [] -> dec_ok d -> d_error (snd (get_bit d)) = 1.
Proof.
  intros Hrem (Her & Hsz & Hby & Hbi). unfold get_bit.
  destruct (Z.geb_spec (d_byte d) (d_size d)) as [|Hlt]; [done|exfalso].
  apply (f_equal length) in Hrem. unfold remaining in Hrem.
  rewrite length_drop, length_bytes_bits, length_take in Hrem. cbn in Hrem. lia.
Qed.

Lemma lor_shiftl_b2z r b : 0 <= r -> Z.lor (Z.shiftl r 1) (Z.b2z b) = 2 * r + Z.b2z b.
Proof.
  intros. rewrite Z.shiftl_mul_pow2, Z.mul_comm by lia. change (2 ^ 1) with 2.
  rewrite Z.add_nocarry_lor; [done|]. destruct b; [|apply Z.land_0_r].
  change (Z.b2z true) with (Z.ones 1). rewrite Z.land_ones, Z.mul_comm by lia.
  apply Z.mod_mul. lia.
Qed.

Lemma get_bits_loop_spec n : forall d ret,
  dec_ok d -> 0 <= ret -> (n <= length (remaining d))%nat ->
  exists d', get_bits_loop n ret d
               = (ret * 2 ^ Z.of_nat n + Z_of_bits (take n (remaining d)), d') /\
    dec_ok d' /\ remaining d' = drop n (remaining d) /\
    d_buffer d' = d_buffer d /\ d_size d' = d_size d /\
    8 * d_byte d' + d_bit d' = 8 * d_byte d + d_bit d + Z.of_nat n.
Proof.
  induction n as [|n IH]; intros d ret Hd Hret Hlen.
  - exists d. rewrite drop_0. change (Z_of_bits (take 0 _)) with 0.
    change (2 ^ Z.of_nat 0) with 1. cbn [get_bits_loop].
    split; [f_equal; lia|]. repeat (split; [done|]). lia.
  - destruct (remaining d) as [|b tl] eqn:Hrem; cbn in Hlen; [lia|].
    destruct (get_bit_spec d b tl Hd Hrem) as (d1 & E1 & Hok1 & Hr1 & Hbf1 & Hs1 & Hp1).
    cbn [get_bits_loop]. rewrite E1, lor_shiftl_b2z by done.
    rewrite (proj1 Hok1). cbn [Z.eqb negb].
    destruct (IH d1 (2 * ret + Z.b2z b)) as (d2 & E2 & Hok2 & Hr2 & Hbf2 & Hs2 & Hp2);
      [done|destruct b; cbn; lia|rewrite Hr1; lia|].
    exists d2. rewrite E2, Hr1 in *. split.
    + f_equal. cbn [take]. rewrite Z_of_bits_cons, length_take, Nat.min_l by lia.
      rewrite Nat2Z.inj_succ, Z.pow_succ_r by lia. lia.
    + split; [done|]. split; [done|]. split; [congruence|]. split; [congruence|]. lia.
Qed.

Lemma get_bits_loop_over n : forall d ret,
  dec_ok d -> 0 <= ret -> (length (remaining d) < n)%nat ->
  fst (get_bits_loop n ret d) = -1 /\ d_error (snd (get_bits_loop n ret d)) = 1.
Proof.
  induction n as [|n IH]; intros d ret Hd Hret Hlen; [lia|].
  cbn [get_bits_loop]. destruct (remaining d) as [|b tl] eqn:Hrem; cbn in Hlen.
  - pose proof (get_bit_over d Hrem Hd) as He. destruct (get_bit d) as [v d1].
    cbn in He |- *. by rewrite He.
  - destruct (get_bit_spec d b tl Hd Hrem) as (d1 & E1 & Hok1 & Hr1 & _).
    rewrite E1, lor_shiftl_b2z by done. rewrite (proj1 Hok1). cbn [Z.eqb negb].
    apply IH; [done|destruct b; cbn; lia|rewrite Hr1; lia].
Qed.

(** One call that finds its bits. *)
Lemma get_bits_spec d c v tl :
  dec_ok d -> 0 < c <= 31 -> 0 <= v < 2 ^ c ->
  remaining d = bits_be (Z.to_nat c) v ++ tl ->
  exists d', nr_rlc_pdu_decoder_get_bits d c = Ok (v, d') /\ dec_ok d' /\
    remaining d' = tl /\ d_buffer d' = d_buffer d /\ d_size d' = d_size d /\
    8 * d_byte d' + d_bit d' = 8 * d_byte d + d_bit d + c.
Proof.
  intros Hd Hc Hv Hrem. unfold nr_rlc_pdu_decoder_get_bits.
  destruct (Z.gtb_spec c 31); [lia|].
  assert (Hlen : length (bits_be (Z.to_nat c) v) = Z.to_nat c) by apply length_bits_be.
  destruct (get_bits_loop_spec (Z.to_nat c) d 0) as (d' & E & Hok & Hr & Hbf & Hs & Hp);
    [done|lia|rewrite Hrem, length_app; lia|].
  exists d'. rewrite E, Hr, Hrem, Z.mul_0_l, Z.add_0_l.
  rewrite take_app_length', drop_app_length' by done.
  rewrite Z_of_bits_small by (rewrite Z2Nat.id by lia; done).
  repeat (split; [done|]). lia.
Qed.

(** One call on any input: an error, or a value of the requested width and a
    decoder [c] bits further. *)
Lemma get_bits_total d c :
  dec_ok d -> 0 <= c <= 31 ->
  exists v d', nr_rlc_pdu_decoder_get_bits d c = Ok (v, d') /\
    (nr_rlc_pdu_decoder_in_error d' = true \/
     nr_rlc_pdu_decoder_in_error d' = false /\ 0 <= v < 2 ^ c /\ dec_ok d' /\
     d_buffer d' = d_buffer d /\ d_size d' = d_size d /\
     8 * d_byte d' + d_bit d' = 8 * d_byte d + d_bit d + c).
Proof.
  intros Hd Hc. unfold nr_rlc_pdu_decoder_get_bits. destruct (Z.gtb_spec c 31); [lia|].
  destruct (decide (Z.to_nat c <= length (remaining d))%nat) as [Hl|Hl].
  - destruct (get_bits_loop_spec (Z.to_nat c) d 0) as (d' & E & Hok & _ & Hbf & Hs & Hp); [done|lia|done|].
    rewrite E. eexists _, d'. split; [done|]. right.
    pose proof (Z_of_bits_bound (take (Z.to_nat c) (remaining d))) as Hb.
    rewrite length_take, Nat.min_l, Z2Nat.id in Hb by lia.
    unfold nr_rlc_pdu_decoder_in_error. rewrite (proj1 Hok). repeat (split; [done|]). lia.
  - destruct (get_bits_loop_over (Z.to_nat c) d 0) as [_ H2]; [done|lia|lia|].
    destruct (get_bits_loop _ _ _) as [v d']. exists v, d'. split; [done|]. left.
    unfold nr_rlc_pdu_decoder_in_error. cbn in H2. by rewrite H2.
Qed.

(** Run the next [getbits] of the goal: the error branch, then the branch with the
    value [v] and the decoder [d']. *)
Ltac get_bits_step v d' :=
  lazymatch goal with
  | |- context [nr_rlc_pdu_decoder_get_bits ?d ?c] =>
    destruct (get_bits_total d c) as (v & d' & -> & [->|(-> & ? & ? & ? & ? & ?)]);
      [try done|try lia| |]
  end.

Lemma get_fields_spec fs : forall d tl,
  dec_ok d -> Forall field_ok fs -> remaining d = fields_bits fs ++ tl ->
  exists d', get_fields d (snd <$> fs) = Ok (fst <$> fs, d') /\ dec_ok d' /\
    remaining d' = tl /\ 8 * d_byte d' + d_bit d' = 8 * d_byte d + d_bit d + sumZ snd fs.
Proof.
  induction fs as [|[v c] fs IH]; intros d tl Hd Hf Hrem.
  - exists d. cbn. repeat (split; [done|]). lia.
  - inversion_clear Hf as [|? ? [Hc Hv] Hf']. cbn in Hc, Hv.
    rewrite fields_bits_cons, <- app_assoc in Hrem.
    destruct (get_bits_spec d c v _ Hd Hc Hv Hrem) as (d1 & E1 & Hok1 & Hr1 & _ & _ & Hp1).
    destruct (IH d1 tl Hok1 Hf' Hr1) as (d2 & E2 & Hok2 & Hr2 & Hp2).
    exists d2. cbn [get_fields fmap list_fmap snd fst]. rewrite E1. cbn [rbind]. 
    change (list_fmap _ _ snd fs) with (snd <$> fs). rewrite E2. cbn.
    repeat (split; [done|]). lia.
Qed.

(** ** Lemmas shared by the entities *)

(** After whole bytes were written, the first bytes of the buffer are those. *)
Lemma encoder_bytes e n :
  enc_ok e -> room e = 8 * e_size e - 8 * n ->
  e_byte e = n /\ bytes_bits (take (Z.to_nat n) (e_buffer e)) = written e.
Proof.
  intros (Hsz & Hby & Hbi & Hr) Hroom. unfold room in *.
  assert (e_byte e = n /\ e_bit e = 0) as [<- Hz] by lia.
  split; [done|]. unfold written. rewrite Hz. cbn [Z.to_nat bits_be]. by rewrite app_nil_r.
Qed.

Lemma enc_ok_init buffer :
  enc_ok (nr_rlc_pdu_encoder_init buffer (Z.of_nat (length buffer))).
Proof. unfold enc_ok, room. cbn. lia. Qed.

Lemma dec_ok_init buffer :
  dec_ok (nr_rlc_pdu_decoder_init buffer (Z.of_nat (length buffer))).
Proof. unfold dec_ok. cbn. lia. Qed.

Lemma remaining_init buffer :
  remaining (nr_rlc_pdu_decoder_init buffer (Z.of_nat (length buffer))) = bytes_bits buffer.
Proof.
  unfold remaining. cbn [nr_rlc_pdu_decoder_init d_byte d_bit d_size d_buffer].
  rewrite drop_0, take_ge by lia. done.
Qed.

Lemma list_add_perm cmp l p : Permutation (nr_rlc_pdu_list_add cmp l p) (p :: l).
Proof. apply insert_before_perm. Qed.

Lemma list_add_sorted dist l p :
  (forall q, q ∈ l -> dist (pdu_sn q) = dist (pdu_sn p) -> pdu_sn q = pdu_sn p) ->
  StronglySorted (pdu_before dist) l ->
  StronglySorted (pdu_before dist) (nr_rlc_pdu_list_add (fun a b => dist a - dist b) l p).
Proof.
  intros Hinj Hs. unfold nr_rlc_pdu_list_add. apply insert_before_sorted; [| | |done];
    unfold pdu_before.
  - intros y z [Hyz|[Hyz ?]] Hst; b2p; destruct Hst as [Hst|Hst]; b2p.
    + left. lia.
    + left. congruence.
    + left. rewrite <- Hyz. lia.
    + right. split; [congruence|lia].
  - intros y Hst. b2p. destruct Hst; b2p; [left; lia|right; split; [congruence|lia]].
  - intros y Hy Hst. b2p. destruct (decide (dist (pdu_sn y) = dist (pdu_sn p))) as [E|E].
    + right. rewrite (Hinj y Hy E) in *. split; [done|].
      match goal with H : _ \/ _ |- _ => destruct H; b2p; lia end.
    + left. lia.
Qed.

(** ** Properties *)

(** Codec round trip.  Fields written one after the other with
    [nr_rlc_pdu_encoder_put_bits] into a buffer with room for them, filling [n]
    whole bytes, are read back by [nr_rlc_pdu_decoder_get_bits] with the same
    widths from any PDU that starts with those [n] bytes, and the decoder ends
    exactly at byte [n] without error. *)
Theorem codec_roundtrip (buffer : list Z) (fs : list (Z * Z)) (n : nat) :
  Forall field_ok fs -> sumZ snd fs = 8 * Z.of_nat n -> (n <= length buffer)%nat ->
  exists e,
    put_fields (nr_rlc_pdu_encoder_init buffer (Z.of_nat (length buffer))) fs = Ok e /\
    e_byte e = Z.of_nat n /\ e_bit e = 0 /\ length (e_buffer e) = length buffer /\
    forall tail, let pdu := take n (e_buffer e) ++ tail in
      exists d, get_fields (nr_rlc_pdu_decoder_init pdu (Z.of_nat (length pdu))) (snd <$> fs)
                = Ok (fst <$> fs, d) /\
        nr_rlc_pdu_decoder_in_error d = false /\ d_byte d = Z.of_nat n /\ d_bit d = 0.
Proof.
  intros Hf Hsum Hn.
  set (e0 := nr_rlc_pdu_encoder_init buffer (Z.of_nat (length buffer))).
  destruct (put_fields_spec fs e0) as (e & E & Hok & Hr & Hs & Hw);
    [done|apply enc_ok_init|unfold room; cbn; lia|].
  destruct (encoder_bytes e (Z.of_nat n)) as [Hb Hbits]; [done|rewrite Hr, Hs; unfold room; cbn; lia|].
  assert (Hlen : length (e_buffer e) = length buffer)
    by (pose proof (proj1 Hok); cbn in Hs; lia).
  exists e. split; [done|]. split; [done|].
  split; [destruct Hok as (_ & _ & ? & _); unfold room in *; cbn in *; lia|]. split; [done|].
  intros tail pdu. rewrite Nat2Z.id, Hw in Hbits.
  destruct (get_fields_spec fs (nr_rlc_pdu_decoder_init pdu (Z.of_nat (length pdu)))
              (bytes_bits tail)) as (d & Ed & (Her & _ & _ & Hbi) & _ & Hp);
    [apply dec_ok_init|done|rewrite remaining_init; subst pdu; by rewrite bytes_bits_app, Hbits|].
  exists d. cbn in Hp. unfold nr_rlc_pdu_decoder_in_error. rewrite Her.
  split; [done|]. split; [done|]. lia.
Qed.

Lemma codec_roundtrip_witness :
  exists e,
    put_fields (nr_rlc_pdu_encoder_init [0; 0; 0; 0] 4) [(1, 1); (0, 1); (2, 2); (1234, 12)] = Ok e
    /\ e_byte e = 2.
Proof.
  destruct (codec_roundtrip [0; 0; 0; 0] [(1, 1); (0, 1); (2, 2); (1234, 12)] 2)
    as (e & E & Hb & _); [|reflexivity|cbn; lia|].
  - repeat constructor; cbn; lia.
  - exists e. split; [exact E|exact Hb].
Defined.

(** Reading [count] bits, on every branch: when enough bits remain the result
    is the number they spell, between 0 and [2^count - 1] (so it fits an [int]),
    and no error is raised; otherwise the error flag is raised and -1 returned. *)
Theorem get_bits_result (d : nr_rlc_pdu_decoder_t) (count : Z) :
  dec_ok d -> 0 <= count <= 31 ->
  exists v d', nr_rlc_pdu_decoder_get_bits d count = Ok (v, d') /\
    if count <=? Z.of_nat (length (remaining d))
    then v = Z_of_bits (take (Z.to_nat count) (remaining d)) /\ 0 <= v < 2 ^ count /\
         nr_rlc_pdu_decoder_in_error d' = false /\ remaining d' = drop (Z.to_nat count) (remaining d)
    else v = -1 /\ nr_rlc_pdu_decoder_in_error d' = true.
Proof.
  intros Hd Hc. unfold nr_rlc_pdu_decoder_get_bits.
  destruct (Z.gtb_spec count 31); [lia|].
  destruct (Z.leb_spec count (Z.of_nat (length (remaining d)))).
  - destruct (get_bits_loop_spec (Z.to_nat count) d 0) as (d' & E & Hok & Hr & _); [done|lia|lia|].
    exists (Z_of_bits (take (Z.to_nat count) (remaining d))), d'. rewrite E.
    split; [done|]. split; [done|].
    pose proof (Z_of_bits_bound (take (Z.to_nat count) (remaining d))) as Hb.
    rewrite length_take, Nat.min_l, Z2Nat.id in Hb by lia.
    unfold nr_rlc_pdu_decoder_in_error. rewrite (proj1 Hok). done.
  - destruct (get_bits_loop_over (Z.to_nat count) d 0) as [H1 H2]; [done|lia|lia|].
    destruct (get_bits_loop _ _ _) as [v d'] eqn:E. cbn in *. subst v.
    exists (-1), d'. unfold nr_rlc_pdu_decoder_in_error. by rewrite H2.
Qed.

Lemma get_bits_result_witness :
  exists v d', nr_rlc_pdu_decoder_get_bits (nr_rlc_pdu_decoder_init [165] 1) 4 = Ok (v, d') /\ v = 10.
Proof.
  destruct (get_bits_result (nr_rlc_pdu_decoder_init [165] 1) 4) as (v & d' & E & H).
  - unfold dec_ok; cbn; lia.
  - lia.
  - exists v, d'. split; [exact E|]. destruct H as [Hv _]. rewrite Hv. reflexivity.
Defined.

(** [nr_rlc_pdu_list_add] inserts exactly the new PDU and keeps the list
    sorted by SN distance and then by segment offset, for any distance that does
    not identify the new SN with another SN of the list. *)
Theorem pdu_list_add_sorted (dist : Z -> Z) (l : list nr_rlc_pdu_t) (p : nr_rlc_pdu_t) :
  (forall q, q ∈ l -> dist (pdu_sn q) = dist (pdu_sn p) -> pdu_sn q = pdu_sn p) ->
  StronglySorted (pdu_before dist) l ->
  let l' := nr_rlc_pdu_list_add (fun a b => dist a - dist b) l p in
  StronglySorted (pdu_before dist) l' /\ Permutation l' (p :: l).
Proof. intros. split; [by apply list_add_sorted|apply list_add_perm]. Qed.

Lemma pdu_list_add_sorted_witness :
  let q := mk_pdu 4095 (Some [1]) 1 0 true true in
  let p := mk_pdu 3 (Some [2]) 1 0 true true in
  StronglySorted (pdu_before (fun a => (a - 4090) mod 4096))
    (nr_rlc_pdu_list_add (fun a b => (a - 4090) mod 4096 - (b - 4090) mod 4096) [q] p).
Proof.
  intros q p. apply (pdu_list_add_sorted (fun a => (a - 4090) mod 4096) [q] p).
  - intros r Hr. apply list_elem_of_singleton in Hr as ->. vm_compute. discriminate.
  - repeat constructor.
Defined.
