(* ===== verification/RlcSdu.v ===== *)
(** RLC SDUs and SDU segments: [nr_rlc_sdu.c] and [nr_rlc_sdu.h], with the
    declarations of [nr_rlc_entity.h] that the three entities share.

    A segment points to its SDU, which several segments share, so SDUs live in a
    heap (a map from addresses to SDUs) and a segment holds an address.  A segment
    has an address of its own because the lists keep an [end] pointer.  The
    [next] chain of segments is a Rocq list. *)

From S2P Require Import Prelude.
From Stdlib Require Import Sorting.Sorted Sorting.Permutation.

(** ** Shared declarations of nr_rlc_entity.h *)

Definition NR_SDU_MAX : Z := 16000.

Record nr_rlc_entity_buffer_status_t := mk_bstatus {
  status_size : Z;
  bs_tx_size : Z;
  bs_retx_size : Z
}.

#[export] Instance eta_bstatus : Eta nr_rlc_entity_buffer_status_t :=
  fun b => mk_bstatus (status_size b) (bs_tx_size b) (bs_retx_size b).

(** The callbacks an entity is created with; the model records their calls. *)
Inductive rlc_event : Type :=
| deliver_sdu (buf : list Z)
| sdu_successful_delivery (sdu_id : Z)
| max_retx_reached.

(** ** SDUs and segments *)

Definition addr := positive.

Record nr_rlc_sdu_t := mk_sdu {
  sdu_sn : Z;
  upper_layer_id : Z;
  sdu_data : list Z;
  sdu_size : Z;
  retx_count : Z;
  ref_count : Z;
  free_count : Z
}.

#[export] Instance eta_sdu : Eta nr_rlc_sdu_t :=
  fun s => mk_sdu (sdu_sn s) (upper_layer_id s) (sdu_data s) (sdu_size s)
                  (retx_count s) (ref_count s) (free_count s).

Record nr_rlc_sdu_segment_t := mk_seg {
  seg_addr : addr;
  seg_sdu : addr;
  seg_size : Z;
  seg_so : Z;
  seg_is_first : bool;
  seg_is_last : bool
}.

#[export] Instance eta_seg : Eta nr_rlc_sdu_segment_t :=
  fun s => mk_seg (seg_addr s) (seg_sdu s) (seg_size s) (seg_so s)
                  (seg_is_first s) (seg_is_last s).

(** The live SDUs and the next address [malloc] hands out. *)
Record sdu_heap := mk_heap {
  h_sdus : gmap addr nr_rlc_sdu_t;
  h_next : addr
}.

#[export] Instance eta_heap : Eta sdu_heap := fun h => mk_heap (h_sdus h) (h_next h).

Definition empty_heap : sdu_heap := mk_heap ∅ 1%positive.

(** [seg->sdu->...]: reading through a freed SDU is a fault. *)
Definition get_sdu (h : sdu_heap) (a : addr) : res nr_rlc_sdu_t :=
  match h_sdus h !! a with Some s => Ok s | None => Fault UseAfterFree end.

Definition put_sdu (h : sdu_heap) (a : addr) (s : nr_rlc_sdu_t) : sdu_heap :=
  h <| h_sdus := <[a := s]> (h_sdus h) |>.

Definition nr_rlc_new_sdu (h : sdu_heap) (buffer : list Z) (size id : Z)
  : nr_rlc_sdu_segment_t * sdu_heap :=
  let a := h_next h in
  let s := (h_next h + 1)%positive in
  let sdu := mk_sdu (-1) id (take (Z.to_nat size) buffer) size (-1) 1 0 in
  (mk_seg s a size 0 true true,
   mk_heap (<[a := sdu]> (h_sdus h)) (h_next h + 2)%positive).

(** Returns whether the SDU itself was freed. *)
Definition nr_rlc_free_sdu_segment (h : sdu_heap) (seg : nr_rlc_sdu_segment_t)
  : res (bool * sdu_heap) :=
  let* s := get_sdu h (seg_sdu seg) in
  let s := s <| free_count := free_count s + 1 |> in
  if free_count s =? ref_count s
  then Ok (true, h <| h_sdus := delete (seg_sdu seg) (h_sdus h) |>)
  else Ok (false, put_sdu h (seg_sdu seg) s).

(** The prefix of a list up to the segment at address [a], if it is there. *)
Fixpoint upto (a : addr) (l : list nr_rlc_sdu_segment_t) : option (list nr_rlc_sdu_segment_t) :=
  match l with
  | [] => None
  | x :: tl => if decide (seg_addr x = a) then Some [x] else cons x <$> upto a tl
  end.

(** [( *end )->next = sdu]: writing through a null [end] is a fault, and so is
    writing through an [end] that is not a node of this list; the nodes behind
    [end], if any, drop out of the list. *)
Definition nr_rlc_sdu_segment_list_append
  (l : list nr_rlc_sdu_segment_t) (list_end : option addr) (sdu : nr_rlc_sdu_segment_t)
  : res (list nr_rlc_sdu_segment_t * option addr) :=
  match l with
  | [] => Ok ([sdu], Some (seg_addr sdu))
  | _ =>
    match list_end with
    | None => Fault NullDeref
    | Some a =>
      match upto a l with
      | None => Fault Inconsistent
      | Some l' => Ok (l' ++ [sdu], Some (seg_addr sdu))
      end
    end
  end.

Fixpoint nr_rlc_sdu_segment_list_add (sn_compare : Z -> Z -> Z) (h : sdu_heap)
  (l : list nr_rlc_sdu_segment_t) (seg : nr_rlc_sdu_segment_t)
  : res (list nr_rlc_sdu_segment_t) :=
  match l with
  | [] => Ok [seg]
  | cur :: tl =>
    let* c := get_sdu h (seg_sdu cur) in
    let* s := get_sdu h (seg_sdu seg) in
    if (sn_compare (sdu_sn c) (sdu_sn s) >? 0)
       || ((sdu_sn c =? sdu_sn s) && (seg_so cur >? seg_so seg))
    then Ok (seg :: l)
    else let* tl' := nr_rlc_sdu_segment_list_add sn_compare h tl seg in Ok (cur :: tl')
  end.

Fixpoint nr_rlc_free_sdu_segment_list (h : sdu_heap) (l : list nr_rlc_sdu_segment_t)
  : res sdu_heap :=
  match l with
  | [] => Ok h
  | cur :: tl =>
    let* (_, h) := nr_rlc_free_sdu_segment h cur in
    nr_rlc_free_sdu_segment_list h tl
  end.
