(* ===== verification/RlcSegs.v ===== *)
(** Memory of the transmission side of RLC, shared by the three modes: the segments an
    entity holds and the SDUs they point to.

    [segs_ok h l] says that the lists of an entity, taken together as [l], own the heap
    [h]: every segment points to a live SDU and lies inside it, the segments of one SDU
    are disjoint, and the reference count of every live SDU is the number of its
    segments.  The lemmas show that allocation, segmentation and release keep it, so no
    operation reads freed memory, frees twice or leaks. *)

From S2P Require Import Prelude.
From S2P Require Import RlcSdu.
From Stdlib Require Import Sorting.Permutation.

(** ** The invariant *)

(** A segment lies inside its SDU; it starts at byte 0 exactly when it is the first, and
    ends at the last byte exactly when it is the last. *)
Definition seg_ok (s : nr_rlc_sdu_t) (seg : nr_rlc_sdu_segment_t) : Prop :=
  0 <= seg_so seg < 65536 /\ 0 < seg_size seg /\
  seg_so seg + seg_size seg <= Z.of_nat (length (sdu_data s)) /\
  (seg_is_first seg = true <-> seg_so seg = 0) /\
  (seg_is_last seg = true <-> seg_so seg + seg_size seg = Z.of_nat (length (sdu_data s))).

(** The number of segments of [l] that point to the SDU at [a]. *)
Definition refs (a : addr) (l : list nr_rlc_sdu_segment_t) : Z :=
  sumZ (fun x => if decide (seg_sdu x = a) then 1 else 0) l.

Definition disjoint_segs (x y : nr_rlc_sdu_segment_t) : Prop :=
  seg_so x + seg_size x <= seg_so y \/ seg_so y + seg_size y <= seg_so x.

Definition sdu_owned (l : list nr_rlc_sdu_segment_t) (a : addr) (s : nr_rlc_sdu_t) : Prop :=
  0 <= free_count s /\ ref_count s - free_count s = refs a l /\ 0 < refs a l /\
  sdu_size s = Z.of_nat (length (sdu_data s)) /\ sdu_size s <= NR_SDU_MAX.

Record segs_ok (h : sdu_heap) (l : list nr_rlc_sdu_segment_t) : Prop := mk_segs_ok {
  segs_nodup : NoDup (seg_addr <$> l);
  segs_fresh : forall x, x ∈ l -> (seg_addr x < h_next h)%positive;
  segs_live : forall x, x ∈ l -> exists s, h_sdus h !! seg_sdu x = Some s /\ seg_ok s x;
  segs_disjoint : forall x y, x ∈ l -> y ∈ l -> seg_addr x <> seg_addr y ->
                  seg_sdu x = seg_sdu y -> disjoint_segs x y;
  sdus_fresh : forall a s, h_sdus h !! a = Some s -> (a < h_next h)%positive;
  sdus_owned : forall a s, h_sdus h !! a = Some s -> sdu_owned l a s
}.

(** The bytes of all live SDUs. *)
Definition heap_bytes (h : sdu_heap) : Z := sumZ (fun p => sdu_size p.2) (map_to_list (h_sdus h)).

(** ** Counting *)

Lemma refs_cons a x l : refs a (x :: l) = (if decide (seg_sdu x = a) then 1 else 0) + refs a l.
Proof. done. Qed.

Lemma refs_nonneg a l : 0 <= refs a l.
Proof. apply sumZ_nonneg, Forall_true. intros x. destruct (decide _); lia. Qed.

#[export] Instance refs_perm a : Proper ((≡ₚ) ==> eq) (refs a).
Proof. intros l l'. apply sumZ_perm. Qed.

Lemma refs_pos a x l : x ∈ l -> seg_sdu x = a -> 0 < refs a l.
Proof.
  intros (l' & ->)%elem_of_Permutation <-. rewrite refs_cons, decide_True by done.
  pose proof (refs_nonneg (seg_sdu x) l'). lia.
Qed.

Lemma refs_zero a l : (forall x, x ∈ l -> seg_sdu x <> a) -> refs a l = 0.
Proof.
  induction l as [|x l IH]; intros H; [done|]. rewrite refs_cons, decide_False, IH; [done| |].
  - intros y Hy. apply H. by right.
  - apply H. left.
Qed.

(** The order of the segments does not matter. *)
#[export] Instance sdu_owned_perm : Proper ((≡ₚ) ==> eq ==> eq ==> iff) sdu_owned.
Proof. intros l l' Hl a ? <- s ? <-. unfold sdu_owned. by rewrite Hl. Qed.

Lemma segs_ok_perm h l l' : l ≡ₚ l' -> segs_ok h l -> segs_ok h l'.
Proof.
  intros Hl [H1 H2 H3 H4 H5 H6]. split; try done.
  - by rewrite <- Hl.
  - intros x Hx. apply H2. by rewrite Hl.
  - intros x Hx. apply H3. by rewrite Hl.
  - intros x y Hx Hy. apply H4; by rewrite Hl.
  - intros a s Hs. rewrite <- Hl. by apply H6.
Qed.

#[export] Instance segs_ok_proper h : Proper ((≡ₚ) ==> iff) (segs_ok h).
Proof. intros l l' Hl. split; apply segs_ok_perm; [done|by symmetry]. Qed.

Lemma heap_bytes_insert m n a s :
  m !! a = None -> heap_bytes (mk_heap (<[a := s]> m) n) = sdu_size s + heap_bytes (mk_heap m n).
Proof.
  intros Ha. unfold heap_bytes. cbn [h_sdus]. by rewrite (sumZ_perm _ _ _ (map_to_list_insert m a s Ha)).
Qed.

Lemma heap_bytes_delete m n a s :
  m !! a = Some s -> heap_bytes (mk_heap (delete a m) n) = heap_bytes (mk_heap m n) - sdu_size s.
Proof.
  intros Ha. rewrite <- (insert_delete_id m a s Ha) at 2.
  rewrite heap_bytes_insert by apply lookup_delete_eq. lia.
Qed.

Lemma heap_bytes_update m n a s s' :
  m !! a = Some s -> sdu_size s' = sdu_size s ->
  heap_bytes (mk_heap (<[a := s']> m) n) = heap_bytes (mk_heap m n).
Proof.
  intros Ha Hs. rewrite <- insert_delete_eq.
  rewrite heap_bytes_insert by apply lookup_delete_eq. rewrite (heap_bytes_delete _ _ _ s) by done. lia.
Qed.

Lemma heap_bytes_next m n n' : heap_bytes (mk_heap m n) = heap_bytes (mk_heap m n').
Proof. done. Qed.

(** ** Operations *)

Lemma segs_get h l x : segs_ok h l -> x ∈ l ->
  exists s, h_sdus h !! seg_sdu x = Some s /\ get_sdu h (seg_sdu x) = Ok s /\ seg_ok s x /\
    sdu_size s = Z.of_nat (length (sdu_data s)) /\ sdu_size s <= NR_SDU_MAX.
Proof.
  intros Hok Hx. destruct (segs_live h l Hok x Hx) as (s & Hs & Hseg). exists s.
  destruct (sdus_owned h l Hok _ _ Hs) as (_ & _ & _ & ? & ?).
  split; [done|]. split; [|done]. unfold get_sdu. by rewrite Hs.
Qed.

Lemma segs_ok_empty : segs_ok empty_heap [].
Proof.
  split; cbn; try (intros; set_solver). by apply NoDup_nil_2.
Qed.

(** No segment is left, so no SDU is. *)
Lemma segs_ok_nil h : segs_ok h [] -> h_sdus h = ∅.
Proof.
  intros Hok. apply map_empty. intros a. destruct (h_sdus h !! a) as [s|] eqn:E; [|done].
  destruct (sdus_owned h [] Hok a s E) as (_ & _ & H & _). cbn in H. lia.
Qed.

(** Allocation of an SDU that is not empty. *)
Lemma segs_ok_new h l buffer id :
  segs_ok h l -> 0 < Z.of_nat (length buffer) <= NR_SDU_MAX ->
  let r := nr_rlc_new_sdu h buffer (Z.of_nat (length buffer)) id in
  segs_ok r.2 (r.1 :: l) /\ heap_bytes r.2 = heap_bytes h + Z.of_nat (length buffer) /\
  h_sdus r.2 = <[h_next h := mk_sdu (-1) id buffer (Z.of_nat (length buffer)) (-1) 1 0]> (h_sdus h) /\
  h_sdus h !! h_next h = None /\
  seg_sdu r.1 = h_next h /\ seg_so r.1 = 0 /\ seg_size r.1 = Z.of_nat (length buffer) /\
  seg_is_first r.1 = true /\ seg_is_last r.1 = true.
Proof.
  intros Hok Hb. unfold NR_SDU_MAX in Hb.
  assert (Hnone : h_sdus h !! h_next h = None).
  { destruct (h_sdus h !! h_next h) eqn:E; [|done]. apply (sdus_fresh h l Hok) in E. lia. }
  unfold nr_rlc_new_sdu. rewrite Nat2Z.id, firstn_all. cbn [fst snd h_sdus].
  set (sdu := mk_sdu _ _ _ _ _ _ _). set (seg := mk_seg _ _ _ _ _ _).
  assert (Hold : forall x, x ∈ l -> seg_sdu x <> h_next h).
  { intros x Hx E. destruct (segs_live h l Hok x Hx) as (s & Hs & _). by rewrite E, Hnone in Hs. }
  split; [|split; [|done]].
  2: { rewrite heap_bytes_insert by done. cbn. unfold heap_bytes. cbn. lia. }
  destruct Hok as [H1 H2 H3 H4 H5 H6]. split; cbn [h_sdus h_next].
  - rewrite fmap_cons. apply list.NoDup_cons. split; [|done].
    intros (x & Hx & Hin)%list_elem_of_fmap. specialize (H2 x Hin). cbn in Hx. lia.
  - intros x [->|Hx]%elem_of_cons; [cbn; lia|]. specialize (H2 x Hx). lia.
  - intros x [->|Hx]%elem_of_cons.
    + exists sdu. split; [apply lookup_insert_eq|]. unfold seg_ok. cbn. lia.
    + destruct (H3 x Hx) as (s & Hs & Hseg). exists s. split; [|done].
      rewrite lookup_insert_ne; [done|]. intros E. by apply (Hold x Hx).
  - intros x y [->|Hx]%elem_of_cons [->|Hy]%elem_of_cons Hne Hs; [done| | |by apply H4].
    + by destruct (Hold y Hy).
    + by destruct (Hold x Hx).
  - intros a s Ha. apply lookup_insert_Some in Ha as [[<- _]|[_ Ha]]; [lia|]. specialize (H5 a s Ha). lia.
  - intros a s Ha. apply lookup_insert_Some in Ha as [[<- <-]|[Hne Ha]].
    + unfold sdu_owned. rewrite refs_cons. cbn [seg_sdu seg]. rewrite decide_True by done.
      rewrite (refs_zero (h_next h) l Hold). cbn. unfold NR_SDU_MAX. lia.
    + unfold sdu_owned. rewrite refs_cons. cbn [seg_sdu seg]. rewrite decide_False by done. by apply H6.
Qed.

(** Writing the SN or the retransmission count of an SDU. *)
Lemma segs_ok_put h l a s s' :
  segs_ok h l -> h_sdus h !! a = Some s ->
  sdu_data s' = sdu_data s -> sdu_size s' = sdu_size s ->
  ref_count s' = ref_count s -> free_count s' = free_count s ->
  segs_ok (put_sdu h a s') l /\ heap_bytes (put_sdu h a s') = heap_bytes h.
Proof.
  intros Hok Ha Hd Hz Hr Hf. unfold put_sdu. destruct h as [m n]. cbn [h_sdus] in Ha.
  change ((mk_heap m n) <| h_sdus := _ |>) with (mk_heap (<[a := s']> m) n).
  split; [|by rewrite (heap_bytes_update m n a s)].
  destruct Hok as [H1 H2 H3 H4 H5 H6]. cbn [h_sdus h_next] in *. split; cbn [h_sdus h_next]; try done.
  - intros x Hx. destruct (H3 x Hx) as (t & Ht & Hseg). destruct (decide (seg_sdu x = a)) as [<-|Hne].
    + exists s'. split; [apply lookup_insert_eq|]. rewrite Ha in Ht. injection Ht as <-.
      unfold seg_ok in *. by rewrite Hd.
    + exists t. by rewrite lookup_insert_ne.
  - intros b t Hb. apply lookup_insert_Some in Hb as [[<- _]|[_ Hb]]; [by apply (H5 a s)|by apply (H5 b t)].
  - intros b t Hb. apply lookup_insert_Some in Hb as [[<- <-]|[_ Hb]]; [|by apply H6].
    specialize (H6 a s Ha). unfold sdu_owned in *. by rewrite Hr, Hf, Hz, Hd.
Qed.

(** Release of one segment: the SDU goes with its last segment. *)
Lemma segs_ok_free h x l :
  segs_ok h (x :: l) ->
  exists s h', h_sdus h !! seg_sdu x = Some s /\
    nr_rlc_free_sdu_segment h x = Ok (bool_decide (refs (seg_sdu x) l = 0), h') /\
    segs_ok h' l /\ h_next h' = h_next h /\
    heap_bytes h' = heap_bytes h - (if decide (refs (seg_sdu x) l = 0) then sdu_size s else 0) /\
    h_sdus h' = (if decide (refs (seg_sdu x) l = 0) then delete (seg_sdu x) (h_sdus h)
                 else <[seg_sdu x := s <| free_count := free_count s + 1 |>]> (h_sdus h)).
Proof.
  intros Hok. destruct (segs_live h _ Hok x) as (s & Hs & Hseg); [left|].
  pose proof (sdus_owned h _ Hok _ _ Hs) as (Hf & Hrf & Hp & Hsz & Hmax).
  rewrite refs_cons, decide_True in Hrf, Hp by done.
  assert (Hdec : (free_count s + 1 =? ref_count s) = bool_decide (refs (seg_sdu x) l = 0))
    by (destruct (Z.eqb_spec (free_count s + 1) (ref_count s)); case_bool_decide; done || lia).
  unfold nr_rlc_free_sdu_segment, get_sdu. rewrite Hs. cbn [rbind]. cbv zeta.
  change (free_count (s <| free_count := free_count s + 1 |>)) with (free_count s + 1).
  change (ref_count (s <| free_count := free_count s + 1 |>)) with (ref_count s).
  exists s. destruct h as [m n]. cbn [h_sdus h_next] in *. destruct Hok as [H1 H2 H3 H4 H5 H6].
  cbn [h_sdus h_next] in *. rewrite fmap_cons, list.NoDup_cons in H1. destruct H1 as [Hx H1].
  rewrite Hdec. case_bool_decide as Hz; (eexists; split; [done|]; split; [done|]).
  - rewrite !decide_True by done. cbn [h_sdus h_next].
    change ((mk_heap m n) <| h_sdus := _ |>) with (mk_heap (delete (seg_sdu x) m) n).
    split; [|split; [done|split; [by apply heap_bytes_delete|done]]].
    assert (Hno : forall y, y ∈ l -> seg_sdu y <> seg_sdu x).
    { intros y Hy E. pose proof (refs_pos _ y l Hy E). lia. }
    split; cbn [h_sdus h_next]; try done.
    + intros y Hy. apply H2. by right.
    + intros y Hy. destruct (H3 y) as (t & Ht & Hy'); [by right|]. exists t. split; [|done].
      rewrite lookup_delete_ne; [done|]. intros E. by apply (Hno y).
    + intros y z Hy Hz'. apply H4; by right.
    + intros a t Ha. apply lookup_delete_Some in Ha as [_ Ha]. by apply (H5 a t).
    + intros a t Ha. apply lookup_delete_Some in Ha as [Hne Ha]. specialize (H6 a t Ha).
      unfold sdu_owned in *. by rewrite refs_cons, decide_False in H6.
  - rewrite !decide_False by done. unfold put_sdu. cbn [h_sdus h_next].
    change ((mk_heap m n) <| h_sdus := _ |>)
      with (mk_heap (<[seg_sdu x := s <| free_count := free_count s + 1 |>]> m) n).
    split; [|split; [done|split; [rewrite (heap_bytes_update m n _ s) by done; lia|done]]].
    split; cbn [h_sdus h_next]; try done.
    + intros y Hy. apply H2. by right.
    + intros y Hy. destruct (H3 y) as (t & Ht & Hy'); [by right|].
      destruct (decide (seg_sdu y = seg_sdu x)) as [E|Hne].
      * exists (s <| free_count := free_count s + 1 |>). rewrite E, lookup_insert_eq. split; [done|].
        rewrite E, Hs in Ht. injection Ht as <-. done.
      * exists t. by rewrite lookup_insert_ne.
    + intros y z Hy Hz'. apply H4; by right.
    + intros a t Ha. apply lookup_insert_Some in Ha as [[<- _]|[_ Ha]]; [by apply (H5 _ s)|by apply (H5 a t)].
    + intros a t Ha. apply lookup_insert_Some in Ha as [[<- <-]|[Hne Ha]].
      * unfold sdu_owned. cbn. pose proof (refs_nonneg (seg_sdu x) l). lia.
      * specialize (H6 a t Ha). unfold sdu_owned in *. by rewrite refs_cons, decide_False in H6.
Qed.

(** Release of a whole list. *)
Lemma segs_ok_free_list l : forall h l',
  segs_ok h (l ++ l') -> exists h', nr_rlc_free_sdu_segment_list h l = Ok h' /\ segs_ok h' l'.
Proof.
  induction l as [|x l IH]; intros h l' Hok; [by exists h|].
  destruct (segs_ok_free h x (l ++ l') Hok) as (s & h1 & _ & E & Hok1 & _).
  cbn [nr_rlc_free_sdu_segment_list]. rewrite E. cbn [rbind]. by apply IH.
Qed.

(** Cutting a segment in two, with one more reference on the SDU. *)
Lemma segs_ok_cut h x l a b s :
  segs_ok h (x :: l) -> h_sdus h !! seg_sdu x = Some s ->
  seg_sdu a = seg_sdu x -> seg_sdu b = seg_sdu x -> seg_addr a = seg_addr x -> seg_addr b = h_next h ->
  seg_ok s a -> seg_ok s b -> seg_so a = seg_so x -> seg_so b = seg_so a + seg_size a ->
  seg_size a + seg_size b = seg_size x ->
  let h' := mk_heap (<[seg_sdu x := s <| ref_count := ref_count s + 1 |>]> (h_sdus h)) (h_next h + 1)%positive in
  segs_ok h' (a :: b :: l) /\ heap_bytes h' = heap_bytes h.
Proof.
  intros Hok Hs Ea Eb Aa Ab Ha Hb So1 So2 Sz h'. subst h'.
  split; [|rewrite (heap_bytes_update _ _ _ s) by done; by destruct h].
  destruct Hok as [H1 H2 H3 H4 H5 H6]. split; cbn [h_sdus h_next].
  - rewrite !fmap_cons, !list.NoDup_cons in *. destruct H1 as [Hx H1]. rewrite Aa, Ab.
    assert (Hnext : h_next h ∉ seg_addr <$> l).
    { intros (y & Hy & Hin)%list_elem_of_fmap. specialize (H2 y ltac:(by right)). lia. }
    specialize (H2 x ltac:(left)). rewrite elem_of_cons. split; [|done]. intros [E|E]; [lia|done].
  - intros y [->|[->|Hy]%elem_of_cons]%elem_of_cons.
    + rewrite Aa. specialize (H2 x ltac:(left)). lia.
    + lia.
    + specialize (H2 y ltac:(by right)). lia.
  - intros y [->|[->|Hy]%elem_of_cons]%elem_of_cons.
    + rewrite Ea, lookup_insert_eq. by eexists.
    + rewrite Eb, lookup_insert_eq. by eexists.
    + destruct (H3 y) as (t & Ht & Hy'); [by right|].
      destruct (decide (seg_sdu y = seg_sdu x)) as [E|Hne].
      * rewrite E, lookup_insert_eq. eexists. split; [done|]. rewrite E, Hs in Ht. by injection Ht as <-.
      * rewrite lookup_insert_ne by done. by eexists.
  - assert (Hl : forall y, y ∈ l -> seg_sdu y = seg_sdu x -> disjoint_segs x y).
    { intros y Hy E. apply H4; [left|by right| |done]. rewrite fmap_cons, list.NoDup_cons in H1.
      intros E'. apply (proj1 H1). rewrite E'. by apply list_elem_of_fmap_2. }
    unfold seg_ok in Ha, Hb.
    assert (Hda : forall y, y ∈ l -> seg_sdu y = seg_sdu x -> disjoint_segs a y /\ disjoint_segs b y).
    { intros y Hy E. specialize (Hl y Hy E). unfold disjoint_segs in *. lia. }
    assert (Hsym : forall y z, disjoint_segs y z -> disjoint_segs z y) by (unfold disjoint_segs; tauto).
    intros y z [->|[->|Hy]%elem_of_cons]%elem_of_cons [->|[->|Hz]%elem_of_cons]%elem_of_cons Hne E;
      try done.
    + unfold disjoint_segs. lia.
    + apply Hda; congruence.
    + unfold disjoint_segs. lia.
    + apply Hda; congruence.
    + apply Hsym, Hda; congruence.
    + apply Hsym, Hda; congruence.
    + apply H4; [by right|by right|done|done].
  - intros c t Hc. apply lookup_insert_Some in Hc as [[<- _]|[_ Hc]];
      [specialize (H5 _ _ Hs)|specialize (H5 _ _ Hc)]; lia.
  - intros c t Hc. unfold sdu_owned. rewrite !refs_cons, Ea, Eb.
    apply lookup_insert_Some in Hc as [[<- <-]|[Hne Hc]].
    + specialize (H6 _ _ Hs). unfold sdu_owned in H6. rewrite refs_cons in H6.
      rewrite !decide_True in * by done. cbn. lia.
    + specialize (H6 _ _ Hc). unfold sdu_owned in H6. rewrite refs_cons in H6.
      rewrite !decide_False in * by done. lia.
Qed.

(** ** List ends *)

Lemma upto_last (l : list nr_rlc_sdu_segment_t) x :
  NoDup (seg_addr <$> l) -> list.last l = Some x -> upto (seg_addr x) l = Some l.
Proof.
  induction l as [|y l IH]; intros Hnd Hl; [done|]. cbn [upto].
  rewrite fmap_cons, list.NoDup_cons in Hnd. destruct Hnd as [Hy Hnd]. destruct l as [|z l].
  - injection Hl as ->. by rewrite decide_True.
  - rewrite last_cons_cons in Hl. rewrite decide_False.
    + by rewrite (IH Hnd Hl).
    + intros E. apply Hy. rewrite E. apply list_elem_of_fmap_2. by apply last_Some_elem_of.
Qed.

(** Appending behind a correct end pointer. *)
Lemma append_spec l list_end x :
  NoDup (seg_addr <$> l) -> list_end = seg_addr <$> list.last l ->
  nr_rlc_sdu_segment_list_append l list_end x = Ok (l ++ [x], Some (seg_addr x)).
Proof.
  intros Hnd ->. destruct l as [|y l]; [done|]. unfold nr_rlc_sdu_segment_list_append.
  destruct (list.last (y :: l)) as [z|] eqn:E.
  - cbn [fmap option_fmap option_map]. by rewrite (upto_last _ z).
  - by apply last_None in E.
Qed.
