(* ===== verification/RlcAm.v ===== *)
(** Acknowledged-mode RLC entity: the definitions translated from
    [nr_rlc_entity_am.c] and [nr_rlc_entity_am.h].

    Reception (data and control PDUs), transmission (status, retransmission,
    first transmission), timers, SDU discard and re-establishment.  Properties
    are in the files RlcAmRx to RlcAmLink. *)

From S2P Require Import Prelude.
From S2P Require Import RlcPdu.
From S2P Require Import RlcSdu.

(** ** State *)

(** [heap] holds the SDUs that the segments of the three lists point to, and
    [events] the calls made to the three callbacks, oldest first. *)
Record nr_rlc_entity_am_t := mk_am {
  bstatus : nr_rlc_entity_buffer_status_t;
  t_poll_retransmit : Z;
  t_reassembly : Z;
  t_status_prohibit : Z;
  poll_pdu : Z;
  poll_byte : Z;
  max_retx_threshold : Z;
  sn_field_length : Z;
  sn_modulus : Z;
  window_size : Z;
  rx_next : Z;
  rx_next_status_trigger : Z;
  rx_highest_status : Z;
  rx_next_highest : Z;
  status_triggered : bool;
  tx_next : Z;
  tx_next_ack : Z;
  poll_sn : Z;
  pdu_without_poll : Z;
  byte_without_poll : Z;
  force_poll : bool;
  t_current : Z;
  t_log_buffer_full : Z;
  sdu_rejected : Z;
  t_poll_retransmit_start : Z;
  t_reassembly_start : Z;
  t_status_prohibit_start : Z;
  rx_list : list nr_rlc_pdu_t;
  rx_size : Z;
  rx_maxsize : Z;
  tx_list : list nr_rlc_sdu_segment_t;
  tx_end : option addr;
  tx_size : Z;
  tx_maxsize : Z;
  wait_list : list nr_rlc_sdu_segment_t;
  wait_end : option addr;
  retransmit_list : list nr_rlc_sdu_segment_t;
  heap : sdu_heap;
  events : list rlc_event
}.

#[export] Instance eta_am : Eta nr_rlc_entity_am_t := fun e =>
  mk_am (bstatus e) (t_poll_retransmit e) (t_reassembly e) (t_status_prohibit e) (poll_pdu e)
    (poll_byte e) (max_retx_threshold e) (sn_field_length e) (sn_modulus e) (window_size e)
    (rx_next e) (rx_next_status_trigger e) (rx_highest_status e) (rx_next_highest e)
    (status_triggered e) (tx_next e) (tx_next_ack e) (poll_sn e) (pdu_without_poll e)
    (byte_without_poll e) (force_poll e) (t_current e) (t_log_buffer_full e) (sdu_rejected e)
    (t_poll_retransmit_start e) (t_reassembly_start e) (t_status_prohibit_start e) (rx_list e)
    (rx_size e) (rx_maxsize e) (tx_list e) (tx_end e) (tx_size e) (tx_maxsize e) (wait_list e)
    (wait_end e) (retransmit_list e) (heap e) (events e).

(** Reduce the projections of updated entities, in the goal or everywhere. *)
Ltac am_simpl :=
  cbn [update bstatus t_poll_retransmit t_reassembly t_status_prohibit poll_pdu poll_byte
    max_retx_threshold sn_field_length sn_modulus window_size rx_next rx_next_status_trigger
    rx_highest_status rx_next_highest status_triggered tx_next tx_next_ack poll_sn
    pdu_without_poll byte_without_poll force_poll t_current t_log_buffer_full sdu_rejected
    t_poll_retransmit_start t_reassembly_start t_status_prohibit_start rx_list rx_size
    rx_maxsize tx_list tx_end tx_size tx_maxsize wait_list wait_end retransmit_list heap events].

Ltac am_simpl_all :=
  cbn [update bstatus t_poll_retransmit t_reassembly t_status_prohibit poll_pdu poll_byte
    max_retx_threshold sn_field_length sn_modulus window_size rx_next rx_next_status_trigger
    rx_highest_status rx_next_highest status_triggered tx_next tx_next_ack poll_sn
    pdu_without_poll byte_without_poll force_poll t_current t_log_buffer_full sdu_rejected
    t_poll_retransmit_start t_reassembly_start t_status_prohibit_start rx_list rx_size
    rx_maxsize tx_list tx_end tx_size tx_maxsize wait_list wait_end retransmit_list heap events]
    in *.

(** A call to a callback. *)
Definition emit (e : nr_rlc_entity_am_t) (ev : rlc_event) : nr_rlc_entity_am_t :=
  e <| events := events e ++ [ev] |>.

Definition add_bstatus_tx (e : nr_rlc_entity_am_t) (n : Z) : nr_rlc_entity_am_t :=
  e <| bstatus := (bstatus e) <| bs_tx_size := bs_tx_size (bstatus e) + n |> |>.

Definition add_bstatus_retx (e : nr_rlc_entity_am_t) (n : Z) : nr_rlc_entity_am_t :=
  e <| bstatus := (bstatus e) <| bs_retx_size := bs_retx_size (bstatus e) + n |> |>.

Definition compute_pdu_header_size (entity : nr_rlc_entity_am_t) (sdu : nr_rlc_sdu_segment_t) : Z :=
  let header_size := 2 in
  let header_size := if sn_field_length entity =? 18 then header_size + 1 else header_size in
  if negb (seg_is_first sdu) then header_size + 2 else header_size.

(** ** PDU RX functions *)

Definition modulus_rx (entity : nr_rlc_entity_am_t) (a : Z) : Z :=
  let r := a - rx_next entity in
  if r <? 0 then r + sn_modulus entity else r.

Definition modulus_tx (entity : nr_rlc_entity_am_t) (a : Z) : Z :=
  let r := a - tx_next_ack entity in
  if r <? 0 then r + sn_modulus entity else r.

Definition sn_in_recv_window (entity : nr_rlc_entity_am_t) (sn : Z) : bool :=
  modulus_rx entity sn <? window_size entity.

Definition sn_compare_rx (entity : nr_rlc_entity_am_t) (a b : Z) : Z :=
  modulus_rx entity a - modulus_rx entity b.

Definition sn_compare_tx (entity : nr_rlc_entity_am_t) (a b : Z) : Z :=
  modulus_tx entity a - modulus_tx entity b.

Fixpoint segment_already_received_loop (l : list nr_rlc_pdu_t) (sn so size : Z) : bool :=
  match l with
  | [] => size <=? 0
  | p :: tl =>
    if size >? 0 then
      if pdu_sn p =? sn then
        if (pdu_so p <=? so) && (so <? pdu_so p + pdu_size p) then
          let covered := pdu_size p - (so - pdu_so p) in
          segment_already_received_loop tl sn (so + covered) (size - covered)
        else if (pdu_so p <=? so + size - 1) && (so + size - 1 <? pdu_so p + pdu_size p) then
          let covered := size - (pdu_so p - so) in
          segment_already_received_loop tl sn so (size - covered)
        else segment_already_received_loop tl sn so size
      else segment_already_received_loop tl sn so size
    else size <=? 0
  end.

Definition segment_already_received (entity : nr_rlc_entity_am_t) (sn so size : Z) : bool :=
  segment_already_received_loop (rx_list entity) sn so size.

(** [while (l != NULL) { if (l->sn == sn) break; l = l->next; }] *)
Fixpoint find_sn (l : list nr_rlc_pdu_t) (sn : Z) : list nr_rlc_pdu_t :=
  match l with
  | [] => []
  | p :: tl => if pdu_sn p =? sn then l else find_sn tl sn
  end.

(** [l != NULL && l->data == NULL] *)
Definition already_processed (l : list nr_rlc_pdu_t) : bool :=
  match l with
  | p :: _ => match pdu_data p with None => true | Some _ => false end
  | [] => false
  end.

Fixpoint sdu_full_loop (l : list nr_rlc_pdu_t) (sn last_byte : Z) : bool :=
  match l with
  | [] => false
  | p :: tl =>
    if pdu_sn p =? sn then
      if pdu_so p >? last_byte + 1 then false
      else if pdu_is_last p then true
      else
        let new_last_byte := pdu_so p + pdu_size p - 1 in
        sdu_full_loop tl sn (if new_last_byte >? last_byte then new_last_byte else last_byte)
    else false
  end.

Definition sdu_full (entity : nr_rlc_entity_am_t) (sn : Z) : bool :=
  let l := find_sn (rx_list entity) sn in
  if already_processed l then false else sdu_full_loop l sn (-1).

Definition sdu_delivered (entity : nr_rlc_entity_am_t) (sn : Z) : bool :=
  already_processed (find_sn (rx_list entity) sn).

Fixpoint sdu_has_missing_bytes_loop (l : list nr_rlc_pdu_t) (sn last_byte : Z) : bool :=
  match l with
  | [] => false
  | p :: tl =>
    if pdu_sn p =? sn then
      if pdu_so p >? last_byte + 1 then true
      else
        let new_last_byte := pdu_so p + pdu_size p - 1 in
        sdu_has_missing_bytes_loop tl sn
          (if new_last_byte >? last_byte then new_last_byte else last_byte)
    else false
  end.

Definition sdu_has_missing_bytes (entity : nr_rlc_entity_am_t) (sn : Z) : bool :=
  let l := find_sn (rx_list entity) sn in
  if already_processed l then false else sdu_has_missing_bytes_loop l sn (-1).

(** The reassembly loop, from the first segment of [sn]: the SDU bytes copied so
    far, the [bad_sdu] flag, the bytes released from [rx_size], and the list with
    each visited segment passed through [clear], which frees its [data] (the
    unacknowledged-mode copy of the loop also sets its [size] to 0).  [so] is the
    length of [sdu].  Reading [data] before its first byte, past its end or through
    NULL faults. *)
Fixpoint reassemble_loop (clear : nr_rlc_pdu_t -> nr_rlc_pdu_t) (l : list nr_rlc_pdu_t)
  (sn : Z) (sdu : list Z) (bad_sdu : bool) (freed : Z)
  : res (list Z * bool * Z * list nr_rlc_pdu_t) :=
  match l with
  | [] => Ok (sdu, bad_sdu, freed, [])
  | pdu :: tl =>
    if pdu_sn pdu =? sn then
      let so := Z.of_nat (length sdu) in
      let len := pdu_size pdu - (so - pdu_so pdu) in
      let bad_sdu := if (so + len >? NR_SDU_MAX) && negb bad_sdu then true else bad_sdu in
      let* sdu :=
        (if negb bad_sdu && (len >? 0) then
           match pdu_data pdu with
           | None => Fault NullDeref
           | Some d =>
             let off := so - pdu_so pdu in
             if (off <? 0) || (Z.of_nat (length d) <? off + len) then Fault OutOfBounds
             else Ok (sdu ++ take (Z.to_nat len) (drop (Z.to_nat off) d))
           end
         else Ok sdu) in
      let* (sdu, bad_sdu, freed, tl') :=
        reassemble_loop clear tl sn sdu bad_sdu (freed + pdu_size pdu) in
      Ok (sdu, bad_sdu, freed, clear pdu :: tl')
    else Ok (sdu, bad_sdu, freed, l)
  end.

(** [while (pdu->sn != sn) pdu = pdu->next;] runs into NULL when no segment of
    [sn] is there. *)
Fixpoint reassemble_from (clear : nr_rlc_pdu_t -> nr_rlc_pdu_t) (l : list nr_rlc_pdu_t) (sn : Z)
  : res (list Z * bool * Z * list nr_rlc_pdu_t) :=
  match l with
  | [] => Fault NullDeref
  | pdu :: tl =>
    if pdu_sn pdu =? sn then reassemble_loop clear l sn [] false 0
    else
      let* (sdu, bad_sdu, freed, tl') := reassemble_from clear tl sn in
      Ok (sdu, bad_sdu, freed, pdu :: tl')
  end.

(** [free(pdu->data); pdu->data = NULL;] *)
Definition clear_data (pdu : nr_rlc_pdu_t) : nr_rlc_pdu_t := pdu <| pdu_data := None |>.

Definition reassemble_and_deliver (entity : nr_rlc_entity_am_t) (sn : Z)
  : res nr_rlc_entity_am_t :=
  let* (sdu, bad_sdu, freed, l) := reassemble_from clear_data (rx_list entity) sn in
  let entity := entity <| rx_list := l |> <| rx_size := rx_size entity - freed |> in
  if bad_sdu then Ok entity else Ok (emit entity (deliver_sdu sdu)).

(** [while (sdu_delivered(entity, sn)) sn = (sn + 1) % sn_modulus;].  Each turn
    visits another SN of the list, so more turns than the list is long means
    the loop does not end. *)
Fixpoint skip_delivered (fuel : nat) (entity : nr_rlc_entity_am_t) (sn : Z) : res Z :=
  if sdu_delivered entity sn then
    match fuel with
    | O => Fault FuelExhausted
    | S fuel => skip_delivered fuel entity (cmod (sn + 1) (sn_modulus entity))
    end
  else Ok sn.

Definition skip_delivered_fuel (entity : nr_rlc_entity_am_t) : nat := S (length (rx_list entity)).

(** The [do ... while] that frees the segments of one SDU at the head: the C loop
    frees the head without looking at its SN, then the following ones of [sn]. *)
Fixpoint drop_sn (l : list nr_rlc_pdu_t) (sn : Z) : list nr_rlc_pdu_t :=
  match l with
  | p :: tl => if pdu_sn p =? sn then drop_sn tl sn else l
  | [] => []
  end.

(** Free all delivered SDUs at the head of [rx_list]; returns the list left and
    the new [rx_next].  Every turn removes a segment, so the length is enough. *)
Fixpoint free_delivered (fuel : nat) (l : list nr_rlc_pdu_t) (sn_modulus rx_next : Z)
  : list nr_rlc_pdu_t * Z :=
  match fuel with
  | O => (l, rx_next)
  | S fuel =>
    match l with
    | p :: tl =>
      if already_processed l && (pdu_sn p =? rx_next)
      then free_delivered fuel (drop_sn tl rx_next) sn_modulus (cmod (rx_next + 1) sn_modulus)
      else (l, rx_next)
    | [] => (l, rx_next)
    end
  end.

(** The updates of RX_Highest_Status and RX_Next once SDU [x] was processed. *)
Definition release_delivered (entity : nr_rlc_entity_am_t) (x : Z) : res nr_rlc_entity_am_t :=
  let* entity :=
    (if x =? rx_highest_status entity then
       let* h := skip_delivered (skip_delivered_fuel entity) entity (rx_highest_status entity) in
       Ok (entity <| rx_highest_status := h |>)
     else Ok entity) in
  if x =? rx_next entity then
    let '(l, n) := free_delivered (length (rx_list entity)) (rx_list entity)
                     (sn_modulus entity) (rx_next entity) in
    Ok (entity <| rx_list := l |> <| rx_next := n |>)
  else Ok entity.

Definition reception_actions_deliver (entity : nr_rlc_entity_am_t) (x : Z)
  : res nr_rlc_entity_am_t :=
  if sdu_full entity x then
    let* entity := reassemble_and_deliver entity x in
    release_delivered entity x
  else Ok entity.

Definition reception_actions_timers (entity : nr_rlc_entity_am_t) : nr_rlc_entity_am_t :=
  let m := sn_modulus entity in
  let entity :=
    if negb (t_reassembly_start entity =? 0) then
      if (rx_next_status_trigger entity =? rx_next entity)
         || ((rx_next_status_trigger entity =? cmod (rx_next entity + 1) m)
             && negb (sdu_has_missing_bytes entity (rx_next entity)))
         || (negb (sn_in_recv_window entity (rx_next_status_trigger entity))
             && negb (rx_next_status_trigger entity
                      =? cmod (rx_next entity + window_size entity) m))
      then entity <| t_reassembly_start := 0 |>
      else entity
    else entity in
  if t_reassembly_start entity =? 0 then
    if (sn_compare_rx entity (rx_next_highest entity) (cmod (rx_next entity + 1) m) >? 0)
       || ((rx_next_highest entity =? cmod (rx_next entity + 1) m)
           && sdu_has_missing_bytes entity (rx_next entity))
    then entity <| t_reassembly_start := t_current entity |>
                <| rx_next_status_trigger := rx_next_highest entity |>
    else entity
  else entity.

Definition reception_actions (entity : nr_rlc_entity_am_t) (pdu : nr_rlc_pdu_t)
  : res nr_rlc_entity_am_t :=
  let x := pdu_sn pdu in
  let entity :=
    if sn_compare_rx entity x (rx_next_highest entity) >=? 0
    then entity <| rx_next_highest := cmod (x + 1) (sn_modulus entity) |>
    else entity in
  let* entity := reception_actions_deliver entity x in
  Ok (reception_actions_timers entity).

Definition so_overlap (s1 e1 s2 e2 : Z) : bool :=
  if s1 <? s2 then (e1 =? -1) || (e1 >=? s2)
  else (e2 =? -1) || (s1 <=? e2).

(** ** Control PDUs *)

(** Local variables of [process_control_pdu].  The wait list is
    [wait_kept ++ wait_rest], where [prev_wait_list] is the last node of
    [wait_kept] (the stack variable [head_wait_list] when there is none) and
    [wait_rest] is [prev_wait_list->next]; [cur_wait_list] is [wait_rest], or NULL
    once [wait_over] is set.  [end_wait_list] is NULL ([None]), [&head_wait_list]
    ([Some None]) or a segment.  The new retransmit list ends at
    [new_retransmit_list], and [cur_retx] is [cur_retransmit_list].  [touched] records
    that a [next] pointer was changed, so that the entity's own pointers are no
    longer those of well-formed lists until they are stored at the end. *)
Record ctrl_t := mk_ctrl {
  entity_of : nr_rlc_entity_am_t;
  wait_kept : list nr_rlc_sdu_segment_t;
  wait_rest : list nr_rlc_sdu_segment_t;
  wait_over : bool;
  end_wait_list : option (option addr);
  new_retx : list nr_rlc_sdu_segment_t;
  cur_retx : list nr_rlc_sdu_segment_t;
  touched : bool
}.

#[export] Instance eta_ctrl : Eta ctrl_t := fun c =>
  mk_ctrl (entity_of c) (wait_kept c) (wait_rest c) (wait_over c) (end_wait_list c)
    (new_retx c) (cur_retx c) (touched c).

Definition cur_wait (c : ctrl_t) : list nr_rlc_sdu_segment_t :=
  if wait_over c then [] else wait_rest c.

(** The node [prev_wait_list] points to. *)
Definition prev_wait_list (c : ctrl_t) : option addr := seg_addr <$> list.last (wait_kept c).

Definition init_ctrl (entity : nr_rlc_entity_am_t) : ctrl_t :=
  mk_ctrl entity [] (wait_list entity) false None [] (retransmit_list entity) false.

(** [if (cur == entity->wait_end) end_wait_list = prev_wait_list;], where [cur] is
    the head of the given list. *)
Definition note_end (c : ctrl_t) (cur : list nr_rlc_sdu_segment_t) : ctrl_t :=
  if decide (seg_addr <$> list.head cur = wait_end (entity_of c))
  then c <| end_wait_list := Some (prev_wait_list c) |>
  else c.

(** Increase the retransmission count of the SDU of [seg], report
    [max_retx_reached] when due, and account for the segment in the buffer
    status. *)
Definition retx_segment (entity : nr_rlc_entity_am_t) (seg : nr_rlc_sdu_segment_t)
  : res nr_rlc_entity_am_t :=
  let* s := get_sdu (heap entity) (seg_sdu seg) in
  let s := s <| retx_count := retx_count s + 1 |> in
  let entity := entity <| heap := put_sdu (heap entity) (seg_sdu seg) s |> in
  let entity :=
    if retx_count s >=? max_retx_threshold entity * ref_count s
    then emit entity max_retx_reached else entity in
  Ok (add_bstatus_retx entity (compute_pdu_header_size entity seg + seg_size seg)).

(** Free an acknowledged segment; report the delivery when its SDU is freed. *)
Definition ack_segment (entity : nr_rlc_entity_am_t) (seg : nr_rlc_sdu_segment_t)
  : res nr_rlc_entity_am_t :=
  let* s := get_sdu (heap entity) (seg_sdu seg) in
  let* (freed, h) := nr_rlc_free_sdu_segment (heap entity) seg in
  let entity := entity <| heap := h |> in
  if freed
  then Ok (emit (entity <| tx_size := tx_size entity - sdu_size s |>)
                (sdu_successful_delivery (upper_layer_id s)))
  else Ok entity.

(** How a turn of the code between [process_next_pdu] and [done_nack] leaves. *)
Inductive next_step : Type :=
| ProcessNext (c : ctrl_t)
| DoneNack (c : ctrl_t)
| ListsOver (c : ctrl_t).

(** A nack: its SN and byte range. *)
Record nack_t := mk_nack { nack_sn : Z; nack_so_start : Z; nack_so_end : Z }.

(** [process_wait_list_head] *)
Definition process_wait_list_head (ack_sn : Z) (n : nack_t) (c : ctrl_t)
  (cur : nr_rlc_sdu_segment_t) (rest : list nr_rlc_sdu_segment_t) : res next_step :=
  let entity := entity_of c in
  let* s := get_sdu (heap entity) (seg_sdu cur) in
  let sn := sdu_sn s in
  if (sn =? nack_sn n)
     && so_overlap (nack_so_start n) (nack_so_end n) (seg_so cur) (seg_so cur + seg_size cur - 1)
  then
    let c := note_end c (wait_rest c) in
    let* entity := retx_segment entity cur in
    Ok (ProcessNext (c <| entity_of := entity |> <| wait_rest := rest |>
                       <| new_retx := new_retx c ++ [cur] |> <| touched := true |>))
  else if (sn_compare_tx entity sn (nack_sn n) >? 0)
          || ((sn =? nack_sn n) && (seg_so cur >? nack_so_start n))
  then Ok (DoneNack c)
  else if sn_compare_tx entity sn ack_sn <? 0 then
    let c := note_end c rest in
    let* entity := ack_segment entity cur in
    Ok (ProcessNext (c <| entity_of := entity |> <| wait_rest := rest |> <| touched := true |>))
  else if sn_compare_tx entity sn ack_sn >? 0 then
    Ok (ProcessNext (c <| wait_over := true |>))
  else
    Ok (ProcessNext (c <| wait_kept := wait_kept c ++ [cur] |> <| wait_rest := rest |>)).

(** [process_retransmit_list_head].  When the wait list is over, the code links
    the remaining retransmit list behind [new_retransmit_list] and clears
    [cur_retransmit_list] without moving [new_retransmit_list]; the final
    [new_retransmit_list->next = cur_retransmit_list] cuts that link again. *)
Definition process_retransmit_list_head (ack_sn : Z) (n : nack_t) (c : ctrl_t)
  (cur : nr_rlc_sdu_segment_t) (rest : list nr_rlc_sdu_segment_t) : res next_step :=
  let entity := entity_of c in
  let* s := get_sdu (heap entity) (seg_sdu cur) in
  let sn := sdu_sn s in
  if (sn =? nack_sn n)
     && so_overlap (nack_so_start n) (nack_so_end n) (seg_so cur) (seg_so cur + seg_size cur - 1)
  then
    Ok (ProcessNext (c <| new_retx := new_retx c ++ [cur] |> <| cur_retx := rest |>
                       <| touched := true |>))
  else if (sn_compare_tx entity sn (nack_sn n) >? 0)
          || ((sn =? nack_sn n) && (seg_so cur >? nack_so_start n))
  then Ok (DoneNack c)
  else if sn_compare_tx entity sn ack_sn <? 0 then
    let entity := add_bstatus_retx entity (- (compute_pdu_header_size entity cur + seg_size cur)) in
    let* entity := ack_segment entity cur in
    Ok (ProcessNext (c <| entity_of := entity |> <| cur_retx := rest |> <| touched := true |>))
  else
    match cur_wait c with
    | [] => Ok (ListsOver (c <| cur_retx := [] |> <| touched := true |>))
    | _ =>
      Ok (ProcessNext (c <| new_retx := new_retx c ++ [cur] |> <| cur_retx := rest |>
                         <| touched := true |>))
    end.

(** One turn from [process_next_pdu]. *)
Definition process_next_pdu (ack_sn : Z) (n : nack_t) (c : ctrl_t) : res next_step :=
  match cur_wait c, cur_retx c with
  | [], [] => Ok (ListsOver c)
  | [], r :: rs => process_retransmit_list_head ack_sn n c r rs
  | w :: ws, [] => process_wait_list_head ack_sn n c w ws
  | w :: ws, r :: rs =>
    let* sw := get_sdu (heap (entity_of c)) (seg_sdu w) in
    let* sr := get_sdu (heap (entity_of c)) (seg_sdu r) in
    if (sdu_sn sw <? sdu_sn sr) || ((sdu_sn sw =? sdu_sn sr) && (seg_so w <? seg_so r))
    then process_wait_list_head ack_sn n c w ws
    else process_retransmit_list_head ack_sn n c r rs
  end.

(** The [goto process_next_pdu] loop for one nack; the boolean tells whether it
    left by [lists_over].  Every turn shortens one of the two lists. *)
Fixpoint process_nack_loop (fuel : nat) (ack_sn : Z) (n : nack_t) (c : ctrl_t)
  : res (bool * ctrl_t) :=
  match fuel with
  | O => Fault FuelExhausted
  | S fuel =>
    let* st := process_next_pdu ack_sn n c in
    match st with
    | ProcessNext c => process_nack_loop fuel ack_sn n c
    | DoneNack c => Ok (false, c)
    | ListsOver c => Ok (true, c)
    end
  end.

Definition ctrl_fuel (c : ctrl_t) : nat :=
  S (length (cur_wait c) + length (cur_retx c)).

(** How the [for] loop over the SNs of one nack block ends: normally or by
    [goto lists_over] ([RangeDone]), or by [goto nacks_done]. *)
Inductive range_end : Type :=
| RangeDone (prev : option nack_t) (c : ctrl_t)
| NacksDone (c : ctrl_t).

(** "bad NACK": not after the previous nack. *)
Definition nack_out_of_order (entity : nr_rlc_entity_am_t) (cur prev : nack_t) : bool :=
  let cmp := sn_compare_tx entity (nack_sn cur) (nack_sn prev) in
  (cmp <? 0)
  || ((cmp =? 0) && ((nack_so_end prev =? -1) || (nack_so_start cur <=? nack_so_end prev))).

(** The [for] loop, [todo] turns before its end; [prev] is the previous nack
    ([prev_nack_sn == -1] when there is none). *)
Fixpoint process_range (todo : nat) (ack_sn range nack_sn0 so_start so_end : Z)
  (prev : option nack_t) (c : ctrl_t) : res range_end :=
  match todo with
  | O => Ok (RangeDone prev c)
  | S todo =>
    let i := range - Z.of_nat (S todo) in
    let entity := entity_of c in
    let cur := mk_nack (cmod (nack_sn0 + i) (sn_modulus entity))
                       (if i =? 0 then so_start else 0)
                       (if i =? range - 1 then so_end else -1) in
    if match prev with Some p => nack_out_of_order entity cur p | None => false end
    then Ok (NacksDone c)
    else if sn_compare_tx entity (nack_sn cur) ack_sn >? 0 then Ok (NacksDone c)
    else
      let* (over, c) := process_nack_loop (ctrl_fuel c) ack_sn cur c in
      if (over : bool) then Ok (RangeDone prev c)
      else process_range todo ack_sn range nack_sn0 so_start so_end (Some cur) c
  end.

(** The header of a nack block after [nack_sn]: the [err] outcome of a decoding
    error is [None]. *)
Record nack_block := mk_block {
  nb_nack_sn : Z;
  nb_e1 : Z;
  nb_so_start : Z;
  nb_so_end : Z;
  nb_range : Z
}.

Definition decode_nack (sn_field_length : Z) (decoder : nr_rlc_pdu_decoder_t)
  : res (option (nack_block * nr_rlc_pdu_decoder_t)) :=
  getbits (nack_sn, decoder) := (decoder, sn_field_length) err (Ok None) in
  getbits (e1, decoder) := (decoder, 1) err (Ok None) in
  getbits (e2, decoder) := (decoder, 1) err (Ok None) in
  getbits (e3, decoder) := (decoder, 1) err (Ok None) in
  getbits (_, decoder) := (decoder, if sn_field_length =? 18 then 3 else 1) err (Ok None) in
  let* so :=
    (if negb (e2 =? 0) then
       getbits (so_start, decoder) := (decoder, 16) err (Ok None) in
       getbits (so_end, decoder) := (decoder, 16) err (Ok None) in
       Ok (Some (so_start, so_end, decoder))
     else Ok (Some (0, 0xffff, decoder))) in
  match so with
  | None => Ok None
  | Some (so_start, so_end, decoder) =>
    let* r :=
      (if negb (e3 =? 0) then
         getbits (range, decoder) := (decoder, 8) err (Ok None) in
         Ok (Some (range, decoder))
       else Ok (Some (1, decoder))) in
    match r with
    | None => Ok None
    | Some (range, decoder) =>
      let so_end := if so_end =? 0xffff then -1 else so_end in
      Ok (Some (mk_block nack_sn e1 so_start so_end range, decoder))
    end
  end.

(** The [while (e1)] loop; [None] is [goto err].  Every turn reads at least two
    bytes, so the size of the PDU bounds their number. *)
Fixpoint process_nacks (fuel : nat) (ack_sn : Z) (decoder : nr_rlc_pdu_decoder_t)
  (e1 : Z) (prev : option nack_t) (c : ctrl_t) : res (bool * ctrl_t) :=
  if e1 =? 0 then Ok (true, c)
  else
    match fuel with
    | O => Fault FuelExhausted
    | S fuel =>
      let* b := decode_nack (sn_field_length (entity_of c)) decoder in
      match b with
      | None => Ok (false, c)
      | Some (b, decoder) =>
        let* r := process_range (Z.to_nat (nb_range b)) ack_sn (nb_range b) (nb_nack_sn b)
                    (nb_so_start b) (nb_so_end b) prev c in
        match r with
        | NacksDone c => Ok (true, c)
        | RangeDone prev c =>
          let entity := entity_of c in
          let c :=
            if (sn_compare_tx entity (nb_nack_sn b) (poll_sn entity) <=? 0)
               && (sn_compare_tx entity (poll_sn entity)
                     (cmod (nb_nack_sn b + nb_range b) (sn_modulus entity)) <? 0)
            then c <| entity_of := entity <| t_poll_retransmit_start := 0 |> |>
            else c in
          process_nacks fuel ack_sn decoder (nb_e1 b) prev c
        end
      end
    end.

(** "deal with wait list": free what is below [ack_sn]. *)
Fixpoint ack_wait_list (l : list nr_rlc_sdu_segment_t) (ack_sn : Z) (c : ctrl_t) : res ctrl_t :=
  match l with
  | [] => Ok c
  | cur :: rest =>
    let entity := entity_of c in
    let* s := get_sdu (heap entity) (seg_sdu cur) in
    if sn_compare_tx entity (sdu_sn s) ack_sn <? 0 then
      let c := note_end c l in
      let* entity := ack_segment entity cur in
      ack_wait_list rest ack_sn (c <| entity_of := entity |> <| wait_rest := rest |>)
    else Ok c
  end.

(** "deal with retransmit list" *)
Fixpoint ack_retransmit_list (l : list nr_rlc_sdu_segment_t) (ack_sn : Z) (c : ctrl_t)
  : res ctrl_t :=
  match l with
  | [] => Ok c
  | cur :: rest =>
    let entity := entity_of c in
    let* s := get_sdu (heap entity) (seg_sdu cur) in
    if sn_compare_tx entity (sdu_sn s) ack_sn <? 0 then
      let entity := add_bstatus_retx entity (- (compute_pdu_header_size entity cur + seg_size cur)) in
      let* entity := ack_segment entity cur in
      ack_retransmit_list rest ack_sn (c <| entity_of := entity |> <| cur_retx := rest |>)
    else Ok c
  end.

(** [head != NULL && sn_compare_tx(head->sdu->sn, tx_next_ack) < 0] lowers
    [tx_next_ack] to the SN of that head. *)
Definition lower_to_head (entity : nr_rlc_entity_am_t) (l : list nr_rlc_sdu_segment_t)
  (tx_next_ack : Z) : res Z :=
  match l with
  | [] => Ok tx_next_ack
  | x :: _ =>
    let* s := get_sdu (heap entity) (seg_sdu x) in
    if sn_compare_tx entity (sdu_sn s) tx_next_ack <? 0 then Ok (sdu_sn s) else Ok tx_next_ack
  end.

(** The stores after the two acknowledgement loops, and the new [tx_next_ack]. *)
Definition finish_control_pdu (ack_sn : Z) (c : ctrl_t) : res nr_rlc_entity_am_t :=
  let entity := entity_of c in
  let entity := entity <| wait_list := wait_kept c ++ wait_rest c |>
                       <| retransmit_list := new_retx c ++ cur_retx c |> in
  let entity :=
    match end_wait_list c with
    | None => entity
    | Some p => entity <| wait_end := p |>
    end in
  let* a := lower_to_head entity (wait_list entity) (tx_next entity) in
  let* a := lower_to_head entity (retransmit_list entity) a in
  let a := if sn_compare_tx entity ack_sn a <? 0 then ack_sn else a in
  Ok (entity <| tx_next_ack := a |>).

(** A decoding error leaves the entity as it is when no list was changed yet, and
    with inconsistent lists otherwise (the code logs "NR RLC entity in
    inconsistent state"). *)
Definition process_control_pdu (entity : nr_rlc_entity_am_t) (buffer : list Z)
  : res nr_rlc_entity_am_t :=
  let size := Z.of_nat (length buffer) in
  let decoder := nr_rlc_pdu_decoder_init buffer size in
  getbits (_, decoder) := (decoder, 1) err (Ok entity) in
  getbits (cpt, decoder) := (decoder, 3) err (Ok entity) in
  if negb (cpt =? 0) then Ok entity
  else
    getbits (ack_sn, decoder) := (decoder, sn_field_length entity) err (Ok entity) in
    getbits (e1, decoder) := (decoder, 1) err (Ok entity) in
    getbits (_, decoder) := (decoder, if sn_field_length entity =? 18 then 1 else 7)
      err (Ok entity) in
    let entity :=
      if sn_compare_tx entity (poll_sn entity) ack_sn <? 0
      then entity <| t_poll_retransmit_start := 0 |> else entity in
    let* (done, c) := process_nacks (S (length buffer)) ack_sn decoder e1 None (init_ctrl entity) in
    if negb done then
      if touched c then Fault Inconsistent else Ok (entity_of c)
    else
      let* c := ack_wait_list (cur_wait c) ack_sn c in
      let* c := ack_retransmit_list (cur_retx c) ack_sn c in
      finish_control_pdu ack_sn c.

(** ** Data PDUs *)

(** The header of a data PDU: the P bit known so far, and the other fields when
    the header was decoded and its SO is acceptable ([None] is [goto err] or
    [goto discard]). *)
Record pdu_header := mk_header {
  ph_is_first : bool;
  ph_is_last : bool;
  ph_sn : Z;
  ph_so : Z;
  ph_byte : Z
}.

Definition decode_header (entity : nr_rlc_entity_am_t) (decoder : nr_rlc_pdu_decoder_t)
  : res (Z * option pdu_header) :=
  match nr_rlc_pdu_decoder_get_bits decoder 1 with
  | Ok (p, decoder) =>
    if nr_rlc_pdu_decoder_in_error decoder then Ok (p, None)
    else
      getbits (si, decoder) := (decoder, 2) err (Ok (p, None)) in
      let is_first := Z.land si 0x2 =? 0 in
      let is_last := Z.land si 0x1 =? 0 in
      let* r :=
        (if sn_field_length entity =? 18 then
           getbits (_, decoder) := (decoder, 2) err (Ok None) in Ok (Some decoder)
         else Ok (Some decoder)) in
      match r with
      | None => Ok (p, None)
      | Some decoder =>
        getbits (sn, decoder) := (decoder, sn_field_length entity) err (Ok (p, None)) in
        if negb is_first then
          getbits (so, decoder) := (decoder, 16) err (Ok (p, None)) in
          if so =? 0 then Ok (p, None)
          else Ok (p, Some (mk_header is_first is_last sn so (d_byte decoder)))
        else Ok (p, Some (mk_header is_first is_last sn 0 (d_byte decoder)))
      end
  | Exit => Exit
  | Fault f => Fault f
  end.

(** The label [discard]. *)
Definition discard (entity : nr_rlc_entity_am_t) (p : Z) : nr_rlc_entity_am_t :=
  if negb (p =? 0) then entity <| status_triggered := true |> else entity.

(** The part of [nr_rlc_entity_am_recv_pdu] after the header. *)
Definition recv_data_pdu (entity : nr_rlc_entity_am_t) (buffer : list Z) (p : Z) (h : pdu_header)
  : res nr_rlc_entity_am_t :=
  let size := Z.of_nat (length buffer) in
  let data_size := size - ph_byte h in
  if data_size <=? 0 then Ok (discard entity p)
  else if rx_size entity + data_size >? rx_maxsize entity then Ok (discard entity p)
  else if negb (sn_in_recv_window entity (ph_sn h)) then Ok (discard entity p)
  else if segment_already_received entity (ph_sn h) (ph_so h) data_size then Ok (discard entity p)
  else
    let entity := entity <| rx_size := rx_size entity + data_size |> in
    let pdu := nr_rlc_new_pdu (ph_sn h) (ph_so h) (ph_is_first h) (ph_is_last h)
                 (drop (Z.to_nat (size - data_size)) buffer) data_size in
    let entity :=
      entity <| rx_list := nr_rlc_pdu_list_add (sn_compare_rx entity) (rx_list entity) pdu |> in
    let* entity := reception_actions entity pdu in
    Ok (if negb (p =? 0) then entity <| status_triggered := true |> else entity).

Definition nr_rlc_entity_am_recv_pdu (entity : nr_rlc_entity_am_t) (buffer : list Z)
  : res nr_rlc_entity_am_t :=
  let size := Z.of_nat (length buffer) in
  let decoder := nr_rlc_pdu_decoder_init buffer size in
  getbits (dc, decoder) := (decoder, 1) err (Ok (discard entity 0)) in
  if dc =? 0 then process_control_pdu entity buffer
  else
    let* (p, h) := decode_header entity decoder in
    match h with
    | None => Ok (discard entity p)
    | Some h => recv_data_pdu entity buffer p h
    end.

(** ** TX functions *)

Definition is_window_stalling (entity : nr_rlc_entity_am_t) : bool :=
  negb ((sn_compare_tx entity (tx_next_ack entity) (tx_next entity) <=? 0)
        && (sn_compare_tx entity (tx_next entity)
              (cmod (tx_next_ack entity + window_size entity) (sn_modulus entity)) <? 0)).

Definition include_poll (entity : nr_rlc_entity_am_t) (buffer : list Z)
  : nr_rlc_entity_am_t * list Z :=
  let buffer := buf_set buffer 0 (Z.lor (buf_get buffer 0) 0x40) in
  let entity :=
    entity <| pdu_without_poll := 0 |> <| byte_without_poll := 0 |>
           <| poll_sn := cmod (tx_next entity - 1 + sn_modulus entity) (sn_modulus entity) |>
           <| t_poll_retransmit_start := t_current entity |> in
  (entity, buffer).

Definition check_poll_after_pdu_assembly (entity : nr_rlc_entity_am_t) : bool :=
  let transmission_buffer_empty := match tx_list entity with [] => true | _ => false end in
  let retransmission_buffer_empty := match retransmit_list entity with [] => true | _ => false end in
  (transmission_buffer_empty && retransmission_buffer_empty) || is_window_stalling entity.

(** The header fields that [serialize_sdu] writes. *)
Definition serialize_header (entity : nr_rlc_entity_am_t) (sn : Z) (sdu : nr_rlc_sdu_segment_t)
  (encoder : nr_rlc_pdu_encoder_t) : res nr_rlc_pdu_encoder_t :=
  let* encoder := nr_rlc_pdu_encoder_put_bits encoder 1 1 in
  let* encoder := nr_rlc_pdu_encoder_put_bits encoder 0 1 in
  let* encoder := nr_rlc_pdu_encoder_put_bits encoder (1 - Z.b2z (seg_is_first sdu)) 1 in
  let* encoder := nr_rlc_pdu_encoder_put_bits encoder (1 - Z.b2z (seg_is_last sdu)) 1 in
  let* encoder :=
    (if sn_field_length entity =? 18 then nr_rlc_pdu_encoder_put_bits encoder 0 2
     else Ok encoder) in
  let* encoder := nr_rlc_pdu_encoder_put_bits encoder sn (sn_field_length entity) in
  if negb (seg_is_first sdu) then nr_rlc_pdu_encoder_put_bits encoder (seg_so sdu) 16
  else Ok encoder.

(** [memcpy(buffer + off, data + so, size)], a fault outside either object. *)
Definition copy_data (buffer : list Z) (off : Z) (data : list Z) (so size : Z) : res (list Z) :=
  if (so <? 0) || (size <? 0) || (Z.of_nat (length data) <? so + size)
     || (Z.of_nat (length buffer) <? off + size)
  then Fault OutOfBounds
  else Ok (buf_write buffer (Z.to_nat off) (take (Z.to_nat size) (drop (Z.to_nat so) data))).

(** Returns the entity, the buffer and the number of bytes produced. *)
Definition serialize_sdu (entity : nr_rlc_entity_am_t) (sdu : nr_rlc_sdu_segment_t)
  (buffer : list Z) (p : bool) : res (nr_rlc_entity_am_t * list Z * Z) :=
  let encoder := nr_rlc_pdu_encoder_init buffer (Z.of_nat (length buffer)) in
  let* s := get_sdu (heap entity) (seg_sdu sdu) in
  let* encoder := serialize_header entity (sdu_sn s) sdu encoder in
  let* buffer := copy_data (e_buffer encoder) (e_byte encoder) (sdu_data s)
                   (seg_so sdu) (seg_size sdu) in
  let '(entity, buffer) := if p then include_poll entity buffer else (entity, buffer) in
  Ok (entity, buffer, e_byte encoder + seg_size sdu).

(** The segment cut to fit into [pdu_size] bytes and the segment of the rest, at
    a new address; the shared SDU gets one more reference. *)
Definition resegment (entity : nr_rlc_entity_am_t) (sdu : nr_rlc_sdu_segment_t) (pdu_size : Z)
  : res (nr_rlc_sdu_segment_t * nr_rlc_sdu_segment_t * nr_rlc_entity_am_t) :=
  let* s := get_sdu (heap entity) (seg_sdu sdu) in
  let h := put_sdu (heap entity) (seg_sdu sdu) (s <| ref_count := ref_count s + 1 |>) in
  let pdu_header_size := compute_pdu_header_size entity sdu in
  let over_size := pdu_header_size + seg_size sdu - pdu_size in
  let sdu' := sdu <| seg_size := seg_size sdu - over_size |> <| seg_is_last := false |> in
  let next := sdu <| seg_addr := h_next h |> <| seg_size := over_size |>
                  <| seg_so := seg_so sdu' + seg_size sdu' |> <| seg_is_first := false |> in
  let h := h <| h_next := (h_next h + 1)%positive |> in
  Ok (sdu', next, entity <| heap := h |>).

(** ** Status reporting *)

(** [next] is the suffix of [rx_list] that starts at the next PDU to use, empty
    for NULL.  [sn_start] is -1 when there is nothing more to report; the other
    fields are not set by the code in that case and are 0 here. *)
Record missing_data_t := mk_missing {
  sn_start : Z;
  so_start : Z;
  sn_end : Z;
  so_end : Z;
  missing_next : list nr_rlc_pdu_t
}.

#[export] Instance eta_missing : Eta missing_data_t := fun m =>
  mk_missing (sn_start m) (so_start m) (sn_end m) (so_end m) (missing_next m).

Definition no_missing : missing_data_t := mk_missing (-1) 0 0 0 [].

(** [(rx_highest_status - 1 + sn_modulus) % sn_modulus] *)
Definition last_reportable (entity : nr_rlc_entity_am_t) : Z :=
  cmod (rx_highest_status entity - 1 + sn_modulus entity) (sn_modulus entity).

(** "out of reporting window" *)
Definition out_of_report (entity : nr_rlc_entity_am_t) (sn : Z) : bool :=
  sn_compare_rx entity (rx_highest_status entity) sn <=? 0.

(** The label [set_end_different_sdu], with [cur] the PDU behind the gap. *)
Definition set_end_different_sdu (entity : nr_rlc_entity_am_t) (cur : nr_rlc_pdu_t)
  (ret : missing_data_t) : missing_data_t :=
  let m := sn_modulus entity in
  let ret :=
    if pdu_is_first cur
    then ret <| sn_end := cmod (pdu_sn cur - 1 + m) m |> <| so_end := 0xffff |>
    else ret <| sn_end := pdu_sn cur |> <| so_end := pdu_so cur - 1 |> in
  if out_of_report entity (sn_end ret)
  then ret <| sn_end := last_reportable entity |> <| so_end := 0xffff |> <| missing_next := [] |>
  else ret.

(** The code from the label [next_pdu], with [l] the PDUs behind [cur]. *)
Fixpoint next_missing_loop (entity : nr_rlc_entity_am_t) (cur : nr_rlc_pdu_t)
  (l : list nr_rlc_pdu_t) (max_so : Z) (last_reached : bool) : missing_data_t :=
  let m := sn_modulus entity in
  let sn := pdu_sn cur in
  let cur_max_so := pdu_so cur + pdu_size cur - 1 in
  let max_so := if cur_max_so >? max_so then cur_max_so else max_so in
  let last_reached := last_reached || pdu_is_last cur in
  match l with
  | [] =>
    match pdu_data cur with
    | None =>
      let s := cmod (sn + 1) m in
      if out_of_report entity s then no_missing
      else mk_missing s 0 (last_reportable entity) 0xffff []
    | Some _ =>
      let '(s, o) := if last_reached then (cmod (sn + 1) m, 0) else (sn, max_so + 1) in
      if out_of_report entity s then no_missing
      else mk_missing s o (last_reportable entity) 0xffff []
    end
  | nxt :: tl =>
    if (pdu_sn nxt =? sn) && (max_so >=? pdu_so nxt - 1) then
      next_missing_loop entity nxt tl max_so last_reached
    else if (pdu_sn nxt =? cmod (sn + 1) m) && last_reached && pdu_is_first nxt then
      next_missing_loop entity nxt tl 0 false
    else if pdu_sn nxt =? sn then
      if out_of_report entity sn then no_missing
      else mk_missing sn (max_so + 1) sn (pdu_so nxt - 1) l
    else
      let '(s, o) := if last_reached then (cmod (sn + 1) m, 0) else (sn, max_so + 1) in
      if out_of_report entity s then no_missing
      else set_end_different_sdu entity nxt (mk_missing s o 0 0 l)
  end.

(** [cur] is a non-empty suffix of the received list. *)
Definition next_missing (entity : nr_rlc_entity_am_t) (cur : nr_rlc_pdu_t)
  (l : list nr_rlc_pdu_t) (check_head : bool) : missing_data_t :=
  if check_head && (negb (pdu_sn cur =? rx_next entity) || negb (pdu_is_first cur)) then
    if out_of_report entity (rx_next entity) then no_missing
    else set_end_different_sdu entity cur (mk_missing (rx_next entity) 0 0 0 (cur :: l))
  else next_missing_loop entity cur l 0 false.

Definition nack_size (entity : nr_rlc_entity_am_t) (m : missing_data_t) : Z :=
  let nack_length := 2 + Z.b2z (sn_field_length entity =? 18) in
  if sn_start m =? sn_end m then
    if (so_start m =? 0) && (so_end m =? 0xffff) then nack_length else nack_length + 4
  else if (so_start m =? 0) && (so_end m =? 0xffff) then nack_length + 1
  else nack_length + 5.

Definition get_e1_position (entity : nr_rlc_entity_am_t) (encoder : nr_rlc_pdu_encoder_t) : Z * Z :=
  if sn_field_length entity =? 18 then (e_byte encoder + 2, 5) else (e_byte encoder + 1, 3).

(** The flags [e2] and [e3] of a nack block. *)
Definition nack_flags (m : missing_data_t) : Z * Z :=
  if sn_start m =? sn_end m then
    if (so_start m =? 0) && (so_end m =? 0xffff) then (0, 0) else (1, 0)
  else
    if (so_start m =? 0) && (so_end m =? 0xffff) then (0, 1) else (1, 1).

(** The current range of the loop of [generate_missing] and [missing_size]: at
    most 255 SNs, the byte offsets of [m] at its two ends. *)
Definition cur_range (entity : nr_rlc_entity_am_t) (m : missing_data_t) (sn_start0 sn_count : Z)
  : Z * missing_data_t :=
  let cur_sn_count := if sn_count >? 255 then 255 else sn_count in
  let o := if sn_start0 =? sn_start m then so_start m else 0 in
  let '(n, p) :=
    if cur_sn_count =? sn_count then (sn_end m, so_end m)
    else (cmod (sn_start0 + 254) (sn_modulus entity), 0xffff) in
  (cur_sn_count, mk_missing sn_start0 o n p []).

(** [(m->sn_end - m->sn_start + sn_modulus) % sn_modulus + 1] *)
Definition sn_count_of (entity : nr_rlc_entity_am_t) (m : missing_data_t) : Z :=
  cmod (sn_end m - sn_start m + sn_modulus entity) (sn_modulus entity) + 1.

(** Local variables of the status generation: the encoder, the position of the
    e1 bit to set, and the position of the last [so_end] ([None] for NULL). *)
Record status_t := mk_status {
  st_encoder : nr_rlc_pdu_encoder_t;
  e1_byte : Z;
  e1_bit : Z;
  so_end_address : option Z
}.

(** The fields of one nack block. *)
Definition put_nack (entity : nr_rlc_entity_am_t) (st : status_t) (n : missing_data_t)
  (cur_sn_count : Z) : res status_t :=
  let r_bits := if sn_field_length entity =? 18 then 3 else 1 in
  let encoder := st_encoder st in
  let encoder := encoder <| e_buffer :=
    buf_set (e_buffer encoder) (e1_byte st)
      (Z.lor (buf_get (e_buffer encoder) (e1_byte st)) (Z.shiftl 1 (e1_bit st))) |> in
  let '(e1_byte, e1_bit) := get_e1_position entity encoder in
  let '(e2, e3) := nack_flags n in
  let* encoder := nr_rlc_pdu_encoder_put_bits encoder (sn_start n) (sn_field_length entity) in
  let* encoder := nr_rlc_pdu_encoder_put_bits encoder 0 1 in
  let* encoder := nr_rlc_pdu_encoder_put_bits encoder e2 1 in
  let* encoder := nr_rlc_pdu_encoder_put_bits encoder e3 1 in
  let* encoder := nr_rlc_pdu_encoder_put_bits encoder 0 r_bits in
  let* (encoder, so_end_address) :=
    (if negb (e2 =? 0) then
       let* encoder := nr_rlc_pdu_encoder_put_bits encoder (so_start n) 16 in
       let a := e_byte encoder in
       let* encoder := nr_rlc_pdu_encoder_put_bits encoder (so_end n) 16 in
       Ok (encoder, Some a)
     else Ok (encoder, None)) in
  let* encoder :=
    (if negb (e3 =? 0) then nr_rlc_pdu_encoder_put_bits encoder cur_sn_count 8
     else Ok encoder) in
  Ok (mk_status encoder e1_byte e1_bit so_end_address).

(** The loop of [generate_missing]; returns the last nack SN generated (-1 if
    none) and whether the generation was truncated. *)
Fixpoint generate_missing_loop (fuel : nat) (entity : nr_rlc_entity_am_t) (m : missing_data_t)
  (st : status_t) (sn_start0 sn_count last_nack_generated : Z) : res (Z * bool * status_t) :=
  if sn_count =? 0 then Ok (last_nack_generated, false, st)
  else
    match fuel with
    | O => Fault FuelExhausted
    | S fuel =>
      let '(cur_sn_count, n) := cur_range entity m sn_start0 sn_count in
      if e_byte (st_encoder st) + nack_size entity n >? e_size (st_encoder st)
      then Ok (last_nack_generated, true, st)
      else
        let* st := put_nack entity st n cur_sn_count in
        let '(_, e3) := nack_flags n in
        let last_nack_generated :=
          if negb (e3 =? 0) then sn_start n + cur_sn_count - 1 else sn_start n in
        generate_missing_loop fuel entity m st
          (cmod (sn_start0 + cur_sn_count) (sn_modulus entity))
          (sn_count - cur_sn_count) last_nack_generated
    end.

Definition generate_missing (entity : nr_rlc_entity_am_t) (m : missing_data_t) (st : status_t)
  : res (Z * bool * status_t) :=
  generate_missing_loop (Z.to_nat (sn_count_of entity m)) entity m st
    (sn_start m) (sn_count_of entity m) (-1).

(** The [while (cur != NULL)] loop of [generate_status].  [next_missing] returns a
    strictly shorter suffix of the received list, so its length is enough fuel. *)
Fixpoint generate_status_loop (fuel : nat) (entity : nr_rlc_entity_am_t)
  (cur : list nr_rlc_pdu_t) (check_head : bool) (last_nack : Z) (st : status_t)
  : res (Z * status_t) :=
  match cur with
  | [] => Ok (last_nack, st)
  | p :: l =>
    match fuel with
    | O => Fault FuelExhausted
    | S fuel =>
      let m := next_missing entity p l check_head in
      if sn_start m =? -1 then Ok (last_nack, st)
      else
        let* (ln, truncated, st) := generate_missing entity m st in
        let m := if (truncated : bool) then m <| missing_next := [] |> else m in
        let last_nack := if ln =? -1 then last_nack else ln in
        let st :=
          match so_end_address st with
          | Some a =>
            if truncated then
              let enc := st_encoder st in
              mk_status (enc <| e_buffer := buf_set (buf_set (e_buffer enc) a 0xff) (a + 1) 0xff |>)
                (e1_byte st) (e1_bit st) (Some a)
            else st
          | None => st
          end in
        generate_status_loop fuel entity (missing_next m) false last_nack st
    end
  end.

(** The first call looks before the head and may return the whole list again. *)
Definition status_fuel (entity : nr_rlc_entity_am_t) : nat := S (length (rx_list entity)).

(** [ack_sn], in the first three bytes. *)
Definition put_ack_sn (entity : nr_rlc_entity_am_t) (buffer : list Z) (ack_sn : Z) : list Z :=
  if sn_field_length entity =? 12 then
    buf_set (buf_set buffer 0 (Z.shiftr ack_sn 8)) 1 (Z.land ack_sn 255)
  else
    let buffer := buf_set buffer 0 (Z.shiftr ack_sn 14) in
    let buffer := buf_set buffer 1 (Z.land (Z.shiftr ack_sn 6) 255) in
    buf_set buffer 2 (Z.lor (buf_get buffer 2) (Z.shiftl (Z.land ack_sn 0x3f) 2)).

Definition generate_status (entity : nr_rlc_entity_am_t) (buffer : list Z)
  : res (nr_rlc_entity_am_t * list Z * Z) :=
  let size := Z.of_nat (length buffer) in
  if size <? 3 then Ok (entity, buffer, 0)
  else
    let m := sn_modulus entity in
    let last_nack := cmod (rx_next entity - 1 + m) m in
    let* encoder := nr_rlc_pdu_encoder_put_bits (nr_rlc_pdu_encoder_init buffer size) 0 (8 * 3) in
    let st := mk_status encoder 2 (if sn_field_length entity =? 18 then 1 else 7) None in
    let* (last_nack, st) :=
      generate_status_loop (status_fuel entity) entity (rx_list entity) true last_nack st in
    let ack_sn := cmod (last_nack + 1) m in
    let buffer := put_ack_sn entity (e_buffer (st_encoder st)) ack_sn in
    let entity := entity <| status_triggered := false |>
                         <| t_status_prohibit_start := t_current entity |> in
    Ok (entity, buffer, e_byte (st_encoder st)).

Definition status_to_report (entity : nr_rlc_entity_am_t) : bool :=
  status_triggered entity
  && ((t_status_prohibit_start entity =? 0)
      || (u64 (t_current entity - t_status_prohibit_start entity)
          >? u64 (t_status_prohibit entity))).

(** The loop of [missing_size]: the number of ranges counted, the size so far,
    and whether there was no room for all of them. *)
Fixpoint missing_size_loop (fuel : nat) (entity : nr_rlc_entity_am_t) (m : missing_data_t)
  (size maxsize sn_start0 sn_count range_count : Z) : res (Z * Z * bool) :=
  let r_bits := if sn_field_length entity =? 18 then 3 else 1 in
  if sn_count =? 0 then Ok (range_count, size, false)
  else
    match fuel with
    | O => Fault FuelExhausted
    | S fuel =>
      let '(cur_sn_count, n) := cur_range entity m sn_start0 sn_count in
      if size + nack_size entity n >? maxsize then Ok (range_count, size, true)
      else
        let base := sn_field_length entity + 3 + r_bits in
        let size :=
          if sn_start n =? sn_end n then
            if (so_start n =? 0) && (so_end n =? 0xffff) then size + Z.quot base 8
            else size + Z.quot (base + 16 * 2) 8
          else
            if (so_start n =? 0) && (so_end n =? 0xffff) then size + Z.quot (base + 8) 8
            else size + Z.quot (base + 16 * 2 + 8) 8 in
        missing_size_loop fuel entity m size maxsize
          (cmod (sn_start0 + cur_sn_count) (sn_modulus entity))
          (sn_count - cur_sn_count) (range_count + 1)
    end.

Definition missing_size (entity : nr_rlc_entity_am_t) (m : missing_data_t) (size maxsize : Z)
  : res (Z * Z * bool) :=
  missing_size_loop (Z.to_nat (sn_count_of entity m)) entity m size maxsize
    (sn_start m) (sn_count_of entity m) 0.

Fixpoint status_size_loop (fuel : nat) (entity : nr_rlc_entity_am_t) (cur : list nr_rlc_pdu_t)
  (nack_count size maxsize : Z) : res Z :=
  match cur with
  | [] => Ok size
  | p :: l =>
    match fuel with
    | O => Fault FuelExhausted
    | S fuel =>
      let m := next_missing entity p l (nack_count =? 0) in
      if sn_start m =? -1 then Ok size
      else
        let* (n, size, truncated) := missing_size entity m size maxsize in
        let m := if (truncated : bool) then m <| missing_next := [] |> else m in
        status_size_loop fuel entity (missing_next m) (nack_count + n) size maxsize
    end
  end.

(** [status_size] in the code. *)
Definition compute_status_size (entity : nr_rlc_entity_am_t) (maxsize : Z) : res Z :=
  if maxsize <? 3 then Ok 0
  else status_size_loop (status_fuel entity) entity (rx_list entity) 0 3 maxsize.

(** ** PDU generation *)

(** The segment at an address among the live ones; [extra] is one that is in no
    list at the moment. *)
Definition deref_segment (entity : nr_rlc_entity_am_t) (extra : nr_rlc_sdu_segment_t) (a : addr)
  : res nr_rlc_sdu_segment_t :=
  match list_find (fun s => seg_addr s = a)
          (extra :: tx_list entity ++ wait_list entity ++ retransmit_list entity) with
  | Some (_, s) => Ok s
  | None => Fault UseAfterFree
  end.

(** "put SDU/SDU segment in the wait list": append when it belongs behind the
    segment at [wait_end], insert otherwise. *)
Definition put_in_wait_list (entity : nr_rlc_entity_am_t) (sdu : nr_rlc_sdu_segment_t)
  : res nr_rlc_entity_am_t :=
  let* append :=
    (match wait_end entity with
     | None => Ok true
     | Some a =>
       let* s := get_sdu (heap entity) (seg_sdu sdu) in
       let* e := deref_segment entity sdu a in
       let* es := get_sdu (heap entity) (seg_sdu e) in
       Ok ((sn_compare_tx entity (sdu_sn s) (sdu_sn es) >? 0)
           || ((sn_compare_tx entity (sdu_sn s) (sdu_sn es) =? 0)
               && (seg_so sdu >? seg_so e)))
     end) in
  if (append : bool) then
    let* (l, a) := nr_rlc_sdu_segment_list_append (wait_list entity) (wait_end entity) sdu in
    Ok (entity <| wait_list := l |> <| wait_end := a |>)
  else
    let* l := nr_rlc_sdu_segment_list_add (sn_compare_tx entity) (heap entity)
                (wait_list entity) sdu in
    let entity := entity <| wait_list := l |> in
    Ok (match l with
        | [x] => entity <| wait_end := Some (seg_addr x) |>
        | _ => entity
        end).

(** [if (entity->force_poll) { p = 1; entity->force_poll = 0; }] *)
Definition apply_force_poll (entity : nr_rlc_entity_am_t) (p : bool) : nr_rlc_entity_am_t * bool :=
  if force_poll entity then (entity <| force_poll := false |>, true) else (entity, p).

Definition generate_retx_pdu (entity : nr_rlc_entity_am_t) (buffer : list Z)
  : res (nr_rlc_entity_am_t * list Z * Z) :=
  let size := Z.of_nat (length buffer) in
  match retransmit_list entity with
  | [] => Fault NullDeref
  | sdu :: rest =>
    let pdu_header_size := compute_pdu_header_size entity sdu in
    if pdu_header_size + 1 >? size then Ok (entity, buffer, 0)
    else
      let entity := entity <| retransmit_list := rest |> in
      let pdu_size := pdu_header_size + seg_size sdu in
      let entity := add_bstatus_retx entity (- pdu_size) in
      let* (sdu, entity) :=
        (if pdu_size >? size then
           let* (sdu, next_sdu, entity) := resegment entity sdu size in
           let entity := entity <| retransmit_list := next_sdu :: retransmit_list entity |> in
           Ok (sdu, add_bstatus_retx entity
                      (compute_pdu_header_size entity next_sdu + seg_size next_sdu))
         else Ok (sdu, entity)) in
      let* entity := put_in_wait_list entity sdu in
      let p := check_poll_after_pdu_assembly entity in
      let '(entity, p) := apply_force_poll entity p in
      serialize_sdu entity sdu buffer p
  end.

(** "polling actions for a new PDU" *)
Definition poll_for_new_pdu (entity : nr_rlc_entity_am_t) (sdu : nr_rlc_sdu_segment_t)
  : nr_rlc_entity_am_t * bool :=
  let entity := entity <| pdu_without_poll := pdu_without_poll entity + 1 |>
                       <| byte_without_poll := byte_without_poll entity + seg_size sdu |> in
  let p :=
    if (negb (poll_pdu entity =? -1) && (pdu_without_poll entity >=? poll_pdu entity))
       || (negb (poll_byte entity =? -1) && (byte_without_poll entity >=? poll_byte entity))
    then true
    else check_poll_after_pdu_assembly entity in
  apply_force_poll entity p.

Definition generate_tx_pdu (entity : nr_rlc_entity_am_t) (buffer : list Z)
  : res (nr_rlc_entity_am_t * list Z * Z) :=
  let size := Z.of_nat (length buffer) in
  if is_window_stalling entity then Ok (entity, buffer, 0)
  else
    match tx_list entity with
    | [] => Ok (entity, buffer, 0)
    | sdu :: rest =>
      let pdu_header_size := compute_pdu_header_size entity sdu in
      if pdu_header_size + 1 >? size then Ok (entity, buffer, 0)
      else
        let entity := entity <| tx_list := rest |> in
        let entity :=
          match rest with [] => entity <| tx_end := None |> | _ => entity end in
        let pdu_size := pdu_header_size + seg_size sdu in
        let entity := add_bstatus_tx entity (- pdu_size) in
        let* s := get_sdu (heap entity) (seg_sdu sdu) in
        let entity := entity <| heap :=
          put_sdu (heap entity) (seg_sdu sdu) (s <| sdu_sn := tx_next entity |>) |> in
        let* (sdu, entity) :=
          (if pdu_size >? size then
             let* (sdu, next_sdu, entity) := resegment entity sdu size in
             let entity := entity <| tx_list := next_sdu :: tx_list entity |> in
             let entity :=
               match tx_end entity with
               | None => entity <| tx_end := Some (seg_addr next_sdu) |>
               | Some _ => entity
               end in
             Ok (sdu, add_bstatus_tx entity
                        (compute_pdu_header_size entity next_sdu + seg_size next_sdu))
           else Ok (sdu, entity)) in
        let entity :=
          if seg_is_last sdu
          then entity <| tx_next := cmod (tx_next entity + 1) (sn_modulus entity) |>
          else entity in
        let* entity := put_in_wait_list entity sdu in
        let '(entity, p) := poll_for_new_pdu entity sdu in
        serialize_sdu entity sdu buffer p
    end.

Definition nr_rlc_entity_am_buffer_status (entity : nr_rlc_entity_am_t) (maxsize : Z)
  : res nr_rlc_entity_buffer_status_t :=
  let* s := (if status_to_report entity then compute_status_size entity maxsize else Ok 0) in
  Ok (mk_bstatus s (bs_tx_size (bstatus entity)) (bs_retx_size (bstatus entity))).

Definition nr_rlc_entity_am_generate_pdu (entity : nr_rlc_entity_am_t) (buffer : list Z)
  : res (nr_rlc_entity_am_t * list Z * Z) :=
  let* (entity, buffer, ret) :=
    (if status_to_report entity then generate_status entity buffer
     else Ok (entity, buffer, 0)) in
  if negb (ret =? 0) then Ok (entity, buffer, ret)
  else
    let* (entity, buffer, ret) :=
      (match retransmit_list entity with
       | [] => Ok (entity, buffer, 0)
       | _ => generate_retx_pdu entity buffer
       end) in
    if negb (ret =? 0) then Ok (entity, buffer, ret)
    else generate_tx_pdu entity buffer.

(** ** SDU RX functions *)

Definition nr_rlc_entity_am_recv_sdu (entity : nr_rlc_entity_am_t) (buffer : list Z) (sdu_id : Z)
  : res nr_rlc_entity_am_t :=
  let size := Z.of_nat (length buffer) in
  if size >? NR_SDU_MAX then Exit
  else
    let entity :=
      if negb (sdu_rejected entity =? 0)
         && (t_current entity >? u64 (t_log_buffer_full entity + 1000))
      then entity <| sdu_rejected := 0 |> <| t_log_buffer_full := t_current entity |>
      else entity in
    if tx_size entity + size >? tx_maxsize entity
    then Ok (entity <| sdu_rejected := sdu_rejected entity + 1 |>)
    else
      let entity := entity <| tx_size := tx_size entity + size |> in
      let '(sdu, h) := nr_rlc_new_sdu (heap entity) buffer size sdu_id in
      let entity := entity <| heap := h |> in
      let* (l, a) := nr_rlc_sdu_segment_list_append (tx_list entity) (tx_end entity) sdu in
      let entity := entity <| tx_list := l |> <| tx_end := a |> in
      Ok (add_bstatus_tx entity (compute_pdu_header_size entity sdu + seg_size sdu)).

(** ** Timers *)

(** [t_current <= start + duration] in 64-bit unsigned arithmetic, negated. *)
Definition expired (t_current start duration : Z) : bool :=
  negb ((start =? 0) || (t_current <=? u64 (start + u64 duration))).

Definition check_t_poll_retransmit (entity : nr_rlc_entity_am_t) : res nr_rlc_entity_am_t :=
  if negb (expired (t_current entity) (t_poll_retransmit_start entity) (t_poll_retransmit entity))
  then Ok entity
  else
    let entity := entity <| t_poll_retransmit_start := 0 |> <| force_poll := true |> in
    if negb (check_poll_after_pdu_assembly entity) then Ok entity
    else
      match wait_list entity with
      | [] => Fault NullDeref
      | cur :: rest =>
        let entity := entity <| wait_list := rest |> in
        let entity := match rest with [] => entity <| wait_end := None |> | _ => entity end in
        let* entity := retx_segment entity cur in
        let* l := nr_rlc_sdu_segment_list_add (sn_compare_tx entity) (heap entity)
                    (retransmit_list entity) cur in
        Ok (entity <| retransmit_list := l |>)
      end.

Definition check_t_reassembly (entity : nr_rlc_entity_am_t) : res nr_rlc_entity_am_t :=
  if negb (expired (t_current entity) (t_reassembly_start entity) (t_reassembly entity))
  then Ok entity
  else
    let m := sn_modulus entity in
    let entity := entity <| t_reassembly_start := 0 |> in
    let* sn := skip_delivered (skip_delivered_fuel entity) entity (rx_next_status_trigger entity) in
    let entity := entity <| rx_highest_status := sn |> <| status_triggered := true |> in
    if (sn_compare_rx entity (rx_next_highest entity) (cmod (rx_highest_status entity + 1) m) >? 0)
       || ((rx_next_highest entity =? cmod (rx_highest_status entity + 1) m)
           && sdu_has_missing_bytes entity (rx_highest_status entity))
    then Ok (entity <| t_reassembly_start := t_current entity |>
                    <| rx_next_status_trigger := rx_next_highest entity |>)
    else Ok entity.

Definition nr_rlc_entity_am_set_time (entity : nr_rlc_entity_am_t) (now : Z)
  : res nr_rlc_entity_am_t :=
  let entity := entity <| t_current := now |> in
  let* entity := check_t_poll_retransmit entity in
  check_t_reassembly entity.

(** ** Discard, re-establishment, deletion *)

(** [while (cur != NULL && cur->sdu->upper_layer_id != sdu_id)]: the segments
    before the first one of [sdu_id], that segment, and those behind it. *)
Fixpoint find_sdu_id (h : sdu_heap) (sdu_id : Z) (before l : list nr_rlc_sdu_segment_t)
  : res (option (list nr_rlc_sdu_segment_t * nr_rlc_sdu_segment_t * list nr_rlc_sdu_segment_t)) :=
  match l with
  | [] => Ok None
  | cur :: rest =>
    let* s := get_sdu h (seg_sdu cur) in
    if negb (upper_layer_id s =? sdu_id) then find_sdu_id h sdu_id (before ++ [cur]) rest
    else Ok (Some (before, cur, rest))
  end.

Definition nr_rlc_entity_am_discard_sdu (entity : nr_rlc_entity_am_t) (sdu_id : Z)
  : res nr_rlc_entity_am_t :=
  let* r := find_sdu_id (heap entity) sdu_id [] (tx_list entity) in
  match r with
  | None => Ok entity
  | Some (before, cur, rest) =>
    if negb (seg_is_first cur) || negb (seg_is_last cur) then Ok entity
    else
      let entity := entity <| tx_list := before ++ rest |> in
      let entity :=
        if decide (tx_end entity = Some (seg_addr cur))
        then entity <| tx_end := seg_addr <$> list.last before |> else entity in
      let entity := add_bstatus_tx entity (- (compute_pdu_header_size entity cur + seg_size cur)) in
      let* s := get_sdu (heap entity) (seg_sdu cur) in
      let entity := entity <| tx_size := tx_size entity - sdu_size s |> in
      let* (_, h) := nr_rlc_free_sdu_segment (heap entity) cur in
      Ok (entity <| heap := h |>)
  end.

(** Every runtime variable is reset; the configuration stays. *)
Definition clear_entity (entity : nr_rlc_entity_am_t) : res nr_rlc_entity_am_t :=
  let* h := nr_rlc_free_sdu_segment_list (heap entity) (tx_list entity) in
  let* h := nr_rlc_free_sdu_segment_list h (wait_list entity) in
  let* h := nr_rlc_free_sdu_segment_list h (retransmit_list entity) in
  Ok {|
    bstatus := mk_bstatus (status_size (bstatus entity)) 0 0;
    t_poll_retransmit := t_poll_retransmit entity;
    t_reassembly := t_reassembly entity;
    t_status_prohibit := t_status_prohibit entity;
    poll_pdu := poll_pdu entity;
    poll_byte := poll_byte entity;
    max_retx_threshold := max_retx_threshold entity;
    sn_field_length := sn_field_length entity;
    sn_modulus := sn_modulus entity;
    window_size := window_size entity;
    rx_next := 0; rx_next_status_trigger := 0; rx_highest_status := 0; rx_next_highest := 0;
    status_triggered := false;
    tx_next := 0; tx_next_ack := 0; poll_sn := 0; pdu_without_poll := 0; byte_without_poll := 0;
    force_poll := false;
    t_current := 0; t_log_buffer_full := 0; sdu_rejected := 0;
    t_poll_retransmit_start := 0; t_reassembly_start := 0; t_status_prohibit_start := 0;
    rx_list := []; rx_size := 0; rx_maxsize := rx_maxsize entity;
    tx_list := []; tx_end := None; tx_size := 0; tx_maxsize := tx_maxsize entity;
    wait_list := []; wait_end := None; retransmit_list := [];
    heap := h;
    events := events entity
  |}.

Definition nr_rlc_entity_am_reestablishment (entity : nr_rlc_entity_am_t)
  : res nr_rlc_entity_am_t :=
  clear_entity entity.

(** The entity is freed: what remains of its memory is the heap of SDUs. *)
Definition nr_rlc_entity_am_delete (entity : nr_rlc_entity_am_t) : res sdu_heap :=
  let* entity := clear_entity entity in
  Ok (heap entity).

(** ** Creation *)

(** [new_nr_rlc_entity_am] of nr_rlc_entity.c. *)
Definition new_nr_rlc_entity_am (rx_maxsize tx_maxsize t_poll_retransmit t_reassembly
    t_status_prohibit poll_pdu poll_byte max_retx_threshold sn_field_length : Z)
  : res nr_rlc_entity_am_t :=
  if negb ((sn_field_length =? 12) || (sn_field_length =? 18)) then Exit
  else
    let sn_modulus := Z.shiftl 1 sn_field_length in
    let window_size := Z.quot sn_modulus 2 in
    Ok (mk_am (mk_bstatus 0 0 0) t_poll_retransmit t_reassembly t_status_prohibit poll_pdu
          poll_byte max_retx_threshold sn_field_length sn_modulus window_size
          0 0 0 0 false 0 0 0 0 0 false 0 0 0 0 0 0
          [] 0 rx_maxsize [] None 0 tx_maxsize [] None [] empty_heap []).
