(* ===== verification/RlcAmRx.v ===== *)
(** Reception side of the acknowledged-mode entity: the invariant of the
    receive list and the correctness of reassembly. *)

From S2P Require Import Prelude.
From S2P Require Import RlcPdu.
From S2P Require Import RlcSdu.
From S2P Require Import RlcAm.
From Stdlib Require Import Sorting.Sorted Sorting.Permutation.

(** ** Specification vocabulary *)

(** The distance of an SN from a base. *)
Definition dist (M base a : Z) : Z := (a - base) mod M.

(** The configurations [new_nr_rlc_entity_am] accepts. *)
Definition am_conf (e : nr_rlc_entity_am_t) : Prop :=
  ((sn_field_length e = 12 /\ sn_modulus e = 4096) \/
   (sn_field_length e = 18 /\ sn_modulus e = 262144)) /\
  2 * window_size e = sn_modulus e.

Definition sn_range (e : nr_rlc_entity_am_t) (sn : Z) : Prop := 0 <= sn < sn_modulus e.

(** A PDU of the receive list: an SN inside the window whose base is [base]. *)
Definition pdu_ok (M W base : Z) (p : nr_rlc_pdu_t) : Prop :=
  0 <= pdu_sn p < M /\ dist M base (pdu_sn p) < W /\ 0 <= pdu_so p /\ 0 < pdu_size p /\
  (forall d, pdu_data p = Some d -> Z.of_nat (length d) = pdu_size p).

(** The bytes a PDU still occupies. *)
Definition live_size (p : nr_rlc_pdu_t) : Z :=
  match pdu_data p with Some _ => pdu_size p | None => 0 end.

(** A processed segment exists only for an SDU whose first segment starts at
    byte 0 and is processed. *)
Definition delivered_ok (l : list nr_rlc_pdu_t) : Prop :=
  forall p, p ∈ l -> pdu_data p = None ->
    exists q tl, find_sn l (pdu_sn p) = q :: tl /\ pdu_data q = None /\ pdu_so q = 0.

(** The receive list, sorted and inside the window of base [base]. *)
Definition rx_list_ok (M W base : Z) (l : list nr_rlc_pdu_t) : Prop :=
  Forall (pdu_ok M W base) l /\ StronglySorted (pdu_before (dist M base)) l /\ delivered_ok l.

(** The receive-side invariant of the entity. *)
Definition rx_wf (e : nr_rlc_entity_am_t) : Prop :=
  am_conf e /\ sn_range e (rx_next e) /\ sn_range e (rx_highest_status e) /\
  sn_range e (rx_next_highest e) /\ sn_range e (rx_next_status_trigger e) /\
  rx_list_ok (sn_modulus e) (window_size e) (rx_next e) (rx_list e) /\
  sumZ live_size (rx_list e) <= rx_size e <= rx_maxsize e.

(** The segments of SN [sn] in the list carry bytes of one SDU. *)
Definition segment_of (sdu : list Z) (p : nr_rlc_pdu_t) : Prop :=
  pdu_data p = Some (take (Z.to_nat (pdu_size p)) (drop (Z.to_nat (pdu_so p)) sdu)) /\
  0 <= pdu_so p /\ 0 < pdu_size p /\ pdu_so p + pdu_size p <= Z.of_nat (length sdu) /\
  (pdu_is_last p = true <-> pdu_so p + pdu_size p = Z.of_nat (length sdu)).

Definition consistent (l : list nr_rlc_pdu_t) (sn : Z) (sdu : list Z) : Prop :=
  forall p, p ∈ l -> pdu_sn p = sn -> segment_of sdu p.

(** Byte [i] of SDU [sn] was received. *)
Definition byte_received (l : list nr_rlc_pdu_t) (sn i : Z) : Prop :=
  exists p, p ∈ l /\ pdu_sn p = sn /\ pdu_so p <= i < pdu_so p + pdu_size p.

(** ** Distances *)

Lemma dist_bound M b a : 0 < M -> 0 <= dist M b a < M.
Proof. intros. by apply Z.mod_pos_bound. Qed.

Lemma dist_cases M b a : 0 < M -> 0 <= a < M -> 0 <= b < M ->
  dist M b a = if a - b <? 0 then a - b + M else a - b.
Proof.
  intros. unfold dist. destruct (Z.ltb_spec (a - b) 0).
  - symmetry. apply (Z.mod_unique_pos _ _ (-1)); lia.
  - apply Z.mod_small. lia.
Qed.

Lemma dist_inj M b x y :
  0 < M -> 0 <= x < M -> 0 <= y < M -> 0 <= b < M -> dist M b x = dist M b y -> x = y.
Proof.
  intros HM Hx Hy Hb. rewrite !dist_cases by done.
  destruct (Z.ltb_spec (x - b) 0), (Z.ltb_spec (y - b) 0); lia.
Qed.

Lemma dist_self M b : 0 < M -> dist M b b = 0.
Proof. intros. unfold dist. by rewrite Z.sub_diag, Z.mod_0_l by lia. Qed.

Lemma dist_pos M b x : 0 < M -> 0 <= x < M -> 0 <= b < M -> x <> b -> 0 < dist M b x.
Proof.
  intros HM Hx Hb Hne. pose proof (dist_bound M b x HM).
  enough (dist M b x <> 0) by lia. intros E. apply Hne.
  apply (dist_inj M b); try done. by rewrite dist_self.
Qed.

(** Moving the base one step forward brings every other SN one step closer. *)
Lemma dist_succ M b x :
  0 < M -> 0 <= b -> 0 < dist M b x -> dist M (cmod (b + 1) M) x = dist M b x - 1.
Proof.
  intros HM Hb Hd. rewrite cmod_pos by lia. pose proof (dist_bound M b x HM). unfold dist in *.
  rewrite Zminus_mod_idemp_r. replace (x - (b + 1)) with (x - b - 1) by lia.
  rewrite <- Zminus_mod_idemp_l. apply Z.mod_small. lia.
Qed.

Lemma modulus_rx_dist e a :
  am_conf e -> sn_range e (rx_next e) -> sn_range e a ->
  modulus_rx e a = dist (sn_modulus e) (rx_next e) a.
Proof.
  intros [Hc _] Hn Ha. unfold modulus_rx. rewrite dist_cases; unfold sn_range in *; try done.
  destruct Hc as [[_ ->]|[_ ->]]; lia.
Qed.

Lemma conf_pos e : am_conf e -> 0 < sn_modulus e /\ 0 < window_size e.
Proof. intros [[[_ ->]|[_ ->]] H]; lia. Qed.

(** ** The list helpers *)

Lemma find_sn_incl l sn : find_sn l sn ⊆ l.
Proof.
  induction l as [|p l IH]; cbn; [done|]. destruct (pdu_sn p =? sn); [done|set_solver].
Qed.

Lemma find_sn_spec l sn :
  match find_sn l sn with
  | [] => Forall (fun p => pdu_sn p <> sn) l
  | q :: tl => pdu_sn q = sn /\ exists pre, l = pre ++ q :: tl /\ Forall (fun p => pdu_sn p <> sn) pre
  end.
Proof.
  induction l as [|p l IH]; cbn; [done|]. destruct (Z.eqb_spec (pdu_sn p) sn) as [E|E].
  - split; [done|]. by exists [].
  - destruct (find_sn l sn); [by constructor|].
    destruct IH as (Hq & pre & -> & Hpre). split; [done|]. exists (p :: pre). by repeat constructor.
Qed.

(** Same-SN segments are contiguous in a sorted list. *)
Lemma sorted_block M b (l : list nr_rlc_pdu_t) p tl sn :
  0 < M -> 0 <= b < M -> Forall (fun q => 0 <= pdu_sn q < M) l ->
  StronglySorted (pdu_before (dist M b)) l -> l = p :: tl ->
  dist M b sn < dist M b (pdu_sn p) -> Forall (fun q => pdu_sn q <> sn) l.
Proof.
  intros HM Hb Hr Hs -> Hlt. inversion_clear Hs as [|? ? _ Hall]. constructor; [intros <-; lia|].
  eapply List.Forall_impl; [|exact Hall]. intros q [Hq|[Hq _]] <-; [lia|]. rewrite Hq in Hlt. lia.
Qed.

(** The list from some point on: first the segments of [sn], then no other. *)
Fixpoint block (l : list nr_rlc_pdu_t) (sn : Z) : Prop :=
  match l with
  | [] => True
  | p :: tl => if pdu_sn p =? sn then block tl sn else Forall (fun q => pdu_sn q <> sn) l
  end.

(** What processing the segments of [sn] does to the list. *)
Definition mark_with (clear : nr_rlc_pdu_t -> nr_rlc_pdu_t) (sn : Z) (p : nr_rlc_pdu_t) : nr_rlc_pdu_t :=
  if pdu_sn p =? sn then clear p else p.

Definition mark : Z -> nr_rlc_pdu_t -> nr_rlc_pdu_t := mark_with clear_data.

Definition sn_size (sn : Z) (p : nr_rlc_pdu_t) : Z :=
  if pdu_sn p =? sn then pdu_size p else 0.

Lemma sorted_find_block M b l sn :
  0 < M -> 0 <= b < M -> 0 <= sn < M -> Forall (fun q => 0 <= pdu_sn q < M) l ->
  StronglySorted (pdu_before (dist M b)) l -> block (find_sn l sn) sn.
Proof.
  intros HM Hb Hsn. induction l as [|p l IH]; intros Hr Hs; cbn; [done|].
  inversion_clear Hr as [|? ? Hp Hr']. inversion_clear Hs as [|? ? Hs' Hall].
  destruct (Z.eqb_spec (pdu_sn p) sn) as [E|E]; [|by apply IH].
  cbn. rewrite (proj2 (Z.eqb_eq _ _) E). clear IH.
  induction l as [|q l IH]; cbn; [done|].
  inversion_clear Hr' as [|? ? Hq Hr'']. inversion_clear Hs' as [|? ? Hs'' Hall'].
  inversion_clear Hall as [|? ? Hpq Hall''].
  destruct (Z.eqb_spec (pdu_sn q) sn) as [E'|E']; [by apply IH|].
  eapply (sorted_block M b _ q l sn); try done; try by constructor.
  destruct Hpq as [Hpq|[Hpq _]]; [by rewrite E in Hpq|congruence].
Qed.

Lemma mark_other clear sn l : Forall (fun p => pdu_sn p <> sn) l -> mark_with clear sn <$> l = l.
Proof.
  induction 1 as [|p l Hp _ IH]; cbn; [done|]. rewrite IH. unfold mark_with.
  by rewrite (proj2 (Z.eqb_neq _ _) Hp).
Qed.

Lemma sn_size_other sn l : Forall (fun p => pdu_sn p <> sn) l -> sumZ (sn_size sn) l = 0.
Proof.
  induction 1 as [|p l Hp _ IH]; cbn; [done|]. rewrite IH. unfold sn_size.
  by rewrite (proj2 (Z.eqb_neq _ _) Hp).
Qed.

(** Whatever the segments hold, the loop either reads outside a segment or marks
    exactly the segments of [sn] and counts their sizes. *)
Lemma reassemble_loop_list clear l sn : forall sdu bad freed,
  block l sn ->
  Forall (fun p => pdu_sn p = sn -> pdu_data p <> None) l ->
  reassemble_loop clear l sn sdu bad freed = Fault OutOfBounds \/
  exists sdu' bad', reassemble_loop clear l sn sdu bad freed
                    = Ok (sdu', bad', freed + sumZ (sn_size sn) l, mark_with clear sn <$> l).
Proof.
  induction l as [|p l IH]; intros sdu bad freed Hb Hl.
  - right. exists sdu, bad. cbn. by rewrite Z.add_0_r.
  - inversion_clear Hl as [|? ? Hp Hl']. cbn in Hb.
    destruct (Z.eqb_spec (pdu_sn p) sn) as [E|E].
    + specialize (Hp E). cbn [reassemble_loop]. rewrite (proj2 (Z.eqb_eq _ _) E).
      set (bad1 := if _ && negb bad then true else bad).
      set (cp := if negb bad1 && _ then _ else Ok sdu).
      assert (Hcp : cp = Fault OutOfBounds \/ exists s, cp = Ok s).
      { subst cp. destruct (negb bad1 && _); [|by right; eexists].
        destruct (pdu_data p) as [d|]; [|done]. destruct (_ || _); [by left|by right; eexists]. }
      destruct Hcp as [->|[s ->]]; cbn [rbind]; [by left|].
      destruct (IH s bad1 (freed + pdu_size p) Hb Hl') as [->|(s' & b' & ->)]; cbn [rbind]; [by left|].
      right. exists s', b'. cbn [sumZ fmap list_fmap]. unfold sn_size at 2, mark_with at 2.
      rewrite (proj2 (Z.eqb_eq _ _) E), Z.add_assoc. done.
    + right. exists sdu, bad. cbn [reassemble_loop]. rewrite (proj2 (Z.eqb_neq _ _) E).
      rewrite mark_other, sn_size_other by done. by rewrite Z.add_0_r.
Qed.

Lemma reassemble_from_split clear l sn :
  reassemble_from clear l sn =
  match find_sn l sn with
  | [] => Fault NullDeref
  | _ => let* (sdu, bad, freed, l') := reassemble_loop clear (find_sn l sn) sn [] false 0 in
         Ok (sdu, bad, freed, take (length l - length (find_sn l sn)) l ++ l')
  end.
Proof.
  induction l as [|p l IH]; cbn [find_sn reassemble_from]; [done|].
  destruct (Z.eqb_spec (pdu_sn p) sn) as [E|E].
  - rewrite Nat.sub_diag. cbn [take app].
    destruct (reassemble_loop clear (p :: l) sn [] false 0) as [[[[? ?] ?] ?]| |]; done.
  - rewrite IH. pose proof (find_sn_spec l sn) as Hf.
    destruct (find_sn l sn) as [|q tl] eqn:Hq; [done|].
    destruct Hf as (_ & pre & -> & _).
    destruct (reassemble_loop clear (q :: tl) sn [] false 0) as [[[[? ?] ?] ?]| |]; cbn [rbind]; [|done|done].
    change (p :: pre ++ q :: tl) with ((p :: pre) ++ q :: tl). rewrite !length_app.
    replace (length (p :: pre) + length (q :: tl) - length (q :: tl))%nat with (length (p :: pre)) by lia.
    replace (length pre + length (q :: tl) - length (q :: tl))%nat with (length pre) by lia.
    by rewrite !take_app_length.
Qed.

Lemma reassemble_from_list clear l sn :
  block (find_sn l sn) sn -> find_sn l sn <> [] ->
  Forall (fun p => pdu_sn p = sn -> pdu_data p <> None) l ->
  reassemble_from clear l sn = Fault OutOfBounds \/
  exists sdu bad, reassemble_from clear l sn = Ok (sdu, bad, sumZ (sn_size sn) l, mark_with clear sn <$> l).
Proof.
  intros Hb Hne Hl. rewrite reassemble_from_split. pose proof (find_sn_spec l sn) as Hf.
  destruct (find_sn l sn) as [|q tl] eqn:Hq; [done|]. destruct Hf as (_ & pre & -> & Hpre).
  apply Forall_app in Hl as [_ Hl].
  destruct (reassemble_loop_list clear (q :: tl) sn [] false 0) as [->|(s & b & ->)]; [done|done|by left|].
  right. exists s, b. cbn [rbind]. rewrite length_app.
  replace (length pre + length (q :: tl) - length (q :: tl))%nat with (length pre) by lia.
  rewrite take_app_length, fmap_app, (mark_other clear sn pre), sumZ_app, (sn_size_other sn pre) by done. done.
Qed.

(** ** Marking the segments of an SDU *)

Lemma mark_sn sn p : pdu_sn (mark sn p) = pdu_sn p.
Proof. unfold mark, mark_with, clear_data. by destruct (_ =? _). Qed.

Lemma mark_so sn p : pdu_so (mark sn p) = pdu_so p.
Proof. unfold mark, mark_with, clear_data. by destruct (_ =? _). Qed.

Lemma mark_data sn p d : pdu_data (mark sn p) = Some d -> pdu_data p = Some d.
Proof. unfold mark, mark_with, clear_data. by destruct (_ =? _). Qed.

Lemma find_sn_mark l sn x : find_sn (mark sn <$> l) x = mark sn <$> find_sn l x.
Proof.
  induction l as [|p l IH]; cbn; [done|]. rewrite mark_sn. by destruct (_ =? x).
Qed.

Lemma mark_sorted D sn l :
  StronglySorted (pdu_before D) l -> StronglySorted (pdu_before D) (mark sn <$> l).
Proof.
  induction 1 as [|p l _ IH Hall]; cbn; constructor; [done|].
  apply Forall_fmap. eapply List.Forall_impl; [|exact Hall].
  intros q Hq. unfold pdu_before, compose. by rewrite !mark_sn, !mark_so.
Qed.

Lemma mark_live sn l :
  Forall (fun p => pdu_sn p = sn -> pdu_data p <> None) l ->
  sumZ live_size (mark sn <$> l) = sumZ live_size l - sumZ (sn_size sn) l.
Proof.
  induction 1 as [|p l Hp _ IH]; cbn; [done|]. rewrite IH. unfold live_size at 1, live_size at 2.
  unfold mark, mark_with, clear_data, sn_size at 2. destruct (Z.eqb_spec (pdu_sn p) sn) as [E|E]; cbn; [|lia].
  specialize (Hp E). destruct (pdu_data p); [lia|done].
Qed.

Lemma mark_rx_list_ok M W b sn l q tl :
  rx_list_ok M W b l -> find_sn l sn = q :: tl -> pdu_so q = 0 ->
  rx_list_ok M W b (mark sn <$> l).
Proof.
  intros (Hf & Hs & Hd) Hq Hso. split; [|split].
  - apply Forall_fmap. eapply List.Forall_impl; [|exact Hf]. unfold compose, pdu_ok.
    intros p (H1 & H2 & H3 & H4 & H5). rewrite mark_sn, mark_so.
    split; [done|]. split; [done|]. split; [done|].
    split; [by unfold mark, mark_with, clear_data; destruct (_ =? _)|].
    intros d Hdata. apply mark_data in Hdata. rewrite (H5 d Hdata).
    unfold mark, mark_with, clear_data. by destruct (_ =? _).
  - by apply mark_sorted.
  - intros p Hp Hdata. apply list_elem_of_fmap in Hp as (p0 & -> & Hp0).
    rewrite mark_sn, find_sn_mark.
    destruct (Z.eq_dec (pdu_sn p0) sn) as [E|E].
    + rewrite E, Hq. cbn. eexists _, _. split; [done|]. rewrite mark_so. split; [|done].
      unfold mark, mark_with, clear_data. pose proof (find_sn_spec l sn) as Hsp. rewrite Hq in Hsp.
      by rewrite (proj2 (Z.eqb_eq _ _) (proj1 Hsp)).
    + assert (pdu_data p0 = None) as Hn.
      { unfold mark, mark_with, clear_data in Hdata. by rewrite (proj2 (Z.eqb_neq _ _) E) in Hdata. }
      destruct (Hd p0 Hp0 Hn) as (q' & tl' & -> & Hq1 & Hq2). cbn.
      eexists _, _. split; [done|]. rewrite mark_so. split; [|done].
      unfold mark, mark_with, clear_data. destruct (_ =? _); done.
Qed.

(** When the first segment of [sn] is live, all of them are. *)
Lemma first_live l sn q tl :
  delivered_ok l -> find_sn l sn = q :: tl -> pdu_data q <> None ->
  Forall (fun p => pdu_sn p = sn -> pdu_data p <> None) l.
Proof.
  intros Hd Hq Hlive. apply Forall_forall. intros p Hp <- Hn.
  destruct (Hd p (proj2 (list_elem_of_In _ _) Hp) Hn) as (q' & tl' & E & Hn' & _). congruence.
Qed.

(** [sdu_full] finds a live first segment at offset 0. *)
Lemma sdu_full_first M W b e sn :
  rx_list_ok M W b (rx_list e) -> sdu_full e sn = true ->
  exists q tl, find_sn (rx_list e) sn = q :: tl /\ pdu_data q <> None /\ pdu_so q = 0.
Proof.
  intros (Hf & _ & _) Hfull. unfold sdu_full in Hfull.
  pose proof (find_sn_spec (rx_list e) sn) as Hsp.
  destruct (find_sn (rx_list e) sn) as [|q tl] eqn:Hq; [done|]. cbn in Hfull.
  destruct Hsp as (Hsn & _).
  assert (pdu_ok M W b q) as (_ & _ & Hso & _).
  { rewrite Forall_forall in Hf. apply Hf, list_elem_of_In, (find_sn_incl _ sn).
    rewrite Hq. constructor. }
  exists q, tl. split; [done|].
  destruct (pdu_data q); [|done]. split; [done|].
  rewrite (proj2 (Z.eqb_eq _ _) Hsn) in Hfull.
  destruct (Z.gtb_spec (pdu_so q) (-1 + 1)); [done|lia].
Qed.

(** ** Inserting a PDU *)

Lemma find_sn_app l1 l2 x :
  find_sn (l1 ++ l2) x = match find_sn l1 x with [] => find_sn l2 x | k => k ++ l2 end.
Proof. induction l1 as [|p l1 IH]; cbn; [done|]. by destruct (_ =? x). Qed.

Lemma insert_before_ext {A} (f g : A -> bool) x l :
  Forall (fun y => f y = g y) l -> insert_before f x l = insert_before g x l.
Proof. induction 1 as [|y l Hy _ IH]; cbn; [done|]. rewrite Hy, IH. done. Qed.

Lemma add_delivered_ok D l p :
  StronglySorted (pdu_before D) l -> 0 <= pdu_so p -> pdu_data p <> None -> delivered_ok l ->
  delivered_ok (nr_rlc_pdu_list_add (fun a b => D a - D b) l p).
Proof.
  intros Hs Hso Hlive Hd. unfold nr_rlc_pdu_list_add.
  destruct (insert_before_split
              (fun cur => (D (pdu_sn cur) - D (pdu_sn p) >? 0)
                          || ((pdu_sn cur =? pdu_sn p) && (pdu_so cur >? pdu_so p))) p l)
    as (l1 & l2 & -> & -> & H1 & H2).
  intros r Hr Hn.
  assert (Hin : r ∈ l1 ++ l2).
  { apply elem_of_app in Hr as [Hr|Hr]; [set_solver|].
    apply elem_of_cons in Hr as [->|Hr]; [done|set_solver]. }
  destruct (Hd r Hin Hn) as (q & tl & Hq & Hqn & Hqs). rewrite find_sn_app in Hq |- *.
  destruct (find_sn l1 (pdu_sn r)) as [|q1 tl1] eqn:E1;
    [|injection Hq as <- <-; by eexists _, _].
  cbn. destruct (Z.eqb_spec (pdu_sn p) (pdu_sn r)) as [E|E]; [exfalso|by eexists _, _].
  pose proof (find_sn_spec l2 (pdu_sn r)) as Hsp. rewrite Hq in Hsp.
  destruct Hsp as (Hqsn & pre & -> & Hpre). rewrite <- E in Hqsn.
  assert (HDq : D (pdu_sn q) = D (pdu_sn p)) by congruence.
  apply ssorted_app in Hs as (_ & Hs & _). destruct pre as [|h pre].
  - specialize (H2 q tl eq_refl). b2p. destruct H2; b2p; lia.
  - specialize (H2 h _ eq_refl). b2p.
    inversion_clear Hs as [|? ? _ Hall]. apply Forall_app in Hall as [_ Hall].
    inversion_clear Hall as [|? ? Hhq _].
    inversion_clear Hpre as [|? ? Hne _].
    destruct Hhq as [Hhq|[Hhq Hle]]; [|congruence].
    destruct H2 as [H2|H2]; b2p; [lia|congruence].
Qed.

Lemma add_rx_list_ok M W b l p :
  0 < M -> 0 <= b < M -> rx_list_ok M W b l -> pdu_ok M W b p -> pdu_data p <> None ->
  rx_list_ok M W b (nr_rlc_pdu_list_add (fun x y => dist M b x - dist M b y) l p).
Proof.
  intros HM Hb (Hf & Hs & Hd) Hp Hlive. split; [|split].
  - eapply Permutation_Forall; [symmetry; apply list_add_perm|]. by constructor.
  - apply list_add_sorted; [|done]. intros q Hq Heq.
    rewrite Forall_forall in Hf. destruct (Hf q (proj1 (list_elem_of_In _ _) Hq)) as (? & _).
    apply (dist_inj M b); try done. apply Hp.
  - apply add_delivered_ok; try done. apply Hp.
Qed.

(** ** Releasing the delivered SDUs at the head *)

Lemma drop_sn_suffix l sn : exists pre, l = pre ++ drop_sn l sn /\ Forall (fun p => pdu_sn p = sn) pre.
Proof.
  induction l as [|p l (pre & IH & Hp)]; cbn; [by exists []|].
  destruct (Z.eqb_spec (pdu_sn p) sn); [|by exists []].
  exists (p :: pre). cbn. rewrite <- IH. by repeat constructor.
Qed.

Lemma drop_sn_none M b l p :
  0 < M -> 0 <= b < M -> Forall (fun q => 0 <= pdu_sn q < M) l ->
  StronglySorted (pdu_before (dist M b)) (p :: l) -> pdu_sn p = b ->
  Forall (fun q => pdu_sn q <> b) (drop_sn l b).
Proof.
  intros HM Hb. revert p. induction l as [|q l IH]; intros p Hr Hs Hp; cbn; [done|].
  inversion_clear Hr as [|? ? Hq Hr']. inversion_clear Hs as [|? ? Hs' _].
  destruct (Z.eqb_spec (pdu_sn q) b) as [E|E]; [by apply (IH q)|].
  eapply (sorted_block M b _ q l b); try done; [by constructor|].
  rewrite dist_self by done. by apply dist_pos.
Qed.

Lemma ssorted_impl {A} (R R' : A -> A -> Prop) l :
  (forall x y, x ∈ l -> y ∈ l -> R x y -> R' x y) -> StronglySorted R l -> StronglySorted R' l.
Proof.
  intros Hi. induction 1 as [|x l _ IH Hall]; constructor.
  - apply IH. set_solver.
  - rewrite Forall_forall in Hall |- *. intros y Hy.
    apply Hi; [constructor|constructor; by apply list_elem_of_In|by apply Hall].
Qed.

Lemma find_sn_skip pre l x b :
  Forall (fun p => pdu_sn p = b) pre -> x <> b -> find_sn (pre ++ l) x = find_sn l x.
Proof.
  intros Hp Hx. induction Hp as [|p pre Hp _ IH]; cbn; [done|].
  destruct (Z.eqb_spec (pdu_sn p) x); [congruence|done].
Qed.

(** The window moves past the SDU at its lower edge. *)
Lemma advance_rx_list_ok M W b p tl :
  0 < M -> 0 <= b < M -> rx_list_ok M W b (p :: tl) -> pdu_sn p = b ->
  rx_list_ok M W (cmod (b + 1) M) (drop_sn tl b).
Proof.
  intros HM Hb (Hf & Hs & Hd) Hp.
  assert (Hr : Forall (fun q => 0 <= pdu_sn q < M) tl).
  { inversion_clear Hf as [|? ? _ Hf']. eapply List.Forall_impl; [|exact Hf']. by intros q [? _]. }
  pose proof (drop_sn_none M b tl p HM Hb Hr Hs Hp) as Hne.
  destruct (drop_sn_suffix tl b) as (pre & Htl & Hpre).
  assert (Hpos : forall q, q ∈ drop_sn tl b -> 0 <= pdu_sn q < M /\ 0 < dist M b (pdu_sn q)).
  { intros q Hq. assert (0 <= pdu_sn q < M).
    { rewrite Forall_forall in Hr. apply Hr, list_elem_of_In. rewrite Htl. apply elem_of_app. by right. }
    split; [done|]. apply dist_pos; try done. rewrite Forall_forall in Hne.
    by apply Hne, list_elem_of_In. }
  split; [|split].
  - rewrite Htl in Hf. inversion_clear Hf as [|? ? _ Hf']. apply Forall_app in Hf' as [_ Hf'].
    rewrite Forall_forall in Hf' |- *. intros q Hq. destruct (Hf' q Hq) as (? & ? & ?).
    apply list_elem_of_In, Hpos in Hq as [_ Hq]. split; [done|]. split; [|done].
    rewrite dist_succ by lia. lia.
  - rewrite Htl in Hs. inversion_clear Hs as [|? ? Hs' _]. apply ssorted_app in Hs' as (_ & Hs' & _).
    eapply ssorted_impl; [|exact Hs']. unfold pdu_before. intros x y Hx Hy.
    apply Hpos in Hx as [_ Hx], Hy as [_ Hy]. rewrite !dist_succ by lia. lia.
  - remember (drop_sn tl b) as k eqn:Ek. clear Ek.
    intros r Hr' Hn. assert (Hin : r ∈ p :: tl) by (rewrite Htl; constructor; apply elem_of_app; by right).
    destruct (Hd r Hin Hn) as (q & tl' & Hq & ? & ?). exists q, tl'. split; [|done].
    rewrite <- Hq, Htl. symmetry. apply (find_sn_skip (p :: pre) _ _ b); [by constructor|].
    rewrite Forall_forall in Hne. by apply Hne, list_elem_of_In.
Qed.

Lemma drop_sn_live l sn :
  Forall (fun p => 0 <= live_size p) l -> sumZ live_size (drop_sn l sn) <= sumZ live_size l.
Proof.
  induction 1 as [|p l Hp _ IH]; cbn; [lia|]. destruct (_ =? _); [lia|cbn; lia].
Qed.

Lemma drop_sn_length l sn : (length (drop_sn l sn) <= length l)%nat.
Proof. induction l as [|p l IH]; cbn; [lia|]. destruct (_ =? _); cbn; lia. Qed.

Lemma rx_list_live M W b l : rx_list_ok M W b l -> Forall (fun p => 0 <= live_size p) l.
Proof.
  intros (Hf & _). eapply List.Forall_impl; [|exact Hf]. intros p (_ & _ & _ & Hz & _).
  unfold live_size. destruct (pdu_data p); lia.
Qed.

Lemma free_delivered_ok M W fuel : forall l b,
  0 < M -> 0 <= b < M -> rx_list_ok M W b l ->
  let '(l', b') := free_delivered fuel l M b in
  0 <= b' < M /\ rx_list_ok M W b' l' /\ sumZ live_size l' <= sumZ live_size l.
Proof.
  induction fuel as [|fuel IH]; intros l b HM Hb Hok; [by cbn|].
  destruct l as [|p tl]; [by cbn|]. cbn [free_delivered].
  destruct (already_processed (p :: tl) && (pdu_sn p =? b)) eqn:E; [|done].
  b2p. pose proof (rx_list_live _ _ _ _ Hok) as Hlive. inversion_clear Hlive as [|? ? Hp Htl].
  specialize (IH (drop_sn tl b) (cmod (b + 1) M) HM).
  destruct (free_delivered fuel _ _ _) as [l' b'].
  destruct IH as (H1 & H2 & H3); [apply cmod_bound; lia|by eapply advance_rx_list_ok|].
  split; [done|]. split; [done|]. pose proof (drop_sn_live tl b Htl). cbn. lia.
Qed.

(** ** The loops that skip delivered SDUs end *)

Lemma dist_next M b a :
  0 < M -> 0 <= a -> dist M b a + 1 < M -> dist M b (cmod (a + 1) M) = dist M b a + 1.
Proof.
  intros HM Ha Hd. rewrite cmod_pos by lia. pose proof (dist_bound M b a HM). unfold dist in *.
  rewrite Zminus_mod_idemp_l. replace (a + 1 - b) with (a - b + 1) by lia.
  rewrite <- Zplus_mod_idemp_l. apply Z.mod_small. lia.
Qed.

(** How many received segments are not before [sn] in the window. *)
Definition segs_from (M b sn : Z) (l : list nr_rlc_pdu_t) : nat :=
  length (filter (fun q => dist M b sn <= dist M b (pdu_sn q)) l).

Lemma segs_from_next M b sn l q :
  0 < M -> 0 <= sn -> dist M b sn + 1 < M -> q ∈ l -> pdu_sn q = sn ->
  (segs_from M b (cmod (sn + 1) M) l < segs_from M b sn l)%nat.
Proof.
  intros HM Hsn Hd Hq <-. unfold segs_from. rewrite dist_next by lia.
  apply list_elem_of_split in Hq as (l1 & l2 & ->). rewrite !list.filter_app, !list.filter_cons, !length_app.
  rewrite decide_False by lia. rewrite decide_True by lia.
  assert (Hle : forall k : list nr_rlc_pdu_t,
      (length (filter (fun r => dist M b (pdu_sn q) + 1 <= dist M b (pdu_sn r))%Z k)
       <= length (filter (fun r => dist M b (pdu_sn q) <= dist M b (pdu_sn r))%Z k))%nat).
  { induction k as [|r k IH]; [done|]. rewrite !list.filter_cons. do 2 case_decide; cbn; lia. }
  pose proof (Hle l1). pose proof (Hle l2). cbn. lia.
Qed.

Lemma delivered_in_list e x : sdu_delivered e x = true -> exists q, q ∈ rx_list e /\ pdu_sn q = x.
Proof.
  unfold sdu_delivered. pose proof (find_sn_spec (rx_list e) x) as Hsp.
  destruct (find_sn (rx_list e) x) as [|q tl]; [done|]. destruct Hsp as (Hq & pre & -> & _).
  intros _. exists q. split; [|done]. apply elem_of_app. right. constructor.
Qed.

(** A delivered SN is followed by fewer segments than itself. *)
Lemma delivered_progress e x :
  am_conf e -> rx_list_ok (sn_modulus e) (window_size e) (rx_next e) (rx_list e) ->
  sn_range e x -> sdu_delivered e x = true ->
  (segs_from (sn_modulus e) (rx_next e) (cmod (x + 1) (sn_modulus e)) (rx_list e)
   < segs_from (sn_modulus e) (rx_next e) x (rx_list e))%nat.
Proof.
  intros Hc Hok Hx Hdel. destruct (conf_pos e Hc) as [HM HW].
  destruct (delivered_in_list e x Hdel) as (q & Hin & <-).
  destruct Hok as (Hf & _). rewrite Forall_forall in Hf.
  destruct (Hf q (proj1 (list_elem_of_In _ _) Hin)) as (_ & Hw & _).
  destruct Hc as [_ Hc2]. pose proof (dist_bound (sn_modulus e) (rx_next e) (pdu_sn q) HM).
  apply (segs_from_next _ _ _ _ q); try done; unfold sn_range in *; lia.
Qed.

Lemma skip_delivered_ends fuel : forall e x,
  am_conf e -> rx_list_ok (sn_modulus e) (window_size e) (rx_next e) (rx_list e) -> sn_range e x ->
  (segs_from (sn_modulus e) (rx_next e) x (rx_list e) <= fuel)%nat ->
  exists x', skip_delivered fuel e x = Ok x' /\ sn_range e x' /\ sdu_delivered e x' = false.
Proof.
  induction fuel as [|fuel IH]; intros e x Hc Hok Hx Hfuel; cbn [skip_delivered];
    (destruct (sdu_delivered e x) eqn:Hdel; [|by exists x]);
    pose proof (delivered_progress e x Hc Hok Hx Hdel) as Hlt; [lia|].
  destruct (conf_pos e Hc) as [HM _].
  apply IH; try done; [apply cmod_bound; unfold sn_range in *; lia|lia].
Qed.

Lemma segs_from_le M b sn l : (segs_from M b sn l <= length l)%nat.
Proof. apply length_filter. Qed.

(** ** Preservation of the invariant *)

Lemma sn_range_rx e e' a : sn_modulus e' = sn_modulus e -> sn_range e a -> sn_range e' a.
Proof. unfold sn_range. by intros ->. Qed.

Lemma sn_next_range e a : am_conf e -> sn_range e a -> sn_range e (cmod (a + 1) (sn_modulus e)).
Proof.
  intros Hc Ha. destruct (conf_pos e Hc). unfold sn_range in *. apply cmod_bound; lia.
Qed.

Lemma rx_wf_timers e : rx_wf e -> rx_wf (reception_actions_timers e).
Proof.
  intros (Hc & H1 & H2 & H3 & H4 & H5 & H6). unfold reception_actions_timers.
  destruct (negb (t_reassembly_start e =? 0));
    [destruct (_ || _)|]; am_simpl; (destruct (_ =? 0); [destruct (_ || _)|]);
    unfold rx_wf, am_conf, sn_range in *; am_simpl; done.
Qed.

(** Changing the status variables inside the SN range keeps the invariant. *)
Lemma rx_wf_highest e x : rx_wf e -> sn_range e x -> rx_wf (e <| rx_next_highest := x |>).
Proof. unfold rx_wf, am_conf, sn_range. am_simpl. tauto. Qed.

Lemma rx_wf_highest_status e x : rx_wf e -> sn_range e x -> rx_wf (e <| rx_highest_status := x |>).
Proof. unfold rx_wf, am_conf, sn_range. am_simpl. tauto. Qed.

Lemma rx_wf_status_triggered e b : rx_wf e -> rx_wf (e <| status_triggered := b |>).
Proof. unfold rx_wf, am_conf, sn_range. am_simpl. tauto. Qed.

Lemma reassemble_wf e x :
  rx_wf e -> sn_range e x -> sdu_full e x = true ->
  reassemble_and_deliver e x = Fault OutOfBounds \/
  exists e', reassemble_and_deliver e x = Ok e' /\ rx_wf e' /\
    rx_list e' = mark x <$> rx_list e /\ sn_modulus e' = sn_modulus e /\
    rx_next e' = rx_next e /\ rx_highest_status e' = rx_highest_status e.
Proof.
  intros (Hc & H1 & H2 & H3 & H4 & Hl & Hsz) Hx Hfull.
  destruct (conf_pos e Hc) as [HM HW].
  destruct (sdu_full_first _ _ _ _ _ Hl Hfull) as (q & tl & Hq & Hlive & Hso).
  pose proof (first_live _ _ _ _ (proj2 (proj2 Hl)) Hq Hlive) as Hall.
  unfold reassemble_and_deliver.
  destruct (reassemble_from_list clear_data (rx_list e) x) as [->|(sdu & bad & ->)].
  - destruct Hl as (Hf & Hs & _). eapply (sorted_find_block (sn_modulus e) (rx_next e)); try done.
    eapply List.Forall_impl; [|exact Hf]. by intros p [? _].
  - by rewrite Hq.
  - done.
  - by left.
  - right. cbn [rbind].
    set (e1 := e <| rx_list := _ |> <| rx_size := _ |>).
    assert (Hwf : rx_wf e1).
    { subst e1. unfold rx_wf, am_conf, sn_range in *. am_simpl.
      do 5 (split; [done|]). split; [by eapply mark_rx_list_ok|].
      rewrite mark_live by done.
      assert (0 <= sumZ (sn_size x) (rx_list e)); [|lia].
      apply sumZ_nonneg. destruct Hl as (Hf & _). eapply List.Forall_impl; [|exact Hf].
      intros p (_ & _ & _ & ? & _). unfold sn_size. destruct (_ =? _); lia. }
    destruct bad; eexists; (split; [reflexivity|]); done.
Qed.

Lemma drop_sn_incl l sn : drop_sn l sn ⊆ l.
Proof. induction l as [|p l IH]; cbn; [done|]. destruct (_ =? _); [set_solver|done]. Qed.

Lemma free_delivered_incl fuel : forall l M b, (free_delivered fuel l M b).1 ⊆ l.
Proof.
  induction fuel as [|fuel IH]; intros l M b; cbn; [done|]. destruct l as [|p l]; [done|].
  destruct (_ && _); [|done]. etrans; [apply IH|]. etrans; [apply drop_sn_incl|]. set_solver.
Qed.

Lemma release_wf e x :
  rx_wf e -> exists e', release_delivered e x = Ok e' /\ rx_wf e' /\
    rx_list e' ⊆ rx_list e /\ events e' = events e.
Proof.
  intros Hwf. unfold release_delivered.
  set (r := if x =? rx_highest_status e then _ else _).
  assert (exists e2, r = Ok e2 /\ rx_wf e2 /\ rx_list e2 = rx_list e /\ events e2 = events e)
    as (e2 & -> & Hwf2 & <- & <-).
  { subst r. destruct (x =? rx_highest_status e); [|by exists e].
    destruct Hwf as (Hc & H1 & H2 & H3 & H4 & Hl & Hsz) eqn:Hw. clear Hw.
    destruct (skip_delivered_ends (skip_delivered_fuel e) e (rx_highest_status e))
      as (h & -> & Hh & _); [done|done|done| |].
    - unfold skip_delivered_fuel. pose proof (segs_from_le (sn_modulus e) (rx_next e)
        (rx_highest_status e) (rx_list e)). lia.
    - cbn [rbind]. eexists. split; [done|]. split; [by apply rx_wf_highest_status|done]. }
  cbn [rbind]. destruct (x =? rx_next e2); [|by exists e2].
  destruct Hwf2 as (Hc & H1 & H2 & H3 & H4 & Hl & Hsz).
  destruct (conf_pos e2 Hc) as [HM HW].
  pose proof (free_delivered_ok (sn_modulus e2) (window_size e2) (length (rx_list e2))
                (rx_list e2) (rx_next e2) HM H1 Hl) as Hfree.
  pose proof (free_delivered_incl (length (rx_list e2)) (rx_list e2) (sn_modulus e2) (rx_next e2)) as Hi.
  destruct (free_delivered _ _ _ _) as [l n]. destruct Hfree as (Hn & Hl' & Hsum).
  eexists. split; [done|]. split; [|done]. unfold rx_wf, am_conf, sn_range in *. am_simpl.
  do 5 (split; [done|]). split; [done|lia].
Qed.

Lemma reception_actions_deliver_wf e x :
  rx_wf e -> sn_range e x ->
  reception_actions_deliver e x = Fault OutOfBounds \/
  exists e', reception_actions_deliver e x = Ok e' /\ rx_wf e'.
Proof.
  intros Hwf Hx. unfold reception_actions_deliver.
  destruct (sdu_full e x) eqn:Hfull; [|right; by exists e].
  destruct (reassemble_wf e x Hwf Hx Hfull) as [->|(e1 & -> & Hwf1 & _)]; cbn [rbind]; [by left|].
  destruct (release_wf e1 x Hwf1) as (e' & -> & ? & _). right. by exists e'.
Qed.

(** ** Reassembly is exact on consistent segments *)

(** Appending the new part of a segment to a prefix of the SDU. *)
Lemma extend_prefix (S : list Z) (k so size : Z) :
  0 <= so <= k -> k < so + size -> so + size <= Z.of_nat (length S) ->
  take (Z.to_nat k) S
    ++ take (Z.to_nat (size - (k - so)))
         (drop (Z.to_nat (k - so)) (take (Z.to_nat size) (drop (Z.to_nat so) S)))
  = take (Z.to_nat (so + size)) S.
Proof.
  intros H1 H2 H3. rewrite skipn_firstn_comm, drop_drop, take_take.
  replace (Z.to_nat so + Z.to_nat (k - so))%nat with (Z.to_nat k) by lia.
  replace (Nat.min _ _) with (Z.to_nat (so + size) - Z.to_nat k)%nat by lia.
  rewrite <- skipn_firstn_comm. rewrite <- (take_drop (Z.to_nat k) (take (Z.to_nat (so + size)) S)) at 2.
  rewrite take_take. by replace (Nat.min _ _) with (Z.to_nat k) by lia.
Qed.

(** Once the SDU is complete, the remaining segments add nothing. *)
Lemma reassemble_rest clear S sn l : forall freed,
  Z.of_nat (length S) <= NR_SDU_MAX ->
  Forall (fun p => pdu_sn p = sn -> segment_of S p) l ->
  exists freed' l', reassemble_loop clear l sn S false freed = Ok (S, false, freed', l').
Proof.
  induction l as [|p l IH]; intros freed Hmax Hf; cbn [reassemble_loop]; [by eexists _, _|].
  inversion_clear Hf as [|? ? Hp Hf']. destruct (Z.eqb_spec (pdu_sn p) sn) as [E|E]; [|by eexists _, _].
  destruct (Hp E) as (_ & _ & _ & Hle & _).
  destruct (Z.gtb_spec (Z.of_nat (length S) + (pdu_size p - (Z.of_nat (length S) - pdu_so p)))
              NR_SDU_MAX); [lia|]. cbn [andb negb].
  destruct (Z.gtb_spec (pdu_size p - (Z.of_nat (length S) - pdu_so p)) 0); [lia|]. cbn [rbind].
  destruct (IH (freed + pdu_size p) Hmax Hf') as (fr & l' & ->). cbn [rbind]. by eexists _, _.
Qed.

Lemma reassemble_exact clear S sn l : forall lb freed,
  Z.of_nat (length S) <= NR_SDU_MAX -> 0 <= lb + 1 <= Z.of_nat (length S) ->
  Forall (fun p => pdu_sn p = sn -> segment_of S p) l ->
  sdu_full_loop l sn lb = true ->
  exists freed' l',
    reassemble_loop clear l sn (take (Z.to_nat (lb + 1)) S) false freed = Ok (S, false, freed', l').
Proof.
  induction l as [|p l IH]; intros lb freed Hmax Hlb Hf Hfull; [done|].
  inversion_clear Hf as [|? ? Hp Hf']. cbn [sdu_full_loop reassemble_loop] in *.
  destruct (Z.eqb_spec (pdu_sn p) sn) as [E|E]; [|done].
  destruct (Hp E) as (Hdata & Hso & Hsize & Hle & Hlast).
  destruct (Z.gtb_spec (pdu_so p) (lb + 1)); [done|].
  assert (Hk : Z.of_nat (length (take (Z.to_nat (lb + 1)) S)) = lb + 1) by (rewrite length_take; lia).
  rewrite Hk. replace (lb + 1 + (pdu_size p - (lb + 1 - pdu_so p))) with (pdu_so p + pdu_size p) by lia.
  destruct (Z.gtb_spec (pdu_so p + pdu_size p) NR_SDU_MAX); [lia|]. cbn [andb negb].
  set (nlb := if pdu_so p + pdu_size p - 1 >? lb then pdu_so p + pdu_size p - 1 else lb) in *.
  set (cp := if pdu_size p - (lb + 1 - pdu_so p) >? 0 then _ else _).
  assert (Hcp : cp = Ok (take (Z.to_nat (nlb + 1)) S)).
  { subst cp nlb. rewrite Hdata.
    destruct (Z.gtb_spec (pdu_size p - (lb + 1 - pdu_so p)) 0),
      (Z.gtb_spec (pdu_so p + pdu_size p - 1) lb); try lia; [|done].
    rewrite length_take, length_drop.
    destruct (Z.ltb_spec (lb + 1 - pdu_so p) 0); [lia|].
    destruct (Z.ltb_spec (Z.of_nat (Z.to_nat (pdu_size p) `min` (length S - Z.to_nat (pdu_so p))))
                (lb + 1 - pdu_so p + (pdu_size p - (lb + 1 - pdu_so p)))); [lia|]. cbn [orb].
    rewrite extend_prefix by lia. do 3 f_equal. lia. }
  rewrite Hcp. cbn [rbind].
  assert (Hnlb : 0 <= nlb + 1 <= Z.of_nat (length S))
    by (subst nlb; destruct (Z.gtb_spec (pdu_so p + pdu_size p - 1) lb); lia).
  destruct (pdu_is_last p) eqn:Hl.
  - assert (nlb + 1 = Z.of_nat (length S)) as ->.
    { assert (pdu_so p + pdu_size p = Z.of_nat (length S)) by tauto.
      subst nlb. destruct (Z.gtb_spec (pdu_so p + pdu_size p - 1) lb); lia. }
    rewrite Nat2Z.id, firstn_all.
    destruct (reassemble_rest clear S sn l (freed + pdu_size p) Hmax Hf') as (fr & l' & ->). by eexists _, _.
  - destruct (IH nlb (freed + pdu_size p) Hmax Hnlb Hf' Hfull) as (fr & l' & ->). by eexists _, _.
Qed.

(** ** Completeness of an SDU *)

(** [sdu_full_loop] says true exactly when the bytes from [lb + 1] on are there. *)
Lemma full_loop_iff S sn l : forall lb,
  -1 <= lb < Z.of_nat (length S) ->
  block l sn -> Forall (fun p => pdu_sn p = sn -> segment_of S p) l ->
  StronglySorted (fun p q => pdu_sn p = pdu_sn q -> pdu_so p <= pdu_so q) l ->
  (lb < Z.of_nat (length S) - 1) ->
  sdu_full_loop l sn lb = true <->
  forall i, lb < i < Z.of_nat (length S) -> byte_received l sn i.
Proof.
  induction l as [|p l IH]; intros lb Hlb Hb Hf Hs Hlt.
  - cbn. split; [done|]. intros H. destruct (H (lb + 1)) as (q & Hq & _); [lia|by apply elem_of_nil in Hq].
  - inversion_clear Hf as [|? ? Hp Hf']. inversion_clear Hs as [|? ? Hs' Hall].
    cbn [sdu_full_loop block] in *. destruct (Z.eqb_spec (pdu_sn p) sn) as [E|E].
    + destruct (Hp E) as (_ & Hso & Hsize & Hle & Hlast).
      destruct (Z.gtb_spec (pdu_so p) (lb + 1)).
      { split; [done|]. intros Hall'. exfalso. destruct (Hall' (lb + 1)) as (q & Hq & Hqs & Hr); [lia|].
        apply elem_of_cons in Hq as [->|Hq]; [lia|]. rewrite Forall_forall in Hall.
        apply list_elem_of_In in Hq. specialize (Hall q Hq ltac:(congruence)). lia. }
      destruct (pdu_is_last p) eqn:Hl.
      { split; [|done]. intros _ i Hi. exists p. split; [constructor|]. split; [done|].
        assert (pdu_so p + pdu_size p = Z.of_nat (length S)) by tauto. lia. }
      assert (pdu_so p + pdu_size p <> Z.of_nat (length S))
        by (intros Hx; apply Hlast in Hx; congruence).
      set (nlb := if pdu_so p + pdu_size p - 1 >? lb then pdu_so p + pdu_size p - 1 else lb).
      assert (Hn : lb <= nlb < Z.of_nat (length S) - 1 /\
                   (forall i, lb < i <= nlb -> pdu_so p <= i < pdu_so p + pdu_size p) /\
                   pdu_so p + pdu_size p - 1 <= nlb).
      { subst nlb. destruct (Z.gtb_spec (pdu_so p + pdu_size p - 1) lb); split_and!; lia. }
      destruct Hn as (Hn1 & Hn2 & Hn3). rewrite IH by (done || lia). split.
      * intros Hr i Hi. destruct (decide (i <= nlb)) as [Hle'|Hgt].
        -- exists p. split; [constructor|]. split; [done|]. apply Hn2. lia.
        -- destruct (Hr i) as (q & Hq & ?); [lia|]. exists q. split; [by constructor|done].
      * intros Hby i Hi. destruct (Hby i) as (q & Hq & Hqs & Hr); [lia|].
        apply elem_of_cons in Hq as [->|Hq]; [lia|]. by exists q.
    + split; [done|]. intros H. exfalso. destruct (H (lb + 1)) as (q & Hq & Hqs & _); [lia|].
      rewrite Forall_forall in Hb. apply list_elem_of_In in Hq. by apply (Hb q).
Qed.

Lemma consistent_find l sn S :
  consistent l sn S -> Forall (fun p => pdu_sn p = sn -> segment_of S p) (find_sn l sn).
Proof.
  intros Hc. apply Forall_forall. intros p Hp Hsn. apply Hc; [|done].
  apply (find_sn_incl _ sn). by apply list_elem_of_In.
Qed.

Lemma find_sn_sorted (R : nr_rlc_pdu_t -> nr_rlc_pdu_t -> Prop) l sn :
  StronglySorted R l -> StronglySorted R (find_sn l sn).
Proof.
  induction 1 as [|p l Hs IH Hall]; cbn; [constructor|]. destruct (_ =? _); [by constructor|done].
Qed.

Lemma byte_received_find l sn i : byte_received (find_sn l sn) sn i <-> byte_received l sn i.
Proof.
  split; intros (p & Hp & Hsn & Hr); exists p; (split; [|done]).
  - by apply (find_sn_incl _ sn).
  - pose proof (find_sn_spec l sn) as Hf. destruct (find_sn l sn) as [|q tl].
    + rewrite Forall_forall in Hf. apply list_elem_of_In in Hp. by destruct (Hf p Hp).
    + destruct Hf as (_ & pre & -> & Hpre). apply elem_of_app in Hp as [Hp|Hp]; [|done].
      rewrite Forall_forall in Hpre. apply list_elem_of_In in Hp. by destruct (Hpre p Hp).
Qed.

Lemma rx_wf_block e sn : rx_wf e -> sn_range e sn -> block (find_sn (rx_list e) sn) sn.
Proof.
  intros (Hc & Hn & _ & _ & _ & (Hf & Hs & _) & _) Hsn. destruct (conf_pos e Hc) as [HM _].
  eapply (sorted_find_block (sn_modulus e) (rx_next e)); try done.
  eapply List.Forall_impl; [|exact Hf]. by intros p [? _].
Qed.

Lemma rx_wf_so_sorted e :
  rx_wf e -> StronglySorted (fun p q => pdu_sn p = pdu_sn q -> pdu_so p <= pdu_so q) (rx_list e).
Proof.
  intros (_ & _ & _ & _ & _ & (_ & Hs & _) & _). eapply ssorted_impl; [|exact Hs].
  intros p q _ _ [Hlt|[_ ?]] E; [rewrite E in Hlt; lia|done].
Qed.

Lemma sdu_full_complete e sn S :
  rx_wf e -> sn_range e sn -> consistent (rx_list e) sn S -> S <> [] ->
  sdu_full e sn = true <-> forall i, 0 <= i < Z.of_nat (length S) -> byte_received (rx_list e) sn i.
Proof.
  intros Hwf Hsn Hc Hne. pose proof (rx_wf_block e sn Hwf Hsn) as Hb.
  pose proof (find_sn_sorted _ _ sn (rx_wf_so_sorted e Hwf)) as Hs.
  pose proof (consistent_find _ _ _ Hc) as Hf.
  assert (HS : 0 < Z.of_nat (length S)) by (destruct S; [done|cbn; lia]).
  unfold sdu_full.
  assert (already_processed (find_sn (rx_list e) sn) = false) as ->.
  { pose proof (find_sn_spec (rx_list e) sn) as Hsp.
    destruct (find_sn (rx_list e) sn) as [|q tl]; [done|]. cbn.
    inversion_clear Hf as [|? ? Hq _]. destruct (Hq (proj1 Hsp)) as (-> & _). done. }
  rewrite (full_loop_iff S) by (done || lia).
  setoid_rewrite byte_received_find. split; intros H i Hi; apply H; lia.
Qed.

(** Consistent segments of a complete SDU are reassembled into that SDU. *)
Lemma reassemble_delivers e sn S :
  rx_wf e -> sn_range e sn -> consistent (rx_list e) sn S ->
  Z.of_nat (length S) <= NR_SDU_MAX -> sdu_full e sn = true ->
  exists e', reassemble_and_deliver e sn = Ok e' /\ rx_wf e' /\
    rx_list e' = mark sn <$> rx_list e /\ events e' = events e ++ [deliver_sdu S].
Proof.
  intros Hwf Hsn Hc Hmax Hfull.
  assert (Hd : exists fr l', reassemble_from clear_data (rx_list e) sn = Ok (S, false, fr, l')).
  { rewrite reassemble_from_split. unfold sdu_full in Hfull.
    pose proof (consistent_find _ _ _ Hc) as Hf.
    destruct (find_sn (rx_list e) sn) as [|q tl]; [done|].
    destruct (already_processed _); [done|].
    destruct (reassemble_exact clear_data S sn (q :: tl) (-1) 0) as (fr & l' & E); [done|lia|done|done|].
    change (take (Z.to_nat (-1 + 1)) S) with (@nil Z) in E. rewrite E. by eexists _, _. }
  destruct Hd as (fr & l' & Hd).
  destruct (reassemble_wf e sn Hwf Hsn Hfull) as [Hbad|(e' & He & Hwf' & Hl & _)];
    unfold reassemble_and_deliver in *; rewrite Hd in *; cbn [rbind] in *; [done|].
  injection He as <-. eexists. split; [done|]. split; [done|]. split; [done|]. done.
Qed.

(** ** The whole reception of a data PDU *)

(** Every live segment is a part of the SDU that [sdu] gives for its SN. *)
Definition rx_consistent (l : list nr_rlc_pdu_t) (sdu : Z -> list Z) : Prop :=
  forall p, p ∈ l -> pdu_data p <> None -> segment_of (sdu (pdu_sn p)) p.

Lemma full_consistent e x sdu :
  rx_wf e -> rx_consistent (rx_list e) sdu -> sdu_full e x = true ->
  consistent (rx_list e) x (sdu x).
Proof.
  intros (_ & _ & _ & _ & _ & Hl & _) Hc Hfull.
  destruct (sdu_full_first _ _ _ _ _ Hl Hfull) as (q & tl & Hq & Hlive & _).
  pose proof (first_live _ _ _ _ (proj2 (proj2 Hl)) Hq Hlive) as Hall.
  intros p Hp <-. apply Hc; [done|]. rewrite Forall_forall in Hall.
  apply Hall; [by apply list_elem_of_In|done].
Qed.

Lemma deliver_correct e x sdu :
  rx_wf e -> sn_range e x -> rx_consistent (rx_list e) sdu ->
  Z.of_nat (length (sdu x)) <= NR_SDU_MAX ->
  exists e', reception_actions_deliver e x = Ok e' /\ rx_wf e' /\
    rx_consistent (rx_list e') sdu /\
    events e' = events e ++ (if sdu_full e x then [deliver_sdu (sdu x)] else []).
Proof.
  intros Hwf Hx Hc Hmax. unfold reception_actions_deliver.
  destruct (sdu_full e x) eqn:Hfull; [|exists e; by rewrite app_nil_r].
  destruct (reassemble_delivers e x (sdu x)) as (e1 & -> & Hwf1 & Hl1 & Hev1);
    [done|done|by apply full_consistent|done|done|]. cbn [rbind].
  destruct (release_wf e1 x Hwf1) as (e' & -> & Hwf' & Hincl & Hev').
  exists e'. split; [done|]. split; [done|]. split; [|congruence].
  intros p Hp Hlive. apply Hincl in Hp. rewrite Hl1 in Hp.
  apply list_elem_of_fmap in Hp as (p0 & -> & Hp0). unfold mark, mark_with in *.
  destruct (pdu_sn p0 =? x); [done|]. by apply Hc.
Qed.

(** The entity after an accepted PDU was put into the receive list. *)
Definition with_pdu (e : nr_rlc_entity_am_t) (p : nr_rlc_pdu_t) : nr_rlc_entity_am_t :=
  let e := e <| rx_size := rx_size e + pdu_size p |> in
  e <| rx_list := nr_rlc_pdu_list_add (sn_compare_rx e) (rx_list e) p |>.

Lemma list_add_dist e l p :
  am_conf e -> sn_range e (rx_next e) -> sn_range e (pdu_sn p) ->
  Forall (fun q => sn_range e (pdu_sn q)) l ->
  nr_rlc_pdu_list_add (sn_compare_rx e) l p =
  nr_rlc_pdu_list_add (fun x y => dist (sn_modulus e) (rx_next e) x
                                  - dist (sn_modulus e) (rx_next e) y) l p.
Proof.
  intros Hc Hn Hp Hl. unfold nr_rlc_pdu_list_add. apply insert_before_ext.
  eapply List.Forall_impl; [|exact Hl]. intros q Hq. cbn beta. unfold sn_compare_rx.
  by rewrite !modulus_rx_dist.
Qed.

Lemma with_pdu_wf e p d :
  rx_wf e -> sn_range e (pdu_sn p) -> sn_in_recv_window e (pdu_sn p) = true ->
  0 <= pdu_so p -> 0 < pdu_size p -> pdu_data p = Some d -> Z.of_nat (length d) = pdu_size p ->
  rx_size e + pdu_size p <= rx_maxsize e -> rx_wf (with_pdu e p).
Proof.
  intros (Hc & H1 & H2 & H3 & H4 & Hl & Hsz) Hsn Hw Hso Hsize Hdata Hlen Hmax.
  destruct (conf_pos e Hc) as [HM _]. unfold sn_in_recv_window in Hw. b2p.
  rewrite modulus_rx_dist in Hw by done.
  assert (Hr : Forall (fun q => sn_range e (pdu_sn q)) (rx_list e)).
  { destruct Hl as (Hf & _). eapply List.Forall_impl; [|exact Hf]. by intros q [? _]. }
  unfold with_pdu. set (e1 := e <| rx_size := _ |>).
  rewrite (list_add_dist e1) by done.
  unfold rx_wf, am_conf, sn_range in *. subst e1. am_simpl. do 5 (split; [done|]). split.
  - apply add_rx_list_ok; try done; [|congruence]. unfold pdu_ok.
    do 4 (split; [done|]). intros d' ?. congruence.
  - rewrite (sumZ_perm live_size _ (p :: rx_list e)) by apply list_add_perm. cbn [sumZ].
    unfold live_size at 1. rewrite Hdata. lia.
Qed.

Lemma reception_actions_wf e p :
  rx_wf e -> sn_range e (pdu_sn p) ->
  reception_actions e p = Fault OutOfBounds \/
  exists e', reception_actions e p = Ok e' /\ rx_wf e'.
Proof.
  intros Hwf Hx. unfold reception_actions.
  set (e1 := if _ >=? 0 then _ else e).
  assert (rx_wf e1 /\ sn_range e1 (pdu_sn p)) as [Hwf1 Hx1].
  { subst e1. destruct (_ >=? 0); [|done]. split; [|done].
    apply rx_wf_highest; [done|]. apply sn_next_range; [apply Hwf|done]. }
  destruct (reception_actions_deliver_wf e1 (pdu_sn p) Hwf1 Hx1) as [->|(e2 & -> & Hwf2)];
    [by left|right]. cbn [rbind]. eexists. split; [done|]. by apply rx_wf_timers.
Qed.

(** A decoded header is in range. *)
Definition header_ok (e : nr_rlc_entity_am_t) (h : pdu_header) : Prop :=
  sn_range e (ph_sn h) /\ 0 <= ph_so h /\ 0 <= ph_byte h.

Lemma sn_range_bits e v : am_conf e -> 0 <= v < 2 ^ sn_field_length e -> sn_range e v.
Proof. unfold sn_range. intros [[[-> ->]|[-> ->]] _]; lia. Qed.

Lemma conf_bits e : am_conf e -> 0 <= sn_field_length e <= 31.
Proof. intros [[[-> ->]|[-> ->]] _]; lia. Qed.

Lemma decode_header_total e d :
  am_conf e -> dec_ok d ->
  exists p h, decode_header e d = Ok (p, h) /\
    match h with Some h => header_ok e h | None => True end.
Proof.
  intros Hc Hd. pose proof (conf_bits e Hc). unfold decode_header.
  get_bits_step p d1; [by eexists _, None|].
  get_bits_step si d2; [by eexists _, None|]. cbv zeta.
  set (r := if sn_field_length e =? 18 then _ else _).
  assert (Hr : r = Ok None \/ exists d3, r = Ok (Some d3) /\ dec_ok d3).
  { subst r. destruct (_ =? 18); [|by right; exists d2].
    get_bits_step x d3; [by left|]. right. by exists d3. }
  destruct Hr as [->|(d3 & -> & Hd3)]; cbn [rbind]; [by eexists _, None|].
  get_bits_step n d4; [by eexists _, None|].
  assert (sn_range e n) by (by apply sn_range_bits).
  destruct (negb _).
  - get_bits_step so d5; [by eexists _, None|].
    destruct (so =? 0); [by eexists _, None|]. eexists _, (Some _). split; [done|].
    unfold header_ok. cbn. unfold dec_ok in *. split; [done|]. lia.
  - eexists _, (Some _). split; [done|]. unfold header_ok. cbn. unfold dec_ok in *. split; [done|]. lia.
Qed.

(** The PDU that [recv_data_pdu] builds from a header. *)
Definition pdu_of (buffer : list Z) (h : pdu_header) : nr_rlc_pdu_t :=
  nr_rlc_new_pdu (ph_sn h) (ph_so h) (ph_is_first h) (ph_is_last h)
    (drop (Z.to_nat (ph_byte h)) buffer) (Z.of_nat (length buffer) - ph_byte h).

(** The PDU is put into the receive list. *)
Definition accepted (e : nr_rlc_entity_am_t) (buffer : list Z) (h : pdu_header) : bool :=
  let data_size := Z.of_nat (length buffer) - ph_byte h in
  (0 <? data_size) && (rx_size e + data_size <=? rx_maxsize e)
  && sn_in_recv_window e (ph_sn h)
  && negb (segment_already_received e (ph_sn h) (ph_so h) data_size).

Definition note_poll (p : Z) (e : nr_rlc_entity_am_t) : nr_rlc_entity_am_t :=
  if negb (p =? 0) then e <| status_triggered := true |> else e.

(** Acceptance and its effect, in terms of the definitions above. *)
Lemma recv_data_pdu_unfold e buffer p h :
  recv_data_pdu e buffer p h =
  if accepted e buffer h then
    let* e' := reception_actions (with_pdu e (pdu_of buffer h)) (pdu_of buffer h) in
    Ok (note_poll p e')
  else Ok (discard e p).
Proof.
  unfold recv_data_pdu, accepted, pdu_of.
  set (ds := Z.of_nat (length buffer) - ph_byte h).
  rewrite (Z.leb_antisym 0 ds). destruct (0 <? ds); cbn [negb andb]; [|done].
  rewrite Z.gtb_ltb, Z.ltb_antisym. destruct (_ <=? rx_maxsize e); cbn [negb andb]; [|done].
  destruct (sn_in_recv_window _ _); cbn [negb andb]; [|done].
  destruct (segment_already_received _ _ _ _); cbn [negb andb]; [done|].
  subst ds. replace (Z.of_nat (length buffer) - (Z.of_nat (length buffer) - ph_byte h))
    with (ph_byte h) by lia. done.
Qed.

Lemma accepted_wf e buffer h :
  rx_wf e -> header_ok e h -> accepted e buffer h = true ->
  rx_wf (with_pdu e (pdu_of buffer h)) /\ 0 < pdu_size (pdu_of buffer h).
Proof.
  intros Hwf (Hsn & Hso & Hby) Hacc. unfold accepted in Hacc. b2p. split; [|done].
  eapply with_pdu_wf; [done|done|done|done|done|reflexivity| |done].
  cbn. rewrite length_take, length_drop. lia.
Qed.

Lemma recv_data_pdu_wf e buffer p h :
  rx_wf e -> header_ok e h ->
  recv_data_pdu e buffer p h = Fault OutOfBounds \/
  exists e', recv_data_pdu e buffer p h = Ok e' /\ rx_wf e'.
Proof.
  intros Hwf Hh. rewrite recv_data_pdu_unfold. destruct (accepted e buffer h) eqn:Ha.
  - destruct (accepted_wf e buffer h Hwf Hh Ha) as [Hwf1 _].
    destruct (reception_actions_wf (with_pdu e (pdu_of buffer h)) (pdu_of buffer h))
      as [->|(e' & -> & Hwf')]; [done|apply Hh|by left|right].
    eexists. split; [done|]. unfold note_poll. destruct (negb _); [by apply rx_wf_status_triggered|done].
  - right. eexists. split; [done|]. unfold discard. destruct (negb _); [by apply rx_wf_status_triggered|done].
Qed.

Lemma with_pdu_elem e p q : q ∈ rx_list (with_pdu e p) <-> q ∈ p :: rx_list e.
Proof.
  unfold with_pdu. am_simpl.
  by rewrite (list_add_perm (sn_compare_rx (e <| rx_size := rx_size e + pdu_size p |>))).
Qed.

Lemma byte_received_ext l l' sn i :
  (forall q, q ∈ l <-> q ∈ l') -> byte_received l sn i <-> byte_received l' sn i.
Proof. intros H. unfold byte_received. by setoid_rewrite H. Qed.

Lemma not_delivered_live e sn p :
  rx_wf e -> sdu_delivered e sn = false -> p ∈ rx_list e -> pdu_sn p = sn -> pdu_data p <> None.
Proof.
  intros (_ & _ & _ & _ & _ & (_ & _ & Hd) & _) Hdel Hp <- Hn.
  destruct (Hd p Hp Hn) as (q & tl & Hq & Hqn & _).
  unfold sdu_delivered in Hdel. rewrite Hq in Hdel. cbn in Hdel. by rewrite Hqn in Hdel.
Qed.

(** A delivered SDU stays delivered when a segment is added, and is not full. *)
Lemma delivered_not_full e e' sn :
  rx_wf e' -> rx_list e ⊆ rx_list e' -> sdu_delivered e sn = true -> sdu_full e' sn = false.
Proof.
  intros (_ & _ & _ & _ & _ & (_ & _ & Hd) & _) Hincl Hdel. unfold sdu_delivered in Hdel.
  pose proof (find_sn_spec (rx_list e) sn) as Hsp.
  destruct (find_sn (rx_list e) sn) as [|q tl]; [done|]. destruct Hsp as (Hq & pre & Hl & _).
  assert (Hin : q ∈ rx_list e') by (apply Hincl; rewrite Hl; apply elem_of_app; right; constructor).
  assert (Hn : pdu_data q = None) by (cbn in Hdel; by destruct (pdu_data q)).
  destruct (Hd q Hin Hn) as (q' & tl' & Hq' & Hqn & _). unfold sdu_full. rewrite <- Hq, Hq'.
  cbn [already_processed]. by rewrite Hqn.
Qed.

Lemma timers_keep e :
  rx_list (reception_actions_timers e) = rx_list e /\ events (reception_actions_timers e) = events e.
Proof.
  unfold reception_actions_timers.
  destruct (negb (t_reassembly_start e =? 0)); [destruct (_ || _)|]; am_simpl;
    (destruct (_ =? 0); [destruct (_ || _)|]); done.
Qed.

Lemma reception_actions_correct e p sdu :
  rx_wf e -> sn_range e (pdu_sn p) -> rx_consistent (rx_list e) sdu ->
  Z.of_nat (length (sdu (pdu_sn p))) <= NR_SDU_MAX ->
  exists e', reception_actions e p = Ok e' /\ rx_wf e' /\ rx_consistent (rx_list e') sdu /\
    events e' = events e ++ (if sdu_full e (pdu_sn p) then [deliver_sdu (sdu (pdu_sn p))] else []).
Proof.
  intros Hwf Hx Hc Hmax. unfold reception_actions.
  set (e1 := if _ >=? 0 then _ else e).
  assert (rx_wf e1 /\ sn_range e1 (pdu_sn p) /\ rx_list e1 = rx_list e /\ events e1 = events e)
    as (Hwf1 & Hx1 & Hl1 & Hev1).
  { subst e1. destruct (_ >=? 0); [|done]. split; [|done].
    apply rx_wf_highest; [done|]. apply sn_next_range; [apply Hwf|done]. }
  assert (Hfull : sdu_full e (pdu_sn p) = sdu_full e1 (pdu_sn p)) by (unfold sdu_full; by rewrite Hl1).
  rewrite Hfull, <- Hev1. clearbody e1.
  destruct (deliver_correct e1 (pdu_sn p) sdu) as (e2 & -> & Hwf2 & Hc2 & Hev2);
    [done|done|by rewrite Hl1|done|]. cbn [rbind].
  destruct (timers_keep e2) as [Hl3 Hev3].
  eexists. split; [done|]. rewrite Hl3, Hev3. split; [by apply rx_wf_timers|done].
Qed.

(** Reading the first bit of a PDU. *)
Lemma get_first_bit b tl :
  exists d, nr_rlc_pdu_decoder_get_bits
              (nr_rlc_pdu_decoder_init (b :: tl) (Z.of_nat (length (b :: tl)))) 1
            = Ok (Z.b2z (Z.testbit b 7), d) /\ dec_ok d /\ nr_rlc_pdu_decoder_in_error d = false.
Proof.
  destruct (get_bits_spec (nr_rlc_pdu_decoder_init (b :: tl) (Z.of_nat (length (b :: tl)))) 1
              (Z.b2z (Z.testbit b 7)) (bits_be 7 b ++ bytes_bits tl)) as (d & E & Hok & _);
    [apply dec_ok_init|lia|destruct (Z.testbit b 7); cbn; lia| |].
  - rewrite remaining_init, bytes_bits_cons.
    change (bits_be 8 b) with (Z.testbit b 7 :: bits_be 7 b). by destruct (Z.testbit b 7).
  - exists d. split; [done|]. split; [done|]. unfold nr_rlc_pdu_decoder_in_error.
    by rewrite (proj1 Hok).
Qed.

(** A new entity satisfies the invariant. *)
Lemma new_am_rx_wf rx_max tx_max tp tr ts pp pb mr snl e :
  new_nr_rlc_entity_am rx_max tx_max tp tr ts pp pb mr snl = Ok e -> 0 <= rx_max -> rx_wf e.
Proof.
  intros E Hmax. unfold new_nr_rlc_entity_am in E.
  assert (Hl : snl = 12 \/ snl = 18).
  { destruct (negb _) eqn:En in E; [done|]. b2p. destruct En; b2p; tauto. }
  destruct (negb _) in E; [done|]. injection E as <-.
  assert (Hlist : forall M W, rx_list_ok M W 0 []).
  { intros. split; [constructor|]. split; [constructor|]. intros p Hp. by apply elem_of_nil in Hp. }
  unfold rx_wf, am_conf, sn_range. am_simpl.
  destruct Hl; subst snl.
  - change (Z.shiftl 1 12) with 4096. change (Z.quot 4096 2) with 2048.
    split; [lia|]. do 4 (split; [lia|]). split; [apply Hlist|cbn; lia].
  - change (Z.shiftl 1 18) with 262144. change (Z.quot 262144 2) with 131072.
    split; [lia|]. do 4 (split; [lia|]). split; [apply Hlist|cbn; lia].
Qed.

(** ** Segments received twice *)

(** The segments of [sn] in the list are in the order of their offsets. *)
Lemma already_received_iff sn l : forall so size,
  StronglySorted (fun p q => pdu_sn p = pdu_sn q -> pdu_so p <= pdu_so q) l ->
  segment_already_received_loop l sn so size = true <->
  forall i, so <= i < so + size -> byte_received l sn i.
Proof.
  induction l as [|p l IH]; intros so size Hs; cbn [segment_already_received_loop].
  - split; [intros ? i ?; b2p; lia|]. intros Hby. apply Z.leb_le.
    destruct (Z.le_gt_cases size 0); [done|].
    destruct (Hby so) as (q & Hq & _); [lia|]. by apply elem_of_nil in Hq.
  - inversion_clear Hs as [|? ? Hs' Hall].
    assert (Hcons : forall i, byte_received (p :: l) sn i <->
              (pdu_sn p = sn /\ pdu_so p <= i < pdu_so p + pdu_size p) \/ byte_received l sn i).
    { intros i. unfold byte_received. split.
      - intros (q & Hq & Hqs & Hr). apply elem_of_cons in Hq as [->|Hq]; [by left|right; eauto].
      - intros [[? ?]|(q & Hq & ?)]; [exists p|exists q]; (split; [by constructor|done]). }
    setoid_rewrite Hcons.
    destruct (Z.gtb_spec size 0) as [Hpos|Hneg].
    2: { split; [intros _ i Hi; lia|]. intros _. by apply Z.leb_le. }
    destruct (Z.eqb_spec (pdu_sn p) sn) as [E|E].
    2: { rewrite IH by done. split; intros Hby i Hi; [right; auto|]. by destruct (Hby i Hi) as [[? _]|?]. }
    destruct ((pdu_so p <=? so) && (so <? pdu_so p + pdu_size p)) eqn:H1; b2p.
    + rewrite IH by done. split; intros Hby i Hi.
      * destruct (Z.lt_ge_cases i (pdu_so p + pdu_size p)); [left; split; [done|lia]|right; apply Hby; lia].
      * destruct (Hby i) as [[_ ?]|?]; [lia|lia|done].
    + destruct ((pdu_so p <=? so + size - 1) && (so + size - 1 <? pdu_so p + pdu_size p)) eqn:H2; b2p.
      * rewrite IH by done. split; intros Hby i Hi.
        -- destruct (Z.lt_ge_cases i (pdu_so p)); [right; apply Hby; lia|left; split; [done|lia]].
        -- destruct (Hby i) as [[_ ?]|?]; [lia|lia|done].
      * rewrite IH by done. split; intros Hby i Hi; [right; auto|].
        destruct (Hby i Hi) as [[_ Hin]|?]; [|done]. exfalso.
        destruct (Hby so) as [[_ ?]|(q & Hq & Hqs & Hr)]; [lia| |].
        -- destruct H1; b2p; lia.
        -- rewrite Forall_forall in Hall. apply list_elem_of_In in Hq.
           specialize (Hall q Hq ltac:(congruence)). destruct H1, H2; b2p; lia.
Qed.

(** Expiry of t-Reassembly. *)
Lemma check_t_reassembly_spec (e : nr_rlc_entity_am_t) :
  rx_wf e -> expired (t_current e) (t_reassembly_start e) (t_reassembly e) = true ->
  exists e', check_t_reassembly e = Ok e' /\ rx_wf e' /\ status_triggered e' = true /\
    sdu_delivered e' (rx_highest_status e') = false.
Proof.
  intros Hwf Hx. unfold check_t_reassembly. rewrite Hx. cbn [negb].
  set (e1 := e <| t_reassembly_start := 0 |>).
  assert (rx_wf e1) as Hwf1 by exact Hwf.
  destruct Hwf1 as (Hc & H1 & H2 & H3 & H4 & Hl & Hsz) eqn:Hw. clear Hw.
  destruct (skip_delivered_ends (skip_delivered_fuel e1) e1 (rx_next_status_trigger e1))
    as (h & -> & Hh & Hnd); [done|done|done| |].
  - unfold skip_delivered_fuel. pose proof (segs_from_le (sn_modulus e1) (rx_next e1)
      (rx_next_status_trigger e1) (rx_list e1)). lia.
  - cbn [rbind]. assert (Hwf2 : rx_wf (e1 <| rx_highest_status := h |> <| status_triggered := true |>))
      by (apply rx_wf_status_triggered; by apply rx_wf_highest_status).
    destruct (_ || _); (eexists; split; [reflexivity|]); (split; [|done]); [|done].
    unfold rx_wf, am_conf, sn_range in *. am_simpl_all. tauto.
Qed.

(** The segments received so far, with the one being received, carry the whole SDU. *)
Definition complete_with (e : nr_rlc_entity_am_t) (p : nr_rlc_pdu_t) (S : list Z) : Prop :=
  forall i, 0 <= i < Z.of_nat (length S) -> byte_received (p :: rx_list e) (pdu_sn p) i.

(** Reception of a data PDU that carries part of one of the peer's SDUs. *)
Lemma recv_data_pdu_delivers (e : nr_rlc_entity_am_t) (sdu : Z -> list Z)
    (buffer : list Z) (p : Z) (h : pdu_header) :
  rx_wf e -> rx_consistent (rx_list e) sdu -> header_ok e h ->
  segment_of (sdu (ph_sn h)) (pdu_of buffer h) ->
  Z.of_nat (length (sdu (ph_sn h))) <= NR_SDU_MAX ->
  exists e', recv_data_pdu e buffer p h = Ok e' /\ rx_wf e' /\ rx_consistent (rx_list e') sdu /\
    (accepted e buffer h = true -> sdu_delivered e (ph_sn h) = false ->
     complete_with e (pdu_of buffer h) (sdu (ph_sn h)) ->
     events e' = events e ++ [deliver_sdu (sdu (ph_sn h))]) /\
    (accepted e buffer h = false \/ sdu_delivered e (ph_sn h) = true \/
     ~ complete_with e (pdu_of buffer h) (sdu (ph_sn h)) ->
     events e' = events e).
Proof.
  intros Hwf Hc Hh Hseg Hmax. rewrite recv_data_pdu_unfold.
  assert (Hnp : forall x e0, rx_wf e0 -> rx_wf (note_poll x e0) /\
            rx_list (note_poll x e0) = rx_list e0 /\ events (note_poll x e0) = events e0).
  { intros x e0 H0. unfold note_poll. destruct (negb _); [|done].
    split; [by apply rx_wf_status_triggered|done]. }
  destruct (accepted e buffer h) eqn:Ha.
  2: { destruct (Hnp p e Hwf) as (? & Hl & ?). exists (note_poll p e). by rewrite Hl. }
  destruct (accepted_wf e buffer h Hwf Hh Ha) as [Hwf1 _].
  set (pdu := pdu_of buffer h) in *. set (e1 := with_pdu e pdu) in *.
  assert (Hc1 : rx_consistent (rx_list e1) sdu).
  { intros q Hq Hlive. apply with_pdu_elem, elem_of_cons in Hq as [->|Hq]; [done|by apply Hc]. }
  destruct (reception_actions_correct e1 pdu sdu) as (e2 & -> & Hwf2 & Hc2 & Hev2);
    [done|apply Hh|done|done|]. cbn [rbind].
  destruct (Hnp p e2 Hwf2) as (Hwf3 & Hl3 & Hev3).
  eexists. split; [done|]. split; [done|]. rewrite Hl3, Hev3, Hev2. split; [done|].
  assert (Hsub : rx_list e ⊆ rx_list e1) by (intros q Hq; apply with_pdu_elem; by constructor).
  destruct (sdu_delivered e (ph_sn h)) eqn:Hdel.
  { rewrite (delivered_not_full e e1) by done. split; [done|]. by rewrite app_nil_r. }
  assert (Hcons : consistent (rx_list e1) (pdu_sn pdu) (sdu (pdu_sn pdu))).
  { intros q Hq Hqs. rewrite <- Hqs. apply Hc1; [done|].
    apply with_pdu_elem, elem_of_cons in Hq as [->|Hq]; [done|].
    by apply (not_delivered_live e (pdu_sn pdu)). }
  assert (Hfull : sdu_full e1 (pdu_sn pdu) = true <-> complete_with e pdu (sdu (ph_sn h))).
  { rewrite (sdu_full_complete e1 _ (sdu (pdu_sn pdu))); [|done|apply Hh|done|].
    - unfold complete_with. change (ph_sn h) with (pdu_sn pdu).
      setoid_rewrite (byte_received_ext (rx_list e1) (pdu :: rx_list e)); [done|].
      intros q. apply with_pdu_elem.
    - intros E. destruct Hseg as (_ & ? & ? & Hle & _). change (ph_sn h) with (pdu_sn pdu) in Hle.
      rewrite E in Hle. cbn [length] in Hle. lia. }
  change (events e1) with (events e). change (ph_sn h) with (pdu_sn pdu) in *.
  destruct (sdu_full e1 (pdu_sn pdu)).
  - split; [done|]. intros [?|[?|Hn]]; [done|done|]. by destruct (Hn (proj1 Hfull eq_refl)).
  - split; [|by rewrite app_nil_r]. intros _ _ Hcw. by apply Hfull in Hcw.
Qed.

(** ** Properties *)

(** C3. Reception of a data PDU is correct.  When the stored segments and the
    incoming one are parts of the SDUs the peer sent (at most NR_SDU_MAX bytes
    each), [nr_rlc_entity_am_recv_pdu]'s data path returns (no out-of-range read),
    keeps the receive invariant and the consistency of the list, and delivers
    exactly the SDU of that SN, once, precisely when the accepted segment completes
    an SDU not delivered before; in every other case nothing is delivered. *)
Theorem am_recv_data_pdu_delivers (e : nr_rlc_entity_am_t) (sdu : Z -> list Z)
    (buffer : list Z) (p : Z) (h : pdu_header) :
  rx_wf e -> rx_consistent (rx_list e) sdu -> header_ok e h ->
  segment_of (sdu (ph_sn h)) (pdu_of buffer h) ->
  Z.of_nat (length (sdu (ph_sn h))) <= NR_SDU_MAX ->
  exists e', recv_data_pdu e buffer p h = Ok e' /\ rx_wf e' /\ rx_consistent (rx_list e') sdu /\
    (accepted e buffer h = true -> sdu_delivered e (ph_sn h) = false ->
     complete_with e (pdu_of buffer h) (sdu (ph_sn h)) ->
     events e' = events e ++ [deliver_sdu (sdu (ph_sn h))]) /\
    (accepted e buffer h = false \/ sdu_delivered e (ph_sn h) = true \/
     ~ complete_with e (pdu_of buffer h) (sdu (ph_sn h)) ->
     events e' = events e).
Proof. apply recv_data_pdu_delivers. Qed.

(** An entity with SN fields of 12 bits that received the last two bytes of SDU 0. *)
Definition rx_example : nr_rlc_entity_am_t :=
  match new_nr_rlc_entity_am 100000 100000 45 35 0 4 (-1) 3 12 with
  | Ok e => with_pdu e (mk_pdu 0 (Some [8; 9]) 2 1 false true)
  | _ => mk_am (mk_bstatus 0 0 0) 0 0 0 0 0 0 0 0 0 0 0 0 0 false 0 0 0 0 0 false 0 0 0 0 0 0
           [] 0 0 [] None 0 0 [] None [] empty_heap []
  end.

Lemma rx_example_wf : rx_wf rx_example.
Proof.
  unfold rx_example. destruct (new_nr_rlc_entity_am _ _ _ _ _ _ _ _ _) as [e| |] eqn:E; try done.
  pose proof (new_am_rx_wf _ _ _ _ _ _ _ _ _ _ E ltac:(lia)) as Hwf. injection E as <-.
  apply (with_pdu_wf _ _ [8; 9]); try reflexivity; try done; unfold sn_range; cbn; lia.
Qed.

Lemma rx_example_consistent : rx_consistent (rx_list rx_example) (fun _ => [7; 8; 9]).
Proof.
  intros p Hp _. apply list_elem_of_singleton in Hp as ->. unfold segment_of. cbn.
  split; [done|]. lia.
Qed.

(** The first byte arrives in the PDU 90 00 07 (P = 0, SI = first segment). *)
Lemma am_recv_data_pdu_delivers_witness :
  exists e', recv_data_pdu rx_example [144; 0; 7] 0 (mk_header true false 0 0 2) = Ok e' /\
    events e' = [deliver_sdu [7; 8; 9]].
Proof.
  destruct (am_recv_data_pdu_delivers rx_example (fun _ => [7; 8; 9]) [144; 0; 7] 0
              (mk_header true false 0 0 2)) as (e' & E & _ & _ & Hd & _).
  - exact rx_example_wf.
  - exact rx_example_consistent.
  - unfold header_ok, sn_range. change (sn_modulus rx_example) with 4096. cbn. lia.
  - unfold segment_of. cbn. split; [reflexivity|]. lia.
  - cbn. unfold NR_SDU_MAX. lia.
  - exists e'. split; [exact E|]. apply Hd; [reflexivity|reflexivity|].
    intros i Hi. cbn in Hi. destruct (decide (i = 0)) as [->|Hne].
    + exists (pdu_of [144; 0; 7] (mk_header true false 0 0 2)). split; [constructor|]. cbn. lia.
    + exists (mk_pdu 0 (Some [8; 9]) 2 1 false true). split; [constructor; constructor|]. cbn. lia.
Defined.

(** Reception of arbitrary bytes.  On any data PDU (D/C bit set), from any
    state that satisfies the receive invariant, the entity either performs the
    out-of-range read of the reassembly loop or returns with the invariant kept:
    the list stays sorted and inside the window, the memory it holds stays within
    [rx_maxsize], the skip loops end, and no null pointer is followed. *)
Theorem am_recv_pdu_keeps_invariant (e : nr_rlc_entity_am_t) (b : Z) (buffer : list Z) :
  rx_wf e -> Z.testbit b 7 = true ->
  nr_rlc_entity_am_recv_pdu e (b :: buffer) = Fault OutOfBounds \/
  exists e', nr_rlc_entity_am_recv_pdu e (b :: buffer) = Ok e' /\ rx_wf e'.
Proof.
  intros Hwf Hb. unfold nr_rlc_entity_am_recv_pdu.
  destruct (get_first_bit b buffer) as (d & -> & Hd & ->). rewrite Hb. cbn [Z.b2z Z.eqb].
  destruct (decode_header_total e d) as (p & h & -> & Hh); [apply Hwf|done|]. cbn [rbind].
  destruct h as [h|]; [by apply recv_data_pdu_wf|].
  right. eexists. split; [done|]. unfold discard.
  destruct (negb _); [by apply rx_wf_status_triggered|done].
Qed.

Lemma am_recv_pdu_keeps_invariant_witness :
  nr_rlc_entity_am_recv_pdu rx_example [144; 0; 7] = Fault OutOfBounds \/
  exists e', nr_rlc_entity_am_recv_pdu rx_example [144; 0; 7] = Ok e' /\ rx_wf e'.
Proof. apply am_recv_pdu_keeps_invariant; [exact rx_example_wf|reflexivity]. Defined.

(** [segment_already_received] is exact: on a list that satisfies the receive
    invariant it says yes if and only if every byte of the segment was received. *)
Theorem segment_already_received_exact (e : nr_rlc_entity_am_t) (sn so size : Z) :
  rx_wf e ->
  segment_already_received e sn so size = true <->
  forall i, so <= i < so + size -> byte_received (rx_list e) sn i.
Proof. intros Hwf. apply already_received_iff. by apply rx_wf_so_sorted. Qed.

Lemma segment_already_received_exact_witness :
  segment_already_received rx_example 0 1 2 = true <->
  forall i, 1 <= i < 1 + 2 -> byte_received (rx_list rx_example) 0 i.
Proof. apply (segment_already_received_exact rx_example 0 1 2). exact rx_example_wf. Defined.

(** [sdu_full] is exact: when the stored segments of [sn] are parts of the SDU
    [S], it says yes if and only if every byte of [S] was received. *)
Theorem sdu_full_exact (e : nr_rlc_entity_am_t) (sn : Z) (S : list Z) :
  rx_wf e -> sn_range e sn -> consistent (rx_list e) sn S -> S <> [] ->
  sdu_full e sn = true <->
  forall i, 0 <= i < Z.of_nat (length S) -> byte_received (rx_list e) sn i.
Proof. apply sdu_full_complete. Qed.

Lemma sdu_full_exact_witness :
  sdu_full rx_example 0 = true <->
  forall i, 0 <= i < 3 -> byte_received (rx_list rx_example) 0 i.
Proof.
  apply (sdu_full_exact rx_example 0 [7; 8; 9]).
  - exact rx_example_wf.
  - unfold sn_range. change (sn_modulus rx_example) with 4096. lia.
  - intros p Hp _. apply (rx_example_consistent p Hp).
    apply list_elem_of_singleton in Hp as ->. discriminate.
  - discriminate.
Defined.


