(* ===== verification/RlcUm.v ===== *)
(** Unacknowledged-mode RLC entity: the definitions translated from
    [nr_rlc_entity_um.c] and [nr_rlc_entity_um.h].

    The routines on the receive list that the C file repeats word for word from
    [nr_rlc_entity_am.c] (search of an SN, completeness, missing bytes, the
    reassembly loop) are those of the file RlcAm; what differs is translated here.
    Properties are in the file RlcUmProps. *)

From S2P Require Import Prelude.
From S2P Require Import RlcPdu.
From S2P Require Import RlcSdu.
From S2P Require Import RlcAm.

(** ** State *)

Record nr_rlc_entity_um_t := mk_um {
  um_bstatus : nr_rlc_entity_buffer_status_t;
  um_t_reassembly : Z;
  um_sn_field_length : Z;
  um_sn_modulus : Z;
  um_window_size : Z;
  um_rx_next_highest : Z;
  um_rx_next_reassembly : Z;
  um_rx_timer_trigger : Z;
  um_tx_next : Z;
  um_t_current : Z;
  um_t_reassembly_start : Z;
  um_rx_list : list nr_rlc_pdu_t;
  um_rx_size : Z;
  um_rx_maxsize : Z;
  um_tx_list : list nr_rlc_sdu_segment_t;
  um_tx_end : option addr;
  um_tx_size : Z;
  um_tx_maxsize : Z;
  um_heap : sdu_heap;
  um_events : list rlc_event
}.

#[export] Instance eta_um : Eta nr_rlc_entity_um_t := fun e =>
  mk_um (um_bstatus e) (um_t_reassembly e) (um_sn_field_length e) (um_sn_modulus e)
    (um_window_size e) (um_rx_next_highest e) (um_rx_next_reassembly e) (um_rx_timer_trigger e)
    (um_tx_next e) (um_t_current e) (um_t_reassembly_start e) (um_rx_list e) (um_rx_size e)
    (um_rx_maxsize e) (um_tx_list e) (um_tx_end e) (um_tx_size e) (um_tx_maxsize e) (um_heap e)
    (um_events e).

Ltac um_simpl :=
  cbn [update um_bstatus um_t_reassembly um_sn_field_length um_sn_modulus um_window_size
    um_rx_next_highest um_rx_next_reassembly um_rx_timer_trigger um_tx_next um_t_current
    um_t_reassembly_start um_rx_list um_rx_size um_rx_maxsize um_tx_list um_tx_end um_tx_size
    um_tx_maxsize um_heap um_events].

Definition um_emit (e : nr_rlc_entity_um_t) (ev : rlc_event) : nr_rlc_entity_um_t :=
  e <| um_events := um_events e ++ [ev] |>.

Definition um_add_bstatus (e : nr_rlc_entity_um_t) (n : Z) : nr_rlc_entity_um_t :=
  e <| um_bstatus := (um_bstatus e) <| bs_tx_size := bs_tx_size (um_bstatus e) + n |> |>.

Definition um_compute_pdu_header_size (entity : nr_rlc_entity_um_t) (sdu : nr_rlc_sdu_segment_t) : Z :=
  let header_size := 1 in
  let header_size :=
    if negb (seg_is_first sdu && seg_is_last sdu) && (um_sn_field_length entity =? 12)
    then header_size + 1 else header_size in
  if negb (seg_is_first sdu) then header_size + 2 else header_size.

(** ** PDU RX functions *)

Definition um_modulus_rx (entity : nr_rlc_entity_um_t) (a : Z) : Z :=
  let r := a - (um_rx_next_highest entity - um_window_size entity) in
  let r := if r <? 0 then r + um_sn_modulus entity else r in
  cmod r (um_sn_modulus entity).

Definition um_sn_compare_rx (entity : nr_rlc_entity_um_t) (a b : Z) : Z :=
  um_modulus_rx entity a - um_modulus_rx entity b.

Definition um_sdu_full (entity : nr_rlc_entity_um_t) (sn : Z) : bool :=
  let l := find_sn (um_rx_list entity) sn in
  if already_processed l then false else sdu_full_loop l sn (-1).

Definition um_sdu_delivered (entity : nr_rlc_entity_um_t) (sn : Z) : bool :=
  already_processed (find_sn (um_rx_list entity) sn).

Definition um_sdu_has_missing_bytes (entity : nr_rlc_entity_um_t) (sn : Z) : bool :=
  let l := find_sn (um_rx_list entity) sn in
  if already_processed l then false else sdu_has_missing_bytes_loop l sn (-1).

(** [free(pdu->data); pdu->data = NULL; ... pdu->size = 0;] *)
Definition um_clear_data (pdu : nr_rlc_pdu_t) : nr_rlc_pdu_t :=
  pdu <| pdu_data := None |> <| pdu_size := 0 |>.

Definition um_reassemble_and_deliver (entity : nr_rlc_entity_um_t) (sn : Z)
  : res nr_rlc_entity_um_t :=
  let* (sdu, bad_sdu, freed, l) := reassemble_from um_clear_data (um_rx_list entity) sn in
  let entity := entity <| um_rx_list := l |> <| um_rx_size := um_rx_size entity - freed |> in
  if bad_sdu then Ok entity else Ok (um_emit entity (deliver_sdu sdu)).

(** [while (sdu_delivered(entity, sn)) sn = (sn + 1) % sn_modulus;]; as in
    acknowledged mode each turn visits another SN of the list. *)
Fixpoint um_skip_delivered (fuel : nat) (entity : nr_rlc_entity_um_t) (sn : Z) : res Z :=
  if um_sdu_delivered entity sn then
    match fuel with
    | O => Fault FuelExhausted
    | S fuel => um_skip_delivered fuel entity (cmod (sn + 1) (um_sn_modulus entity))
    end
  else Ok sn.

Definition um_skip_fuel (entity : nr_rlc_entity_um_t) : nat := S (length (um_rx_list entity)).

(** "discard PDUs not in reassembly window": from the head, while the SN is not
    below [rx_next_highest]; returns the bytes released and the list left. *)
Fixpoint um_discard_outside (entity : nr_rlc_entity_um_t) (l : list nr_rlc_pdu_t)
  : Z * list nr_rlc_pdu_t :=
  match l with
  | [] => (0, [])
  | p :: tl =>
    if um_sn_compare_rx entity (pdu_sn p) (um_rx_next_highest entity) >=? 0
    then let '(n, l') := um_discard_outside entity tl in (pdu_size p + n, l')
    else (0, l)
  end.

(** The branch "SDU not full" when [x] is not in the reassembly window. *)
Definition um_move_window (entity : nr_rlc_entity_um_t) (x : Z) : res nr_rlc_entity_um_t :=
  let m := um_sn_modulus entity in
  let entity := entity <| um_rx_next_highest := cmod (x + 1) m |> in
  let '(n, l) := um_discard_outside entity (um_rx_list entity) in
  let entity := entity <| um_rx_size := um_rx_size entity - n |> <| um_rx_list := l |> in
  if um_sn_compare_rx entity (um_rx_next_reassembly entity) (um_rx_next_highest entity) >=? 0 then
    let* sn := um_skip_delivered (um_skip_fuel entity) entity
                 (cmod (um_rx_next_highest entity - um_window_size entity + m) m) in
    Ok (entity <| um_rx_next_reassembly := sn |>)
  else Ok entity.

Definition um_reception_timers (entity : nr_rlc_entity_um_t) : nr_rlc_entity_um_t :=
  let m := um_sn_modulus entity in
  let next := cmod (um_rx_next_reassembly entity + 1) m in
  let entity :=
    if negb (um_t_reassembly_start entity =? 0) then
      if (um_sn_compare_rx entity (um_rx_timer_trigger entity) (um_rx_next_reassembly entity) <=? 0)
         || (um_sn_compare_rx entity (um_rx_timer_trigger entity) (um_rx_next_highest entity) >? 0)
         || ((um_rx_next_highest entity =? next)
             && negb (um_sdu_has_missing_bytes entity (um_rx_next_reassembly entity)))
      then entity <| um_t_reassembly_start := 0 |>
      else entity
    else entity in
  if um_t_reassembly_start entity =? 0 then
    if (um_sn_compare_rx entity (um_rx_next_highest entity) next >? 0)
       || ((um_rx_next_highest entity =? next)
           && um_sdu_has_missing_bytes entity (um_rx_next_reassembly entity))
    then entity <| um_t_reassembly_start := um_t_current entity |>
                <| um_rx_timer_trigger := um_rx_next_highest entity |>
    else entity
  else entity.

Definition um_reception_actions (entity : nr_rlc_entity_um_t) (pdu : nr_rlc_pdu_t)
  : res nr_rlc_entity_um_t :=
  let x := pdu_sn pdu in
  let* entity :=
    (if um_sdu_full entity x then
       let* entity := um_reassemble_and_deliver entity x in
       if x =? um_rx_next_reassembly entity then
         let* sn := um_skip_delivered (um_skip_fuel entity) entity (um_rx_next_reassembly entity) in
         Ok (entity <| um_rx_next_reassembly := sn |>)
       else Ok entity
     else if um_sn_compare_rx entity x (um_rx_next_highest entity) >=? 0
     then um_move_window entity x
     else Ok entity) in
  Ok (um_reception_timers entity).

(** The SN and SO fields of a segment; [None] is [goto err] or [goto discard]. *)
Definition um_decode_header (entity : nr_rlc_entity_um_t) (is_first is_last : bool)
  (decoder : nr_rlc_pdu_decoder_t) : res (option pdu_header) :=
  let* r :=
    (if um_sn_field_length entity =? 12 then
       getbits (_, decoder) := (decoder, 2) err (Ok None) in Ok (Some decoder)
     else Ok (Some decoder)) in
  match r with
  | None => Ok None
  | Some decoder =>
    getbits (sn, decoder) := (decoder, um_sn_field_length entity) err (Ok None) in
    if negb is_first then
      getbits (so, decoder) := (decoder, 16) err (Ok None) in
      if so =? 0 then Ok None
      else Ok (Some (mk_header is_first is_last sn so (d_byte decoder)))
    else Ok (Some (mk_header is_first is_last sn 0 (d_byte decoder)))
  end.

(** The part of [nr_rlc_entity_um_recv_pdu] after the header of a segment. *)
Definition um_recv_segment (entity : nr_rlc_entity_um_t) (buffer : list Z) (h : pdu_header)
  : res nr_rlc_entity_um_t :=
  let size := Z.of_nat (length buffer) in
  let data_size := size - ph_byte h in
  if data_size <=? 0 then Ok entity
  else if um_rx_size entity + data_size >? um_rx_maxsize entity then Ok entity
  else if um_sn_compare_rx entity (ph_sn h) (um_rx_next_reassembly entity) <? 0 then Ok entity
  else
    let entity := entity <| um_rx_size := um_rx_size entity + data_size |> in
    let pdu := nr_rlc_new_pdu (ph_sn h) (ph_so h) (ph_is_first h) (ph_is_last h)
                 (drop (Z.to_nat (size - data_size)) buffer) data_size in
    let entity :=
      entity <| um_rx_list := nr_rlc_pdu_list_add (um_sn_compare_rx entity) (um_rx_list entity) pdu |> in
    um_reception_actions entity pdu.

Definition nr_rlc_entity_um_recv_pdu (entity : nr_rlc_entity_um_t) (buffer : list Z)
  : res nr_rlc_entity_um_t :=
  let size := Z.of_nat (length buffer) in
  let decoder := nr_rlc_pdu_decoder_init buffer size in
  getbits (si, decoder) := (decoder, 2) err (Ok entity) in
  let is_first := Z.land si 0x2 =? 0 in
  let is_last := Z.land si 0x1 =? 0 in
  if is_first && is_last then
    if size <? 2 then Ok entity
    else Ok (um_emit entity (deliver_sdu (drop 1 buffer)))
  else
    let* h := um_decode_header entity is_first is_last decoder in
    match h with
    | None => Ok entity
    | Some h => um_recv_segment entity buffer h
    end.

(** ** TX functions *)

Definition um_serialize_header (entity : nr_rlc_entity_um_t) (sn : Z) (sdu : nr_rlc_sdu_segment_t)
  (encoder : nr_rlc_pdu_encoder_t) : res nr_rlc_pdu_encoder_t :=
  let* encoder := nr_rlc_pdu_encoder_put_bits encoder (1 - Z.b2z (seg_is_first sdu)) 1 in
  let* encoder := nr_rlc_pdu_encoder_put_bits encoder (1 - Z.b2z (seg_is_last sdu)) 1 in
  let* encoder :=
    (if seg_is_first sdu && seg_is_last sdu then nr_rlc_pdu_encoder_put_bits encoder 0 6
     else
       let* encoder :=
         (if um_sn_field_length entity =? 12 then nr_rlc_pdu_encoder_put_bits encoder 0 2
          else Ok encoder) in
       nr_rlc_pdu_encoder_put_bits encoder sn (um_sn_field_length entity)) in
  if negb (seg_is_first sdu) then nr_rlc_pdu_encoder_put_bits encoder (seg_so sdu) 16
  else Ok encoder.

Definition um_serialize_sdu (entity : nr_rlc_entity_um_t) (sdu : nr_rlc_sdu_segment_t)
  (buffer : list Z) : res (list Z * Z) :=
  let encoder := nr_rlc_pdu_encoder_init buffer (Z.of_nat (length buffer)) in
  let* s := get_sdu (um_heap entity) (seg_sdu sdu) in
  let* encoder := um_serialize_header entity (sdu_sn s) sdu encoder in
  let* buffer := copy_data (e_buffer encoder) (e_byte encoder) (sdu_data s)
                   (seg_so sdu) (seg_size sdu) in
  Ok (buffer, e_byte encoder + seg_size sdu).

(** As in acknowledged mode, but with the header size of a segment that is not the
    last; [None] when there is no room for a data byte (the reference count stays
    incremented). *)
Definition um_resegment (entity : nr_rlc_entity_um_t) (sdu : nr_rlc_sdu_segment_t) (pdu_size : Z)
  : res (option (nr_rlc_sdu_segment_t * nr_rlc_sdu_segment_t) * nr_rlc_entity_um_t) :=
  let* s := get_sdu (um_heap entity) (seg_sdu sdu) in
  let h := put_sdu (um_heap entity) (seg_sdu sdu) (s <| ref_count := ref_count s + 1 |>) in
  let entity := entity <| um_heap := h |> in
  let pdu_header_size := um_compute_pdu_header_size entity (sdu <| seg_is_last := false |>) in
  if pdu_header_size + 1 >? pdu_size then Ok (None, entity)
  else
    let over_size := pdu_header_size + seg_size sdu - pdu_size in
    let sdu' := sdu <| seg_size := seg_size sdu - over_size |> <| seg_is_last := false |> in
    let next := sdu <| seg_addr := h_next h |> <| seg_size := over_size |>
                    <| seg_so := seg_so sdu' + seg_size sdu' |> <| seg_is_first := false |> in
    let h := h <| h_next := (h_next h + 1)%positive |> in
    Ok (Some (sdu', next), entity <| um_heap := h |>).

(** The transmission of the segment taken from the list. *)
Definition um_send_segment (entity : nr_rlc_entity_um_t) (sdu : nr_rlc_sdu_segment_t)
  (buffer : list Z) : res (nr_rlc_entity_um_t * list Z * Z) :=
  let entity :=
    if negb (seg_is_first sdu) && seg_is_last sdu
    then entity <| um_tx_next := cmod (um_tx_next entity + 1) (um_sn_modulus entity) |>
    else entity in
  let* (buffer, ret) := um_serialize_sdu entity sdu buffer in
  let entity := entity <| um_tx_size := um_tx_size entity - seg_size sdu |> in
  let* (_, h) := nr_rlc_free_sdu_segment (um_heap entity) sdu in
  Ok (entity <| um_heap := h |>, buffer, ret).

Definition um_generate_tx_pdu (entity : nr_rlc_entity_um_t) (buffer : list Z)
  : res (nr_rlc_entity_um_t * list Z * Z) :=
  let size := Z.of_nat (length buffer) in
  match um_tx_list entity with
  | [] => Ok (entity, buffer, 0)
  | sdu :: rest =>
    let pdu_header_size := um_compute_pdu_header_size entity sdu in
    if pdu_header_size + 1 >? size then Ok (entity, buffer, 0)
    else
      let entity := entity <| um_tx_list := rest |> in
      let entity := match rest with [] => entity <| um_tx_end := None |> | _ => entity end in
      let* s := get_sdu (um_heap entity) (seg_sdu sdu) in
      let entity := entity <| um_heap :=
        put_sdu (um_heap entity) (seg_sdu sdu) (s <| sdu_sn := um_tx_next entity |>) |> in
      let pdu_size := pdu_header_size + seg_size sdu in
      let entity := um_add_bstatus entity (- pdu_size) in
      if pdu_size >? size then
        let* (r, entity) := um_resegment entity sdu size in
        match r with
        | None => Ok (entity, buffer, 0)
        | Some (sdu, next_sdu) =>
          let entity := entity <| um_tx_list := next_sdu :: um_tx_list entity |> in
          let entity :=
            match um_tx_end entity with
            | None => entity <| um_tx_end := Some (seg_addr next_sdu) |>
            | Some _ => entity
            end in
          let entity := um_add_bstatus entity
                          (um_compute_pdu_header_size entity next_sdu + seg_size next_sdu) in
          um_send_segment entity sdu buffer
        end
      else um_send_segment entity sdu buffer
  end.

Definition nr_rlc_entity_um_buffer_status (entity : nr_rlc_entity_um_t) (maxsize : Z)
  : nr_rlc_entity_buffer_status_t :=
  mk_bstatus 0 (bs_tx_size (um_bstatus entity)) 0.

Definition nr_rlc_entity_um_generate_pdu (entity : nr_rlc_entity_um_t) (buffer : list Z)
  : res (nr_rlc_entity_um_t * list Z * Z) :=
  um_generate_tx_pdu entity buffer.

(** ** SDU RX functions *)

Definition nr_rlc_entity_um_recv_sdu (entity : nr_rlc_entity_um_t) (buffer : list Z) (sdu_id : Z)
  : res nr_rlc_entity_um_t :=
  let size := Z.of_nat (length buffer) in
  if size >? NR_SDU_MAX then Exit
  else if um_tx_size entity + size >? um_tx_maxsize entity then Ok entity
  else
    let entity := entity <| um_tx_size := um_tx_size entity + size |> in
    let '(sdu, h) := nr_rlc_new_sdu (um_heap entity) buffer size sdu_id in
    let entity := entity <| um_heap := h |> in
    let* (l, a) := nr_rlc_sdu_segment_list_append (um_tx_list entity) (um_tx_end entity) sdu in
    let entity := entity <| um_tx_list := l |> <| um_tx_end := a |> in
    Ok (um_add_bstatus entity (um_compute_pdu_header_size entity sdu + seg_size sdu)).

(** ** Timers *)

(** "discard all segments < rx_next_reassembly", from the head ([rx_size] is not
    changed by the code). *)
Fixpoint um_discard_below (entity : nr_rlc_entity_um_t) (l : list nr_rlc_pdu_t)
  : list nr_rlc_pdu_t :=
  match l with
  | [] => []
  | p :: tl =>
    if um_sn_compare_rx entity (pdu_sn p) (um_rx_next_reassembly entity) <? 0
    then um_discard_below entity tl else l
  end.

Definition um_check_t_reassembly (entity : nr_rlc_entity_um_t) : res nr_rlc_entity_um_t :=
  if negb (expired (um_t_current entity) (um_t_reassembly_start entity) (um_t_reassembly entity))
  then Ok entity
  else
    let m := um_sn_modulus entity in
    let entity := entity <| um_t_reassembly_start := 0 |> in
    let* sn := um_skip_delivered (um_skip_fuel entity) entity (um_rx_timer_trigger entity) in
    let entity := entity <| um_rx_next_reassembly := sn |> in
    let entity := entity <| um_rx_list := um_discard_below entity (um_rx_list entity) |> in
    if (um_sn_compare_rx entity (um_rx_next_highest entity)
          (cmod (um_rx_next_reassembly entity + 1) m) >? 0)
       || ((um_rx_next_highest entity =? um_rx_next_reassembly entity + 1)
           && um_sdu_has_missing_bytes entity (um_rx_next_reassembly entity))
    then Ok (entity <| um_t_reassembly_start := um_t_current entity |>
                    <| um_rx_timer_trigger := um_rx_next_highest entity |>)
    else Ok entity.

Definition nr_rlc_entity_um_set_time (entity : nr_rlc_entity_um_t) (now : Z)
  : res nr_rlc_entity_um_t :=
  um_check_t_reassembly (entity <| um_t_current := now |>).

(** ** Discard, re-establishment, deletion *)

Definition nr_rlc_entity_um_discard_sdu (entity : nr_rlc_entity_um_t) (sdu_id : Z)
  : res nr_rlc_entity_um_t :=
  let* r := find_sdu_id (um_heap entity) sdu_id [] (um_tx_list entity) in
  match r with
  | None => Ok entity
  | Some (before, cur, rest) =>
    if negb (seg_is_first cur) || negb (seg_is_last cur) then Ok entity
    else
      let entity := entity <| um_tx_list := before ++ rest |> in
      let entity :=
        if decide (um_tx_end entity = Some (seg_addr cur))
        then entity <| um_tx_end := seg_addr <$> list.last before |> else entity in
      let entity := um_add_bstatus entity
                      (- (um_compute_pdu_header_size entity cur + seg_size cur)) in
      let* (_, h) := nr_rlc_free_sdu_segment (um_heap entity) cur in
      Ok (entity <| um_heap := h |>)
  end.

Definition um_clear_entity (entity : nr_rlc_entity_um_t) : res nr_rlc_entity_um_t :=
  let* h := nr_rlc_free_sdu_segment_list (um_heap entity) (um_tx_list entity) in
  Ok {|
    um_bstatus := (um_bstatus entity) <| bs_tx_size := 0 |>;
    um_t_reassembly := um_t_reassembly entity;
    um_sn_field_length := um_sn_field_length entity;
    um_sn_modulus := um_sn_modulus entity;
    um_window_size := um_window_size entity;
    um_rx_next_highest := 0; um_rx_next_reassembly := 0; um_rx_timer_trigger := 0;
    um_tx_next := 0;
    um_t_current := 0;
    um_t_reassembly_start := 0;
    um_rx_list := []; um_rx_size := 0; um_rx_maxsize := um_rx_maxsize entity;
    um_tx_list := []; um_tx_end := None; um_tx_size := 0; um_tx_maxsize := um_tx_maxsize entity;
    um_heap := h;
    um_events := um_events entity
  |}.

Definition nr_rlc_entity_um_reestablishment (entity : nr_rlc_entity_um_t)
  : res nr_rlc_entity_um_t :=
  um_clear_entity entity.

(** The entity is freed: what remains of its memory is the heap of SDUs. *)
Definition nr_rlc_entity_um_delete (entity : nr_rlc_entity_um_t) : res sdu_heap :=
  let* entity := um_clear_entity entity in
  Ok (um_heap entity).

(** ** Creation *)

(** [new_nr_rlc_entity_um] of nr_rlc_entity.c. *)
Definition new_nr_rlc_entity_um (rx_maxsize tx_maxsize t_reassembly sn_field_length : Z)
  : res nr_rlc_entity_um_t :=
  if negb ((sn_field_length =? 6) || (sn_field_length =? 12)) then Exit
  else
    let sn_modulus := Z.shiftl 1 sn_field_length in
    let window_size := Z.quot sn_modulus 2 in
    Ok (mk_um (mk_bstatus 0 0 0) t_reassembly sn_field_length sn_modulus window_size
          0 0 0 0 0 0 [] 0 rx_maxsize [] None 0 tx_maxsize empty_heap []).
