(* ===== verification/RlcTm.v ===== *)
(** Transparent-mode RLC entity: the definitions translated from
    [nr_rlc_entity_tm.c] and [nr_rlc_entity_tm.h].  Properties are in the files
    RlcEntity and RlcModes, where the three entities meet. *)

From S2P Require Import Prelude.
From S2P Require Import RlcPdu.
From S2P Require Import RlcSdu.
From S2P Require Import RlcAm.

(** ** State *)

Record nr_rlc_entity_tm_t := mk_tm {
  tm_bstatus : nr_rlc_entity_buffer_status_t;
  tm_t_current : Z;
  tm_tx_list : list nr_rlc_sdu_segment_t;
  tm_tx_end : option addr;
  tm_tx_size : Z;
  tm_tx_maxsize : Z;
  tm_heap : sdu_heap;
  tm_events : list rlc_event
}.

#[export] Instance eta_tm : Eta nr_rlc_entity_tm_t := fun e =>
  mk_tm (tm_bstatus e) (tm_t_current e) (tm_tx_list e) (tm_tx_end e) (tm_tx_size e)
    (tm_tx_maxsize e) (tm_heap e) (tm_events e).

Ltac tm_simpl :=
  cbn [update tm_bstatus tm_t_current tm_tx_list tm_tx_end tm_tx_size tm_tx_maxsize tm_heap
    tm_events].

Definition tm_add_bstatus (e : nr_rlc_entity_tm_t) (n : Z) : nr_rlc_entity_tm_t :=
  e <| tm_bstatus := (tm_bstatus e) <| bs_tx_size := bs_tx_size (tm_bstatus e) + n |> |>.

(** ** PDU RX functions *)

Definition nr_rlc_entity_tm_recv_pdu (entity : nr_rlc_entity_tm_t) (buffer : list Z)
  : nr_rlc_entity_tm_t :=
  entity <| tm_events := tm_events entity ++ [deliver_sdu buffer] |>.

(** ** TX functions *)

Definition tm_generate_tx_pdu (entity : nr_rlc_entity_tm_t) (buffer : list Z)
  : res (nr_rlc_entity_tm_t * list Z * Z) :=
  let size := Z.of_nat (length buffer) in
  match tm_tx_list entity with
  | [] => Ok (entity, buffer, 0)
  | sdu :: rest =>
    if seg_size sdu >? size then Ok (entity, buffer, 0)
    else
      let entity := entity <| tm_tx_list := rest |> in
      let entity := match rest with [] => entity <| tm_tx_end := None |> | _ => entity end in
      let ret := seg_size sdu in
      let* s := get_sdu (tm_heap entity) (seg_sdu sdu) in
      let* buffer := copy_data buffer 0 (sdu_data s) 0 (seg_size sdu) in
      let entity := entity <| tm_tx_size := tm_tx_size entity - seg_size sdu |> in
      let entity := tm_add_bstatus entity (- seg_size sdu) in
      let* (_, h) := nr_rlc_free_sdu_segment (tm_heap entity) sdu in
      Ok (entity <| tm_heap := h |>, buffer, ret)
  end.

Definition nr_rlc_entity_tm_buffer_status (entity : nr_rlc_entity_tm_t) (maxsize : Z)
  : nr_rlc_entity_buffer_status_t :=
  mk_bstatus 0 (bs_tx_size (tm_bstatus entity)) 0.

Definition nr_rlc_entity_tm_generate_pdu (entity : nr_rlc_entity_tm_t) (buffer : list Z)
  : res (nr_rlc_entity_tm_t * list Z * Z) :=
  tm_generate_tx_pdu entity buffer.

(** ** SDU RX functions *)

Definition nr_rlc_entity_tm_recv_sdu (entity : nr_rlc_entity_tm_t) (buffer : list Z) (sdu_id : Z)
  : res nr_rlc_entity_tm_t :=
  let size := Z.of_nat (length buffer) in
  if size >? NR_SDU_MAX then Exit
  else if tm_tx_size entity + size >? tm_tx_maxsize entity then Ok entity
  else
    let entity := entity <| tm_tx_size := tm_tx_size entity + size |> in
    let '(sdu, h) := nr_rlc_new_sdu (tm_heap entity) buffer size sdu_id in
    let entity := entity <| tm_heap := h |> in
    let* (l, a) := nr_rlc_sdu_segment_list_append (tm_tx_list entity) (tm_tx_end entity) sdu in
    let entity := entity <| tm_tx_list := l |> <| tm_tx_end := a |> in
    Ok (tm_add_bstatus entity (seg_size sdu)).

(** ** Time, discard, re-establishment, deletion *)

Definition nr_rlc_entity_tm_set_time (entity : nr_rlc_entity_tm_t) (now : Z) : nr_rlc_entity_tm_t :=
  entity <| tm_t_current := now |>.

Definition nr_rlc_entity_tm_discard_sdu (entity : nr_rlc_entity_tm_t) (sdu_id : Z)
  : nr_rlc_entity_tm_t := entity.

Definition tm_clear_entity (entity : nr_rlc_entity_tm_t) : res nr_rlc_entity_tm_t :=
  let* h := nr_rlc_free_sdu_segment_list (tm_heap entity) (tm_tx_list entity) in
  Ok (entity <| tm_heap := h |> <| tm_tx_list := [] |> <| tm_tx_end := None |> <| tm_tx_size := 0 |>
             <| tm_bstatus := (tm_bstatus entity) <| bs_tx_size := 0 |> |>).

Definition nr_rlc_entity_tm_reestablishment (entity : nr_rlc_entity_tm_t)
  : res nr_rlc_entity_tm_t :=
  tm_clear_entity entity.

Definition nr_rlc_entity_tm_delete (entity : nr_rlc_entity_tm_t) : res sdu_heap :=
  let* entity := tm_clear_entity entity in
  Ok (tm_heap entity).

(** ** Creation *)

(** [new_nr_rlc_entity_tm] of nr_rlc_entity.c. *)
Definition new_nr_rlc_entity_tm (tx_maxsize : Z) : nr_rlc_entity_tm_t :=
  mk_tm (mk_bstatus 0 0 0) 0 [] None 0 tx_maxsize empty_heap [].
