(* ===== verification/RlcEntity.v ===== *)
(** The interface of RLC entities: [nr_rlc_entity_t] of [nr_rlc_entity.h], a table of
    functions that the acknowledged, unacknowledged and transparent modes fill in.

    The class [RlcEntity] is that table, the class [RlcLaws] states what its users
    rely on, and the type [nr_rlc_entity_t] dispatches over the three modes. *)

From S2P Require Import Prelude.
From S2P Require Import RlcPdu.
From S2P Require Import RlcSdu.
From S2P Require Import RlcAm.
From S2P Require Import RlcUm.
From S2P Require Import RlcTm.

(** ** The interface *)

Class RlcEntity (E : Type) := {
  rlc_recv_pdu : E -> list Z -> res E;
  rlc_buffer_status : E -> Z -> res nr_rlc_entity_buffer_status_t;
  rlc_generate_pdu : E -> list Z -> res (E * list Z * Z);
  rlc_recv_sdu : E -> list Z -> Z -> res E;
  rlc_set_time : E -> Z -> res E;
  rlc_discard_sdu : E -> Z -> res E;
  rlc_reestablishment : E -> res E;
  rlc_delete : E -> res sdu_heap
}.

#[export] Instance rlc_entity_am : RlcEntity nr_rlc_entity_am_t := {
  rlc_recv_pdu := nr_rlc_entity_am_recv_pdu;
  rlc_buffer_status := nr_rlc_entity_am_buffer_status;
  rlc_generate_pdu := nr_rlc_entity_am_generate_pdu;
  rlc_recv_sdu := nr_rlc_entity_am_recv_sdu;
  rlc_set_time := nr_rlc_entity_am_set_time;
  rlc_discard_sdu := nr_rlc_entity_am_discard_sdu;
  rlc_reestablishment := nr_rlc_entity_am_reestablishment;
  rlc_delete := nr_rlc_entity_am_delete
}.

#[export] Instance rlc_entity_um : RlcEntity nr_rlc_entity_um_t := {
  rlc_recv_pdu := nr_rlc_entity_um_recv_pdu;
  rlc_buffer_status e m := Ok (nr_rlc_entity_um_buffer_status e m);
  rlc_generate_pdu := nr_rlc_entity_um_generate_pdu;
  rlc_recv_sdu := nr_rlc_entity_um_recv_sdu;
  rlc_set_time := nr_rlc_entity_um_set_time;
  rlc_discard_sdu := nr_rlc_entity_um_discard_sdu;
  rlc_reestablishment := nr_rlc_entity_um_reestablishment;
  rlc_delete := nr_rlc_entity_um_delete
}.

#[export] Instance rlc_entity_tm : RlcEntity nr_rlc_entity_tm_t := {
  rlc_recv_pdu e b := Ok (nr_rlc_entity_tm_recv_pdu e b);
  rlc_buffer_status e m := Ok (nr_rlc_entity_tm_buffer_status e m);
  rlc_generate_pdu := nr_rlc_entity_tm_generate_pdu;
  rlc_recv_sdu := nr_rlc_entity_tm_recv_sdu;
  rlc_set_time e t := Ok (nr_rlc_entity_tm_set_time e t);
  rlc_discard_sdu e i := Ok (nr_rlc_entity_tm_discard_sdu e i);
  rlc_reestablishment := nr_rlc_entity_tm_reestablishment;
  rlc_delete := nr_rlc_entity_tm_delete
}.

(** An entity behind the table of functions. *)
Inductive nr_rlc_entity_t : Type :=
| EntityAm (e : nr_rlc_entity_am_t)
| EntityUm (e : nr_rlc_entity_um_t)
| EntityTm (e : nr_rlc_entity_tm_t).

Definition rmap {A B} (f : A -> B) (m : res A) : res B := let* a := m in Ok (f a).

#[export] Instance rlc_entity_any : RlcEntity nr_rlc_entity_t := {
  rlc_recv_pdu e b :=
    match e with
    | EntityAm e => rmap EntityAm (rlc_recv_pdu e b)
    | EntityUm e => rmap EntityUm (rlc_recv_pdu e b)
    | EntityTm e => rmap EntityTm (rlc_recv_pdu e b)
    end;
  rlc_buffer_status e m :=
    match e with
    | EntityAm e => rlc_buffer_status e m
    | EntityUm e => rlc_buffer_status e m
    | EntityTm e => rlc_buffer_status e m
    end;
  rlc_generate_pdu e b :=
    match e with
    | EntityAm e => rmap (fun '(e, b, n) => (EntityAm e, b, n)) (rlc_generate_pdu e b)
    | EntityUm e => rmap (fun '(e, b, n) => (EntityUm e, b, n)) (rlc_generate_pdu e b)
    | EntityTm e => rmap (fun '(e, b, n) => (EntityTm e, b, n)) (rlc_generate_pdu e b)
    end;
  rlc_recv_sdu e b i :=
    match e with
    | EntityAm e => rmap EntityAm (rlc_recv_sdu e b i)
    | EntityUm e => rmap EntityUm (rlc_recv_sdu e b i)
    | EntityTm e => rmap EntityTm (rlc_recv_sdu e b i)
    end;
  rlc_set_time e t :=
    match e with
    | EntityAm e => rmap EntityAm (rlc_set_time e t)
    | EntityUm e => rmap EntityUm (rlc_set_time e t)
    | EntityTm e => rmap EntityTm (rlc_set_time e t)
    end;
  rlc_discard_sdu e i :=
    match e with
    | EntityAm e => rmap EntityAm (rlc_discard_sdu e i)
    | EntityUm e => rmap EntityUm (rlc_discard_sdu e i)
    | EntityTm e => rmap EntityTm (rlc_discard_sdu e i)
    end;
  rlc_reestablishment e :=
    match e with
    | EntityAm e => rmap EntityAm (rlc_reestablishment e)
    | EntityUm e => rmap EntityUm (rlc_reestablishment e)
    | EntityTm e => rmap EntityTm (rlc_reestablishment e)
    end;
  rlc_delete e :=
    match e with
    | EntityAm e => rlc_delete e
    | EntityUm e => rlc_delete e
    | EntityTm e => rlc_delete e
    end
}.

(** ** The laws *)

(** What the MAC layer relies on: a PDU fits into the buffer it was asked for, and
    nothing is pending after a re-establishment. *)
Class RlcLaws (E : Type) `{!RlcEntity E} := {
  generate_bounded : forall (e e' : E) buffer buffer' n,
    rlc_generate_pdu e buffer = Ok (e', buffer', n) ->
    0 <= n <= Z.of_nat (length buffer) /\ length buffer' = length buffer;
  reestablished_idle : forall (e e' : E) maxsize buffer,
    rlc_reestablishment e = Ok e' ->
    rlc_buffer_status e' maxsize = Ok (mk_bstatus 0 0 0) /\
    rlc_generate_pdu e' buffer = Ok (e', buffer, 0)
}.

(** ** Lemmas: copies and headers *)

Lemma copy_data_ok buffer off data so size b :
  0 <= off -> copy_data buffer off data so size = Ok b ->
  0 <= size /\ off + size <= Z.of_nat (length buffer) /\ length b = length buffer.
Proof.
  intros Hoff E. unfold copy_data in E. destruct (_ || _) eqn:H; [done|]. injection E as <-. b2p.
  split; [done|]. split; [done|]. unfold buf_write.
  rewrite !length_app, !length_take, !length_drop. lia.
Qed.

Lemma enc_ok_bounds e : enc_ok e -> 0 <= e_byte e <= Z.of_nat (length (e_buffer e)).
Proof. unfold enc_ok, room. lia. Qed.

Lemma enc_ok_length e : enc_ok e -> Z.of_nat (length (e_buffer e)) = e_size e.
Proof. unfold enc_ok. lia. Qed.

Lemma buf_set_length b i v : length (buf_set b i v) = length b.
Proof. apply length_insert. Qed.

(** ** Acknowledged mode *)

Lemma serialize_header_keep e sn seg enc enc' :
  enc_ok enc -> serialize_header e sn seg enc = Ok enc' -> enc_ok enc' /\ e_size enc' = e_size enc.
Proof.
  intros Hok E. unfold serialize_header in E. put_bits_all E.
  apply rbind_ok in E as (x & Ex & E).
  assert (enc_ok x /\ e_size x = e_size enc) as [Hx Hsx].
  { destruct (_ =? 18); put_bits_last Ex. }
  put_bits_all E. destruct (negb _); put_bits_last E.
Qed.

Lemma serialize_bounded e seg buffer p e' buffer' n :
  serialize_sdu e seg buffer p = Ok (e', buffer', n) ->
  0 <= n <= Z.of_nat (length buffer) /\ length buffer' = length buffer.
Proof.
  intros E. unfold serialize_sdu in E. apply rbind_ok in E as (s & _ & E).
  apply rbind_ok in E as (enc & Eh & E). apply rbind_ok in E as (b & Ec & E).
  destruct (serialize_header_keep _ _ _ _ _ (enc_ok_init buffer) Eh) as [Hok Hs].
  pose proof (enc_ok_bounds enc Hok). pose proof (enc_ok_length enc Hok) as Hlen.
  cbn in Hs. apply copy_data_ok in Ec as (H1 & H2 & H3); [|lia].
  unfold include_poll in E. destruct p; cbn in E; injection E as <- <- <-; rewrite ?buf_set_length; lia.
Qed.

Lemma generate_retx_bounded e buffer e' buffer' n :
  generate_retx_pdu e buffer = Ok (e', buffer', n) ->
  0 <= n <= Z.of_nat (length buffer) /\ length buffer' = length buffer.
Proof.
  intros E. unfold generate_retx_pdu in E. destruct (retransmit_list e); [done|].
  destruct (_ >? _); [injection E as <- <- <-; lia|].
  apply rbind_ok in E as ([seg e1] & _ & E). apply rbind_ok in E as (e2 & _ & E).
  destruct (apply_force_poll _ _) as [e3 p]. by eapply serialize_bounded.
Qed.

Lemma generate_tx_bounded e buffer e' buffer' n :
  generate_tx_pdu e buffer = Ok (e', buffer', n) ->
  0 <= n <= Z.of_nat (length buffer) /\ length buffer' = length buffer.
Proof.
  intros E. unfold generate_tx_pdu in E.
  destruct (is_window_stalling e); [injection E as <- <- <-; lia|].
  destruct (tx_list e); [injection E as <- <- <-; lia|].
  destruct (_ >? _); [injection E as <- <- <-; lia|].
  apply rbind_ok in E as (s & _ & E). apply rbind_ok in E as ([seg e1] & _ & E).
  apply rbind_ok in E as (e2 & _ & E). destruct (poll_for_new_pdu _ _) as [e3 p].
  by eapply serialize_bounded.
Qed.

Lemma put_nack_keep e st n c st' :
  enc_ok (st_encoder st) -> put_nack e st n c = Ok st' ->
  enc_ok (st_encoder st') /\ e_size (st_encoder st') = e_size (st_encoder st).
Proof.
  intros Hok E. unfold put_nack in E.
  set (enc0 := _ <| e_buffer := _ |>) in E.
  assert (Hok0 : enc_ok enc0).
  { unfold enc_ok, room in *. subst enc0. cbn. rewrite buf_set_length. done. }
  assert (Hs0 : e_size enc0 = e_size (st_encoder st)) by done. clearbody enc0.
  destruct (get_e1_position e enc0) as [b1 b2]. destruct (nack_flags n) as [e2 e3].
  put_bits_all E. apply rbind_ok in E as ([enc5 a] & Ex & E).
  assert (enc_ok enc5 /\ e_size enc5 = e_size (st_encoder st)) as [Hok5 Hs5].
  { destruct (negb (e2 =? 0)); [|put_bits_last Ex]. put_bits_all Ex. put_bits_last Ex. }
  apply rbind_ok in E as (enc6 & Ey & E). injection E as <-. cbn [st_encoder].
  destruct (negb (e3 =? 0)); put_bits_last Ey.
Qed.

Lemma generate_missing_keep fuel : forall e m st a b c ln t st',
  enc_ok (st_encoder st) -> generate_missing_loop fuel e m st a b c = Ok (ln, t, st') ->
  enc_ok (st_encoder st') /\ e_size (st_encoder st') = e_size (st_encoder st).
Proof.
  induction fuel as [|fuel IH]; intros e m st a b c ln t st' Hok E; cbn [generate_missing_loop] in E;
    (destruct (b =? 0); [injection E as <- <- <-; done|]); [done|].
  destruct (cur_range e m a b) as [k n]. destruct (_ >? _); [injection E as <- <- <-; done|].
  apply rbind_ok in E as (st1 & E1 & E). destruct (put_nack_keep _ _ _ _ _ Hok E1) as [Hok1 Hs1].
  destruct (nack_flags n) as [? e3]. destruct (IH _ _ _ _ _ _ _ _ _ Hok1 E). split; [done|congruence].
Qed.

Lemma generate_status_keep fuel : forall e cur ch ln st ln' st',
  enc_ok (st_encoder st) -> generate_status_loop fuel e cur ch ln st = Ok (ln', st') ->
  enc_ok (st_encoder st') /\ e_size (st_encoder st') = e_size (st_encoder st).
Proof.
  induction fuel as [|fuel IH]; intros e cur ch ln st ln' st' Hok E;
    (destruct cur as [|p l]; [injection E as <- <-; done|]); cbn [generate_status_loop] in E; [done|].
  destruct (sn_start (next_missing e p l ch) =? -1); [injection E as <- <-; done|].
  apply rbind_ok in E as ([[ln1 t] st1] & E1 & E).
  destruct (generate_missing_keep _ _ _ _ _ _ _ _ _ _ Hok E1) as [Hok1 Hs1].
  apply IH in E as [Hok2 Hs2].
  - split; [done|]. rewrite Hs2. destruct (so_end_address st1); [|done]. by destruct t.
  - destruct (so_end_address st1); [|done]. destruct t; [|done].
    unfold enc_ok, room in *. cbn. rewrite !buf_set_length. done.
Qed.

Lemma generate_status_bounded e buffer e' buffer' n :
  generate_status e buffer = Ok (e', buffer', n) ->
  0 <= n <= Z.of_nat (length buffer) /\ length buffer' = length buffer.
Proof.
  intros E. unfold generate_status in E. destruct (_ <? 3); [injection E as <- <- <-; lia|].
  apply rbind_ok in E as (enc & E0 & E). apply rbind_ok in E as ([ln st] & E1 & E).
  destruct (put_bits_keep _ _ _ _ (enc_ok_init buffer) E0) as [Hok0 Hs0]. cbn in Hs0.
  apply generate_status_keep in E1 as [Hok Hs]; [|done]. cbn in Hs.
  injection E as <- <- <-. pose proof (enc_ok_bounds _ Hok). pose proof (enc_ok_length _ Hok).
  unfold put_ack_sn. destruct (_ =? 12); rewrite !buf_set_length; lia.
Qed.

Lemma am_generate_bounded e buffer e' buffer' n :
  nr_rlc_entity_am_generate_pdu e buffer = Ok (e', buffer', n) ->
  0 <= n <= Z.of_nat (length buffer) /\ length buffer' = length buffer.
Proof.
  intros E. unfold nr_rlc_entity_am_generate_pdu in E.
  apply rbind_ok in E as ([[e1 b1] n1] & E1 & E).
  assert (H1 : 0 <= n1 <= Z.of_nat (length buffer) /\ length b1 = length buffer).
  { destruct (status_to_report e); [by eapply generate_status_bounded|].
    injection E1 as <- <- <-. lia. }
  destruct (negb (n1 =? 0)); [by injection E as <- <- <-|].
  apply rbind_ok in E as ([[e2 b2] n2] & E2 & E).
  assert (H2 : 0 <= n2 <= Z.of_nat (length b1) /\ length b2 = length b1).
  { destruct (retransmit_list e1); [injection E2 as <- <- <-; lia|by eapply generate_retx_bounded]. }
  destruct (negb (n2 =? 0)); [injection E as <- <- <-; lia|].
  apply generate_tx_bounded in E. lia.
Qed.

(** With nothing to report and empty lists, nothing is sent. *)
Lemma am_idle e maxsize buffer :
  status_triggered e = false -> retransmit_list e = [] -> tx_list e = [] ->
  bs_tx_size (bstatus e) = 0 -> bs_retx_size (bstatus e) = 0 ->
  nr_rlc_entity_am_buffer_status e maxsize = Ok (mk_bstatus 0 0 0) /\
  nr_rlc_entity_am_generate_pdu e buffer = Ok (e, buffer, 0).
Proof.
  intros H1 H2 H3 H4 H5.
  unfold nr_rlc_entity_am_buffer_status, nr_rlc_entity_am_generate_pdu, status_to_report, generate_tx_pdu.
  rewrite H1. cbn [andb rbind Z.eqb negb]. rewrite H2. cbn [rbind Z.eqb negb]. rewrite H3, H4, H5.
  split; [done|]. by destruct (is_window_stalling e).
Qed.

Lemma am_cleared_idle e e' maxsize buffer :
  clear_entity e = Ok e' ->
  nr_rlc_entity_am_buffer_status e' maxsize = Ok (mk_bstatus 0 0 0) /\
  nr_rlc_entity_am_generate_pdu e' buffer = Ok (e', buffer, 0).
Proof.
  intros E. unfold clear_entity in E.
  apply rbind_ok in E as (h1 & _ & E). apply rbind_ok in E as (h2 & _ & E).
  apply rbind_ok in E as (h3 & _ & E). injection E as E. apply am_idle; by rewrite <- E.
Qed.

#[export] Instance rlc_laws_am : RlcLaws nr_rlc_entity_am_t.
Proof.
  constructor.
  - intros e e' buffer buffer' n. apply am_generate_bounded.
  - intros e e' maxsize buffer. apply am_cleared_idle.
Qed.

(** ** Unacknowledged mode *)

Lemma um_serialize_header_keep e sn seg enc enc' :
  enc_ok enc -> um_serialize_header e sn seg enc = Ok enc' ->
  enc_ok enc' /\ e_size enc' = e_size enc.
Proof.
  intros Hok E. unfold um_serialize_header in E. put_bits_all E.
  apply rbind_ok in E as (x & Ex & E).
  assert (enc_ok x /\ e_size x = e_size enc) as [Hx Hsx].
  { destruct (_ && _); [put_bits_last Ex|].
    apply rbind_ok in Ex as (y & Ey & Ex).
    assert (enc_ok y /\ e_size y = e_size enc) as [Hy Hsy] by (destruct (_ =? 12); put_bits_last Ey).
    put_bits_last Ex. }
  destruct (negb _); put_bits_last E.
Qed.

Lemma um_send_bounded e seg buffer e' buffer' n :
  um_send_segment e seg buffer = Ok (e', buffer', n) ->
  0 <= n <= Z.of_nat (length buffer) /\ length buffer' = length buffer.
Proof.
  intros E. unfold um_send_segment in E. apply rbind_ok in E as ([b k] & Es & E).
  apply rbind_ok in E as ([? h] & _ & E). injection E as <- <- <-.
  unfold um_serialize_sdu in Es. apply rbind_ok in Es as (s & _ & Es).
  apply rbind_ok in Es as (enc & Eh & Es). apply rbind_ok in Es as (b' & Ec & Es).
  injection Es as <- <-.
  destruct (um_serialize_header_keep _ _ _ _ _ (enc_ok_init buffer) Eh) as [Hok Hs].
  pose proof (enc_ok_bounds enc Hok). pose proof (enc_ok_length enc Hok). cbn in Hs.
  apply copy_data_ok in Ec as (H1 & H2 & H3); lia.
Qed.

#[export] Instance rlc_laws_um : RlcLaws nr_rlc_entity_um_t.
Proof.
  constructor.
  - intros e e' buffer buffer' n E. cbn in E. unfold nr_rlc_entity_um_generate_pdu, um_generate_tx_pdu in E.
    destruct (um_tx_list e); [injection E as <- <- <-; lia|].
    destruct (_ + 1 >? _); [injection E as <- <- <-; lia|].
    apply rbind_ok in E as (s & _ & E). destruct (_ >? _); [|by eapply um_send_bounded].
    apply rbind_ok in E as ([[[seg nxt]|] e1] & _ & E); [|injection E as <- <- <-; lia].
    by eapply um_send_bounded.
  - intros e e' maxsize buffer E. cbn in E. unfold nr_rlc_entity_um_reestablishment, um_clear_entity in E.
    apply rbind_ok in E as (h & _ & E). injection E as <-. done.
Qed.

(** ** Transparent mode *)

#[export] Instance rlc_laws_tm : RlcLaws nr_rlc_entity_tm_t.
Proof.
  constructor.
  - intros e e' buffer buffer' n E. cbn in E. unfold nr_rlc_entity_tm_generate_pdu, tm_generate_tx_pdu in E.
    destruct (tm_tx_list e) as [|seg l]; [injection E as <- <- <-; lia|].
    destruct (_ >? _); [injection E as <- <- <-; lia|].
    apply rbind_ok in E as (s & _ & E). apply rbind_ok in E as (b & Ec & E).
    apply rbind_ok in E as ([? h] & _ & E). injection E as <- <- <-.
    apply copy_data_ok in Ec as (H1 & H2 & H3); lia.
  - intros e e' maxsize buffer E. cbn in E. unfold nr_rlc_entity_tm_reestablishment, tm_clear_entity in E.
    apply rbind_ok in E as (h & _ & E). injection E as <-. done.
Qed.

(** ** Behind the table of functions *)

#[export] Instance rlc_laws_any : RlcLaws nr_rlc_entity_t.
Proof.
  constructor.
  - intros e e' buffer buffer' n E.
    destruct e as [e|e|e]; cbn [rlc_generate_pdu rlc_entity_any] in E; unfold rmap in E;
      apply rbind_ok in E as ([[e1 b1] n1] & E1 & E); injection E as _ <- <-;
      exact (generate_bounded _ _ _ _ _ E1).
  - intros e e' maxsize buffer E.
    destruct e as [e|e|e]; cbn [rlc_reestablishment rlc_entity_any] in E; unfold rmap in E;
      apply rbind_ok in E as (e1 & E1 & E); injection E as <-;
      destruct (reestablished_idle _ _ maxsize buffer E1) as [H1 H2];
      (split; [exact H1|]); cbn [rlc_generate_pdu rlc_entity_any]; unfold rmap; by rewrite H2.
Qed.

(** ** Properties *)

(** After a re-establishment no mode has anything left to send: the buffer status is
    zero for status, new and retransmitted data, and a request for a PDU returns 0,
    writes nothing and leaves the entity as it is. *)
Theorem rlc_reestablishment_idle (e e' : nr_rlc_entity_t) maxsize buffer :
  rlc_reestablishment e = Ok e' ->
  rlc_buffer_status e' maxsize = Ok (mk_bstatus 0 0 0) /\
  rlc_generate_pdu e' buffer = Ok (e', buffer, 0).
Proof. apply reestablished_idle. Qed.

(** ** Witnesses *)

(** An unacknowledged-mode entity that holds one SDU of four bytes. *)
Definition um_example : res nr_rlc_entity_t :=
  let* e := new_nr_rlc_entity_um 1000 1000 50 12 in rlc_recv_sdu (EntityUm e) [1; 2; 3; 4] 7.

Lemma rlc_reestablishment_idle_witness :
  exists e e',
    um_example = Ok e /\ rlc_reestablishment e = Ok e' /\
    rlc_buffer_status e' 100 = Ok (mk_bstatus 0 0 0) /\
    rlc_generate_pdu e' (repeat 0 10) = Ok (e', repeat 0 10, 0).
Proof.
  do 2 eexists. split; [vm_compute; reflexivity|].
  match goal with |- ?A = _ /\ _ => assert (A = ltac:(let x := eval vm_compute in A in exact x)) as E by (vm_compute; reflexivity) end.
  split; [exact E|]. exact (rlc_reestablishment_idle _ _ 100 (repeat 0 10) E).
Defined.
