(* ===== verification/RlcEvents.v ===== *)
(** The calls an RLC entity makes to its callbacks ([deliver_sdu], [sdu_successful_delivery]
    and [max_retx_reached] of [nr_rlc_entity.h]).

    The model records them in the entity, oldest first.  Every function of the three modes
    only appends to that record, so the calls made by one operation are those that it adds:
    the API of RLC hands exactly these to the upper layers.

    A proof follows the code: [yields] says what holds of the result of a function that
    returns, and the tactic [grow] goes through its calls, branches and assignments. *)

From S2P Require Import Prelude.
From S2P Require Import RlcPdu.
From S2P Require Import RlcSdu.
From S2P Require Import RlcAm.
From S2P Require Import RlcUm.
From S2P Require Import RlcTm.
From S2P Require Import RlcEntity.

(** ** What carries a record of calls *)

Class HasEvents (A : Type) := evs : A -> list rlc_event.

#[export] Instance events_am : HasEvents nr_rlc_entity_am_t := events.
#[export] Instance events_um : HasEvents nr_rlc_entity_um_t := um_events.
#[export] Instance events_tm : HasEvents nr_rlc_entity_tm_t := tm_events.
#[export] Instance events_ctrl : HasEvents ctrl_t := fun c => events (entity_of c).
#[export] Instance events_fst {A B} `{!HasEvents A} : HasEvents (A * B) | 10 := fun p => evs p.1.
#[export] Instance events_snd {A B} `{!HasEvents B} : HasEvents (A * B) | 20 := fun p => evs p.2.
#[export] Instance events_next : HasEvents next_step := fun n =>
  match n with ProcessNext c => evs c | DoneNack c => evs c | ListsOver c => evs c end.
#[export] Instance events_range : HasEvents range_end := fun r =>
  match r with RangeDone _ c => evs c | NacksDone c => evs c end.

(** The record of an entity behind the table of functions. *)
Definition rlc_events (e : nr_rlc_entity_t) : list rlc_event :=
  match e with
  | EntityAm e => events e
  | EntityUm e => um_events e
  | EntityTm e => tm_events e
  end.

#[export] Instance events_any : HasEvents nr_rlc_entity_t := rlc_events.

(** ** Postconditions *)

Definition yields {A} (P : A -> Prop) (m : res A) : Prop :=
  match m with Ok a => P a | Exit | Fault _ => True end.

(** The record begins with [b]. *)
Abbreviation begins b := (fun a => b `prefix_of` evs a).

Lemma yields_bind {A B} (Q : A -> Prop) (P : B -> Prop) (m : res A) (k : A -> res B) :
  yields Q m -> (forall a, Q a -> yields P (k a)) -> yields P (rbind m k).
Proof. destruct m; cbn; auto. Qed.

Lemma yields_bind_any {A B} (P : B -> Prop) (m : res A) (k : A -> res B) :
  (forall a, yields P (k a)) -> yields P (rbind m k).
Proof. destruct m; cbn; auto. Qed.

Lemma yields_ok {A} (P : A -> Prop) (m : res A) a : yields P m -> m = Ok a -> P a.
Proof. intros H ->. exact H. Qed.

Create HintDb grow discriminated.

(** The record of an updated entity is that of the entity. *)
Ltac grow_pure :=
  repeat match goal with
  | |- prefix ?b (evs (let x := ?v in @?k x)) =>
    first
    [ assert (prefix b (evs v)) by grow_pure;
      change (prefix b (evs (k v))); generalize dependent v; intros
    | change (prefix b (evs (k v))); generalize v; intros ]; cbv beta
  | |- prefix _ (evs (match ?x with _ => _ end)) => destruct x
  end;
  first
  [ assumption
  | match goal with H : prefix _ _ |- _ => exact H end
  | match goal with H : prefix _ _ |- _ => apply prefix_app_r; exact H end
  | solve [eauto with grow] ].

Ltac grow_step :=
  lazymatch goal with
  | |- yields _ (Ok _) => cbn beta iota delta [yields]
  | |- yields _ Exit => exact I
  | |- yields _ (Fault _) => exact I
  | |- yields ?P (let x := ?v in @?k x) =>
    lazymatch goal with
    | H : prefix ?b (evs _) |- _ =>
      first
      [ assert (prefix b (evs v)) by grow_pure;
        change (yields P (k v)); generalize dependent v; intros
      | change (yields P (k v)); generalize v; intros ]
    end; cbv beta
  | |- yields _ (@rbind ?A ?B ?m ?k) =>
    lazymatch goal with
    | H : prefix ?b (evs _) |- _ =>
      first
      [ apply (yields_bind (begins b) _ m k); [|intros ? ?]
      | apply yields_bind_any; intros ? ]
    end; cbv beta
  | |- yields _ (match ?x with _ => _ end) =>
    lazymatch goal with
    | H : prefix ?b (evs _) |- _ =>
      first
      [ is_var x; destruct x
      | assert (prefix b (evs x)) by grow_pure;
        let y := fresh in generalize dependent x; intros y; intros; destruct y
      | destruct x ]
    end
  | |- yields _ _ =>
    first [ solve [eauto with grow] | match goal with IH : _ |- _ => apply IH; grow_pure end ]
  | |- prefix _ _ => grow_pure
  end.

Ltac grow := repeat grow_step.

(** Unfold without substituting the assignments. *)
Tactic Notation "enter" reference(f) := cbv beta delta [f].

(** ** Acknowledged mode: reception *)

Section Am.

Implicit Types (e : nr_rlc_entity_am_t) (c : ctrl_t) (b : list rlc_event).

Lemma grow_reassemble e sn b : b `prefix_of` evs e -> yields (begins b) (reassemble_and_deliver e sn).
Proof. intros H. enter reassemble_and_deliver. grow. Qed.
#[local] Hint Resolve grow_reassemble : grow.

Lemma grow_release e x b : b `prefix_of` evs e -> yields (begins b) (release_delivered e x).
Proof. intros H. enter release_delivered. grow. Qed.
#[local] Hint Resolve grow_release : grow.

Lemma grow_deliver e x b : b `prefix_of` evs e -> yields (begins b) (reception_actions_deliver e x).
Proof. intros H. enter reception_actions_deliver. grow. Qed.
#[local] Hint Resolve grow_deliver : grow.

Lemma grow_timers e b : b `prefix_of` evs e -> b `prefix_of` evs (reception_actions_timers e).
Proof. intros H. enter reception_actions_timers. grow_pure. Qed.
#[local] Hint Resolve grow_timers : grow.

Lemma grow_reception e p b : b `prefix_of` evs e -> yields (begins b) (reception_actions e p).
Proof. intros H. enter reception_actions. grow. Qed.
#[local] Hint Resolve grow_reception : grow.

Lemma grow_discard e p b : b `prefix_of` evs e -> b `prefix_of` evs (discard e p).
Proof. intros H. enter discard. grow_pure. Qed.
#[local] Hint Resolve grow_discard : grow.

Lemma grow_recv_data e buffer p h b :
  b `prefix_of` evs e -> yields (begins b) (recv_data_pdu e buffer p h).
Proof. intros H. enter recv_data_pdu. grow. Qed.
#[local] Hint Resolve grow_recv_data : grow.

(** ** Acknowledged mode: control PDUs *)

Lemma grow_retx e seg b : b `prefix_of` evs e -> yields (begins b) (retx_segment e seg).
Proof. intros H. enter retx_segment. enter emit. grow. Qed.
#[local] Hint Resolve grow_retx : grow.

Lemma grow_ack e seg b : b `prefix_of` evs e -> yields (begins b) (ack_segment e seg).
Proof. intros H. enter ack_segment. enter emit. grow. Qed.
#[local] Hint Resolve grow_ack : grow.

Lemma grow_note_end c cur b : b `prefix_of` evs c -> b `prefix_of` evs (note_end c cur).
Proof. intros H. enter note_end. grow_pure. Qed.
#[local] Hint Resolve grow_note_end : grow.

Lemma grow_wait_head ack n c cur rest b :
  b `prefix_of` evs c -> yields (begins b) (process_wait_list_head ack n c cur rest).
Proof. intros H. enter process_wait_list_head. grow. Qed.
#[local] Hint Resolve grow_wait_head : grow.

Lemma grow_retransmit_head ack n c cur rest b :
  b `prefix_of` evs c -> yields (begins b) (process_retransmit_list_head ack n c cur rest).
Proof. intros H. enter process_retransmit_list_head. grow. Qed.
#[local] Hint Resolve grow_retransmit_head : grow.

Lemma grow_next_pdu ack n c b : b `prefix_of` evs c -> yields (begins b) (process_next_pdu ack n c).
Proof. intros H. enter process_next_pdu. grow. Qed.
#[local] Hint Resolve grow_next_pdu : grow.

Lemma grow_nack_loop fuel ack n c b :
  b `prefix_of` evs c -> yields (begins b) (process_nack_loop fuel ack n c).
Proof. revert c. induction fuel as [|fuel IH]; intros c H; cbn [process_nack_loop]; grow. Qed.
#[local] Hint Resolve grow_nack_loop : grow.

Lemma grow_range todo ack range sn so_s so_e prev c b :
  b `prefix_of` evs c -> yields (begins b) (process_range todo ack range sn so_s so_e prev c).
Proof. revert prev c. induction todo as [|todo IH]; intros prev c H; cbn [process_range]; grow. Qed.
#[local] Hint Resolve grow_range : grow.

Lemma grow_nacks fuel ack d flag prev c b :
  b `prefix_of` evs c -> yields (begins b) (process_nacks fuel ack d flag prev c).
Proof.
  revert d flag prev c. induction fuel as [|fuel IH]; intros d flag prev c H; cbn [process_nacks]; grow.
Qed.
#[local] Hint Resolve grow_nacks : grow.

Lemma grow_ack_wait l ack c b : b `prefix_of` evs c -> yields (begins b) (ack_wait_list l ack c).
Proof. revert c. induction l as [|x l IH]; intros c H; cbn [ack_wait_list]; grow. Qed.
#[local] Hint Resolve grow_ack_wait : grow.

Lemma grow_ack_retransmit l ack c b :
  b `prefix_of` evs c -> yields (begins b) (ack_retransmit_list l ack c).
Proof. revert c. induction l as [|x l IH]; intros c H; cbn [ack_retransmit_list]; grow. Qed.
#[local] Hint Resolve grow_ack_retransmit : grow.

Lemma grow_finish ack c b : b `prefix_of` evs c -> yields (begins b) (finish_control_pdu ack c).
Proof. intros H. enter finish_control_pdu. grow. Qed.
#[local] Hint Resolve grow_finish : grow.

Lemma grow_control e buffer b : b `prefix_of` evs e -> yields (begins b) (process_control_pdu e buffer).
Proof. intros H. enter process_control_pdu. grow. Qed.
#[local] Hint Resolve grow_control : grow.

Lemma grow_am_recv_pdu e buffer b :
  b `prefix_of` evs e -> yields (begins b) (nr_rlc_entity_am_recv_pdu e buffer).
Proof. intros H. enter nr_rlc_entity_am_recv_pdu. grow. Qed.

(** ** Acknowledged mode: transmission *)

Lemma grow_put_in_wait e seg b : b `prefix_of` evs e -> yields (begins b) (put_in_wait_list e seg).
Proof. intros H. enter put_in_wait_list. grow. Qed.
#[local] Hint Resolve grow_put_in_wait : grow.

Lemma grow_serialize e seg buffer p b :
  b `prefix_of` evs e -> yields (begins b) (serialize_sdu e seg buffer p).
Proof. intros H. enter serialize_sdu. enter include_poll. grow. Qed.
#[local] Hint Resolve grow_serialize : grow.

Lemma grow_resegment e seg n b : b `prefix_of` evs e -> yields (begins b) (resegment e seg n).
Proof. intros H. enter resegment. grow. Qed.
#[local] Hint Resolve grow_resegment : grow.

Lemma grow_status e buffer b : b `prefix_of` evs e -> yields (begins b) (generate_status e buffer).
Proof. intros H. enter generate_status. grow. Qed.
#[local] Hint Resolve grow_status : grow.

Lemma grow_generate_retx e buffer b :
  b `prefix_of` evs e -> yields (begins b) (generate_retx_pdu e buffer).
Proof. intros H. enter generate_retx_pdu. enter apply_force_poll. grow. Qed.
#[local] Hint Resolve grow_generate_retx : grow.

Lemma grow_generate_tx e buffer b :
  b `prefix_of` evs e -> yields (begins b) (generate_tx_pdu e buffer).
Proof. intros H. enter generate_tx_pdu. enter poll_for_new_pdu. enter apply_force_poll. grow. Qed.
#[local] Hint Resolve grow_generate_tx : grow.

Lemma grow_am_generate e buffer b :
  b `prefix_of` evs e -> yields (begins b) (nr_rlc_entity_am_generate_pdu e buffer).
Proof. intros H. enter nr_rlc_entity_am_generate_pdu. grow. Qed.

Lemma grow_am_recv_sdu e buffer id b :
  b `prefix_of` evs e -> yields (begins b) (nr_rlc_entity_am_recv_sdu e buffer id).
Proof. intros H. enter nr_rlc_entity_am_recv_sdu. grow. Qed.

(** ** Acknowledged mode: the rest *)

Lemma grow_poll_retransmit e b : b `prefix_of` evs e -> yields (begins b) (check_t_poll_retransmit e).
Proof. intros H. enter check_t_poll_retransmit. grow. Qed.
#[local] Hint Resolve grow_poll_retransmit : grow.

Lemma grow_t_reassembly e b : b `prefix_of` evs e -> yields (begins b) (check_t_reassembly e).
Proof. intros H. enter check_t_reassembly. grow. Qed.
#[local] Hint Resolve grow_t_reassembly : grow.

Lemma grow_am_set_time e now b :
  b `prefix_of` evs e -> yields (begins b) (nr_rlc_entity_am_set_time e now).
Proof. intros H. enter nr_rlc_entity_am_set_time. grow. Qed.

Lemma grow_am_discard e id b :
  b `prefix_of` evs e -> yields (begins b) (nr_rlc_entity_am_discard_sdu e id).
Proof. intros H. enter nr_rlc_entity_am_discard_sdu. grow. Qed.

Lemma grow_am_reestablish e b :
  b `prefix_of` evs e -> yields (begins b) (nr_rlc_entity_am_reestablishment e).
Proof. intros H. enter nr_rlc_entity_am_reestablishment. enter clear_entity. grow. Qed.

End Am.

(** ** Unacknowledged mode *)

Section Um.

Implicit Types (e : nr_rlc_entity_um_t) (b : list rlc_event).

Lemma grow_um_reassemble e sn b :
  b `prefix_of` evs e -> yields (begins b) (um_reassemble_and_deliver e sn).
Proof. intros H. enter um_reassemble_and_deliver. enter um_emit. grow. Qed.
#[local] Hint Resolve grow_um_reassemble : grow.

Lemma grow_um_move_window e x b : b `prefix_of` evs e -> yields (begins b) (um_move_window e x).
Proof. intros H. enter um_move_window. grow. Qed.
#[local] Hint Resolve grow_um_move_window : grow.

Lemma grow_um_timers e b : b `prefix_of` evs e -> b `prefix_of` evs (um_reception_timers e).
Proof. intros H. enter um_reception_timers. grow_pure. Qed.
#[local] Hint Resolve grow_um_timers : grow.

Lemma grow_um_reception e p b : b `prefix_of` evs e -> yields (begins b) (um_reception_actions e p).
Proof. intros H. enter um_reception_actions. grow. Qed.
#[local] Hint Resolve grow_um_reception : grow.

Lemma grow_um_segment e buffer h b :
  b `prefix_of` evs e -> yields (begins b) (um_recv_segment e buffer h).
Proof. intros H. enter um_recv_segment. grow. Qed.
#[local] Hint Resolve grow_um_segment : grow.

Lemma grow_um_recv_pdu e buffer b :
  b `prefix_of` evs e -> yields (begins b) (nr_rlc_entity_um_recv_pdu e buffer).
Proof. intros H. enter nr_rlc_entity_um_recv_pdu. enter um_emit. grow. Qed.

Lemma grow_um_resegment e seg n b : b `prefix_of` evs e -> yields (begins b) (um_resegment e seg n).
Proof. intros H. enter um_resegment. grow. Qed.
#[local] Hint Resolve grow_um_resegment : grow.

Lemma grow_um_send e seg buffer b :
  b `prefix_of` evs e -> yields (begins b) (um_send_segment e seg buffer).
Proof. intros H. enter um_send_segment. grow. Qed.
#[local] Hint Resolve grow_um_send : grow.

Lemma grow_um_generate e buffer b :
  b `prefix_of` evs e -> yields (begins b) (nr_rlc_entity_um_generate_pdu e buffer).
Proof. intros H. enter nr_rlc_entity_um_generate_pdu. enter um_generate_tx_pdu. grow. Qed.

Lemma grow_um_recv_sdu e buffer id b :
  b `prefix_of` evs e -> yields (begins b) (nr_rlc_entity_um_recv_sdu e buffer id).
Proof. intros H. enter nr_rlc_entity_um_recv_sdu. grow. Qed.

Lemma grow_um_set_time e now b :
  b `prefix_of` evs e -> yields (begins b) (nr_rlc_entity_um_set_time e now).
Proof. intros H. enter nr_rlc_entity_um_set_time. enter um_check_t_reassembly. grow. Qed.

Lemma grow_um_discard e id b :
  b `prefix_of` evs e -> yields (begins b) (nr_rlc_entity_um_discard_sdu e id).
Proof. intros H. enter nr_rlc_entity_um_discard_sdu. grow. Qed.

Lemma grow_um_reestablish e b :
  b `prefix_of` evs e -> yields (begins b) (nr_rlc_entity_um_reestablishment e).
Proof. intros H. enter nr_rlc_entity_um_reestablishment. enter um_clear_entity. grow. Qed.

End Um.

(** ** Transparent mode *)

Section Tm.

Implicit Types (e : nr_rlc_entity_tm_t) (b : list rlc_event).

Lemma grow_tm_recv_pdu e buffer b :
  b `prefix_of` evs e -> b `prefix_of` evs (nr_rlc_entity_tm_recv_pdu e buffer).
Proof. intros H. enter nr_rlc_entity_tm_recv_pdu. grow_pure. Qed.

Lemma grow_tm_generate e buffer b :
  b `prefix_of` evs e -> yields (begins b) (nr_rlc_entity_tm_generate_pdu e buffer).
Proof. intros H. enter nr_rlc_entity_tm_generate_pdu. enter tm_generate_tx_pdu. grow. Qed.

Lemma grow_tm_recv_sdu e buffer id b :
  b `prefix_of` evs e -> yields (begins b) (nr_rlc_entity_tm_recv_sdu e buffer id).
Proof. intros H. enter nr_rlc_entity_tm_recv_sdu. grow. Qed.

Lemma grow_tm_reestablish e b :
  b `prefix_of` evs e -> yields (begins b) (nr_rlc_entity_tm_reestablishment e).
Proof. intros H. enter nr_rlc_entity_tm_reestablishment. enter tm_clear_entity. grow. Qed.

End Tm.

(** ** The table of functions *)

(** What the users of an entity rely on: no operation takes back a call. *)
Class RlcCalls (E : Type) `{!RlcEntity E, !HasEvents E} := {
  recv_pdu_calls : forall (e : E) b buffer, b `prefix_of` evs e -> yields (begins b) (rlc_recv_pdu e buffer);
  generate_pdu_calls : forall (e : E) b buffer, b `prefix_of` evs e -> yields (begins b) (rlc_generate_pdu e buffer);
  recv_sdu_calls : forall (e : E) b buffer id, b `prefix_of` evs e -> yields (begins b) (rlc_recv_sdu e buffer id);
  set_time_calls : forall (e : E) b now, b `prefix_of` evs e -> yields (begins b) (rlc_set_time e now);
  discard_sdu_calls : forall (e : E) b id, b `prefix_of` evs e -> yields (begins b) (rlc_discard_sdu e id);
  reestablishment_calls : forall (e : E) b, b `prefix_of` evs e -> yields (begins b) (rlc_reestablishment e)
}.

#[export] Instance calls_am : RlcCalls nr_rlc_entity_am_t := {
  recv_pdu_calls e b buffer := grow_am_recv_pdu e buffer b;
  generate_pdu_calls e b buffer := grow_am_generate e buffer b;
  recv_sdu_calls e b buffer id := grow_am_recv_sdu e buffer id b;
  set_time_calls e b now := grow_am_set_time e now b;
  discard_sdu_calls e b id := grow_am_discard e id b;
  reestablishment_calls e b := grow_am_reestablish e b
}.

#[export] Instance calls_um : RlcCalls nr_rlc_entity_um_t := {
  recv_pdu_calls e b buffer := grow_um_recv_pdu e buffer b;
  generate_pdu_calls e b buffer := grow_um_generate e buffer b;
  recv_sdu_calls e b buffer id := grow_um_recv_sdu e buffer id b;
  set_time_calls e b now := grow_um_set_time e now b;
  discard_sdu_calls e b id := grow_um_discard e id b;
  reestablishment_calls e b := grow_um_reestablish e b
}.

#[export] Instance calls_tm : RlcCalls nr_rlc_entity_tm_t := {
  recv_pdu_calls e b buffer := grow_tm_recv_pdu e buffer b;
  generate_pdu_calls e b buffer := grow_tm_generate e buffer b;
  recv_sdu_calls e b buffer id := grow_tm_recv_sdu e buffer id b;
  set_time_calls e b now H := H;
  discard_sdu_calls e b id H := H;
  reestablishment_calls e b := grow_tm_reestablish e b
}.

Lemma yields_rmap {A B} (P : B -> Prop) (f : A -> B) (m : res A) :
  yields (fun a => P (f a)) m -> yields P (rmap f m).
Proof. destruct m; cbn; auto. Qed.

Lemma yields_impl {A} (P Q : A -> Prop) (m : res A) :
  (forall a, P a -> Q a) -> yields P m -> yields Q m.
Proof. destruct m; cbn; auto. Qed.

#[export] Instance calls_any : RlcCalls nr_rlc_entity_t.
Proof.
  split; intros [e|e|e] b; intros; (apply yields_rmap);
    (eapply yields_impl; [|first [eapply recv_pdu_calls | eapply generate_pdu_calls | eapply recv_sdu_calls
       | eapply set_time_calls | eapply discard_sdu_calls | eapply reestablishment_calls]; eassumption]).
  all: intros; repeat match goal with p : _ * _ |- _ => destruct p end; assumption.
Qed.
