(* ===== verification/RlcAmTx.v ===== *)
(** Transmission side of the acknowledged-mode entity: the PDUs it produces and how
    the peer reads them. *)

From S2P Require Import Prelude.
From S2P Require Import RlcPdu.
From S2P Require Import RlcSdu.
From S2P Require Import RlcSegs.
From S2P Require Import RlcAm.
From S2P Require Import RlcAmRx.
From S2P Require Import RlcEntity.

(** ** Specification vocabulary *)

(** The header of a data PDU as fields. *)
Definition am_fields (e : nr_rlc_entity_am_t) (p sn : Z) (seg : nr_rlc_sdu_segment_t)
  : list (Z * Z) :=
  [(1, 1); (p, 1); (1 - Z.b2z (seg_is_first seg), 1); (1 - Z.b2z (seg_is_last seg), 1)]
  ++ (if sn_field_length e =? 18 then [(0, 2)] else [])
  ++ [(sn, sn_field_length e)]
  ++ (if negb (seg_is_first seg) then [(seg_so seg, 16)] else []).

(** ** Writing *)

Lemma rbind_ret {A} (m : res A) : rbind m Ok = m.
Proof. by destruct m. Qed.

Lemma serialize_header_fields e sn seg enc :
  serialize_header e sn seg enc = put_fields enc (am_fields e 0 sn seg).
Proof.
  unfold serialize_header, am_fields. destruct (_ =? 18), (negb _); cbn [app put_fields];
    repeat (match goal with |- rbind ?m _ = rbind ?m _ => destruct m; cbn [rbind]; [|done|done] end);
    rewrite ?rbind_ret; done.
Qed.

Lemma am_fields_ok e p sn seg s :
  am_conf e -> 0 <= p <= 1 -> sn_range e sn -> seg_ok s seg -> Forall field_ok (am_fields e p sn seg).
Proof.
  intros [Hc _] Hp Hsn (Hso & _). unfold am_fields, field_ok, sn_range in *.
  assert (0 < sn_field_length e <= 31 /\ 2 ^ sn_field_length e = sn_modulus e) as [H1 H2]
    by (destruct Hc as [[-> ->]|[-> ->]]; lia).
  repeat (apply Forall_app; split); repeat constructor; cbn [fst snd]; try lia;
    try (destruct (seg_is_first seg); cbn; lia); try (destruct (seg_is_last seg); cbn; lia).
  - destruct (_ =? 18); repeat constructor; cbn; lia.
  - destruct (negb _); repeat constructor; cbn; lia.
Qed.

Lemma am_fields_size e p sn seg :
  am_conf e -> sumZ snd (am_fields e p sn seg) = 8 * compute_pdu_header_size e seg.
Proof.
  intros [Hc _]. unfold am_fields, compute_pdu_header_size.
  destruct Hc as [[-> _]|[-> _]]; destruct (seg_is_first seg); cbn; lia.
Qed.

Lemma header_size_pos e seg : 2 <= compute_pdu_header_size e seg <= 5.
Proof. unfold compute_pdu_header_size. destruct (_ =? 18), (negb _); lia. Qed.

(** A buffer with room for the header gets exactly its bits. *)
Lemma serialize_header_ok e sn seg s buffer :
  am_conf e -> sn_range e sn -> seg_ok s seg ->
  compute_pdu_header_size e seg <= Z.of_nat (length buffer) ->
  exists enc, serialize_header e sn seg (nr_rlc_pdu_encoder_init buffer (Z.of_nat (length buffer))) = Ok enc /\
    e_byte enc = compute_pdu_header_size e seg /\ length (e_buffer enc) = length buffer /\
    bytes_bits (take (Z.to_nat (compute_pdu_header_size e seg)) (e_buffer enc))
    = fields_bits (am_fields e 0 sn seg).
Proof.
  intros Hc Hsn Hseg Hroom. rewrite serialize_header_fields.
  pose proof (am_fields_size e 0 sn seg Hc) as Hsz.
  destruct (put_fields_spec (am_fields e 0 sn seg)
              (nr_rlc_pdu_encoder_init buffer (Z.of_nat (length buffer)))) as (enc & E & Hok & Hr & Hs & Hw);
    [eapply am_fields_ok; try done; lia|apply enc_ok_init|
     rewrite Hsz; unfold room; cbn [nr_rlc_pdu_encoder_init e_size e_byte e_bit]; lia|].
  exists enc. split; [done|].
  destruct (encoder_bytes enc (compute_pdu_header_size e seg)) as [Hb Hbits];
    [done|rewrite Hr, Hs, Hsz; unfold room; cbn [nr_rlc_pdu_encoder_init e_size e_byte e_bit]; lia|].
  split; [done|]. split; [pose proof (proj1 Hok); cbn in Hs; lia|]. by rewrite Hbits, Hw.
Qed.

(** Setting the P bit in the first byte. *)
Lemma poll_bits b :
  bits_be 8 (u8 (Z.lor b 0x40)) =
  match bits_be 8 b with b7 :: _ :: tl => b7 :: true :: tl | l => l end.
Proof.
  unfold u8. change (2 ^ 8) with (2 ^ Z.of_nat 8). rewrite bits_be_mod by lia.
  assert (H : forall i, 0 <= i -> Z.testbit (Z.lor b 0x40) i = Z.testbit b i || (i =? 6)).
  { intros i Hi. rewrite Z.lor_spec. f_equal. change 0x40 with (2 ^ 6).
    destruct (Z.eqb_spec i 6) as [->|Hne]; [by apply Z.pow2_bits_true|by apply Z.pow2_bits_false]. }
  cbn [bits_be]. rewrite !H by lia. cbn [Z.of_nat Pos.of_succ_nat Pos.succ Z.eqb Pos.eqb].
  by rewrite !orb_false_r, orb_true_r.
Qed.

Lemma fields_bits_poll e sn seg :
  fields_bits (am_fields e 1 sn seg) =
  match fields_bits (am_fields e 0 sn seg) with b7 :: _ :: tl => b7 :: true :: tl | l => l end.
Proof. done. Qed.

Lemma buf_set_0 v b0 rest : buf_set (b0 :: rest) 0 v = u8 v :: rest.
Proof. done. Qed.

Lemma take_poll e sn seg n b :
  (0 < n <= length b)%nat -> bytes_bits (take n b) = fields_bits (am_fields e 0 sn seg) ->
  bytes_bits (take n (buf_set b 0 (Z.lor (buf_get b 0) 0x40))) = fields_bits (am_fields e 1 sn seg).
Proof.
  intros Hn Hb. destruct b as [|b0 rest]; cbn in Hn; [lia|]. destruct n as [|n]; [lia|].
  rewrite buf_set_0. cbn [take] in *. rewrite bytes_bits_cons in *.
  rewrite fields_bits_poll, <- Hb, poll_bits. done.
Qed.

(** ** Reading *)

(** Use the next field of the bits that remain. *)
Ltac next_field d v c Hok Hrem :=
  let d' := fresh "d" in
  let Hok' := fresh "Hok" in
  let Hrem' := fresh "Hrem" in
  let Hpos := fresh "Hpos" in
  let E := fresh "E" in
  destruct (get_bits_spec d c v _ Hok ltac:(lia) ltac:(cbn; lia) Hrem)
    as (d' & E & Hok' & Hrem' & _ & _ & Hpos);
  rewrite E; clear E;
  assert (nr_rlc_pdu_decoder_in_error d' = false) as ->
    by (unfold nr_rlc_pdu_decoder_in_error; by rewrite (proj1 Hok')).

(** The two one-bit fields of SI read as one. *)
Lemma si_bits f l tl :
  0 <= f <= 1 -> 0 <= l <= 1 ->
  bits_be (Z.to_nat 1) f ++ bits_be (Z.to_nat 1) l ++ tl = bits_be (Z.to_nat 2) (2 * f + l) ++ tl.
Proof.
  intros Hf Hl. assert (f = 0 \/ f = 1) as [->| ->] by lia; assert (l = 0 \/ l = 1) as [->| ->] by lia; done.
Qed.

(** The fields behind SI. *)
Definition am_tail_fields (e : nr_rlc_entity_am_t) (sn : Z) (seg : nr_rlc_sdu_segment_t)
  : list (Z * Z) :=
  [(sn, sn_field_length e)] ++ (if negb (seg_is_first seg) then [(seg_so seg, 16)] else []).

(** The reserved bits of the 18-bit format. *)
Lemma skip_reserved e d fs tl :
  dec_ok d ->
  remaining d = fields_bits ((if sn_field_length e =? 18 then [(0, 2)] else []) ++ fs) ++ tl ->
  exists d', (if sn_field_length e =? 18
              then getbits (_, d) := (d, 2) err (Ok None) in Ok (Some d)
              else Ok (Some d)) = Ok (Some d') /\
    dec_ok d' /\ remaining d' = fields_bits fs ++ tl /\
    8 * d_byte d' + d_bit d' = 8 * d_byte d + d_bit d + (if sn_field_length e =? 18 then 2 else 0).
Proof.
  intros Hok Hrem. destruct (sn_field_length e =? 18).
  - cbn [app] in Hrem. rewrite fields_bits_cons, <- app_assoc in Hrem.
    next_field d 0 2 Hok Hrem. eexists. split; [done|]. split; [done|]. split; [done|]. lia.
  - exists d. split; [done|]. split; [done|]. split; [done|]. lia.
Qed.

(** Header decoding, from the P bit on. *)
Lemma decode_header_fields r p sn seg s d tl :
  am_conf r -> 0 <= p <= 1 -> sn_range r sn -> seg_ok s seg -> dec_ok d ->
  remaining d = fields_bits (drop 1 (am_fields r p sn seg)) ++ tl ->
  8 * d_byte d + d_bit d = 1 ->
  decode_header r d =
  Ok (p, Some (mk_header (seg_is_first seg) (seg_is_last seg) sn (seg_so seg)
                 (compute_pdu_header_size r seg))).
Proof.
  intros Hc Hp Hsn (Hso & _ & _ & Hfirst & _) Hok Hrem Hpos.
  assert (0 < sn_field_length r <= 31 /\ 0 <= sn < 2 ^ sn_field_length r) as [Hsl Hsn2].
  { unfold sn_range in Hsn. destruct Hc as [[[-> Hm]|[-> Hm]] _]; rewrite Hm in Hsn; lia. }
  pose proof (am_fields_size r p sn seg Hc) as Hsum. unfold am_fields in Hrem, Hsum.
  set (f := 1 - Z.b2z (seg_is_first seg)) in *. set (l := 1 - Z.b2z (seg_is_last seg)) in *.
  assert (Hf : 0 <= f <= 1) by (subst f; destruct (seg_is_first seg); cbn; lia).
  assert (Hl : 0 <= l <= 1) by (subst l; destruct (seg_is_last seg); cbn; lia).
  cbn [app drop] in Hrem. rewrite !fields_bits_cons, <- !app_assoc in Hrem.
  unfold decode_header. next_field d p 1 Hok Hrem.
  rewrite si_bits in Hrem0 by done. next_field d0 (2 * f + l) 2 Hok0 Hrem0. cbv zeta.
  assert ((Z.land (2 * f + l) 0x2 =? 0) = seg_is_first seg) as ->
    by (subst f l; by destruct (seg_is_first seg), (seg_is_last seg)).
  assert ((Z.land (2 * f + l) 0x1 =? 0) = seg_is_last seg) as ->
    by (subst f l; by destruct (seg_is_first seg), (seg_is_last seg)).
  destruct (skip_reserved r d1 (am_tail_fields r sn seg) tl Hok1 Hrem1) as (d2 & -> & Hok2 & Hrem2 & Hpos2).
  cbn [rbind]. unfold am_tail_fields in Hrem2. cbn [app] in Hrem2.
  rewrite fields_bits_cons, <- app_assoc in Hrem2.
  next_field d2 sn (sn_field_length r) Hok2 Hrem2.
  rewrite !sumZ_app in Hsum.
  assert (Hr : sumZ snd (if sn_field_length r =? 18 then [(0, 2)] else [])
               = if sn_field_length r =? 18 then 2 else 0) by (by destruct (_ =? 18)).
  rewrite Hr in Hsum. clear Hr. unfold compute_pdu_header_size in *.
  destruct (seg_is_first seg) eqn:Ef; cbn [negb sumZ snd] in *.
  - assert (seg_so seg = 0) as -> by tauto. do 4 f_equal. destruct Hok3 as (_ & _ & _ & ?).
    destruct (sn_field_length r =? 18); lia.
  - rewrite fields_bits_cons, <- app_assoc in Hrem3. next_field d3 (seg_so seg) 16 Hok3 Hrem3.
    destruct (Z.eqb_spec (seg_so seg) 0) as [E0|_]; [apply Hfirst in E0; congruence|].
    do 4 f_equal. destruct Hok4 as (_ & _ & _ & ?). destruct (sn_field_length r =? 18); lia.
Qed.

(** A PDU that starts with the bits of a header is received as that header. *)
Lemma recv_fields r p sn seg s hb payload :
  am_conf r -> 0 <= p <= 1 -> sn_range r sn -> seg_ok s seg ->
  bytes_bits hb = fields_bits (am_fields r p sn seg) ->
  nr_rlc_entity_am_recv_pdu r (hb ++ payload) =
  recv_data_pdu r (hb ++ payload) p
    (mk_header (seg_is_first seg) (seg_is_last seg) sn (seg_so seg) (compute_pdu_header_size r seg)).
Proof.
  intros Hc Hp Hsn Hseg Hbits. unfold nr_rlc_entity_am_recv_pdu.
  set (d0 := nr_rlc_pdu_decoder_init _ _).
  assert (Hok0 : dec_ok d0) by apply dec_ok_init.
  assert (Hrem0 : remaining d0 = bits_be (Z.to_nat 1) 1
            ++ fields_bits (drop 1 (am_fields r p sn seg)) ++ bytes_bits payload).
  { subst d0. by rewrite remaining_init, bytes_bits_app, Hbits. }
  assert (Hpos0 : 8 * d_byte d0 + d_bit d0 = 0) by done. clearbody d0.
  next_field d0 1 1 Hok0 Hrem0. cbn [Z.eqb Pos.eqb].
  rewrite (decode_header_fields r p sn seg s d (bytes_bits payload)) by (done || lia). done.
Qed.

(** ** The payload *)

Lemma buf_write_take b off src n :
  (off + length src <= length b)%nat -> (n = off + length src)%nat ->
  take n (buf_write b off src) = take off b ++ src.
Proof.
  intros Hl ->. unfold buf_write. rewrite app_assoc.
  rewrite take_app_length'; [done|]. rewrite length_app, length_take. lia.
Qed.

Lemma buf_write_poll b off src v :
  (0 < off <= length b)%nat -> buf_set (buf_write b off src) 0 v = buf_write (buf_set b 0 v) off src.
Proof.
  intros Hoff. unfold buf_write. destruct b as [|b0 rest]; cbn in Hoff; [lia|].
  destruct off as [|off]; [lia|]. rewrite buf_set_0. cbn [take app drop plus]. by rewrite buf_set_0.
Qed.

Lemma buf_write_get b off src : (0 < off <= length b)%nat -> buf_get (buf_write b off src) 0 = buf_get b 0.
Proof.
  intros Hoff. unfold buf_write. destruct b as [|b0 rest]; cbn in Hoff; [lia|].
  destruct off as [|off]; [lia|]. done.
Qed.

(** Serialization of a segment that fits: it succeeds, and the PDU consists of the
    bits of its header and its bytes of the SDU. *)
Lemma serialize_ok e seg s buffer p :
  am_conf e -> h_sdus (heap e) !! seg_sdu seg = Some s -> sn_range e (sdu_sn s) -> seg_ok s seg ->
  compute_pdu_header_size e seg + seg_size seg <= Z.of_nat (length buffer) ->
  let n := compute_pdu_header_size e seg + seg_size seg in
  exists e' buffer' hb, serialize_sdu e seg buffer p = Ok (e', buffer', n) /\
    e' = (if p then (include_poll e buffer).1 else e) /\
    take (Z.to_nat n) buffer'
      = hb ++ take (Z.to_nat (seg_size seg)) (drop (Z.to_nat (seg_so seg)) (sdu_data s)) /\
    bytes_bits hb = fields_bits (am_fields e (Z.b2z p) (sdu_sn s) seg) /\
    Z.of_nat (length hb) = compute_pdu_header_size e seg.
Proof.
  intros Hc Hs Hsn Hseg Hroom n. pose proof (header_size_pos e seg) as Hh.
  destruct (serialize_header_ok e (sdu_sn s) seg s buffer) as (enc & E & Hb & Hlen & Hbits);
    [done|done|done|destruct Hseg; lia|].
  destruct Hseg as (Hso & Hsz & Hin & _).
  unfold serialize_sdu, get_sdu. rewrite Hs. cbn [rbind]. rewrite E. cbn [rbind].
  unfold copy_data. destruct (_ || _) eqn:Hf; b2p.
  { exfalso. destruct Hf as [Hf|Hf]; b2p; [|lia]. destruct Hf as [Hf|Hf]; b2p; [|lia].
    destruct Hf as [Hf|Hf]; b2p; lia. }
  cbn [rbind]. rewrite Hb. set (payload := take _ (drop _ (sdu_data s))).
  assert (Hpl : length payload = Z.to_nat (seg_size seg))
    by (subst payload; rewrite length_take, length_drop; lia).
  set (hs := compute_pdu_header_size e seg) in *.
  destruct p.
  - unfold include_poll at 1. rewrite buf_write_get, buf_write_poll by lia.
    set (b1 := buf_set _ 0 _). assert (Hl1 : length b1 = length buffer) by (subst b1; by rewrite buf_set_length).
    eexists _, _, (take (Z.to_nat hs) b1). split; [done|]. split; [done|].
    split; [apply buf_write_take; lia|]. split; [apply take_poll; [lia|done]|]. rewrite length_take. lia.
  - eexists _, _, (take (Z.to_nat hs) (e_buffer enc)). split; [done|]. split; [done|].
    split; [apply buf_write_take; lia|]. split; [done|]. rewrite length_take. lia.
Qed.

(** ** Segmentation *)

(** Cutting a segment that does not fit: two non-empty parts that together cover it,
    the first of which fills the PDU exactly. *)
Lemma resegment_spec e seg s pdu_size :
  h_sdus (heap e) !! seg_sdu seg = Some s -> seg_ok s seg ->
  let h := compute_pdu_header_size e seg in
  h + 1 <= pdu_size -> pdu_size < h + seg_size seg ->
  exists a b e', resegment e seg pdu_size = Ok (a, b, e') /\
    seg_ok s a /\ (Z.of_nat (length (sdu_data s)) <= 65536 -> seg_ok s b) /\
    compute_pdu_header_size e a + seg_size a = pdu_size /\
    seg_so a = seg_so seg /\ seg_so b = seg_so a + seg_size a /\
    seg_size a + seg_size b = seg_size seg /\
    seg_is_first a = seg_is_first seg /\ seg_is_last a = false /\
    seg_is_first b = false /\ seg_is_last b = seg_is_last seg /\
    seg_sdu a = seg_sdu seg /\ seg_sdu b = seg_sdu seg /\
    seg_addr a = seg_addr seg /\ seg_addr b = h_next (heap e) /\
    e' = e <| heap := mk_heap (<[seg_sdu seg := s <| ref_count := ref_count s + 1 |>]> (h_sdus (heap e)))
                        (h_next (heap e) + 1)%positive |>.
Proof.
  intros Hs (H1 & H2 & H3 & H4 & H5) h Hlo Hhi. pose proof (header_size_pos e seg) as Hh. fold h in Hh.
  unfold resegment, get_sdu. rewrite Hs. cbn [rbind]. fold h. eexists _, _, _. split; [done|].
  split; [|split].
  - unfold seg_ok. cbn. split; [done|]. split; [lia|]. split; [lia|]. split; [done|]. split; [done|lia].
  - intros Hlen. unfold seg_ok. cbn. split; [lia|]. split; [lia|]. split; [lia|].
    split; [split; [done|lia]|]. rewrite H5. lia.
  - cbn. unfold compute_pdu_header_size in *. cbn. subst h. repeat split; lia.
Qed.

(** The segment stored for the PDU of a segment. *)
Lemma sent_segment s seg sn hb n :
  seg_ok s seg -> Z.of_nat (length hb) = n ->
  segment_of (sdu_data s)
    (pdu_of (hb ++ take (Z.to_nat (seg_size seg)) (drop (Z.to_nat (seg_so seg)) (sdu_data s)))
       (mk_header (seg_is_first seg) (seg_is_last seg) sn (seg_so seg) n)).
Proof.
  intros (H1 & H2 & H3 & _ & H5) Hn. unfold segment_of, pdu_of, nr_rlc_new_pdu.
  cbn [ph_byte ph_sn ph_so ph_is_first ph_is_last pdu_data pdu_size pdu_so pdu_is_last].
  rewrite drop_app_length' by lia. rewrite length_app, length_take, length_drop.
  assert (Hsz : Z.of_nat (length hb + Z.to_nat (seg_size seg) `min` (length (sdu_data s) - Z.to_nat (seg_so seg)))
                - n = seg_size seg) by lia.
  rewrite Hsz, take_take, Nat.min_id. split; [done|]. split; [lia|]. split; [lia|]. split; [lia|exact H5].
Qed.

(** ** Properties *)

(** C11. Data PDUs round trip.  Serialising a segment into a buffer with room for it
    succeeds; the PDU has the announced size, and the peer decodes from it the same
    SN, offset, segmentation flags and poll bit, and stores exactly the segment's
    bytes of the SDU.  Holds for both SN lengths, with and without the poll bit. *)
Theorem am_pdu_roundtrip (e r : nr_rlc_entity_am_t) (seg : nr_rlc_sdu_segment_t) (s : nr_rlc_sdu_t)
    (buffer : list Z) (p : bool) :
  am_conf e -> am_conf r -> sn_field_length r = sn_field_length e ->
  h_sdus (heap e) !! seg_sdu seg = Some s -> sn_range e (sdu_sn s) -> seg_ok s seg ->
  compute_pdu_header_size e seg + seg_size seg <= Z.of_nat (length buffer) ->
  let n := compute_pdu_header_size e seg + seg_size seg in
  let h := mk_header (seg_is_first seg) (seg_is_last seg) (sdu_sn s) (seg_so seg)
             (compute_pdu_header_size e seg) in
  exists e' buffer', serialize_sdu e seg buffer p = Ok (e', buffer', n) /\
    let pdu := take (Z.to_nat n) buffer' in
    nr_rlc_entity_am_recv_pdu r pdu = recv_data_pdu r pdu (Z.b2z p) h /\ header_ok r h /\
    pdu_of pdu h = mk_pdu (sdu_sn s)
      (Some (take (Z.to_nat (seg_size seg)) (drop (Z.to_nat (seg_so seg)) (sdu_data s))))
      (seg_size seg) (seg_so seg) (seg_is_first seg) (seg_is_last seg).
Proof.
  intros Hc Hr Hl Hs Hsn Hseg Hroom n h. pose proof (header_size_pos e seg) as Hh.
  destruct (serialize_ok e seg s buffer p Hc Hs Hsn Hseg Hroom) as (e' & b' & hb & E & _ & Ht & Hb & Hlh).
  exists e', b'. split; [exact E|]. fold n in Ht. rewrite Ht. cbv zeta.
  assert (Hm : sn_modulus r = sn_modulus e).
  { destruct Hc as [[[E1 ->]|[E1 ->]] _], Hr as [[[E2 ->]|[E2 ->]] _]; try done; congruence. }
  assert (Hsnr : sn_range r (sdu_sn s)) by (unfold sn_range in *; by rewrite Hm).
  assert (Hhs : compute_pdu_header_size r seg = compute_pdu_header_size e seg)
    by (unfold compute_pdu_header_size; by rewrite Hl).
  assert (Hf : am_fields r (Z.b2z p) (sdu_sn s) seg = am_fields e (Z.b2z p) (sdu_sn s) seg)
    by (unfold am_fields; by rewrite Hl).
  pose proof Hseg as (H1 & H2 & H3 & H4 & _). split; [|split].
  - rewrite (recv_fields r (Z.b2z p) (sdu_sn s) seg s); try done; [by rewrite Hhs|destruct p; cbn; lia|by rewrite Hf].
  - unfold header_ok. subst h. cbn. split; [done|lia].
  - unfold pdu_of, nr_rlc_new_pdu. subst h. cbn [ph_byte ph_sn ph_so ph_is_first ph_is_last].
    rewrite drop_app_length' by lia. rewrite length_app, length_take, length_drop.
    assert (Hsz : Z.of_nat (length hb + Z.to_nat (seg_size seg) `min` (length (sdu_data s) - Z.to_nat (seg_so seg)))
                  - compute_pdu_header_size e seg = seg_size seg) by lia.
    rewrite Hsz, take_take, Nat.min_id. done.
Qed.

(** An entity that is about to send the last two bytes of an SDU with SN 5. *)
Definition tx_example : nr_rlc_entity_am_t :=
  rx_example <| heap := mk_heap {[ 1%positive := mk_sdu 5 0 [7; 8; 9] 3 (-1) 1 0 ]} 3%positive |>.

Lemma am_pdu_roundtrip_witness :
  let seg := mk_seg 2%positive 1%positive 2 1 false true in
  exists e' buffer', serialize_sdu tx_example seg (replicate 10 0) true = Ok (e', buffer', 6) /\
    pdu_of (take 6 buffer') (mk_header false true 5 1 4) = mk_pdu 5 (Some [8; 9]) 2 1 false true.
Proof.
  intros seg.
  destruct (am_pdu_roundtrip tx_example rx_example seg (mk_sdu 5 0 [7; 8; 9] 3 (-1) 1 0)
              (replicate 10 0) true) as (e' & b' & E & _ & _ & Hp).
  - apply rx_example_wf.
  - apply rx_example_wf.
  - reflexivity.
  - reflexivity.
  - unfold sn_range. change (sn_modulus tx_example) with 4096. cbn. lia.
  - unfold seg_ok. cbn. split; [lia|]. split; [lia|]. split; [lia|]. split; [split; [discriminate|lia]|lia].
  - cbn. lia.
  - exists e', b'. split; [exact E|exact Hp].
Defined.

(** Segmentation.  A segment that does not fit into the PDU is cut into two
    non-empty segments of the same SDU that are adjacent and together cover it: the
    first fills the PDU to the last byte and is not a last segment, the second is
    not a first one and keeps the last flag; the SDU gains one reference. *)
Theorem am_resegment_partition (e : nr_rlc_entity_am_t) (seg : nr_rlc_sdu_segment_t)
    (s : nr_rlc_sdu_t) (pdu_size : Z) :
  h_sdus (heap e) !! seg_sdu seg = Some s -> seg_ok s seg ->
  Z.of_nat (length (sdu_data s)) <= NR_SDU_MAX ->
  compute_pdu_header_size e seg + 1 <= pdu_size ->
  pdu_size < compute_pdu_header_size e seg + seg_size seg ->
  exists a b e', resegment e seg pdu_size = Ok (a, b, e') /\ seg_ok s a /\ seg_ok s b /\
    compute_pdu_header_size e a + seg_size a = pdu_size /\
    seg_so a = seg_so seg /\ seg_so b = seg_so a + seg_size a /\
    seg_size a + seg_size b = seg_size seg /\
    seg_is_last a = false /\ seg_is_last b = seg_is_last seg /\
    h_sdus (heap e') !! seg_sdu seg = Some (s <| ref_count := ref_count s + 1 |>).
Proof.
  intros Hs Hseg Hmax Hlo Hhi. unfold NR_SDU_MAX in Hmax.
  destruct (resegment_spec e seg s pdu_size Hs Hseg Hlo Hhi)
    as (a & b & e' & E & Ha & Hb & H1 & H2 & H3 & H4 & _ & H5 & _ & H6 & _ & _ & _ & _ & ->).
  exists a, b. eexists. split; [exact E|]. split; [done|]. split; [apply Hb; lia|].
  repeat (split; [done|]). am_simpl. cbn [h_sdus]. apply lookup_insert_eq.
Qed.

Lemma am_resegment_partition_witness :
  exists a b e', resegment tx_example (mk_seg 2%positive 1%positive 3 0 true true) 4 = Ok (a, b, e')
    /\ seg_size a = 2 /\ seg_size b = 1.
Proof.
  destruct (am_resegment_partition tx_example (mk_seg 2%positive 1%positive 3 0 true true)
              (mk_sdu 5 0 [7; 8; 9] 3 (-1) 1 0) 4) as (a & b & e' & E & _ & _ & H1 & _ & _ & H2 & H3 & _).
  - reflexivity.
  - unfold seg_ok. cbn. lia.
  - unfold NR_SDU_MAX. cbn. lia.
  - cbn. lia.
  - cbn. lia.
  - exists a, b, e'. split; [exact E|]. injection E as <- <- <-. split; reflexivity.
Defined.
