(* ===== verification/RlcAmStatus.v ===== *)
(** Status reports of the acknowledged-mode entity: that they can always be generated,
    and that the size announced by the buffer status is the size generated. *)

From S2P Require Import Prelude.
From S2P Require Import RlcPdu.
From S2P Require Import RlcSdu.
From S2P Require Import RlcAm.
From S2P Require Import RlcAmRx.
From S2P Require Import RlcEntity.

(** ** Walking the receive list *)

(** A gap whose SNs are in range. *)
Definition missing_ok (e : nr_rlc_entity_am_t) (m : missing_data_t) : Prop :=
  sn_start m = -1 \/ (sn_range e (sn_start m) /\ sn_range e (sn_end m)).

Lemma sn_succ_range e sn : am_conf e -> sn_range e sn -> sn_range e (cmod (sn + 1) (sn_modulus e)).
Proof. intros [[[_ H]|[_ H]] _]; unfold sn_range; intros Hs; apply cmod_bound; lia. Qed.

Lemma sn_pred_range e sn : am_conf e -> sn_range e sn -> sn_range e (cmod (sn - 1 + sn_modulus e) (sn_modulus e)).
Proof. intros [[[_ H]|[_ H]] _]; unfold sn_range; intros Hs; apply cmod_bound; lia. Qed.

Lemma last_reportable_range e : rx_wf e -> sn_range e (last_reportable e).
Proof. intros (Hc & _ & Hh & _). by apply sn_pred_range. Qed.

Lemma set_end_ok e cur ret :
  rx_wf e -> sn_range e (pdu_sn cur) -> sn_range e (sn_start ret) ->
  missing_ok e (set_end_different_sdu e cur ret) /\
  (length (missing_next (set_end_different_sdu e cur ret)) <= length (missing_next ret))%nat.
Proof.
  intros Hwf Hcur Hs. pose proof (last_reportable_range e Hwf) as Hlast.
  pose proof (sn_pred_range e _ (proj1 Hwf) Hcur) as Hp.
  unfold set_end_different_sdu. destruct (pdu_is_first cur); destruct (out_of_report _ _);
    (split; [right; done|cbn; lia]).
Qed.

(** [next_missing] returns a suffix of what it was given. *)
Lemma next_missing_loop_ok e : rx_wf e -> forall l cur max_so last,
  Forall (fun p => sn_range e (pdu_sn p)) (cur :: l) ->
  missing_ok e (next_missing_loop e cur l max_so last) /\
  (length (missing_next (next_missing_loop e cur l max_so last)) <= length l)%nat.
Proof.
  intros Hwf. pose proof (last_reportable_range e Hwf) as Hlast. pose proof (proj1 Hwf) as Hc.
  assert (Hnone : missing_ok e no_missing) by by left.
  induction l as [|nxt l IH]; intros cur max_so last Hall; inversion_clear Hall as [|? ? Hcur Hl];
    cbn [next_missing_loop].
  - pose proof (sn_succ_range e _ Hc Hcur) as Hsucc.
    destruct (pdu_data cur).
    + destruct (_ || _); cbn [fst snd]; destruct (out_of_report _ _); (split; [first [done|right; done]|done]).
    + destruct (out_of_report _ _); (split; [first [done|right; done]|done]).
  - pose proof (sn_succ_range e _ Hc Hcur) as Hsucc. inversion_clear Hl as [|? ? Hn Hl'].
    assert (Hl : Forall (fun p => sn_range e (pdu_sn p)) (nxt :: l)) by by constructor.
    destruct (_ && (_ >=? _)).
    { destruct (IH nxt (if pdu_so cur + pdu_size cur - 1 >? max_so then pdu_so cur + pdu_size cur - 1 else max_so)
                  (last || pdu_is_last cur) Hl). split; [done|]. cbn [length]. lia. }
    destruct (_ && _).
    { destruct (IH nxt 0 false Hl). split; [done|]. cbn [length]. lia. }
    destruct (_ =? _).
    { destruct (out_of_report _ _); (split; [first [done|right; done]|cbn; lia]). }
    destruct (_ || _); destruct (out_of_report _ _); try (split; [done|cbn; lia]);
      by apply set_end_ok.
Qed.

Lemma next_missing_ok e cur l check :
  rx_wf e -> Forall (fun p => sn_range e (pdu_sn p)) (cur :: l) ->
  missing_ok e (next_missing e cur l check) /\
  (length (missing_next (next_missing e cur l check)) <= length l + (if check then 1 else 0))%nat.
Proof.
  intros Hwf Hl. unfold next_missing. destruct (check && _) eqn:Hch.
  - apply andb_prop in Hch as [-> _]. destruct (out_of_report _ _); [split; [by left|cbn; lia]|].
    inversion_clear Hl as [|? ? Hcur _]. destruct Hwf as (Hc & Hn & Hwf').
    destruct (set_end_ok e cur (mk_missing (rx_next e) 0 0 0 (cur :: l))) as [H1 H2]; try done.
    split; [done|]. cbn [missing_next length] in H2. lia.
  - destruct (next_missing_loop_ok e Hwf l cur 0 false Hl). split; [done|]. lia.
Qed.

(** The PDUs left are among those given. *)
Lemma next_missing_loop_suffix e : forall l cur max_so last p,
  p ∈ missing_next (next_missing_loop e cur l max_so last) -> p ∈ l.
Proof.
  assert (Hset : forall cur ret p, p ∈ missing_next (set_end_different_sdu e cur ret) -> p ∈ missing_next ret).
  { intros cur ret p. unfold set_end_different_sdu.
    destruct (pdu_is_first cur); destruct (out_of_report _ _); cbn; try done;
      intros Hp; by apply not_elem_of_nil in Hp. }
  induction l as [|nxt l IH]; intros cur max_so last p; cbn [next_missing_loop].
  - destruct (pdu_data cur); [destruct (_ || _)|]; destruct (out_of_report _ _); cbn; done.
  - destruct (_ && (_ >=? _)); [intros Hp; right; by eapply IH|].
    destruct (_ && _); [intros Hp; right; by eapply IH|].
    destruct (_ =? _); [destruct (out_of_report _ _); cbn; [intros Hp; by apply not_elem_of_nil in Hp|done]|].
    destruct (_ || _); destruct (out_of_report _ _); try (cbn; intros Hp; by apply not_elem_of_nil in Hp);
      intros Hp%Hset; done.
Qed.

Lemma next_missing_suffix e cur l check p : p ∈ missing_next (next_missing e cur l check) -> p ∈ cur :: l.
Proof.
  unfold next_missing. destruct (check && _).
  - destruct (out_of_report _ _); [cbn; intros Hp; by apply not_elem_of_nil in Hp|].
    unfold set_end_different_sdu. destruct (pdu_is_first cur); destruct (out_of_report _ _); cbn; try done;
      intros Hp; by apply not_elem_of_nil in Hp.
  - intros Hp. right. by eapply next_missing_loop_suffix.
Qed.

(** ** One block of NACKs *)

Lemma cur_range_count e m a c : 0 < c -> 1 <= (cur_range e m a c).1 <= c.
Proof.
  intros Hc. unfold cur_range. destruct (Z.gtb_spec c 255); destruct (_ =? c); cbn; lia.
Qed.

Lemma nack_size_pos e m : 2 <= nack_size e m.
Proof. unfold nack_size. destruct (_ =? 18), (_ =? sn_end m), (_ && _); cbn; lia. Qed.

(** The encoder stands at a byte boundary. *)
Definition at_byte (enc : nr_rlc_pdu_encoder_t) (size maxsize : Z) : Prop :=
  enc_ok enc /\ e_bit enc = 0 /\ e_byte enc = size /\ e_size enc = maxsize.

Ltac put_step := match goal with
  | H : enc_ok ?enc |- context [nr_rlc_pdu_encoder_put_bits ?enc ?v ?c] =>
    let enc' := fresh "enc" in let E := fresh "E" in let Hok := fresh "Hok" in
    let Hr := fresh "Hr" in let Hz := fresh "Hz" in
    destruct (put_bits_spec enc v c H) as (enc' & E & Hok & Hr & Hz & _); [lia|lia|];
    rewrite E; clear E; cbn [rbind]
  end.

Lemma put_nack_size e st n c size maxsize :
  am_conf e -> at_byte (st_encoder st) size maxsize -> size + nack_size e n <= maxsize ->
  exists st', put_nack e st n c = Ok st' /\ at_byte (st_encoder st') (size + nack_size e n) maxsize.
Proof.
  intros Hc (Hok & Hbit & Hby & Hsz) Hroom. unfold put_nack.
  set (enc0 := _ <| e_buffer := _ |>).
  assert (Hok0 : enc_ok enc0) by (unfold enc_ok, room in *; subst enc0; cbn; by rewrite buf_set_length).
  assert (Hr0 : room enc0 = 8 * (maxsize - size)) by (unfold room; subst enc0; cbn; lia).
  assert (Hz0 : e_size enc0 = maxsize) by done. clearbody enc0.
  destruct (get_e1_position e enc0) as [b1 b2].
  assert (Hdone : forall enc k, enc_ok enc -> e_size enc = maxsize -> room enc = 8 * (maxsize - size) - 8 * k ->
            at_byte enc (size + k) maxsize).
  { intros enc k H1 H2 H3. split; [done|]. unfold enc_ok, room in *. lia. }
  unfold nack_size in *. set (L := sn_field_length e) in *.
  assert (HL : L = 12 \/ L = 18) by (destruct Hc as [[[? _]|[? _]] _]; tauto).
  assert (Hr : (L = 12 /\ (L =? 18) = false) \/ (L = 18 /\ (L =? 18) = true))
    by (destruct HL as [-> | ->]; tauto).
  unfold nack_flags. destruct Hr as [[-> Eq]|[-> Eq]]; cbn [Z.eqb Pos.eqb Z.b2z] in *;
    destruct (_ =? sn_end n); destruct (_ && _); cbn [Z.eqb Pos.eqb negb rbind]; repeat put_step;
    (eexists; split; [reflexivity|]; cbn [st_encoder]; apply Hdone; [done|congruence|lia]).
Qed.

(** ** All blocks of one gap *)

Lemma generate_missing_size e m maxsize : am_conf e -> forall fuel st a c ln rc size,
  at_byte (st_encoder st) size maxsize -> 0 <= c <= Z.of_nat fuel ->
  exists ln' st' tr size' rc',
    generate_missing_loop fuel e m st a c ln = Ok (ln', tr, st') /\
    missing_size_loop fuel e m size maxsize a c rc = Ok (rc', size', tr) /\
    at_byte (st_encoder st') size' maxsize /\ size <= size' /\ rc <= rc' /\
    (0 < c -> tr = false -> rc < rc').
Proof.
  intros Hc. induction fuel as [|fuel IH]; intros st a c ln rc size Hat Hfuel;
    cbn [generate_missing_loop missing_size_loop]; (destruct (Z.eqb_spec c 0) as [->|Hne];
      [do 5 eexists; split; [done|]; split; [done|]; split; [done|]; lia|]); [lia|].
  pose proof (cur_range_count e m a c ltac:(lia)) as Hcount.
  destruct (cur_range e m a c) as [k n]. cbn [fst] in Hcount.
  destruct Hat as (Hok & Hbit & Hby & Hsz). rewrite Hby, Hsz.
  destruct (Z.gtb_spec (size + nack_size e n) maxsize) as [Hno|Hroom].
  { do 5 eexists. split; [done|]. split; [done|]. split; [done|]. split; [lia|]. split; [lia|done]. }
  destruct (put_nack_size e st n k size maxsize) as (st1 & E1 & Hat1); [done|done|done|].
  rewrite E1. cbn [rbind]. destruct (nack_flags n) as [? e3].
  set (size1 := if sn_start n =? sn_end n then _ else _).
  assert (size1 = size + nack_size e n) as ->.
  { subst size1. unfold nack_size.
    destruct Hc as [[[-> _]|[-> _]] _]; destruct (_ =? sn_end n); destruct (_ && _);
      cbn [Z.eqb Pos.eqb Z.b2z]; rewrite ?Z.quot_div_nonneg by lia; reflexivity || (cbn; lia). }
  destruct (IH st1 (cmod (a + k) (sn_modulus e)) (c - k)
              (if negb (e3 =? 0) then sn_start n + k - 1 else sn_start n) (rc + 1) _ Hat1)
    as (ln' & st' & tr & size' & rc' & G1 & G2 & G3 & G4 & G5 & _); [lia|].
  pose proof (nack_size_pos e n).
  do 5 eexists. split; [exact G1|]. split; [exact G2|]. split; [done|]. lia.
Qed.

Lemma sn_count_pos e m : am_conf e -> sn_range e (sn_start m) -> sn_range e (sn_end m) -> 0 < sn_count_of e m.
Proof.
  intros Hc H1 H2. unfold sn_count_of, sn_range in *.
  pose proof (cmod_bound (sn_end m - sn_start m + sn_modulus e) (sn_modulus e)). lia.
Qed.

(** ** The whole report *)

Lemma status_loops e maxsize : rx_wf e -> forall fuel cur check ln st nc size,
  at_byte (st_encoder st) size maxsize -> Forall (fun p => sn_range e (pdu_sn p)) cur ->
  check = (nc =? 0) -> 0 <= nc -> (length cur + (if check then 1 else 0) <= fuel)%nat ->
  exists ln' st' size',
    generate_status_loop fuel e cur check ln st = Ok (ln', st') /\
    status_size_loop fuel e cur nc size maxsize = Ok size' /\
    at_byte (st_encoder st') size' maxsize /\ size <= size'.
Proof.
  intros Hwf. pose proof (proj1 Hwf) as Hc.
  induction fuel as [|fuel IH]; intros cur check ln st nc size Hat Hcur Hch Hnc Hfuel;
    (destruct cur as [|p l]; [do 3 eexists; split; [done|]; split; [done|]; split; [done|lia]|]); [cbn in Hfuel; lia|].
  cbn [generate_status_loop status_size_loop]. rewrite <- Hch.
  destruct (next_missing_ok e p l check Hwf Hcur) as [Hm Hlen].
  pose proof (next_missing_suffix e p l check) as Hsuf.
  set (m := next_missing e p l check) in *.
  destruct (Z.eqb_spec (sn_start m) (-1)) as [E|E];
    [do 3 eexists; split; [done|]; split; [done|]; split; [done|lia]|].
  destruct Hm as [?|[Hs1 Hs2]]; [done|]. pose proof (sn_count_pos e m Hc Hs1 Hs2) as Hpos.
  destruct (generate_missing_size e m maxsize Hc (Z.to_nat (sn_count_of e m)) st (sn_start m)
              (sn_count_of e m) (-1) 0 size Hat) as (ln1 & st1 & tr & size1 & rc & G1 & G2 & Hat1 & Hge & G4 & G5); [lia|].
  unfold generate_missing, missing_size. rewrite G1, G2. cbn [rbind].
  set (st2 := match so_end_address st1 with Some _ => _ | None => _ end).
  assert (Hat2 : at_byte (st_encoder st2) size1 maxsize).
  { subst st2. destruct (so_end_address st1); [|done]. destruct tr; [|done].
    destruct Hat1 as (Hok1 & ? & ? & ?). split; [|done]. unfold enc_ok, room in *. cbn.
    rewrite !buf_set_length. done. }
  destruct tr.
  - change (missing_next (m <| missing_next := [] |>)) with (@nil nr_rlc_pdu_t).
    do 3 eexists. split; [by destruct fuel|]. split; [by destruct fuel|]. split; [done|lia].
  - specialize (G5 Hpos eq_refl). destruct (IH (missing_next m) false (if ln1 =? -1 then ln else ln1) st2
      (nc + rc) size1 Hat2) as (ln' & st' & size' & F1 & F2 & F3 & F4); [| |lia| |
      exists ln', st', size'; split; [exact F1|]; split; [exact F2|]; split; [done|lia]].
    + rewrite list.Forall_forall in *. intros q Hq. by apply Hcur, Hsuf.
    + symmetry. apply Z.eqb_neq. lia.
    + rewrite Nat.add_0_r. destruct check; cbn [length] in *; lia.
Qed.

(** Status reports are generated without fault, for every buffer, and have the size that
    the buffer status announces. *)
Lemma generate_status_ok e buffer :
  rx_wf e ->
  exists buffer' n, generate_status e buffer
      = Ok (if n =? 0 then e else e <| status_triggered := false |> <| t_status_prohibit_start := t_current e |>,
            buffer', n) /\
    compute_status_size e (Z.of_nat (length buffer)) = Ok n /\
    0 <= n <= Z.of_nat (length buffer) /\ length buffer' = length buffer /\
    (n < 3 <-> Z.of_nat (length buffer) < 3) /\ (n < 3 -> n = 0 /\ buffer' = buffer).
Proof.
  intros Hwf. unfold generate_status, compute_status_size. set (size := Z.of_nat (length buffer)).
  destruct (Z.ltb_spec size 3) as [Hs|Hs].
  { exists buffer, 0. cbn. split; [done|]. split; [done|]. repeat split; lia || done. }
  pose proof (enc_ok_init buffer) as Hi. fold size in Hi.
  assert (Hroom : room (nr_rlc_pdu_encoder_init buffer size) = 8 * size)
    by (unfold room; cbn [nr_rlc_pdu_encoder_init e_size e_byte e_bit]; lia).
  assert (Hsz : e_size (nr_rlc_pdu_encoder_init buffer size) = size) by done.
  destruct (put_bits_spec (nr_rlc_pdu_encoder_init buffer size) 0 (8 * 3) Hi)
    as (enc & E & Hok & Hr & Hz & _); [lia|lia|]. rewrite E. cbn [rbind].
  set (st := mk_status enc _ _ _).
  destruct (status_loops e size Hwf (status_fuel e) (rx_list e) true
              (cmod (rx_next e - 1 + sn_modulus e) (sn_modulus e)) st 0 3)
    as (ln & st' & n & G1 & G2 & (Hok' & Hbit' & Hby' & Hsz') & Hn3).
  - split; [done|]. unfold enc_ok, room in *. cbn [st_encoder st]. lia.
  - destruct Hwf as (_ & _ & _ & _ & _ & (Hall & _ & _) & _). eapply List.Forall_impl; [|exact Hall].
    intros p Hp. apply Hp.
  - done.
  - lia.
  - unfold status_fuel. lia.
  - rewrite G1, G2. cbn [rbind]. rewrite Hby'. do 2 eexists.
    split; [replace (n =? 0) with false by (symmetry; apply Z.eqb_neq; lia); reflexivity|].
    split; [done|]. unfold enc_ok, room in Hok'.
    assert (Hlen : length (e_buffer (st_encoder st')) = length buffer) by lia.
    split; [lia|]. split; [|split; [lia|lia]].
    unfold put_ack_sn. destruct (_ =? 12); by rewrite !buf_set_length.
Qed.

(** ** Property *)

(** C8. Status reports have the size that was announced.  When a status report is due, the
    size that [nr_rlc_entity_am_buffer_status] reports for a grant of so many bytes is
    exactly the size of the PDU that a request with a buffer of that size generates: the
    two walks over the receive list agree on every NACK, also when the report has to be
    truncated; both loops end and neither fails. *)
Theorem am_status_as_announced (e : nr_rlc_entity_am_t) (buffer : list Z) :
  rx_wf e -> status_to_report e = true -> 3 <= Z.of_nat (length buffer) ->
  exists e' buffer' s, nr_rlc_entity_am_buffer_status e (Z.of_nat (length buffer)) = Ok s /\
    nr_rlc_entity_am_generate_pdu e buffer = Ok (e', buffer', status_size s) /\
    3 <= status_size s <= Z.of_nat (length buffer) /\ status_triggered e' = false.
Proof.
  intros Hwf Hst Hlen. destruct (generate_status_ok e buffer Hwf) as (b' & n & E & Hs & Hn & _ & Hz & _).
  assert (Hne : 3 <= n) by (apply Z.nlt_ge; intros H; apply Hz in H; lia).
  unfold nr_rlc_entity_am_buffer_status, nr_rlc_entity_am_generate_pdu. rewrite Hst, Hs, E. cbn [rbind].
  replace (n =? 0) with false by (symmetry; apply Z.eqb_neq; lia). cbn [negb].
  do 3 eexists. split; [reflexivity|]. split; [reflexivity|]. cbn [status_size]. split; [lia|done].
Qed.

Lemma am_status_as_announced_witness :
  let e := rx_example <| status_triggered := true |> in
  exists e' buffer' s, nr_rlc_entity_am_buffer_status e 10 = Ok s /\
    nr_rlc_entity_am_generate_pdu e (repeat 0 10) = Ok (e', buffer', status_size s).
Proof.
  intros e. destruct (am_status_as_announced e (repeat 0 10)) as (e' & b' & s & E1 & E2 & _).
  - exact rx_example_wf.
  - reflexivity.
  - cbn. lia.
  - exists e', b', s. split; [exact E1|exact E2].
Defined.
