(* ===== verification/RlcAmSend.v ===== *)
(** The transmission invariant of the acknowledged-mode entity, and that every operation
    of the transmitting side keeps it.

    [tx_wf] joins three concerns: the lists own the heap of SDUs ([segs_ok]), the
    sequence numbers are consistent with the transmit window and the lists are sorted by
    them ([order_ok]), and the redundant fields (end pointers, sizes, buffer status)
    agree with the lists. *)

From S2P Require Import Prelude.
From S2P Require Import RlcPdu.
From S2P Require Import RlcSdu.
From S2P Require Import RlcSegs.
From S2P Require Import RlcAm.
From S2P Require Import RlcAmRx.
From S2P Require Import RlcEntity.
From S2P Require Import RlcAmTx.
From Stdlib Require Import Sorting.Sorted.

(** ** Sequence numbers *)

(** The SN of the SDU at an address; -1 when it has none. *)
Definition addr_sn (h : sdu_heap) (a : addr) : Z := from_option sdu_sn (-1) (h_sdus h !! a).

(** Distance of an SN from the lower edge of the transmit window, as [modulus_tx]. *)
Definition mdist (M ack a : Z) : Z := let r := a - ack in if r <? 0 then r + M else r.

(** The order of the wait and retransmit lists: by SN, then by offset. *)
Definition seg_lt (M ack : Z) (f : addr -> Z) (x y : nr_rlc_sdu_segment_t) : Prop :=
  mdist M ack (f (seg_sdu x)) < mdist M ack (f (seg_sdu y)) \/
  f (seg_sdu x) = f (seg_sdu y) /\ seg_so x < seg_so y.

(** A whole SDU that has no SN yet. *)
Definition unsent (f : addr -> Z) (x : nr_rlc_sdu_segment_t) : Prop :=
  f (seg_sdu x) = -1 /\ seg_is_first x = true /\ seg_is_last x = true.

(** The transmit queue: whole SDUs without an SN, except that the head may be the rest
    of an SDU that was sent in part, with the SN that is in use. *)
Definition queue_ok (f : addr -> Z) (next : Z) (l : list nr_rlc_sdu_segment_t) : Prop :=
  match l with
  | [] => True
  | x :: tl =>
    (unsent f x \/ (f (seg_sdu x) = next /\ seg_is_first x = false /\ seg_is_last x = true)) /\
    Forall (unsent f) tl
  end.

(** A segment that was sent: its SN is behind TX_Next, or it belongs to the SDU whose
    rest is at the head of the queue. *)
Definition sent_ok (M ack next : Z) (f : addr -> Z) (tx : list nr_rlc_sdu_segment_t)
  (x : nr_rlc_sdu_segment_t) : Prop :=
  0 <= f (seg_sdu x) < M /\
  (mdist M ack (f (seg_sdu x)) < mdist M ack next \/
   (f (seg_sdu x) = next /\ exists t tl, tx = t :: tl /\ seg_sdu t = seg_sdu x)).

(** Two SDUs never share an SN. *)
Definition unique_sns (f : addr -> Z) : Prop :=
  forall a b, f a = f b -> f a <> -1 -> a = b.

Record order_ok (M W ack next : Z) (f : addr -> Z) (tx wait retx : list nr_rlc_sdu_segment_t) : Prop := {
  ord_queue : queue_ok f next tx;
  ord_sent : forall x, x ∈ wait ++ retx -> sent_ok M ack next f tx x;
  ord_unique : unique_sns f;
  ord_wait : StronglySorted (seg_lt M ack f) wait;
  ord_retx : StronglySorted (seg_lt M ack f) retx
}.

(** ** The invariant *)

(** The size of the PDU of a segment, for a given SN length. *)
Definition pdu_bytes (sn_length : Z) (x : nr_rlc_sdu_segment_t) : Z :=
  (if sn_length =? 18 then 3 else 2) + (if seg_is_first x then 0 else 2) + seg_size x.

Definition all_segs (e : nr_rlc_entity_am_t) : list nr_rlc_sdu_segment_t :=
  tx_list e ++ wait_list e ++ retransmit_list e.

Record tx_wf (e : nr_rlc_entity_am_t) : Prop := mk_tx_wf {
  tx_conf : am_conf e;
  tx_ack_range : sn_range e (tx_next_ack e);
  tx_next_range : sn_range e (tx_next e);
  tx_window : modulus_tx e (tx_next e) <= window_size e;
  tx_segs : segs_ok (heap e) (all_segs e);
  tx_order : order_ok (sn_modulus e) (window_size e) (tx_next_ack e) (tx_next e) (addr_sn (heap e))
               (tx_list e) (wait_list e) (retransmit_list e);
  tx_end_ok : tx_end e = seg_addr <$> list.last (tx_list e);
  wait_end_ok : wait_end e = seg_addr <$> list.last (wait_list e);
  tx_bytes : tx_size e = heap_bytes (heap e);
  tx_status : bs_tx_size (bstatus e) = sumZ (pdu_bytes (sn_field_length e)) (tx_list e);
  retx_status : bs_retx_size (bstatus e) = sumZ (pdu_bytes (sn_field_length e)) (retransmit_list e)
}.

(** ** The order *)

Lemma pdu_bytes_min n x : 2 + seg_size x <= pdu_bytes n x.
Proof. unfold pdu_bytes. destruct (n =? 18), (seg_is_first x); lia. Qed.

Lemma pdu_bytes_eq e x : compute_pdu_header_size e x + seg_size x = pdu_bytes (sn_field_length e) x.
Proof. unfold compute_pdu_header_size, pdu_bytes. destruct (_ =? 18), (seg_is_first x); cbn; lia. Qed.

Lemma modulus_tx_mdist e a : modulus_tx e a = mdist (sn_modulus e) (tx_next_ack e) a.
Proof. done. Qed.

Lemma mdist_bound M ack a : 0 <= ack < M -> 0 <= a < M -> 0 <= mdist M ack a < M.
Proof. intros. unfold mdist. destruct (Z.ltb_spec (a - ack) 0); lia. Qed.

Lemma mdist_inj M ack a b :
  0 <= ack < M -> 0 <= a < M -> 0 <= b < M -> mdist M ack a = mdist M ack b -> a = b.
Proof.
  intros Hk Ha Hb. unfold mdist. destruct (Z.ltb_spec (a - ack) 0), (Z.ltb_spec (b - ack) 0); lia.
Qed.

Lemma mdist_succ M ack a :
  0 <= ack < M -> 0 <= a < M -> mdist M ack a + 1 < M ->
  0 <= cmod (a + 1) M < M /\ mdist M ack (cmod (a + 1) M) = mdist M ack a + 1.
Proof.
  intros Hk Ha Hd. split; [apply cmod_bound; lia|]. destruct (Z.eq_dec (a + 1) M) as [E|E].
  - assert (cmod (a + 1) M = 0) as -> by (rewrite E; unfold cmod; apply Z.rem_same; lia).
    unfold mdist in *. destruct (Z.ltb_spec (0 - ack) 0), (Z.ltb_spec (a - ack) 0); lia.
  - rewrite cmod_small by lia. unfold mdist in *.
    destruct (Z.ltb_spec (a + 1 - ack) 0), (Z.ltb_spec (a - ack) 0); lia.
Qed.

Lemma seg_lt_trans M ack f x y z : seg_lt M ack f x y -> seg_lt M ack f y z -> seg_lt M ack f x z.
Proof.
  unfold seg_lt. intros [H1|[E1 H1]] [H2|[E2 H2]]; [left; lia|left|left|right].
  - by rewrite <- E2.
  - by rewrite E1.
  - rewrite E1. split; [done|lia].
Qed.

Lemma seg_lt_total M ack f x y :
  0 <= ack < M -> 0 <= f (seg_sdu x) < M -> 0 <= f (seg_sdu y) < M ->
  (f (seg_sdu x) = f (seg_sdu y) -> seg_so x <> seg_so y) ->
  ~ seg_lt M ack f x y -> seg_lt M ack f y x.
Proof.
  intros Hk Hx Hy Hne Hn. unfold seg_lt in *.
  destruct (Z.lt_trichotomy (mdist M ack (f (seg_sdu x))) (mdist M ack (f (seg_sdu y)))) as [H|[H|H]];
    [tauto| |by left].
  apply mdist_inj in H; [|done|done|done]. specialize (Hne H). right. split; [done|lia].
Qed.

Lemma seg_lt_ext M ack f g x y :
  f (seg_sdu x) = g (seg_sdu x) -> f (seg_sdu y) = g (seg_sdu y) ->
  seg_lt M ack f x y -> seg_lt M ack g x y.
Proof. unfold seg_lt. by intros -> ->. Qed.

Lemma sorted_ext M ack f g l :
  (forall x, x ∈ l -> f (seg_sdu x) = g (seg_sdu x)) ->
  StronglySorted (seg_lt M ack f) l -> StronglySorted (seg_lt M ack g) l.
Proof.
  intros Hfg. induction 1 as [|x l Hs IH Hall]; constructor.
  - apply IH. intros y Hy. apply Hfg. by right.
  - rewrite !list.Forall_forall in *. intros y Hy.
    eapply seg_lt_ext; [apply Hfg; left|apply Hfg; by right|by apply Hall].
Qed.

(** ** Insertion into a sorted list *)

Definition stop_at (M ack : Z) (f : addr -> Z) (x y : nr_rlc_sdu_segment_t) : bool :=
  (mdist M ack (f (seg_sdu y)) - mdist M ack (f (seg_sdu x)) >? 0)
  || ((f (seg_sdu y) =? f (seg_sdu x)) && (seg_so y >? seg_so x)).

Lemma stop_at_lt M ack f x y : stop_at M ack f x y = true <-> seg_lt M ack f x y.
Proof.
  unfold stop_at, seg_lt. rewrite orb_true_iff, andb_true_iff, Z.eqb_eq, !Z.gtb_lt.
  split; (intros [H|[H1 H2]]; [left; lia|right; split; [done|lia]]).
Qed.

Lemma addr_sn_get h a s : h_sdus h !! a = Some s -> addr_sn h a = sdu_sn s.
Proof. unfold addr_sn. by intros ->. Qed.

Lemma list_add_spec e h l x :
  (forall y, y ∈ x :: l -> is_Some (h_sdus h !! seg_sdu y)) ->
  nr_rlc_sdu_segment_list_add (sn_compare_tx e) h l x
  = Ok (insert_before (stop_at (sn_modulus e) (tx_next_ack e) (addr_sn h) x) x l).
Proof.
  induction l as [|y l IH]; intros Hl; [done|].
  destruct (Hl y) as [sy Hy]; [right; left|]. destruct (Hl x) as [sx Hx]; [left|].
  cbn [nr_rlc_sdu_segment_list_add insert_before]. unfold get_sdu. rewrite Hx, Hy. cbn [rbind].
  unfold stop_at at 1. rewrite (addr_sn_get h _ sx Hx), (addr_sn_get h _ sy Hy).
  change (sn_compare_tx e (sdu_sn sy) (sdu_sn sx))
    with (mdist (sn_modulus e) (tx_next_ack e) (sdu_sn sy) - mdist (sn_modulus e) (tx_next_ack e) (sdu_sn sx)).
  destruct (_ || _); [done|]. rewrite IH; [done|].
  intros z [->|Hz]%elem_of_cons; apply Hl; [left|right; by right].
Qed.

(** Segments that can be compared with [x]: an SN in range and another key. *)
Definition comparable (M : Z) (f : addr -> Z) (x y : nr_rlc_sdu_segment_t) : Prop :=
  0 <= f (seg_sdu y) < M /\ (f (seg_sdu y) = f (seg_sdu x) -> seg_so y <> seg_so x).

Lemma insert_sorted M ack f x l :
  0 <= ack < M -> 0 <= f (seg_sdu x) < M -> (forall y, y ∈ l -> comparable M f x y) ->
  StronglySorted (seg_lt M ack f) l ->
  StronglySorted (seg_lt M ack f) (insert_before (stop_at M ack f x) x l).
Proof.
  intros Hk Hx Hl. apply insert_before_sorted.
  - intros y z H1 H2%stop_at_lt. by eapply seg_lt_trans.
  - intros y. apply stop_at_lt.
  - intros y Hy Hn. destruct (Hl y Hy) as [Hr Hne]. apply seg_lt_total; [done|done|done|intros E E'; by apply Hne|].
    rewrite <- stop_at_lt. congruence.
Qed.

(** [put_in_wait_list] inserts at the right place and keeps the end pointer right. *)
Lemma put_in_wait_list_spec e x :
  am_conf e -> sn_range e (tx_next_ack e) ->
  (forall y, y ∈ x :: wait_list e -> is_Some (h_sdus (heap e) !! seg_sdu y)) ->
  sn_range e (addr_sn (heap e) (seg_sdu x)) ->
  (forall y, y ∈ wait_list e -> comparable (sn_modulus e) (addr_sn (heap e)) x y) ->
  NoDup (seg_addr <$> x :: all_segs e) ->
  wait_end e = seg_addr <$> list.last (wait_list e) ->
  StronglySorted (seg_lt (sn_modulus e) (tx_next_ack e) (addr_sn (heap e))) (wait_list e) ->
  exists l, put_in_wait_list e x
            = Ok (e <| wait_list := l |> <| wait_end := seg_addr <$> list.last l |>) /\
    l ≡ₚ x :: wait_list e /\
    StronglySorted (seg_lt (sn_modulus e) (tx_next_ack e) (addr_sn (heap e))) l.
Proof.
  intros Hc Hk Hlive Hx Hcmp Hnd Hend Hs. unfold put_in_wait_list. rewrite Hend.
  set (R := seg_lt _ _ _) in *. destruct (Hlive x) as [sx Ex]; [left|].
  destruct (list.last (wait_list e)) as [z|] eqn:El.
  2: { apply last_None in El. rewrite El. exists [x]. split; [reflexivity|]. split; [done|]. repeat constructor. }
  assert (Hz : z ∈ wait_list e) by by apply last_Some_elem_of.
  destruct (Hlive z) as [sz Ez]; [by right|]. destruct (Hcmp z Hz) as [Hzr Hzne].
  assert (Ed : deref_segment e x (seg_addr z) = Ok z).
  { unfold deref_segment. rewrite fmap_cons, list.NoDup_cons in Hnd. destruct Hnd as [Hx' Hnd].
    assert (Hin : z ∈ all_segs e) by (unfold all_segs; rewrite !elem_of_app; tauto).
    destruct (list_find _ _) as [[i y]|] eqn:Ef.
    - apply list_find_Some in Ef as (Hi & Hy & _). apply list_elem_of_lookup_2 in Hi.
      apply elem_of_cons in Hi as [->|Hi].
      + destruct Hx'. rewrite Hy. by apply list_elem_of_fmap_2.
      + f_equal. by apply (NoDup_fmap_elem seg_addr (all_segs e)).
    - apply list_find_None in Ef. rewrite list.Forall_forall in Ef. destruct (Ef z); [|done].
      by right. }
  cbn [fmap option_fmap option_map]. unfold get_sdu at 1. rewrite Ex. cbn [rbind]. rewrite Ed. cbn [rbind].
  unfold get_sdu. rewrite Ez. cbn [rbind].
  assert (Hb : (sn_compare_tx e (sdu_sn sx) (sdu_sn sz) >? 0)
               || ((sn_compare_tx e (sdu_sn sx) (sdu_sn sz) =? 0) && (seg_so x >? seg_so z))
               = stop_at (sn_modulus e) (tx_next_ack e) (addr_sn (heap e)) z x).
  { unfold stop_at. rewrite (addr_sn_get _ _ _ Ex), (addr_sn_get _ _ _ Ez) in *.
    unfold sn_compare_tx. rewrite !modulus_tx_mdist. f_equal. f_equal.
    destruct (Z.eqb_spec (sdu_sn sx) (sdu_sn sz)) as [->|Hne]; [apply Z.eqb_eq; lia|].
    apply Z.eqb_neq. intros E. apply Hne. eapply mdist_inj; [exact Hk|done|done|lia]. }
  rewrite Hb. destruct (stop_at _ _ _ z x) eqn:Hst.
  - apply stop_at_lt in Hst. rewrite append_spec; [|..].
    + cbn [rbind]. exists (wait_list e ++ [x]). rewrite last_snoc. split; [done|].
      split; [by rewrite Permutation_app_comm|]. apply ssorted_app. split; [done|].
      split; [repeat constructor|]. rewrite list.Forall_forall. intros y Hy. constructor; [|done].
      apply list_elem_of_split in Hy as (l1 & l2 & Hl). destruct l2 as [|w l2].
      * rewrite Hl, last_snoc in El. by injection El as ->.
      * apply (seg_lt_trans _ _ _ _ z); [|done]. rewrite Hl in Hs, El.
        apply ssorted_app in Hs as (_ & Hs & _). inversion_clear Hs as [|? ? _ Hall].
        rewrite list.Forall_forall in Hall. apply Hall. rewrite last_app_cons, last_cons_cons in El.
        by apply last_Some_elem_of.
    + rewrite fmap_cons, list.NoDup_cons in Hnd. destruct Hnd as [_ Hnd]. unfold all_segs in Hnd.
      rewrite !fmap_app in Hnd. apply list.NoDup_app in Hnd as (_ & _ & Hnd).
      by apply list.NoDup_app in Hnd as (? & _ & _).
    + by rewrite El.
  - rewrite list_add_spec by done. cbn [rbind].
    set (st := stop_at (sn_modulus e) (tx_next_ack e) (addr_sn (heap e)) x).
    exists (insert_before st x (wait_list e)).
    assert (Hxz : st z = true).
    { apply stop_at_lt. apply seg_lt_total; [done|done|done|intros E E'; by apply Hzne|].
      rewrite <- stop_at_lt. congruence. }
    assert (Hlast : list.last (insert_before st x (wait_list e)) = Some z).
    { destruct (insert_before_split st x (wait_list e)) as (l1 & l2 & Hl & -> & Hf & _).
      destruct l2 as [|y l2].
      - rewrite app_nil_r in Hl. rewrite <- Hl, list.Forall_forall in Hf. rewrite (Hf z Hz) in Hxz. done.
      - rewrite last_app_cons, last_cons_cons. by rewrite Hl, last_app_cons in El. }
    rewrite Hlast. split; [|split; [apply insert_before_perm|by apply insert_sorted]].
    f_equal. destruct (insert_before st x (wait_list e)) as [|y [|w l]] eqn:Ei.
    + done.
    + injection Hlast as ->. done.
    + destruct e; cbn in *. by rewrite Hend.
Qed.

(** ** Segments and their SDUs *)

Lemma refs_elem a l : 0 < refs a l -> exists x, x ∈ l /\ seg_sdu x = a.
Proof.
  induction l as [|x l IH]; [cbn; lia|]. rewrite refs_cons. destruct (decide (seg_sdu x = a)) as [E|E].
  - intros _. exists x. split; [left|done].
  - intros H. destruct IH as (y & Hy & Ey); [lia|]. exists y. split; [by right|done].
Qed.

(** An SDU with an SN has a segment somewhere. *)
Lemma sn_owner h l a : segs_ok h l -> addr_sn h a <> -1 -> exists x, x ∈ l /\ seg_sdu x = a.
Proof.
  intros Hok Ha. unfold addr_sn in Ha. destruct (h_sdus h !! a) as [s|] eqn:E; [|done].
  apply refs_elem. by destruct (sdus_owned h l Hok a s E) as (_ & _ & ? & _).
Qed.

Lemma segs_disjoint_head h x l y :
  segs_ok h (x :: l) -> y ∈ l -> seg_sdu y = seg_sdu x ->
  disjoint_segs x y /\ 0 < seg_size x /\ 0 < seg_size y /\ 0 <= seg_so y.
Proof.
  intros Hok Hy E. pose proof (segs_nodup _ _ Hok) as Hnd. rewrite fmap_cons, list.NoDup_cons in Hnd.
  destruct (segs_live _ _ Hok x) as (s & _ & Hx); [left|].
  destruct (segs_live _ _ Hok y) as (t & _ & Hy'); [by right|].
  split; [|unfold seg_ok in *; lia]. apply (segs_disjoint _ _ Hok); [left|by right| |done].
  intros E'. apply (proj1 Hnd). rewrite E'. by apply list_elem_of_fmap_2.
Qed.

(** A segment that is a whole SDU is the only one of that SDU. *)
Lemma whole_alone h x l y :
  segs_ok h (x :: l) -> seg_is_first x = true -> seg_is_last x = true -> y ∈ l -> seg_sdu y <> seg_sdu x.
Proof.
  intros Hok Hf Hl Hy E. destruct (segs_disjoint_head h x l y Hok Hy E) as (Hd & Hx & Hy' & Hso).
  destruct (segs_live _ _ Hok x) as (s & Hs & (_ & _ & _ & H1 & H2)); [left|].
  destruct (segs_live _ _ Hok y) as (t & Ht & (_ & _ & Hin & _)); [by right|].
  rewrite E, Hs in Ht. injection Ht as <-. apply H1 in Hf. apply H2 in Hl. unfold disjoint_segs in Hd. lia.
Qed.

(** Two segments of one SDU have different offsets. *)
Lemma other_offset h x l y :
  segs_ok h (x :: l) -> y ∈ l -> seg_sdu y = seg_sdu x -> seg_so y <> seg_so x.
Proof.
  intros Hok Hy E. destruct (segs_disjoint_head h x l y Hok Hy E) as (Hd & Hx & Hy' & _).
  unfold disjoint_segs in Hd. lia.
Qed.

(** ** Changes of the order *)

Section Order.
Context (M W ack next : Z) (Hack : 0 <= ack < M) (Hnext : 0 <= next < M).

Lemma order_ext f g tx wait retx :
  (forall a, f a = g a) -> order_ok M W ack next f tx wait retx -> order_ok M W ack next g tx wait retx.
Proof.
  intros Hfg [H1 H2 H3 H4 H5]. split.
  - destruct tx as [|x tx]; [done|]. cbn in *. rewrite <- Hfg. destruct H1 as [Hx Hall]. split.
    + unfold unsent in *. by rewrite <- Hfg.
    + eapply List.Forall_impl; [|exact Hall]. unfold unsent. intros y. by rewrite <- Hfg.
  - intros x Hx. specialize (H2 x Hx). unfold sent_ok in *. by rewrite <- Hfg.
  - intros a b. rewrite <- !Hfg. apply H3.
  - eapply sorted_ext; [|exact H4]. auto.
  - eapply sorted_ext; [|exact H5]. auto.
Qed.

(** A sent segment can be compared with the other segments that were sent. *)
Lemma sent_comparable h l tx wait retx x y :
  order_ok M W ack next (addr_sn h) tx wait retx -> segs_ok h (x :: l) -> y ∈ l ->
  x ∈ wait ++ retx -> y ∈ wait ++ retx -> comparable M (addr_sn h) x y.
Proof.
  intros Hord Hok Hy Hx' Hy'. destruct (ord_sent _ _ _ _ _ _ _ _ Hord y Hy') as [Hr _].
  split; [done|]. intros E. eapply other_offset; [exact Hok|done|].
  apply (ord_unique _ _ _ _ _ _ _ _ Hord); [done|lia].
Qed.

(** Assigning TX_Next to the SDU of the head of the queue. *)
Definition assign (f : addr -> Z) (b : addr) (a : addr) : Z := if decide (a = b) then next else f a.

Lemma assign_facts h x tx wait retx :
  segs_ok h (x :: tx ++ wait ++ retx) -> order_ok M W ack next (addr_sn h) (x :: tx) wait retx ->
  let f' := assign (addr_sn h) (seg_sdu x) in
  (forall y, y ∈ wait ++ retx -> f' (seg_sdu y) = addr_sn h (seg_sdu y)) /\
  unique_sns f' /\ (forall y, y ∈ wait -> comparable M f' x y) /\ Forall (unsent f') tx.
Proof.
  intros Hok Hord f'. destruct Hord as [[Hx Htx] H2 H3 H4 H5].
  assert (Hsame : forall y, y ∈ wait ++ retx -> f' (seg_sdu y) = addr_sn h (seg_sdu y)).
  { intros y Hy. subst f'. unfold assign. destruct (decide _) as [E|E]; [|done].
    destruct Hx as [(Hx & Hf & Hl)|(Hx & _ & _)]; [|by rewrite E].
    exfalso. eapply (whole_alone h x _ y Hok Hf Hl); [|done]. rewrite elem_of_app. by right. }
  assert (Hfree : forall b, addr_sn h b = next -> b = seg_sdu x).
  { intros b Hb. destruct (sn_owner h _ b Hok) as (y & Hy & <-); [lia|].
    apply elem_of_cons in Hy as [->|Hy]; [done|]. apply elem_of_app in Hy as [Hy|Hy].
    - rewrite list.Forall_forall in Htx. destruct (Htx y Hy) as [E _]. lia.
    - destruct (H2 y Hy) as [_ [Hd|(_ & t & tl & [= <- <-] & E)]]; [rewrite Hb in Hd; lia|done]. }
  assert (Huniq : unique_sns f').
  { intros a b. subst f'. unfold assign. destruct (decide (a = _)) as [->|Ha], (decide (b = _)) as [->|Hb].
    - done.
    - intros E _. symmetry. apply Hfree. done.
    - intros E _. by apply Hfree.
    - apply H3. }
  split; [done|]. split; [done|]. split.
  - intros y Hy. assert (Hy' : y ∈ wait ++ retx) by (rewrite elem_of_app; by left).
    split; [rewrite Hsame by done; by apply H2|]. intros E.
    eapply other_offset; [exact Hok|rewrite !elem_of_app; tauto|].
    apply Huniq; [done|]. rewrite Hsame by done. destruct (H2 y Hy') as [? _]. lia.
  - rewrite list.Forall_forall in *. intros y Hy. destruct (Htx y Hy) as (E & Hf & Hl).
    split; [|done]. subst f'. unfold assign. rewrite decide_False; [done|].
    apply list_elem_of_split in Hy as (l1 & l2 & ->).
    assert (Hp : x :: (l1 ++ y :: l2) ++ wait ++ retx ≡ₚ y :: x :: l1 ++ l2 ++ wait ++ retx).
    { rewrite <- !app_assoc. cbn. rewrite <- Permutation_middle. by rewrite perm_swap. }
    rewrite Hp in Hok. intros E'. by apply (whole_alone h y _ x Hok Hf Hl); [left|].
Qed.

(** The last bytes of an SDU are sent: TX_Next moves on. *)
Lemma order_send_whole h x tx wait retx wait' :
  segs_ok h (x :: tx ++ wait ++ retx) -> order_ok M W ack next (addr_sn h) (x :: tx) wait retx ->
  mdist M ack next + 1 < M ->
  let f' := assign (addr_sn h) (seg_sdu x) in
  wait' ≡ₚ x :: wait -> StronglySorted (seg_lt M ack f') wait' ->
  order_ok M W ack (cmod (next + 1) M) f' tx wait' retx.
Proof.
  intros Hok Hord Hd f' Hp Hs. destruct (assign_facts h x tx wait retx Hok Hord) as (Hsame & Hu & _ & Htx).
  fold f' in Hsame, Hu, Htx. destruct Hord as [_ H2 _ _ H5].
  destruct (mdist_succ M ack next Hack Hnext Hd) as [_ Hn]. split; try done.
  - destruct tx as [|y tx]; [done|]. inversion_clear Htx as [|? ? H6 H7]. split; [by left|done].
  - intros y. rewrite Hp. cbn [app]. intros [->|Hy]%elem_of_cons.
    + unfold sent_ok. subst f'. unfold assign. rewrite decide_True by done. split; [done|]. left. lia.
    + destruct (H2 y Hy) as [Hr Hy2]. unfold sent_ok. rewrite Hsame by done. split; [done|]. left.
      destruct Hy2 as [?|[E _]]; [lia|]. rewrite E. lia.
  - eapply sorted_ext; [|exact H5]. intros y Hy. symmetry. apply Hsame. rewrite elem_of_app. by right.
Qed.

(** A first part of an SDU is sent: the rest [b] stays at the head of the queue. *)
Lemma order_send_cut h x a b tx wait retx wait' :
  segs_ok h (x :: tx ++ wait ++ retx) -> order_ok M W ack next (addr_sn h) (x :: tx) wait retx ->
  seg_sdu a = seg_sdu x -> seg_sdu b = seg_sdu x -> seg_is_first b = false ->
  seg_is_last b = seg_is_last x ->
  let f' := assign (addr_sn h) (seg_sdu x) in
  wait' ≡ₚ a :: wait -> StronglySorted (seg_lt M ack f') wait' ->
  order_ok M W ack next f' (b :: tx) wait' retx.
Proof.
  intros Hok Hord Ea Eb Hbf Hbl f' Hp Hs.
  destruct (assign_facts h x tx wait retx Hok Hord) as (Hsame & Hu & _ & Htx).
  fold f' in Hsame, Hu, Htx. destruct Hord as [[Hx _] H2 _ _ H5].
  assert (Hfx : f' (seg_sdu x) = next) by (subst f'; unfold assign; by rewrite decide_True).
  split; try done.
  - split; [|done]. right. rewrite Eb, Hbl. split; [done|]. split; [done|].
    destruct Hx as [(_ & _ & ?)|(_ & _ & ?)]; done.
  - intros y. rewrite Hp. cbn [app]. intros [->|Hy]%elem_of_cons.
    + unfold sent_ok. rewrite Ea, Hfx. split; [done|]. right. split; [done|]. exists b, tx. by rewrite Eb.
    + destruct (H2 y Hy) as [Hr Hy2]. unfold sent_ok. rewrite Hsame by done. split; [done|].
      destruct Hy2 as [?|(E & t & tl & [= <- <-] & Et)]; [by left|]. right. split; [done|].
      exists b, tx. by rewrite Eb.
  - eapply sorted_ext; [|exact H5]. intros y Hy. symmetry. apply Hsame. rewrite elem_of_app. by right.
Qed.

(** A segment moves between the wait and retransmit lists. *)
Lemma order_move f tx wait retx wait' retx' :
  order_ok M W ack next f tx wait retx -> wait' ++ retx' ≡ₚ wait ++ retx ->
  StronglySorted (seg_lt M ack f) wait' -> StronglySorted (seg_lt M ack f) retx' ->
  order_ok M W ack next f tx wait' retx'.
Proof.
  intros [H1 H2 H3 _ _] Hp Hs1 Hs2. split; try done. intros x Hx. apply H2. by rewrite <- Hp.
Qed.

(** A segment of the retransmit list is cut: [a] is sent and [b] takes its place. *)
Lemma order_retx_cut h x a b tx wait retx wait' :
  segs_ok h (x :: tx ++ wait ++ retx) -> order_ok M W ack next (addr_sn h) tx wait (x :: retx) ->
  seg_sdu a = seg_sdu x -> seg_sdu b = seg_sdu x ->
  seg_so x < seg_so b < seg_so x + seg_size x ->
  wait' ≡ₚ a :: wait -> StronglySorted (seg_lt M ack (addr_sn h)) wait' ->
  order_ok M W ack next (addr_sn h) tx wait' (b :: retx).
Proof.
  intros Hok Hord Ea Eb Hso Hp Hs. pose proof Hord as [H1 H2 H3 H4 H5]. split; try done.
  - intros y Hy. assert (Hx : x ∈ wait ++ x :: retx) by (rewrite elem_of_app, elem_of_cons; tauto).
    rewrite Hp in Hy. cbn [app] in Hy.
    apply elem_of_cons in Hy as [->|Hy]; [unfold sent_ok; rewrite Ea; by apply H2|].
    apply elem_of_app in Hy as [Hy|[->|Hy]%elem_of_cons].
    + apply H2. rewrite elem_of_app. tauto.
    + unfold sent_ok. rewrite Eb. by apply H2.
    + apply H2. rewrite elem_of_app, elem_of_cons. tauto.
  - inversion_clear H5 as [|? ? Hs5 Hall]. constructor; [done|]. rewrite list.Forall_forall in *.
    intros y Hy. specialize (Hall y Hy). unfold seg_lt in *. rewrite Eb.
    destruct Hall as [?|[E Hlt]]; [by left|]. right. split; [done|].
    destruct (segs_disjoint_head h x _ y Hok) as (Hd & _ & ? & _); [rewrite !elem_of_app; tauto| |].
    + apply H3; [done|]. destruct (H2 y) as [? _]; [rewrite elem_of_app, elem_of_cons; tauto|]. lia.
    + unfold disjoint_segs in Hd. lia.
Qed.

End Order.

(** ** Operations on the entity *)

(** The fields outside the transmission side do not matter. *)
Ltac tx_unchanged H := destruct H; constructor; assumption.

Lemma order_append M W ack next f tx wait retx x :
  order_ok M W ack next f tx wait retx -> unsent f x -> order_ok M W ack next f (tx ++ [x]) wait retx.
Proof.
  intros [H1 H2 H3 H4 H5] Hx. split; try done.
  - destruct tx as [|y tx]; cbn in *; [by repeat split; [left|constructor]|].
    destruct H1 as [? ?]. split; [done|]. apply Forall_app. split; [done|by apply Forall_singleton].
  - intros y Hy. destruct (H2 y Hy) as [? [?|(? & t & tl & -> & ?)]]; split; try done; [by left|].
    right. split; [done|]. by exists t, (tl ++ [x]).
Qed.

(** What one entity accepts from the upper layer. *)
Lemma am_recv_sdu_spec e buffer id :
  tx_wf e -> 0 < Z.of_nat (length buffer) <= NR_SDU_MAX ->
  exists e', nr_rlc_entity_am_recv_sdu e buffer id = Ok e' /\ tx_wf e' /\
    wait_list e' = wait_list e /\ retransmit_list e' = retransmit_list e /\
    if tx_size e + Z.of_nat (length buffer) <=? tx_maxsize e
    then exists x s, tx_list e' = tx_list e ++ [x] /\ h_sdus (heap e') !! seg_sdu x = Some s /\
         sdu_data s = buffer /\ upper_layer_id s = id /\ unsent (addr_sn (heap e')) x
    else tx_list e' = tx_list e /\ heap e' = heap e.
Proof.
  intros Hwf Hb. unfold nr_rlc_entity_am_recv_sdu. set (n := Z.of_nat (length buffer)) in *.
  replace (n >? NR_SDU_MAX) with false by (symmetry; rewrite Z.gtb_ltb; apply Z.ltb_ge; lia).
  set (e0 := if _ && _ then _ else e).
  assert (H0 : tx_wf e0 /\ tx_list e0 = tx_list e /\ wait_list e0 = wait_list e /\ tx_size e0 = tx_size e /\
               retransmit_list e0 = retransmit_list e /\ heap e0 = heap e /\ tx_maxsize e0 = tx_maxsize e).
  { subst e0. destruct (_ && _); [|done]. split; [tx_unchanged Hwf|done]. }
  clearbody e0. destruct H0 as (Hwf0 & H1 & H2 & H3 & H4 & H5 & H6).
  rewrite <- H1, <- H2, <- H3, <- H4, <- H5, <- H6. clear H1 H2 H3 H4 H5 H6 Hwf e. rename e0 into e.
  destruct (Z.leb_spec (tx_size e + n) (tx_maxsize e)) as [Hroom|Hroom].
  2: { replace (_ >? _) with true by (symmetry; rewrite Z.gtb_ltb; apply Z.ltb_lt; lia).
       eexists. split; [done|]. split; [tx_unchanged Hwf0|done]. }
  replace (_ >? _) with false by (symmetry; rewrite Z.gtb_ltb; apply Z.ltb_ge; lia).
  am_simpl. destruct (segs_ok_new (heap e) (all_segs e) buffer id (tx_segs e Hwf0) Hb)
    as (Hok & Hbytes & Hh & Hnone & Hsdu & Hso & Hsz & Hf & Hl).
  fold n in Hok, Hbytes, Hh, Hsz. destruct (nr_rlc_new_sdu _ _ _ _) as [x h]. cbn [fst snd] in *. am_simpl.
  rewrite (append_spec (tx_list e)); [|..].
  2: { pose proof (segs_nodup _ _ (tx_segs e Hwf0)) as Hnd. unfold all_segs in Hnd. rewrite fmap_app in Hnd.
       by apply list.NoDup_app in Hnd as (? & _). }
  2: { apply (tx_end_ok e Hwf0). }
  cbn [rbind]. eexists. split; [done|]. unfold add_bstatus_tx. am_simpl.
  assert (Hsn : forall a, addr_sn (heap e) a = addr_sn h a).
  { intros a. unfold addr_sn. rewrite Hh. destruct (decide (a = h_next (heap e))) as [->|Hne].
    - by rewrite lookup_insert_eq, Hnone.
    - by rewrite lookup_insert_ne. }
  assert (Hx : h_sdus h !! seg_sdu x = Some (mk_sdu (-1) id buffer n (-1) 1 0))
    by (rewrite Hh, Hsdu; apply lookup_insert_eq).
  assert (Hun : unsent (addr_sn h) x) by (split; [by rewrite (addr_sn_get _ _ _ Hx)|done]).
  split; [|split; [done|split; [done|]]].
  2: { exists x. eexists. split; [done|]. split; [exact Hx|]. done. }
  destruct Hwf0. constructor; try done; unfold all_segs in *; am_simpl.
  - eapply segs_ok_perm; [|exact Hok]. rewrite <- app_assoc. cbn. apply Permutation_middle.
  - apply order_append; [|done]. eapply order_ext; [exact Hsn|done].
  - by rewrite last_snoc.
  - lia.
  - rewrite sumZ_app, pdu_bytes_eq. cbn. rewrite tx_status0. lia.
Qed.

(** The PDU of [seg] with [n] bytes is at the start of [buffer]. *)
Definition carries (e : nr_rlc_entity_am_t) (seg : nr_rlc_sdu_segment_t) (buffer : list Z) (n : Z) : Prop :=
  exists s p hb, h_sdus (heap e) !! seg_sdu seg = Some s /\ seg_ok s seg /\ sn_range e (sdu_sn s) /\
    n = pdu_bytes (sn_field_length e) seg /\ n <= Z.of_nat (length buffer) /\
    take (Z.to_nat n) buffer
      = hb ++ take (Z.to_nat (seg_size seg)) (drop (Z.to_nat (seg_so seg)) (sdu_data s)) /\
    bytes_bits hb = fields_bits (am_fields e (Z.b2z p) (sdu_sn s) seg) /\
    Z.of_nat (length hb) = compute_pdu_header_size e seg.

(** Serialising a segment of the wait list. *)
Lemma serialize_sent e seg buffer p :
  tx_wf e -> seg ∈ wait_list e -> pdu_bytes (sn_field_length e) seg <= Z.of_nat (length buffer) ->
  exists e' buffer', serialize_sdu e seg buffer p = Ok (e', buffer', pdu_bytes (sn_field_length e) seg) /\
    tx_wf e' /\ tx_list e' = tx_list e /\ wait_list e' = wait_list e /\
    retransmit_list e' = retransmit_list e /\ heap e' = heap e /\ tx_next e' = tx_next e /\
    events e' = events e /\
    carries e' seg buffer' (pdu_bytes (sn_field_length e) seg).
Proof.
  intros Hwf Hin Hfit.
  assert (Hall : seg ∈ all_segs e) by (unfold all_segs; rewrite !elem_of_app; tauto).
  destruct (segs_get _ _ _ (tx_segs e Hwf) Hall) as (s & Hs & _ & Hseg & _).
  destruct (ord_sent _ _ _ _ _ _ _ _ (tx_order e Hwf) seg) as [Hr _]; [rewrite elem_of_app; tauto|].
  rewrite (addr_sn_get _ _ _ Hs) in Hr. rewrite <- pdu_bytes_eq in *.
  destruct (serialize_ok e seg s buffer p (tx_conf e Hwf) Hs Hr Hseg Hfit)
    as (e' & b' & hb & E & -> & Ht & Hb & Hl).
  eexists _, b'. split; [exact E|]. apply serialize_bounded in E as [_ Hlb].
  assert (Hcar : forall e1, heap e1 = heap e -> sn_field_length e1 = sn_field_length e ->
            sn_modulus e1 = sn_modulus e -> carries e1 seg b' (compute_pdu_header_size e seg + seg_size seg)).
  { intros e1 E1 E2 E3.
    assert (Eh : compute_pdu_header_size e1 seg = compute_pdu_header_size e seg)
      by (unfold compute_pdu_header_size; by rewrite E2).
    exists s, p, hb. rewrite E1, Eh. split; [done|]. split; [done|].
    split; [unfold sn_range in *; by rewrite E3|]. rewrite <- pdu_bytes_eq, Eh, Hlb.
    split; [done|]. split; [done|]. split; [done|]. split; [|done].
    unfold am_fields in *. by rewrite E2. }
  destruct p.
  - split; [unfold include_poll; cbn [fst]; tx_unchanged Hwf|]. repeat (split; [done|]). by apply Hcar.
  - split; [done|]. repeat (split; [done|]). by apply Hcar.
Qed.

Lemma conf_window e : am_conf e -> 0 < window_size e /\ window_size e < sn_modulus e /\ 1 < sn_modulus e.
Proof. intros [[[_ H]|[_ H]] HW]; lia. Qed.

Lemma window_stalling_spec e :
  am_conf e -> sn_range e (tx_next_ack e) -> sn_range e (tx_next e) ->
  is_window_stalling e = negb (modulus_tx e (tx_next e) <? window_size e).
Proof.
  intros Hc Ha Hn. unfold is_window_stalling. f_equal. pose proof (conf_window e Hc) as (Hw & HM & _).
  pose proof (cmod_bound (tx_next_ack e + window_size e) (sn_modulus e)) as Hb. unfold sn_range in *.
  assert (Hedge : modulus_tx e (cmod (tx_next_ack e + window_size e) (sn_modulus e)) = window_size e).
  { unfold modulus_tx. destruct (Z.lt_ge_cases (tx_next_ack e + window_size e) (sn_modulus e)).
    - rewrite cmod_small by lia. destruct (Z.ltb_spec (tx_next_ack e + window_size e - tx_next_ack e) 0); lia.
    - assert (cmod (tx_next_ack e + window_size e) (sn_modulus e)
              = tx_next_ack e + window_size e - sn_modulus e) as ->.
      { rewrite cmod_pos by lia. symmetry. apply Z.mod_unique with 1; lia. }
      destruct (Z.ltb_spec (tx_next_ack e + window_size e - sn_modulus e - tx_next_ack e) 0); lia. }
  unfold sn_compare_tx. rewrite Hedge.
  pose proof (mdist_bound (sn_modulus e) (tx_next_ack e) (tx_next e) Ha Hn) as Hd.
  rewrite <- modulus_tx_mdist in Hd.
  assert (Hz : modulus_tx e (tx_next_ack e) = 0) by (unfold modulus_tx; rewrite Z.sub_diag; done).
  rewrite Hz. replace (0 - modulus_tx e (tx_next e) <=? 0) with true by (symmetry; apply Z.leb_le; lia).
  cbn [andb]. destruct (Z.ltb_spec (modulus_tx e (tx_next e) - window_size e) 0),
    (Z.ltb_spec (modulus_tx e (tx_next e)) (window_size e)); done || lia.
Qed.

Lemma poll_for_new_pdu_wf e seg :
  tx_wf e -> tx_wf (poll_for_new_pdu e seg).1 /\ wait_list (poll_for_new_pdu e seg).1 = wait_list e /\
  tx_list (poll_for_new_pdu e seg).1 = tx_list e /\
  retransmit_list (poll_for_new_pdu e seg).1 = retransmit_list e /\
  heap (poll_for_new_pdu e seg).1 = heap e /\
  sn_field_length (poll_for_new_pdu e seg).1 = sn_field_length e /\
  events (poll_for_new_pdu e seg).1 = events e /\
  tx_next (poll_for_new_pdu e seg).1 = tx_next e.
Proof.
  intros Hwf. unfold poll_for_new_pdu, apply_force_poll. am_simpl.
  destruct (force_poll e); cbn [fst]; (split; [tx_unchanged Hwf|done]).
Qed.

(** A PDU of new data can be sent. *)
Definition can_send_new (e : nr_rlc_entity_am_t) (size : Z) : bool :=
  negb (is_window_stalling e) &&
  match tx_list e with [] => false | x :: _ => compute_pdu_header_size e x + 1 <=? size end.

(** The entity once the head [x] of the queue, of SDU [s], is taken off and its SDU has
    the SN that is in use. *)
Definition popped (e : nr_rlc_entity_am_t) (x : nr_rlc_sdu_segment_t)
  (rest : list nr_rlc_sdu_segment_t) (s : nr_rlc_sdu_t) : nr_rlc_entity_am_t :=
  (add_bstatus_tx (e <| tx_list := rest |> <| tx_end := seg_addr <$> list.last rest |>)
     (- pdu_bytes (sn_field_length e) x))
  <| heap := put_sdu (heap e) (seg_sdu x) (s <| sdu_sn := tx_next e |>) |>.

Lemma addr_sn_put h a s sn b :
  h_sdus h !! a = Some s ->
  addr_sn (put_sdu h a (s <| sdu_sn := sn |>)) b = assign sn (addr_sn h) a b.
Proof.
  intros Hs. unfold addr_sn, put_sdu, assign. cbn [h_sdus update]. cbn. destruct (decide (b = a)) as [->|Hne].
  - by rewrite lookup_insert_eq.
  - by rewrite lookup_insert_ne.
Qed.

Lemma last_tail {A} (x : A) l : l <> [] -> list.last (x :: l) = list.last l.
Proof. destruct l; done. Qed.

(** Sending the head of the queue as a whole. *)
Lemma send_whole e x rest s :
  tx_wf e -> tx_list e = x :: rest -> h_sdus (heap e) !! seg_sdu x = Some s ->
  modulus_tx e (tx_next e) < window_size e ->
  let e1 := (popped e x rest s) <| tx_next := cmod (tx_next e + 1) (sn_modulus e) |> in
  exists l, put_in_wait_list e1 x
            = Ok (e1 <| wait_list := l |> <| wait_end := seg_addr <$> list.last l |>) /\
    l ≡ₚ x :: wait_list e /\ tx_wf (e1 <| wait_list := l |> <| wait_end := seg_addr <$> list.last l |>).
Proof.
  intros Hwf Htx Hs Hw e1. pose proof (tx_segs e Hwf) as Hok. pose proof (tx_order e Hwf) as Hord.
  pose proof (tx_conf e Hwf) as Hc. pose proof (conf_window e Hc) as HW.
  pose proof (tx_ack_range e Hwf) as Ha. pose proof (tx_next_range e Hwf) as Hn. unfold sn_range in Ha, Hn.
  unfold all_segs in Hok. rewrite Htx in Hok, Hord. cbn [app] in Hok.
  destruct (assign_facts _ (window_size e) _ _ Ha Hn (heap e) x rest _ _ Hok Hord) as (Hsame & Hu & Hcmp & Hun).
  set (f' := assign _ _ _) in *.
  assert (Hf' : forall b, f' b = addr_sn (heap e1) b) by (intros b; symmetry; by apply addr_sn_put).
  destruct (segs_ok_put _ _ _ s (s <| sdu_sn := tx_next e |>) Hok Hs) as [Hok' Hbytes]; try done.
  assert (Hws : StronglySorted (seg_lt (sn_modulus e) (tx_next_ack e) (addr_sn (heap e1))) (wait_list e)).
  { eapply sorted_ext; [|exact (ord_wait _ _ _ _ _ _ _ _ Hord)]. intros y Hy. rewrite <- Hf'.
    symmetry. apply Hsame. rewrite elem_of_app. by left. }
  assert (Hfx : addr_sn (heap e1) (seg_sdu x) = tx_next e)
    by (rewrite <- Hf'; unfold f', assign; by rewrite decide_True).
  destruct (put_in_wait_list_spec e1 x) as (l & E & Hp & Hsort).
  - done.
  - done.
  - intros y Hy. destruct (segs_live _ _ Hok' y) as (t & Ht & _); [|by eexists].
    apply elem_of_cons in Hy as [->|Hy]; [left|right]. rewrite !elem_of_app. tauto.
  - unfold sn_range. rewrite Hfx. done.
  - intros y Hy. destruct (Hcmp y Hy) as [H1 H2]. unfold comparable. rewrite <- !Hf'. done.
  - exact (segs_nodup _ _ Hok').
  - apply (wait_end_ok e Hwf).
  - exact Hws.
  - exists l. split; [exact E|]. split; [exact Hp|].
    destruct (mdist_succ _ _ _ Ha Hn) as [Hn1 Hn2]; [rewrite <- modulus_tx_mdist; lia|].
    constructor; try done; unfold all_segs; subst e1; unfold popped, add_bstatus_tx in *; am_simpl.
    + change (mdist (sn_modulus e) (tx_next_ack e) (cmod (tx_next e + 1) (sn_modulus e)) <= window_size e).
      rewrite Hn2. rewrite modulus_tx_mdist in Hw. lia.
    + eapply segs_ok_perm; [|exact Hok']. rewrite Hp. cbn. by rewrite <- Permutation_middle.
    + eapply order_ext; [exact Hf'|]. apply (order_send_whole _ _ _ _ Ha Hn (heap e) x rest (wait_list e)); try done.
      * rewrite <- modulus_tx_mdist. lia.
      * eapply sorted_ext; [|exact Hsort]. intros y _. symmetry. apply Hf'.
    + rewrite Hbytes. apply (tx_bytes e Hwf).
    + cbn. rewrite (tx_status e Hwf), Htx. cbn. lia.
    + cbn. apply (retx_status e Hwf).
Qed.

Lemma addr_sn_ref h a s n b :
  h_sdus h !! a = Some s ->
  addr_sn (mk_heap (<[a := s <| ref_count := ref_count s + 1 |>]> (h_sdus h)) n) b = addr_sn h b.
Proof.
  intros Hs. unfold addr_sn. cbn [h_sdus]. destruct (decide (b = a)) as [->|Hne].
  - by rewrite lookup_insert_eq, Hs.
  - by rewrite lookup_insert_ne.
Qed.

(** Sending a first part of the head of the queue: the rest goes back to the head. *)
Lemma send_cut e x rest s size :
  tx_wf e -> tx_list e = x :: rest -> h_sdus (heap e) !! seg_sdu x = Some s ->
  compute_pdu_header_size e x + 1 <= size -> size < compute_pdu_header_size e x + seg_size x ->
  exists a b e1, resegment (popped e x rest s) x size = Ok (a, b, e1) /\ seg_is_last a = false /\
    pdu_bytes (sn_field_length e) a = size /\ tx_list e1 = rest /\
    tx_end e1 = seg_addr <$> list.last rest /\ sn_field_length e1 = sn_field_length e /\
    let e2 := add_bstatus_tx (e1 <| tx_list := b :: rest |> <| tx_end := seg_addr <$> list.last (b :: rest) |>)
                (pdu_bytes (sn_field_length e) b) in
    exists l, put_in_wait_list e2 a
              = Ok (e2 <| wait_list := l |> <| wait_end := seg_addr <$> list.last l |>) /\
      l ≡ₚ a :: wait_list e /\ tx_wf (e2 <| wait_list := l |> <| wait_end := seg_addr <$> list.last l |>).
Proof.
  intros Hwf Htx Hs Hlo Hhi. pose proof (tx_segs e Hwf) as Hok. pose proof (tx_order e Hwf) as Hord.
  pose proof (tx_ack_range e Hwf) as Ha. pose proof (tx_next_range e Hwf) as Hn. unfold sn_range in Ha, Hn.
  unfold all_segs in Hok. rewrite Htx in Hok, Hord. cbn [app] in Hok.
  destruct (assign_facts _ (window_size e) _ _ Ha Hn (heap e) x rest _ _ Hok Hord) as (Hsame & Hu & Hcmp & Hun).
  set (f' := assign _ _ _) in *. set (s' := s <| sdu_sn := tx_next e |>).
  destruct (segs_ok_put _ _ _ s s' Hok Hs) as [Hok1 Hbytes1]; try done.
  set (h1 := put_sdu (heap e) (seg_sdu x) s') in *.
  assert (Hs1 : h_sdus h1 !! seg_sdu x = Some s') by apply lookup_insert_eq.
  destruct (segs_get _ _ x Hok1) as (s0 & Hs0 & _ & Hseg & Hlen & Hmax); [left|].
  rewrite Hs1 in Hs0. injection Hs0 as <-. unfold NR_SDU_MAX in Hmax.
  destruct (resegment_spec (popped e x rest s) x s' size Hs1 Hseg Hlo Hhi)
    as (a & b & e1 & E & Hsa & Hsb & Hfit & S1 & S2 & S3 & F1 & L1 & F2 & L2 & D1 & D2 & A1 & A2 & ->).
  specialize (Hsb ltac:(lia)). change (heap (popped e x rest s)) with h1 in *.
  destruct (segs_ok_cut h1 x _ a b s' Hok1 Hs1 D1 D2 A1 A2 Hsa Hsb S1 S2 S3) as [Hok2 Hbytes2].
  set (h2 := mk_heap _ _) in Hok2, Hbytes2.
  exists a, b. eexists. split; [exact E|]. split; [done|]. split; [rewrite <- pdu_bytes_eq; exact Hfit|].
  split; [done|]. split; [done|]. split; [done|]. intros e2.
  assert (Hf' : forall c, f' c = addr_sn h2 c).
  { intros c. unfold h2. rewrite (addr_sn_ref h1 _ s') by done. symmetry. by apply addr_sn_put. }
  change (heap e2) with h2.
  destruct (put_in_wait_list_spec e2 a) as (l & El & Hp & Hsort).
  - apply (tx_conf e Hwf).
  - exact Ha.
  - intros y Hy. destruct (segs_live _ _ Hok2 y) as (t & Ht & _); [|by eexists].
    apply elem_of_cons in Hy as [->|Hy]; [left|right; right]. rewrite !elem_of_app. tauto.
  - change (sn_range e (addr_sn h2 (seg_sdu a))). unfold sn_range. rewrite <- Hf', D1. unfold f', assign.
    by rewrite decide_True.
  - intros y Hy. destruct (Hcmp y Hy) as [H1 H2]. unfold comparable. change (heap e2) with h2.
    rewrite <- !Hf', D1, S1. done.
  - exact (segs_nodup _ _ Hok2).
  - apply (wait_end_ok e Hwf).
  - change (heap e2) with h2. eapply sorted_ext; [|exact (ord_wait _ _ _ _ _ _ _ _ Hord)].
    intros y Hy. rewrite <- Hf'. symmetry. apply Hsame. rewrite elem_of_app. by left.
  - exists l. split; [exact El|]. split; [exact Hp|]. change (heap e2) with h2 in Hsort.
    constructor; unfold all_segs; subst e2; unfold popped, add_bstatus_tx in *; am_simpl.
    + apply (tx_conf e Hwf).
    + exact Ha.
    + exact Hn.
    + apply (tx_window e Hwf).
    + eapply segs_ok_perm; [|exact Hok2]. rewrite Hp. cbn.
      rewrite <- (Permutation_middle rest). by rewrite perm_swap.
    + eapply order_ext; [exact Hf'|].
      apply (order_send_cut _ _ _ _ Ha Hn (heap e) x a b rest (wait_list e)); try done.
      eapply sorted_ext; [|exact Hsort]. intros y _. symmetry. apply Hf'.
    + reflexivity.
    + reflexivity.
    + rewrite (tx_bytes e Hwf), <- Hbytes1, <- Hbytes2. reflexivity.
    + cbn. rewrite (tx_status e Hwf), Htx. cbn. lia.
    + cbn. apply (retx_status e Hwf).
Qed.

(** The segment [a] was taken from the head of the queue [l], which becomes [l'], and joined the wait
    list: the whole head if its PDU fits into [size] bytes, else a first part that fills them, and
    the rest stays at the head. *)
Definition took (len size : Z) (l l' w w' : list nr_rlc_sdu_segment_t) (a : nr_rlc_sdu_segment_t) : Prop :=
  exists x rest, l = x :: rest /\ w' ≡ₚ a :: w /\ seg_sdu a = seg_sdu x /\ seg_so a = seg_so x /\
    if pdu_bytes len x <=? size then a = x /\ l' = rest
    else pdu_bytes len a = size /\ seg_is_last a = false /\
      exists b, l' = b :: rest /\ seg_sdu b = seg_sdu x /\ seg_so b = seg_so x + seg_size a /\ seg_size b = seg_size x - seg_size a /\
        seg_is_last b = seg_is_last x.

(** A retransmission: the head of the retransmit list is sent, under the SN it has. *)
Definition sent_retx (e e' : nr_rlc_entity_am_t) (buffer buffer' : list Z) (n : Z) : Prop :=
  0 < n /\ length buffer' = length buffer /\ events e' = events e /\
  exists a, carries e' a buffer' n /\
    took (sn_field_length e) (Z.of_nat (length buffer)) (retransmit_list e) (retransmit_list e') (wait_list e) (wait_list e') a /\
    tx_list e' = tx_list e /\ tx_next e' = tx_next e /\ addr_sn (heap e') (seg_sdu a) = addr_sn (heap e) (seg_sdu a).

(** New data: the head of the queue is sent under the SN TX_Next, which moves with the last byte of
    an SDU. *)
Definition sent_new (e e' : nr_rlc_entity_am_t) (buffer buffer' : list Z) (n : Z) : Prop :=
  0 < n /\ length buffer' = length buffer /\ events e' = events e /\
  exists a, carries e' a buffer' n /\
    took (sn_field_length e) (Z.of_nat (length buffer)) (tx_list e) (tx_list e') (wait_list e) (wait_list e') a /\
    retransmit_list e' = retransmit_list e /\ addr_sn (heap e') (seg_sdu a) = tx_next e /\
    tx_next e' = if seg_is_last a then cmod (tx_next e + 1) (sn_modulus e) else tx_next e.

(** The two parts of a segment. *)
Lemma resegment_parts e x size a b e1 :
  resegment e x size = Ok (a, b, e1) ->
  seg_sdu a = seg_sdu x /\ seg_so a = seg_so x /\ seg_sdu b = seg_sdu x /\ seg_so b = seg_so x + seg_size a /\
  seg_size b = seg_size x - seg_size a /\ seg_is_last a = false /\ seg_is_last b = seg_is_last x /\ events e1 = events e /\ tx_next e1 = tx_next e /\
  tx_list e1 = tx_list e /\ retransmit_list e1 = retransmit_list e /\ wait_list e1 = wait_list e /\
  forall c, addr_sn (heap e1) c = addr_sn (heap e) c.
Proof.
  intros E. unfold resegment in E. apply rbind_ok in E as (s & Es & E). injection E as <- <- <-. cbn. split_and!; try done; [lia|].
  assert (Hs : h_sdus (heap e) !! seg_sdu x = Some s) by (unfold get_sdu in Es; destruct (h_sdus (heap e) !! seg_sdu x); congruence).
  intros c. exact (addr_sn_ref (heap e) (seg_sdu x) s _ c Hs).
Qed.

(** The last step of both kinds of transmission. *)
Definition finished (e e' : nr_rlc_entity_am_t) (buffer buffer' : list Z) (n : Z) (x : nr_rlc_sdu_segment_t) : Prop :=
  0 < n /\ length buffer' = length buffer /\ events e' = events e /\ tx_list e' = tx_list e /\ wait_list e' = wait_list e /\
  retransmit_list e' = retransmit_list e /\ heap e' = heap e /\ tx_next e' = tx_next e /\ carries e' x buffer' n.

Lemma finish_send e x buffer p :
  tx_wf e -> x ∈ wait_list e -> pdu_bytes (sn_field_length e) x <= Z.of_nat (length buffer) ->
  exists e' buffer' n, serialize_sdu e x buffer p = Ok (e', buffer', n) /\ tx_wf e' /\ finished e e' buffer buffer' n x.
Proof.
  intros Hwf Hx Hfit.
  destruct (serialize_sent e x buffer p Hwf Hx Hfit) as (e' & b' & Es & Hwf5 & R1 & R2 & R3 & R4 & R5 & R6 & Hcar).
  rewrite Es. do 3 eexists. split; [reflexivity|]. split; [done|]. split.
  - destruct Hcar as (t & _ & _ & _ & Hseg & _). pose proof (pdu_bytes_min (sn_field_length e) x).
    unfold seg_ok in Hseg. lia.
  - split; [by apply serialize_bounded in Es as [_ ?]|done].
Qed.

Lemma finish_new e x buffer :
  tx_wf e -> x ∈ wait_list e -> pdu_bytes (sn_field_length e) x <= Z.of_nat (length buffer) ->
  exists e' buffer' n,
    (let '(e, p) := poll_for_new_pdu e x in serialize_sdu e x buffer p) = Ok (e', buffer', n) /\
    tx_wf e' /\ finished e e' buffer buffer' n x.
Proof.
  intros Hwf Hx Hfit. destruct (poll_for_new_pdu_wf e x Hwf) as (Hwf4 & P1 & P2 & P3 & P4 & P5 & P6 & P7).
  destruct (poll_for_new_pdu e x) as [e4 p]. cbn [fst] in *.
  destruct (finish_send e4 x buffer p) as (e' & b' & n & E & Hwf' & H); [done|by rewrite P1|by rewrite P5|].
  exists e', b', n. split; [done|]. split; [done|]. unfold finished in *. by rewrite P1, P2, P3, P4, P6, P7 in H.
Qed.

Lemma generate_tx_pdu_spec e buffer :
  tx_wf e ->
  exists e' buffer' n, generate_tx_pdu e buffer = Ok (e', buffer', n) /\ tx_wf e' /\
    if can_send_new e (Z.of_nat (length buffer)) then sent_new e e' buffer buffer' n
    else e' = e /\ buffer' = buffer /\ n = 0.
Proof.
  intros Hwf. unfold generate_tx_pdu, can_send_new. set (size := Z.of_nat (length buffer)).
  rewrite window_stalling_spec by apply Hwf.
  destruct (Z.ltb_spec (modulus_tx e (tx_next e)) (window_size e)) as [Hw|Hw]; cbn [negb andb].
  2: { by eexists e, buffer, 0. }
  destruct (tx_list e) as [|x rest] eqn:Htx; [by eexists e, buffer, 0|].
  destruct (Z.leb_spec (compute_pdu_header_size e x + 1) size) as [Hh|Hh].
  2: { replace (_ >? _) with true by (symmetry; rewrite Z.gtb_ltb; apply Z.ltb_lt; lia).
       by eexists e, buffer, 0. }
  replace (_ >? _) with false by (symmetry; rewrite Z.gtb_ltb; apply Z.ltb_ge; lia).
  assert (Hx : x ∈ all_segs e) by (unfold all_segs; rewrite Htx; left).
  destruct (segs_get _ _ _ (tx_segs e Hwf) Hx) as (s & Hs & Eg & Hseg & _).
  assert (Hl : seg_is_last x = true).
  { pose proof (ord_queue _ _ _ _ _ _ _ _ (tx_order e Hwf)) as Hq. rewrite Htx in Hq.
    destruct Hq as [[(_ & _ & ?)|(_ & _ & ?)] _]; done. }
  set (e0 := match rest with [] => _ | _ => _ end).
  assert (E0 : e0 = e <| tx_list := rest |> <| tx_end := seg_addr <$> list.last rest |>).
  { subst e0. destruct rest as [|y rest]; [done|]. pose proof (tx_end_ok e Hwf) as He.
    rewrite Htx, last_cons_cons in He. destruct e. cbn in *. by rewrite He. }
  rewrite E0. clearbody e0. clear E0 e0. unfold add_bstatus_tx at 1. am_simpl. rewrite Eg. cbn [rbind].
  change (_ <| heap := put_sdu _ _ _ |>) with
    ((add_bstatus_tx (e <| tx_list := rest |> <| tx_end := seg_addr <$> list.last rest |>)
       (- (compute_pdu_header_size e x + seg_size x)))
     <| heap := put_sdu (heap e) (seg_sdu x) (s <| sdu_sn := tx_next e |>) |>).
  rewrite pdu_bytes_eq. fold (popped e x rest s).
  destruct (Z.ltb_spec size (pdu_bytes (sn_field_length e) x)) as [Hc|Hc].
  - replace (_ >? _) with true by (symmetry; rewrite Z.gtb_ltb; apply Z.ltb_lt; lia).
    rewrite <- pdu_bytes_eq in Hc.
    destruct (send_cut e x rest s size Hwf Htx Hs) as (a & b & e1 & E & Hal & Hfit & T1 & T2 & T3 & Hrest);
      [lia|lia|].
    rewrite E. cbn [rbind]. am_simpl. rewrite T1, T2.
    set (e2 := match _ with Some _ => _ | None => _ end).
    assert (E2 : e2 = e1 <| tx_list := b :: rest |> <| tx_end := seg_addr <$> list.last (b :: rest) |>).
    { subst e2. destruct rest as [|y rest]; [done|].
      destruct (list.last (y :: rest)) as [z|] eqn:Ez; [|by apply last_None in Ez].
      rewrite last_cons_cons, Ez. cbn in T2 |- *. destruct e1. cbn in *. by rewrite T2. }
    rewrite E2. clearbody e2. clear E2 e2. rewrite pdu_bytes_eq. am_simpl. rewrite T3.
    destruct Hrest as (l & Ep & Hp & Hwf').
    set (e2 := add_bstatus_tx _ _) in *. cbn [rbind]. rewrite Hal, Ep. cbn [rbind].
    destruct (finish_new (e2 <| wait_list := l |> <| wait_end := seg_addr <$> list.last l |>) a buffer Hwf')
      as (e' & b' & n & Ef & Hwf2 & F1 & F2 & F3 & F4 & F5 & F6 & F7 & F8 & F9).
    { change (a ∈ l). rewrite Hp. left. }
    { change (pdu_bytes (sn_field_length e1) a <= size). rewrite T3. lia. }
    destruct (resegment_parts _ _ _ _ _ _ E) as (Q1 & Q2 & Q3 & Q4 & Q5 & Q6 & Q7 & Q8 & Q9 & _ & Q11 & _ & Q13).
    exists e', b', n. split; [exact Ef|]. split; [done|]. split; [done|]. split; [done|]. split; [rewrite F3; exact Q8|].
    exists a. split; [done|]. split; [|split; [rewrite F6; exact Q11|split; [|rewrite F8, Hal; exact Q9]]].
    + exists x, rest. split; [done|]. split; [rewrite F5; exact Hp|]. split; [done|]. split; [done|].
      fold size. rewrite (proj2 (Z.leb_gt _ _)) by (rewrite <- pdu_bytes_eq; lia). split; [done|]. split; [done|]. exists b. by rewrite F4.
    + rewrite F7. etransitivity; [exact (Q13 (seg_sdu a))|]. rewrite Q1.
      etransitivity; [exact (addr_sn_put (heap e) (seg_sdu x) s (tx_next e) (seg_sdu x) Hs)|]. unfold assign. by rewrite decide_True.
  - replace (_ >? _) with false by (symmetry; rewrite Z.gtb_ltb; apply Z.ltb_ge; lia).
    cbn [rbind]. rewrite Hl.
    destruct (send_whole e x rest s Hwf Htx Hs Hw) as (l & Ep & Hp & Hwf').
    change (cmod (tx_next (popped e x rest s) + 1) (sn_modulus (popped e x rest s)))
      with (cmod (tx_next e + 1) (sn_modulus e)).
    set (e2 := (popped _ _ _ _) <| tx_next := _ |>) in *. rewrite Ep. cbn [rbind].
    destruct (finish_new (e2 <| wait_list := l |> <| wait_end := seg_addr <$> list.last l |>) x buffer Hwf')
      as (e' & b' & n & Ef & Hwf2 & F1 & F2 & F3 & F4 & F5 & F6 & F7 & F8 & F9); [change (x ∈ l); rewrite Hp; left|done|].
    exists e', b', n. split; [exact Ef|]. split; [done|]. split; [done|]. split; [done|]. split; [rewrite F3; done|].
    exists x. split; [done|]. split; [|split; [rewrite F6; done|split; [|rewrite F8, Hl; done]]].
    + exists x, rest. split; [done|]. split; [rewrite F5; exact Hp|]. split; [done|]. split; [done|].
      fold size. rewrite (proj2 (Z.leb_le _ _)) by lia. split; [done|]. by rewrite F4.
    + rewrite F7. etransitivity; [exact (addr_sn_put (heap e) (seg_sdu x) s (tx_next e) (seg_sdu x) Hs)|]. unfold assign. by rewrite decide_True.
Qed.

(** ** Retransmission *)

(** The entity once the head [x] of the retransmit list is taken off. *)
Definition retaken (e : nr_rlc_entity_am_t) (x : nr_rlc_sdu_segment_t)
  (rest : list nr_rlc_sdu_segment_t) : nr_rlc_entity_am_t :=
  add_bstatus_retx (e <| retransmit_list := rest |>) (- pdu_bytes (sn_field_length e) x).

Lemma perm_retx {A} (x : A) l1 l2 l3 : l1 ++ l2 ++ x :: l3 ≡ₚ x :: l1 ++ l2 ++ l3.
Proof. rewrite (app_assoc l1 l2 (x :: l3)), (app_assoc l1 l2 l3). symmetry. apply Permutation_middle. Qed.

(** What the two cases of a retransmission share. *)
Lemma retx_facts e x rest :
  tx_wf e -> retransmit_list e = x :: rest ->
  segs_ok (heap e) (x :: tx_list e ++ wait_list e ++ rest) /\
  sn_range e (addr_sn (heap e) (seg_sdu x)) /\
  (forall y, y ∈ wait_list e -> comparable (sn_modulus e) (addr_sn (heap e)) x y) /\
  StronglySorted (seg_lt (sn_modulus e) (tx_next_ack e) (addr_sn (heap e))) rest.
Proof.
  intros Hwf Hr. pose proof (tx_segs e Hwf) as Hok. pose proof (tx_order e Hwf) as Hord.
  unfold all_segs in Hok. rewrite Hr in Hok, Hord. rewrite perm_retx in Hok. split; [done|].
  assert (Hx : x ∈ wait_list e ++ x :: rest) by (rewrite elem_of_app, elem_of_cons; tauto).
  split; [apply (ord_sent _ _ _ _ _ _ _ _ Hord x Hx)|]. split.
  - intros y Hy. eapply sent_comparable; [exact Hord|exact Hok| |done|]; rewrite !elem_of_app; tauto.
  - pose proof (ord_retx _ _ _ _ _ _ _ _ Hord) as Hs. by inversion_clear Hs.
Qed.

Lemma retx_whole e x rest :
  tx_wf e -> retransmit_list e = x :: rest ->
  let e1 := retaken e x rest in
  exists l, put_in_wait_list e1 x
            = Ok (e1 <| wait_list := l |> <| wait_end := seg_addr <$> list.last l |>) /\
    l ≡ₚ x :: wait_list e /\ tx_wf (e1 <| wait_list := l |> <| wait_end := seg_addr <$> list.last l |>).
Proof.
  intros Hwf Hr e1. destruct (retx_facts e x rest Hwf Hr) as (Hok & Hxr & Hcmp & Hsr).
  pose proof (tx_order e Hwf) as Hord.
  destruct (put_in_wait_list_spec e1 x) as (l & E & Hp & Hsort).
  - apply (tx_conf e Hwf).
  - apply (tx_ack_range e Hwf).
  - intros y Hy. destruct (segs_live _ _ Hok y) as (t & Ht & _); [|by eexists].
    apply elem_of_cons in Hy as [->|Hy]; [left|right]. rewrite !elem_of_app. tauto.
  - exact Hxr.
  - exact Hcmp.
  - exact (segs_nodup _ _ Hok).
  - apply (wait_end_ok e Hwf).
  - exact (ord_wait _ _ _ _ _ _ _ _ Hord).
  - exists l. split; [exact E|]. split; [exact Hp|].
    destruct Hwf as [? ? ? ? ? ? ? ? ? ? Hrs].
    constructor; try assumption; unfold all_segs; subst e1; unfold retaken, add_bstatus_retx in *; am_simpl.
    + eapply segs_ok_perm; [|exact Hok]. rewrite Hp. cbn. by rewrite <- Permutation_middle.
    + eapply order_move; [exact Hord| |exact Hsort|exact Hsr]. rewrite Hp, Hr. cbn. apply Permutation_middle.
    + reflexivity.
    + cbn. rewrite Hrs, Hr. cbn. lia.
Qed.

Lemma retx_cut e x rest size :
  tx_wf e -> retransmit_list e = x :: rest ->
  compute_pdu_header_size e x + 1 <= size -> size < compute_pdu_header_size e x + seg_size x ->
  exists a b e1, resegment (retaken e x rest) x size = Ok (a, b, e1) /\
    pdu_bytes (sn_field_length e) a = size /\ retransmit_list e1 = rest /\
    sn_field_length e1 = sn_field_length e /\ events e1 = events e /\
    let e2 := add_bstatus_retx (e1 <| retransmit_list := b :: rest |>) (pdu_bytes (sn_field_length e) b) in
    exists l, put_in_wait_list e2 a
              = Ok (e2 <| wait_list := l |> <| wait_end := seg_addr <$> list.last l |>) /\
      l ≡ₚ a :: wait_list e /\ tx_wf (e2 <| wait_list := l |> <| wait_end := seg_addr <$> list.last l |>).
Proof.
  intros Hwf Hr Hlo Hhi. destruct (retx_facts e x rest Hwf Hr) as (Hok & Hxr & Hcmp & Hsr).
  pose proof (tx_order e Hwf) as Hord. pose proof (tx_ack_range e Hwf) as Ha.
  pose proof (tx_next_range e Hwf) as Hn. rewrite Hr in Hord.
  destruct (segs_get _ _ x Hok) as (s & Hs & _ & Hseg & Hlen & Hmax); [left|]. unfold NR_SDU_MAX in Hmax.
  destruct (resegment_spec (retaken e x rest) x s size Hs Hseg Hlo Hhi)
    as (a & b & e1 & E & Hsa & Hsb & Hfit & S1 & S2 & S3 & F1 & L1 & F2 & L2 & D1 & D2 & A1 & A2 & ->).
  specialize (Hsb ltac:(lia)). change (heap (retaken e x rest)) with (heap e) in *.
  destruct (segs_ok_cut (heap e) x _ a b s Hok Hs D1 D2 A1 A2 Hsa Hsb S1 S2 S3) as [Hok2 Hbytes2].
  set (h2 := mk_heap _ _) in Hok2, Hbytes2.
  exists a, b. eexists. split; [exact E|]. split; [rewrite <- pdu_bytes_eq; exact Hfit|].
  split; [done|]. split; [done|]. split; [done|]. intros e2.
  assert (Hf : forall c, addr_sn (heap e) c = addr_sn h2 c) by (intros c; symmetry; by apply addr_sn_ref).
  assert (Hsw : StronglySorted (seg_lt (sn_modulus e) (tx_next_ack e) (addr_sn h2)) (wait_list e)).
  { eapply sorted_ext; [|exact (ord_wait _ _ _ _ _ _ _ _ Hord)]. auto. }
  destruct (put_in_wait_list_spec e2 a) as (l & El & Hp & Hsort).
  - apply (tx_conf e Hwf).
  - exact Ha.
  - intros y Hy. destruct (segs_live _ _ Hok2 y) as (t & Ht & _); [|by eexists].
    apply elem_of_cons in Hy as [->|Hy]; [left|right; right]. rewrite !elem_of_app. tauto.
  - change (sn_range e (addr_sn h2 (seg_sdu a))). by rewrite <- Hf, D1.
  - intros y Hy. destruct (Hcmp y Hy) as [H1 H2]. unfold comparable. change (heap e2) with h2.
    rewrite <- !Hf, D1, S1. done.
  - eapply NoDup_Permutation_proper; [|exact (segs_nodup _ _ Hok2)]. apply fmap_Permutation.
    apply perm_skip. apply perm_retx.
  - apply (wait_end_ok e Hwf).
  - exact Hsw.
  - exists l. split; [exact El|]. split; [exact Hp|]. change (heap e2) with h2 in Hsort.
    destruct Hwf as [? ? ? ? ? ? ? ? Hby ? Hrs].
    constructor; try assumption; unfold all_segs; subst e2; unfold retaken, add_bstatus_retx in *; am_simpl.
    + eapply segs_ok_perm; [|exact Hok2]. rewrite Hp. cbn. rewrite <- (Permutation_middle (tx_list e)).
      apply perm_skip. symmetry. apply perm_retx.
    + eapply order_ext; [exact Hf|].
      apply (order_retx_cut _ _ _ _ Ha Hn (heap e) x a b (tx_list e) (wait_list e) rest); try done.
      * unfold seg_ok in *. lia.
      * eapply sorted_ext; [|exact Hsort]. auto.
    + reflexivity.
    + rewrite Hby, <- Hbytes2. reflexivity.
    + cbn. rewrite Hrs, Hr. cbn. lia.
Qed.

(** A retransmission can be sent. *)
Definition can_retransmit (e : nr_rlc_entity_am_t) (size : Z) : bool :=
  match retransmit_list e with [] => false | x :: _ => compute_pdu_header_size e x + 1 <=? size end.

Lemma finish_retx e x buffer :
  tx_wf e -> x ∈ wait_list e -> pdu_bytes (sn_field_length e) x <= Z.of_nat (length buffer) ->
  exists e' buffer' n,
    (let '(e, p) := apply_force_poll e (check_poll_after_pdu_assembly e) in serialize_sdu e x buffer p)
      = Ok (e', buffer', n) /\
    tx_wf e' /\ finished e e' buffer buffer' n x.
Proof.
  intros Hwf Hx Hfit. unfold apply_force_poll. destruct (force_poll e); [|by apply finish_send].
  destruct (finish_send (e <| force_poll := false |>) x buffer true) as (e' & b' & n & H); [tx_unchanged Hwf|done|done|]. by exists e', b', n.
Qed.

Lemma generate_retx_pdu_spec e buffer :
  tx_wf e -> retransmit_list e <> [] ->
  exists e' buffer' n, generate_retx_pdu e buffer = Ok (e', buffer', n) /\ tx_wf e' /\
    if can_retransmit e (Z.of_nat (length buffer)) then sent_retx e e' buffer buffer' n
    else e' = e /\ buffer' = buffer /\ n = 0.
Proof.
  intros Hwf Hne. unfold generate_retx_pdu, can_retransmit. set (size := Z.of_nat (length buffer)).
  destruct (retransmit_list e) as [|x rest] eqn:Hr; [done|].
  destruct (Z.leb_spec (compute_pdu_header_size e x + 1) size) as [Hh|Hh].
  2: { replace (_ >? _) with true by (symmetry; rewrite Z.gtb_ltb; apply Z.ltb_lt; lia).
       by eexists e, buffer, 0. }
  replace (_ >? _) with false by (symmetry; rewrite Z.gtb_ltb; apply Z.ltb_ge; lia).
  rewrite pdu_bytes_eq. fold (retaken e x rest).
  destruct (Z.ltb_spec size (pdu_bytes (sn_field_length e) x)) as [Hc|Hc].
  - replace (_ >? _) with true by (symmetry; rewrite Z.gtb_ltb; apply Z.ltb_lt; lia).
    rewrite <- pdu_bytes_eq in Hc.
    destruct (retx_cut e x rest size Hwf Hr) as (a & b & e1 & E & Hfit & T1 & T3 & T4 & l & Ep & Hp & Hwf');
      [lia|lia|].
    rewrite E. cbn [rbind]. am_simpl. rewrite T1, pdu_bytes_eq. am_simpl. rewrite T3.
    set (e2 := add_bstatus_retx _ _) in *. rewrite Ep. cbn [rbind].
    destruct (finish_retx (e2 <| wait_list := l |> <| wait_end := seg_addr <$> list.last l |>) a buffer Hwf')
      as (e' & b' & n & Ef & Hwf2 & F1 & F2 & F3 & F4 & F5 & F6 & F7 & F8 & F9).
    { change (a ∈ l). rewrite Hp. left. }
    { change (pdu_bytes (sn_field_length e1) a <= size). rewrite T3. lia. }
    destruct (resegment_parts _ _ _ _ _ _ E) as (Q1 & Q2 & Q3 & Q4 & Q5 & Q6 & Q7 & Q8 & Q9 & Q10 & _ & _ & Q13).
    exists e', b', n. split; [exact Ef|]. split; [done|]. split; [done|]. split; [done|]. split; [rewrite F3; exact Q8|].
    exists a. split; [done|]. split; [|split; [rewrite F4; exact Q10|split; [rewrite F8; exact Q9|rewrite F7; exact (Q13 (seg_sdu a))]]].
    exists x, rest. split; [done|]. split; [rewrite F5; exact Hp|]. split; [done|]. split; [done|].
    fold size. rewrite (proj2 (Z.leb_gt _ _)) by (rewrite <- pdu_bytes_eq; lia). split; [done|]. split; [done|]. exists b. by rewrite F6.
  - replace (_ >? _) with false by (symmetry; rewrite Z.gtb_ltb; apply Z.ltb_ge; lia). cbn [rbind].
    destruct (retx_whole e x rest Hwf Hr) as (l & Ep & Hp & Hwf'). rewrite Ep. cbn [rbind].
    destruct (finish_retx ((retaken e x rest) <| wait_list := l |> <| wait_end := seg_addr <$> list.last l |>) x buffer Hwf')
      as (e' & b' & n & Ef & Hwf2 & F1 & F2 & F3 & F4 & F5 & F6 & F7 & F8 & F9); [change (x ∈ l); rewrite Hp; left|exact Hc|].
    exists e', b', n. split; [exact Ef|]. split; [done|]. split; [done|]. split; [done|]. split; [by rewrite F3|].
    exists x. split; [done|]. split; [|split; [by rewrite F4|split; [by rewrite F8|by rewrite F7]]].
    exists x, rest. split; [done|]. split; [rewrite F5; exact Hp|]. split; [done|]. split; [done|].
    fold size. rewrite (proj2 (Z.leb_le _ _)) by lia. split; [done|]. by rewrite F6.
Qed.

(** ** Timers *)

(** The head of the wait list goes to the retransmit list. *)
Lemma poll_retransmit_step e x rest :
  tx_wf e -> wait_list e = x :: rest ->
  let e1 := e <| wait_list := rest |> <| wait_end := seg_addr <$> list.last rest |> in
  exists e2 l, retx_segment e1 x = Ok e2 /\
    nr_rlc_sdu_segment_list_add (sn_compare_tx e2) (heap e2) (retransmit_list e2) x = Ok l /\
    l ≡ₚ x :: retransmit_list e /\ tx_wf (e2 <| retransmit_list := l |>) /\
    wait_list e2 = rest /\ tx_list e2 = tx_list e.
Proof.
  intros Hwf Hw e1. pose proof (tx_segs e Hwf) as Hok. pose proof (tx_order e Hwf) as Hord.
  unfold all_segs in Hok. rewrite Hw in Hok, Hord. cbn [app] in Hok. rewrite <- Permutation_middle in Hok.
  destruct (segs_get _ _ x Hok) as (s & Hs & Eg & _); [left|].
  unfold retx_segment. change (heap e1) with (heap e). rewrite Eg. cbn [rbind].
  set (s' := s <| retx_count := retx_count s + 1 |>).
  destruct (segs_ok_put _ _ _ s s' Hok Hs) as [Hok1 Hbytes1]; try done.
  set (h1 := put_sdu (heap e) (seg_sdu x) s') in *.
  assert (Hf : forall c, addr_sn (heap e) c = addr_sn h1 c).
  { intros c. unfold addr_sn, h1, put_sdu. cbn [h_sdus update]. cbn. destruct (decide (c = seg_sdu x)) as [->|Hne].
    - by rewrite lookup_insert_eq, Hs.
    - by rewrite lookup_insert_ne. }
  set (e2 := if _ >=? _ then emit _ _ else _).
  assert (H2 : exists ev, e2 = e1 <| heap := h1 |> <| events := ev |>).
  { subst e2. unfold emit. destruct (_ >=? _); [by eexists|]. exists (events e). by destruct e. }
  destruct H2 as [ev H2]. rewrite H2. clearbody e2. clear H2 e2. rewrite pdu_bytes_eq. unfold add_bstatus_retx. am_simpl.
  do 2 eexists. split; [reflexivity|]. am_simpl.
  rewrite list_add_spec.
  2: { intros y Hy. destruct (segs_live _ _ Hok1 y) as (t & Ht & _); [|by eexists].
       apply elem_of_cons in Hy as [->|Hy]; [left|right]. rewrite !elem_of_app. tauto. }
  split; [reflexivity|]. am_simpl. split; [apply insert_before_perm|].
  split; [|done]. set (l := insert_before _ _ _).
  assert (Hp : l ≡ₚ x :: retransmit_list e) by apply insert_before_perm.
  assert (Hx : x ∈ (x :: rest) ++ retransmit_list e) by left.
  assert (Hsort : StronglySorted (seg_lt (sn_modulus e) (tx_next_ack e) (addr_sn h1)) l).
  { apply insert_sorted.
    - apply (tx_ack_range e Hwf).
    - rewrite <- Hf. by apply (ord_sent _ _ _ _ _ _ _ _ Hord).
    - intros y Hy. destruct (sent_comparable _ _ _ _ _ _ _ _ _ x y Hord Hok) as [H1 H2];
        [rewrite !elem_of_app; tauto|done|cbn; rewrite elem_of_cons, elem_of_app; tauto|].
      unfold comparable. by rewrite <- !Hf.
    - eapply sorted_ext; [|exact (ord_retx _ _ _ _ _ _ _ _ Hord)]. auto. }
  destruct Hwf as [? ? ? ? ? ? ? ? Hby ? Hrs].
  constructor; try assumption; unfold all_segs; subst e1; am_simpl.
  - eapply segs_ok_perm; [|exact Hok1]. rewrite Hp, perm_retx. done.
  - eapply order_ext; [exact Hf|]. eapply order_move; [exact Hord| | |].
    + rewrite Hp. cbn. symmetry. apply Permutation_middle.
    + pose proof (ord_wait _ _ _ _ _ _ _ _ Hord) as Hws. by inversion_clear Hws.
    + eapply sorted_ext; [|exact Hsort]. auto.
  - reflexivity.
  - rewrite Hby, <- Hbytes1. reflexivity.
  - cbn. rewrite (sumZ_perm _ _ _ Hp), Hrs. cbn. lia.
Qed.

(** The expiry of t-PollRetransmit, when there is something to retransmit. *)
Lemma check_t_poll_retransmit_wf e :
  tx_wf e -> wait_list e <> [] \/ check_poll_after_pdu_assembly e = false \/
             t_poll_retransmit_start e = 0 ->
  exists e', check_t_poll_retransmit e = Ok e' /\ tx_wf e' /\ tx_list e' = tx_list e /\
    wait_list e' ++ retransmit_list e' ≡ₚ wait_list e ++ retransmit_list e.
Proof.
  intros Hwf Hdue. unfold check_t_poll_retransmit, expired.
  destruct (negb (negb _)) eqn:Ex; [by exists e|]. b2p.
  destruct (negb (check_poll_after_pdu_assembly _)) eqn:Ep.
  { eexists. split; [reflexivity|]. split; [tx_unchanged Hwf|done]. }
  change (check_poll_after_pdu_assembly _) with (check_poll_after_pdu_assembly e) in Ep. b2p.
  destruct Hdue as [Hw|[Hw|Hw]]; [|congruence|congruence].
  destruct (wait_list e) as [|x rest] eqn:Hwl; [done|]. am_simpl. rewrite Hwl.
  set (e0 := e <| t_poll_retransmit_start := 0 |> <| force_poll := true |>).
  assert (Hwf0 : tx_wf e0) by tx_unchanged Hwf.
  set (e1 := match rest with [] => _ | _ => _ end).
  assert (E1 : e1 = e0 <| wait_list := rest |> <| wait_end := seg_addr <$> list.last rest |>).
  { subst e1 e0. clear Hwf0. destruct rest as [|y rest]; [done|]. pose proof (wait_end_ok e Hwf) as He.
    rewrite Hwl, last_cons_cons in He. destruct e. cbn in *. by rewrite He. }
  rewrite E1. clearbody e1. clear E1 e1.
  destruct (poll_retransmit_step e0 x rest Hwf0 Hwl) as (e2 & l & E2 & El & Hp & Hwf2 & W & T).
  rewrite E2. cbn [rbind]. rewrite El. cbn [rbind]. eexists. split; [reflexivity|]. split; [exact Hwf2|].
  am_simpl. rewrite W, T. split; [done|]. rewrite Hp. cbn. symmetry. apply Permutation_middle.
Qed.

(** ** Discard and release *)

Lemma find_sdu_id_spec h id l : forall before,
  (forall y, y ∈ l -> is_Some (h_sdus h !! seg_sdu y)) ->
  exists r, find_sdu_id h id before l = Ok r /\
    match r with
    | None => forall y s, y ∈ l -> h_sdus h !! seg_sdu y = Some s -> upper_layer_id s <> id
    | Some (b, cur, rest) => before ++ l = b ++ cur :: rest /\
        exists s, h_sdus h !! seg_sdu cur = Some s /\ upper_layer_id s = id
    end.
Proof.
  induction l as [|x l IH]; intros before Hl.
  { exists None. split; [done|]. intros y s Hy. by apply not_elem_of_nil in Hy. }
  destruct (Hl x) as [s Hs]; [left|]. cbn [find_sdu_id]. unfold get_sdu. rewrite Hs. cbn [rbind].
  destruct (Z.eqb_spec (upper_layer_id s) id) as [E|E]; cbn [negb].
  - eexists. split; [done|]. split; [done|]. by exists s.
  - destruct (IH (before ++ [x])) as (r & Er & Hr); [intros y Hy; apply Hl; by right|].
    exists r. split; [done|]. destruct r as [[[b cur] rest]|].
    + destruct Hr as [Hb ?]. split; [|done]. by rewrite <- app_assoc in Hb.
    + intros y t [->|Hy]%elem_of_cons Ht; [congruence|by apply (Hr y t)].
Qed.

Lemma addr_sn_delete h a b :
  addr_sn (h <| h_sdus := delete a (h_sdus h) |>) b = if decide (b = a) then -1 else addr_sn h b.
Proof.
  unfold addr_sn. cbn [h_sdus update]. cbn. destruct (decide (b = a)) as [->|Hne].
  - by rewrite lookup_delete_eq.
  - by rewrite lookup_delete_ne.
Qed.

(** Taking a whole SDU out of the queue. *)
Lemma order_discard M W ack next f b cur rest wait retx :
  order_ok M W ack next f (b ++ cur :: rest) wait retx ->
  (forall y, y ∈ b ++ rest ++ wait ++ retx -> seg_sdu y <> seg_sdu cur) ->
  order_ok M W ack next (fun a => if decide (a = seg_sdu cur) then -1 else f a) (b ++ rest) wait retx.
Proof.
  intros [H1 H2 H3 H4 H5] Hno. set (g := fun a => _).
  assert (Hg : forall y, y ∈ b ++ rest ++ wait ++ retx -> f (seg_sdu y) = g (seg_sdu y))
    by (intros y Hy; unfold g; rewrite decide_False; [done|by apply Hno]).
  assert (Hq : queue_ok f next (b ++ rest)).
  { destruct b as [|x b]; cbn [app queue_ok] in *.
    - destruct H1 as [_ H1]. destruct rest as [|y rest]; [done|]. inversion_clear H1. split; [by left|done].
    - destruct H1 as [? H1]. split; [done|]. apply Forall_app in H1 as [? H1]. inversion_clear H1.
      by apply Forall_app. }
  split.
  - assert (Hgq : forall y, y ∈ b ++ rest -> f (seg_sdu y) = g (seg_sdu y)).
    { intros y Hy. apply Hg. rewrite elem_of_app in Hy. rewrite !elem_of_app. tauto. }
    destruct (b ++ rest) as [|x l]; [done|]. cbn [queue_ok] in *. unfold unsent in *.
    rewrite <- (Hgq x) by left. destruct Hq as [? Hq]. split; [done|]. rewrite list.Forall_forall in *.
    intros y Hy. rewrite <- (Hgq y) by by right. by apply Hq.
  - intros y Hy. unfold sent_ok. rewrite <- Hg by (rewrite !elem_of_app in *; tauto).
    destruct (H2 y Hy) as [? [?|(E & t & tl & Et & Es)]]; (split; [done|]); [by left|].
    destruct b as [|x b]; cbn in Et; injection Et as <- <-.
    + exfalso. apply (Hno y); [rewrite !elem_of_app in *; tauto|by rewrite Es].
    + right. split; [done|]. by exists x, (b ++ rest).
  - intros a c. unfold g. destruct (decide _), (decide _); [congruence|done|congruence|apply H3].
  - eapply sorted_ext; [|exact H4]. intros y Hy. apply Hg. rewrite !elem_of_app. tauto.
  - eapply sorted_ext; [|exact H5]. intros y Hy. apply Hg. rewrite !elem_of_app. tauto.
Qed.

(** Nothing to discard: no SDU of the queue has the identity [id], or the one that has
    was sent in part. *)
Definition kept_whole (e : nr_rlc_entity_am_t) (id : Z) : Prop :=
  (forall y s, y ∈ tx_list e -> h_sdus (heap e) !! seg_sdu y = Some s -> upper_layer_id s <> id) \/
  exists cur s, cur ∈ tx_list e /\ h_sdus (heap e) !! seg_sdu cur = Some s /\ upper_layer_id s = id /\
    (seg_is_first cur = false \/ seg_is_last cur = false).

(** [nr_rlc_entity_am_discard_sdu] never fails and keeps the invariant; only a whole,
    unsent SDU of that identity leaves the queue. *)
Lemma am_discard_spec e id :
  tx_wf e ->
  exists e', nr_rlc_entity_am_discard_sdu e id = Ok e' /\ tx_wf e' /\
    wait_list e' = wait_list e /\ retransmit_list e' = retransmit_list e /\
    ((e' = e /\ kept_whole e id) \/
     exists b cur rest s, tx_list e = b ++ cur :: rest /\ tx_list e' = b ++ rest /\
       seg_is_first cur = true /\ seg_is_last cur = true /\
       h_sdus (heap e) !! seg_sdu cur = Some s /\ upper_layer_id s = id /\
       tx_size e' = tx_size e - sdu_size s).
Proof.
  intros Hwf. pose proof (tx_segs e Hwf) as Hok. unfold nr_rlc_entity_am_discard_sdu.
  destruct (find_sdu_id_spec (heap e) id (tx_list e) []) as (r & Er & Hr).
  { intros y Hy. destruct (segs_live _ _ Hok y) as (s & ? & _); [|by eexists].
    unfold all_segs. rewrite !elem_of_app. tauto. }
  rewrite Er. cbn [rbind]. destruct r as [[[b cur] rest]|].
  2: { exists e. split; [done|]. split; [done|]. split; [done|]. split; [done|]. left. split; [done|by left]. }
  destruct Hr as (Htx & s & Hs & Hid). cbn [app] in Htx.
  destruct (negb (seg_is_first cur) || negb (seg_is_last cur)) eqn:Hfl.
  { exists e. split; [done|]. split; [done|]. split; [done|]. split; [done|]. left. split; [done|right].
    exists cur, s. rewrite Htx, elem_of_app, elem_of_cons. apply orb_true_iff in Hfl.
    rewrite !negb_true_iff in Hfl. tauto. }
  apply orb_false_iff in Hfl as [Hf Hl]. apply negb_false_iff in Hf, Hl.
  unfold all_segs in Hok. rewrite Htx in Hok.
  assert (Hperm : (b ++ cur :: rest) ++ wait_list e ++ retransmit_list e
                  ≡ₚ cur :: b ++ rest ++ wait_list e ++ retransmit_list e).
  { rewrite <- app_assoc. cbn. by rewrite <- Permutation_middle. }
  rewrite Hperm in Hok.
  assert (Hno : forall y, y ∈ b ++ rest ++ wait_list e ++ retransmit_list e -> seg_sdu y <> seg_sdu cur)
    by (intros y; apply (whole_alone _ _ _ _ Hok Hf Hl)).
  destruct (segs_ok_free _ _ _ Hok) as (s0 & h' & Hs0 & Efree & Hok' & _ & Hbytes & Hh').
  rewrite Hs in Hs0. injection Hs0 as <-.
  rewrite (refs_zero _ _ Hno) in Hbytes, Hh'. rewrite decide_True in Hbytes by done.
  rewrite decide_True in Hh' by done.
  unfold add_bstatus_tx. am_simpl. unfold get_sdu.
  assert (Heq : forall X, heap (if decide (tx_end e = Some (seg_addr cur))
                                then e <| tx_list := b ++ rest |> <| tx_end := X |>
                                else e <| tx_list := b ++ rest |>) = heap e) by (intros X; by destruct (decide _)).
  set (e1 := if decide _ then _ else _).
  assert (E1 : e1 = e <| tx_list := b ++ rest |> <| tx_end := seg_addr <$> list.last (b ++ rest) |>).
  { subst e1. pose proof (tx_end_ok e Hwf) as He. rewrite Htx in He.
    assert (Hlast : rest <> [] -> tx_end e = seg_addr <$> list.last (b ++ rest) /\
              tx_end e <> Some (seg_addr cur)).
    { intros Hne. destruct rest as [|y rest]; [done|]. rewrite last_app_cons, last_cons_cons in He.
      rewrite He, last_app_cons. split; [done|]. destruct (list.last (y :: rest)) as [z|] eqn:Ez; [|done].
      cbn. intros [= E]. apply last_Some_elem_of in Ez.
      pose proof (segs_nodup _ _ Hok) as Hnd. rewrite fmap_cons, list.NoDup_cons in Hnd. apply (proj1 Hnd).
      rewrite <- E. apply list_elem_of_fmap_2. rewrite !elem_of_app. tauto. }
    destruct rest as [|y rest].
    - rewrite last_snoc in He. rewrite decide_True by done. by rewrite app_nil_r.
    - destruct (Hlast ltac:(done)) as [H1 H2]. rewrite decide_False by done. rewrite <- H1. by destruct e. }
  rewrite E1. clearbody e1. clear E1 e1 Heq. am_simpl. rewrite Hs. cbn [rbind]. am_simpl.
  rewrite Efree. cbn [rbind]. eexists. split; [reflexivity|]. am_simpl.
  split; [|split; [done|split; [done|right; by exists b, cur, rest, s]]].
  pose proof (tx_order e Hwf) as Hord. rewrite Htx in Hord.
  pose proof (order_discard _ _ _ _ _ _ _ _ _ _ Hord Hno) as Hord'.
  destruct Hwf as [? ? ? ? ? ? ? ? Hby Hts ?].
  constructor; try assumption; unfold all_segs; am_simpl.
  - by rewrite <- app_assoc.
  - eapply order_ext; [|exact Hord']. intros a. unfold addr_sn. rewrite Hh'.
    destruct (decide (a = seg_sdu cur)) as [->|Hne]; [by rewrite lookup_delete_eq|by rewrite lookup_delete_ne].
  - reflexivity.
  - rewrite Hby, Hbytes. lia.
  - cbn. rewrite pdu_bytes_eq. cbn. rewrite Hts, Htx, !sumZ_app. cbn. lia.
Qed.

(** Clearing the entity frees every SDU exactly once. *)
Lemma am_clear_spec e :
  segs_ok (heap e) (all_segs e) ->
  exists e', clear_entity e = Ok e' /\ h_sdus (heap e') = ∅ /\ all_segs e' = [].
Proof.
  intros Hok. unfold clear_entity, all_segs in *.
  destruct (segs_ok_free_list _ _ _ Hok) as (h1 & -> & Hok1). cbn [rbind].
  destruct (segs_ok_free_list _ _ _ Hok1) as (h2 & -> & Hok2). cbn [rbind].
  rewrite <- (app_nil_r (retransmit_list e)) in Hok2.
  destruct (segs_ok_free_list _ _ _ Hok2) as (h3 & -> & Hok3). cbn [rbind].
  eexists. split; [reflexivity|]. cbn [heap tx_list wait_list retransmit_list].
  split; [by apply segs_ok_nil|done].
Qed.
