(* ===== verification/RlcAmAck.v ===== *)
(** Positive acknowledgement in the acknowledged-mode entity: what a status PDU without
    NACKs does to the transmission side. *)

From S2P Require Import Prelude.
From S2P Require Import RlcPdu.
From S2P Require Import RlcSdu.
From S2P Require Import RlcSegs.
From S2P Require Import RlcAm.
From S2P Require Import RlcAmRx.
From S2P Require Import RlcEntity.
From S2P Require Import RlcAmTx.
From S2P Require Import RlcAmSend.
From Stdlib Require Import Sorting.Sorted.

(** ** Releasing segments *)

(** The upper-layer identity of the SDU of a segment. *)
Definition sdu_id_of (h : sdu_heap) (x : nr_rlc_sdu_segment_t) : Z :=
  from_option upper_layer_id 0 (h_sdus h !! seg_sdu x).

(** The deliveries reported when the segments [l] are released in order and those of
    [l'] remain: one for each SDU that loses its last segment. *)
Fixpoint completions (h : sdu_heap) (l l' : list nr_rlc_sdu_segment_t) : list rlc_event :=
  match l with
  | [] => []
  | x :: tl =>
    (if decide (refs (seg_sdu x) (tl ++ l') = 0) then [sdu_successful_delivery (sdu_id_of h x)] else [])
    ++ completions h tl l'
  end.

(** The fields that releasing segments leaves alone, as far as they matter here. *)
Definition frame (e : nr_rlc_entity_am_t) :=
  ((sn_field_length e, sn_modulus e, window_size e, tx_next e, tx_next_ack e),
   (tx_list e, tx_end e, wait_list e, wait_end e, retransmit_list e),
   (rx_next e, rx_highest_status e, rx_next_highest e, rx_next_status_trigger e),
   (rx_list e, rx_size e, rx_maxsize e, t_poll_retransmit_start e)).

(** [e'] is [e] after the segments [l] were released, while [l'] remain. *)
Record released (e : nr_rlc_entity_am_t) (l l' : list nr_rlc_sdu_segment_t) (e' : nr_rlc_entity_am_t) : Prop := {
  rel_fields : frame e' = frame e;
  rel_segs : segs_ok (heap e') l';
  rel_bytes : tx_size e' - heap_bytes (heap e') = tx_size e - heap_bytes (heap e);
  rel_sns : forall a, addr_sn (heap e') a = if decide (refs a l' = 0) then -1 else addr_sn (heap e) a;
  rel_ids : forall x, x ∈ l' -> sdu_id_of (heap e') x = sdu_id_of (heap e) x;
  rel_events : events e' = events e ++ completions (heap e) l l';
  rel_tx_status : bs_tx_size (bstatus e') = bs_tx_size (bstatus e)
}.

Lemma refs_app a l1 l2 : refs a (l1 ++ l2) = refs a l1 + refs a l2.
Proof. apply sumZ_app. Qed.

Lemma addr_sn_absent h l a : segs_ok h l -> refs a l = 0 -> addr_sn h a = -1.
Proof.
  intros Hok Hr. unfold addr_sn. destruct (h_sdus h !! a) as [s|] eqn:E; [|done].
  destruct (sdus_owned h l Hok a s E) as (_ & _ & ? & _). lia.
Qed.

Lemma released_nil e l' : segs_ok (heap e) l' -> released e [] l' e.
Proof.
  intros Hok. constructor; try done.
  - intros a. destruct (decide _); [by eapply addr_sn_absent|done].
  - by rewrite app_nil_r.
Qed.

(** The bytes of the retransmissions do not matter here. *)
Lemma released_retx e e' l l' n :
  released e l l' e' -> released (add_bstatus_retx e n) l l' (e' <| bstatus := (bstatus e') <| bs_retx_size := bs_retx_size (bstatus e') + n |> |>).
Proof.
  intros [Hf H1 H2 H3 H4 H5 H6]. by constructor.
Qed.

Lemma ack_segment_released e x l' :
  segs_ok (heap e) (x :: l') ->
  exists e', ack_segment e x = Ok e' /\ released e [x] l' e' /\ bstatus e' = bstatus e.
Proof.
  intros Hok. destruct (segs_ok_free _ _ _ Hok) as (s & h' & Hs & Ef & Hok' & _ & Hb & Hh).
  unfold ack_segment, get_sdu. rewrite Hs. cbn [rbind]. rewrite Ef. cbn [rbind].
  set (z := refs (seg_sdu x) l' = 0) in *.
  assert (Hsn : forall a, addr_sn h' a = if decide (refs a l' = 0) then -1 else addr_sn (heap e) a).
  { intros a. destruct (decide (refs a l' = 0)) as [Hz|Hz]; [by eapply addr_sn_absent|].
    unfold addr_sn. rewrite Hh. destruct (decide (a = seg_sdu x)) as [->|Hne].
    - subst z. rewrite decide_False by done. by rewrite lookup_insert_eq, Hs.
    - destruct (decide z); [by rewrite lookup_delete_ne|by rewrite lookup_insert_ne]. }
  assert (Hid : forall y, y ∈ l' -> sdu_id_of h' y = sdu_id_of (heap e) y).
  { intros y Hy. unfold sdu_id_of. rewrite Hh. destruct (decide (seg_sdu y = seg_sdu x)) as [E|Hne].
    - rewrite decide_False by (subst z; pose proof (refs_pos _ y l' Hy E); lia).
      by rewrite E, lookup_insert_eq, Hs.
    - destruct (decide z); [by rewrite lookup_delete_ne|by rewrite lookup_insert_ne]. }
  assert (Hcomp : completions (heap e) [x] l'
            = if decide z then [sdu_successful_delivery (upper_layer_id s)] else []).
  { cbn [completions app]. rewrite app_nil_r. unfold sdu_id_of. by rewrite Hs. }
  destruct (decide z) as [Hz|Hz]; [rewrite bool_decide_true by done|rewrite bool_decide_false by done].
  - eexists. split; [reflexivity|]. split; [|done]. constructor; am_simpl; try done.
    + unfold emit. am_simpl. lia.
    + unfold emit. am_simpl. by rewrite Hcomp.
  - eexists. split; [reflexivity|]. split; [|done]. constructor; am_simpl; try done.
    + lia.
    + by rewrite Hcomp, app_nil_r.
Qed.

Lemma completions_app h l1 l2 l' :
  completions h (l1 ++ l2) l' = completions h l1 (l2 ++ l') ++ completions h l2 l'.
Proof.
  induction l1 as [|x l1 IH]; [done|]. cbn [app completions]. by rewrite IH, <- !app_assoc.
Qed.

Lemma completions_ext h h' l l' :
  (forall x, x ∈ l -> sdu_id_of h' x = sdu_id_of h x) -> completions h' l l' = completions h l l'.
Proof.
  induction l as [|x l IH]; intros Hid; [done|]. cbn [completions].
  rewrite (Hid x) by left. rewrite IH; [done|]. intros y Hy. apply Hid. by right.
Qed.

Lemma released_app e l1 e1 l2 l' e2 :
  released e l1 (l2 ++ l') e1 -> released e1 l2 l' e2 -> released e (l1 ++ l2) l' e2.
Proof.
  intros [F1 S1 B1 N1 I1 E1 T1] [F2 S2 B2 N2 I2 E2 T2]. constructor.
  - congruence.
  - done.
  - lia.
  - intros a. rewrite N2, N1. destruct (decide (refs a l' = 0)) as [|Hz]; [done|].
    rewrite decide_False; [done|]. rewrite refs_app.
    pose proof (refs_nonneg a l2). pose proof (refs_nonneg a l'). lia.
  - intros x Hx. rewrite I2 by done. apply I1. rewrite elem_of_app. by right.
  - rewrite E2, E1, completions_app, <- app_assoc. do 2 f_equal. apply completions_ext.
    intros x Hx. apply I1. rewrite elem_of_app. by left.
  - congruence.
Qed.

Lemma released_sn e l l' e' x : released e l l' e' -> x ∈ l' -> addr_sn (heap e') (seg_sdu x) = addr_sn (heap e) (seg_sdu x).
Proof.
  intros Hr Hx. rewrite (rel_sns _ _ _ _ Hr), decide_False; [done|].
  pose proof (refs_pos _ x l' Hx eq_refl). lia.
Qed.

(** ** The two loops *)

(** A segment below the acknowledged SN. *)
Definition below (e : nr_rlc_entity_am_t) (ack_sn : Z) (x : nr_rlc_sdu_segment_t) : Prop :=
  modulus_tx e (addr_sn (heap e) (seg_sdu x)) < modulus_tx e ack_sn.

(** [l] is cut into the segments below [ack_sn] and the rest. *)
Definition cut_at (e : nr_rlc_entity_am_t) (ack_sn : Z) (l l1 l2 : list nr_rlc_sdu_segment_t) : Prop :=
  l = l1 ++ l2 /\ Forall (below e ack_sn) l1 /\ match l2 with [] => True | x :: _ => ~ below e ack_sn x end.

Lemma below_ext e e' ack_sn x :
  frame e' = frame e -> addr_sn (heap e') (seg_sdu x) = addr_sn (heap e) (seg_sdu x) ->
  below e' ack_sn x <-> below e ack_sn x.
Proof.
  intros Hf Hs. unfold below, modulus_tx. rewrite Hs. unfold frame in Hf.
  injection Hf as _ -> _ _ -> _ _ _ _ _ _ _ _ _ _ _ _ _. done.
Qed.

(** The wait list: everything below [ack_sn] is released; the end pointer is noted when
    the last segment goes. *)
Lemma ack_wait_list_spec ack_sn l' : forall l c,
  wait_kept c = [] -> wait_rest c = l -> segs_ok (heap (entity_of c)) (l ++ l') ->
  exists l1 l2 e' ew, cut_at (entity_of c) ack_sn l l1 l2 /\
    ack_wait_list l ack_sn c
      = Ok (mk_ctrl e' [] l2 (wait_over c) ew (new_retx c) (cur_retx c) (touched c)) /\
    released (entity_of c) l1 (l2 ++ l') e' /\ bstatus e' = bstatus (entity_of c) /\
    ((exists x, x ∈ l1 /\ wait_end (entity_of c) = Some (seg_addr x)) /\ ew = Some None \/
     (forall x, x ∈ l1 -> wait_end (entity_of c) <> Some (seg_addr x)) /\ ew = end_wait_list c).
Proof.
  induction l as [|x l IH]; intros c Hk Hr Hok; cbn [ack_wait_list].
  { exists [], [], (entity_of c), (end_wait_list c). split; [done|]. split; [by destruct c; cbn in *; subst|].
    split; [by apply released_nil|]. split; [done|]. right. split; [|done].
    intros x Hx. by apply not_elem_of_nil in Hx. }
  destruct (segs_get _ _ x Hok) as (s & Hs & Eg & _); [left|]. rewrite Eg. cbn [rbind].
  assert (Hb : (sn_compare_tx (entity_of c) (sdu_sn s) ack_sn <? 0) = true <-> below (entity_of c) ack_sn x).
  { unfold below. rewrite (addr_sn_get _ _ _ Hs), Z.ltb_lt. unfold sn_compare_tx. lia. }
  destruct (_ <? 0).
  2: { exists [], (x :: l), (entity_of c), (end_wait_list c).
       split; [split; [done|split; [done|]]; intros H; by apply Hb in H|].
       split; [by destruct c; cbn in *; subst|]. split; [by apply released_nil|]. split; [done|].
       right. split; [|done]. intros y Hy. by apply not_elem_of_nil in Hy. }
  destruct (ack_segment_released _ _ _ Hok) as (e1 & E1 & Hr1 & Hbs1). rewrite E1. cbn [rbind].
  set (c1 := (note_end c (x :: l)) <| entity_of := e1 |> <| wait_rest := l |>).
  assert (Hc1 : c1 = mk_ctrl e1 [] l (wait_over c)
            (if decide (Some (seg_addr x) = wait_end (entity_of c)) then Some None else end_wait_list c)
            (new_retx c) (cur_retx c) (touched c)).
  { subst c1. unfold note_end, prev_wait_list. rewrite Hk. cbn [list.head fmap option_fmap option_map list.last].
    destruct c. cbn in *. subst. by destruct (decide _). }
  rewrite Hc1. clearbody c1. clear Hc1 c1. set (c1 := mk_ctrl _ _ _ _ _ _ _ _).
  destruct (IH c1) as (l1 & l2 & e' & ew & (Hl & Hall & Hhd) & Ec & Hr2 & Hbs2 & Hew);
    [done|done|apply (rel_segs _ _ _ _ Hr1)|].
  cbn [entity_of c1 wait_over new_retx cur_retx touched end_wait_list] in *.
  assert (Hsn : forall y, y ∈ l -> below e1 ack_sn y <-> below (entity_of c) ack_sn y).
  { intros y Hy. apply below_ext; [apply (rel_fields _ _ _ _ Hr1)|].
    eapply released_sn; [exact Hr1|]. rewrite elem_of_app. by left. }
  exists (x :: l1), l2, e', ew. split; [split; [by rewrite Hl|split]|].
  - constructor; [by apply Hb|]. rewrite list.Forall_forall in *. intros y Hy. apply Hsn; [|by apply Hall].
    rewrite Hl, elem_of_app. by left.
  - destruct l2 as [|y l2]; [done|]. rewrite <- Hsn; [done|]. rewrite Hl, elem_of_app. right. left.
  - split; [done|]. split; [|split; [congruence|]].
    + apply (released_app _ [x] e1); [|done]. by rewrite app_assoc, <- Hl.
    + assert (Ewe : wait_end e1 = wait_end (entity_of c)).
      { pose proof (rel_fields _ _ _ _ Hr1) as Hf. unfold frame in Hf. by injection Hf. }
      rewrite Ewe in Hew. destruct Hew as [[(y & Hy & Ey) ->]|[Hno ->]].
      * left. split; [|done]. exists y. split; [by right|done].
      * destruct (decide (Some (seg_addr x) = wait_end (entity_of c))) as [E|E].
        -- left. split; [|done]. exists x. split; [left|done].
        -- right. split; [|done]. intros y [->|Hy]%elem_of_cons; [by intros H|by apply Hno].
Qed.

(** The retransmit list. *)
Lemma ack_retransmit_list_spec ack_sn l' : forall l c,
  cur_retx c = l -> segs_ok (heap (entity_of c)) (l ++ l') ->
  exists l1 l2 e', cut_at (entity_of c) ack_sn l l1 l2 /\
    ack_retransmit_list l ack_sn c
      = Ok (mk_ctrl e' (wait_kept c) (wait_rest c) (wait_over c) (end_wait_list c) (new_retx c) l2 (touched c)) /\
    released (entity_of c) l1 (l2 ++ l') e' /\
    bs_retx_size (bstatus e') = bs_retx_size (bstatus (entity_of c))
                                - sumZ (pdu_bytes (sn_field_length (entity_of c))) l1.
Proof.
  induction l as [|x l IH]; intros c Hk Hok; cbn [ack_retransmit_list].
  { exists [], [], (entity_of c). split; [done|]. split; [by destruct c; cbn in *; subst|].
    split; [by apply released_nil|]. cbn. lia. }
  destruct (segs_get _ _ x Hok) as (s & Hs & Eg & _); [left|]. rewrite Eg. cbn [rbind].
  assert (Hb : (sn_compare_tx (entity_of c) (sdu_sn s) ack_sn <? 0) = true <-> below (entity_of c) ack_sn x).
  { unfold below. rewrite (addr_sn_get _ _ _ Hs), Z.ltb_lt. unfold sn_compare_tx. lia. }
  destruct (_ <? 0).
  2: { exists [], (x :: l), (entity_of c).
       split; [split; [done|split; [done|]]; intros H; by apply Hb in H|].
       split; [by destruct c; cbn in *; subst|]. split; [by apply released_nil|]. cbn. lia. }
  rewrite pdu_bytes_eq. set (e0 := add_bstatus_retx _ _).
  destruct (ack_segment_released e0 x (l ++ l') Hok) as (e1 & E1 & Hr1 & Hbs1). rewrite E1. cbn [rbind].
  assert (Hr0 : released (entity_of c) [x] (l ++ l') e1) by (destruct Hr1; by constructor).
  assert (Hbs : bs_retx_size (bstatus e1) = bs_retx_size (bstatus (entity_of c))
                - pdu_bytes (sn_field_length (entity_of c)) x).
  { rewrite Hbs1. unfold e0, add_bstatus_retx. am_simpl. cbn. lia. }
  clearbody e0. clear Hr1 E1 Hbs1 e0. set (c1 := c <| entity_of := e1 |> <| cur_retx := l |>).
  destruct (IH c1) as (l1 & l2 & e' & (Hl & Hall & Hhd) & Ec & Hr2 & Hbs2); [done|apply (rel_segs _ _ _ _ Hr0)|].
  change (entity_of c1) with e1 in *.
  assert (Hsn : forall y, y ∈ l -> below e1 ack_sn y <-> below (entity_of c) ack_sn y).
  { intros y Hy. apply below_ext; [apply (rel_fields _ _ _ _ Hr0)|].
    eapply released_sn; [exact Hr0|]. rewrite elem_of_app. by left. }
  exists (x :: l1), l2, e'. split; [split; [by rewrite Hl|split]|].
  - constructor; [by apply Hb|]. rewrite list.Forall_forall in *. intros y Hy. apply Hsn; [|by apply Hall].
    rewrite Hl, elem_of_app. by left.
  - destruct l2 as [|y l2]; [done|]. rewrite <- Hsn; [done|]. rewrite Hl, elem_of_app. right. left.
  - split; [exact Ec|]. split; [apply (released_app _ [x] e1); [|done]; by rewrite app_assoc, <- Hl|].
    rewrite Hbs2, Hbs. assert (sn_field_length e1 = sn_field_length (entity_of c)) as ->.
    { pose proof (rel_fields _ _ _ _ Hr0) as Hf. unfold frame in Hf. by injection Hf. }
    cbn. lia.
Qed.

(** ** Moving the window *)

Lemma mdist_shift M ack b a :
  0 <= ack < M -> 0 <= b < M -> 0 <= a < M -> mdist M ack b <= mdist M ack a ->
  mdist M b a = mdist M ack a - mdist M ack b.
Proof.
  intros Hk Hb Ha. unfold mdist.
  destruct (Z.ltb_spec (a - ack) 0), (Z.ltb_spec (b - ack) 0), (Z.ltb_spec (a - b) 0); lia.
Qed.

Lemma order_ack M W ack next f g b tx wait retx w1 w2 r1 r2 :
  order_ok M W ack next f tx wait retx -> wait = w1 ++ w2 -> retx = r1 ++ r2 ->
  0 <= ack < M -> 0 <= next < M -> 0 <= b < M -> mdist M ack b <= mdist M ack next ->
  (forall x, x ∈ w2 ++ r2 -> mdist M ack b <= mdist M ack (f (seg_sdu x))) ->
  (forall x, x ∈ tx ++ w2 ++ r2 -> g (seg_sdu x) = f (seg_sdu x)) ->
  (forall a, g a = -1 \/ g a = f a) ->
  order_ok M W b next g tx w2 r2.
Proof.
  intros [H1 H2 H3 H4 H5] -> -> Hk Hn Hb Hbn Hmin Hg Hga.
  assert (Hin : forall x, x ∈ w2 ++ r2 -> x ∈ (w1 ++ w2) ++ r1 ++ r2).
  { intros x. rewrite !elem_of_app. tauto. }
  assert (Hshift : forall x, x ∈ w2 ++ r2 ->
            mdist M b (g (seg_sdu x)) = mdist M ack (f (seg_sdu x)) - mdist M ack b).
  { intros x Hx. rewrite Hg by (rewrite elem_of_app; by right).
    destruct (H2 x (Hin x Hx)) as [Hr _]. by apply mdist_shift, Hmin. }
  assert (Hsort : forall l, (forall x, x ∈ l -> x ∈ w2 ++ r2) ->
            StronglySorted (seg_lt M ack f) l -> StronglySorted (seg_lt M b g) l).
  { intros l Hl. induction 1 as [|x l Hs IH Hall]; constructor.
    - apply IH. intros y Hy. apply Hl. by right.
    - rewrite list.Forall_forall in *. intros y Hy. specialize (Hall y Hy). unfold seg_lt in *.
      rewrite !Hshift by (apply Hl; (left || by right)).
      rewrite !Hg by (rewrite elem_of_app; right; apply Hl; (left || by right)). lia. }
  split.
  - destruct tx as [|x tx]; [done|]. cbn [queue_ok] in *. unfold unsent in *. destruct H1 as [Hx Htx].
    rewrite Hg by left. split; [done|]. rewrite list.Forall_forall in *. intros y Hy.
    rewrite Hg by (cbn; right; rewrite elem_of_app; by left). by apply Htx.
  - intros x Hx. destruct (H2 x (Hin x Hx)) as [Hr Hor]. unfold sent_ok.
    rewrite Hshift, Hg by (done || rewrite elem_of_app; by right).
    rewrite (mdist_shift M ack b next) by done. split; [done|].
    destruct Hor as [?|?]; [left; lia|by right].
  - intros a c Hac Hne. destruct (Hga a) as [?|E1]; [congruence|]. destruct (Hga c) as [?|E2]; [congruence|].
    apply H3; congruence.
  - apply Hsort; [intros x Hx; rewrite elem_of_app; by left|]. by apply ssorted_app in H4 as (_ & ? & _).
  - apply Hsort; [intros x Hx; rewrite elem_of_app; by right|]. by apply ssorted_app in H5 as (_ & ? & _).
Qed.

(** The lowest SN that is still in use. *)
Lemma lower_to_head_spec e l a :
  (forall x, x ∈ l -> is_Some (h_sdus (heap e) !! seg_sdu x)) ->
  StronglySorted (seg_lt (sn_modulus e) (tx_next_ack e) (addr_sn (heap e))) l ->
  exists b, lower_to_head e l a = Ok b /\ modulus_tx e b <= modulus_tx e a /\
    (forall x, x ∈ l -> modulus_tx e b <= modulus_tx e (addr_sn (heap e) (seg_sdu x))) /\
    (b = a \/ exists x, x ∈ l /\ b = addr_sn (heap e) (seg_sdu x)).
Proof.
  intros Hl Hs. destruct l as [|x l].
  { exists a. split; [done|]. split; [lia|]. split; [intros x Hx; by apply not_elem_of_nil in Hx|by left]. }
  destruct (Hl x) as [s Es]; [left|]. cbn [lower_to_head]. unfold get_sdu. rewrite Es. cbn [rbind].
  pose proof (addr_sn_get _ _ _ Es) as Ea.
  assert (Hmin : forall y, y ∈ x :: l ->
            modulus_tx e (sdu_sn s) <= modulus_tx e (addr_sn (heap e) (seg_sdu y))).
  { inversion_clear Hs as [|? ? _ Hall]. rewrite list.Forall_forall in Hall.
    intros y [->|Hy]%elem_of_cons; [rewrite Ea; lia|]. specialize (Hall y Hy). unfold seg_lt in Hall.
    rewrite !modulus_tx_mdist, <- Ea. destruct Hall as [?|[-> _]]; lia. }
  unfold sn_compare_tx. destruct (Z.ltb_spec (modulus_tx e (sdu_sn s) - modulus_tx e a) 0).
  - exists (sdu_sn s). split; [done|]. split; [lia|]. split; [done|]. right. exists x. split; [left|done].
  - exists a. split; [done|]. split; [lia|]. split; [|by left].
    intros y Hy. specialize (Hmin y Hy). lia.
Qed.

(** ** The effect of an acknowledgement *)

(** [a] is the lowest of some SNs, counted from the start of the window. *)
Definition lowest (e : nr_rlc_entity_am_t) (a : Z) (l : list Z) : Prop := a ∈ l /\ Forall (fun b => modulus_tx e a <= modulus_tx e b) l.

(** Behind the first segment that is not below [ack_sn] there is none. *)
Lemma cut_rest e ack_sn l l1 l2 x :
  StronglySorted (seg_lt (sn_modulus e) (tx_next_ack e) (addr_sn (heap e))) l -> cut_at e ack_sn l l1 l2 -> x ∈ l2 -> ~ below e ack_sn x.
Proof.
  intros Hs (-> & _ & Hhd) Hx. apply ssorted_app in Hs as (_ & Hs & _). destruct l2 as [|y l2]; [by apply not_elem_of_nil in Hx|].
  apply elem_of_cons in Hx as [->|Hx]; [done|]. inversion_clear Hs as [|? ? _ Hall]. rewrite List.Forall_forall in Hall.
  specialize (Hall x (proj1 (list_elem_of_In _ _) Hx)). unfold seg_lt, below in *. rewrite !modulus_tx_mdist in *. destruct Hall as [?|[E _]]; [lia|by rewrite <- E].
Qed.

(** What remains of the lists after everything below [ack_sn] was acknowledged: exactly the segments
    that are not below it, and the window starts at the lowest SN in use. *)
Definition acknowledged (e : nr_rlc_entity_am_t) (ack_sn : Z) (e' : nr_rlc_entity_am_t) : Prop :=
  exists w r, cut_at e ack_sn (wait_list e) w (wait_list e') /\
    cut_at e ack_sn (retransmit_list e) r (retransmit_list e') /\ tx_list e' = tx_list e /\
    events e' = events e ++ completions (heap e) (w ++ r) (all_segs e') /\
    tx_next e' = tx_next e /\ sn_modulus e' = sn_modulus e /\
    (forall x, x ∈ wait_list e' ++ retransmit_list e' -> ~ below e ack_sn x) /\
    lowest e (tx_next_ack e') (ack_sn :: tx_next e :: ((fun x => addr_sn (heap e) (seg_sdu x)) <$> wait_list e' ++ retransmit_list e')).

Definition finish_ack (ack_sn : Z) (e : nr_rlc_entity_am_t) : res nr_rlc_entity_am_t :=
  let* c := ack_wait_list (wait_list e) ack_sn (init_ctrl e) in
  let* c := ack_retransmit_list (cur_retx c) ack_sn c in
  finish_control_pdu ack_sn c.

Lemma completions_perm h l l1 l2 : l1 ≡ₚ l2 -> completions h l l1 = completions h l l2.
Proof.
  intros Hp. induction l as [|x l IH]; [done|]. cbn [completions]. rewrite IH, !refs_app. by rewrite (refs_perm (seg_sdu x) _ _ Hp).
Qed.

Lemma segs_is_some h l x : segs_ok h l -> x ∈ l -> is_Some (h_sdus h !! seg_sdu x).
Proof. intros Hok Hx. destruct (segs_live h l Hok x Hx) as (s & ? & _). by eexists. Qed.

Lemma perm_release {A} (tx w1 w2 r1 r2 : list A) :
  tx ++ (w1 ++ w2) ++ r1 ++ r2 ≡ₚ (w1 ++ w2) ++ (r1 ++ r2) ++ tx.
Proof. rewrite Permutation_app_comm. by rewrite <- app_assoc. Qed.

(** The loops together: what they release and what they leave. *)
Lemma ack_loops e ack_sn :
  tx_wf e ->
  exists w1 w2 r1 r2 e2 ew,
    cut_at e ack_sn (wait_list e) w1 w2 /\ cut_at e ack_sn (retransmit_list e) r1 r2 /\
    (let* c := ack_wait_list (wait_list e) ack_sn (init_ctrl e) in
     ack_retransmit_list (cur_retx c) ack_sn c) = Ok (mk_ctrl e2 [] w2 false ew [] r2 false) /\
    released e (w1 ++ r1) (tx_list e ++ w2 ++ r2) e2 /\
    bs_retx_size (bstatus e2) = bs_retx_size (bstatus e) - sumZ (pdu_bytes (sn_field_length e)) r1 /\
    match ew with None => wait_end e | Some p => p end = seg_addr <$> list.last w2.
Proof.
  intros Hwf. pose proof (tx_segs e Hwf) as Hok. unfold all_segs in Hok.
  assert (Hok1 : segs_ok (heap e) (wait_list e ++ retransmit_list e ++ tx_list e)).
  { eapply segs_ok_perm; [|exact Hok]. rewrite Permutation_app_comm. by rewrite <- app_assoc. }
  destruct (ack_wait_list_spec ack_sn (retransmit_list e ++ tx_list e) (wait_list e) (init_ctrl e))
    as (w1 & w2 & e1 & ew & Hcw & E1 & Hr1 & Hb1 & Hew); [done|done|done|].
  cbn [entity_of init_ctrl wait_over new_retx cur_retx touched end_wait_list] in *.
  set (c1 := mk_ctrl e1 _ _ _ _ _ _ _) in *.
  assert (Hok2 : segs_ok (heap e1) (retransmit_list e ++ (w2 ++ tx_list e))).
  { eapply segs_ok_perm; [|exact (rel_segs _ _ _ _ Hr1)]. by rewrite !app_assoc, (Permutation_app_comm w2). }
  destruct (ack_retransmit_list_spec ack_sn (w2 ++ tx_list e) (retransmit_list e) c1)
    as (r1 & r2 & e2 & Hcr & E2 & Hr2 & Hb2); [done|done|].
  change (entity_of c1) with e1 in *.
  pose proof (rel_fields _ _ _ _ Hr1) as Hf1.
  assert (Hcr' : cut_at e ack_sn (retransmit_list e) r1 r2).
  { destruct Hcr as (Hl & Hall & Hhd).
    assert (Hb : forall x, x ∈ retransmit_list e -> below e1 ack_sn x <-> below e ack_sn x).
    { intros x Hx. apply below_ext; [done|]. eapply released_sn; [exact Hr1|]. rewrite !elem_of_app. tauto. }
    split; [done|]. split.
    - rewrite list.Forall_forall in *. intros x Hx. apply Hb; [rewrite Hl, elem_of_app; by left|by apply Hall].
    - destruct r2 as [|x r2]; [done|]. rewrite <- Hb; [done|]. rewrite Hl, elem_of_app. right. left. }
  exists w1, w2, r1, r2, e2, ew. split; [done|]. split; [done|]. split.
  { rewrite E1. cbn [rbind]. change (cur_retx c1) with (retransmit_list e). rewrite E2. done. }
  destruct Hcr as (Hlr & _ & _). destruct Hcw as (Hlw & _ & _).
  split.
  { assert (Hr1' : released e w1 (r1 ++ (r2 ++ w2 ++ tx_list e)) e1).
    { destruct Hr1 as [? S ? N I E ?].
      assert (Hp : w2 ++ retransmit_list e ++ tx_list e ≡ₚ r1 ++ (r2 ++ w2 ++ tx_list e)).
      { rewrite Hlr, !app_assoc, (Permutation_app_comm w2 r1), <- (app_assoc r1 w2 r2).
        by rewrite (Permutation_app_comm w2 r2), !app_assoc. }
      constructor; try done.
      - by rewrite <- Hp.
      - intros a. by rewrite N, (refs_perm a _ _ Hp).
      - intros x. rewrite <- Hp. apply I.
      - by rewrite E, (completions_perm _ _ _ _ Hp). }
    pose proof (released_app _ _ _ _ _ _ Hr1' Hr2) as [? S ? N I E ?].
    assert (Hp : r2 ++ w2 ++ tx_list e ≡ₚ tx_list e ++ w2 ++ r2).
    { rewrite app_assoc, (Permutation_app_comm r2 w2). apply Permutation_app_comm. }
    constructor; try done.
    - by rewrite <- Hp.
    - intros a. by rewrite N, (refs_perm a _ _ Hp).
    - intros x. rewrite <- Hp. apply I.
    - by rewrite E, (completions_perm _ _ _ _ Hp). }
  split.
  { rewrite Hb2, Hb1. unfold frame in Hf1. injection Hf1 as -> _ _ _ _ _ _ _ _ _ _ _ _ _ _ _ _ _. done. }
  pose proof (wait_end_ok e Hwf) as Hend. rewrite Hlw in Hend. pose proof (segs_nodup _ _ Hok1) as Hnd.
  rewrite Hlw, !fmap_app in Hnd. apply list.NoDup_app in Hnd as (Hnd & _ & _).
  apply list.NoDup_app in Hnd as (_ & Hdis & _). destruct w2 as [|y w2].
  - rewrite app_nil_r in Hend. destruct Hew as [[_ ->]|[Hno ->]]; [done|]. rewrite Hend.
    destruct (list.last w1) as [z|] eqn:Ez; [|done]. destruct (Hno z); [by apply last_Some_elem_of|done].
  - rewrite last_app_cons in Hend. destruct Hew as [[(x & Hx & Ex) _]|[_ ->]]; [|done].
    destruct (list.last (y :: w2)) as [z|] eqn:Ez; [|by apply last_None in Ez].
    rewrite Hend in Ex. injection Ex as Ex. destruct (Hdis (seg_addr x)); [by apply list_elem_of_fmap_2|].
    rewrite <- Ex. apply list_elem_of_fmap_2. by apply last_Some_elem_of.
Qed.

(** The last step: the lists are stored and the window moves. *)
Lemma finish_ack_spec e ack_sn :
  tx_wf e -> sn_range e ack_sn ->
  exists e', finish_ack ack_sn e = Ok e' /\ tx_wf e' /\ acknowledged e ack_sn e' /\
    (rx_wf e -> rx_wf e') /\ t_poll_retransmit_start e' = t_poll_retransmit_start e.
Proof.
  intros Hwf Hack. pose proof (tx_order e Hwf) as Hord.
  pose proof (tx_ack_range e Hwf) as Hk. pose proof (tx_next_range e Hwf) as Hn. unfold sn_range in *.
  destruct (ack_loops e ack_sn Hwf) as (w1 & w2 & r1 & r2 & e2 & ew & Hcw & Hcr & E & Hrel & Hbs & Hend).
  assert (Ef : finish_ack ack_sn e = finish_control_pdu ack_sn (mk_ctrl e2 [] w2 false ew [] r2 false)).
  { unfold finish_ack. destruct (ack_wait_list _ _ _) as [c| |f]; cbn [rbind] in *; [|done|done].
    rewrite E. done. }
  rewrite Ef. clear Ef E. unfold finish_control_pdu.
  cbn [entity_of wait_kept wait_rest new_retx cur_retx end_wait_list app].
  pose proof (rel_fields _ _ _ _ Hrel) as Hf. unfold frame in Hf.
  injection Hf as F1 F2 F3 F4 F5 F6 F7 F8 F9 F10 F11 F12 F13 F14 F15 F16 F17 F18.
  set (e3 := match ew with Some p => _ | None => _ end).
  assert (G : heap e3 = heap e2 /\ tx_next e3 = tx_next e /\ tx_next_ack e3 = tx_next_ack e /\
              sn_modulus e3 = sn_modulus e /\ wait_list e3 = w2 /\ retransmit_list e3 = r2 /\
              tx_list e3 = tx_list e /\ wait_end e3 = seg_addr <$> list.last w2 /\ tx_end e3 = tx_end e /\
              tx_size e3 = tx_size e2 /\ bstatus e3 = bstatus e2 /\ window_size e3 = window_size e /\
              sn_field_length e3 = sn_field_length e /\ events e3 = events e2 /\
              rx_next e3 = rx_next e /\ rx_highest_status e3 = rx_highest_status e /\
              rx_next_highest e3 = rx_next_highest e /\ rx_next_status_trigger e3 = rx_next_status_trigger e /\
              rx_list e3 = rx_list e /\ rx_size e3 = rx_size e /\ rx_maxsize e3 = rx_maxsize e /\
              t_poll_retransmit_start e3 = t_poll_retransmit_start e).
  { subst e3. destruct ew as [p|]; am_simpl; rewrite ?F9; repeat split; done. }
  clearbody e3. destruct G as (G1 & G2 & G3 & G4 & G5 & G6 & G7 & G8 & G9 & G10 & G11 & G12 & G13 & G14 & G15).
  pose proof Hcw as (Hlw & Hbw & Hhw). pose proof Hcr as (Hlr & Hbr & Hhr). rewrite G5, G6.
  pose proof (rel_segs _ _ _ _ Hrel) as Hok2.
  assert (Hsn : forall x, x ∈ tx_list e ++ w2 ++ r2 -> addr_sn (heap e3) (seg_sdu x) = addr_sn (heap e) (seg_sdu x)).
  { intros x Hx. rewrite G1. by apply (released_sn _ _ _ _ _ Hrel). }
  assert (Hga : forall a, addr_sn (heap e3) a = -1 \/ addr_sn (heap e3) a = addr_sn (heap e) a).
  { intros a. rewrite G1, (rel_sns _ _ _ _ Hrel). destruct (decide _); tauto. }
  assert (Hm : forall a, modulus_tx e3 a = modulus_tx e a) by (intros a; unfold modulus_tx; by rewrite G3, G4).
  destruct (lower_to_head_spec e3 w2 (tx_next e3)) as (a1 & -> & A1 & A2 & A3).
  { intros x Hx. rewrite G1. eapply segs_is_some; [exact Hok2|]. rewrite !elem_of_app. tauto. }
  { rewrite G3, G4. eapply sorted_ext; [|].
    - intros x Hx. symmetry. apply Hsn. rewrite !elem_of_app. tauto.
    - pose proof (ord_wait _ _ _ _ _ _ _ _ Hord) as Hs. rewrite Hlw in Hs.
      by apply ssorted_app in Hs as (_ & ? & _). }
  cbn [rbind].
  destruct (lower_to_head_spec e3 r2 a1) as (a2 & -> & B1 & B2 & B3).
  { intros x Hx. rewrite G1. eapply segs_is_some; [exact Hok2|]. rewrite !elem_of_app. tauto. }
  { rewrite G3, G4. eapply sorted_ext; [|].
    - intros x Hx. symmetry. apply Hsn. rewrite !elem_of_app. tauto.
    - pose proof (ord_retx _ _ _ _ _ _ _ _ Hord) as Hs. rewrite Hlr in Hs.
      by apply ssorted_app in Hs as (_ & ? & _). }
  cbn [rbind]. set (b := if _ <? 0 then ack_sn else a2).
  assert (Hin : forall x, x ∈ w2 ++ r2 -> 0 <= addr_sn (heap e) (seg_sdu x) < sn_modulus e).
  { intros x Hx. apply (ord_sent _ _ _ _ _ _ _ _ Hord). rewrite Hlw, Hlr. rewrite !elem_of_app in *. tauto. }
  assert (Ra1 : 0 <= a1 < sn_modulus e).
  { destruct A3 as [->|(x & Hx & ->)]; [by rewrite G2|]. rewrite Hsn by (rewrite !elem_of_app; tauto).
    apply Hin. rewrite elem_of_app. tauto. }
  assert (Ra2 : 0 <= a2 < sn_modulus e).
  { destruct B3 as [->|(x & Hx & ->)]; [done|]. rewrite Hsn by (rewrite !elem_of_app; tauto).
    apply Hin. rewrite elem_of_app. tauto. }
  assert (Hb : 0 <= b < sn_modulus e /\ modulus_tx e b <= modulus_tx e a2 /\ modulus_tx e b <= modulus_tx e ack_sn /\ (b = ack_sn \/ b = a2)).
  { subst b. unfold sn_compare_tx. rewrite !Hm.
    destruct (Z.ltb_spec (modulus_tx e ack_sn - modulus_tx e a2) 0); (split_and!; [lia|lia|lia|lia|tauto]). }
  clearbody b. destruct Hb as (Hbr' & Hb2 & Hb3 & Hb4). rewrite !Hm, G2 in *.
  assert (Hbn : modulus_tx e b <= modulus_tx e (tx_next e)) by lia.
  assert (Hmin : forall x, x ∈ w2 ++ r2 -> modulus_tx e b <= modulus_tx e (addr_sn (heap e) (seg_sdu x))).
  { intros x Hx. rewrite <- Hsn by (rewrite !elem_of_app in *; tauto). apply elem_of_app in Hx as [Hx|Hx].
    - specialize (A2 x Hx). rewrite !Hm in A2. lia.
    - specialize (B2 x Hx). rewrite !Hm in B2. lia. }
  assert (Hconf : am_conf (e3 <| tx_next_ack := b |>)).
  { unfold am_conf. am_simpl. rewrite G4, G12, G13. apply (tx_conf e Hwf). }
  eexists. split; [reflexivity|]. split; [|split].
  - constructor; unfold all_segs, sn_range, modulus_tx; am_simpl; rewrite ?G1, ?G2, ?G4, ?G5, ?G6, ?G7, ?G12, ?G13.
    + done.
    + done.
    + done.
    + change (mdist (sn_modulus e) b (tx_next e) <= window_size e).
      rewrite (mdist_shift _ (tx_next_ack e) b) by done. pose proof (tx_window e Hwf) as Hw.
      rewrite modulus_tx_mdist in Hw. pose proof (mdist_bound _ _ _ Hk Hbr'). lia.
    + exact Hok2.
    + eapply (order_ack _ _ _ _ _ _ b _ _ _ w1 w2 r1 r2 Hord Hlw Hlr); try done.
      * intros x Hx. rewrite <- G1. by apply Hsn.
      * intros a. rewrite <- G1. apply Hga.
    + rewrite G9. apply (tx_end_ok e Hwf).
    + exact G8.
    + rewrite G10. pose proof (rel_bytes _ _ _ _ Hrel). pose proof (tx_bytes e Hwf). lia.
    + rewrite G11, (rel_tx_status _ _ _ _ Hrel). apply (tx_status e Hwf).
    + rewrite G11, Hbs, (retx_status e Hwf), Hlr, sumZ_app. lia.
  - exists w1, r1. am_simpl. rewrite G5, G6, G7, G14, G2, G4. split; [done|]. split; [done|]. split; [done|].
    split; [rewrite (rel_events _ _ _ _ Hrel); f_equal; unfold all_segs; am_simpl; by rewrite G5, G6, G7|]. split; [done|]. split; [done|]. split.
    + intros x Hx. apply elem_of_app in Hx as [Hx|Hx]; [apply (cut_rest e ack_sn _ _ _ x (ord_wait _ _ _ _ _ _ _ _ Hord) Hcw Hx)|
        apply (cut_rest e ack_sn _ _ _ x (ord_retx _ _ _ _ _ _ _ _ Hord) Hcr Hx)].
    + split.
      * assert (Hsome : forall x, x ∈ w2 \/ x ∈ r2 -> addr_sn (heap e3) (seg_sdu x) ∈ (fun x => addr_sn (heap e) (seg_sdu x)) <$> w2 ++ r2).
        { intros x Hx. rewrite Hsn by (rewrite !elem_of_app; tauto). apply list_elem_of_fmap. exists x. by rewrite elem_of_app. }
        rewrite !elem_of_cons. destruct Hb4 as [-> | ->]; [by left|]. destruct B3 as [->|(x & Hx & ->)]; [|right; right; by apply Hsome; right].
        destruct A3 as [->|(x & Hx & ->)]; [by right; left|right; right; by apply Hsome; left].
      * constructor; [done|]. constructor; [done|]. apply list.Forall_forall. intros y Hy. apply list_elem_of_fmap in Hy as (x & -> & Hx). by apply Hmin.
  - split; [|am_simpl; apply G15]. intros (R1 & R2 & R3 & R4 & R5 & R6 & R7). destruct G15 as (X1 & X2 & X3 & X4 & X5 & X6 & X7 & _).
    unfold rx_wf, sn_range. am_simpl. rewrite G4, G12, X1, X2, X3, X4, X5, X6, X7. done.
Qed.

(** ** The PDU *)

(** A status PDU that acknowledges everything below [ack_sn], as [generate_status]
    writes it when there is nothing to report. *)
Definition ack_pdu (e : nr_rlc_entity_am_t) (ack_sn : Z) : list Z := put_ack_sn e [0; 0; 0] ack_sn.

Definition ack_fields (e : nr_rlc_entity_am_t) (ack_sn : Z) : list (Z * Z) :=
  [(0, 1); (0, 3); (ack_sn, sn_field_length e); (0, 1); (0, if sn_field_length e =? 18 then 1 else 7)].

Lemma testbit_high a n j : 0 <= a < 2 ^ n -> 0 <= n <= j -> Z.testbit a j = false.
Proof. intros Ha Hn. rewrite <- (Z.mod_small a (2 ^ n)) by done. apply Z.mod_pow2_bits_high. lia. Qed.

Lemma testbit_u8 a j : 0 <= j < 8 -> Z.testbit (u8 a) j = Z.testbit a j.
Proof. intros Hj. unfold u8. apply Z.mod_pow2_bits_low. lia. Qed.

(** One bit of a byte, in terms of the bits of the SN it is made of. *)
Ltac sn_bit :=
  repeat match goal with |- context [Z.of_nat ?n] =>
    let k := eval compute in (Z.of_nat n) in change (Z.of_nat n) with k end;
  rewrite ?testbit_u8 by lia;
  rewrite ?Z.lor_spec, ?Z.shiftl_spec, ?Z.land_spec, ?Z.shiftr_spec by lia;
  repeat match goal with |- context [Z.testbit ?a (?i + ?j)] =>
    let k := eval compute in (i + j) in change (i + j) with k end;
  repeat match goal with |- context [Z.testbit ?a (?i - ?j)] =>
    let k := eval compute in (i - j) in change (i - j) with k end;
  repeat match goal with |- context [Z.testbit ?c ?k] =>
    lazymatch c with 255 => idtac | 63 => idtac | 0 => idtac end;
    let v := eval compute in (Z.testbit c k) in change (Z.testbit c k) with v end;
  rewrite ?andb_true_r, ?andb_false_r, ?orb_false_l;
  first [reflexivity | eapply testbit_high; [eassumption|lia]].

Lemma ack_pdu_bits e ack_sn :
  am_conf e -> sn_range e ack_sn -> bytes_bits (ack_pdu e ack_sn) = fields_bits (ack_fields e ack_sn).
Proof.
  intros [[[HL HM]|[HL HM]] _] Hr; unfold sn_range in Hr; rewrite HM in Hr;
    unfold ack_pdu, put_ack_sn, ack_fields; rewrite HL; cbn [Z.eqb Pos.eqb].
  - change 4096 with (2 ^ 12) in Hr.
    change (bytes_bits [u8 (Z.shiftr ack_sn 8); u8 (Z.land ack_sn 255); 0]
            = replicate 4 false ++ bits_be 12 ack_sn ++ replicate 8 false).
    unfold bytes_bits. cbn [flat_map bits_be app replicate].
    repeat (apply f_equal2; [sn_bit|]). reflexivity.
  - change 262144 with (2 ^ 18) in Hr.
    change (bytes_bits [u8 (Z.shiftr ack_sn 14); u8 (Z.land (Z.shiftr ack_sn 6) 255);
                        u8 (Z.lor 0 (Z.shiftl (Z.land ack_sn 0x3f) 2))]
            = replicate 4 false ++ bits_be 18 ack_sn ++ replicate 2 false).
    unfold bytes_bits. cbn [flat_map bits_be app replicate].
    repeat (apply f_equal2; [sn_bit|]). reflexivity.
Qed.

(** Decoding of such a PDU. *)
Lemma ack_pdu_decoded e ack_sn :
  am_conf e -> sn_range e ack_sn ->
  nr_rlc_entity_am_recv_pdu e (ack_pdu e ack_sn) =
  finish_ack ack_sn (if sn_compare_tx e (poll_sn e) ack_sn <? 0
                     then e <| t_poll_retransmit_start := 0 |> else e).
Proof.
  intros Hc Hr. pose proof (ack_pdu_bits e ack_sn Hc Hr) as Hbits.
  assert (HL : 0 < sn_field_length e <= 31 /\ 0 <= ack_sn < 2 ^ sn_field_length e).
  { unfold sn_range in Hr. destruct Hc as [[[-> Hm]|[-> Hm]] _]; rewrite Hm in Hr; lia. }
  destruct HL as [HL1 HL2].
  unfold nr_rlc_entity_am_recv_pdu, process_control_pdu. set (buf := ack_pdu e ack_sn) in *.
  set (d0 := nr_rlc_pdu_decoder_init _ _).
  assert (Hok0 : dec_ok d0) by apply dec_ok_init.
  assert (Hrem0 : remaining d0 = fields_bits (ack_fields e ack_sn) ++ []).
  { subst d0. by rewrite remaining_init, Hbits, app_nil_r. }
  clearbody d0. unfold ack_fields in Hrem0. rewrite !fields_bits_cons, <- !app_assoc in Hrem0.
  next_field d0 0 1 Hok0 Hrem0. cbn [Z.eqb].
  next_field d 0 3 Hok Hrem. cbn [Z.eqb negb].
  next_field d1 ack_sn (sn_field_length e) Hok1 Hrem1.
  next_field d2 0 1 Hok2 Hrem2.
  assert (Hlast : exists d', nr_rlc_pdu_decoder_get_bits d3 (if sn_field_length e =? 18 then 1 else 7) = Ok (0, d') /\
            nr_rlc_pdu_decoder_in_error d' = false).
  { destruct (sn_field_length e =? 18).
    - destruct (get_bits_spec d3 1 0 _ Hok3 ltac:(lia) ltac:(lia) Hrem3) as (d' & E & Hok' & _).
      exists d'. split; [done|]. unfold nr_rlc_pdu_decoder_in_error. by rewrite (proj1 Hok').
    - destruct (get_bits_spec d3 7 0 _ Hok3 ltac:(lia) ltac:(lia) Hrem3) as (d' & E & Hok' & _).
      exists d'. split; [done|]. unfold nr_rlc_pdu_decoder_in_error. by rewrite (proj1 Hok'). }
  destruct Hlast as (d' & -> & ->). set (e0 := if _ <? 0 then _ else e). cbn [process_nacks Z.eqb rbind negb].
  reflexivity.
Qed.

(** A status PDU without NACKs, from its bytes to its effect. *)
Lemma recv_ack_spec (e : nr_rlc_entity_am_t) (ack_sn : Z) :
  tx_wf e -> rx_wf e -> sn_range e ack_sn ->
  exists e', nr_rlc_entity_am_recv_pdu e (ack_pdu e ack_sn) = Ok e' /\ tx_wf e' /\ rx_wf e' /\
    acknowledged e ack_sn e' /\
    t_poll_retransmit_start e' = if sn_compare_tx e (poll_sn e) ack_sn <? 0 then 0 else t_poll_retransmit_start e.
Proof.
  intros Htx Hrx Hr. rewrite ack_pdu_decoded by (apply Htx || done).
  set (e0 := if _ <? 0 then _ else e).
  assert (H0 : tx_wf e0 /\ rx_wf e0 /\ sn_range e0 ack_sn /\
               (forall e', acknowledged e0 ack_sn e' -> acknowledged e ack_sn e') /\
               t_poll_retransmit_start e0 = if sn_compare_tx e (poll_sn e) ack_sn <? 0 then 0 else t_poll_retransmit_start e).
  { subst e0. destruct (_ <? 0); [|done]. split; [tx_unchanged Htx|]. split; [exact Hrx|].
    split; [exact Hr|]. split; [|done]. intros e' H. exact H. }
  clearbody e0. destruct H0 as (Htx0 & Hrx0 & Hr0 & Himp & Ht).
  destruct (finish_ack_spec e0 ack_sn Htx0 Hr0) as (e' & E & Htx' & Hack & Hrx' & Ht').
  exists e'. split; [exact E|]. split; [done|]. split; [by apply Hrx'|]. split; [by apply Himp|by rewrite Ht'].
Qed.
