(* ===== verification/RlcAmOps.v ===== *)
(** The acknowledged-mode entity as a whole: every operation, on both sides, keeps the
    invariants, and the operations of the transmitting side always return. *)

From stdpp Require Import relations.
From S2P Require Import Prelude.
From S2P Require Import RlcPdu.
From S2P Require Import RlcSdu.
From S2P Require Import RlcSegs.
From S2P Require Import RlcAm.
From S2P Require Import RlcAmRx.
From S2P Require Import RlcEntity.
From S2P Require Import RlcAmTx.
From S2P Require Import RlcAmStatus.
From S2P Require Import RlcAmSend.
From S2P Require Import RlcAmAck.

(** ** Frames *)

Definition conf_part (e : nr_rlc_entity_am_t) := (sn_field_length e, sn_modulus e, window_size e).

Definition rx_part (e : nr_rlc_entity_am_t) :=
  (conf_part e, (rx_next e, rx_highest_status e, rx_next_highest e, rx_next_status_trigger e),
   (rx_list e, rx_size e, rx_maxsize e)).

Definition tx_part (e : nr_rlc_entity_am_t) :=
  (conf_part e, (tx_next e, tx_next_ack e),
   (tx_list e, tx_end e, wait_list e, wait_end e, retransmit_list e),
   (heap e, tx_size e, bstatus e)).

Lemma rx_wf_part e e' : rx_part e' = rx_part e -> rx_wf e -> rx_wf e'.
Proof.
  intros H Hwf. unfold rx_part, conf_part in H. injection H as H1 H2 H3 H4 H5 H6 H7 H8 H9 H10.
  unfold rx_wf, am_conf, sn_range in *. by rewrite H1, H2, H3, H4, H5, H6, H7, H8, H9, H10.
Qed.

Lemma tx_wf_part e e' : tx_part e' = tx_part e -> tx_wf e -> tx_wf e'.
Proof.
  intros H Hwf. unfold tx_part, conf_part in H.
  injection H as H1 H2 H3 H4 H5 H6 H7 H8 H9 H10 H11 H12 H13. destruct Hwf as [A1 A2 A3 A4 A5 A6 A7 A8 A9 A10 A11].
  constructor; unfold am_conf, sn_range, modulus_tx, all_segs in *;
    rewrite ?H1, ?H2, ?H3, ?H4, ?H5, ?H6, ?H7, ?H8, ?H9, ?H10, ?H11, ?H12, ?H13; assumption.
Qed.

Lemma put_in_wait_list_rx e x e' : put_in_wait_list e x = Ok e' -> rx_part e' = rx_part e.
Proof.
  intros H. unfold put_in_wait_list in H. apply rbind_ok in H as (b & _ & H).
  destruct b.
  - apply rbind_ok in H as ([l a] & _ & H). by injection H as <-.
  - apply rbind_ok in H as (l & _ & H). injection H as <-. by destruct l as [|y [|z l]].
Qed.

Lemma serialize_rx e x b p e' b' n : serialize_sdu e x b p = Ok (e', b', n) -> rx_part e' = rx_part e.
Proof.
  intros H. unfold serialize_sdu in H. apply rbind_ok in H as (? & _ & H). apply rbind_ok in H as (? & _ & H).
  apply rbind_ok in H as (? & _ & H). destruct p; cbn in H; by injection H as <- _ _.
Qed.

Lemma resegment_rx e x n a b e' : resegment e x n = Ok (a, b, e') -> rx_part e' = rx_part e.
Proof. intros H. unfold resegment in H. apply rbind_ok in H as (? & _ & H). by injection H as _ _ <-. Qed.

Lemma generate_retx_rx e b e' b' n : generate_retx_pdu e b = Ok (e', b', n) -> rx_part e' = rx_part e.
Proof.
  intros H. unfold generate_retx_pdu in H. destruct (retransmit_list e) as [|x rest]; [done|].
  destruct (_ >? _); [by injection H as <- _ _|].
  apply rbind_ok in H as ([y e1] & E1 & H). apply rbind_ok in H as (e2 & E2 & H).
  assert (H1 : rx_part e1 = rx_part e).
  { destruct (_ >? _).
    - apply rbind_ok in E1 as ([[a c] e3] & E3 & E1). injection E1 as _ <-.
      apply resegment_rx in E3. exact E3.
    - by injection E1 as _ <-. }
  apply put_in_wait_list_rx in E2. unfold apply_force_poll in H.
  destruct (force_poll e2); apply serialize_rx in H; rewrite H; (rewrite <- H1, <- E2; done).
Qed.

Lemma generate_tx_rx e b e' b' n : generate_tx_pdu e b = Ok (e', b', n) -> rx_part e' = rx_part e.
Proof.
  intros H. unfold generate_tx_pdu in H. destruct (is_window_stalling e); [by injection H as <- _ _|].
  destruct (tx_list e) as [|x rest]; [by injection H as <- _ _|].
  destruct (_ >? _); [by injection H as <- _ _|].
  apply rbind_ok in H as (s & _ & H). apply rbind_ok in H as ([y e1] & E1 & H).
  apply rbind_ok in H as (e2 & E2 & H).
  assert (H1 : rx_part e1 = rx_part e).
  { destruct (_ >? _).
    - apply rbind_ok in E1 as ([[a c] e3] & E3 & E1). injection E1 as _ <-. apply resegment_rx in E3.
      unfold add_bstatus_tx. am_simpl. transitivity (rx_part e3); [by destruct (tx_end e3)|].
      rewrite E3. by destruct rest.
    - injection E1 as _ <-. by destruct rest. }
  apply put_in_wait_list_rx in E2. unfold poll_for_new_pdu, apply_force_poll in H. am_simpl_all.
  assert (H2 : rx_part e2 = rx_part e) by (rewrite E2, <- H1; by destruct (seg_is_last y)).
  destruct (force_poll e2); apply serialize_rx in H; rewrite H; rewrite <- H2; done.
Qed.

Lemma recv_sdu_rx e b i e' : nr_rlc_entity_am_recv_sdu e b i = Ok e' -> rx_part e' = rx_part e.
Proof.
  intros H. unfold nr_rlc_entity_am_recv_sdu in H. destruct (_ >? NR_SDU_MAX); [done|].
  set (e0 := if _ && _ then _ else e) in H.
  assert (H0 : rx_part e0 = rx_part e) by (subst e0; by destruct (_ && _)). clearbody e0.
  destruct (_ >? _); [by injection H as <-|].
  destruct (nr_rlc_new_sdu _ _ _ _) as [x h]. apply rbind_ok in H as ([l a] & _ & H).
  injection H as <-. rewrite <- H0. done.
Qed.

Lemma retx_segment_rx e x e' : retx_segment e x = Ok e' -> rx_part e' = rx_part e.
Proof.
  intros H. unfold retx_segment in H. apply rbind_ok in H as (s & _ & H). injection H as <-.
  by destruct (_ >=? _).
Qed.

Lemma poll_retransmit_rx e e' : check_t_poll_retransmit e = Ok e' -> rx_part e' = rx_part e.
Proof.
  intros H. unfold check_t_poll_retransmit in H. destruct (negb _); [by injection H as <-|].
  destruct (negb _); [by injection H as <-|]. am_simpl_all. destruct (wait_list e) as [|x rest]; [done|].
  apply rbind_ok in H as (e1 & E1 & H). apply rbind_ok in H as (l & _ & H). injection H as <-.
  apply retx_segment_rx in E1. change (rx_part (e1 <| retransmit_list := l |>)) with (rx_part e1).
  rewrite E1. by destruct rest.
Qed.

Lemma discard_rx e i e' : nr_rlc_entity_am_discard_sdu e i = Ok e' -> rx_part e' = rx_part e.
Proof.
  intros H. unfold nr_rlc_entity_am_discard_sdu in H. apply rbind_ok in H as (r & _ & H).
  destruct r as [[[b cur] rest]|]; [|by injection H as <-].
  destruct (_ || _); [by injection H as <-|]. apply rbind_ok in H as (s & _ & H).
  apply rbind_ok in H as ([f h] & _ & H). injection H as <-. by destruct (decide _).
Qed.

Lemma reception_actions_tx e p e' : reception_actions e p = Ok e' -> tx_part e' = tx_part e.
Proof.
  intros H. unfold reception_actions in H. set (e0 := if _ >=? 0 then _ else e) in H.
  assert (H0 : tx_part e0 = tx_part e) by (subst e0; by destruct (_ >=? 0)). clearbody e0.
  apply rbind_ok in H as (e1 & E1 & H). injection H as <-.
  assert (H1 : tx_part e1 = tx_part e0).
  { unfold reception_actions_deliver in E1. destruct (sdu_full _ _); [|by injection E1 as <-].
    apply rbind_ok in E1 as (e2 & E2 & E1). transitivity (tx_part e2).
    - unfold release_delivered in E1. apply rbind_ok in E1 as (e3 & E3 & E1). transitivity (tx_part e3).
      + destruct (_ =? rx_next e3); [|by injection E1 as <-]. destruct (free_delivered _ _ _ _). by injection E1 as <-.
      + destruct (_ =? rx_highest_status e2); [|by injection E3 as <-]. apply rbind_ok in E3 as (h & _ & E3). by injection E3 as <-.
    - unfold reassemble_and_deliver in E2. apply rbind_ok in E2 as ([[[d b] f] l] & _ & E2).
      destruct b; by injection E2 as <-. }
  rewrite <- H0, <- H1. unfold reception_actions_timers.
  repeat match goal with |- context [if ?b then _ else _] => destruct b end; done.
Qed.

Lemma recv_data_tx e b p h e' : recv_data_pdu e b p h = Ok e' -> tx_part e' = tx_part e.
Proof.
  intros H. rewrite recv_data_pdu_unfold in H. destruct (accepted e b h).
  - apply rbind_ok in H as (e1 & E1 & H). injection H as <-. apply reception_actions_tx in E1.
    change (tx_part (with_pdu e (pdu_of b h))) with (tx_part e) in E1. rewrite <- E1.
    unfold note_poll. by destruct (p =? 0).
  - injection H as <-. unfold discard. by destruct (p =? 0).
Qed.

Lemma reassembly_tx e e' : check_t_reassembly e = Ok e' -> tx_part e' = tx_part e.
Proof.
  intros H. unfold check_t_reassembly in H. destruct (negb _); [by injection H as <-|].
  apply rbind_ok in H as (sn & _ & H). destruct (_ || _); by injection H as <-.
Qed.

(** ** The operations *)

Definition am_wf (e : nr_rlc_entity_am_t) : Prop := rx_wf e /\ tx_wf e.

(** An entity with nothing sent and nothing received. *)
Lemma idle_am_wf e :
  am_conf e -> rx_part e = (conf_part e, (0, 0, 0, 0), ([], 0, rx_maxsize e)) -> 0 <= rx_maxsize e ->
  tx_part e = (conf_part e, (0, 0), ([], None, [], None, []), (heap e, 0, bstatus e)) ->
  h_sdus (heap e) = ∅ -> bs_tx_size (bstatus e) = 0 -> bs_retx_size (bstatus e) = 0 -> am_wf e.
Proof.
  intros Hc Hr Hmax Ht Hh Hb1 Hb2. unfold rx_part in Hr. injection Hr as R1 R2 R3 R4 R5 R6.
  unfold tx_part in Ht. injection Ht as T1 T2 T3 T4 T5 T6 T7 T8.
  pose proof (conf_window _ Hc) as (Hw & HM & _). split.
  - unfold rx_wf, sn_range. rewrite R1, R2, R3, R4, R5, R6. split; [done|]. do 4 (split; [lia|]).
    split; [|cbn; lia]. split; [constructor|]. split; [constructor|]. intros p Hp. by apply not_elem_of_nil in Hp.
  - constructor; unfold sn_range, all_segs; rewrite ?T1, ?T2, ?T3, ?T4, ?T5, ?T6, ?T7, ?T8, ?Hb1, ?Hb2; try done; try lia.
    + assert (modulus_tx e 0 = 0) as -> by (unfold modulus_tx; by rewrite T2). lia.
    + split; [by apply NoDup_nil_2| | | | |].
      * intros x Hx. by apply not_elem_of_nil in Hx.
      * intros x Hx. by apply not_elem_of_nil in Hx.
      * intros x y Hx. by apply not_elem_of_nil in Hx.
      * intros a s Hs. by rewrite Hh, lookup_empty in Hs.
      * intros a s Hs. by rewrite Hh, lookup_empty in Hs.
    + split; [done| | |constructor|constructor].
      * intros x Hx. by apply not_elem_of_nil in Hx.
      * intros a b _ Hn. unfold addr_sn in Hn. by rewrite Hh, lookup_empty in Hn.
    + unfold heap_bytes. by rewrite Hh, map_to_list_empty.
Qed.

Lemma new_am_wf rx_max tx_max tp tr ts pp pb mr snl e :
  new_nr_rlc_entity_am rx_max tx_max tp tr ts pp pb mr snl = Ok e -> 0 <= rx_max -> am_wf e.
Proof.
  intros E Hmax. pose proof (new_am_rx_wf _ _ _ _ _ _ _ _ _ _ E Hmax) as (Hc & _).
  unfold new_nr_rlc_entity_am in E. destruct (negb _); [done|]. injection E as <-. by apply idle_am_wf.
Qed.

(** A request for a PDU: the status report first, then retransmissions, then new data. *)
Lemma am_generate_pdu_spec e buffer :
  am_wf e ->
  exists e' buffer' n, nr_rlc_entity_am_generate_pdu e buffer = Ok (e', buffer', n) /\ am_wf e' /\
    let size := Z.of_nat (length buffer) in
    if status_to_report e && (3 <=? size)
    then compute_status_size e size = Ok n /\ 0 < n /\ tx_part e' = tx_part e
    else if can_retransmit e size then sent_retx e e' buffer buffer' n
    else if can_send_new e size then sent_new e e' buffer buffer' n
    else e' = e /\ buffer' = buffer /\ n = 0.
Proof.
  intros [Hrx Htx]. unfold nr_rlc_entity_am_generate_pdu. cbv zeta. set (size := Z.of_nat (length buffer)).
  assert (Hdata : exists e' buffer' n,
    (let* (e, buffer, ret) :=
       match retransmit_list e with [] => Ok (e, buffer, 0) | _ => generate_retx_pdu e buffer end in
     if negb (ret =? 0) then Ok (e, buffer, ret) else generate_tx_pdu e buffer) = Ok (e', buffer', n) /\ am_wf e' /\
    if can_retransmit e size then sent_retx e e' buffer buffer' n
    else if can_send_new e size then sent_new e e' buffer buffer' n
    else e' = e /\ buffer' = buffer /\ n = 0).
  { destruct (retransmit_list e) as [|x l] eqn:Hr.
    - cbn [rbind Z.eqb negb]. assert (can_retransmit e size = false) as -> by (unfold can_retransmit; by rewrite Hr).
      destruct (generate_tx_pdu_spec e buffer Htx) as (e' & b' & n & E & Htx' & H).
      exists e', b', n. split; [done|]. split; [|done]. split; [|done].
      eapply rx_wf_part; [by eapply generate_tx_rx|done].
    - destruct (generate_retx_pdu_spec e buffer Htx) as (e1 & b1 & n1 & E1 & Htx1 & H1); [by rewrite Hr|].
      rewrite E1. cbn [rbind]. fold size in H1. destruct (can_retransmit e size).
      + pose proof H1 as [Hn _].
        replace (n1 =? 0) with false by (symmetry; apply Z.eqb_neq; lia). cbn [negb].
        exists e1, b1, n1. split; [done|]. split; [|done]. split; [|done].
        eapply rx_wf_part; [by eapply generate_retx_rx|done].
      + destruct H1 as (-> & -> & ->). cbn [Z.eqb negb].
        destruct (generate_tx_pdu_spec e buffer Htx) as (e' & b' & n & E & Htx' & H).
        exists e', b', n. split; [done|]. split; [|done]. split; [|done].
        eapply rx_wf_part; [by eapply generate_tx_rx|done]. }
  destruct (status_to_report e); [|cbn [rbind Z.eqb negb andb]; exact Hdata]. cbn [andb].
  destruct (generate_status_ok e buffer Hrx) as (b1 & n1 & E1 & Hs & Hn & Hlen & Hz & Hb).
  rewrite E1. cbn [rbind]. clear E1. destruct (Z.lt_ge_cases n1 3) as [H0|Hne].
  - destruct (Hb H0) as [-> ->]. cbn [Z.eqb negb].
    replace (3 <=? size) with false by (symmetry; apply Z.leb_gt; by apply Hz). exact Hdata.
  - replace (n1 =? 0) with false by (symmetry; apply Z.eqb_neq; lia). cbn [negb].
    replace (3 <=? size) with true by (symmetry; apply Z.leb_le; lia).
    do 3 eexists. split; [reflexivity|]. split; [split; [exact Hrx|tx_unchanged Htx]|].
    split; [done|]. split; [lia|done].
Qed.

(** What the entity needs to survive the expiry of t-PollRetransmit: something to
    retransmit. *)
Definition poll_timer_ok (e : nr_rlc_entity_am_t) : Prop :=
  wait_list e <> [] \/ check_poll_after_pdu_assembly e = false \/ t_poll_retransmit_start e = 0.

Lemma am_set_time_spec e now :
  am_wf e -> poll_timer_ok e ->
  exists e', nr_rlc_entity_am_set_time e now = Ok e' /\ am_wf e' /\ tx_list e' = tx_list e /\
    wait_list e' ++ retransmit_list e' ≡ₚ wait_list e ++ retransmit_list e.
Proof.
  intros [Hrx Htx] Hp. unfold nr_rlc_entity_am_set_time. set (e0 := e <| t_current := now |>).
  assert (Hrx0 : rx_wf e0) by exact Hrx. assert (Htx0 : tx_wf e0) by tx_unchanged Htx.
  destruct (check_t_poll_retransmit_wf e0 Htx0 Hp) as (e1 & E1 & Htx1 & T1 & P1).
  rewrite E1. cbn [rbind]. pose proof (rx_wf_part _ _ (poll_retransmit_rx _ _ E1) Hrx0) as Hrx1.
  assert (Hr : exists e2, check_t_reassembly e1 = Ok e2 /\ rx_wf e2).
  { destruct (expired (t_current e1) (t_reassembly_start e1) (t_reassembly e1)) eqn:Hx.
    - destruct (check_t_reassembly_spec e1 Hrx1 Hx) as (e2 & ? & ? & _). by exists e2.
    - exists e1. unfold check_t_reassembly. by rewrite Hx. }
  destruct Hr as (e2 & E2 & Hrx2). pose proof (reassembly_tx _ _ E2) as Hpart.
  exists e2. split; [done|]. split; [split; [done|by eapply tx_wf_part]|].
  unfold tx_part, conf_part in Hpart. injection Hpart as _ _ _ _ _ H6 _ H8 _ H10 _ _ _.
  rewrite H6, H8, H10. done.
Qed.

(** ** Reachable states *)

(** One call on the entity.  Control PDUs are the acknowledgements without NACKs; the
    upper layer hands down SDUs that are neither empty nor too long. *)
Inductive am_step : nr_rlc_entity_am_t -> nr_rlc_entity_am_t -> Prop :=
| step_recv_sdu e b i e' :
    0 < Z.of_nat (length b) <= NR_SDU_MAX -> nr_rlc_entity_am_recv_sdu e b i = Ok e' -> am_step e e'
| step_generate_pdu e b e' b' n : nr_rlc_entity_am_generate_pdu e b = Ok (e', b', n) -> am_step e e'
| step_recv_data_pdu e b buffer e' :
    Z.testbit b 7 = true -> nr_rlc_entity_am_recv_pdu e (b :: buffer) = Ok e' -> am_step e e'
| step_recv_ack e ack_sn e' :
    sn_range e ack_sn -> nr_rlc_entity_am_recv_pdu e (ack_pdu e ack_sn) = Ok e' -> am_step e e'
| step_set_time e now e' :
    poll_timer_ok e -> nr_rlc_entity_am_set_time e now = Ok e' -> am_step e e'
| step_discard_sdu e i e' : nr_rlc_entity_am_discard_sdu e i = Ok e' -> am_step e e'
| step_reestablishment e e' : nr_rlc_entity_am_reestablishment e = Ok e' -> am_step e e'.

Lemma recv_data_wf e b buffer e' :
  am_wf e -> Z.testbit b 7 = true -> nr_rlc_entity_am_recv_pdu e (b :: buffer) = Ok e' -> am_wf e'.
Proof.
  intros [Hrx Htx] Hb E. unfold nr_rlc_entity_am_recv_pdu in E.
  destruct (get_first_bit b buffer) as (d & Ed & Hd & Hne). rewrite Ed, Hne, Hb in E. cbn [Z.b2z Z.eqb] in E.
  destruct (decode_header_total e d) as (p & h & Eh & Hh); [apply Hrx|done|]. rewrite Eh in E. cbn [rbind] in E.
  destruct h as [h|].
  - destruct (recv_data_pdu_wf e (b :: buffer) p h Hrx Hh) as [E'|(e1 & E' & Hrx1)]; [by rewrite E' in E|].
    rewrite E' in E. injection E as <-. split; [done|]. eapply tx_wf_part; [by eapply recv_data_tx|done].
  - injection E as <-. unfold discard. destruct (negb _); [|done].
    split; [by apply rx_wf_status_triggered|tx_unchanged Htx].
Qed.

Lemma reestablished_wf e e' : am_wf e -> nr_rlc_entity_am_reestablishment e = Ok e' -> am_wf e'.
Proof.
  intros [Hrx Htx] E. destruct (am_clear_spec e (tx_segs e Htx)) as (e1 & E1 & Hh & Hl).
  unfold nr_rlc_entity_am_reestablishment in E. rewrite E in E1. injection E1 as <-.
  destruct Hrx as (Hc & Hr & _ & _ & _ & Hl' & Hsz).
  unfold clear_entity in E.
  apply rbind_ok in E as (h1 & _ & E). apply rbind_ok in E as (h2 & _ & E).
  apply rbind_ok in E as (h3 & _ & E). injection E as <-. cbn [heap] in Hh.
  apply idle_am_wf; try done. cbn [rx_maxsize].
  destruct Hsz as [H1 H2]. enough (0 <= sumZ live_size (rx_list e)) by lia. apply sumZ_nonneg.
  destruct Hl' as [Hall _]. eapply List.Forall_impl; [|exact Hall].
  intros p (_ & _ & _ & Hp & _). unfold live_size. destruct (pdu_data p); lia.
Qed.

Lemma am_step_wf e e' : am_step e e' -> am_wf e -> am_wf e'.
Proof.
  destruct 1 as [e b i e' Hb E|e b e' b' n E|e b buffer e' Hb E|e ack_sn e' Hr E|e now e' Hp E|e i e' E|e e' E];
    intros Hwf.
  - destruct (am_recv_sdu_spec e b i (proj2 Hwf) Hb) as (e1 & E1 & Htx & _). rewrite E in E1.
    injection E1 as <-. split; [|done]. eapply rx_wf_part; [by eapply recv_sdu_rx|apply Hwf].
  - destruct (am_generate_pdu_spec e b Hwf) as (e1 & b1 & n1 & E1 & Hwf1 & _). rewrite E in E1.
    by injection E1 as <- _ _.
  - by eapply recv_data_wf.
  - destruct (recv_ack_spec e ack_sn (proj2 Hwf) (proj1 Hwf) Hr) as (e1 & E1 & ? & ? & _).
    rewrite E in E1. by injection E1 as <-.
  - destruct (am_set_time_spec e now Hwf Hp) as (e1 & E1 & ? & _). rewrite E in E1. by injection E1 as <-.
  - destruct (am_discard_spec e i (proj2 Hwf)) as (e1 & E1 & Htx & _). rewrite E in E1. injection E1 as <-.
    split; [|done]. eapply rx_wf_part; [by eapply discard_rx|apply Hwf].
  - by eapply reestablished_wf.
Qed.

(** ** Properties *)

(** C2. The invariants hold in every state reached by the calls of [am_step]. From a new entity,
    after any sequence of calls that return, among SDUs of 1 to NR_SDU_MAX bytes from the upper
    layer, requests for PDUs of any size, data PDUs with arbitrary bytes, status PDUs that
    acknowledge without NACKs, timer ticks, discards and re-establishments, the receive list is
    sorted, inside the window and within its memory bound, and on the transmitting side every
    segment points to a live SDU whose reference count is the number of its segments, SNs are
    unique and inside the window, the lists are sorted, and the end pointers, the transmit size
    and the buffer status agree with the lists. Left out, because the invariant or the program
    breaks there: status PDUs with NACKs ([wait_end_lost], [retransmit_list_lost],
    [truncated_status_corrupts]) and the expiry of t-PollRetransmit with an empty wait list
    ([poll_retransmit_null]); a call that ends the program has no next state. *)
Theorem am_reachable_wf rx_max tx_max tp tr ts pp pb mr snl e0 e :
  new_nr_rlc_entity_am rx_max tx_max tp tr ts pp pb mr snl = Ok e0 -> 0 <= rx_max ->
  rtc am_step e0 e -> rx_wf e /\ tx_wf e.
Proof.
  intros E Hmax Hsteps. pose proof (new_am_wf _ _ _ _ _ _ _ _ _ _ E Hmax) as Hwf. clear E.
  induction Hsteps as [|e1 e2 e3 Hstep _ IH]; [done|]. apply IH. by eapply am_step_wf.
Qed.

(** C4. A request for a PDU always returns and serves what is most urgent. In a state with the
    invariants, for a buffer of any size, the entity never fails and keeps its invariants. When a
    status report is due and three bytes are available, it is sent, with exactly the size that the
    buffer status announces, and the transmit side does not change. Else, when the head of the
    retransmit list fits with its header and a byte, that head and nothing else is sent, under the
    SN it has. Else, when the window is open and the head of the queue fits, that head is sent
    under the SN TX_Next, which moves on with the last byte of an SDU. What is sent is the whole
    head if it fits, else its first bytes, which fill the buffer, while the rest stays at the head
    of its list; it is added to the wait list, and the PDU has its header and its bytes of the
    SDU. Otherwise 0 is returned and nothing changes. *)
Theorem am_generate_pdu_total (e : nr_rlc_entity_am_t) (buffer : list Z) :
  rx_wf e -> tx_wf e ->
  exists e' buffer' n, nr_rlc_entity_am_generate_pdu e buffer = Ok (e', buffer', n) /\ rx_wf e' /\ tx_wf e' /\
    let size := Z.of_nat (length buffer) in
    if status_to_report e && (3 <=? size)
    then compute_status_size e size = Ok n /\ 0 < n /\ tx_part e' = tx_part e
    else if can_retransmit e size then sent_retx e e' buffer buffer' n
    else if can_send_new e size then sent_new e e' buffer buffer' n
    else e' = e /\ buffer' = buffer /\ n = 0.
Proof.
  intros Hrx Htx. destruct (am_generate_pdu_spec e buffer (conj Hrx Htx)) as (e' & b' & n & E & [? ?] & H).
  by exists e', b', n.
Qed.

(** SDUs from the upper layer.  An SDU of 1 to 16000 bytes is accepted when the
    transmit buffer has room for it, and then stands whole and without an SN at the end
    of the queue, with its identity; otherwise it is rejected and the lists and the memory
    are as before.  The invariant is kept and no call fails. *)
Theorem am_recv_sdu_queued (e : nr_rlc_entity_am_t) (buffer : list Z) (sdu_id : Z) :
  tx_wf e -> 0 < Z.of_nat (length buffer) <= NR_SDU_MAX ->
  exists e', nr_rlc_entity_am_recv_sdu e buffer sdu_id = Ok e' /\ tx_wf e' /\
    wait_list e' = wait_list e /\ retransmit_list e' = retransmit_list e /\
    if tx_size e + Z.of_nat (length buffer) <=? tx_maxsize e
    then exists x s, tx_list e' = tx_list e ++ [x] /\ h_sdus (heap e') !! seg_sdu x = Some s /\
         sdu_data s = buffer /\ upper_layer_id s = sdu_id /\ unsent (addr_sn (heap e')) x
    else tx_list e' = tx_list e /\ heap e' = heap e.
Proof. apply am_recv_sdu_spec. Qed.

(** Discard.  [nr_rlc_entity_am_discard_sdu] takes an SDU out of the queue only when
    it was not sent, not even in part, releases its memory and its share of the transmit
    buffer, and keeps the invariant; it leaves the entity unchanged only when the queue
    has no SDU of that identity, or has one that was sent in part. *)
Theorem am_discard_only_unsent (e : nr_rlc_entity_am_t) (sdu_id : Z) :
  tx_wf e ->
  exists e', nr_rlc_entity_am_discard_sdu e sdu_id = Ok e' /\ tx_wf e' /\
    wait_list e' = wait_list e /\ retransmit_list e' = retransmit_list e /\
    ((e' = e /\ kept_whole e sdu_id) \/
     exists b cur rest s, tx_list e = b ++ cur :: rest /\ tx_list e' = b ++ rest /\
       seg_is_first cur = true /\ seg_is_last cur = true /\
       h_sdus (heap e) !! seg_sdu cur = Some s /\ upper_layer_id s = sdu_id /\
       tx_size e' = tx_size e - sdu_size s).
Proof. apply am_discard_spec. Qed.

(** C12. Deletion frees all memory.  When a well-formed entity is deleted, or
    re-established, no SDU is freed twice or read after it was freed, and none is left. *)
Theorem am_delete_frees_all (e : nr_rlc_entity_am_t) :
  tx_wf e ->
  (exists h, nr_rlc_entity_am_delete e = Ok h /\ h_sdus h = ∅) /\
  (exists e', nr_rlc_entity_am_reestablishment e = Ok e' /\ h_sdus (heap e') = ∅ /\ all_segs e' = []).
Proof.
  intros Hwf. destruct (am_clear_spec e (tx_segs e Hwf)) as (e' & E & Hh & Hl).
  unfold nr_rlc_entity_am_delete, nr_rlc_entity_am_reestablishment. rewrite E. cbn [rbind].
  split; [by exists (heap e')|by exists e'].
Qed.


(** Time.  When there is something to retransmit, or t-PollRetransmit is not running,
    a timer tick returns with the invariants kept; it only moves segments from the wait
    list to the retransmit list. *)
Theorem am_set_time_keeps (e : nr_rlc_entity_am_t) (now : Z) :
  rx_wf e -> tx_wf e -> poll_timer_ok e ->
  exists e', nr_rlc_entity_am_set_time e now = Ok e' /\ rx_wf e' /\ tx_wf e' /\ tx_list e' = tx_list e /\
    wait_list e' ++ retransmit_list e' ≡ₚ wait_list e ++ retransmit_list e.
Proof.
  intros Hrx Htx Hp. destruct (am_set_time_spec e now (conj Hrx Htx) Hp) as (e' & E & [? ?] & H).
  by exists e'.
Qed.

(** ** Witnesses *)

(** An entity that holds an SDU sent in part and another one in the queue. *)
Definition am_history : res nr_rlc_entity_am_t :=
  let* e := new_nr_rlc_entity_am 1000 1000 45 35 0 4 (-1) 3 12 in
  let* e := nr_rlc_entity_am_recv_sdu e [1; 2; 3; 4] 7 in
  let* (e, _, _) := nr_rlc_entity_am_generate_pdu e (repeat 0 4) in
  nr_rlc_entity_am_recv_sdu e [5; 6] 8.

Definition am_example : nr_rlc_entity_am_t :=
  match am_history with Ok e => e | _ => rx_example end.

Lemma am_example_reached :
  exists e0 e1 e2 b n, new_nr_rlc_entity_am 1000 1000 45 35 0 4 (-1) 3 12 = Ok e0 /\
    nr_rlc_entity_am_recv_sdu e0 [1; 2; 3; 4] 7 = Ok e1 /\
    nr_rlc_entity_am_generate_pdu e1 (repeat 0 4) = Ok (e2, b, n) /\
    nr_rlc_entity_am_recv_sdu e2 [5; 6] 8 = Ok am_example.
Proof. do 5 eexists. do 3 (split; [vm_compute; reflexivity|]). vm_compute. reflexivity. Qed.

Lemma am_example_steps e0 :
  new_nr_rlc_entity_am 1000 1000 45 35 0 4 (-1) 3 12 = Ok e0 -> rtc am_step e0 am_example.
Proof.
  intros E. destruct am_example_reached as (e0' & e1 & e2 & b & n & E0 & E1 & E2 & E3).
  rewrite E in E0. injection E0 as <-.
  apply rtc_l with e1; [eapply step_recv_sdu; [|exact E1]; unfold NR_SDU_MAX; cbn; lia|].
  apply rtc_l with e2; [eapply step_generate_pdu; exact E2|].
  apply rtc_once. eapply step_recv_sdu; [|exact E3]. unfold NR_SDU_MAX. cbn. lia.
Qed.

Lemma am_example_wf : am_wf am_example.
Proof.
  destruct am_example_reached as (e0 & e1 & e2 & b & n & E0 & E1 & E2 & E3).
  pose proof (new_am_wf _ _ _ _ _ _ _ _ _ _ E0 ltac:(lia)) as Hwf.
  assert (H1 : am_step e0 e1) by (eapply step_recv_sdu; [|exact E1]; unfold NR_SDU_MAX; cbn; lia).
  assert (H2 : am_step e1 e2) by (eapply step_generate_pdu; exact E2).
  assert (H3 : am_step e2 am_example) by (eapply step_recv_sdu; [|exact E3]; unfold NR_SDU_MAX; cbn; lia).
  eapply am_step_wf; [exact H3|]. eapply am_step_wf; [exact H2|]. by eapply am_step_wf.
Qed.

Lemma am_reachable_wf_witness :
  exists e0, new_nr_rlc_entity_am 1000 1000 45 35 0 4 (-1) 3 12 = Ok e0 /\ rx_wf am_example /\ tx_wf am_example.
Proof.
  eexists. split; [reflexivity|].
  eapply (am_reachable_wf 1000 1000 45 35 0 4 (-1) 3 12); [reflexivity|lia|].
  apply am_example_steps. reflexivity.
Defined.

Lemma am_generate_pdu_total_witness :
  exists e' buffer' n, nr_rlc_entity_am_generate_pdu am_example (repeat 0 20) = Ok (e', buffer', n) /\
    sent_new am_example e' (repeat 0 20) buffer' n.
Proof.
  destruct (am_generate_pdu_total am_example (repeat 0 20)) as (e' & b' & n & E & _ & _ & H).
  - exact (proj1 am_example_wf).
  - exact (proj2 am_example_wf).
  - exists e', b', n. split; [exact E|exact H].
Defined.

Lemma am_recv_sdu_queued_witness :
  exists e', nr_rlc_entity_am_recv_sdu am_example [9] 9 = Ok e' /\ tx_wf e'.
Proof.
  destruct (am_recv_sdu_queued am_example [9] 9) as (e' & E & H & _).
  - exact (proj2 am_example_wf).
  - unfold NR_SDU_MAX. cbn. lia.
  - exists e'. split; [exact E|exact H].
Defined.

Lemma am_discard_only_unsent_witness :
  exists e', nr_rlc_entity_am_discard_sdu am_example 8 = Ok e' /\ tx_wf e' /\ tx_size e' = 4.
Proof.
  destruct (am_discard_only_unsent am_example 8) as (e' & E & H & _).
  - exact (proj2 am_example_wf).
  - exists e'. split; [exact E|]. split; [exact H|]. vm_compute in E. injection E as <-. reflexivity.
Defined.

Lemma am_delete_frees_all_witness : exists h, nr_rlc_entity_am_delete am_example = Ok h /\ h_sdus h = ∅.
Proof. apply am_delete_frees_all. exact (proj2 am_example_wf). Defined.

Lemma am_set_time_keeps_witness :
  exists e', nr_rlc_entity_am_set_time am_example 100 = Ok e' /\ tx_list e' = tx_list am_example.
Proof.
  destruct (am_set_time_keeps am_example 100) as (e' & E & _ & _ & H & _).
  - exact (proj1 am_example_wf).
  - exact (proj2 am_example_wf).
  - left. vm_compute. discriminate.
  - exists e'. split; [exact E|exact H].
Defined.

