(* ===== verification/RlcAmLink.v ===== *)
(** A sender and a receiver in acknowledged mode, joined by a channel that may lose,
    duplicate and reorder PDUs: what the receiver delivers was handed to the sender.

    The state of the link is the two entities, every PDU sent so far (the channel may
    deliver any of them, any number of times) and the SDUs offered to the sender.  Status
    reports do not travel back, so the sender stops after one window of SDUs and no SN is
    used twice; the timers run on both sides, so segments are retransmitted. *)

From stdpp Require Import relations.
From S2P Require Import Prelude.
From S2P Require Import RlcPdu.
From S2P Require Import RlcSdu.
From S2P Require Import RlcSegs.
From S2P Require Import RlcAm.
From S2P Require Import RlcAmRx.
From S2P Require Import RlcEntity.
From S2P Require Import RlcAmTx.
From S2P Require Import RlcAmStatus.
From S2P Require Import RlcAmSend.
From S2P Require Import RlcAmAck.
From S2P Require Import RlcAmOps.

(** ** The link *)

Record link_t := mk_link {
  lk_sender : nr_rlc_entity_am_t;
  lk_receiver : nr_rlc_entity_am_t;
  lk_channel : list (list Z);
  lk_offered : list (list Z)
}.

Inductive link_step : link_t -> link_t -> Prop :=
| link_offer s r ch off b i s' :
    0 < Z.of_nat (length b) <= NR_SDU_MAX -> nr_rlc_entity_am_recv_sdu s b i = Ok s' ->
    link_step (mk_link s r ch off) (mk_link s' r ch (b :: off))
| link_send s r ch off b s' b' n :
    status_to_report s = false -> nr_rlc_entity_am_generate_pdu s b = Ok (s', b', n) -> 0 < n ->
    link_step (mk_link s r ch off) (mk_link s' r (take (Z.to_nat n) b' :: ch) off)
| link_receive s r ch off pdu r' :
    pdu ∈ ch -> nr_rlc_entity_am_recv_pdu r pdu = Ok r' ->
    link_step (mk_link s r ch off) (mk_link s r' ch off)
| link_sender_tick s r ch off now s' :
    poll_timer_ok s -> nr_rlc_entity_am_set_time s now = Ok s' ->
    link_step (mk_link s r ch off) (mk_link s' r ch off)
| link_receiver_tick s r ch off now r' :
    poll_timer_ok r -> nr_rlc_entity_am_set_time r now = Ok r' ->
    link_step (mk_link s r ch off) (mk_link s r' ch off).

(** ** Data of the SDUs *)

(** No SDU is lost, SDUs keep their bytes and an assigned SN, and the bytes of the other
    SDUs are among [new]. *)
Definition heap_grows (new : list (list Z)) (h h' : sdu_heap) : Prop :=
  (forall a s, h_sdus h !! a = Some s ->
     exists s', h_sdus h' !! a = Some s' /\ sdu_data s' = sdu_data s /\
       (sdu_sn s' = sdu_sn s \/ sdu_sn s = -1)) /\
  (forall a s', h_sdus h' !! a = Some s' ->
     sdu_data s' ∈ new \/ exists s, h_sdus h !! a = Some s /\ sdu_data s' = sdu_data s).

Lemma heap_grows_refl new h : heap_grows new h h.
Proof. split; eauto. Qed.

(** One SDU is rewritten with the same data. *)
Lemma heap_grows_put h m n a s s' :
  h_sdus h !! a = Some s -> m = <[a := s']> (h_sdus h) -> sdu_data s' = sdu_data s ->
  (sdu_sn s' = sdu_sn s \/ sdu_sn s = -1) -> heap_grows [] h (mk_heap m n).
Proof.
  intros Hs -> Hd Hsn. split; intros b; cbn [h_sdus]; destruct (decide (b = a)) as [->|Hne];
    rewrite ?lookup_insert_eq, ?lookup_insert_ne by done; intros t Ht; [|by eauto| |by eauto].
  - rewrite Hs in Ht. injection Ht as <-. eauto.
  - injection Ht as <-. eauto.
Qed.

(** One SDU is added. *)
Lemma heap_grows_new h n a s :
  h_sdus h !! a = None -> heap_grows [sdu_data s] h (mk_heap (<[a := s]> (h_sdus h)) n).
Proof.
  intros Hs. split; intros b; cbn [h_sdus]; destruct (decide (b = a)) as [->|Hne];
    rewrite ?lookup_insert_eq, ?lookup_insert_ne by done; intros t Ht; [congruence|by eauto| |by eauto].
  injection Ht as <-. left. by left.
Qed.

Lemma put_in_wait_list_heap e x e' : put_in_wait_list e x = Ok e' -> heap e' = heap e.
Proof.
  intros H. unfold put_in_wait_list in H. apply rbind_ok in H as (b & _ & H). destruct b.
  - apply rbind_ok in H as ([l a] & _ & H). by injection H as <-.
  - apply rbind_ok in H as (l & _ & H). injection H as <-. by destruct l as [|y [|z l]].
Qed.

Lemma serialize_heap e x b p e' b' n : serialize_sdu e x b p = Ok (e', b', n) -> heap e' = heap e.
Proof.
  intros H. unfold serialize_sdu in H. apply rbind_ok in H as (? & _ & H). apply rbind_ok in H as (? & _ & H).
  apply rbind_ok in H as (? & _ & H). destruct p; cbn in H; by injection H as <- _ _.
Qed.

Lemma resegment_heap e x n a b e' s :
  h_sdus (heap e) !! seg_sdu x = Some s -> resegment e x n = Ok (a, b, e') ->
  heap e' = mk_heap (<[seg_sdu x := s <| ref_count := ref_count s + 1 |>]> (h_sdus (heap e)))
              (h_next (heap e) + 1)%positive.
Proof.
  intros Hs H. unfold resegment, get_sdu in H. rewrite Hs in H. cbn [rbind] in H. by injection H as _ _ <-.
Qed.

Lemma generate_retx_heap e b e' b' n :
  tx_wf e -> generate_retx_pdu e b = Ok (e', b', n) -> heap_grows [] (heap e) (heap e').
Proof.
  intros Hwf H. unfold generate_retx_pdu in H. destruct (retransmit_list e) as [|x rest] eqn:Hr; [done|].
  destruct (segs_get _ _ x (tx_segs e Hwf)) as (s & Hs & _);
    [unfold all_segs; rewrite Hr, !elem_of_app, elem_of_cons; tauto|].
  destruct (_ >? _); [injection H as <- _ _; apply heap_grows_refl|].
  apply rbind_ok in H as ([y e1] & E1 & H). apply rbind_ok in H as (e2 & E2 & H).
  apply put_in_wait_list_heap in E2.
  assert (H3 : heap e' = heap e1).
  { unfold apply_force_poll in H. destruct (force_poll e2); apply serialize_heap in H; rewrite H, <- E2; done. }
  rewrite H3. destruct (_ >? _).
  - apply rbind_ok in E1 as ([[a c] e3] & E3 & E1). injection E1 as _ <-.
    apply resegment_heap with (s := s) in E3; [|exact Hs]. unfold add_bstatus_retx. am_simpl. rewrite E3.
    eapply heap_grows_put; [exact Hs|reflexivity|done|by left].
  - injection E1 as _ <-. apply heap_grows_refl.
Qed.

Lemma generate_tx_heap e b e' b' n :
  tx_wf e -> generate_tx_pdu e b = Ok (e', b', n) -> heap_grows [] (heap e) (heap e').
Proof.
  intros Hwf H. unfold generate_tx_pdu in H.
  destruct (is_window_stalling e); [injection H as <- _ _; apply heap_grows_refl|].
  destruct (tx_list e) as [|x rest] eqn:Ht; [injection H as <- _ _; apply heap_grows_refl|].
  destruct (segs_get _ _ x (tx_segs e Hwf)) as (s & Hs & Eg & _); [unfold all_segs; rewrite Ht; left|].
  destruct (_ >? _); [injection H as <- _ _; apply heap_grows_refl|].
  set (e0 := match rest with [] => _ | _ => _ end) in H.
  assert (H0 : heap e0 = heap e) by (subst e0; by destruct rest).
  assert (H0n : tx_next e0 = tx_next e) by (subst e0; by destruct rest). clearbody e0.
  unfold add_bstatus_tx at 1 in H. am_simpl_all. rewrite H0, Eg in H. cbn [rbind] in H.
  apply rbind_ok in H as ([y e1] & E1 & H). apply rbind_ok in H as (e2 & E2 & H).
  apply put_in_wait_list_heap in E2.
  assert (H3 : heap e' = heap e1).
  { unfold poll_for_new_pdu, apply_force_poll in H. am_simpl_all.
    destruct (force_poll e2); apply serialize_heap in H; rewrite H; am_simpl; rewrite E2; by destruct (seg_is_last y). }
  assert (Hsn : tx_next e = sdu_sn s \/ sdu_sn s = -1).
  { pose proof (ord_queue _ _ _ _ _ _ _ _ (tx_order e Hwf)) as Hq. rewrite Ht in Hq.
    rewrite <- (addr_sn_get _ _ _ Hs). destruct Hq as [[(-> & _)|(-> & _)] _]; tauto. }
  rewrite H3. destruct (_ >? _).
  - apply rbind_ok in E1 as ([[a c] e3] & E3 & E1). injection E1 as _ <-.
    apply resegment_heap with (s := s <| sdu_sn := tx_next e |>) in E3.
    2: { am_simpl. unfold put_sdu. cbn. rewrite H0n. apply lookup_insert_eq. }
    unfold add_bstatus_tx. am_simpl.
    assert (He3 : heap (match tx_end e3 with Some _ => e3 <| tx_list := c :: tx_list e3 |>
                        | None => e3 <| tx_list := c :: tx_list e3 |> <| tx_end := Some (seg_addr c) |> end) = heap e3)
      by (by destruct (tx_end e3)).
    rewrite He3, E3. unfold add_bstatus_tx. am_simpl. unfold put_sdu. am_simpl. rewrite H0, H0n.
    eapply heap_grows_put; [exact Hs|apply insert_insert_eq|done|done].
  - injection E1 as _ <-. unfold add_bstatus_tx. am_simpl. rewrite H0, H0n. destruct (heap e) as [m k] eqn:Eh.
    unfold put_sdu. cbn. eapply heap_grows_put; [exact Hs|reflexivity|done|done].
Qed.

Lemma generate_pdu_heap e b e' b' n :
  tx_wf e -> status_to_report e = false -> nr_rlc_entity_am_generate_pdu e b = Ok (e', b', n) ->
  heap_grows [] (heap e) (heap e').
Proof.
  intros Hwf Hst H. unfold nr_rlc_entity_am_generate_pdu in H. rewrite Hst in H. cbn [rbind Z.eqb negb] in H.
  apply rbind_ok in H as ([[e1 b1] n1] & E1 & H). destruct (retransmit_list e) as [|x l] eqn:Hr.
  - injection E1 as <- <- <-. cbn [Z.eqb negb] in H. by eapply generate_tx_heap.
  - destruct (generate_retx_pdu_spec e b Hwf) as (e2 & b2 & n2 & E2 & Hwf2 & H2); [by rewrite Hr|].
    rewrite E1 in E2. injection E2 as <- <- <-. destruct (can_retransmit _ _).
    + destruct H2 as [Hn _]. replace (n1 =? 0) with false in H by (symmetry; apply Z.eqb_neq; lia).
      cbn [negb] in H. injection H as <- <- <-. by eapply generate_retx_heap.
    + destruct H2 as (-> & -> & ->). eapply generate_tx_heap; [done|]. exact H.
Qed.

Lemma recv_sdu_heap e b i e' :
  tx_wf e -> nr_rlc_entity_am_recv_sdu e b i = Ok e' -> heap_grows [b] (heap e) (heap e').
Proof.
  intros Hwf H. unfold nr_rlc_entity_am_recv_sdu in H. destruct (_ >? NR_SDU_MAX); [done|].
  set (e0 := if _ && _ then _ else e) in H.
  assert (H0 : heap e0 = heap e) by (subst e0; by destruct (_ && _)). clearbody e0.
  destruct (_ >? _); [injection H as <-; am_simpl; rewrite H0; apply heap_grows_refl|].
  unfold nr_rlc_new_sdu in H. apply rbind_ok in H as ([l a] & _ & H). injection H as <-.
  unfold add_bstatus_tx. am_simpl. rewrite H0.
  assert (Eb : [b] = [sdu_data (mk_sdu (-1) i (take (Z.to_nat (Z.of_nat (length b))) b) (Z.of_nat (length b)) (-1) 1 0)])
    by (cbn; by rewrite Nat2Z.id, firstn_all).
  rewrite Eb at 1. apply heap_grows_new.
  destruct (h_sdus (heap e) !! h_next (heap e)) as [s|] eqn:Es; [|done].
  pose proof (sdus_fresh _ _ (tx_segs e Hwf) _ _ Es). lia.
Qed.

Lemma set_time_heap e now e' :
  nr_rlc_entity_am_set_time e now = Ok e' -> heap_grows [] (heap e) (heap e').
Proof.
  intros H. unfold nr_rlc_entity_am_set_time in H. apply rbind_ok in H as (e1 & E1 & H).
  apply reassembly_tx in H. unfold tx_part, conf_part in H. injection H as _ _ _ _ _ _ _ _ _ _ H _ _. rewrite H.
  unfold check_t_poll_retransmit in E1. destruct (negb _); [injection E1 as <-; apply heap_grows_refl|].
  destruct (negb _); [injection E1 as <-; apply heap_grows_refl|]. am_simpl_all.
  destruct (wait_list e) as [|x rest]; [done|].
  apply rbind_ok in E1 as (e2 & E2 & E1). apply rbind_ok in E1 as (l & _ & E1). injection E1 as <-. am_simpl.
  unfold retx_segment in E2. apply rbind_ok in E2 as (s & Es & E2). injection E2 as <-.
  assert (Es' : h_sdus (heap e) !! seg_sdu x = Some s).
  { unfold get_sdu in Es. destruct rest; am_simpl_all; destruct (h_sdus (heap e) !! seg_sdu x); congruence. }
  unfold add_bstatus_retx. am_simpl. destruct (_ >=? _), rest; am_simpl;
    (eapply heap_grows_put; [exact Es'|reflexivity|done|by left]).
Qed.

(** ** The SDU with a given SN *)

Definition sn_data (h : sdu_heap) (sn : Z) : list Z :=
  match List.find (fun p => sdu_sn p.2 =? sn) (map_to_list (h_sdus h)) with
  | Some p => sdu_data p.2
  | None => []
  end.

Lemma sn_data_cases h sn :
  sn_data h sn = [] \/
  exists a s, h_sdus h !! a = Some s /\ sdu_sn s = sn /\ sn_data h sn = sdu_data s.
Proof.
  unfold sn_data. destruct (List.find _ _) as [[a s]|] eqn:E; [right|by left].
  apply List.find_some in E as [Hin Hs]. apply list_elem_of_In, elem_of_map_to_list in Hin.
  exists a, s. apply Z.eqb_eq in Hs. done.
Qed.

Lemma sn_data_at h a s :
  unique_sns (addr_sn h) -> h_sdus h !! a = Some s -> sdu_sn s <> -1 -> sn_data h (sdu_sn s) = sdu_data s.
Proof.
  intros Hu Hs Hn. unfold sn_data. destruct (List.find _ _) as [[b t]|] eqn:E.
  - apply List.find_some in E as [Hin Ht]. apply list_elem_of_In, elem_of_map_to_list in Hin.
    apply Z.eqb_eq in Ht. cbn in Ht |- *.
    assert (b = a) as ->; [|congruence].
    apply Hu; unfold addr_sn; rewrite Hin, ?Hs; cbn; congruence.
  - exfalso. eapply List.find_none in E; [|apply list_elem_of_In, elem_of_map_to_list, Hs].
    apply Z.eqb_neq in E. done.
Qed.

Lemma segment_of_nonempty S p : segment_of S p -> S <> [].
Proof. intros (_ & H) ->. cbn in H. lia. Qed.

(** What was received stays consistent when SDUs are offered and sent. *)
Lemma consistent_grows new h h' l :
  heap_grows new h h' -> unique_sns (addr_sn h') -> Forall (fun p => pdu_sn p <> -1) l ->
  rx_consistent l (sn_data h) -> rx_consistent l (sn_data h').
Proof.
  intros [Hg _] Hu Hl Hc p Hp Hd. specialize (Hc p Hp Hd).
  rewrite list.Forall_forall in Hl. specialize (Hl p Hp).
  destruct (sn_data_cases h (pdu_sn p)) as [E|(a & s & Hs & Hsn & E)].
  { apply segment_of_nonempty in Hc. congruence. }
  destruct (Hg a s Hs) as (s' & Hs' & Hd' & Hsn').
  assert (Esn : sdu_sn s' = pdu_sn p) by (destruct Hsn'; congruence).
  rewrite <- Esn, (sn_data_at h' a s' Hu Hs') by congruence. by rewrite Hd', <- E.
Qed.

(** ** The invariant of the link *)

(** [pdu] is the PDU of a segment of an SDU of the sender. *)
Definition from_sender (e : nr_rlc_entity_am_t) (pdu : list Z) : Prop :=
  exists s p hb seg, h_sdus (heap e) !! seg_sdu seg = Some s /\ seg_ok s seg /\ sn_range e (sdu_sn s) /\
    pdu = hb ++ take (Z.to_nat (seg_size seg)) (drop (Z.to_nat (seg_so seg)) (sdu_data s)) /\
    bytes_bits hb = fields_bits (am_fields e (Z.b2z p) (sdu_sn s) seg) /\
    Z.of_nat (length hb) = compute_pdu_header_size e seg.

Record link_inv (lk : link_t) : Prop := mk_link_inv {
  li_sender : am_wf (lk_sender lk);
  li_receiver : am_wf (lk_receiver lk);
  li_length : sn_field_length (lk_receiver lk) = sn_field_length (lk_sender lk);
  li_heap : forall a s, h_sdus (heap (lk_sender lk)) !! a = Some s -> sdu_data s ∈ lk_offered lk;
  li_offered : Forall (fun d => Z.of_nat (length d) <= NR_SDU_MAX) (lk_offered lk);
  li_channel : Forall (from_sender (lk_sender lk)) (lk_channel lk);
  li_received : rx_consistent (rx_list (lk_receiver lk)) (sn_data (heap (lk_sender lk)));
  li_delivered : forall d, deliver_sdu d ∈ events (lk_receiver lk) -> d ∈ lk_offered lk
}.

Lemma from_sender_grows new e e' pdu :
  heap_grows new (heap e) (heap e') -> conf_part e' = conf_part e -> from_sender e pdu -> from_sender e' pdu.
Proof.
  intros [Hg _] Hc (s & p & hb & seg & Hs & Hok & Hr & Hp & Hb & Hl).
  unfold conf_part in Hc. injection Hc as C1 C2 C3. destruct (Hg _ _ Hs) as (s' & Hs' & Hd & Hsn).
  assert (Esn : sdu_sn s' = sdu_sn s) by (unfold sn_range in Hr; destruct Hsn; [done|lia]).
  exists s', p, hb, seg. unfold sn_range, am_fields, compute_pdu_header_size, seg_ok in *.
  rewrite C1, C2, Hd, Esn. tauto.
Qed.

Lemma wf_sns e : rx_wf e -> Forall (fun p => pdu_sn p <> -1) (rx_list e).
Proof.
  intros (_ & _ & _ & _ & _ & (Hl & _) & _). eapply List.Forall_impl; [|exact Hl].
  intros p Hp. unfold pdu_ok in Hp. lia.
Qed.

(** Steps of the sender. *)
Lemma sender_step s r ch off s' ch' off' new :
  link_inv (mk_link s r ch off) -> am_wf s' -> heap_grows new (heap s) (heap s') ->
  conf_part s' = conf_part s -> off' = new ++ off ->
  Forall (fun d => Z.of_nat (length d) <= NR_SDU_MAX) new ->
  Forall (fun pdu => pdu ∈ ch \/ from_sender s' pdu) ch' -> link_inv (mk_link s' r ch' off').
Proof.
  intros [H1 H2 H3 H4 H5 H6 H7 H8] Hwf Hg Hc -> Hnew Hch. cbn in *. constructor; cbn; try done.
  - unfold conf_part in Hc. congruence.
  - intros a t Ht. rewrite elem_of_app. destruct Hg as [_ Hg].
    destruct (Hg a t Ht) as [?|(t0 & Ht0 & ->)]; [by left|right; by eapply H4].
  - by apply Forall_app.
  - rewrite list.Forall_forall in H6. eapply List.Forall_impl; [|exact Hch].
    intros pdu [?|?]; [|done]. eapply from_sender_grows; eauto.
  - eapply consistent_grows; [exact Hg|apply (tx_order s' (proj2 Hwf))|by apply wf_sns, H2|done].
  - intros d Hd. rewrite elem_of_app. right. by apply H8.
Qed.

(** A PDU from the channel. *)
Lemma receive_step s r ch off pdu r' :
  link_inv (mk_link s r ch off) -> pdu ∈ ch -> nr_rlc_entity_am_recv_pdu r pdu = Ok r' ->
  link_inv (mk_link s r' ch off).
Proof.
  intros [H1 H2 H3 H4 H5 H6 H7 H8] Hp E.
  cbn [lk_sender lk_receiver lk_channel lk_offered] in *. rewrite list.Forall_forall in H6.
  destruct (H6 pdu Hp) as (t & p & hb & seg & Ht & Hok & Hr & Epdu & Hb & Hl).
  pose proof (tx_conf s (proj2 H1)) as Hcs. destruct H2 as [Hrx Htx]. pose proof (proj1 Hrx) as Hcr.
  pose proof (ord_unique _ _ _ _ _ _ _ _ (tx_order s (proj2 H1))) as Hu.
  assert (Hm : sn_modulus r = sn_modulus s).
  { destruct Hcs as [[[E1 ->]|[E1 ->]] _], Hcr as [[[E2 ->]|[E2 ->]] _]; try done; congruence. }
  assert (Hd : sn_data (heap s) (sdu_sn t) = sdu_data t)
    by (eapply sn_data_at; [done|exact Ht|unfold sn_range in Hr; lia]).
  rewrite Epdu, (recv_fields r (Z.b2z p) (sdu_sn t) seg t) in E; [|done| | |exact Hok|].
  2: { destruct p; cbn; lia. }
  2: { unfold sn_range in *; by rewrite Hm. }
  2: { unfold am_fields in *. by rewrite H3. }
  rewrite <- Epdu in E. set (h := mk_header _ _ _ _ _) in E.
  destruct (recv_data_pdu_delivers r (sn_data (heap s)) pdu (Z.b2z p) h) as (r1 & E1 & Hrx1 & Hc1 & Hyes & Hno);
    [done|done| | | |].
  - unfold header_ok, h. cbn. unfold sn_range in *. rewrite Hm. unfold seg_ok in Hok.
    pose proof (header_size_pos r seg). lia.
  - cbn [h ph_sn]. rewrite Hd. rewrite Epdu. subst h. eapply sent_segment; eauto. by rewrite Hl; unfold compute_pdu_header_size; rewrite H3.
  - cbn [h ph_sn]. rewrite Hd. rewrite list.Forall_forall in H5. apply H5. by eapply H4.
  - rewrite E in E1. injection E1 as <-. apply recv_data_tx in E as Htp. constructor; cbn; try done.
    + split; [done|]. by eapply tx_wf_part.
    + unfold tx_part, conf_part in Htp. congruence.
    + by apply list.Forall_forall.
    + intros d Hdel. destruct (decide (d ∈ off)) as [?|Hout]; [done|exfalso].
      assert (Hold : events r' <> events r) by (intros Heq; apply Hout, H8; by rewrite <- Heq).
      apply Hold, Hno. destruct (accepted r pdu h) eqn:Ea; [|by left].
      destruct (sdu_delivered r (ph_sn h)) eqn:Es; [by right; left|]. right; right. intros Hcomp.
      rewrite (Hyes eq_refl eq_refl Hcomp), elem_of_app, list_elem_of_singleton in Hdel.
      destruct Hdel as [Hdel|Hdel]; [by apply Hout, H8|]. injection Hdel as ->. apply Hout.
      cbn [h ph_sn]. rewrite Hd. by eapply H4.
Qed.

Lemma rx_conf_part e e' : rx_part e' = rx_part e -> conf_part e' = conf_part e.
Proof. unfold rx_part. congruence. Qed.

Lemma generate_pdu_conf e b e' b' n :
  status_to_report e = false -> nr_rlc_entity_am_generate_pdu e b = Ok (e', b', n) -> conf_part e' = conf_part e.
Proof.
  intros Hst H. apply rx_conf_part. unfold nr_rlc_entity_am_generate_pdu in H. rewrite Hst in H.
  cbn [rbind Z.eqb negb] in H. apply rbind_ok in H as ([[e1 b1] n1] & E1 & H).
  assert (H1 : rx_part e1 = rx_part e)
    by (destruct (retransmit_list e); [by injection E1 as <- _ _|by eapply generate_retx_rx]).
  rewrite <- H1. destruct (negb _); [by injection H as <- _ _|by eapply generate_tx_rx].
Qed.

(** The timers deliver nothing. *)
Lemma set_time_rx e now e' :
  nr_rlc_entity_am_set_time e now = Ok e' ->
  conf_part e' = conf_part e /\ rx_list e' = rx_list e /\
  forall d, deliver_sdu d ∈ events e' -> deliver_sdu d ∈ events e.
Proof.
  intros H. unfold nr_rlc_entity_am_set_time in H. apply rbind_ok in H as (e1 & E1 & H).
  pose proof (poll_retransmit_rx _ _ E1) as H1.
  assert (Hev1 : forall d, deliver_sdu d ∈ events e1 -> deliver_sdu d ∈ events e).
  { intros d. unfold check_t_poll_retransmit in E1. destruct (negb _); [by injection E1 as <-|].
    destruct (negb _); [by injection E1 as <-|]. am_simpl_all. destruct (wait_list e) as [|x rest]; [done|].
    apply rbind_ok in E1 as (e2 & E2 & E1). apply rbind_ok in E1 as (l & _ & E1). injection E1 as <-. am_simpl.
    unfold retx_segment in E2. apply rbind_ok in E2 as (s & _ & E2). injection E2 as <-.
    unfold add_bstatus_retx, emit. am_simpl. destruct (_ >=? _), rest; am_simpl; rewrite ?elem_of_app; try done;
      intros [?|Hd]; try done; by apply list_elem_of_singleton in Hd. }
  assert (H2 : conf_part e' = conf_part e1 /\ rx_list e' = rx_list e1 /\ events e' = events e1).
  { unfold check_t_reassembly in H. destruct (negb _); [by injection H as <-|].
    apply rbind_ok in H as (sn & _ & H). destruct (_ || _); by injection H as <-. }
  destruct H2 as (-> & -> & ->). unfold rx_part in H1.
  injection H1 as H1 H2 H3 _ _ _ _ H4 _ _. unfold conf_part. rewrite H1, H2, H3, H4. done.
Qed.

Lemma link_step_inv lk lk' : link_step lk lk' -> link_inv lk -> link_inv lk'.
Proof.
  destruct 1 as [s r ch off b i s' Hb E|s r ch off b s' b' n Hst E Hn|s r ch off pdu r' Hp E
                |s r ch off now s' Hp E|s r ch off now r' Hp E]; intros Hinv;
    pose proof (li_sender _ Hinv) as Hs; pose proof (li_receiver _ Hinv) as Hr; cbn in Hs, Hr.
  - eapply (sender_step _ _ _ _ _ _ _ [b]); [exact Hinv| | | |done| |].
    + eapply am_step_wf; [by eapply step_recv_sdu|done].
    + eapply recv_sdu_heap; [apply Hs|done].
    + by eapply rx_conf_part, recv_sdu_rx.
    + constructor; [lia|constructor].
    + apply list.Forall_forall. by left.
  - eapply (sender_step _ _ _ _ _ _ _ []); [exact Hinv| | | |done|constructor|].
    + eapply am_step_wf; [by eapply step_generate_pdu|done].
    + eapply generate_pdu_heap; [apply Hs|done|done].
    + by eapply generate_pdu_conf.
    + constructor; [right|apply list.Forall_forall; by left].
      destruct (am_generate_pdu_spec s b Hs) as (s1 & b1 & n1 & E1 & _ & Hspec). rewrite E in E1.
      injection E1 as <- <- <-. rewrite Hst in Hspec. cbn [andb] in Hspec.
      assert (Hcar : exists seg, carries s' seg b' n).
      { destruct (can_retransmit _ _); [|destruct (can_send_new _ _); [|lia]]; destruct Hspec as (_ & _ & _ & seg & Hseg & _); by exists seg. }
      destruct Hcar as (seg & t & p & hb & H1 & H2 & H3 & _ & _ & H4 & H5 & H6). exists t, p, hb, seg. done.
  - by eapply receive_step.
  - eapply (sender_step _ _ _ _ _ _ _ []); [exact Hinv| | | |done|constructor|].
    + eapply am_step_wf; [by eapply step_set_time|done].
    + by eapply set_time_heap.
    + by eapply set_time_rx.
    + apply list.Forall_forall. by left.
  - destruct (set_time_rx _ _ _ E) as (Hc & Hl & Hev).
    destruct Hinv as [H1 H2 H3 H4 H5 H6 H7 H8]. cbn in *. constructor; cbn; try done.
    + eapply am_step_wf; [by eapply step_set_time|done].
    + unfold conf_part in Hc. congruence.
    + by rewrite Hl.
    + intros d Hd. by apply H8, Hev.
Qed.

Lemma link_start_inv s r :
  am_wf s -> am_wf r -> sn_field_length r = sn_field_length s -> h_sdus (heap s) = ∅ ->
  rx_list r = [] -> events r = [] -> link_inv (mk_link s r [] []).
Proof.
  intros Hs Hr Hl Hh Hrx Hev. constructor; cbn; try done; rewrite ?Hh, ?Hrx, ?Hev.
  - intros a t Ht. by rewrite lookup_empty in Ht.
  - intros p Hp. by apply not_elem_of_nil in Hp.
  - intros d Hd. by apply not_elem_of_nil in Hd.
Qed.

(** ** Property *)

(** C1. Integrity over a bad one-way channel. A new sender and a new receiver in acknowledged mode
    with the same SN length are joined by a channel of data PDUs that loses, duplicates, delays
    and reorders them at will. Whatever SDUs (1 to NR_SDU_MAX bytes) are offered, whatever
    transmission opportunities (hence segmentations) occur, whenever t-PollRetransmit of the
    sender brings PDUs back for retransmission and re-segmentation and whenever the timers of the
    receiver run, every SDU that the receiver delivers is, byte for byte, one of the SDUs offered
    to the sender. Scope: the status reports of the receiver are not carried back, so there are no
    ACKs and NACKs, the window of the sender does not move, at most one window of SDUs gets an SN
    and no SN is reused (with reuse a PDU that was delayed for long would be taken for a later
    one); SDUs are not discarded, entities are not re-established, and a tick of a timer happens
    only where there is something to retransmit ([poll_retransmit_null]). *)
Theorem am_link_integrity rx_max tx_max tp tr ts pp pb mr rx_max' tx_max' tp' tr' ts' pp' pb' mr' snl s r lk d :
  new_nr_rlc_entity_am rx_max tx_max tp tr ts pp pb mr snl = Ok s ->
  new_nr_rlc_entity_am rx_max' tx_max' tp' tr' ts' pp' pb' mr' snl = Ok r ->
  0 <= rx_max -> 0 <= rx_max' ->
  rtc link_step (mk_link s r [] []) lk ->
  deliver_sdu d ∈ events (lk_receiver lk) -> d ∈ lk_offered lk.
Proof.
  intros Es Er Hs Hr Hsteps. apply li_delivered.
  pose proof (new_am_wf _ _ _ _ _ _ _ _ _ _ Es Hs) as Hws. pose proof (new_am_wf _ _ _ _ _ _ _ _ _ _ Er Hr) as Hwr.
  assert (H0 : link_inv (mk_link s r [] [])).
  { unfold new_nr_rlc_entity_am in Es, Er. destruct (negb _); [done|]. injection Es as <-. injection Er as <-.
    by apply link_start_inv. }
  clear - Hsteps H0. induction Hsteps as [|x y z Hxy _ IH]; [done|]. by eapply IH, link_step_inv.
Qed.

(** A run: one SDU sent in two segments that arrive in reverse order. *)
Lemma link_example_run :
  exists e lk, new_nr_rlc_entity_am 1000 1000 45 35 0 4 (-1) 3 12 = Ok e /\
    rtc link_step (mk_link e e [] []) lk /\
    events (lk_receiver lk) = [deliver_sdu [7; 8; 9]] /\ lk_offered lk = [[7; 8; 9]].
Proof.
  do 2 eexists. split; [vm_compute; reflexivity|]. split.
  - eapply rtc_l; [eapply (link_offer _ _ _ _ [7; 8; 9] 1); [unfold NR_SDU_MAX; cbn; lia|vm_compute; reflexivity]|].
    eapply rtc_l; [eapply (link_send _ _ _ _ (repeat 0 4)); [reflexivity|vm_compute; reflexivity|lia]|].
    eapply rtc_l; [eapply (link_send _ _ _ _ (repeat 0 20)); [reflexivity|vm_compute; reflexivity|lia]|].
    eapply rtc_l; [eapply link_receive; [left|vm_compute; reflexivity]|].
    eapply rtc_once. eapply link_receive; [right; left|vm_compute; reflexivity].
  - split; reflexivity.
Qed.

Lemma am_link_integrity_witness : exists lk, deliver_sdu [7; 8; 9] ∈ events (lk_receiver lk) /\ [7; 8; 9] ∈ lk_offered lk.
Proof.
  destruct link_example_run as (e & lk & He & Hsteps & Hev & _). exists lk.
  assert (Hd : deliver_sdu [7; 8; 9] ∈ events (lk_receiver lk)) by (rewrite Hev; left). split; [exact Hd|].
  exact (am_link_integrity 1000 1000 45 35 0 4 (-1) 3 1000 1000 45 35 0 4 (-1) 3 12 e e lk [7; 8; 9]
           He He ltac:(lia) ltac:(lia) Hsteps Hd).
Defined.
