(* ===== verification/RlcUmProps.v ===== *)
(** Properties of the unacknowledged-mode entity: what it transmits, how the peer reads
    it, and the memory it uses. *)

From stdpp Require Import relations.
From S2P Require Import Prelude.
From S2P Require Import RlcPdu.
From S2P Require Import RlcSdu.
From S2P Require Import RlcSegs.
From S2P Require Import RlcAm.
From S2P Require Import RlcAmRx.
From S2P Require Import RlcUm.
From S2P Require Import RlcEntity.
From S2P Require Import RlcAmTx.
From S2P Require Import RlcAmSend.

(** ** Specification vocabulary *)

Definition um_conf (e : nr_rlc_entity_um_t) : Prop :=
  (um_sn_field_length e = 6 /\ um_sn_modulus e = 64) \/
  (um_sn_field_length e = 12 /\ um_sn_modulus e = 4096).

Definition um_sn_range (e : nr_rlc_entity_um_t) (sn : Z) : Prop := 0 <= sn < um_sn_modulus e.

(** A PDU that carries a whole SDU. *)
Definition whole (seg : nr_rlc_sdu_segment_t) : bool := seg_is_first seg && seg_is_last seg.

(** The header of a PDU as fields. *)
Definition um_fields (e : nr_rlc_entity_um_t) (sn : Z) (seg : nr_rlc_sdu_segment_t) : list (Z * Z) :=
  [(1 - Z.b2z (seg_is_first seg), 1); (1 - Z.b2z (seg_is_last seg), 1)]
  ++ (if whole seg then [(0, 6)]
      else (if um_sn_field_length e =? 12 then [(0, 2)] else []) ++ [(sn, um_sn_field_length e)])
  ++ (if negb (seg_is_first seg) then [(seg_so seg, 16)] else []).

Definition um_pdu_bytes (sn_length : Z) (x : nr_rlc_sdu_segment_t) : Z :=
  1 + (if negb (whole x) && (sn_length =? 12) then 1 else 0) + (if seg_is_first x then 0 else 2) + seg_size x.

Lemma um_pdu_bytes_eq e x :
  um_compute_pdu_header_size e x + seg_size x = um_pdu_bytes (um_sn_field_length e) x.
Proof. unfold um_compute_pdu_header_size, um_pdu_bytes, whole. destruct (_ && _), (seg_is_first x); cbn; lia. Qed.

(** ** Writing *)

Lemma um_serialize_header_fields e sn seg enc :
  um_serialize_header e sn seg enc = put_fields enc (um_fields e sn seg).
Proof.
  unfold um_serialize_header, um_fields, whole. destruct (seg_is_first seg), (seg_is_last seg), (_ =? 12);
    cbn [app put_fields negb andb];
    repeat match goal with
    | |- context [nr_rlc_pdu_encoder_put_bits ?e ?v ?c] =>
      destruct (nr_rlc_pdu_encoder_put_bits e v c); cbn [rbind]; try done
    end.
Qed.

Lemma um_fields_ok e sn seg s :
  um_conf e -> um_sn_range e sn -> seg_ok s seg -> Forall field_ok (um_fields e sn seg).
Proof.
  intros Hc Hsn (Hso & _). unfold um_fields, field_ok, um_sn_range in *.
  assert (0 < um_sn_field_length e <= 31 /\ 2 ^ um_sn_field_length e = um_sn_modulus e) as [H1 H2]
    by (destruct Hc as [[-> ->]|[-> ->]]; lia).
  repeat (apply Forall_app; split); repeat constructor; cbn [fst snd]; try lia;
    try (destruct (seg_is_first seg); cbn; lia); try (destruct (seg_is_last seg); cbn; lia).
  - destruct (whole seg); [repeat constructor; cbn; lia|]. apply Forall_app.
    split; [destruct (_ =? 12)|]; repeat constructor; cbn; lia.
  - destruct (negb _); repeat constructor; cbn; lia.
Qed.

Lemma um_fields_size e sn seg :
  um_conf e -> sumZ snd (um_fields e sn seg) = 8 * um_compute_pdu_header_size e seg.
Proof.
  intros Hc. unfold um_fields, um_compute_pdu_header_size, whole.
  destruct Hc as [[-> _]|[-> _]]; destruct (seg_is_first seg), (seg_is_last seg); cbn; lia.
Qed.

Lemma um_header_size_pos e seg : 1 <= um_compute_pdu_header_size e seg <= 4.
Proof. unfold um_compute_pdu_header_size. destruct (_ && _), (negb _); lia. Qed.

(** Serialization of a segment that fits. *)
Lemma um_serialize_ok e seg s buffer :
  um_conf e -> h_sdus (um_heap e) !! seg_sdu seg = Some s -> um_sn_range e (sdu_sn s) -> seg_ok s seg ->
  um_compute_pdu_header_size e seg + seg_size seg <= Z.of_nat (length buffer) ->
  let n := um_compute_pdu_header_size e seg + seg_size seg in
  exists buffer' hb, um_serialize_sdu e seg buffer = Ok (buffer', n) /\
    take (Z.to_nat n) buffer'
      = hb ++ take (Z.to_nat (seg_size seg)) (drop (Z.to_nat (seg_so seg)) (sdu_data s)) /\
    bytes_bits hb = fields_bits (um_fields e (sdu_sn s) seg) /\
    Z.of_nat (length hb) = um_compute_pdu_header_size e seg /\ length buffer' = length buffer.
Proof.
  intros Hc Hs Hsn Hseg Hroom n. pose proof (um_header_size_pos e seg) as Hh.
  pose proof (um_fields_size e (sdu_sn s) seg Hc) as Hsz.
  set (hs := um_compute_pdu_header_size e seg) in *. pose proof Hseg as (Hso & Hpos & Hin & _).
  destruct (put_fields_spec (um_fields e (sdu_sn s) seg)
              (nr_rlc_pdu_encoder_init buffer (Z.of_nat (length buffer)))) as (enc & E & Hok & Hr & Hsize & Hw);
    [by eapply um_fields_ok|apply enc_ok_init|
     rewrite Hsz; unfold room; cbn [nr_rlc_pdu_encoder_init e_size e_byte e_bit]; lia|].
  destruct (encoder_bytes enc hs) as [Hb Hbits];
    [done|rewrite Hr, Hsize, Hsz; unfold room; cbn [nr_rlc_pdu_encoder_init e_size e_byte e_bit]; lia|].
  assert (Hlen : length (e_buffer enc) = length buffer) by (pose proof (proj1 Hok); cbn in Hsize; lia).
  unfold um_serialize_sdu, get_sdu. rewrite Hs. cbn [rbind].
  rewrite um_serialize_header_fields, E. cbn [rbind].
  unfold copy_data. destruct (_ || _) eqn:Hf; b2p.
  { exfalso. destruct Hf as [Hf|Hf]; b2p; [|lia]. destruct Hf as [Hf|Hf]; b2p; [|lia].
    destruct Hf as [Hf|Hf]; b2p; lia. }
  cbn [rbind]. rewrite Hb. set (payload := take _ (drop _ (sdu_data s))).
  assert (Hpl : length payload = Z.to_nat (seg_size seg))
    by (subst payload; rewrite length_take, length_drop; lia).
  eexists _, (take (Z.to_nat hs) (e_buffer enc)). split; [done|].
  split; [apply buf_write_take; lia|]. split; [by rewrite Hbits, Hw|]. split; [rewrite length_take; lia|].
  unfold buf_write. rewrite !length_app, length_take, length_drop. lia.
Qed.

(** ** Reading *)

(** The reserved bits of a segment with a 12-bit SN. *)
Lemma um_skip_reserved e d fs tl :
  dec_ok d ->
  remaining d = fields_bits ((if um_sn_field_length e =? 12 then [(0, 2)] else []) ++ fs) ++ tl ->
  exists d', (if um_sn_field_length e =? 12
              then getbits (_, d) := (d, 2) err (Ok None) in Ok (Some d)
              else Ok (Some d)) = Ok (Some d') /\
    dec_ok d' /\ remaining d' = fields_bits fs ++ tl /\
    8 * d_byte d' + d_bit d' = 8 * d_byte d + d_bit d + (if um_sn_field_length e =? 12 then 2 else 0).
Proof.
  intros Hok Hrem. destruct (um_sn_field_length e =? 12).
  - cbn [app] in Hrem. rewrite fields_bits_cons, <- app_assoc in Hrem.
    next_field d 0 2 Hok Hrem. eexists. split; [done|]. split; [done|]. split; [done|]. lia.
  - exists d. split; [done|]. split; [done|]. split; [done|]. lia.
Qed.

Lemma um_decode_header_fields r sn seg s d tl :
  um_conf r -> um_sn_range r sn -> seg_ok s seg -> whole seg = false -> dec_ok d ->
  remaining d = fields_bits (drop 2 (um_fields r sn seg)) ++ tl -> 8 * d_byte d + d_bit d = 2 ->
  um_decode_header r (seg_is_first seg) (seg_is_last seg) d =
  Ok (Some (mk_header (seg_is_first seg) (seg_is_last seg) sn (seg_so seg) (um_compute_pdu_header_size r seg))).
Proof.
  intros Hc Hsn (Hso & _ & _ & Hfirst & _) Hw Hok Hrem Hpos.
  assert (0 < um_sn_field_length r <= 31 /\ 0 <= sn < 2 ^ um_sn_field_length r) as [Hsl Hsn2].
  { unfold um_sn_range in Hsn. destruct Hc as [[-> Hm]|[-> Hm]]; rewrite Hm in Hsn; lia. }
  pose proof (um_fields_size r sn seg Hc) as Hsum. unfold um_fields in Hrem, Hsum. rewrite Hw in Hrem, Hsum.
  cbn [app drop] in Hrem. rewrite <- app_assoc in Hrem.
  unfold um_decode_header.
  destruct (um_skip_reserved r d _ tl Hok Hrem) as (d2 & -> & Hok2 & Hrem2 & Hpos2).
  cbn [rbind app] in *. rewrite fields_bits_cons, <- app_assoc in Hrem2.
  next_field d2 sn (um_sn_field_length r) Hok2 Hrem2.
  cbn [sumZ snd] in Hsum. rewrite !sumZ_app in Hsum.
  assert (Hr : sumZ snd (if um_sn_field_length r =? 12 then [(0, 2)] else [])
               = if um_sn_field_length r =? 12 then 2 else 0) by (by destruct (_ =? 12)).
  rewrite Hr in Hsum. clear Hr. destruct (seg_is_first seg) eqn:Ef; cbn [negb sumZ snd] in *.
  - assert (seg_so seg = 0) as -> by tauto. do 3 f_equal. destruct Hok0 as (_ & _ & _ & ?).
    destruct (um_sn_field_length r =? 12); lia.
  - rewrite fields_bits_cons, <- app_assoc in Hrem0. next_field d0 (seg_so seg) 16 Hok0 Hrem0.
    destruct (Z.eqb_spec (seg_so seg) 0) as [E0|_]; [apply Hfirst in E0; congruence|].
    do 3 f_equal. destruct Hok1 as (_ & _ & _ & ?). destruct (um_sn_field_length r =? 12); lia.
Qed.

(** A PDU that starts with the bits of a header is received as that header. *)
Lemma um_recv_fields r sn seg s hb payload :
  um_conf r -> um_sn_range r sn -> seg_ok s seg -> payload <> [] ->
  bytes_bits hb = fields_bits (um_fields r sn seg) ->
  Z.of_nat (length hb) = um_compute_pdu_header_size r seg ->
  nr_rlc_entity_um_recv_pdu r (hb ++ payload) =
  if whole seg then Ok (um_emit r (deliver_sdu payload))
  else um_recv_segment r (hb ++ payload)
         (mk_header (seg_is_first seg) (seg_is_last seg) sn (seg_so seg) (um_compute_pdu_header_size r seg)).
Proof.
  intros Hc Hsn Hseg Hpl Hbits Hlen. unfold nr_rlc_entity_um_recv_pdu.
  set (f := 1 - Z.b2z (seg_is_first seg)). set (l := 1 - Z.b2z (seg_is_last seg)).
  assert (Hf : 0 <= f <= 1) by (subst f; destruct (seg_is_first seg); cbn; lia).
  assert (Hl : 0 <= l <= 1) by (subst l; destruct (seg_is_last seg); cbn; lia).
  set (d0 := nr_rlc_pdu_decoder_init _ _).
  assert (Hok0 : dec_ok d0) by apply dec_ok_init.
  assert (Hrem0 : remaining d0 = bits_be (Z.to_nat 2) (2 * f + l)
            ++ fields_bits (drop 2 (um_fields r sn seg)) ++ bytes_bits payload).
  { subst d0. rewrite remaining_init, bytes_bits_app, Hbits, <- si_bits by done. unfold um_fields.
    cbn [app drop]. rewrite !fields_bits_cons, <- !app_assoc. done. }
  assert (Hpos0 : 8 * d_byte d0 + d_bit d0 = 0) by done. clearbody d0.
  next_field d0 (2 * f + l) 2 Hok0 Hrem0. cbv zeta.
  assert ((Z.land (2 * f + l) 0x2 =? 0) = seg_is_first seg) as ->
    by (subst f l; by destruct (seg_is_first seg), (seg_is_last seg)).
  assert ((Z.land (2 * f + l) 0x1 =? 0) = seg_is_last seg) as ->
    by (subst f l; by destruct (seg_is_first seg), (seg_is_last seg)).
  fold (whole seg). destruct (whole seg) eqn:Hw.
  - assert (Hh : um_compute_pdu_header_size r seg = 1).
    { unfold um_compute_pdu_header_size. unfold whole in Hw. rewrite Hw.
      apply andb_true_iff in Hw as [-> _]. done. }
    rewrite Hh in Hlen. destruct hb as [|b0 [|b1 hb]]; cbn in Hlen; try lia.
    destruct payload as [|p0 payload]; [done|]. cbn [app length drop]. unfold skipn.
    replace (_ <? 2) with false by (symmetry; apply Z.ltb_ge; lia). done.
  - rewrite (um_decode_header_fields r sn seg s d (bytes_bits payload)) by (done || lia). done.
Qed.

(** ** The invariant of the transmission side *)

(** Only the head of the queue may be the rest of an SDU; its SN is TX_Next. *)
Definition um_queue_ok (f : addr -> Z) (next : Z) (l : list nr_rlc_sdu_segment_t) : Prop :=
  match l with
  | [] => True
  | x :: rest => seg_is_last x = true /\ (seg_is_first x = false -> f (seg_sdu x) = next) /\
                 Forall (fun y => whole y = true) rest
  end.

Record um_wf (e : nr_rlc_entity_um_t) : Prop := mk_um_wf {
  umw_conf : um_conf e;
  umw_next : um_sn_range e (um_tx_next e);
  umw_segs : segs_ok (um_heap e) (um_tx_list e);
  umw_queue : um_queue_ok (addr_sn (um_heap e)) (um_tx_next e) (um_tx_list e);
  umw_end : um_tx_end e = seg_addr <$> list.last (um_tx_list e);
  umw_status : bs_tx_size (um_bstatus e) = sumZ (um_pdu_bytes (um_sn_field_length e)) (um_tx_list e);
  umw_size : sumZ seg_size (um_tx_list e) <= um_tx_size e
}.

Lemma whole_queue f next l : Forall (fun y => whole y = true) l -> um_queue_ok f next l.
Proof.
  destruct 1 as [|x l Hx Hl]; [done|]. unfold whole in Hx. apply andb_true_iff in Hx as [Hf Hla].
  split; [done|]. split; [congruence|done].
Qed.

Lemma um_next_range e : um_conf e -> um_sn_range e (um_tx_next e) ->
  um_sn_range e (cmod (um_tx_next e + 1) (um_sn_modulus e)).
Proof.
  unfold um_sn_range. intros Hc Hn. apply cmod_bound; destruct Hc as [[_ E]|[_ E]]; rewrite E in *; lia.
Qed.

(** ** Transmission *)

(** The PDU of segment [a] of the SDU [s], of [n] bytes, is at the start of [buffer]. *)
Definition um_carries (e : nr_rlc_entity_um_t) (s : nr_rlc_sdu_t) (sn : Z) (a : nr_rlc_sdu_segment_t)
  (buffer : list Z) (n : Z) : Prop :=
  seg_ok s a /\ um_sn_range e sn /\ n = um_pdu_bytes (um_sn_field_length e) a /\ n <= Z.of_nat (length buffer) /\
  exists hb, take (Z.to_nat n) buffer
      = hb ++ take (Z.to_nat (seg_size a)) (drop (Z.to_nat (seg_so a)) (sdu_data s)) /\
    bytes_bits hb = fields_bits (um_fields e sn a) /\
    Z.of_nat (length hb) = um_compute_pdu_header_size e a.

(** SDUs of other segments keep their SN when a segment is released. *)
Lemma free_sn h x l s h' :
  segs_ok h (x :: l) -> h_sdus h !! seg_sdu x = Some s ->
  h_sdus h' = (if decide (refs (seg_sdu x) l = 0) then delete (seg_sdu x) (h_sdus h)
               else <[seg_sdu x := s <| free_count := free_count s + 1 |>]> (h_sdus h)) ->
  forall y, y ∈ l -> addr_sn h' (seg_sdu y) = addr_sn h (seg_sdu y).
Proof.
  intros Hok Hs Hh y Hy. unfold addr_sn. rewrite Hh. destruct (decide (seg_sdu y = seg_sdu x)) as [E|Hne].
  - rewrite decide_False; [by rewrite E, lookup_insert_eq, Hs|].
    pose proof (refs_pos _ y l Hy E). lia.
  - destruct (decide _); [by rewrite lookup_delete_ne|by rewrite lookup_insert_ne].
Qed.

Lemma um_send_spec e a l s buffer :
  um_conf e -> segs_ok (um_heap e) (a :: l) -> h_sdus (um_heap e) !! seg_sdu a = Some s ->
  um_sn_range e (sdu_sn s) -> um_pdu_bytes (um_sn_field_length e) a <= Z.of_nat (length buffer) ->
  exists e' buffer' h', um_send_segment e a buffer = Ok (e', buffer', um_pdu_bytes (um_sn_field_length e) a) /\
    e' = (if negb (seg_is_first a) && seg_is_last a
          then e <| um_tx_next := cmod (um_tx_next e + 1) (um_sn_modulus e) |> else e)
         <| um_tx_size := um_tx_size e - seg_size a |> <| um_heap := h' |> /\
    segs_ok h' l /\ (forall y, y ∈ l -> addr_sn h' (seg_sdu y) = addr_sn (um_heap e) (seg_sdu y)) /\
    um_carries e s (sdu_sn s) a buffer' (um_pdu_bytes (um_sn_field_length e) a) /\
    length buffer' = length buffer.
Proof.
  intros Hc Hok Hs Hsn Hfit. destruct (segs_live _ _ Hok a) as (t & Ht & Hseg); [left|].
  rewrite Hs in Ht. injection Ht as <-. rewrite <- um_pdu_bytes_eq in *.
  destruct (segs_ok_free _ _ _ Hok) as (t & h' & Ht & Efree & Hok' & _ & _ & Hh').
  rewrite Hs in Ht. injection Ht as <-. unfold um_send_segment.
  set (e1 := if _ && _ then _ else e).
  assert (E1 : um_heap e1 = um_heap e /\ um_sn_field_length e1 = um_sn_field_length e /\
               um_sn_modulus e1 = um_sn_modulus e /\ um_tx_size e1 = um_tx_size e)
    by (subst e1; by destruct (_ && _)).
  destruct E1 as (E1 & E2 & E3 & E4).
  destruct (um_serialize_ok e a s buffer Hc Hs Hsn Hseg Hfit) as (b' & hb & Es & Ht & Hb & Hl & Hlen).
  assert (Es' : um_serialize_sdu e1 a buffer = um_serialize_sdu e a buffer).
  { unfold um_serialize_sdu, um_serialize_header. by rewrite E1, E2. }
  rewrite Es', Es. cbn [rbind]. um_simpl. rewrite E1, Efree. cbn [rbind].
  eexists _, b', h'. split; [done|]. split; [by rewrite E4|]. split; [done|].
  split; [by eapply free_sn|]. split; [|done]. split; [done|]. split; [done|].
  split; [by rewrite um_pdu_bytes_eq|]. split; [lia|]. by exists hb.
Qed.

(** Cutting a segment: as in acknowledged mode, with the header of a segment. *)
Lemma um_resegment_spec e x s size :
  h_sdus (um_heap e) !! seg_sdu x = Some s -> seg_ok s x -> sdu_size s = Z.of_nat (length (sdu_data s)) ->
  sdu_size s <= NR_SDU_MAX -> seg_is_last x = true ->
  um_compute_pdu_header_size e x + 1 <= size -> size <> 2 ->
  size < um_compute_pdu_header_size e x + seg_size x ->
  exists a b, um_resegment e x size = Ok (Some (a, b),
      e <| um_heap := mk_heap (<[seg_sdu x := s <| ref_count := ref_count s + 1 |>]> (h_sdus (um_heap e)))
                        (h_next (um_heap e) + 1)%positive |>) /\
    seg_ok s a /\ seg_ok s b /\ um_pdu_bytes (um_sn_field_length e) a = size /\
    seg_sdu a = seg_sdu x /\ seg_sdu b = seg_sdu x /\ seg_addr a = seg_addr x /\
    seg_addr b = h_next (um_heap e) /\ seg_so a = seg_so x /\ seg_so b = seg_so a + seg_size a /\
    seg_size a + seg_size b = seg_size x /\ seg_is_first a = seg_is_first x /\ seg_is_last a = false /\
    seg_is_first b = false /\ seg_is_last b = true.
Proof.
  intros Hs (H1 & H2 & H3 & H4 & H5) Hsz Hmax Hl Hlo Hne Hhi. unfold um_resegment, get_sdu. rewrite Hs. cbn [rbind].
  unfold NR_SDU_MAX in Hmax.
  set (e0 := e <| um_heap := _ |>). set (hs := um_compute_pdu_header_size e0 _).
  assert (Hhs : hs = um_compute_pdu_header_size e (x <| seg_is_last := false |>)) by done.
  assert (Hc : um_compute_pdu_header_size e x <= hs /\ hs + 1 <= size).
  { rewrite Hhs. unfold um_compute_pdu_header_size in *. cbn. destruct (seg_is_first x); cbn in *; rewrite Hl in *; cbn in *;
      destruct (_ =? 12); cbn in *; lia. }
  assert (Hd : hs - um_compute_pdu_header_size e x <= 1).
  { rewrite Hhs. unfold um_compute_pdu_header_size in *. cbn. destruct (seg_is_first x); cbn in *; rewrite Hl in *; cbn in *;
      destruct (_ =? 12); cbn in *; lia. }
  replace (hs + 1 >? size) with false by (symmetry; rewrite Z.gtb_ltb; apply Z.ltb_ge; lia).
  assert (Hle : seg_so x + seg_size x = Z.of_nat (length (sdu_data s))) by (by apply H5).
  eexists _, _. split; [done|]. split; [|split; [|split]].
  - unfold seg_ok. cbn. split; [done|]. split; [lia|]. split; [lia|]. split; [done|]. split; [done|lia].
  - unfold seg_ok. cbn. split; [lia|]. split; [lia|]. split; [lia|]. split; [split; [done|lia]|]. rewrite Hl. split; [lia|done].
  - rewrite <- um_pdu_bytes_eq. unfold um_compute_pdu_header_size at 1. cbn.
    unfold um_compute_pdu_header_size in Hhs. cbn in Hhs. rewrite <- Hhs. lia.
  - cbn. repeat (split; [done || lia|]). done.
Qed.

(** What a request for a PDU has done: the PDU carries the first bytes of the head of the
    queue, under the SN TX_Next, and the rest of it stays at the head. *)
Definition um_sent (e e' : nr_rlc_entity_um_t) (buffer' : list Z) (n : Z) : Prop :=
  exists x rest s a, um_tx_list e = x :: rest /\ h_sdus (um_heap e) !! seg_sdu x = Some s /\
    seg_sdu a = seg_sdu x /\ seg_so a = seg_so x /\ um_carries e s (um_tx_next e) a buffer' n /\
    um_tx_size e' = um_tx_size e - seg_size a /\
    seg_is_last a = (um_pdu_bytes (um_sn_field_length e) x <=? Z.of_nat (length buffer')) /\
    if seg_is_last a
    then um_tx_list e' = rest /\ seg_size a = seg_size x /\
         um_tx_next e' = (if seg_is_first a then um_tx_next e else cmod (um_tx_next e + 1) (um_sn_modulus e))
    else exists b, um_tx_list e' = b :: rest /\ seg_sdu b = seg_sdu x /\ seg_so b = seg_so a + seg_size a /\
         seg_size b = seg_size x - seg_size a /\ um_tx_next e' = um_tx_next e.

Definition um_can_send (e : nr_rlc_entity_um_t) (size : Z) : bool :=
  match um_tx_list e with
  | [] => false
  | x :: _ => um_compute_pdu_header_size e x + 1 <=? size
  end.

(** The queue without its head, and the SN in the SDU of the head. *)
Definition um_popped (e : nr_rlc_entity_um_t) (x : nr_rlc_sdu_segment_t) (rest : list nr_rlc_sdu_segment_t)
  (s : nr_rlc_sdu_t) : nr_rlc_entity_um_t :=
  um_add_bstatus
    (e <| um_tx_list := rest |> <| um_tx_end := seg_addr <$> list.last rest |>
       <| um_heap := put_sdu (um_heap e) (seg_sdu x) (s <| sdu_sn := um_tx_next e |>) |>)
    (- (um_compute_pdu_header_size e x + seg_size x)).

Lemma um_send_whole e x rest s buffer :
  um_wf e -> um_tx_list e = x :: rest -> h_sdus (um_heap e) !! seg_sdu x = Some s ->
  um_compute_pdu_header_size e x + seg_size x <= Z.of_nat (length buffer) ->
  exists e' buffer' n, um_send_segment (um_popped e x rest s) x buffer = Ok (e', buffer', n) /\
    um_wf e' /\ um_sent e e' buffer' n /\ length buffer' = length buffer /\ um_events e' = um_events e.
Proof.
  intros [W1 W2 W3 W4 W5 W6 W7] Ht Hs Hfit. rewrite Ht in *. cbn in W6, W7. destruct W4 as (Hl & Hf & Hw).
  destruct (segs_ok_put _ _ _ s (s <| sdu_sn := um_tx_next e |>) W3 Hs) as [Hok _]; [done..|].
  set (e0 := um_popped e x rest s).
  assert (Hs0 : h_sdus (um_heap e0) !! seg_sdu x = Some (s <| sdu_sn := um_tx_next e |>)) by apply lookup_insert_eq.
  rewrite um_pdu_bytes_eq in Hfit.
  destruct (um_send_spec e0 x rest _ buffer W1 Hok Hs0 W2 Hfit) as (e' & b' & h' & E & He' & Hok' & Hsn & Hcar & Hlen).
  exists e', b'. eexists. split; [exact E|].
  assert (Hfirst : negb (seg_is_first x) && seg_is_last x = negb (seg_is_first x)) by (rewrite Hl; apply andb_true_r).
  rewrite Hfirst in He'.
  assert (F : um_tx_list e' = rest /\ um_heap e' = h' /\ um_tx_end e' = seg_addr <$> list.last rest /\
     um_tx_size e' = um_tx_size e - seg_size x /\ um_sn_field_length e' = um_sn_field_length e /\
     um_sn_modulus e' = um_sn_modulus e /\ bs_tx_size (um_bstatus e') = bs_tx_size (um_bstatus e0) /\
     um_events e' = um_events e /\
     um_tx_next e' = (if seg_is_first x then um_tx_next e else cmod (um_tx_next e + 1) (um_sn_modulus e)))
    by (rewrite He'; by destruct (seg_is_first x)).
  destruct F as (F1 & F2 & F3 & F4 & F5 & F6 & F7 & F8 & F9).
  split; [|split; [|done]].
  - constructor; unfold um_conf, um_sn_range in *; rewrite ?F1, ?F2, ?F3, ?F4, ?F5, ?F6, ?F7, ?F9; try done.
    + destruct (seg_is_first x); [done|]. by apply um_next_range.
    + by apply whole_queue.
    + unfold e0, um_popped, um_add_bstatus. cbn. rewrite W6, um_pdu_bytes_eq. lia.
    + lia.
  - exists x, rest, s, x. split; [done|]. split; [done|]. split; [done|]. split; [done|]. split; [exact Hcar|].
    split; [done|]. split; [|by rewrite Hl]. rewrite Hl, Hlen. symmetry. by apply Z.leb_le.
Qed.

Lemma um_send_cut e x rest s buffer :
  um_wf e -> um_tx_list e = x :: rest -> h_sdus (um_heap e) !! seg_sdu x = Some s ->
  let size := Z.of_nat (length buffer) in
  um_compute_pdu_header_size e x + 1 <= size -> size <> 2 ->
  size < um_compute_pdu_header_size e x + seg_size x ->
  exists a b e1, um_resegment (um_popped e x rest s) x size = Ok (Some (a, b), e1) /\
    um_tx_list e1 = rest /\ um_tx_end e1 = seg_addr <$> list.last rest /\
    let e2 := um_add_bstatus (e1 <| um_tx_list := b :: rest |> <| um_tx_end := seg_addr <$> list.last (b :: rest) |>)
                (um_compute_pdu_header_size e b + seg_size b) in
    exists e' buffer' n, um_send_segment e2 a buffer = Ok (e', buffer', n) /\
      um_wf e' /\ um_sent e e' buffer' n /\ length buffer' = length buffer /\ um_events e' = um_events e.
Proof.
  intros [W1 W2 W3 W4 W5 W6 W7] Ht Hs size Hlo Hne Hhi. rewrite Ht in *. cbn in W6, W7. destruct W4 as (Hl & Hf & Hw).
  destruct (segs_ok_put _ _ _ s (s <| sdu_sn := um_tx_next e |>) W3 Hs) as [Hok _]; [done..|].
  set (e0 := um_popped e x rest s).
  assert (Hs0 : h_sdus (um_heap e0) !! seg_sdu x = Some (s <| sdu_sn := um_tx_next e |>)) by apply lookup_insert_eq.
  destruct (segs_get _ _ x Hok) as (s1 & Hs1 & _ & Hsx & Hz & Hmax); [left|].
  change (h_sdus (um_heap e0) !! seg_sdu x = Some s1) in Hs1. rewrite Hs0 in Hs1. injection Hs1 as <-.
  destruct (um_resegment_spec e0 x _ size Hs0 Hsx Hz Hmax Hl Hlo Hne Hhi)
    as (a & b & E & Ha & Hb & Hfit & A1 & B1 & A2 & B2 & A3 & B3 & Hsum & A4 & A5 & B4 & B5).
  destruct (segs_ok_cut _ x rest a b _ Hok Hs0 A1 B1 A2 B2 Ha Hb A3 B3 Hsum) as [Hok2 _].
  set (e1 := e0 <| um_heap := _ |>) in E.
  exists a, b, e1. split; [exact E|]. split; [done|]. split; [done|]. intros e2.
  assert (Hs2 : h_sdus (um_heap e2) !! seg_sdu a
            = Some (s <| sdu_sn := um_tx_next e |> <| ref_count := ref_count s + 1 |>))
    by (rewrite A1; apply lookup_insert_eq).
  destruct (um_send_spec e2 a (b :: rest) _ buffer W1 Hok2 Hs2 W2) as (e' & b' & h' & E' & He' & Hok' & Hsn & Hcar & Hlen).
  { change (um_pdu_bytes (um_sn_field_length e0) a <= size). lia. }
  exists e', b'. eexists. split; [exact E'|]. rewrite A5, andb_false_r in He'.
  assert (F : um_tx_list e' = b :: rest /\ um_heap e' = h' /\ um_tx_end e' = seg_addr <$> list.last (b :: rest) /\
     um_tx_size e' = um_tx_size e - seg_size a /\ um_sn_field_length e' = um_sn_field_length e /\
     um_sn_modulus e' = um_sn_modulus e /\ bs_tx_size (um_bstatus e') = bs_tx_size (um_bstatus e2) /\
     um_events e' = um_events e /\ um_tx_next e' = um_tx_next e) by (by rewrite He').
  destruct F as (F1 & F2 & F3 & F4 & F5 & F6 & F7 & F8 & F9).
  split; [|split; [|done]].
  - constructor; unfold um_conf, um_sn_range in *; rewrite ?F1, ?F2, ?F3, ?F4, ?F5, ?F6, ?F7, ?F9; try done.
    + split; [done|]. split; [|done]. intros _. rewrite Hsn by left. unfold addr_sn.
      rewrite B1, <- A1, Hs2. done.
    + unfold e2, e1, e0, um_popped, um_add_bstatus. cbn. rewrite W6, !um_pdu_bytes_eq. lia.
    + cbn. lia.
  - exists x, rest, s, a. split; [done|]. split; [done|]. split; [done|]. split; [done|]. split; [exact Hcar|].
    split; [done|]. split; [rewrite A5, Hlen; symmetry; apply Z.leb_gt; by rewrite <- um_pdu_bytes_eq|].
    rewrite A5. exists b. split; [done|]. split; [done|]. split; [done|]. split; [lia|done].
Qed.

Lemma um_generate_spec e buffer :
  let size := Z.of_nat (length buffer) in
  um_wf e -> size <> 2 ->
  exists e' buffer' n, nr_rlc_entity_um_generate_pdu e buffer = Ok (e', buffer', n) /\ um_wf e' /\
    if um_can_send e size
    then um_sent e e' buffer' n /\ length buffer' = length buffer /\ um_events e' = um_events e
    else e' = e /\ buffer' = buffer /\ n = 0.
Proof.
  intros size Hwf Hne. unfold nr_rlc_entity_um_generate_pdu, um_generate_tx_pdu, um_can_send. fold size.
  destruct (um_tx_list e) as [|x rest] eqn:Ht; [by eexists e, buffer, 0|].
  destruct (Z.leb_spec (um_compute_pdu_header_size e x + 1) size) as [Hh|Hh].
  2: { replace (_ >? _) with true by (symmetry; rewrite Z.gtb_ltb; apply Z.ltb_lt; lia). by eexists e, buffer, 0. }
  replace (_ >? _) with false by (symmetry; rewrite Z.gtb_ltb; apply Z.ltb_ge; lia).
  destruct (segs_get _ _ x (umw_segs e Hwf)) as (s & Hs & Eg & _); [rewrite Ht; left|].
  set (e0 := match rest with [] => _ | _ => _ end).
  assert (E0 : e0 = e <| um_tx_list := rest |> <| um_tx_end := seg_addr <$> list.last rest |>).
  { subst e0. destruct rest as [|y rest]; [done|]. pose proof (umw_end e Hwf) as He.
    rewrite Ht, last_cons_cons in He. destruct e. cbn in *. by rewrite He. }
  rewrite E0. clearbody e0. clear E0 e0. um_simpl. rewrite Eg. cbn [rbind]. fold (um_popped e x rest s).
  destruct (Z.ltb_spec size (um_compute_pdu_header_size e x + seg_size x)) as [Hc|Hc].
  - replace (_ >? _) with true by (symmetry; rewrite Z.gtb_ltb; apply Z.ltb_lt; lia).
    destruct (um_send_cut e x rest s buffer Hwf Ht Hs Hh Hne Hc) as (a & b & e1 & E & T1 & T2 & e' & b' & n & E' & H1 & H2 & H3).
    fold size in E. rewrite E. cbn [rbind]. um_simpl. rewrite T1, T2.
    set (e2 := match _ with Some _ => _ | None => _ end).
    assert (E2 : e2 = e1 <| um_tx_list := b :: rest |> <| um_tx_end := seg_addr <$> list.last (b :: rest) |>).
    { subst e2. destruct rest as [|y rest]; [done|].
      destruct (list.last (y :: rest)) as [z|] eqn:Ez; [|by apply last_None in Ez].
      rewrite last_cons_cons, Ez. cbn in T2 |- *. destruct e1. cbn in *. by rewrite T2. }
    assert (Hhb : um_compute_pdu_header_size e2 b = um_compute_pdu_header_size e b).
    { rewrite E2. unfold um_resegment in E. apply rbind_ok in E as (t & _ & E).
      destruct (_ >? _); [done|]. injection E as _ _ <-. done. }
    rewrite Hhb, E2. exists e', b', n. split; [exact E'|]. done.
  - replace (_ >? _) with false by (symmetry; rewrite Z.gtb_ltb; apply Z.ltb_ge; lia).
    destruct (um_send_whole e x rest s buffer Hwf Ht Hs Hc) as (e' & b' & n & E' & H1 & H2 & H3).
    by exists e', b', n.
Qed.

(** ** SDUs from the upper layer, discard, release *)

Lemma um_recv_sdu_spec e buffer id :
  um_wf e -> 0 < Z.of_nat (length buffer) <= NR_SDU_MAX ->
  exists e', nr_rlc_entity_um_recv_sdu e buffer id = Ok e' /\ um_wf e' /\
    if um_tx_size e + Z.of_nat (length buffer) <=? um_tx_maxsize e
    then exists x s, um_tx_list e' = um_tx_list e ++ [x] /\ whole x = true /\
         h_sdus (um_heap e') !! seg_sdu x = Some s /\ sdu_data s = buffer /\ upper_layer_id s = id
    else e' = e.
Proof.
  intros Hwf Hb. unfold nr_rlc_entity_um_recv_sdu. set (n := Z.of_nat (length buffer)) in *.
  replace (n >? NR_SDU_MAX) with false by (symmetry; rewrite Z.gtb_ltb; apply Z.ltb_ge; lia).
  destruct (Z.leb_spec (um_tx_size e + n) (um_tx_maxsize e)) as [Hm|Hm].
  2: { replace (_ >? _) with true by (symmetry; rewrite Z.gtb_ltb; apply Z.ltb_lt; lia). by exists e. }
  replace (_ >? _) with false by (symmetry; rewrite Z.gtb_ltb; apply Z.ltb_ge; lia). um_simpl.
  destruct Hwf as [W1 W2 W3 W4 W5 W6 W7].
  pose proof (segs_ok_new _ _ buffer id W3 Hb) as Hnew. fold n in Hnew.
  destruct (nr_rlc_new_sdu (um_heap e) buffer n id) as [x h] eqn:En. cbn [fst snd] in Hnew.
  destruct Hnew as (Hok & _ & Hh & Hnone & Hx & Hso & Hsz & Hf & Hl). um_simpl.
  rewrite append_spec by (done || apply (segs_nodup _ _ W3)). cbn [rbind]. um_simpl.
  assert (Hsn : forall y, y ∈ um_tx_list e -> addr_sn h (seg_sdu y) = addr_sn (um_heap e) (seg_sdu y)).
  { intros y Hy. unfold addr_sn. rewrite Hh, lookup_insert_ne; [done|].
    intros E. destruct (segs_live _ _ W3 y Hy) as (t & Hty & _). by rewrite <- E, Hnone in Hty. }
  assert (Hwh : whole x = true) by (unfold whole; by rewrite Hf, Hl).
  eexists. split; [reflexivity|]. split.
  2: { exists x, (mk_sdu (-1) id buffer n (-1) 1 0). split; [done|]. split; [done|]. split; [|done].
       unfold um_add_bstatus. um_simpl. by rewrite Hh, Hx, lookup_insert_eq. }
  unfold um_add_bstatus. constructor; um_simpl; try done.
  - eapply segs_ok_perm; [|exact Hok]. apply Permutation_cons_append.
  - destruct (um_tx_list e) as [|y l]; [by apply (whole_queue _ _ [x]), Forall_singleton|].
    destruct W4 as (Q1 & Q2 & Q3). split; [done|]. split; [intros Hy; rewrite Hsn by left; by apply Q2|].
    apply Forall_app. split; [done|by apply Forall_singleton].
  - by rewrite last_snoc.
  - rewrite sumZ_app, um_pdu_bytes_eq. cbn. rewrite W6. lia.
  - rewrite sumZ_app. cbn. lia.
Qed.

Lemma um_queue_discard h f next b cur rest :
  um_queue_ok f next (b ++ cur :: rest) -> (forall y, y ∈ b ++ rest -> f (seg_sdu y) = addr_sn h (seg_sdu y)) ->
  um_queue_ok (addr_sn h) next (b ++ rest).
Proof.
  intros Hq Hf. destruct b as [|x b]; cbn [app] in *.
  - destruct Hq as (_ & _ & Hq). by apply whole_queue.
  - destruct Hq as (H1 & H2 & H3). split; [done|]. split; [rewrite <- Hf by left; done|].
    apply Forall_app in H3 as [? H3]. inversion_clear H3. by apply Forall_app.
Qed.

Lemma um_discard_spec e id e' :
  um_wf e -> nr_rlc_entity_um_discard_sdu e id = Ok e' -> um_wf e'.
Proof.
  intros Hwf E. destruct Hwf as [W1 W2 W3 W4 W5 W6 W7]. unfold nr_rlc_entity_um_discard_sdu in E.
  destruct (find_sdu_id_spec (um_heap e) id (um_tx_list e) []) as (r & Er & Hr).
  { intros y Hy. destruct (segs_live _ _ W3 y Hy) as (s & ? & _). by eexists. }
  rewrite Er in E. cbn [rbind] in E. destruct r as [[[b cur] rest]|]; [|by injection E as <-].
  destruct Hr as (Ht & s & Hs & _). cbn [app] in Ht.
  destruct (negb (seg_is_first cur) || negb (seg_is_last cur)) eqn:Hfl; [by injection E as <-|].
  apply orb_false_iff in Hfl as [Hf Hl]. apply negb_false_iff in Hf, Hl. rewrite Ht in *.
  assert (Hperm : b ++ cur :: rest ≡ₚ cur :: b ++ rest) by (by rewrite <- Permutation_middle).
  pose proof W3 as Hok. rewrite Hperm in Hok.
  assert (Hno : forall y, y ∈ b ++ rest -> seg_sdu y <> seg_sdu cur)
    by (intros y; apply (whole_alone _ _ _ _ Hok Hf Hl)).
  destruct (segs_ok_free _ _ _ Hok) as (s0 & h' & Hs0 & Efree & Hok' & _ & _ & Hh').
  rewrite (refs_zero _ _ Hno), decide_True in Hh' by done.
  set (e1 := if decide _ then _ else _) in E.
  assert (E1 : um_heap e1 = um_heap e /\ um_tx_list e1 = b ++ rest /\ um_tx_end e1 = seg_addr <$> list.last (b ++ rest) /\
     um_sn_field_length e1 = um_sn_field_length e /\ um_sn_modulus e1 = um_sn_modulus e /\
     um_tx_next e1 = um_tx_next e /\ um_tx_size e1 = um_tx_size e /\ um_bstatus e1 = um_bstatus e).
  { subst e1. um_simpl. assert (Hend : um_tx_end e = seg_addr <$> list.last (b ++ cur :: rest)) by done.
    destruct rest as [|y rest].
    - rewrite last_snoc in Hend. rewrite decide_True by done. um_simpl. by rewrite app_nil_r.
    - rewrite last_app_cons, last_cons_cons, <- (last_app_cons b) in Hend.
      rewrite decide_False; [done|]. rewrite Hend.
      destruct (list.last (b ++ y :: rest)) as [z|] eqn:Ez; [|done]. intros [= Eq].
      apply last_Some_elem_of in Ez. pose proof (segs_nodup _ _ Hok) as Hnd.
      rewrite fmap_cons, list.NoDup_cons in Hnd. apply (proj1 Hnd). rewrite <- Eq. by apply list_elem_of_fmap_2. }
  clearbody e1. destruct E1 as (F1 & F2 & F3 & F4 & F5 & F6 & F7 & F8).
  unfold um_add_bstatus in E. cbn [update um_heap] in E. rewrite F1, Efree in E. cbn [rbind] in E. injection E as <-.
  constructor; unfold um_conf, um_sn_range in *; um_simpl; rewrite ?F2, ?F3, ?F4, ?F5, ?F6, ?F7; try done.
  - eapply um_queue_discard; [exact W4|]. intros y Hy. unfold addr_sn. rewrite Hh', lookup_delete_ne; [done|].
    intros Eq. by apply (Hno y Hy).
  - cbn. rewrite um_pdu_bytes_eq, F4, F8, W6, !sumZ_app. cbn. lia.
  - rewrite !sumZ_app in *. cbn in W7. destruct (segs_live _ _ W3 cur) as (t & _ & Hseg);
      [rewrite elem_of_app, elem_of_cons; tauto|]. unfold seg_ok in Hseg. lia.
Qed.

Lemma um_clear_spec e :
  segs_ok (um_heap e) (um_tx_list e) ->
  exists e', um_clear_entity e = Ok e' /\ h_sdus (um_heap e') = ∅ /\ um_tx_list e' = [] /\
    um_sn_field_length e' = um_sn_field_length e /\ um_sn_modulus e' = um_sn_modulus e /\
    um_tx_next e' = 0 /\ um_tx_end e' = None /\ um_tx_size e' = 0 /\ bs_tx_size (um_bstatus e') = 0 /\
    segs_ok (um_heap e') [].
Proof.
  intros Hok. unfold um_clear_entity. rewrite <- (app_nil_r (um_tx_list e)) in Hok.
  destruct (segs_ok_free_list _ _ _ Hok) as (h & -> & Hok'). cbn [rbind].
  eexists. split; [reflexivity|]. split; [by apply (segs_ok_nil h)|done].
Qed.

(** ** Reception does not touch the transmission side *)

Definition um_tx_part (e : nr_rlc_entity_um_t) :=
  ((um_sn_field_length e, um_sn_modulus e, um_tx_next e), (um_heap e, um_tx_list e, um_tx_end e),
   (um_tx_size e, um_bstatus e)).

Lemma um_wf_part e e' : um_tx_part e' = um_tx_part e -> um_wf e -> um_wf e'.
Proof.
  intros H Hwf. unfold um_tx_part in H. injection H as H1 H2 H3 H4 H5 H6 H7 H8.
  destruct Hwf as [W1 W2 W3 W4 W5 W6 W7].
  constructor; unfold um_conf, um_sn_range in *; rewrite ?H1, ?H2, ?H3, ?H4, ?H5, ?H6, ?H7, ?H8; assumption.
Qed.

Lemma um_actions_part e p e' : um_reception_actions e p = Ok e' -> um_tx_part e' = um_tx_part e.
Proof.
  intros H. unfold um_reception_actions in H. apply rbind_ok in H as (e1 & E1 & H). injection H as <-.
  transitivity (um_tx_part e1).
  - unfold um_reception_timers. repeat match goal with |- context [if ?b then _ else _] => destruct b end; done.
  - destruct (um_sdu_full e (pdu_sn p)).
    + apply rbind_ok in E1 as (e2 & E2 & E1). transitivity (um_tx_part e2).
      * destruct (_ =? _); [|by injection E1 as <-]. apply rbind_ok in E1 as (sn & _ & E1). by injection E1 as <-.
      * unfold um_reassemble_and_deliver in E2. apply rbind_ok in E2 as ([[[d b] f] l] & _ & E2).
        destruct b; by injection E2 as <-.
    + destruct (_ >=? 0); [|by injection E1 as <-]. unfold um_move_window in E1.
      destruct (um_discard_outside _ _) as [n l]. destruct (_ >=? 0); [|by injection E1 as <-].
      apply rbind_ok in E1 as (sn & _ & E1). by injection E1 as <-.
Qed.

Lemma um_recv_pdu_part e b e' : nr_rlc_entity_um_recv_pdu e b = Ok e' -> um_tx_part e' = um_tx_part e.
Proof.
  intros H. unfold nr_rlc_entity_um_recv_pdu in H.
  apply rbind_ok in H as ([si d] & _ & H). destruct (nr_rlc_pdu_decoder_in_error d); [by injection H as <-|].
  cbv zeta in H. destruct (_ && _).
  - destruct (_ <? 2); by injection H as <-.
  - apply rbind_ok in H as (h & _ & H). destruct h as [h|]; [|by injection H as <-].
    unfold um_recv_segment in H. destruct (_ <=? 0); [by injection H as <-|].
    destruct (_ >? _); [by injection H as <-|]. destruct (_ <? 0); [by injection H as <-|].
    apply um_actions_part in H. exact H.
Qed.

Lemma um_set_time_part e now e' : nr_rlc_entity_um_set_time e now = Ok e' -> um_tx_part e' = um_tx_part e.
Proof.
  intros H. unfold nr_rlc_entity_um_set_time, um_check_t_reassembly in H.
  destruct (negb _); [by injection H as <-|]. apply rbind_ok in H as (sn & _ & H).
  destruct (_ || _); by injection H as <-.
Qed.

(** ** Reachable states *)

(** One call on the entity.  Transmission opportunities of two bytes are left out: with
    one, an SDU can be lost (see the file Findings). *)
Inductive um_step : nr_rlc_entity_um_t -> nr_rlc_entity_um_t -> Prop :=
| um_step_recv_sdu e b i e' :
    0 < Z.of_nat (length b) <= NR_SDU_MAX -> nr_rlc_entity_um_recv_sdu e b i = Ok e' -> um_step e e'
| um_step_generate_pdu e b e' b' n :
    Z.of_nat (length b) <> 2 -> nr_rlc_entity_um_generate_pdu e b = Ok (e', b', n) -> um_step e e'
| um_step_recv_pdu e b e' : nr_rlc_entity_um_recv_pdu e b = Ok e' -> um_step e e'
| um_step_set_time e now e' : nr_rlc_entity_um_set_time e now = Ok e' -> um_step e e'
| um_step_discard_sdu e i e' : nr_rlc_entity_um_discard_sdu e i = Ok e' -> um_step e e'
| um_step_reestablishment e e' : nr_rlc_entity_um_reestablishment e = Ok e' -> um_step e e'.

Lemma um_step_wf e e' : um_step e e' -> um_wf e -> um_wf e'.
Proof.
  destruct 1 as [e b i e' Hb E|e b e' b' n Hb E|e b e' E|e now e' E|e i e' E|e e' E]; intros Hwf.
  - destruct (um_recv_sdu_spec e b i Hwf Hb) as (e1 & E1 & H & _). rewrite E in E1. by injection E1 as <-.
  - destruct (um_generate_spec e b Hwf Hb) as (e1 & b1 & n1 & E1 & H & _). rewrite E in E1.
    by injection E1 as <- _ _.
  - eapply um_wf_part; [by eapply um_recv_pdu_part|done].
  - eapply um_wf_part; [by eapply um_set_time_part|done].
  - by eapply um_discard_spec.
  - destruct (um_clear_spec e (umw_segs e Hwf)) as (e1 & E1 & _ & F1 & F2 & F3 & F4 & F5 & F6 & F7 & F8).
    unfold nr_rlc_entity_um_reestablishment in E. rewrite E in E1. injection E1 as <-.
    pose proof (umw_conf e Hwf) as Hc.
    constructor; unfold um_conf, um_sn_range in *; rewrite ?F1, ?F2, ?F3, ?F4, ?F5, ?F6, ?F7; try done.
    destruct Hc as [[_ ->]|[_ ->]]; lia.
Qed.

Lemma new_um_wf rx_max tx_max tr snl e : new_nr_rlc_entity_um rx_max tx_max tr snl = Ok e -> um_wf e.
Proof.
  intros E. unfold new_nr_rlc_entity_um in E. destruct (negb _) eqn:Hs; [done|]. injection E as <-.
  apply negb_false_iff, orb_true_iff in Hs. rewrite !Z.eqb_eq in Hs.
  constructor; unfold um_conf, um_sn_range; cbn [um_sn_field_length um_sn_modulus um_tx_next um_heap um_tx_list um_tx_end
    um_bstatus um_tx_size bs_tx_size]; try done.
  - destruct Hs as [-> | ->]; cbn; tauto.
  - destruct Hs as [-> | ->]; [change (Z.shiftl 1 6) with 64|change (Z.shiftl 1 12) with 4096]; lia.
  - apply segs_ok_empty.
Qed.

(** ** Properties *)

(** C13. The invariant of unacknowledged mode holds in every state reached by the calls of
    [um_step]. From a new entity, after any sequence of calls that return, among SDUs of 1 to
    NR_SDU_MAX bytes, transmission opportunities of sizes other than two bytes, arbitrary received
    bytes, timer ticks, discards and re-establishments, every queued segment points to a live SDU
    whose reference count is the number of its segments, only the head of the queue may be the
    rest of an SDU and that SDU has the SN TX_Next, the end pointer is right, the buffer status is
    the sum of the sizes of the PDUs to send, and the transmit size covers the queue.
    Opportunities of two bytes are excluded because with one an SDU is lost and the invariant
    breaks ([um_small_buffer_loses_sdu]). *)
Theorem um_reachable_wf rx_max tx_max tr snl e0 e :
  new_nr_rlc_entity_um rx_max tx_max tr snl = Ok e0 -> rtc um_step e0 e -> um_wf e.
Proof.
  intros E Hs. apply new_um_wf in E. induction Hs as [|x y z Hxy _ IH]; [done|]. by eapply IH, um_step_wf.
Qed.

(** Transmission in unacknowledged mode.  A request for a PDU of any size but two
    never fails and keeps the invariant.  When the head of the queue has room for its
    header and a byte, the PDU carries, under the SN TX_Next, as many of its bytes as
    fit; what does not fit stays at the head, and TX_Next moves on with the last segment
    of a segmented SDU only.  Otherwise it returns 0 and nothing changes. *)
Theorem um_generate_pdu_total (e : nr_rlc_entity_um_t) (buffer : list Z) :
  um_wf e -> Z.of_nat (length buffer) <> 2 ->
  exists e' buffer' n, nr_rlc_entity_um_generate_pdu e buffer = Ok (e', buffer', n) /\ um_wf e' /\
    if um_can_send e (Z.of_nat (length buffer))
    then um_sent e e' buffer' n /\ length buffer' = length buffer /\ um_events e' = um_events e
    else e' = e /\ buffer' = buffer /\ n = 0.
Proof. apply um_generate_spec. Qed.

(** Transfer in unacknowledged mode.  A peer with the same SN length reads the PDU of a
    transmission opportunity as it was meant: a whole SDU is delivered at once, byte for
    byte; a segment is received with the SN TX_Next of the sender, and what is stored is
    exactly its bytes of the SDU with its offset and its last-segment flag. *)
Theorem um_pdu_roundtrip (e e' r : nr_rlc_entity_um_t) (buffer buffer' : list Z) (n : Z) :
  um_wf e -> um_conf r -> um_sn_field_length r = um_sn_field_length e ->
  Z.of_nat (length buffer) <> 2 -> um_can_send e (Z.of_nat (length buffer)) = true ->
  nr_rlc_entity_um_generate_pdu e buffer = Ok (e', buffer', n) ->
  let pdu := take (Z.to_nat n) buffer' in
  exists x rest s, um_tx_list e = x :: rest /\ h_sdus (um_heap e) !! seg_sdu x = Some s /\
    if seg_is_first x && (um_pdu_bytes (um_sn_field_length e) x <=? Z.of_nat (length buffer))
    then nr_rlc_entity_um_recv_pdu r pdu = Ok (um_emit r (deliver_sdu (sdu_data s)))
    else exists h, nr_rlc_entity_um_recv_pdu r pdu = um_recv_segment r pdu h /\
         ph_sn h = um_tx_next e /\ ph_so h = seg_so x /\ segment_of (sdu_data s) (pdu_of pdu h).
Proof.
  intros Hwf Hcr Hl Hne Hcan E pdu. destruct (um_generate_spec e buffer Hwf Hne) as (e1 & b1 & n1 & E1 & _ & H).
  rewrite E in E1. injection E1 as <- <- <-. rewrite Hcan in H.
  destruct H as [(x & rest & s & a & Ht & Hs & Ea & Eo & (Hseg & Hsn & _ & _ & hb & Hp & Hb & Hlen) & _ & Hlast & _) (Hbl & _)].
  rewrite Hbl in Hlast.
  assert (Hfirst : seg_is_first x = seg_is_first a).
  { destruct (segs_live _ _ (umw_segs e Hwf) x) as (t & Hts & (_ & _ & _ & Hx & _)); [rewrite Ht; left|].
    destruct Hseg as (_ & _ & _ & Ha & _). rewrite Eo in Ha.
    apply eq_true_iff_eq. tauto. }
  exists x, rest, s. split; [done|]. split; [done|]. rewrite Hfirst, <- Hlast. fold (whole a). subst pdu. rewrite Hp.
  assert (Hm : um_sn_modulus r = um_sn_modulus e).
  { pose proof (umw_conf e Hwf) as Hc. destruct Hc as [[E1 ->]|[E1 ->]], Hcr as [[E2 ->]|[E2 ->]]; try done; congruence. }
  assert (Hh : um_compute_pdu_header_size r a = um_compute_pdu_header_size e a)
    by (unfold um_compute_pdu_header_size; by rewrite Hl).
  rewrite (um_recv_fields r (um_tx_next e) a s); [|done|unfold um_sn_range in *; by rewrite Hm|done| | |by rewrite Hh].
  2: { intros Hnil. apply (f_equal length) in Hnil. rewrite length_take, length_drop in Hnil.
       unfold seg_ok in Hseg. cbn in Hnil. lia. }
  2: { unfold um_fields in *. by rewrite Hl. }
  destruct (whole a) eqn:Hw.
  - unfold whole in Hw. apply andb_true_iff in Hw as [Hf Hla]. destruct Hseg as (_ & _ & _ & H4 & H5).
    apply H4 in Hf. apply H5 in Hla. rewrite Hf, drop_0, firstn_all2; [done|lia].
  - eexists. split; [reflexivity|]. split; [done|]. split; [done|]. rewrite Hh.
    pose proof (sent_segment s a (um_tx_next e) hb _ Hseg Hlen) as Hso. exact Hso.
Qed.

(** Deletion of an entity in unacknowledged mode frees every SDU once and leaves none;
    so does re-establishment. *)
Theorem um_delete_frees_all (e : nr_rlc_entity_um_t) :
  um_wf e ->
  (exists h, nr_rlc_entity_um_delete e = Ok h /\ h_sdus h = ∅) /\
  (exists e', nr_rlc_entity_um_reestablishment e = Ok e' /\ h_sdus (um_heap e') = ∅ /\ um_tx_list e' = []).
Proof.
  intros Hwf. destruct (um_clear_spec e (umw_segs e Hwf)) as (e' & E & Hh & Hl & _).
  unfold nr_rlc_entity_um_delete, nr_rlc_entity_um_reestablishment. rewrite E. cbn [rbind].
  split; [by exists (um_heap e')|by exists e'].
Qed.

(** ** Witnesses *)

(** An entity with a rest of two bytes of one SDU and another SDU behind it. *)
Definition um_history : res nr_rlc_entity_um_t :=
  let* e := new_nr_rlc_entity_um 1000 1000 35 12 in
  let* e := nr_rlc_entity_um_recv_sdu e [1; 2; 3; 4] 7 in
  let* (e, _, _) := nr_rlc_entity_um_generate_pdu e (repeat 0 4) in
  nr_rlc_entity_um_recv_sdu e [5; 6] 8.

Definition um_rest_example : nr_rlc_entity_um_t :=
  match um_history with Ok e => e | _ => mk_um (mk_bstatus 0 0 0) 0 0 0 0 0 0 0 0 0 0 [] 0 0 [] None 0 0 empty_heap [] end.

Lemma um_rest_example_steps :
  exists e0, new_nr_rlc_entity_um 1000 1000 35 12 = Ok e0 /\ rtc um_step e0 um_rest_example.
Proof.
  eexists. split; [reflexivity|].
  eapply rtc_l; [eapply (um_step_recv_sdu _ [1; 2; 3; 4] 7); [unfold NR_SDU_MAX; cbn; lia|vm_compute; reflexivity]|].
  eapply rtc_l; [eapply (um_step_generate_pdu _ (repeat 0 4)); [cbn; lia|vm_compute; reflexivity]|].
  eapply rtc_once. eapply (um_step_recv_sdu _ [5; 6] 8); [unfold NR_SDU_MAX; cbn; lia|vm_compute; reflexivity].
Qed.

Lemma um_rest_example_wf : um_wf um_rest_example.
Proof.
  destruct um_rest_example_steps as (e0 & E & Hs). apply new_um_wf in E.
  induction Hs as [|x y z Hxy _ IH]; [done|]. by eapply IH, um_step_wf.
Qed.

Lemma um_reachable_wf_witness : um_wf um_rest_example.
Proof.
  destruct um_rest_example_steps as (e0 & E & Hs). exact (um_reachable_wf 1000 1000 35 12 e0 um_rest_example E Hs).
Defined.

Lemma um_generate_pdu_total_witness :
  exists e' buffer' n, nr_rlc_entity_um_generate_pdu um_rest_example (repeat 0 10) = Ok (e', buffer', n) /\
    um_sent um_rest_example e' buffer' n.
Proof.
  destruct (um_generate_pdu_total um_rest_example (repeat 0 10)) as (e' & b' & n & E & _ & H).
  - exact um_rest_example_wf.
  - cbn. lia.
  - exists e', b', n. split; [exact E|]. exact (proj1 H).
Defined.

Lemma um_pdu_roundtrip_witness :
  exists e' buffer' n h r, nr_rlc_entity_um_generate_pdu um_rest_example (repeat 0 10) = Ok (e', buffer', n) /\
    nr_rlc_entity_um_recv_pdu r (take (Z.to_nat n) buffer') = um_recv_segment r (take (Z.to_nat n) buffer') h /\
    ph_sn h = 0.
Proof.
  destruct (um_generate_spec um_rest_example (repeat 0 10) um_rest_example_wf) as (e' & b' & n & E & _);
    [cbn; lia|].
  destruct (um_pdu_roundtrip um_rest_example e' um_rest_example (repeat 0 10) b' n) as (x & rest & s & Ht & Hs & H).
  - exact um_rest_example_wf.
  - right. split; reflexivity.
  - reflexivity.
  - cbn. lia.
  - reflexivity.
  - exact E.
  - assert (Hx : seg_is_first x = false) by (vm_compute in Ht; injection Ht as <- _; reflexivity).
    rewrite Hx in H. destruct H as (h & H1 & H2 & _). exists e', b', n, h, um_rest_example.
    split; [exact E|]. split; [exact H1|]. rewrite H2. reflexivity.
Defined.

Lemma um_delete_frees_all_witness : exists h, nr_rlc_entity_um_delete um_rest_example = Ok h /\ h_sdus h = ∅.
Proof. exact (proj1 (um_delete_frees_all um_rest_example um_rest_example_wf)). Defined.
