(* ===== verification/RlcModes.v ===== *)
(** The entities of all modes behind the table of functions: a request for a PDU, from any state that
    satisfies the invariant of its mode. *)

From S2P Require Import Prelude RlcPdu RlcSdu RlcSegs RlcAm RlcUm RlcTm RlcEntity RlcAmSend RlcAmOps RlcAmRx RlcAmTx RlcUmProps.

(** ** Transparent mode *)

Record tm_wf (e : nr_rlc_entity_tm_t) : Prop := mk_tm_wf {
  tmw_segs : segs_ok (tm_heap e) (tm_tx_list e);
  tmw_whole : Forall (fun x => whole x = true) (tm_tx_list e);
  tmw_end : tm_tx_end e = seg_addr <$> list.last (tm_tx_list e);
  tmw_status : bs_tx_size (tm_bstatus e) = sumZ seg_size (tm_tx_list e);
}.

Lemma new_tm_wf tx_max : tm_wf (new_nr_rlc_entity_tm tx_max).
Proof. split; [exact segs_ok_empty|constructor|done|done]. Qed.

Lemma tm_recv_sdu_wf e b id :
  tm_wf e -> 0 < Z.of_nat (length b) <= NR_SDU_MAX -> exists e', nr_rlc_entity_tm_recv_sdu e b id = Ok e' /\ tm_wf e'.
Proof.
  intros [W1 W2 W3 W4] Hb. unfold nr_rlc_entity_tm_recv_sdu. set (n := Z.of_nat (length b)) in *.
  replace (n >? NR_SDU_MAX) with false by lia. destruct (_ >? _); [by exists e|]. tm_simpl.
  pose proof (segs_ok_new _ _ b id W1 Hb) as Hnew. fold n in Hnew. destruct (nr_rlc_new_sdu (tm_heap e) b n id) as [x h]. cbn [fst snd] in Hnew.
  destruct Hnew as (Hok & _ & _ & _ & _ & _ & _ & Hf & Hl). tm_simpl. rewrite append_spec by (done || apply (segs_nodup _ _ W1)). cbn [rbind].
  eexists. split; [reflexivity|]. unfold tm_add_bstatus. split; tm_simpl.
  - eapply segs_ok_perm; [|exact Hok]. apply Permutation_cons_append.
  - apply list.Forall_app. split; [done|]. apply Forall_singleton. unfold whole. by rewrite Hf, Hl.
  - by rewrite last_snoc.
  - rewrite sumZ_app. cbn. rewrite W4. lia.
Qed.

(** The head of the queue goes out as it is, if it fits. *)
Definition tm_can_send (e : nr_rlc_entity_tm_t) (size : Z) : bool := match tm_tx_list e with [] => false | x :: _ => seg_size x <=? size end.

Lemma tm_generate_spec e buffer :
  tm_wf e ->
  exists e' buffer' n, nr_rlc_entity_tm_generate_pdu e buffer = Ok (e', buffer', n) /\ tm_wf e' /\
    if tm_can_send e (Z.of_nat (length buffer))
    then exists x rest s, tm_tx_list e = x :: rest /\ h_sdus (tm_heap e) !! seg_sdu x = Some s /\ tm_tx_list e' = rest /\
           n = Z.of_nat (length (sdu_data s)) /\ 0 < n /\ take (Z.to_nat n) buffer' = sdu_data s
    else e' = e /\ buffer' = buffer /\ n = 0.
Proof.
  intros Hwf. pose proof Hwf as [W1 W2 W3 W4]. unfold nr_rlc_entity_tm_generate_pdu, tm_generate_tx_pdu, tm_can_send.
  destruct (tm_tx_list e) as [|x rest] eqn:Ht; [by exists e, buffer, 0|].
  destruct (Z.leb_spec (seg_size x) (Z.of_nat (length buffer))) as [Hfit|Hfit].
  2: { replace (_ >? _) with true by lia. by exists e, buffer, 0. }
  replace (_ >? _) with false by lia. set (e0 := match rest with [] => _ | _ => _ end).
  assert (E0 : e0 = e <| tm_tx_list := rest |> <| tm_tx_end := seg_addr <$> list.last rest |>).
  { subst e0. destruct rest as [|y rest]; [done|]. rewrite last_cons_cons in W3. destruct e. cbn in *. by rewrite W3. }
  rewrite E0. clearbody e0. clear E0 e0. tm_simpl. destruct (segs_get _ _ x W1) as (s & Hs & Eg & Hseg & Hsz & Hmax); [left|]. rewrite Eg. cbn [rbind].
  apply list.Forall_cons in W2 as [Hw W2]. unfold whole in Hw. apply andb_true_iff in Hw as [Hf Hl]. destruct Hseg as (S1 & S2 & S3 & S4 & S5).
  assert (Hn : seg_size x = Z.of_nat (length (sdu_data s))) by (apply S4 in Hf; apply S5 in Hl; lia).
  unfold copy_data. replace (_ || _) with false by (symmetry; repeat (apply orb_false_iff; split); lia). cbn [rbind]. unfold tm_add_bstatus. tm_simpl.
  destruct (segs_ok_free _ _ _ W1) as (t & h' & _ & Efree & Hok' & _). rewrite Efree. cbn [rbind]. do 3 eexists. split; [reflexivity|]. split.
  - split; tm_simpl; try done. cbn. rewrite W4. cbn. lia.
  - exists x, rest, s. do 4 (split; [done || lia|]). split; [lia|]. unfold buf_write. rewrite drop_0, Hn, Nat2Z.id, firstn_all.
    exact (take_app_length (sdu_data s) _).
Qed.

(** ** All modes *)

Definition entity_wf (e : nr_rlc_entity_t) : Prop := match e with EntityAm e => am_wf e | EntityUm e => um_wf e | EntityTm e => tm_wf e end.

(** There is something to send that fits, in the order of each mode. *)
Definition entity_can_send (e : nr_rlc_entity_t) (size : Z) : bool :=
  match e with
  | EntityAm e => status_to_report e && (3 <=? size) || can_retransmit e size || can_send_new e size
  | EntityUm e => um_can_send e size
  | EntityTm e => tm_can_send e size
  end.

(** C37. A request for a PDU is bounded.  In any mode and from every state that satisfies the invariant of
    the mode, a request with a buffer of any size (in unacknowledged mode other than two bytes, see
    [um_small_buffer_loses_sdu]) returns without fault and keeps the invariant; the size it returns
    lies between 0 and the size of the buffer, is positive exactly when there is something to send
    that fits with its header and a byte (a status report, a retransmission, new data, or in transparent
    mode the whole SDU), and no byte is written outside the buffer.  This is what MAC relies on. *)
Theorem rlc_request_bounded (e : nr_rlc_entity_t) (buffer : list Z) :
  entity_wf e -> (match e with EntityUm _ => length buffer <> 2%nat | _ => True end) ->
  exists e' buffer' n, rlc_generate_pdu e buffer = Ok (e', buffer', n) /\ entity_wf e' /\
    0 <= n <= Z.of_nat (length buffer) /\ length buffer' = length buffer /\ (0 < n <-> entity_can_send e (Z.of_nat (length buffer)) = true).
Proof.
  intros Hwf H2. enough (H : exists e' buffer' n, rlc_generate_pdu e buffer = Ok (e', buffer', n) /\ entity_wf e' /\ (0 < n <-> entity_can_send e (Z.of_nat (length buffer)) = true)).
  { destruct H as (e' & b' & n & E & H & Hn). exists e', b', n. split; [done|]. split; [done|]. destruct (generate_bounded _ _ _ _ _ E). done. }
  set (size := Z.of_nat (length buffer)). destruct e as [e|e|e]; cbn [rlc_generate_pdu rlc_entity_any rlc_entity_am rlc_entity_um rlc_entity_tm entity_wf entity_can_send] in *; unfold rmap.
  - destruct (am_generate_pdu_spec e buffer Hwf) as (e' & b' & n & -> & Hwf' & H). eexists (EntityAm e'), b', n. split; [done|]. split; [done|]. fold size in H.
    cbv zeta in H. destruct (_ && _), (can_retransmit e size), (can_send_new e size); cbn [orb]; unfold sent_retx, sent_new in H; intuition lia.
  - destruct (um_generate_spec e buffer Hwf) as (e' & b' & n & -> & Hwf' & H); [lia|]. eexists (EntityUm e'), b', n. split; [done|]. split; [done|]. fold size in H.
    destruct (um_can_send e size); [|destruct H as (_ & _ & ->); split; [lia|done]]. split; [done|]. intros _.
    destruct H as ((x & rest & s & a & _ & _ & _ & _ & (Hseg & _ & -> & _) & _) & _). pose proof (um_header_size_pos e a). rewrite <- um_pdu_bytes_eq. destruct Hseg as (_ & ? & _). lia.
  - destruct (tm_generate_spec e buffer Hwf) as (e' & b' & n & -> & Hwf' & H). eexists (EntityTm e'), b', n. split; [done|]. split; [done|]. fold size in H.
    destruct (tm_can_send e size); [destruct H as (x & rest & s & _ & _ & _ & _ & ? & _); split; [done|lia]|]. destruct H as (_ & _ & ->). split; [lia|done].
Qed.

(** ** Witness *)

Lemma rlc_request_bounded_witness :
  entity_can_send (EntityAm am_example) 10 = true /\
  exists e' buffer' n, rlc_generate_pdu (EntityAm am_example) (repeat 0 10) = Ok (e', buffer', n) /\ entity_wf e' /\ 0 < n <= 10.
Proof.
  split; [reflexivity|].
  destruct (rlc_request_bounded (EntityAm am_example) (repeat 0 10) am_example_wf I) as (e' & b' & n & E & W & [_ H1] & _ & H2).
  exists e', b', n. split; [exact E|]. split; [exact W|]. split; [apply H2; reflexivity|exact H1].
Defined.
