(* ===== verification/RlcUmLink.v ===== *)
(** Two unacknowledged-mode entities over a link that keeps the order and loses nothing:
    every accepted SDU is delivered once, in order, after enough transmission
    opportunities. *)

From stdpp Require Import relations.
From S2P Require Import Prelude.
From S2P Require Import RlcPdu.
From S2P Require Import RlcSdu.
From S2P Require Import RlcSegs.
From S2P Require Import RlcAm.
From S2P Require Import RlcAmRx.
From S2P Require Import RlcUm.
From S2P Require Import RlcEntity.
From S2P Require Import RlcAmTx.
From S2P Require Import RlcAmSend.
From S2P Require Import RlcUmProps.
From Stdlib Require Import Sorting.Sorted.

(** ** A chain of consecutive segments *)

(** Segments of SN [sn] of the SDU [S], one behind the other from byte [k] on. *)
Fixpoint seg_chain (sn : Z) (S : list Z) (k : Z) (l : list nr_rlc_pdu_t) : Prop :=
  match l with
  | [] => True
  | p :: tl => pdu_sn p = sn /\ pdu_so p = k /\ segment_of S p /\ seg_chain sn S (k + pdu_size p) tl
  end.

Lemma seg_chain_snoc sn S l p : forall k,
  seg_chain sn S k l -> pdu_sn p = sn -> pdu_so p = k + sumZ pdu_size l -> segment_of S p ->
  seg_chain sn S k (l ++ [p]).
Proof.
  induction l as [|q l IH]; intros k Hc H1 H2 H3; cbn in *.
  - by rewrite Z.add_0_r in H2.
  - destruct Hc as (? & ? & ? & Hc). split; [done|]. split; [done|]. split; [done|]. apply IH; try done. lia.
Qed.

Lemma seg_chain_end sn S l : forall k,
  seg_chain sn S k l -> l <> [] -> k < k + sumZ pdu_size l <= Z.of_nat (length S).
Proof.
  induction l as [|p l IH]; intros k Hc Hne; [done|]. cbn in *. destruct Hc as (_ & Hso & (_ & _ & H1 & H2 & _) & Hc).
  destruct l as [|q l]; [cbn; lia|]. destruct (IH _ Hc ltac:(done)). lia.
Qed.

Lemma seg_chain_sn sn S k l : seg_chain sn S k l -> Forall (fun p => pdu_sn p = sn) l.
Proof.
  revert k. induction l as [|p l IH]; intros k Hc; [constructor|]. destruct Hc as (? & _ & _ & Hc).
  constructor; [done|]. by eapply IH.
Qed.

(** Everything before the end of a chain lies below it. *)
Lemma seg_chain_below sn S l q : forall k,
  seg_chain sn S k l -> q ∈ l -> pdu_sn q = sn /\ pdu_so q < k + sumZ pdu_size l.
Proof.
  induction l as [|p l IH]; intros k Hc Hq; [by apply elem_of_nil in Hq|]. cbn in *.
  destruct Hc as (H1 & H2 & (_ & _ & H3 & _) & Hc). apply elem_of_cons in Hq as [->|Hq].
  - split; [done|]. destruct l as [|r l]; [cbn; lia|]. destruct (seg_chain_end _ _ _ _ Hc ltac:(done)). lia.
  - destruct (IH _ Hc Hq). split; [done|lia].
Qed.

(** A chain is complete exactly when it reaches the end of the SDU. *)
Lemma seg_chain_full sn S l : forall k,
  seg_chain sn S k l -> k < Z.of_nat (length S) ->
  sdu_full_loop l sn (k - 1) = (k + sumZ pdu_size l =? Z.of_nat (length S)).
Proof.
  induction l as [|p l IH]; intros k Hc Hk; cbn [sdu_full_loop sumZ].
  - symmetry. apply Z.eqb_neq. cbn. lia.
  - destruct Hc as (Hsn & Hso & (_ & H0 & Hsz & Hle & Hlast) & Hc). rewrite Hsn, Z.eqb_refl, Hso.
    replace (k >? k - 1 + 1) with false by lia. cbn. destruct (pdu_is_last p) eqn:El.
    + assert (k + pdu_size p = Z.of_nat (length S)) by (rewrite <- Hso; tauto).
      destruct l as [|q l]; [cbn; lia|]. destruct (seg_chain_end _ _ _ _ Hc ltac:(done)). lia.
    + assert (k + pdu_size p <> Z.of_nat (length S)) by (intros E; rewrite <- Hso in E; apply Hlast in E; congruence).
      replace (k + pdu_size p - 1 >? k - 1) with true by lia.
      rewrite IH by (done || lia). f_equal. lia.
Qed.

Lemma seg_chain_no_hole sn S l : forall k,
  seg_chain sn S k l -> sdu_has_missing_bytes_loop l sn (k - 1) = false.
Proof.
  induction l as [|p l IH]; intros k Hc; [done|]. destruct Hc as (Hsn & Hso & (_ & _ & Hsz & _) & Hc).
  cbn [sdu_has_missing_bytes_loop]. rewrite Hsn, Z.eqb_refl, Hso. replace (k >? k - 1 + 1) with false by lia.
  replace (k + pdu_size p - 1 >? k - 1) with true by lia. by apply IH.
Qed.

(** Reassembly of a chain copies its bytes. *)
Lemma seg_chain_reassemble clear sn S l : forall k freed,
  seg_chain sn S k l -> 0 <= k <= Z.of_nat (length S) -> Z.of_nat (length S) <= NR_SDU_MAX ->
  reassemble_loop clear l sn (take (Z.to_nat k) S) false freed
  = Ok (take (Z.to_nat (k + sumZ pdu_size l)) S, false, freed + sumZ pdu_size l, clear <$> l).
Proof.
  induction l as [|p l IH]; intros k freed Hc Hk Hmax; cbn [reassemble_loop sumZ].
  - by rewrite !Z.add_0_r.
  - destruct Hc as (Hsn & Hso & (Hd & H0 & Hsz & Hle & Hlast) & Hc). rewrite Hsn, Z.eqb_refl.
    replace (Z.of_nat (length (take (Z.to_nat k) S))) with k by (rewrite length_take; lia).
    rewrite Hso, Z.sub_diag, Z.sub_0_r. replace (k + pdu_size p >? NR_SDU_MAX) with false by lia. cbn [andb negb].
    replace (pdu_size p >? 0) with true by lia. rewrite Hd, Hso, length_take, length_drop.
    rewrite (proj2 (Z.ltb_ge _ (0 + pdu_size p))) by lia. cbn [orb Z.ltb Z.compare rbind Z.to_nat]. rewrite drop_0, take_take, Nat.min_id.
    replace (Z.to_nat (pdu_size p)) with (Z.to_nat (k + pdu_size p) - Z.to_nat k)%nat at 1 by lia.
    assert (E : take (Z.to_nat k) S ++ take (Z.to_nat (k + pdu_size p) - Z.to_nat k) (drop (Z.to_nat k) S)
                = take (Z.to_nat (k + pdu_size p)) S).
    { rewrite <- skipn_firstn_comm. rewrite <- (take_drop (Z.to_nat k) (take (Z.to_nat (k + pdu_size p)) S)) at 2.
      rewrite take_take. by replace (Nat.min _ _) with (Z.to_nat k) by lia. }
    rewrite E, IH by (done || lia). cbn [rbind]. rewrite !Z.add_assoc. done.
Qed.

(** ** The receiver on an in-order stream *)

(** How far the SN of a segment lies behind [sn]. *)
Definition behind (M sn : Z) (p : nr_rlc_pdu_t) : Z := (sn - pdu_sn p) mod M.

(** A segment of an SDU that was delivered. *)
Definition old_pdu (M W sn : Z) (p : nr_rlc_pdu_t) : Prop :=
  pdu_data p = None /\ pdu_size p = 0 /\ 0 <= pdu_sn p < M /\ 1 <= behind M sn p <= W.

(** SNs below [sn] were all delivered, and of the SDU [S] of SN [sn] exactly the first [k]
    bytes are there. *)
Record in_order (r : nr_rlc_entity_um_t) (sn : Z) (S : list Z) (k : Z) : Prop := mk_in_order {
  io_conf : um_conf r;
  io_window : 2 * um_window_size r = um_sn_modulus r;
  io_sn : um_sn_range r sn;
  io_next : um_rx_next_reassembly r = sn;
  io_timer : um_t_reassembly_start r = 0;
  io_size : um_rx_size r = k;
  io_list : exists old cur, um_rx_list r = old ++ cur /\ seg_chain sn S 0 cur /\ sumZ pdu_size cur = k /\
    (cur <> [] -> k < Z.of_nat (length S)) /\
    um_rx_next_highest r = (if decide (cur = []) then sn else cmod (sn + 1) (um_sn_modulus r)) /\
    Forall (old_pdu (um_sn_modulus r) (if decide (cur = []) then um_window_size r else um_window_size r - 1) sn) old /\
    StronglySorted (fun p q => behind (um_sn_modulus r) sn q <= behind (um_sn_modulus r) sn p) old
}.

Lemma um_modulus_rx_eq r a :
  um_conf r -> 2 * um_window_size r = um_sn_modulus r -> um_sn_range r (um_rx_next_highest r) -> um_sn_range r a ->
  um_modulus_rx r a = (a - um_rx_next_highest r + um_window_size r) mod um_sn_modulus r.
Proof.
  unfold um_sn_range, um_modulus_rx. intros Hc Hw Hh Ha.
  assert (HM : 0 < um_sn_modulus r) by (destruct Hc as [[_ ->]|[_ ->]]; lia).
  replace (a - (um_rx_next_highest r - um_window_size r)) with (a - um_rx_next_highest r + um_window_size r) by lia.
  set (x := a - um_rx_next_highest r + um_window_size r). destruct (Z.ltb_spec x 0).
  - rewrite cmod_pos by lia. rewrite <- (Z_mod_plus_full x 1). f_equal. lia.
  - by rewrite cmod_pos by lia.
Qed.

Section Receiver.

Variable r : nr_rlc_entity_um_t.
Hypothesis Hconf : um_conf r.
Hypothesis Hwin : 2 * um_window_size r = um_sn_modulus r.
Variable sn : Z.
Hypothesis Hsn : um_sn_range r sn.

Abbreviation M := (um_sn_modulus r).
Abbreviation W := (um_window_size r).

Lemma M_big : 64 <= M /\ 32 <= W.
Proof. destruct Hconf as [[_ E]|[_ E]]; rewrite E in *; lia. Qed.

Lemma next_sn : 0 <= cmod (sn + 1) M < M /\ cmod (sn + 1) M = (sn + 1) mod M.
Proof. pose proof M_big. rewrite cmod_pos by (unfold um_sn_range in Hsn; lia). split; [apply Z.mod_pos_bound; lia|done]. Qed.

(** Positions in the window when [sn] is the next SN that was not seen ([d = 0]) or was seen ([d = 1]). *)
Definition at_highest (d : Z) : Prop := um_rx_next_highest r = (sn + d) mod M /\ 0 <= d <= 1.

Lemma pos_of d a b :
  at_highest d -> 0 <= a < M -> (sn - a) mod M = b mod M -> - 2 <= b <= W ->
  um_modulus_rx r a = (W - b - d) mod M.
Proof.
  intros [Hh Hd] Ha Hb Hbw. pose proof M_big as [HM HW].
  assert (Hr : um_sn_range r (um_rx_next_highest r)) by (rewrite Hh; apply Z.mod_pos_bound; lia).
  rewrite um_modulus_rx_eq by done. rewrite Hh.
  replace (a - (sn + d) mod M + W) with (W + (a - (sn + d) mod M)) by lia.
  rewrite <- Z.add_mod_idemp_r, Zminus_mod_idemp_r, Z.add_mod_idemp_r by lia.
  replace (W + (a - (sn + d))) with (W - d - (sn - a)) by lia.
  rewrite <- Zminus_mod_idemp_r, Hb, Zminus_mod_idemp_r. f_equal. lia.
Qed.

Lemma pos_old d p : at_highest d -> old_pdu M W sn p -> um_modulus_rx r (pdu_sn p) = (W - behind M sn p - d) mod M.
Proof.
  intros Hh (_ & _ & Hp & Hb). apply (pos_of d); [done|done| |lia]. unfold behind. by rewrite Z.mod_mod by (pose proof M_big; lia).
Qed.

Lemma pos_sn d : at_highest d -> um_modulus_rx r sn = W - d.
Proof.
  intros Hh. pose proof M_big. rewrite (pos_of d sn 0); [|done|exact Hsn|by rewrite Z.sub_diag|lia].
  destruct Hh. rewrite Z.mod_small; lia.
Qed.

Lemma pos_next d : at_highest d -> um_modulus_rx r (cmod (sn + 1) M) = W + 1 - d.
Proof.
  intros Hh. pose proof M_big. pose proof next_sn as [Hr E]. rewrite (pos_of d _ (-1)); [|done|exact Hr| |lia].
  - destruct Hh. rewrite Z.mod_small; lia.
  - rewrite E, Zminus_mod_idemp_r. f_equal. lia.
Qed.

End Receiver.

Lemma insert_before_snoc {A} (stop : A -> bool) x l :
  Forall (fun y => stop y = false) l -> insert_before stop x l = l ++ [x].
Proof. induction 1 as [|y l Hy _ IH]; cbn; [done|]. by rewrite Hy, IH. Qed.

Lemma highest_of r sn (cur : list nr_rlc_pdu_t) :
  um_conf r -> um_sn_range r sn ->
  um_rx_next_highest r = (if decide (cur = []) then sn else cmod (sn + 1) (um_sn_modulus r)) ->
  at_highest r sn (if decide (cur = []) then 0 else 1).
Proof.
  intros Hc Hs E. unfold at_highest. rewrite E. assert (HM : 0 < um_sn_modulus r) by (destruct Hc as [[_ ->]|[_ ->]]; lia).
  unfold um_sn_range in Hs. destruct (decide _).
  - rewrite Z.add_0_r, Z.mod_small by lia. lia.
  - rewrite cmod_pos by lia. lia.
Qed.

Lemma old_not_sn M W sn p : 0 < M -> old_pdu M W sn p -> pdu_sn p <> sn.
Proof. intros HM (_ & _ & _ & Hb) E. unfold behind in Hb. rewrite E, Z.sub_diag, Z.mod_0_l in Hb by lia. lia. Qed.

Lemma old_pdu_mono M W W' sn p : W <= W' -> old_pdu M W sn p -> old_pdu M W' sn p.
Proof. intros H (? & ? & ? & ?). unfold old_pdu. split; [done|]. split; [done|]. lia. Qed.

(** The next segment is stored behind all others. *)
Lemma in_order_insert r sn S k p old cur d :
  um_conf r -> 2 * um_window_size r = um_sn_modulus r -> um_sn_range r sn ->
  at_highest r sn d -> Forall (old_pdu (um_sn_modulus r) (um_window_size r - d) sn) old ->
  seg_chain sn S 0 cur -> sumZ pdu_size cur = k -> pdu_sn p = sn -> pdu_so p = k ->
  nr_rlc_pdu_list_add (um_sn_compare_rx r) (old ++ cur) p = old ++ cur ++ [p].
Proof.
  intros Hc Hw Hs Hh Hold Hcur Hk Hp Hso. unfold nr_rlc_pdu_list_add. rewrite insert_before_snoc; [by rewrite <- app_assoc|].
  pose proof (M_big r Hc Hw) as [HM HW]. rewrite Hp. apply Forall_app. split.
  - eapply List.Forall_impl; [|exact Hold]. intros q Hq. cbn.
    assert (Hd : 0 <= d <= 1) by apply Hh.
    pose proof (pos_old r Hc Hw sn d q Hh (old_pdu_mono _ (um_window_size r - d) (um_window_size r) _ _ ltac:(lia) Hq)) as Eq.
    assert (Hne : pdu_sn q <> sn) by (apply (old_not_sn _ _ _ _ (Z.lt_le_trans 0 64 _ eq_refl HM) Hq)). destruct Hq as (_ & _ & Hr & Hb).
    unfold um_sn_compare_rx. rewrite Eq, (pos_sn r Hc Hw sn Hs d Hh), Z.mod_small by lia.
    replace (pdu_sn q =? sn) with false by lia. lia.
  - apply list.Forall_forall. intros q Hq. destruct (seg_chain_below _ _ _ _ _ Hcur Hq) as [E Hlt].
    unfold um_sn_compare_rx. rewrite E, Z.sub_diag, Z.eqb_refl, Hso. lia.
Qed.

Lemma find_current M W sn S old cur :
  0 < M -> Forall (old_pdu M W sn) old -> seg_chain sn S 0 cur -> find_sn (old ++ cur) sn = cur.
Proof.
  intros HM Hold Hcur. rewrite find_sn_app. assert (find_sn old sn = []) as ->.
  { induction Hold as [|p old Hp _ IH]; [done|]. cbn. apply old_not_sn in Hp; [|done].
    by rewrite (proj2 (Z.eqb_neq _ _) Hp). }
  destruct cur as [|p cur]; [done|]. cbn. destruct Hcur as (-> & _). by rewrite Z.eqb_refl.
Qed.

(** Segments that fall out of the window when it moves by one. *)
Lemma discard_old r sn S old cur :
  um_conf r -> 2 * um_window_size r = um_sn_modulus r -> um_sn_range r sn -> at_highest r sn 1 ->
  Forall (old_pdu (um_sn_modulus r) (um_window_size r) sn) old ->
  StronglySorted (fun p q => behind (um_sn_modulus r) sn q <= behind (um_sn_modulus r) sn p) old ->
  seg_chain sn S 0 cur ->
  exists old', um_discard_outside r (old ++ cur) = (0, old' ++ cur) /\
    Forall (old_pdu (um_sn_modulus r) (um_window_size r - 1) sn) old' /\
    StronglySorted (fun p q => behind (um_sn_modulus r) sn q <= behind (um_sn_modulus r) sn p) old'.
Proof.
  intros Hc Hw Hs Hh. pose proof (M_big r Hc Hw) as [HM HW].
  assert (Hhigh : um_modulus_rx r (um_rx_next_highest r) = um_window_size r).
  { destruct Hh as [Eh _]. rewrite Eh. pose proof (pos_next r Hc Hw sn Hs 1) as Hn.
    destruct (next_sn r Hc Hw sn Hs) as [_ En]. rewrite En in Hn. rewrite Hn; [lia|]. split; [done|lia]. }
  induction old as [|p old IH]; intros Hold Hsorted Hcur; cbn [app].
  - exists []. split; [|split; constructor]. destruct cur as [|p cur]; [done|]. cbn. destruct Hcur as (Ep & _).
    unfold um_sn_compare_rx. rewrite Ep, Hhigh, (pos_sn r Hc Hw sn Hs 1 Hh).
    by replace (_ >=? 0) with false by lia.
  - apply list.Forall_cons in Hold as [Hp Hold]. inversion_clear Hsorted as [|? ? Hsort Hall].
    pose proof (pos_old r Hc Hw sn 1 p Hh Hp) as Ep. cbn [um_discard_outside]. unfold um_sn_compare_rx at 1.
    rewrite Ep, Hhigh. destruct Hp as (Hd & Hz & Hr & Hb).
    destruct (decide (behind (um_sn_modulus r) sn p = um_window_size r)) as [E|E].
    + rewrite E. replace (um_window_size r - um_window_size r - 1) with (-1) by lia.
      assert ((-1) mod um_sn_modulus r = um_sn_modulus r - 1) as ->
        by (rewrite <- (Z_mod_plus_full (-1) 1), Z.mod_small; lia).
      replace (_ >=? 0) with true by lia. destruct (IH Hold Hsort Hcur) as (old' & -> & H1 & H2).
      exists old'. by rewrite Hz.
    + rewrite Z.mod_small by lia. replace (_ >=? 0) with false by lia. exists (p :: old). split; [done|].
      split; [|by constructor]. constructor; [by unfold old_pdu; split_and!; try lia|].
      rewrite List.Forall_forall in Hall. apply list.Forall_forall. intros q Hq.
      specialize (Hall q (proj1 (list_elem_of_In _ _) Hq)). rewrite list.Forall_forall in Hold.
      destruct (Hold q Hq) as (? & ? & ? & ?). unfold old_pdu. split_and!; try done; lia.
Qed.

(** No timer starts as long as there is no hole. *)
Lemma timers_idle e sn S old cur :
  um_conf e -> 2 * um_window_size e = um_sn_modulus e -> um_sn_range e sn ->
  um_t_reassembly_start e = 0 -> um_rx_next_reassembly e = sn ->
  um_rx_list e = old ++ cur -> Forall (old_pdu (um_sn_modulus e) (um_window_size e) sn) old -> seg_chain sn S 0 cur ->
  (exists d, at_highest e sn d) -> um_reception_timers e = e.
Proof.
  intros Hc Hw Hs Ht Hn Hl Hold Hcur (d & Hh). pose proof (M_big e Hc Hw) as [HM HW].
  assert (Hhigh : um_modulus_rx e (um_rx_next_highest e) = um_window_size e).
  { assert (Hd : d = 0 \/ d = 1) by (destruct Hh; lia). destruct (next_sn e Hc Hw sn Hs) as [_ En].
    destruct Hd as [-> | ->].
    - pose proof (pos_sn e Hc Hw sn Hs 0 Hh) as Hp. destruct Hh as [-> _].
      rewrite Z.add_0_r, Z.mod_small by (unfold um_sn_range in Hs; lia). lia.
    - pose proof (pos_next e Hc Hw sn Hs 1 Hh) as Hp. rewrite En in Hp. destruct Hh as [-> _]. lia. }
  unfold um_reception_timers. rewrite Ht. cbn [Z.eqb negb]. rewrite Ht, Hn. cbn [Z.eqb negb].
  unfold um_sn_compare_rx. rewrite Hhigh, (pos_next e Hc Hw sn Hs d Hh).
  replace (_ >? 0) with false by (destruct Hh; lia). cbn [orb].
  unfold um_sdu_has_missing_bytes. rewrite Hl, (find_current _ _ _ _ _ _ (Z.lt_le_trans 0 64 _ eq_refl HM) Hold Hcur).
  assert (Em : sdu_has_missing_bytes_loop cur sn (-1) = false) by (exact (seg_chain_no_hole sn S cur 0 Hcur)).
  rewrite Em. destruct (already_processed cur); by rewrite andb_false_r.
Qed.

(** A delivered SDU: its segments join the old ones. *)
Lemma old_after r sn S old cur :
  um_conf r -> 2 * um_window_size r = um_sn_modulus r -> um_sn_range r sn ->
  Forall (old_pdu (um_sn_modulus r) (um_window_size r - 1) sn) old ->
  StronglySorted (fun p q => behind (um_sn_modulus r) sn q <= behind (um_sn_modulus r) sn p) old ->
  seg_chain sn S 0 cur ->
  let sn' := cmod (sn + 1) (um_sn_modulus r) in
  Forall (old_pdu (um_sn_modulus r) (um_window_size r) sn') (old ++ (um_clear_data <$> cur)) /\
  StronglySorted (fun p q => behind (um_sn_modulus r) sn' q <= behind (um_sn_modulus r) sn' p)
    (old ++ (um_clear_data <$> cur)).
Proof.
  intros Hc Hw Hs Hold Hsort Hcur sn'. pose proof (M_big r Hc Hw) as [HM HW].
  destruct (next_sn r Hc Hw sn Hs) as [Hr En]. fold sn' in Hr, En. set (M := um_sn_modulus r) in *.
  assert (Hb1 : forall p, p ∈ old -> behind M sn' p = behind M sn p + 1).
  { intros p Hp. rewrite list.Forall_forall in Hold. destruct (Hold p Hp) as (_ & _ & _ & Hb). unfold behind in *.
    rewrite En, Zminus_mod_idemp_l. replace (sn + 1 - pdu_sn p) with (sn - pdu_sn p + 1) by lia.
    rewrite <- Z.add_mod_idemp_l, Z.mod_small by lia. lia. }
  assert (Hb2 : forall p, p ∈ um_clear_data <$> cur -> pdu_data p = None /\ pdu_size p = 0 /\ pdu_sn p = sn /\ behind M sn' p = 1).
  { intros p Hp. apply list_elem_of_fmap in Hp as (q & -> & Hq). destruct (seg_chain_below _ _ _ _ _ Hcur Hq) as [Eq _].
    cbn. split_and!; try done. unfold behind. cbn. rewrite Eq, En, Zminus_mod_idemp_l.
    replace (sn + 1 - sn) with 1 by lia. apply Z.mod_small. lia. }
  split.
  - apply Forall_app. split; apply list.Forall_forall; intros p Hp.
    + specialize (Hb1 p Hp). rewrite list.Forall_forall in Hold. destruct (Hold p Hp) as (? & ? & ? & ?).
      unfold old_pdu. rewrite Hb1. split_and!; try done; lia.
    + destruct (Hb2 p Hp) as (? & ? & E & ?). unfold old_pdu. unfold um_sn_range in Hs. fold M in Hs. rewrite E. split_and!; try done; lia.
  - apply ssorted_app. split; [|split].
    + clear Hb2 Hold. induction Hsort as [|p old Hsort IH Hall]; constructor.
      * apply IH. intros q Hq. apply Hb1. by right.
      * rewrite List.Forall_forall in Hall |- *. intros q Hq. specialize (Hall q Hq).
        rewrite (Hb1 p) by left. rewrite (Hb1 q) by (right; by apply list_elem_of_In). lia.
    + clear -Hb2. induction (um_clear_data <$> cur) as [|p l IH]; [constructor|]. constructor.
      * apply IH. intros q Hq. apply Hb2. by right.
      * apply List.Forall_forall. intros q Hq. destruct (Hb2 p) as (_ & _ & _ & ->); [left|].
        destruct (Hb2 q) as (_ & _ & _ & ->); [right; by apply list_elem_of_In|]. lia.
    + apply List.Forall_forall. intros p Hp. apply List.Forall_forall. intros q Hq. apply list_elem_of_In in Hp, Hq.
      rewrite (Hb1 p Hp). destruct (Hb2 q Hq) as (_ & _ & _ & ->). rewrite list.Forall_forall in Hold.
      destruct (Hold p Hp) as (_ & _ & _ & ?). lia.
Qed.

(** The entity with the new segment stored. *)
Definition um_with (r : nr_rlc_entity_um_t) (l : list nr_rlc_pdu_t) (n : Z) : nr_rlc_entity_um_t :=
  r <| um_rx_size := n |> <| um_rx_list := l |>.

Lemma um_recv_stored r buffer h sn S k old cur :
  let p := pdu_of buffer h in
  in_order r sn S k -> um_rx_list r = old ++ cur -> seg_chain sn S 0 cur -> sumZ pdu_size cur = k ->
  (exists d, at_highest r sn d /\ Forall (old_pdu (um_sn_modulus r) (um_window_size r - d) sn) old) ->
  ph_sn h = sn -> ph_so h = k -> segment_of S p -> Z.of_nat (length S) <= um_rx_maxsize r ->
  um_recv_segment r buffer h = um_reception_actions (um_with r (old ++ cur ++ [p]) (k + pdu_size p)) p.
Proof.
  intros p Hio Hl Hcur Hk (d & Hh & Hold) Esn Eso Hseg Hmax. destruct Hio as [Hc Hw Hs Hn Ht Hz _].
  unfold um_recv_segment. assert (Hsz : Z.of_nat (length buffer) - ph_byte h = pdu_size p) by done.
  rewrite Hsz, Hz, Esn, Hn. destruct Hseg as (_ & _ & Hpos & Hle & _).
  assert (Hpso : pdu_so p = k) by done.
  replace (pdu_size p <=? 0) with false by lia. replace (k + pdu_size p >? um_rx_maxsize r) with false by lia.
  unfold um_sn_compare_rx at 1. rewrite Z.sub_diag. cbn [Z.ltb Z.compare]. um_simpl.
  assert (Hp : nr_rlc_new_pdu sn (ph_so h) (ph_is_first h) (ph_is_last h)
                 (drop (Z.to_nat (Z.of_nat (length buffer) - pdu_size p)) buffer) (pdu_size p) = p).
  { replace (Z.of_nat (length buffer) - pdu_size p) with (ph_byte h) by lia. rewrite <- Esn. done. }
  rewrite Hp, Hl. unfold um_with.
  pose proof (in_order_insert r sn S k p old cur d Hc Hw Hs Hh Hold Hcur Hk Esn Hpso) as E.
  change (nr_rlc_pdu_list_add (um_sn_compare_rx (r <| um_rx_size := k + pdu_size p |>)) (old ++ cur) p)
    with (nr_rlc_pdu_list_add (um_sn_compare_rx r) (old ++ cur) p).
  by rewrite E.
Qed.

(** A segment that does not complete the SDU. *)
Lemma in_order_partial r sn S k old cur p :
  in_order r sn S k -> um_rx_list r = old ++ cur -> seg_chain sn S 0 cur -> sumZ pdu_size cur = k ->
  um_rx_next_highest r = (if decide (cur = []) then sn else cmod (sn + 1) (um_sn_modulus r)) ->
  Forall (old_pdu (um_sn_modulus r) (if decide (cur = []) then um_window_size r else um_window_size r - 1) sn) old ->
  StronglySorted (fun p q => behind (um_sn_modulus r) sn q <= behind (um_sn_modulus r) sn p) old ->
  pdu_sn p = sn -> pdu_so p = k -> segment_of S p -> pdu_is_last p = false ->
  exists r', um_reception_actions (um_with r (old ++ cur ++ [p]) (k + pdu_size p)) p = Ok r' /\
    in_order r' sn S (k + pdu_size p) /\ um_events r' = um_events r /\
    um_rx_maxsize r' = um_rx_maxsize r /\ um_sn_field_length r' = um_sn_field_length r.
Proof.
  intros Hio Hl Hcur Hk Hhi Hold Hsort Esn Eso Hseg Hlast. destruct Hio as [Hc Hw Hs Hn Ht Hz _].
  pose proof (M_big r Hc Hw) as [HM HW]. set (cur' := cur ++ [p]).
  assert (Hcur' : seg_chain sn S 0 cur') by (apply seg_chain_snoc; [done|done|lia|done]).
  assert (Hsum : sumZ pdu_size cur' = k + pdu_size p) by (unfold cur'; rewrite sumZ_app; cbn; lia).
  assert (Hne : cur' <> []) by (unfold cur'; by destruct cur).
  assert (Hlt : k + pdu_size p < Z.of_nat (length S)).
  { destruct Hseg as (_ & _ & _ & Hle & Hi). destruct (decide (k + pdu_size p = Z.of_nat (length S))) as [E|]; [|lia].
    rewrite <- Eso in E. apply Hi in E. congruence. }
  assert (Hold' : Forall (old_pdu (um_sn_modulus r) (um_window_size r) sn) old).
  { eapply List.Forall_impl; [|exact Hold]. intros q. apply old_pdu_mono. destruct (decide _); lia. }
  assert (HM0 : 0 < um_sn_modulus r) by lia.
  unfold um_reception_actions. rewrite Esn. unfold um_sdu_full, um_with. um_simpl.
  rewrite (find_current _ _ _ _ _ _ HM0 Hold' Hcur').
  assert (Hap : already_processed cur' = false).
  { destruct cur' as [|q tl]; [done|]. destruct Hcur' as (_ & _ & (Hd & _) & _). cbn. by rewrite Hd. }
  assert (Hfull : sdu_full_loop cur' sn (-1) = false).
  { change (-1) with (0 - 1). rewrite (seg_chain_full _ _ _ _ Hcur') by (destruct Hseg as (_ & ? & ? & ? & _); lia).
    rewrite Hsum. apply Z.eqb_neq. lia. }
  rewrite Hap, Hfull. set (e := r <| um_rx_size := _ |> <| um_rx_list := _ |>).
  assert (Hhh := highest_of r sn cur Hc Hs Hhi).
  assert (Hcmp : (um_sn_compare_rx e sn (um_rx_next_highest r) >=? 0) = bool_decide (cur = [])).
  { change (um_sn_compare_rx e) with (um_sn_compare_rx r). unfold um_sn_compare_rx.
    rewrite (pos_sn r Hc Hw sn Hs _ Hhh). rewrite Hhi. destruct (decide (cur = [])) as [E|E].
    - rewrite bool_decide_true by done. rewrite (pos_sn r Hc Hw sn Hs _ Hhh). lia.
    - rewrite bool_decide_false by done. rewrite (pos_next r Hc Hw sn Hs _ Hhh). lia. }
  rewrite Hcmp. destruct (decide (cur = [])) as [E|E].
  - rewrite bool_decide_true by done. unfold um_move_window.
    set (e1 := e <| um_rx_next_highest := _ |>).
    assert (Hh1 : at_highest e1 sn 1).
    { split; [|lia]. subst e1 e. um_simpl. destruct (next_sn r Hc Hw sn Hs) as [_ En]. exact En. }
    destruct (discard_old e1 sn S old cur' Hc Hw Hs Hh1 Hold' Hsort Hcur') as (old' & Ed & Ho1 & Ho2).
    change (um_rx_list e1) with (old ++ cur'). rewrite Ed. um_simpl.
    assert (Hc2 : (um_sn_compare_rx (e1 <| um_rx_size := um_rx_size e1 - 0 |> <| um_rx_list := old' ++ cur' |>)
                    (um_rx_next_reassembly e1) (um_rx_next_highest e1) >=? 0) = false).
    { change ((um_sn_compare_rx e1 (um_rx_next_reassembly r) (um_rx_next_highest e1) >=? 0) = false).
      rewrite Hn. unfold um_sn_compare_rx. rewrite (pos_sn e1 Hc Hw sn Hs _ Hh1).
      pose proof (pos_next e1 Hc Hw sn Hs _ Hh1) as Hp. destruct (next_sn r Hc Hw sn Hs) as [_ En].
      change (um_rx_next_highest e1) with (cmod (sn + 1) (um_sn_modulus e1)). rewrite Hp. lia. }
    rewrite Hc2. cbn [rbind].
    set (e2 := e1 <| um_rx_size := _ |> <| um_rx_list := _ |>).
    rewrite (timers_idle e2 sn S old' cur' Hc Hw Hs Ht Hn eq_refl); [|by eapply List.Forall_impl; [|exact Ho1]; intros q; apply old_pdu_mono; cbn; lia|done|by exists 1].
    exists e2. split; [done|]. split; [|done]. constructor; try done; [cbn; lia|].
    exists old', cur'. rewrite !decide_False by done. split_and!; try done.
  - rewrite bool_decide_false by done. cbn [rbind].
    rewrite (timers_idle e sn S old cur' Hc Hw Hs Ht Hn eq_refl Hold' Hcur'); [|by eexists].
    exists e. split; [done|]. split; [|done]. constructor; try done.
    exists old, cur'. rewrite !decide_False by done. split_and!; done.
Qed.

Lemma cleared_processed l : l <> [] -> already_processed (um_clear_data <$> l) = true.
Proof. by destruct l. Qed.

Lemma um_skip_stop fuel e sn : um_sdu_delivered e sn = false -> um_skip_delivered fuel e sn = Ok sn.
Proof. intros H. destruct fuel; cbn; by rewrite H. Qed.

(** The segment that completes the SDU. *)
Lemma in_order_complete r sn S k old cur p :
  in_order r sn S k -> um_rx_list r = old ++ cur -> seg_chain sn S 0 cur -> sumZ pdu_size cur = k -> cur <> [] ->
  um_rx_next_highest r = cmod (sn + 1) (um_sn_modulus r) ->
  Forall (old_pdu (um_sn_modulus r) (um_window_size r - 1) sn) old ->
  StronglySorted (fun p q => behind (um_sn_modulus r) sn q <= behind (um_sn_modulus r) sn p) old ->
  pdu_sn p = sn -> pdu_so p = k -> segment_of S p -> pdu_is_last p = true -> Z.of_nat (length S) <= NR_SDU_MAX ->
  exists r', um_reception_actions (um_with r (old ++ cur ++ [p]) (k + pdu_size p)) p = Ok r' /\
    (forall S', in_order r' (cmod (sn + 1) (um_sn_modulus r)) S' 0) /\ um_events r' = um_events r ++ [deliver_sdu S] /\
    um_rx_maxsize r' = um_rx_maxsize r /\ um_sn_field_length r' = um_sn_field_length r.
Proof.
  intros Hio Hl Hcur Hk Hcn Hhi Hold Hsort Esn Eso Hseg Hlast Hmax. destruct Hio as [Hc Hw Hs Hn Ht Hz _].
  pose proof (M_big r Hc Hw) as [HM HW]. set (cur' := cur ++ [p]).
  assert (Hcur' : seg_chain sn S 0 cur') by (apply seg_chain_snoc; [done|done|lia|done]).
  assert (Hsum : sumZ pdu_size cur' = k + pdu_size p) by (unfold cur'; rewrite sumZ_app; cbn; lia).
  assert (Hne : cur' <> []) by (unfold cur'; by destruct cur).
  assert (Hend : k + pdu_size p = Z.of_nat (length S)) by (rewrite <- Eso; by apply Hseg).
  assert (HM0 : 0 < um_sn_modulus r) by lia.
  destruct (next_sn r Hc Hw sn Hs) as [Hr' En]. set (sn' := cmod (sn + 1) (um_sn_modulus r)) in *.
  unfold um_reception_actions. rewrite Esn. unfold um_sdu_full, um_with. um_simpl.
  rewrite (find_current _ _ _ _ _ _ HM0 Hold Hcur').
  assert (Hap : already_processed cur' = false).
  { destruct cur' as [|q tl]; [done|]. destruct Hcur' as (_ & _ & (Hd & _) & _). cbn. by rewrite Hd. }
  assert (Hfull : sdu_full_loop cur' sn (-1) = true).
  { change (-1) with (0 - 1). rewrite (seg_chain_full _ _ _ _ Hcur') by (destruct Hseg as (_ & ? & ? & ? & _); lia).
    rewrite Hsum. apply Z.eqb_eq. lia. }
  rewrite Hap, Hfull. set (e := r <| um_rx_size := _ |> <| um_rx_list := _ |>).
  assert (Hra : um_reassemble_and_deliver e sn =
    Ok (um_emit (e <| um_rx_list := old ++ (um_clear_data <$> cur') |> <| um_rx_size := 0 |>) (deliver_sdu S))).
  { unfold um_reassemble_and_deliver. subst e. um_simpl. rewrite reassemble_from_split, (find_current _ _ _ _ _ _ HM0 Hold Hcur').
    assert (Hre := seg_chain_reassemble um_clear_data sn S cur' 0 0 Hcur' ltac:(lia) Hmax).
    change (take (Z.to_nat 0) S) with (@nil Z) in Hre. rewrite Hre.
    rewrite length_app. replace (length old + length cur' - length cur')%nat with (length old) by lia.
    rewrite take_app_length. destruct cur' as [|q tl]; [done|]. cbn [rbind]. rewrite Hsum. cbn [Z.add].
    rewrite take_ge by lia. by replace (k + pdu_size p - (0 + (k + pdu_size p))) with 0 by lia. }
  rewrite Hra. cbn [rbind]. set (e1 := um_emit _ _).
  change (um_rx_next_reassembly e1) with (um_rx_next_reassembly r). rewrite Hn, Z.eqb_refl.
  destruct (old_after r sn S old cur' Hc Hw Hs Hold Hsort Hcur') as [Ho1 Ho2]. fold sn' in Ho1, Ho2.
  assert (Hskip : um_skip_delivered (um_skip_fuel e1) e1 sn = Ok sn').
  { unfold um_skip_fuel. cbn [um_skip_delivered]. unfold um_sdu_delivered at 1.
    change (um_rx_list e1) with (old ++ (um_clear_data <$> cur')).
    assert (Hf : find_sn (old ++ (um_clear_data <$> cur')) sn = um_clear_data <$> cur').
    { rewrite find_sn_app. assert (find_sn old sn = []) as ->.
      { pose proof (find_current _ _ _ S _ [] HM0 Hold I) as E. by rewrite app_nil_r in E. }
      destruct cur' as [|q tl]; [done|]. cbn. destruct Hcur' as (-> & _). by rewrite Z.eqb_refl. }
    rewrite Hf, cleared_processed by done. change (um_sn_modulus e1) with (um_sn_modulus r). fold sn'.
    assert (Hnd : um_sdu_delivered e1 sn' = false).
    { unfold um_sdu_delivered. change (um_rx_list e1) with (old ++ (um_clear_data <$> cur')).
      pose proof (find_current _ _ sn' S _ [] HM0 Ho1 I) as E. rewrite app_nil_r in E. by rewrite E. }
    by apply um_skip_stop. }
  rewrite Hskip. cbn [rbind].
  set (e2 := e1 <| um_rx_next_reassembly := sn' |>).
  assert (Hs' : um_sn_range e2 sn') by exact Hr'.
  assert (Hh0 : at_highest e2 sn' 0).
  { split; [|lia]. rewrite Z.add_0_r, Z.mod_small by exact Hr'. exact Hhi. }
  rewrite (timers_idle e2 sn' S (old ++ (um_clear_data <$> cur')) [] Hc Hw Hs' Ht eq_refl); [| | |done|by exists 0];
    [|by rewrite app_nil_r|done].
  exists e2. split; [done|]. split; [|done]. intros S'. constructor; try done.
  exists (old ++ (um_clear_data <$> cur')), []. rewrite !decide_True by done. split_and!; try done. by rewrite app_nil_r.
Qed.

(** The next segment of the stream is received. *)
Lemma in_order_recv r buffer h sn S k :
  let p := pdu_of buffer h in
  in_order r sn S k -> ph_sn h = sn -> ph_so h = k -> segment_of S p ->
  Z.of_nat (length S) <= um_rx_maxsize r -> Z.of_nat (length S) <= NR_SDU_MAX ->
  (pdu_is_last p = true -> 0 < k) ->
  exists r', um_recv_segment r buffer h = Ok r' /\
    um_rx_maxsize r' = um_rx_maxsize r /\ um_sn_field_length r' = um_sn_field_length r /\
    if pdu_is_last p
    then um_events r' = um_events r ++ [deliver_sdu S] /\ forall S', in_order r' (cmod (sn + 1) (um_sn_modulus r)) S' 0
    else um_events r' = um_events r /\ in_order r' sn S (k + pdu_size p).
Proof.
  intros p Hio Esn Eso Hseg Hmax Hmax' Hpos. pose proof (io_list _ _ _ _ Hio) as (old & cur & Hl & Hcur & Hk & _ & Hhi & Hold & Hsort).
  rewrite (um_recv_stored r buffer h sn S k old cur Hio Hl Hcur Hk); try done.
  2: { exists (if decide (cur = []) then 0 else 1). split; [apply highest_of; [apply Hio|apply Hio|done]|].
       destruct (decide _); [by rewrite Z.sub_0_r|done]. }
  destruct (pdu_is_last p) eqn:El.
  - assert (Hne : cur <> []) by (intros ->; cbn in Hk; specialize (Hpos eq_refl); lia). rewrite !decide_False in * by done.
    destruct (in_order_complete r sn S k old cur p) as (r' & E & H1 & H2 & H3 & H4); try done. by exists r'.
  - destruct (in_order_partial r sn S k old cur p) as (r' & E & H1 & H2 & H3 & H4); try done. by exists r'.
Qed.

(** ** The data of the queue *)

Definition addr_data (h : sdu_heap) (a : addr) : list Z :=
  match h_sdus h !! a with Some s => sdu_data s | None => [] end.

(** The SDUs of the transmit queue, first to last. *)
Definition queue_data (e : nr_rlc_entity_um_t) : list (list Z) :=
  (fun x => addr_data (um_heap e) (seg_sdu x)) <$> um_tx_list e.

(** What is left of the heap keeps its bytes. *)
Definition keeps_data (h h' : sdu_heap) : Prop :=
  forall a s', h_sdus h' !! a = Some s' -> exists s, h_sdus h !! a = Some s /\ sdu_data s' = sdu_data s.

#[export] Instance keeps_data_preorder : PreOrder keeps_data.
Proof.
  split; [intros h a s H; by exists s|]. intros h1 h2 h3 H12 H23 a s H.
  apply H23 in H as (s2 & H & ->). by apply H12.
Qed.

Lemma keeps_put h a s s' : h_sdus h !! a = Some s -> sdu_data s' = sdu_data s -> keeps_data h (put_sdu h a s').
Proof.
  intros Hs Hd b t Ht. unfold put_sdu in Ht. cbn in Ht. destruct (decide (a = b)) as [<-|Hne].
  - rewrite lookup_insert_eq in Ht. injection Ht as <-. by exists s.
  - rewrite lookup_insert_ne in Ht by done. by exists t.
Qed.

Lemma get_sdu_ok h a s : get_sdu h a = Ok s -> h_sdus h !! a = Some s.
Proof. unfold get_sdu. by destruct (h_sdus h !! a); intros [= ->]. Qed.

Lemma keeps_free h seg b h' : nr_rlc_free_sdu_segment h seg = Ok (b, h') -> keeps_data h h'.
Proof.
  unfold nr_rlc_free_sdu_segment. intros H. bind_ok H. apply get_sdu_ok in E. destruct (_ =? _); injection H as <- <-.
  - intros a t Ht. cbn in Ht. apply lookup_delete_Some in Ht as [_ Ht]. by exists t.
  - by eapply keeps_put.
Qed.

Lemma keeps_send e a buffer e' b n :
  um_send_segment e a buffer = Ok (e', b, n) ->
  keeps_data (um_heap e) (um_heap e') /\ um_sn_field_length e' = um_sn_field_length e.
Proof.
  unfold um_send_segment. set (e1 := if _ && _ then _ else e).
  assert (He : um_heap e1 = um_heap e /\ um_sn_field_length e1 = um_sn_field_length e) by (subst e1; by destruct (_ && _)).
  destruct He as [He Hl].
  intros H. bind_ok H. destruct x as [b1 n1]. bind_ok H. destruct x as [fr h]. injection H as <- _ _. um_simpl.
  apply keeps_free in E0. cbn in E0. by rewrite He in E0.
Qed.

(** A request for a PDU keeps the bytes of the SDUs and the configuration. *)
Lemma keeps_generate e buffer e' b n :
  nr_rlc_entity_um_generate_pdu e buffer = Ok (e', b, n) ->
  keeps_data (um_heap e) (um_heap e') /\ um_sn_field_length e' = um_sn_field_length e.
Proof.
  unfold nr_rlc_entity_um_generate_pdu, um_generate_tx_pdu. intros H.
  destruct (um_tx_list e) as [|x rest]; [by injection H as <- _ _|].
  destruct (_ >? _); [by injection H as <- _ _|].
  set (e0 := match rest with [] => _ | _ => _ end) in H.
  assert (He0 : um_heap e0 = um_heap e /\ um_sn_field_length e0 = um_sn_field_length e) by (subst e0; by destruct rest).
  destruct He0 as [He0 Hl0]. bind_ok H. apply get_sdu_ok in E. rewrite He0 in *.
  assert (K1 : keeps_data (um_heap e) (put_sdu (um_heap e) (seg_sdu x) (x0 <| sdu_sn := um_tx_next e0 |>)))
    by (by eapply keeps_put).
  destruct (_ >? _).
  - bind_ok H. destruct x1 as [o e1]. unfold um_resegment in E0. bind_ok E0. apply get_sdu_ok in E1. cbn in E1.
    assert (K2 : keeps_data (um_heap e) (um_heap e1) /\ um_sn_field_length e1 = um_sn_field_length e).
    { destruct (_ >? _); injection E0 as <- <-; (split; [etransitivity; [exact K1|]; by eapply keeps_put|exact Hl0]). }
    destruct K2 as [K2 L2]. destruct o as [[a nx]|]; [|by injection H as <- _ _].
    apply keeps_send in H. destruct (um_tx_end _) in H; destruct H as [H Hl]; (split; [by etransitivity|by rewrite <- L2]).
  - apply keeps_send in H as [H Hl]. split; [by etransitivity|by rewrite <- Hl0].
Qed.

(** ** The link *)

(** What happens on the link: the upper layer offers an SDU, or MAC asks for a PDU of at
    most [size] bytes and carries it to the peer. *)
Inductive um_action : Type :=
| Offer (sdu : list Z) (id : Z)
| Opportunity (size : nat).

(** Sender, receiver, and the SDUs the sender accepted. *)
Definition um_link_state : Type := nr_rlc_entity_um_t * nr_rlc_entity_um_t * list (list Z).

Definition um_act (a : um_action) (st : um_link_state) : res um_link_state :=
  let '(s, r, acc) := st in
  match a with
  | Offer sdu id =>
    let* s' := nr_rlc_entity_um_recv_sdu s sdu id in
    Ok (s', r, if um_tx_size s + Z.of_nat (length sdu) <=? um_tx_maxsize s then acc ++ [sdu] else acc)
  | Opportunity size =>
    let* (s, buffer, n) := nr_rlc_entity_um_generate_pdu s (replicate size 0) in
    if n =? 0 then Ok (s, r, acc)
    else
      let* r := nr_rlc_entity_um_recv_pdu r (take (Z.to_nat n) buffer) in
      Ok (s, r, acc)
  end.

Fixpoint um_run (acts : list um_action) (st : um_link_state) : res um_link_state :=
  match acts with
  | [] => Ok st
  | a :: acts => let* st := um_act a st in um_run acts st
  end.

(** SDUs the receiver has room for, and the transmission opportunities of RlcUmProps. *)
Definition um_allowed (rx_max : Z) (a : um_action) : Prop :=
  match a with
  | Offer sdu _ => 0 < Z.of_nat (length sdu) <= NR_SDU_MAX /\ Z.of_nat (length sdu) <= rx_max
  | Opportunity size => size <> 2%nat
  end.

(** The receiver is exactly as far as the sender. *)
Record linked (s r : nr_rlc_entity_um_t) : Prop := mk_linked {
  lk_wf : um_wf s;
  lk_len : um_sn_field_length r = um_sn_field_length s;
  lk_max : Forall (fun d => Z.of_nat (length d) <= um_rx_maxsize r) (queue_data s);
  lk_rx : exists S k, in_order r (um_tx_next s) S k /\
    match um_tx_list s with
    | x :: _ => k = seg_so x /\ (seg_is_first x = false -> S = addr_data (um_heap s) (seg_sdu x))
    | [] => k = 0
    end
}.

Lemma in_order_fresh r sn S S' : in_order r sn S 0 -> in_order r sn S' 0.
Proof.
  intros [H1 H2 H3 H4 H5 H6 (old & cur & Hl & Hcur & Hk & _ & Hhi & Hold & Hsort)]. constructor; try done.
  assert (cur = []) as ->.
  { destruct cur as [|p cur]; [done|]. destruct (seg_chain_end _ _ _ _ Hcur ltac:(done)). lia. }
  by exists old, [].
Qed.

Lemma in_order_emit r sn S k ev : in_order r sn S k -> in_order (um_emit r ev) sn S k.
Proof. intros [H1 H2 H3 H4 H5 H6 H7]. by constructor. Qed.

Lemma same_modulus s r : um_conf s -> um_conf r -> um_sn_field_length r = um_sn_field_length s -> um_sn_modulus r = um_sn_modulus s.
Proof. intros [[E1 ->]|[E1 ->]] [[E2 ->]|[E2 ->]]; congruence. Qed.

(** The queue after the head was sent, wholly or in part. *)
Lemma queue_rest s s' l :
  um_wf s' -> keeps_data (um_heap s) (um_heap s') -> l = um_tx_list s' ->
  queue_data s' = (fun x => addr_data (um_heap s) (seg_sdu x)) <$> l.
Proof.
  intros Hwf Hk ->. unfold queue_data. apply list_fmap_ext. intros i x Hx. apply list_elem_of_lookup_2 in Hx.
  destruct (segs_live _ _ (umw_segs s' Hwf) x Hx) as (t & Ht & _). destruct (Hk _ _ Ht) as (t0 & Ht0 & E).
  unfold addr_data. by rewrite Ht, Ht0.
Qed.

Lemma head_live s x l : um_wf s -> um_tx_list s = x :: l ->
  exists t, h_sdus (um_heap s) !! seg_sdu x = Some t /\ seg_ok t x /\ addr_data (um_heap s) (seg_sdu x) = sdu_data t /\
    Z.of_nat (length (sdu_data t)) <= NR_SDU_MAX.
Proof.
  intros Hwf Ht. destruct (segs_get _ _ x (umw_segs s Hwf)) as (t & Hs & _ & Hok & Hsz & Hmax); [rewrite Ht; left|].
  exists t. split; [done|]. split; [done|]. split; [by unfold addr_data; rewrite Hs|lia].
Qed.

(** The receiver reads the PDU of a segment. *)
Lemma carried_recv s r t sn a buffer n :
  um_carries s t sn a buffer n -> um_conf s -> um_conf r -> um_sn_field_length r = um_sn_field_length s ->
  let pdu := take (Z.to_nat n) buffer in
  let h := mk_header (seg_is_first a) (seg_is_last a) sn (seg_so a) (um_compute_pdu_header_size r a) in
  n <> 0 /\ segment_of (sdu_data t) (pdu_of pdu h) /\ pdu_size (pdu_of pdu h) = seg_size a /\
  nr_rlc_entity_um_recv_pdu r pdu =
    if whole a then Ok (um_emit r (deliver_sdu (sdu_data t))) else um_recv_segment r pdu h.
Proof.
  intros (Hseg & Hsn & Hn & Hfit & hb & Hp & Hb & Hl) Hcs Hcr Hlen pdu h.
  assert (Hh : um_compute_pdu_header_size r a = um_compute_pdu_header_size s a)
    by (unfold um_compute_pdu_header_size; by rewrite Hlen).
  pose proof (um_header_size_pos s a) as Hhp. rewrite <- um_pdu_bytes_eq in Hn. destruct Hseg as (H1 & H2 & H3 & H4 & H5).
  assert (Hpl : Z.of_nat (length (take (Z.to_nat (seg_size a)) (drop (Z.to_nat (seg_so a)) (sdu_data t)))) = seg_size a)
    by (rewrite length_take, length_drop; lia).
  split; [lia|]. unfold pdu. rewrite Hp. split; [|split].
  - apply sent_segment; [done|]. by rewrite Hh.
  - unfold pdu_of, nr_rlc_new_pdu, h. cbn [pdu_size ph_byte]. rewrite length_app, Nat2Z.inj_add, Hpl, Hl, Hh. lia.
  - rewrite (um_recv_fields r sn a t); [|done|unfold um_sn_range in *; by rewrite (same_modulus s r)|done| | |by rewrite Hh].
    2: { intros Hnil. rewrite Hnil in Hpl. cbn in Hpl. lia. }
    2: { unfold um_fields in *. by rewrite Hlen. }
    destruct (whole a) eqn:Hw; [|done]. unfold whole in Hw. apply andb_true_iff in Hw as [Hf Hla].
    apply H4 in Hf. apply H5 in Hla. by rewrite Hf, drop_0, firstn_all2 by lia.
Qed.

(** The head of a queue whose elements are whole. *)
Lemma whole_head r sn S s rest :
  um_wf s -> um_tx_list s = rest -> Forall (fun y => whole y = true) rest -> in_order r sn S 0 -> um_tx_next s = sn ->
  exists S k, in_order r (um_tx_next s) S k /\
    match um_tx_list s with
    | x :: _ => k = seg_so x /\ (seg_is_first x = false -> S = addr_data (um_heap s) (seg_sdu x))
    | [] => k = 0
    end.
Proof.
  intros Hwf Ht Hw Hio ->. exists S, 0. split; [done|]. rewrite Ht. destruct rest as [|y rest]; [done|].
  apply list.Forall_cons in Hw as [Hy _]. unfold whole in Hy. apply andb_true_iff in Hy as [Hf _].
  destruct (head_live s y rest Hwf Ht) as (t & _ & (_ & _ & _ & Hi & _) & _). apply Hi in Hf. split; [done|].
  intros H0. destruct (seg_is_first y) eqn:E; [done|]. apply Hi in Hf. congruence.
Qed.

(** A transmission opportunity moves the receiver with the sender. *)
Lemma link_sent s r s' buffer n :
  linked s r -> um_wf s' -> keeps_data (um_heap s) (um_heap s') -> um_sn_field_length s' = um_sn_field_length s ->
  um_sent s s' buffer n ->
  n <> 0 /\ exists r', nr_rlc_entity_um_recv_pdu r (take (Z.to_nat n) buffer) = Ok r' /\ linked s' r' /\
    um_events r' ++ (deliver_sdu <$> queue_data s') = um_events r ++ (deliver_sdu <$> queue_data s) /\
    um_rx_maxsize r' = um_rx_maxsize r /\ sumZ seg_size (um_tx_list s') < sumZ seg_size (um_tx_list s).
Proof.
  intros [Hwf Hlen Hmax (S0 & k & Hio & Hhead)] Hwf' Hkeep Hlen' (x & rest & t & a & Ht & Hs & Ea & Eo & Hcar & _ & _ & Hrest).
  destruct (head_live s x rest Hwf Ht) as (t0 & Ht0 & Hokx & Hdata & Hbound). rewrite Hs in Ht0. injection Ht0 as <-.
  rewrite Ht in Hhead. destruct Hhead as [-> Hcont].
  pose proof (carried_recv s r t _ a buffer n Hcar (umw_conf s Hwf) (io_conf _ _ _ _ Hio) Hlen) as (Hn0 & Hseg & Hsz & Hrecv).
  set (h := mk_header _ _ _ _ _) in *. set (pdu := take _ _) in *. split; [done|]. rewrite Hrecv.
  assert (Hok : seg_ok t a) by apply Hcar. assert (Hfirst : seg_is_first a = seg_is_first x).
  { destruct Hok as (_ & _ & _ & H1 & _), Hokx as (_ & _ & _ & H2 & _). rewrite Eo in H1. apply eq_true_iff_eq. tauto. }
  assert (Hqx : queue_data s = sdu_data t :: ((fun y => addr_data (um_heap s) (seg_sdu y)) <$> rest))
    by (unfold queue_data; rewrite Ht, fmap_cons, Hdata; done).
  rewrite Hqx in Hmax. apply list.Forall_cons in Hmax as [Hmt Hmr].
  assert (Hio' : in_order r (um_tx_next s) (sdu_data t) (seg_so x)).
  { destruct (seg_is_first x) eqn:Ef; [|by rewrite <- Hdata, <- Hcont].
    destruct Hokx as (_ & _ & _ & H2 & _). rewrite (proj1 H2 Ef) in *. by eapply in_order_fresh. }
  destruct Hok as (_ & Hapos & _ & Hai & _). pose proof (umw_queue s Hwf) as Hq. rewrite Ht in Hq. destruct Hq as (_ & _ & Hwr).
  assert (Hpl : pdu_is_last (pdu_of pdu h) = seg_is_last a) by done.
  destruct (seg_is_last a) eqn:El.
  - destruct Hrest as (Ht' & Esz & Enext). pose proof (queue_rest s s' rest Hwf' Hkeep (eq_sym Ht')) as Hq'.
    assert (Hsum : sumZ seg_size (um_tx_list s') < sumZ seg_size (um_tx_list s)) by (rewrite Ht, Ht'; cbn; lia).
    unfold whole. rewrite El, andb_true_r. destruct (seg_is_first a) eqn:Ef.
    + eexists. split; [done|]. split; [|split; [|by split]].
      * constructor; [done|by rewrite Hlen'|by rewrite Hq'|]. eapply whole_head; [done|exact Ht'|done| |exact Enext].
        apply in_order_emit. destruct Hokx as (_ & _ & _ & H2 & _).
        rewrite (proj1 H2 (eq_sym Hfirst)) in Hio'. exact Hio'.
      * unfold um_emit. um_simpl. rewrite Hq', Hqx, <- app_assoc. done.
    + destruct (in_order_recv r pdu h (um_tx_next s) (sdu_data t) (seg_so x) Hio' eq_refl Eo Hseg Hmt Hbound) as (r' & E & Hm & Hl & Hres).
      { intros _. rewrite <- Eo. destruct (decide (seg_so a = 0)) as [H0|]; [apply Hai in H0; congruence|]. destruct Hcar as ((? & _) & _). lia. }
      rewrite Hpl in Hres. destruct Hres as [Hev Hnew].
      exists r'. split; [done|]. split; [|split; [|by split]].
      * constructor; [done|by rewrite Hl, Hlen'|by rewrite Hq', Hm|]. eapply whole_head; [done|exact Ht'|done| |exact Enext].
        rewrite <- (same_modulus s r (umw_conf s Hwf) (io_conf _ _ _ _ Hio) Hlen). exact (Hnew []).
      * rewrite Hev, Hq', Hqx, <- app_assoc. done.
  - destruct Hrest as (b & Ht' & Eb & Ebo & Ebs & Enext). pose proof (queue_rest s s' (b :: rest) Hwf' Hkeep (eq_sym Ht')) as Hq'.
    rewrite fmap_cons, Eb, Hdata in Hq'. unfold whole. rewrite El, andb_false_r.
    destruct (in_order_recv r pdu h (um_tx_next s) (sdu_data t) (seg_so x) Hio' eq_refl Eo Hseg Hmt Hbound) as (r' & E & Hm & Hl & Hres).
    { by rewrite Hpl. }
    rewrite Hpl in Hres. destruct Hres as [Hev Hnew].
    exists r'. split; [done|]. split; [|split; [|split; [done|]]].
    + constructor; [done|by rewrite Hl, Hlen'|rewrite Hq', Hm; by constructor|]. rewrite Ht', Enext.
      exists (sdu_data t), (seg_so b). split; [by rewrite Ebo, Eo, <- Hsz|]. split; [done|]. intros _.
      destruct (head_live s' b rest Hwf' Ht') as (t' & Hs' & _ & Hd' & _). rewrite Hd'. rewrite Eb in Hs'.
      destruct (Hkeep _ _ Hs') as (t1 & Ht1 & ->). rewrite Hs in Ht1. by injection Ht1 as ->.
    + by rewrite Hev, Hq', Hqx.
    + rewrite Ht, Ht'. cbn. lia.
Qed.

(** A buffer of any content is offered. *)
Lemma link_generate s r buffer :
  linked s r -> Z.of_nat (length buffer) <> 2 ->
  exists s' b n r', nr_rlc_entity_um_generate_pdu s buffer = Ok (s', b, n) /\ linked s' r' /\
    (n = 0 /\ s' = s /\ r' = r \/ n <> 0 /\ nr_rlc_entity_um_recv_pdu r (take (Z.to_nat n) b) = Ok r') /\
    um_events r' ++ (deliver_sdu <$> queue_data s') = um_events r ++ (deliver_sdu <$> queue_data s) /\
    um_rx_maxsize r' = um_rx_maxsize r /\
    ((5 <= length buffer)%nat -> um_tx_list s <> [] -> sumZ seg_size (um_tx_list s') < sumZ seg_size (um_tx_list s)).
Proof.
  intros Hl Hne. pose proof (lk_wf _ _ Hl) as Hwf. destruct (um_generate_spec s buffer Hwf Hne) as (s' & b & n & E & Hwf' & H).
  exists s', b, n. destruct (um_can_send s (Z.of_nat (length buffer))) eqn:Hcan.
  - destruct H as (Hsent & _). destruct (keeps_generate _ _ _ _ _ E) as [Hk Hlen].
    destruct (link_sent s r s' b n Hl Hwf' Hk Hlen Hsent) as (Hn & r' & Er & Hl' & Hev & Hm & Hsum). exists r'. auto 10.
  - destruct H as (-> & -> & ->). exists r. split; [done|]. split; [done|]. split; [by left|]. split; [done|]. split; [done|].
    intros Hs Ht. unfold um_can_send in Hcan. destruct (um_tx_list s) as [|x l]; [done|].
    pose proof (um_header_size_pos s x). lia.
Qed.

Lemma link_opportunity s r acc size :
  linked s r -> size <> 2%nat ->
  exists s' r', um_act (Opportunity size) (s, r, acc) = Ok (s', r', acc) /\ linked s' r' /\
    um_events r' ++ (deliver_sdu <$> queue_data s') = um_events r ++ (deliver_sdu <$> queue_data s) /\
    um_rx_maxsize r' = um_rx_maxsize r /\
    ((5 <= size)%nat -> um_tx_list s <> [] -> sumZ seg_size (um_tx_list s') < sumZ seg_size (um_tx_list s)).
Proof.
  intros Hl Hne. destruct (link_generate s r (replicate size 0) Hl) as (s' & b & n & r' & E & Hl' & Hr & Hev & Hm & Hsum);
    [rewrite length_replicate; lia|]. rewrite length_replicate in Hsum. exists s', r'. split; [|done]. unfold um_act. rewrite E. cbn [rbind].
  destruct Hr as [(-> & -> & ->)|[Hn Er]]; [done|]. by rewrite (proj2 (Z.eqb_neq _ _) Hn), Er.
Qed.

Lemma offer_keeps s b id s' :
  segs_ok (um_heap s) (um_tx_list s) -> nr_rlc_entity_um_recv_sdu s b id = Ok s' ->
  um_sn_field_length s' = um_sn_field_length s /\ um_tx_next s' = um_tx_next s /\
  forall a t, h_sdus (um_heap s) !! a = Some t -> h_sdus (um_heap s') !! a = Some t.
Proof.
  intros Hok E. unfold nr_rlc_entity_um_recv_sdu in E. destruct (_ >? NR_SDU_MAX); [done|].
  destruct (_ >? _); [by injection E as <-|]. cbn [nr_rlc_new_sdu] in E. bind_ok E. destruct x as [l o].
  injection E as <-. um_simpl. split; [done|]. split; [done|]. intros a t Ha. cbn. rewrite lookup_insert_ne; [done|].
  pose proof (sdus_fresh _ _ Hok a t Ha). lia.
Qed.

Lemma link_offer s r acc b id :
  linked s r -> 0 < Z.of_nat (length b) <= NR_SDU_MAX -> Z.of_nat (length b) <= um_rx_maxsize r ->
  exists s' acc', um_act (Offer b id) (s, r, acc) = Ok (s', r, acc') /\ linked s' r /\
    ((acc' = acc /\ queue_data s' = queue_data s) \/ (acc' = acc ++ [b] /\ queue_data s' = queue_data s ++ [b])).
Proof.
  intros Hl Hb Hm. pose proof Hl as [Hwf Hlen Hmax (S & k & Hio & Hhead)].
  destruct (um_recv_sdu_spec s b id Hwf Hb) as (s' & E & Hwf' & H). unfold um_act. rewrite E. cbn [rbind].
  destruct (_ <=? _); [|subst s'; exists s, acc; split; [done|]; split; [done|by left]].
  destruct H as (x & t & Ht & Hw & Hs & Hd & _). destruct (offer_keeps s b id s' (umw_segs s Hwf) E) as (L1 & L2 & Hheap).
  assert (Hdata : forall y, y ∈ um_tx_list s -> addr_data (um_heap s') (seg_sdu y) = addr_data (um_heap s) (seg_sdu y)).
  { intros y Hy. destruct (segs_live _ _ (umw_segs s Hwf) y Hy) as (u & Hu & _). unfold addr_data. by rewrite Hu, (Hheap _ _ Hu). }
  assert (Hq : queue_data s' = queue_data s ++ [b]).
  { unfold queue_data. rewrite Ht, fmap_app. f_equal; [|cbn; unfold addr_data; by rewrite Hs, Hd].
    apply list_fmap_ext. intros i y Hy. apply Hdata. by eapply list_elem_of_lookup_2. }
  exists s', (acc ++ [b]). split; [done|]. split; [|by right].
  constructor; [done|by rewrite L1|rewrite Hq; apply Forall_app; split; [done|by apply Forall_singleton]|]. rewrite L2.
  exists S, k. split; [done|]. rewrite Ht. destruct (um_tx_list s) as [|y l]; cbn [app].
  - destruct (head_live s' x [] Hwf' Ht) as (u & _ & (_ & _ & _ & Hi & _) & _). unfold whole in Hw.
    apply andb_true_iff in Hw as [Hf _]. rewrite Hf. split; [|done]. rewrite Hhead. symmetry. by apply Hi.
  - destruct Hhead as [Hk Hc]. split; [done|]. intros Hf. rewrite Hdata by left. by apply Hc.
Qed.

(** The promise of the link: what was delivered, then what is queued, is what was accepted. *)
Definition link_ok (rx_max : Z) (st : um_link_state) : Prop :=
  let '(s, r, acc) := st in
  linked s r /\ um_rx_maxsize r = rx_max /\ um_events r ++ (deliver_sdu <$> queue_data s) = deliver_sdu <$> acc.

Lemma act_ok rx_max a st :
  um_allowed rx_max a -> link_ok rx_max st -> exists st', um_act a st = Ok st' /\ link_ok rx_max st'.
Proof.
  destruct st as [[s r] acc]. intros Ha (Hl & Hm & Hev). destruct a as [b id|size]; cbn in Ha.
  - destruct (link_offer s r acc b id Hl) as (s' & acc' & E & Hl' & H); [apply Ha|rewrite Hm; apply Ha|].
    exists (s', r, acc'). split; [done|]. split; [done|]. split; [done|].
    destruct H as [(-> & ->)|(-> & ->)]; [done|]. by rewrite !fmap_app, app_assoc, Hev.
  - destruct (link_opportunity s r acc size Hl Ha) as (s' & r' & E & Hl' & Hq & Hm' & _).
    exists (s', r', acc). split; [done|]. split; [done|]. split; [by rewrite Hm'|by rewrite Hq].
Qed.

Lemma run_ok rx_max acts : forall st,
  Forall (um_allowed rx_max) acts -> link_ok rx_max st -> exists st', um_run acts st = Ok st' /\ link_ok rx_max st'.
Proof.
  induction acts as [|a acts IH]; intros st Hf Hst; [by exists st|]. apply list.Forall_cons in Hf as [Ha Hf].
  destruct (act_ok rx_max a st Ha Hst) as (st1 & E1 & H1). cbn [um_run]. rewrite E1. by apply IH.
Qed.

Lemma new_link_ok rx_max1 tx_max1 tr1 rx_max2 tx_max2 tr2 snl s r :
  new_nr_rlc_entity_um rx_max1 tx_max1 tr1 snl = Ok s -> new_nr_rlc_entity_um rx_max2 tx_max2 tr2 snl = Ok r ->
  link_ok rx_max2 (s, r, []).
Proof.
  intros Es Er. pose proof (new_um_wf _ _ _ _ _ Es) as Hws. pose proof (new_um_wf _ _ _ _ _ Er) as Hwr.
  unfold new_nr_rlc_entity_um in *. destruct ((snl =? 6) || (snl =? 12)) eqn:Hs; cbn [negb] in Es, Er; [|discriminate].
  injection Es as <-. injection Er as <-. split; [|done]. constructor; [done|done|constructor|].
  exists [], 0. split; [|done]. assert (Hm : snl = 6 \/ snl = 12) by (b2p; destruct Hs; b2p; lia).
  constructor; [apply Hwr|by destruct Hm as [-> | ->]|apply Hwr|done|done|done|].
  exists [], []. split_and!; try done; constructor.
Qed.

(** Enough opportunities of at least five bytes empty the queue. *)
Lemma drain rx_max sizes : forall s r acc,
  link_ok rx_max (s, r, acc) -> Forall (fun n => (5 <= n)%nat) sizes ->
  sumZ seg_size (um_tx_list s) <= Z.of_nat (length sizes) ->
  exists s' r', um_run (Opportunity <$> sizes) (s, r, acc) = Ok (s', r', acc) /\ um_tx_list s' = [] /\
    um_events r' = deliver_sdu <$> acc.
Proof.
  assert (Hpos : forall s, um_wf s -> um_tx_list s <> [] -> 0 < sumZ seg_size (um_tx_list s)).
  { intros s Hwf Hne. pose proof (segs_live _ _ (umw_segs s Hwf)) as Hlive. destruct (um_tx_list s) as [|x l]; [done|].
    assert (Hnn : 0 <= sumZ seg_size l).
    { apply sumZ_nonneg, list.Forall_forall. intros y Hy. destruct (Hlive y) as (t & _ & (_ & ? & _)); [by right|lia]. }
    destruct (Hlive x) as (t & _ & (_ & ? & _)); [left|]. cbn. lia. }
  induction sizes as [|n sizes IH]; intros s r acc (Hl & Hm & Hev) Hf Hsum.
  - exists s, r. split; [done|]. destruct (um_tx_list s) as [|x l] eqn:Ht.
    + split; [done|]. rewrite <- Hev. unfold queue_data. by rewrite Ht, app_nil_r.
    + specialize (Hpos s (lk_wf _ _ Hl)). rewrite Ht in Hpos. specialize (Hpos ltac:(done)). cbn [length] in Hsum. lia.
  - apply list.Forall_cons in Hf as [Hn Hf]. rewrite fmap_cons. cbn [um_run].
    destruct (link_opportunity s r acc n Hl ltac:(lia)) as (s1 & r1 & E & Hl1 & Hq & Hm1 & Hdec). rewrite E. cbn [rbind].
    apply IH; [split; [done|split; [by rewrite Hm1|by rewrite Hq]]|done|].
    destruct (um_tx_list s) as [|x l] eqn:Ht.
    + destruct (um_tx_list s1) as [|y l1] eqn:Ht1; [cbn; lia|]. exfalso.
      assert (Hg : um_act (Opportunity n) (s, r, acc) = Ok (s, r, acc)).
      { unfold um_act, nr_rlc_entity_um_generate_pdu, um_generate_tx_pdu. by rewrite Ht. }
      rewrite Hg in E. injection E as <- <-. congruence.
    + specialize (Hdec Hn ltac:(done)). cbn [length] in Hsum. lia.
Qed.

(** ** Properties *)

(** C10. In-order delivery in unacknowledged mode. A new sender and a new receiver with the same
    SN length are connected by a link that keeps the order and loses nothing. For any interleaving
    of offered SDUs (of 1 to NR_SDU_MAX bytes, for which the receiver has room) and of
    transmission opportunities of any size but two bytes, no call fails, and the SDUs that the
    receiver has delivered, followed by those waiting in the sender's queue, are exactly the SDUs
    the sender accepted: nothing is lost, duplicated, altered or reordered, across segmentation
    and wrap-around of the SNs. Opportunities of two bytes are excluded because with one an SDU
    can be lost ([um_small_buffer_loses_sdu]); timers, discards and re-establishments are not part
    of the link. *)
Theorem um_link_in_order rx_max1 tx_max1 tr1 rx_max2 tx_max2 tr2 snl s0 r0 acts :
  new_nr_rlc_entity_um rx_max1 tx_max1 tr1 snl = Ok s0 -> new_nr_rlc_entity_um rx_max2 tx_max2 tr2 snl = Ok r0 ->
  Forall (um_allowed rx_max2) acts ->
  exists s r acc, um_run acts (s0, r0, []) = Ok (s, r, acc) /\
    um_events r ++ (deliver_sdu <$> queue_data s) = deliver_sdu <$> acc.
Proof.
  intros Es Er Hf. destruct (run_ok rx_max2 acts _ Hf (new_link_ok _ _ _ _ _ _ _ _ _ Es Er)) as ([[s r] acc] & E & _ & _ & H).
  by exists s, r, acc.
Qed.

(** C9. Liveness in unacknowledged mode. A new sender and a new receiver of OAI with the same SN
    length are connected by a link that keeps the order and loses nothing; it has run on any
    sequence of SDUs (of 1 to NR_SDU_MAX bytes, for which the receiver has room) and of
    transmission opportunities of sizes other than two bytes (with two bytes the sender can lose
    an SDU, [um_small_buffer_loses_sdu]). From the state reached, opportunities of at least five
    bytes, as many as there are bytes in the queue, deliver everything: no call fails, the queue
    is empty and the receiver has delivered all accepted SDUs, in order. *)
Theorem um_link_liveness rx_max1 tx_max1 tr1 rx_max2 tx_max2 tr2 snl s0 r0 acts s r acc sizes :
  new_nr_rlc_entity_um rx_max1 tx_max1 tr1 snl = Ok s0 -> new_nr_rlc_entity_um rx_max2 tx_max2 tr2 snl = Ok r0 ->
  Forall (um_allowed rx_max2) acts -> um_run acts (s0, r0, []) = Ok (s, r, acc) ->
  Forall (fun n => (5 <= n)%nat) sizes -> sumZ seg_size (um_tx_list s) <= Z.of_nat (length sizes) ->
  exists s' r', um_run (Opportunity <$> sizes) (s, r, acc) = Ok (s', r', acc) /\ um_tx_list s' = [] /\
    um_events r' = deliver_sdu <$> acc.
Proof.
  intros Es Er Hf E Hs Hsum. destruct (run_ok rx_max2 acts _ Hf (new_link_ok _ _ _ _ _ _ _ _ _ Es Er)) as (st & E' & H).
  rewrite E in E'. injection E' as <-. by apply (drain rx_max2).
Qed.

(** ** Witnesses *)

Definition link_example : list um_action :=
  [Offer [1; 2; 3; 4; 5; 6; 7; 8; 9; 10] 0; Opportunity 5; Offer [11; 12] 1; Opportunity 6].

Lemma link_example_allowed : Forall (um_allowed 1000) link_example.
Proof. unfold link_example, um_allowed, NR_SDU_MAX. repeat constructor; cbn; lia. Qed.

Lemma um_link_in_order_witness :
  exists s0 s r acc, new_nr_rlc_entity_um 1000 1000 35 6 = Ok s0 /\ um_run link_example (s0, s0, []) = Ok (s, r, acc) /\
    um_events r ++ (deliver_sdu <$> queue_data s) = deliver_sdu <$> acc /\ length (queue_data s) = 2%nat.
Proof.
  eexists. destruct (um_link_in_order 1000 1000 35 1000 1000 35 6 _ _ link_example eq_refl eq_refl link_example_allowed)
    as (s & r & acc & E & H).
  exists s, r, acc. split; [reflexivity|]. split; [exact E|]. split; [exact H|].
  vm_compute in E. injection E as <- _ _. reflexivity.
Defined.

Lemma um_link_liveness_witness :
  exists s0 s r acc s' r', new_nr_rlc_entity_um 1000 1000 35 6 = Ok s0 /\ um_run link_example (s0, s0, []) = Ok (s, r, acc) /\
    um_events r = [] /\ um_run (Opportunity <$> replicate 5 5%nat) (s, r, acc) = Ok (s', r', acc) /\
    um_events r' = [deliver_sdu [1; 2; 3; 4; 5; 6; 7; 8; 9; 10]; deliver_sdu [11; 12]].
Proof.
  assert (E : exists s0 st, new_nr_rlc_entity_um 1000 1000 35 6 = Ok s0 /\ um_run link_example (s0, s0, []) = Ok st /\
    sumZ seg_size (um_tx_list st.1.1) <= 5 /\ um_events st.1.2 = [] /\ st.2 = [[1; 2; 3; 4; 5; 6; 7; 8; 9; 10]; [11; 12]]).
  { eexists _, _. split; [reflexivity|]. split; [vm_compute; reflexivity|]. vm_compute. split; [discriminate|]. by split. }
  destruct E as (s0 & [[s r] acc] & E0 & E & Hsum & Hr & Hacc). cbn [fst snd] in Hsum, Hr, Hacc.
  destruct (um_link_liveness 1000 1000 35 1000 1000 35 6 s0 s0 link_example s r acc (replicate 5 5%nat)) as (s' & r' & E' & _ & Hev);
    [exact E0|exact E0|exact link_example_allowed|exact E|repeat constructor|exact Hsum|].
  exists s0, s, r, acc, s', r'. split; [exact E0|]. split; [exact E|]. split; [exact Hr|]. split; [exact E'|].
  rewrite Hev, Hacc. reflexivity.
Defined.
