(* ===== verification/Pdcp.v ===== *)
(** NR PDCP entity: the definitions translated from [nr_pdcp_sdu.c],
    [nr_pdcp_entity.c], [nr_pdcp_integrity_nia2.c] and [nr_pdcp_security_nea2.c].

    The two cryptographic primitives the code calls in libraries (AES-128 in
    counter mode of nettle and AES-CMAC of OpenSSL) are the parameters [ctr_crypt]
    and [cmac] of the section.  Properties are in the file PdcpProps. *)

From S2P Require Import Prelude.

(** ** Received SDUs: nr_pdcp_sdu.c *)

Record nr_pdcp_sdu_t := mk_psdu {
  psdu_count : Z;
  psdu_buffer : list Z;
  psdu_size : Z
}.

Definition nr_pdcp_new_sdu (count : Z) (buffer : list Z) (size : Z) : nr_pdcp_sdu_t :=
  mk_psdu count (take (Z.to_nat size) buffer) size.

Definition nr_pdcp_sdu_list_add (l : list nr_pdcp_sdu_t) (sdu : nr_pdcp_sdu_t)
  : list nr_pdcp_sdu_t :=
  insert_before (fun cur => psdu_count sdu <? psdu_count cur) sdu l.

Fixpoint nr_pdcp_sdu_in_list (l : list nr_pdcp_sdu_t) (count : Z) : bool :=
  match l with
  | [] => false
  | s :: tl => if psdu_count s =? count then true else nr_pdcp_sdu_in_list tl count
  end.

(** ** State: nr_pdcp_entity.h *)

Inductive nr_pdcp_entity_type_t : Type :=
| NR_PDCP_DRB_AM
| NR_PDCP_DRB_UM
| NR_PDCP_SRB.

#[export] Instance pdcp_type_eq : EqDecision nr_pdcp_entity_type_t.
Proof. solve_decision. Defined.

(** The calls to the two callbacks. *)
Inductive pdcp_event : Type :=
| pdcp_deliver_sdu (buf : list Z)
| pdcp_deliver_pdu (buf : list Z) (sdu_id : Z).

(** A security context is the key it was initialised with; [None] when there is
    none (or it was freed).  The pointers [free_security] and [free_integrity] are
    booleans ([false] for NULL). *)
Record nr_pdcp_entity_t := mk_pdcp {
  p_type : nr_pdcp_entity_type_t;
  p_rb_id : Z;
  p_pdusession_id : Z;
  p_has_sdap : Z;
  p_has_sdapULheader : Z;
  p_has_sdapDLheader : Z;
  p_sn_size : Z;
  p_t_reordering : Z;
  p_discard_timer : Z;
  p_sn_max : Z;
  p_window_size : Z;
  p_tx_next : Z;
  p_rx_next : Z;
  p_rx_deliv : Z;
  p_rx_reord : Z;
  p_t_current : Z;
  p_t_reordering_start : Z;
  p_has_ciphering : bool;
  p_has_integrity : bool;
  p_ciphering_algorithm : Z;
  p_integrity_algorithm : Z;
  p_ciphering_key : list Z;
  p_integrity_key : list Z;
  p_security_context : option (list Z);
  p_free_security : bool;
  p_integrity_context : option (list Z);
  p_free_integrity : bool;
  p_is_gnb : bool;
  p_rx_list : list nr_pdcp_sdu_t;
  p_rx_size : Z;
  p_rx_maxsize : Z;
  p_events : list pdcp_event
}.

#[export] Instance eta_pdcp : Eta nr_pdcp_entity_t := fun e =>
  mk_pdcp (p_type e) (p_rb_id e) (p_pdusession_id e) (p_has_sdap e) (p_has_sdapULheader e)
    (p_has_sdapDLheader e) (p_sn_size e) (p_t_reordering e) (p_discard_timer e) (p_sn_max e)
    (p_window_size e) (p_tx_next e) (p_rx_next e) (p_rx_deliv e) (p_rx_reord e) (p_t_current e)
    (p_t_reordering_start e) (p_has_ciphering e) (p_has_integrity e) (p_ciphering_algorithm e)
    (p_integrity_algorithm e) (p_ciphering_key e) (p_integrity_key e) (p_security_context e)
    (p_free_security e) (p_integrity_context e) (p_free_integrity e) (p_is_gnb e) (p_rx_list e)
    (p_rx_size e) (p_rx_maxsize e) (p_events e).

Ltac pdcp_simpl :=
  cbn [update p_type p_rb_id p_pdusession_id p_has_sdap p_has_sdapULheader p_has_sdapDLheader
    p_sn_size p_t_reordering p_discard_timer p_sn_max p_window_size p_tx_next p_rx_next p_rx_deliv
    p_rx_reord p_t_current p_t_reordering_start p_has_ciphering p_has_integrity
    p_ciphering_algorithm p_integrity_algorithm p_ciphering_key p_integrity_key
    p_security_context p_free_security p_integrity_context p_free_integrity p_is_gnb p_rx_list
    p_rx_size p_rx_maxsize p_events].

(** ** Inputs of the security algorithms *)

(** [compute_t] of nr_pdcp_integrity_nia2.c. *)
Definition compute_t (count bearer direction : Z) : list Z :=
  [Z.land (Z.shiftr count 24) 255; Z.land (Z.shiftr count 16) 255;
   Z.land (Z.shiftr count 8) 255; Z.land count 255;
   u8 (Z.lor (Z.shiftl (bearer - 1) 3) (Z.shiftl direction 2)); 0; 0; 0].

(** The initial counter block of [nr_pdcp_security_nea2_cipher]; [count] is an
    [int] there. *)
Definition nea2_t (count bearer direction : Z) : list Z :=
  [Z.land (Z.shiftr (i32 count) 24) 255; Z.land (Z.shiftr (i32 count) 16) 255;
   Z.land (Z.shiftr (i32 count) 8) 255; Z.land (i32 count) 255;
   u8 (Z.lor (Z.shiftl (bearer - 1) 3) (Z.shiftl direction 2))] ++ replicate 11 0.

(** ** Delivery loops *)

(** [while (rx_list != NULL && count == rx_list->count)]: deliver, remove,
    [count++]; returns the buffers delivered, the list left, the bytes released and
    the final count. *)
Fixpoint deliver_run (l : list nr_pdcp_sdu_t) (count : Z)
  : list (list Z) * list nr_pdcp_sdu_t * Z * Z :=
  match l with
  | [] => ([], [], 0, count)
  | cur :: tl =>
    if count =? psdu_count cur then
      let '(out, l', n, c) := deliver_run tl (u32 (count + 1)) in
      (psdu_buffer cur :: out, l', psdu_size cur + n, c)
    else ([], l, 0, count)
  end.

(** [while (rx_list != NULL && rx_list->count < rx_reord)] *)
Fixpoint deliver_below (l : list nr_pdcp_sdu_t) (rx_reord : Z)
  : list (list Z) * list nr_pdcp_sdu_t * Z :=
  match l with
  | [] => ([], [], 0)
  | cur :: tl =>
    if psdu_count cur <? rx_reord then
      let '(out, l', n) := deliver_below tl rx_reord in
      (psdu_buffer cur :: out, l', psdu_size cur + n)
    else ([], l, 0)
  end.

Definition deliver_all (e : nr_pdcp_entity_t) (out : list (list Z)) : nr_pdcp_entity_t :=
  e <| p_events := p_events e ++ (pdcp_deliver_sdu <$> out) |>.

(** ** The COUNT of a received PDU *)

(** SN and header size; the code reads the header bytes before it checks [size]. *)
Definition decode_sn (entity : nr_pdcp_entity_t) (buffer : list Z) : res (Z * Z) :=
  if p_sn_size entity =? 12 then
    match buffer with
    | b0 :: b1 :: _ => Ok (Z.lor (Z.shiftl (Z.land b0 0xf) 8) b1, 2)
    | _ => Fault OutOfBounds
    end
  else
    match buffer with
    | b0 :: b1 :: b2 :: _ =>
      Ok (Z.lor (Z.lor (Z.shiftl (Z.land b0 0x3) 16) (Z.shiftl b1 8)) b2, 3)
    | _ => Fault OutOfBounds
    end.

Definition rcvd_count_of (entity : nr_pdcp_entity_t) (rcvd_sn : Z) : Z :=
  let rx_deliv_sn := Z.land (p_rx_deliv entity) (p_sn_max entity) in
  let rx_deliv_hfn := Z.shiftr (p_rx_deliv entity) (p_sn_size entity) in
  let rcvd_hfn :=
    if rcvd_sn <? rx_deliv_sn - p_window_size entity then u32 (rx_deliv_hfn + 1)
    else if rcvd_sn >=? rx_deliv_sn + p_window_size entity then u32 (rx_deliv_hfn - 1)
    else rx_deliv_hfn in
  Z.lor (u32 (Z.shiftl rcvd_hfn (p_sn_size entity))) rcvd_sn.

(** "SRBs always have MAC-I, even if integrity is not active" *)
Definition integrity_size_of (entity : nr_pdcp_entity_t) : Z :=
  if p_has_integrity entity || bool_decide (p_type entity = NR_PDCP_SRB) then 4 else 0.

(** [entity->is_gnb ? 0 : 1] on reception; transmission uses the other value. *)
Definition rx_direction (entity : nr_pdcp_entity_t) : Z := if p_is_gnb entity then 0 else 1.
Definition tx_direction (entity : nr_pdcp_entity_t) : Z := if p_is_gnb entity then 1 else 0.

(** The end of [nr_pdcp_entity_recv_pdu], from the test of [rcvd_count] on, for a
    PDU of [size] bytes of which [header_size] are the header. *)
Definition reorder_timers (entity : nr_pdcp_entity_t) : nr_pdcp_entity_t :=
  let entity :=
    if negb (p_t_reordering_start entity =? 0) && (p_rx_deliv entity >=? p_rx_reord entity)
    then entity <| p_t_reordering_start := 0 |> else entity in
  if (p_t_reordering_start entity =? 0) && (p_rx_deliv entity <? p_rx_next entity)
  then entity <| p_rx_reord := p_rx_next entity |>
              <| p_t_reordering_start := i32 (p_t_current entity) |>
  else entity.

Definition recv_count (entity : nr_pdcp_entity_t) (rcvd_count : Z) (payload : list Z)
  (size header_size integrity_size : Z) : nr_pdcp_entity_t :=
  if (rcvd_count <? p_rx_deliv entity) || nr_pdcp_sdu_in_list (p_rx_list entity) rcvd_count
  then entity
  else
    let sdu := nr_pdcp_new_sdu rcvd_count payload (size - header_size - integrity_size) in
    let entity := entity <| p_rx_list := nr_pdcp_sdu_list_add (p_rx_list entity) sdu |>
                         <| p_rx_size := p_rx_size entity + (size - header_size) |> in
    let entity :=
      if rcvd_count >=? p_rx_next entity
      then entity <| p_rx_next := u32 (rcvd_count + 1) |> else entity in
    let entity :=
      if rcvd_count =? p_rx_deliv entity then
        let '(out, l, n, count) := deliver_run (p_rx_list entity) (p_rx_deliv entity) in
        (deliver_all entity out) <| p_rx_list := l |> <| p_rx_size := p_rx_size entity - n |>
                               <| p_rx_deliv := count |>
      else entity in
    reorder_timers entity.

Section Security.

(** [nettle_ctr_crypt] with AES-128 under a key, an initial counter block and data;
    [CMAC] of OpenSSL under a key. *)
Variable ctr_crypt : list Z -> list Z -> list Z -> list Z.
Variable cmac : list Z -> list Z -> list Z.

Definition nr_pdcp_integrity_nia2_integrity (key buffer : list Z) (bearer count direction : Z)
  : list Z :=
  take 4 (cmac key (compute_t count bearer direction ++ buffer)).

Definition nr_pdcp_security_nea2_cipher (key buffer : list Z) (bearer count direction : Z)
  : list Z :=
  ctr_crypt key (nea2_t count bearer direction) buffer.

(** [if (entity->has_ciphering) entity->cipher(..., buffer + header_size, ...)] *)
Definition apply_cipher (entity : nr_pdcp_entity_t) (buffer : list Z) (header_size count direction : Z)
  : res (list Z) :=
  if p_has_ciphering entity then
    match p_security_context entity with
    | None => Fault NullDeref
    | Some key =>
      Ok (take (Z.to_nat header_size) buffer
          ++ nr_pdcp_security_nea2_cipher key (drop (Z.to_nat header_size) buffer)
               (p_rb_id entity) count direction)
    end
  else Ok buffer.

(** The integrity check computes the MAC-I, compares it and, when it differs, only
    logs (the [return] is commented out in the code): the result is not used. *)
Definition check_integrity (entity : nr_pdcp_entity_t) (buffer : list Z) (count : Z) : res bool :=
  if p_has_integrity entity then
    match p_integrity_context entity with
    | None => Fault NullDeref
    | Some key =>
      let len := (length buffer - 4)%nat in
      Ok (bool_decide
            (nr_pdcp_integrity_nia2_integrity key (take len buffer) (p_rb_id entity) count
               (rx_direction entity) = drop len buffer))
    end
  else Ok true.

Definition nr_pdcp_entity_recv_pdu (entity : nr_pdcp_entity_t) (buffer : list Z)
  : res nr_pdcp_entity_t :=
  match buffer with
  | [] => Ok entity
  | b0 :: tl =>
    let size := Z.of_nat (length buffer) in
    let buffer :=
      if bool_decide (p_type entity <> NR_PDCP_SRB) && (Z.land b0 0x80 =? 0)
      then Z.lor b0 128 :: tl else buffer in
    let* (rcvd_sn, header_size) := decode_sn entity buffer in
    let integrity_size := integrity_size_of entity in
    if size <? header_size + integrity_size + 1 then Ok entity
    else
      let rcvd_count := rcvd_count_of entity rcvd_sn in
      let* buffer := apply_cipher entity buffer header_size rcvd_count (rx_direction entity) in
      let* _ := check_integrity entity buffer rcvd_count in
      Ok (recv_count entity rcvd_count (drop (Z.to_nat header_size) buffer)
            size header_size integrity_size)
  end.

(** ** Transmission *)

Definition encode_header (entity : nr_pdcp_entity_t) (sn : Z) : list Z :=
  let dc_bit := if bool_decide (p_type entity = NR_PDCP_SRB) then 0 else 0x80 in
  if p_sn_size entity =? 12
  then [Z.lor dc_bit (Z.land (Z.shiftr sn 8) 0xf); Z.land sn 0xff]
  else [Z.lor dc_bit (Z.land (Z.shiftr sn 16) 0x3); Z.land (Z.shiftr sn 8) 0xff; Z.land sn 0xff].

(** The MAC-I appended to header and SDU. *)
Definition mac_i (entity : nr_pdcp_entity_t) (buf : list Z) (count : Z) : res (list Z) :=
  if p_has_integrity entity then
    match p_integrity_context entity with
    | None => Fault NullDeref
    | Some key => Ok (nr_pdcp_integrity_nia2_integrity key buf (p_rb_id entity) count
                        (tx_direction entity))
    end
  else if integrity_size_of entity =? 4 then Ok [0; 0; 0; 0]
  else Ok [].

Definition nr_pdcp_entity_recv_sdu (entity : nr_pdcp_entity_t) (buffer : list Z) (sdu_id : Z)
  : res nr_pdcp_entity_t :=
  let count := p_tx_next entity in
  let sn := Z.land (p_tx_next entity) (p_sn_max entity) in
  let header := encode_header entity sn in
  let* mac := mac_i entity (header ++ buffer) count in
  let* buf := apply_cipher entity (header ++ buffer ++ mac) (Z.of_nat (length header)) count
                (tx_direction entity) in
  let entity := entity <| p_tx_next := u32 (p_tx_next entity + 1) |> in
  Ok (entity <| p_events := p_events entity ++ [pdcp_deliver_pdu buf sdu_id] |>).

End Security.

(** ** Configuration *)

(** [memcpy(dst, key, 16)] when a key is given. *)
Definition copy_key (dst : list Z) (key : option (list Z)) : list Z :=
  match key with Some k => take 16 k | None => dst end.

(** Re-initialisation frees the previous context first. *)
Definition set_integrity (entity : nr_pdcp_entity_t) (algorithm : Z) : res nr_pdcp_entity_t :=
  if algorithm =? 0 then
    let entity := entity <| p_has_integrity := false |> in
    let entity :=
      if p_free_integrity entity then entity <| p_integrity_context := None |> else entity in
    Ok (entity <| p_free_integrity := false |>)
  else if negb (algorithm =? -1) then
    if negb (algorithm =? 2) then Exit
    else Ok (entity <| p_has_integrity := true |>
                    <| p_integrity_context := Some (p_integrity_key entity) |>
                    <| p_free_integrity := true |>)
  else Ok entity.

Definition set_ciphering (entity : nr_pdcp_entity_t) (algorithm : Z) : res nr_pdcp_entity_t :=
  if algorithm =? 0 then
    let entity := entity <| p_has_ciphering := false |> in
    let entity :=
      if p_free_security entity then entity <| p_security_context := None |> else entity in
    Ok (entity <| p_free_security := false |>)
  else if negb (algorithm =? -1) then
    if negb (algorithm =? 2) then Exit
    else Ok (entity <| p_has_ciphering := true |>
                    <| p_security_context := Some (p_ciphering_key entity) |>
                    <| p_free_security := true |>)
  else Ok entity.

Definition nr_pdcp_entity_set_security (entity : nr_pdcp_entity_t) (integrity_algorithm : Z)
  (integrity_key : option (list Z)) (ciphering_algorithm : Z) (ciphering_key : option (list Z))
  : res nr_pdcp_entity_t :=
  let entity :=
    if negb (integrity_algorithm =? -1)
    then entity <| p_integrity_algorithm := integrity_algorithm |> else entity in
  let entity :=
    if negb (ciphering_algorithm =? -1)
    then entity <| p_ciphering_algorithm := ciphering_algorithm |> else entity in
  let entity := entity <| p_integrity_key := copy_key (p_integrity_key entity) integrity_key |> in
  let entity := entity <| p_ciphering_key := copy_key (p_ciphering_key entity) ciphering_key |> in
  let* entity := set_integrity entity integrity_algorithm in
  set_ciphering entity ciphering_algorithm.

(** ** Timers *)

(** [t_current <= t_reordering_start + t_reordering], negated: the sum is an [int],
    converted to 64-bit unsigned for the comparison. *)
Definition reordering_expired (entity : nr_pdcp_entity_t) : bool :=
  negb ((p_t_reordering_start entity =? 0)
        || (p_t_current entity <=? u64 (p_t_reordering_start entity + p_t_reordering entity))).

Definition check_t_reordering (entity : nr_pdcp_entity_t) : nr_pdcp_entity_t :=
  if p_t_reordering entity =? -1 then entity
  else if negb (reordering_expired entity) then entity
  else
    let entity := entity <| p_t_reordering_start := 0 |> in
    let '(out1, l, n) := deliver_below (p_rx_list entity) (p_rx_reord entity) in
    let entity := (deliver_all entity out1) <| p_rx_list := l |>
                    <| p_rx_size := p_rx_size entity - n |> in
    let '(out2, l, n, count) := deliver_run (p_rx_list entity) (p_rx_reord entity) in
    let entity := (deliver_all entity out2) <| p_rx_list := l |>
                    <| p_rx_size := p_rx_size entity - n |> <| p_rx_deliv := count |> in
    if p_rx_deliv entity <? p_rx_next entity
    then entity <| p_rx_reord := p_rx_next entity |>
                <| p_t_reordering_start := i32 (p_t_current entity) |>
    else entity.

Definition nr_pdcp_entity_set_time (entity : nr_pdcp_entity_t) (now : Z) : nr_pdcp_entity_t :=
  check_t_reordering (entity <| p_t_current := now |>).

(** ** Creation *)

Definition new_nr_pdcp_entity (type : nr_pdcp_entity_type_t) (is_gnb : bool)
  (rb_id pdusession_id has_sdap has_sdapULheader has_sdapDLheader sn_size t_reordering
   discard_timer ciphering_algorithm integrity_algorithm : Z)
  (ciphering_key integrity_key : option (list Z)) : res nr_pdcp_entity_t :=
  let ret :=
    mk_pdcp type rb_id pdusession_id has_sdap has_sdapULheader has_sdapDLheader sn_size
      t_reordering discard_timer (Z.shiftl 1 sn_size - 1) (Z.shiftl 1 (sn_size - 1))
      0 0 0 0 0 0 false false 0 0 (replicate 16 0) (replicate 16 0) None false None false is_gnb
      [] 0 0 [] in
  nr_pdcp_entity_set_security ret integrity_algorithm integrity_key ciphering_algorithm
    ciphering_key.

(** [nr_pdcp_entity_delete]: the SDUs of the list and the contexts are freed; the
    contexts that remain allocated are the result. *)
Definition nr_pdcp_entity_delete (entity : nr_pdcp_entity_t) : list nr_pdcp_sdu_t * option (list Z) * option (list Z) :=
  ([],
   if p_free_security entity then None else p_security_context entity,
   if p_free_integrity entity then None else p_integrity_context entity).
