(* ===== verification/PdcpProps.v ===== *)
(** Properties of the NR PDCP entity: recovery of COUNT from the received SN, the
    reordering queue against an abstract specification, the reordering timer, the
    security configuration and the end-to-end transfer of an SDU. *)

From S2P Require Import Prelude.
From S2P Require Import Pdcp.
From Stdlib Require Import Sorting.Sorted Sorting.Permutation.

(** ** Configuration *)

(** The two SN sizes of PDCP, as [new_nr_pdcp_entity] sets them up. *)
Definition pdcp_conf (e : nr_pdcp_entity_t) : Prop :=
  (p_sn_size e = 12 \/ p_sn_size e = 18) /\
  p_sn_max e = 2 ^ p_sn_size e - 1 /\ p_window_size e = 2 ^ (p_sn_size e - 1).

Lemma pdcp_conf_window e :
  pdcp_conf e -> 0 < p_window_size e /\ 2 ^ p_sn_size e = 2 * p_window_size e.
Proof. intros ([->|Hs] & _ & ->); [lia|rewrite Hs; lia]. Qed.

(** ** COUNT *)

(** The hyperframe number chosen from the distance of the two SNs. *)
Lemma hfn_choice W hd sd hc sc :
  0 < W -> 0 <= sd < 2 * W -> 0 <= sc < 2 * W ->
  hd * (2 * W) + sd - W <= hc * (2 * W) + sc < hd * (2 * W) + sd + W ->
  (if sc <? sd - W then hd + 1 else if sc >=? sd + W then hd - 1 else hd) = hc.
Proof.
  intros HW Hd Hc Hw.
  assert (E : (hc - hd) * (2 * W) = (hc * (2 * W) + sc - (hd * (2 * W) + sd)) + (sd - sc)) by lia.
  destruct (Z.ltb_spec sc (sd - W)); [|rewrite Z.geb_leb; destruct (Z.leb_spec (sd + W) sc)].
  - assert (0 < (hc - hd) * (2 * W) < 2 * (2 * W)) by lia. nia.
  - assert (- 2 * (2 * W) < (hc - hd) * (2 * W) < 0) by lia. nia.
  - assert (- (2 * W) < (hc - hd) * (2 * W) < 2 * W) by lia. nia.
Qed.

Lemma rcvd_count_window e c :
  pdcp_conf e -> 0 <= p_rx_deliv e < 2 ^ 32 -> 0 <= c < 2 ^ 32 ->
  p_rx_deliv e - p_window_size e <= c < p_rx_deliv e + p_window_size e ->
  rcvd_count_of e (Z.land c (p_sn_max e)) = c.
Proof.
  intros Hconf Hd Hc Hw. destruct (pdcp_conf_window e Hconf) as [HW HM].
  destruct Hconf as (Hs & Hmax & _). unfold rcvd_count_of. rewrite Hmax.
  assert (Hk : 0 <= p_sn_size e) by lia. set (k := p_sn_size e) in *.
  rewrite !land_ones_mod, Z.shiftr_div_pow2 by done. rewrite HM in *. set (W := p_window_size e) in *.
  set (d := p_rx_deliv e) in *.
  pose proof (Z_div_mod_eq_full d (2 * W)). pose proof (Z_div_mod_eq_full c (2 * W)).
  pose proof (Z.mod_pos_bound d (2 * W)). pose proof (Z.mod_pos_bound c (2 * W)).
  pose proof (hfn_choice W (d / (2 * W)) (d mod (2 * W)) (c / (2 * W)) (c mod (2 * W))) as Hh.
  assert (Hch : 0 <= c / (2 * W)) by (apply Z.div_pos; lia).
  assert (Hcl : c / (2 * W) * (2 * W) <= c) by lia.
  assert (Hcu : c / (2 * W) < 2 ^ 32) by nia.
  set (h := if _ <? _ then u32 _ else _).
  assert (h = c / (2 * W)) as ->.
  { subst h. rewrite <- Hh in Hch, Hcu |- * by lia.
    destruct (_ <? _); [by rewrite u32_small|]. destruct (_ >=? _); [by rewrite u32_small|done]. }
  rewrite u32_small, lor_shiftl_add; rewrite ?Z.shiftl_mul_pow2, ?HM by done; lia.
Qed.

(** ** The reordering queue *)

Definition count_lt (a b : nr_pdcp_sdu_t) : Prop := psdu_count a < psdu_count b.

(** The invariant of the receive side. *)
Definition pdcp_wf (e : nr_pdcp_entity_t) : Prop :=
  pdcp_conf e /\ 0 <= p_rx_deliv e <= p_rx_next e /\ p_rx_next e < 2 ^ 32 /\
  StronglySorted count_lt (p_rx_list e) /\
  Forall (fun s => p_rx_deliv e < psdu_count s < p_rx_next e) (p_rx_list e) /\
  (p_t_reordering_start e <> 0 -> p_rx_deliv e < p_rx_reord e <= p_rx_next e).

(** Abstract specification: the next COUNT to deliver and the SDUs held back, by
    COUNT.  [flush] hands over SDUs as long as the next one is there. *)
Fixpoint flush (fuel : nat) (d : Z) (m : gmap Z (list Z)) : list (list Z) * Z * gmap Z (list Z) :=
  match fuel with
  | O => ([], d, m)
  | S fuel =>
    match m !! d with
    | Some b => let '(out, d', m') := flush fuel (d + 1) (delete d m) in (b :: out, d', m')
    | None => ([], d, m)
    end
  end.

Definition abs_recv (d : Z) (m : gmap Z (list Z)) (c : Z) (b : list Z)
  : list (list Z) * Z * gmap Z (list Z) :=
  if (c <? d) || bool_decide (is_Some (m !! c)) then ([], d, m)
  else
    let m' := <[c := b]> m in
    if c =? d then flush (size m') d m' else ([], d, m').

(** The map that a receive list stands for. *)
Definition abs_list (l : list nr_pdcp_sdu_t) : gmap Z (list Z) :=
  list_to_map ((fun s => (psdu_count s, psdu_buffer s)) <$> l).

Lemma abs_list_cons s l : abs_list (s :: l) = <[psdu_count s := psdu_buffer s]> (abs_list l).
Proof. done. Qed.

Lemma abs_list_none l c : Forall (fun s => psdu_count s <> c) l -> abs_list l !! c = None.
Proof.
  induction 1 as [|s l Hs _ IH]; [done|]. rewrite abs_list_cons. by rewrite lookup_insert_ne.
Qed.

Lemma in_list_abs l c : nr_pdcp_sdu_in_list l c = bool_decide (is_Some (abs_list l !! c)).
Proof.
  induction l as [|s l IH]; cbn [nr_pdcp_sdu_in_list]; [done|]. rewrite abs_list_cons.
  destruct (Z.eqb_spec (psdu_count s) c) as [<-|Hne].
  - rewrite lookup_insert_eq. by rewrite bool_decide_true.
  - by rewrite lookup_insert_ne.
Qed.

Lemma not_in_list l c : nr_pdcp_sdu_in_list l c = false -> Forall (fun s => psdu_count s <> c) l.
Proof.
  induction l as [|s l IH]; cbn; [done|]. destruct (Z.eqb_spec (psdu_count s) c); [done|].
  intros. constructor; auto.
Qed.

Lemma sorted_nodup l : StronglySorted count_lt l -> NoDup (psdu_count <$> l).
Proof.
  induction 1 as [|s l _ IH Hall]; cbn; constructor; [|done].
  intros Hin. apply list_elem_of_fmap in Hin as (t & E & Ht). rewrite Forall_forall in Hall.
  apply list_elem_of_In, Hall in Ht. unfold count_lt in Ht. lia.
Qed.

Lemma abs_list_perm l1 l2 :
  StronglySorted count_lt l1 -> Permutation l1 l2 -> abs_list l1 = abs_list l2.
Proof.
  intros Hs Hp. apply list_to_map_proper; [|by rewrite Hp].
  rewrite <- list_fmap_compose. by apply sorted_nodup.
Qed.

Lemma abs_list_size l : StronglySorted count_lt l -> size (abs_list l) = length l.
Proof.
  intros Hs. unfold abs_list. rewrite <- (length_fmap (fun s => (psdu_count s, psdu_buffer s)) l).
  apply map_size_list_to_map. rewrite <- list_fmap_compose. by apply sorted_nodup.
Qed.

Lemma pdcp_list_add_sorted l s :
  Forall (fun t => psdu_count t <> psdu_count s) l -> StronglySorted count_lt l ->
  StronglySorted count_lt (nr_pdcp_sdu_list_add l s).
Proof.
  intros Hne Hs. unfold nr_pdcp_sdu_list_add. apply insert_before_sorted; [| | |done]; unfold count_lt.
  - intros y z Hyz Hy. b2p. lia.
  - intros y Hy. by b2p.
  - intros y Hin Hy. b2p. rewrite Forall_forall in Hne. apply list_elem_of_In, Hne in Hin. lia.
Qed.

(** The delivery loop removes the run of consecutive COUNTs that the specification
    flushes. *)
Lemma deliver_run_flush B l : forall c fuel,
  0 <= c -> B < 2 ^ 32 -> c <= B ->
  StronglySorted count_lt l -> Forall (fun s => c <= psdu_count s < B) l -> (length l <= fuel)%nat ->
  let '(out, l', n, c') := deliver_run l c in
  flush fuel c (abs_list l) = (out, c', abs_list l') /\
  c <= c' <= B /\ StronglySorted count_lt l' /\ Forall (fun s => c' < psdu_count s < B) l' /\
  n = sumZ psdu_size l - sumZ psdu_size l'.
Proof.
  induction l as [|s l IH]; intros c fuel Hc HB HcB Hs Hall Hf; cbn [deliver_run].
  { destruct fuel; cbn; (split; [done|]); (split; [lia|]); done. }
  inversion_clear Hs as [|? ? Hs' Hlt]. inversion_clear Hall as [|? ? Hsc Hall'].
  destruct fuel as [|fuel]; cbn in Hf; [lia|]. cbn [flush]. rewrite abs_list_cons.
  destruct (Z.eqb_spec c (psdu_count s)) as [E|E].
  - rewrite <- E in *. rewrite lookup_insert_eq, u32_small by lia.
    assert (Hgt : Forall (fun t => c + 1 <= psdu_count t < B) l).
    { rewrite Forall_forall in Hlt, Hall' |- *. intros t Ht. specialize (Hlt t Ht).
      specialize (Hall' t Ht). unfold count_lt in Hlt. lia. }
    rewrite delete_insert_id.
    2: { apply abs_list_none. eapply List.Forall_impl; [|exact Hgt]. cbn. intros; lia. }
    specialize (IH (c + 1) fuel). destruct (deliver_run l (c + 1)) as [[[out l'] n] c'].
    destruct IH as (-> & Hc' & Hs'' & Hall'' & ->); [lia|lia|lia|done|done|lia|].
    split; [done|]. split; [lia|]. split; [done|]. split; [done|]. cbn. lia.
  - rewrite lookup_insert_ne by done.
    assert (Hgt : Forall (fun t => c < psdu_count t < B) (s :: l)).
    { constructor; [lia|]. rewrite Forall_forall in Hlt, Hall' |- *. intros t Ht. specialize (Hlt t Ht).
      specialize (Hall' t Ht). unfold count_lt in Hlt. lia. }
    rewrite abs_list_none.
    + split; [done|]. split; [lia|]. split; [by constructor|]. split; [done|]. cbn. lia.
    + inversion_clear Hgt as [|? ? _ Hgt']. eapply List.Forall_impl; [|exact Hgt']. cbn. intros; lia.
Qed.

Lemma reorder_timers_wf e :
  pdcp_conf e -> 0 <= p_rx_deliv e <= p_rx_next e -> p_rx_next e < 2 ^ 32 ->
  StronglySorted count_lt (p_rx_list e) ->
  Forall (fun s => p_rx_deliv e < psdu_count s < p_rx_next e) (p_rx_list e) ->
  (p_t_reordering_start e <> 0 -> p_rx_reord e <= p_rx_next e) ->
  pdcp_wf (reorder_timers e).
Proof.
  intros Hc Hd Hn Hs Hf Ht. unfold reorder_timers.
  destruct (Z.eqb_spec (p_t_reordering_start e) 0) as [E|E]; cbn [negb andb].
  - rewrite E. cbn [Z.eqb andb]. destruct (Z.ltb_spec (p_rx_deliv e) (p_rx_next e));
      unfold pdcp_wf, pdcp_conf in *; pdcp_simpl; do 5 (split; [done|]); [lia|congruence].
  - rewrite Z.geb_leb. destruct (Z.leb_spec (p_rx_reord e) (p_rx_deliv e)); pdcp_simpl.
    + cbn [Z.eqb andb]. destruct (Z.ltb_spec (p_rx_deliv e) (p_rx_next e));
        unfold pdcp_wf, pdcp_conf in *; pdcp_simpl; do 5 (split; [done|]); [lia|congruence].
    + destruct (Z.eqb_spec (p_t_reordering_start e) 0); [done|]. cbn [andb].
      unfold pdcp_wf. do 5 (split; [done|]). intros _. split; [lia|auto].
Qed.

Lemma reorder_timers_keep e :
  p_rx_deliv (reorder_timers e) = p_rx_deliv e /\ p_rx_list (reorder_timers e) = p_rx_list e /\
  p_events (reorder_timers e) = p_events e /\ p_rx_next (reorder_timers e) = p_rx_next e.
Proof.
  unfold reorder_timers.
  destruct (negb _ && _); pdcp_simpl; destruct (_ && _); pdcp_simpl; done.
Qed.

(** Adding an SDU that is not there yet. *)
Lemma abs_list_add l s :
  StronglySorted count_lt l -> nr_pdcp_sdu_in_list l (psdu_count s) = false ->
  abs_list (nr_pdcp_sdu_list_add l s) = <[psdu_count s := psdu_buffer s]> (abs_list l) /\
  StronglySorted count_lt (nr_pdcp_sdu_list_add l s) /\
  Permutation (nr_pdcp_sdu_list_add l s) (s :: l).
Proof.
  intros Hs Hin. pose proof (not_in_list _ _ Hin) as Hne.
  pose proof (pdcp_list_add_sorted l s Hne Hs) as Hs'. split; [|split; [done|apply insert_before_perm]].
  rewrite <- abs_list_cons. apply abs_list_perm; [done|apply insert_before_perm].
Qed.

(** [recv_count] implements [abs_recv] and keeps the invariant. *)
Lemma recv_count_refines e c payload sz hs isz :
  pdcp_wf e -> 0 <= c < 2 ^ 32 - 1 ->
  let '(out, d, m) := abs_recv (p_rx_deliv e) (abs_list (p_rx_list e)) c
                        (take (Z.to_nat (sz - hs - isz)) payload) in
  let e' := recv_count e c payload sz hs isz in
  p_rx_deliv e' = d /\ abs_list (p_rx_list e') = m /\
  p_events e' = p_events e ++ (pdcp_deliver_sdu <$> out) /\ pdcp_wf e'.
Proof.
  intros Hwf Hc. unfold abs_recv, recv_count. rewrite <- in_list_abs.
  destruct (_ || nr_pdcp_sdu_in_list _ _) eqn:Hdisc; [by rewrite app_nil_r|]. b2p.
  destruct Hwf as (Hconf & Hd & Hn & Hs & Hf & Ht).
  set (s := nr_pdcp_new_sdu c payload (sz - hs - isz)).
  destruct (abs_list_add (p_rx_list e) s Hs) as (Habs & Hs' & Hperm); [done|].
  change (<[psdu_count s := psdu_buffer s]> (abs_list (p_rx_list e)))
    with (<[c := take (Z.to_nat (sz - hs - isz)) payload]> (abs_list (p_rx_list e))) in Habs.
  rewrite <- Habs. set (l := nr_pdcp_sdu_list_add (p_rx_list e) s) in *. pdcp_simpl.
  set (n := if c >=? p_rx_next e then u32 (c + 1) else p_rx_next e).
  assert (Hn' : p_rx_next e <= n < 2 ^ 32 /\ c < n).
  { subst n. rewrite Z.geb_leb. destruct (Z.leb_spec (p_rx_next e) c); [rewrite u32_small by lia|]; lia. }
  assert (Hl : Forall (fun t => p_rx_deliv e <= psdu_count t < n) l).
  { eapply Permutation_Forall; [symmetry; exact Hperm|]. constructor; [cbn; lia|].
    eapply List.Forall_impl; [|exact Hf]. cbn. intros; lia. }
  set (e1 := if c >=? p_rx_next e then _ else _).
  assert (He1 : e1 = e <| p_rx_list := l |> <| p_rx_size := p_rx_size e + (sz - hs) |>
                       <| p_rx_next := n |>).
  { subst e1 n. destruct (c >=? p_rx_next e); [done|]. by destruct e. }
  rewrite He1. clear He1 e1. pdcp_simpl.
  destruct (Z.eqb_spec c (p_rx_deliv e)) as [E|E].
  - rewrite abs_list_size by done.
    pose proof (deliver_run_flush n l (p_rx_deliv e) (length l)) as Hrun.
    destruct (deliver_run l (p_rx_deliv e)) as [[[out l'] k] c'].
    destruct Hrun as (-> & Hc' & Hs'' & Hf'' & _); [lia|lia|lia|done|done|lia|].
    set (e2 := _ <| p_rx_deliv := c' |>). destruct (reorder_timers_keep e2) as (-> & -> & -> & _).
    split; [done|]. split; [done|]. split; [done|].
    apply reorder_timers_wf; subst e2; unfold pdcp_conf, deliver_all in *; pdcp_simpl; try done; lia.
  - set (e2 := _ <| p_rx_next := n |>). destruct (reorder_timers_keep e2) as (-> & -> & -> & _).
    split; [done|]. split; [done|]. split; [by rewrite app_nil_r|].
    apply reorder_timers_wf; subst e2; unfold pdcp_conf in *; pdcp_simpl; try done; try lia.
    eapply Permutation_Forall; [symmetry; exact Hperm|]. constructor; [cbn; lia|].
      eapply List.Forall_impl; [|exact Hf]. cbn. intros; lia.
Qed.

(** ** The reordering timer *)

Lemma deliver_below_spec l r :
  StronglySorted count_lt l ->
  let '(out, l', n) := deliver_below l r in
  out = psdu_buffer <$> filter (fun s => psdu_count s < r) l /\
  l' = filter (fun s => r <= psdu_count s) l.
Proof.
  induction 1 as [|s l Hs IH Hall]; cbn [deliver_below]; [done|].
  destruct (Z.ltb_spec (psdu_count s) r) as [Hlt|Hge].
  - destruct (deliver_below l r) as [[out l'] n]. destruct IH as [-> ->].
    rewrite !list.filter_cons, decide_True, decide_False by lia. done.
  - assert (Hge' : Forall (fun t => r <= psdu_count t) (s :: l)).
    { constructor; [done|]. eapply List.Forall_impl; [|exact Hall]. unfold count_lt. cbn. intros; lia. }
    rewrite filter_none, filter_all; [done|done|].
    eapply List.Forall_impl; [|exact Hge']. cbn. intros; lia.
Qed.

(** ** Header of a data PDU *)

Lemma encode_decode_sn s r sn tl :
  pdcp_conf r -> p_sn_size s = p_sn_size r -> 0 <= sn < 2 ^ p_sn_size r ->
  decode_sn r (encode_header s sn ++ tl) = Ok (sn, Z.of_nat (length (encode_header s sn))).
Proof.
  intros (Hs & _) Hsz Hsn. unfold decode_sn, encode_header. rewrite Hsz.
  set (dc := if bool_decide _ then 0 else 0x80).
  assert (Hdc : Z.land dc 0xf = 0 /\ Z.land dc 0x3 = 0) by (subst dc; by destruct (bool_decide _)).
  destruct Hdc as [Hdc1 Hdc2].
  assert (Hmod : forall x k, 0 <= k -> Z.land x (2 ^ k - 1) = x mod 2 ^ k) by apply land_ones_mod.
  pose proof (fun x => Hmod x 2) as H2. pose proof (fun x => Hmod x 4) as H4.
  pose proof (fun x => Hmod x 8) as H8. cbn in H2, H4, H8.
  destruct Hs as [Hs|Hs]; rewrite Hs in *; cbn [Z.eqb Pos.eqb app length].
  - rewrite Z.land_lor_distr_l, Hdc1, Z.lor_0_l, <- Z.land_assoc. cbn [Z.land Pos.land].
    rewrite H4, H8, Z.shiftr_div_pow2 by lia. do 2 f_equal.
    rewrite lor_shiftl_add by (try apply Z.mod_pos_bound; lia).
    pose proof (Z_div_mod_eq_full sn (2 ^ 8)).
    rewrite (Z.mod_small (sn / 2 ^ 8)); [lia|]. split; [apply Z.div_pos; lia|].
    apply Z.div_lt_upper_bound; lia.
  - rewrite Z.land_lor_distr_l, Hdc2, Z.lor_0_l, <- Z.land_assoc. cbn [Z.land Pos.land].
    rewrite H2, !H8, !Z.shiftr_div_pow2 by lia. do 2 f_equal.
    pose proof (Z.mod_pos_bound (sn / 2 ^ 8) (2 ^ 8)). pose proof (Z.mod_pos_bound sn (2 ^ 8)).
    rewrite <- Z.lor_assoc, (lor_shiftl_add (sn / 2 ^ 8 mod 2 ^ 8)) by lia.
    rewrite lor_shiftl_add by lia.
    pose proof (Z_div_mod_eq_full sn (2 ^ 8)). pose proof (Z_div_mod_eq_full (sn / 2 ^ 8) (2 ^ 8)).
    rewrite Z.div_div in * by lia. change (2 ^ 8 * 2 ^ 8) with (2 ^ 16) in *.
    rewrite (Z.mod_small (sn / 2 ^ 16)); [lia|]. split; [apply Z.div_pos; lia|].
    apply Z.div_lt_upper_bound; lia.
Qed.

(** ** Security contexts *)

(** A security function is only called with the context it needs, and what is
    allocated can be freed. *)
Definition sec_ok (e : nr_pdcp_entity_t) : Prop :=
  (p_has_ciphering e = true -> is_Some (p_security_context e)) /\
  (p_has_integrity e = true -> is_Some (p_integrity_context e)) /\
  (is_Some (p_security_context e) <-> p_free_security e = true) /\
  (is_Some (p_integrity_context e) <-> p_free_integrity e = true).

Lemma set_integrity_ok e a :
  sec_ok e ->
  match set_integrity e a with
  | Ok e' => sec_ok e' /\ (a = -1 \/ p_has_integrity e' = negb (a =? 0)) /\
             p_has_ciphering e' = p_has_ciphering e
  | Exit => a <> 0 /\ a <> -1 /\ a <> 2
  | Fault _ => False
  end.
Proof.
  intros (H1 & H2 & H3 & H4). unfold set_integrity.
  destruct (Z.eqb_spec a 0) as [->|Ha].
  - pdcp_simpl. destruct (p_free_integrity e) eqn:E; pdcp_simpl; (split; [|by split; [right|]]);
      unfold sec_ok; pdcp_simpl.
    + split; [done|]. split; [done|]. split; [done|]. split; [by intros []|done].
    + split; [done|]. split; [done|]. split; [done|]. exact H4.
  - destruct (Z.eqb_spec a (-1)) as [->|Hm]; cbn [negb]; [by split; [|split; [left|]]|].
    destruct (Z.eqb_spec a 2); cbn [negb]; [|done].
    split; [|by split; [right|]]. unfold sec_ok. pdcp_simpl. do 3 (split; [done|]). done.
Qed.

Lemma set_ciphering_ok e a :
  sec_ok e ->
  match set_ciphering e a with
  | Ok e' => sec_ok e' /\ (a = -1 \/ p_has_ciphering e' = negb (a =? 0)) /\
             p_has_integrity e' = p_has_integrity e
  | Exit => a <> 0 /\ a <> -1 /\ a <> 2
  | Fault _ => False
  end.
Proof.
  intros (H1 & H2 & H3 & H4). unfold set_ciphering.
  destruct (Z.eqb_spec a 0) as [->|Ha].
  - pdcp_simpl. destruct (p_free_security e) eqn:E; pdcp_simpl; (split; [|by split; [right|]]);
      unfold sec_ok; pdcp_simpl.
    + split; [done|]. split; [done|]. split; [|done]. split; [by intros []|done].
    + split; [done|]. split; [done|]. split; [|done]. exact H3.
  - destruct (Z.eqb_spec a (-1)) as [->|Hm]; cbn [negb]; [by split; [|split; [left|]]|].
    destruct (Z.eqb_spec a 2); cbn [negb]; [|done].
    split; [|by split; [right|]]. unfold sec_ok. pdcp_simpl. do 3 (split; [done|]). done.
Qed.

(** ** Transfer of an SDU *)

Section Transfer.

Variable ctr_crypt : list Z -> list Z -> list Z -> list Z.
Variable cmac : list Z -> list Z -> list Z.

Lemma check_integrity_total e buf c : sec_ok e -> exists b, check_integrity cmac e buf c = Ok b.
Proof.
  intros (_ & H & _). unfold check_integrity. destruct (p_has_integrity e); [|by eexists].
  destruct H as [k ->]; [done|]. by eexists.
Qed.

Lemma apply_cipher_total e buf hs c d :
  sec_ok e -> exists b, apply_cipher ctr_crypt e buf hs c d = Ok b.
Proof.
  intros (H & _). unfold apply_cipher. destruct (p_has_ciphering e); [|by eexists].
  destruct H as [k ->]; [done|]. by eexists.
Qed.

(** Counter mode XORs a key stream: it keeps the length and is its own inverse. *)
Hypothesis ctr_length : forall k t d, length (ctr_crypt k t d) = length d.
Hypothesis ctr_inverse : forall k t d, ctr_crypt k t (ctr_crypt k t d) = d.
(** AES-CMAC yields 16 bytes. *)
Hypothesis cmac_length : forall k d, length (cmac k d) = 16%nat.

(** Two entities at the ends of one bearer. *)
Definition peers (s r : nr_pdcp_entity_t) : Prop :=
  p_type s = p_type r /\ p_sn_size s = p_sn_size r /\ p_sn_max s = p_sn_max r /\
  p_rb_id s = p_rb_id r /\ p_is_gnb s = negb (p_is_gnb r) /\
  p_has_ciphering s = p_has_ciphering r /\ p_has_integrity s = p_has_integrity r /\
  p_security_context s = p_security_context r /\ p_integrity_context s = p_integrity_context r.

Lemma peers_direction s r : peers s r -> tx_direction s = rx_direction r.
Proof.
  intros (_ & _ & _ & _ & Hg & _). unfold tx_direction, rx_direction. rewrite Hg.
  by destruct (p_is_gnb r).
Qed.

Lemma peers_integrity_size s r : peers s r -> integrity_size_of s = integrity_size_of r.
Proof.
  intros (Ht & _ & _ & _ & _ & _ & Hi & _). unfold integrity_size_of. by rewrite Ht, Hi.
Qed.

Lemma mac_i_ok s buf c :
  sec_ok s -> exists mac, mac_i cmac s buf c = Ok mac /\ Z.of_nat (length mac) = integrity_size_of s.
Proof.
  intros (_ & H & _). unfold mac_i, integrity_size_of. destruct (p_has_integrity s); cbn [orb].
  - destruct H as [k ->]; [done|]. eexists. split; [done|].
    unfold nr_pdcp_integrity_nia2_integrity. by rewrite length_take, cmac_length.
  - destruct (bool_decide _); cbn [Z.eqb Pos.eqb]; by eexists.
Qed.

(** Deciphering undoes ciphering. *)
Lemma cipher_roundtrip s r h d c buf :
  peers s r -> apply_cipher ctr_crypt s (h ++ d) (Z.of_nat (length h)) c (tx_direction s) = Ok buf ->
  (exists x, buf = h ++ x /\ length x = length d) /\
  apply_cipher ctr_crypt r buf (Z.of_nat (length h)) c (rx_direction r) = Ok (h ++ d).
Proof.
  intros Hp. pose proof (peers_direction s r Hp) as Hdir.
  destruct Hp as (_ & _ & _ & Hrb & _ & Hc & _ & Hctx & _). unfold apply_cipher. rewrite Hc, Hctx, Hrb, Hdir.
  destruct (p_has_ciphering r); [|intros [= <-]; split; [by exists d|done]].
  destruct (p_security_context r) as [k|]; [|done]. intros [= <-].
  rewrite Nat2Z.id, take_app_length, drop_app_length. split.
  - eexists. split; [done|]. apply ctr_length.
  - rewrite take_app_length, drop_app_length. unfold nr_pdcp_security_nea2_cipher.
    by rewrite ctr_inverse.
Qed.

(** The header as the receiver sees it: for a data bearer its first bit is set. *)
Lemma header_data_bit s sn tl b0 rest :
  encode_header s sn ++ tl = b0 :: rest ->
  bool_decide (p_type s <> NR_PDCP_SRB) && (Z.land b0 0x80 =? 0) = false.
Proof.
  unfold encode_header. destruct (p_sn_size s =? 12); cbn [app]; intros [= <- _];
    destruct (p_type s); try done; cbn [bool_decide decide]; apply andb_false_iff; right;
    apply Z.eqb_neq; rewrite Z.land_lor_distr_l; cbn; intros E;
    apply Z.lor_eq_0_l in E; discriminate E.
Qed.

(** What the receiver does with a PDU of its peer. *)
Lemma recv_pdu_of_peer s r sdu c pdu mac :
  peers s r -> pdcp_conf r -> sec_ok r -> sdu <> [] ->
  mac_i cmac s (encode_header s (Z.land c (p_sn_max s)) ++ sdu) c = Ok mac ->
  Z.of_nat (length mac) = integrity_size_of s -> 0 <= c ->
  rcvd_count_of r (Z.land c (p_sn_max r)) = c ->
  apply_cipher ctr_crypt s (encode_header s (Z.land c (p_sn_max s)) ++ sdu ++ mac)
    (Z.of_nat (length (encode_header s (Z.land c (p_sn_max s))))) c (tx_direction s) = Ok pdu ->
  exists sz hs, nr_pdcp_entity_recv_pdu ctr_crypt cmac r pdu =
    Ok (recv_count r c (sdu ++ mac) sz hs (integrity_size_of r)) /\
    sz - hs - integrity_size_of r = Z.of_nat (length sdu).
Proof.
  intros Hp Hconf Hsec Hne Hmac Hml Hc0 Hcnt Hciph.
  set (sn := Z.land c (p_sn_max s)) in *. set (h := encode_header s sn) in *.
  destruct (cipher_roundtrip s r h (sdu ++ mac) c pdu Hp Hciph) as [(x & -> & Hx) Hdec].
  assert (Hsn : 0 <= sn < 2 ^ p_sn_size r).
  { subst sn. destruct Hp as (_ & _ & -> & _). destruct Hconf as (Hs & -> & _).
    rewrite land_ones_mod by lia. apply Z.mod_pos_bound. lia. }
  pose proof (encode_decode_sn s r sn x Hconf ltac:(apply Hp) Hsn) as Hdsn. fold h in Hdsn.
  destruct (h ++ x) as [|b0 rest] eqn:Ehx.
  { apply app_eq_nil in Ehx as [Eh _]. subst h. unfold encode_header in Eh.
    by destruct (p_sn_size s =? 12). }
  pose proof (header_data_bit s sn x b0 rest Ehx) as Hbit.
  assert (Ht : p_type s = p_type r) by apply Hp. rewrite Ht in Hbit.
  unfold nr_pdcp_entity_recv_pdu. rewrite Hbit, Hdsn. cbn [rbind].
  rewrite <- Ehx, length_app, Hx, length_app.
  assert (0 < Z.of_nat (length sdu)) by (destruct sdu; [done|cbn; lia]).
  rewrite <- (peers_integrity_size s r Hp).
  destruct (Z.ltb_spec (Z.of_nat (length h + (length sdu + length mac)))
              (Z.of_nat (length h) + integrity_size_of s + 1)); [lia|].
  assert (Hsnr : rcvd_count_of r sn = c) by (subst sn; destruct Hp as (_ & _ & -> & _); done).
  rewrite <- Ehx in Hdec. rewrite Hsnr, Hdec. cbn [rbind].
  destruct (check_integrity_total r (h ++ sdu ++ mac) c Hsec) as [b ->]. cbn [rbind].
  rewrite Nat2Z.id, drop_app_length. eexists _, _. split; [done|]. lia.
Qed.

End Transfer.

(** ** Properties *)

(** COUNT recovery.  From the SN alone, the receiver recovers the whole 32-bit
    COUNT of any PDU that lies within half the SN space of RX_DELIV, across
    hyperframe boundaries in both directions. *)
Theorem pdcp_count_recovered (e : nr_pdcp_entity_t) (c : Z) :
  pdcp_conf e -> 0 <= p_rx_deliv e < 2 ^ 32 -> 0 <= c < 2 ^ 32 ->
  p_rx_deliv e - p_window_size e <= c < p_rx_deliv e + p_window_size e ->
  rcvd_count_of e (Z.land c (p_sn_max e)) = c.
Proof. apply rcvd_count_window. Qed.

(** A bearer without security, 12-bit SNs. *)
Definition plain_pdcp (is_gnb : bool) : nr_pdcp_entity_t :=
  match new_nr_pdcp_entity NR_PDCP_DRB_AM is_gnb 1 1 0 0 0 12 100 (-1) 0 0 None None with
  | Ok e => e
  | _ => mk_pdcp NR_PDCP_SRB 0 0 0 0 0 0 0 0 0 0 0 0 0 0 0 0 false false 0 0 [] [] None false None
           false false [] 0 0 []
  end.

Lemma plain_pdcp_conf g : pdcp_conf (plain_pdcp g).
Proof. split; [by left|]. by split. Qed.

Lemma pdcp_count_recovered_witness :
  let e := (plain_pdcp true) <| p_rx_deliv := 4090 |> in
  rcvd_count_of e (Z.land 4100 (p_sn_max e)) = 4100.
Proof.
  intros e. apply (pdcp_count_recovered ((plain_pdcp true) <| p_rx_deliv := 4090 |>) 4100).
  - split; [left; reflexivity|split; reflexivity].
  - cbn. lia.
  - lia.
  - change (p_window_size ((plain_pdcp true) <| p_rx_deliv := 4090 |>)) with 2048. cbn. lia.
Defined.

Lemma integrity_size_bound e : 0 <= integrity_size_of e <= 4.
Proof. unfold integrity_size_of. destruct (_ || _); lia. Qed.

(** What a PDU says: its SN, and the SDU behind the header when it is read under the COUNT [c]. *)
Definition header_bytes (e : nr_pdcp_entity_t) : nat := if p_sn_size e =? 12 then 2 else 3.

Definition sn_bytes (e : nr_pdcp_entity_t) (buffer : list Z) : Z :=
  match buffer with
  | b0 :: b1 :: b2 :: _ => if p_sn_size e =? 12 then b0 mod 16 * 2 ^ 8 + b1 else b0 mod 4 * 2 ^ 16 + b1 * 2 ^ 8 + b2
  | _ => -1
  end.

Definition sdu_read (ctr_crypt : list Z -> list Z -> list Z -> list Z) (e : nr_pdcp_entity_t) (buffer : list Z) (c : Z) : list Z :=
  let body := drop (header_bytes e) buffer in
  let clear :=
    match p_security_context e with
    | Some key => if p_has_ciphering e then nr_pdcp_security_nea2_cipher ctr_crypt key body (p_rb_id e) c (rx_direction e) else body
    | None => body
    end in
  take (length buffer - header_bytes e - Z.to_nat (integrity_size_of e)) clear.

(** The D/C bit is not part of the SN. *)
Lemma lor_128_mod b k : 0 <= k <= 7 -> Z.lor b 128 mod 2 ^ k = b mod 2 ^ k.
Proof.
  intros Hk. rewrite <- !Z.land_ones by lia. rewrite Z.land_lor_distr_l. change 128 with (2 ^ 7). rewrite <- (Z.shiftl_1_l 7).
  assert (E : Z.land (Z.shiftl 1 7) (Z.ones k) = 0) by (rewrite Z.land_ones, Z.shiftl_1_l by lia; apply Z.mod_divide; [lia|]; exists (2 ^ (7 - k)); rewrite <- Z.pow_add_r by lia; f_equal; lia).
  by rewrite E, Z.lor_0_r.
Qed.

Lemma decode_sn_bytes e b0 b1 b2 tl :
  pdcp_conf e -> 0 <= b1 < 256 -> 0 <= b2 < 256 ->
  decode_sn e (b0 :: b1 :: b2 :: tl) = Ok (sn_bytes e (b0 :: b1 :: b2 :: tl), Z.of_nat (header_bytes e)).
Proof.
  intros (Hs & _) H1 H2. unfold decode_sn, sn_bytes, header_bytes. destruct Hs as [-> | ->]; cbn [Z.eqb Pos.eqb].
  - change 0xf with (2 ^ 4 - 1). rewrite land_ones_mod, lor_shiftl_add by lia. done.
  - change 0x3 with (2 ^ 2 - 1). rewrite land_ones_mod by lia. rewrite (lor_shiftl_add _ (Z.shiftl b1 8) 16) by (rewrite ?Z.shiftl_mul_pow2 by lia; lia).
    rewrite Z.shiftl_mul_pow2 by lia. change (2 ^ 2) with 4. set (x := b0 mod 4 * 2 ^ 16 + b1 * 2 ^ 8).
    replace x with ((b0 mod 4 * 2 ^ 8 + b1) * 2 ^ 8) by (unfold x; lia). rewrite <- Z.shiftl_mul_pow2, lor_shiftl_add by lia. by rewrite Z.shiftl_mul_pow2 by lia.
Qed.

Lemma sn_bytes_dc e b0 tl : pdcp_conf e -> sn_bytes e (Z.lor b0 128 :: tl) = sn_bytes e (b0 :: tl).
Proof.
  intros _. unfold sn_bytes. destruct tl as [|b1 [|b2 tl]]; try done. pose proof (lor_128_mod b0 4 ltac:(lia)) as H4. pose proof (lor_128_mod b0 2 ltac:(lia)) as H2.
  change (2 ^ 4) with 16 in H4. change (2 ^ 2) with 4 in H2. by rewrite H4, H2.
Qed.

(** C6. The reordering queue refines its specification.  A PDU of three bytes or more is processed
    without fault.  One that is too short for its header, its MAC-I and a byte of data changes nothing.
    Any other is the SDU that its bytes give under the COUNT [c] that its SN has within half the
    SN space of RX_DELIV, and the entity makes exactly the abstract step for [c] and this SDU: an
    SDU that is old or stored already changes nothing, a new SDU is stored, and when the expected one
    arrives the SDUs of consecutive COUNTs are delivered in order.  The COUNT is from 0 to 2^32 - 2
    (below 0 the HFN wraps, [hfn_underflow]); as in the code, a wrong MAC-I has no effect
    ([integrity_failure_delivered]), so this is said of what the bytes give, whoever sent them. *)
Theorem pdcp_recv_pdu_refines (ctr_crypt : list Z -> list Z -> list Z -> list Z)
    (cmac : list Z -> list Z -> list Z) (e : nr_pdcp_entity_t) (buffer : list Z) :
  pdcp_wf e -> sec_ok e -> (3 <= length buffer)%nat -> Forall (fun b => 0 <= b < 256) buffer ->
  exists e', nr_pdcp_entity_recv_pdu ctr_crypt cmac e buffer = Ok e' /\
    if Z.of_nat (length buffer) <? Z.of_nat (header_bytes e) + integrity_size_of e + 1 then e' = e
    else forall c, 0 <= c < 2 ^ 32 - 1 -> p_rx_deliv e - p_window_size e <= c < p_rx_deliv e + p_window_size e ->
      c mod 2 ^ p_sn_size e = sn_bytes e buffer ->
      let '(out, d, m) := abs_recv (p_rx_deliv e) (abs_list (p_rx_list e)) c (sdu_read ctr_crypt e buffer c) in
      p_rx_deliv e' = d /\ abs_list (p_rx_list e') = m /\
      p_events e' = p_events e ++ (pdcp_deliver_sdu <$> out) /\ pdcp_wf e'.
Proof.
  intros Hwf Hsec Hlen Hby. destruct buffer as [|b0 [|b1 [|b2 tl]]]; cbn in Hlen; try lia. set (buffer := b0 :: b1 :: b2 :: tl).
  pose proof Hwf as (Hconf & Hd & Hd2 & _). do 3 apply list.Forall_cons in Hby as [? Hby]. unfold nr_pdcp_entity_recv_pdu.
  unfold buffer at 1. fold buffer. cbv match. set (buf := if _ && _ then _ else _).
  assert (Hbuf : exists a, buf = a :: b1 :: b2 :: tl /\ decode_sn e buf = Ok (sn_bytes e buffer, Z.of_nat (header_bytes e))).
  { subst buf. destruct (_ && _); eexists; (split; [reflexivity|]); [|by apply decode_sn_bytes].
    rewrite decode_sn_bytes, sn_bytes_dc by done. done. }
  destruct Hbuf as (a & Ebuf & ->). cbn [rbind]. destruct (_ <? _) eqn:Hsz; [by exists e|]. apply Z.ltb_ge in Hsz.
  set (rc := rcvd_count_of e (sn_bytes e buffer)).
  destruct (apply_cipher_total ctr_crypt e buf (Z.of_nat (header_bytes e)) rc (rx_direction e) Hsec) as [pl Epl]. rewrite Epl. cbn [rbind].
  destruct (check_integrity_total cmac e pl rc Hsec) as [? ->]. cbn [rbind]. eexists. split; [done|]. intros c Hc Hw Hmod.
  assert (Ec : rc = c).
  { unfold rc. rewrite <- Hmod. pose proof (rcvd_count_window e c Hconf ltac:(lia) ltac:(lia) Hw) as Hr. destruct Hconf as (Hs & Hmax & _). rewrite Hmax, land_ones_mod in Hr by lia. exact Hr. }
  rewrite Ec in *. pose proof (recv_count_refines e c (drop (Z.to_nat (Z.of_nat (header_bytes e))) pl) (Z.of_nat (length buffer)) (Z.of_nat (header_bytes e)) (integrity_size_of e) Hwf Hc) as Href.
  assert (Hsdu : take (Z.to_nat (Z.of_nat (length buffer) - Z.of_nat (header_bytes e) - integrity_size_of e)) (drop (Z.to_nat (Z.of_nat (header_bytes e))) pl) = sdu_read ctr_crypt e buffer c).
  { assert (Hdrop : drop (header_bytes e) buf = drop (header_bytes e) buffer) by (rewrite Ebuf; unfold buffer, header_bytes; by destruct (_ =? 12)).
    assert (Hh : (header_bytes e <= length buf)%nat) by (rewrite Ebuf; unfold header_bytes; destruct (_ =? 12); cbn; lia).
    unfold sdu_read. rewrite Nat2Z.id. f_equal; [pose proof (integrity_size_bound e); lia|]. unfold apply_cipher in Epl. rewrite Nat2Z.id, Hdrop in Epl.
    destruct (p_has_ciphering e), (p_security_context e); try discriminate Epl; injection Epl as <-; try exact Hdrop.
    by rewrite drop_app_length' by (rewrite length_take; lia). }
  rewrite Hsdu in Href. exact Href.
Qed.

Lemma plain_pdcp_wf g : pdcp_wf (plain_pdcp g).
Proof.
  split; [apply plain_pdcp_conf|]. cbn. split; [lia|]. split; [lia|].
  split; [constructor|]. split; [constructor|]. done.
Qed.

Lemma plain_pdcp_sec g : sec_ok (plain_pdcp g).
Proof. split; [done|]. split; [done|]. cbn. split; (split; [by intros []|done]). Qed.

(** The PDU with the expected SN, in a queue that holds the next one: both are delivered. *)
Lemma pdcp_recv_pdu_refines_witness :
  exists e1 e', nr_pdcp_entity_recv_pdu (fun _ _ d => d) (fun _ _ => replicate 16 0) (plain_pdcp true) [128; 1; 8] = Ok e1 /\
    p_events e1 = [] /\ nr_pdcp_entity_recv_pdu (fun _ _ d => d) (fun _ _ => replicate 16 0) e1 [128; 0; 7] = Ok e' /\
    p_events e' = [pdcp_deliver_sdu [7]; pdcp_deliver_sdu [8]].
Proof.
  destruct (pdcp_recv_pdu_refines (fun _ _ d => d) (fun _ _ => replicate 16 0) (plain_pdcp true) [128; 1; 8] (plain_pdcp_wf true) (plain_pdcp_sec true))
    as (e1 & E1 & H1); [cbn; lia|repeat constructor; lia|].
  specialize (H1 1 ltac:(lia) ltac:(vm_compute; split; congruence) eq_refl). destruct H1 as (_ & _ & V1 & Hwf1).
  assert (Hsec : sec_ok e1) by (vm_compute in E1; injection E1 as <-; exact (plain_pdcp_sec true)).
  destruct (pdcp_recv_pdu_refines (fun _ _ d => d) (fun _ _ => replicate 16 0) e1 [128; 0; 7] Hwf1 Hsec) as (e' & E' & _); [cbn; lia|repeat constructor; lia|].
  exists e1, e'. split; [exact E1|]. split; [exact V1|]. split; [exact E'|]. vm_compute in E1. injection E1 as <-. vm_compute in E'. injection E' as <-. reflexivity.
Defined.


(** A keyed involution in the place of counter mode and a constant MAC. *)
Definition toy_ctr (k t d : list Z) : list Z :=
  (fun x => Z.lxor x (default 0 (k !! 0%nat))) <$> d.

Lemma toy_ctr_inverse k t d : toy_ctr k t (toy_ctr k t d) = d.
Proof.
  unfold toy_ctr. rewrite <- list_fmap_compose. induction d as [|x d IH]; cbn; [done|].
  unfold compose in *. by rewrite Z.lxor_assoc, Z.lxor_nilpotent, Z.lxor_0_r, IH.
Qed.

(** A signalling bearer with both algorithms active. *)
Definition secure_pdcp (is_gnb : bool) : nr_pdcp_entity_t :=
  match new_nr_pdcp_entity NR_PDCP_SRB is_gnb 1 1 0 0 0 12 100 (-1) 2 2
          (Some (replicate 16 85)) (Some (replicate 16 3)) with
  | Ok e => e
  | _ => plain_pdcp is_gnb
  end.


(** Expiry of t-Reordering.  Every stored SDU below RX_REORD is delivered, in
    the order of COUNT, then the run that starts at RX_REORD; RX_DELIV moves to the
    first missing COUNT from RX_REORD on and the invariant is kept. *)
Theorem t_reordering_expiry (e : nr_pdcp_entity_t) :
  pdcp_wf e -> p_t_reordering e <> -1 -> reordering_expired e = true ->
  let below := filter (fun s => psdu_count s < p_rx_reord e) (p_rx_list e) in
  let above := filter (fun s => p_rx_reord e <= psdu_count s) (p_rx_list e) in
  let e' := check_t_reordering e in
  let '(out, d, m) := flush (length above) (p_rx_reord e) (abs_list above) in
  p_events e' = p_events e ++ (pdcp_deliver_sdu <$> ((psdu_buffer <$> below) ++ out)) /\
  p_rx_deliv e' = d /\ p_rx_reord e <= d /\ abs_list (p_rx_list e') = m /\ pdcp_wf e'.
Proof.
  intros (Hconf & Hd & Hn & Hs & Hf & Ht) Hinf Hexp. cbv zeta. unfold check_t_reordering, deliver_all.
  apply Z.eqb_neq in Hinf. rewrite Hinf, Hexp. cbn [negb]. pdcp_simpl.
  assert (Hr : p_rx_deliv e < p_rx_reord e <= p_rx_next e).
  { apply Ht. unfold reordering_expired in Hexp. b2p. done. }
  pose proof (deliver_below_spec (p_rx_list e) (p_rx_reord e) Hs) as Hb.
  destruct (deliver_below (p_rx_list e) (p_rx_reord e)) as [[out1 l1] n1]. destruct Hb as [-> ->].
  set (above := filter (fun s => p_rx_reord e <= psdu_count s) (p_rx_list e)). pdcp_simpl.
  assert (Ha : Forall (fun s => p_rx_reord e <= psdu_count s < p_rx_next e) above).
  { subst above. rewrite Forall_forall in Hf |- *. intros s Hin.
    apply list_elem_of_In, list_elem_of_filter in Hin as [? Hin]. apply list_elem_of_In, Hf in Hin. lia. }
  pose proof (deliver_run_flush (p_rx_next e) above (p_rx_reord e) (length above)) as Hrun.
  destruct (deliver_run above (p_rx_reord e)) as [[[out2 l2] n2] c2].
  destruct Hrun as (-> & Hc & Hs2 & Hf2 & _);
    [lia|lia|lia|by apply filter_sorted|done|lia|].
  pdcp_simpl. rewrite fmap_app, app_assoc.
  destruct (Z.ltb_spec c2 (p_rx_next e)); pdcp_simpl; (split; [done|]); (split; [done|]);
    (split; [lia|]); (split; [done|]); unfold pdcp_wf, pdcp_conf in *; pdcp_simpl;
    (split; [exact Hconf|]); (split; [lia|]); (split; [exact Hn|]); (split; [exact Hs2|]);
    (split; [exact Hf2|]); [lia|congruence].
Qed.

Lemma t_reordering_expiry_witness :
  let e := (plain_pdcp true) <| p_rx_list := [mk_psdu 2 [7] 1] |> <| p_rx_next := 3 |>
             <| p_rx_reord := 3 |> <| p_t_reordering_start := 10 |> <| p_t_current := 200 |> in
  p_events (check_t_reordering e) = [pdcp_deliver_sdu [7]] /\ p_rx_deliv (check_t_reordering e) = 3.
Proof.
  intros e. assert (Hwf : pdcp_wf e).
  { split; [split; [left; reflexivity|split; reflexivity]|]. cbn. split; [lia|]. split; [lia|].
    split; [repeat constructor|]. split; [repeat constructor; cbn; lia|]. lia. }
  destruct (t_reordering_expiry e Hwf) as (E1 & E2 & _).
  - discriminate.
  - reflexivity.
  - split; [exact E1|exact E2].
Defined.

(** Configuration of security.  [nr_pdcp_entity_set_security] keeps the rule that
    an active algorithm has a context and an allocated context can be freed (no
    leak, no use of a freed one); each algorithm given becomes active unless it is 0,
    and only an unsupported algorithm ends the program. *)
Theorem set_security_keeps_contexts (e : nr_pdcp_entity_t) (ia ca : Z) (ik ck : option (list Z)) :
  sec_ok e ->
  match nr_pdcp_entity_set_security e ia ik ca ck with
  | Ok e' => sec_ok e' /\ (ia = -1 \/ p_has_integrity e' = negb (ia =? 0)) /\
             (ca = -1 \/ p_has_ciphering e' = negb (ca =? 0))
  | Exit => (ia <> 0 /\ ia <> -1 /\ ia <> 2) \/ (ca <> 0 /\ ca <> -1 /\ ca <> 2)
  | Fault _ => False
  end.
Proof.
  intros Hsec. unfold nr_pdcp_entity_set_security.
  set (e1 := if negb (ia =? -1) then _ else e). set (e2 := if negb (ca =? -1) then _ else e1).
  cbv zeta. set (e4 := _ <| p_ciphering_key := _ |>).
  assert (Hsec4 : sec_ok e4).
  { subst e4 e2 e1. unfold sec_ok in *. destruct (negb (ia =? -1)), (negb (ca =? -1)); exact Hsec. }
  pose proof (set_integrity_ok e4 ia Hsec4) as Hi.
  destruct (set_integrity e4 ia) as [e5| |]; cbn [rbind]; [|by left|done].
  destruct Hi as (Hsec5 & Hi & _). pose proof (set_ciphering_ok e5 ca Hsec5) as Hc.
  destruct (set_ciphering e5 ca) as [e6| |]; [|by right|done].
  destruct Hc as (Hsec6 & Hc & Hkeep). split; [done|]. split; [|done]. by rewrite Hkeep.
Qed.

Lemma set_security_keeps_contexts_witness :
  match nr_pdcp_entity_set_security (plain_pdcp true) 2 (Some (replicate 16 1)) (-1) None with
  | Ok e' => sec_ok e' /\ (2 = -1 \/ p_has_integrity e' = true) /\
             (-1 = -1 \/ p_has_ciphering e' = true)
  | Exit => (2 <> 0 /\ 2 <> -1 /\ 2 <> 2) \/ (-1 <> 0 /\ -1 <> -1 /\ -1 <> 2)
  | Fault _ => False
  end.
Proof.
  apply (set_security_keeps_contexts (plain_pdcp true) 2 (-1) (Some (replicate 16 1)) None).
  exact (plain_pdcp_sec true).
Defined.
