(* ===== verification/UeManager.v ===== *)
(** UE managers of RLC and PDCP: [nr_rlc_ue_manager.c], [nr_pdcp_ue_manager.c] and
    the timer loop of [nr_pdcp_timer_thread.c].

    The two managers are the same code over two kinds of entities, so the model is
    generic in the entity type; what it needs of an entity is the class
    [ManagedEntity].  A UE is known to its callers by a pointer, here by its position
    in the list.  The mutex is not modelled: every function of these files is called
    with the lock held, one after the other. *)

From S2P Require Import Prelude.
From S2P Require Import RlcSdu.
From S2P Require Import RlcTm.
From S2P Require Import RlcEntity.
From S2P Require Import Pdcp.
From Stdlib Require Import Sorting.Permutation.

(** What a manager needs of the entities it owns: the [delete] function. *)
Class ManagedEntity (E : Type) := {
  freed_t : Type;
  delete_entity : E -> res freed_t
}.

Section Manager.

Context {E : Type} `{!ManagedEntity E}.

(** ** State *)

Record ue_t := mk_ue {
  ue_rnti : Z;
  srb : list (option E);
  drb : list (option E)
}.

#[export] Instance eta_ue : Eta ue_t := fun u => mk_ue (ue_rnti u) (srb u) (drb u).

(** [ue_count] is the length of [ue_list]. *)
Record ue_manager_internal_t := mk_manager {
  ue_list : list ue_t;
  enb_flag : bool
}.

#[export] Instance eta_manager : Eta ue_manager_internal_t :=
  fun m => mk_manager (ue_list m) (enb_flag m).

Definition new_ue_manager (flag : bool) : ue_manager_internal_t := mk_manager [] flag.

Definition manager_get_enb_flag (m : ue_manager_internal_t) : bool := enb_flag m.

(** A UE as [calloc] leaves it, with its RNTI set. *)
Definition new_ue (rnti : Z) : ue_t := mk_ue rnti (replicate 3 None) (replicate 5 None).

(** The [for] loop that looks for a UE. *)
Fixpoint find_ue (l : list ue_t) (rnti : Z) : option nat :=
  match l with
  | [] => None
  | u :: tl => if ue_rnti u =? rnti then Some 0%nat else S <$> find_ue tl rnti
  end.

Definition manager_get_ue (m : ue_manager_internal_t) (rnti : Z) : nat * ue_manager_internal_t :=
  match find_ue (ue_list m) rnti with
  | Some i => (i, m)
  | None => (length (ue_list m), m <| ue_list := ue_list m ++ [new_ue rnti] |>)
  end.

(** Delete the entities present among the given slots, in order. *)
Fixpoint delete_slots (l : list (option E)) : res (list E) :=
  match l with
  | [] => Ok []
  | None :: tl => delete_slots tl
  | Some e :: tl =>
    let* _ := delete_entity e in
    let* es := delete_slots tl in Ok (e :: es)
  end.

(** Returns the entities deleted. *)
Definition manager_remove_ue (m : ue_manager_internal_t) (rnti : Z)
  : res (list E * ue_manager_internal_t) :=
  match find_ue (ue_list m) rnti with
  | None => Ok ([], m)
  | Some i =>
    match ue_list m !! i with
    | None => Fault OutOfBounds
    | Some ue =>
      let* d1 := delete_slots (take 2 (srb ue)) in
      let* d2 := delete_slots (take 5 (drb ue)) in
      Ok (d1 ++ d2, m <| ue_list := take i (ue_list m) ++ drop (S i) (ue_list m) |>)
    end
  end.

Definition ue_add_srb_entity (ue : ue_t) (srb_id : Z) (entity : E) : res ue_t :=
  if (srb_id <? 1) || (srb_id >? 2) then Exit
  else
    match srb ue !! Z.to_nat (srb_id - 1) with
    | Some (Some _) => Exit
    | Some None => Ok (ue <| srb := <[Z.to_nat (srb_id - 1) := Some entity]> (srb ue) |>)
    | None => Fault OutOfBounds
    end.

Definition ue_add_drb_entity (ue : ue_t) (drb_id : Z) (entity : E) : res ue_t :=
  if (drb_id <? 1) || (drb_id >? 5) then Exit
  else
    match drb ue !! Z.to_nat (drb_id - 1) with
    | Some (Some _) => Exit
    | Some None => Ok (ue <| drb := <[Z.to_nat (drb_id - 1) := Some entity]> (drb ue) |>)
    | None => Fault OutOfBounds
    end.

(** ** Invariant and abstraction *)

(** The arrays have their sizes and the third SRB slot is never used. *)
Definition ue_wf (u : ue_t) : Prop :=
  length (srb u) = 3%nat /\ length (drb u) = 5%nat /\ srb u !! 2%nat = Some None.

Definition manager_wf (m : ue_manager_internal_t) : Prop :=
  NoDup (ue_rnti <$> ue_list m) /\ Forall ue_wf (ue_list m).

(** All entities of a UE. *)
Definition entities_of (u : ue_t) : list E := omap id (srb u ++ drb u).

(** The manager as a map from RNTIs to UEs. *)
Definition abs_manager (m : ue_manager_internal_t) : gmap Z ue_t :=
  list_to_map ((fun u => (ue_rnti u, u)) <$> ue_list m).

(** ** Lemmas *)

Lemma find_ue_spec l rnti :
  match find_ue l rnti with
  | Some i => exists u l1 l2, l = l1 ++ u :: l2 /\ length l1 = i /\ ue_rnti u = rnti /\
                Forall (fun v => ue_rnti v <> rnti) l1
  | None => Forall (fun v => ue_rnti v <> rnti) l
  end.
Proof.
  induction l as [|u l IH]; cbn [find_ue]; [done|].
  destruct (Z.eqb_spec (ue_rnti u) rnti) as [Eq|Ne]; [by exists u, [], l|].
  destruct (find_ue l rnti) as [i|]; cbn.
  - destruct IH as (v & l1 & l2 & -> & <- & Hv & Hl). exists v, (u :: l1), l2.
    split; [done|]. split; [done|]. split; [done|]. by constructor.
  - by constructor.
Qed.

Lemma fst_rnti l : ((fun u : ue_t => (ue_rnti u, u)) <$> l).*1 = ue_rnti <$> l.
Proof. rewrite <- list_fmap_compose. done. Qed.

Lemma abs_lookup_in m u :
  NoDup (ue_rnti <$> ue_list m) -> u ∈ ue_list m -> abs_manager m !! ue_rnti u = Some u.
Proof.
  intros Hnd Hin. apply elem_of_list_to_map; [by rewrite fst_rnti|].
  apply list_elem_of_fmap. by exists u.
Qed.

Lemma abs_lookup_none m rnti :
  Forall (fun v => ue_rnti v <> rnti) (ue_list m) -> abs_manager m !! rnti = None.
Proof.
  intros Hall. apply not_elem_of_list_to_map. rewrite fst_rnti. intros Hin.
  apply list_elem_of_fmap in Hin as (u & -> & Hu). rewrite Forall_forall in Hall.
  apply list_elem_of_In, Hall in Hu. done.
Qed.

Lemma new_ue_wf rnti : ue_wf (new_ue rnti).
Proof. done. Qed.

Lemma nodup_snoc l rnti :
  NoDup (ue_rnti <$> l) -> Forall (fun v => ue_rnti v <> rnti) l ->
  NoDup (ue_rnti <$> (l ++ [new_ue rnti])).
Proof.
  intros Hnd Hall. rewrite fmap_app. apply list.NoDup_app. split; [done|]. split; [|apply NoDup_singleton].
  intros x Hx Hr. apply list_elem_of_singleton in Hr as ->.
  apply list_elem_of_fmap in Hx as (u & Hu & Hin). rewrite Forall_forall in Hall.
  apply list_elem_of_In, Hall in Hin. done.
Qed.

Lemma abs_snoc l flag rnti :
  NoDup (ue_rnti <$> l) -> Forall (fun v => ue_rnti v <> rnti) l ->
  abs_manager (mk_manager (l ++ [new_ue rnti]) flag)
  = <[rnti := new_ue rnti]> (abs_manager (mk_manager l flag)).
Proof.
  intros Hnd Hall. change (<[rnti := new_ue rnti]> (abs_manager (mk_manager l flag)))
    with (abs_manager (mk_manager (new_ue rnti :: l) flag)).
  unfold abs_manager. cbn [ue_list]. apply list_to_map_proper.
  - rewrite fst_rnti. by apply nodup_snoc.
  - by rewrite (Permutation_app_comm l).
Qed.

Lemma abs_remove l1 u l2 flag :
  NoDup (ue_rnti <$> (l1 ++ u :: l2)) ->
  abs_manager (mk_manager (l1 ++ l2) flag)
  = delete (ue_rnti u) (abs_manager (mk_manager (l1 ++ u :: l2) flag)).
Proof.
  intros Hnd.
  assert (Habs : abs_manager (mk_manager (l1 ++ u :: l2) flag)
                 = <[ue_rnti u := u]> (abs_manager (mk_manager (l1 ++ l2) flag))).
  { change (<[ue_rnti u := u]> _) with (abs_manager (mk_manager (u :: l1 ++ l2) flag)).
    unfold abs_manager. cbn [ue_list]. apply list_to_map_proper; [by rewrite fst_rnti|].
    by rewrite <- Permutation_middle. }
  rewrite Habs, delete_insert_id; [done|]. apply abs_lookup_none. cbn [ue_list].
  rewrite fmap_app in Hnd. cbn in Hnd. apply list.NoDup_app in Hnd as (_ & Hd & Hnd2).
  apply list.NoDup_cons in Hnd2 as [Hu2 _]. apply Forall_app. split; apply Forall_forall; intros v Hv Heq.
  - apply (Hd (ue_rnti v)); [apply list_elem_of_fmap; exists v; split; [done|by apply list_elem_of_In]|].
    rewrite Heq. constructor.
  - apply Hu2. rewrite <- Heq. apply list_elem_of_fmap. exists v. split; [done|by apply list_elem_of_In].
Qed.

Lemma delete_slots_spec l es :
  delete_slots l = Ok es -> es = omap id l.
Proof.
  revert es. induction l as [|[e|] l IH]; intros es H; cbn [delete_slots] in H.
  - by injection H as <-.
  - destruct (delete_entity e); cbn [rbind] in H; [|done|done].
    destruct (delete_slots l) as [es'| |]; cbn [rbind] in H; [|done|done].
    injection H as <-. cbn. by rewrite (IH es' eq_refl).
  - by apply IH.
Qed.

Lemma omap_slots u :
  ue_wf u -> omap id (take 2 (srb u)) ++ omap id (take 5 (drb u)) = entities_of u.
Proof.
  intros (Hs & Hd & H2). unfold entities_of. rewrite omap_app.
  rewrite (take_ge (drb u)) by lia. f_equal.
  destruct (srb u) as [|a [|b [|c [|]]]]; cbn in Hs; try lia. cbn in H2. injection H2 as ->.
  by destruct a, b.
Qed.

Lemma manager_get_ue_spec (m : ue_manager_internal_t) (rnti : Z) :
  manager_wf m ->
  let '(i, m') := manager_get_ue m rnti in
  let ue := default (new_ue rnti) (abs_manager m !! rnti) in
  ue_list m' !! i = Some ue /\ ue_rnti ue = rnti /\ ue_wf ue /\
  abs_manager m' = <[rnti := ue]> (abs_manager m) /\ manager_wf m' /\
  manager_get_ue m' rnti = (i, m') /\ enb_flag m' = enb_flag m.
Proof.
  intros [Hnd Hwf]. unfold manager_get_ue. pose proof (find_ue_spec (ue_list m) rnti) as Hf.
  destruct (find_ue (ue_list m) rnti) as [i|] eqn:Ef.
  - destruct Hf as (u & l1 & l2 & Hl & <- & <- & _). cbv zeta.
    assert (Hin : u ∈ ue_list m) by (rewrite Hl; apply elem_of_app; right; constructor).
    rewrite (abs_lookup_in m u Hnd Hin). cbn [default].
    split; [rewrite Hl; by apply list_lookup_middle|]. split; [done|].
    split; [by eapply Forall_forall; [exact Hwf|apply list_elem_of_In]|].
    split; [by rewrite insert_id by by apply abs_lookup_in|]. split; [done|]. by rewrite Ef.
  - cbv zeta. rewrite (abs_lookup_none m rnti Hf). cbn [default].
    split; [by apply list_lookup_middle|]. split; [done|]. split; [apply new_ue_wf|].
    split; [destruct m as [l flag]; by apply abs_snoc|].
    split; [split; [by apply nodup_snoc|]|].
    + apply Forall_app. split; [done|]. repeat constructor.
    + cbn [update ue_list].
      assert (find_ue (ue_list m ++ [new_ue rnti]) rnti = Some (length (ue_list m))) as ->; [|done].
      clear Hwf Hnd Ef. induction (ue_list m) as [|v l IH]; cbn.
      * by rewrite Z.eqb_refl.
      * inversion_clear Hf as [|? ? Hv Hl]. rewrite (proj2 (Z.eqb_neq _ _) Hv), IH by done. done.
Qed.


(** A UE stored back at its place. *)
Lemma manager_put_ue m i u u' :
  manager_wf m -> ue_list m !! i = Some u -> ue_rnti u' = ue_rnti u -> ue_wf u' ->
  let m' := m <| ue_list := <[i := u']> (ue_list m) |> in
  manager_wf m' /\ abs_manager m' = <[ue_rnti u := u']> (abs_manager m).
Proof.
  intros [Hnd Hwf] Hi Hr Hu. destruct m as [l flag]. cbn [update ue_list enb_flag] in *.
  assert (Hmap : ue_rnti <$> <[i := u']> l = ue_rnti <$> l).
  { rewrite list_fmap_insert, Hr. apply list_insert_id. by rewrite list_lookup_fmap, Hi. }
  split; [split|].
  { change (NoDup (ue_rnti <$> <[i := u']> l)). by rewrite Hmap. }
  { change (Forall ue_wf (<[i := u']> l)). by apply Forall_insert. }
  apply map_eq. intros k. destruct (decide (k = ue_rnti u)) as [->|Hk].
  - rewrite lookup_insert_eq. rewrite <- Hr. apply abs_lookup_in.
    { change (NoDup (ue_rnti <$> <[i := u']> l)). by rewrite Hmap. }
    apply list_elem_of_lookup. exists i. apply list_lookup_insert_eq. by eapply lookup_lt_Some.
  - rewrite lookup_insert_ne by done. apply option_eq. intros v.
    unfold abs_manager. cbn [ue_list].
    assert (H1 : NoDup ((fun w => (ue_rnti w, w)) <$> l).*1) by (by rewrite fst_rnti).
    assert (H2 : NoDup ((fun w => (ue_rnti w, w)) <$> <[i := u']> l).*1) by (by rewrite fst_rnti, Hmap).
    rewrite <- (elem_of_list_to_map _ _ _ H1), <- (elem_of_list_to_map _ _ _ H2).
    rewrite !list_elem_of_fmap. split; intros (w & [= -> ->] & Hw); exists w; (split; [done|]);
      apply list_elem_of_lookup in Hw as [j Hj]; apply list_elem_of_lookup; exists j;
      (destruct (decide (i = j)) as [->|Hij];
        [|by rewrite list_lookup_insert_ne in * by done]).
    + rewrite list_lookup_insert_eq in Hj by by eapply lookup_lt_Some. congruence.
    + congruence.
Qed.

Lemma manager_remove_ue_spec (m m' : ue_manager_internal_t) (rnti : Z) (deleted : list E) :
  manager_wf m -> manager_remove_ue m rnti = Ok (deleted, m') ->
  abs_manager m' = base.delete rnti (abs_manager m) /\ manager_wf m' /\
  deleted = match abs_manager m !! rnti with Some u => entities_of u | None => [] end.
Proof.
  intros [Hnd Hwf] E0. unfold manager_remove_ue in E0.
  pose proof (find_ue_spec (ue_list m) rnti) as Hf. destruct (find_ue (ue_list m) rnti) as [i|].
  - destruct Hf as (u & l1 & l2 & Hl & <- & <- & _).
    assert (Hu : u ∈ ue_list m) by (rewrite Hl; apply elem_of_app; right; constructor).
    rewrite Hl, list_lookup_middle in E0 by done.
    apply rbind_ok in E0 as (d1 & E1 & E0). apply rbind_ok in E0 as (d2 & E2 & E0).
    injection E0 as <- <-. apply delete_slots_spec in E1 as ->, E2 as ->.
    rewrite (abs_lookup_in m u Hnd Hu). destruct m as [l flag]. cbn [ue_list] in *. subst l.
    cbn [update ue_list enb_flag]. rewrite take_app_length, drop_app_ge by lia.
    replace (S (length l1) - length l1)%nat with 1%nat by lia. cbn [drop].
    split; [by apply abs_remove|]. apply Forall_app in Hwf as [Hw1 Hw2].
    inversion_clear Hw2 as [|? ? Hwu Hw2']. split; [split|].
    + change (NoDup (ue_rnti <$> (l1 ++ l2))). rewrite fmap_app in Hnd |- *. cbn in Hnd.
      apply list.NoDup_app in Hnd as (Ha & Hb & Hc). apply list.NoDup_cons in Hc as [_ Hc].
      apply list.NoDup_app. split; [done|]. split; [|done]. intros x Hx Hx2. apply (Hb x Hx). by right.
    + change (Forall ue_wf (l1 ++ l2)). by apply Forall_app.
    + by apply omap_slots.
  - injection E0 as <- <-. rewrite (abs_lookup_none m rnti Hf).
    split; [|by split]. symmetry. apply delete_id. by apply abs_lookup_none.
Qed.

End Manager.

Arguments ue_t E : clear implicits.
Arguments ue_manager_internal_t E : clear implicits.

(** ** The RLC manager: nr_rlc_ue_manager.c *)

#[export] Instance managed_rlc : ManagedEntity nr_rlc_entity_t :=
  {| freed_t := sdu_heap; delete_entity := rlc_delete |}.

Definition nr_rlc_ue_t : Type := ue_t nr_rlc_entity_t.
Definition nr_rlc_ue_manager_t : Type := ue_manager_internal_t nr_rlc_entity_t.

Definition new_nr_rlc_ue_manager (flag : bool) : nr_rlc_ue_manager_t := new_ue_manager flag.
Definition nr_rlc_manager_get_enb_flag (m : nr_rlc_ue_manager_t) : bool := manager_get_enb_flag m.
Definition nr_rlc_manager_get_ue (m : nr_rlc_ue_manager_t) (rnti : Z)
  : nat * nr_rlc_ue_manager_t := manager_get_ue m rnti.
Definition nr_rlc_manager_remove_ue (m : nr_rlc_ue_manager_t) (rnti : Z)
  : res (list nr_rlc_entity_t * nr_rlc_ue_manager_t) := manager_remove_ue m rnti.
Definition nr_rlc_ue_add_srb_rlc_entity (ue : nr_rlc_ue_t) (srb_id : Z) (entity : nr_rlc_entity_t)
  : res nr_rlc_ue_t := ue_add_srb_entity ue srb_id entity.
Definition nr_rlc_ue_add_drb_rlc_entity (ue : nr_rlc_ue_t) (drb_id : Z) (entity : nr_rlc_entity_t)
  : res nr_rlc_ue_t := ue_add_drb_entity ue drb_id entity.

(** ** The PDCP manager: nr_pdcp_ue_manager.c *)

#[export] Instance managed_pdcp : ManagedEntity nr_pdcp_entity_t :=
  {| freed_t := list nr_pdcp_sdu_t * option (list Z) * option (list Z);
     delete_entity e := Ok (nr_pdcp_entity_delete e) |}.

Definition nr_pdcp_ue_t : Type := ue_t nr_pdcp_entity_t.
Definition nr_pdcp_ue_manager_t : Type := ue_manager_internal_t nr_pdcp_entity_t.

Definition new_nr_pdcp_ue_manager (flag : bool) : nr_pdcp_ue_manager_t := new_ue_manager flag.
Definition nr_pdcp_manager_get_enb_flag (m : nr_pdcp_ue_manager_t) : bool := manager_get_enb_flag m.
Definition nr_pdcp_manager_get_ue (m : nr_pdcp_ue_manager_t) (rnti : Z)
  : nat * nr_pdcp_ue_manager_t := manager_get_ue m rnti.
Definition nr_pdcp_manager_remove_ue (m : nr_pdcp_ue_manager_t) (rnti : Z)
  : res (list nr_pdcp_entity_t * nr_pdcp_ue_manager_t) := manager_remove_ue m rnti.
Definition nr_pdcp_ue_add_srb_pdcp_entity (ue : nr_pdcp_ue_t) (srb_id : Z)
  (entity : nr_pdcp_entity_t) : res nr_pdcp_ue_t := ue_add_srb_entity ue srb_id entity.
Definition nr_pdcp_ue_add_drb_pdcp_entity (ue : nr_pdcp_ue_t) (drb_id : Z)
  (entity : nr_pdcp_entity_t) : res nr_pdcp_ue_t := ue_add_drb_entity ue drb_id entity.
Definition nr_pdcp_manager_get_ue_list (m : nr_pdcp_ue_manager_t) : list nr_pdcp_ue_t := ue_list m.
Definition nr_pdcp_manager_get_ue_count (m : nr_pdcp_ue_manager_t) : Z :=
  Z.of_nat (length (ue_list m)).

Definition nr_pdcp_get_first_rnti (m : nr_pdcp_ue_manager_t) : Z :=
  match ue_list m with
  | [] => -1
  | u :: _ => ue_rnti u
  end.

(** One turn of the timer thread: [set_time] on the entities of every UE. *)
Definition set_time_ue (now : Z) (u : nr_pdcp_ue_t) : nr_pdcp_ue_t :=
  let tick := option_map (fun e => nr_pdcp_entity_set_time e now) in
  u <| srb := (tick <$> take 2 (srb u)) ++ drop 2 (srb u) |>
    <| drb := (tick <$> take 5 (drb u)) ++ drop 5 (drb u) |>.

Definition nr_pdcp_timer_tick (m : nr_pdcp_ue_manager_t) (curtime : Z) : nr_pdcp_ue_manager_t :=
  m <| ue_list := set_time_ue curtime <$> nr_pdcp_manager_get_ue_list m |>.

(** ** Properties *)

(** Removal of a UE.  When the deletions of its entities return, [remove_ue]
    removes exactly the UE of that RNTI from the map (nothing when there is none),
    keeps the invariant, and every entity the UE owned is deleted: none is leaked,
    although only two of the three SRB slots are visited. *)
Theorem manager_remove_ue_refines {E} `{!ManagedEntity E} (m m' : ue_manager_internal_t E)
    (rnti : Z) (deleted : list E) :
  manager_wf m -> manager_remove_ue m rnti = Ok (deleted, m') ->
  abs_manager m' = base.delete rnti (abs_manager m) /\ manager_wf m' /\
  deleted = match abs_manager m !! rnti with Some u => entities_of u | None => [] end.
Proof. intros Hwf H. exact (manager_remove_ue_spec m m' rnti deleted Hwf H). Qed.

Lemma manager_remove_ue_refines_witness :
  let e := EntityTm (new_nr_rlc_entity_tm 1000) in
  let u := mk_ue 7 [Some e; None; None] (replicate 5 None) in
  exists m', manager_remove_ue (mk_manager [u] true) 7 = Ok ([e], m') /\
    abs_manager m' = base.delete 7 (abs_manager (mk_manager [u] true)).
Proof.
  intros e u. exists (mk_manager [] true).
  assert (E : manager_remove_ue (mk_manager [u] true) 7 = Ok ([e], mk_manager [] true)) by reflexivity.
  split; [exact E|].
  destruct (manager_remove_ue_refines (mk_manager [u] true) (mk_manager [] true) 7 [e]) as (H & _).
  - split; [apply NoDup_singleton|]. repeat constructor.
  - exact E.
  - exact H.
Defined.

(** C38. Adding bearers keeps the UE well formed: the identity must be in range and
    the slot free, otherwise the program ends; the slot then holds the entity and no
    other slot changes.  No access leaves the arrays. *)
Theorem ue_add_entities {E} `{!ManagedEntity E} (u : ue_t E) (id : Z) (e : E) :
  ue_wf u ->
  match ue_add_srb_entity u id e with
  | Ok u' => 1 <= id <= 2 /\ ue_wf u' /\ srb u !! Z.to_nat (id - 1) = Some None /\
             srb u' = <[Z.to_nat (id - 1) := Some e]> (srb u) /\ drb u' = drb u
  | Exit => ~ 1 <= id <= 2 \/ exists e', srb u !! Z.to_nat (id - 1) = Some (Some e')
  | Fault _ => False
  end /\
  match ue_add_drb_entity u id e with
  | Ok u' => 1 <= id <= 5 /\ ue_wf u' /\ drb u !! Z.to_nat (id - 1) = Some None /\
             drb u' = <[Z.to_nat (id - 1) := Some e]> (drb u) /\ srb u' = srb u
  | Exit => ~ 1 <= id <= 5 \/ exists e', drb u !! Z.to_nat (id - 1) = Some (Some e')
  | Fault _ => False
  end.
Proof.
  intros (Hs & Hd & H2). unfold ue_add_srb_entity, ue_add_drb_entity. split.
  - destruct (_ || _) eqn:Hid; b2p; [left; destruct Hid; b2p; lia|].
    destruct (srb u !! Z.to_nat (id - 1)) as [[e'|]|] eqn:El; [right; by eexists| |].
    + split; [lia|]. split; [|done]. unfold ue_wf. cbn. rewrite length_insert.
      split; [done|]. split; [done|]. rewrite list_lookup_insert_ne by lia. done.
    + apply lookup_ge_None in El. lia.
  - destruct (_ || _) eqn:Hid; b2p; [left; destruct Hid; b2p; lia|].
    destruct (drb u !! Z.to_nat (id - 1)) as [[e'|]|] eqn:El; [right; by eexists| |].
    + split; [lia|]. split; [|done]. unfold ue_wf. cbn. by rewrite length_insert.
    + apply lookup_ge_None in El. lia.
Qed.

Lemma ue_add_entities_witness :
  match ue_add_srb_entity (new_ue 7) 1 (EntityTm (new_nr_rlc_entity_tm 1000)) with
  | Ok u' => ue_wf u'
  | _ => False
  end.
Proof.
  pose proof (ue_add_entities (new_ue 7) 1 (EntityTm (new_nr_rlc_entity_tm 1000)) (new_ue_wf 7)) as [H _].
  exact (proj1 (proj2 H)).
Defined.
