(* ===== verification/Bearers.v ===== *)
(** Bearers of a UE manager: the slots of the arrays [ue->srb] and [ue->drb] that the
    APIs of RLC and of PDCP use, and the manager seen as a map from a UE and a slot to an
    entity.  Generic in the kind of entity, like the manager. *)

From S2P Require Import Prelude.
From S2P Require Import UeManager.

(** A pointer of [ue->srb] or [ue->drb]. *)
Inductive slot : Type :=
| Srb (i : nat)
| Drb (i : nat).

#[export] Instance slot_eq_dec : EqDecision slot.
Proof. solve_decision. Defined.

(** The radio bearer of a request: one of two SRBs or five DRBs. *)
Definition rb_slot (srb_flag : bool) (rb_id : Z) : option slot :=
  if srb_flag then
    if (1 <=? rb_id) && (rb_id <=? 2) then Some (Srb (Z.to_nat (rb_id - 1))) else None
  else
    if (1 <=? rb_id) && (rb_id <=? 5) then Some (Drb (Z.to_nat (rb_id - 1))) else None.

(** The slots that are ever used: the third SRB slot is not. *)
Definition slot_ok (s : slot) : bool :=
  match s with Srb i => (i <? 2)%nat | Drb i => (i <? 5)%nat end.

Section Bearers.

Context {E : Type} `{!ManagedEntity E}.

Implicit Types (ue : ue_t E) (m : ue_manager_internal_t E) (s : slot).

Definition get_slot (ue : ue_t E) (s : slot) : option E :=
  match s with
  | Srb i => mjoin (srb ue !! i)
  | Drb i => mjoin (drb ue !! i)
  end.

Definition put_slot (ue : ue_t E) (s : slot) (e : option E) : ue_t E :=
  match s with
  | Srb i => ue <| srb := <[i := e]> (srb ue) |>
  | Drb i => ue <| drb := <[i := e]> (drb ue) |>
  end.

(** The entity of a bearer of a UE. *)
Definition bearer_of (m : ue_manager_internal_t E) (rnti : Z) (s : slot) : option E :=
  abs_manager m !! rnti ≫= fun ue => get_slot ue s.

(** The manager with a UE stored back at its place. *)
Definition put_ue (m : ue_manager_internal_t E) (i : nat) (ue : ue_t E) : ue_manager_internal_t E :=
  m <| ue_list := <[i := ue]> (ue_list m) |>.

(** ** Slots *)

Lemma slot_used ue s e : ue_wf ue -> get_slot ue s = Some e -> slot_ok s = true.
Proof.
  intros (H1 & H2 & H3) Hs. destruct s as [i|i]; unfold slot_ok, get_slot in *; apply Nat.ltb_lt.
  - destruct (srb ue !! i) as [[|]|] eqn:Ei; try done. pose proof (lookup_lt_Some _ _ _ Ei).
    destruct (decide (i = 2%nat)) as [->|]; [by rewrite H3 in Ei|lia].
  - destruct (drb ue !! i) as [[|]|] eqn:Ei; try done. pose proof (lookup_lt_Some _ _ _ Ei). lia.
Qed.

Lemma get_put_slot ue s s' e :
  ue_wf ue -> slot_ok s = true ->
  get_slot (put_slot ue s e) s' = if decide (s' = s) then e else get_slot ue s'.
Proof.
  intros (H1 & H2 & _) Hs. unfold slot_ok in Hs.
  destruct s as [i|i], s' as [j|j]; unfold get_slot, put_slot; apply Nat.ltb_lt in Hs;
    try (by rewrite decide_False by congruence); cbn [update srb drb].
  - destruct (decide (Srb j = Srb i)) as [[= ->]|Hne]; [by rewrite list_lookup_insert_eq by lia|].
    by rewrite list_lookup_insert_ne by congruence.
  - destruct (decide (Drb j = Drb i)) as [[= ->]|Hne]; [by rewrite list_lookup_insert_eq by lia|].
    by rewrite list_lookup_insert_ne by congruence.
Qed.

Lemma put_slot_wf ue s e : ue_wf ue -> slot_ok s = true -> ue_wf (put_slot ue s e).
Proof.
  intros (H1 & H2 & H3) Hs. unfold slot_ok in Hs.
  destruct s as [i|i]; apply Nat.ltb_lt in Hs; unfold ue_wf; cbn; rewrite ?length_insert; [|done].
  split; [done|]. split; [done|]. by rewrite list_lookup_insert_ne by lia.
Qed.

Lemma put_slot_rnti ue s e : ue_rnti (put_slot ue s e) = ue_rnti ue.
Proof. by destruct s. Qed.

Lemma get_slot_new rnti s : get_slot (new_ue rnti) s = None.
Proof. destruct s as [[|[|[|i]]]|[|[|[|[|[|i]]]]]]; reflexivity. Qed.

(** The functions of the manager that add an entity put it into its slot. *)
Lemma add_srb_slot ue ue' id e :
  ue_add_srb_entity ue id e = Ok ue' ->
  ue' = put_slot ue (Srb (Z.to_nat (id - 1))) (Some e) /\ slot_ok (Srb (Z.to_nat (id - 1))) = true.
Proof.
  unfold ue_add_srb_entity. destruct (_ || _) eqn:H; [done|]. b2p.
  destruct (_ !! _) as [[|]|]; [done| |done]. intros [= <-]. split; [done|]. apply Nat.ltb_lt. lia.
Qed.

Lemma add_drb_slot ue ue' id e :
  ue_add_drb_entity ue id e = Ok ue' ->
  ue' = put_slot ue (Drb (Z.to_nat (id - 1))) (Some e) /\ slot_ok (Drb (Z.to_nat (id - 1))) = true.
Proof.
  unfold ue_add_drb_entity. destruct (_ || _) eqn:H; [done|]. b2p.
  destruct (_ !! _) as [[|]|]; [done| |done]. intros [= <-]. split; [done|]. apply Nat.ltb_lt. lia.
Qed.

(** ** Operations on the manager *)

(** The UE that an operation works on: looking for it changes no bearer. *)
Lemma bearer_get_ue m rnti :
  manager_wf m ->
  exists i m' ue, manager_get_ue m rnti = (i, m') /\ ue_list m' !! i = Some ue /\ ue_rnti ue = rnti /\
    ue_wf ue /\ manager_wf m' /\ enb_flag m' = enb_flag m /\
    (forall s, get_slot ue s = bearer_of m rnti s) /\
    forall rnti' s, bearer_of m' rnti' s = bearer_of m rnti' s.
Proof.
  intros Hwf. pose proof (manager_get_ue_spec m rnti Hwf) as H.
  destruct (manager_get_ue m rnti) as [i m'].
  destruct H as (Hi & Hr & Hu & Habs & Hm & _ & Hflag). set (ue := default _ _) in *.
  assert (Hs : forall s, get_slot ue s = bearer_of m rnti s).
  { intros s. unfold bearer_of, ue. destruct (abs_manager _ !! rnti); [done|]. apply get_slot_new. }
  exists i, m', ue. do 7 (split; [done|]).
  intros rnti' s. destruct (decide (rnti' = rnti)) as [->|Hne].
  - rewrite <- Hs. unfold bearer_of. by rewrite Habs, lookup_insert_eq.
  - unfold bearer_of. by rewrite Habs, lookup_insert_ne.
Qed.

Lemma bearer_put_ue m rnti i ue ue' :
  manager_wf m -> ue_list m !! i = Some ue -> ue_rnti ue = rnti -> ue_rnti ue' = rnti -> ue_wf ue' ->
  manager_wf (put_ue m i ue') /\ abs_manager (put_ue m i ue') !! rnti = Some ue' /\
  forall rnti' s, bearer_of (put_ue m i ue') rnti' s =
    if decide (rnti' = rnti) then get_slot ue' s else bearer_of m rnti' s.
Proof.
  intros Hwf Hi <- Hr Hue. destruct (manager_put_ue m i ue ue' Hwf Hi Hr Hue) as [Hm Habs].
  change (m <| ue_list := <[i := ue']> (ue_list m) |>) with (put_ue m i ue') in *.
  split; [exact Hm|]. split; [rewrite Habs; apply lookup_insert_eq|].
  intros rnti' s. unfold bearer_of. rewrite Habs. destruct (decide (rnti' = ue_rnti ue)) as [->|Hne].
  - by rewrite lookup_insert_eq.
  - by rewrite lookup_insert_ne.
Qed.

(** One bearer changed, in the UE that the search returned. *)
Lemma bearer_put m m' rnti i ue s e :
  manager_wf m' -> ue_list m' !! i = Some ue -> ue_rnti ue = rnti -> ue_wf ue -> slot_ok s = true ->
  (forall s', get_slot ue s' = bearer_of m rnti s') ->
  (forall rnti' s', bearer_of m' rnti' s' = bearer_of m rnti' s') ->
  manager_wf (put_ue m' i (put_slot ue s e)) /\
  forall rnti' s', bearer_of (put_ue m' i (put_slot ue s e)) rnti' s' =
    if decide (rnti' = rnti /\ s' = s) then e else bearer_of m rnti' s'.
Proof.
  intros Hwf Hi Hr Hue Hok Hslot Hsame.
  destruct (bearer_put_ue m' rnti i ue (put_slot ue s e)) as (Hm & _ & Hb); try done;
    [by rewrite put_slot_rnti|by apply put_slot_wf|]. split; [done|]. intros rnti' s'. rewrite Hb.
  destruct (decide (rnti' = rnti)) as [->|Hne]; [|by rewrite decide_False by tauto].
  rewrite get_put_slot, Hslot by done.
  destruct (decide (s' = s)); [by rewrite decide_True|by rewrite decide_False by tauto].
Qed.

(** A UE removed: all its bearers are gone and no others. *)
Lemma bearer_remove_ue m m' rnti d :
  manager_wf m -> manager_remove_ue m rnti = Ok (d, m') ->
  manager_wf m' /\ abs_manager m' !! rnti = None /\
  forall rnti' s, bearer_of m' rnti' s = if decide (rnti' = rnti) then None else bearer_of m rnti' s.
Proof.
  intros Hwf H. destruct (manager_remove_ue_spec _ _ _ _ Hwf H) as (Habs & Hm & _).
  split; [done|]. split; [rewrite Habs; apply lookup_delete_eq|]. intros rnti' s. unfold bearer_of. rewrite Habs.
  destruct (decide (rnti' = rnti)) as [->|]; [by rewrite lookup_delete_eq|by rewrite lookup_delete_ne].
Qed.

End Bearers.
