(* ===== verification/Sdap.v ===== *)
(** SDAP entities: [nr_sdap_entity.c], [nr_sdap_entity.h] and [nr_sdap.c].

    The QFI to DRB mapping, the SDAP header, transmission and reception, and the
    global list of entities.  The call [pdcp_data_req] into PDCP answers whether the
    PDU was taken: it is the parameter [pdcp_takes] of the transmission functions.
    Messages to GTP-U, writes to the network interface and control PDUs handed to
    PDCP are recorded as events. *)

From S2P Require Import Prelude.
From Stdlib Require Import Sorting.Permutation.

(** ** Constants and headers: nr_sdap_entity.h *)

Definition SDAP_HDR_UL_DATA_PDU : Z := 1.
Definition SDAP_HDR_UL_CTRL_PDU : Z := 0.
Definition SDAP_HDR_LENGTH : Z := 1.
Definition SDAP_MAX_QFI : Z := 64.
Definition SDAP_MAP_RULE_EMPTY : Z := 0.
Definition AVLBL_DRB : Z := 5.
Definition SDAP_NO_MAPPING_RULE : Z := 0.
Definition SDAP_REFLECTIVE_MAPPING : Z := 1.

(** The two packed headers, bit fields from the least significant bit. *)
Record nr_sdap_dl_hdr_t := mk_dl_hdr { dl_QFI : Z; dl_RQI : Z; dl_RDI : Z }.
Record nr_sdap_ul_hdr_t := mk_ul_hdr { ul_QFI : Z; ul_R : Z; ul_DC : Z }.

Definition dl_byte (h : nr_sdap_dl_hdr_t) : Z :=
  dl_QFI h mod 64 + 64 * (dl_RQI h mod 2) + 128 * (dl_RDI h mod 2).
Definition ul_byte (h : nr_sdap_ul_hdr_t) : Z :=
  ul_QFI h mod 64 + 64 * (ul_R h mod 2) + 128 * (ul_DC h mod 2).

Definition dl_of_byte (b : Z) : nr_sdap_dl_hdr_t :=
  mk_dl_hdr (b mod 64) (b / 64 mod 2) (b / 128 mod 2).
Definition ul_of_byte (b : Z) : nr_sdap_ul_hdr_t :=
  mk_ul_hdr (b mod 64) (b / 64 mod 2) (b / 128 mod 2).

Record qfi2drb_t := mk_qfi2drb { drb_id : Z; hasSdap : bool }.

(** [qfi2drb_table] has SDAP_MAX_QFI entries. *)
Record nr_sdap_entity_t := mk_sdap {
  sdap_rnti : Z;
  default_drb : Z;
  sdap_pdusession_id : Z;
  qfi2drb_table : list qfi2drb_t
}.

#[export] Instance eta_sdap : Eta nr_sdap_entity_t := fun e =>
  mk_sdap (sdap_rnti e) (default_drb e) (sdap_pdusession_id e) (qfi2drb_table e).

(** What leaves the SDAP layer. *)
Inductive sdap_event : Type :=
| PdcpDataReq (rb_id : Z) (buf : list Z)
| GtpuDataReq (rnti pdusession_id : Z) (buf : list Z)
| NasWrite (buf : list Z)
| SubmitCtrlPdu (rnti drb : Z) (hdr : Z).

(** [table[qfi]]: the index is not checked by the code. *)
Definition table_get (e : nr_sdap_entity_t) (qfi : Z) : res qfi2drb_t :=
  match qfi2drb_table e !! Z.to_nat qfi with
  | Some x => Ok x
  | None => Fault OutOfBounds
  end.

Definition table_set (e : nr_sdap_entity_t) (qfi : Z) (x : qfi2drb_t) : nr_sdap_entity_t :=
  e <| qfi2drb_table := <[Z.to_nat qfi := x]> (qfi2drb_table e) |>.

(** ** QFI to DRB mapping *)

Definition nr_sdap_qfi2drb_map_update (entity : nr_sdap_entity_t) (qfi drb : Z) (has_sdap : bool)
  : nr_sdap_entity_t :=
  if (qfi <? SDAP_MAX_QFI) && (qfi >? SDAP_MAP_RULE_EMPTY) && (drb >? 0) && (drb <=? AVLBL_DRB)
  then table_set entity qfi (mk_qfi2drb drb has_sdap)
  else entity.

Definition nr_sdap_qfi2drb_map_del (entity : nr_sdap_entity_t) (qfi : Z) : res nr_sdap_entity_t :=
  let* x := table_get entity qfi in
  Ok (table_set entity qfi (mk_qfi2drb SDAP_NO_MAPPING_RULE (hasSdap x))).

Definition nr_sdap_qfi2drb_map (entity : nr_sdap_entity_t) (qfi : Z) : res Z :=
  let* x := table_get entity qfi in
  if negb (drb_id x =? 0) then Ok (drb_id x)
  else if negb (default_drb entity =? 0) then Ok (default_drb entity)
  else Ok SDAP_MAP_RULE_EMPTY.

Definition nr_sdap_construct_ctrl_pdu (qfi : Z) : nr_sdap_ul_hdr_t :=
  mk_ul_hdr (qfi mod 64) 0 SDAP_HDR_UL_CTRL_PDU.

Inductive ctrl_pdu_map_type : Type :=
| SDAP_CTRL_PDU_MAP_DEF_DRB
| SDAP_CTRL_PDU_MAP_RULE_DRB.

Definition nr_sdap_map_ctrl_pdu (entity : nr_sdap_entity_t) (map_type : ctrl_pdu_map_type)
  (dl_qfi : Z) : res Z :=
  match map_type with
  | SDAP_CTRL_PDU_MAP_DEF_DRB => Ok (default_drb entity)
  | SDAP_CTRL_PDU_MAP_RULE_DRB => nr_sdap_qfi2drb_map entity dl_qfi
  end.

Definition nr_sdap_submit_ctrl_pdu (rnti sdap_ctrl_pdu_drb : Z) (ctrl_pdu : nr_sdap_ul_hdr_t)
  : list sdap_event :=
  if negb (sdap_ctrl_pdu_drb =? 0)
  then [SubmitCtrlPdu rnti sdap_ctrl_pdu_drb (ul_byte ctrl_pdu)] else [].

(** Construct, map and submit one control PDU. *)
Definition send_ctrl_pdu (entity : nr_sdap_entity_t) (rnti : Z) (t : ctrl_pdu_map_type) (qfi : Z)
  : res (list sdap_event) :=
  let sdap_ctrl_pdu := nr_sdap_construct_ctrl_pdu qfi in
  let* drb := nr_sdap_map_ctrl_pdu entity t qfi in
  Ok (nr_sdap_submit_ctrl_pdu rnti drb sdap_ctrl_pdu).

(** ** Transmission *)

Section Tx.

Variable pdcp_takes : Z -> list Z -> bool.

Definition nr_sdap_tx_entity (entity : nr_sdap_entity_t) (enb_flag : bool) (rb_id : Z)
  (sdu_buffer : list Z) (qfi rqi : Z) : res (bool * list sdap_event) :=
  let sdu_buffer_size := Z.of_nat (length sdu_buffer) in
  let* pdcp_entity := nr_sdap_qfi2drb_map entity qfi in
  let* (sdap_drb_id, pdcp_ent_has_sdap) :=
    (if negb (pdcp_entity =? 0) then
       let* x := table_get entity qfi in Ok (pdcp_entity, hasSdap x)
     else Ok (rb_id, false)) in
  if negb pdcp_ent_has_sdap
  then Ok (pdcp_takes sdap_drb_id sdu_buffer, [PdcpDataReq sdap_drb_id sdu_buffer])
  else if (sdu_buffer_size =? 0) || (sdu_buffer_size >? 8999) then Ok (false, [])
  else
    let hdr :=
      if enb_flag then dl_byte (mk_dl_hdr (qfi mod 64) (rqi mod 2) 0)
      else ul_byte (mk_ul_hdr (qfi mod 64) 0 (rqi mod 2)) in
    let sdap_buf := hdr :: sdu_buffer in
    Ok (pdcp_takes sdap_drb_id sdap_buf, [PdcpDataReq sdap_drb_id sdap_buf]).

End Tx.

(** ** Reception *)

(** "Perform reflective QoS flow to DRB mapping" *)
Definition reflective_mapping (entity : nr_sdap_entity_t) (pdcp_entity rnti : Z)
  (has_sdapHeader : bool) (qfi : Z) : res (nr_sdap_entity_t * list sdap_event) :=
  let* x := table_get entity qfi in
  let* ev1 :=
    (if (drb_id x =? 0) && negb (default_drb entity =? 0)
     then send_ctrl_pdu entity rnti SDAP_CTRL_PDU_MAP_DEF_DRB qfi else Ok []) in
  let* ev2 :=
    (if negb (pdcp_entity =? drb_id x) && has_sdapHeader
     then send_ctrl_pdu entity rnti SDAP_CTRL_PDU_MAP_RULE_DRB qfi else Ok []) in
  Ok (table_set entity qfi (mk_qfi2drb pdcp_entity (hasSdap x)), ev1 ++ ev2).

Definition nr_sdap_rx_entity (entity : nr_sdap_entity_t) (pdcp_entity : Z)
  (is_gnb has_sdap has_sdapHeader : bool) (pdusession_id rnti : Z) (buf : list Z)
  : res (nr_sdap_entity_t * list sdap_event) :=
  let with_header := has_sdap && has_sdapHeader in
  match with_header, buf with
  | true, [] => Fault OutOfBounds
  | _, _ =>
    let payload := if with_header then drop (Z.to_nat SDAP_HDR_LENGTH) buf else buf in
    if is_gnb then Ok (entity, [GtpuDataReq rnti pdusession_id payload])
    else
      let* (entity, ev) :=
        (match with_header, buf with
         | true, b :: _ =>
           let sdap_hdr := dl_of_byte b in
           if dl_RDI sdap_hdr =? SDAP_REFLECTIVE_MAPPING
           then reflective_mapping entity pdcp_entity rnti has_sdapHeader (dl_QFI sdap_hdr)
           else Ok (entity, [])
         | _, _ => Ok (entity, [])
         end) in
      Ok (entity, ev ++ [NasWrite payload])
  end.

(** ** The list of entities *)

Definition sdap_info := list nr_sdap_entity_t.

(** The entity that [nr_sdap_get_entity] returns a pointer to, by its position. *)
Fixpoint get_entity_from (i : nat) (l : sdap_info) (rnti pdusession_id : Z) : option nat :=
  match l with
  | [] => None
  | e :: tl =>
    match negb (sdap_rnti e =? rnti), tl with
    | true, _ :: _ => get_entity_from (S i) tl rnti pdusession_id
    | _, _ =>
      if (sdap_rnti e =? rnti) && (sdap_pdusession_id e =? pdusession_id) then Some i else None
    end
  end.

Definition nr_sdap_get_entity (l : sdap_info) (rnti pdusession_id : Z) : option nat :=
  get_entity_from 0 l rnti pdusession_id.

(** [mapped_qfi_2_add] is a list of [long]s stored into a [uint8_t]. *)
Fixpoint nr_sdap_ue_qfi2drb_config (entity : nr_sdap_entity_t) (rnti : Z)
  (mapped_qfi_2_add : list Z) (drb_identity : Z) : res (list sdap_event) :=
  match mapped_qfi_2_add with
  | [] => Ok []
  | q :: tl =>
    let qfi := u8 q in
    let* ev1 :=
      (if negb (default_drb entity =? 0) then
         let* x := table_get entity qfi in
         if drb_id x =? SDAP_NO_MAPPING_RULE
         then send_ctrl_pdu entity rnti SDAP_CTRL_PDU_MAP_DEF_DRB qfi else Ok []
       else Ok []) in
    let* x := table_get entity qfi in
    let* ev2 :=
      (if negb (drb_id x =? drb_identity) && hasSdap x
       then send_ctrl_pdu entity rnti SDAP_CTRL_PDU_MAP_RULE_DRB qfi else Ok []) in
    let* evs := nr_sdap_ue_qfi2drb_config entity rnti tl drb_identity in
    Ok (ev1 ++ ev2 ++ evs)
  end.

(** Returns the position of the entity, the list and the control PDUs sent. *)
Definition new_nr_sdap_entity (l : sdap_info) (has_sdap : bool) (rnti pdusession_id : Z)
  (is_defaultDRB : bool) (drb_identity : Z) (mapped_qfi_2_add : list Z)
  : res (nat * sdap_info * list sdap_event) :=
  match nr_sdap_get_entity l rnti pdusession_id with
  | Some i =>
    match l !! i with
    | None => Fault OutOfBounds
    | Some e =>
      let* ev := nr_sdap_ue_qfi2drb_config e rnti mapped_qfi_2_add drb_identity in
      Ok (i, l, ev)
    end
  | None =>
    let e := mk_sdap rnti 0 pdusession_id (replicate 64 (mk_qfi2drb 0 false)) in
    let e :=
      if is_defaultDRB then
        let e := e <| default_drb := drb_identity |> in
        fold_left (fun e q => nr_sdap_qfi2drb_map_update e (u8 q) (default_drb e) has_sdap)
          mapped_qfi_2_add e
      else e in
    Ok (0%nat, e :: l, [])
  end.

(** The [while] of [delete_nr_sdap_entity], behind a head of another RNTI: [prev]
    and the current entity walk to the first entity of [rnti] or to the last one;
    the entity is unlinked when its RNTI is not [rnti]. *)
Fixpoint delete_from (prev cur : nr_sdap_entity_t) (tl : sdap_info) (rnti : Z) : sdap_info :=
  match negb (sdap_rnti cur =? rnti), tl with
  | true, nxt :: tl' => prev :: delete_from cur nxt tl' rnti
  | _, _ => if negb (sdap_rnti cur =? rnti) then prev :: tl else prev :: cur :: tl
  end.

Definition delete_nr_sdap_entity (l : sdap_info) (rnti : Z) : res sdap_info :=
  match l with
  | [] => Fault NullDeref
  | e :: tl =>
    if sdap_rnti e =? rnti then Ok tl
    else
      match tl with
      | [] => Fault NullDeref
      | nxt :: tl' => Ok (delete_from e nxt tl' rnti)
      end
  end.

(** ** nr_sdap.c *)

Definition sdap_data_req (pdcp_takes : Z -> list Z -> bool) (l : sdap_info) (ctxt_rnti : Z)
  (enb_flag : bool) (rb_id : Z) (sdu_buffer : list Z) (qfi rqi pdusession_id : Z)
  : res (bool * list sdap_event) :=
  match nr_sdap_get_entity l ctxt_rnti pdusession_id with
  | None => Ok (false, [])
  | Some i =>
    match l !! i with
    | None => Fault OutOfBounds
    | Some e => nr_sdap_tx_entity pdcp_takes e enb_flag rb_id sdu_buffer qfi rqi
    end
  end.

Definition sdap_data_ind (l : sdap_info) (pdcp_entity : Z) (is_gnb has_sdap has_sdapULheader : bool)
  (pdusession_id rnti : Z) (buf : list Z) : res (sdap_info * list sdap_event) :=
  match nr_sdap_get_entity l rnti pdusession_id with
  | None => Ok (l, [])
  | Some i =>
    match l !! i with
    | None => Fault OutOfBounds
    | Some e =>
      let* (e, ev) := nr_sdap_rx_entity e pdcp_entity is_gnb has_sdap has_sdapULheader
                        pdusession_id rnti buf in
      Ok (<[i := e]> l, ev)
    end
  end.

(** ** Lemmas *)

(** The table always has SDAP_MAX_QFI entries. *)
Definition sdap_wf (e : nr_sdap_entity_t) : Prop := length (qfi2drb_table e) = 64%nat.

Lemma table_get_ok e qfi : sdap_wf e -> 0 <= qfi < 64 -> exists x, table_get e qfi = Ok x.
Proof.
  intros Hwf Hq. unfold table_get.
  destruct (qfi2drb_table e !! Z.to_nat qfi) eqn:E; [by eexists|].
  apply lookup_ge_None in E. unfold sdap_wf in Hwf. lia.
Qed.

Lemma table_get_set e qfi q x :
  sdap_wf e -> 0 <= qfi < 64 -> 0 <= q ->
  table_get (table_set e qfi x) q = if q =? qfi then Ok x else table_get e q.
Proof.
  intros Hwf Hq Hq'. unfold table_get, table_set, sdap_wf in *. cbn [update qfi2drb_table].
  destruct (Z.eqb_spec q qfi) as [->|Hne].
  - rewrite list_lookup_insert_eq by lia. done.
  - rewrite list_lookup_insert_ne by lia. done.
Qed.

Lemma hdr_bits q r d :
  0 <= q < 64 -> 0 <= r < 2 -> 0 <= d < 2 ->
  let b := q + 64 * r + 128 * d in b mod 64 = q /\ b / 64 mod 2 = r /\ b / 128 mod 2 = d.
Proof.
  intros Hq Hr Hd b. subst b.
  assert (E1 : (q + 64 * r + 128 * d) mod 64 = q)
    by (symmetry; apply (Z.mod_unique_pos _ _ (r + 2 * d)); lia).
  assert (E2 : (q + 64 * r + 128 * d) / 64 = r + 2 * d)
    by (symmetry; apply (Z.div_unique_pos _ _ _ q); lia).
  assert (E3 : (q + 64 * r + 128 * d) / 128 = d)
    by (symmetry; apply (Z.div_unique_pos _ _ _ (q + 64 * r)); lia).
  rewrite E1, E2, E3. split; [done|]. split; [|apply Z.mod_small; lia].
  symmetry. apply (Z.mod_unique_pos _ _ d); lia.
Qed.

Lemma get_entity_exact l : forall i rnti sid k,
  NoDup (sdap_rnti <$> l) ->
  get_entity_from i l rnti sid = Some k <->
  exists e, (i <= k)%nat /\ l !! (k - i)%nat = Some e /\ sdap_rnti e = rnti /\ sdap_pdusession_id e = sid.
Proof.
  induction l as [|e l IH]; intros i rnti sid k Hnd; cbn [get_entity_from].
  - split; [done|]. by intros (e & _ & H & _).
  - cbn in Hnd. apply list.NoDup_cons in Hnd as [Hne Hnd].
    assert (Hstop : (sdap_rnti e = rnti \/ l = []) ->
      (if (sdap_rnti e =? rnti) && (sdap_pdusession_id e =? sid) then Some i else None) = Some k <->
      exists e0, (i <= k)%nat /\ (e :: l) !! (k - i)%nat = Some e0 /\ sdap_rnti e0 = rnti
                 /\ sdap_pdusession_id e0 = sid).
    { intros Hs. split.
      - destruct (_ && _) eqn:Eb; [|done]. b2p. intros [= <-]. exists e. rewrite Nat.sub_diag. done.
      - intros (e0 & Hk & Hl & Hr & Hp). destruct (k - i)%nat as [|j] eqn:Ej.
        + cbn in Hl. injection Hl as ->. rewrite Hr, Hp, !Z.eqb_refl. cbn. f_equal. lia.
        + cbn in Hl. destruct Hs as [Hs| ->]; [|done]. exfalso. apply Hne.
          apply list_elem_of_fmap. exists e0. split; [congruence|]. by eapply list_elem_of_lookup_2. }
    destruct (Z.eqb_spec (sdap_rnti e) rnti) as [Er|Er]; cbn [negb].
    + apply Hstop. by left.
    + destruct l as [|e1 l1]; [apply Hstop; by right|]. rewrite IH by done. split.
      * intros (e0 & Hk & Hl & Hr). exists e0. split; [lia|].
        replace (k - i)%nat with (S (k - S i)) by lia. done.
      * intros (e0 & Hk & Hl & Hr & Hp). destruct (k - i)%nat as [|j] eqn:Ej.
        -- cbn in Hl. congruence.
        -- exists e0. split; [lia|]. replace (k - S i)%nat with j by lia. done.
Qed.

(** ** Properties *)

(** SDAP transfer.  For a QoS flow mapped to a DRB with an SDAP header, what one
    side transmits the other side delivers: the downlink PDU of the gNB hands the
    UE's network interface exactly the SDU (and, as its RDI bit is clear, leaves the
    UE's mapping alone), and the uplink PDU of the UE hands GTP-U exactly the SDU.
    The PDU never exceeds SDAP_MAX_PDU bytes. *)
Theorem sdap_transfer (pdcp_takes : Z -> list Z -> bool) (s r : nr_sdap_entity_t)
    (rb_id qfi rqi drb rnti sid : Z) (sdu : list Z) :
  0 <= qfi < 64 -> table_get s qfi = Ok (mk_qfi2drb drb true) -> drb <> 0 ->
  0 < Z.of_nat (length sdu) <= 8999 ->
  (exists pdu,
     nr_sdap_tx_entity pdcp_takes s true rb_id sdu qfi rqi
       = Ok (pdcp_takes drb pdu, [PdcpDataReq drb pdu]) /\ Z.of_nat (length pdu) <= 9000 /\
     nr_sdap_rx_entity r drb false true true sid rnti pdu = Ok (r, [NasWrite sdu])) /\
  (exists pdu,
     nr_sdap_tx_entity pdcp_takes s false rb_id sdu qfi rqi
       = Ok (pdcp_takes drb pdu, [PdcpDataReq drb pdu]) /\ Z.of_nat (length pdu) <= 9000 /\
     nr_sdap_rx_entity r drb true true true sid rnti pdu = Ok (r, [GtpuDataReq rnti sid sdu])).
Proof.
  intros Hq Ht Hd Hl.
  assert (Htx : forall g, nr_sdap_tx_entity pdcp_takes s g rb_id sdu qfi rqi
    = let pdu := (if (g : bool) then dl_byte (mk_dl_hdr (qfi mod 64) (rqi mod 2) 0)
                  else ul_byte (mk_ul_hdr (qfi mod 64) 0 (rqi mod 2))) :: sdu in
      Ok (pdcp_takes drb pdu, [PdcpDataReq drb pdu])).
  { intros g. unfold nr_sdap_tx_entity, nr_sdap_qfi2drb_map. rewrite Ht. cbn [rbind drb_id hasSdap].
    apply Z.eqb_neq in Hd. rewrite !Hd. cbn [negb rbind]. rewrite ?Hd. cbn [negb rbind hasSdap].
    destruct (Z.eqb_spec (Z.of_nat (length sdu)) 0); [lia|].
    destruct (Z.gtb_spec (Z.of_nat (length sdu)) 8999); [lia|]. done. }
  split; eexists; (split; [apply Htx|]); cbv zeta; (split; [cbn [length]; lia|]).
  - unfold nr_sdap_rx_entity, dl_of_byte, dl_byte. cbn [andb dl_QFI dl_RQI dl_RDI].
    rewrite (Z.mod_small qfi), (Z.mod_small qfi 64) by lia. rewrite Z.mod_mod by lia.
    pose proof (Z.mod_pos_bound rqi 2).
    destruct (hdr_bits qfi (rqi mod 2) 0) as (_ & _ & E); [lia|lia|lia|].
    change (0 mod 2) with 0. rewrite E. done.
  - done.
Qed.

Definition sdap_example : nr_sdap_entity_t :=
  nr_sdap_qfi2drb_map_update (mk_sdap 1 1 10 (replicate 64 (mk_qfi2drb 0 false))) 5 1 true.

Lemma sdap_transfer_witness :
  exists pdu, nr_sdap_tx_entity (fun _ _ => true) sdap_example true 1 [1; 2] 5 0
                = Ok (true, [PdcpDataReq 1 pdu]) /\
    nr_sdap_rx_entity sdap_example 1 false true true 10 1 pdu = Ok (sdap_example, [NasWrite [1; 2]]).
Proof.
  destruct (sdap_transfer (fun _ _ => true) sdap_example sdap_example 1 5 0 1 1 10 [1; 2])
    as [(pdu & E1 & _ & E2) _].
  - lia.
  - reflexivity.
  - lia.
  - cbn. lia.
  - exists pdu. split; [exact E1|exact E2].
Defined.

(** The QFI to DRB mapping behaves as a table with a default: after an update
    with a QFI in 1..63 and a DRB in 1..5 that QFI maps to that DRB and every other
    QFI maps as before, any other update changes nothing, and a deleted rule falls
    back to the default DRB.  With a QFI below 64 no access leaves the table. *)
Theorem qfi2drb_map_correct (e : nr_sdap_entity_t) (qfi drb : Z) (s : bool) :
  sdap_wf e -> 0 <= qfi < 64 ->
  sdap_wf (nr_sdap_qfi2drb_map_update e qfi drb s) /\
  (forall q, 0 <= q < 64 ->
     nr_sdap_qfi2drb_map (nr_sdap_qfi2drb_map_update e qfi drb s) q
     = if (q =? qfi) && (0 <? qfi) && (0 <? drb) && (drb <=? 5) then Ok drb
       else nr_sdap_qfi2drb_map e q) /\
  exists e', nr_sdap_qfi2drb_map_del e qfi = Ok e' /\ sdap_wf e' /\
    nr_sdap_qfi2drb_map e' qfi = Ok (default_drb e) /\
    forall q, 0 <= q < 64 -> q <> qfi -> nr_sdap_qfi2drb_map e' q = nr_sdap_qfi2drb_map e q.
Proof.
  intros Hwf Hq. unfold nr_sdap_qfi2drb_map_update.
  assert (Hset : forall x, sdap_wf (table_set e qfi x)) by (intros; unfold sdap_wf; cbn; by rewrite length_insert).
  split; [destruct (_ && _); [apply Hset|done]|]. split.
  - intros q Hq'. rewrite !Z.gtb_ltb. unfold SDAP_MAX_QFI, SDAP_MAP_RULE_EMPTY, AVLBL_DRB.
    destruct (Z.ltb_spec qfi 64); [|lia].
    destruct (Z.ltb_spec 0 qfi), (Z.ltb_spec 0 drb), (Z.leb_spec drb 5); cbn [andb];
      rewrite ?andb_false_r, ?andb_true_r; try done.
    unfold nr_sdap_qfi2drb_map. rewrite table_get_set by (done || lia).
    destruct (q =? qfi); [|done]. cbn [rbind drb_id]. destruct (Z.eqb_spec drb 0); [lia|done].
  - destruct (table_get_ok e qfi Hwf Hq) as [x Hx]. unfold nr_sdap_qfi2drb_map_del. rewrite Hx. cbn [rbind].
    eexists. split; [done|]. split; [apply Hset|]. unfold nr_sdap_qfi2drb_map. split.
    + rewrite table_get_set, Z.eqb_refl by (done || lia). cbn [rbind drb_id]. cbn [Z.eqb negb SDAP_NO_MAPPING_RULE].
      cbn [table_set update default_drb]. destruct (Z.eqb_spec (default_drb e) 0) as [->|]; done.
    + intros q Hq' Hne. rewrite table_get_set by (done || lia).
      by rewrite (proj2 (Z.eqb_neq _ _) Hne).
Qed.

Lemma qfi2drb_map_correct_witness :
  nr_sdap_qfi2drb_map (nr_sdap_qfi2drb_map_update sdap_example 7 3 true) 7 = Ok 3.
Proof.
  destruct (qfi2drb_map_correct sdap_example 7 3 true) as (_ & H & _).
  - reflexivity.
  - lia.
  - apply (H 7). lia.
Defined.

(** Lookup of SDAP entities is exact when each RNTI has one entity: the entity
    found is the one of that RNTI and PDU session, and it is found whenever it is in
    the list; an entity created when there was none is found at the head. *)
Theorem sdap_get_entity_exact (l : sdap_info) (rnti sid : Z) :
  NoDup (sdap_rnti <$> l) ->
  (forall k, nr_sdap_get_entity l rnti sid = Some k <->
     exists e, l !! k = Some e /\ sdap_rnti e = rnti /\ sdap_pdusession_id e = sid) /\
  (forall hs def drb qfis, rnti ∉ (sdap_rnti <$> l) ->
     exists l', new_nr_sdap_entity l hs rnti sid def drb qfis = Ok (0%nat, l', []) /\
       nr_sdap_get_entity l' rnti sid = Some 0%nat /\ NoDup (sdap_rnti <$> l')).
Proof.
  intros Hnd.
  assert (Hex : forall k, nr_sdap_get_entity l rnti sid = Some k <->
     exists e, l !! k = Some e /\ sdap_rnti e = rnti /\ sdap_pdusession_id e = sid).
  { intros k. unfold nr_sdap_get_entity. rewrite get_entity_exact by done.
    rewrite Nat.sub_0_r. split; [intros (e & _ & H)|intros (e & H)]; exists e; [done|].
    split; [lia|done]. }
  split; [done|]. intros hs def drb qfis Hnin. unfold new_nr_sdap_entity.
  destruct (nr_sdap_get_entity l rnti sid) as [k|] eqn:Eg.
  { exfalso. destruct (proj1 (Hex k) eq_refl) as (e & Hl & Hr & _). apply Hnin. apply list_elem_of_fmap.
    exists e. split; [done|]. by eapply list_elem_of_lookup_2. }
  set (e0 := mk_sdap _ _ _ _). set (e1 := if def then _ else e0).
  assert (H1 : sdap_rnti e1 = rnti /\ sdap_pdusession_id e1 = sid).
  { subst e1. destruct def; [|done].
    assert (Hfold : forall e, sdap_rnti e = rnti /\ sdap_pdusession_id e = sid ->
      sdap_rnti (fold_left (fun e q => nr_sdap_qfi2drb_map_update e (u8 q) (default_drb e) hs) qfis e) = rnti /\
      sdap_pdusession_id (fold_left (fun e q => nr_sdap_qfi2drb_map_update e (u8 q) (default_drb e) hs) qfis e) = sid).
    { induction qfis as [|q qs IH]; intros e He; [done|]. cbn [fold_left]. apply IH.
      unfold nr_sdap_qfi2drb_map_update. by destruct (_ && _). }
    by apply Hfold. }
  destruct H1 as [H1 H2]. eexists. split; [done|]. split.
  - unfold nr_sdap_get_entity. cbn [get_entity_from]. rewrite H1, H2, !Z.eqb_refl. cbn. by destruct l.
  - cbn. rewrite H1. by apply list.NoDup_cons.
Qed.

Lemma sdap_get_entity_exact_witness :
  nr_sdap_get_entity [sdap_example] 1 10 = Some 0%nat.
Proof.
  destruct (sdap_get_entity_exact [sdap_example] 1 10) as [H _].
  - apply NoDup_singleton.
  - apply (H 0%nat). exists sdap_example. split; [reflexivity|]. split; reflexivity.
Defined.
