(* ===== verification/Gf2.v ===== *)
(** Polynomials over GF(2) as non-negative integers: product without carries, reduction
    modulo a polynomial, and multiplication by x with reduction, the operation from which
    SNOW 3G and its integrity function build their fields. *)

From S2P Require Import Prelude.
From Stdlib Require Import Btauto.

(** ** Reference definitions *)

(** Product of [a] by the polynomial of the [n] low bits of [b]. *)
Fixpoint clmul (n : nat) (a b : Z) : Z :=
  match n with
  | O => 0
  | S k => Z.lxor (if Z.testbit b (Z.of_nat k) then Z.shiftl a (Z.of_nat k) else 0) (clmul k a b)
  end.

(** Remainder modulo the polynomial [m] of degree [d] of a polynomial of degree below
    [d + n], by long division. *)
Fixpoint reduce (d m : Z) (n : nat) (x : Z) : Z :=
  match n with
  | O => x
  | S k =>
    reduce d m k (if Z.testbit x (d + Z.of_nat k) then Z.lxor x (Z.shiftl m (Z.of_nat k)) else x)
  end.

(** Multiplication in the field with [2 ^ d] elements of modulus [m]. *)
Definition gf_mul (d : nat) (m a b : Z) : Z := reduce (Z.of_nat d) m d (clmul d a b).

Fixpoint gf_pow (d : nat) (m a : Z) (e : positive) : Z :=
  match e with
  | xH => a
  | xO e => let r := gf_pow d m a e in gf_mul d m r r
  | xI e => let r := gf_pow d m a e in gf_mul d m a (gf_mul d m r r)
  end.

(** ** Words *)

Definition is_word (d x : Z) : Prop := 0 <= x < 2 ^ d.

Lemma word_bits d x : 0 <= d -> (is_word d x <-> 0 <= x /\ forall i, d <= i -> Z.testbit x i = false).
Proof.
  intros Hd. unfold is_word. split.
  - intros Hx. split; [lia|]. intros i Hi. rewrite <- (Z.mod_small x (2 ^ d)) by lia.
    apply Z.mod_pow2_bits_high. lia.
  - intros [H0 H]. split; [done|]. destruct (Z.lt_ge_cases x (2 ^ d)) as [|Hge]; [done|exfalso].
    assert (0 < x) by (pose proof (Z.pow_pos_nonneg 2 d); lia).
    assert (Hl : d <= Z.log2 x) by (by apply Z.log2_le_pow2).
    specialize (H _ Hl). by rewrite Z.bit_log2 in H by lia.
Qed.

Lemma word_lxor d x y : 0 <= d -> is_word d x -> is_word d y -> is_word d (Z.lxor x y).
Proof.
  intros Hd Hx Hy. apply word_bits in Hx as [? Hx], Hy as [? Hy]; [|done..]. apply word_bits; [done|].
  split; [by apply Z.lxor_nonneg|]. intros i Hi. by rewrite Z.lxor_spec, Hx, Hy.
Qed.

Lemma word_lor d x y : 0 <= d -> is_word d x -> is_word d y -> is_word d (Z.lor x y).
Proof.
  intros Hd Hx Hy. apply word_bits in Hx as [? Hx], Hy as [? Hy]; [|done..]. apply word_bits; [done|].
  split; [by apply Z.lor_nonneg|]. intros i Hi. by rewrite Z.lor_spec, Hx, Hy.
Qed.

Lemma word_land d x y : 0 <= d -> is_word d y -> is_word d (Z.land x y).
Proof.
  intros Hd Hy. apply word_bits in Hy as [? Hy]; [|done..]. apply word_bits; [done|].
  split; [apply Z.land_nonneg; lia|]. intros i Hi. by rewrite Z.land_spec, Hy, andb_false_r.
Qed.

Lemma word_mod d x : 0 <= d -> is_word d (x mod 2 ^ d).
Proof. intros Hd. apply Z.mod_pos_bound, Z.pow_pos_nonneg; lia. Qed.

Lemma word_shiftr d k x : 0 <= d -> 0 <= k -> is_word d x -> is_word d (Z.shiftr x k).
Proof.
  intros Hd Hk [H0 H]. split; [by apply Z.shiftr_nonneg|]. rewrite Z.shiftr_div_pow2 by done.
  eapply Z.le_lt_trans; [|exact H]. apply Z.div_le_upper_bound; [by apply Z.pow_pos_nonneg|].
  pose proof (Z.pow_pos_nonneg 2 k). nia.
Qed.

Lemma shiftl_lxor a b k : Z.shiftl (Z.lxor a b) k = Z.lxor (Z.shiftl a k) (Z.shiftl b k).
Proof. apply Z.shiftl_lxor. Qed.

(** ** Bits *)

Lemma Z_of_bits_app a b : Z_of_bits (a ++ b) = Z_of_bits a * 2 ^ Z.of_nat (length b) + Z_of_bits b.
Proof.
  induction a as [|x a IH]; [done|]. cbn [app]. rewrite !Z_of_bits_cons, IH, length_app, Nat2Z.inj_add, Z.pow_add_r by lia.
  lia.
Qed.

(** ** Linearity *)

Lemma clmul_linear n a b c : clmul n (Z.lxor a b) c = Z.lxor (clmul n a c) (clmul n b c).
Proof.
  induction n as [|n IH]; [done|]. cbn [clmul]. rewrite IH, shiftl_lxor.
  apply Z.bits_inj. intros i. destruct (Z.testbit c _); rewrite !Z.lxor_spec, ?Z.testbit_0_l; btauto.
Qed.

Lemma reduce_linear d m n x : forall y, reduce d m n (Z.lxor x y) = Z.lxor (reduce d m n x) (reduce d m n y).
Proof.
  revert x. induction n as [|n IH]; intros x y; [done|]. cbn [reduce]. rewrite <- IH. f_equal.
  rewrite Z.lxor_spec. apply Z.bits_inj. intros i.
  destruct (Z.testbit x _), (Z.testbit y _); cbn [xorb]; rewrite !Z.lxor_spec; btauto.
Qed.

Lemma reduce_0 d m n : reduce d m n 0 = 0.
Proof. induction n as [|n IH]; [done|]. cbn [reduce]. by rewrite Z.testbit_0_l. Qed.

(** ** Multiplication by x *)

(** The shift of a [d]-bit word with reduction, as SNOW 3G writes it. *)
Definition mulx (d c v : Z) : Z :=
  if Z.testbit v (d - 1) then Z.lxor ((2 * v) mod 2 ^ d) c else (2 * v) mod 2 ^ d.

Definition modulus (d c : Z) : Z := 2 ^ d + c.

Lemma modulus_lxor d c : 0 <= d -> is_word d c -> modulus d c = Z.lxor (2 ^ d) c.
Proof.
  intros Hd Hc. unfold modulus. rewrite Z.add_nocarry_lxor; [done|].
  apply word_bits in Hc as [H0 Hc]; [|done]. apply Z.bits_inj. intros i. rewrite Z.land_spec, Z.testbit_0_l.
  destruct (Z.lt_ge_cases i 0); [by rewrite !Z.testbit_neg_r|].
  rewrite Z.pow2_bits_eqb by done. destruct (Z.eqb_spec d i) as [->|]; [by rewrite Hc|done].
Qed.

Section Reduction.

Variables (d c : Z).
Hypothesis Hd : 0 < d.
Hypothesis Hc : is_word d c.

Lemma testbit_double x i : 0 <= i -> Z.testbit (2 * x) (i + 1) = Z.testbit x i.
Proof. intros Hi. rewrite Z.add_1_r. apply Z.double_bits_succ. Qed.

(** The top step of a reduction of a polynomial whose degree does not need it. *)
Lemma reduce_skip m n x :
  is_word (d + Z.of_nat n) x -> reduce d m (S n) x = reduce d m n x.
Proof.
  intros Hx. cbn [reduce]. apply word_bits in Hx as [_ Hx]; [|lia]. by rewrite Hx by lia.
Qed.

Lemma reduce_skip_more m n k x :
  is_word (d + Z.of_nat n) x -> (n <= k)%nat -> reduce d m k x = reduce d m n x.
Proof.
  intros Hx. induction 1 as [|k Hk IH]; [done|]. rewrite reduce_skip; [done|].
  unfold is_word in *. split; [lia|]. eapply Z.lt_le_trans; [apply Hx|]. apply Z.pow_le_mono_r; lia.
Qed.

(** One step of the division lowers the degree. *)
Lemma reduce_step_word n x :
  is_word (d + Z.of_nat (S n)) x ->
  is_word (d + Z.of_nat n)
    (if Z.testbit x (d + Z.of_nat n) then Z.lxor x (Z.shiftl (modulus d c) (Z.of_nat n)) else x).
Proof.
  intros Hx. apply word_bits in Hx as [H0 Hx]; [|lia]. pose proof Hc as Hc'.
  apply word_bits in Hc' as [Hc0 Hc']; [|lia]. apply word_bits; [lia|].
  destruct (Z.testbit x _) eqn:E.
  - assert (Hm : 0 <= modulus d c) by (unfold modulus; pose proof (Z.pow_pos_nonneg 2 d); lia).
    split; [apply Z.lxor_nonneg; split; [intros _; by apply Z.shiftl_nonneg|done]|].
    intros i Hi. rewrite Z.lxor_spec, Z.shiftl_spec, modulus_lxor, Z.lxor_spec, Z.pow2_bits_eqb by (done || lia).
    rewrite Hc' by lia. destruct (Z.eqb_spec d (i - Z.of_nat n)) as [He|He].
    + replace i with (d + Z.of_nat n) by lia. by rewrite E.
    + rewrite Hx by lia. done.
  - split; [done|]. intros i Hi. destruct (decide (i = d + Z.of_nat n)) as [->|]; [done|]. apply Hx. lia.
Qed.

Lemma reduce_word n x : is_word (d + Z.of_nat n) x -> is_word d (reduce d (modulus d c) n x).
Proof.
  revert x. induction n as [|n IH]; intros x Hx; [by rewrite Z.add_0_r in Hx|].
  cbn [reduce]. apply IH, reduce_step_word, Hx.
Qed.

Lemma mulx_word v : is_word d v -> is_word d (mulx d c v).
Proof.
  intros Hv. unfold mulx. destruct (Z.testbit _ _); [apply word_lxor; [lia| |done]|]; apply word_mod; lia.
Qed.

(** [mulx] is the last step of the reduction of a doubled word. *)
Lemma mulx_reduce v : is_word d v -> mulx d c v = reduce d (modulus d c) 1 (2 * v).
Proof.
  intros Hv. cbn [reduce]. change (Z.of_nat 0) with 0.
  assert (Hb : Z.testbit (2 * v) (d + 0) = Z.testbit v (d - 1)).
  { rewrite <- (testbit_double v (d - 1)) by lia. f_equal. lia. }
  rewrite Hb, Z.shiftl_0_r. unfold mulx. destruct (Z.testbit v (d - 1)) eqn:E.
  - rewrite modulus_lxor, <- Z.lxor_assoc by (done || lia). f_equal.
    apply Z.bits_inj'. intros i Hi. rewrite Z.lxor_spec, Z.pow2_bits_eqb by lia.
    destruct (Z.lt_ge_cases i d).
    + rewrite Z.mod_pow2_bits_low by done. destruct (Z.eqb_spec d i); [lia|by rewrite xorb_false_r].
    + rewrite Z.mod_pow2_bits_high by lia. destruct (Z.eqb_spec d i) as [<-|].
      * rewrite Z.add_0_r in Hb. by rewrite Hb.
      * rewrite xorb_false_r. replace i with (i - 1 + 1) by lia. rewrite testbit_double by lia.
        apply word_bits in Hv as [_ Hv]; [|lia]. by rewrite Hv by lia.
  - apply Z.mod_small. unfold is_word in Hv. split; [lia|].
    assert (is_word (d - 1) v); [|unfold is_word in *; rewrite <- (Z.sub_simpl_r d 1), Z.pow_add_r; lia].
    apply word_bits; [lia|]. apply word_bits in Hv as [? Hv]; [|lia]. split; [done|].
    intros i Hi. destruct (decide (i = d - 1)) as [->|]; [done|]. apply Hv. lia.
Qed.

Lemma reduce_double n x :
  is_word (d + Z.of_nat n) x ->
  reduce d (modulus d c) (S n) (2 * x) = mulx d c (reduce d (modulus d c) n x).
Proof.
  revert x. induction n as [|n IH]; intros x Hx.
  { rewrite Z.add_0_r in Hx. by rewrite mulx_reduce. }
  pose proof (reduce_step_word n x Hx) as Hs. change (reduce d (modulus d c) (S n) x) with
    (reduce d (modulus d c) n (if Z.testbit x (d + Z.of_nat n)
       then Z.lxor x (Z.shiftl (modulus d c) (Z.of_nat n)) else x)).
  rewrite <- IH by done. cbn [reduce]. f_equal.
  replace (d + Z.of_nat (S n)) with (d + Z.of_nat n + 1) by lia. rewrite testbit_double by lia.
  destruct (Z.testbit x (d + Z.of_nat n)); [|done].
  replace (Z.of_nat (S n)) with (Z.of_nat n + 1) by lia.
  rewrite <- (Z.mul_comm _ 2), <- (Z.mul_comm _ 2), <- !(Z.shiftl_mul_pow2 _ 1), shiftl_lxor, Z.shiftl_shiftl by lia.
  done.
Qed.

(** Multiplication by a power of x. *)
Fixpoint mulx_pow (v : Z) (i : nat) : Z :=
  match i with O => v | S i => mulx d c (mulx_pow v i) end.

Lemma mulx_pow_word v i : is_word d v -> is_word d (mulx_pow v i).
Proof. intros Hv. induction i; [done|]. by apply mulx_word. Qed.

Lemma shiftl_word v i : is_word d v -> is_word (d + Z.of_nat i) (Z.shiftl v (Z.of_nat i)).
Proof.
  intros [H0 H]. unfold is_word. rewrite Z.shiftl_mul_pow2, Z.pow_add_r by lia.
  pose proof (Z.pow_pos_nonneg 2 (Z.of_nat i)). nia.
Qed.

Lemma mulx_pow_reduce v i :
  is_word d v -> mulx_pow v i = reduce d (modulus d c) i (Z.shiftl v (Z.of_nat i)).
Proof.
  intros Hv. induction i as [|i IH]; [by rewrite Z.shiftl_0_r|].
  cbn [mulx_pow]. rewrite IH, <- reduce_double by by apply shiftl_word. f_equal.
  rewrite !Z.shiftl_mul_pow2 by lia. replace (Z.of_nat (S i)) with (Z.of_nat i + 1) by lia.
  rewrite Z.pow_add_r by lia. lia.
Qed.

(** The sum of the multiples by x^i over the bits of [p] is the product in the field. *)
Fixpoint mul_loop (n : nat) (v p : Z) : Z :=
  match n with
  | O => 0
  | S k => Z.lxor (mul_loop k v p) (if Z.testbit p (Z.of_nat k) then mulx_pow v k else 0)
  end.

Lemma mul_loop_reduce n k v p :
  is_word d v -> (n <= k)%nat -> mul_loop n v p = reduce d (modulus d c) k (clmul n v p).
Proof.
  intros Hv Hk. induction n as [|n IH]; [by rewrite reduce_0|]. cbn [mul_loop clmul].
  rewrite IH, reduce_linear, Z.lxor_comm by lia. f_equal. destruct (Z.testbit p _); [|by rewrite reduce_0].
  rewrite mulx_pow_reduce by done. symmetry. apply reduce_skip_more; [by apply shiftl_word|lia].
Qed.

End Reduction.

Lemma mul_loop_word d c n v p : 0 < d -> is_word d c -> is_word d v -> is_word d (mul_loop d c n v p).
Proof.
  intros Hd Hc Hv. induction n as [|n IH]; cbn [mul_loop]; [split; [done|by apply Z.pow_pos_nonneg; lia]|].
  apply word_lxor; [lia|done|]. destruct (Z.testbit _ _); [by apply mulx_pow_word|].
  split; [done|by apply Z.pow_pos_nonneg; lia].
Qed.

(** ** Repeated multiplication by x *)

Lemma iter_linear (f : Z -> Z) n a b :
  (forall a b, f (Z.lxor a b) = Z.lxor (f a) (f b)) ->
  Nat.iter n f (Z.lxor a b) = Z.lxor (Nat.iter n f a) (Nat.iter n f b).
Proof. intros Hf. induction n as [|n IH]; [done|]. rewrite !Nat.iter_succ, IH. apply Hf. Qed.

Lemma lxor_mod_pow2 a b d : 0 <= d -> Z.lxor a b mod 2 ^ d = Z.lxor (a mod 2 ^ d) (b mod 2 ^ d).
Proof.
  intros Hd. apply Z.bits_inj'. intros i Hi. rewrite Z.lxor_spec. destruct (Z.lt_ge_cases i d).
  - by rewrite !Z.mod_pow2_bits_low, Z.lxor_spec by done.
  - by rewrite !Z.mod_pow2_bits_high by lia.
Qed.

Lemma double_lxor a b : 2 * Z.lxor a b = Z.lxor (2 * a) (2 * b).
Proof. rewrite <- !(Z.mul_comm _ 2). change 2 with (2 ^ 1) at 1 2 3. by rewrite <- !Z.shiftl_mul_pow2, shiftl_lxor. Qed.

Lemma mulx_linear d c a b : 0 <= d -> mulx d c (Z.lxor a b) = Z.lxor (mulx d c a) (mulx d c b).
Proof.
  intros Hd. unfold mulx. rewrite Z.lxor_spec, double_lxor, lxor_mod_pow2 by done.
  apply Z.bits_inj. intros i.
  destruct (Z.testbit a _), (Z.testbit b _); cbn [xorb]; rewrite !Z.lxor_spec; btauto.
Qed.

(** As long as the top bit is clear, multiplication by x is a shift. *)
Lemma mulx_shift d c v : 0 < d -> 0 <= v < 2 ^ (d - 1) -> mulx d c v = 2 * v.
Proof.
  intros Hd Hv. unfold mulx.
  assert (Hw : is_word (d - 1) v) by done. apply word_bits in Hw as [_ Hw]; [|lia]. rewrite Hw by lia.
  apply Z.mod_small. replace d with (d - 1 + 1) by lia. rewrite Z.pow_add_r by lia. lia.
Qed.

Lemma iter_mulx_shift d c k v :
  Z.of_nat k <= d -> 0 <= v < 2 ^ (d - Z.of_nat k) -> Nat.iter k (mulx d c) v = Z.shiftl v (Z.of_nat k).
Proof.
  intros Hk. revert v. induction k as [|k IH]; intros v Hv; [by rewrite Z.shiftl_0_r|].
  rewrite Nat.iter_succ_r, mulx_shift; [| lia |].
  - rewrite IH by (rewrite ?(Z.mul_comm 2); replace (d - Z.of_nat k) with (d - Z.of_nat (S k) + 1) by lia;
      rewrite ?Z.pow_add_r by lia; lia).
    rewrite !Z.shiftl_mul_pow2, Nat2Z.inj_succ, Z.pow_succ_r by lia. lia.
  - split; [lia|]. eapply Z.lt_le_trans; [apply Hv|]. apply Z.pow_le_mono_r; lia.
Qed.

Lemma mulx_zero d c v : 0 < d -> Z.testbit c 0 = true -> is_word d v -> mulx d c v = 0 -> v = 0.
Proof.
  intros Hd Hc Hv H. unfold mulx in H. destruct (Z.testbit v (d - 1)) eqn:E.
  - apply Z.lxor_eq in H. exfalso. rewrite <- H in Hc. rewrite Z.mod_pow2_bits_low in Hc by lia.
    by rewrite Z.testbit_even_0 in Hc.
  - assert (Hw : is_word (d - 1) v).
    { apply word_bits in Hv as [? Hv]; [|lia]. apply word_bits; [lia|]. split; [done|].
      intros i Hi. destruct (decide (i = d - 1)) as [->|]; [done|]. apply Hv. lia. }
    unfold is_word in *. rewrite Z.mod_small in H; [lia|]. split; [lia|].
    replace d with (d - 1 + 1) by lia. rewrite Z.pow_add_r by lia. lia.
Qed.

(** Scaling the modulus scales the remainder. *)
Lemma reduce_scale d m j n : 0 <= d -> 0 <= j -> forall x,
  reduce (d + j) (Z.shiftl m j) n (Z.shiftl x j) = Z.shiftl (reduce d m n x) j.
Proof.
  intros Hd Hj. induction n as [|n IH]; intros x; [done|]. cbn [reduce].
  rewrite <- IH. f_equal. rewrite Z.shiftl_spec by lia. replace (d + j + Z.of_nat n - j) with (d + Z.of_nat n) by lia.
  destruct (Z.testbit x _); [|done].
  rewrite shiftl_lxor, !Z.shiftl_shiftl by lia. by rewrite (Z.add_comm j).
Qed.
