(* ===== verification/Snow3g.v ===== *)
(** The SNOW 3G stream cipher: [snow3g.c] and the S-boxes of [rijndael.c].

    The context is the record of the C structure: sixteen words of the shift register and
    three of the state machine.  The two loops of the code run a fixed or given number of
    times and are iterations over [nat]. *)

From S2P Require Import Prelude.
From S2P Require Import Gf2.

(** ** rijndael.c *)

Definition SR : list Z :=
  [0x63; 0x7c; 0x77; 0x7b; 0xf2; 0x6b; 0x6f; 0xc5; 0x30; 0x01; 0x67; 0x2b; 0xfe; 0xd7; 0xab; 0x76;
   0xca; 0x82; 0xc9; 0x7d; 0xfa; 0x59; 0x47; 0xf0; 0xad; 0xd4; 0xa2; 0xaf; 0x9c; 0xa4; 0x72; 0xc0;
   0xb7; 0xfd; 0x93; 0x26; 0x36; 0x3f; 0xf7; 0xcc; 0x34; 0xa5; 0xe5; 0xf1; 0x71; 0xd8; 0x31; 0x15;
   0x04; 0xc7; 0x23; 0xc3; 0x18; 0x96; 0x05; 0x9a; 0x07; 0x12; 0x80; 0xe2; 0xeb; 0x27; 0xb2; 0x75;
   0x09; 0x83; 0x2c; 0x1a; 0x1b; 0x6e; 0x5a; 0xa0; 0x52; 0x3b; 0xd6; 0xb3; 0x29; 0xe3; 0x2f; 0x84;
   0x53; 0xd1; 0x00; 0xed; 0x20; 0xfc; 0xb1; 0x5b; 0x6a; 0xcb; 0xbe; 0x39; 0x4a; 0x4c; 0x58; 0xcf;
   0xd0; 0xef; 0xaa; 0xfb; 0x43; 0x4d; 0x33; 0x85; 0x45; 0xf9; 0x02; 0x7f; 0x50; 0x3c; 0x9f; 0xa8;
   0x51; 0xa3; 0x40; 0x8f; 0x92; 0x9d; 0x38; 0xf5; 0xbc; 0xb6; 0xda; 0x21; 0x10; 0xff; 0xf3; 0xd2;
   0xcd; 0x0c; 0x13; 0xec; 0x5f; 0x97; 0x44; 0x17; 0xc4; 0xa7; 0x7e; 0x3d; 0x64; 0x5d; 0x19; 0x73;
   0x60; 0x81; 0x4f; 0xdc; 0x22; 0x2a; 0x90; 0x88; 0x46; 0xee; 0xb8; 0x14; 0xde; 0x5e; 0x0b; 0xdb;
   0xe0; 0x32; 0x3a; 0x0a; 0x49; 0x06; 0x24; 0x5c; 0xc2; 0xd3; 0xac; 0x62; 0x91; 0x95; 0xe4; 0x79;
   0xe7; 0xc8; 0x37; 0x6d; 0x8d; 0xd5; 0x4e; 0xa9; 0x6c; 0x56; 0xf4; 0xea; 0x65; 0x7a; 0xae; 0x08;
   0xba; 0x78; 0x25; 0x2e; 0x1c; 0xa6; 0xb4; 0xc6; 0xe8; 0xdd; 0x74; 0x1f; 0x4b; 0xbd; 0x8b; 0x8a;
   0x70; 0x3e; 0xb5; 0x66; 0x48; 0x03; 0xf6; 0x0e; 0x61; 0x35; 0x57; 0xb9; 0x86; 0xc1; 0x1d; 0x9e;
   0xe1; 0xf8; 0x98; 0x11; 0x69; 0xd9; 0x8e; 0x94; 0x9b; 0x1e; 0x87; 0xe9; 0xce; 0x55; 0x28; 0xdf;
   0x8c; 0xa1; 0x89; 0x0d; 0xbf; 0xe6; 0x42; 0x68; 0x41; 0x99; 0x2d; 0x0f; 0xb0; 0x54; 0xbb; 0x16].

Definition SQ : list Z :=
  [0x25; 0x24; 0x73; 0x67; 0xd7; 0xae; 0x5c; 0x30; 0xa4; 0xee; 0x6e; 0xcb; 0x7d; 0xb5; 0x82; 0xdb;
   0xe4; 0x8e; 0x48; 0x49; 0x4f; 0x5d; 0x6a; 0x78; 0x70; 0x88; 0xe8; 0x5f; 0x5e; 0x84; 0x65; 0xe2;
   0xd8; 0xe9; 0xcc; 0xed; 0x40; 0x2f; 0x11; 0x28; 0x57; 0xd2; 0xac; 0xe3; 0x4a; 0x15; 0x1b; 0xb9;
   0xb2; 0x80; 0x85; 0xa6; 0x2e; 0x02; 0x47; 0x29; 0x07; 0x4b; 0x0e; 0xc1; 0x51; 0xaa; 0x89; 0xd4;
   0xca; 0x01; 0x46; 0xb3; 0xef; 0xdd; 0x44; 0x7b; 0xc2; 0x7f; 0xbe; 0xc3; 0x9f; 0x20; 0x4c; 0x64;
   0x83; 0xa2; 0x68; 0x42; 0x13; 0xb4; 0x41; 0xcd; 0xba; 0xc6; 0xbb; 0x6d; 0x4d; 0x71; 0x21; 0xf4;
   0x8d; 0xb0; 0xe5; 0x93; 0xfe; 0x8f; 0xe6; 0xcf; 0x43; 0x45; 0x31; 0x22; 0x37; 0x36; 0x96; 0xfa;
   0xbc; 0x0f; 0x08; 0x52; 0x1d; 0x55; 0x1a; 0xc5; 0x4e; 0x23; 0x69; 0x7a; 0x92; 0xff; 0x5b; 0x5a;
   0xeb; 0x9a; 0x1c; 0xa9; 0xd1; 0x7e; 0x0d; 0xfc; 0x50; 0x8a; 0xb6; 0x62; 0xf5; 0x0a; 0xf8; 0xdc;
   0x03; 0x3c; 0x0c; 0x39; 0xf1; 0xb8; 0xf3; 0x3d; 0xf2; 0xd5; 0x97; 0x66; 0x81; 0x32; 0xa0; 0x00;
   0x06; 0xce; 0xf6; 0xea; 0xb7; 0x17; 0xf7; 0x8c; 0x79; 0xd6; 0xa7; 0xbf; 0x8b; 0x3f; 0x1f; 0x53;
   0x63; 0x75; 0x35; 0x2c; 0x60; 0xfd; 0x27; 0xd3; 0x94; 0xa5; 0x7c; 0xa1; 0x05; 0x58; 0x2d; 0xbd;
   0xd9; 0xc7; 0xaf; 0x6b; 0x54; 0x0b; 0xe0; 0x38; 0x04; 0xc8; 0x9d; 0xe7; 0x14; 0xb1; 0x87; 0x9c;
   0xdf; 0x6f; 0xf9; 0xda; 0x2a; 0xc4; 0x59; 0x16; 0x74; 0x91; 0xab; 0x26; 0x61; 0x76; 0x34; 0x2b;
   0xad; 0x99; 0xfb; 0x72; 0xec; 0x33; 0x12; 0xde; 0x98; 0x3b; 0xc0; 0x9b; 0x3e; 0x18; 0x10; 0x3a;
   0x56; 0xe1; 0x77; 0xc9; 0x1e; 0x9e; 0x95; 0xa3; 0x90; 0x19; 0xa8; 0x6c; 0x09; 0xd0; 0xf0; 0x86].

(** ** snow3g.h *)

Record snow_3g_context_t := mk_s3g {
  LFSR_S0 : Z; LFSR_S1 : Z; LFSR_S2 : Z; LFSR_S3 : Z;
  LFSR_S4 : Z; LFSR_S5 : Z; LFSR_S6 : Z; LFSR_S7 : Z;
  LFSR_S8 : Z; LFSR_S9 : Z; LFSR_S10 : Z; LFSR_S11 : Z;
  LFSR_S12 : Z; LFSR_S13 : Z; LFSR_S14 : Z; LFSR_S15 : Z;
  FSM_R1 : Z; FSM_R2 : Z; FSM_R3 : Z
}.

#[export] Instance eta_s3g : Eta snow_3g_context_t := fun s =>
  mk_s3g (LFSR_S0 s) (LFSR_S1 s) (LFSR_S2 s) (LFSR_S3 s) (LFSR_S4 s) (LFSR_S5 s) (LFSR_S6 s)
    (LFSR_S7 s) (LFSR_S8 s) (LFSR_S9 s) (LFSR_S10 s) (LFSR_S11 s) (LFSR_S12 s) (LFSR_S13 s)
    (LFSR_S14 s) (LFSR_S15 s) (FSM_R1 s) (FSM_R2 s) (FSM_R3 s).

(** ** snow3g.c *)

Definition MULx (V c : Z) : Z :=
  if negb (Z.land V 0x80 =? 0) then u8 (Z.lxor (Z.shiftl V 1) c) else u8 (Z.shiftl V 1).

Fixpoint MULxPOW (V : Z) (i : nat) (c : Z) : Z :=
  match i with
  | O => V
  | S i => MULx (MULxPOW V i c) c
  end.

(** [(r0 << 24) | (r1 << 16) | (r2 << 8) | r3] of bytes *)
Definition word_of (r0 r1 r2 r3 : Z) : Z :=
  Z.lor (Z.lor (Z.lor (Z.shiftl r0 24) (Z.shiftl r1 16)) (Z.shiftl r2 8)) r3.

Definition MULalpha (c : Z) : Z :=
  word_of (MULxPOW c 23 0xa9) (MULxPOW c 245 0xa9) (MULxPOW c 48 0xa9) (MULxPOW c 239 0xa9).

Definition DIValpha (c : Z) : Z :=
  word_of (MULxPOW c 16 0xa9) (MULxPOW c 39 0xa9) (MULxPOW c 6 0xa9) (MULxPOW c 64 0xa9).

(** [(uint8_t)((w >> k) & 0xff)] *)
Definition byte_of (w k : Z) : Z := Z.land (Z.shiftr w k) 0xff.

(** [t[i]] of a table of 256 bytes. *)
Definition tab (t : list Z) (i : Z) : Z := default 0 (t !! Z.to_nat i).

Definition S1 (w : Z) : Z :=
  let srw0 := tab SR (byte_of w 24) in
  let srw1 := tab SR (byte_of w 16) in
  let srw2 := tab SR (byte_of w 8) in
  let srw3 := tab SR (byte_of w 0) in
  let r0 := Z.lxor (Z.lxor (Z.lxor (MULx srw0 0x1b) srw1) srw2) (Z.lxor (MULx srw3 0x1b) srw3) in
  let r1 := Z.lxor (Z.lxor (Z.lxor (Z.lxor (MULx srw0 0x1b) srw0) (MULx srw1 0x1b)) srw2) srw3 in
  let r2 := Z.lxor (Z.lxor (Z.lxor srw0 (Z.lxor (MULx srw1 0x1b) srw1)) (MULx srw2 0x1b)) srw3 in
  let r3 := Z.lxor (Z.lxor (Z.lxor srw0 srw1) (Z.lxor (MULx srw2 0x1b) srw2)) (MULx srw3 0x1b) in
  word_of r0 r1 r2 r3.

Definition S2 (w : Z) : Z :=
  let sqw0 := tab SQ (byte_of w 24) in
  let sqw1 := tab SQ (byte_of w 16) in
  let sqw2 := tab SQ (byte_of w 8) in
  let sqw3 := tab SQ (byte_of w 0) in
  let r0 := Z.lxor (Z.lxor (Z.lxor (MULx sqw0 0x69) sqw1) sqw2) (Z.lxor (MULx sqw3 0x69) sqw3) in
  let r1 := Z.lxor (Z.lxor (Z.lxor (Z.lxor (MULx sqw0 0x69) sqw0) (MULx sqw1 0x69)) sqw2) sqw3 in
  let r2 := Z.lxor (Z.lxor (Z.lxor sqw0 (Z.lxor (MULx sqw1 0x69) sqw1)) (MULx sqw2 0x69)) sqw3 in
  let r3 := Z.lxor (Z.lxor (Z.lxor sqw0 sqw1) (Z.lxor (MULx sqw2 0x69) sqw2)) (MULx sqw3 0x69) in
  word_of r0 r1 r2 r3.

(** The assignments that shift the register and put [v] at its end. *)
Definition shift_in (s : snow_3g_context_t) (v : Z) : snow_3g_context_t :=
  mk_s3g (LFSR_S1 s) (LFSR_S2 s) (LFSR_S3 s) (LFSR_S4 s) (LFSR_S5 s) (LFSR_S6 s) (LFSR_S7 s)
    (LFSR_S8 s) (LFSR_S9 s) (LFSR_S10 s) (LFSR_S11 s) (LFSR_S12 s) (LFSR_S13 s) (LFSR_S14 s)
    (LFSR_S15 s) v (FSM_R1 s) (FSM_R2 s) (FSM_R3 s).

Definition snow3g_clock_LFSR_initialization_mode (F : Z) (s : snow_3g_context_t) : snow_3g_context_t :=
  let v :=
    Z.lxor (Z.lxor (Z.lxor (Z.lxor (Z.lxor
      (Z.land (u32 (Z.shiftl (LFSR_S0 s) 8)) 0xffffff00)
      (MULalpha (byte_of (LFSR_S0 s) 24)))
      (LFSR_S2 s))
      (Z.land (Z.shiftr (LFSR_S11 s) 8) 0x00ffffff))
      (DIValpha (byte_of (LFSR_S11 s) 0)))
      F in
  shift_in s v.

Definition snow3g_clock_LFSR_key_stream_mode (s : snow_3g_context_t) : snow_3g_context_t :=
  let v :=
    Z.lxor (Z.lxor (Z.lxor (Z.lxor
      (Z.land (u32 (Z.shiftl (LFSR_S0 s) 8)) 0xffffff00)
      (MULalpha (byte_of (LFSR_S0 s) 24)))
      (LFSR_S2 s))
      (Z.land (Z.shiftr (LFSR_S11 s) 8) 0x00ffffff))
      (DIValpha (byte_of (LFSR_S11 s) 0)) in
  shift_in s v.

Definition snow3g_clock_fsm (s : snow_3g_context_t) : Z * snow_3g_context_t :=
  let F := Z.lxor (u32 (LFSR_S15 s + FSM_R1 s)) (FSM_R2 s) in
  let r := u32 (FSM_R2 s + Z.lxor (FSM_R3 s) (LFSR_S5 s)) in
  (F, s <| FSM_R3 := S2 (FSM_R2 s) |> <| FSM_R2 := S1 (FSM_R1 s) |> <| FSM_R1 := r |>).

(** One turn of the loop of [snow3g_initialize]. *)
Definition init_turn (s : snow_3g_context_t) : snow_3g_context_t :=
  let '(F, s) := snow3g_clock_fsm s in
  snow3g_clock_LFSR_initialization_mode F s.

(** Key and IV are the four words [k[0] .. k[3]] and [IV[0] .. IV[3]]. *)
Definition snow3g_initialize (k0 k1 k2 k3 IV0 IV1 IV2 IV3 : Z) : snow_3g_context_t :=
  let s :=
    {| LFSR_S15 := Z.lxor k3 IV0; LFSR_S14 := k2; LFSR_S13 := k1; LFSR_S12 := Z.lxor k0 IV1;
       LFSR_S11 := Z.lxor k3 0xffffffff; LFSR_S10 := Z.lxor (Z.lxor k2 0xffffffff) IV2;
       LFSR_S9 := Z.lxor (Z.lxor k1 0xffffffff) IV3; LFSR_S8 := Z.lxor k0 0xffffffff;
       LFSR_S7 := k3; LFSR_S6 := k2; LFSR_S5 := k1; LFSR_S4 := k0;
       LFSR_S3 := Z.lxor k3 0xffffffff; LFSR_S2 := Z.lxor k2 0xffffffff;
       LFSR_S1 := Z.lxor k1 0xffffffff; LFSR_S0 := Z.lxor k0 0xffffffff;
       FSM_R1 := 0; FSM_R2 := 0; FSM_R3 := 0 |} in
  Nat.iter 32 init_turn s.

(** The [for] loop of [snow3g_generate_key_stream]. *)
Fixpoint key_stream_loop (n : nat) (s : snow_3g_context_t) : list Z * snow_3g_context_t :=
  match n with
  | O => ([], s)
  | S n =>
    let '(F, s) := snow3g_clock_fsm s in
    let z := Z.lxor F (LFSR_S0 s) in
    let s := snow3g_clock_LFSR_key_stream_mode s in
    let '(ks, s) := key_stream_loop n s in
    (z :: ks, s)
  end.

Definition snow3g_generate_key_stream (n : nat) (s : snow_3g_context_t) : list Z * snow_3g_context_t :=
  let '(_, s) := snow3g_clock_fsm s in
  let s := snow3g_clock_LFSR_key_stream_mode s in
  key_stream_loop n s.

(** ** Bytes and words *)

Definition bytes256 : list Z := seqZ 0 256.

(** A property of bytes checked on all of them. *)
Lemma all_bytes (P : Z -> bool) : forallb P bytes256 = true -> forall x, is_word 8 x -> P x = true.
Proof.
  intros H x Hx. rewrite forallb_forall in H. apply H, list_elem_of_In, elem_of_seqZ. unfold is_word in Hx. lia.
Qed.

Lemma byte_of_word w k : 0 <= w -> 0 <= k -> is_word 8 (byte_of w k).
Proof. intros Hw Hk. apply word_land; [lia|unfold is_word; lia]. Qed.

Lemma byte_of_bit w k i : 0 <= i -> 0 <= k -> Z.testbit (byte_of w k) i = Z.testbit w (i + k) && (i <? 8).
Proof.
  intros Hi Hk. unfold byte_of. change 0xff with (Z.ones 8).
  rewrite Z.land_spec, Z.shiftr_spec, Z.testbit_ones_nonneg by lia. done.
Qed.

Lemma u8_lxor a b : u8 (Z.lxor a b) = Z.lxor (u8 a) (u8 b).
Proof.
  unfold u8. apply Z.bits_inj'. intros i Hi. rewrite Z.lxor_spec. destruct (Z.lt_ge_cases i 8).
  - rewrite !Z.mod_pow2_bits_low by done. by rewrite Z.lxor_spec.
  - by rewrite !Z.mod_pow2_bits_high by lia.
Qed.

(** The shift of the code is multiplication by x in the field. *)
Lemma MULx_mulx V c : is_word 8 c -> MULx V c = mulx 8 c V.
Proof.
  intros Hc. unfold MULx, mulx. change 0x80 with (2 ^ 7). rewrite testbit_land_pow2 by lia.
  change (8 - 1) with 7. rewrite !Z.shiftl_mul_pow2, (Z.mul_comm V) by lia. change (2 ^ 1) with 2.
  rewrite u8_lxor. unfold u8 at 2. rewrite (Z.mod_small c) by done. done.
Qed.

Lemma MULxPOW_mulx V i c : is_word 8 c -> MULxPOW V i c = mulx_pow 8 c V i.
Proof. intros Hc. induction i as [|i IH]; [done|]. cbn [MULxPOW mulx_pow]. by rewrite IH, MULx_mulx. Qed.

Lemma MULx_word V c : is_word 8 c -> is_word 8 V -> is_word 8 (MULx V c).
Proof. intros. rewrite MULx_mulx by done. by apply mulx_word. Qed.

Lemma MULxPOW_word V i c : is_word 8 c -> is_word 8 V -> is_word 8 (MULxPOW V i c).
Proof. intros. rewrite MULxPOW_mulx by done. by apply mulx_pow_word. Qed.

Lemma word_widen d d' x : 0 <= d <= d' -> is_word d x -> is_word d' x.
Proof. intros Hd [? ?]. split; [done|]. eapply Z.lt_le_trans; [done|]. apply Z.pow_le_mono_r; lia. Qed.

Lemma byte_shifted x k : 0 <= k <= 24 -> is_word 8 x -> is_word 32 (Z.shiftl x k).
Proof.
  intros Hk Hx. apply (word_widen (8 + k)); [lia|]. unfold is_word in *.
  rewrite Z.shiftl_mul_pow2, Z.pow_add_r by lia. pose proof (Z.pow_pos_nonneg 2 k). nia.
Qed.

Lemma word_of_word a b c d :
  is_word 8 a -> is_word 8 b -> is_word 8 c -> is_word 8 d -> is_word 32 (word_of a b c d).
Proof.
  intros. unfold word_of. repeat apply word_lor; try lia; try (apply byte_shifted; [lia|done]).
  by apply (word_widen 8); [lia|].
Qed.

Lemma MULalpha_word c : is_word 8 c -> is_word 32 (MULalpha c).
Proof.
  intros Hc. unfold MULalpha. assert (Ha : is_word 8 0xa9) by (unfold is_word; lia).
  apply word_of_word; by apply MULxPOW_word.
Qed.

Lemma DIValpha_word c : is_word 8 c -> is_word 32 (DIValpha c).
Proof.
  intros Hc. unfold DIValpha. assert (Ha : is_word 8 0xa9) by (unfold is_word; lia).
  apply word_of_word; by apply MULxPOW_word.
Qed.

#[local] Opaque MULxPOW MULalpha DIValpha.

Lemma SR_bytes x : is_word 8 x -> is_word 8 (tab SR x).
Proof.
  intros Hx. pose proof (all_bytes (fun x => (0 <=? tab SR x) && (tab SR x <? 256)) eq_refl x Hx) as H.
  unfold is_word. cbn beta in H. b2p. lia.
Qed.

Lemma SQ_bytes x : is_word 8 x -> is_word 8 (tab SQ x).
Proof.
  intros Hx. pose proof (all_bytes (fun x => (0 <=? tab SQ x) && (tab SQ x <? 256)) eq_refl x Hx) as H.
  unfold is_word. cbn beta in H. b2p. lia.
Qed.

Ltac byte_word :=
  repeat match goal with
  | |- is_word _ (Z.lxor _ _) => apply word_lxor; [lia| |]
  | |- is_word _ (MULx _ _) => apply MULx_word; [unfold is_word; lia|]
  | |- is_word _ (tab SR _) => apply SR_bytes
  | |- is_word _ (tab SQ _) => apply SQ_bytes
  | |- is_word _ (byte_of _ _) => apply byte_of_word; lia
  end.

Lemma S1_word w : 0 <= w -> is_word 32 (S1 w).
Proof. intros Hw. unfold S1. apply word_of_word; byte_word. Qed.

Lemma S2_word w : 0 <= w -> is_word 32 (S2 w).
Proof. intros Hw. unfold S2. apply word_of_word; byte_word. Qed.

(** ** The S-boxes against their definitions *)

(** The S-box of Rijndael: inversion in the field of modulus x^8 + x^4 + x^3 + x + 1, then
    an affine map. *)
Definition rotl8 (x k : Z) : Z := Z.lor (u8 (Z.shiftl x k)) (Z.shiftr x (8 - k)).

Definition rijndael_sbox (x : Z) : Z :=
  let y := gf_pow 8 0x11b x 254 in
  Z.lxor (Z.lxor (Z.lxor (Z.lxor (Z.lxor y (rotl8 y 1)) (rotl8 y 2)) (rotl8 y 3)) (rotl8 y 4)) 0x63.

(** The S-box SQ: a Dickson polynomial over the field of modulus x^8 + x^6 + x^5 + x^3 + 1. *)
Definition dickson_sbox (x : Z) : Z :=
  let p := gf_pow 8 0x169 x in
  Z.lxor (fold_left (fun a e => Z.lxor a (p e)) [9; 13; 15; 33; 41; 45; 47; 49]%positive x) 0x25.

Definition sboxes_ok (x : Z) : bool :=
  (tab SR x =? rijndael_sbox x) && (tab SQ x =? dickson_sbox x).

Lemma sboxes_checked : forallb sboxes_ok bytes256 = true.
Proof. vm_compute. reflexivity. Qed.

(** ** The shift register *)

(** Multiplication and division by alpha, as the two clocks write them. *)
Definition mul_alpha (w : Z) : Z :=
  Z.lxor (Z.land (u32 (Z.shiftl w 8)) 0xffffff00) (MULalpha (byte_of w 24)).
Definition div_alpha (w : Z) : Z :=
  Z.lxor (Z.land (Z.shiftr w 8) 0x00ffffff) (DIValpha (byte_of w 0)).

Definition alpha_ok (c : Z) : bool :=
  (Z.lxor (Z.shiftr (MULalpha c) 8) (DIValpha (byte_of (MULalpha c) 0)) =? Z.shiftl c 24)
  && (Z.lxor (u32 (Z.shiftl (DIValpha c) 8)) (MULalpha (byte_of (DIValpha c) 24)) =? c).

Lemma alpha_checked : forallb alpha_ok bytes256 = true.
Proof. vm_compute. reflexivity. Qed.

Lemma mask_high w i : 0 <= i ->
  Z.testbit (Z.land (u32 (Z.shiftl w 8)) 0xffffff00) i = Z.testbit w (i - 8) && (i <? 32).
Proof.
  intros Hi. change 0xffffff00 with (Z.shiftl (Z.ones 24) 8). unfold u32.
  rewrite Z.land_spec, Z.shiftl_spec by done. destruct (Z.lt_ge_cases i 32).
  - rewrite Z.mod_pow2_bits_low, Z.shiftl_spec by lia. destruct (Z.lt_ge_cases (i - 8) 0).
    + by rewrite !Z.testbit_neg_r by lia.
    + rewrite Z.testbit_ones_nonneg by lia. f_equal. lia.
  - rewrite Z.mod_pow2_bits_high by lia. replace (i <? 32) with false by lia. by rewrite andb_false_r.
Qed.

Lemma mask_low w i : 0 <= i -> Z.testbit (Z.land (Z.shiftr w 8) 0x00ffffff) i = Z.testbit w (i + 8) && (i <? 24).
Proof.
  intros Hi. change 0x00ffffff with (Z.ones 24).
  rewrite Z.land_spec, Z.shiftr_spec, Z.testbit_ones_nonneg by lia. done.
Qed.

Lemma mul_alpha_word w : 0 <= w -> is_word 32 (mul_alpha w).
Proof.
  intros Hw. apply word_lxor; [lia| |apply MULalpha_word, byte_of_word; lia].
  apply word_land; [lia|unfold is_word; lia].
Qed.

Lemma div_alpha_word w : 0 <= w -> is_word 32 (div_alpha w).
Proof.
  intros Hw. apply word_lxor; [lia| |apply DIValpha_word, byte_of_word; lia].
  apply word_land; [lia|unfold is_word; lia].
Qed.

Lemma div_mul_alpha w : is_word 32 w -> div_alpha (mul_alpha w) = w.
Proof.
  intros Hw. pose proof Hw as Hw'. apply word_bits in Hw' as [H0 Hbits]; [|lia].
  set (c := byte_of w 24). assert (Hc : is_word 8 c) by (apply byte_of_word; lia).
  pose proof (all_bytes _ alpha_checked c Hc) as Ha. unfold alpha_ok in Ha. b2p.
  pose proof (MULalpha_word c Hc) as HM. apply word_bits in HM as [HM0 HM]; [|lia].
  assert (Hb : byte_of (mul_alpha w) 0 = byte_of (MULalpha c) 0).
  { apply Z.bits_inj'. intros i Hi. rewrite !byte_of_bit by lia. rewrite Z.add_0_r.
    destruct (Z.ltb_spec i 8); [|by rewrite !andb_false_r]. unfold mul_alpha. fold c.
    rewrite Z.lxor_spec, mask_high by done. by rewrite Z.testbit_neg_r by lia. }
  unfold div_alpha. rewrite Hb. apply Z.bits_inj'. intros i Hi. rewrite Z.lxor_spec, mask_low by done.
  unfold mul_alpha. fold c. rewrite Z.lxor_spec, mask_high by lia.
  replace (i + 8 - 8) with i by lia.
  assert (Hx : Z.testbit (DIValpha (byte_of (MULalpha c) 0)) i
               = xorb (Z.testbit (MULalpha c) (i + 8)) (Z.testbit (Z.shiftl c 24) i)).
  { rewrite <- H, Z.lxor_spec, Z.shiftr_spec by done.
    by destruct (Z.testbit (MULalpha c) (i + 8)), (Z.testbit (DIValpha _) i). }
  rewrite Hx, Z.shiftl_spec by done. destruct (Z.ltb_spec i 24).
  - rewrite (Z.testbit_neg_r c) by lia. replace (i + 8 <? 32) with true by lia.
    by destruct (Z.testbit w i), (Z.testbit (MULalpha c) (i + 8)).
  - rewrite (HM (i + 8)) by lia. unfold c. rewrite byte_of_bit by lia. replace (i - 24 + 24) with i by lia.
    destruct (Z.ltb_spec (i - 24) 8).
    + by rewrite andb_false_r, andb_true_r; destruct (Z.testbit w i).
    + rewrite (Hbits i) by lia. by rewrite andb_false_r.
Qed.

Lemma mul_div_alpha w : is_word 32 w -> mul_alpha (div_alpha w) = w.
Proof.
  intros Hw. pose proof Hw as Hw'. apply word_bits in Hw' as [H0 Hbits]; [|lia].
  set (c := byte_of w 0). assert (Hc : is_word 8 c) by (apply byte_of_word; lia).
  pose proof (all_bytes _ alpha_checked c Hc) as Ha. unfold alpha_ok in Ha. b2p.
  assert (Hb : byte_of (div_alpha w) 24 = byte_of (DIValpha c) 24).
  { apply Z.bits_inj'. intros i Hi. rewrite !byte_of_bit by lia.
    destruct (Z.ltb_spec i 8); [|by rewrite !andb_false_r]. unfold div_alpha. fold c.
    rewrite Z.lxor_spec, mask_low by lia. replace (i + 24 <? 24) with false by lia.
    by rewrite andb_false_r, xorb_false_l. }
  unfold mul_alpha. rewrite Hb. apply Z.bits_inj'. intros i Hi. rewrite Z.lxor_spec, mask_high by done.
  assert (Hx : Z.testbit (MULalpha (byte_of (DIValpha c) 24)) i
               = xorb (Z.testbit (u32 (Z.shiftl (DIValpha c) 8)) i) (Z.testbit c i)).
  { apply (f_equal (fun x => Z.testbit x i)) in H1. rewrite Z.lxor_spec in H1. rewrite <- H1.
    by destruct (Z.testbit (u32 _) i), (Z.testbit (MULalpha _) i). }
  rewrite Hx. unfold u32. destruct (Z.ltb_spec i 32).
  2: { rewrite Z.mod_pow2_bits_high, andb_false_r, (Hbits i) by lia. unfold c. rewrite byte_of_bit by lia.
       replace (i <? 8) with false by lia. by rewrite andb_false_r. }
  rewrite Z.mod_pow2_bits_low, Z.shiftl_spec by lia. unfold c at 2. rewrite byte_of_bit by lia.
  rewrite Z.add_0_r, andb_true_r. destruct (Z.ltb_spec i 8).
  - rewrite !Z.testbit_neg_r by lia. by rewrite andb_true_r.
  - unfold div_alpha. fold c. rewrite Z.lxor_spec, mask_low by lia. replace (i - 8 + 8) with i by lia.
    replace (i - 8 <? 24) with true by lia. rewrite andb_true_r, andb_false_r, xorb_false_r.
    by destruct (Z.testbit w i), (Z.testbit (DIValpha c) (i - 8)).
Qed.

(** ** The context holds 32-bit words *)

Definition s3g_words (s : snow_3g_context_t) : list Z :=
  [LFSR_S0 s; LFSR_S1 s; LFSR_S2 s; LFSR_S3 s; LFSR_S4 s; LFSR_S5 s; LFSR_S6 s; LFSR_S7 s; LFSR_S8 s;
   LFSR_S9 s; LFSR_S10 s; LFSR_S11 s; LFSR_S12 s; LFSR_S13 s; LFSR_S14 s; LFSR_S15 s;
   FSM_R1 s; FSM_R2 s; FSM_R3 s].

Definition s3g_ok (s : snow_3g_context_t) : Prop := Forall (is_word 32) (s3g_words s).

Ltac s3g_split H :=
  unfold s3g_ok, s3g_words in H; repeat (apply list.Forall_cons in H as [? H]).

Ltac s3g_join := repeat (apply List.Forall_cons); try apply List.Forall_nil; try done.

Ltac xor_word :=
  repeat match goal with |- is_word _ (Z.lxor _ _) => apply word_lxor; [lia| |] end; try done.

Lemma shift_in_ok s v : s3g_ok s -> is_word 32 v -> s3g_ok (shift_in s v).
Proof. intros Hs Hv. s3g_split Hs. unfold s3g_ok, s3g_words, shift_in. cbn. s3g_join. Qed.

(** The word shifted in. *)
Lemma lfsr_input s :
  snow3g_clock_LFSR_key_stream_mode s
  = shift_in s (Z.lxor (Z.lxor (mul_alpha (LFSR_S0 s)) (LFSR_S2 s)) (div_alpha (LFSR_S11 s))).
Proof. unfold snow3g_clock_LFSR_key_stream_mode, mul_alpha, div_alpha. f_equal. by rewrite !Z.lxor_assoc. Qed.

Lemma lfsr_init_input F s :
  snow3g_clock_LFSR_initialization_mode F s
  = shift_in s (Z.lxor (Z.lxor (Z.lxor (mul_alpha (LFSR_S0 s)) (LFSR_S2 s)) (div_alpha (LFSR_S11 s))) F).
Proof. unfold snow3g_clock_LFSR_initialization_mode, mul_alpha, div_alpha. f_equal. by rewrite !Z.lxor_assoc. Qed.

Lemma lfsr_word s :
  s3g_ok s -> is_word 32 (Z.lxor (Z.lxor (mul_alpha (LFSR_S0 s)) (LFSR_S2 s)) (div_alpha (LFSR_S11 s))).
Proof.
  intros Hs. s3g_split Hs. xor_word.
  - apply mul_alpha_word. unfold is_word in *. lia.
  - apply div_alpha_word. unfold is_word in *. lia.
Qed.

Lemma clock_ok s : s3g_ok s -> s3g_ok (snow3g_clock_LFSR_key_stream_mode s).
Proof. intros Hs. rewrite lfsr_input. apply shift_in_ok; [done|by apply lfsr_word]. Qed.

Lemma fsm_ok s : s3g_ok s -> is_word 32 (snow3g_clock_fsm s).1 /\ s3g_ok (snow3g_clock_fsm s).2.
Proof.
  intros Hs. s3g_split Hs. assert (P1 : 0 <= FSM_R1 s) by (unfold is_word in *; lia).
  assert (P2 : 0 <= FSM_R2 s) by (unfold is_word in *; lia). split.
  - cbn [fst snow3g_clock_fsm]. apply word_lxor; [lia|apply u32_bound|done].
  - unfold s3g_ok, s3g_words, snow3g_clock_fsm. cbn [snd]. cbn -[S1 S2 u32]. s3g_join;
      [apply u32_bound|by apply S1_word|by apply S2_word].
Qed.

Lemma init_turn_ok s : s3g_ok s -> s3g_ok (init_turn s).
Proof.
  intros Hs. unfold init_turn. destruct (fsm_ok s Hs) as [HF Hs']. destruct (snow3g_clock_fsm s) as [F s'].
  cbn [fst snd] in *. rewrite lfsr_init_input. apply shift_in_ok; [done|].
  apply word_lxor; [lia|by apply lfsr_word|done].
Qed.

Lemma initialize_ok k0 k1 k2 k3 v0 v1 v2 v3 :
  Forall (is_word 32) [k0; k1; k2; k3; v0; v1; v2; v3] -> s3g_ok (snow3g_initialize k0 k1 k2 k3 v0 v1 v2 v3).
Proof.
  intros H. repeat (apply list.Forall_cons in H as [? H]). unfold snow3g_initialize.
  assert (Ho : is_word 32 0xffffffff) by (unfold is_word; lia). assert (Hz : is_word 32 0) by (unfold is_word; lia).
  apply Nat.iter_invariant; [intros s; apply init_turn_ok|]. unfold s3g_ok, s3g_words. cbn. s3g_join; xor_word.
Qed.

Lemma key_stream_loop_ok n : forall s, s3g_ok s ->
  length (key_stream_loop n s).1 = n /\ Forall (is_word 32) (key_stream_loop n s).1 /\
  s3g_ok (key_stream_loop n s).2.
Proof.
  induction n as [|n IH]; intros s Hs; [done|]. cbn [key_stream_loop].
  destruct (fsm_ok s Hs) as [HF Hs']. destruct (snow3g_clock_fsm s) as [F s1]. cbn [fst snd] in *.
  pose proof (clock_ok s1 Hs') as Hs2. destruct (IH _ Hs2) as (H1 & H2 & H3).
  destruct (key_stream_loop n _) as [ks s2]. cbn [fst snd] in *. split; [cbn; by rewrite H1|].
  split; [|done]. constructor; [|done]. s3g_split Hs'. apply word_lxor; [lia|done|done].
Qed.

Lemma key_stream_ok n s : s3g_ok s ->
  length (snow3g_generate_key_stream n s).1 = n /\ Forall (is_word 32) (snow3g_generate_key_stream n s).1.
Proof.
  intros Hs. unfold snow3g_generate_key_stream. destruct (fsm_ok s Hs) as [_ Hs'].
  destruct (snow3g_clock_fsm s) as [F s1]. cbn [snd] in Hs'.
  destruct (key_stream_loop_ok n _ (clock_ok s1 Hs')) as (? & ? & _). done.
Qed.

(** The context before a clock of the shift register. *)
Definition unclock (s : snow_3g_context_t) : snow_3g_context_t :=
  mk_s3g (div_alpha (Z.lxor (Z.lxor (LFSR_S15 s) (LFSR_S1 s)) (div_alpha (LFSR_S10 s))))
    (LFSR_S0 s) (LFSR_S1 s) (LFSR_S2 s) (LFSR_S3 s) (LFSR_S4 s) (LFSR_S5 s) (LFSR_S6 s) (LFSR_S7 s)
    (LFSR_S8 s) (LFSR_S9 s) (LFSR_S10 s) (LFSR_S11 s) (LFSR_S12 s) (LFSR_S13 s) (LFSR_S14 s)
    (FSM_R1 s) (FSM_R2 s) (FSM_R3 s).

Lemma lxor_cancel a b c : Z.lxor (Z.lxor (Z.lxor (Z.lxor a b) c) b) c = a.
Proof. apply Z.bits_inj. intros i. rewrite !Z.lxor_spec. by destruct (Z.testbit a i), (Z.testbit b i), (Z.testbit c i). Qed.

(** ** Properties *)

(** The S-boxes are the ones of the standard.  For every byte, the table SR is the S-box
    of Rijndael (inversion in GF(2^8), then the affine map) and the table SQ is the Dickson
    polynomial of SNOW 3G over its own field. *)
Theorem snow3g_sboxes (x : Z) :
  is_word 8 x -> tab SR x = rijndael_sbox x /\ tab SQ x = dickson_sbox x.
Proof.
  intros Hx. pose proof (all_bytes _ sboxes_checked x Hx) as H. unfold sboxes_ok in H. by b2p.
Qed.

(** The shift register loses no information.  The 32-bit constants of the code multiply
    and divide by the same field element: dividing undoes multiplying on every word.  So a
    clock in key stream mode keeps a context of 32-bit words and can be undone. *)
Theorem snow3g_lfsr_invertible (s : snow_3g_context_t) :
  s3g_ok s ->
  s3g_ok (snow3g_clock_LFSR_key_stream_mode s) /\
  unclock (snow3g_clock_LFSR_key_stream_mode s) = s /\
  snow3g_clock_LFSR_key_stream_mode (unclock s) = s.
Proof.
  intros Hs. split; [by apply clock_ok|]. s3g_split Hs. split.
  - rewrite lfsr_input. unfold unclock, shift_in. cbn [LFSR_S0 LFSR_S1 LFSR_S2 LFSR_S3 LFSR_S4 LFSR_S5 LFSR_S6
      LFSR_S7 LFSR_S8 LFSR_S9 LFSR_S10 LFSR_S11 LFSR_S12 LFSR_S13 LFSR_S14 LFSR_S15 FSM_R1 FSM_R2 FSM_R3].
    rewrite lxor_cancel, div_mul_alpha by done. by destruct s.
  - rewrite lfsr_input. unfold unclock, shift_in. cbn [LFSR_S0 LFSR_S1 LFSR_S2 LFSR_S3 LFSR_S4 LFSR_S5 LFSR_S6
      LFSR_S7 LFSR_S8 LFSR_S9 LFSR_S10 LFSR_S11 LFSR_S12 LFSR_S13 LFSR_S14 LFSR_S15 FSM_R1 FSM_R2 FSM_R3].
    rewrite mul_div_alpha, lxor_cancel; [by destruct s|].
    xor_word. apply div_alpha_word. unfold is_word in *. lia.
Qed.

Lemma snow3g_sboxes_witness : tab SR 0x53 = 0xed /\ tab SQ 0 = 0x25.
Proof.
  destruct (snow3g_sboxes 0x53) as [H _]; [unfold is_word; lia|].
  destruct (snow3g_sboxes 0) as [_ H']; [unfold is_word; lia|].
  split; [rewrite H|rewrite H']; vm_compute; reflexivity.
Defined.

(** The context of the first test set of the standard. *)
Definition s3g_example : snow_3g_context_t :=
  snow3g_initialize 0x2BD6459F 0x82C5B300 0x952C4910 0x4881FF48 0xEA024714 0xAD5C4D84 0xDF1F9B25 0x1C0BF45F.

Example s3g_test_set_1 : (snow3g_generate_key_stream 2 s3g_example).1 = [0xABEE9704; 0x7AC31373].
Proof. vm_compute. reflexivity. Qed.

Lemma snow3g_lfsr_invertible_witness :
  unclock (snow3g_clock_LFSR_key_stream_mode s3g_example) = s3g_example.
Proof.
  assert (Hs : s3g_ok s3g_example).
  { unfold s3g_example. apply initialize_ok. repeat (apply List.Forall_cons); try apply List.Forall_nil;
      unfold is_word; lia. }
  destruct (snow3g_lfsr_invertible s3g_example Hs) as (_ & H & _). exact H.
Defined.
