(* ===== verification/NasStream.v ===== *)
(** The NAS and RRC security functions of openair3/SECU: the ciphers EEA1 and EEA2, the
    integrity functions EIA1 and EIA2, and the derivation of keys.

    EEA1 and EIA1 are complete (they use SNOW 3G); EEA2, EIA2 and the derivations call
    AES-CTR and HMAC-SHA-256 of nettle and AES-CMAC of OpenSSL, which are parameters.
    Buffers are the lists of their bytes: an access past the end is a fault.  A word of the
    code that is read from bytes is read in the little-endian order of the host. *)

From S2P Require Import Prelude.
From S2P Require Import RlcPdu.
From S2P Require Import Gf2.
From S2P Require Import Snow3g.
From Stdlib Require Import Btauto.

(** ** secu_defs.h and conversions.h *)

Record nas_stream_cipher_t := mk_cipher {
  sc_key : list Z;
  key_length : Z;
  sc_count : Z;
  sc_bearer : Z;
  sc_direction : Z;
  sc_message : list Z;
  blength : Z
}.

#[export] Instance eta_cipher : Eta nas_stream_cipher_t := fun s =>
  mk_cipher (sc_key s) (key_length s) (sc_count s) (sc_bearer s) (sc_direction s) (sc_message s)
    (blength s).

Definition hton_int32 (x : Z) : Z :=
  Z.lor (Z.lor (Z.lor
    (u32 (Z.shiftl (Z.land x 0x000000FF) 24)) (Z.shiftl (Z.land x 0x0000FF00) 8))
    (Z.shiftr (Z.land x 0x00FF0000) 8)) (Z.shiftr (Z.land x 0xFF000000) 24).

(** The four bytes at [off], read as a word and written as a word. *)
Definition load32 (b : list Z) (off : Z) : res Z :=
  if (off <? 0) || (Z.of_nat (length b) <? off + 4) then Fault OutOfBounds
  else Ok (word_of (buf_get b (off + 3)) (buf_get b (off + 2)) (buf_get b (off + 1)) (buf_get b off)).

Definition bytes32 (w : Z) : list Z := [byte_of w 0; byte_of w 8; byte_of w 16; byte_of w 24].

(** [K[3] .. K[0]] from the sixteen bytes of the key. *)
Definition load_key (key : list Z) : res (Z * Z * Z * Z) :=
  let* k3 := load32 key 0 in
  let* k2 := load32 key 4 in
  let* k1 := load32 key 8 in
  let* k0 := load32 key 12 in
  Ok (hton_int32 k0, hton_int32 k1, hton_int32 k2, hton_int32 k3).

(** ** nas_stream_eea1.c *)

(** [message[i] ^= ks[i]] for the bytes of [ks]. *)
Definition xor_into (message ks : list Z) : list Z :=
  zip_with Z.lxor message ks ++ drop (length ks) message.

(** [b[i] = b[i] & mask] *)
Definition and_at (b : list Z) (i mask : Z) : list Z := alter (fun x => Z.land x mask) (Z.to_nat i) b.

(** The key stream of the code, as bytes. *)
Definition eea1_key_stream (sc : nas_stream_cipher_t) (n zero_bit : Z) : res (list Z) :=
  let* (k0, k1, k2, k3) := load_key (sc_key sc) in
  let IV3 := sc_count sc in
  let IV2 := u32 (Z.shiftl (Z.lor (Z.shiftl (sc_bearer sc) 3)
                                  (Z.shiftl (Z.land (sc_direction sc) 0x1) 2)) 24) in
  let IV1 := IV3 in
  let IV0 := IV2 in
  let s := snow3g_initialize k0 k1 k2 k3 IV0 IV1 IV2 IV3 in
  let '(KS, _) := snow3g_generate_key_stream (Z.to_nat n) s in
  if (zero_bit >? 0) && (n <=? 0) then Fault OutOfBounds else
  let KS := if zero_bit >? 0 then and_at KS (n - 1) (u32 (Z.shiftl 0xFFFFFFFF (8 - zero_bit))) else KS in
  let KS := hton_int32 <$> KS in
  Ok (flat_map bytes32 KS).

Definition nas_stream_encrypt_eea1 (sc : nas_stream_cipher_t) (out : list Z)
  : res (nas_stream_cipher_t * list Z) :=
  if negb (key_length sc =? 16) then Exit
  else
    let n := u32 (blength sc + 31) / 32 in
    let zero_bit := Z.land (blength sc) 0x7 in
    let* ks := eea1_key_stream sc n zero_bit in
    if Z.of_nat (length (sc_message sc)) <? n * 4 then Fault OutOfBounds
    else
      let message := xor_into (sc_message sc) ks in
      let ceil_index := Z.shiftr (u32 (blength sc + 7)) 3 in
      let message :=
        if zero_bit >? 0
        then and_at message (ceil_index - 1) (u8 (Z.shiftl 0xFF (8 - zero_bit)))
        else message in
      if Z.of_nat (length out) <? n * 4 then Fault OutOfBounds
      else
        let out := buf_write out 0 (take (Z.to_nat (n * 4)) message) in
        let out :=
          if zero_bit >? 0 then buf_set out (ceil_index - 1) (buf_get message (ceil_index - 1)) else out in
        Ok (sc <| sc_message := message |>, out).

(** ** nas_stream_eia1.c *)

Definition MUL64x (V c : Z) : Z :=
  if negb (Z.land V 0x8000000000000000 =? 0) then Z.lxor (u64 (Z.shiftl V 1)) c else u64 (Z.shiftl V 1).

Fixpoint MUL64xPOW (V : Z) (i : nat) (c : Z) : Z :=
  match i with
  | O => V
  | S i => MUL64x (MUL64xPOW V i c) c
  end.

(** The loop of [MUL64] after [n] turns. *)
Fixpoint MUL64_loop (n : nat) (V P c : Z) : Z :=
  match n with
  | O => 0
  | S i =>
    let result := MUL64_loop i V P c in
    if negb (Z.land (Z.shiftr P (Z.of_nat i)) 0x1 =? 0) then Z.lxor result (MUL64xPOW V i c) else result
  end.

Definition MUL64 (V P c : Z) : Z := MUL64_loop 64 V P c.

(** [while (n--) mask = (mask >> 1) ^ 0x80000000;] *)
Definition mask32bit (n : Z) : Z :=
  if cmod n 32 =? 0 then 0xffffffff
  else Nat.iter (Z.to_nat n) (fun mask => Z.lxor (Z.shiftr mask 1) 0x80000000) 0.

(** [hton_int32(message[i])], the message taken as an array of words. *)
Definition message_word (message : list Z) (i : Z) : res Z :=
  let* w := load32 message (4 * i) in
  Ok (hton_int32 w).

(** The loop over the full blocks: [n] turns from [i] on. *)
Fixpoint eval_loop (n : nat) (message : list Z) (i P c EVAL : Z) : res Z :=
  match n with
  | O => Ok EVAL
  | S n =>
    let* hi := message_word message (2 * i) in
    let* lo := message_word message (2 * i + 1) in
    let V := Z.lxor EVAL (Z.lor (Z.shiftl hi 32) lo) in
    eval_loop n message (i + 1) P c (MUL64 V P c)
  end.

(** The five words [z[0] .. z[4]]. *)
Definition eia1_key_stream (sc : nas_stream_cipher_t) : res (list Z) :=
  let* (k0, k1, k2, k3) := load_key (sc_key sc) in
  let bearer := u32 (Z.shiftl (Z.land (sc_bearer sc) 0x1F) 27) in
  let IV3 := sc_count sc in
  let IV2 := bearer in
  let IV1 := Z.lxor (sc_count sc) (u32 (Z.shiftl (sc_direction sc) 31)) in
  let IV0 := Z.lxor bearer (Z.shiftl (Z.land (sc_direction sc) 1) 15) in
  let s := snow3g_initialize k0 k1 k2 k3 IV0 IV1 IV2 IV3 in
  let '(z, _) := snow3g_generate_key_stream 5 s in
  Ok z.

(** The last block, its unused bits masked. *)
Definition last_block (message : list Z) (D rem_bits : Z) : res Z :=
  let mask := mask32bit (cmod rem_bits 32) in
  if rem_bits >? 32 then
    let* hi := message_word message (2 * (D - 2)) in
    let* lo := message_word message (2 * (D - 2) + 1) in
    Ok (Z.lor (Z.shiftl hi 32) (Z.land lo mask))
  else
    let* hi := message_word message (2 * (D - 2)) in
    Ok (Z.shiftl (Z.land hi mask) 32).

Definition nas_stream_encrypt_eia1 (sc : nas_stream_cipher_t) : res (list Z) :=
  let* z := eia1_key_stream sc in
  let P := Z.lor (Z.shiftl (z !!! 0%nat) 32) (z !!! 1%nat) in
  let Q := Z.lor (Z.shiftl (z !!! 2%nat) 32) (z !!! 3%nat) in
  let D := (blength sc + 63) / 64 + 1 in
  let c := 0x1b in
  let* EVAL := eval_loop (Z.to_nat (D - 2)) (sc_message sc) 0 P c 0 in
  let rem_bits := cmod (blength sc) 64 in
  let rem_bits := if rem_bits =? 0 then 64 else rem_bits in
  let* M_D_2 := last_block (sc_message sc) D rem_bits in
  let V := Z.lxor EVAL M_D_2 in
  let EVAL := MUL64 V P c in
  let EVAL := Z.lxor EVAL (blength sc) in
  let EVAL := MUL64 EVAL Q c in
  let MAC_I := Z.lxor (Z.shiftr EVAL 32) (z !!! 4%nat) in
  Ok (bytes32 (hton_int32 MAC_I)).

(** ** nas_stream_eea2.c, nas_stream_eia2.c *)

(** [blength] in bytes, rounded up. *)
Definition byte_length (blength : Z) : Z :=
  Z.shiftr blength 3 + (if Z.land blength 0x7 >? 0 then 1 else 0).

(** [m[4]] of both files. *)
Definition bearer_byte (sc : nas_stream_cipher_t) : Z :=
  Z.lor (u8 (Z.shiftl (Z.land (sc_bearer sc) 0x1F) 3)) (Z.shiftl (Z.land (sc_direction sc) 0x01) 2).

Definition big_endian_count (sc : nas_stream_cipher_t) : list Z := bytes32 (hton_int32 (sc_count sc)).

Section Libraries.

(** AES-128 in counter mode: key, initial counter block, data. *)
Variable ctr_crypt : list Z -> list Z -> list Z -> list Z.
(** AES-CMAC: key, message. *)
Variable cmac : list Z -> list Z -> list Z.
(** HMAC-SHA-256: key, message; 32 bytes. *)
Variable hmac_sha256 : list Z -> list Z -> list Z.

Definition nas_stream_encrypt_eea2 (sc : nas_stream_cipher_t) (out : list Z) : res (list Z) :=
  let zero_bit := Z.land (blength sc) 0x7 in
  let n := byte_length (blength sc) in
  let m := big_endian_count sc ++ [bearer_byte sc] ++ replicate 11 0 in
  if Z.of_nat (length (sc_message sc)) <? n then Fault OutOfBounds
  else
    let data := ctr_crypt (sc_key sc) m (take (Z.to_nat n) (sc_message sc)) in
    let data := if zero_bit >? 0 then and_at data (n - 1) (u8 (Z.shiftl 0xFF (8 - zero_bit))) else data in
    if Z.of_nat (length out) <? n then Fault OutOfBounds
    else Ok (buf_write out 0 data).

Definition nas_stream_encrypt_eia2 (sc : nas_stream_cipher_t) : res (list Z) :=
  if key_length sc <=? 0 then Exit
  else
    let m_length := byte_length (blength sc) in
    if Z.of_nat (length (sc_message sc)) <? m_length then Fault OutOfBounds
    else
      let m := big_endian_count sc ++ [bearer_byte sc] ++ replicate 3 0
               ++ take (Z.to_nat m_length) (sc_message sc) in
      let data := cmac (take (Z.to_nat (key_length sc)) (sc_key sc)) m in
      Ok (take 4 data).

(** ** kdf.c, key_nas_deriver.c *)

Definition kdf (key s : list Z) (out_len : nat) : list Z := take out_len (hmac_sha256 key s).

Definition FC_KENB : Z := 0x11.
Definition FC_KENB_STAR : Z := 0x13.
Definition FC_ALG_KEY_DER : Z := 0x15.

(** The strings [s] of the derivations. *)
Definition kenb_string (nas_count : Z) : list Z :=
  [FC_KENB; Z.shiftr (Z.land nas_count 0xff000000) 24; Z.shiftr (Z.land nas_count 0x00ff0000) 16;
   Z.shiftr (Z.land nas_count 0x0000ff00) 8; Z.land nas_count 0x000000ff; 0x00; 0x04].

Definition kenb_star_string (pci earfcn_dl : Z) (is_rel8_only : bool) : list Z :=
  [FC_KENB_STAR; Z.shiftr (Z.land pci 0x0000ff00) 8; Z.land pci 0x000000ff; 0x00; 0x02]
  ++ (if is_rel8_only
      then [Z.shiftr (Z.land earfcn_dl 0x0000ff00) 8; Z.land earfcn_dl 0x000000ff; 0x00; 0x02]
      else [Z.shiftr (Z.land earfcn_dl 0x00ff0000) 16; Z.shiftr (Z.land earfcn_dl 0x0000ff00) 8;
            Z.land earfcn_dl 0x000000ff; 0x00; 0x03]).

Definition key_nas_string (nas_alg_type nas_enc_alg_id : Z) : list Z :=
  [FC_ALG_KEY_DER; Z.land nas_alg_type 0xFF; 0x00; 0x01; nas_enc_alg_id; 0x00; 0x01].

Definition derive_keNB (kasme : list Z) (nas_count : Z) : list Z := kdf kasme (kenb_string nas_count) 32.

Definition derive_keNB_star (kenb : list Z) (pci earfcn_dl : Z) (is_rel8_only : bool) : list Z :=
  kdf kenb (kenb_star_string pci earfcn_dl is_rel8_only) 32.

(** [memcpy(knas, &out[31-16+1], 16)] *)
Definition derive_key_nas (nas_alg_type nas_enc_alg_id : Z) (kasme : list Z) : list Z :=
  take 16 (drop 16 (kdf kasme (key_nas_string nas_alg_type nas_enc_alg_id) 32)).

End Libraries.

(** ** Words and bytes *)

Lemma byte_of_word_of a b c d :
  is_word 8 a -> is_word 8 b -> is_word 8 c -> is_word 8 d ->
  byte_of (word_of a b c d) 24 = a /\ byte_of (word_of a b c d) 16 = b /\
  byte_of (word_of a b c d) 8 = c /\ byte_of (word_of a b c d) 0 = d.
Proof.
  intros Ha Hb Hc Hd.
  apply word_bits in Ha as [Ha0 Ha], Hb as [Hb0 Hb], Hc as [Hc0 Hc], Hd as [Hd0 Hd]; try lia.
  repeat split; apply Z.bits_inj'; intros i Hi; rewrite byte_of_bit by lia; unfold word_of;
    rewrite !Z.lor_spec, !Z.shiftl_spec by lia; destruct (Z.ltb_spec i 8);
    rewrite ?(Ha i), ?(Hb i), ?(Hc i), ?(Hd i), ?andb_false_r by lia; try done;
    repeat match goal with
    | |- context [Z.testbit ?x (i + ?k - ?l)] =>
      first [replace (i + k - l) with i by lia
            | rewrite (Z.testbit_neg_r x (i + k - l)) by lia
            | rewrite (Hb (i + k - l)) by lia | rewrite (Hc (i + k - l)) by lia]
    | |- context [Z.testbit d (i + ?k)] => rewrite (Hd (i + k)) by lia
    end; rewrite ?orb_false_r, ?orb_false_l, ?andb_true_r, ?Z.add_0_r; done.
Qed.

(** [hton_int32] turns the bytes of a word around. *)
Lemma hton_word_of w :
  is_word 32 w -> hton_int32 w = word_of (byte_of w 0) (byte_of w 8) (byte_of w 16) (byte_of w 24).
Proof.
  intros Hw. apply word_bits in Hw as [H0 Hw]; [|lia]. apply Z.bits_inj'. intros i Hi.
  unfold hton_int32, word_of, u32. rewrite !Z.lor_spec, !Z.shiftl_spec by lia.
  assert (Hm : forall x k, 0 <= k -> Z.testbit (Z.shiftl 0xff k) x = (k <=? x) && (x <? k + 8)).
  { intros x k Hk. change 0xff with (Z.ones 8). destruct (Z.lt_ge_cases x 0).
    - rewrite Z.testbit_neg_r by done. symmetry. apply andb_false_iff. left. lia.
    - rewrite Z.shiftl_spec by done. destruct (Z.leb_spec k x).
      + rewrite Z.testbit_ones_nonneg by lia. cbn [andb]. destruct (Z.ltb_spec (x - k) 8), (Z.ltb_spec x (k + 8)); lia || done.
      + by rewrite Z.testbit_neg_r by lia. }
  change 0x000000FF with (Z.shiftl 0xff 0). change 0x0000FF00 with (Z.shiftl 0xff 8).
  change 0x00FF0000 with (Z.shiftl 0xff 16). change 0xFF000000 with (Z.shiftl 0xff 24).
  rewrite !Z.shiftr_spec, !Z.land_spec, !Hm by lia.
  assert (Hb : forall k j, 0 <= k -> Z.testbit (byte_of w k) j = Z.testbit w (j + k) && (0 <=? j) && (j <? 8)).
  { intros k j Hk. destruct (Z.lt_ge_cases j 0).
    - rewrite Z.testbit_neg_r by done. replace (0 <=? j) with false by lia. by rewrite andb_false_r.
    - rewrite byte_of_bit by lia. replace (0 <=? j) with true by lia. by rewrite andb_true_r. }
  rewrite !Hb by lia.
  assert (Hf : Z.testbit (Z.shiftl (Z.land w (Z.shiftl 255 0)) 24 mod 2 ^ 32) i
               = Z.testbit w (i - 24) && (0 <=? i - 24) && (i - 24 <? 8)).
  { destruct (Z.lt_ge_cases i 32).
    - rewrite Z.mod_pow2_bits_low, Z.shiftl_spec, Z.land_spec, Hm by lia.
      replace (i - 24 <? 0 + 8) with (i - 24 <? 8) by lia. by rewrite andb_assoc.
    - rewrite Z.mod_pow2_bits_high by lia. replace (i - 24 <? 8) with false by lia. by rewrite andb_false_r. }
  rewrite Hf. replace (i - 24 + 0) with (i - 24) by lia. replace (i - 16 + 8) with (i - 8) by lia.
  replace (i - 8 + 16) with (i + 8) by lia. rewrite !andb_assoc.
  replace (8 <=? i - 8) with (0 <=? i - 16) by lia. replace (i - 8 <? 8 + 8) with (i - 16 <? 8) by lia.
  replace (16 <=? i + 8) with (0 <=? i - 8) by lia. replace (i + 8 <? 16 + 8) with (i - 8 <? 8) by lia.
  replace (24 <=? i + 24) with (0 <=? i) by lia. replace (i + 24 <? 24 + 8) with (i <? 8) by lia. done.
Qed.

Lemma load32_spec b off :
  0 <= off -> off + 4 <= Z.of_nat (length b) ->
  load32 b off = Ok (word_of (buf_get b (off + 3)) (buf_get b (off + 2)) (buf_get b (off + 1)) (buf_get b off)).
Proof.
  intros H0 H1. unfold load32. replace (off <? 0) with false by lia.
  replace (_ <? off + 4) with false by lia. done.
Qed.

Lemma load_key_ok key : 16 <= Z.of_nat (length key) -> exists k, load_key key = Ok k.
Proof. intros H. unfold load_key. rewrite !load32_spec by lia. by eexists. Qed.

(** ** EEA1: ciphering twice *)

Lemma length_flat_bytes32 l : length (flat_map bytes32 l) = (4 * length l)%nat.
Proof. induction l as [|x l IH]; [done|]. cbn [flat_map]. rewrite length_app, IH. cbn. lia. Qed.

Lemma length_and_at b i m : length (and_at b i m) = length b.
Proof. apply length_alter. Qed.

Lemma loop_length n : forall s, length (key_stream_loop n s).1 = n.
Proof.
  induction n as [|n IH]; intros s; [done|]. cbn [key_stream_loop]. destruct (snow3g_clock_fsm s) as [F s1].
  specialize (IH (snow3g_clock_LFSR_key_stream_mode s1)). destruct (key_stream_loop n _). cbn in *. by rewrite IH.
Qed.

Lemma stream_length n s : length (snow3g_generate_key_stream n s).1 = n.
Proof. unfold snow3g_generate_key_stream. destruct (snow3g_clock_fsm s). apply loop_length. Qed.

#[local] Opaque snow3g_initialize snow3g_generate_key_stream.

Lemma eea1_stream_ok sc n zb :
  16 <= Z.of_nat (length (sc_key sc)) -> 0 <= n -> (0 < zb -> 0 < n) ->
  exists ks, eea1_key_stream sc n zb = Ok ks /\ Z.of_nat (length ks) = n * 4 /\
    forall m, eea1_key_stream (sc <| sc_message := m |>) n zb = Ok ks.
Proof.
  intros Hk Hn Hzb. unfold eea1_key_stream. cbn [sc_key sc_count sc_bearer sc_direction update].
  destruct (load_key_ok _ Hk) as [[[[k0 k1] k2] k3] E]. rewrite E. cbn [rbind].
  set (s := snow3g_initialize _ _ _ _ _ _ _ _). pose proof (stream_length (Z.to_nat n) s) as Hl.
  destruct (snow3g_generate_key_stream _ s) as [KS s2]. cbn [fst] in Hl.
  replace ((zb >? 0) && (n <=? 0)) with false by lia. eexists. split; [reflexivity|]. split; [|intros m; reflexivity]. rewrite length_flat_bytes32, length_fmap.
  destruct (zb >? 0); rewrite ?length_and_at; lia.
Qed.

(** What one call makes of the first [n * 4] bytes. *)
Definition crypt (clear : option (Z * Z)) (ks m : list Z) : list Z :=
  let x := zip_with Z.lxor m ks in
  match clear with Some (i, mask) => and_at x i mask | None => x end.

Lemma land_lxor_mask a k M : Z.land (Z.lxor (Z.land (Z.lxor a k) M) k) M = Z.land a M.
Proof. apply Z.bits_inj. intros i. rewrite !Z.land_spec, !Z.lxor_spec, Z.land_spec, Z.lxor_spec. btauto. Qed.

Lemma lxor_twice a k : Z.lxor (Z.lxor a k) k = a.
Proof. by rewrite Z.lxor_assoc, Z.lxor_nilpotent, Z.lxor_0_r. Qed.

Lemma crypt_twice clear ks m :
  length m = length ks ->
  crypt clear ks (crypt clear ks m) = match clear with Some (i, mask) => and_at m i mask | None => m end.
Proof.
  intros Hl. apply list_eq. intros j.
  destruct (decide (j < length m)%nat) as [Hj|Hj].
  2: { destruct clear as [[i mask]|]; unfold crypt, and_at;
         rewrite !lookup_ge_None_2; try done; rewrite ?length_alter, ?length_zip_with, ?length_alter, ?length_zip_with; lia. }
  destruct (lookup_lt_is_Some_2 m j) as [a Ha]; [lia|]. destruct (lookup_lt_is_Some_2 ks j) as [k Hk]; [lia|].
  destruct clear as [[i mask]|]; unfold crypt, and_at.
  - destruct (decide (j = Z.to_nat i)) as [->|Hne].
    + rewrite !list_lookup_alter_eq, !lookup_zip_with, list_lookup_alter_eq, lookup_zip_with, Ha, Hk.
      cbn. by rewrite land_lxor_mask.
    + rewrite !list_lookup_alter_ne, !lookup_zip_with, list_lookup_alter_ne, lookup_zip_with, Ha, Hk by done.
      cbn. by rewrite lxor_twice.
  - rewrite !lookup_zip_with, Ha, Hk. cbn. by rewrite lxor_twice.
Qed.

(** The byte whose low bits are outside the message, and the mask of the others. *)
Definition unused_bits (blength : Z) : option (Z * Z) :=
  if Z.land blength 0x7 >? 0
  then Some (Z.shiftr (u32 (blength + 7)) 3 - 1, u8 (Z.shiftl 0xFF (8 - Z.land blength 0x7))) else None.

Definition clear_unused (blength : Z) (m : list Z) : list Z :=
  match unused_bits blength with Some (i, mask) => and_at m i mask | None => m end.

Lemma take_alter {A} (f : A -> A) i k l : take k (alter f i l) = alter f i (take k l).
Proof.
  apply list_eq. intros j. destruct (decide (j < k)%nat).
  - rewrite lookup_take_lt by done. destruct (decide (j = i)) as [->|].
    + by rewrite !list_lookup_alter_eq, lookup_take_lt.
    + by rewrite !list_lookup_alter_ne, lookup_take_lt.
  - rewrite lookup_take_ge by lia. symmetry. apply lookup_ge_None_2. rewrite length_alter, length_take. lia.
Qed.

Lemma take_xor_into m ks :
  (length ks <= length m)%nat -> take (length ks) (xor_into m ks) = zip_with Z.lxor (take (length ks) m) ks.
Proof.
  intros Hl. unfold xor_into. rewrite take_app_length'; [|rewrite length_zip_with; lia].
  symmetry. apply zip_with_take_l.
Qed.

Lemma unused_range blength i mask :
  0 <= blength <= 2 ^ 32 - 32 -> unused_bits blength = Some (i, mask) ->
  0 <= i < (blength + 31) / 32 * 4 /\ is_word 8 mask.
Proof.
  intros Hb. unfold unused_bits. destruct (_ >? 0) eqn:E; [|done]. intros [= <- <-].
  rewrite u32_small, Z.shiftr_div_pow2 by lia. change (2 ^ 3) with 8. split; [|apply word_mod; lia].
  change 0x7 with (Z.ones 3) in E. rewrite Z.land_ones in E by lia. change (2 ^ 3) with 8 in E. b2p.
  pose proof (Z_div_mod_eq_full blength 8). pose proof (Z.mod_pos_bound blength 8). split.
  - enough (1 <= (blength + 7) / 8) by lia. apply Z.div_le_lower_bound; lia.
  - pose proof (Z_div_mod_eq_full (blength + 7) 8). pose proof (Z.mod_pos_bound (blength + 7) 8).
    pose proof (Z_div_mod_eq_full (blength + 31) 32). pose proof (Z.mod_pos_bound (blength + 31) 32). lia.
Qed.

Lemma surj_sc sc : sc <| sc_message := sc_message sc |> = sc.
Proof. by destruct sc. Qed.

(** One call, as a function of the message and the output buffer. *)
Lemma eea1_call sc :
  key_length sc = 16 -> 16 <= Z.of_nat (length (sc_key sc)) -> 0 <= blength sc <= 2 ^ 32 - 32 ->
  let k := Z.to_nat ((blength sc + 31) / 32 * 4) in
  exists ks, length ks = k /\
    forall m out, (k <= length m)%nat -> (k <= length out)%nat ->
    exists sc', nas_stream_encrypt_eea1 (sc <| sc_message := m |>) out
                = Ok (sc', crypt (unused_bits (blength sc)) ks (take k m) ++ drop k out).
Proof.
  intros Hk Hkey Hb k. assert (Hn : u32 (blength sc + 31) / 32 = (blength sc + 31) / 32) by (by rewrite u32_small by lia).
  assert (Hn0 : 0 <= (blength sc + 31) / 32) by (apply Z.div_pos; lia).
  assert (Hn1 : 0 < Z.land (blength sc) 0x7 -> 0 < (blength sc + 31) / 32).
  { intros Hz. apply Z.div_str_pos. destruct (decide (blength sc = 0)) as [E|]; [by rewrite E in Hz|lia]. }
  destruct (eea1_stream_ok sc ((blength sc + 31) / 32) (Z.land (blength sc) 0x7) Hkey Hn0 Hn1) as (ks & _ & Hl & Eks).
  exists ks. split; [lia|]. intros m out Hm Ho. unfold nas_stream_encrypt_eea1.
  cbn [key_length blength sc_message update]. rewrite Hk, Hn, Eks. cbn [Z.eqb Pos.eqb negb rbind].
  replace (_ <? _) with false by lia. replace (_ <? _) with false by lia.
  set (x := xor_into m ks). set (c := Z.shiftr _ 3). set (M := u8 _).
  assert (Hlx : length x = length m).
  { unfold x, xor_into. rewrite length_app, length_zip_with, length_drop. lia. }
  set (msg := if _ >? 0 then and_at x _ _ else x). fold k.
  assert (Hmsg : take k msg = crypt (unused_bits (blength sc)) ks (take k m)).
  { unfold msg, crypt, unused_bits. replace k with (length ks) by lia.
    destruct (_ >? 0); [unfold and_at; rewrite take_alter|]; unfold x; by rewrite take_xor_into by lia. }
  assert (Hlm : length msg = length m) by (unfold msg; destruct (_ >? 0); rewrite ?length_and_at; done).
  eexists. do 2 f_equal. rewrite <- Hmsg.
  assert (Hw : buf_write out 0 (take k msg) = take k msg ++ drop k out).
  { unfold buf_write. cbn [take app plus]. rewrite length_take. by replace (k `min` length msg)%nat with k by lia. }
  rewrite Hw. destruct (_ >? 0) eqn:Hz; [|done]. unfold buf_set. apply list_insert_id.
  destruct (unused_range (blength sc) (c - 1) M) as [Hr HM]; [done|unfold unused_bits; by rewrite Hz|].
  rewrite lookup_app_l by (rewrite length_take; lia). rewrite lookup_take_lt by lia.
  destruct (lookup_lt_is_Some_2 x (Z.to_nat (c - 1))) as [v Hv]; [lia|].
  assert (Ev : msg !! Z.to_nat (c - 1) = Some (Z.land v M)).
  { unfold msg, and_at. by rewrite list_lookup_alter_eq, Hv. }
  unfold buf_get. rewrite Ev. cbn [default from_option id]. f_equal. symmetry. apply Z.mod_small.
  apply (word_land 8 v M); [lia|exact HM].
Qed.

(** ** EIA1 against a polynomial over GF(2^64) *)

(** The 64-bit blocks of the first [bl] bits of the message, the last one padded with 0. *)
Definition message_bits (m : list Z) (bl : Z) : list bool := take (Z.to_nat bl) (bytes_bits m).

Definition block (bits : list bool) (i : nat) : Z :=
  Z_of_bits (take 64 (drop (64 * i) bits ++ replicate 64 false)).

Definition blocks (m : list Z) (bl : Z) : list Z :=
  block (message_bits m bl) <$> seq 0 (Z.to_nat ((bl + 63) / 64)).

(** The field of EIA1: modulus x^64 + x^4 + x^3 + x + 1. *)
Definition mul64 (a b : Z) : Z := gf_mul 64 (2 ^ 64 + 0x1b) a b.

(** M_0 P^n + M_1 P^(n-1) + ... + M_(n-1) P, for the multiplication [f] by P *)
Fixpoint poly_eval (f : Z -> Z) (ms : list Z) : Z :=
  match ms with
  | [] => 0
  | m :: tl => Z.lxor (Nat.iter (length ms) f m) (poly_eval f tl)
  end.

Definition eia1_mac (z : list Z) (m : list Z) (bl : Z) : Z :=
  let P := Z.lor (Z.shiftl (z !!! 0%nat) 32) (z !!! 1%nat) in
  let Q := Z.lor (Z.shiftl (z !!! 2%nat) 32) (z !!! 3%nat) in
  Z.lxor (Z.shiftr (mul64 (Z.lxor (poly_eval (fun x => mul64 x P) (blocks m bl)) bl) Q) 32) (z !!! 4%nat).

Lemma mul64_linear a b p : mul64 (Z.lxor a b) p = Z.lxor (mul64 a p) (mul64 b p).
Proof. unfold mul64, gf_mul. by rewrite clmul_linear, reduce_linear. Qed.

Lemma mul64_0 p : mul64 0 p = 0.
Proof. by rewrite <- (Z.lxor_nilpotent 0), mul64_linear, Z.lxor_nilpotent. Qed.

Section Horner.

Variable f : Z -> Z.
Hypothesis f_linear : forall a b, f (Z.lxor a b) = Z.lxor (f a) (f b).

(** Horner's rule. *)
Lemma horner ms : forall e,
  fold_left (fun e m => f (Z.lxor e m)) ms e = Z.lxor (Nat.iter (length ms) f e) (poly_eval f ms).
Proof.
  induction ms as [|m ms IH]; intros e; [cbn; by rewrite Z.lxor_0_r|].
  cbn [fold_left poly_eval]. rewrite IH, f_linear, iter_linear by done.
  rewrite <- !Nat.iter_succ_r, Z.lxor_assoc. done.
Qed.

Lemma horner_0 ms : f 0 = 0 -> fold_left (fun e m => f (Z.lxor e m)) ms 0 = poly_eval f ms.
Proof.
  intros H0. rewrite horner. assert (Nat.iter (length ms) f 0 = 0) as ->; [|done].
  induction (length ms) as [|n IH]; [done|]. by rewrite Nat.iter_succ, IH.
Qed.

End Horner.

(** The multiplication of the code. *)
Lemma MUL64x_mulx V c : MUL64x V c = mulx 64 c V.
Proof.
  unfold MUL64x, mulx. change 0x8000000000000000 with (2 ^ 63). rewrite testbit_land_pow2 by lia.
  rewrite !Z.shiftl_mul_pow2, (Z.mul_comm V) by lia. done.
Qed.

Lemma MUL64xPOW_mulx V i c : MUL64xPOW V i c = mulx_pow 64 c V i.
Proof. induction i as [|i IH]; [done|]. cbn [MUL64xPOW mulx_pow]. by rewrite IH, MUL64x_mulx. Qed.

Lemma MUL64_loop_mul n V P c : MUL64_loop n V P c = mul_loop 64 c n V P.
Proof.
  induction n as [|n IH]; [done|]. cbn [MUL64_loop mul_loop]. rewrite IH, MUL64xPOW_mulx.
  change 0x1 with (2 ^ 0) at 1. rewrite testbit_land_pow2, Z.shiftr_spec by lia.
  replace (0 + Z.of_nat n) with (Z.of_nat n) by lia. destruct (Z.testbit P _); [done|by rewrite Z.lxor_0_r].
Qed.

Lemma MUL64_mul64 V P : is_word 64 V -> MUL64 V P 0x1b = mul64 V P /\ is_word 64 (mul64 V P).
Proof.
  intros HV. assert (Hc : is_word 64 0x1b) by (unfold is_word; lia).
  assert (E : MUL64 V P 0x1b = mul64 V P).
  { unfold MUL64, mul64, gf_mul. rewrite MUL64_loop_mul.
    rewrite (mul_loop_reduce 64 0x1b ltac:(lia) Hc 64 64 V P HV) by lia. reflexivity. }
  split; [done|]. rewrite <- E. unfold MUL64. rewrite MUL64_loop_mul. by apply mul_loop_word.
Qed.

Lemma Z_of_bits_zeros n : Z_of_bits (replicate n false) = 0.
Proof. induction n as [|n IH]; [done|]. cbn [replicate]. rewrite Z_of_bits_cons, IH. cbn. lia. Qed.

Lemma word_of_sum a b c d :
  is_word 8 b -> is_word 8 c -> is_word 8 d -> word_of a b c d = ((a * 256 + b) * 256 + c) * 256 + d.
Proof.
  intros Hb Hc Hd. unfold word_of, is_word in *. change 256 with (2 ^ 8).
  rewrite <- (lor_shiftl_add a b 8), <- (lor_shiftl_add _ c 8), <- (lor_shiftl_add _ d 8) by lia.
  rewrite !Z.shiftl_lor, !Z.shiftl_shiftl by lia. done.
Qed.

(** A word of the message is the number of 32 of its bits. *)
Lemma message_word_bits m i :
  Forall (is_word 8) m -> (4 * i + 4 <= length m)%nat ->
  message_word m (Z.of_nat i) = Ok (Z_of_bits (take 32 (drop (32 * i) (bytes_bits m)))).
Proof.
  intros Hm Hl. unfold message_word. rewrite load32_spec by lia. cbn [rbind]. f_equal.
  rewrite <- (take_drop (4 * i) m) in Hm |- *. set (pre := take (4 * i) m) in *. set (l := drop (4 * i) m) in *.
  assert (Hpre : length pre = (4 * i)%nat) by (unfold pre; rewrite length_take; lia).
  assert (Hll : (4 <= length l)%nat) by (unfold l; rewrite length_drop; lia).
  destruct l as [|b0 [|b1 [|b2 [|b3 l']]]]; cbn in Hll; try lia.
  apply Forall_app in Hm as [_ Hm]. repeat (apply list.Forall_cons in Hm as [? Hm]).
  assert (Hg : forall k, buf_get (pre ++ [b0; b1; b2; b3] ++ l') (4 * Z.of_nat i + Z.of_nat k)
                = default 0 (([b0; b1; b2; b3] ++ l') !! k)).
  { intros k. unfold buf_get. rewrite lookup_app_r by lia. do 2 f_equal. lia. }
  change (b0 :: b1 :: b2 :: b3 :: l') with ([b0; b1; b2; b3] ++ l') in *.
  change (4 * Z.of_nat i + 3) with (4 * Z.of_nat i + Z.of_nat 3). change (4 * Z.of_nat i + 2) with (4 * Z.of_nat i + Z.of_nat 2).
  change (4 * Z.of_nat i + 1) with (4 * Z.of_nat i + Z.of_nat 1).
  replace (4 * Z.of_nat i) with (4 * Z.of_nat i + Z.of_nat 0) at 4 by lia. rewrite !Hg. cbn [lookup list_lookup app default from_option id].
  destruct (byte_of_word_of b3 b2 b1 b0) as (E1 & E2 & E3 & E4); try done.
  rewrite hton_word_of by by apply word_of_word. rewrite E1, E2, E3, E4, word_of_sum by done.
  rewrite bytes_bits_app, drop_app_length' by (rewrite length_bytes_bits; lia).
  change (b0 :: b1 :: b2 :: b3 :: l') with ([b0; b1; b2; b3] ++ l'). rewrite bytes_bits_app, take_app_length' by done.
  rewrite !bytes_bits_cons. change (bytes_bits []) with (@nil bool). rewrite app_nil_r.
  rewrite !Z_of_bits_app, !length_app, !length_bits_be, !Z_of_bits_small by done. lia.
Qed.

Lemma Z_of_bits_range l : is_word (Z.of_nat (length l)) (Z_of_bits l).
Proof. exact (Z_of_bits_bound l). Qed.

(** [mask32bit] keeps the first bits of a word. *)
Lemma mask32bit_shift r :
  1 <= r <= 32 -> mask32bit (cmod r 32) = Z.shiftl (Z.ones r) (32 - r).
Proof.
  intros Hr. assert (H : Forall (fun r => mask32bit (cmod r 32) = Z.shiftl (Z.ones r) (32 - r)) (seqZ 1 32)).
  { vm_compute. repeat constructor. }
  rewrite list.Forall_forall in H. apply H, elem_of_seqZ. lia.
Qed.

Lemma masked_bits l r :
  length l = 32%nat -> 1 <= r <= 32 ->
  Z.land (Z_of_bits l) (mask32bit (cmod r 32)) = Z_of_bits (take (Z.to_nat r) l) * 2 ^ (32 - r).
Proof.
  intros Hl Hr. rewrite mask32bit_shift by done.
  pose proof (Z_of_bits_range l) as Hw. rewrite Hl in Hw. apply word_bits in Hw as [_ Hw]; [|lia].
  assert (E : Z_of_bits (take (Z.to_nat r) l) = Z.shiftr (Z_of_bits l) (32 - r)).
  { rewrite <- (take_drop (Z.to_nat r) l) at 2. rewrite Z_of_bits_app, length_drop, Hl.
    replace (Z.of_nat (32 - Z.to_nat r)) with (32 - r) by lia. rewrite Z.shiftr_div_pow2 by lia.
    pose proof (Z_of_bits_range (drop (Z.to_nat r) l)) as Hd. rewrite length_drop, Hl in Hd.
    replace (Z.of_nat (32 - Z.to_nat r)) with (32 - r) in Hd by lia. unfold is_word in Hd.
    rewrite Z.div_add_l, Z.div_small by lia. lia. }
  rewrite E, <- Z.shiftl_mul_pow2 by lia. apply Z.bits_inj'. intros i Hi.
  rewrite Z.land_spec, !Z.shiftl_spec by lia. destruct (Z.lt_ge_cases i (32 - r)).
  { rewrite !(Z.testbit_neg_r _ (i - (32 - r))), andb_false_r by lia. done. }
  rewrite Z.shiftr_spec, Z.testbit_ones_nonneg by lia. replace (i - (32 - r) + (32 - r)) with i by lia.
  destruct (Z.ltb_spec (i - (32 - r)) r); [by rewrite andb_true_r|]. by rewrite Hw by lia.
Qed.

(** Two words of the message. *)
Lemma two_words X :
  (64 <= length X)%nat ->
  Z.lor (Z.shiftl (Z_of_bits (take 32 X)) 32) (Z_of_bits (take 32 (drop 32 X))) = Z_of_bits (take 64 X).
Proof.
  intros Hl. pose proof (Z_of_bits_range (take 32 (drop 32 X))) as Hw.
  rewrite length_take, length_drop, Nat.min_l in Hw by lia. rewrite lor_shiftl_add by (done || lia).
  change 64%nat with (32 + 32)%nat. rewrite <- (take_take_drop X 32 32), Z_of_bits_app.
  by rewrite length_take, length_drop, Nat.min_l by lia.
Qed.

#[local] Opaque MUL64 mul64.

Lemma fold_left_seq {A} (f : Z -> A -> Z) g i n e :
  fold_left f (g <$> seq i (S n)) e = fold_left f (g <$> seq (S i) n) (f e (g i)).
Proof. reflexivity. Qed.

Section Message.

Variable m : list Z.
Variable bl : Z.
Hypothesis m_bytes : Forall (is_word 8) m.
Hypothesis bl_pos : 0 < bl.
Hypothesis m_long : (bl + 31) / 32 * 4 <= Z.of_nat (length m).

(** The bits from block [i] on. *)
Let X (i : nat) : list bool := drop (64 * i) (bytes_bits m).

Lemma length_X i : length (X i) = (8 * length m - 64 * i)%nat.
Proof. unfold X. by rewrite length_drop, length_bytes_bits. Qed.

Lemma first_word i : (8 * i + 4 <= length m)%nat -> message_word m (2 * Z.of_nat i) = Ok (Z_of_bits (take 32 (X i))).
Proof.
  intros Hi. replace (2 * Z.of_nat i) with (Z.of_nat (2 * i)) by lia.
  rewrite message_word_bits by (done || lia). unfold X. by replace (32 * (2 * i))%nat with (64 * i)%nat by lia.
Qed.

Lemma second_word i :
  (8 * i + 8 <= length m)%nat -> message_word m (2 * Z.of_nat i + 1) = Ok (Z_of_bits (take 32 (drop 32 (X i)))).
Proof.
  intros Hi. replace (2 * Z.of_nat i + 1) with (Z.of_nat (2 * i + 1)) by lia.
  rewrite message_word_bits by (done || lia). unfold X. rewrite drop_drop.
  by replace (32 * (2 * i + 1))%nat with (64 * i + 32)%nat by lia.
Qed.

(** A block of the message: the first bits of [X i], then zeros. *)
Lemma block_bits i r :
  r = Z.min 64 (bl - 64 * Z.of_nat i) -> 0 <= r -> (Z.to_nat r <= length (X i))%nat ->
  block (message_bits m bl) i = Z_of_bits (take (Z.to_nat r) (X i)) * 2 ^ (64 - r).
Proof.
  intros Hr H0 Hl. unfold block, message_bits. rewrite skipn_firstn_comm. fold (X i).
  replace (Z.to_nat bl - 64 * i)%nat with (Z.to_nat (bl - 64 * Z.of_nat i)) by lia.
  destruct (decide (64 <= bl - 64 * Z.of_nat i)) as [Hge|Hlt].
  - replace r with 64 in * by lia. rewrite take_app_le by (rewrite length_take; lia).
    rewrite take_take, Nat.min_l by lia. change (2 ^ (64 - 64)) with 1. change (Z.to_nat 64) with 64%nat. lia.
  - replace (bl - 64 * Z.of_nat i) with r by lia. rewrite take_app_ge by (rewrite length_take; lia).
    rewrite length_take, Nat.min_l by lia. rewrite Z_of_bits_app, take_replicate, Z_of_bits_zeros, length_replicate.
    replace (Z.of_nat _) with (64 - r) by lia. lia.
Qed.

(** One turn of the loop. *)
Lemma eval_loop_turn n i P c e hi lo :
  message_word m (2 * i) = Ok hi -> message_word m (2 * i + 1) = Ok lo ->
  eval_loop (S n) m i P c e = eval_loop n m (i + 1) P c (MUL64 (Z.lxor e (Z.lor (Z.shiftl hi 32) lo)) P c).
Proof. intros H1 H2. cbn [eval_loop]. rewrite H1, H2. reflexivity. Qed.

(** The loop is Horner's over the first blocks. *)
Lemma eval_loop_blocks n : forall i P c e,
  64 * Z.of_nat (i + n) <= bl ->
  eval_loop n m (Z.of_nat i) P c e
  = Ok (fold_left (fun e b => MUL64 (Z.lxor e b) P c) (block (message_bits m bl) <$> seq i n) e).
Proof.
  assert (Hb := Z_div_mod_eq_full (bl + 31) 32). assert (Hb' := Z.mod_pos_bound (bl + 31) 32).
  induction n as [|n IH]; intros i P c e Hn; [done|].
  assert (Eb : block (message_bits m bl) i = Z_of_bits (take 64 (X i))).
  { rewrite (block_bits i 64) by (rewrite ?length_X; lia).
    change (2 ^ (64 - 64)) with 1. change (Z.to_nat 64) with 64%nat. by rewrite Z.mul_1_r. }
  rewrite (eval_loop_turn _ _ _ _ _ _ _ (first_word i ltac:(lia)) (second_word i ltac:(lia))).
  rewrite two_words, <- Eb by (rewrite length_X; lia).
  replace (Z.of_nat i + 1) with (Z.of_nat (S i)) by lia. rewrite IH, fold_left_seq by lia. reflexivity.
Qed.

Lemma last_block_bits j :
  64 * Z.of_nat j < bl <= 64 * Z.of_nat j + 64 ->
  last_block m (Z.of_nat j + 2) (bl - 64 * Z.of_nat j) = Ok (block (message_bits m bl) j).
Proof.
  intros Hj. assert (Hb := Z_div_mod_eq_full (bl + 31) 32). assert (Hb' := Z.mod_pos_bound (bl + 31) 32).
  set (r := bl - 64 * Z.of_nat j). unfold last_block. replace (Z.of_nat j + 2 - 2) with (Z.of_nat j) by lia.
  rewrite (block_bits j r) by (rewrite ?length_X; lia). destruct (r >? 32) eqn:E; b2p.
  - rewrite first_word, second_word by lia. cbn [rbind]. f_equal.
    assert (Hl : length (take 32 (drop 32 (X j))) = 32%nat) by (rewrite length_take, length_drop, length_X; lia).
    assert (Hc : cmod r 32 = cmod (r - 32) 32).
    { rewrite !cmod_pos by lia. rewrite <- (Z_mod_plus_full (r - 32) 1 32). f_equal. lia. }
    rewrite Hc, masked_bits by (done || lia). rewrite take_take, Nat.min_l by lia.
    pose proof (Z_of_bits_range (take (Z.to_nat (r - 32)) (drop 32 (X j)))) as Hw.
    rewrite length_take, length_drop, length_X in Hw.
    replace (Z.of_nat _) with (r - 32) in Hw by lia. unfold is_word in Hw.
    rewrite lor_shiftl_add; [|lia|].
    2: { replace (2 ^ 32) with (2 ^ (r - 32) * 2 ^ (64 - r)) by (rewrite <- Z.pow_add_r by lia; f_equal; lia).
         replace (32 - (r - 32)) with (64 - r) by lia. assert (0 < 2 ^ (64 - r)) by (apply Z.pow_pos_nonneg; lia). nia. }
    replace (Z.to_nat r) with (32 + Z.to_nat (r - 32))%nat by lia. rewrite <- take_take_drop, Z_of_bits_app.
    rewrite length_take, length_drop, length_X. replace (Z.of_nat (_ `min` _)) with (r - 32) by lia.
    replace (32 - (r - 32)) with (64 - r) by lia. rewrite Z.mul_add_distr_r, <- Z.mul_assoc, <- Z.pow_add_r by lia.
    do 3 f_equal. lia.
  - rewrite first_word by lia. cbn [rbind]. f_equal.
    assert (Hl : length (take 32 (X j)) = 32%nat) by (rewrite length_take, length_X; lia).
    rewrite masked_bits by (done || lia). rewrite take_take, Nat.min_l, Z.shiftl_mul_pow2, <- Z.mul_assoc, <- Z.pow_add_r by lia.
    do 2 f_equal. lia.
Qed.

End Message.

(** The key stream does not fault on a key of 16 bytes, and is five words. *)
Lemma eia1_stream_ok sc : 16 <= Z.of_nat (length (sc_key sc)) -> exists z, eia1_key_stream sc = Ok z /\ length z = 5%nat.
Proof.
  intros Hk. unfold eia1_key_stream. destruct (load_key_ok _ Hk) as [[[[k0 k1] k2] k3] E]. rewrite E. cbn [rbind].
  set (s := snow3g_initialize _ _ _ _ _ _ _ _). pose proof (stream_length 5 s) as Hl.
  destruct (snow3g_generate_key_stream _ s) as [z s2]. by exists z.
Qed.

#[local] Opaque eia1_key_stream.

Lemma block_word m bl i : is_word 64 (block (message_bits m bl) i).
Proof.
  unfold block. pose proof (Z_of_bits_range (take 64 (drop (64 * i) (message_bits m bl) ++ replicate 64 false))) as H.
  rewrite length_take, length_app, length_replicate, Nat.min_l in H by lia. exact H.
Qed.

Lemma fold_left_agree (f g : Z -> Z -> Z) (W : Z -> Prop) (ms : list Z) :
  (forall e x, W e -> W x -> f e x = g e x /\ W (g e x)) ->
  forall e, W e -> Forall W ms -> fold_left f ms e = fold_left g ms e /\ W (fold_left g ms e).
Proof.
  intros Hfg. induction ms as [|x ms IH]; intros e He Hms; [done|]. apply list.Forall_cons in Hms as [Hx Hms].
  cbn [fold_left]. destruct (Hfg e x He Hx) as [E Hw]. rewrite E. by apply IH.
Qed.

Lemma fold_left_snoc (f : Z -> Z -> Z) ms x e : fold_left f (ms ++ [x]) e = f (fold_left f ms e) x.
Proof. by rewrite fold_left_app. Qed.

(** The code's multiplications over a list of words are the field's. *)
Lemma fold_MUL64 P ms : forall e,
  is_word 64 e -> Forall (is_word 64) ms ->
  fold_left (fun e b => MUL64 (Z.lxor e b) P 0x1b) ms e = fold_left (fun e b => mul64 (Z.lxor e b) P) ms e /\
  is_word 64 (fold_left (fun e b => mul64 (Z.lxor e b) P) ms e).
Proof.
  refine (fold_left_agree (fun e b => MUL64 (Z.lxor e b) P 0x1b) (fun e b => mul64 (Z.lxor e b) P) (is_word 64) ms _).
  intros e x He Hx. exact (MUL64_mul64 (Z.lxor e x) P (word_lxor 64 e x ltac:(lia) He Hx)).
Qed.

Lemma seq_last {A} (g : nat -> A) j : g <$> seq 0 (S j) = (g <$> seq 0 j) ++ [g j].
Proof. by rewrite seq_S, fmap_app. Qed.

(** What the code computes from the five words [z] on a message of at least one bit. *)
Lemma eia1_eval P m bl j e1 :
  Forall (is_word 8) m -> (bl + 31) / 32 * 4 <= Z.of_nat (length m) ->
  64 * Z.of_nat j < bl <= 64 * Z.of_nat j + 64 ->
  eval_loop j m 0 P 0x1b 0 = Ok e1 ->
  MUL64 (Z.lxor e1 (block (message_bits m bl) j)) P 0x1b = poly_eval (fun x => mul64 x P) (blocks m bl) /\
  is_word 64 (poly_eval (fun x => mul64 x P) (blocks m bl)).
Proof.
  intros Hm Hl Hj He. change 0 with (Z.of_nat 0) in He at 1. rewrite (eval_loop_blocks m bl) in He by (done || lia).
  injection He as <-.
  assert (Hb : blocks m bl = (block (message_bits m bl) <$> seq 0 j) ++ [block (message_bits m bl) j]).
  { unfold blocks. rewrite <- seq_last. do 2 f_equal. pose proof (Z_div_mod_eq_full (bl + 63) 64).
    pose proof (Z.mod_pos_bound (bl + 63) 64). lia. }
  assert (Hw : Forall (is_word 64) (blocks m bl)).
  { unfold blocks. apply list.Forall_fmap, list.Forall_forall. intros i _. apply block_word. }
  destruct (fold_MUL64 P (blocks m bl) 0) as [E1 W1]; [unfold is_word; lia|done|].
  rewrite <- (horner_0 (fun x => mul64 x P) (fun a b => mul64_linear a b P) (blocks m bl) (mul64_0 P)).
  split; [|exact W1]. rewrite <- E1, Hb, fold_left_snoc.
  reflexivity.
Qed.

(** Deciphering undoes ciphering.  With a key of 16 bytes and buffers that hold the
    [4 * ceil (blength / 32)] bytes the code works on, [nas_stream_encrypt_eea1] succeeds,
    and a second call with the same parameters on its output gives the message back, with
    the bits of its last byte beyond [blength] cleared. *)
Theorem eea1_roundtrip sc out out2 :
  key_length sc = 16 -> 16 <= Z.of_nat (length (sc_key sc)) -> 0 <= blength sc <= 2 ^ 32 - 32 ->
  let k := Z.to_nat ((blength sc + 31) / 32 * 4) in
  (k <= length (sc_message sc))%nat -> (k <= length out)%nat -> (k <= length out2)%nat ->
  exists sc1 c sc2 p,
    nas_stream_encrypt_eea1 sc out = Ok (sc1, c) /\
    nas_stream_encrypt_eea1 (sc <| sc_message := c |>) out2 = Ok (sc2, p) /\
    take k p = clear_unused (blength sc) (take k (sc_message sc)).
Proof.
  intros Hk Hkey Hb k Hm Ho Ho2. destruct (eea1_call sc Hk Hkey Hb) as (ks & Hl & Hcall). fold k in Hl, Hcall.
  assert (Hlen : forall u, (k <= length u)%nat -> length (crypt (unused_bits (blength sc)) ks (take k u)) = k).
  { intros u Hu. unfold crypt. destruct (unused_bits _) as [[i mask]|]; rewrite ?length_and_at, length_zip_with, length_take; lia. }
  destruct (Hcall (sc_message sc) out Hm Ho) as [sc1 E1]. rewrite (surj_sc sc) in E1.
  set (x := crypt _ ks (take k (sc_message sc))) in E1. assert (Hx : length x = k) by (by apply Hlen).
  destruct (Hcall (x ++ drop k out) out2) as [sc2 E2]; [rewrite length_app; lia|done|].
  rewrite (take_app_length' x) in E2 by done.
  eexists sc1, (x ++ drop k out), sc2, _. split; [exact E1|]. split; [exact E2|].
  rewrite take_app_length'.
  2: { replace x with (take k x) by (apply take_ge; lia). rewrite Hlen; lia. }
  unfold x. rewrite crypt_twice by (rewrite length_take; lia). reflexivity.
Qed.

(** Test set 4 of TEST/test_secu_knas_encrypt_eea1.c: 253 bits. *)
Definition eea1_set_4 : nas_stream_cipher_t := mk_cipher
  [0xd3; 0xc5; 0xd5; 0x92; 0x32; 0x7f; 0xb1; 0x1c; 0x40; 0x35; 0xc6; 0x68; 0x0a; 0xf8; 0xc6;
   0xd1]
  16 0x398A59B4 0x05 1
  [0x98; 0x1b; 0xa6; 0x82; 0x4c; 0x1b; 0xfb; 0x1a; 0xb4; 0x85; 0x47; 0x20; 0x29; 0xb7; 0x1d;
   0x80; 0x8c; 0xe3; 0x3e; 0x2c; 0xc3; 0xc0; 0xb5; 0xfc; 0x1f; 0x3d; 0xe8; 0xa6; 0xdc; 0x66;
   0xb1; 0xf0]
  253.

Definition eea1_set_4_cipher : list Z :=
  [0x98; 0x9b; 0x71; 0x9c; 0xdc; 0x33; 0xce; 0xb7; 0xcf; 0x27; 0x6a; 0x52; 0x82; 0x7c; 0xef;
   0x94; 0xa5; 0x6c; 0x40; 0xc0; 0xab; 0x9d; 0x81; 0xf7; 0xa2; 0xa9; 0xba; 0xc6; 0x0e; 0x11;
   0xc4; 0xb0].

Lemma eea1_roundtrip_witness :
  (exists sc1, nas_stream_encrypt_eea1 eea1_set_4 (replicate 32 0) = Ok (sc1, eea1_set_4_cipher)) /\
  exists sc1 c sc2 p,
    nas_stream_encrypt_eea1 eea1_set_4 (replicate 32 0) = Ok (sc1, c) /\
    nas_stream_encrypt_eea1 (eea1_set_4 <| sc_message := c |>) (replicate 32 0) = Ok (sc2, p) /\
    take 32 p = sc_message eea1_set_4.
Proof.
  split; [eexists; vm_compute; reflexivity|].
  apply (eea1_roundtrip eea1_set_4 (replicate 32 0) (replicate 32 0));
    [reflexivity|vm_compute; discriminate|vm_compute; split; discriminate|..]; apply Nat.leb_le; reflexivity.
Defined.

(** C14. The integrity code of EIA1 is the polynomial of its specification.  For a message of
    [blength > 0] bits in a buffer of whole words, [nas_stream_encrypt_eia1] succeeds and
    returns the big-endian bytes of: the blocks of 64 bits [M_0 .. M_(n-1)] (the last padded
    with 0) evaluated at [P], [M_0 P^n + .. + M_(n-1) P] in GF(2^64), the length added, times
    [Q], the high word of it added to [z[4]]; [P], [Q] and [z[4]] are the five words of key
    stream.  The shift-and-add loops, the byte swaps and the masks of the code do not
    appear on the right. *)
Theorem eia1_refines sc :
  16 <= Z.of_nat (length (sc_key sc)) -> Forall (is_word 8) (sc_message sc) ->
  0 < blength sc < 2 ^ 32 -> (blength sc + 31) / 32 * 4 <= Z.of_nat (length (sc_message sc)) ->
  exists z, eia1_key_stream sc = Ok z /\ length z = 5%nat /\
    nas_stream_encrypt_eia1 sc = Ok (bytes32 (hton_int32 (eia1_mac z (sc_message sc) (blength sc)))).
Proof.
  intros Hk Hm Hb Hl. destruct (eia1_stream_ok sc Hk) as (z & Ez & Hz). exists z. split; [done|]. split; [done|].
  unfold nas_stream_encrypt_eia1. rewrite Ez. cbn [rbind]. set (bl := blength sc) in *. set (m := sc_message sc) in *.
  set (P := Z.lor _ (z !!! 1%nat)). set (Q := Z.lor _ (z !!! 3%nat)).
  pose proof (Z_div_mod_eq_full (bl + 63) 64) as Hd. pose proof (Z.mod_pos_bound (bl + 63) 64 ltac:(lia)) as Hd'.
  set (j := Z.to_nat ((bl + 63) / 64 - 1)).
  assert (Hj : 64 * Z.of_nat j < bl <= 64 * Z.of_nat j + 64) by lia.
  replace ((bl + 63) / 64 + 1) with (Z.of_nat j + 2) by lia. replace (Z.to_nat (Z.of_nat j + 2 - 2)) with j by lia.
  assert (Hr : (if cmod bl 64 =? 0 then 64 else cmod bl 64) = bl - 64 * Z.of_nat j).
  { rewrite cmod_pos by lia. pose proof (Z_div_mod_eq_full bl 64). pose proof (Z.mod_pos_bound bl 64 ltac:(lia)).
    destruct (Z.eqb_spec (bl mod 64) 0); lia. }
  rewrite Hr, last_block_bits by (done || lia).
  assert (He : exists e, eval_loop j m 0 P 0x1b 0 = Ok e).
  { change 0 with (Z.of_nat 0) at 1. rewrite (eval_loop_blocks m bl) by (done || lia). by eexists. }
  destruct He as [e He]. rewrite He. cbn [rbind]. destruct (eia1_eval P m bl j e Hm Hl Hj He) as [Ee We].
  rewrite Ee. destruct (MUL64_mul64 (Z.lxor (poly_eval (fun x => mul64 x P) (blocks m bl)) bl) Q) as [Eq _].
  { apply word_lxor; [lia|done|]. unfold is_word. lia. }
  rewrite Eq. reflexivity.
Qed.

(** Test set 1 of TEST/test_secu_knas_encrypt_eia1.c. *)
Definition eia1_set_1 : nas_stream_cipher_t := mk_cipher
  [0x2b; 0xd6; 0x45; 0x9f; 0x82; 0xc5; 0xb3; 0x00; 0x95; 0x2c; 0x49; 0x10; 0x48; 0x81; 0xff;
   0x48]
  16 0x38a6f056 0x1f 0
  [0x33; 0x32; 0x34; 0x62; 0x63; 0x39; 0x38; 0x61; 0x37; 0x34; 0x79; 0x00; 0x00; 0x00; 0x00;
   0x00]
  88.

Lemma eia1_refines_witness :
  nas_stream_encrypt_eia1 eia1_set_1 = Ok [0x73; 0x1f; 0x11; 0x65] /\
  exists z, eia1_key_stream eia1_set_1 = Ok z /\ length z = 5%nat /\
    nas_stream_encrypt_eia1 eia1_set_1 = Ok (bytes32 (hton_int32 (eia1_mac z (sc_message eia1_set_1) 88))).
Proof.
  split; [vm_compute; reflexivity|].
  apply (eia1_refines eia1_set_1); [vm_compute; discriminate| |split; reflexivity|vm_compute; discriminate].
  repeat (apply List.Forall_cons; [split; [discriminate|reflexivity]|]). apply List.Forall_nil.
Defined.

(** Test set 3 of the same file as [eea1_set_4]: 120 bits in 15 bytes. *)
Definition eea1_set_3 : nas_stream_cipher_t := mk_cipher
  [0x5a; 0xcb; 0x1d; 0x64; 0x4c; 0x0d; 0x51; 0x20; 0x4e; 0xa5; 0xf1; 0x45; 0x10; 0x10; 0xd8;
   0x52]
  16 0xFA556B26 0x03 1
  [0xad; 0x9c; 0x44; 0x1f; 0x89; 0x0b; 0x38; 0xc4; 0x57; 0xa4; 0x9d; 0x42; 0x14; 0x07; 0xe8]
  120.
