(* ===== verification/Crc.v ===== *)
(** The CRCs of openair1/PHY/CODING/crc_byte.c: the bit-by-bit routine, the tables computed
    with it, the table-driven routines and the check of a decoded block.

    The translation is the portable code ([USE_INTEL_CRC] 0); the variant of [crc24a] and
    [crc24b] that uses the carry-less multiplication of the processor is not part of it.
    The reference is the remainder of polynomials over GF(2) of the file Gf2. *)

From S2P Require Import Prelude.
From S2P Require Import RlcPdu.
From S2P Require Import Gf2.
From S2P Require Import Snow3g.
From Stdlib Require Import Btauto.

(** ** Polynomials, aligned to the top of a word, without their leading term *)

Definition poly24a : Z := 0x864cfb00.
Definition poly24b : Z := 0x80006300.
Definition poly24c : Z := 0xb2b11700.
Definition poly16 : Z := 0x10210000.
Definition poly12 : Z := 0x80F00000.
Definition poly8 : Z := 0x9B000000.
Definition poly6 : Z := 0x84000000.
Definition poly11 : Z := 0xc4200000.

(** ** Bit by bit *)

(** The loop over the bits of one byte, which is at the top of [c]. *)
Fixpoint crcbit_byte (i : nat) (c crc poly : Z) : Z :=
  match i with
  | O => crc
  | S i =>
    let crc' :=
      if negb (Z.land (Z.shiftl 1 31) (Z.lxor c crc) =? 0)
      then Z.lxor (u32 (Z.shiftl crc 1)) poly else u32 (Z.shiftl crc 1) in
    crcbit_byte i (u32 (Z.shiftl c 1)) crc' poly
  end.

Fixpoint crcbit_loop (input : list Z) (crc poly : Z) : Z :=
  match input with
  | [] => crc
  | b :: tl => crcbit_loop tl (crcbit_byte 8 (u32 (Z.shiftl b 24)) crc poly) poly
  end.

Definition crcbit (inputptr : list Z) (octetlen poly : Z) : res Z :=
  if Z.of_nat (length inputptr) <? octetlen then Fault OutOfBounds
  else Ok (crcbit_loop (take (Z.to_nat octetlen) inputptr) 0 poly).

(** ** Tables *)

Record crc_tables := mk_tables {
  crc24aTable : list Z;
  crc24bTable : list Z;
  crc24cTable : list Z;
  crc16Table : list Z;
  crc12Table : list Z;
  crc11Table : list Z;
  crc8Table : list Z;
  crc6Table : list Z
}.


(** [crcbit(&c, 1, poly)] *)
Definition crc_of_byte (poly c : Z) : Z := crcbit_loop [c] 0 poly.

Definition crcTableInit : crc_tables :=
  let c := seqZ 0 256 in
  mk_tables
    (crc_of_byte poly24a <$> c)
    (crc_of_byte poly24b <$> c)
    (crc_of_byte poly24c <$> c)
    ((fun c => u16 (Z.shiftr (crc_of_byte poly16 c) 16)) <$> c)
    ((fun c => u16 (Z.shiftr (crc_of_byte poly12 c) 16)) <$> c)
    ((fun c => u16 (Z.shiftr (crc_of_byte poly11 c) 16)) <$> c)
    ((fun c => u8 (Z.shiftr (crc_of_byte poly8 c) 24)) <$> c)
    ((fun c => u8 (Z.shiftr (crc_of_byte poly6 c) 24)) <$> c).

(** ** Byte by byte, with a table *)

(** The shape the routines share: [step crc b] for the whole bytes, [last crc b r] for the
    first [r] bits of the byte behind them. *)
Definition crc_bytes (step : Z -> Z -> Z) (last : Z -> Z -> Z -> Z) (inptr : list Z) (bitlen : Z) : res Z :=
  let octetlen := Z.quot bitlen 8 in
  let resbit := cmod bitlen 8 in
  if Z.of_nat (length inptr) <? octetlen + (if resbit >? 0 then 1 else 0) then Fault OutOfBounds
  else
    let crc := fold_left step (take (Z.to_nat octetlen) inptr) 0 in
    if resbit >? 0 then Ok (last crc (buf_get inptr octetlen) resbit) else Ok crc.

Definition crc24_with (table : list Z) : list Z -> Z -> res Z :=
  crc_bytes
    (fun crc b => Z.lxor (u32 (Z.shiftl crc 8)) (tab table (Z.lxor b (Z.shiftr crc 24))))
    (fun crc b r => Z.lxor (u32 (Z.shiftl crc r))
                           (tab table (Z.lxor (Z.shiftr b (8 - r)) (Z.shiftr crc (32 - r))))).

Definition crc24a (t : crc_tables) : list Z -> Z -> res Z := crc24_with (crc24aTable t).
Definition crc24b (t : crc_tables) : list Z -> Z -> res Z := crc24_with (crc24bTable t).
Definition crc24c (t : crc_tables) : list Z -> Z -> res Z := crc24_with (crc24cTable t).

(** The tables of [unsigned short], shifted to the top. *)
Definition crc16_with (table : list Z) : list Z -> Z -> res Z :=
  crc_bytes
    (fun crc b => Z.lxor (u32 (Z.shiftl crc 8)) (u32 (Z.shiftl (tab table (Z.lxor b (Z.shiftr crc 24))) 16)))
    (fun crc b r => Z.lxor (u32 (Z.shiftl crc r))
       (u32 (Z.shiftl (tab table (Z.lxor (Z.shiftr b (8 - r)) (Z.shiftr crc (32 - r)))) 16))).

Definition crc16 (t : crc_tables) : list Z -> Z -> res Z := crc16_with (crc16Table t).
Definition crc12 (t : crc_tables) : list Z -> Z -> res Z := crc16_with (crc12Table t).
Definition crc11 (t : crc_tables) : list Z -> Z -> res Z := crc16_with (crc11Table t).

(** The tables of [unsigned char]. *)
Definition crc8_with (table : list Z) : list Z -> Z -> res Z :=
  crc_bytes
    (fun crc b => u32 (Z.shiftl (tab table (Z.lxor b (Z.shiftr crc 24))) 24))
    (fun crc b r => Z.lxor (u32 (Z.shiftl crc r))
       (u32 (Z.shiftl (tab table (Z.lxor (Z.shiftr b (8 - r)) (Z.shiftr crc (32 - r)))) 24))).

Definition crc8 (t : crc_tables) : list Z -> Z -> res Z := crc8_with (crc8Table t).
Definition crc6 (t : crc_tables) : list Z -> Z -> res Z := crc8_with (crc6Table t).

(** ** The check of a decoded block *)

Definition CRC24_A : Z := 0.
Definition CRC24_B : Z := 1.
Definition CRC16 : Z := 2.
Definition CRC8 : Z := 3.

(** [AssertFatal(1, ...)] does not fail: an unknown type goes on with length 0. *)
Definition crc_len (crc_type : Z) : Z :=
  if (crc_type =? CRC24_A) || (crc_type =? CRC24_B) then 3
  else if crc_type =? CRC16 then 2
  else if crc_type =? CRC8 then 1
  else 0.

(** The [i]-th turn of the loop that reads the CRC of the block. *)
Definition read_crc (decoded_bytes : list Z) (first len : Z) : Z :=
  fold_left (fun oldcrc i => Z.lor oldcrc (Z.shiftl (buf_get decoded_bytes (first + i)) (Z.shiftl (len - 1 - i) 3)))
    (seqZ 0 len) 0.

Definition check_crc (t : crc_tables) (decoded_bytes : list Z) (n F crc_type : Z) : res bool :=
  let len := crc_len crc_type in
  let first := Z.shiftr n 3 - len in
  if (first <? 0) || (Z.of_nat (length decoded_bytes) <? first + len) then Fault OutOfBounds
  else
    let oldcrc := read_crc decoded_bytes first len in
    let* (crc, oldcrc) :=
      (if crc_type =? CRC24_A then
         let* crc := crc24a t decoded_bytes (n - 24) in Ok (Z.shiftr crc 8, Z.land oldcrc 0x00ffffff)
       else if crc_type =? CRC24_B then
         let* crc := crc24b t decoded_bytes (n - 24) in Ok (Z.shiftr crc 8, Z.land oldcrc 0x00ffffff)
       else if crc_type =? CRC16 then
         let* crc := crc16 t decoded_bytes (n - 16) in Ok (Z.shiftr crc 16, Z.land oldcrc 0x0000ffff)
       else if crc_type =? CRC8 then
         let* crc := crc8 t decoded_bytes (n - 8) in Ok (Z.shiftr crc 24, Z.land oldcrc 0x000000ff)
       else Ok (0, oldcrc)) in
    Ok (crc =? oldcrc).

(** ** Reference: the remainder of the message times x^d *)

Definition crc_spec (d g : Z) (l : list bool) : Z := reduce d (modulus d g) (length l) (Z.shiftl (Z_of_bits l) d).

(** The word the routines keep, bit by bit. *)
Definition crc_bits (p : Z) (l : list bool) (crc : Z) : Z :=
  fold_left (fun crc b => mulx 32 p (Z.lxor crc (Z.shiftl (Z.b2z b) 31))) l crc.

Lemma crc_bits_app p l l' crc : crc_bits p (l ++ l') crc = crc_bits p l' (crc_bits p l crc).
Proof. apply fold_left_app. Qed.

Lemma top_bit b : is_word 32 (Z.shiftl (Z.b2z b) 31).
Proof. destruct b; split; done. Qed.

Lemma double_add_bit z b : 2 * z + Z.b2z b = Z.lxor (2 * z) (Z.b2z b).
Proof.
  apply Z.add_nocarry_lxor, Z.bits_inj'. intros i Hi. rewrite Z.land_spec, Z.bits_0.
  destruct (decide (i = 0)) as [->|]; [by rewrite Z.testbit_even_0|].
  replace i with (Z.succ (i - 1)) by lia. destruct b; cbn [Z.b2z]; [|by rewrite Z.bits_0, andb_false_r].
  rewrite (Z.bits_above_log2 1) by (cbn; lia). by rewrite andb_false_r.
Qed.

(** The word after the bits [l] is a remainder. *)
Lemma crc_bits_spec p l :
  is_word 32 p -> crc_bits p l 0 = reduce 32 (modulus 32 p) (length l) (Z.shiftl (Z_of_bits l) 32).
Proof.
  intros Hp. assert (H32 : 0 < 32) by lia. induction l as [|b l IH] using rev_ind; [done|].
  rewrite crc_bits_app, IH. cbn [crc_bits fold_left].
  rewrite mulx_linear by lia. rewrite length_app, Nat.add_1_r.
  assert (Hx : is_word (32 + Z.of_nat (length l)) (Z.shiftl (Z_of_bits l) 32)).
  { pose proof (Z_of_bits_bound l). unfold is_word. rewrite Z.shiftl_mul_pow2, Z.pow_add_r by lia. nia. }
  rewrite <- (reduce_double 32 p) by done. rewrite (mulx_reduce 32 p) by (done || apply top_bit).
  rewrite <- (reduce_skip_more 32 H32 (modulus 32 p) 1 (S (length l))); [|destruct b; split; done|lia].
  rewrite <- reduce_linear. f_equal. rewrite Z_of_bits_snoc, double_add_bit, shiftl_lxor. f_equal.
Qed.

(** Taking in the [r] bits of [v] at once. *)
Lemma crc_bits_be p r v crc :
  (r <= 32)%nat -> is_word (Z.of_nat r) v ->
  crc_bits p (bits_be r v) crc = Nat.iter r (mulx 32 p) (Z.lxor crc (Z.shiftl v (32 - Z.of_nat r))).
Proof.
  assert (HL : forall a b, mulx 32 p (Z.lxor a b) = Z.lxor (mulx 32 p a) (mulx 32 p b)) by (intros; by apply mulx_linear).
  revert v crc. induction r as [|r IH]; intros v crc Hr Hv.
  - assert (v = 0) as -> by (unfold is_word in Hv; cbn in Hv; lia). rewrite Z.shiftl_0_l, Z.lxor_0_r. done.
  - change (bits_be (S r) v) with (Z.testbit v (Z.of_nat r) :: bits_be r v). unfold crc_bits. cbn [fold_left].
    fold (crc_bits p (bits_be r v) (mulx 32 p (Z.lxor crc (Z.shiftl (Z.b2z (Z.testbit v (Z.of_nat r))) 31)))).
    rewrite <- (bits_be_mod r r v), IH by (lia || apply word_mod; lia). rewrite Nat.iter_succ_r. f_equal.
    set (v' := v mod 2 ^ Z.of_nat r). assert (Hv' : is_word (Z.of_nat r) v') by (apply word_mod; lia).
    assert (E : mulx 32 p (Z.shiftl v' (32 - Z.of_nat (S r))) = Z.shiftl v' (32 - Z.of_nat r)).
    { unfold is_word in Hv'. rewrite mulx_shift; rewrite ?Z.shiftl_mul_pow2 by lia; [|lia|].
      - replace (32 - Z.of_nat r) with (32 - Z.of_nat (S r) + 1) by lia. rewrite Z.pow_add_r by lia. lia.
      - replace (32 - 1) with (Z.of_nat r + (32 - Z.of_nat (S r))) by lia. rewrite Z.pow_add_r by lia.
        assert (0 < 2 ^ (32 - Z.of_nat (S r))) by (apply Z.pow_pos_nonneg; lia). nia. }
    rewrite <- E, <- HL, Z.lxor_assoc. do 2 f_equal.
    assert (Ev : v = Z.lxor (Z.shiftl (Z.b2z (Z.testbit v (Z.of_nat r))) (Z.of_nat r)) v').
    { apply word_bits in Hv as [_ Hv]; [|lia]. apply Z.bits_inj'. intros i Hi. rewrite Z.lxor_spec, Z.shiftl_spec by lia.
      destruct (Z.lt_trichotomy i (Z.of_nat r)) as [Hlt|[->|Hgt]].
      - rewrite (Z.testbit_neg_r _ (i - _)) by lia. unfold v'. by rewrite Z.mod_pow2_bits_low by lia.
      - unfold v'. rewrite Z.mod_pow2_bits_high, Z.sub_diag by lia. by destruct (Z.testbit v _).
      - unfold v'. rewrite Hv, Z.mod_pow2_bits_high by lia.
        destruct (Z.testbit v _); cbn [Z.b2z]; [|by rewrite Z.bits_0]. rewrite (Z.bits_above_log2 1) by (cbn; lia). done. }
    rewrite Ev at 2. rewrite shiftl_lxor, Z.shiftl_shiftl by lia. do 2 f_equal. lia.
Qed.

(** One bit of the bit-by-bit routine. *)
Lemma crcbit_step p c crc :
  (if negb (Z.land (Z.shiftl 1 31) (Z.lxor c crc) =? 0) then Z.lxor (u32 (Z.shiftl crc 1)) p else u32 (Z.shiftl crc 1))
  = mulx 32 p (Z.lxor crc (Z.shiftl (Z.b2z (Z.testbit c 31)) 31)).
Proof.
  rewrite Z.land_comm. change (Z.shiftl 1 31) with (2 ^ 31). rewrite testbit_land_pow2 by lia. unfold mulx, u32.
  rewrite double_lxor, lxor_mod_pow2 by lia.
  assert (E : (2 * Z.shiftl (Z.b2z (Z.testbit c 31)) 31) mod 2 ^ 32 = 0) by (by destruct (Z.testbit c 31)).
  rewrite E, Z.lxor_0_r, !Z.lxor_spec. change (32 - 1) with 31.
  assert (E' : Z.testbit (Z.shiftl (Z.b2z (Z.testbit c 31)) 31) 31 = Z.testbit c 31) by (by destruct (Z.testbit c 31)).
  rewrite E', xorb_comm. rewrite Z.shiftl_mul_pow2, (Z.mul_comm crc) by lia. done.
Qed.

Lemma crcbit_byte_bits p v i : forall crc,
  (i <= 32)%nat -> crcbit_byte i (u32 (Z.shiftl v (32 - Z.of_nat i))) crc p = crc_bits p (bits_be i v) crc.
Proof.
  induction i as [|i IH]; intros crc Hi; [done|]. cbn [crcbit_byte bits_be]. rewrite crcbit_step.
  assert (E1 : Z.testbit (u32 (Z.shiftl v (32 - Z.of_nat (S i)))) 31 = Z.testbit v (Z.of_nat i)).
  { unfold u32. rewrite Z.mod_pow2_bits_low, Z.shiftl_spec by lia. f_equal. lia. }
  assert (E2 : u32 (Z.shiftl (u32 (Z.shiftl v (32 - Z.of_nat (S i)))) 1) = u32 (Z.shiftl v (32 - Z.of_nat i))).
  { unfold u32. rewrite (Z.shiftl_mul_pow2 (_ mod _)), Z.mul_mod_idemp_l, !Z.shiftl_mul_pow2 by lia.
    rewrite <- Z.mul_assoc, <- Z.pow_add_r by lia. do 3 f_equal. lia. }
  rewrite E1, E2, IH by lia. done.
Qed.

Lemma crcbit_loop_bits p l : forall crc, crcbit_loop l crc p = crc_bits p (bytes_bits l) crc.
Proof.
  induction l as [|b l IH]; intros crc; [done|]. cbn [crcbit_loop]. rewrite bytes_bits_cons, crc_bits_app, IH.
  f_equal. exact (crcbit_byte_bits p b 8 crc ltac:(lia)).
Qed.

(** The entry of the table for [w], whatever the width of its index. *)
Lemma crc_of_byte_iter p r w :
  (r <= 8)%nat -> is_word (Z.of_nat r) w ->
  crc_of_byte p w = Nat.iter r (mulx 32 p) (Z.shiftl w (32 - Z.of_nat r)).
Proof.
  intros Hr Hw. unfold crc_of_byte. rewrite crcbit_loop_bits, bytes_bits_cons. change (bytes_bits []) with (@nil bool). rewrite app_nil_r.
  unfold is_word in Hw. assert (2 ^ Z.of_nat r <= 2 ^ 8) by (apply Z.pow_le_mono_r; lia).
  rewrite (crc_bits_be p 8 w 0); [|lia|unfold is_word; change (Z.of_nat 8) with 8; lia]. rewrite Z.lxor_0_l.
  change (32 - Z.of_nat 8) with 24.
  assert (E : Nat.iter 8 (mulx 32 p) (Z.shiftl w 24) = Nat.iter r (mulx 32 p) (Nat.iter (8 - r) (mulx 32 p) (Z.shiftl w 24)))
    by (rewrite <- Nat.iter_add; f_equal; lia).
  rewrite E. f_equal.
  rewrite iter_mulx_shift; [|lia|].
  - rewrite Z.shiftl_shiftl by lia. f_equal. lia.
  - rewrite Z.shiftl_mul_pow2 by lia. replace (32 - Z.of_nat (8 - r)) with (Z.of_nat r + 24) by lia. rewrite Z.pow_add_r by lia. lia.
Qed.

(** The step of the table-driven routines: [r] bits at once. *)
Lemma lut_step p r v crc :
  (r <= 8)%nat -> is_word 32 crc -> is_word (Z.of_nat r) v ->
  Z.lxor (u32 (Z.shiftl crc (Z.of_nat r))) (crc_of_byte p (Z.lxor v (Z.shiftr crc (32 - Z.of_nat r))))
  = crc_bits p (bits_be r v) crc.
Proof.
  intros Hr Hc Hv. assert (HL : forall a b, mulx 32 p (Z.lxor a b) = Z.lxor (mulx 32 p a) (mulx 32 p b)) by (intros; by apply mulx_linear).
  set (hi := Z.shiftr crc (32 - Z.of_nat r)). set (lo := crc mod 2 ^ (32 - Z.of_nat r)).
  assert (Hhi : is_word (Z.of_nat r) hi).
  { unfold hi, is_word in *. rewrite Z.shiftr_div_pow2 by lia. assert (0 < 2 ^ (32 - Z.of_nat r)) by (apply Z.pow_pos_nonneg; lia).
    split; [apply Z.div_pos; lia|]. apply Z.div_lt_upper_bound; [done|]. rewrite <- Z.pow_add_r by lia.
    replace (32 - Z.of_nat r + Z.of_nat r) with 32 by lia. lia. }
  assert (Hsplit : crc = Z.lxor (Z.shiftl hi (32 - Z.of_nat r)) lo).
  { apply Z.bits_inj'. intros i Hi. rewrite Z.lxor_spec, Z.shiftl_spec by lia. unfold hi, lo.
    destruct (Z.lt_ge_cases i (32 - Z.of_nat r)).
    - rewrite (Z.testbit_neg_r _ (i - (32 - Z.of_nat r))), Z.mod_pow2_bits_low by lia. by destruct (Z.testbit crc i).
    - rewrite Z.mod_pow2_bits_high, xorb_false_r, Z.shiftr_spec by lia. f_equal. lia. }
  rewrite crc_bits_be by (done || lia).
  rewrite (crc_of_byte_iter p r) by (done || apply word_lxor; (done || lia)).
  assert (Elo : u32 (Z.shiftl crc (Z.of_nat r)) = Nat.iter r (mulx 32 p) lo).
  { unfold lo. rewrite iter_mulx_shift; [|lia|apply Z.mod_pos_bound, Z.pow_pos_nonneg; lia].
    unfold u32. rewrite !Z.shiftl_mul_pow2 by lia. rewrite (Z.mul_comm crc), (Z.mul_comm (_ mod _)).
    replace (2 ^ 32) with (2 ^ Z.of_nat r * 2 ^ (32 - Z.of_nat r)) by (rewrite <- Z.pow_add_r by lia; f_equal; lia).
    apply Z.mul_mod_distr_l; apply Z.pow_nonzero; lia. }
  rewrite Elo, <- iter_linear by done. f_equal. rewrite Hsplit at 1. rewrite shiftl_lxor.
  apply Z.bits_inj. intros i. rewrite !Z.lxor_spec. btauto.
Qed.

(** ** The word stays aligned *)

Definition low_zero (j x : Z) : Prop := forall i, 0 <= i < j -> Z.testbit x i = false.

Definition aligned (j x : Z) : Prop := is_word 32 x /\ low_zero j x.

Lemma aligned_lxor j x y : aligned j x -> aligned j y -> aligned j (Z.lxor x y).
Proof.
  intros [Hx Lx] [Hy Ly]. split; [by apply word_lxor|]. intros i Hi. by rewrite Z.lxor_spec, Lx, Ly.
Qed.

Lemma aligned_mulx p j x : aligned j p -> aligned j x -> aligned j (mulx 32 p x).
Proof.
  intros [Hp Lp] [Hx Lx]. split; [by apply mulx_word|].
  assert (L2 : low_zero j ((2 * x) mod 2 ^ 32)).
  { intros i Hi. destruct (Z.lt_ge_cases i 32); [|by rewrite Z.mod_pow2_bits_high by lia].
    rewrite Z.mod_pow2_bits_low by lia. destruct (decide (i = 0)) as [->|]; [by rewrite Z.testbit_even_0|].
    replace i with (i - 1 + 1) by lia. rewrite testbit_double by lia. apply Lx. lia. }
  intros i Hi. unfold mulx. destruct (Z.testbit x _); [|by apply L2]. by rewrite Z.lxor_spec, L2, Lp.
Qed.

Lemma aligned_shiftl j v k : j <= k -> 0 <= k <= 32 -> is_word (32 - k) v -> aligned j (Z.shiftl v k).
Proof.
  intros Hj Hk Hv. split.
  - unfold is_word in *. rewrite Z.shiftl_mul_pow2 by lia. replace 32 with (32 - k + k) by lia. rewrite Z.pow_add_r by lia.
    assert (0 < 2 ^ k) by (apply Z.pow_pos_nonneg; lia). nia.
  - intros i Hi. apply Z.shiftl_spec_low. lia.
Qed.

Lemma aligned_bits p j l : forall crc, j <= 31 -> aligned j p -> aligned j crc -> aligned j (crc_bits p l crc).
Proof.
  induction l as [|b l IH]; intros crc Hj Hp Hc; [done|]. apply IH; [done|done|]. apply aligned_mulx; [done|].
  apply aligned_lxor; [done|]. apply aligned_shiftl; [lia|lia|destruct b; split; done].
Qed.

(** A table entry that was shifted down is shifted up unchanged. *)
Lemma aligned_restore j x : 0 <= j <= 32 -> aligned j x -> u32 (Z.shiftl (Z.shiftr x j mod 2 ^ (32 - j)) j) = x.
Proof.
  intros Hj [Hx Lx]. apply word_bits in Hx as [_ Hx]; [|lia]. apply Z.bits_inj'. intros i Hi. unfold u32.
  destruct (Z.lt_ge_cases i 32); [|rewrite Z.mod_pow2_bits_high by lia; by rewrite Hx].
  rewrite Z.mod_pow2_bits_low, Z.shiftl_spec by lia. destruct (Z.lt_ge_cases i j).
  - rewrite Z.testbit_neg_r by lia. by rewrite Lx.
  - rewrite Z.mod_pow2_bits_low, Z.shiftr_spec by lia. f_equal. lia.
Qed.

Lemma tab_seqZ f i : is_word 8 i -> tab (f <$> seqZ 0 256) i = f i.
Proof.
  intros Hi. unfold tab, is_word in *. rewrite list_lookup_fmap, lookup_seqZ_lt by lia. cbn. f_equal. lia.
Qed.

(** ** Bits of bytes *)

Lemma take_bits_be n r v : (r <= n)%nat -> take r (bits_be n v) = bits_be r (Z.shiftr v (Z.of_nat (n - r))).
Proof.
  intros Hr. apply list_eq. intros j. destruct (decide (j < r)%nat) as [Hj|Hj].
  - rewrite lookup_take_lt, !bits_be_lookup, Z.shiftr_spec by lia. do 2 f_equal. lia.
  - rewrite !lookup_ge_None_2; [done|rewrite length_bits_be; lia|rewrite length_take; lia].
Qed.

Lemma take_bytes_bits l o r :
  (r < 8)%nat -> (o + (if decide (r = 0%nat) then 0 else 1) <= length l)%nat ->
  take (8 * o + r) (bytes_bits l)
  = bytes_bits (take o l) ++ (if decide (r = 0%nat) then [] else bits_be r (Z.shiftr (buf_get l (Z.of_nat o)) (8 - Z.of_nat r))).
Proof.
  intros Hr Hl. rewrite <- (take_drop o l) at 1. rewrite bytes_bits_app.
  assert (Hlen : length (bytes_bits (take o l)) = (8 * o)%nat) by (rewrite length_bytes_bits, length_take; destruct (decide _); lia).
  rewrite take_app_ge, Hlen by lia. f_equal. replace (8 * o + r - 8 * o)%nat with r by lia.
  destruct (decide _) as [->|Hne]; [done|]. unfold buf_get. rewrite Nat2Z.id.
  destruct (lookup_lt_is_Some_2 l o) as [b Hb]; [lia|]. rewrite (drop_S _ _ _ Hb), bytes_bits_cons, Hb.
  rewrite take_app_le by (rewrite length_bits_be; lia). rewrite take_bits_be by lia. cbn. do 2 f_equal. lia.
Qed.

(** ** The table-driven routines are the bit-by-bit one *)

Section Routine.

Variables (p j : Z).
Hypothesis Hj : 0 <= j <= 24.
Hypothesis Hp : aligned j p.
Variables (step : Z -> Z -> Z) (last : Z -> Z -> Z -> Z).
Hypothesis Hstep : forall crc b, aligned j crc -> is_word 8 b -> step crc b = crc_bits p (bits_be 8 b) crc.
Hypothesis Hlast : forall crc b r, aligned j crc -> is_word 8 b -> (0 < r < 8)%nat ->
  last crc b (Z.of_nat r) = crc_bits p (bits_be r (Z.shiftr b (8 - Z.of_nat r))) crc.

Lemma fold_step l : forall crc, Forall (is_word 8) l -> aligned j crc -> fold_left step l crc = crc_bits p (bytes_bits l) crc.
Proof.
  induction l as [|b l IH]; intros crc Hl Hc; [done|]. apply list.Forall_cons in Hl as [Hb Hl].
  cbn [fold_left]. rewrite bytes_bits_cons, crc_bits_app, Hstep by done. apply IH; [done|]. apply aligned_bits; [lia|done|done].
Qed.

Lemma crc_bytes_bits inptr bitlen :
  Forall (is_word 8) inptr -> 0 <= bitlen <= 8 * Z.of_nat (length inptr) ->
  crc_bytes step last inptr bitlen = Ok (crc_bits p (take (Z.to_nat bitlen) (bytes_bits inptr)) 0).
Proof.
  intros Hb Hl. unfold crc_bytes. rewrite cmod_pos, Z.quot_div_nonneg by lia.
  pose proof (Z_div_mod_eq_full bitlen 8) as Hd. pose proof (Z.mod_pos_bound bitlen 8 ltac:(lia)) as Hm.
  assert (Ho : 0 <= bitlen / 8) by (apply Z.div_pos; lia).
  set (o := Z.to_nat (bitlen / 8)). set (r := Z.to_nat (bitlen mod 8)).
  assert (H0 : aligned j 0) by (split; [split; done|intros i _; apply Z.bits_0]).
  replace (Z.to_nat bitlen) with (8 * o + r)%nat by lia. replace (bitlen / 8) with (Z.of_nat o) by lia.
  replace (bitlen mod 8) with (Z.of_nat r) by lia.
  rewrite take_bytes_bits by first [lia|destruct (decide (r = 0%nat)); lia].
  assert (Hf := fold_step (take o inptr) 0 (Forall_take _ _ _ Hb) H0).
  destruct (decide (r = 0%nat)) as [E|E].
  - replace (Z.of_nat r >? 0) with false by lia. rewrite (proj2 (Z.ltb_ge _ _)) by lia. by rewrite ?Nat2Z.id, Hf, app_nil_r.
  - replace (Z.of_nat r >? 0) with true by lia. rewrite (proj2 (Z.ltb_ge _ _)) by lia.
    rewrite ?Nat2Z.id, Hf, crc_bits_app, Hlast; [done| | |lia].
    + apply aligned_bits; [lia|done|done].
    + unfold buf_get. rewrite Nat2Z.id. destruct (lookup_lt_is_Some_2 inptr o) as [b Hbb]; [lia|]. rewrite Hbb.
      by apply (proj1 (list.Forall_lookup _ _) Hb o).
Qed.

End Routine.

Lemma shiftr_word r v k : 0 <= r -> 0 <= k -> is_word (r + k) v -> is_word r (Z.shiftr v k).
Proof.
  intros Hr Hk [H0 H]. unfold is_word. rewrite Z.shiftr_div_pow2 by done. assert (0 < 2 ^ k) by (by apply Z.pow_pos_nonneg).
  split; [apply Z.div_pos; lia|]. apply Z.div_lt_upper_bound; [done|]. by rewrite <- Z.pow_add_r, Z.add_comm by done.
Qed.

(** The index of the table in a step of [r] bits. *)
Lemma index_word r b crc :
  (r <= 8)%nat -> is_word 8 b -> is_word 32 crc ->
  is_word (Z.of_nat r) (Z.shiftr b (8 - Z.of_nat r)) /\
  is_word 8 (Z.lxor (Z.shiftr b (8 - Z.of_nat r)) (Z.shiftr crc (32 - Z.of_nat r))).
Proof.
  intros Hr Hb Hc. assert (H1 : is_word (Z.of_nat r) (Z.shiftr b (8 - Z.of_nat r))).
  { apply shiftr_word; [lia|lia|]. by replace (Z.of_nat r + (8 - Z.of_nat r)) with 8 by lia. }
  assert (H2 : is_word (Z.of_nat r) (Z.shiftr crc (32 - Z.of_nat r))).
  { apply shiftr_word; [lia|lia|]. by replace (Z.of_nat r + (32 - Z.of_nat r)) with 32 by lia. }
  split; [done|]. pose proof (word_lxor (Z.of_nat r) _ _ ltac:(lia) H1 H2) as [H3 H4]. split; [done|].
  eapply Z.lt_le_trans; [exact H4|]. apply Z.pow_le_mono_r; lia.
Qed.

Lemma crc_of_byte_aligned p j c : j <= 31 -> aligned j p -> aligned j (crc_of_byte p c).
Proof.
  intros Hj Hp. unfold crc_of_byte. rewrite crcbit_loop_bits. apply aligned_bits; [done|done|].
  split; [split; done|intros i _; apply Z.bits_0].
Qed.

(** A routine whose steps look entries up that stand for [crc_of_byte]. *)
Lemma lut_routine p j entry step last inptr bitlen :
  0 <= j <= 24 -> aligned j p -> (forall w, is_word 8 w -> entry w = crc_of_byte p w) ->
  (forall crc b, aligned j crc -> is_word 8 b ->
     step crc b = Z.lxor (u32 (Z.shiftl crc 8)) (entry (Z.lxor b (Z.shiftr crc 24)))) ->
  (forall crc b r, last crc b r
     = Z.lxor (u32 (Z.shiftl crc r)) (entry (Z.lxor (Z.shiftr b (8 - r)) (Z.shiftr crc (32 - r))))) ->
  Forall (is_word 8) inptr -> 0 <= bitlen <= 8 * Z.of_nat (length inptr) ->
  crc_bytes step last inptr bitlen = Ok (crc_bits p (take (Z.to_nat bitlen) (bytes_bits inptr)) 0).
Proof.
  intros Hj Hp He Hs Hl. apply (crc_bytes_bits p j Hj Hp).
  - intros crc b Hc Hb. destruct (index_word 8 b crc ltac:(lia) Hb (proj1 Hc)) as [_ Hi].
    change (8 - Z.of_nat 8) with 0 in Hi. rewrite Z.shiftr_0_r in Hi. change (32 - Z.of_nat 8) with 24 in Hi.
    rewrite Hs, He by done. exact (lut_step p 8 b crc ltac:(lia) (proj1 Hc) Hb).
  - intros crc b r Hc Hb Hr. destruct (index_word r b crc ltac:(lia) Hb (proj1 Hc)) as [Hv Hi].
    rewrite Hl, He by done. apply lut_step; [lia|apply Hc|done].
Qed.

Lemma crc24_bits p inptr bitlen :
  is_word 32 p -> Forall (is_word 8) inptr -> 0 <= bitlen <= 8 * Z.of_nat (length inptr) ->
  crc24_with (crc_of_byte p <$> seqZ 0 256) inptr bitlen = Ok (crc_bits p (take (Z.to_nat bitlen) (bytes_bits inptr)) 0).
Proof.
  intros Hp. unfold crc24_with. apply (lut_routine p 0 (tab (crc_of_byte p <$> seqZ 0 256))); [lia|split; [done|]| |done|done].
  - intros i Hi. lia.
  - intros w Hw. by apply tab_seqZ.
Qed.

Lemma crc16_bits p inptr bitlen :
  aligned 16 p -> Forall (is_word 8) inptr -> 0 <= bitlen <= 8 * Z.of_nat (length inptr) ->
  crc16_with ((fun c => u16 (Z.shiftr (crc_of_byte p c) 16)) <$> seqZ 0 256) inptr bitlen
  = Ok (crc_bits p (take (Z.to_nat bitlen) (bytes_bits inptr)) 0).
Proof.
  intros Hp. unfold crc16_with. set (T := _ <$> seqZ 0 256).
  apply (lut_routine p 16 (fun w => u32 (Z.shiftl (tab T w) 16))); [lia|done| |done|done].
  intros w Hw. unfold T. rewrite tab_seqZ by done. unfold u16. change 16 with (32 - 16) at 1.
  apply (aligned_restore 16); [lia|]. apply crc_of_byte_aligned; [lia|done].
Qed.

Lemma crc8_bits p inptr bitlen :
  aligned 24 p -> Forall (is_word 8) inptr -> 0 <= bitlen <= 8 * Z.of_nat (length inptr) ->
  crc8_with ((fun c => u8 (Z.shiftr (crc_of_byte p c) 24)) <$> seqZ 0 256) inptr bitlen
  = Ok (crc_bits p (take (Z.to_nat bitlen) (bytes_bits inptr)) 0).
Proof.
  intros Hp. unfold crc8_with. set (T := _ <$> seqZ 0 256).
  apply (lut_routine p 24 (fun w => u32 (Z.shiftl (tab T w) 24))); [lia|done| | |done].
  - intros w Hw. unfold T. rewrite tab_seqZ by done. unfold u8. change 8 with (32 - 24) at 1.
    apply (aligned_restore 24); [lia|]. apply crc_of_byte_aligned; [lia|done].
  - intros crc b [Hc Lc] Hb. assert (E : u32 (Z.shiftl crc 8) = 0); [|by rewrite E, Z.lxor_0_l].
    apply Z.bits_inj'. intros i Hi. rewrite Z.bits_0. unfold u32.
    destruct (Z.lt_ge_cases i 32); [|by rewrite Z.mod_pow2_bits_high by lia].
    rewrite Z.mod_pow2_bits_low, Z.shiftl_spec by lia. destruct (Z.lt_ge_cases i 8); [by rewrite Z.testbit_neg_r by lia|].
    apply Lc. lia.
Qed.

(** From the word to the remainder of degree [d]. *)
Lemma crc_bits_remainder d g l :
  0 < d <= 32 -> is_word d g -> crc_bits (Z.shiftl g (32 - d)) l 0 = Z.shiftl (crc_spec d g l) (32 - d).
Proof.
  intros Hd Hg. rewrite crc_bits_spec.
  - unfold crc_spec. rewrite <- reduce_scale by lia. replace (d + (32 - d)) with 32 by lia.
    rewrite Z.shiftl_shiftl by lia. replace (d + (32 - d)) with 32 by lia. f_equal. unfold modulus.
    rewrite !Z.shiftl_mul_pow2, Z.mul_add_distr_r, <- Z.pow_add_r by lia. do 2 f_equal. lia.
  - apply (aligned_shiftl 0); [lia|lia|]. by replace (32 - (32 - d)) with d by lia.
Qed.

(** ** The generators *)

(** Degree and polynomial, without the leading term, of a type of CRC. *)
Definition generator (crc_type : Z) : Z * Z :=
  if crc_type =? CRC24_A then (24, 0x864cfb)
  else if crc_type =? CRC24_B then (24, 0x800063)
  else if crc_type =? CRC16 then (16, 0x1021)
  else (8, 0x9b).

(** The remainder of a block of bits. *)
Definition residue (d g : Z) (l : list bool) : Z := reduce d (modulus d g) (length l) (Z_of_bits l).

Lemma generator_ok ty : let '(d, g) := generator ty in 8 <= d <= 24 /\ is_word d g /\ Z.testbit g 0 = true.
Proof.
  unfold generator, is_word. destruct (ty =? CRC24_A), (ty =? CRC24_B), (ty =? CRC16); cbn [Z.testbit]; split_and!; (lia || done).
Qed.

Lemma crc_spec_word d g l : 0 < d -> is_word d g -> is_word d (crc_spec d g l).
Proof.
  intros Hd Hg. unfold crc_spec. apply reduce_word; [done|done|]. pose proof (Z_of_bits_bound l). unfold is_word.
  rewrite Z.shiftl_mul_pow2, Z.pow_add_r by lia. assert (0 < 2 ^ d) by (apply Z.pow_pos_nonneg; lia). nia.
Qed.

(** A message and its CRC leave no remainder, another value does. *)
Lemma residue_app d g l c :
  0 < d -> is_word d g -> Z.of_nat (length c) = d -> residue d g (l ++ c) = Z.lxor (crc_spec d g l) (Z_of_bits c).
Proof.
  intros Hd Hg Hc. unfold residue, crc_spec. pose proof (Z_of_bits_bound c) as Hb. pose proof (Z_of_bits_bound l) as Hbl. rewrite Hc in Hb.
  assert (Hz : Z_of_bits (l ++ c) = Z.lxor (Z.shiftl (Z_of_bits l) d) (Z_of_bits c)).
  { rewrite Z_of_bits_app, Hc, <- lor_shiftl_add by lia. apply Z.bits_inj'. intros i Hi. rewrite Z.lor_spec, Z.lxor_spec.
    assert (Hw : is_word d (Z_of_bits c)) by done. apply word_bits in Hw as [_ Hw]; [|lia].
    destruct (Z.lt_ge_cases i d); [by rewrite Z.shiftl_spec_low|by rewrite Hw, orb_false_r, xorb_false_r]. }
  rewrite Hz, reduce_linear. f_equal.
  - apply reduce_skip_more; [done| |rewrite length_app; lia]. unfold is_word. rewrite Z.shiftl_mul_pow2, Z.pow_add_r by lia.
    assert (0 < 2 ^ d) by (apply Z.pow_pos_nonneg; lia). nia.
  - change (Z_of_bits c) with (reduce d (modulus d g) 0 (Z_of_bits c)) at 2. apply reduce_skip_more; [done| |lia].
    by rewrite Z.add_0_r.
Qed.

(** The bytes of the CRC at the end of the block, as a number. *)
Lemma read_crc_bits l first len :
  Forall (is_word 8) l -> 0 <= first -> 1 <= len <= 3 -> first + len <= Z.of_nat (length l) ->
  read_crc l first len = Z_of_bits (bytes_bits (take (Z.to_nat len) (drop (Z.to_nat first) l))).
Proof.
  intros Hl Hf Hlen Hb. unfold read_crc.
  assert (Hg : forall i, 0 <= i -> buf_get l (first + i) = default 0 (drop (Z.to_nat first) l !! Z.to_nat i)).
  { intros i Hi. unfold buf_get. rewrite lookup_drop. do 2 f_equal. lia. }
  assert (Hd : Forall (is_word 8) (drop (Z.to_nat first) l)) by by apply Forall_drop.
  assert (Hdl : len <= Z.of_nat (length (drop (Z.to_nat first) l))) by (rewrite length_drop; lia).
  assert (Hs : forall x y, is_word 8 y -> Z.lor (Z.shiftl x 8) y = x * 256 + y)
    by (intros x y Hy; change 256 with (2 ^ 8); by apply lor_shiftl_add).
  set (m := drop (Z.to_nat first) l) in *.
  assert (Hcases : len = 1 \/ len = 2 \/ len = 3) by lia. destruct Hcases as [-> | [-> | ->]].
  - destruct m as [|a m]; [cbn in Hdl; lia|]. apply list.Forall_cons in Hd as [Ha _].
    cbn [seqZ Z.to_nat Pos.to_nat Pos.iter_op Nat.add seq fmap list_fmap fold_left Z.of_nat Z.add].
    change (seqZ 0 1) with [0]. cbn [fold_left]. rewrite Hg by lia. cbn [Z.to_nat lookup list_lookup default from_option id].
    rewrite Z.lor_0_l, Z.shiftl_0_r. change (Z.to_nat 1) with 1%nat. cbn [take].
    rewrite bytes_bits_cons. change (bytes_bits []) with (@nil bool). by rewrite app_nil_r, Z_of_bits_small.
  - destruct m as [|a [|b m]]; [cbn in Hdl; lia..|]. apply list.Forall_cons in Hd as [Ha Hd]. apply list.Forall_cons in Hd as [Hb' _].
    change (seqZ 0 2) with [0; 1]. cbn [fold_left]. rewrite !Hg by lia. change (Z.to_nat 2) with 2%nat. cbn [take].
    change (Z.to_nat 0) with 0%nat. change (Z.to_nat 1) with 1%nat. cbn [lookup list_lookup default from_option id].
    change (Z.shiftl (2 - 1 - 0) 3) with 8. change (Z.shiftl (2 - 1 - 1) 3) with 0.
    rewrite Z.lor_0_l, Z.shiftl_0_r, Hs by done. rewrite !bytes_bits_cons. change (bytes_bits []) with (@nil bool).
    rewrite app_nil_r, Z_of_bits_app, length_bits_be, !Z_of_bits_small by done. done.
  - destruct m as [|a [|b [|c m]]]; [cbn in Hdl; lia..|]. apply list.Forall_cons in Hd as [Ha Hd].
    apply list.Forall_cons in Hd as [Hb' Hd]. apply list.Forall_cons in Hd as [Hc' _].
    change (seqZ 0 3) with [0; 1; 2]. cbn [fold_left]. rewrite !Hg by lia. change (Z.to_nat 3) with 3%nat. cbn [take].
    change (Z.to_nat 0) with 0%nat. change (Z.to_nat 1) with 1%nat. change (Z.to_nat 2) with 2%nat. cbn [lookup list_lookup default from_option id].
    change (Z.shiftl (3 - 1 - 0) 3) with (8 + 8). change (Z.shiftl (3 - 1 - 1) 3) with 8. change (Z.shiftl (3 - 1 - 2) 3) with 0.
    rewrite Z.lor_0_l, Z.shiftl_0_r, <- Z.shiftl_shiftl, <- Z.shiftl_lor, !Hs by (done || lia).
    rewrite !bytes_bits_cons. change (bytes_bits []) with (@nil bool).
    rewrite app_nil_r, !Z_of_bits_app, length_app, !length_bits_be, !Z_of_bits_small by done. change (2 ^ Z.of_nat 8) with 256.
    change (2 ^ Z.of_nat (8 + 8)) with (256 * 256). lia.
Qed.

(** ** The check *)

Lemma aligned_const j x : is_word 32 x -> x mod 2 ^ j = 0 -> 0 <= j -> aligned j x.
Proof.
  intros Hx Hm Hj. split; [done|]. intros i Hi. rewrite <- (Z.mod_pow2_bits_low x j i) by lia. rewrite Hm. apply Z.bits_0.
Qed.

Ltac poly_ok := apply aligned_const; [split; done|reflexivity|lia].

(** The routine that the check calls. *)
Definition crc_routine (t : crc_tables) (ty : Z) : list Z -> Z -> res Z :=
  if ty =? CRC24_A then crc24a t else if ty =? CRC24_B then crc24b t else if ty =? CRC16 then crc16 t else crc8 t.

Lemma crc_routine_spec ty inptr bitlen :
  Forall (is_word 8) inptr -> 0 <= bitlen <= 8 * Z.of_nat (length inptr) ->
  let '(d, g) := generator ty in
  crc_routine crcTableInit ty inptr bitlen
  = Ok (Z.shiftl (crc_spec d g (take (Z.to_nat bitlen) (bytes_bits inptr))) (32 - d)).
Proof.
  intros Hb Hl. unfold generator, crc_routine. destruct (ty =? CRC24_A); [|destruct (ty =? CRC24_B); [|destruct (ty =? CRC16)]];
    rewrite <- crc_bits_remainder by (unfold is_word; lia).
  - apply crc24_bits; [split; done|done|done].
  - apply crc24_bits; [split; done|done|done].
  - apply crc16_bits; [poly_ok|done|done].
  - apply crc8_bits; [poly_ok|done|done].
Qed.

Lemma check_crc_routine t bytes n F ty :
  0 <= ty <= 3 -> let d := (generator ty).1 in
  0 <= Z.shiftr n 3 - crc_len ty -> Z.shiftr n 3 <= Z.of_nat (length bytes) ->
  crc_len ty * 8 = d /\
  check_crc t bytes n F ty =
    (let* crc := crc_routine t ty bytes (n - d) in
     Ok (Z.shiftr crc (32 - d) =? Z.land (read_crc bytes (Z.shiftr n 3 - crc_len ty) (crc_len ty)) (Z.ones d))).
Proof.
  intros Hty d Hn Hlen. unfold check_crc. replace (_ || _) with false by lia.
  assert (Hc : ty = 0 \/ ty = 1 \/ ty = 2 \/ ty = 3) by lia.
  destruct Hc as [-> | [-> | [-> | ->]]]; split; try done.
  - change (crc_routine t 0) with (crc24a t). cbn -[crc24a read_crc Z.land Z.shiftr]. by destruct (crc24a t bytes (n - 24)).
  - change (crc_routine t 1) with (crc24b t). cbn -[crc24b read_crc Z.land Z.shiftr]. by destruct (crc24b t bytes (n - 24)).
  - change (crc_routine t 2) with (crc16 t). cbn -[crc16 read_crc Z.land Z.shiftr]. by destruct (crc16 t bytes (n - 16)).
  - change (crc_routine t 3) with (crc8 t). cbn -[crc8 read_crc Z.land Z.shiftr]. by destruct (crc8 t bytes (n - 8)).
Qed.

(** The check says whether the block is divisible by the generator. *)
Lemma check_crc_residue bytes k F ty :
  0 <= ty <= 3 -> Forall (is_word 8) bytes -> crc_len ty <= k <= Z.of_nat (length bytes) ->
  check_crc crcTableInit bytes (8 * k) F ty
  = Ok (residue (generator ty).1 (generator ty).2 (take (Z.to_nat (8 * k)) (bytes_bits bytes)) =? 0).
Proof.
  intros Hty Hb Hk. assert (Hs : Z.shiftr (8 * k) 3 = k) by (rewrite Z.shiftr_div_pow2, Z.mul_comm by lia; by apply Z.div_mul).
  destruct (check_crc_routine crcTableInit bytes (8 * k) F ty Hty) as [Hd E]; [lia|lia|]. rewrite E, Hs. clear E.
  pose proof (generator_ok ty) as Hg. pose proof (crc_routine_spec ty bytes (8 * k - (generator ty).1) Hb) as Hr.
  destruct (generator ty) as [d g]. cbn [fst snd] in *. destruct Hg as (Hd8 & Hg & _).
  rewrite Hr by lia. cbn [rbind]. f_equal. set (l := take _ (bytes_bits bytes)).
  rewrite Z.shiftr_shiftl_l, Z.sub_diag, Z.shiftl_0_r by lia.
  rewrite read_crc_bits by (done || lia). set (c := bytes_bits (take _ (drop _ bytes))).
  assert (Hc : Z.of_nat (length c) = d) by (unfold c; rewrite length_bytes_bits, length_take, length_drop; lia).
  rewrite Z.land_ones, Z.mod_small by (rewrite <- ?Hc; lia || apply Z_of_bits_bound).
  assert (Hlc : take (Z.to_nat (8 * k)) (bytes_bits bytes) = l ++ c).
  { unfold l, c. rewrite <- (take_drop (Z.to_nat (k - crc_len ty)) bytes) at 1 2. rewrite !bytes_bits_app.
    set (A := bytes_bits (take _ bytes)). set (B := drop _ bytes).
    assert (HA : length A = Z.to_nat (8 * k - d)) by (unfold A; rewrite length_bytes_bits, length_take; lia).
    rewrite take_app_ge, take_app_le, (take_ge A) by lia. f_equal. rewrite HA.
    rewrite <- (take_drop (Z.to_nat (crc_len ty)) B) at 1. rewrite bytes_bits_app, take_app_le, take_ge; try done;
      rewrite length_bytes_bits, length_take; unfold B; rewrite length_drop; lia. }
  rewrite Hlc, residue_app by (done || lia).
  destruct (Z.eqb_spec (crc_spec d g l) (Z_of_bits c)) as [->|Hne]; [by rewrite Z.lxor_nilpotent|].
  symmetry. apply Z.eqb_neq. intros H. by apply Z.lxor_eq in H.
Qed.

(** A burst of at most [d] bits leaves a remainder. *)
Lemma burst_residue d g n e i :
  0 < d -> is_word d g -> Z.testbit g 0 = true -> 0 < e < 2 ^ d -> 0 <= i -> Z.shiftl e i < 2 ^ Z.of_nat n ->
  reduce d (modulus d g) n (Z.shiftl e i) <> 0.
Proof.
  intros Hd Hg Hodd He Hi Hn. assert (Hw : is_word d e) by (unfold is_word; lia).
  assert (Hlt : i < Z.of_nat n).
  { rewrite Z.shiftl_mul_pow2 in Hn by done. destruct (Z.lt_ge_cases i (Z.of_nat n)) as [|Hge]; [done|exfalso].
    assert (2 ^ Z.of_nat n <= 2 ^ i) by (apply Z.pow_le_mono_r; lia). assert (0 < 2 ^ i) by (by apply Z.pow_pos_nonneg). nia. }
  rewrite (reduce_skip_more d Hd _ (Z.to_nat i) n); [|rewrite <- (Z2Nat.id i Hi) at 2; by apply shiftl_word|lia].
  rewrite <- (Z2Nat.id i Hi) at 2. rewrite <- mulx_pow_reduce by done. clear Hn Hlt.
  induction (Z.to_nat i) as [|j IH]; cbn [mulx_pow]; [lia|]. intros H. apply IH.
  apply mulx_zero in H; [done|done|done|]. by apply mulx_pow_word.
Qed.

(** ** Properties *)

(** The table-driven CRC routines are exact.  For every sequence of bytes and every number
    of bits in it, a multiple of eight or not, each of the eight routines returns, at the top
    of its word, the remainder of the bits times x^d by the generator polynomial of degree d
    that the standard gives (the tables being those of [crcTableInit]). *)
Theorem crc_routines_exact inptr bitlen :
  Forall (is_word 8) inptr -> 0 <= bitlen <= 8 * Z.of_nat (length inptr) ->
  let l := take (Z.to_nat bitlen) (bytes_bits inptr) in
  crc24a crcTableInit inptr bitlen = Ok (Z.shiftl (crc_spec 24 0x864cfb l) 8) /\
  crc24b crcTableInit inptr bitlen = Ok (Z.shiftl (crc_spec 24 0x800063 l) 8) /\
  crc24c crcTableInit inptr bitlen = Ok (Z.shiftl (crc_spec 24 0xb2b117 l) 8) /\
  crc16 crcTableInit inptr bitlen = Ok (Z.shiftl (crc_spec 16 0x1021 l) 16) /\
  crc12 crcTableInit inptr bitlen = Ok (Z.shiftl (crc_spec 12 0x80f l) 20) /\
  crc11 crcTableInit inptr bitlen = Ok (Z.shiftl (crc_spec 11 0x621 l) 21) /\
  crc8 crcTableInit inptr bitlen = Ok (Z.shiftl (crc_spec 8 0x9b l) 24) /\
  crc6 crcTableInit inptr bitlen = Ok (Z.shiftl (crc_spec 6 0x21 l) 26).
Proof.
  intros Hb Hl l. unfold l.
  rewrite <- (crc_bits_remainder 24 0x864cfb), <- (crc_bits_remainder 24 0x800063), <- (crc_bits_remainder 24 0xb2b117),
    <- (crc_bits_remainder 16 0x1021), <- (crc_bits_remainder 12 0x80f), <- (crc_bits_remainder 11 0x621),
    <- (crc_bits_remainder 8 0x9b), <- (crc_bits_remainder 6 0x21) by (unfold is_word; lia).
  split; [|split; [|split; [|split; [|split; [|split; [|split]]]]]].
  1-3: apply crc24_bits; [split; done|done|done].
  1-3: apply crc16_bits; [poly_ok|done|done].
  all: apply crc8_bits; [poly_ok|done|done].
Qed.

(** C39. The check of a block.  [check_crc] accepts a block of whole bytes exactly when, as a
    polynomial, it is divisible by the generator of its type.  So it accepts a message
    followed by its CRC, and it rejects every block that differs from an accepted one in a
    burst: any non-zero pattern of errors within as many consecutive bits as the CRC is
    long, wherever it is. *)
Theorem crc_detects_bursts bytes bytes' k F ty e i :
  0 <= ty <= 3 -> Forall (is_word 8) bytes -> Forall (is_word 8) bytes' ->
  crc_len ty <= k <= Z.of_nat (length bytes) -> length bytes' = length bytes ->
  let bits := take (Z.to_nat (8 * k)) (bytes_bits bytes) in
  let bits' := take (Z.to_nat (8 * k)) (bytes_bits bytes') in
  check_crc crcTableInit bytes (8 * k) F ty = Ok (residue (generator ty).1 (generator ty).2 bits =? 0) /\
  (check_crc crcTableInit bytes (8 * k) F ty = Ok true ->
   Z_of_bits bits' = Z.lxor (Z_of_bits bits) (Z.shiftl e i) -> 0 < e < 2 ^ (generator ty).1 -> 0 <= i ->
   check_crc crcTableInit bytes' (8 * k) F ty = Ok false).
Proof.
  intros Hty Hb Hb' Hk Hlen bits bits'. rewrite !check_crc_residue by (done || lia). fold bits bits'.
  split; [done|]. intros H Hz He Hi. injection H as H. apply Z.eqb_eq in H. f_equal. apply Z.eqb_neq.
  assert (Hl : length bits' = length bits) by (unfold bits, bits'; rewrite !length_take, !length_bytes_bits; lia).
  pose proof (generator_ok ty) as Hg. destruct (generator ty) as [d g]. cbn [fst snd] in *. destruct Hg as (Hd & Hg & Hodd).
  unfold residue in *. rewrite Hl, Hz, reduce_linear, H, Z.lxor_0_l. apply burst_residue; try done; [lia|].
  assert (E : Z.shiftl e i = Z.lxor (Z_of_bits bits') (Z_of_bits bits)).
  { rewrite Hz, (Z.lxor_comm (Z_of_bits bits)), Z.lxor_assoc, Z.lxor_nilpotent, Z.lxor_0_r. done. }
  rewrite E. apply (word_lxor (Z.of_nat (length bits))); [lia|rewrite <- Hl|]; apply Z_of_bits_bound.
Qed.

(** ** Witnesses *)

Definition crc_message : list Z := [0x54; 0x68; 0x65; 0x62; 0x69; 0x67].

Lemma crc_message_bytes : Forall (is_word 8) crc_message.
Proof. repeat constructor; done. Qed.

Lemma crc_routines_exact_witness :
  crc24a crcTableInit crc_message 44 = Ok (Z.shiftl (crc_spec 24 0x864cfb (take 44 (bytes_bits crc_message))) 8).
Proof. exact (proj1 (crc_routines_exact crc_message 44 crc_message_bytes ltac:(cbn; lia))). Defined.

(** A block with its CRC-16, and the same with a burst of errors in two bytes. *)
Definition crc_block : list Z := [0x31; 0x32; 0x33; 0x34; 0xd7; 0x89].
Definition crc_block_bad : list Z := [0x31; 0x32; 0x32; 0x14; 0xd7; 0x89].

Lemma crc_detects_bursts_witness :
  check_crc crcTableInit crc_block 48 0 CRC16 = Ok true /\ check_crc crcTableInit crc_block_bad 48 0 CRC16 = Ok false.
Proof.
  assert (H : check_crc crcTableInit crc_block 48 0 CRC16 = Ok true) by (vm_compute; reflexivity).
  split; [exact H|].
  apply (crc_detects_bursts crc_block crc_block_bad 6 0 CRC16 0x9 21);
    [vm_compute; split; discriminate|repeat constructor; done|repeat constructor; done|vm_compute; split; discriminate|reflexivity|
     exact H|vm_compute; reflexivity|vm_compute; split; reflexivity|vm_compute; discriminate].
Defined.
