(* ===== verification/Asn1Utils.v ===== *)
(** Decoding of enumerated RRC configuration values: [asn1_utils.c] of nr_rlc and
    of nr_pdcp. *)

From S2P Require Import Prelude.
From S2P Require Import RlcAm.
From S2P Require Import RlcAmOps.
From S2P Require Import RlcUm.
From S2P Require Import RlcUmProps.
From S2P Require Import Pdcp.
From S2P Require Import PdcpProps.

(** [if (v < 0 || v > n - 1) exit(1); return tab[v];] for a table of [n] entries;
    entries without an initialiser are 0. *)
Definition tab_get (tab : list Z) (n v : Z) : res Z :=
  if (v <? 0) || (v >? n - 1) then Exit else Ok (default 0 (tab !! Z.to_nat v)).

(** ** nr_rlc/asn1_utils.c *)

Definition decode_t_reassembly (v : Z) : res Z :=
  tab_get
    [0; 5; 10; 15; 20; 25; 30; 35; 40; 45; 50; 55; 60; 65; 70; 75; 80; 85; 90;
     95; 100; 110; 120; 130; 140; 150; 160; 170; 180; 190; 200] 31 v.

Definition decode_t_status_prohibit (v : Z) : res Z :=
  tab_get
    [0; 5; 10; 15; 20; 25; 30; 35; 40; 45; 50; 55; 60; 65; 70; 75; 80; 85; 90;
     95; 100; 105; 110; 115; 120; 125; 130; 135; 140; 145; 150; 155; 160; 165;
     170; 175; 180; 185; 190; 195; 200; 205; 210; 215; 220; 225; 230; 235; 240;
     245; 250; 300; 350; 400; 450; 500; 800; 1000; 1200; 1600; 2000; 2400] 62 v.

Definition decode_t_poll_retransmit (v : Z) : res Z :=
  tab_get
    [5; 10; 15; 20; 25; 30; 35; 40; 45; 50; 55; 60; 65; 70; 75; 80; 85; 90; 95;
     100; 105; 110; 115; 120; 125; 130; 135; 140; 145; 150; 155; 160; 165; 170;
     175; 180; 185; 190; 195; 200; 205; 210; 215; 220; 225; 230; 235; 240; 245;
     250; 300; 350; 400; 450; 500; 800; 1000; 2000; 4000] 59 v.

(** The source has [65536 -1] with no comma: one entry, the difference. *)
Definition decode_poll_pdu (v : Z) : res Z :=
  tab_get
    [4; 8; 16; 32; 64; 128; 256; 512; 1024; 2048; 4096; 6144; 8192; 12288;
     16384; 20480; 24576; 28672; 32768; 40960; 49152; 57344; 65536 - 1] 24 v.

(** The entries are multiplied by 1024 once more, in 32-bit arithmetic. *)
Definition decode_poll_byte (v : Z) : res Z :=
  let* x := tab_get
    [1024 * 1; 1024 * 2; 1024 * 5; 1024 * 8; 1024 * 10;
     1024 * 15; 1024 * 25; 1024 * 50; 1024 * 75; 1024 * 100;
     1024 * 125; 1024 * 250; 1024 * 375; 1024 * 500; 1024 * 750;
     1024 * 1000; 1024 * 1250; 1024 * 1500; 1024 * 2000; 1024 * 3000;
     1024 * 4000; 1024 * 4500; 1024 * 5000; 1024 * 5500; 1024 * 6000;
     1024 * 6500; 1024 * 7000; 1024 * 7500;
     1024 * 1024 * 8; 1024 * 1024 * 9; 1024 * 1024 * 10; 1024 * 1024 * 11;
     1024 * 1024 * 12; 1024 * 1024 * 13; 1024 * 1024 * 14; 1024 * 1024 * 15;
     1024 * 1024 * 16; 1024 * 1024 * 17; 1024 * 1024 * 18; 1024 * 1024 * 20;
     1024 * 1024 * 25; 1024 * 1024 * 30; 1024 * 1024 * 40; -1] 44 v in
  if x =? -1 then Ok (-1) else Ok (i32 (x * 1024)).

Definition decode_max_retx_threshold (v : Z) : res Z := tab_get [1; 2; 3; 4; 6; 8; 16; 32] 8 v.

Definition decode_sn_field_length_um (v : Z) : res Z := tab_get [6; 12] 2 v.

Definition decode_sn_field_length_am (v : Z) : res Z := tab_get [12; 18] 2 v.

(** ** nr_pdcp/asn1_utils.c *)

Definition decode_t_reordering (v : Z) : res Z :=
  tab_get
    [0; 1; 2; 4; 5; 8; 10; 15; 20; 30; 40; 50; 60; 80; 100; 120; 140; 160; 180;
     200; 220; 240; 260; 280; 300; 500; 750; 1000; 1250; 1500; 1750; 2000;
     2250; 2500; 2750; 3000] 36 v.

Definition decode_sn_size_ul (s : Z) : res Z :=
  if s =? 0 then Ok 12 else if s =? 1 then Ok 18 else Exit.

Definition decode_sn_size_dl (s : Z) : res Z :=
  if s =? 0 then Ok 12 else if s =? 1 then Ok 18 else Exit.

Definition decode_discard_timer (v : Z) : res Z :=
  tab_get [10; 20; 30; 40; 50; 60; 75; 100; 150; 200; 250; 300; 500; 750; 1500; -1] 16 v.

(** ** Decoded configurations create entities *)

(** The decoder [decode] of an enumeration of two values: the first means [a], the second [b], and on
    any other value it ends the program. *)
Definition decodes_two (decode : Z -> res Z) (a b v : Z) : Prop :=
  decode v = if v =? 0 then Ok a else if v =? 1 then Ok b else Exit.

Lemma tab_get_two a b v : decodes_two (tab_get [a; b] 2) a b v.
Proof.
  unfold decodes_two, tab_get. destruct (Z.eqb_spec v 0) as [-> | H0]; [done|]. destruct (Z.eqb_spec v 1) as [-> | H1]; [done|].
  by replace ((v <? 0) || (v >? 2 - 1)) with true by lia.
Qed.

Lemma decoded_two decode a b v n : decodes_two decode a b v -> decode v = Ok n -> n = a \/ n = b.
Proof. unfold decodes_two. intros -> E. destruct (v =? 0), (v =? 1); injection E as <- || done; tauto. Qed.

Lemma new_am_accepts rx_max tx_max tp tr ts pp pb mr snl :
  snl = 12 \/ snl = 18 -> exists e, new_nr_rlc_entity_am rx_max tx_max tp tr ts pp pb mr snl = Ok e /\ sn_field_length e = snl.
Proof. intros [-> | ->]; by eexists. Qed.

Lemma new_um_accepts rx_max tx_max tr snl :
  snl = 6 \/ snl = 12 -> exists e, new_nr_rlc_entity_um rx_max tx_max tr snl = Ok e /\ um_sn_field_length e = snl.
Proof. intros [-> | ->]; by eexists. Qed.

(** The algorithms PDCP takes: -1 leaves what there is, 0 is none, 2 the one that is implemented. *)
Definition algorithm_known (a : Z) : bool := (a =? -1) || (a =? 0) || (a =? 2).

Lemma set_integrity_accepts e a :
  if algorithm_known a
  then exists e', set_integrity e a = Ok e' /\ p_sn_size e' = p_sn_size e /\ p_has_ciphering e' = p_has_ciphering e /\
         p_has_integrity e' = if a =? -1 then p_has_integrity e else a =? 2
  else set_integrity e a = Exit.
Proof.
  unfold algorithm_known, set_integrity. destruct (Z.eqb_spec a (-1)) as [-> | H1]; [by eexists|].
  destruct (Z.eqb_spec a 0) as [-> | H0]; [cbn [orb]; eexists; split; [reflexivity|]; by destruct (p_free_integrity _)|].
  destruct (Z.eqb_spec a 2) as [-> | H2]; cbn [orb negb]; [by eexists|done].
Qed.

Lemma set_ciphering_accepts e a :
  if algorithm_known a
  then exists e', set_ciphering e a = Ok e' /\ p_sn_size e' = p_sn_size e /\ p_has_integrity e' = p_has_integrity e /\
         p_has_ciphering e' = if a =? -1 then p_has_ciphering e else a =? 2
  else set_ciphering e a = Exit.
Proof.
  unfold algorithm_known, set_ciphering. destruct (Z.eqb_spec a (-1)) as [-> | H1]; [by eexists|].
  destruct (Z.eqb_spec a 0) as [-> | H0]; [cbn [orb]; eexists; split; [reflexivity|]; by destruct (p_free_security _)|].
  destruct (Z.eqb_spec a 2) as [-> | H2]; cbn [orb negb]; [by eexists|done].
Qed.

(** A new PDCP entity has the length it is given and the protection its algorithms name. *)
Lemma new_pdcp_accepts t g rb ps h1 h2 h3 sn tr dt ca ia ck ik :
  if algorithm_known ia && algorithm_known ca
  then exists e, new_nr_pdcp_entity t g rb ps h1 h2 h3 sn tr dt ca ia ck ik = Ok e /\ p_sn_size e = sn /\
         p_has_integrity e = (ia =? 2) /\ p_has_ciphering e = (ca =? 2)
  else new_nr_pdcp_entity t g rb ps h1 h2 h3 sn tr dt ca ia ck ik = Exit.
Proof.
  unfold new_nr_pdcp_entity, nr_pdcp_entity_set_security. match goal with |- context [set_integrity ?x ia] => set (e0 := x) end.
  assert (H0 : p_sn_size e0 = sn /\ p_has_integrity e0 = false /\ p_has_ciphering e0 = false) by (subst e0; by destruct (negb (ia =? -1)), (negb (ca =? -1))).
  clearbody e0. destruct H0 as (S0 & I0 & C0). pose proof (set_integrity_accepts e0 ia) as H1.
  destruct (algorithm_known ia); [|by rewrite H1]. destruct H1 as (e1 & -> & S1 & C1 & I1). cbn [andb rbind].
  pose proof (set_ciphering_accepts e1 ca) as H2. destruct (algorithm_known ca); [|exact H2]. destruct H2 as (e2 & -> & S2 & I2 & C2).
  exists e2. split; [done|]. split; [congruence|]. rewrite I2, I1, C2, C1, I0, C0. split.
  - by destruct (Z.eqb_spec ia (-1)) as [-> |].
  - by destruct (Z.eqb_spec ca (-1)) as [-> |].
Qed.

Lemma set_integrity_keeps e a e' : set_integrity e a = Ok e' -> pdcp_wf e -> pdcp_wf e'.
Proof.
  unfold set_integrity. intros E Hwf. destruct (a =? 0); [|destruct (negb _); [destruct (negb _); [done|]|]];
    injection E as <-; [destruct (p_free_integrity _)| |]; exact Hwf.
Qed.

Lemma set_ciphering_keeps e a e' : set_ciphering e a = Ok e' -> pdcp_wf e -> pdcp_wf e'.
Proof.
  unfold set_ciphering. intros E Hwf. destruct (a =? 0); [|destruct (negb _); [destruct (negb _); [done|]|]];
    injection E as <-; [destruct (p_free_security _)| |]; exact Hwf.
Qed.

Lemma set_security_keeps e ia ik ca ck e' :
  nr_pdcp_entity_set_security e ia ik ca ck = Ok e' -> pdcp_wf e -> pdcp_wf e'.
Proof.
  unfold nr_pdcp_entity_set_security. intros E Hwf. apply rbind_ok in E as (e1 & E1 & E2).
  eapply set_ciphering_keeps; [exact E2|]. eapply set_integrity_keeps; [exact E1|].
  by destruct (ia =? -1), (ca =? -1).
Qed.

Lemma new_pdcp_wf t g rb ps h1 h2 h3 sn tr dt ca ia ck ik e :
  sn = 12 \/ sn = 18 -> new_nr_pdcp_entity t g rb ps h1 h2 h3 sn tr dt ca ia ck ik = Ok e -> pdcp_wf e.
Proof.
  intros Hs E. eapply set_security_keeps; [exact E|]. unfold pdcp_wf, pdcp_conf. cbn -[Z.shiftl Z.pow].
  destruct Hs as [-> | ->]; (split; [repeat split; tauto|]); (split; [lia|]); (split; [lia|]);
    (split; [constructor|]); (split; [constructor|done]).
Qed.

(** ** Properties *)

(** C40. Decoded configurations create the entities they name.  The SN-length enumerations are
    decoded as the standard gives them (RLC acknowledged mode 12 and 18 bits, unacknowledged mode 6 and
    12 bits, PDCP in both directions 12 and 18 bits) and any other value ends the program.  With every
    decoded length the constructor of the entity succeeds, the new entity has that length and satisfies the
    invariants of its mode; PDCP has the integrity protection and the ciphering its algorithm numbers
    ask for, and the program ends exactly when one of them is not -1, 0 or 2. *)
Theorem decoded_lengths_accepted (v : Z) :
  (decodes_two decode_sn_field_length_am 12 18 v /\
   forall n, decode_sn_field_length_am v = Ok n -> forall rx_max tx_max tp tr ts pp pb mr, 0 <= rx_max ->
     exists e, new_nr_rlc_entity_am rx_max tx_max tp tr ts pp pb mr n = Ok e /\ sn_field_length e = n /\ am_wf e) /\
  (decodes_two decode_sn_field_length_um 6 12 v /\
   forall n, decode_sn_field_length_um v = Ok n -> forall rx_max tx_max tr,
     exists e, new_nr_rlc_entity_um rx_max tx_max tr n = Ok e /\ um_sn_field_length e = n /\ um_wf e) /\
  (decodes_two decode_sn_size_ul 12 18 v /\ decodes_two decode_sn_size_dl 12 18 v /\
   forall n, decode_sn_size_ul v = Ok n \/ decode_sn_size_dl v = Ok n -> forall t g rb ps h1 h2 h3 tr dt ca ia ck ik,
     if algorithm_known ia && algorithm_known ca
     then exists e, new_nr_pdcp_entity t g rb ps h1 h2 h3 n tr dt ca ia ck ik = Ok e /\ p_sn_size e = n /\
            p_has_integrity e = (ia =? 2) /\ p_has_ciphering e = (ca =? 2) /\ pdcp_wf e
     else new_nr_pdcp_entity t g rb ps h1 h2 h3 n tr dt ca ia ck ik = Exit).
Proof.
  split; [|split].
  - split; [apply tab_get_two|]. intros n Hn **. destruct (new_am_accepts rx_max tx_max tp tr ts pp pb mr n) as (e & E & Hl); [by eapply decoded_two, Hn; apply tab_get_two|].
    exists e. split; [done|]. split; [done|]. by eapply new_am_wf.
  - split; [apply tab_get_two|]. intros n Hn **. destruct (new_um_accepts rx_max tx_max tr n) as (e & E & Hl); [by eapply decoded_two, Hn; apply tab_get_two|].
    exists e. split; [done|]. split; [done|]. by eapply new_um_wf.
  - split; [done|]. split; [done|]. intros n Hn **. pose proof (new_pdcp_accepts t g rb ps h1 h2 h3 n tr dt ca ia ck ik) as H.
    destruct (_ && _); [|done]. destruct H as (e & E & Hl & Hi & Hc). exists e. do 4 (split; [done|]). eapply new_pdcp_wf, E.
    destruct Hn as [Hn|Hn]; by eapply decoded_two, Hn.
Qed.

Lemma decoded_lengths_accepted_witness :
  decode_sn_size_dl 1 = Ok 18 /\
  exists e, new_nr_pdcp_entity NR_PDCP_DRB_AM true 1 10 0 0 0 18 100 (-1) 2 0 (Some (repeat 7 16)) None = Ok e /\
    p_sn_size e = 18 /\ p_has_ciphering e = true /\ pdcp_wf e.
Proof.
  split; [reflexivity|]. destruct (decoded_lengths_accepted 1) as (_ & _ & _ & _ & H).
  destruct (H 18 (or_intror eq_refl) NR_PDCP_DRB_AM true 1 10 0 0 0 100 (-1) 2 0 (Some (repeat 7 16)) None) as (e & E & Hs & _ & Hc & Hw).
  exists e. split; [exact E|]. split; [exact Hs|]. split; [exact Hc|exact Hw].
Defined.
