(* ===== verification/RlcApi.v ===== *)
(** The interface of RLC to MAC, PDCP and RRC: [nr_rlc_oai_api.c].

    The module state is the UE manager, the time and the flags of the initialisation; what
    the callbacks hand to PDCP, F1AP or GTP-U is a list of messages.  The configuration
    structures that the ASN.1 compiler generates are records of the fields the code reads,
    their optional fields being pointers that may be null.  A bearer is known to the
    callbacks by its address in the UE, here by its slot.

    The theorems: every data operation is the operation of the addressed entity, lifted to
    the module ([rlc_api_refines]); a configuration keeps the bearers there are and creates
    the ones asked for ([rlc_config_bearers]); a removal frees exactly what it names
    ([rlc_remove_bearer]). *)

From S2P Require Import Prelude.
From S2P Require Import RlcSdu.
From S2P Require Import RlcAm.
From S2P Require Import RlcAmOps.
From S2P Require Import RlcUm.
From S2P Require Import RlcTm.
From S2P Require Import RlcUmProps.
From S2P Require Import RlcEntity.
From S2P Require Import RlcEvents.
From S2P Require Import UeManager.
From S2P Require Import Bearers.
From S2P Require Import Asn1Utils.

(** ** Configuration *)

Inductive NR_RLC_Config : Type :=
| RLC_Config_am (dl_t_Reassembly dl_t_StatusProhibit ul_t_PollRetransmit ul_pollPDU ul_pollByte
                 ul_maxRetxThreshold : Z) (dl_sn_FieldLength ul_sn_FieldLength : option Z)
| RLC_Config_um_Bi_Directional (dl_t_Reassembly : Z) (dl_sn_FieldLength ul_sn_FieldLength : option Z)
| RLC_Config_other.

Inductive servedRadioBearer_t : Type :=
| srb_Identity (id : Z)
| drb_Identity (id : Z).

Record NR_RLC_BearerConfig := mk_bearer_config {
  logicalChannelIdentity : Z;
  logicalChannelGroup : option Z;
  servedRadioBearer : option servedRadioBearer_t;
  rlc_Config : option NR_RLC_Config
}.

(** Values of the enumerations that the ASN.1 compiler generates. *)
Definition servedRadioBearer_PR_drb_Identity : Z := 2.
Definition NR_RLC_Config_PR_am : Z := 1.
Definition NR_RLC_Config_PR_um_Bi_Directional : Z := 2.
Definition NR_SN_FieldLengthUM_size12 : Z := 1.
Definition NR_SN_FieldLengthAM_size18 : Z := 1.
Definition NR_T_Reassembly_ms15 : Z := 3.
Definition NR_T_StatusProhibit_ms15 : Z := 3.
Definition NR_T_PollRetransmit_ms45 : Z := 8.
Definition NR_PollPDU_p64 : Z := 4.
Definition NR_PollByte_kB500 : Z := 13.
Definition maxRetxThreshold_t32 : Z := 7.

(** The structures allocated here are zero: no RLC configuration is chosen yet and there
    are no uplink parameters. *)
Definition nr_rlc_bearer_init (rb_type : Z) : NR_RLC_BearerConfig :=
  if rb_type =? servedRadioBearer_PR_drb_Identity
  then mk_bearer_config 4 None (Some (drb_Identity 1)) (Some RLC_Config_other)
  else mk_bearer_config 1 None (Some (srb_Identity 1)) (Some RLC_Config_other).

Definition nr_rlc_bearer_init_ul_spec (c : NR_RLC_BearerConfig) : NR_RLC_BearerConfig :=
  mk_bearer_config (logicalChannelIdentity c) (Some 1) (servedRadioBearer c) (rlc_Config c).

Definition nr_drb_config (rlc_config_pr : Z) : NR_RLC_Config :=
  if rlc_config_pr =? NR_RLC_Config_PR_um_Bi_Directional then
    RLC_Config_um_Bi_Directional NR_T_Reassembly_ms15 (Some NR_SN_FieldLengthUM_size12)
      (Some NR_SN_FieldLengthUM_size12)
  else if rlc_config_pr =? NR_RLC_Config_PR_am then
    RLC_Config_am NR_T_Reassembly_ms15 NR_T_StatusProhibit_ms15 NR_T_PollRetransmit_ms45 NR_PollPDU_p64
      NR_PollByte_kB500 maxRetxThreshold_t32 (Some NR_SN_FieldLengthAM_size18) (Some NR_SN_FieldLengthAM_size18)
  else RLC_Config_other.

(** ** Module state *)

(** What the callbacks send upwards. *)
Inductive rlc_message : Type :=
| pdcp_data_ind (rnti : Z) (is_srb : bool) (rb_id : Z) (buf : list Z)
| F1AP_UL_RRC_MESSAGE (rnti srb_id : Z) (buf : list Z)
| GTPV1U_GNB_TUNNEL_DATA_REQ (rnti pdusession_id : Z) (buf : list Z).

(** [node_type] is that of the configuration ([RC.nrrrc[0]]). *)
Record rlc_module := mk_module {
  nr_rlc_ue_manager : nr_rlc_ue_manager_t;
  nr_rlc_current_time : Z;
  nr_rlc_current_time_last_frame : Z;
  nr_rlc_current_time_last_subframe : Z;
  inited : bool;
  inited_ue : bool;
  node_type : Z;
  messages : list rlc_message
}.

#[export] Instance eta_module : Eta rlc_module := fun s =>
  mk_module (nr_rlc_ue_manager s) (nr_rlc_current_time s) (nr_rlc_current_time_last_frame s)
    (nr_rlc_current_time_last_subframe s) (inited s) (inited_ue s) (node_type s) (messages s).

Definition NODE_IS_CU (t : Z) : bool := (t =? 3) || (t =? 4) || (t =? 5).
Definition NODE_IS_DU (t : Z) : bool := (t =? 6) || (t =? 7).

(** [switch (channel_idP)] *)
Definition channel_slot (channel_id : Z) : option slot :=
  if (1 <=? channel_id) && (channel_id <=? 3) then Some (Srb (Z.to_nat (channel_id - 1)))
  else if (4 <=? channel_id) && (channel_id <=? 8) then Some (Drb (Z.to_nat (channel_id - 4)))
  else None.

(** ** Callbacks *)

Definition deliver_sdu_cb (st : rlc_module) (rnti : Z) (s : slot) (buf : list Z) : res rlc_module :=
  let '(is_srb, rb_id) :=
    match s with Srb i => (true, Z.of_nat i + 1) | Drb i => (false, Z.of_nat i + 1) end in
  let send msg := Ok (st <| messages := messages st ++ [msg] |>) in
  if nr_rlc_manager_get_enb_flag (nr_rlc_ue_manager st) then
    if NODE_IS_CU (node_type st) then Exit
    else if NODE_IS_DU (node_type st) then
      if is_srb then send (F1AP_UL_RRC_MESSAGE rnti rb_id buf)
      else send (GTPV1U_GNB_TUNNEL_DATA_REQ rnti rb_id buf)
    else send (pdcp_data_ind rnti is_srb rb_id buf)
  else send (pdcp_data_ind rnti is_srb rb_id buf).

(** Both look for the bearer among two SRBs and five DRBs, and do nothing else. *)
Definition successful_delivery_cb (st : rlc_module) (s : slot) : res rlc_module :=
  match s with
  | Srb i => if (i <? 2)%nat then Ok st else Exit
  | Drb i => if (i <? 5)%nat then Ok st else Exit
  end.

Definition max_retx_reached_cb (st : rlc_module) (s : slot) : res rlc_module := successful_delivery_cb st s.

Fixpoint run_callbacks (evs : list rlc_event) (st : rlc_module) (rnti : Z) (s : slot) : res rlc_module :=
  match evs with
  | [] => Ok st
  | ev :: tl =>
    let* st :=
      match ev with
      | deliver_sdu buf => deliver_sdu_cb st rnti s buf
      | sdu_successful_delivery _ => successful_delivery_cb st s
      | max_retx_reached => max_retx_reached_cb st s
      end in
    run_callbacks tl st rnti s
  end.

(** ** Data *)

(** [rb->set_time(rb, nr_rlc_current_time)], then the call [f], on the bearer in slot [s] of
    the UE, which is created when there is none; [none] is returned when there is no bearer.
    The callbacks that the entity makes on the way are those of its new events. *)
Definition call_rb {A} (st : rlc_module) (rnti : Z) (s : option slot)
  (f : nr_rlc_entity_t -> res (nr_rlc_entity_t * A)) (none : A) : res (rlc_module * A) :=
  let '(i, m) := nr_rlc_manager_get_ue (nr_rlc_ue_manager st) rnti in
  let st := st <| nr_rlc_ue_manager := m |> in
  match ue_list m !! i with
  | None => Fault OutOfBounds
  | Some ue =>
    match s with
    | None => Ok (st, none)
    | Some s =>
      match get_slot ue s with
      | None => Ok (st, none)
      | Some rb =>
        let* rb1 := rlc_set_time rb (nr_rlc_current_time st) in
        let* (rb2, a) := f rb1 in
        let m := put_ue m i (put_slot ue s (Some rb2)) in
        let* st := run_callbacks (drop (length (rlc_events rb)) (rlc_events rb2))
                     (st <| nr_rlc_ue_manager := m |>) rnti s in
        Ok (st, a)
      end
    end
  end.

Definition mac_rlc_data_ind (st : rlc_module) (module_id rnti eNB_index : Z) (MBMS_flag : bool)
  (channel_id : Z) (buffer : list Z) : res rlc_module :=
  if negb (module_id =? 0) || negb (eNB_index =? 0) || MBMS_flag then Exit
  else
    let* (st, _) := call_rb st rnti (channel_slot channel_id)
                      (fun rb => let* rb := rlc_recv_pdu rb buffer in Ok (rb, tt)) tt in
    Ok st.

Definition mac_rlc_data_req (st : rlc_module) (rnti channel_id : Z) (buffer : list Z)
  : res (rlc_module * (list Z * Z)) :=
  call_rb st rnti (channel_slot channel_id)
    (fun rb => let* (rb, b, n) := rlc_generate_pdu rb buffer in Ok (rb, (b, n))) (buffer, 0).

(** The bytes of the buffer status, from an entity that is not changed. *)
Definition bytes_in_buffer (rb : nr_rlc_entity_t) : res (nr_rlc_entity_t * Z) :=
  let* b := rlc_buffer_status rb (1000 * 1000) in
  Ok (rb, status_size b + bs_retx_size b + bs_tx_size b).

Definition mac_rlc_status_ind (st : rlc_module) (rnti channel_id : Z) : res (rlc_module * Z) :=
  call_rb st rnti (channel_slot channel_id) bytes_in_buffer 0.

(** [nr_rlc_tick] *)
Definition nr_rlc_tick (st : rlc_module) (frame subframe : Z) : rlc_module :=
  if negb (frame =? nr_rlc_current_time_last_frame st) || negb (subframe =? nr_rlc_current_time_last_subframe st)
  then st <| nr_rlc_current_time_last_frame := frame |> <| nr_rlc_current_time_last_subframe := subframe |>
          <| nr_rlc_current_time := u64 (nr_rlc_current_time st + 1) |>
  else st.

Definition mac_rlc_get_buffer_occupancy_ind (st : rlc_module) (rnti frame subframe : Z) (enb_flag : bool)
  (channel_id : Z) : res (rlc_module * Z) :=
  if enb_flag then Exit
  else call_rb (nr_rlc_tick st frame subframe) rnti (channel_slot channel_id) bytes_in_buffer 0.

Definition rlc_data_req (st : rlc_module) (rnti : Z) (srb_flag : bool) (rb_id mui : Z) (sdu : list Z)
  : res rlc_module :=
  let* (st, _) := call_rb st rnti (rb_slot srb_flag rb_id)
                    (fun rb => let* rb := rlc_recv_sdu rb sdu mui in Ok (rb, tt)) tt in
  Ok st.

(** ** Initialisation and configuration *)

Definition rlc_module_init (st : rlc_module) (enb_flag : Z) : res rlc_module :=
  if (enb_flag =? 1) && inited st then Exit
  else if (enb_flag =? 0) && inited_ue st then Exit
  else
    let st := if enb_flag =? 1 then st <| inited := true |> else st in
    let st := if enb_flag =? 0 then st <| inited_ue := true |> else st in
    Ok (st <| nr_rlc_ue_manager := new_nr_rlc_ue_manager (negb (enb_flag =? 0)) |>).

(** [*p] of an optional field. *)
Definition deref {A} (p : option A) : res A :=
  match p with Some a => Ok a | None => Fault NullDeref end.

(** The configuration of AM, decoded. *)
Record am_parameters := mk_am_parameters {
  amp_t_poll_retransmit : Z; amp_t_reassembly : Z; amp_t_status_prohibit : Z; amp_poll_pdu : Z;
  amp_poll_byte : Z; amp_max_retx_threshold : Z; amp_sn_field_length : Z
}.

Definition decode_am_config (r : NR_RLC_Config) : res am_parameters :=
  match r with
  | RLC_Config_am dl_t_Reassembly dl_t_StatusProhibit ul_t_PollRetransmit ul_pollPDU ul_pollByte
      ul_maxRetxThreshold dl_sn ul_sn =>
    let* t_reassembly := decode_t_reassembly dl_t_Reassembly in
    let* t_status_prohibit := decode_t_status_prohibit dl_t_StatusProhibit in
    let* t_poll_retransmit := decode_t_poll_retransmit ul_t_PollRetransmit in
    let* poll_pdu := decode_poll_pdu ul_pollPDU in
    let* poll_byte := decode_poll_byte ul_pollByte in
    let* max_retx_threshold := decode_max_retx_threshold ul_maxRetxThreshold in
    let* dl := deref dl_sn in
    let* ul := deref ul_sn in
    if negb (dl =? ul) then Exit
    else
      let* sn_field_length := decode_sn_field_length_am dl in
      Ok (mk_am_parameters t_poll_retransmit t_reassembly t_status_prohibit poll_pdu poll_byte
            max_retx_threshold sn_field_length)
  | _ => Exit
  end.

(** The parameters that the code sets for every SRB ("hack: hardcode values for NR"). *)
Definition srb_parameters : am_parameters := mk_am_parameters 45 35 0 (-1) (-1) 8 12.

Definition new_am (p : am_parameters) : res nr_rlc_entity_t :=
  let* e := new_nr_rlc_entity_am 10000000 10000000 (amp_t_poll_retransmit p) (amp_t_reassembly p)
              (amp_t_status_prohibit p) (amp_poll_pdu p) (amp_poll_byte p) (amp_max_retx_threshold p)
              (amp_sn_field_length p) in
  Ok (EntityAm e).

(** The end of the three functions that add a bearer: nothing when there is one already;
    otherwise the entity is created and [add] puts it into the UE. *)
Definition add_bearer (st : rlc_module) (rnti : Z) (s : slot) (create : res nr_rlc_entity_t)
  (add : ue_t nr_rlc_entity_t -> nr_rlc_entity_t -> res (ue_t nr_rlc_entity_t)) : res rlc_module :=
  let '(i, m) := nr_rlc_manager_get_ue (nr_rlc_ue_manager st) rnti in
  match ue_list m !! i with
  | None => Fault OutOfBounds
  | Some ue =>
    match get_slot ue s with
    | Some _ => Ok (st <| nr_rlc_ue_manager := m |>)
    | None =>
      let* e := create in
      let* ue := add ue e in
      Ok (st <| nr_rlc_ue_manager := put_ue m i ue |>)
    end
  end.

Definition add_rlc_srb (st : rlc_module) (rnti srb_id : Z) (c : NR_RLC_BearerConfig) : res rlc_module :=
  if negb (srb_id =? 1) && negb (srb_id =? 2) then Exit
  else if negb (logicalChannelIdentity c =? srb_id) then Exit
  else
    let* logical_channel_group := deref (logicalChannelGroup c) in
    if negb (logical_channel_group =? 0) then Exit
    else
      let* r := deref (rlc_Config c) in
      let* _ := decode_am_config r in
      add_bearer st rnti (Srb (Z.to_nat (srb_id - 1))) (new_am srb_parameters)
        (fun ue e => nr_rlc_ue_add_srb_rlc_entity ue srb_id e).

(** A logical channel group other than 1 is only reported. *)
Definition add_drb_am (st : rlc_module) (rnti drb_id : Z) (c : NR_RLC_BearerConfig) : res rlc_module :=
  if negb ((1 <=? drb_id) && (drb_id <=? 5)) then Exit
  else if negb (logicalChannelIdentity c =? drb_id + 3) then Exit
  else
    let* _ := deref (logicalChannelGroup c) in
    let* r := deref (rlc_Config c) in
    let* p := decode_am_config r in
    add_bearer st rnti (Drb (Z.to_nat (drb_id - 1))) (new_am p)
      (fun ue e => nr_rlc_ue_add_drb_rlc_entity ue drb_id e).

(** [t_reassembly] and [sn_field_length]. *)
Definition decode_um_config (r : NR_RLC_Config) : res (Z * Z) :=
  match r with
  | RLC_Config_um_Bi_Directional dl_t_Reassembly dl_sn ul_sn =>
    let* t_reassembly := decode_t_reassembly dl_t_Reassembly in
    let* dl := deref dl_sn in
    let* ul := deref ul_sn in
    if negb (dl =? ul) then Exit
    else
      let* sn_field_length := decode_sn_field_length_um dl in
      Ok (t_reassembly, sn_field_length)
  | _ => Exit
  end.

Definition new_um (t_reassembly sn_field_length : Z) : res nr_rlc_entity_t :=
  let* e := new_nr_rlc_entity_um 100000000 100000000 t_reassembly sn_field_length in
  Ok (EntityUm e).

Definition add_drb_um (st : rlc_module) (rnti drb_id : Z) (c : NR_RLC_BearerConfig) : res rlc_module :=
  if negb ((1 <=? drb_id) && (drb_id <=? 5)) then Exit
  else if negb (logicalChannelIdentity c =? drb_id + 3) then Exit
  else
    let* logical_channel_group := deref (logicalChannelGroup c) in
    if negb (logical_channel_group =? 1) then Exit
    else
      let* r := deref (rlc_Config c) in
      let* (t_reassembly, sn_field_length) := decode_um_config r in
      add_bearer st rnti (Drb (Z.to_nat (drb_id - 1))) (new_um t_reassembly sn_field_length)
        (fun ue e => nr_rlc_ue_add_drb_rlc_entity ue drb_id e).

Definition add_drb (st : rlc_module) (rnti drb_id : Z) (c : NR_RLC_BearerConfig) : res rlc_module :=
  let* r := deref (rlc_Config c) in
  match r with
  | RLC_Config_am _ _ _ _ _ _ _ _ => add_drb_am st rnti drb_id c
  | RLC_Config_um_Bi_Directional _ _ _ => add_drb_um st rnti drb_id c
  | RLC_Config_other => Exit
  end.

(** The inner loop of the configuration: the bearer configurations that serve [rb]. *)
Fixpoint config_bearers (add : rlc_module -> NR_RLC_BearerConfig -> res rlc_module)
  (serves : servedRadioBearer_t -> bool) (l : list NR_RLC_BearerConfig) (st : rlc_module) : res rlc_module :=
  match l with
  | [] => Ok st
  | c :: tl =>
    let* st :=
      match servedRadioBearer c with
      | Some b => if serves b then add st c else Ok st
      | None => Ok st
      end in
    config_bearers add serves tl st
  end.

Definition serves_srb (id : Z) (b : servedRadioBearer_t) : bool :=
  match b with srb_Identity i => id =? i | drb_Identity _ => false end.

Definition serves_drb (id : Z) (b : servedRadioBearer_t) : bool :=
  match b with drb_Identity i => id =? i | srb_Identity _ => false end.

(** The outer loops over the SRBs and DRBs to add. *)
Fixpoint config_list (step : Z -> rlc_module -> res rlc_module) (ids : list Z) (st : rlc_module) : res rlc_module :=
  match ids with
  | [] => Ok st
  | id :: tl => let* st := step id st in config_list step tl st
  end.

(** Lists that are null pointers are [None]; the lists of bearers are those of identities. *)
Definition nr_rrc_rlc_config_asn1_req (st : rlc_module) (module_id rnti : Z) (pmch : bool)
  (srb2add_list drb2add_list : option (list Z)) (rlc_bearer2add_list : option (list NR_RLC_BearerConfig))
  : res rlc_module :=
  if negb (module_id =? 0) then Exit
  else if pmch then Exit
  else
    let* st :=
      match srb2add_list, rlc_bearer2add_list with
      | Some srbs, Some bearers =>
        config_list (fun id => config_bearers (fun st c => add_rlc_srb st rnti id c) (serves_srb id) bearers) srbs st
      | _, _ => Ok st
      end in
    match drb2add_list, rlc_bearer2add_list with
    | Some drbs, Some bearers =>
      config_list (fun id => config_bearers (fun st c => add_drb st rnti id c) (serves_drb id) bearers) drbs st
    | _, _ => Ok st
    end.

Definition CONFIG_ACTION_REMOVE : Z := 2.

(** The slots of the first two SRBs and of the DRBs are all empty. *)
Definition no_bearer (ue : ue_t nr_rlc_entity_t) : bool :=
  forallb (fun e : option nr_rlc_entity_t => match e with None => true | Some _ => false end)
    (take 2 (srb ue) ++ take 5 (drb ue)).

Definition rrc_rlc_config_req (st : rlc_module) (module_id rnti : Z) (srb_flag mbms_flag : bool) (action rb_id : Z)
  : res rlc_module :=
  if mbms_flag then Exit
  else if negb (action =? CONFIG_ACTION_REMOVE) then Exit
  else if negb (module_id =? 0) then Exit
  else
    match rb_slot srb_flag rb_id with
    | None => Exit
    | Some s =>
      let '(i, m) := nr_rlc_manager_get_ue (nr_rlc_ue_manager st) rnti in
      match ue_list m !! i with
      | None => Fault OutOfBounds
      | Some ue =>
        let* ue :=
          match get_slot ue s with
          | Some e => let* _ := rlc_delete e in Ok (put_slot ue s None)
          | None => Ok ue
          end in
        let m := put_ue m i ue in
        let* m := (if no_bearer ue then let* (_, m) := nr_rlc_manager_remove_ue m rnti in Ok m else Ok m) in
        Ok (st <| nr_rlc_ue_manager := m |>)
      end
    end.

Definition rrc_rlc_remove_ue (st : rlc_module) (rnti : Z) : res rlc_module :=
  let* (_, m) := nr_rlc_manager_remove_ue (nr_rlc_ue_manager st) rnti in
  Ok (st <| nr_rlc_ue_manager := m |>).

(** ** Abstraction *)

(** The module seen by its users: the entity of each bearer of each UE. *)
Definition bearer (st : rlc_module) (rnti : Z) (s : slot) : option nr_rlc_entity_t :=
  bearer_of (nr_rlc_ue_manager st) rnti s.

Definition module_wf (st : rlc_module) : Prop := manager_wf (nr_rlc_ue_manager st).

(** A CU has no RLC: there [deliver_sdu] ends the program. *)
Definition may_deliver (st : rlc_module) : bool :=
  negb (nr_rlc_manager_get_enb_flag (nr_rlc_ue_manager st) && NODE_IS_CU (node_type st)).

(** What the delivery of an SDU of a bearer sends. *)
Definition upward (st : rlc_module) (rnti : Z) (s : slot) (ev : rlc_event) : option rlc_message :=
  match ev with
  | deliver_sdu buf =>
    Some (if nr_rlc_manager_get_enb_flag (nr_rlc_ue_manager st) && NODE_IS_DU (node_type st) then
            match s with
            | Srb i => F1AP_UL_RRC_MESSAGE rnti (Z.of_nat i + 1) buf
            | Drb i => GTPV1U_GNB_TUNNEL_DATA_REQ rnti (Z.of_nat i + 1) buf
            end
          else
            match s with
            | Srb i => pdcp_data_ind rnti true (Z.of_nat i + 1) buf
            | Drb i => pdcp_data_ind rnti false (Z.of_nat i + 1) buf
            end)
  | _ => None
  end.

(** What stays the same whatever is done to the bearers. *)
Definition same_context (st st' : rlc_module) : Prop :=
  nr_rlc_current_time st' = nr_rlc_current_time st /\ node_type st' = node_type st /\
  nr_rlc_manager_get_enb_flag (nr_rlc_ue_manager st') = nr_rlc_manager_get_enb_flag (nr_rlc_ue_manager st).

(** The abstract operation: the time is given to the entity of the bearer, then the call
    [f] is made; its outcome is that of the operation, only this bearer changes, and the SDUs
    delivered on the way are sent upwards in order.  Nothing happens without a bearer. *)
Definition bearer_call {A} (st : rlc_module) (rnti : Z) (s : option slot)
  (f : nr_rlc_entity_t -> res (nr_rlc_entity_t * A)) (none : A) (out : res (rlc_module * A)) : Prop :=
  match s, s ≫= bearer st rnti with
  | Some s, Some rb =>
    match (let* rb1 := rlc_set_time rb (nr_rlc_current_time st) in f rb1) with
    | Exit => out = Exit
    | Fault x => out = Fault x
    | Ok (rb2, a) =>
      exists st' new, out = Ok (st', a) /\ module_wf st' /\ same_context st st' /\
        rlc_events rb2 = rlc_events rb ++ new /\
        messages st' = messages st ++ omap (upward st rnti s) new /\
        forall rnti' s', bearer st' rnti' s' =
          if decide (rnti' = rnti /\ s' = s) then Some rb2 else bearer st rnti' s'
    end
  | _, _ =>
    exists st', out = Ok (st', none) /\ module_wf st' /\ same_context st st' /\
      messages st' = messages st /\ forall rnti' s', bearer st' rnti' s' = bearer st rnti' s'
  end.

(** ** Lemmas: callbacks *)

(** Both look for the bearer where it is. *)
Lemma slot_known s : slot_ok s = true -> forall st, successful_delivery_cb st s = Ok st.
Proof. intros H st. destruct s; unfold slot_ok, successful_delivery_cb in *; by rewrite H. Qed.

Lemma run_callbacks_spec evs st rnti s :
  may_deliver st = true -> (forall st, successful_delivery_cb st s = Ok st) ->
  run_callbacks evs st rnti s = Ok (st <| messages := messages st ++ omap (upward st rnti s) evs |>).
Proof.
  intros Hmay Hs. revert st Hmay. induction evs as [|ev evs IH]; intros st Hmay; cbn [run_callbacks].
  - cbn [omap list_omap]. rewrite app_nil_r. by destruct st.
  - assert (exists st1, (match ev with
      | deliver_sdu buf => deliver_sdu_cb st rnti s buf
      | sdu_successful_delivery _ => successful_delivery_cb st s
      | max_retx_reached => max_retx_reached_cb st s
      end) = Ok st1 /\ st1 = st <| messages := messages st ++ option_list (upward st rnti s ev) |>)
      as (st1 & -> & ->).
    { destruct ev as [buf|id|].
      - unfold deliver_sdu_cb, may_deliver, upward in *.
        destruct (nr_rlc_manager_get_enb_flag _), (NODE_IS_CU _), (NODE_IS_DU _), s; cbn in *; try done; by eexists.
      - rewrite Hs. exists st. split; [done|]. cbn. rewrite app_nil_r. by destruct st.
      - unfold max_retx_reached_cb. rewrite Hs. exists st. split; [done|]. cbn. rewrite app_nil_r. by destruct st. }
    cbn [rbind]. rewrite IH by exact Hmay. f_equal. destruct st. cbn [update]. unfold update. cbn. f_equal.
    rewrite <- app_assoc. f_equal. cbn. by destruct (upward _ _ _ ev).
Qed.

(** ** Lemmas: calls *)

Definition with_manager (st : rlc_module) (m : nr_rlc_ue_manager_t) : rlc_module :=
  st <| nr_rlc_ue_manager := m |>.

Lemma same_context_with st m :
  enb_flag m = enb_flag (nr_rlc_ue_manager st) -> same_context st (with_manager st m).
Proof. intros H. by split. Qed.

Lemma may_deliver_same st st' : same_context st st' -> may_deliver st' = may_deliver st.
Proof. intros (_ & H1 & H2). unfold may_deliver. by rewrite H1, H2. Qed.

Lemma upward_same st st' rnti s ev : same_context st st' -> upward st' rnti s ev = upward st rnti s ev.
Proof. intros (_ & H1 & H2). unfold upward. by rewrite H1, H2. Qed.

Lemma call_rb_spec {A} st rnti s (f : nr_rlc_entity_t -> res (nr_rlc_entity_t * A)) none :
  module_wf st -> may_deliver st = true ->
  (forall b rb, b `prefix_of` rlc_events rb -> yields (fun p => b `prefix_of` rlc_events p.1) (f rb)) ->
  bearer_call st rnti s f none (call_rb st rnti s f none).
Proof.
  intros Hwf Hmay Hf. unfold call_rb, bearer_call, nr_rlc_manager_get_ue.
  destruct (bearer_get_ue _ rnti Hwf) as (i & m & ue & -> & Hi & Hr & Hue & Hwf1 & Hflag & Hslot & Hsame).
  rewrite Hi. change (st <| nr_rlc_ue_manager := m |>) with (with_manager st m).
  pose proof (same_context_with st m Hflag) as Hctx.
  destruct s as [s|]; [|by exists (with_manager st m)]. cbn [mbind option_bind]. rewrite Hslot.
  change (bearer_of (nr_rlc_ue_manager st) rnti s) with (bearer st rnti s).
  destruct (bearer st rnti s) as [rb|] eqn:Erb; [|by exists (with_manager st m)].
  change (nr_rlc_current_time (with_manager st m)) with (nr_rlc_current_time st).
  pose proof (set_time_calls rb (rlc_events rb) (nr_rlc_current_time st) (reflexivity _)) as Ht.
  destruct (rlc_set_time rb (nr_rlc_current_time st)) as [rb1| |]; cbn [rbind]; [|done|done].
  pose proof (Hf _ _ Ht) as Hf1. destruct (f rb1) as [[rb2 a]| |]; cbn [rbind]; [|done|done].
  destruct Hf1 as [new Hnew]. cbn in Hnew. rewrite Hnew, drop_app_length.
  assert (Hok : slot_ok s = true) by (eapply slot_used; [exact Hue|rewrite Hslot; exact Erb]).
  destruct (bearer_put (nr_rlc_ue_manager st) m rnti i ue s (Some rb2)) as [Hwf2 Hb]; try done.
  set (st2 := with_manager st (put_ue m i (put_slot ue s (Some rb2)))).
  assert (Hctx2 : same_context st st2) by exact (same_context_with st _ Hflag).
  match goal with |- context [run_callbacks new ?x rnti s] => change x with st2 end.
  rewrite (run_callbacks_spec new st2 rnti s);
    [|by rewrite (may_deliver_same _ _ Hctx2)|exact (slot_known _ Hok)].
  cbn [rbind]. eexists _, new. split; [reflexivity|]. split; [exact Hwf2|]. split; [exact Hctx2|]. split; [done|].
  split; [|exact Hb].
  change (messages st ++ omap (upward st2 rnti s) new = messages st ++ omap (upward st rnti s) new).
  f_equal. apply list_omap_ext, Forall_Forall2_diag, Forall_true. intros ev. by apply upward_same.
Qed.

(** ** Properties: data *)

(** The calls that the operations make on an entity. *)
Definition recv_pdu_call (pdu : list Z) (rb : nr_rlc_entity_t) : res (nr_rlc_entity_t * unit) :=
  let* rb := rlc_recv_pdu rb pdu in Ok (rb, tt).

Definition recv_sdu_call (sdu : list Z) (mui : Z) (rb : nr_rlc_entity_t) : res (nr_rlc_entity_t * unit) :=
  let* rb := rlc_recv_sdu rb sdu mui in Ok (rb, tt).

Definition generate_pdu_call (buffer : list Z) (rb : nr_rlc_entity_t)
  : res (nr_rlc_entity_t * (list Z * Z)) :=
  let* (rb, b, n) := rlc_generate_pdu rb buffer in Ok (rb, (b, n)).

Lemma call_grows {A} (m : res nr_rlc_entity_t) (k : nr_rlc_entity_t -> res (nr_rlc_entity_t * A)) b :
  yields (begins b) m -> (forall rb, exists a, k rb = Ok (rb, a)) ->
  yields (fun p => b `prefix_of` rlc_events p.1) (rbind m k).
Proof.
  intros Hm Hk. eapply yields_bind; [exact Hm|]. intros rb Hrb. destruct (Hk rb) as [a ->]. exact Hrb.
Qed.

(** C15. The operations of RLC for MAC and PDCP are the operations of the entity of the
    addressed bearer: a PDU received, a PDU requested, the buffer status and an SDU to send go,
    with the current time, to the entity of that UE and channel; the result, an exit and a
    fault are the entity's; no other bearer of any UE changes; the SDUs delivered on the way
    go up in order, to PDCP, F1AP or GTP-U, with the RNTI and the identity of the bearer.  When
    there is no such bearer nothing changes. *)
Theorem rlc_api_refines (st : rlc_module) (rnti channel_id : Z) :
  module_wf st -> may_deliver st = true ->
  (forall pdu, bearer_call st rnti (channel_slot channel_id) (recv_pdu_call pdu) tt
    (let* st := mac_rlc_data_ind st 0 rnti 0 false channel_id pdu in Ok (st, tt))) /\
  (forall buffer, bearer_call st rnti (channel_slot channel_id) (generate_pdu_call buffer) (buffer, 0)
    (mac_rlc_data_req st rnti channel_id buffer)) /\
  bearer_call st rnti (channel_slot channel_id) bytes_in_buffer 0 (mac_rlc_status_ind st rnti channel_id) /\
  (forall frame subframe, bearer_call (nr_rlc_tick st frame subframe) rnti (channel_slot channel_id)
    bytes_in_buffer 0 (mac_rlc_get_buffer_occupancy_ind st rnti frame subframe false channel_id)) /\
  (forall srb_flag rb_id mui sdu, bearer_call st rnti (rb_slot srb_flag rb_id) (recv_sdu_call sdu mui) tt
    (let* st := rlc_data_req st rnti srb_flag rb_id mui sdu in Ok (st, tt))).
Proof.
  intros Hwf Hmay.
  assert (Hunit : forall (m : res (rlc_module * unit)),
    (let* st := let* (st, _) := m in Ok st in Ok (st, tt)) = m) by (by intros [[? []]| |]).
  repeat split; intros.
  - unfold mac_rlc_data_ind. cbn [negb orb Z.eqb]. rewrite Hunit. apply call_rb_spec; [done|done|].
    intros b rb Hb. apply call_grows; [by apply recv_pdu_calls|]. intros rb'. by exists tt.
  - apply call_rb_spec; [done|done|]. intros b rb Hb.
    eapply yields_bind; [by apply generate_pdu_calls|]. by intros [[? ?] ?].
  - apply call_rb_spec; [done|done|]. intros b rb Hb. unfold bytes_in_buffer. by apply yields_bind_any.
  - apply call_rb_spec; [unfold nr_rlc_tick; by destruct (_ || _)|unfold nr_rlc_tick; by destruct (_ || _)|].
    intros b rb Hb. unfold bytes_in_buffer. by apply yields_bind_any.
  - unfold rlc_data_req. rewrite Hunit. apply call_rb_spec; [done|done|].
    intros b rb Hb. apply call_grows; [by apply recv_sdu_calls|]. intros rb'. by exists tt.
Qed.

(** A gNB with one UE whose first DRB is in unacknowledged mode. *)
Definition sample_module : rlc_module :=
  let e := mk_um (mk_bstatus 0 0 0) 15 12 4096 2048 0 0 0 0 0 0 [] 0 100000 [] None 0 100000 empty_heap [] in
  mk_module (mk_manager [mk_ue 17 (replicate 3 None) [Some (EntityUm e); None; None; None; None]] true)
    5 0 5 true false 2 [].

Lemma sample_module_wf : module_wf sample_module.
Proof. split; [apply NoDup_singleton|]. repeat constructor. Qed.

Lemma rlc_api_refines_witness :
  exists st', (let* st := mac_rlc_data_ind sample_module 0 17 0 false 4 [0; 7; 8] in Ok (st, tt)) = Ok (st', tt) /\
    messages st' = [pdcp_data_ind 17 false 1 [7; 8]].
Proof.
  destruct (rlc_api_refines sample_module 17 4 sample_module_wf eq_refl) as (H & _).
  specialize (H [0; 7; 8]). unfold bearer_call in H.
  destruct H as (st' & new & E & _ & _ & Hev & Hmsg & _). exists st'. split; [exact E|].
  rewrite Hmsg. assert (new = [deliver_sdu [7; 8]]) as -> by (symmetry; exact Hev). reflexivity.
Defined.

(** ** Lemmas: configuration *)

(** A bearer as it is created: consistent, and nothing was called yet. *)
Definition fresh_entity (e : nr_rlc_entity_t) : Prop :=
  match e with
  | EntityAm e => am_wf e /\ events e = []
  | EntityUm e => um_wf e /\ um_events e = []
  | EntityTm _ => False
  end.

(** The entity for a bearer configuration; the parameters of an SRB are fixed. *)
Definition created_from (s : slot) (c : NR_RLC_BearerConfig) (e : nr_rlc_entity_t) : Prop :=
  match s with
  | Srb _ => new_am srb_parameters = Ok e
  | Drb _ =>
    exists r, rlc_Config c = Some r /\
      ((exists p, decode_am_config r = Ok p /\ new_am p = Ok e) \/
       (exists t n, decode_um_config r = Ok (t, n) /\ new_um t n = Ok e))
  end.

(** A new bearer comes from a configuration whose logical channel leads to it. *)
Definition new_bearer (bearers : list NR_RLC_BearerConfig) (s : slot) (e : nr_rlc_entity_t) : Prop :=
  exists c, c ∈ bearers /\ channel_slot (logicalChannelIdentity c) = Some s /\ created_from s c e /\
    fresh_entity e.

(** What a configuration may do: keep all bearers and add new ones to the UE. *)
Record config_rel (bearers : list NR_RLC_BearerConfig) (rnti : Z) (st st' : rlc_module) : Prop := {
  conf_wf : module_wf st';
  conf_context : same_context st st';
  conf_messages : messages st' = messages st;
  conf_keeps : forall rnti' s e, bearer st rnti' s = Some e -> bearer st' rnti' s = Some e;
  conf_new : forall rnti' s e, bearer st' rnti' s = Some e ->
    bearer st rnti' s = Some e \/ rnti' = rnti /\ new_bearer bearers s e
}.

Lemma same_context_trans st1 st2 st3 : same_context st1 st2 -> same_context st2 st3 -> same_context st1 st3.
Proof. intros (H1 & H2 & H3) (H4 & H5 & H6). split; [congruence|]. split; congruence. Qed.

Lemma config_refl bearers rnti st : module_wf st -> config_rel bearers rnti st st.
Proof. intros H. split; [done|done|done|done|]. intros. by left. Qed.

Lemma config_trans bearers rnti st1 st2 st3 :
  config_rel bearers rnti st1 st2 -> config_rel bearers rnti st2 st3 -> config_rel bearers rnti st1 st3.
Proof.
  intros [H1 H2 H3 H4 H5] [G1 G2 G3 G4 G5]. split; [done|by eapply same_context_trans|congruence|by eauto|].
  intros rnti' s e He. destruct (G5 _ _ _ He) as [He'|?]; [by apply H5|by right].
Qed.

Lemma new_am_fresh p e : new_am p = Ok e -> fresh_entity e.
Proof.
  unfold new_am. intros E. apply rbind_ok in E as (a & Ea & [= <-]).
  split; [by eapply new_am_wf; [exact Ea|lia]|]. unfold new_nr_rlc_entity_am in Ea.
  destruct (negb _); [discriminate Ea|]. by injection Ea as <-.
Qed.

Lemma new_um_fresh t n e : new_um t n = Ok e -> fresh_entity e.
Proof.
  unfold new_um. intros E. apply rbind_ok in E as (a & Ea & [= <-]).
  split; [by eapply new_um_wf|]. unfold new_nr_rlc_entity_um in Ea.
  destruct (negb _); [discriminate Ea|]. by injection Ea as <-.
Qed.

(** The end of the functions that add a bearer. *)
Lemma add_bearer_spec bearers st rnti s c create add st' :
  module_wf st -> add_bearer st rnti s create add = Ok st' ->
  (forall ue ue' e, add ue e = Ok ue' -> ue' = put_slot ue s (Some e) /\ slot_ok s = true) ->
  c ∈ bearers -> channel_slot (logicalChannelIdentity c) = Some s ->
  (forall e, create = Ok e -> created_from s c e /\ fresh_entity e) ->
  config_rel bearers rnti st st' /\ is_Some (bearer st' rnti s).
Proof.
  intros Hwf E Hadd Hc Hch Hcreate. unfold add_bearer, nr_rlc_manager_get_ue in E.
  destruct (bearer_get_ue _ rnti Hwf) as (i & m & ue & Eg & Hi & Hr & Hue & Hwf1 & Hflag & Hslot & Hsame).
  rewrite Eg, Hi, Hslot in E. change (bearer_of (nr_rlc_ue_manager st) rnti s) with (bearer st rnti s) in E.
  destruct (bearer st rnti s) as [e0|] eqn:Eb.
  - injection E as <-. change (st <| nr_rlc_ue_manager := m |>) with (with_manager st m).
    assert (Hsame' : forall rnti' s', bearer (with_manager st m) rnti' s' = bearer st rnti' s') by exact Hsame.
    split; [|rewrite Hsame', Eb; by eexists].
    split; [done|by apply same_context_with|done| |]; intros; rewrite Hsame' in *; tauto.
  - apply rbind_ok in E as (e & Ee & E). apply rbind_ok in E as (ue' & Eu & [= <-]).
    destruct (Hadd _ _ _ Eu) as [-> Hok]. destruct (Hcreate _ Ee) as [Hfrom Hfresh].
    destruct (bearer_put (nr_rlc_ue_manager st) m rnti i ue s (Some e)) as [Hwf2 Hb]; try done.
    set (st' := st <| nr_rlc_ue_manager := _ |>) in *.
    assert (Hb' : forall rnti' s', bearer st' rnti' s' =
      if decide (rnti' = rnti /\ s' = s) then Some e else bearer st rnti' s') by exact Hb.
    split; [split; [exact Hwf2|by apply same_context_with|done| |]|].
    + intros rnti' s' e' He'. rewrite Hb'. destruct (decide _) as [[-> ->]|]; [congruence|done].
    + intros rnti' s' e'. rewrite Hb'. destruct (decide _) as [[-> ->]|]; [|by left].
      intros [= <-]. right. split; [done|]. by exists c.
    + rewrite Hb', decide_True by done. by eexists.
Qed.

Lemma add_rlc_srb_spec bearers st rnti id c st' :
  module_wf st -> c ∈ bearers -> add_rlc_srb st rnti id c = Ok st' ->
  config_rel bearers rnti st st' /\ is_Some (bearer st' rnti (Srb (Z.to_nat (id - 1)))).
Proof.
  intros Hwf Hc E. unfold add_rlc_srb in E. destruct (_ && _) eqn:Hid; [done|].
  destruct (negb (logicalChannelIdentity c =? id)) eqn:Hl; [done|]. apply negb_false_iff, Z.eqb_eq in Hl.
  apply rbind_ok in E as (g & _ & E). destruct (negb (g =? 0)); [done|].
  apply rbind_ok in E as (r & _ & E). apply rbind_ok in E as (? & _ & E).
  assert (Hid' : id = 1 \/ id = 2) by (apply andb_false_iff in Hid; rewrite !negb_false_iff, !Z.eqb_eq in Hid; tauto).
  eapply add_bearer_spec; [done|exact E|intros ? ? ?; apply add_srb_slot|exact Hc| |].
  - rewrite Hl. by destruct Hid' as [-> | ->].
  - intros e Ee. split; [exact Ee|by eapply new_am_fresh].
Qed.

Lemma drb_channel id c :
  negb ((1 <=? id) && (id <=? 5)) = false -> negb (logicalChannelIdentity c =? id + 3) = false ->
  channel_slot (logicalChannelIdentity c) = Some (Drb (Z.to_nat (id - 1))).
Proof.
  rewrite !negb_false_iff, andb_true_iff, Z.eqb_eq, !Z.leb_le. intros Hid ->. unfold channel_slot.
  rewrite (proj2 (Z.leb_le 1 _)) by lia. rewrite (proj2 (Z.leb_gt _ 3)) by lia.
  rewrite (proj2 (Z.leb_le 4 _)) by lia. rewrite (proj2 (Z.leb_le _ 8)) by lia. cbn. do 3 f_equal. lia.
Qed.

Lemma deref_ok {A} (p : option A) a : deref p = Ok a -> p = Some a.
Proof. destruct p; cbn; congruence. Qed.

Lemma add_drb_spec bearers st rnti id c st' :
  module_wf st -> c ∈ bearers -> add_drb st rnti id c = Ok st' ->
  config_rel bearers rnti st st' /\ is_Some (bearer st' rnti (Drb (Z.to_nat (id - 1)))).
Proof.
  intros Hwf Hc E. unfold add_drb in E. apply rbind_ok in E as (r & Er & E).
  apply deref_ok in Er. destruct r eqn:Hr; [| |done].
  - unfold add_drb_am in E. destruct (negb (_ && _)) eqn:Hid; [done|].
    destruct (negb (logicalChannelIdentity c =? _)) eqn:Hl; [done|].
    apply rbind_ok in E as (g & _ & E). rewrite Er in E; cbn [deref rbind] in E. apply rbind_ok in E as (p & Ep & E).
    eapply add_bearer_spec; [done|exact E|intros ? ? ?; apply add_drb_slot|exact Hc|by apply drb_channel|].
    intros e Ee. split; [exists r; subst r; split; [done|]; left; by exists p|by eapply new_am_fresh].
  - unfold add_drb_um in E. destruct (negb (_ && _)) eqn:Hid; [done|].
    destruct (negb (logicalChannelIdentity c =? _)) eqn:Hl; [done|].
    apply rbind_ok in E as (g & _ & E). destruct (negb (g =? 1)); [done|]. rewrite Er in E; cbn [deref rbind] in E.
    apply rbind_ok in E as ([t n] & Ep & E).
    eapply add_bearer_spec; [done|exact E|intros ? ? ?; apply add_drb_slot|exact Hc|by apply drb_channel|].
    intros e Ee. split; [exists r; subst r; split; [done|]; right; by exists t, n|by eapply new_um_fresh].
Qed.

(** The two loops, over any way [add] to add the bearer of an identity. *)
Section ConfigLoops.

Context (all : list NR_RLC_BearerConfig) (rnti : Z).
Context (add : Z -> rlc_module -> NR_RLC_BearerConfig -> res rlc_module).
Context (serves : Z -> servedRadioBearer_t -> bool) (slot_of : Z -> slot).
Context (Hadd : forall st id c st', module_wf st -> c ∈ all -> add id st c = Ok st' ->
  config_rel all rnti st st' /\ is_Some (bearer st' rnti (slot_of id))).

Lemma config_keeps_some st st' s :
  config_rel all rnti st st' -> is_Some (bearer st rnti s) -> is_Some (bearer st' rnti s).
Proof. intros H [e He]. exists e. by apply (conf_keeps _ _ _ _ H). Qed.

Lemma config_bearers_spec id l st st' :
  module_wf st -> l ⊆ all -> config_bearers (add id) (serves id) l st = Ok st' ->
  config_rel all rnti st st' /\
  forall c b, c ∈ l -> servedRadioBearer c = Some b -> serves id b = true -> is_Some (bearer st' rnti (slot_of id)).
Proof.
  revert st. induction l as [|c l IH]; intros st Hwf Hl E; cbn [config_bearers] in E.
  - injection E as <-. split; [by apply config_refl|]. intros c b Hc. by apply not_elem_of_nil in Hc.
  - apply rbind_ok in E as (st1 & E1 & E).
    assert (config_rel all rnti st st1 /\ (forall b, servedRadioBearer c = Some b -> serves id b = true ->
      is_Some (bearer st1 rnti (slot_of id)))) as [H1 Hs1].
    { destruct (servedRadioBearer c) as [b|]; [destruct (serves id b) eqn:Es|].
      - assert (Hc : c ∈ all) by (apply Hl; by left). destruct (Hadd st id c st1 Hwf Hc E1) as [G1 G2]. done.
      - injection E1 as <-. split; [by apply config_refl|]. intros b' [= <-] Hb. congruence.
      - injection E1 as <-. split; [by apply config_refl|done]. }
    destruct (IH st1 (conf_wf _ _ _ _ H1)) as [H2 Hs2]; [intros x Hx; apply Hl; by right|exact E|].
    split; [by eapply config_trans|]. intros c' b Hc' Hb Hsb. apply elem_of_cons in Hc' as [-> |Hc'].
    + apply (config_keeps_some _ _ _ H2). by eapply Hs1.
    + by eapply Hs2.
Qed.

Lemma config_list_spec ids st st' :
  module_wf st -> config_list (fun id => config_bearers (add id) (serves id) all) ids st = Ok st' ->
  config_rel all rnti st st' /\
  forall id c b, id ∈ ids -> c ∈ all -> servedRadioBearer c = Some b -> serves id b = true ->
    is_Some (bearer st' rnti (slot_of id)).
Proof.
  revert st. induction ids as [|id ids IH]; intros st Hwf E; cbn [config_list] in E.
  - injection E as <-. split; [by apply config_refl|]. intros id c b Hid. by apply not_elem_of_nil in Hid.
  - apply rbind_ok in E as (st1 & E1 & E).
    destruct (config_bearers_spec id all st st1) as [H1 Hs1]; try done.
    destruct (IH st1 (conf_wf _ _ _ _ H1) E) as [H2 Hs2].
    split; [by eapply config_trans|]. intros id' c b Hid Hc Hb Hsb. apply elem_of_cons in Hid as [-> |Hid].
    + apply (config_keeps_some _ _ _ H2). by eapply Hs1.
    + by eapply Hs2.
Qed.

End ConfigLoops.

(** ** Properties: configuration *)

(** A configuration that returns keeps every bearer there was, of any UE, as it was, and
    sends nothing.  A bearer that is new belongs to the configured UE, comes from one of the
    given bearer configurations (with the decoded parameters for a DRB, fixed ones for an SRB),
    is consistent, and is the one that the logical channel of its configuration leads to.
    Every SRB and DRB of the lists that some configuration serves is there afterwards. *)
Theorem rlc_config_bearers (st st' : rlc_module) (rnti : Z) (srbs drbs : list Z)
    (bearers : list NR_RLC_BearerConfig) :
  module_wf st ->
  nr_rrc_rlc_config_asn1_req st 0 rnti false (Some srbs) (Some drbs) (Some bearers) = Ok st' ->
  config_rel bearers rnti st st' /\
  (forall id c, id ∈ srbs -> c ∈ bearers -> servedRadioBearer c = Some (srb_Identity id) ->
    is_Some (bearer st' rnti (Srb (Z.to_nat (id - 1))))) /\
  (forall id c, id ∈ drbs -> c ∈ bearers -> servedRadioBearer c = Some (drb_Identity id) ->
    is_Some (bearer st' rnti (Drb (Z.to_nat (id - 1))))).
Proof.
  intros Hwf E. unfold nr_rrc_rlc_config_asn1_req in E. cbn [negb Z.eqb] in E.
  apply rbind_ok in E as (st1 & E1 & E2).
  destruct (config_list_spec bearers rnti (fun id st c => add_rlc_srb st rnti id c) serves_srb
    (fun id => Srb (Z.to_nat (id - 1))) (fun st id c st' H => add_rlc_srb_spec bearers st rnti id c st' H)
    srbs st st1 Hwf E1) as [H1 Hs1].
  destruct (config_list_spec bearers rnti (fun id st c => add_drb st rnti id c) serves_drb
    (fun id => Drb (Z.to_nat (id - 1))) (fun st id c st' H => add_drb_spec bearers st rnti id c st' H)
    drbs st1 st' (conf_wf _ _ _ _ H1) E2) as [H2 Hs2].
  split; [by eapply config_trans|]. split; intros id c Hid Hc Hb.
  - apply (config_keeps_some _ _ _ _ _ H2). eapply (Hs1 id c _ Hid Hc Hb). apply Z.eqb_refl.
  - eapply (Hs2 id c _ Hid Hc Hb). apply Z.eqb_refl.
Qed.

(** The DRB that the gNB configures by default. *)
Definition default_drb : NR_RLC_BearerConfig :=
  let c := nr_rlc_bearer_init_ul_spec (nr_rlc_bearer_init servedRadioBearer_PR_drb_Identity) in
  mk_bearer_config (logicalChannelIdentity c) (logicalChannelGroup c) (servedRadioBearer c)
    (Some (nr_drb_config NR_RLC_Config_PR_um_Bi_Directional)).

Lemma rlc_config_bearers_witness :
  exists st', nr_rrc_rlc_config_asn1_req sample_module 0 18 false (Some []) (Some [1]) (Some [default_drb]) = Ok st' /\
    is_Some (bearer st' 18 (Drb 0)) /\ bearer st' 17 (Drb 0) = bearer sample_module 17 (Drb 0).
Proof.
  eexists. split; [vm_compute; reflexivity|].
  match goal with |- context [bearer ?st _ _] => destruct (rlc_config_bearers sample_module st 18 [] [1] [default_drb])
    as (Hrel & _ & Hdrb) end; [exact sample_module_wf|vm_compute; reflexivity|]. split.
  - apply (Hdrb 1 default_drb); [by left|by left|reflexivity].
  - apply (conf_keeps _ _ _ _ Hrel). reflexivity.
Defined.

(** ** Lemmas: removal *)

Lemma no_bearer_spec ue : ue_wf ue -> no_bearer ue = true <-> forall s, get_slot ue s = None.
Proof.
  intros (H1 & H2 & H3). unfold no_bearer.
  destruct ue as [r [|s0 [|s1 [|s2 [|]]]] [|d0 [|d1 [|d2 [|d3 [|d4 [|]]]]]]]; try done.
  cbn in H3. injection H3 as ->. split.
  - destruct s0, s1, d0, d1, d2, d3, d4; try done. intros _ [[|[|[|i]]]|[|[|[|[|[|i]]]]]]; reflexivity.
  - intros H. pose proof (H (Srb 0)). pose proof (H (Srb 1)). pose proof (H (Drb 0)). pose proof (H (Drb 1)).
    pose proof (H (Drb 2)). pose proof (H (Drb 3)). pose proof (H (Drb 4)). cbn in *. by subst.
Qed.

Lemma delete_no_bearer (ue : ue_t nr_rlc_entity_t) :
  no_bearer ue = true -> delete_slots (take 2 (srb ue)) = Ok [] /\ delete_slots (take 5 (drb ue)) = Ok [].
Proof.
  assert (H : forall l : list (option nr_rlc_entity_t),
    forallb (fun e => match e with None => true | Some _ => false end) l = true -> delete_slots l = Ok []).
  { induction l as [|[e|] l IH]; [done|done|]. apply IH. }
  unfold no_bearer. rewrite forallb_app, andb_true_iff. intros [H1 H2]. split; by apply H.
Qed.

(** A UE without bearers is removed without a deletion. *)
Lemma remove_no_bearer (m : nr_rlc_ue_manager_t) ue :
  manager_wf m -> abs_manager m !! ue_rnti ue = Some ue -> no_bearer ue = true ->
  exists m', nr_rlc_manager_remove_ue m (ue_rnti ue) = Ok ([], m').
Proof.
  intros [Hnd Hwf] Hin Hno. unfold nr_rlc_manager_remove_ue, manager_remove_ue.
  pose proof (find_ue_spec (ue_list m) (ue_rnti ue)) as Hf. destruct (find_ue _ _) as [i|].
  - destruct Hf as (u & l1 & l2 & Hl & <- & Hr & _). rewrite Hl, list_lookup_middle by done.
    assert (Hu : u ∈ ue_list m) by (rewrite Hl; apply elem_of_app; right; left).
    pose proof (abs_lookup_in m u Hnd Hu) as Habs. rewrite Hr, Hin in Habs. injection Habs as <-.
    destruct (delete_no_bearer ue Hno) as [-> ->]. by eexists.
  - by rewrite (abs_lookup_none m _ Hf) in Hin.
Qed.

Lemma remove_ue_bearers st rnti d m :
  module_wf st -> nr_rlc_manager_remove_ue (nr_rlc_ue_manager st) rnti = Ok (d, m) ->
  module_wf (with_manager st m) /\ messages (with_manager st m) = messages st /\
  forall rnti' s', bearer (with_manager st m) rnti' s' = if decide (rnti' = rnti) then None else bearer st rnti' s'.
Proof.
  intros Hwf E. destruct (bearer_remove_ue _ _ _ _ Hwf E) as (Hm & _ & Hb). done.
Qed.

(** The end of the removal of a bearer, with the UE [ue] as it is then. *)
Lemma finish_removal st m rnti ue (P : Z -> slot -> option nr_rlc_entity_t) :
  module_wf (with_manager st m) -> abs_manager m !! rnti = Some ue -> ue_rnti ue = rnti -> ue_wf ue ->
  (forall rnti' s', bearer (with_manager st m) rnti' s' = P rnti' s') ->
  exists st', (let* m := (if no_bearer ue then let* (_, m) := nr_rlc_manager_remove_ue m rnti in Ok m else Ok m) in
               Ok (with_manager st m)) = Ok st' /\
    module_wf st' /\ messages st' = messages st /\ (forall rnti' s', bearer st' rnti' s' = P rnti' s') /\
    (abs_manager (nr_rlc_ue_manager st') !! rnti = None <-> forall s', bearer st' rnti s' = None).
Proof.
  intros Hwf Habs Hr Hue HP. destruct (no_bearer ue) eqn:Hno.
  - destruct (remove_no_bearer m ue) as [m' E]; [exact Hwf|by rewrite Hr|done|].
    rewrite Hr in E. rewrite E. cbn [rbind].
    destruct (remove_ue_bearers (with_manager st m) rnti [] m' Hwf E) as (Hwf2 & _ & Hb).
    exists (with_manager st m'). split; [done|]. split; [exact Hwf2|]. split; [done|].
    assert (Hnone : forall s', bearer (with_manager st m) rnti s' = None).
    { intros s'. change (bearer_of m rnti s' = None). unfold bearer_of. rewrite Habs.
      cbn [mbind option_bind]. by apply no_bearer_spec. }
    split; [|split; [|]].
    + intros rnti' s'. etrans; [exact (Hb rnti' s')|]. rewrite <- HP.
      destruct (decide (rnti' = rnti)) as [->|]; [by rewrite Hnone|done].
    + intros _ s'. etrans; [exact (Hb rnti s')|]. by rewrite decide_True.
    + intros _. by destruct (bearer_remove_ue _ _ _ _ Hwf E) as (_ & Hd & _).
  - cbn [rbind]. eexists. split; [done|]. split; [exact Hwf|]. split; [done|]. split; [exact HP|].
    change (nr_rlc_ue_manager (with_manager st m)) with m. rewrite Habs. split; [done|]. intros Hall.
    assert (no_bearer ue = true); [|congruence]. apply no_bearer_spec; [done|]. intros s'.
    specialize (Hall s'). change (bearer_of m rnti s' = None) in Hall. unfold bearer_of in Hall.
    by rewrite Habs in Hall.
Qed.

(** ** Properties: removal *)

(** Removal.  When the entity of the bearer can be deleted, [rrc_rlc_config_req] returns:
    exactly that bearer is gone, and its UE is gone if and only if it has no bearer left.
    [rrc_rlc_remove_ue] removes all bearers of the UE and no others. *)
Theorem rlc_remove_bearer (st : rlc_module) (rnti rb_id : Z) (srb_flag : bool) (s : slot) :
  module_wf st -> rb_slot srb_flag rb_id = Some s ->
  (forall e, bearer st rnti s = Some e -> exists h, rlc_delete e = Ok h) ->
  (exists st', rrc_rlc_config_req st 0 rnti srb_flag false CONFIG_ACTION_REMOVE rb_id = Ok st' /\
    module_wf st' /\ messages st' = messages st /\
    (forall rnti' s', bearer st' rnti' s' =
      if decide (rnti' = rnti /\ s' = s) then None else bearer st rnti' s') /\
    (abs_manager (nr_rlc_ue_manager st') !! rnti = None <-> forall s', bearer st' rnti s' = None)) /\
  (forall st', rrc_rlc_remove_ue st rnti = Ok st' ->
    module_wf st' /\ messages st' = messages st /\
    forall rnti' s', bearer st' rnti' s' = if decide (rnti' = rnti) then None else bearer st rnti' s').
Proof.
  intros Hwf Es Hdel. split.
  - unfold rrc_rlc_config_req. cbn [negb Z.eqb CONFIG_ACTION_REMOVE Pos.eqb]. rewrite Es.
    unfold nr_rlc_manager_get_ue.
    destruct (bearer_get_ue _ rnti Hwf) as (i & m & ue & -> & Hi & Hr & Hue & Hwf1 & _ & Hslot & Hsame).
    change (forall s, get_slot ue s = bearer st rnti s) in Hslot. rewrite Hi.
    assert (exists ue1, (match get_slot ue s with
        | Some e => let* _ := rlc_delete e in Ok (put_slot ue s None) | None => Ok ue end) = Ok ue1 /\
      ue_rnti ue1 = rnti /\ ue_wf ue1 /\
      forall s', get_slot ue1 s' = if decide (s' = s) then None else get_slot ue s') as (ue1 & -> & Hr1 & Hue1 & Hg).
    { rewrite Hslot. destruct (bearer st rnti s) as [e|] eqn:Eb.
      - destruct (Hdel e eq_refl) as [h ->]. exists (put_slot ue s None).
        assert (Hok : slot_ok s = true) by (eapply slot_used; [exact Hue|by rewrite Hslot]).
        split; [done|]. split; [by destruct s|]. split; [by apply put_slot_wf|]. intros. by apply get_put_slot.
      - exists ue. do 3 (split; [done|]). intros s'. destruct (decide (s' = s)) as [->|]; [by rewrite Hslot|done]. }
    cbn [rbind]. destruct (bearer_put_ue m rnti i ue ue1) as (Hwf2 & Habs & Hb); try done.
    eapply finish_removal; try done.
    intros rnti' s'. etrans; [exact (Hb rnti' s')|]. rewrite Hg, Hslot, Hsame.
    destruct (decide (rnti' = rnti)) as [->|]; [|by rewrite decide_False by tauto].
    destruct (decide (s' = s)); [by rewrite decide_True|by rewrite decide_False by tauto].
  - intros st' E. unfold rrc_rlc_remove_ue in E. apply rbind_ok in E as ([d m] & E & [= <-]).
    by eapply remove_ue_bearers.
Qed.

Lemma rlc_remove_bearer_witness :
  exists st', rrc_rlc_config_req sample_module 0 17 false false CONFIG_ACTION_REMOVE 1 = Ok st' /\
    bearer st' 17 (Drb 0) = None /\ abs_manager (nr_rlc_ue_manager st') !! 17 = None.
Proof.
  destruct (rlc_remove_bearer sample_module 17 1 false (Drb 0)) as [(st' & E & _ & _ & Hb & Hue) _].
  - exact sample_module_wf.
  - reflexivity.
  - intros e [= <-]. eexists. reflexivity.
  - exists st'. split; [exact E|]. split; [rewrite Hb; by rewrite decide_True|].
    apply Hue. intros s'. rewrite Hb. destruct (decide _) as [|Hne]; [done|].
    destruct s' as [[|[|[|i]]]|[|[|[|[|[|i]]]]]]; try reflexivity. by destruct Hne.
Defined.
