(* ===== verification/PdcpQueue.v ===== *)
(** The queues between the threads of PDCP and RLC: the [rlc_data_req] queue and the
    [pdcp_data_ind] queue of [nr_pdcp_oai_api.c].

    Both are the same code over two kinds of items: an array used as a ring, with its start
    and its length, filled under a mutex by any thread and emptied by one thread of its own,
    which calls the next layer outside of that mutex.  The model is generic in the items.
    What is done under the mutex of a queue is one step; waiting on its condition variable is
    a step that is not enabled.

    The theorems: for any interleaving the queue is a FIFO of its items ([queue_fifo]) and its
    thread empties it ([queue_drains]). *)

From S2P Require Import Prelude.

Definition RLC_DATA_REQ_QUEUE_SIZE : Z := 10000.
Definition PDCP_DATA_IND_QUEUE_SIZE : Z := 10000.

(** ** The ring *)

Section Ring.

Context {item : Type} (size : Z).

Record queue_t := mk_queue {
  q_items : list item;
  q_start : Z;
  q_length : Z
}.

(** The static variable before any thread runs. *)
Definition empty_queue (zero : item) : queue_t := mk_queue (replicate (Z.to_nat size) zero) 0 0.

(** The critical section of the functions [enqueue_...]; [None] while the caller waits for
    room. *)
Definition enqueue (q : queue_t) (x : item) : option queue_t :=
  if q_length q =? size then None
  else
    let i := cmod (q_start q + q_length q) size in
    Some (mk_queue (<[Z.to_nat i := x]> (q_items q)) (q_start q) (q_length q + 1)).

(** The first critical section of the thread: the index of the next item; [None] while it
    waits for one. *)
Definition next_index (q : queue_t) : option Z :=
  if q_length q =? 0 then None else Some (q_start q).

(** Its second critical section, after the call. *)
Definition release (q : queue_t) : queue_t :=
  mk_queue (q_items q) (cmod (q_start q + 1) size) (q_length q - 1).

(** ** The threads *)

(** Where the thread of the queue is: before its first critical section, between it and the
    call (it reads the item [q.q[i]] for the call), or behind the call. *)
Inductive thread_pc : Type :=
| Waiting
| Calling (i : Z)
| Returned.

(** The queue and its thread; [sent] are the items given to [enqueue_...] so far, [called]
    those the thread has made its call with. *)
Record system_t := mk_system {
  queue : queue_t;
  pc : thread_pc;
  sent : list item;
  called : list item
}.

Inductive queue_step : system_t -> system_t -> Prop :=
| step_enqueue s x q' :
    enqueue (queue s) x = Some q' ->
    queue_step s (mk_system q' (pc s) (sent s ++ [x]) (called s))
| step_next s i :
    pc s = Waiting -> next_index (queue s) = Some i ->
    queue_step s (mk_system (queue s) (Calling i) (sent s) (called s))
| step_call s i x :
    pc s = Calling i -> q_items (queue s) !! Z.to_nat i = Some x ->
    queue_step s (mk_system (queue s) Returned (sent s) (called s ++ [x]))
| step_release s :
    pc s = Returned ->
    queue_step s (mk_system (release (queue s)) Waiting (sent s) (called s)).

Definition init_system (zero : item) : system_t := mk_system (empty_queue zero) Waiting [] [].

(** The step of the thread alone, as a function; [None] when it waits. *)
Definition thread_turn (s : system_t) : option system_t :=
  match pc s with
  | Waiting =>
    match next_index (queue s) with
    | Some i => Some (mk_system (queue s) (Calling i) (sent s) (called s))
    | None => None
    end
  | Calling i =>
    match q_items (queue s) !! Z.to_nat i with
    | Some x => Some (mk_system (queue s) Returned (sent s) (called s ++ [x]))
    | None => None
    end
  | Returned => Some (mk_system (release (queue s)) Waiting (sent s) (called s))
  end.

(** ** Lemmas *)

Context (size_pos : 0 < size).

(** The ring holds the items [l], oldest first. *)
Record holds (q : queue_t) (l : list item) : Prop := {
  h_items : Z.of_nat (length (q_items q)) = size;
  h_start : 0 <= q_start q < size;
  h_length : q_length q = Z.of_nat (length l);
  h_room : Z.of_nat (length l) <= size;
  h_at : forall k x, l !! k = Some x ->
    q_items q !! Z.to_nat (cmod (q_start q + Z.of_nat k) size) = Some x
}.

Lemma ring_index a k : 0 <= a < size -> 0 <= k < size ->
  cmod (a + k) size = if a + k <? size then a + k else a + k - size.
Proof.
  intros Ha Hk. rewrite cmod_pos by lia. destruct (Z.ltb_spec (a + k) size).
  - apply Z.mod_small. lia.
  - symmetry. apply Z.mod_unique_pos with 1; lia.
Qed.

Lemma empty_holds zero : holds (empty_queue zero) [].
Proof. split; cbn; rewrite ?length_replicate; try lia. intros k x H. by rewrite lookup_nil in H. Qed.

Lemma enqueue_holds q l x q' : holds q l -> enqueue q x = Some q' -> holds q' (l ++ [x]).
Proof.
  intros [H1 H2 H3 H4 H5] E. unfold enqueue in E. destruct (Z.eqb_spec (q_length q) size) as [|Hne]; [done|].
  injection E as <-. split; cbn; rewrite ?length_insert, ?length_app; cbn; try lia.
  intros k y Hk. apply lookup_snoc_Some in Hk as [[Hk Hy]|[-> <-]].
  - rewrite list_lookup_insert_ne; [by apply H5|]. rewrite !ring_index by lia.
    destruct (Z.ltb_spec (q_start q + q_length q) size), (Z.ltb_spec (q_start q + Z.of_nat k) size); lia.
  - rewrite H3. apply list_lookup_insert_eq. rewrite ring_index by lia.
    destruct (Z.ltb_spec (q_start q + Z.of_nat (length l)) size); lia.
Qed.

Lemma release_holds q x l : holds q (x :: l) -> holds (release q) l.
Proof.
  intros [H1 H2 H3 H4 H5]. cbn [length] in *. unfold release.
  assert (Hs : cmod (q_start q + 1) size = if q_start q + 1 <? size then q_start q + 1 else q_start q + 1 - size).
  { rewrite cmod_pos by lia. destruct (Z.ltb_spec (q_start q + 1) size); [by apply Z.mod_small; lia|].
    assert (q_start q + 1 = size) as -> by lia. rewrite Z_mod_same_full. lia. }
  split; cbn [q_items q_start q_length]; [done| |lia|lia|].
  - rewrite Hs. destruct (Z.ltb_spec (q_start q + 1) size); lia.
  - intros k y Hk. pose proof (lookup_lt_Some _ _ _ Hk).
    rewrite <- (H5 (S k) y Hk). f_equal. rewrite (ring_index (q_start q) (Z.of_nat (S k))) by lia. rewrite Hs.
    rewrite (ring_index _ (Z.of_nat k)); [|destruct (Z.ltb_spec (q_start q + 1) size); lia|lia].
    destruct (Z.ltb_spec (q_start q + 1) size), (Z.ltb_spec (q_start q + Z.of_nat (S k)) size);
      repeat match goal with |- context [?a <? ?b] => destruct (Z.ltb_spec a b) end; lia.
Qed.

Lemma head_of_ring q x l : holds q (x :: l) -> q_items q !! Z.to_nat (q_start q) = Some x.
Proof.
  intros [H1 H2 H3 H4 H5]. rewrite <- (H5 0%nat x eq_refl). f_equal. rewrite ring_index by (cbn in *; lia).
  destruct (Z.ltb_spec (q_start q + Z.of_nat 0) size); lia.
Qed.

(** The invariant: what was sent is what was called, then what is pending; the item that the
    thread works on stays at the head of the ring until it is released. *)
Definition queue_inv (s : system_t) : Prop :=
  match pc s with
  | Waiting => exists l, holds (queue s) l /\ sent s = called s ++ l
  | Calling i => exists x l, i = q_start (queue s) /\ holds (queue s) (x :: l) /\ sent s = called s ++ x :: l
  | Returned => exists x l, holds (queue s) (x :: l) /\ sent s = called s ++ l
  end.

Lemma queue_step_inv s s' : queue_inv s -> queue_step s s' -> queue_inv s'.
Proof.
  intros Hinv Hstep. unfold queue_inv in Hinv. destruct Hstep as [s x q' E|s i Hp E|s i x Hp E|s Hp]; unfold queue_inv;
    cbn [queue pc sent called].
  - destruct (pc s).
    + destruct Hinv as (l & Hh & Hs). exists (l ++ [x]). split; [by eapply enqueue_holds|]. by rewrite Hs, app_assoc.
    + destruct Hinv as (y & l & Hi & Hh & Hs). exists y, (l ++ [x]). pose proof (enqueue_holds _ _ _ _ Hh E).
      split; [|split; [done|by rewrite Hs, <- app_assoc]]. unfold enqueue in E. destruct (_ =? _); [done|].
      by injection E as <-.
    + destruct Hinv as (y & l & Hh & Hs). exists y, (l ++ [x]).
      split; [exact (enqueue_holds _ _ _ _ Hh E)|]. by rewrite Hs, app_assoc.
  - rewrite Hp in Hinv. destruct Hinv as (l & Hh & Hs). unfold next_index in E.
    destruct (Z.eqb_spec (q_length (queue s)) 0) as [|Hne]; [done|]. injection E as <-.
    destruct l as [|x l]; [by destruct Hh; cbn in *; lia|]. by exists x, l.
  - rewrite Hp in Hinv. destruct Hinv as (y & l & -> & Hh & Hs). rewrite (head_of_ring _ _ _ Hh) in E.
    injection E as <-. exists y, l. split; [done|]. by rewrite Hs, <- app_assoc.
  - rewrite Hp in Hinv. destruct Hinv as (y & l & Hh & Hs). exists l. split; [by eapply release_holds|done].
Qed.

Lemma reachable_inv zero s : rtc queue_step (init_system zero) s -> queue_inv s.
Proof.
  intros H. assert (Hi : queue_inv (init_system zero)) by (exists []; split; [apply empty_holds|done]).
  induction H as [|s1 s2 s3 H12 H23 IH]; [done|]. apply IH. by eapply queue_step_inv.
Qed.

End Ring.

Arguments queue_t item : clear implicits.
Arguments system_t item : clear implicits.

(** ** The two queues *)

(** The context of an item is reduced to what its use reads. *)
Record rlc_data_req_queue_item := mk_rlc_item {
  ri_rnti : Z;
  ri_srb_flag : bool;
  ri_rb_id : Z;
  ri_mui : Z;
  ri_sdu : list Z
}.

Record pdcp_data_ind_queue_item := mk_pdcp_item {
  pi_rnti : Z;
  pi_srb_flag : bool;
  pi_rb_id : Z;
  pi_sdu_buffer : list Z
}.

Definition enqueue_rlc_data_req (q : queue_t rlc_data_req_queue_item) (x : rlc_data_req_queue_item)
  : option (queue_t rlc_data_req_queue_item) :=
  enqueue RLC_DATA_REQ_QUEUE_SIZE q x.

Definition enqueue_pdcp_data_ind (q : queue_t pdcp_data_ind_queue_item) (x : pdcp_data_ind_queue_item)
  : option (queue_t pdcp_data_ind_queue_item) :=
  enqueue PDCP_DATA_IND_QUEUE_SIZE q x.

(** ** Properties of a queue *)

(** C35. A queue of any size refines a FIFO, whatever the interleaving of the threads that fill
    it with the thread that empties it: the calls are made with the items sent, in the order
    they were sent, each at most once, and at most [size] of them are pending.  The item that
    the thread reads outside of the mutex is the oldest pending one: no thread has overwritten
    it. *)
Theorem queue_fifo {item} (size : Z) (zero : item) (s : system_t item) :
  0 < size -> rtc (queue_step size) (init_system size zero) s ->
  exists pending, sent s = called s ++ pending /\ Z.of_nat (length pending) <= size /\
    forall i, pc s = Calling i -> exists x rest, pending = x :: rest /\
      q_items (queue s) !! Z.to_nat i = Some x.
Proof.
  intros Hpos H. apply reachable_inv in H; [|done]. unfold queue_inv in H. destruct (pc s) as [|i|].
  - destruct H as (l & Hh & Hs). exists l. split; [done|]. split; [by apply Hh|done].
  - destruct H as (x & l & -> & Hh & Hs). exists (x :: l). split; [done|]. split; [by apply Hh|].
    intros i [= <-]. exists x, l. split; [done|]. by eapply head_of_ring.
  - destruct H as (x & l & Hh & Hs). exists l. split; [done|].
    split; [|done]. pose proof (h_room _ _ _ Hh). cbn in *. lia.
Qed.

Lemma queue_fifo_witness :
  exists s, rtc (queue_step 2) (init_system 2 0) s /\ called s = [7] /\ exists pending, sent s = called s ++ pending.
Proof.
  assert (H : rtc (queue_step 2) (init_system 2 0)
    (mk_system (mk_queue [7; 8] 0 2) Returned [7; 8] [7])).
  { eapply rtc_l; [by apply (step_enqueue 2 _ 7)|]. eapply rtc_l; [by apply step_next|].
    eapply rtc_l; [by apply (step_enqueue 2 _ 8)|]. eapply rtc_l; [by eapply step_call|]. apply rtc_refl. }
  eexists. split; [exact H|]. split; [reflexivity|].
  destruct (queue_fifo 2 0 _ ltac:(lia) H) as (pending & Hp & _). by exists pending.
Defined.

(** The thread alone, for a number of turns. *)
Fixpoint run_thread {item} (size : Z) (n : nat) (s : system_t item) : system_t item :=
  match n with
  | O => s
  | S n => match thread_turn size s with Some s' => run_thread size n s' | None => s end
  end.

(** The call and the release of the oldest item. *)
Lemma run_call {item} size n (s : system_t item) x l :
  0 < size -> pc s = Calling (q_start (queue s)) -> holds size (queue s) (x :: l) ->
  run_thread size (S (S n)) s
  = run_thread size n (mk_system (release size (queue s)) Waiting (sent s) (called s ++ [x])).
Proof.
  intros Hpos Hpc Hh. cbn [run_thread]. unfold thread_turn at 1. by rewrite Hpc, (head_of_ring size Hpos _ _ _ Hh).
Qed.

Lemma run_next {item} size n (s : system_t item) x l :
  pc s = Waiting -> holds size (queue s) (x :: l) ->
  run_thread size (S n) s
  = run_thread size n (mk_system (queue s) (Calling (q_start (queue s))) (sent s) (called s)).
Proof.
  intros Hpc Hh. cbn [run_thread]. unfold thread_turn at 1. rewrite Hpc. unfold next_index.
  by rewrite (proj2 (Z.eqb_neq (q_length (queue s)) 0)) by (rewrite (h_length _ _ _ Hh); cbn; lia).
Qed.

Lemma drain_waiting {item} size (n : nat) (s : system_t item) l :
  0 < size -> pc s = Waiting -> holds size (queue s) l -> sent s = called s ++ l -> (3 * length l <= n)%nat ->
  let s' := run_thread size n s in pc s' = Waiting /\ called s' = sent s /\ sent s' = sent s /\ holds size (queue s') [].
Proof.
  intros Hpos. revert n s. induction l as [|x l IH]; intros n s Hpc Hh Hs Hn.
  - assert (run_thread size n s = s) as ->.
    { destruct n; [done|]. cbn [run_thread]. unfold thread_turn. rewrite Hpc. unfold next_index.
      rewrite (h_length _ _ _ Hh). done. }
    rewrite app_nil_r in Hs. cbv zeta. by rewrite Hs.
  - cbn [length] in Hn. destruct n as [|[|[|n]]]; try lia. cbv zeta.
    rewrite (run_next _ _ _ x l Hpc Hh).
    rewrite (run_call _ _ (mk_system _ _ _ _) x l Hpos eq_refl Hh).
    apply (IH n (mk_system (release size (queue s)) Waiting (sent s) (called s ++ [x])));
      [done|by eapply release_holds|cbn [sent called]; by rewrite Hs, <- app_assoc|lia].
Qed.

(** When no more items come, the thread of a queue calls all that are pending, in a number
    of its own turns that the pending items bound, and leaves the queue empty: nothing is
    left behind, wherever the thread was. *)
Theorem queue_drains {item} (size : Z) (zero : item) (s : system_t item) :
  0 < size -> rtc (queue_step size) (init_system size zero) s ->
  let s' := run_thread size (3 * length (sent s) + 3) s in
  called s' = sent s /\ sent s' = sent s /\ q_length (queue s') = 0 /\ pc s' = Waiting.
Proof.
  intros Hpos H. apply reachable_inv in H; [|done]. unfold queue_inv in H.
  assert (Hdrain : forall n t l, pc t = Waiting -> holds size (queue t) l -> sent t = called t ++ l -> sent t = sent s ->
    (3 * length l <= n)%nat -> let t' := run_thread size n t in
    called t' = sent s /\ sent t' = sent s /\ q_length (queue t') = 0 /\ pc t' = Waiting).
  { intros n t l Hpc Hh Hs Hst Hn. destruct (drain_waiting size n t l Hpos Hpc Hh Hs Hn) as (H1 & H2 & H3 & H4).
    cbv zeta. rewrite <- Hst. split; [done|]. split; [done|]. split; [apply (h_length _ _ _ H4)|done]. }
  assert (Hlen : forall l, sent s = called s ++ l -> (length l <= length (sent s))%nat).
  { intros l ->. rewrite length_app. lia. }
  destruct (pc s) as [|i|] eqn:Hpc.
  - destruct H as (l & Hh & Hs). eapply Hdrain; try done. specialize (Hlen l Hs). lia.
  - destruct H as (x & l & -> & Hh & Hs). specialize (Hlen _ Hs). cbn [length] in Hlen.
    replace (3 * length (sent s) + 3)%nat with (S (S (3 * length (sent s) + 1))) by lia.
    cbv zeta. rewrite (run_call _ _ _ x l Hpos Hpc Hh).
    eapply (Hdrain _ _ l); try done; [by eapply release_holds|cbn [sent called]; by rewrite Hs, <- app_assoc|lia].
  - destruct H as (x & l & Hh & Hs). specialize (Hlen _ Hs).
    replace (3 * length (sent s) + 3)%nat with (S (3 * length (sent s) + 2)) by lia.
    assert (thread_turn size s = Some (mk_system (release size (queue s)) Waiting (sent s) (called s))) as Et
      by (unfold thread_turn; by rewrite Hpc).
    cbv zeta. cbn [run_thread]. rewrite Et. eapply (Hdrain _ _ l); try done; [by eapply release_holds|lia].
Qed.

Lemma queue_drains_witness :
  let s := mk_system (mk_queue [7; 8] 0 2) Waiting [7; 8] [] in
  called (run_thread 2 9 s) = [7; 8] /\ q_length (queue (run_thread 2 9 s)) = 0.
Proof.
  intros s. destruct (queue_drains 2 0 s) as (H1 & _ & H2 & _); [lia| |done].
  eapply rtc_l; [by apply (step_enqueue 2 _ 7)|]. eapply rtc_l; [by apply (step_enqueue 2 _ 8)|]. apply rtc_refl.
Defined.
