(* ===== verification/PdcpLocks.v ===== *)
(** The big locks of RLC and PDCP and the two queues between them ([nr_pdcp_oai_api.c], its
    comment on deadlocks, [nr_rlc_oai_api.c] and [nr_pdcp_timer_thread.c]).

    A transition system of the threads that take these locks, with the lengths of the queues:
    - a thread of MAC in [mac_rlc_data_ind]: it holds the lock of RLC and may put SDUs into
      the [pdcp_data_ind] queue, waiting there while it is full;
    - a user of PDCP in [pdcp_data_req]: it holds the lock of PDCP and may put PDUs into the
      [rlc_data_req] queue, waiting there while it is full;
    - the threads of the two queues, which take the lock of RLC or of PDCP for their call;
    - the timer thread of PDCP.
    The mutexes of the queues are held for the time of one step only. *)

From S2P Require Import Prelude.
From S2P Require Import PdcpQueue.

Section Locks.

(** The sizes of the [rlc_data_req] and [pdcp_data_ind] queues. *)
Context (rlc_size pdcp_size : Z).

Inductive holder : Type :=
| MacThread | PdcpUser | RlcQueueThread | PdcpQueueThread | TimerThread.

#[export] Instance holder_eq_dec : EqDecision holder.
Proof. solve_decision. Defined.

(** A caller: outside, inside its critical section, or in [enqueue_...]. *)
Inductive caller_pc : Type := Outside | Inside | Enqueuing.

(** The thread of a queue: waiting for an item, about to lock, inside, about to release the
    item. *)
Inductive worker_pc : Type := NoItem | ToLock | InCall | Done.

Record locks_t := mk_locks {
  rlc_lock : option holder;
  pdcp_lock : option holder;
  rlc_len : Z;
  pdcp_len : Z;
  mac : caller_pc;
  user : caller_pc;
  rlc_worker : worker_pc;
  pdcp_worker : worker_pc;
  timer : bool
}.

#[export] Instance eta_locks : Eta locks_t := fun s =>
  mk_locks (rlc_lock s) (pdcp_lock s) (rlc_len s) (pdcp_len s) (mac s) (user s) (rlc_worker s)
    (pdcp_worker s) (timer s).

Inductive lock_step : locks_t -> locks_t -> Prop :=
(* mac_rlc_data_ind *)
| mac_lock s : mac s = Outside -> rlc_lock s = None ->
    lock_step s (s <| mac := Inside |> <| rlc_lock := Some MacThread |>)
| mac_deliver s : mac s = Inside -> lock_step s (s <| mac := Enqueuing |>)
| mac_enqueue s : mac s = Enqueuing -> pdcp_len s <> pdcp_size ->
    lock_step s (s <| mac := Inside |> <| pdcp_len := pdcp_len s + 1 |>)
| mac_unlock s : mac s = Inside -> lock_step s (s <| mac := Outside |> <| rlc_lock := None |>)
(* pdcp_data_req *)
| user_lock s : user s = Outside -> pdcp_lock s = None ->
    lock_step s (s <| user := Inside |> <| pdcp_lock := Some PdcpUser |>)
| user_deliver s : user s = Inside -> lock_step s (s <| user := Enqueuing |>)
| user_enqueue s : user s = Enqueuing -> rlc_len s <> rlc_size ->
    lock_step s (s <| user := Inside |> <| rlc_len := rlc_len s + 1 |>)
| user_unlock s : user s = Inside -> lock_step s (s <| user := Outside |> <| pdcp_lock := None |>)
(* rlc_data_req_thread *)
| rlc_next s : rlc_worker s = NoItem -> rlc_len s <> 0 -> lock_step s (s <| rlc_worker := ToLock |>)
| rlc_call s : rlc_worker s = ToLock -> rlc_lock s = None ->
    lock_step s (s <| rlc_worker := InCall |> <| rlc_lock := Some RlcQueueThread |>)
| rlc_return s : rlc_worker s = InCall -> lock_step s (s <| rlc_worker := Done |> <| rlc_lock := None |>)
| rlc_release s : rlc_worker s = Done ->
    lock_step s (s <| rlc_worker := NoItem |> <| rlc_len := rlc_len s - 1 |>)
(* pdcp_data_ind_thread *)
| pdcp_next s : pdcp_worker s = NoItem -> pdcp_len s <> 0 -> lock_step s (s <| pdcp_worker := ToLock |>)
| pdcp_call s : pdcp_worker s = ToLock -> pdcp_lock s = None ->
    lock_step s (s <| pdcp_worker := InCall |> <| pdcp_lock := Some PdcpQueueThread |>)
| pdcp_return s : pdcp_worker s = InCall -> lock_step s (s <| pdcp_worker := Done |> <| pdcp_lock := None |>)
| pdcp_release s : pdcp_worker s = Done ->
    lock_step s (s <| pdcp_worker := NoItem |> <| pdcp_len := pdcp_len s - 1 |>)
(* nr_pdcp_timer_thread *)
| timer_lock s : timer s = false -> pdcp_lock s = None ->
    lock_step s (s <| timer := true |> <| pdcp_lock := Some TimerThread |>)
| timer_unlock s : timer s = true -> lock_step s (s <| timer := false |> <| pdcp_lock := None |>).

Definition init_locks : locks_t := mk_locks None None 0 0 Outside Outside NoItem NoItem false.

(** Both callers wait for room while each holds the lock that the thread which would make
    the room for the other one waits for. *)
Definition both_full (s : locks_t) : Prop :=
  mac s = Enqueuing /\ pdcp_len s = pdcp_size /\ user s = Enqueuing /\ rlc_len s = rlc_size /\
  rlc_worker s = ToLock /\ pdcp_worker s = ToLock.

(** ** Invariant *)

(** A thread is inside if and only if it holds the lock. *)
Record lock_owners (s : locks_t) : Prop := {
  lo_mac : mac s <> Outside <-> rlc_lock s = Some MacThread;
  lo_rlc : rlc_worker s = InCall <-> rlc_lock s = Some RlcQueueThread;
  lo_rlc_any : rlc_lock s = None \/ rlc_lock s = Some MacThread \/ rlc_lock s = Some RlcQueueThread;
  lo_user : user s <> Outside <-> pdcp_lock s = Some PdcpUser;
  lo_pdcp : pdcp_worker s = InCall <-> pdcp_lock s = Some PdcpQueueThread;
  lo_timer : timer s = true <-> pdcp_lock s = Some TimerThread;
  lo_pdcp_any : pdcp_lock s = None \/ pdcp_lock s = Some PdcpUser \/ pdcp_lock s = Some PdcpQueueThread \/
    pdcp_lock s = Some TimerThread
}.

(** The lengths are within the queues, and the item a thread works on is in its queue. *)
Record lengths_ok (s : locks_t) : Prop := {
  lk_rlc : 0 <= rlc_len s <= rlc_size;
  lk_rlc_item : rlc_worker s <> NoItem -> 0 < rlc_len s;
  lk_pdcp : 0 <= pdcp_len s <= pdcp_size;
  lk_pdcp_item : pdcp_worker s <> NoItem -> 0 < pdcp_len s
}.

Context (rlc_pos : 0 < rlc_size) (pdcp_pos : 0 < pdcp_size).

Lemma lock_step_owners s s' : lock_owners s -> lock_step s s' -> lock_owners s'.
Proof.
  intros [H1 H2 H3 H4 H5 H6 H7] Hstep. destruct s as [rl pl rn pn m u rw pw t]. cbn in *.
  inversion Hstep; clear Hstep; subst; cbn in *; subst; split; cbn; try assumption;
    clear -H1 H2 H3 H4 H5 H6 H7; intuition congruence.
Qed.

Lemma lock_step_lengths s s' : lengths_ok s -> lock_step s s' -> lengths_ok s'.
Proof.
  intros [H1 H2 H3 H4] Hstep. destruct s as [rl pl rn pn m u rw pw t]. cbn in *.
  inversion Hstep; clear Hstep; subst; cbn in *; subst; split; cbn; try assumption;
    try (assert (0 < rn) by (apply H2; done)); try (assert (0 < pn) by (apply H4; done)); try lia;
    intros Hne; try done; try lia; first [specialize (H2 Hne) | specialize (H4 Hne)]; lia.
Qed.

Lemma reachable_locks s : rtc lock_step init_locks s -> lock_owners s /\ lengths_ok s.
Proof.
  intros H. assert (Hi : lock_owners init_locks /\ lengths_ok init_locks) by (split; split; cbn; intuition (congruence || lia)).
  induction H as [|s1 s2 s3 H12 H23 IH]; [done|]. destruct Hi as [Ho Hl].
  apply IH. split; [by eapply lock_step_owners|by eapply lock_step_lengths].
Qed.

(** ** Deadlocks *)

Lemma stuck_both_full s :
  lock_owners s -> lengths_ok s -> (forall s', ~ lock_step s s') -> both_full s.
Proof.
  intros [H1 H2 H3 H4 H5 H6 H7] [L1 L2 L3 L4] Hstuck.
  assert (Ht : timer s = false) by (destruct (timer s) eqn:E; [by destruct (Hstuck _ (timer_unlock s E))|done]).
  assert (Hrw : rlc_worker s = ToLock \/ rlc_worker s = NoItem /\ rlc_len s = 0).
  { destruct (rlc_worker s) eqn:E; [|by left|by destruct (Hstuck _ (rlc_return s E))|by destruct (Hstuck _ (rlc_release s E))].
    right. split; [done|]. destruct (decide (rlc_len s = 0)) as [|Hne]; [done|]. by destruct (Hstuck _ (rlc_next s E Hne)). }
  assert (Hpw : pdcp_worker s = ToLock \/ pdcp_worker s = NoItem /\ pdcp_len s = 0).
  { destruct (pdcp_worker s) eqn:E; [|by left|by destruct (Hstuck _ (pdcp_return s E))|by destruct (Hstuck _ (pdcp_release s E))].
    right. split; [done|]. destruct (decide (pdcp_len s = 0)) as [|Hne]; [done|]. by destruct (Hstuck _ (pdcp_next s E Hne)). }
  assert (Hm : mac s = Enqueuing /\ pdcp_len s = pdcp_size).
  { destruct (mac s) eqn:E; [|by destruct (Hstuck _ (mac_unlock s E))|].
    - assert (rlc_lock s = None) as Hn by intuition congruence. by destruct (Hstuck _ (mac_lock s E Hn)).
    - split; [done|]. destruct (decide (pdcp_len s = pdcp_size)) as [|Hne]; [done|].
      by destruct (Hstuck _ (mac_enqueue s E Hne)). }
  assert (Hu : user s = Enqueuing /\ rlc_len s = rlc_size).
  { destruct (user s) eqn:E; [|by destruct (Hstuck _ (user_unlock s E))|].
    - assert (pdcp_lock s = None) as Hn by intuition congruence. by destruct (Hstuck _ (user_lock s E Hn)).
    - split; [done|]. destruct (decide (rlc_len s = rlc_size)) as [|Hne]; [done|].
      by destruct (Hstuck _ (user_enqueue s E Hne)). }
  destruct Hm as [Hm1 Hm2], Hu as [Hu1 Hu2]. unfold both_full.
  destruct Hrw as [Hrw|[_ Hr]]; [|lia]. destruct Hpw as [Hpw|[_ Hp]]; [|lia]. done.
Qed.

Lemma both_full_stuck s : lock_owners s -> both_full s -> forall s', ~ lock_step s s'.
Proof.
  intros [H1 H2 H3 H4 H5 H6 H7] (Hm & Hpl & Hu & Hrl & Hrw & Hpw) s' Hstep.
  assert (rlc_lock s = Some MacThread) by (apply H1; congruence).
  assert (pdcp_lock s = Some PdcpUser) by (apply H4; congruence).
  assert (timer s <> true) by (intros Ht; apply H6 in Ht; congruence).
  inversion Hstep; subst; congruence.
Qed.

(** A call that delivers one SDU, or one PDU, while its queue has room. *)
Lemma fill_pdcp_queue (n : nat) : Z.of_nat n <= pdcp_size ->
  rtc lock_step init_locks (init_locks <| pdcp_len := Z.of_nat n |>).
Proof.
  induction n as [|n IH]; intros Hn; [apply rtc_refl|]. etrans; [apply IH; lia|].
  eapply rtc_l; [by apply mac_lock|]. eapply rtc_l; [by apply mac_deliver|].
  eapply rtc_l; [apply mac_enqueue; [done|cbn; lia]|]. eapply rtc_l; [by apply mac_unlock|].
  cbn. replace (Z.of_nat n + 1) with (Z.of_nat (S n)) by lia. apply rtc_refl.
Qed.

Lemma fill_rlc_queue s0 (n : nat) :
  user s0 = Outside -> pdcp_lock s0 = None -> rlc_len s0 = 0 -> Z.of_nat n <= rlc_size ->
  rtc lock_step s0 (s0 <| rlc_len := Z.of_nat n |>).
Proof.
  destruct s0 as [rl pl rn pn m u rw pw t]. cbn. intros -> -> ->.
  induction n as [|n IH]; intros Hn; [apply rtc_refl|]. etrans; [apply IH; lia|].
  eapply rtc_l; [by apply user_lock|]. eapply rtc_l; [by apply user_deliver|].
  eapply rtc_l; [apply user_enqueue; [done|cbn; lia]|]. eapply rtc_l; [by apply user_unlock|].
  cbn. replace (Z.of_nat n + 1) with (Z.of_nat (S n)) by lia. apply rtc_refl.
Qed.

Lemma both_full_reachable : exists s, rtc lock_step init_locks s /\ both_full s.
Proof.
  exists (mk_locks (Some MacThread) (Some PdcpUser) rlc_size pdcp_size Enqueuing Enqueuing ToLock ToLock false).
  split; [|done]. etrans; [apply (fill_pdcp_queue (Z.to_nat pdcp_size)); lia|].
  etrans; [apply (fill_rlc_queue _ (Z.to_nat rlc_size)); cbn; done || lia|].
  cbn. rewrite !Z2Nat.id by lia.
  eapply rtc_l; [by apply mac_lock|]. eapply rtc_l; [by apply mac_deliver|].
  eapply rtc_l; [by apply user_lock|]. eapply rtc_l; [by apply user_deliver|].
  eapply rtc_l; [apply rlc_next; [done|cbn; lia]|]. eapply rtc_l; [apply pdcp_next; [done|cbn; lia]|].
  apply rtc_refl.
Qed.

End Locks.

(** ** Properties *)

(** The only deadlock.  In every reachable state a thread holds a lock if and only if it
    is in its critical section, and some thread can go on unless both queues are full while
    the caller that fills each one waits inside its lock and the thread that empties it waits
    for that of the other: then none can.  That state can be reached. *)
Theorem locks_only_deadlock (rlc_size pdcp_size : Z) :
  0 < rlc_size -> 0 < pdcp_size ->
  (forall s, rtc (lock_step rlc_size pdcp_size) init_locks s ->
    lock_owners s /\ ((forall s', ~ lock_step rlc_size pdcp_size s s') <-> both_full rlc_size pdcp_size s)) /\
  exists s, rtc (lock_step rlc_size pdcp_size) init_locks s /\ both_full rlc_size pdcp_size s.
Proof.
  intros Hr Hp. split; [|by apply both_full_reachable]. intros s Hs.
  destruct (reachable_locks _ _ Hr Hp s Hs) as [Ho Hl]. split; [done|].
  split; [by apply stuck_both_full|by apply both_full_stuck].
Qed.

Lemma locks_only_deadlock_witness :
  exists s, rtc (lock_step RLC_DATA_REQ_QUEUE_SIZE PDCP_DATA_IND_QUEUE_SIZE) init_locks s /\
    forall s', ~ lock_step RLC_DATA_REQ_QUEUE_SIZE PDCP_DATA_IND_QUEUE_SIZE s s'.
Proof.
  destruct (locks_only_deadlock RLC_DATA_REQ_QUEUE_SIZE PDCP_DATA_IND_QUEUE_SIZE) as [H (s & Hs & Hf)].
  - reflexivity.
  - reflexivity.
  - exists s. split; [exact Hs|]. by apply (H s Hs).
Defined.
