(* ===== verification/PdcpApi.v ===== *)
(** The interface of PDCP to RLC, SDAP and RRC: [nr_pdcp_oai_api.c] and the timer thread of
    [nr_pdcp_timer_thread.c].

    The module state is the UE manager, the time, the list of SDAP entities (which PDCP
    creates and delivers to) and what the code reads of the configuration.  What leaves PDCP
    is a list of outputs, oldest first; an output to the [rlc_data_req] queue is an item of
    the file PdcpQueue.  Configuration structures are as in the file RlcApi.  The functions
    around the network interface ([enb_tun_read_thread] and the like) are not translated.

    The theorems: the data operations are those of the entity of the addressed bearer, lifted
    to the module ([pdcp_data_req_refines], [pdcp_data_ind_refines]); a configuration keeps
    the bearers there are and creates the ones asked for ([pdcp_config_bearers]); the
    preconfiguration of a DRB returns and gives a bearer in both layers
    ([drb_preconfiguration]). *)

From S2P Require Import Prelude.
From S2P Require Import RlcUm.
From S2P Require Import RlcEntity.
From S2P Require Import RlcUmProps.
From S2P Require Import Pdcp.
From S2P Require Import PdcpProps.
From S2P Require Import UeManager.
From S2P Require Import Bearers.
From S2P Require Import Sdap.
From S2P Require Import Asn1Utils.
From S2P Require Import RlcApi.
From S2P Require Import PdcpQueue.

(** ** Data *)

Record protocol_ctxt_t := mk_ctxt {
  module_id : Z;
  c_enb_flag : bool;
  instance : Z;
  rnti : Z;
  eNB_index : Z;
  brOption : bool
}.

(** [t_Reordering] is [None] when it or [pdcp_Config] is a null pointer. *)
Record NR_SRB_ToAddMod := mk_srb_mod {
  srb_id : Z;
  srb_t_Reordering : option Z
}.

Record sdap_Config_t := mk_sdap_config {
  pdu_Session : Z;
  sdap_HeaderUL_present : bool;
  sdap_HeaderDL_present : bool
}.

Inductive cnAssociation_t : Type :=
| cnAssociation_NOTHING
| eps_BearerIdentity (id : Z)
| sdap_Config (c : option sdap_Config_t).

Record NR_DRB_ToAddMod := mk_drb_mod {
  drb_id : Z;
  pdcp_SN_SizeUL : option Z;
  pdcp_SN_SizeDL : option Z;
  discardTimer : option Z;
  drb_t_Reordering : option Z;
  integrityProtection : bool;
  cipheringDisabled : bool;
  cnAssociation : option cnAssociation_t
}.

(** What leaves PDCP. *)
Inductive pdcp_output : Type :=
| RlcDataReq (x : rlc_data_req_queue_item)
| F1AP_DL_RRC_MESSAGE (ue_rnti srb : Z) (buf : list Z)
| GTPV1U_TUNNEL_DATA_REQ (ue_rnti pdusession_id : Z) (buf : list Z)
| NR_RRC_DCCH_DATA_IND (to_gnb : bool) (ue_rnti dcch_index : Z) (buf : list Z)
| SdapOutput (ev : sdap_event).

(** [rrc_node_type] is [None] when [RC.nrrrc] is null; [use_tun] is
    [IS_SOFTMODEM_NOS1 || UE_NAS_USE_TUN]; [log_d] tells whether debug messages are printed,
    and so their arguments evaluated. *)
Record pdcp_module := mk_pdcp_module {
  nr_pdcp_ue_manager : nr_pdcp_ue_manager_t;
  nr_pdcp_current_time : Z;
  nr_pdcp_current_time_last_frame : Z;
  nr_pdcp_current_time_last_subframe : Z;
  timer_thread_curtime : Z;
  sdap_list : sdap_info;
  rrc_node_type : option Z;
  use_tun : bool;
  log_d : bool;
  outputs : list pdcp_output
}.

#[export] Instance eta_pdcp_module : Eta pdcp_module := fun s =>
  mk_pdcp_module (nr_pdcp_ue_manager s) (nr_pdcp_current_time s) (nr_pdcp_current_time_last_frame s)
    (nr_pdcp_current_time_last_subframe s) (timer_thread_curtime s) (sdap_list s) (rrc_node_type s)
    (use_tun s) (log_d s) (outputs s).

(** ** Callbacks *)

(** [RC.nrrrc != NULL && NODE_IS_CU(...)] *)
Definition is_cu (st : pdcp_module) : bool :=
  match rrc_node_type st with Some t => NODE_IS_CU t | None => false end.

Definition emit_output (st : pdcp_module) (o : pdcp_output) : pdcp_module :=
  st <| outputs := outputs st ++ [o] |>.

Definition to_sdap (st : pdcp_module) (rb_id : Z) (e : nr_pdcp_entity_t) (ue_rnti : Z) (buf : list Z)
  : res pdcp_module :=
  let* (l, ev) := sdap_data_ind (sdap_list st) rb_id (p_is_gnb e) (negb (p_has_sdap e =? 0))
                    (negb (p_has_sdapULheader e =? 0)) (p_pdusession_id e) ue_rnti buf in
  Ok (st <| sdap_list := l |> <| outputs := outputs st ++ (SdapOutput <$> ev) |>).

Definition deliver_sdu_drb (st : pdcp_module) (ue_rnti : Z) (i : nat) (e : nr_pdcp_entity_t) (buf : list Z)
  : res pdcp_module :=
  if use_tun st then to_sdap st (p_rb_id e) e ue_rnti buf
  else if (i <? 5)%nat then to_sdap st (Z.of_nat i + 1) e ue_rnti buf
  else Exit.

Definition deliver_pdu_drb (st : pdcp_module) (ue_rnti : Z) (i : nat) (buf : list Z) (sdu_id : Z)
  : res pdcp_module :=
  if (i <? 5)%nat then
    let rb_id := Z.of_nat i + 1 in
    Ok (emit_output st
          (if is_cu st then GTPV1U_TUNNEL_DATA_REQ ue_rnti rb_id buf
           else RlcDataReq (mk_rlc_item ue_rnti false rb_id sdu_id buf)))
  else Exit.

Definition deliver_sdu_srb (st : pdcp_module) (ue_rnti : Z) (i : nat) (e : nr_pdcp_entity_t) (buf : list Z)
  : res pdcp_module :=
  if (i <? 3)%nat then Ok (emit_output st (NR_RRC_DCCH_DATA_IND (p_is_gnb e) ue_rnti (Z.of_nat i + 1) buf))
  else Exit.

Definition deliver_pdu_srb (st : pdcp_module) (ue_rnti : Z) (i : nat) (buf : list Z) (sdu_id : Z)
  : res pdcp_module :=
  if (i <? 3)%nat then
    let srb_id := Z.of_nat i + 1 in
    Ok (emit_output st
          (if negb (is_cu st) then RlcDataReq (mk_rlc_item ue_rnti true srb_id sdu_id buf)
           else F1AP_DL_RRC_MESSAGE ue_rnti srb_id buf))
  else Exit.

(** The callbacks of an entity are those of its kind of bearer. *)
Definition pdcp_callback (st : pdcp_module) (ue_rnti : Z) (s : slot) (e : nr_pdcp_entity_t) (ev : pdcp_event)
  : res pdcp_module :=
  match s, ev with
  | Srb i, pdcp_deliver_sdu buf => deliver_sdu_srb st ue_rnti i e buf
  | Srb i, pdcp_deliver_pdu buf sdu_id => deliver_pdu_srb st ue_rnti i buf sdu_id
  | Drb i, pdcp_deliver_sdu buf => deliver_sdu_drb st ue_rnti i e buf
  | Drb i, pdcp_deliver_pdu buf sdu_id => deliver_pdu_drb st ue_rnti i buf sdu_id
  end.

Fixpoint run_pdcp_callbacks (evs : list pdcp_event) (st : pdcp_module) (ue_rnti : Z) (s : slot)
  (e : nr_pdcp_entity_t) : res pdcp_module :=
  match evs with
  | [] => Ok st
  | ev :: tl =>
    let* st := pdcp_callback st ue_rnti s e ev in
    run_pdcp_callbacks tl st ue_rnti s e
  end.

(** ** Operations on a bearer *)

(** The call [f] on the entity in slot [s] of the UE, which is created when there is none, and
    the callbacks that it makes on the way; [none] is the outcome when there is no bearer. *)
Definition call_pdcp (st : pdcp_module) (ue_rnti : Z) (s : option slot)
  (f : nr_pdcp_entity_t -> res nr_pdcp_entity_t) (none : pdcp_module -> res (pdcp_module * bool))
  : res (pdcp_module * bool) :=
  let '(i, m) := nr_pdcp_manager_get_ue (nr_pdcp_ue_manager st) ue_rnti in
  let st := st <| nr_pdcp_ue_manager := m |> in
  match ue_list m !! i with
  | None => Fault OutOfBounds
  | Some ue =>
    match s with
    | None => none st
    | Some s =>
      match get_slot ue s with
      | None => none st
      | Some rb =>
        let* rb2 := f rb in
        let m := put_ue m i (put_slot ue s (Some rb2)) in
        let* st := run_pdcp_callbacks (drop (length (p_events rb)) (p_events rb2))
                     (st <| nr_pdcp_ue_manager := m |>) ue_rnti s rb2 in
        Ok (st, true)
      end
    end
  end.

Section Crypto.

(** AES in counter mode and CMAC, as in the file Pdcp. *)
Variable ctr_crypt : list Z -> list Z -> list Z -> list Z.
Variable cmac : list Z -> list Z -> list Z.

(** The call of the thread of the [pdcp_data_ind] queue. *)
Definition do_pdcp_data_ind (st : pdcp_module) (ctxt : protocol_ctxt_t) (srb_flag : bool) (rb_id : Z)
  (sdu_buffer : list Z) : res pdcp_module :=
  if negb (module_id ctxt =? 0) || negb (instance ctxt =? 0) || negb (eNB_index ctxt =? 0) || brOption ctxt
  then Exit
  else
    let* (st, _) := call_pdcp st (rnti ctxt) (rb_slot srb_flag rb_id)
                      (fun rb => nr_pdcp_entity_recv_pdu ctr_crypt cmac rb sdu_buffer) (fun _ => Exit) in
    Ok st.

Definition pdcp_data_req_srb (st : pdcp_module) (ctxt : protocol_ctxt_t) (rb_id mui : Z) (sdu_buffer : list Z)
  : res (pdcp_module * bool) :=
  if negb (module_id ctxt =? 0) || negb (instance ctxt =? 0) || negb (eNB_index ctxt =? 0) then Exit
  else call_pdcp st (rnti ctxt) (rb_slot true rb_id)
         (fun rb => nr_pdcp_entity_recv_sdu ctr_crypt cmac rb sdu_buffer mui) (fun st => Ok (st, false)).

Definition pdcp_data_req_drb (st : pdcp_module) (ctxt : protocol_ctxt_t) (rb_id mui : Z) (sdu_buffer : list Z)
  : res (pdcp_module * bool) :=
  if negb (module_id ctxt =? 0) || negb (instance ctxt =? 0) || negb (eNB_index ctxt =? 0) then Exit
  else call_pdcp st (rnti ctxt) (rb_slot false rb_id)
         (fun rb => nr_pdcp_entity_recv_sdu ctr_crypt cmac rb sdu_buffer mui) (fun st => Ok (st, false)).

Definition pdcp_data_req (st : pdcp_module) (ctxt : protocol_ctxt_t) (srb_flag : bool) (rb_id mui : Z)
  (sdu_buffer : list Z) : res (pdcp_module * bool) :=
  if srb_flag then pdcp_data_req_srb st ctxt rb_id mui sdu_buffer
  else pdcp_data_req_drb st ctxt rb_id mui sdu_buffer.

(** A message of the task of PDCP; [other] stands for every other kind. *)
Inductive task_message : Type :=
| RRC_DCCH_DATA_REQ (mod_id : Z) (enb : bool) (ue_rnti eNB rb_id mui : Z) (sdu : list Z)
| other_message.

(** [PROTOCOL_CTXT_SET_BY_MODULE_ID]; [nb_enb_inst] is the global [NB_eNB_INST]. *)
Definition ctxt_by_module_id (nb_enb_inst mod_id : Z) (enb : bool) (ue_rnti eNB : Z) : protocol_ctxt_t :=
  mk_ctxt mod_id enb (if enb then mod_id else mod_id + nb_enb_inst) ue_rnti eNB false.

(** The messages that the task has, until there is no more. *)
Fixpoint pdcp_run (nb_enb_inst : Z) (msgs : list task_message) (st : pdcp_module) : res pdcp_module :=
  match msgs with
  | [] => Ok st
  | msg :: tl =>
    let* st :=
      match msg with
      | RRC_DCCH_DATA_REQ mod_id enb ue_rnti eNB rb_id mui sdu =>
        let* (st, _) := pdcp_data_req st (ctxt_by_module_id nb_enb_inst mod_id enb ue_rnti eNB) true rb_id mui sdu in
        Ok st
      | other_message => Ok st
      end in
    pdcp_run nb_enb_inst tl st
  end.

End Crypto.

Definition pdcp_config_set_security (st : pdcp_module) (ctxt : protocol_ctxt_t) (rb_id security_mode : Z)
  (kRRCenc kRRCint : option (list Z)) : res pdcp_module :=
  if (1 <=? rb_id) && (rb_id <=? 2) then
    let* (st, _) := call_pdcp st (rnti ctxt) (rb_slot true rb_id)
                      (fun rb => nr_pdcp_entity_set_security rb (Z.land (Z.shiftr security_mode 4) 0xf) kRRCint
                                   (Z.land security_mode 0x0f) kRRCenc)
                      (fun st => Ok (st, false)) in
    Ok st
  else Exit.

Definition pdcp_remove_UE (st : pdcp_module) (ctxt : protocol_ctxt_t) : res pdcp_module :=
  let* (_, m) := nr_pdcp_manager_remove_ue (nr_pdcp_ue_manager st) (rnti ctxt) in
  Ok (st <| nr_pdcp_ue_manager := m |>).

(** ** Time *)

(** [nr_pdcp_wakeup_timer_thread] hands the time to the timer thread. *)
Definition nr_pdcp_tick (st : pdcp_module) (frame subframe : Z) : pdcp_module :=
  if negb (frame =? nr_pdcp_current_time_last_frame st) || negb (subframe =? nr_pdcp_current_time_last_subframe st)
  then
    let t := u64 (nr_pdcp_current_time st + 1) in
    st <| nr_pdcp_current_time_last_frame := frame |> <| nr_pdcp_current_time_last_subframe := subframe |>
       <| nr_pdcp_current_time := t |> <| timer_thread_curtime := t |>
  else st.

(** [if (rb != NULL) rb->set_time(rb, curtime);] for one bearer of the [i]-th UE. *)
Definition tick_bearer (st : pdcp_module) (curtime : Z) (i : nat) (s : slot) : res pdcp_module :=
  let m := nr_pdcp_ue_manager st in
  match ue_list m !! i with
  | None => Fault OutOfBounds
  | Some ue =>
    match get_slot ue s with
    | None => Ok st
    | Some rb =>
      let rb2 := nr_pdcp_entity_set_time rb curtime in
      run_pdcp_callbacks (drop (length (p_events rb)) (p_events rb2))
        (st <| nr_pdcp_ue_manager := put_ue m i (put_slot ue s (Some rb2)) |>) (ue_rnti ue) s rb2
    end
  end.

Fixpoint tick_slots (st : pdcp_module) (curtime : Z) (i : nat) (l : list slot) : res pdcp_module :=
  match l with
  | [] => Ok st
  | s :: tl => let* st := tick_bearer st curtime i s in tick_slots st curtime i tl
  end.

Fixpoint tick_ues (st : pdcp_module) (curtime : Z) (l : list nat) : res pdcp_module :=
  match l with
  | [] => Ok st
  | i :: tl =>
    let* st := tick_slots st curtime i [Srb 0; Srb 1; Drb 0; Drb 1; Drb 2; Drb 3; Drb 4] in
    tick_ues st curtime tl
  end.

(** One turn of the timer thread, which has last run for [curtime]; [None] while it waits for
    another time. *)
Definition nr_pdcp_timer_thread (st : pdcp_module) (curtime : Z) : option (res pdcp_module) :=
  if curtime =? timer_thread_curtime st then None
  else Some (tick_ues st (timer_thread_curtime st) (seq 0 (length (ue_list (nr_pdcp_ue_manager st))))).

(** ** Initialisation and configuration *)

(** The manager of [pdcp_layer_init], which does its work once. *)
Definition pdcp_layer_init (initialized : bool) (st : pdcp_module) : bool * pdcp_module :=
  if initialized then (true, st)
  else (true, st <| nr_pdcp_ue_manager := new_nr_pdcp_ue_manager true |>).

(** [ue->srb[id - 1]] or [ue->drb[id - 1]]: the index is not checked by the code. *)
Definition read_slot (ue : ue_t nr_pdcp_entity_t) (srb_flag : bool) (id : Z) : res (option nr_pdcp_entity_t) :=
  if id <? 1 then Fault OutOfBounds
  else
    match (if srb_flag then srb ue else drb ue) !! Z.to_nat (id - 1) with
    | Some o => Ok o
    | None => Fault OutOfBounds
    end.

Definition add_srb (st : pdcp_module) (is_gnb : bool) (ue_rnti : Z) (s : NR_SRB_ToAddMod)
  (ciphering_algorithm integrity_algorithm : Z) (ciphering_key integrity_key : option (list Z))
  : res pdcp_module :=
  let* t_Reordering :=
    match srb_t_Reordering s with None => Ok 3000 | Some v => decode_t_reordering v end in
  let '(i, m) := nr_pdcp_manager_get_ue (nr_pdcp_ue_manager st) ue_rnti in
  match ue_list m !! i with
  | None => Fault OutOfBounds
  | Some ue =>
    let* o := read_slot ue true (srb_id s) in
    match o with
    | Some _ => Ok (st <| nr_pdcp_ue_manager := m |>)
    | None =>
      let* e := new_nr_pdcp_entity NR_PDCP_SRB is_gnb (srb_id s) 0 0 0 0 12 t_Reordering (-1)
                  ciphering_algorithm integrity_algorithm ciphering_key integrity_key in
      let* ue := nr_pdcp_ue_add_srb_pdcp_entity ue (srb_id s) e in
      Ok (st <| nr_pdcp_ue_manager := put_ue m i ue |>)
    end
  end.

(** The PDU session of a DRB and its SDAP headers (uplink, downlink).  The debug message of
    the second branch reads [*mappedQFIs2Add], a null pointer. *)
Definition drb_association (s : NR_DRB_ToAddMod) (debug : bool) : res (Z * bool * bool) :=
  match cnAssociation s with
  | None | Some cnAssociation_NOTHING => Exit
  | Some (eps_BearerIdentity id) => Ok (id, false, false)
  | Some (sdap_Config None) => Exit
  | Some (sdap_Config (Some c)) =>
    if debug then Fault NullDeref
    else Ok (pdu_Session c, sdap_HeaderUL_present c, sdap_HeaderDL_present c)
  end.

Definition add_drb_am (st : pdcp_module) (is_gnb : bool) (ue_rnti : Z) (s : NR_DRB_ToAddMod)
  (ciphering_algorithm integrity_algorithm : Z) (ciphering_key integrity_key : option (list Z))
  : res pdcp_module :=
  let* ul := deref (pdcp_SN_SizeUL s) in
  let* sn_size_ul := decode_sn_size_ul ul in
  let* dl := deref (pdcp_SN_SizeDL s) in
  let* sn_size_dl := decode_sn_size_dl dl in
  let* dt := deref (discardTimer s) in
  let* discard_timer := decode_discard_timer dt in
  let* t_reordering :=
    match drb_t_Reordering s with None => Ok (-1) | Some v => decode_t_reordering v end in
  let has_integrity := integrityProtection s in
  let has_ciphering := negb (cipheringDisabled s) in
  let* (pdusession_id, has_sdapULheader, has_sdapDLheader) := drb_association s (log_d st) in
  let has_sdap := has_sdapULheader || has_sdapDLheader in
  if negb (sn_size_ul =? sn_size_dl) then Exit
  else
    let '(i, m) := nr_pdcp_manager_get_ue (nr_pdcp_ue_manager st) ue_rnti in
    match ue_list m !! i with
    | None => Fault OutOfBounds
    | Some ue =>
      let* o := read_slot ue false (drb_id s) in
      match o with
      | Some _ => Ok (st <| nr_pdcp_ue_manager := m |>)
      | None =>
        let* e := new_nr_pdcp_entity NR_PDCP_DRB_AM is_gnb (drb_id s) pdusession_id (Z.b2z has_sdap)
                    (Z.b2z has_sdapULheader) (Z.b2z has_sdapDLheader) sn_size_dl t_reordering discard_timer
                    (if has_ciphering then ciphering_algorithm else 0)
                    (if has_integrity then integrity_algorithm else 0)
                    (if has_ciphering then ciphering_key else None)
                    (if has_integrity then integrity_key else None) in
        let* ue := nr_pdcp_ue_add_drb_pdcp_entity ue (drb_id s) e in
        let* (_, l, ev) := new_nr_sdap_entity (sdap_list st) has_sdap ue_rnti pdusession_id false (drb_id s) [] in
        Ok (st <| nr_pdcp_ue_manager := put_ue m i ue |> <| sdap_list := l |>
               <| outputs := outputs st ++ (SdapOutput <$> ev) |>)
      end
    end.

(** "hack": a DRB over unacknowledged mode is added in the same way. *)
Definition add_drb (st : pdcp_module) (is_gnb : bool) (ue_rnti : Z) (s : NR_DRB_ToAddMod)
  (rlc_config : option NR_RLC_Config) (ciphering_algorithm integrity_algorithm : Z)
  (ciphering_key integrity_key : option (list Z)) : res pdcp_module :=
  let* r := deref rlc_config in
  match r with
  | RLC_Config_am _ _ _ _ _ _ _ _ | RLC_Config_um_Bi_Directional _ _ _ =>
    add_drb_am st is_gnb ue_rnti s ciphering_algorithm integrity_algorithm ciphering_key integrity_key
  | RLC_Config_other => Exit
  end.

Fixpoint add_srbs (st : pdcp_module) (add : pdcp_module -> NR_SRB_ToAddMod -> res pdcp_module)
  (l : list NR_SRB_ToAddMod) : res pdcp_module :=
  match l with
  | [] => Ok st
  | s :: tl => let* st := add st s in add_srbs st add tl
  end.

(** The RLC configuration of the [i]-th DRB is the one at index [i] of the other list. *)
Fixpoint add_drbs (i : nat) (st : pdcp_module)
  (add : pdcp_module -> NR_DRB_ToAddMod -> option NR_RLC_Config -> res pdcp_module)
  (bearers : option (list NR_RLC_BearerConfig)) (l : list NR_DRB_ToAddMod) : res pdcp_module :=
  match l with
  | [] => Ok st
  | s :: tl =>
    let* bs := deref bearers in
    match bs !! i with
    | None => Fault OutOfBounds
    | Some c =>
      let* st := add st s (rlc_Config c) in
      add_drbs (S i) st add bearers tl
    end
  end.

Definition nr_rrc_pdcp_config_asn1_req (st : pdcp_module) (ctxt : protocol_ctxt_t)
  (srb2add_list : option (list NR_SRB_ToAddMod)) (drb2add_list : option (list NR_DRB_ToAddMod))
  (security_mode : Z) (kRRCenc kRRCint kUPenc kUPint : option (list Z)) (pmch : bool)
  (rlc_bearer2add_list : option (list NR_RLC_BearerConfig)) : res pdcp_module :=
  if negb (module_id ctxt =? 0) || negb (instance ctxt =? 0) || negb (eNB_index ctxt =? 0) || pmch then Exit
  else
    let ciphering := Z.land security_mode 0x0f in
    let integrity := Z.land (Z.shiftr security_mode 4) 0x0f in
    let* st :=
      match srb2add_list with
      | None => Ok st
      | Some l =>
        add_srbs st (fun st s => add_srb st (c_enb_flag ctxt) (rnti ctxt) s ciphering integrity kRRCenc kRRCint) l
      end in
    match drb2add_list with
    | None => Ok st
    | Some l =>
      add_drbs 0 st (fun st s r => add_drb st (c_enb_flag ctxt) (rnti ctxt) s r ciphering integrity kUPenc kUPint)
        rlc_bearer2add_list l
    end.

(** Values of the enumerations that the ASN.1 compiler generates. *)
Definition discardTimer_infinity : Z := 15.
Definition pdcp_SN_SizeUL_len18bits : Z := 1.
Definition pdcp_SN_SizeDL_len18bits : Z := 1.
Definition t_Reordering_ms0 : Z := 0.

(** The DRB that [nr_DRB_preconfiguration] asks of PDCP. *)
Definition preconfigured_drb : NR_DRB_ToAddMod :=
  mk_drb_mod 1 (Some pdcp_SN_SizeUL_len18bits) (Some pdcp_SN_SizeDL_len18bits) (Some discardTimer_infinity)
    (Some t_Reordering_ms0) false false (Some (eps_BearerIdentity 10)).

(** The bearer that it asks of RLC. *)
Definition preconfigured_rlc_bearer : NR_RLC_BearerConfig :=
  let c := nr_rlc_bearer_init servedRadioBearer_PR_drb_Identity in
  let c := mk_bearer_config (logicalChannelIdentity c) (logicalChannelGroup c) (servedRadioBearer c)
             (Some (nr_drb_config NR_RLC_Config_PR_um_Bi_Directional)) in
  nr_rlc_bearer_init_ul_spec c.

(** [enb_tun] is [ENB_NAS_USE_TUN], [nb_enb_inst] the global [NB_eNB_INST]. *)
Definition nr_DRB_preconfiguration (nb_enb_inst : Z) (enb_tun : bool) (pdcp : pdcp_module) (rlc : rlc_module)
  (crnti : Z) : res (pdcp_module * rlc_module) :=
  let ctxt := ctxt_by_module_id nb_enb_inst 0 enb_tun crnti 0 in
  let* pdcp := nr_rrc_pdcp_config_asn1_req pdcp ctxt None (Some [preconfigured_drb]) 0 None None None None false
                 (Some [preconfigured_rlc_bearer]) in
  let* rlc := nr_rrc_rlc_config_asn1_req rlc (module_id ctxt) (rnti ctxt) false None (Some [drb_id preconfigured_drb])
                (Some [preconfigured_rlc_bearer]) in
  Ok (pdcp, rlc).

(** ** Abstraction *)

(** The module seen by its users: the entity of each bearer of each UE. *)
Definition pdcp_bearer (st : pdcp_module) (ue_rnti : Z) (s : slot) : option nr_pdcp_entity_t :=
  bearer_of (nr_pdcp_ue_manager st) ue_rnti s.

Definition pdcp_module_wf (st : pdcp_module) : Prop := manager_wf (nr_pdcp_ue_manager st).

(** What stays the same whatever is done to the bearers. *)
Definition same_pdcp_context (st st' : pdcp_module) : Prop :=
  rrc_node_type st' = rrc_node_type st /\ use_tun st' = use_tun st /\ log_d st' = log_d st.

(** Where a PDU goes. *)
Definition pdu_output (st : pdcp_module) (ue_rnti : Z) (s : slot) (pdu : list Z) (sdu_id : Z) : pdcp_output :=
  match s with
  | Srb i =>
    if is_cu st then F1AP_DL_RRC_MESSAGE ue_rnti (Z.of_nat i + 1) pdu
    else RlcDataReq (mk_rlc_item ue_rnti true (Z.of_nat i + 1) sdu_id pdu)
  | Drb i =>
    if is_cu st then GTPV1U_TUNNEL_DATA_REQ ue_rnti (Z.of_nat i + 1) pdu
    else RlcDataReq (mk_rlc_item ue_rnti false (Z.of_nat i + 1) sdu_id pdu)
  end.

(** Where the SDUs that are delivered go, and what becomes of the SDAP entities: RRC for an
    SRB, the SDAP entity of the PDU session for a DRB, which sees them one after the other. *)
Fixpoint deliver_up (tun : bool) (ue_rnti : Z) (s : slot) (e : nr_pdcp_entity_t) (sdus : list (list Z))
  (l : sdap_info) : res (sdap_info * list pdcp_output) :=
  match sdus with
  | [] => Ok (l, [])
  | sdu :: tl =>
    match s with
    | Srb i =>
      let* (l, outs) := deliver_up tun ue_rnti s e tl l in
      Ok (l, NR_RRC_DCCH_DATA_IND (p_is_gnb e) ue_rnti (Z.of_nat i + 1) sdu :: outs)
    | Drb i =>
      let* (l, ev) := sdap_data_ind l (if tun then p_rb_id e else Z.of_nat i + 1) (p_is_gnb e)
                        (negb (p_has_sdap e =? 0)) (negb (p_has_sdapULheader e =? 0)) (p_pdusession_id e)
                        ue_rnti sdu in
      let* (l, outs) := deliver_up tun ue_rnti s e tl l in
      Ok (l, (SdapOutput <$> ev) ++ outs)
    end
  end.

(** ** Lemmas: events of an entity *)

Lemma recv_count_events e count payload size hdr mac :
  exists out, p_events (recv_count e count payload size hdr mac) = p_events e ++ (pdcp_deliver_sdu <$> out).
Proof.
  assert (Ht : forall e, p_events (reorder_timers e) = p_events e).
  { intros e0. unfold reorder_timers. destruct (_ && _); destruct (_ && _); done. }
  unfold recv_count. destruct (_ || _); [exists []; by rewrite app_nil_r|]. cbv zeta. rewrite Ht.
  destruct (count >=? _), (count =? _); pdcp_simpl;
    try (destruct (deliver_run _ _) as [[[out l] n] c]; exists out; reflexivity);
    exists []; by rewrite app_nil_r.
Qed.

Lemma recv_pdu_events ctr_crypt cmac e buffer e' :
  nr_pdcp_entity_recv_pdu ctr_crypt cmac e buffer = Ok e' ->
  exists out, p_events e' = p_events e ++ (pdcp_deliver_sdu <$> out).
Proof.
  assert (Hnil : exists out : list (list Z), p_events e = p_events e ++ (pdcp_deliver_sdu <$> out))
    by (exists []; by rewrite app_nil_r).
  unfold nr_pdcp_entity_recv_pdu. destruct buffer as [|b0 tl]; [by intros [= <-]|]. intros E.
  apply rbind_ok in E as ([sn hs] & _ & E). destruct (_ <? _); [by injection E as <-|].
  apply rbind_ok in E as (b & _ & E). apply rbind_ok in E as (c & _ & E). injection E as <-.
  apply recv_count_events.
Qed.

Lemma recv_sdu_events ctr_crypt cmac e buffer id e' :
  nr_pdcp_entity_recv_sdu ctr_crypt cmac e buffer id = Ok e' ->
  exists pdu, p_events e' = p_events e ++ [pdcp_deliver_pdu pdu id].
Proof.
  unfold nr_pdcp_entity_recv_sdu. intros E. apply rbind_ok in E as (mac & _ & E).
  apply rbind_ok in E as (b & _ & E). injection E as <-. by exists b.
Qed.

Lemma set_security_events e ia ik ca ck e' :
  nr_pdcp_entity_set_security e ia ik ca ck = Ok e' -> p_events e' = p_events e.
Proof.
  unfold nr_pdcp_entity_set_security. intros E. apply rbind_ok in E as (e1 & E1 & E2).
  assert (p_events e1 = p_events e) as <-.
  { unfold set_integrity in E1. destruct (ia =? 0); [|destruct (negb (ia =? -1)); [destruct (negb (ia =? 2)); [done|]|]];
      injection E1 as <-; destruct (negb (ia =? -1)), (negb (ca =? -1)); try destruct (p_free_integrity _); reflexivity. }
  unfold set_ciphering in E2. destruct (ca =? 0); [|destruct (negb (ca =? -1)); [destruct (negb (ca =? 2)); [done|]|]];
    injection E2 as <-; try destruct (p_free_security _); reflexivity.
Qed.

(** ** Lemmas: callbacks *)

(** What the callbacks may change. *)
Definition with_up (st : pdcp_module) (l : sdap_info) (outs : list pdcp_output) : pdcp_module :=
  st <| sdap_list := l |> <| outputs := outputs st ++ outs |>.

Lemma with_up_nil st : with_up st (sdap_list st) [] = st.
Proof. destruct st. unfold with_up. cbn. by rewrite app_nil_r. Qed.

Lemma with_up_app st l1 o1 l2 o2 : with_up (with_up st l1 o1) l2 o2 = with_up st l2 (o1 ++ o2).
Proof. destruct st. unfold with_up. cbn. by rewrite app_assoc. Qed.

Lemma sdu_callbacks st ue_rnti s e sdus :
  slot_ok s = true ->
  run_pdcp_callbacks (pdcp_deliver_sdu <$> sdus) st ue_rnti s e =
  (let* (l, outs) := deliver_up (use_tun st) ue_rnti s e sdus (sdap_list st) in Ok (with_up st l outs)).
Proof.
  intros Hs. revert st. induction sdus as [|sdu sdus IH]; intros st; cbn [fmap list_fmap run_pdcp_callbacks deliver_up].
  - cbn [rbind]. by rewrite with_up_nil.
  - destruct s as [i|i]; cbn [pdcp_callback]; unfold slot_ok in Hs; apply Nat.ltb_lt in Hs.
    + unfold deliver_sdu_srb. rewrite (proj2 (Nat.ltb_lt i 3)) by lia. cbn [rbind].
      change (emit_output st ?o) with (with_up st (sdap_list st) [o]). rewrite IH.
      change (use_tun (with_up st _ _)) with (use_tun st). change (sdap_list (with_up st ?l _)) with l.
      destruct (deliver_up _ _ _ _ _ _) as [[l outs]| |]; cbn [rbind]; [|done|done]. by rewrite with_up_app.
    + assert (deliver_sdu_drb st ue_rnti i e sdu =
        to_sdap st (if use_tun st then p_rb_id e else Z.of_nat i + 1) e ue_rnti sdu) as ->.
      { unfold deliver_sdu_drb. rewrite (proj2 (Nat.ltb_lt i 5)) by lia. by destruct (use_tun st). }
      unfold to_sdap. destruct (sdap_data_ind _ _ _ _ _ _ _ _) as [[l ev]| |]; cbn [rbind]; [|done|done].
      change (st <| sdap_list := l |> <| outputs := outputs st ++ (SdapOutput <$> ev) |>)
        with (with_up st l (SdapOutput <$> ev)). rewrite IH.
      change (use_tun (with_up st _ _)) with (use_tun st). change (sdap_list (with_up st ?l _)) with l.
      destruct (deliver_up _ _ _ _ _ _) as [[l' outs]| |]; cbn [rbind]; [|done|done]. by rewrite with_up_app.
Qed.

Lemma pdu_callback st ue_rnti s e pdu id :
  slot_ok s = true ->
  run_pdcp_callbacks [pdcp_deliver_pdu pdu id] st ue_rnti s e =
  Ok (with_up st (sdap_list st) [pdu_output st ue_rnti s pdu id]).
Proof.
  intros Hs. destruct s as [i|i]; cbn [run_pdcp_callbacks pdcp_callback]; unfold slot_ok in Hs; apply Nat.ltb_lt in Hs.
  - unfold deliver_pdu_srb, pdu_output. rewrite (proj2 (Nat.ltb_lt i 3)) by lia. by destruct st, (is_cu _).
  - unfold deliver_pdu_drb, pdu_output. rewrite (proj2 (Nat.ltb_lt i 5)) by lia. by destruct st, (is_cu _).
Qed.

(** ** Lemmas: calls *)

Definition with_pdcp_manager (st : pdcp_module) (m : nr_pdcp_ue_manager_t) : pdcp_module :=
  st <| nr_pdcp_ue_manager := m |>.

(** Nothing but the given bearer, the SDAP entities and the outputs changes. *)
Definition only_bearer (st st' : pdcp_module) (ue_rnti : Z) (s : slot) (e : option nr_pdcp_entity_t)
  (l : sdap_info) (outs : list pdcp_output) : Prop :=
  pdcp_module_wf st' /\ same_pdcp_context st st' /\ sdap_list st' = l /\ outputs st' = outputs st ++ outs /\
  forall rnti' s', pdcp_bearer st' rnti' s' =
    if decide (rnti' = ue_rnti /\ s' = s) then e else pdcp_bearer st rnti' s'.

Definition nothing_changes (st st' : pdcp_module) : Prop :=
  pdcp_module_wf st' /\ same_pdcp_context st st' /\ sdap_list st' = sdap_list st /\ outputs st' = outputs st /\
  forall rnti' s', pdcp_bearer st' rnti' s' = pdcp_bearer st rnti' s'.

(** A call on a bearer, or on none. *)
Lemma call_pdcp_none st ue_rnti s f none :
  pdcp_module_wf st -> s ≫= pdcp_bearer st ue_rnti = None ->
  exists st', call_pdcp st ue_rnti s f none = none st' /\ nothing_changes st st'.
Proof.
  intros Hwf Hn. unfold call_pdcp, nr_pdcp_manager_get_ue.
  destruct (bearer_get_ue _ ue_rnti Hwf) as (i & m & ue & -> & Hi & Hr & Hue & Hwf1 & _ & Hslot & Hsame). rewrite Hi.
  change (st <| nr_pdcp_ue_manager := m |>) with (with_pdcp_manager st m).
  exists (with_pdcp_manager st m). split; [|by split]. destruct s as [s|]; [|done]. cbn in Hn.
  rewrite Hslot. unfold pdcp_bearer in Hn. by rewrite Hn.
Qed.

Lemma call_pdcp_some st ue_rnti s f none rb :
  pdcp_module_wf st -> pdcp_bearer st ue_rnti s = Some rb ->
  match f rb with
  | Exit => call_pdcp st ue_rnti (Some s) f none = Exit
  | Fault x => call_pdcp st ue_rnti (Some s) f none = Fault x
  | Ok rb2 =>
    slot_ok s = true /\
    exists st1, only_bearer st st1 ue_rnti s (Some rb2) (sdap_list st) [] /\
      call_pdcp st ue_rnti (Some s) f none =
      (let* st' := run_pdcp_callbacks (drop (length (p_events rb)) (p_events rb2)) st1 ue_rnti s rb2 in Ok (st', true))
  end.
Proof.
  intros Hwf Hrb. unfold call_pdcp, nr_pdcp_manager_get_ue.
  destruct (bearer_get_ue _ ue_rnti Hwf) as (i & m & ue & -> & Hi & Hr & Hue & Hwf1 & _ & Hslot & Hsame). rewrite Hi.
  rewrite Hslot. unfold pdcp_bearer in Hrb. rewrite Hrb. destruct (f rb) as [rb2| |]; cbn [rbind]; [|done|done].
  assert (Hok : slot_ok s = true) by (eapply slot_used; [exact Hue|by rewrite Hslot]). split; [done|].
  destruct (bearer_put (nr_pdcp_ue_manager st) m ue_rnti i ue s (Some rb2)) as [Hwf2 Hb]; try done.
  exists (with_pdcp_manager st (put_ue m i (put_slot ue s (Some rb2)))). split; [|reflexivity].
  split; [exact Hwf2|]. split; [done|]. split; [done|]. split; [by rewrite app_nil_r|exact Hb].
Qed.

(** The callbacks do not touch the bearers. *)
Lemma only_bearer_up st st1 ue_rnti s e l outs :
  only_bearer st st1 ue_rnti s e (sdap_list st) [] -> only_bearer st (with_up st1 l outs) ue_rnti s e l outs.
Proof.
  intros (H1 & H2 & H3 & H4 & H5). split; [exact H1|]. split; [exact H2|]. split; [done|].
  split; [|exact H5]. unfold with_up. cbn. rewrite app_nil_r in H4. by rewrite H4.
Qed.

(** ** Properties: data *)

(** A context that the module handles: its module, instance and eNB are 0. *)
Definition plain_ctxt (ctxt : protocol_ctxt_t) : Prop :=
  module_id ctxt = 0 /\ instance ctxt = 0 /\ eNB_index ctxt = 0 /\ brOption ctxt = false.

(** What a request does, for the theorem below and for the clients of the module. *)
Lemma data_req_cases ctr_crypt cmac (st : pdcp_module) (ctxt : protocol_ctxt_t) (srb_flag : bool)
    (rb_id mui : Z) (sdu : list Z) :
  pdcp_module_wf st -> plain_ctxt ctxt ->
  let out := pdcp_data_req ctr_crypt cmac st ctxt srb_flag rb_id mui sdu in
  match rb_slot srb_flag rb_id, rb_slot srb_flag rb_id ≫= pdcp_bearer st (rnti ctxt) with
  | Some s, Some rb =>
    match nr_pdcp_entity_recv_sdu ctr_crypt cmac rb sdu mui with
    | Exit => out = Exit
    | Fault x => out = Fault x
    | Ok rb2 =>
      exists pdu st', p_events rb2 = p_events rb ++ [pdcp_deliver_pdu pdu mui] /\ out = Ok (st', true) /\
        only_bearer st st' (rnti ctxt) s (Some rb2) (sdap_list st) [pdu_output st (rnti ctxt) s pdu mui]
    end
  | _, _ => exists st', out = Ok (st', false) /\ nothing_changes st st'
  end.
Proof.
  intros Hwf (H1 & H2 & H3 & _) out.
  assert (Eout : out = call_pdcp st (rnti ctxt) (rb_slot srb_flag rb_id)
    (fun rb => nr_pdcp_entity_recv_sdu ctr_crypt cmac rb sdu mui) (fun st => Ok (st, false))).
  { unfold out, pdcp_data_req, pdcp_data_req_srb, pdcp_data_req_drb. rewrite H1, H2, H3. by destruct srb_flag. }
  clearbody out. subst out. destruct (rb_slot srb_flag rb_id) as [s|] eqn:Es.
  2:{ destruct (call_pdcp_none st (rnti ctxt) None (fun rb => nr_pdcp_entity_recv_sdu ctr_crypt cmac rb sdu mui)
        (fun st => Ok (st, false)) Hwf eq_refl) as (st' & -> & Hn). by exists st'. }
  cbn [mbind option_bind]. destruct (pdcp_bearer st (rnti ctxt) s) as [rb|] eqn:Erb.
  - pose proof (call_pdcp_some st (rnti ctxt) s (fun rb => nr_pdcp_entity_recv_sdu ctr_crypt cmac rb sdu mui)
      (fun st => Ok (st, false)) rb Hwf Erb) as Hc. cbv beta in Hc.
    destruct (nr_pdcp_entity_recv_sdu ctr_crypt cmac rb sdu mui) as [rb2| |] eqn:E; [|exact Hc|exact Hc].
    destruct Hc as (Hok & st1 & Hst1 & ->). destruct (recv_sdu_events _ _ _ _ _ _ E) as [pdu Hev].
    rewrite Hev, drop_app_length, pdu_callback by done. cbn [rbind]. exists pdu. eexists. split; [done|].
    split; [reflexivity|]. destruct Hst1 as (G1 & G2 & G3 & G4 & G5).
    assert (pdu_output st1 (rnti ctxt) s pdu mui = pdu_output st (rnti ctxt) s pdu mui) as ->
      by (unfold pdu_output, is_cu; by rewrite (proj1 G2)).
    rewrite G3. by apply only_bearer_up.
  - destruct (call_pdcp_none st (rnti ctxt) (Some s) (fun rb => nr_pdcp_entity_recv_sdu ctr_crypt cmac rb sdu mui)
      (fun st => Ok (st, false)) Hwf Erb) as (st' & -> & Hn). by exists st'.
Qed.

(** C16. A request to send an SDU is the transmission of the entity of the addressed bearer:
    the one PDU that it makes goes, with the RNTI and the identity of the bearer, to the queue
    of RLC, or from a CU to F1AP (an SRB) or GTP-U (a DRB); no other bearer of any UE, and
    nothing of SDAP, changes; an error of the entity is that of the request.  Without such a
    bearer the request is refused and nothing changes. *)
Theorem pdcp_data_req_refines ctr_crypt cmac (st : pdcp_module) (ctxt : protocol_ctxt_t) (srb_flag : bool)
    (rb_id mui : Z) (sdu : list Z) :
  pdcp_module_wf st -> plain_ctxt ctxt ->
  let out := pdcp_data_req ctr_crypt cmac st ctxt srb_flag rb_id mui sdu in
  match rb_slot srb_flag rb_id, rb_slot srb_flag rb_id ≫= pdcp_bearer st (rnti ctxt) with
  | Some s, Some rb =>
    match nr_pdcp_entity_recv_sdu ctr_crypt cmac rb sdu mui with
    | Exit => out = Exit
    | Fault x => out = Fault x
    | Ok rb2 =>
      exists pdu st', p_events rb2 = p_events rb ++ [pdcp_deliver_pdu pdu mui] /\ out = Ok (st', true) /\
        only_bearer st st' (rnti ctxt) s (Some rb2) (sdap_list st) [pdu_output st (rnti ctxt) s pdu mui]
    end
  | _, _ => exists st', out = Ok (st', false) /\ nothing_changes st st'
  end.
Proof.
  apply data_req_cases.
Qed.

(** A gNB with one UE whose first DRB has SNs of 18 bits and no security. *)
Definition sample_pdcp : pdcp_module :=
  let e := mk_pdcp NR_PDCP_DRB_AM 1 10 0 0 0 18 0 (-1) (2 ^ 18 - 1) (2 ^ 17) 0 0 0 0 0 0 false false 0 0
             (replicate 16 0) (replicate 16 0) None false None false true [] 0 0 [] in
  mk_pdcp_module (mk_manager [mk_ue 17 (replicate 3 None) [Some e; None; None; None; None]] true)
    0 0 0 0 [mk_sdap 17 0 10 (replicate 64 (mk_qfi2drb 0 false))] (Some 2) false false [].

Lemma sample_pdcp_wf : pdcp_module_wf sample_pdcp.
Proof. split; [apply NoDup_singleton|]. repeat constructor. Qed.

Lemma pdcp_data_req_refines_witness :
  exists st', pdcp_data_req (fun _ _ b => b) (fun _ _ => []) sample_pdcp (mk_ctxt 0 true 0 17 0 false) false 1 3 [7; 8]
      = Ok (st', true) /\
    outputs st' = [RlcDataReq (mk_rlc_item 17 false 1 3 [128; 0; 0; 7; 8])].
Proof.
  pose proof (pdcp_data_req_refines (fun _ _ b => b) (fun _ _ => []) sample_pdcp (mk_ctxt 0 true 0 17 0 false)
    false 1 3 [7; 8] sample_pdcp_wf (conj eq_refl (conj eq_refl (conj eq_refl eq_refl)))) as H.
  cbv zeta in H. destruct H as (pdu & st' & Hev & E & Hst). exists st'. split; [exact E|].
  destruct Hst as (_ & _ & _ & Hout & _). rewrite Hout.
  assert (pdu = [128; 0; 0; 7; 8]) as -> by (vm_compute in Hev; congruence). reflexivity.
Defined.

(** C17. A PDU from the queue of PDCP is the reception of the entity of the addressed bearer:
    what it delivers goes up in order, to RRC for an SRB, to the SDAP entity of the PDU session
    for a DRB; no other bearer of any UE changes; an error of the entity or of SDAP is that of
    the call.  The program ends when there is no such bearer. *)
Theorem pdcp_data_ind_refines ctr_crypt cmac (st : pdcp_module) (ctxt : protocol_ctxt_t) (srb_flag : bool)
    (rb_id : Z) (pdu : list Z) :
  pdcp_module_wf st -> plain_ctxt ctxt ->
  let out := do_pdcp_data_ind ctr_crypt cmac st ctxt srb_flag rb_id pdu in
  match rb_slot srb_flag rb_id, rb_slot srb_flag rb_id ≫= pdcp_bearer st (rnti ctxt) with
  | Some s, Some rb =>
    match nr_pdcp_entity_recv_pdu ctr_crypt cmac rb pdu with
    | Exit => out = Exit
    | Fault x => out = Fault x
    | Ok rb2 =>
      exists sdus, p_events rb2 = p_events rb ++ (pdcp_deliver_sdu <$> sdus) /\
        match deliver_up (use_tun st) (rnti ctxt) s rb2 sdus (sdap_list st) with
        | Exit => out = Exit
        | Fault x => out = Fault x
        | Ok (l, outs) => exists st', out = Ok st' /\ only_bearer st st' (rnti ctxt) s (Some rb2) l outs
        end
    end
  | _, _ => out = Exit
  end.
Proof.
  intros Hwf (H1 & H2 & H3 & H4) out.
  assert (Eout : out = let* (st, _) := call_pdcp st (rnti ctxt) (rb_slot srb_flag rb_id)
    (fun rb => nr_pdcp_entity_recv_pdu ctr_crypt cmac rb pdu) (fun _ => Exit) in Ok st).
  { unfold out, do_pdcp_data_ind. by rewrite H1, H2, H3, H4. }
  clearbody out. subst out. destruct (rb_slot srb_flag rb_id) as [s|] eqn:Es.
  2:{ destruct (call_pdcp_none st (rnti ctxt) None (fun rb => nr_pdcp_entity_recv_pdu ctr_crypt cmac rb pdu)
        (fun _ => Exit) Hwf eq_refl) as (st' & -> & Hn). done. }
  cbn [mbind option_bind]. destruct (pdcp_bearer st (rnti ctxt) s) as [rb|] eqn:Erb.
  - pose proof (call_pdcp_some st (rnti ctxt) s (fun rb => nr_pdcp_entity_recv_pdu ctr_crypt cmac rb pdu)
      (fun _ => Exit) rb Hwf Erb) as Hc. cbv beta in Hc.
    destruct (nr_pdcp_entity_recv_pdu ctr_crypt cmac rb pdu) as [rb2| |] eqn:E; [|by rewrite Hc|by rewrite Hc].
    destruct Hc as (Hok & st1 & Hst1 & ->). destruct (recv_pdu_events _ _ _ _ _ E) as [sdus Hev].
    exists sdus. split; [done|]. rewrite Hev, drop_app_length, sdu_callbacks by done.
    pose proof Hst1 as (_ & G2 & G3 & _). rewrite G3, (proj1 (proj2 G2)).
    destruct (deliver_up _ _ _ _ _ _) as [[l outs]| |]; cbn [rbind]; [|done|done].
    eexists. split; [reflexivity|]. by apply only_bearer_up.
  - destruct (call_pdcp_none st (rnti ctxt) (Some s) (fun rb => nr_pdcp_entity_recv_pdu ctr_crypt cmac rb pdu)
      (fun _ => Exit) Hwf Erb) as (st' & -> & Hn). done.
Qed.

Lemma pdcp_data_ind_refines_witness :
  exists st', do_pdcp_data_ind (fun _ _ b => b) (fun _ _ => []) sample_pdcp (mk_ctxt 0 true 0 17 0 false) false 1
      [128; 0; 0; 7; 8] = Ok st' /\
    outputs st' = [SdapOutput (GtpuDataReq 17 10 [7; 8])].
Proof.
  pose proof (pdcp_data_ind_refines (fun _ _ b => b) (fun _ _ => []) sample_pdcp (mk_ctxt 0 true 0 17 0 false)
    false 1 [128; 0; 0; 7; 8] sample_pdcp_wf (conj eq_refl (conj eq_refl (conj eq_refl eq_refl)))) as H.
  cbv zeta in H. destruct H as (sdus & Hev & H). assert (sdus = [[7; 8]]) as ->.
  { clear H. vm_compute in Hev. destruct sdus as [|a [|b sdus]]; [discriminate Hev| |discriminate Hev]. by injection Hev as <-. }
  destruct H as (st' & E & Hst). exists st'. split; [exact E|].
  destruct Hst as (_ & _ & _ & Hout & _). rewrite Hout. reflexivity.
Defined.

(** ** Lemmas: configuration *)

(** A new entity has the parameters it is created with. *)
Lemma new_pdcp_fields t g rb ps h1 h2 h3 sn tr dt ca ia ck ik e :
  new_nr_pdcp_entity t g rb ps h1 h2 h3 sn tr dt ca ia ck ik = Ok e ->
  p_type e = t /\ p_is_gnb e = g /\ p_rb_id e = rb /\ p_pdusession_id e = ps /\ p_sn_size e = sn /\
  p_has_ciphering e = (ca =? 2) /\ p_has_integrity e = (ia =? 2) /\ p_events e = [].
Proof.
  unfold new_nr_pdcp_entity, nr_pdcp_entity_set_security, set_integrity. intros E.
  apply rbind_ok in E as (e1 & E1 & E2). unfold set_ciphering in E2.
  destruct (Z.eqb_spec ia 0) as [->|]; [|destruct (Z.eqb_spec ia (-1)) as [->|];
    [|destruct (Z.eqb_spec ia 2) as [->|]; [|discriminate E1]]];
  (destruct (Z.eqb_spec ca 0) as [->|]; [|destruct (Z.eqb_spec ca (-1)) as [->|];
    [|destruct (Z.eqb_spec ca 2) as [->|]; [|discriminate E2]]]);
  injection E1 as <-; injection E2 as <-; repeat split; try reflexivity;
  repeat (destruct (Z.eqb_spec _ (-1)); try done).
Qed.

(** The entity asked for by an element of one of the two lists. *)
Definition srb_entity (g : bool) (ciphering integrity : Z) (s : NR_SRB_ToAddMod) (e : nr_pdcp_entity_t) : Prop :=
  p_type e = NR_PDCP_SRB /\ p_is_gnb e = g /\ p_rb_id e = srb_id s /\ p_sn_size e = 12 /\
  p_has_ciphering e = (ciphering =? 2) /\ p_has_integrity e = (integrity =? 2) /\
  p_events e = [] /\ pdcp_wf e.

Definition drb_entity (g : bool) (ciphering integrity : Z) (d : NR_DRB_ToAddMod) (e : nr_pdcp_entity_t) : Prop :=
  p_type e = NR_PDCP_DRB_AM /\ p_is_gnb e = g /\ p_rb_id e = drb_id d /\
  (exists v, pdcp_SN_SizeDL d = Some v /\ decode_sn_size_dl v = Ok (p_sn_size e)) /\
  p_has_ciphering e = negb (cipheringDisabled d) && (ciphering =? 2) /\
  p_has_integrity e = integrityProtection d && (integrity =? 2) /\
  p_events e = [] /\ pdcp_wf e.

(** What a configuration may do: keep all bearers and add to the UE such as [new] allows. *)
Record pdcp_config_rel (new : slot -> nr_pdcp_entity_t -> Prop) (ue_rnti : Z) (st st' : pdcp_module) : Prop := {
  pconf_wf : pdcp_module_wf st';
  pconf_context : same_pdcp_context st st';
  pconf_outputs : exists ev, outputs st' = outputs st ++ (SdapOutput <$> ev);
  pconf_keeps : forall rnti' s e, pdcp_bearer st rnti' s = Some e -> pdcp_bearer st' rnti' s = Some e;
  pconf_new : forall rnti' s e, pdcp_bearer st' rnti' s = Some e ->
    pdcp_bearer st rnti' s = Some e \/ rnti' = ue_rnti /\ new s e
}.

Lemma pdcp_config_refl new ue_rnti st : pdcp_module_wf st -> pdcp_config_rel new ue_rnti st st.
Proof. intros H. split; [done|done|exists []; by rewrite app_nil_r|done|]. intros. by left. Qed.

Lemma pdcp_config_trans new ue_rnti st1 st2 st3 :
  pdcp_config_rel new ue_rnti st1 st2 -> pdcp_config_rel new ue_rnti st2 st3 -> pdcp_config_rel new ue_rnti st1 st3.
Proof.
  intros [H1 H2 [ev H3] H4 H5] [G1 G2 [ev' G3] G4 G5]. split; [done| | |by eauto|].
  - destruct H2 as (? & ? & ?), G2 as (? & ? & ?). repeat split; congruence.
  - exists (ev ++ ev'). by rewrite G3, H3, fmap_app, app_assoc.
  - intros rnti' s e He. destruct (G5 _ _ _ He) as [He'|?]; [by apply H5|by right].
Qed.

Lemma pdcp_config_some new ue_rnti st st' s :
  pdcp_config_rel new ue_rnti st st' -> is_Some (pdcp_bearer st ue_rnti s) -> is_Some (pdcp_bearer st' ue_rnti s).
Proof. intros H [e He]. exists e. by apply (pconf_keeps _ _ _ _ H). Qed.

(** The end of the functions that add a bearer: the slot is read, and filled when it is empty. *)
Lemma add_pdcp_spec (new : slot -> nr_pdcp_entity_t -> Prop) st ue_rnti i m ue s o st' l ev :
  pdcp_module_wf st -> (forall s, get_slot ue s = pdcp_bearer st ue_rnti s) ->
  ue_list m !! i = Some ue -> UeManager.ue_rnti ue = ue_rnti -> ue_wf ue -> manager_wf m ->
  (forall rnti' s', bearer_of m rnti' s' = pdcp_bearer st rnti' s') ->
  match o with
  | None => is_Some (get_slot ue s) /\ st' = with_pdcp_manager st m
  | Some e => get_slot ue s = None /\ slot_ok s = true /\ new s e /\
      st' = with_up (with_pdcp_manager st (put_ue m i (put_slot ue s (Some e)))) l (SdapOutput <$> ev)
  end ->
  pdcp_config_rel new ue_rnti st st' /\ is_Some (pdcp_bearer st' ue_rnti s).
Proof.
  intros Hwf Hslot Hi Hr Hue Hm Hsame Ho. destruct o as [e|].
  - destruct Ho as (Hnone & Hok & Hnew & ->).
    destruct (bearer_put (nr_pdcp_ue_manager st) m ue_rnti i ue s (Some e)) as [Hwf2 Hb]; try done.
    set (st' := with_up _ _ _).
    assert (Hb' : forall rnti' s', pdcp_bearer st' rnti' s' =
      if decide (rnti' = ue_rnti /\ s' = s) then Some e else pdcp_bearer st rnti' s') by exact Hb.
    rewrite Hslot in Hnone. split; [split; [exact Hwf2|done|by exists ev| |]|].
    + intros rnti' s' e' He'. rewrite Hb'. destruct (decide _) as [[-> ->]|]; [congruence|done].
    + intros rnti' s' e'. rewrite Hb'. destruct (decide _) as [[-> ->]|]; [|by left]. intros [= <-]. by right.
    + rewrite Hb', decide_True by done. by eexists.
  - destruct Ho as [[e He] ->].
    assert (Hb' : forall rnti' s', pdcp_bearer (with_pdcp_manager st m) rnti' s' = pdcp_bearer st rnti' s')
      by exact Hsame.
    split; [|rewrite Hb', <- Hslot; by exists e].
    split; [exact Hm|done|exists []; by rewrite app_nil_r| |]; intros rnti' s' e'; rewrite Hb'; tauto.
Qed.

Lemma read_slot_ok ue srb_flag id o :
  read_slot ue srb_flag id = Ok o ->
  1 <= id /\ get_slot ue (if srb_flag then Srb (Z.to_nat (id - 1)) else Drb (Z.to_nat (id - 1))) = o.
Proof.
  unfold read_slot. destruct (Z.ltb_spec id 1); [done|].
  destruct srb_flag; destruct (_ !! _) eqn:E; try done; intros [= <-]; cbn; by rewrite E.
Qed.

Lemma sn_size_12_18 v n : decode_sn_size_dl v = Ok n -> n = 12 \/ n = 18.
Proof. unfold decode_sn_size_dl. destruct (v =? 0), (v =? 1); intros [= <-] || done; tauto. Qed.

Lemma add_pdcp_srb_spec (new : slot -> nr_pdcp_entity_t -> Prop) st g ue_rnti s ca ia ck ik st' :
  pdcp_module_wf st ->
  (forall e, srb_entity g ca ia s e -> new (Srb (Z.to_nat (srb_id s - 1))) e) ->
  add_srb st g ue_rnti s ca ia ck ik = Ok st' ->
  pdcp_config_rel new ue_rnti st st' /\ is_Some (pdcp_bearer st' ue_rnti (Srb (Z.to_nat (srb_id s - 1)))).
Proof.
  intros Hwf Hnew E. unfold add_srb, nr_pdcp_manager_get_ue in E. apply rbind_ok in E as (t & _ & E).
  destruct (bearer_get_ue _ ue_rnti Hwf) as (i & m & ue & Eg & Hi & Hr & Hue & Hwf1 & _ & Hslot & Hsame).
  rewrite Eg, Hi in E. apply rbind_ok in E as (o & Eo & E). apply read_slot_ok in Eo as [_ Eo].
  destruct o as [e0|].
  - injection E as <-. eapply (add_pdcp_spec _ _ _ _ _ _ _ None _ [] []); done.
  - apply rbind_ok in E as (e & Ee & E). apply rbind_ok in E as (ue' & Eu & [= <-]).
    apply add_srb_slot in Eu as [-> Hok]. pose proof (new_pdcp_wf _ _ _ _ _ _ _ _ _ _ _ _ _ _ _ (or_introl eq_refl) Ee).
    apply new_pdcp_fields in Ee as (? & ? & ? & ? & ? & ? & ? & ?).
    eapply (add_pdcp_spec _ _ _ _ _ _ _ (Some e) _ (sdap_list st) []); try done.
    split; [done|]. split; [done|]. split; [apply Hnew; unfold srb_entity; tauto|]. symmetry. exact (with_up_nil _).
Qed.

Lemma add_pdcp_drb_spec (new : slot -> nr_pdcp_entity_t -> Prop) st g ue_rnti d r ca ia ck ik st' :
  pdcp_module_wf st ->
  (forall e, drb_entity g ca ia d e -> new (Drb (Z.to_nat (drb_id d - 1))) e) ->
  add_drb st g ue_rnti d r ca ia ck ik = Ok st' ->
  pdcp_config_rel new ue_rnti st st' /\ is_Some (pdcp_bearer st' ue_rnti (Drb (Z.to_nat (drb_id d - 1)))).
Proof.
  intros Hwf Hnew E. unfold add_drb in E. apply rbind_ok in E as (r0 & _ & E).
  assert (E' : add_drb_am st g ue_rnti d ca ia ck ik = Ok st') by (by destruct r0). clear E. unfold add_drb_am in E'.
  apply rbind_ok in E' as (ul & _ & E). apply rbind_ok in E as (nul & _ & E).
  apply rbind_ok in E as (dl & Edl & E). apply deref_ok in Edl. apply rbind_ok in E as (n & En & E).
  apply rbind_ok in E as (dt & _ & E). apply rbind_ok in E as (ds & _ & E). apply rbind_ok in E as (tr & _ & E).
  cbv zeta in E. apply rbind_ok in E as ([[ps hu] hd] & _ & E). destruct (negb (_ =? _)); [discriminate E|].
  unfold nr_pdcp_manager_get_ue in E.
  destruct (bearer_get_ue _ ue_rnti Hwf) as (i & m & ue & Eg & Hi & Hr & Hue & Hwf1 & _ & Hslot & Hsame).
  rewrite Eg, Hi in E. apply rbind_ok in E as (o & Eo & E). apply read_slot_ok in Eo as [_ Eo].
  destruct o as [e0|].
  - injection E as <-. eapply (add_pdcp_spec _ _ _ _ _ _ _ None _ [] []); done.
  - apply rbind_ok in E as (e & Ee & E). apply rbind_ok in E as (ue' & Eu & E).
    apply rbind_ok in E as ([[k l] ev] & _ & [= <-]).
    apply add_drb_slot in Eu as [-> Hok]. pose proof (new_pdcp_wf _ _ _ _ _ _ _ _ _ _ _ _ _ _ _ (sn_size_12_18 _ _ En) Ee).
    apply new_pdcp_fields in Ee as (? & ? & ? & ? & Hn & Hca & Hia & ?).
    eapply (add_pdcp_spec _ _ _ _ _ _ _ (Some e) _ l ev); try done.
    split; [done|]. split; [done|]. split; [|done]. apply Hnew. do 3 (split; [done|]).
    split; [exists dl; by rewrite Hn|]. split; [rewrite Hca; by destruct (cipheringDisabled d)|].
    split; [rewrite Hia; by destruct (integrityProtection d)|]. by split.
Qed.

Lemma add_srbs_spec new ue_rnti add l st st' :
  (forall st s st', pdcp_module_wf st -> s ∈ l -> add st s = Ok st' ->
    pdcp_config_rel new ue_rnti st st' /\ is_Some (pdcp_bearer st' ue_rnti (Srb (Z.to_nat (srb_id s - 1))))) ->
  pdcp_module_wf st -> add_srbs st add l = Ok st' ->
  pdcp_config_rel new ue_rnti st st' /\
  forall s, s ∈ l -> is_Some (pdcp_bearer st' ue_rnti (Srb (Z.to_nat (srb_id s - 1)))).
Proof.
  revert st. induction l as [|s l IH]; intros st Hadd Hwf E; cbn [add_srbs] in E.
  - injection E as <-. split; [by apply pdcp_config_refl|]. intros s Hs. by apply not_elem_of_nil in Hs.
  - apply rbind_ok in E as (st1 & E1 & E). destruct (Hadd st s st1 Hwf) as [H1 Hs1]; [by left|done|].
    destruct (IH st1) as [H2 Hs2]; [|by apply (pconf_wf _ _ _ _ H1)|done|].
    { intros; eapply Hadd; [done|by right|done]. }
    split; [by eapply pdcp_config_trans|]. intros s' Hs'. apply elem_of_cons in Hs' as [-> |Hs']; [|by apply Hs2].
    by apply (pdcp_config_some _ _ _ _ _ H2).
Qed.

Lemma add_drbs_spec new ue_rnti add bs l i st st' :
  (forall st d r st', pdcp_module_wf st -> d ∈ l -> add st d r = Ok st' ->
    pdcp_config_rel new ue_rnti st st' /\ is_Some (pdcp_bearer st' ue_rnti (Drb (Z.to_nat (drb_id d - 1))))) ->
  pdcp_module_wf st -> add_drbs i st add bs l = Ok st' ->
  pdcp_config_rel new ue_rnti st st' /\
  forall d, d ∈ l -> is_Some (pdcp_bearer st' ue_rnti (Drb (Z.to_nat (drb_id d - 1)))).
Proof.
  revert i st. induction l as [|d l IH]; intros i st Hadd Hwf E; cbn [add_drbs] in E.
  - injection E as <-. split; [by apply pdcp_config_refl|]. intros d Hd. by apply not_elem_of_nil in Hd.
  - apply rbind_ok in E as (bl & _ & E). destruct (bl !! i) as [c|]; [|done].
    apply rbind_ok in E as (st1 & E1 & E). destruct (Hadd st d (rlc_Config c) st1 Hwf) as [H1 Hs1]; [by left|done|].
    destruct (IH (S i) st1) as [H2 Hs2]; [|by apply (pconf_wf _ _ _ _ H1)|done|].
    { intros; eapply Hadd; [done|by right|done]. }
    split; [by eapply pdcp_config_trans|]. intros d' Hd'. apply elem_of_cons in Hd' as [-> |Hd']; [|by apply Hs2].
    by apply (pdcp_config_some _ _ _ _ _ H2).
Qed.

(** ** Properties: configuration *)

(** The entities that a configuration asks for. *)
Definition asked_for (g : bool) (security_mode : Z) (srbs : list NR_SRB_ToAddMod) (drbs : list NR_DRB_ToAddMod)
  (s : slot) (e : nr_pdcp_entity_t) : Prop :=
  let ciphering := Z.land security_mode 0x0f in
  let integrity := Z.land (Z.shiftr security_mode 4) 0x0f in
  (exists c, c ∈ srbs /\ s = Srb (Z.to_nat (srb_id c - 1)) /\ srb_entity g ciphering integrity c e) \/
  (exists d, d ∈ drbs /\ s = Drb (Z.to_nat (drb_id d - 1)) /\ drb_entity g ciphering integrity d e).

(** A configuration of PDCP that returns keeps every bearer there was, of any UE, as it
    was, with its keys and its counters; the only outputs are those of SDAP entities.  A bearer
    that is new belongs to the configured UE, is the one that an element of the lists asks
    for (its type, identity, SN length, and whether it is ciphered and protected, from the
    two halves of the security mode), and is consistent.  Every SRB and DRB of the lists is
    there afterwards. *)
Theorem pdcp_config_bearers (st st' : pdcp_module) (ctxt : protocol_ctxt_t) (srbs : list NR_SRB_ToAddMod)
    (drbs : list NR_DRB_ToAddMod) (security_mode : Z) (kRRCenc kRRCint kUPenc kUPint : option (list Z)) (pmch : bool)
    (bearers : option (list NR_RLC_BearerConfig)) :
  pdcp_module_wf st ->
  nr_rrc_pdcp_config_asn1_req st ctxt (Some srbs) (Some drbs) security_mode kRRCenc kRRCint kUPenc kUPint pmch bearers
    = Ok st' ->
  pdcp_config_rel (asked_for (c_enb_flag ctxt) security_mode srbs drbs) (rnti ctxt) st st' /\
  (forall s, s ∈ srbs -> is_Some (pdcp_bearer st' (rnti ctxt) (Srb (Z.to_nat (srb_id s - 1))))) /\
  (forall d, d ∈ drbs -> is_Some (pdcp_bearer st' (rnti ctxt) (Drb (Z.to_nat (drb_id d - 1))))).
Proof.
  intros Hwf E. unfold nr_rrc_pdcp_config_asn1_req in E. destruct (_ || _); [done|]. cbv zeta in E.
  apply rbind_ok in E as (st1 & E1 & E2).
  apply (add_srbs_spec (asked_for (c_enb_flag ctxt) security_mode srbs drbs) (rnti ctxt)) in E1 as [H1 Hs1]; [|clear E2|done].
  2:{ intros st0 s st0' Hwf0 Hs. apply add_pdcp_srb_spec; [done|]. intros e He. left. by exists s. }
  apply (add_drbs_spec (asked_for (c_enb_flag ctxt) security_mode srbs drbs) (rnti ctxt)) in E2 as [H2 Hs2];
    [|clear E2|by apply (pconf_wf _ _ _ _ H1)].
  2:{ intros st0 d r st0' Hwf0 Hd. apply add_pdcp_drb_spec; [done|]. intros e He. right. by exists d. }
  split; [by eapply pdcp_config_trans|]. split; [|done].
  intros s Hs. apply (pdcp_config_some _ _ _ _ _ H2). by apply Hs1.
Qed.

Lemma pdcp_config_bearers_witness :
  exists st', nr_rrc_pdcp_config_asn1_req sample_pdcp (mk_ctxt 0 true 0 17 0 false) (Some [mk_srb_mod 1 None])
      (Some [mk_drb_mod 2 (Some 0) (Some 0) (Some 15) None true false (Some (eps_BearerIdentity 10))]) 0x22
      None None None None false (Some [RlcApi.default_drb]) = Ok st' /\
    is_Some (pdcp_bearer st' 17 (Srb 0)) /\ is_Some (pdcp_bearer st' 17 (Drb 1)) /\
    pdcp_bearer st' 17 (Drb 0) = pdcp_bearer sample_pdcp 17 (Drb 0).
Proof.
  eexists. split; [vm_compute; reflexivity|].
  match goal with |- context [pdcp_bearer ?st 17 (Srb 0)] =>
    destruct (pdcp_config_bearers sample_pdcp st (mk_ctxt 0 true 0 17 0 false) [mk_srb_mod 1 None]
      [mk_drb_mod 2 (Some 0) (Some 0) (Some 15) None true false (Some (eps_BearerIdentity 10))] 0x22
      None None None None false (Some [RlcApi.default_drb])) as (Hrel & Hs & Hd) end;
    [exact sample_pdcp_wf|vm_compute; reflexivity|].
  split; [|split].
  - exact (Hs (mk_srb_mod 1 None) ltac:(by left)).
  - exact (Hd _ ltac:(by left)).
  - apply (pconf_keeps _ _ _ _ Hrel). reflexivity.
Defined.

(** ** Lemmas: preconfiguration *)

Lemma get_entity_index l i ue_rnti sid k :
  get_entity_from i l ue_rnti sid = Some k -> (i <= k)%nat /\ is_Some (l !! (k - i)%nat).
Proof.
  revert i. induction l as [|e l IH]; intros i H; [done|]. cbn [get_entity_from] in H.
  assert (Hhere : (if (sdap_rnti e =? ue_rnti) && (sdap_pdusession_id e =? sid) then Some i else None) = Some k ->
    (i <= k)%nat /\ is_Some ((e :: l) !! (k - i)%nat)).
  { destruct (_ && _); [|done]. intros [= <-]. split; [done|]. rewrite Nat.sub_diag. by eexists. }
  destruct (negb _); [|by apply Hhere]. destruct l as [|e' l]; [by apply Hhere|].
  destruct (IH _ H) as [Hk [x Hx]]. split; [lia|]. exists x.
  replace (k - i)%nat with (S (k - S i)) by lia. exact Hx.
Qed.

Lemma new_sdap_returns l hs ue_rnti sid drb :
  exists k l', new_nr_sdap_entity l hs ue_rnti sid false drb [] = Ok (k, l', []).
Proof.
  unfold new_nr_sdap_entity. destruct (nr_sdap_get_entity l ue_rnti sid) as [k|] eqn:E; [|by do 2 eexists].
  apply get_entity_index in E as [_ [e He]]. rewrite Nat.sub_0_r in He. rewrite He. by do 2 eexists.
Qed.

(** Without security an entity is always created. *)
Lemma new_pdcp_plain t g rb ps h1 h2 h3 sn tr dt :
  exists e, new_nr_pdcp_entity t g rb ps h1 h2 h3 sn tr dt 0 0 None None = Ok e.
Proof. by eexists. Qed.

Lemma add_drb_1 (ue : ue_t nr_pdcp_entity_t) e :
  ue_wf ue -> get_slot ue (Drb 0) = None ->
  read_slot ue false 1 = Ok None /\ exists ue', nr_pdcp_ue_add_drb_pdcp_entity ue 1 e = Ok ue'.
Proof.
  intros (_ & Hd & _) Hn. destruct ue as [u su [|d0 du]]; [done|]. cbn in Hn. subst d0. split; [done|]. by eexists.
Qed.

Lemma read_drb_1 (ue : ue_t nr_pdcp_entity_t) e : get_slot ue (Drb 0) = Some e -> read_slot ue false 1 = Ok (Some e).
Proof. intros Hn. destruct ue as [u su [|d0 du]]; [done|]. cbn in Hn. by subst d0. Qed.

Lemma preconfigured_pdcp_returns st g ue_rnti :
  pdcp_module_wf st -> exists st', add_drb_am st g ue_rnti preconfigured_drb 0 0 None None = Ok st'.
Proof.
  intros Hwf. unfold add_drb_am, preconfigured_drb. cbn [pdcp_SN_SizeUL pdcp_SN_SizeDL discardTimer drb_t_Reordering
    drb_association cnAssociation drb_id integrityProtection cipheringDisabled deref rbind].
  assert (decode_sn_size_ul pdcp_SN_SizeUL_len18bits = Ok 18) as -> by done.
  assert (decode_sn_size_dl pdcp_SN_SizeDL_len18bits = Ok 18) as -> by done.
  assert (decode_discard_timer discardTimer_infinity = Ok (-1)) as -> by done.
  assert (decode_t_reordering t_Reordering_ms0 = Ok 0) as -> by done. cbn [rbind negb orb Z.eqb Pos.eqb].
  unfold nr_pdcp_manager_get_ue.
  destruct (bearer_get_ue _ ue_rnti Hwf) as (i & m & ue & -> & Hi & Hr & Hue & Hwf1 & _ & Hslot & Hsame).
  rewrite Hi. destruct (get_slot ue (Drb 0)) as [e0|] eqn:Es; [rewrite (read_drb_1 _ _ Es); by eexists|].
  destruct (new_sdap_returns (sdap_list st) false ue_rnti 10 1) as (k & l' & El).
  destruct (new_pdcp_plain NR_PDCP_DRB_AM g 1 10 (Z.b2z false) (Z.b2z false) (Z.b2z false) 18 0 (-1)) as [e Ee].
  destruct (add_drb_1 ue e Hue Es) as [-> [ue' Eu]]. cbn [rbind]. rewrite Ee. cbn [rbind]. rewrite Eu. cbn [rbind].
  rewrite El. by eexists.
Qed.

Lemma preconfigured_um : decode_um_config (nr_drb_config NR_RLC_Config_PR_um_Bi_Directional) = Ok (15, 12).
Proof. reflexivity. Qed.

Lemma add_rlc_drb_1 (ue : ue_t nr_rlc_entity_t) e :
  ue_wf ue -> get_slot ue (Drb 0) = None -> exists ue', nr_rlc_ue_add_drb_rlc_entity ue 1 e = Ok ue'.
Proof.
  intros (_ & Hd & _) Hn. destruct ue as [u su [|d0 du]]; [done|]. cbn in Hn. subst d0. by eexists.
Qed.

Lemma preconfigured_rlc_returns st ue_rnti :
  module_wf st -> exists st', RlcApi.add_drb st ue_rnti 1 preconfigured_rlc_bearer = Ok st'.
Proof.
  intros Hwf. unfold RlcApi.add_drb, preconfigured_rlc_bearer. cbn [deref rbind].
  change (exists st', add_drb_um st ue_rnti 1 preconfigured_rlc_bearer = Ok st'). unfold add_drb_um.
  assert (deref (rlc_Config preconfigured_rlc_bearer) = Ok (nr_drb_config NR_RLC_Config_PR_um_Bi_Directional)) as ->
    by reflexivity.
  assert (deref (logicalChannelGroup preconfigured_rlc_bearer) = Ok 1) as -> by reflexivity.
  cbn [negb andb Z.leb Z.compare Pos.compare Pos.compare_cont rbind Z.eqb Pos.eqb].
  rewrite preconfigured_um. cbn [rbind].
  assert (negb (logicalChannelIdentity preconfigured_rlc_bearer =? 1 + 3) = false) as -> by reflexivity.
  unfold add_bearer, nr_rlc_manager_get_ue.
  destruct (bearer_get_ue _ ue_rnti Hwf) as (i & m & ue & -> & Hi & Hr & Hue & _). rewrite Hi.
  change (Z.to_nat (1 - 1)) with 0%nat. destruct (get_slot ue (Drb 0)) as [e0|] eqn:Es; [by eexists|].
  assert (exists e, new_um 15 12 = Ok e) as [e ->] by (by eexists). cbn [rbind].
  destruct (add_rlc_drb_1 ue e Hue Es) as [ue' ->]. by eexists.
Qed.

(** The bearers that the preconfiguration asks for, when they are new. *)
Lemma preconfigured_drb_entity g e :
  asked_for g 0 [] [preconfigured_drb] (Drb 0) e ->
  p_rb_id e = 1 /\ p_is_gnb e = g /\ p_sn_size e = 18 /\ p_has_ciphering e = false /\ p_has_integrity e = false /\
  pdcp_wf e.
Proof.
  intros [(c & Hc & _)|(d & Hd & _ & H)]; [by apply not_elem_of_nil in Hc|].
  apply list_elem_of_singleton in Hd as ->. destruct H as (_ & Hg & Hid & (v & Hv & Hn) & Hc & Hi & _ & Hwf).
  injection Hv as <-. injection Hn as Hn. done.
Qed.

Lemma preconfigured_rlc_entity e :
  new_bearer [preconfigured_rlc_bearer] (Drb 0) e -> exists u, e = EntityUm u /\ um_sn_field_length u = 12 /\ um_wf u.
Proof.
  intros (c & Hc & _ & (r & Hr & H) & Hf). apply list_elem_of_singleton in Hc as ->. injection Hr as <-.
  destruct H as [(p & Hp & _)|(t & n & Hn & He)]; [discriminate Hp|]. rewrite preconfigured_um in Hn.
  injection Hn as <- <-. unfold new_um in He. apply rbind_ok in He as (u & Hu & [= <-]). exists u. split; [done|].
  injection Hu as <-. split; [done|]. apply Hf.
Qed.

(** ** Properties: preconfiguration *)

(** The preconfiguration of a DRB returns, in a gNB or in a UE of a program without eNBs,
    and keeps the bearers of both layers.  DRB 1 of the UE is there afterwards in both: where
    it is new it has SNs of 18 bits and no security in PDCP, and is in unacknowledged mode with
    SNs of 12 bits in RLC. *)
Theorem drb_preconfiguration (nb_enb_inst : Z) (enb_tun : bool) (pdcp : pdcp_module) (rlc : rlc_module) (crnti : Z) :
  pdcp_module_wf pdcp -> module_wf rlc -> enb_tun = true \/ nb_enb_inst = 0 ->
  exists pdcp' rlc', nr_DRB_preconfiguration nb_enb_inst enb_tun pdcp rlc crnti = Ok (pdcp', rlc') /\
    pdcp_config_rel (asked_for enb_tun 0 [] [preconfigured_drb]) crnti pdcp pdcp' /\
    config_rel [preconfigured_rlc_bearer] crnti rlc rlc' /\
    (exists e, pdcp_bearer pdcp' crnti (Drb 0) = Some e /\
      (pdcp_bearer pdcp crnti (Drb 0) = Some e \/
       p_rb_id e = 1 /\ p_is_gnb e = enb_tun /\ p_sn_size e = 18 /\ p_has_ciphering e = false /\
       p_has_integrity e = false /\ pdcp_wf e)) /\
    (exists e, bearer rlc' crnti (Drb 0) = Some e /\
      (bearer rlc crnti (Drb 0) = Some e \/
       exists u, e = EntityUm u /\ um_sn_field_length u = 12 /\ um_wf u)).
Proof.
  intros Hp Hr Hi.
  destruct (preconfigured_pdcp_returns pdcp enb_tun crnti Hp) as [pdcp' Ep].
  destruct (preconfigured_rlc_returns rlc crnti Hr) as [rlc' Er].
  destruct (add_pdcp_drb_spec (asked_for enb_tun 0 [] [preconfigured_drb]) pdcp enb_tun crnti preconfigured_drb
    (rlc_Config preconfigured_rlc_bearer) 0 0 None None pdcp' Hp) as [Hrel1 [e1 He1]]; [|exact Ep|].
  { intros e He. right. exists preconfigured_drb. split; [by left|done]. }
  destruct (RlcApi.add_drb_spec [preconfigured_rlc_bearer] rlc crnti 1 preconfigured_rlc_bearer rlc' Hr)
    as [Hrel2 [e2 He2]]; [by left|exact Er|].
  exists pdcp', rlc'. split; [|split; [done|split; [done|split]]].
  - unfold nr_DRB_preconfiguration, nr_rrc_pdcp_config_asn1_req. cbv zeta.
    assert (instance (ctxt_by_module_id nb_enb_inst 0 enb_tun crnti 0) = 0) as -> by (by destruct Hi as [-> | ->]; [|destruct enb_tun]).
    cbn [ctxt_by_module_id module_id eNB_index c_enb_flag rnti negb orb Z.eqb rbind add_drbs deref lookup list_lookup].
    change (Z.land 0 15) with 0. change (Z.land (Z.shiftr 0 4) 15) with 0.
    assert (add_drb pdcp enb_tun crnti preconfigured_drb (rlc_Config preconfigured_rlc_bearer) 0 0 None None = Ok pdcp')
      as -> by exact Ep. cbn [rbind].
    unfold nr_rrc_rlc_config_asn1_req. cbn [negb Z.eqb rbind config_list].
    change (drb_id preconfigured_drb) with 1. cbn [config_bearers].
    change (servedRadioBearer preconfigured_rlc_bearer) with (Some (drb_Identity 1)). cbn [serves_drb Z.eqb Pos.eqb].
    by rewrite Er.
  - exists e1. split; [done|]. destruct (pconf_new _ _ _ _ Hrel1 _ _ _ He1) as [|[_ H]]; [by left|right].
    by apply preconfigured_drb_entity.
  - exists e2. split; [done|]. destruct (conf_new _ _ _ _ Hrel2 _ _ _ He2) as [|[_ H]]; [by left|right].
    by apply preconfigured_rlc_entity.
Qed.

Lemma drb_preconfiguration_witness :
  exists pdcp' rlc', nr_DRB_preconfiguration 1 true sample_pdcp sample_module 18 = Ok (pdcp', rlc') /\
    is_Some (pdcp_bearer pdcp' 18 (Drb 0)) /\ is_Some (bearer rlc' 18 (Drb 0)).
Proof.
  destruct (drb_preconfiguration 1 true sample_pdcp sample_module 18 sample_pdcp_wf sample_module_wf (or_introl eq_refl))
    as (pdcp' & rlc' & E & _ & _ & (e1 & H1 & _) & (e2 & H2 & _)).
  exists pdcp', rlc'. split; [exact E|]. split; [by exists e1|by exists e2].
Defined.
