(* ===== verification/Downlink.v ===== *)
(** The downlink of a monolithic gNB: requests to PDCP, the [rlc_data_req] queue, its thread,
    and RLC, for any interleaving of the threads.

    A request runs under the lock of PDCP, and the queue is filled before it returns; the
    request is one step, not enabled while the queue is full.  The thread of the queue has the
    steps of the file PdcpQueue, its call being [rlc_data_req].

    The theorem [downlink_in_order] composes the theorems on the three parts: the requests that
    PDCP accepts reach RLC in the order of acceptance, each on its own bearer. *)

From S2P Require Import Prelude.
From S2P Require Import RlcEntity.
From S2P Require Import Pdcp.
From S2P Require Import UeManager.
From S2P Require Import Bearers.
From S2P Require Import RlcApi.
From S2P Require Import PdcpQueue.
From S2P Require Import PdcpApi.

(** An accepted request. *)
Record request := mk_request {
  rq_rnti : Z;
  rq_srb_flag : bool;
  rq_rb_id : Z;
  rq_mui : Z
}.

Record downlink := mk_downlink {
  d_pdcp : pdcp_module;
  d_system : system_t rlc_data_req_queue_item;
  d_rlc : rlc_module;
  d_accepted : list request
}.

(** The call of [rlc_data_req_thread]. *)
Definition call_rlc (rlc : rlc_module) (x : rlc_data_req_queue_item) : res rlc_module :=
  rlc_data_req rlc (ri_rnti x) (ri_srb_flag x) (ri_rb_id x) (ri_mui x) (ri_sdu x).

Section Downlink.

Context (ctr_crypt : list Z -> list Z -> list Z -> list Z) (cmac : list Z -> list Z -> list Z).

Inductive downlink_step : downlink -> downlink -> Prop :=
| dl_accept d ctxt srb_flag rb_id mui sdu pdcp' x q' :
    plain_ctxt ctxt ->
    pdcp_data_req ctr_crypt cmac (d_pdcp d) ctxt srb_flag rb_id mui sdu = Ok (pdcp', true) ->
    outputs pdcp' = outputs (d_pdcp d) ++ [RlcDataReq x] ->
    enqueue_rlc_data_req (queue (d_system d)) x = Some q' ->
    downlink_step d
      (mk_downlink pdcp' (mk_system q' (pc (d_system d)) (sent (d_system d) ++ [x]) (called (d_system d)))
         (d_rlc d) (d_accepted d ++ [mk_request (rnti ctxt) srb_flag rb_id mui]))
| dl_refuse d ctxt srb_flag rb_id mui sdu pdcp' :
    plain_ctxt ctxt ->
    pdcp_data_req ctr_crypt cmac (d_pdcp d) ctxt srb_flag rb_id mui sdu = Ok (pdcp', false) ->
    downlink_step d (mk_downlink pdcp' (d_system d) (d_rlc d) (d_accepted d))
| dl_next d i :
    pc (d_system d) = Waiting -> next_index (queue (d_system d)) = Some i ->
    downlink_step d
      (mk_downlink (d_pdcp d) (mk_system (queue (d_system d)) (Calling i) (sent (d_system d)) (called (d_system d)))
         (d_rlc d) (d_accepted d))
| dl_call d i x rlc' :
    pc (d_system d) = Calling i -> q_items (queue (d_system d)) !! Z.to_nat i = Some x ->
    call_rlc (d_rlc d) x = Ok rlc' ->
    downlink_step d
      (mk_downlink (d_pdcp d) (mk_system (queue (d_system d)) Returned (sent (d_system d)) (called (d_system d) ++ [x]))
         rlc' (d_accepted d))
| dl_release d :
    pc (d_system d) = Returned ->
    downlink_step d
      (mk_downlink (d_pdcp d)
         (mk_system (release RLC_DATA_REQ_QUEUE_SIZE (queue (d_system d))) Waiting (sent (d_system d)) (called (d_system d)))
         (d_rlc d) (d_accepted d)).

Definition init_downlink (pdcp : pdcp_module) (zero : rlc_data_req_queue_item) (rlc : rlc_module) : downlink :=
  mk_downlink pdcp (init_system RLC_DATA_REQ_QUEUE_SIZE zero) rlc [].

(** RLC called with items one after the other. *)
Fixpoint call_all (rlc : rlc_module) (l : list rlc_data_req_queue_item) : res rlc_module :=
  match l with
  | [] => Ok rlc
  | x :: tl => let* rlc := call_rlc rlc x in call_all rlc tl
  end.

Lemma call_all_snoc rlc l x rlc1 rlc2 :
  call_all rlc l = Ok rlc1 -> call_rlc rlc1 x = Ok rlc2 -> call_all rlc (l ++ [x]) = Ok rlc2.
Proof.
  revert rlc. induction l as [|y l IH]; intros rlc E1 E2.
  - injection E1 as ->. cbn. by rewrite E2.
  - cbn [call_all app] in *. apply rbind_ok in E1 as (r & -> & E1). cbn [rbind]. by apply IH.
Qed.

(** The item that carries a request: for the bearer of the request. *)
Definition carries (r : request) (x : rlc_data_req_queue_item) : Prop :=
  ri_rnti x = rq_rnti r /\ ri_mui x = rq_mui r /\ ri_srb_flag x = rq_srb_flag r /\ ri_rb_id x = rq_rb_id r /\
  is_Some (rb_slot (rq_srb_flag r) (rq_rb_id r)).

Lemma rb_slot_id srb_flag rb_id s :
  rb_slot srb_flag rb_id = Some s ->
  match s with Srb i => srb_flag = true /\ rb_id = Z.of_nat i + 1 | Drb i => srb_flag = false /\ rb_id = Z.of_nat i + 1 end.
Proof.
  unfold rb_slot. destruct srb_flag; destruct (_ && _) eqn:E; try done; apply andb_true_iff in E as [E1 E2];
    apply Z.leb_le in E1, E2; intros [= <-]; split; [done|lia|done|lia].
Qed.

(** A request that was accepted made one item, that carries it. *)
Lemma accepted_request st st' ctxt srb_flag rb_id mui sdu x :
  pdcp_module_wf st -> plain_ctxt ctxt ->
  pdcp_data_req ctr_crypt cmac st ctxt srb_flag rb_id mui sdu = Ok (st', true) ->
  outputs st' = outputs st ++ [RlcDataReq x] ->
  pdcp_module_wf st' /\ carries (mk_request (rnti ctxt) srb_flag rb_id mui) x.
Proof.
  intros Hwf Hc E Ho. pose proof (data_req_cases ctr_crypt cmac st ctxt srb_flag rb_id mui sdu Hwf Hc) as H.
  cbv zeta in H. rewrite E in H. destruct (rb_slot srb_flag rb_id) as [s|] eqn:Es; [|by destruct H as (? & ? & _)].
  cbn [mbind option_bind] in H.
  destruct (pdcp_bearer st (rnti ctxt) s) as [rb|]; [|by destruct H as (? & ? & _)].
  destruct (nr_pdcp_entity_recv_sdu _ _ _ _ _) as [rb2| |]; [|done|done].
  destruct H as (pdu & st1 & _ & [= <-] & Hwf' & _ & _ & Hout & _). split; [done|].
  rewrite Hout in Ho. apply app_inv_head in Ho. injection Ho as Ho. apply rb_slot_id in Es as Hs.
  unfold pdu_output in Ho. unfold carries; cbn [rq_rnti rq_mui rq_srb_flag rq_rb_id].
  destruct s as [i|i]; destruct Hs as [-> ->]; destruct (is_cu st); try discriminate Ho; injection Ho as <-;
    (split; [done|]); (split; [done|]); (split; [done|]); (split; [done|]); rewrite Es; by eexists.
Qed.

Lemma refused_request st st' ctxt srb_flag rb_id mui sdu :
  pdcp_module_wf st -> plain_ctxt ctxt ->
  pdcp_data_req ctr_crypt cmac st ctxt srb_flag rb_id mui sdu = Ok (st', false) -> pdcp_module_wf st'.
Proof.
  intros Hwf Hc E. pose proof (data_req_cases ctr_crypt cmac st ctxt srb_flag rb_id mui sdu Hwf Hc) as H.
  cbv zeta in H. rewrite E in H. destruct (rb_slot srb_flag rb_id) as [s|].
  2:{ by destruct H as (? & [= <-] & ? & _). }
  cbn [mbind option_bind] in H.
  destruct (pdcp_bearer st (rnti ctxt) s) as [rb|]; [|by destruct H as (? & [= <-] & ? & _)].
  destruct (nr_pdcp_entity_recv_sdu _ _ _ _ _) as [rb2| |]; [by destruct H as (? & ? & _ & ? & _)|done|done].
Qed.

(** The invariant of the composition. *)
Record downlink_inv (rlc : rlc_module) (d : downlink) : Prop := {
  di_wf : pdcp_module_wf (d_pdcp d);
  di_queue : rtc (queue_step RLC_DATA_REQ_QUEUE_SIZE) (init_system RLC_DATA_REQ_QUEUE_SIZE (mk_rlc_item 0 false 0 0 []))
    (d_system d);
  di_rlc : call_all rlc (called (d_system d)) = Ok (d_rlc d);
  di_carries : Forall2 carries (d_accepted d) (sent (d_system d))
}.

Lemma downlink_step_inv rlc d d' : downlink_inv rlc d -> downlink_step d d' -> downlink_inv rlc d'.
Proof.
  intros [H1 H2 H3 H4]. destruct 1 as [d ctxt srb_flag rb_id mui sdu pdcp' x q' Hc E Ho Eq
    |d ctxt srb_flag rb_id mui sdu pdcp' Hc E|d i Hp E|d i x rlc' Hp E Ec|d Hp].
  - destruct (accepted_request _ _ _ _ _ _ _ _ H1 Hc E Ho) as [Hwf Hx]. split; [done| |done|].
    + eapply rtc_r; [exact H2|]. by apply step_enqueue.
    + cbn. apply Forall2_app; [done|]. constructor; [exact Hx|constructor].
  - split; [by eapply refused_request|done|done|done].
  - split; [done| |done|done]. eapply rtc_r; [exact H2|]. by apply step_next.
  - split; [done| | |done].
    + eapply rtc_r; [exact H2|]. by eapply step_call.
    + cbn. by eapply call_all_snoc.
  - split; [done| |done|done]. eapply rtc_r; [exact H2|]. by apply step_release.
Qed.

Lemma downlink_reachable pdcp rlc d :
  pdcp_module_wf pdcp -> rtc downlink_step (init_downlink pdcp (mk_rlc_item 0 false 0 0 []) rlc) d -> downlink_inv rlc d.
Proof.
  intros Hwf H. assert (Hi : downlink_inv rlc (init_downlink pdcp (mk_rlc_item 0 false 0 0 []) rlc)).
  { split; [done|apply rtc_refl|done|constructor]. }
  induction H as [|d1 d2 d3 H12 H23 IH]; [done|]. apply IH. by eapply downlink_step_inv.
Qed.

End Downlink.

(** ** Properties *)

(** C25. Whatever the interleaving of the requests to PDCP with the thread of the queue, RLC is
    in the state that its calls give for the first of the accepted requests, in the order they
    were accepted, each with the RNTI, the bearer and the identifier of its request; the calls
    that are still to come are at most 10000. *)
Theorem downlink_in_order ctr_crypt cmac (pdcp : pdcp_module) (rlc : rlc_module) (d : downlink) :
  pdcp_module_wf pdcp ->
  rtc (downlink_step ctr_crypt cmac) (init_downlink pdcp (mk_rlc_item 0 false 0 0 []) rlc) d ->
  exists done_ todo pending,
    d_accepted d = done_ ++ todo /\
    call_all rlc (called (d_system d)) = Ok (d_rlc d) /\
    Forall2 carries done_ (called (d_system d)) /\ Forall2 carries todo pending /\
    Z.of_nat (length todo) <= RLC_DATA_REQ_QUEUE_SIZE.
Proof.
  intros Hwf H. apply downlink_reachable in H as [H1 H2 H3 H4]; [|done].
  apply reachable_inv in H2; [|done].
  assert (exists pending, sent (d_system d) = called (d_system d) ++ pending /\
    Z.of_nat (length pending) <= RLC_DATA_REQ_QUEUE_SIZE) as (pending & Hs & Hn).
  { unfold queue_inv in H2. destruct (pc (d_system d)).
    - destruct H2 as (l & Hh & Hs). exists l. split; [done|by apply Hh].
    - destruct H2 as (x & l & _ & Hh & Hs). exists (x :: l). split; [done|by apply Hh].
    - destruct H2 as (x & l & Hh & Hs). exists l. split; [done|]. pose proof (h_room _ _ _ Hh). cbn in *. lia. }
  rewrite Hs in H4. apply Forall2_app_inv_r in H4 as (l1 & l2 & Hl1 & Hl2 & Hl).
  exists l1, l2, pending. repeat (split; [done|]). by rewrite (Forall2_length Hl2).
Qed.

(** One SDU on DRB 1 of the sample gNB, taken by RLC. *)
Definition sample_item : rlc_data_req_queue_item := mk_rlc_item 17 false 1 3 [128; 0; 0; 7; 8].

Definition sample_sent : pdcp_module :=
  match pdcp_data_req (fun _ _ b => b) (fun _ _ => []) sample_pdcp (mk_ctxt 0 true 0 17 0 false) false 1 3 [7; 8] with
  | Ok (p, _) => p
  | _ => sample_pdcp
  end.

Definition sample_queue : queue_t rlc_data_req_queue_item :=
  let q := empty_queue RLC_DATA_REQ_QUEUE_SIZE (mk_rlc_item 0 false 0 0 []) in
  default q (enqueue_rlc_data_req q sample_item).

Definition sample_received : rlc_module :=
  match call_rlc sample_module sample_item with Ok r => r | _ => sample_module end.

Lemma downlink_in_order_witness :
  exists d, d_accepted d = [mk_request 17 false 1 3] /\ called (d_system d) = [sample_item] /\
    call_all sample_module [sample_item] = Ok (d_rlc d).
Proof.
  set (d := mk_downlink sample_sent (mk_system sample_queue Returned [sample_item] [sample_item]) sample_received
    [mk_request 17 false 1 3]).
  assert (H : rtc (downlink_step (fun _ _ b => b) (fun _ _ => []))
    (init_downlink sample_pdcp (mk_rlc_item 0 false 0 0 []) sample_module) d).
  { eapply rtc_l; [|eapply rtc_l; [|eapply rtc_once]].
    - eapply (dl_accept _ _ _ (mk_ctxt 0 true 0 17 0 false) false 1 3 [7; 8] sample_sent sample_item sample_queue);
        [repeat split| | |]; vm_compute; reflexivity.
    - apply (dl_next _ _ (mk_downlink sample_sent (mk_system sample_queue Waiting [sample_item] []) sample_module
        [mk_request 17 false 1 3]) 0); vm_compute; reflexivity.
    - apply (dl_call _ _ (mk_downlink sample_sent (mk_system sample_queue (Calling 0) [sample_item] []) sample_module
        [mk_request 17 false 1 3]) 0 sample_item sample_received); vm_compute; reflexivity. }
  exists d. split; [reflexivity|]. split; [reflexivity|].
  destruct (downlink_in_order _ _ _ _ _ sample_pdcp_wf H) as (_ & _ & _ & _ & E & _). exact E.
Defined.
