(* ===== verification/F1apIds.v ===== *)
(** The UE identities of the F1 interface: [f1ap_common.c].

    A CU and a DU each keep, per instance, an array of UEs with the RNTI and the two F1AP
    identities; a free entry has RNTI 0 and keeps the identities of the UE it was used for.
    The arrays of instances are lists of pointers; of the setup request an instance keeps
    only what [f1ap_assoc_id] reads, and its transport parameters are left out.

    The theorem [f1ap_ids_refine] compares the table of a CU with a map from the RNTIs of its
    UEs to their identities, for any sequence of UEs added and removed: in spite of the
    identities that free entries keep, every search gives what the map gives. *)

From S2P Require Import Prelude.

(** The build without [UE_EXPANSION] and [LARGE_SCALE]. *)
Definition MAX_MOBILES_PER_ENB : nat := 40.
Definition F1AP_TRANSACTION_IDENTIFIER_NUMBER : Z := 3.

Inductive F1_t : Type := DUtype | CUtype.

Record f1ap_cudu_ue_t := mk_f1ap_ue {
  f1_rnti : Z;
  f1ap_uid : Z;
  du_ue_f1ap_id : Z;
  cu_ue_f1ap_id : Z
}.

#[export] Instance eta_f1ap_ue : Eta f1ap_cudu_ue_t := fun u =>
  mk_f1ap_ue (f1_rnti u) (f1ap_uid u) (du_ue_f1ap_id u) (cu_ue_f1ap_id u).

Record f1ap_cudu_inst_t := mk_f1ap_inst {
  assoc_id : Z;
  num_ues : Z;
  f1ap_ue : list f1ap_cudu_ue_t
}.

#[export] Instance eta_f1ap_inst : Eta f1ap_cudu_inst_t := fun i =>
  mk_f1ap_inst (assoc_id i) (num_ues i) (f1ap_ue i).

(** The static variables of the file. *)
Record f1ap_state := mk_f1ap {
  f1_du_inst : list (option f1ap_cudu_inst_t);
  f1_cu_inst : list (option f1ap_cudu_inst_t);
  transaction_identifier : list Z
}.

#[export] Instance eta_f1ap : Eta f1ap_state := fun s =>
  mk_f1ap (f1_du_inst s) (f1_cu_inst s) (transaction_identifier s).

(** ** Instances *)

(** The sum of the two modules is the index, which is not checked. *)
Definition F1AP_get_next_transaction_identifier (st : f1ap_state) (enb_mod_idP cu_mod_idP : Z)
  : res (f1ap_state * Z) :=
  let i := enb_mod_idP + cu_mod_idP in
  if i <? 0 then Fault OutOfBounds
  else
    match transaction_identifier st !! Z.to_nat i with
    | None => Fault OutOfBounds
    | Some x =>
      let x' := cmod (x + 1) F1AP_TRANSACTION_IDENTIFIER_NUMBER in
      Ok (st <| transaction_identifier := <[Z.to_nat i := x']> (transaction_identifier st) |>, x')
    end.

Definition insts (st : f1ap_state) (isCU : F1_t) : list (option f1ap_cudu_inst_t) :=
  match isCU with CUtype => f1_cu_inst st | DUtype => f1_du_inst st end.

Definition set_insts (st : f1ap_state) (isCU : F1_t) (l : list (option f1ap_cudu_inst_t)) : f1ap_state :=
  match isCU with CUtype => st <| f1_cu_inst := l |> | DUtype => st <| f1_du_inst := l |> end.

(** The assertion compares a signed number with an unsigned one: a negative instance fails
    it too. *)
Definition getCxt (st : f1ap_state) (isCU : F1_t) (instanceP : Z) : res (option f1ap_cudu_inst_t) :=
  if (instanceP <? 0) || (instanceP >=? Z.of_nat (length (f1_cu_inst st))) then Exit
  else
    match insts st isCU !! Z.to_nat instanceP with
    | Some o => Ok o
    | None => Fault OutOfBounds
    end.

(** [calloc]: all entries zero. *)
Definition zero_inst : f1ap_cudu_inst_t :=
  mk_f1ap_inst 0 0 (replicate MAX_MOBILES_PER_ENB (mk_f1ap_ue 0 0 0 0)).

(** The setup request, here its association, is kept by a DU only. *)
Definition createF1inst (st : f1ap_state) (isCU : F1_t) (instanceP req_assoc_id : Z) : res f1ap_state :=
  if instanceP <? 0 then Fault OutOfBounds
  else
    match insts st isCU !! Z.to_nat instanceP with
    | None => Fault OutOfBounds
    | Some (Some _) => Exit
    | Some None =>
      let inst := match isCU with CUtype => zero_inst | DUtype => zero_inst <| assoc_id := req_assoc_id |> end in
      Ok (set_insts st isCU (<[Z.to_nat instanceP := Some inst]> (insts st isCU)))
    end.

(** The functions below read [f1_inst->...] and may write it: [f] gives the result. *)
Definition with_inst {A} (st : f1ap_state) (isCu : F1_t) (instanceP : Z)
  (f : f1ap_cudu_inst_t -> f1ap_cudu_inst_t * A) : res (f1ap_state * A) :=
  let* o := getCxt st isCu instanceP in
  match o with
  | None => Fault NullDeref
  | Some inst =>
    let '(inst, a) := f inst in
    Ok (set_insts st isCu (<[Z.to_nat instanceP := Some inst]> (insts st isCu)), a)
  end.

(** ** UEs *)

(** The loops stop at the first entry with the property. *)
Definition find_rnti (l : list f1ap_cudu_ue_t) (rntiP : Z) : option (nat * f1ap_cudu_ue_t) :=
  list_find (fun u => f1_rnti u = rntiP) l.

Definition find_du (l : list f1ap_cudu_ue_t) (id : Z) : option (nat * f1ap_cudu_ue_t) :=
  list_find (fun u => du_ue_f1ap_id u = id) l.

Definition find_cu (l : list f1ap_cudu_ue_t) (id : Z) : option (nat * f1ap_cudu_ue_t) :=
  list_find (fun u => cu_ue_f1ap_id u = id) l.

(** The body of the functions that add a UE, and of the one that removes it. *)
Definition add_to_inst (rntiP du_id : Z) (f1_inst : f1ap_cudu_inst_t) : f1ap_cudu_inst_t * Z :=
  let l := f1ap_ue f1_inst in
  match find_rnti l rntiP with
  | Some (i, u) => (f1_inst <| f1ap_ue := <[i := u <| f1ap_uid := Z.of_nat i |>]> l |>, Z.of_nat i)
  | None =>
    match find_rnti l 0 with
    | Some (i, _) =>
      (f1_inst <| f1ap_ue := <[i := mk_f1ap_ue rntiP (Z.of_nat i) du_id rntiP]> l |>
               <| num_ues := u16 (num_ues f1_inst + 1) |>, Z.of_nat i)
    | None => (f1_inst, -1)
    end
  end.

(** The number of UEs is decreased whether or not the UE was found. *)
Definition remove_from_inst (rntiP : Z) (f1_inst : f1ap_cudu_inst_t) : f1ap_cudu_inst_t * Z :=
  let l := f1ap_ue f1_inst in
  let l := match find_rnti l rntiP with Some (i, u) => <[i := u <| f1_rnti := 0 |>]> l | None => l end in
  (f1_inst <| f1ap_ue := l |> <| num_ues := u16 (num_ues f1_inst - 1) |>, 0).

Definition f1ap_add_osc_ue (st : f1ap_state) (isCu : F1_t) (instanceP rntiP du_id : Z) : res (f1ap_state * Z) :=
  with_inst st isCu instanceP (add_to_inst rntiP du_id).

(** The same code with the RNTI for the identity in the DU. *)
Definition f1ap_add_ue (st : f1ap_state) (isCu : F1_t) (instanceP rntiP : Z) : res (f1ap_state * Z) :=
  f1ap_add_osc_ue st isCu instanceP rntiP rntiP.

Definition f1ap_remove_ue (st : f1ap_state) (isCu : F1_t) (instanceP rntiP : Z) : res (f1ap_state * Z) :=
  with_inst st isCu instanceP (remove_from_inst rntiP).

(** The searches return an [int]. *)
Definition found (get : f1ap_cudu_ue_t -> Z) (o : option (nat * f1ap_cudu_ue_t)) : Z :=
  match o with Some (_, u) => i32 (get u) | None => -1 end.

Definition read_inst (st : f1ap_state) (isCu : F1_t) (instanceP : Z)
  (f : list f1ap_cudu_ue_t -> Z) : res Z :=
  let* o := getCxt st isCu instanceP in
  match o with
  | None => Fault NullDeref
  | Some inst => Ok (f (f1ap_ue inst))
  end.

Definition f1ap_get_du_ue_f1ap_id (st : f1ap_state) (isCu : F1_t) (instanceP rntiP : Z) : res Z :=
  read_inst st isCu instanceP (fun l => found du_ue_f1ap_id (find_rnti l rntiP)).

Definition f1ap_get_cu_ue_f1ap_id (st : f1ap_state) (isCu : F1_t) (instanceP rntiP : Z) : res Z :=
  read_inst st isCu instanceP (fun l => found cu_ue_f1ap_id (find_rnti l rntiP)).

Definition f1ap_get_rnti_by_du_id (st : f1ap_state) (isCu : F1_t) (instanceP du_id : Z) : res Z :=
  read_inst st isCu instanceP (fun l => found f1_rnti (find_du l du_id)).

Definition f1ap_get_rnti_by_cu_id (st : f1ap_state) (isCu : F1_t) (instanceP cu_id : Z) : res Z :=
  read_inst st isCu instanceP (fun l => found f1_rnti (find_cu l cu_id)).

Definition f1ap_du_add_cu_ue_id (st : f1ap_state) (instanceP du_id cu_id : Z) : res (f1ap_state * Z) :=
  with_inst st DUtype instanceP (fun f1_inst =>
    let l := f1ap_ue f1_inst in
    match find_du l du_id with
    | Some (i, u) => (f1_inst <| f1ap_ue := <[i := u <| cu_ue_f1ap_id := cu_id |>]> l |>, 0)
    | None => (f1_inst, -1)
    end).

Definition f1ap_assoc_id (st : f1ap_state) (isCu : F1_t) (instanceP : Z) : res Z :=
  let* o := getCxt st isCu instanceP in
  match o with
  | None => Fault NullDeref
  | Some inst => Ok (assoc_id inst)
  end.

(** ** Lemmas: the table *)

Definition live (u : f1ap_cudu_ue_t) : Prop := f1_rnti u <> 0.

(** No entry, used or free, has an identity or the RNTI of a UE behind it. *)
Definition table_ok (t : list f1ap_cudu_ue_t) : Prop :=
  forall i j u v, (i < j)%nat -> t !! i = Some u -> t !! j = Some v -> live v ->
    f1_rnti u <> f1_rnti v /\ du_ue_f1ap_id u <> du_ue_f1ap_id v /\ cu_ue_f1ap_id u <> cu_ue_f1ap_id v.

(** The map that the table stands for. *)
Definition represents (t : list f1ap_cudu_ue_t) (m : gmap Z (Z * Z)) : Prop :=
  forall r d c, m !! r = Some (d, c) <->
    r <> 0 /\ exists i u, t !! i = Some u /\ f1_rnti u = r /\ du_ue_f1ap_id u = d /\ cu_ue_f1ap_id u = c.

(** The first entry with a key is the UE that has it. *)
Lemma find_live (key : f1ap_cudu_ue_t -> Z) t j v :
  (forall i u, (i < j)%nat -> t !! i = Some u -> key u <> key v) -> t !! j = Some v ->
  list_find (fun u => key u = key v) t = Some (j, v).
Proof.
  intros H Hj. apply list_find_Some. split; [done|]. split; [done|].
  intros i u Hi Hlt. by apply (H i).
Qed.

Lemma find_rnti_live t j v : table_ok t -> t !! j = Some v -> live v -> find_rnti t (f1_rnti v) = Some (j, v).
Proof. intros Ht Hj Hv. apply find_live; [|done]. intros i u Hi Hu. by destruct (Ht i j u v). Qed.

Lemma find_rnti_absent t m r : represents t m -> r <> 0 -> m !! r = None -> find_rnti t r = None.
Proof.
  intros Hm Hr Hn. destruct (find_rnti t r) as [[i u]|] eqn:E; [|done].
  apply list_find_Some in E as (Hi & Hu & _). exfalso.
  assert (m !! r = Some (du_ue_f1ap_id u, cu_ue_f1ap_id u)); [|congruence].
  apply Hm. split; [done|]. by exists i, u.
Qed.

Lemma zero_table_ok : table_ok (f1ap_ue zero_inst) /\ represents (f1ap_ue zero_inst) ∅.
Proof.
  assert (Hz : forall i u, f1ap_ue zero_inst !! i = Some u -> f1_rnti u = 0).
  { intros i u H. apply lookup_replicate in H as [-> _]. done. }
  split.
  - intros i j u v _ _ Hj Hv. destruct Hv. by eapply Hz.
  - intros r d c. rewrite lookup_empty. split; [done|]. intros (Hr & i & u & Hi & <- & _). destruct Hr. by eapply Hz.
Qed.

Lemma insert_cases {A} (t : list A) k x i u :
  <[k := x]> t !! i = Some u -> (i = k /\ u = x /\ (k < length t)%nat) \/ (i <> k /\ t !! i = Some u).
Proof.
  intros H. destruct (decide (i = k)) as [->|Hne].
  - left. apply list_lookup_insert_Some in H as [(_ & <- & ?)|[? ?]]; done.
  - right. by rewrite list_lookup_insert_ne in H.
Qed.

(** A UE put into the first free entry. *)
Lemma table_add t m k u0 r d :
  table_ok t -> represents t m -> r <> 0 -> m !! r = None ->
  (forall r' d' c', m !! r' = Some (d', c') -> d' <> d /\ c' <> r) ->
  find_rnti t 0 = Some (k, u0) ->
  let t' := <[k := mk_f1ap_ue r (Z.of_nat k) d r]> t in
  table_ok t' /\ represents t' (<[r := (d, r)]> m).
Proof.
  intros Ht Hm Hr Hn Hd Hk. apply list_find_Some in Hk as (Hk & Hu0 & Hfirst).
  assert (Hlive : forall i u, t !! i = Some u -> live u ->
    f1_rnti u <> r /\ du_ue_f1ap_id u <> d /\ cu_ue_f1ap_id u <> r).
  { intros i u Hi Hu. assert (Hmu : m !! f1_rnti u = Some (du_ue_f1ap_id u, cu_ue_f1ap_id u))
      by (apply Hm; split; [done|]; by exists i, u). destruct (Hd _ _ _ Hmu). split; [|done]. congruence. }
  split.
  - intros i j u v Hij Hi Hj Hv.
    apply insert_cases in Hi as [(-> & -> & _)|[Hik Hi]]; apply insert_cases in Hj as [(-> & -> & _)|[Hjk Hj]]; [lia| | |by eapply Ht].
    + destruct (Hlive _ _ Hj Hv) as (? & ? & ?). cbn. done.
    + assert (Hu : live u) by (intros Hz; by apply (Hfirst i u)). destruct (Hlive _ _ Hi Hu) as (? & ? & ?). cbn. done.
  - intros r' d' c'. split.
    + intros H. apply lookup_insert_Some in H as [[<- [= <- <-]]|[Hne H]].
      * split; [done|]. exists k. eexists. split; [apply list_lookup_insert_eq; by eapply lookup_lt_Some|done].
      * apply Hm in H as (Hr' & i & u & Hi & <- & <- & <-). split; [done|]. exists i, u.
        rewrite list_lookup_insert_ne; [done|]. intros ->. congruence.
    + intros (Hr' & i & u & Hi & <- & <- & <-). apply insert_cases in Hi as [(_ & -> & _)|[Hik Hi]].
      * apply lookup_insert_eq.
      * rewrite lookup_insert_ne; [|intros ->; by destruct (Hlive _ _ Hi Hr')].
        apply Hm. split; [done|]. by exists i, u.
Qed.

(** An entry rewritten without a change of its keys. *)
Lemma table_same t m k u u' :
  t !! k = Some u -> f1_rnti u' = f1_rnti u -> du_ue_f1ap_id u' = du_ue_f1ap_id u -> cu_ue_f1ap_id u' = cu_ue_f1ap_id u ->
  table_ok t -> represents t m -> table_ok (<[k := u']> t) /\ represents (<[k := u']> t) m.
Proof.
  intros Hk H1 H2 H3 Ht Hm.
  assert (Hback : forall i x, <[k := u']> t !! i = Some x -> exists y, t !! i = Some y /\
    f1_rnti x = f1_rnti y /\ du_ue_f1ap_id x = du_ue_f1ap_id y /\ cu_ue_f1ap_id x = cu_ue_f1ap_id y).
  { intros i x H. apply insert_cases in H as [(-> & -> & _)|[_ H]]; [by exists u|by exists x]. }
  split.
  - intros i j x y Hij Hi Hj Hy. apply Hback in Hi as (x' & Hi & -> & -> & ->), Hj as (y' & Hj & Ey & -> & ->).
    unfold live in Hy. rewrite Ey in Hy |- *. by eapply Ht.
  - intros r d c. rewrite (Hm r d c). split; intros (Hr & i & x & Hi & <- & <- & <-); (split; [done|]).
    + destruct (decide (i = k)) as [->|]; [|exists i, x; by rewrite list_lookup_insert_ne].
      exists k, u'. rewrite list_lookup_insert_eq by (by eapply lookup_lt_Some). rewrite H1, H2, H3. split; [done|].
      by replace x with u by congruence.
    + apply Hback in Hi as (y & Hi & E1 & E2 & E3). by exists i, y.
Qed.

(** A UE whose entry is freed. *)
Lemma table_remove t m k u :
  table_ok t -> represents t m -> t !! k = Some u -> live u ->
  let t' := <[k := u <| f1_rnti := 0 |>]> t in table_ok t' /\ represents t' (delete (f1_rnti u) m).
Proof.
  intros Ht Hm Hk Hu. split.
  - intros i j x y Hij Hi Hj Hy.
    apply insert_cases in Hj as [(_ & -> & _)|[Hjk Hj]]; [by destruct Hy|].
    apply insert_cases in Hi as [(-> & -> & _)|[Hik Hi]]; [|by eapply Ht].
    destruct (Ht k j u y Hij Hk Hj Hy) as (_ & H2 & H3). cbn. split; [|done]. intros E. by destruct Hy.
  - intros r d c. split.
    + intros H. apply lookup_delete_Some in H as [Hne H]. apply Hm in H as (Hr & i & x & Hi & <- & <- & <-).
      split; [done|]. exists i, x. rewrite list_lookup_insert_ne; [done|]. intros ->. congruence.
    + intros (Hr & i & x & Hi & <- & <- & <-). apply insert_cases in Hi as [(_ & -> & _)|[Hik Hi]]; [by destruct Hr|].
      apply lookup_delete_Some. split; [|apply Hm; split; [done|]; by exists i, x].
      intros E. destruct (decide (i < k)%nat) as [Hlt|].
      * by destruct (Ht i k x u Hlt Hi Hk Hu).
      * assert (Hlt : (k < i)%nat) by lia. by destruct (Ht k i u x Hlt Hk Hi Hr).
Qed.

(** A table without a free entry has as many UEs as entries. *)
Lemma table_full t m : table_ok t -> represents t m -> find_rnti t 0 = None -> size m = length t.
Proof.
  intros Ht Hm Hf. assert (Hlive : forall i u, t !! i = Some u -> live u).
  { intros i u Hi Hz. apply list_find_None in Hf. rewrite Forall_lookup in Hf. by apply (Hf i u). }
  rewrite <- size_dom. assert (dom m = list_to_set (C := gset Z) (f1_rnti <$> t)) as ->.
  { apply set_eq. intros r. rewrite elem_of_list_to_set, list_elem_of_fmap, elem_of_dom. split.
    - intros [[d c] H]. apply Hm in H as (_ & i & u & Hi & <- & _). exists u. split; [done|]. by eapply list_elem_of_lookup_2.
    - intros (u & -> & Hu). apply list_elem_of_lookup in Hu as [i Hi]. eexists. apply Hm.
      split; [by eapply Hlive|]. by exists i, u. }
  rewrite size_list_to_set; [by rewrite length_fmap|]. apply NoDup_alt. intros i j r Hi Hj.
  rewrite list_lookup_fmap in Hi, Hj. destruct (t !! i) as [u|] eqn:Eu, (t !! j) as [v|] eqn:Ev; try done.
  injection Hi as Hi. injection Hj as Hj. destruct (Nat.lt_trichotomy i j) as [Hlt|[->|Hlt]]; [|done|].
  - destruct (Ht i j u v Hlt Eu Ev (Hlive _ _ Ev)) as [H _]. congruence.
  - destruct (Ht j i v u Hlt Ev Eu (Hlive _ _ Eu)) as [H _]. congruence.
Qed.

(** ** Lemmas: the instance of a CU *)

(** The instance [n] of the CU, when it is created. *)
Definition cu_inst (st : f1ap_state) (n : Z) : option f1ap_cudu_inst_t :=
  if n <? 0 then None else mjoin (f1_cu_inst st !! Z.to_nat n).

Lemma getCxt_cu st n inst : cu_inst st n = Some inst -> getCxt st CUtype n = Ok (Some inst).
Proof.
  unfold cu_inst, getCxt. destruct (n <? 0) eqn:Hn; [done|]. cbn [orb insts].
  destruct (f1_cu_inst st !! Z.to_nat n) as [o|] eqn:E; [|done]. cbn. intros ->.
  pose proof (lookup_lt_Some _ _ _ E). destruct (Z.geb_spec n (Z.of_nat (length (f1_cu_inst st)))); [lia|done].
Qed.

Lemma with_inst_cu {A} st n inst (f : f1ap_cudu_inst_t -> f1ap_cudu_inst_t * A) :
  cu_inst st n = Some inst ->
  exists st', with_inst st CUtype n f = Ok (st', (f inst).2) /\ cu_inst st' n = Some (f inst).1.
Proof.
  intros H. unfold with_inst. rewrite (getCxt_cu _ _ _ H). cbn [rbind]. destruct (f inst) as [inst' a].
  eexists. split; [reflexivity|]. unfold cu_inst in *. destruct (n <? 0); [done|]. cbn in *.
  destruct (f1_cu_inst st !! Z.to_nat n) as [o|] eqn:E; [|done].
  by rewrite list_lookup_insert_eq by (by eapply lookup_lt_Some).
Qed.

(** The map stands for the table of the instance; its keys are RNTIs. *)
Definition f1ap_inv (n : Z) (s : f1ap_state * gmap Z (Z * Z)) : Prop :=
  exists inst, cu_inst s.1 n = Some inst /\ length (f1ap_ue inst) = MAX_MOBILES_PER_ENB /\
    table_ok (f1ap_ue inst) /\ represents (f1ap_ue inst) s.2 /\
    forall r d c, s.2 !! r = Some (d, c) -> 0 < r < 2 ^ 16 /\ c = r.

(** ** Sequences of operations *)

(** The operations of a CU, with the map beside the state.  The identity of a new UE is not
    one of a UE there is, as a DU assigns them. *)
Inductive f1ap_step (n : Z) : f1ap_state * gmap Z (Z * Z) -> f1ap_state * gmap Z (Z * Z) -> Prop :=
| fs_add st m r d st' uid :
    0 < r < 2 ^ 16 -> m !! r = None -> (forall r' d' c', m !! r' = Some (d', c') -> d' <> d) ->
    f1ap_add_osc_ue st CUtype n r d = Ok (st', uid) ->
    f1ap_step n (st, m) (st', if uid =? -1 then m else <[r := (d, r)]> m)
| fs_again st m r d st' uid :
    is_Some (m !! r) -> f1ap_add_osc_ue st CUtype n r d = Ok (st', uid) ->
    f1ap_step n (st, m) (st', m)
| fs_remove st m r st' x :
    f1ap_remove_ue st CUtype n r = Ok (st', x) ->
    f1ap_step n (st, m) (st', delete r m).

Lemma inv_entry n st m inst r d c :
  f1ap_inv n (st, m) -> cu_inst st n = Some inst -> m !! r = Some (d, c) ->
  exists i u, f1ap_ue inst !! i = Some u /\ live u /\ f1_rnti u = r /\ du_ue_f1ap_id u = d /\ cu_ue_f1ap_id u = c /\
    find_rnti (f1ap_ue inst) r = Some (i, u).
Proof.
  intros (inst' & Hi & _ & Ht & Hm & _) Hi' H. cbn in Hi. assert (inst' = inst) as -> by congruence.
  apply Hm in H as (Hr & i & u & Hu & <- & <- & <-). exists i, u. do 5 (split; [done|]). by apply find_rnti_live.
Qed.

(** The three bodies keep the invariant. *)
Lemma add_new_inv n st m st' r d uid :
  f1ap_inv n (st, m) -> 0 < r < 2 ^ 16 -> m !! r = None ->
  (forall r' d' c', m !! r' = Some (d', c') -> d' <> d) ->
  f1ap_add_osc_ue st CUtype n r d = Ok (st', uid) ->
  f1ap_inv n (st', if uid =? -1 then m else <[r := (d, r)]> m) /\ (uid = -1 -> size m = MAX_MOBILES_PER_ENB).
Proof.
  intros (inst & Hi & Hlen & Ht & Hm & Hr) Hrange Hn Hd E. cbn in Hi, Hm, Hr. assert (Hr0 : r <> 0) by lia.
  destruct (with_inst_cu st n inst (add_to_inst r d) Hi) as (st1 & E1 & Hi1).
  unfold f1ap_add_osc_ue in E. rewrite E1 in E. injection E as <- Euid. unfold add_to_inst in Hi1, Euid.
  rewrite (find_rnti_absent _ m r Hm Hr0 Hn) in Hi1, Euid.
  destruct (find_rnti (f1ap_ue inst) 0) as [[k u0]|] eqn:Ek; cbn [fst snd] in Hi1, Euid.
  - rewrite (proj2 (Z.eqb_neq uid (-1))) by lia. split; [|lia]. eexists. split; [exact Hi1|]. cbn [f1ap_ue update].
    split; [by rewrite length_insert|].
    destruct (table_add _ m k u0 r d Ht Hm Hr0 Hn) as [Ht' Hm']; [|done|].
    { intros r' d' c' H'. split; [by eapply Hd|]. destruct (Hr _ _ _ H') as [_ ->]. congruence. }
    split; [done|]. split; [done|]. intros r' d' c' H'. cbn in H'.
    apply lookup_insert_Some in H' as [[<- [= <- <-]]|[_ H']]; [done|by eapply Hr].
  - subst uid. split; [by exists inst|]. intros _. rewrite <- Hlen. by apply table_full.
Qed.

Lemma add_again_inv n st m st' r d uid :
  f1ap_inv n (st, m) -> is_Some (m !! r) -> f1ap_add_osc_ue st CUtype n r d = Ok (st', uid) -> f1ap_inv n (st', m).
Proof.
  intros Hinv [[d0 c0] Hsome] E. pose proof Hinv as (inst & Hi & Hlen & Ht & Hm & Hr). cbn in Hi, Hm, Hr.
  destruct (inv_entry n st m inst r d0 c0 Hinv Hi Hsome) as (i & u & Hu & _ & Hur & _ & _ & Ef).
  destruct (with_inst_cu st n inst (add_to_inst r d) Hi) as (st1 & E1 & Hi1).
  unfold f1ap_add_osc_ue in E. rewrite E1 in E. injection E as <- _. unfold add_to_inst in Hi1. rewrite Ef in Hi1.
  eexists. split; [exact Hi1|]. cbn [f1ap_ue update fst]. split; [by rewrite length_insert|].
  apply Logic.and_assoc. split; [|exact Hr]. by eapply table_same.
Qed.

Lemma remove_inv n st m st' r x :
  f1ap_inv n (st, m) -> f1ap_remove_ue st CUtype n r = Ok (st', x) -> f1ap_inv n (st', delete r m).
Proof.
  intros Hinv E. pose proof Hinv as (inst & Hi & Hlen & Ht & Hm & Hr). cbn in Hi, Hm, Hr.
  destruct (with_inst_cu st n inst (remove_from_inst r) Hi) as (st1 & E1 & Hi1).
  unfold f1ap_remove_ue in E. rewrite E1 in E. injection E as <- _. unfold remove_from_inst in Hi1.
  eexists. split; [exact Hi1|]. cbn [f1ap_ue update fst snd].
  assert (Hsub : forall r' d' c', delete r m !! r' = Some (d', c') -> 0 < r' < 2 ^ 16 /\ c' = r').
  { intros r' d' c' H. apply lookup_delete_Some in H as [_ H]. by eapply Hr. }
  destruct (find_rnti (f1ap_ue inst) r) as [[i u]|] eqn:Ef.
  - split; [by rewrite length_insert|]. apply list_find_Some in Ef as (Hu & <- & _).
    destruct (decide (f1_rnti u = 0)) as [Hz|Hz].
    + assert (Hdel : delete (f1_rnti u) m = m).
      { apply delete_id. destruct (m !! f1_rnti u) as [[d c]|] eqn:E; [destruct (Hr _ _ _ E); lia|done]. }
      rewrite Hdel in *. apply Logic.and_assoc. split; [|exact Hsub]. by eapply table_same.
    + apply Logic.and_assoc. split; [|exact Hsub]. by eapply table_remove.
  - assert (Hdel : delete r m = m).
    { apply delete_id. destruct (m !! r) as [[d c]|] eqn:E; [|done].
      destruct (inv_entry n st m inst r d c Hinv Hi E) as (i & u & _ & _ & _ & _ & _ & E'). congruence. }
    rewrite Hdel in *. by repeat (split; [done|]).
Qed.

Lemma f1ap_step_inv n s s' : f1ap_inv n s -> f1ap_step n s s' -> f1ap_inv n s'.
Proof.
  intros Hinv Hs. destruct Hs.
  - by eapply add_new_inv.
  - by eapply add_again_inv.
  - by eapply remove_inv.
Qed.

Lemma f1ap_created_inv st st' n x :
  createF1inst st CUtype n x = Ok st' -> f1ap_inv n (st', ∅).
Proof.
  unfold createF1inst. destruct (n <? 0) eqn:Hn; [done|]. cbn [insts].
  destruct (f1_cu_inst st !! Z.to_nat n) as [[|]|] eqn:E; try done. intros [= <-].
  exists zero_inst. destruct zero_table_ok as [Ht Hm].
  split; [unfold cu_inst; rewrite Hn; cbn; by rewrite list_lookup_insert_eq by (by eapply lookup_lt_Some)|].
  split; [apply length_replicate|]. split; [done|]. split; [done|]. done.
Qed.

Lemma f1ap_reachable_inv st0 st n x s :
  createF1inst st0 CUtype n x = Ok st -> rtc (f1ap_step n) (st, ∅) s -> f1ap_inv n s.
Proof.
  intros Hc H. apply f1ap_created_inv in Hc.
  induction H as [|s1 s2 s3 H12 H23 IH]; [done|]. apply IH. by eapply f1ap_step_inv.
Qed.

(** A search by an identity: the UE that has it, or a free entry, or none. *)
Lemma search_by (key : f1ap_cudu_ue_t -> Z) (t : list f1ap_cudu_ue_t) m (sel : Z * Z -> Z) id :
  table_ok t -> represents t m -> (forall u, sel (du_ue_f1ap_id u, cu_ue_f1ap_id u) = key u) ->
  (forall i j u v, (i < j)%nat -> t !! i = Some u -> t !! j = Some v -> live v -> key u <> key v) ->
  (forall r p, m !! r = Some p -> 0 < r < 2 ^ 16) ->
  let x := found f1_rnti (list_find (fun u => key u = id) t) in
  (forall r p, m !! r = Some p -> sel p = id -> x = r) /\
  ((forall r p, m !! r = Some p -> sel p <> id) -> x = 0 \/ x = -1).
Proof.
  intros Ht Hm Hsel Hkey Hr. split.
  - intros r [d c] Hp Hid. pose proof (Hr _ _ Hp). apply Hm in Hp as (Hr0 & j & v & Hj & <- & <- & <-).
    rewrite Hsel in Hid. subst id. rewrite (find_live key t j v); [|by intros; eapply Hkey|done].
    cbn. apply i32_small. lia.
  - intros Hno. destruct (list_find _ _) as [[i u]|] eqn:E; [|by right]. left. cbn.
    apply list_find_Some in E as (Hi & Hu & _). destruct (decide (f1_rnti u = 0)) as [->|Hl]; [done|].
    exfalso. apply (Hno (f1_rnti u) (du_ue_f1ap_id u, cu_ue_f1ap_id u)); [|by rewrite Hsel].
    apply Hm. split; [done|]. by exists i, u.
Qed.

(** ** Properties *)

(** C34. The table of a CU is a map from the RNTIs of its UEs to their identities.  For every
    sequence of UEs added (with an identity that no UE has), added again and removed, since
    the instance was created: the searches by RNTI give the identities of the map, or -1; the
    searches by either identity give the RNTI of the UE that has it, although free entries
    keep old identities, and no RNTI when no UE has it; a UE that is not in the map is refused
    only when there are [MAX_MOBILES_PER_ENB] UEs. *)
Theorem f1ap_ids_refine (st0 st st' : f1ap_state) (m : gmap Z (Z * Z)) (n x : Z) :
  createF1inst st0 CUtype n x = Ok st -> rtc (f1ap_step n) (st, ∅) (st', m) ->
  (forall r, r <> 0 ->
    f1ap_get_du_ue_f1ap_id st' CUtype n r = Ok (match m !! r with Some (d, _) => i32 d | None => -1 end) /\
    f1ap_get_cu_ue_f1ap_id st' CUtype n r = Ok (match m !! r with Some _ => r | None => -1 end)) /\
  (forall id, exists a b,
    f1ap_get_rnti_by_du_id st' CUtype n id = Ok a /\ f1ap_get_rnti_by_cu_id st' CUtype n id = Ok b /\
    (forall r d c, m !! r = Some (d, c) -> (d = id -> a = r) /\ (r = id -> b = r)) /\
    ((forall r d c, m !! r = Some (d, c) -> d <> id) -> a = 0 \/ a = -1) /\
    (m !! id = None -> b = 0 \/ b = -1)) /\
  (forall r d st'' uid, 0 < r < 2 ^ 16 -> m !! r = None ->
    (forall r' d' c', m !! r' = Some (d', c') -> d' <> d) ->
    f1ap_add_osc_ue st' CUtype n r d = Ok (st'', uid) -> uid = -1 -> size m = MAX_MOBILES_PER_ENB).
Proof.
  intros Hc H. pose proof (f1ap_reachable_inv _ _ _ _ _ Hc H) as Hinv.
  pose proof Hinv as (inst & Hi & Hlen & Ht & Hm & Hr). cbn in Hi, Hm, Hr.
  assert (Hread : forall f, read_inst st' CUtype n f = Ok (f (f1ap_ue inst))).
  { intros f. unfold read_inst. by rewrite (getCxt_cu _ _ _ Hi). }
  assert (Hrange : forall r p, m !! r = Some p -> 0 < r < 2 ^ 16) by (intros r [d c] Hp; by eapply Hr).
  split; [|split].
  - intros r Hr0. unfold f1ap_get_du_ue_f1ap_id, f1ap_get_cu_ue_f1ap_id. rewrite !Hread.
    destruct (m !! r) as [[d c]|] eqn:E.
    + destruct (inv_entry n st' m inst r d c Hinv Hi E) as (i & u & _ & _ & _ & <- & Hcu & ->). cbn.
      rewrite Hcu. destruct (Hr _ _ _ E) as [? ->]. split; [done|]. f_equal. apply i32_small. lia.
    + by rewrite (find_rnti_absent _ m r Hm Hr0 E).
  - intros id. unfold f1ap_get_rnti_by_du_id, f1ap_get_rnti_by_cu_id. rewrite !Hread. do 2 eexists.
    split; [reflexivity|]. split; [reflexivity|].
    destruct (search_by du_ue_f1ap_id (f1ap_ue inst) m fst id Ht Hm) as [Hd1 Hd2]; [done| |done|].
    { intros i j u v Hij Hu Hv Hl. by destruct (Ht i j u v Hij Hu Hv Hl) as (_ & ? & _). }
    destruct (search_by cu_ue_f1ap_id (f1ap_ue inst) m snd id Ht Hm) as [Hc1 Hc2]; [done| |done|].
    { intros i j u v Hij Hu Hv Hl. by destruct (Ht i j u v Hij Hu Hv Hl) as (_ & _ & ?). }
    split; [|split].
    + intros r d c Hp. split; [intros <-; by apply (Hd1 r (d, c))|]. intros <-. apply (Hc1 r (d, c) Hp).
      by destruct (Hr _ _ _ Hp).
    + intros Hno. apply Hd2. intros r [d c] Hp. by eapply Hno.
    + intros Hno. apply Hc2. intros r [d c] Hp. cbn. destruct (Hr _ _ _ Hp) as [_ ->]. congruence.
  - intros r d st'' uid Hrr Hn Hd E. by eapply add_new_inv.
Qed.

(** A UE is added and removed. *)
Definition f1ap_example : f1ap_state := mk_f1ap [None] [None] [0].

Lemma f1ap_ids_refine_witness :
  exists st st', createF1inst f1ap_example CUtype 0 7 = Ok st /\ rtc (f1ap_step 0) (st, ∅) (st', delete 100 (<[100 := (1, 100)]> ∅)) /\
    f1ap_get_du_ue_f1ap_id st' CUtype 0 100 = Ok (-1).
Proof.
  set (st := match createF1inst f1ap_example CUtype 0 7 with Ok s => s | _ => f1ap_example end).
  set (st1 := match f1ap_add_osc_ue st CUtype 0 100 1 with Ok (s, _) => s | _ => st end).
  set (st2 := match f1ap_remove_ue st1 CUtype 0 100 with Ok (s, _) => s | _ => st1 end).
  assert (H : rtc (f1ap_step 0) (st, ∅) (st2, delete 100 (<[100 := (1, 100)]> ∅))).
  { eapply rtc_l; [eapply (fs_add 0 st ∅ 100 1 st1 0); [lia|done|done|vm_compute; reflexivity]|].
    eapply rtc_l; [eapply (fs_remove 0 st1 (<[100 := (1, 100)]> ∅) 100 st2 0); vm_compute; reflexivity|]. apply rtc_refl. }
  exists st, st2. split; [vm_compute; reflexivity|]. split; [exact H|].
  assert (Hc : createF1inst f1ap_example CUtype 0 7 = Ok st) by (vm_compute; reflexivity).
  destruct (f1ap_ids_refine f1ap_example st st2 _ 0 7 Hc H) as [Hd _].
  destruct (Hd 100 ltac:(lia)) as [E _]. exact E.
Defined.
