(* ===== verification/Nnsf.v ===== *)
(** Selection of an AMF for a UE: [ngap_gNB_nnsf.c], its use for the first NAS message of a UE
    ([ngap_gNB_handle_nas_first_req]) and the UE contexts of NGAP ([ngap_gNB_ue_context.c]).

    The AMFs of an instance are a red-black tree ordered by association, here the list of its
    elements in order; the tree of UE contexts is a map from their identities.  A request that
    names a PLMN by its index reads the arrays of the instance, which have six elements.  Of
    the handler of the first NAS message, the message to the AMF that it encodes is left
    out.

    The theorems: the AMF that a request gets ([first_req_amf]) and the identity that the UE
    gets ([new_ue_id_fresh]). *)

From S2P Require Import Prelude.

(** ** Data *)

Inductive ngap_gNB_state_t : Type :=
| NGAP_GNB_STATE_DISCONNECTED | NGAP_GNB_STATE_WAITING | NGAP_GNB_STATE_CONNECTED | NGAP_GNB_OVERLOAD.

Inductive ngap_overload_state_t : Type :=
| NGAP_OVERLOAD_REJECT_MO_DATA | NGAP_OVERLOAD_REJECT_ALL_SIGNALLING | NGAP_OVERLOAD_ONLY_EMERGENCY_AND_MT
| NGAP_NO_OVERLOAD.

Inductive ngap_rrc_establishment_cause_t : Type :=
| NGAP_RRC_CAUSE_EMERGENCY | NGAP_RRC_CAUSE_HIGH_PRIO_ACCESS | NGAP_RRC_CAUSE_MT_ACCESS
| NGAP_RRC_CAUSE_MO_SIGNALLING | NGAP_RRC_CAUSE_MO_DATA | NGAP_RRC_CAUSE_MO_VOICECALL
| NGAP_RRC_CAUSE_MO_VIDEOCALL | NGAP_RRC_CAUSE_MO_SMS | NGAP_RRC_CAUSE_MPS_PRIORITY_ACCESS
| NGAP_RRC_CAUSE_MCS_PRIORITY_ACCESS | NGAP_RRC_CAUSE_NOTAVAILABLE.

#[export] Instance gnb_state_eq_dec : EqDecision ngap_gNB_state_t.
Proof. solve_decision. Defined.
#[export] Instance overload_state_eq_dec : EqDecision ngap_overload_state_t.
Proof. solve_decision. Defined.
#[export] Instance cause_eq_dec : EqDecision ngap_rrc_establishment_cause_t.
Proof. solve_decision. Defined.

Record plmn_identity_t := mk_plmn { plmn_mcc : Z; plmn_mnc : Z }.

Record served_guami_t := mk_guami {
  served_plmns : list plmn_identity_t;
  served_region_ids : list Z;
  amf_set_ids : list Z;
  amf_pointers : list Z
}.

Record ngap_gNB_amf_data_t := mk_amf {
  amf_assoc_id : Z;
  served_guami : list served_guami_t;
  relative_amf_capacity : Z;
  overload_state : ngap_overload_state_t;
  amf_state : ngap_gNB_state_t
}.

Record ngap_guami_t := mk_ngap_guami {
  g_mcc : Z;
  g_mnc : Z;
  g_amf_region_id : Z;
  g_amf_set_id : Z;
  g_amf_pointer : Z
}.

(** The AMF of a context is a reference, here its association. *)
Record ngap_gNB_ue_context_t := mk_ue_context {
  gNB_ue_ngap_id : Z;
  ue_initial_id : Z;
  amf_ref : Z;
  ctx_selected_plmn_identity : Z
}.

Record ngap_gNB_instance_t := mk_ngap_instance {
  ngap_amf_head : list ngap_gNB_amf_data_t;
  ngap_ue_head : gmap Z ngap_gNB_ue_context_t;
  inst_mcc : list Z;
  inst_mnc : list Z
}.

#[export] Instance eta_ngap_instance : Eta ngap_gNB_instance_t := fun i =>
  mk_ngap_instance (ngap_amf_head i) (ngap_ue_head i) (inst_mcc i) (inst_mnc i).

(** The identities of a UE that its mask announces. *)
Record ngap_nas_first_req_t := mk_first_req {
  req_ue_initial_id : Z;
  selected_plmn_identity : Z;
  establishment_cause : ngap_rrc_establishment_cause_t;
  req_guami : option ngap_guami_t;
  req_s_tmsi_amf_set_id : option Z
}.

(** ** Loops over lists *)

(** The first element with a property, which is tested by reading the state; and whether
    there is one, as the pointer of the loop tells behind it. *)
Fixpoint find_first {A} (f : A -> res bool) (l : list A) : res (option A) :=
  match l with
  | [] => Ok None
  | x :: tl => let* b := f x in if b then Ok (Some x) else find_first f tl
  end.

Definition exists_in {A} (f : A -> res bool) (l : list A) : res bool :=
  let* o := find_first f l in Ok (match o with Some _ => true | None => false end).

(** ** Tests *)

(** The test that every selection but the last makes: the association is ready, or the AMF is
    overloaded and does not refuse the cause. *)
Definition amf_available (cause : ngap_rrc_establishment_cause_t) (a : ngap_gNB_amf_data_t) : bool :=
  if negb (bool_decide (amf_state a = NGAP_GNB_STATE_CONNECTED)) then
    if bool_decide (amf_state a = NGAP_GNB_OVERLOAD) then
      if bool_decide (cause = NGAP_RRC_CAUSE_MO_DATA)
         && bool_decide (overload_state a = NGAP_OVERLOAD_REJECT_MO_DATA) then false
      else if bool_decide (overload_state a = NGAP_OVERLOAD_REJECT_ALL_SIGNALLING)
              && (bool_decide (cause = NGAP_RRC_CAUSE_MO_SIGNALLING) || bool_decide (cause = NGAP_RRC_CAUSE_MO_DATA))
      then false
      else if bool_decide (overload_state a = NGAP_OVERLOAD_ONLY_EMERGENCY_AND_MT)
              && (bool_decide (cause = NGAP_RRC_CAUSE_MO_SIGNALLING) || bool_decide (cause = NGAP_RRC_CAUSE_MO_DATA)
                  || bool_decide (cause = NGAP_RRC_CAUSE_HIGH_PRIO_ACCESS))
      then false
      else true
    else false
  else true.

(** A served PLMN against the one the UE selected. *)
Definition plmn_selected (inst : ngap_gNB_instance_t) (idx : Z) (p : plmn_identity_t) : res bool :=
  if idx <? 0 then Fault OutOfBounds
  else
    match inst_mcc inst !! Z.to_nat idx, inst_mnc inst !! Z.to_nat idx with
    | Some mcc, Some mnc => Ok ((plmn_mcc p =? mcc) && (plmn_mnc p =? mnc))
    | _, _ => Fault OutOfBounds
    end.

Definition plmn_of_guami (g : ngap_guami_t) (p : plmn_identity_t) : res bool :=
  Ok ((plmn_mcc p =? g_mcc g) && (plmn_mnc p =? g_mnc g)).

Definition is_id (id x : Z) : res bool := Ok (x =? id).

(** ** Selection *)

(** The loop that keeps the AMF with the highest capacity among those with a property. *)
Fixpoint highest_capacity (f : ngap_gNB_amf_data_t -> res bool) (l : list ngap_gNB_amf_data_t)
  (current_capacity : Z) (best : option ngap_gNB_amf_data_t) : res (option ngap_gNB_amf_data_t) :=
  match l with
  | [] => Ok best
  | a :: tl =>
    let* b := f a in
    if b && (current_capacity <? relative_amf_capacity a)
    then highest_capacity f tl (relative_amf_capacity a) (Some a)
    else highest_capacity f tl current_capacity best
  end.

Definition ngap_gNB_nnsf_select_amf (inst : ngap_gNB_instance_t) (cause : ngap_rrc_establishment_cause_t)
  : res (option ngap_gNB_amf_data_t) :=
  highest_capacity (fun a => Ok (amf_available cause a)) (ngap_amf_head inst) 0 None.

Definition ngap_gNB_nnsf_select_amf_by_plmn_id (inst : ngap_gNB_instance_t)
  (cause : ngap_rrc_establishment_cause_t) (selected : Z) : res (option ngap_gNB_amf_data_t) :=
  highest_capacity (fun a =>
    if negb (amf_available cause a) then Ok false
    else exists_in (fun g => exists_in (plmn_selected inst selected) (served_plmns g)) (served_guami a))
    (ngap_amf_head inst) 0 None.

(** [amf_setid] is a [uint8_t]. *)
Definition ngap_gNB_nnsf_select_amf_by_amf_setid (inst : ngap_gNB_instance_t)
  (cause : ngap_rrc_establishment_cause_t) (selected amf_setid : Z) : res (option ngap_gNB_amf_data_t) :=
  let amf_setid := u8 amf_setid in
  find_first (fun a =>
    if negb (amf_available cause a) then Ok false
    else exists_in (fun g =>
      let* p := exists_in (plmn_selected inst selected) (served_plmns g) in
      let* s := exists_in (is_id amf_setid) (amf_set_ids g) in
      Ok (s && p)) (served_guami a)) (ngap_amf_head inst).

Definition ngap_gNB_nnsf_select_amf_by_guami (inst : ngap_gNB_instance_t)
  (cause : ngap_rrc_establishment_cause_t) (guami : ngap_guami_t) : res (option ngap_gNB_amf_data_t) :=
  find_first (fun a =>
    if negb (amf_available cause a) then Ok false
    else exists_in (fun g =>
      let* p := exists_in (plmn_of_guami guami) (served_plmns g) in
      let* r := exists_in (is_id (g_amf_region_id guami)) (served_region_ids g) in
      let* s := exists_in (is_id (g_amf_set_id guami)) (amf_set_ids g) in
      let* q := exists_in (is_id (g_amf_pointer guami)) (amf_pointers g) in
      Ok (r && s && q && p)) (served_guami a)) (ngap_amf_head inst).

(** Without a cause an overloaded AMF is as good as any, and the pointer is not compared; the
    AMF with the highest capacity so far is the result when none matches. *)
Fixpoint guami_or_best (guami : ngap_guami_t) (l : list ngap_gNB_amf_data_t) (current_capacity : Z)
  (best : option ngap_gNB_amf_data_t) : res (option ngap_gNB_amf_data_t) :=
  match l with
  | [] => Ok best
  | a :: tl =>
    if negb (bool_decide (amf_state a = NGAP_GNB_STATE_CONNECTED))
       && negb (bool_decide (amf_state a = NGAP_GNB_OVERLOAD))
    then guami_or_best guami tl current_capacity best
    else
      let better := current_capacity <? relative_amf_capacity a in
      let current_capacity := if better then relative_amf_capacity a else current_capacity in
      let best := if better then Some a else best in
      let* b := exists_in (fun g =>
        let* p := exists_in (plmn_of_guami guami) (served_plmns g) in
        let* s := exists_in (is_id (g_amf_set_id guami)) (amf_set_ids g) in
        let* r := exists_in (is_id (g_amf_region_id guami)) (served_region_ids g) in
        Ok (r && s && p)) (served_guami a) in
      if b then Ok (Some a) else guami_or_best guami tl current_capacity best
  end.

Definition ngap_gNB_nnsf_select_amf_by_guami_no_cause (inst : ngap_gNB_instance_t) (guami : ngap_guami_t)
  : res (option ngap_gNB_amf_data_t) :=
  guami_or_best guami (ngap_amf_head inst) 0 None.

(** ** The first NAS message *)

(** The selection of [ngap_gNB_handle_nas_first_req]: each step when the ones before gave no
    AMF. *)
Definition select_for_first_req (inst : ngap_gNB_instance_t) (r : ngap_nas_first_req_t)
  : res (option ngap_gNB_amf_data_t) :=
  let cause := establishment_cause r in
  let* o :=
    match req_guami r with
    | Some g => ngap_gNB_nnsf_select_amf_by_guami inst cause g
    | None => Ok None
    end in
  let* o :=
    match o, req_s_tmsi_amf_set_id r with
    | None, Some id => ngap_gNB_nnsf_select_amf_by_amf_setid inst cause (selected_plmn_identity r) id
    | _, _ => Ok o
    end in
  let* o :=
    match o with
    | None => ngap_gNB_nnsf_select_amf_by_plmn_id inst cause (selected_plmn_identity r)
    | Some _ => Ok o
    end in
  match o with
  | None => ngap_gNB_nnsf_select_amf inst cause
  | Some _ => Ok o
  end.

(** The loop that peeks identities, [randoms] being the pairs of values that [random] gives;
    [None] when they do not suffice. *)
Fixpoint peek_ue_id (randoms : list (Z * Z)) (used : gmap Z ngap_gNB_ue_context_t) : option Z :=
  match randoms with
  | [] => None
  | (a, b) :: tl =>
    let id := Z.land (a + b) 0xffffffff in
    match used !! id with
    | None => Some id
    | Some _ => peek_ue_id tl used
    end
  end.

Definition ngap_gNB_get_ue_context (inst : ngap_gNB_instance_t) (id : Z) : option ngap_gNB_ue_context_t :=
  ngap_ue_head inst !! Z.land id 0xffffffff.

(** The handler up to the message that it sends: the state and the new context, or -1 when
    there is no AMF. *)
Definition ngap_gNB_handle_nas_first_req (inst : ngap_gNB_instance_t) (r : ngap_nas_first_req_t)
  (randoms : list (Z * Z)) : res (option (ngap_gNB_instance_t * option ngap_gNB_ue_context_t)) :=
  let* o := select_for_first_req inst r in
  match o with
  | None => Ok (Some (inst, None))
  | Some a =>
    match peek_ue_id randoms (ngap_ue_head inst) with
    | None => Ok None
    | Some id =>
      let ue := mk_ue_context id (req_ue_initial_id r) (amf_assoc_id a) (selected_plmn_identity r) in
      Ok (Some (inst <| ngap_ue_head := <[id := ue]> (ngap_ue_head inst) |>, Some ue))
    end
  end.

(** ** Specification *)

(** What an AMF serves. *)
Definition serves_plmn (mcc mnc : Z) (g : served_guami_t) : bool :=
  existsb (fun p => (plmn_mcc p =? mcc) && (plmn_mnc p =? mnc)) (served_plmns g).

Definition has_id (id : Z) (l : list Z) : bool := existsb (fun x => x =? id) l.

Definition amf_serves_plmn (mcc mnc : Z) (a : ngap_gNB_amf_data_t) : bool :=
  existsb (serves_plmn mcc mnc) (served_guami a).

Definition amf_serves_set (mcc mnc id : Z) (a : ngap_gNB_amf_data_t) : bool :=
  existsb (fun g => has_id id (amf_set_ids g) && serves_plmn mcc mnc g) (served_guami a).

Definition amf_serves_guami (x : ngap_guami_t) (a : ngap_gNB_amf_data_t) : bool :=
  existsb (fun g => has_id (g_amf_region_id x) (served_region_ids g) && has_id (g_amf_set_id x) (amf_set_ids g)
                    && has_id (g_amf_pointer x) (amf_pointers g) && serves_plmn (g_mcc x) (g_mnc x) g) (served_guami a).

(** The first AMF with a property, and the first with the highest capacity among them. *)
Definition first_of (p : ngap_gNB_amf_data_t -> bool) (l : list ngap_gNB_amf_data_t)
  (r : option ngap_gNB_amf_data_t) : Prop :=
  match r with
  | Some a => p a = true /\ exists l1 l2, l = l1 ++ a :: l2 /\ forall b, b ∈ l1 -> p b = false
  | None => forall b, b ∈ l -> p b = false
  end.

Definition best_of (p : ngap_gNB_amf_data_t -> bool) (l : list ngap_gNB_amf_data_t)
  (r : option ngap_gNB_amf_data_t) : Prop :=
  match r with
  | Some a => p a = true /\ 0 < relative_amf_capacity a /\ exists l1 l2, l = l1 ++ a :: l2 /\
      (forall b, b ∈ l1 -> p b = true -> relative_amf_capacity b < relative_amf_capacity a) /\
      (forall b, b ∈ l2 -> p b = true -> relative_amf_capacity b <= relative_amf_capacity a)
  | None => forall b, b ∈ l -> p b = true -> relative_amf_capacity b <= 0
  end.

(** ** Lemmas *)

Lemma find_first_of (f : ngap_gNB_amf_data_t -> res bool) p l :
  (forall x, f x = Ok (p x)) -> exists r, find_first f l = Ok r /\ first_of p l r.
Proof.
  intros Hf. induction l as [|x l IH].
  { exists None. split; [done|]. intros b Hb. by apply not_elem_of_nil in Hb. }
  cbn [find_first]. rewrite Hf. cbn [rbind].
  destruct (p x) eqn:Ex; [exists (Some x); split; [done|]; split; [done|]; exists [], l; split; [done|];
    intros b Hb; by apply not_elem_of_nil in Hb|].
  destruct IH as (r & -> & Hr). exists r. split; [done|]. destruct r as [a|].
  - destruct Hr as (Ha & l1 & l2 & -> & H1). split; [done|]. exists (x :: l1), l2. split; [done|].
    intros b Hb. apply elem_of_cons in Hb as [->|Hb]; [done|by apply H1].
  - intros b Hb. apply elem_of_cons in Hb as [->|Hb]; [done|by apply Hr].
Qed.

Lemma exists_in_pure {A} (f : A -> res bool) p l : (forall x, f x = Ok (p x)) -> exists_in f l = Ok (existsb p l).
Proof.
  intros Hf. unfold exists_in. induction l as [|x l IH]; [done|]. cbn [find_first existsb]. rewrite Hf. cbn [rbind].
  by destruct (p x).
Qed.

(** The loop with what it has found so far: [best] is the best of the AMFs [seen]. *)
Lemma highest_capacity_spec f p seen l best :
  (forall x, f x = Ok (p x)) -> best_of p seen best ->
  exists r, highest_capacity f l (match best with Some a => relative_amf_capacity a | None => 0 end) best = Ok r /\
    best_of p (seen ++ l) r.
Proof.
  intros Hf. revert seen best. induction l as [|x l IH]; intros seen best Hb.
  - exists best. rewrite app_nil_r. done.
  - cbn [highest_capacity]. rewrite Hf. cbn [rbind]. set (cur := match best with Some a => _ | None => 0 end).
    replace (seen ++ x :: l) with ((seen ++ [x]) ++ l) by (by rewrite <- app_assoc).
    destruct (p x && (cur <? relative_amf_capacity x)) eqn:E.
    + apply andb_true_iff in E as [Ex Elt]. apply Z.ltb_lt in Elt.
      apply (IH (seen ++ [x]) (Some x)). split; [done|].
      assert (Hcur : 0 <= cur /\ forall b, b ∈ seen -> p b = true -> relative_amf_capacity b <= cur).
      { subst cur. destruct best as [a|]; [|done]. destruct Hb as (_ & Ha & l1 & l2 & -> & H1 & H2). split; [lia|].
        intros b Hin Hpb. apply elem_of_app in Hin as [Hin|Hin]; [specialize (H1 b Hin Hpb); lia|].
        apply elem_of_cons in Hin as [->|Hin]; [lia|by apply H2]. }
      split; [lia|]. exists seen, []. split; [done|]. split; [|intros b Hin; by apply not_elem_of_nil in Hin].
      intros b Hin Hpb. destruct Hcur as [_ Hcur]. specialize (Hcur b Hin Hpb). lia.
    + apply (IH (seen ++ [x]) best).
      assert (Hx : p x = true -> relative_amf_capacity x <= cur).
      { intros Hx. rewrite Hx in E. apply Z.ltb_ge in E. done. }
      subst cur. destruct best as [a|].
      * destruct Hb as (Hpa & Ha & l1 & l2 & -> & H1 & H2). split; [done|]. split; [done|].
        exists l1, (l2 ++ [x]). split; [by rewrite <- app_assoc|]. split; [done|].
        intros b Hin Hpb. apply elem_of_app in Hin as [Hin|Hin]; [by apply H2|].
        apply list_elem_of_singleton in Hin as ->. by apply Hx.
      * intros b Hin Hpb. apply elem_of_app in Hin as [Hin|Hin]; [by apply Hb|].
        apply list_elem_of_singleton in Hin as ->. by apply Hx.
Qed.

Lemma highest_capacity_best f p l :
  (forall x, f x = Ok (p x)) -> exists r, highest_capacity f l 0 None = Ok r /\ best_of p l r.
Proof.
  intros Hf. apply (highest_capacity_spec f p [] l None Hf). intros b Hb. by apply not_elem_of_nil in Hb.
Qed.

(** The selected PLMN is one of those of the instance. *)
Definition plmn_known (inst : ngap_gNB_instance_t) (idx mcc mnc : Z) : Prop :=
  0 <= idx /\ inst_mcc inst !! Z.to_nat idx = Some mcc /\ inst_mnc inst !! Z.to_nat idx = Some mnc.

Lemma plmn_selected_known inst idx mcc mnc l :
  plmn_known inst idx mcc mnc ->
  exists_in (plmn_selected inst idx) l = Ok (existsb (fun p => (plmn_mcc p =? mcc) && (plmn_mnc p =? mnc)) l).
Proof.
  intros (H0 & H1 & H2). apply exists_in_pure. intros p. unfold plmn_selected.
  destruct (Z.ltb_spec idx 0); [lia|]. by rewrite H1, H2.
Qed.

(** The four selections. *)
Definition wants_guami (r : ngap_nas_first_req_t) (a : ngap_gNB_amf_data_t) : bool :=
  amf_available (establishment_cause r) a && match req_guami r with Some g => amf_serves_guami g a | None => false end.

Definition wants_set (mcc mnc : Z) (r : ngap_nas_first_req_t) (a : ngap_gNB_amf_data_t) : bool :=
  amf_available (establishment_cause r) a
  && match req_s_tmsi_amf_set_id r with Some id => amf_serves_set mcc mnc (u8 id) a | None => false end.

Definition wants_plmn (mcc mnc : Z) (r : ngap_nas_first_req_t) (a : ngap_gNB_amf_data_t) : bool :=
  amf_available (establishment_cause r) a && amf_serves_plmn mcc mnc a.

Lemma first_of_none p l : (forall a, p a = false) -> first_of p l None.
Proof. intros H b _. apply H. Qed.

Lemma by_guami_spec inst r :
  exists o, (match req_guami r with
             | Some g => ngap_gNB_nnsf_select_amf_by_guami inst (establishment_cause r) g
             | None => Ok None
             end) = Ok o /\ first_of (wants_guami r) (ngap_amf_head inst) o.
Proof.
  unfold wants_guami. destruct (req_guami r) as [g|].
  2:{ exists None. split; [done|]. apply first_of_none. intros a. apply andb_false_r. }
  apply find_first_of. intros a. destruct (amf_available _ a); [|done]. cbn [negb andb].
  apply exists_in_pure. intros x. unfold plmn_of_guami, is_id.
  rewrite !(exists_in_pure _ _ _ (fun y => eq_refl)). done.
Qed.

Lemma by_setid_spec inst r mcc mnc :
  plmn_known inst (selected_plmn_identity r) mcc mnc ->
  exists o, (match req_s_tmsi_amf_set_id r with
             | Some id => ngap_gNB_nnsf_select_amf_by_amf_setid inst (establishment_cause r) (selected_plmn_identity r) id
             | None => Ok None
             end) = Ok o /\ first_of (wants_set mcc mnc r) (ngap_amf_head inst) o.
Proof.
  intros Hp. unfold wants_set. destruct (req_s_tmsi_amf_set_id r) as [id|].
  2:{ exists None. split; [done|]. apply first_of_none. intros a. apply andb_false_r. }
  apply find_first_of. intros a. destruct (amf_available _ a); [|done]. cbn [negb andb].
  apply exists_in_pure. intros x. rewrite (plmn_selected_known _ _ _ _ _ Hp). unfold is_id.
  rewrite !(exists_in_pure _ _ _ (fun y => eq_refl)). done.
Qed.

Lemma by_plmn_spec inst r mcc mnc :
  plmn_known inst (selected_plmn_identity r) mcc mnc ->
  exists o, ngap_gNB_nnsf_select_amf_by_plmn_id inst (establishment_cause r) (selected_plmn_identity r) = Ok o /\
    best_of (wants_plmn mcc mnc r) (ngap_amf_head inst) o.
Proof.
  intros Hp. apply highest_capacity_best. intros a. unfold wants_plmn. destruct (amf_available _ a); [|done].
  cbn [negb andb]. apply exists_in_pure. intros g. by rewrite (plmn_selected_known _ _ _ _ _ Hp).
Qed.

Lemma first_of_some p l o : first_of p l o -> (exists a, a ∈ l /\ p a = true) <-> is_Some o.
Proof.
  intros H. split.
  - intros (a & Ha & Hp). destruct o as [x|]; [by eexists|]. specialize (H a Ha). congruence.
  - intros [a ->]. destruct H as (Hp & l1 & l2 & -> & _). exists a. split; [|done]. apply elem_of_app. right. left.
Qed.

Lemma best_of_some p l o :
  best_of p l o -> (exists a, a ∈ l /\ p a = true /\ 0 < relative_amf_capacity a) <-> is_Some o.
Proof.
  intros H. split.
  - intros (a & Ha & Hp & Hc). destruct o as [x|]; [by eexists|]. specialize (H a Ha Hp). lia.
  - intros [a ->]. destruct H as (Hp & Hc & l1 & l2 & -> & _). exists a. split; [|done]. apply elem_of_app. right. left.
Qed.

(** ** Properties *)

(** The AMF for the first message of a UE.  When the PLMN that the UE selected is one of the
    gNB the selection returns, and its result is: the first available AMF that serves the GUAMI
    of the UE; else the first one that serves the selected PLMN with the set of the 5G-S-TMSI;
    else the first one with the highest capacity among those that serve the PLMN; else among
    all available ones.  There is none only when no available AMF has a capacity above 0.
    An AMF that refuses the cause of the UE is never taken. *)
Theorem first_req_amf (inst : ngap_gNB_instance_t) (r : ngap_nas_first_req_t) (mcc mnc : Z) :
  plmn_known inst (selected_plmn_identity r) mcc mnc ->
  let l := ngap_amf_head inst in
  let some p := exists a, a ∈ l /\ p a = true in
  let some_capable p := exists a, a ∈ l /\ p a = true /\ 0 < relative_amf_capacity a in
  exists o, select_for_first_req inst r = Ok o /\
    (some (wants_guami r) -> first_of (wants_guami r) l o) /\
    (~ some (wants_guami r) -> some (wants_set mcc mnc r) -> first_of (wants_set mcc mnc r) l o) /\
    (~ some (wants_guami r) -> ~ some (wants_set mcc mnc r) -> some_capable (wants_plmn mcc mnc r) ->
     best_of (wants_plmn mcc mnc r) l o) /\
    (~ some (wants_guami r) -> ~ some (wants_set mcc mnc r) -> ~ some_capable (wants_plmn mcc mnc r) ->
     best_of (amf_available (establishment_cause r)) l o) /\
    (forall a, o = Some a -> amf_available (establishment_cause r) a = true).
Proof.
  intros Hp l some some_capable. unfold select_for_first_req.
  destruct (by_guami_spec inst r) as (o1 & -> & H1). cbn [rbind].
  pose proof (first_of_some _ _ _ H1) as S1. change (some (wants_guami r) <-> is_Some o1) in S1.
  destruct o1 as [a|].
  { exists (Some a). split; [by destruct (req_s_tmsi_amf_set_id r)|].
    assert (Hs : some (wants_guami r)) by (apply S1; by eexists). split; [done|]. do 3 (split; [done|]).
    intros x [= <-]. destruct H1 as [H _]. by apply andb_true_iff in H as [H _]. }
  assert (N1 : ~ some (wants_guami r)) by (rewrite S1; by intros []).
  destruct (by_setid_spec inst r mcc mnc Hp) as (o2 & E2 & H2).
  assert ((match req_s_tmsi_amf_set_id r with
           | Some id => ngap_gNB_nnsf_select_amf_by_amf_setid inst (establishment_cause r) (selected_plmn_identity r) id
           | None => Ok None end) = Ok o2) as -> by exact E2. cbn [rbind].
  pose proof (first_of_some _ _ _ H2) as S2. change (some (wants_set mcc mnc r) <-> is_Some o2) in S2.
  destruct o2 as [a|].
  { exists (Some a). split; [done|]. split; [done|]. split; [done|].
    assert (Hs : some (wants_set mcc mnc r)) by (apply S2; by eexists). do 2 (split; [done|]).
    intros x [= <-]. destruct H2 as [H _]. by apply andb_true_iff in H as [H _]. }
  assert (N2 : ~ some (wants_set mcc mnc r)) by (rewrite S2; by intros []).
  destruct (by_plmn_spec inst r mcc mnc Hp) as (o3 & -> & H3). cbn [rbind].
  pose proof (best_of_some _ _ _ H3) as S3. change (some_capable (wants_plmn mcc mnc r) <-> is_Some o3) in S3.
  destruct o3 as [a|].
  { exists (Some a). split; [done|]. do 3 (split; [done|]).
    assert (Hs : some_capable (wants_plmn mcc mnc r)) by (apply S3; by eexists). split; [done|].
    intros x [= <-]. destruct H3 as [H _]. by apply andb_true_iff in H as [H _]. }
  destruct (highest_capacity_best (fun a => Ok (amf_available (establishment_cause r) a))
    (amf_available (establishment_cause r)) l (fun x => eq_refl)) as (o4 & E4 & H4).
  exists o4. split; [exact E4|]. split; [done|]. split; [done|]. split; [|split; [done|]].
  - intros _ _ Hs. apply S3 in Hs as [? [=]].
  - intros a ->. by destruct H4 as [H _].
Qed.

(** Two AMFs that serve the PLMN; the one with the higher capacity is overloaded. *)
Definition nnsf_example : ngap_gNB_instance_t :=
  mk_ngap_instance
    [mk_amf 1 [mk_guami [mk_plmn 208 93] [1] [4] [0]] 10 NGAP_NO_OVERLOAD NGAP_GNB_STATE_CONNECTED;
     mk_amf 2 [mk_guami [mk_plmn 208 93] [1] [5] [0]] 200 NGAP_OVERLOAD_REJECT_MO_DATA NGAP_GNB_OVERLOAD]
    ∅ [208; 0; 0; 0; 0; 0] [93; 0; 0; 0; 0; 0].

Lemma first_req_amf_witness :
  exists o, select_for_first_req nnsf_example (mk_first_req 7 0 NGAP_RRC_CAUSE_MO_DATA None None) = Ok o /\
    forall a, o = Some a -> amf_available NGAP_RRC_CAUSE_MO_DATA a = true.
Proof.
  destruct (first_req_amf nnsf_example (mk_first_req 7 0 NGAP_RRC_CAUSE_MO_DATA None None) 208 93)
    as (o & E & _ & _ & _ & _ & H); [split; [cbn; lia|]; split; reflexivity|]. by exists o.
Defined.

(** The identity of a new UE.  The handler of the first message leaves the contexts as they
    were when there is no AMF.  Otherwise, when one of the values it peeks is not used, it
    returns: the UE gets an identity of 32 bits that no UE had, its context refers to the
    selected AMF and is found under the identity, and all other contexts stay. *)
Theorem new_ue_id_fresh (inst : ngap_gNB_instance_t) (r : ngap_nas_first_req_t) (randoms : list (Z * Z)) :
  (select_for_first_req inst r = Ok None -> ngap_gNB_handle_nas_first_req inst r randoms = Ok (Some (inst, None))) /\
  (forall a, select_for_first_req inst r = Ok (Some a) ->
    (exists p, p ∈ randoms /\ ngap_ue_head inst !! Z.land (p.1 + p.2) 0xffffffff = None) ->
    exists inst' ue, ngap_gNB_handle_nas_first_req inst r randoms = Ok (Some (inst', Some ue)) /\
      0 <= gNB_ue_ngap_id ue < 2 ^ 32 /\ ngap_ue_head inst !! gNB_ue_ngap_id ue = None /\
      amf_ref ue = amf_assoc_id a /\ ue_initial_id ue = req_ue_initial_id r /\
      ngap_amf_head inst' = ngap_amf_head inst /\
      forall id, 0 <= id < 2 ^ 32 -> ngap_gNB_get_ue_context inst' id =
        if decide (id = gNB_ue_ngap_id ue) then Some ue else ngap_gNB_get_ue_context inst id).
Proof.
  split; [intros E; unfold ngap_gNB_handle_nas_first_req; by rewrite E|]. intros a E (p & Hp & Hfree).
  assert (Hmask : forall x, 0 <= Z.land x 0xffffffff < 2 ^ 32).
  { intros x. change 0xffffffff with (Z.ones 32). rewrite Z.land_ones by lia. apply Z.mod_pos_bound. lia. }
  assert (exists id, peek_ue_id randoms (ngap_ue_head inst) = Some id /\ 0 <= id < 2 ^ 32 /\
    ngap_ue_head inst !! id = None) as (id & Eid & Hid & Hnew).
  { clear E. induction randoms as [|[x y] l IH]; [by apply not_elem_of_nil in Hp|]. cbn [peek_ue_id].
    destruct (ngap_ue_head inst !! Z.land (x + y) 0xffffffff) eqn:Eu; [|by eexists].
    apply elem_of_cons in Hp as [->|Hp]; [cbn [fst snd] in Hfree; congruence|by apply IH]. }
  unfold ngap_gNB_handle_nas_first_req. rewrite E. cbn [rbind]. rewrite Eid. do 2 eexists. split; [reflexivity|].
  cbn [gNB_ue_ngap_id amf_ref ue_initial_id]. do 5 (split; [done|]). intros x Hx. unfold ngap_gNB_get_ue_context.
  assert (Z.land x 0xffffffff = x) as ->.
  { change 0xffffffff with (Z.ones 32). rewrite Z.land_ones by lia. apply Z.mod_small. lia. }
  cbn. destruct (decide (x = id)) as [->|]; [apply lookup_insert_eq|by apply lookup_insert_ne].
Qed.

Lemma new_ue_id_fresh_witness :
  exists inst' ue, ngap_gNB_handle_nas_first_req nnsf_example (mk_first_req 7 0 NGAP_RRC_CAUSE_MO_DATA None None) [(3, 4)]
      = Ok (Some (inst', Some ue)) /\ amf_ref ue = 1.
Proof.
  destruct (new_ue_id_fresh nnsf_example (mk_first_req 7 0 NGAP_RRC_CAUSE_MO_DATA None None) [(3, 4)]) as [_ H].
  destruct (H (mk_amf 1 [mk_guami [mk_plmn 208 93] [1] [4] [0]] 10 NGAP_NO_OVERLOAD NGAP_GNB_STATE_CONNECTED))
    as (inst' & ue & E & _ & _ & Hr & _).
  - vm_compute. reflexivity.
  - exists (3, 4). split; [by left|]. reflexivity.
  - exists inst', ue. split; [exact E|exact Hr].
Defined.
