(* ===== verification/NrCommon.v ===== *)
(** Frequencies, bands and resource allocation of NR: [common/utils/nr/nr_common.c], with the
    conversion of NR-ARFCNs of [nr_mac_common.c].

    Integers have the widths of the source where they can matter; a failed assertion ends the
    program.  Log output and the name of the duplex mode are left out.

    The theorems: the two indications of an allocation decode to what was encoded
    ([allocation_roundtrip]), the NR-ARFCN of a carrier frequency gives it back
    ([arfcn_roundtrip]). *)

From S2P Require Import Prelude.

(** ** Bands *)

Definition tables_5_3_2 : list (list Z) :=
  [[25; 52; 79; 106; 133; 160; 216; 270; -1; -1; -1];
   [11; 24; 38; 51; 65; 78; 106; 133; 162; 217; 273];
   [-1; 11; 18; 24; 31; 38; 51; 65; 79; 107; 135];
   [66; 132; 264; -1; -1; -1; -1; -1; -1; -1; -1];
   [32; 66; 132; 264; -1; -1; -1; -1; -1; -1; -1]].

(** [scs_index] is computed from the band and not used. *)
Definition get_supported_band_index (scs band n_rbs : Z) : res Z :=
  if scs <? 0 then Fault OutOfBounds
  else
    match tables_5_3_2 !! Z.to_nat scs with
    | None => Fault OutOfBounds
    | Some row =>
      match list_find (fun x => x = n_rbs) row with
      | Some (i, _) => Ok (Z.of_nat i)
      | None => Ok (-1)
      end
    end.

Record nr_bandentry_t := mk_band {
  band : Z; ul_min : Z; ul_max : Z; dl_min : Z; dl_max : Z; step_size : Z; N_OFFs_DL : Z; deltaf_raster : Z
}.

Definition nr_bandtable : list nr_bandentry_t :=
  [mk_band 1 1920000 1980000 2110000 2170000 20 422000 100;
   mk_band 2 1850000 1910000 1930000 1990000 20 386000 100;
   mk_band 3 1710000 1785000 1805000 1880000 20 361000 100;
   mk_band 5 824000 849000 869000 894000 20 173800 100;
   mk_band 7 2500000 2570000 2620000 2690000 20 524000 100;
   mk_band 8 880000 915000 925000 960000 20 185000 100;
   mk_band 12 698000 716000 729000 746000 20 145800 100;
   mk_band 14 788000 798000 758000 768000 20 151600 100;
   mk_band 18 815000 830000 860000 875000 20 172000 100;
   mk_band 20 832000 862000 791000 821000 20 158200 100;
   mk_band 25 1850000 1915000 1930000 1995000 20 386000 100;
   mk_band 26 814000 849000 859000 894000 20 171800 100;
   mk_band 28 703000 758000 758000 813000 20 151600 100;
   mk_band 29 0 0 717000 728000 20 143400 100;
   mk_band 30 2305000 2315000 2350000 2360000 20 470000 100;
   mk_band 34 2010000 2025000 2010000 2025000 20 402000 100;
   mk_band 38 2570000 2620000 2570000 2630000 20 514000 100;
   mk_band 39 1880000 1920000 1880000 1920000 20 376000 100;
   mk_band 40 2300000 2400000 2300000 2400000 20 460000 100;
   mk_band 41 2496000 2690000 2496000 2690000 3 499200 15;
   mk_band 41 2496000 2690000 2496000 2690000 6 499200 30;
   mk_band 47 5855000 5925000 5855000 5925000 1 790334 15;
   mk_band 48 3550000 3700000 3550000 3700000 1 636667 15;
   mk_band 48 3550000 3700000 3550000 3700000 2 636668 30;
   mk_band 50 1432000 1517000 1432000 1517000 20 286400 100;
   mk_band 51 1427000 1432000 1427000 1432000 20 285400 100;
   mk_band 53 2483500 2495000 2483500 2495000 20 496700 100;
   mk_band 65 1920000 2010000 2110000 2200000 20 422000 100;
   mk_band 66 1710000 1780000 2110000 2200000 20 422000 100;
   mk_band 70 1695000 1710000 1995000 2020000 20 399000 100;
   mk_band 71 663000 698000 617000 652000 20 123400 100;
   mk_band 74 1427000 1470000 1475000 1518000 20 295000 100;
   mk_band 75 0 0 1432000 1517000 20 286400 100;
   mk_band 76 0 0 1427000 1432000 20 285400 100;
   mk_band 77 3300000 4200000 3300000 4200000 1 620000 15;
   mk_band 77 3300000 4200000 3300000 4200000 2 620000 30;
   mk_band 78 3300000 3800000 3300000 3800000 1 620000 15;
   mk_band 78 3300000 3800000 3300000 3800000 2 620000 30;
   mk_band 79 4400010 5000000 4400010 5000000 1 693334 15;
   mk_band 79 4400010 5000000 4400010 5000000 2 693334 30;
   mk_band 80 1710000 1785000 0 0 20 342000 100;
   mk_band 81 880000 915000 0 0 20 176000 100;
   mk_band 82 832000 862000 0 0 20 166400 100;
   mk_band 83 703000 748000 0 0 20 140600 100;
   mk_band 84 1920000 1980000 0 0 20 384000 100;
   mk_band 86 1710000 1785000 0 0 20 342000 100;
   mk_band 89 824000 849000 0 0 20 342000 100;
   mk_band 90 2496000 2690000 2496000 2690000 3 499200 15;
   mk_band 90 2496000 2690000 2496000 2690000 6 499200 30;
   mk_band 90 2496000 2690000 2496000 2690000 20 499200 100;
   mk_band 91 832000 862000 1427000 1432000 20 285400 100;
   mk_band 92 832000 862000 1432000 1517000 20 286400 100;
   mk_band 93 880000 915000 1427000 1432000 20 285400 100;
   mk_band 94 880000 915000 1432000 1517000 20 286400 100;
   mk_band 95 2010000 2025000 0 0 20 402000 100;
   mk_band 96 5925000 7125000 5925000 7125000 1 795000 15;
   mk_band 257 26500020 29500000 26500020 29500000 1 2054166 60;
   mk_band 257 26500080 29500000 26500080 29500000 2 2054167 120;
   mk_band 258 24250080 27500000 24250080 27500000 1 2016667 60;
   mk_band 258 24250080 27500000 24250080 27500000 2 2016667 120;
   mk_band 260 37000020 40000000 37000020 40000000 1 2229166 60;
   mk_band 260 37000080 40000000 37000080 40000000 2 2229167 120;
   mk_band 261 27500040 28350000 27500040 28350000 1 2070833 60;
   mk_band 261 27500040 28350000 27500040 28350000 2 2070833 120].

(** The loop of [get_band]: the band whose centre is the nearest, among those with the duplex
    spacing; [abs] takes an [int]. *)
Fixpoint nearest_band (l : list nr_bandentry_t) (dl_freq_khz delta_duplex_khz center_freq_diff_khz current_band : Z) : Z :=
  match l with
  | [] => current_band
  | b :: tl =>
    if (dl_freq_khz <? dl_min b) || (dl_freq_khz >? dl_max b) then
      nearest_band tl dl_freq_khz delta_duplex_khz center_freq_diff_khz current_band
    else if negb (i32 (ul_min b - dl_min b) =? delta_duplex_khz) then
      nearest_band tl dl_freq_khz delta_duplex_khz center_freq_diff_khz current_band
    else
      let diff := Z.abs (i32 (dl_freq_khz - (dl_max b + dl_min b) / 2)) in
      if diff <? center_freq_diff_khz
      then nearest_band tl dl_freq_khz delta_duplex_khz diff (band b)
      else nearest_band tl dl_freq_khz delta_duplex_khz center_freq_diff_khz current_band
  end.

Definition get_band (downlink_frequency delta_duplex : Z) : res Z :=
  let current_band :=
    nearest_band nr_bandtable (downlink_frequency / 1000) (Z.quot delta_duplex 1000) 999999999999999999 0 in
  if current_band =? 0 then Exit else Ok current_band.

Definition supplementary_bands : list Z := [29; 75; 76; 80; 81; 82; 83; 84; 86; 89; 95].

(** The last entry of a band. *)
Fixpoint last_of_band (l : list nr_bandentry_t) (i : Z) (b found : Z) : Z :=
  match l with
  | [] => found
  | e :: tl => last_of_band tl (i + 1) b (if band e =? b then i else found)
  end.

(** The assertion wants an index above 0. *)
Definition get_nr_table_idx (nr_bandP scs_index : Z) : res Z :=
  let scs_khz := Z.shiftl 15 scs_index in
  if existsb (fun b => nr_bandP =? b) supplementary_bands then Exit
  else
    let i :=
      match list_find (fun e => band e = nr_bandP /\ deltaf_raster e = scs_khz) nr_bandtable with
      | Some (i, _) => Z.of_nat i
      | None => last_of_band nr_bandtable 0 nr_bandP (-1)
      end in
    if (i >? 0) && (i <? Z.of_nat (length nr_bandtable)) then Ok i else Exit.

(** [nr_bandtable[i]] for an index of the function above. *)
Definition table_entry (i : Z) : res nr_bandentry_t :=
  match nr_bandtable !! Z.to_nat i with Some e => Ok e | None => Fault OutOfBounds end.

Definition get_delta_duplex (nr_bandP scs_index : Z) : res Z :=
  let* i := get_nr_table_idx nr_bandP scs_index in
  let* e := table_entry i in
  Ok (i32 (ul_min e - dl_min e)).

Inductive frame_type_t : Type := FDD | TDD.

Definition get_frame_type (current_band scs_index : Z) : res frame_type_t :=
  let* delta_duplex := get_delta_duplex current_band scs_index in
  Ok (if delta_duplex =? 0 then TDD else FDD).

(** ** NR-ARFCN *)

Definition get_delta_arfcn (e : nr_bandentry_t) (nrarfcn N_OFFs : Z) : res unit :=
  let delta_arfcn := u32 (nrarfcn - N_OFFs) in
  if negb (delta_arfcn mod step_size e =? 0) then Exit else Ok tt.

Definition to_nrarfcn (nr_bandP dl_CarrierFreq scs_index bw : Z) : res Z :=
  let dl_CarrierFreq_by_1k := dl_CarrierFreq / 1000 in
  let bw_kHz := bw / 1000 in
  let* i := get_nr_table_idx nr_bandP scs_index in
  let* e := table_entry i in
  if dl_CarrierFreq_by_1k <? dl_min e then Exit
  else if dl_CarrierFreq_by_1k >? u64 (dl_max e - bw_kHz) then Exit
  else
    let '(deltaFglobal, N_REF_Offs, F_REF_Offs_khz) :=
      if dl_CarrierFreq <? 3000000000 then (5, 0, 0)
      else if dl_CarrierFreq <? 24250000000 then (15, 600000, 3000000)
      else (60, 2016667, 24250080) in
    let nrarfcn := u32 (u64 (dl_CarrierFreq_by_1k - F_REF_Offs_khz) / deltaFglobal + N_REF_Offs) in
    let* _ := get_delta_arfcn e nrarfcn (N_OFFs_DL e) in
    Ok nrarfcn.

Definition from_nrarfcn (nr_bandP scs_index nrarfcn : Z) : res Z :=
  let* i := get_nr_table_idx nr_bandP scs_index in
  let* e := table_entry i in
  let '(deltaFglobal, N_REF_Offs, F_REF_Offs_khz) :=
    if (nrarfcn >? 2016666) && (nrarfcn <? 3279166) then (60, 2016667, 24250080)
    else if (nrarfcn >? 599999) && (nrarfcn <? 2016667) then (15, 600000, 3000000)
    else (5, 0, 0) in
  let* delta_duplex := get_delta_duplex nr_bandP scs_index in
  let N_OFFs_UL := u64 (N_OFFs_DL e + Z.quot delta_duplex deltaFglobal) in
  let N_OFFs :=
    if delta_duplex <=? 0 then if nrarfcn >=? N_OFFs_DL e then N_OFFs_DL e else N_OFFs_UL
    else if nrarfcn >=? N_OFFs_UL then N_OFFs_UL else N_OFFs_DL e in
  if nrarfcn <? N_OFFs then Exit
  else
    let* _ := get_delta_arfcn e nrarfcn N_OFFs in
    Ok (u64 (1000 * (F_REF_Offs_khz + u32 (u32 (nrarfcn - N_REF_Offs) * deltaFglobal)))).

(** ** Resource allocation *)

(** The size and the start of an allocation from its indication. *)
Definition NRRIV2BW (locationAndBandwidth N_RB : Z) : Z :=
  let tmp := Z.quot locationAndBandwidth N_RB in
  let tmp2 := cmod locationAndBandwidth N_RB in
  if (tmp <=? Z.shiftr N_RB 1 + 1) && (tmp + tmp2 <? N_RB) then tmp + 1 else N_RB + 1 - tmp.

Definition NRRIV2PRBOFFSET (locationAndBandwidth N_RB : Z) : Z :=
  let tmp := Z.quot locationAndBandwidth N_RB in
  let tmp2 := cmod locationAndBandwidth N_RB in
  if (tmp <=? Z.shiftr N_RB 1 + 1) && (tmp + tmp2 <? N_RB) then tmp2 else N_RB - 1 - tmp2.

Definition PRBalloc_to_locationandbandwidth0 (NPRB RBstart BWPsize : Z) : res Z :=
  if negb ((NPRB >? 0) && (NPRB + RBstart <=? BWPsize)) then Exit
  else if NPRB <=? 1 + Z.shiftr BWPsize 1 then Ok (BWPsize * (NPRB - 1) + RBstart)
  else Ok (BWPsize * (BWPsize + 1 - NPRB) + (BWPsize - 1 - RBstart)).

Definition PRBalloc_to_locationandbandwidth (NPRB RBstart : Z) : res Z :=
  PRBalloc_to_locationandbandwidth0 NPRB RBstart 275.

(** The bits of the six bytes, one per group of six blocks: their number and the first one. *)
Fixpoint coreset_bits (i : nat) (n : nat) (bitmap count start : Z) (start_set : bool) : Z * Z :=
  match n with
  | O => (count, start)
  | S n =>
    if Z.land (Z.shiftr bitmap (44 - Z.of_nat i)) 1 =? 1
    then coreset_bits (S i) n bitmap (u8 (count + 1)) (if start_set then start else Z.of_nat i) true
    else coreset_bits (S i) n bitmap count start start_set
  end.

(** The number of blocks and the offset. *)
Definition get_coreset_rballoc (FreqDomainResource : list Z) : res (Z * Z) :=
  match FreqDomainResource with
  | b0 :: b1 :: b2 :: b3 :: b4 :: b5 :: _ =>
    let bitmap := Z.lor (Z.lor (Z.lor (Z.lor (Z.lor (Z.shiftl b0 37) (Z.shiftl b1 29)) (Z.shiftl b2 21))
                    (Z.shiftl b3 13)) (Z.shiftl b4 5)) (Z.shiftr b5 3) in
    let '(count, start) := coreset_bits 0 45 bitmap 0 0 false in
    Ok (6 * count, 6 * start)
  | _ => Fault OutOfBounds
  end.

Definition get_nb_periods_per_frame (tdd_period : Z) : res Z :=
  match [20; 16; 10; 8; 5; 4; 2; 1] !! Z.to_nat tdd_period with
  | Some n => if tdd_period <? 0 then Exit else Ok n
  | None => Exit
  end.

Definition get_num_dmrs (dmrs_mask : Z) : Z :=
  fold_left (fun n i => n + Z.land (Z.shiftr dmrs_mask i) 1) (seqZ 0 16) 0.

(** The port of the [nl]-th bit that is set. *)
Fixpoint dmrs_port_loop (i : nat) (n : nat) (dmrs_ports nl found : Z) : option Z :=
  match n with
  | O => None
  | S n =>
    if Z.land (Z.shiftr dmrs_ports (Z.of_nat i)) 1 =? 1 then
      if found + 1 =? nl then Some (Z.of_nat i) else dmrs_port_loop (S i) n dmrs_ports nl (found + 1)
    else dmrs_port_loop (S i) n dmrs_ports nl found
  end.

Definition get_dmrs_port (nl dmrs_ports : Z) : res Z :=
  if dmrs_ports =? 0 then Ok 0
  else match dmrs_port_loop 0 12 dmrs_ports nl (-1) with Some p => Ok p | None => Exit end.

(** The first limit that the number of blocks does not pass. *)
Fixpoint first_limit (nb_rb : Z) (l : list (Z * Z)) : res Z :=
  match l with
  | [] => Exit
  | (limit, bw) :: tl => if nb_rb <=? limit then Ok bw else first_limit nb_rb tl
  end.

Definition config_bandwidth (mu nb_rb nr_band : Z) : res Z :=
  if nr_band <? 100 then
    if mu =? 0 then
      first_limit nb_rb [(25, 5); (52, 10); (79, 15); (106, 20); (133, 25); (160, 30); (216, 40); (270, 50)]
    else if mu =? 1 then
      first_limit nb_rb [(11, 5); (24, 10); (38, 15); (51, 20); (65, 25); (78, 30); (106, 40); (133, 50); (162, 60);
                         (189, 70); (217, 80); (245, 90); (273, 100)]
    else if mu =? 2 then
      first_limit nb_rb [(11, 10); (18, 15); (24, 20); (31, 25); (38, 30); (51, 40); (65, 50); (79, 60); (93, 70);
                         (107, 80); (121, 90); (135, 100)]
    else Exit
  else
    if mu =? 2 then first_limit nb_rb [(66, 50); (132, 100); (264, 200)]
    else if mu =? 3 then first_limit nb_rb [(32, 50); (66, 100); (132, 200); (264, 400)]
    else Exit.

Definition get_subband_size (NPRB size : Z) : res Z :=
  if NPRB <? 24 then Ok 1
  else if NPRB <? 72 then Ok (if size =? 0 then 4 else 8)
  else if NPRB <? 144 then Ok (if size =? 0 then 8 else 16)
  else if NPRB <? 275 then Ok (if size =? 0 then 16 else 32)
  else Exit.

Definition SL_to_bitmap (startSymbolIndex nrOfSymbols : Z) : Z :=
  u16 (Z.shiftl (Z.shiftl 1 nrOfSymbols - 1) startSymbolIndex).

Definition get_SLIV (S L : Z) : Z :=
  u16 (if L - 1 <=? 7 then 14 * (L - 1) + S else 14 * (15 - L) + (13 - S)).

Definition SLIV2SL (SLIV : Z) : Z * Z :=
  let SLIVdiv14 := Z.quot SLIV 14 in
  let SLIVmod14 := cmod SLIV 14 in
  if (SLIVdiv14 + 1 >=? 0) && (SLIVdiv14 <=? 13 - SLIVmod14)
  then (SLIVmod14, SLIVdiv14 + 1)
  else (13 - SLIVmod14, 15 - SLIVdiv14).

(** ** Lemmas *)

Lemma quot_rem_of N q r : 0 <= q -> 0 <= r < N -> Z.quot (N * q + r) N = q /\ cmod (N * q + r) N = r.
Proof.
  intros Hq Hr. assert (0 <= N * q + r) by nia.
  rewrite Z.quot_div_nonneg, cmod_pos by lia. split.
  - symmetry. by apply Z.div_unique_pos with r.
  - symmetry. by apply Z.mod_unique_pos with q.
Qed.

(** The reference of the global frequency raster at a frequency (in kHz): its step, its first
    number and its first frequency. *)
Definition raster_of (khz : Z) : Z * Z * Z :=
  if khz <? 3000000 then (5, 0, 0)
  else if khz <? 24250000 then (15, 600000, 3000000)
  else (60, 2016667, 24250080).

Definition arfcn_of (khz : Z) : Z := let '(d, n, f) := raster_of khz in (khz - f) / d + n.

(** What the conversions need of an entry of the table. *)
Definition band_ok (e : nr_bandentry_t) : bool :=
  let '(d, _, f) := raster_of (dl_min e) in
  let '(d', _, _) := raster_of (dl_max e) in
  (0 <? dl_min e) && (dl_min e <=? dl_max e) && (dl_max e <? 90000000) && (f <=? dl_min e) && (d =? d')
  && (400000 <=? dl_max e) && (0 <? step_size e) && (step_size e <? 100) && (0 <=? N_OFFs_DL e)
  && (Z.abs (ul_min e - dl_min e) <? 2 ^ 30)
  && (0 <=? N_OFFs_DL e + Z.quot (ul_min e - dl_min e) d)
  && (if ul_min e - dl_min e <=? 0 then true else arfcn_of (dl_max e) <? N_OFFs_DL e + Z.quot (ul_min e - dl_min e) d).

Lemma bands_checked :
  forallb (fun e => existsb (fun b => band e =? b) supplementary_bands || band_ok e) nr_bandtable = true.
Proof. vm_compute. reflexivity. Qed.

(** The entry that both conversions use. *)
Lemma table_idx_ok b scs i :
  get_nr_table_idx b scs = Ok i -> exists e, table_entry i = Ok e /\ band_ok e = true.
Proof.
  unfold get_nr_table_idx. destruct (existsb _ _) eqn:Es; [done|]. cbv zeta.
  destruct (list_find _ _) as [[k e]|] eqn:Ef.
  - destruct (_ && _) eqn:Hr; [|done]. intros [= <-]. apply list_find_Some in Ef as (Hk & (Hb & _) & _).
    exists e. unfold table_entry. rewrite Nat2Z.id, Hk. split; [done|].
    pose proof bands_checked as Hc. rewrite forallb_forall in Hc. specialize (Hc e).
    rewrite Hb, Es in Hc. apply Hc. by eapply list_elem_of_In, list_elem_of_lookup_2.
  - set (j := last_of_band _ _ _ _). destruct (_ && _) eqn:Hr; [|done]. intros [= <-].
    apply andb_true_iff in Hr as [Hj1 Hj2]. apply Z.gtb_lt in Hj1. apply Z.ltb_lt in Hj2.
    assert (Hlast : forall l0 l, nr_bandtable = l0 ++ l -> forall found,
      (found = -1 \/ exists e, nr_bandtable !! Z.to_nat found = Some e /\ band e = b) ->
      let r := last_of_band l (Z.of_nat (length l0)) b found in
      r = -1 \/ exists e, nr_bandtable !! Z.to_nat r = Some e /\ band e = b).
    { intros l0 l. revert l0. induction l as [|e l IH]; intros l0 Hl found Hfound; [done|]. cbn [last_of_band].
      replace (Z.of_nat (length l0) + 1) with (Z.of_nat (length (l0 ++ [e]))) by (rewrite length_app; cbn; lia).
      apply IH; [by rewrite <- app_assoc|]. destruct (Z.eqb_spec (band e) b) as [Hb|]; [|done].
      right. exists e. split; [|done]. rewrite Nat2Z.id, Hl. by rewrite list_lookup_middle. }
    destruct (Hlast [] nr_bandtable eq_refl (-1) (or_introl eq_refl)) as [Hm|(e & He & Hb)].
    + change (j = -1) in Hm. lia.
    + change (nr_bandtable !! Z.to_nat j = Some e) in He. exists e. unfold table_entry. rewrite He. split; [done|].
      pose proof bands_checked as Hc. rewrite forallb_forall in Hc. specialize (Hc e).
      rewrite Hb, Es in Hc. apply Hc. by eapply list_elem_of_In, list_elem_of_lookup_2.
Qed.

Lemma raster_mono a b : a <= b -> (raster_of a).1.1 = (raster_of b).1.1 -> forall x, a <= x <= b -> raster_of x = raster_of a.
Proof.
  intros Hab Heq x Hx. unfold raster_of in *.
  destruct (Z.ltb_spec a 3000000), (Z.ltb_spec a 24250000), (Z.ltb_spec b 3000000), (Z.ltb_spec b 24250000);
    cbn in Heq; try discriminate Heq; try lia;
    destruct (Z.ltb_spec x 3000000), (Z.ltb_spec x 24250000); try lia; reflexivity.
Qed.

(** The numbers of a raster, against those where the conversion back looks. *)
Lemma arfcn_range khz :
  (raster_of khz).2 <= khz < 90000000 -> 0 <= khz ->
  let '(d, n, f) := raster_of khz in
  let k := arfcn_of khz in
  0 <= k < 2 ^ 22 /\ n <= k /\ f + (k - n) * d <= khz < f + (k - n) * d + d /\
  (if (k >? 2016666) && (k <? 3279166) then (60, 2016667, 24250080)
   else if (k >? 599999) && (k <? 2016667) then (15, 600000, 3000000)
   else (5, 0, 0)) = (d, n, f).
Proof.
  intros H H0. unfold arfcn_of. unfold raster_of in *.
  destruct (Z.ltb_spec khz 3000000); [|destruct (Z.ltb_spec khz 24250000)]; cbn [fst snd] in H.
  - assert (0 <= khz / 5 < 600000) by (split; [apply Z.div_pos; lia|apply Z.div_lt_upper_bound; lia]).
    pose proof (Z.div_mod khz 5 ltac:(lia)). pose proof (Z.mod_pos_bound khz 5 ltac:(lia)).
    rewrite Z.sub_0_r, Z.add_0_r. do 3 (split; [lia|]).
    rewrite !Z.gtb_ltb, (proj2 (Z.ltb_ge 2016666 _)), (proj2 (Z.ltb_ge 599999 _)) by lia. reflexivity.
  - assert (0 <= (khz - 3000000) / 15 < 1416667) by (split; [apply Z.div_pos; lia|apply Z.div_lt_upper_bound; lia]).
    pose proof (Z.div_mod (khz - 3000000) 15 ltac:(lia)). pose proof (Z.mod_pos_bound (khz - 3000000) 15 ltac:(lia)).
    do 3 (split; [lia|]).
    rewrite !Z.gtb_ltb, (proj2 (Z.ltb_ge 2016666 _)), (proj2 (Z.ltb_lt 599999 _)), (proj2 (Z.ltb_lt _ 2016667)) by lia.
    reflexivity.
  - assert (0 <= (khz - 24250080) / 60 < 1262499) by (split; [apply Z.div_pos; lia|apply Z.div_lt_upper_bound; lia]).
    pose proof (Z.div_mod (khz - 24250080) 60 ltac:(lia)). pose proof (Z.mod_pos_bound (khz - 24250080) 60 ltac:(lia)).
    do 3 (split; [lia|]).
    rewrite !Z.gtb_ltb, (proj2 (Z.ltb_lt 2016666 _)), (proj2 (Z.ltb_lt _ 3279166)) by lia. reflexivity.
Qed.

(** The raster that [to_nrarfcn] chooses by the frequency in Hz. *)
Lemma raster_of_hz f :
  0 <= f ->
  (if f <? 3000000000 then (5, 0, 0) else if f <? 24250000000 then (15, 600000, 3000000) else (60, 2016667, 24250080))
  = raster_of (f / 1000).
Proof.
  intros Hf. pose proof (Z.div_mod f 1000 ltac:(lia)). pose proof (Z.mod_pos_bound f 1000 ltac:(lia)).
  unfold raster_of. destruct (Z.ltb_spec f 3000000000), (Z.ltb_spec (f / 1000) 3000000); try lia; [done|].
  destruct (Z.ltb_spec f 24250000000), (Z.ltb_spec (f / 1000) 24250000); try lia; done.
Qed.

(** ** Properties *)

(** Resource indications decode to what was encoded: the size and the start of an
    allocation of blocks in a bandwidth part of any size, when the encoder accepts it, and
    the start and the number of symbols of an allocation in a slot. *)
Theorem allocation_roundtrip :
  (forall NPRB RBstart BWPsize riv, 0 <= RBstart ->
    PRBalloc_to_locationandbandwidth0 NPRB RBstart BWPsize = Ok riv ->
    NRRIV2BW riv BWPsize = NPRB /\ NRRIV2PRBOFFSET riv BWPsize = RBstart) /\
  (forall S L, 0 <= S -> 1 <= L -> S + L <= 14 -> SLIV2SL (get_SLIV S L) = (S, L)).
Proof.
  split.
  - intros NPRB RBstart N riv Hs E. unfold PRBalloc_to_locationandbandwidth0 in E.
    destruct (negb _) eqn:Hok; [done|]. apply negb_false_iff, andb_true_iff in Hok as [H1 H2].
    apply Z.gtb_lt in H1. apply Z.leb_le in H2. unfold NRRIV2BW, NRRIV2PRBOFFSET. rewrite Z.shiftr_div_pow2 in * by lia.
    change (2 ^ 1) with 2 in *. pose proof (Z.div_mod N 2 ltac:(lia)). pose proof (Z.mod_pos_bound N 2 ltac:(lia)).
    destruct (Z.leb_spec NPRB (1 + N / 2)) as [Hle|Hgt]; injection E as <-.
    + destruct (quot_rem_of N (NPRB - 1) RBstart ltac:(lia) ltac:(lia)) as [-> ->].
      rewrite (proj2 (Z.leb_le (NPRB - 1) _)), (proj2 (Z.ltb_lt (NPRB - 1 + RBstart) N)) by lia. cbn [andb]. lia.
    + destruct (quot_rem_of N (N + 1 - NPRB) (N - 1 - RBstart) ltac:(lia) ltac:(lia)) as [-> ->].
      rewrite (proj2 (Z.ltb_ge (N + 1 - NPRB + (N - 1 - RBstart)) N)), andb_false_r by lia. lia.
  - intros S L HS HL Hle. unfold SLIV2SL, get_SLIV. destruct (Z.leb_spec (L - 1) 7).
    + assert (u16 (14 * (L - 1) + S) = 14 * (L - 1) + S) as -> by (apply Z.mod_small; lia).
      destruct (quot_rem_of 14 (L - 1) S ltac:(lia) ltac:(lia)) as [-> ->].
      rewrite Z.geb_leb, (proj2 (Z.leb_le 0 _)), (proj2 (Z.leb_le (L - 1) _)) by lia. cbn [andb]. f_equal; lia.
    + assert (u16 (14 * (15 - L) + (13 - S)) = 14 * (15 - L) + (13 - S)) as -> by (apply Z.mod_small; lia).
      destruct (quot_rem_of 14 (15 - L) (13 - S) ltac:(lia) ltac:(lia)) as [-> ->].
      rewrite (proj2 (Z.leb_gt (15 - L) _)), andb_false_r by lia. f_equal; lia.
Qed.

Lemma allocation_roundtrip_witness :
  PRBalloc_to_locationandbandwidth0 106 50 273 = Ok 28715 /\ NRRIV2BW 28715 273 = 106 /\ SLIV2SL (get_SLIV 2 12) = (2, 12).
Proof.
  split; [reflexivity|]. destruct allocation_roundtrip as [H1 H2]. split.
  - apply (H1 106 50 273); [lia|reflexivity].
  - apply (H2 2 12); lia.
Defined.

(** The NR-ARFCN of a carrier frequency gives the frequency back.  For every band, when
    [to_nrarfcn] accepts a carrier (of at most 400 MHz) whose number is not below the first one
    of the band, [from_nrarfcn] accepts the number, takes it for the downlink, and returns the
    frequency rounded down to the global raster, 5, 15 or 60 kHz. *)
Theorem arfcn_roundtrip (nr_band scs i f bw n : Z) (e : nr_bandentry_t) :
  0 <= f -> 0 <= bw <= 400000000 ->
  get_nr_table_idx nr_band scs = Ok i -> table_entry i = Ok e ->
  to_nrarfcn nr_band f scs bw = Ok n -> N_OFFs_DL e <= n ->
  exists f', from_nrarfcn nr_band scs n = Ok f' /\
    f' <= f < f' + 1000 * (raster_of (f / 1000)).1.1 /\
    exists k, 0 <= k /\ f' = 1000 * ((raster_of (f / 1000)).2 + k * (raster_of (f / 1000)).1.1).
Proof.
  intros Hf Hbw Hi He E Hn. destruct (table_idx_ok _ _ _ Hi) as (e' & He' & Hok).
  rewrite He in He'. injection He' as <-. unfold to_nrarfcn in E. rewrite Hi in E. cbn [rbind] in E.
  rewrite He in E. cbn [rbind] in E. cbv zeta in E. set (khz := f / 1000) in *.
  destruct (Z.ltb_spec khz (dl_min e)) as [|Hmin]; [done|].
  unfold band_ok in Hok. destruct (raster_of (dl_min e)) as [[d n0] fr] eqn:Er.
  destruct (raster_of (dl_max e)) as [[d2 n2] fr2] eqn:Er2.
  repeat rewrite andb_true_iff in Hok. rewrite !Z.ltb_lt, !Z.leb_le, Z.eqb_eq in Hok.
  destruct Hok as (((((((((((O1 & O2) & O3) & O4) & O5) & O6) & O7) & O8) & O9) & O10) & O11) & O12). subst d2.
  assert (Hbk : 0 <= bw / 1000 <= 400000) by (split; [apply Z.div_pos; lia|apply Z.div_le_upper_bound; lia]).
  rewrite u64_small in E by lia. destruct (Z.gtb_spec khz (dl_max e - bw / 1000)) as [|Hmax]; [done|].
  rewrite raster_of_hz in E by done. fold khz in E |- *.
  assert (Hr : raster_of khz = (d, n0, fr)).
  { rewrite <- Er. apply raster_mono with (b := dl_max e); [lia|by rewrite Er, Er2|lia]. }
  assert (Hrmax : raster_of (dl_max e) = (d, n0, fr)).
  { rewrite <- Er. apply raster_mono with (b := dl_max e); [lia|by rewrite Er, Er2|lia]. }
  rewrite Hr in E |- *. cbn [fst snd]. 
  pose proof (arfcn_range khz ltac:(rewrite Hr; cbn; lia) ltac:(lia)) as Hk. rewrite Hr in Hk. cbv zeta in Hk.
  destruct Hk as (Hk1 & Hk2 & Hk3 & Hk4). set (k := arfcn_of khz) in *.
  assert (Ek : (khz - fr) / d + n0 = k) by (unfold k, arfcn_of; by rewrite Hr).
  assert (Hd : (d = 5 \/ d = 15 \/ d = 60) /\ 0 <= fr /\ 0 <= n0).
  { unfold raster_of in Hr. destruct (khz <? 3000000); [|destruct (khz <? 24250000)]; injection Hr; lia. }
  rewrite (u64_small (khz - fr)) in E by lia. rewrite Ek in E. rewrite (u32_small k) in E by lia.
  apply rbind_ok in E as ([] & Ed & [= <-]).
  unfold from_nrarfcn, get_delta_duplex. rewrite Hi. cbn [rbind]. rewrite He. cbn [rbind]. rewrite Hk4.
  rewrite i32_small by lia. set (delta := ul_min e - dl_min e) in *.
  assert (Hq : Z.abs (Z.quot delta d) <= Z.abs delta).
  { rewrite <- Z.quot_abs by lia. apply Z.quot_le_upper_bound; nia. }
  assert (Hoffs : (if delta <=? 0 then if k >=? N_OFFs_DL e then N_OFFs_DL e else u64 (N_OFFs_DL e + Z.quot delta d)
    else if k >=? u64 (N_OFFs_DL e + Z.quot delta d) then u64 (N_OFFs_DL e + Z.quot delta d) else N_OFFs_DL e)
    = N_OFFs_DL e).
  { rewrite (u64_small (N_OFFs_DL e + Z.quot delta d)) by lia. destruct (delta <=? 0).
    - by rewrite Z.geb_leb, (proj2 (Z.leb_le (N_OFFs_DL e) k)).
    - apply Z.ltb_lt in O12. destruct (Z.geb_spec k (N_OFFs_DL e + Z.quot delta d)) as [Hge|]; [|done]. exfalso.
      assert (k <= arfcn_of (dl_max e)); [|lia]. unfold k, arfcn_of. rewrite Hr, Hrmax.
      apply Z.add_le_mono_r, Z.div_le_mono; lia. }
  rewrite Hoffs. destruct (Z.ltb_spec k (N_OFFs_DL e)); [lia|]. rewrite Ed. cbn [rbind].
  rewrite (u32_small (k - n0)), (u32_small ((k - n0) * d)), u64_small by nia.
  pose proof (Z.div_mod f 1000 ltac:(lia)). pose proof (Z.mod_pos_bound f 1000 ltac:(lia)). fold khz in H.
  eexists. split; [reflexivity|]. split; [lia|]. exists (k - n0). split; [lia|]. reflexivity.
Qed.

Lemma arfcn_roundtrip_witness :
  to_nrarfcn 78 3619200000 1 100000000 = Ok 641280 /\ exists f', from_nrarfcn 78 1 641280 = Ok f' /\ f' <= 3619200000.
Proof.
  split; [vm_compute; reflexivity|].
  destruct (arfcn_roundtrip 78 1 37 3619200000 100000000 641280 (mk_band 78 3300000 3800000 3300000 3800000 2 620000 30))
    as (f' & E & Hf & _); [lia|lia|vm_compute; reflexivity|vm_compute; reflexivity|vm_compute; reflexivity|cbn; lia|].
  exists f'. split; [exact E|lia].
Defined.
