(* ===== verification/GtpU.v ===== *)
(** The GTP-U end points of a CU or a DU: [gtp_itf.cpp].

    An end point is a UDP socket with two maps: from the UEs and their bearers to the outgoing
    tunnels, and from the TEIDs it has given to the UEs and bearers of the incoming packets.
    The host is little-endian.  [random] is a stream of values given to the operation that
    draws from it, [sendto] is a parameter that answers the number of bytes sent, and what
    [getaddrinfo], [socket] and [bind] answer is an argument of [udpServerSocket].  Datagrams
    sent and the calls of the two callbacks are events.  The mutex is not modelled: every
    operation here is one critical section, and what follows the unlock uses copies. *)

From S2P Require Import Prelude.

Definition GTPNOK : Z := -1.
(** [!GTPNOK] *)
Definition GTPOK : Z := 0.
Definition GTPV1U_HEADER_SIZE : Z := 8.
Definition PDU_SESSION_CONTAINER : Z := 0x85.
Definition EXT_HDR_LNTH_OCTET_UNITS : Z := 4.
Definition GTP_ECHO_REQ : Z := 1.
Definition GTP_ECHO_RSP : Z := 2.
Definition GTP_ERROR_INDICATION : Z := 26.
Definition GTP_SUPPORTED_EXTENSION_HEADER_INDICATION : Z := 31.
Definition GTP_END_MARKER : Z := 254.
Definition GTP_GPDU : Z := 255.
Definition INSTANCE_DEFAULT : Z := 65534.
Definition RAND_MAX : Z := 2 ^ 31 - 1.

(** ** Byte order *)

Definition le16 (v : Z) : list Z := [v mod 256; v / 256 mod 256].
Definition le32 (v : Z) : list Z := [v mod 256; v / 2 ^ 8 mod 256; v / 2 ^ 16 mod 256; v / 2 ^ 24 mod 256].
Definition of_le16 (b : list Z) : Z := buf_get b 0 + 256 * buf_get b 1.
Definition of_le32 (b : list Z) : Z :=
  buf_get b 0 + 2 ^ 8 * buf_get b 1 + 2 ^ 16 * buf_get b 2 + 2 ^ 24 * buf_get b 3.

(** [htons] and [htonl] swap the bytes; [ntohs] and [ntohl] are the same functions. *)
Definition htons (v : Z) : Z := of_le16 (rev (le16 (u16 v))).
Definition htonl (v : Z) : Z := of_le32 (rev (le32 (u32 v))).

(** ** Data *)

(** The packed header; [msgLength] and [hdr_teid] are the integers as stored. *)
Record Gtpv1uMsgHeader := mk_hdr {
  PN : Z; S_ : Z; E_ : Z; spare : Z; PT : Z; version : Z;
  msgType : Z;
  msgLength : Z;
  hdr_teid : Z
}.

Definition header_bytes (h : Gtpv1uMsgHeader) : list Z :=
  [PN h mod 2 + 2 * (S_ h mod 2) + 4 * (E_ h mod 2) + 8 * (spare h mod 2) + 16 * (PT h mod 2) + 32 * (version h mod 8);
   u8 (msgType h)] ++ le16 (msgLength h) ++ le32 (hdr_teid h).

Definition header_of (b : list Z) : Gtpv1uMsgHeader :=
  let b0 := buf_get b 0 in
  mk_hdr (b0 mod 2) (b0 / 2 mod 2) (b0 / 4 mod 2) (b0 / 8 mod 2) (b0 / 16 mod 2) (b0 / 32 mod 8)
    (buf_get b 1) (of_le16 (drop 2 b)) (of_le32 (drop 4 b)).

Record gtpv1u_bearer_t := mk_bearer {
  teid_incoming : Z;
  teid_outgoing : Z;
  outgoing_ip_addr : Z;
  outgoing_ip6_addr : list Z;
  outgoing_port : Z;
  seqNum : Z;
  npduNum : Z
}.

#[export] Instance eta_bearer : Eta gtpv1u_bearer_t := fun b =>
  mk_bearer (teid_incoming b) (teid_outgoing b) (outgoing_ip_addr b) (outgoing_ip6_addr b)
    (outgoing_port b) (seqNum b) (npduNum b).

Definition zero_bearer : gtpv1u_bearer_t := mk_bearer 0 0 0 (replicate 16 0) 0 0 0.

(** The functions given as callbacks of tunnels. *)
Inductive gtpCallback : Type :=
| Cb_pdcp_data_req
| Cb_cu_f1u_data_req
| Cb_lteDURecvCb
| Cb_DURecvCb.

(** [callBackSDAP] is always [sdap_data_req]. *)
Record rntiData_t := mk_rntiData {
  te_rnti : Z;
  incoming_rb_id : Z;
  callBack : gtpCallback;
  te_pdusession_id : Z
}.

(** Strings are lists of characters without the final zero. *)
Record openAddr_t := mk_openAddr {
  originHost : list Z;
  originService : list Z;
  destinationHost : list Z;
  destinationService : list Z;
  originInstance : Z
}.

Record gtpEndPoint := mk_endpoint {
  addr : openAddr_t;
  foundAddr : list Z;
  foundAddrLen : Z;
  ipVersion : Z;
  ue2te_mapping : gmap Z (gmap Z gtpv1u_bearer_t);
  te2ue_mapping : gmap Z rntiData_t
}.

#[export] Instance eta_endpoint : Eta gtpEndPoint := fun e =>
  mk_endpoint (addr e) (foundAddr e) (foundAddrLen e) (ipVersion e) (ue2te_mapping e) (te2ue_mapping e).

(** What [operator[]] of the map of instances creates. *)
Definition zero_endpoint : gtpEndPoint := mk_endpoint (mk_openAddr [] [] [] [] 0) (replicate 20 0) 0 0 ∅ ∅.

Record gtpEndPoints := mk_gtp {
  instances : gmap Z gtpEndPoint;
  legacyInstanceMapping : Z;
  is_gnb : bool
}.

#[export] Instance eta_gtp : Eta gtpEndPoints := fun g =>
  mk_gtp (instances g) (legacyInstanceMapping g) (is_gnb g).

(** Calls and datagrams that leave the component; [sdu] is the part of the buffer that a
    non-negative size names. *)
Inductive gtp_event : Type :=
| SendTo (h ip port : Z) (datagram : list Z)
| CallBack (cb : gtpCallback) (ctxt_instance rnti rb_id sdu_buffer_size : Z) (sdu : list Z)
| CallBackSDAP (ctxt_instance rnti rb_id sdu_buffer_size : Z) (sdu : list Z) (qfi rqi pdusession_id : Z).

(** [atol]: white space, a sign, decimal digits. *)
Fixpoint atol_digits (acc : Z) (s : list Z) : Z :=
  match s with
  | c :: tl => if (48 <=? c) && (c <=? 57) then atol_digits (10 * acc + (c - 48)) tl else acc
  | [] => acc
  end.
Fixpoint atol (s : list Z) : Z :=
  match s with
  | c :: tl =>
    if (c =? 32) || ((9 <=? c) && (c <=? 13)) then atol tl
    else if c =? 45 then - atol_digits 0 tl
    else if c =? 43 then atol_digits 0 tl
    else atol_digits 0 s
  | [] => 0
  end.

Definition get_dstport (e : gtpEndPoint) : Z := u16 (atol (destinationService (addr e))).

Definition gtpv1uNewTeid (r : Z * Z) : Z := u32 (fst r + cmod (snd r) (RAND_MAX - 1) + 1).

Definition compatInst (g : gtpEndPoints) (a : Z) : Z :=
  if (a =? 0) || (a =? INSTANCE_DEFAULT) then legacyInstanceMapping g else a.

(** [globGtp.instances[i]], which creates the entry when there is none. *)
Definition get_inst (g : gtpEndPoints) (i : Z) : gtpEndPoint := default zero_endpoint (instances g !! i).
Definition set_inst (g : gtpEndPoints) (i : Z) (e : gtpEndPoint) : gtpEndPoints :=
  g <| instances := <[i := e]> (instances g) |>.
Definition touch_inst (g : gtpEndPoints) (i : Z) : gtpEndPoints := set_inst g i (get_inst g i).

(** A [teid_t] as key of a [map<int, ...>]. *)
Definition te_key (teid : Z) : Z := i32 teid.

(** The two successive [find]s of a bearer. *)
Definition find_bearer (e : gtpEndPoint) (rnti rab_id : Z) : option gtpv1u_bearer_t :=
  ue2te_mapping e !! rnti ≫= fun m => m !! rab_id.

Definition set_bearer (e : gtpEndPoint) (rnti rab_id : Z) (b : gtpv1u_bearer_t) : gtpEndPoint :=
  e <| ue2te_mapping := <[rnti := <[rab_id := b]> (default ∅ (ue2te_mapping e !! rnti))]> (ue2te_mapping e) |>.

(** ** Sending *)

Section Send.

Variable sendto : Z -> Z -> Z -> list Z -> Z.

(** The [int] length of the message is that of the list. *)
Definition gtpv1uCreateAndSendMsg (h peerIp peerPort msgType teid : Z) (Msg : list Z)
  (seqNumFlag npduNumFlag extHdrFlag : bool) (seqNum npduNum extHdrType : Z)
  : res (Z * list gtp_event) :=
  if extHdrFlag then Exit
  else
    let msgLen := Z.of_nat (length Msg) in
    let additional := seqNumFlag || npduNumFlag || extHdrFlag in
    let msgLength := htons msgLen in
    let msgLength := if additional then u16 (msgLength + 4) else msgLength in
    let msgHdr :=
      mk_hdr (Z.b2z npduNumFlag) (Z.b2z seqNumFlag) (Z.b2z extHdrFlag) 0 1 1 msgType msgLength (htonl teid) in
    let optional :=
      if additional
      then le16 (if seqNumFlag then htons seqNum else 0) ++
           [if npduNumFlag then u8 (htons npduNum) else 0; if extHdrFlag then u8 (htons extHdrType) else 0]
      else [] in
    let buffer := header_bytes msgHdr ++ optional ++ Msg in
    let fullSize := Z.of_nat (length buffer) in
    Ok (if sendto h peerIp (u16 peerPort) buffer =? fullSize then GTPOK else GTPNOK,
        [SendTo h peerIp (u16 peerPort) buffer]).

(** [gtpv1u_enb_tunnel_data_req_t] and [gtpv1u_gnb_tunnel_data_req_t] *)
Record tunnel_data_req := mk_data_req {
  req_buffer : list Z;
  req_length : Z;
  req_offset : Z;
  req_rnti : Z;
  req_rab_id : Z
}.

(** [buffer + offset] with the given length. *)
Definition req_bytes (req : tunnel_data_req) : res (list Z) :=
  if req_offset req + req_length req <=? Z.of_nat (length (req_buffer req))
  then Ok (take (Z.to_nat (req_length req)) (drop (Z.to_nat (req_offset req)) (req_buffer req)))
  else Fault OutOfBounds.

(** The common part of [gtpv1uSend] and [gtpv1uSend2]. *)
Definition gtpv1u_send_on (g : gtpEndPoints) (instance : Z) (req : tunnel_data_req)
  (rab_id : Z) (seqNumFlag npduNumFlag : bool) : res (gtpEndPoints * list gtp_event) :=
  let i := compatInst g instance in
  let inst := get_inst g i in
  match find_bearer inst (req_rnti req) rab_id with
  | None => Ok (touch_inst g i, [])
  | Some b =>
    let b := if seqNumFlag then b <| seqNum := u16 (seqNum b + 1) |> else b in
    let b := if npduNumFlag then b <| npduNum := u8 (npduNum b + 1) |> else b in
    let g := set_inst g i (set_bearer inst (req_rnti req) rab_id b) in
    let* buffer := req_bytes req in
    let* (_, ev) :=
      gtpv1uCreateAndSendMsg (compatInst g instance) (outgoing_ip_addr b) (outgoing_port b) GTP_GPDU
        (teid_outgoing b) buffer seqNumFlag npduNumFlag false (seqNum b) (npduNum b) 0 in
    Ok (g, ev)
  end.

(** [rab_id] is a [long] stored into an [int] in the first, a [uint8_t] in the second. *)
Definition gtpv1uSend (g : gtpEndPoints) (instance : Z) (req : tunnel_data_req)
  (seqNumFlag npduNumFlag : bool) : res (gtpEndPoints * list gtp_event) :=
  gtpv1u_send_on g instance req (i32 (req_rab_id req)) seqNumFlag npduNumFlag.

Definition gtpv1uSend2 (g : gtpEndPoints) (instance : Z) (req : tunnel_data_req)
  (seqNumFlag npduNumFlag : bool) : res (gtpEndPoints * list gtp_event) :=
  gtpv1u_send_on g instance req (req_rab_id req) seqNumFlag npduNumFlag.

Definition gtpv1uEndTunnel (g : gtpEndPoints) (instance : Z) (req : tunnel_data_req)
  : gtpEndPoints * list gtp_event :=
  let i := compatInst g instance in
  let inst := get_inst g i in
  match find_bearer inst (req_rnti req) (i32 (req_rab_id req)) with
  | None => (touch_inst g i, [])
  | Some tmp =>
    let msgHdr := mk_hdr 0 0 0 0 1 1 GTP_END_MARKER (htons 0) (htonl (teid_outgoing tmp)) in
    (touch_inst g i, [SendTo i (outgoing_ip_addr tmp) (outgoing_port tmp) (header_bytes msgHdr)])
  end.

(** ** Receiving *)

(** The handlers read [msgBuf], the array of 65536 bytes that starts with the datagram. *)
Definition is_gtp (msgHdr : Gtpv1uMsgHeader) : bool := (version msgHdr =? 1) && (PT msgHdr =? 1).

Definition Gtpv1uHandleEchoReq (h : Z) (msgBuf : list Z) (peerPort peerIp : Z) : res (Z * list gtp_event) :=
  let msgHdr := header_of msgBuf in
  if negb (is_gtp msgHdr) then Ok (GTPNOK, [])
  else if negb (S_ msgHdr =? 1) then Ok (GTPNOK, [])
  else
    let seq := htons (of_le16 (drop (Z.to_nat GTPV1U_HEADER_SIZE) msgBuf)) in
    let recovery := [14; 0] in
    gtpv1uCreateAndSendMsg h peerIp peerPort GTP_ECHO_RSP (htonl (hdr_teid msgHdr)) recovery
      true false false seq 0 0.

Definition Gtpv1uHandleError : Z := GTPNOK.
Definition Gtpv1uHandleSupportedExt : Z := GTPNOK.

Definition Gtpv1uHandleEndMarker (g : gtpEndPoints) (h : Z) (msgBuf : list Z)
  : gtpEndPoints * Z * list gtp_event :=
  let msgHdr := header_of msgBuf in
  if negb (is_gtp msgHdr) then (g, GTPNOK, [])
  else
    let inst := get_inst g h in
    let g := touch_inst g h in
    match te2ue_mapping inst !! te_key (htonl (hdr_teid msgHdr)) with
    | None => (g, GTPNOK, [])
    | Some tunnel =>
      (g, GTPOK, [CallBack (callBack tunnel) (originInstance (addr inst)) (te_rnti tunnel)
                    (incoming_rb_id tunnel) 0 []])
    end.

(** The offset of the payload, the QFI and the RQI. *)
Definition gpdu_offset (msgBuf : list Z) : Z * Z * Z :=
  let msgHdr := header_of msgBuf in
  let offset := GTPV1U_HEADER_SIZE in
  if (E_ msgHdr =? 0) && (S_ msgHdr =? 0) && (PN msgHdr =? 0) then (offset, 0, 0)
  else
    let NextExtHeaderType := buf_get msgBuf (offset + 3) in
    let offset := offset + 4 in
    if (E_ msgHdr =? 1) && (NextExtHeaderType =? PDU_SESSION_CONTAINER) then
      let ExtHeaderLen := buf_get msgBuf offset in
      let container := buf_get msgBuf (offset + 2) in
      (offset + ExtHeaderLen * EXT_HDR_LNTH_OCTET_UNITS, container mod 64, container / 64 mod 2)
    else (offset, 0, 0).

Definition Gtpv1uHandleGpdu (g : gtpEndPoints) (h : Z) (msgBuf : list Z) (msgBufLen : Z)
  : gtpEndPoints * Z * list gtp_event :=
  let msgHdr := header_of msgBuf in
  if negb (is_gtp msgHdr) then (g, GTPNOK, [])
  else
    let inst := get_inst g h in
    let g := touch_inst g h in
    match te2ue_mapping inst !! te_key (htonl (hdr_teid msgHdr)) with
    | None => (g, GTPNOK, [])
    | Some tunnel =>
      let '(offset, qfi, rqi) := gpdu_offset msgBuf in
      let ctxt_instance := originInstance (addr inst) in
      let sdu_buffer_size := i32 (u32 (msgBufLen - offset)) in
      let sdu_buffer := take (Z.to_nat sdu_buffer_size) (drop (Z.to_nat offset) msgBuf) in
      if is_gnb g && negb (qfi =? 0)
      then (g, GTPOK, [CallBackSDAP ctxt_instance (te_rnti tunnel) (incoming_rb_id tunnel) sdu_buffer_size
                         sdu_buffer qfi rqi (te_pdusession_id tunnel)])
      else (g, GTPOK, [CallBack (callBack tunnel) ctxt_instance (te_rnti tunnel) (incoming_rb_id tunnel)
                         sdu_buffer_size sdu_buffer])
    end.

(** [datagram] is what [recvfrom] wrote over [udpData], from the port and the address of the
    peer; a negative [udpDataLen] is its failure. *)
Definition gtpv1uReceiver (g : gtpEndPoints) (h : Z) (udpData datagram : list Z) (udpDataLen : Z)
  (sin_port s_addr : Z) : res (gtpEndPoints * list gtp_event) :=
  if udpDataLen <=? 0 then Ok (g, [])
  else
    let udpData := buf_write udpData 0 datagram in
    let msgType := buf_get udpData 1 in
    if msgType =? GTP_ECHO_RSP then Ok (g, [])
    else if msgType =? GTP_ECHO_REQ then
      let* (_, ev) := Gtpv1uHandleEchoReq h udpData sin_port s_addr in Ok (g, ev)
    else if msgType =? GTP_ERROR_INDICATION then Ok (g, [])
    else if msgType =? GTP_SUPPORTED_EXTENSION_HEADER_INDICATION then Ok (g, [])
    else if msgType =? GTP_END_MARKER then
      let '(g, _, ev) := Gtpv1uHandleEndMarker g h udpData in Ok (g, ev)
    else if msgType =? GTP_GPDU then
      let '(g, _, ev) := Gtpv1uHandleGpdu g h udpData udpDataLen in Ok (g, ev)
    else Ok (g, []).

End Send.

(** ** Tunnels *)

Definition GtpuUpdateTunnelOutgoingTeid (g : gtpEndPoints) (instance rnti bearer_id newOutgoingTeid : Z)
  : gtpEndPoints :=
  let i := compatInst g instance in
  let inst := get_inst g i in
  match find_bearer inst rnti bearer_id with
  | None => touch_inst g i
  | Some b => set_inst g i (set_bearer inst rnti bearer_id (b <| teid_outgoing := newOutgoingTeid |>))
  end.

(** The length is in bits. *)
Record transport_layer_addr_t := mk_tla { tla_length : Z; tla_buffer : list Z }.

(** Draw TEIDs until one is not used: the TEID and the values that are left. *)
Fixpoint draw_teid (te2ue : gmap Z rntiData_t) (rands : list (Z * Z)) : res (Z * list (Z * Z)) :=
  match rands with
  | [] => Fault FuelExhausted
  | r :: tl =>
    let incoming_teid := gtpv1uNewTeid r in
    match te2ue !! te_key incoming_teid with
    | Some _ => draw_teid te2ue tl
    | None => Ok (incoming_teid, tl)
    end
  end.

(** The [switch] on the size of the address; the case of both addresses has no [break]. *)
Definition set_remote (tmp : gtpv1u_bearer_t) (remoteAddr : transport_layer_addr_t) : res gtpv1u_bearer_t :=
  let n := tla_length remoteAddr / 8 in
  if n =? 4 then Ok (tmp <| outgoing_ip_addr := of_le32 (tla_buffer remoteAddr) |>)
  else if n =? 16 then Ok (tmp <| outgoing_ip6_addr := take 16 (tla_buffer remoteAddr) |>)
  else Exit.

Definition newGtpuCreateTunnel (g : gtpEndPoints) (instance rnti incoming_bearer_id outgoing_bearer_id
    outgoing_teid : Z) (remoteAddr : transport_layer_addr_t) (port : Z) (cb : gtpCallback)
  (rands : list (Z * Z)) : res (gtpEndPoints * Z * list (Z * Z)) :=
  let i := compatInst g instance in
  let inst := get_inst g i in
  let* (incoming_teid, rands) := draw_teid (te2ue_mapping inst) rands in
  let data := mk_rntiData rnti (u8 incoming_bearer_id) cb (u8 outgoing_bearer_id) in
  let inst := inst <| te2ue_mapping := <[te_key incoming_teid := data]> (te2ue_mapping inst) |> in
  let tmp := default zero_bearer (find_bearer inst rnti outgoing_bearer_id) in
  let* tmp := set_remote tmp remoteAddr in
  let tmp := tmp <| teid_incoming := incoming_teid |> <| outgoing_port := u16 port |>
                 <| teid_outgoing := outgoing_teid |> in
  Ok (set_inst g i (set_bearer inst rnti outgoing_bearer_id tmp), incoming_teid, rands).

(** One tunnel of a request. *)
Record tunnel_req := mk_tunnel_req {
  tr_outgoing_teid : Z;
  tr_bearer : Z;
  tr_incoming_rb_id : Z;
  tr_addr : transport_layer_addr_t
}.

(** [gtpv1u_enb_create_tunnel_req_t] and [gtpv1u_gnb_create_tunnel_req_t]: the arrays up to
    [num_tunnels]. *)
Record create_tunnel_req := mk_create_req {
  cr_rnti : Z;
  cr_tunnels : list tunnel_req
}.

(** The responses: the addresses are bytes with a length. *)
Record create_tunnel_resp := mk_create_resp {
  cs_status : Z;
  cs_rnti : Z;
  cs_num_tunnels : Z;
  cs_teid : list Z;
  cs_bearer : list Z;
  cs_addr_buffer : list Z;
  cs_addr_length : Z
}.

#[export] Instance eta_resp : Eta create_tunnel_resp := fun r =>
  mk_create_resp (cs_status r) (cs_rnti r) (cs_num_tunnels r) (cs_teid r) (cs_bearer r)
    (cs_addr_buffer r) (cs_addr_length r).

(** What is written to the response after the creation of tunnel [k]. *)
Definition fill_resp (resp : create_tunnel_resp) (req : create_tunnel_req) (inst : gtpEndPoint) (k : nat)
  (teid : Z) : create_tunnel_resp :=
  resp <| cs_status := 0 |> <| cs_rnti := cr_rnti req |>
       <| cs_num_tunnels := Z.of_nat (length (cr_tunnels req)) |>
       <| cs_teid := <[k := teid]> (cs_teid resp) |>
       <| cs_addr_buffer := buf_write (cs_addr_buffer resp) 0 (take (Z.to_nat (foundAddrLen inst)) (foundAddr inst)) |>
       <| cs_addr_length := u8 (foundAddrLen inst) |>.

Fixpoint ngu_loop (g : gtpEndPoints) (instance : Z) (req : create_tunnel_req) (dstport : Z) (k : nat)
  (l : list tunnel_req) (resp : create_tunnel_resp) (rands : list (Z * Z))
  : res (gtpEndPoints * create_tunnel_resp * list (Z * Z)) :=
  match l with
  | [] => Ok (g, resp, rands)
  | t :: tl =>
    let* (g, teid, rands) :=
      newGtpuCreateTunnel g instance (cr_rnti req) (tr_incoming_rb_id t) (tr_bearer t)
        (tr_outgoing_teid t) (tr_addr t) dstport Cb_pdcp_data_req rands in
    let resp := fill_resp resp req (get_inst g (compatInst g instance)) k teid in
    ngu_loop g instance req dstport (k + 1) tl resp rands
  end.

Definition gtpv1u_create_ngu_tunnel (g : gtpEndPoints) (instance : Z) (req : create_tunnel_req)
  (resp : create_tunnel_resp) (rands : list (Z * Z))
  : res (gtpEndPoints * create_tunnel_resp * Z * list (Z * Z)) :=
  let i := compatInst g instance in
  let g := touch_inst g i in
  let dstport := get_dstport (get_inst g i) in
  let g := g <| is_gnb := true |> in
  let* (g, resp, rands) := ngu_loop g instance req dstport 0 (cr_tunnels req) resp rands in
  Ok (g, resp, GTPOK, rands).

Fixpoint s1u_loop (g : gtpEndPoints) (instance : Z) (req : create_tunnel_req) (dstport : Z) (k : nat)
  (l : list tunnel_req) (resp : create_tunnel_resp) (rands : list (Z * Z))
  : res (gtpEndPoints * create_tunnel_resp * list (Z * Z)) :=
  match l with
  | [] => Ok (g, resp, rands)
  | t :: tl =>
    if tr_bearer t <=? 4 then Exit
    else
      let* (g, teid, rands) :=
        newGtpuCreateTunnel g (compatInst g instance) (cr_rnti req) (tr_bearer t - 4) (tr_bearer t)
          (tr_outgoing_teid t) (tr_addr t) dstport Cb_pdcp_data_req rands in
      let resp := fill_resp resp req (get_inst g (compatInst g instance)) k teid in
      let resp := resp <| cs_bearer := <[k := tr_bearer t]> (cs_bearer resp) |> in
      s1u_loop g instance req dstport (k + 1) tl resp rands
  end.

Definition gtpv1u_create_s1u_tunnel (g : gtpEndPoints) (instance : Z) (req : create_tunnel_req)
  (resp : create_tunnel_resp) (rands : list (Z * Z))
  : res (gtpEndPoints * create_tunnel_resp * Z * list (Z * Z)) :=
  let i := compatInst g instance in
  let g := touch_inst g i in
  let dstport := get_dstport (get_inst g i) in
  let* (g, resp, rands) := s1u_loop g instance req dstport 0 (cr_tunnels req) resp rands in
  Ok (g, resp, GTPOK, rands).

(** The response is a local variable.  When there is no entry for [prior_rnti] the iterator is
    the end of the map, and it is read. *)
Definition gtpv1u_update_s1u_tunnel (g : gtpEndPoints) (instance : Z) (req : create_tunnel_req)
  (prior_rnti : Z) (tmp : create_tunnel_resp) (rands : list (Z * Z))
  : res (gtpEndPoints * Z * list (Z * Z)) :=
  let i := compatInst g instance in
  let inst := get_inst g i in
  let g := touch_inst g i in
  match ue2te_mapping inst !! prior_rnti with
  | Some _ =>
    let* (g, _, _, rands) := gtpv1u_create_s1u_tunnel g instance req tmp rands in
    Ok (g, 0, rands)
  | None => Fault OutOfBounds
  end.

Definition gtpv1u_update_ngu_tunnel : res Z := Exit.
Definition gtpv1u_create_x2u_tunnel : res Z := Exit.

Definition erase_incoming (te2ue : gmap Z rntiData_t) (b : gtpv1u_bearer_t) : gmap Z rntiData_t :=
  delete (te_key (teid_incoming b)) te2ue.

Definition newGtpuDeleteAllTunnels (g : gtpEndPoints) (instance rnti : Z) : gtpEndPoints * Z :=
  let i := compatInst g instance in
  let inst := get_inst g i in
  match ue2te_mapping inst !! rnti with
  | None => (touch_inst g i, -1)
  | Some bearers =>
    let te2ue := fold_left erase_incoming (snd <$> map_to_list bearers) (te2ue_mapping inst) in
    (set_inst g i (inst <| te2ue_mapping := te2ue |>
                        <| ue2te_mapping := delete rnti (ue2te_mapping inst) |>), GTPOK)
  end.

Definition gtpv1u_delete_s1u_tunnel (g : gtpEndPoints) (instance rnti : Z) : gtpEndPoints * Z :=
  newGtpuDeleteAllTunnels g instance rnti.

(** One turn of the loop; the bearer itself is not erased. *)
Definition erase_session (bearers : gmap Z gtpv1u_bearer_t) (te2ue : gmap Z rntiData_t) (pdusession_id : Z)
  : gmap Z rntiData_t :=
  match bearers !! pdusession_id with
  | None => te2ue
  | Some b => erase_incoming te2ue b
  end.

Definition newGtpuDeleteTunnels (g : gtpEndPoints) (instance rnti : Z) (pdusession_id : list Z)
  : gtpEndPoints * Z :=
  let i := compatInst g instance in
  let inst := get_inst g i in
  match ue2te_mapping inst !! rnti with
  | None => (touch_inst g i, -1)
  | Some bearers =>
    let te2ue := fold_left (erase_session bearers) pdusession_id (te2ue_mapping inst) in
    let inst := inst <| te2ue_mapping := te2ue |> in
    let inst :=
      if (size bearers =? 0)%nat then inst <| ue2te_mapping := delete rnti (ue2te_mapping inst) |> else inst in
    (set_inst g i inst, GTPOK)
  end.

Definition gtpv1u_delete_x2u_tunnel : Z := 0.

Definition gtpv1u_delete_ngu_tunnel (g : gtpEndPoints) (instance rnti : Z) (pdusession_id : list Z)
  : gtpEndPoints * Z :=
  newGtpuDeleteTunnels g instance rnti pdusession_id.

(** ** Sockets and the task *)

(** A result of [getaddrinfo] with what [socket] and [bind] answer for it. *)
Inductive ai_family : Type := AF_INET | AF_INET6 | AF_OTHER.
Record addrinfo := mk_addrinfo {
  family : ai_family;
  ai_addr : list Z;
  socket_result : Z;
  bind_result : Z
}.

(** The first address with a socket that is bound. *)
Fixpoint bind_first (servinfo : list addrinfo) : option addrinfo :=
  match servinfo with
  | [] => None
  | p :: tl => if (socket_result p =? -1) || (bind_result p =? -1) then bind_first tl else Some p
  end.

(** [None] is an error of [getaddrinfo]; the [connect] to the remote host only filters what
    the socket receives. *)
Definition udpServerSocket (g : gtpEndPoints) (a : openAddr_t) (servinfo : option (list addrinfo))
  : res (gtpEndPoints * Z) :=
  match servinfo ≫= bind_first with
  | None => Ok (g, -1)
  | Some p =>
    let sockfd := socket_result p in
    let inst := (get_inst g sockfd) <| addr := a |> in
    let found (n v : Z) :=
      inst <| foundAddr := buf_write (foundAddr inst) 0 (take (Z.to_nat n) (ai_addr p)) |>
           <| foundAddrLen := n |> <| ipVersion := v |> in
    match family p with
    | AF_INET => Ok (set_inst g sockfd (found 4 4), sockfd)
    | AF_INET6 => Ok (set_inst g sockfd (found 16 6), sockfd)
    | AF_OTHER => Exit
    end
  end.

Definition gtpv1Init (g : gtpEndPoints) (a : openAddr_t) (servinfo : option (list addrinfo))
  : res (gtpEndPoints * Z) := udpServerSocket g a servinfo.

Inductive gtp_message : Type :=
| GTPV1U_ENB_TUNNEL_DATA_REQ (instance : Z) (req : tunnel_data_req)
| GTPV1U_GNB_TUNNEL_DATA_REQ (instance : Z) (req : tunnel_data_req)
| TERMINATE_MESSAGE
| TIMER_HAS_EXPIRED
| GTPV1U_ENB_END_MARKER_REQ (instance : Z) (req : tunnel_data_req)
| GTPV1U_ENB_DATA_FORWARDING_REQ
| GTPV1U_ENB_DATA_FORWARDING_IND
| GTPV1U_ENB_END_MARKER_IND
| GTPV1U_REQ (localAddrStr localPortStr : list Z) (servinfo : option (list addrinfo))
| OTHER_MESSAGE.

Section Task.

Variable sendto : Z -> Z -> Z -> list Z -> Z.

(** The [switch] of [gtpv1uTask]. *)
Definition gtpv1u_message (g : gtpEndPoints) (m : gtp_message) : res (gtpEndPoints * list gtp_event) :=
  match m with
  | GTPV1U_ENB_TUNNEL_DATA_REQ instance req => gtpv1uSend sendto g (compatInst g instance) req false false
  | GTPV1U_GNB_TUNNEL_DATA_REQ instance req => gtpv1uSend2 sendto g (compatInst g instance) req false false
  | TERMINATE_MESSAGE => Ok (g, [])
  | TIMER_HAS_EXPIRED => Ok (g, [])
  | GTPV1U_ENB_END_MARKER_REQ instance req => Ok (gtpv1uEndTunnel g (compatInst g instance) req)
  | GTPV1U_ENB_DATA_FORWARDING_REQ | GTPV1U_ENB_DATA_FORWARDING_IND | GTPV1U_ENB_END_MARKER_IND => Exit
  | GTPV1U_REQ localAddrStr localPortStr servinfo =>
    let a := mk_openAddr localAddrStr localPortStr [] localPortStr 0 in
    let* (g, id) := gtpv1Init g a servinfo in
    let g := g <| legacyInstanceMapping := id |> in
    if id =? 0 then Exit else Ok (g, [])
  | OTHER_MESSAGE => Exit
  end.

(** A socket of [itti_get_events] that is readable, with what [recvfrom] gives on it. *)
Record readable := mk_readable {
  rd_fd : Z;
  rd_stack : list Z;
  rd_datagram : list Z;
  rd_len : Z;
  rd_port : Z;
  rd_addr : Z
}.

Fixpoint gtpv1u_events (g : gtpEndPoints) (l : list readable) : res (gtpEndPoints * list gtp_event) :=
  match l with
  | [] => Ok (g, [])
  | r :: tl =>
    let* (g, ev) := gtpv1uReceiver sendto g (rd_fd r) (rd_stack r) (rd_datagram r) (rd_len r) (rd_port r) (rd_addr r) in
    let* (g, evs) := gtpv1u_events g tl in
    Ok (g, ev ++ evs)
  end.

(** One turn of the loop of [gtpv1uTask]. *)
Definition gtpv1uTask_turn (g : gtpEndPoints) (message_p : option gtp_message) (events : list readable)
  : res (gtpEndPoints * list gtp_event) :=
  let* (g, ev) := match message_p with Some m => gtpv1u_message g m | None => Ok (g, []) end in
  let* (g, evs) := gtpv1u_events g events in
  Ok (g, ev ++ evs).

End Task.
