(* ===== verification/GtpTunnels.v ===== *)
(** The tunnels of GTP-U: a datagram that one end point sends is read by the other, the two
    maps of an end point implement one map from UEs and bearers to tunnels, and the set-up of
    a tunnel of the F1-U interface conveys packets both ways. *)

From S2P Require Import Prelude.
From S2P Require Import GtpU.

(** ** Bytes *)

(** A number of 32 bits and its four bytes. *)
Lemma le32_digits v : 0 <= v < 2 ^ 32 ->
  exists a b c d, v = a + 2 ^ 8 * b + 2 ^ 16 * c + 2 ^ 24 * d /\ is_byte a /\ is_byte b /\ is_byte c /\ is_byte d.
Proof.
  intros H. exists (v mod 256), (v / 256 mod 256), (v / 256 / 256 mod 256), (v / 256 / 256 / 256).
  unfold is_byte. Z.div_mod_to_equations. lia.
Qed.

Lemma le32_bytes a b c d : is_byte a -> is_byte b -> is_byte c -> is_byte d ->
  le32 (a + 2 ^ 8 * b + 2 ^ 16 * c + 2 ^ 24 * d) = [a; b; c; d].
Proof.
  unfold is_byte, le32. intros. repeat f_equal; Z.div_mod_to_equations; lia.
Qed.

Lemma of_le32_bytes a b c d rest : of_le32 (a :: b :: c :: d :: rest) = a + 2 ^ 8 * b + 2 ^ 16 * c + 2 ^ 24 * d.
Proof. reflexivity. Qed.

Lemma of_le32_le32 v rest : 0 <= v < 2 ^ 32 -> of_le32 (le32 v ++ rest) = v.
Proof.
  intros (a & b & c & d & -> & Ha & Hb & Hc & Hd)%le32_digits. by rewrite le32_bytes.
Qed.

Lemma htonl_involutive v : 0 <= v < 2 ^ 32 -> htonl (htonl v) = v /\ 0 <= htonl v < 2 ^ 32.
Proof.
  intros H. pose proof (le32_digits v H) as (a & b & c & d & E & Ha & Hb & Hc & Hd).
  assert (E1 : htonl v = d + 2 ^ 8 * c + 2 ^ 16 * b + 2 ^ 24 * a).
  { unfold htonl. rewrite u32_small, E, le32_bytes by done. reflexivity. }
  assert (Hr : 0 <= htonl v < 2 ^ 32) by (rewrite E1; unfold is_byte in *; lia).
  split; [|done]. unfold htonl at 1. rewrite u32_small, E1, le32_bytes by done. rewrite E. reflexivity.
Qed.

Lemma le16_involutive v rest : 0 <= v < 2 ^ 16 -> of_le16 (le16 v ++ rest) = v.
Proof. intros H. change (v mod 256 + 256 * (v / 256 mod 256) = v). Z.div_mod_to_equations. lia. Qed.

Lemma htons_bound v : 0 <= htons v < 2 ^ 16.
Proof.
  change (htons v) with (u16 v / 256 mod 256 + 256 * (u16 v mod 256)).
  Z.div_mod_to_equations. lia.
Qed.

(** A header in the ranges of its fields. *)
Definition header_ok (h : Gtpv1uMsgHeader) : Prop :=
  0 <= PN h < 2 /\ 0 <= S_ h < 2 /\ 0 <= E_ h < 2 /\ 0 <= spare h < 2 /\ 0 <= PT h < 2 /\ 0 <= version h < 8 /\
  is_byte (msgType h) /\ 0 <= msgLength h < 2 ^ 16 /\ 0 <= hdr_teid h < 2 ^ 32.

Lemma header_roundtrip h rest : header_ok h -> header_of (header_bytes h ++ rest) = h.
Proof.
  destruct h as [pn s e sp pt v ty len teid]. unfold header_ok, is_byte.
  cbn [PN S_ E_ spare PT version msgType msgLength hdr_teid].
  intros (H1 & H2 & H3 & H4 & H5 & H6 & H7 & H8 & H9). unfold header_of, header_bytes. cbn [PN S_ E_ spare PT version msgType msgLength hdr_teid].
  rewrite (Z.mod_small pn), (Z.mod_small s), (Z.mod_small e), (Z.mod_small sp), (Z.mod_small pt), (Z.mod_small v) by lia.
  set (b0 := pn + _ + _ + _ + _ + _). rewrite <- !app_assoc.
  change (buf_get ([b0; u8 ty] ++ le16 len ++ le32 teid ++ rest) 0) with b0.
  change (buf_get ([b0; u8 ty] ++ le16 len ++ le32 teid ++ rest) 1) with (u8 ty).
  change (drop 2 ([b0; u8 ty] ++ le16 len ++ le32 teid ++ rest)) with (le16 len ++ le32 teid ++ rest).
  change (drop 4 ([b0; u8 ty] ++ le16 len ++ le32 teid ++ rest)) with (le32 teid ++ rest).
  rewrite of_le32_le32, le16_involutive by done. unfold u8. rewrite (Z.mod_small ty) by lia.
  subst b0. f_equal; Z.div_mod_to_equations; lia.
Qed.

Lemma length_header h : length (header_bytes h) = 8%nat.
Proof. reflexivity. Qed.

(** ** One packet *)

(** A G-PDU without extension header: the offset is that of the payload and no QFI is read. *)
Lemma gpdu_offset_plain hd opt rest :
  header_ok hd -> E_ hd = 0 -> length opt = (if (S_ hd =? 0) && (PN hd =? 0) then 0%nat else 4%nat) ->
  gpdu_offset (header_bytes hd ++ opt ++ rest) = (8 + Z.of_nat (length opt), 0, 0).
Proof.
  intros Hh He Ho. unfold gpdu_offset. rewrite header_roundtrip, He by done. cbn [Z.eqb andb].
  destruct ((S_ hd =? 0) && (PN hd =? 0)); rewrite Ho; reflexivity.
Qed.

Lemma msg_type_byte hd rest : header_ok hd -> buf_get (header_bytes hd ++ rest) 1 = msgType hd.
Proof.
  intros (_ & _ & _ & _ & _ & _ & H & _). unfold is_byte in H. change (u8 (msgType hd) = msgType hd).
  unfold u8. apply Z.mod_small. lia.
Qed.

Lemma gpdu_received g h hd opt Msg stack :
  header_ok hd -> version hd = 1 -> PT hd = 1 -> E_ hd = 0 ->
  length opt = (if (S_ hd =? 0) && (PN hd =? 0) then 0%nat else 4%nat) ->
  Z.of_nat (length (header_bytes hd ++ opt ++ Msg)) <= 65536 ->
  Gtpv1uHandleGpdu g h (buf_write stack 0 (header_bytes hd ++ opt ++ Msg))
    (Z.of_nat (length (header_bytes hd ++ opt ++ Msg))) =
  match te2ue_mapping (get_inst g h) !! te_key (htonl (hdr_teid hd)) with
  | None => (touch_inst g h, GTPNOK, [])
  | Some d => (touch_inst g h, GTPOK,
      [CallBack (callBack d) (originInstance (addr (get_inst g h))) (te_rnti d) (incoming_rb_id d)
         (Z.of_nat (length Msg)) Msg])
  end.
Proof.
  intros Hh Hv Hp He Ho Hlen. rewrite buf_write_0. set (tail := drop _ stack).
  unfold Gtpv1uHandleGpdu. rewrite <- !app_assoc, header_roundtrip by done.
  unfold is_gtp. rewrite Hv, Hp. cbn [Z.eqb Pos.eqb andb negb].
  destruct (te2ue_mapping _ !! _) as [d|]; [|done].
  rewrite gpdu_offset_plain by done. rewrite andb_false_r.
  rewrite !length_app, length_header in Hlen |- *.
  replace (Z.of_nat (8 + (length opt + length Msg)) - (8 + Z.of_nat (length opt))) with (Z.of_nat (length Msg)) by lia.
  rewrite u32_small, i32_small, Nat2Z.id by lia. do 4 f_equal.
  replace (Z.to_nat (8 + Z.of_nat (length opt))) with (length (header_bytes hd ++ opt)).
  2: { rewrite length_app, length_header. lia. }
  rewrite app_assoc, drop_app_length, take_app_length. done.
Qed.

(** The header that [gtpv1uCreateAndSendMsg] writes. *)
Definition sent_header (msgType teid : Z) (Msg : list Z) (seqNumFlag npduNumFlag : bool) : Gtpv1uMsgHeader :=
  mk_hdr (Z.b2z npduNumFlag) (Z.b2z seqNumFlag) 0 0 1 1 msgType
    (if seqNumFlag || npduNumFlag then u16 (htons (Z.of_nat (length Msg)) + 4) else htons (Z.of_nat (length Msg)))
    (htonl teid).

Definition sent_optional (seqNumFlag npduNumFlag : bool) (seqNum npduNum : Z) : list Z :=
  if seqNumFlag || npduNumFlag
  then le16 (if seqNumFlag then htons seqNum else 0) ++ [if npduNumFlag then u8 (htons npduNum) else 0; 0]
  else [].

Lemma created_msg sendto h ip port ty teid Msg s n sn nn :
  exists ret, gtpv1uCreateAndSendMsg sendto h ip port ty teid Msg s n false sn nn 0 =
    Ok (ret, [SendTo h ip (u16 port) (header_bytes (sent_header ty teid Msg s n) ++ sent_optional s n sn nn ++ Msg)]).
Proof.
  unfold gtpv1uCreateAndSendMsg, sent_header, sent_optional. rewrite !orb_false_r. eexists. reflexivity.
Qed.

Lemma sent_header_ok ty teid Msg s n : is_byte ty -> 0 <= teid < 2 ^ 32 -> header_ok (sent_header ty teid Msg s n).
Proof.
  intros Ht Hteid. unfold header_ok, sent_header. cbn [PN S_ E_ spare PT version msgType msgLength hdr_teid].
  pose proof (htons_bound (Z.of_nat (length Msg))). pose proof (proj2 (htonl_involutive teid Hteid)).
  assert (0 <= u16 (htons (Z.of_nat (length Msg)) + 4) < 2 ^ 16) by (apply Z.mod_pos_bound; lia).
  repeat split; try (destruct s, n; cbn; lia); try (destruct (s || n); lia); try lia; apply Ht.
Qed.

Lemma sent_optional_length s n sn nn :
  length (sent_optional s n sn nn) = (if (Z.b2z s =? 0) && (Z.b2z n =? 0) then 0%nat else 4%nat).
Proof. destruct s, n; reflexivity. Qed.

Lemma gpdu_header teid Msg s n :
  0 <= teid < 2 ^ 32 -> te_key (htonl (hdr_teid (sent_header GTP_GPDU teid Msg s n))) = te_key teid.
Proof. intros H. cbn [hdr_teid sent_header]. by rewrite (proj1 (htonl_involutive teid H)). Qed.

(** The datagram of a G-PDU. *)
Definition gpdu_bytes (teid : Z) (Msg : list Z) (s n : bool) (sn nn : Z) : list Z :=
  header_bytes (sent_header GTP_GPDU teid Msg s n) ++ sent_optional s n sn nn ++ Msg.

Lemma receive_dispatch sendto g h stack dg port ip :
  0 < Z.of_nat (length dg) -> buf_get (dg ++ drop (length dg) stack) 1 = GTP_GPDU ->
  gtpv1uReceiver sendto g h stack dg (Z.of_nat (length dg)) port ip =
  let '(g, _, ev) := Gtpv1uHandleGpdu g h (buf_write stack 0 dg) (Z.of_nat (length dg)) in Ok (g, ev).
Proof.
  intros Hn Ht. unfold gtpv1uReceiver. replace (_ <=? 0) with false by (symmetry; apply Z.leb_gt; lia).
  rewrite buf_write_0, Ht. reflexivity.
Qed.

(** What an end point does with the datagram of a G-PDU for TEID [teid]. *)
Lemma receive_gpdu sendto g h stack teid Msg s n sn nn port ip :
  0 <= teid < 2 ^ 32 -> Z.of_nat (length Msg) <= 65524 ->
  gtpv1uReceiver sendto g h stack (gpdu_bytes teid Msg s n sn nn)
    (Z.of_nat (length (gpdu_bytes teid Msg s n sn nn))) port ip =
  Ok (touch_inst g h,
      match te2ue_mapping (get_inst g h) !! te_key teid with
      | None => []
      | Some d => [CallBack (callBack d) (originInstance (addr (get_inst g h))) (te_rnti d) (incoming_rb_id d)
                     (Z.of_nat (length Msg)) Msg]
      end).
Proof.
  intros Ht Hlen.
  assert (Hh : header_ok (sent_header GTP_GPDU teid Msg s n)) by (apply sent_header_ok; [unfold is_byte, GTP_GPDU; lia|done]).
  pose proof (sent_optional_length s n sn nn) as Ho.
  assert (Hlen' : Z.of_nat (length (gpdu_bytes teid Msg s n sn nn)) <= 65536 /\
                  0 < Z.of_nat (length (gpdu_bytes teid Msg s n sn nn))).
  { unfold gpdu_bytes. rewrite !length_app, length_header, Ho. destruct s, n; cbn; lia. }
  rewrite receive_dispatch; [|lia|unfold gpdu_bytes; by rewrite <- !app_assoc, msg_type_byte].
  unfold gpdu_bytes. rewrite gpdu_received by (try done; apply Hlen').
  rewrite gpdu_header by done. destruct (te2ue_mapping _ !! _); reflexivity.
Qed.

(** ** State *)

Lemma get_set_inst g i e : get_inst (set_inst g i e) i = e.
Proof. unfold get_inst, set_inst. cbn. by rewrite lookup_insert_eq. Qed.

Lemma get_touch_inst g i : get_inst (touch_inst g i) i = get_inst g i.
Proof. apply get_set_inst. Qed.

Lemma compat_set_inst g i e a : compatInst (set_inst g i e) a = compatInst g a.
Proof. reflexivity. Qed.

Lemma find_set_bearer e r b x r' b' :
  find_bearer (set_bearer e r b x) r' b' = if decide ((r', b') = (r, b)) then Some x else find_bearer e r' b'.
Proof.
  unfold find_bearer, set_bearer. cbn.
  destruct (decide (r' = r)) as [->|Hr].
  - rewrite lookup_insert_eq. cbn. destruct (decide (b' = b)) as [->|Hb].
    + rewrite lookup_insert_eq, decide_True by done. done.
    + rewrite lookup_insert_ne, decide_False by congruence. destruct (ue2te_mapping e !! r); [done|apply lookup_empty].
  - rewrite lookup_insert_ne, decide_False by congruence. done.
Qed.

Lemma te_key_inj t u : 0 <= t < 2 ^ 32 -> 0 <= u < 2 ^ 32 -> te_key t = te_key u -> t = u.
Proof. unfold te_key, i32. intros Ht Hu H. Z.div_mod_to_equations. lia. Qed.

Lemma new_teid_range r :
  0 <= fst r <= RAND_MAX -> 0 <= snd r <= RAND_MAX -> 0 < gtpv1uNewTeid r < 2 ^ 32.
Proof.
  unfold gtpv1uNewTeid, RAND_MAX. intros H1 H2.
  pose proof (cmod_bound (snd r) (2 ^ 31 - 1 - 1) ltac:(lia) ltac:(lia)). rewrite u32_small; lia.
Qed.

Definition drawn (rands : list (Z * Z)) : Prop :=
  Forall (fun r => 0 <= fst r <= RAND_MAX /\ 0 <= snd r <= RAND_MAX) rands.

Lemma draw_teid_spec te2ue rands :
  drawn rands -> Exists (fun r => te2ue !! te_key (gtpv1uNewTeid r) = None) rands ->
  exists t rest, draw_teid te2ue rands = Ok (t, rest) /\ 0 < t < 2 ^ 32 /\ te2ue !! te_key t = None.
Proof.
  intros Hd. induction 1 as [r l Hr|r l _ IH]; apply list.Forall_cons in Hd as [[H1 H2] Hd]; cbn.
  - rewrite Hr. eexists _, _. split; [done|]. auto using new_teid_range.
  - destruct (te2ue !! te_key (gtpv1uNewTeid r)) eqn:E; [auto|].
    eexists _, _. split; [done|]. auto using new_teid_range.
Qed.

Lemma fold_erase_lookup l m k :
  fold_left erase_incoming l m !! k =
  if decide (Exists (fun b => te_key (teid_incoming b) = k) l) then None else m !! k.
Proof.
  revert m. induction l as [|b l IH]; intros m; cbn.
  - rewrite decide_False; [done|]. by inversion 1.
  - rewrite IH. destruct (decide (Exists _ l)) as [H|H].
    + rewrite decide_True; [done|]. by right.
    + destruct (decide (te_key (teid_incoming b) = k)) as [<-|Hk].
      * rewrite decide_True by by left. apply lookup_delete_eq.
      * rewrite decide_False; [by apply lookup_delete_ne|]. by inversion 1.
Qed.

(** ** The abstract map of tunnels *)

(** A UE and a bearer have at most one tunnel: its outgoing side and who gets the packets that
    come in on its TEID. *)

Definition unused (A : gmap (Z * Z) (gtpv1u_bearer_t * rntiData_t)) (t : Z) : Prop := forall p x d, A !! p = Some (x, d) -> teid_incoming x <> t.

Record represents (e : gtpEndPoint) (A : gmap (Z * Z) (gtpv1u_bearer_t * rntiData_t)) : Prop := mk_represents {
  rep_bearer : forall r b, find_bearer e r b = fst <$> A !! (r, b);
  rep_ue : forall r m, ue2te_mapping e !! r = Some m -> m <> ∅;
  rep_te : forall k d, te2ue_mapping e !! k = Some d <->
    exists r b x, A !! (r, b) = Some (x, d) /\ te_key (teid_incoming x) = k;
  rep_ok : forall r b x d, A !! (r, b) = Some (x, d) -> 0 < teid_incoming x < 2 ^ 32 /\ te_rnti d = r;
  rep_inj : forall p q x d y d', A !! p = Some (x, d) -> A !! q = Some (y, d') ->
    teid_incoming x = teid_incoming y -> p = q
}.

Section Represents.

Variables (e : gtpEndPoint) (A : gmap (Z * Z) (gtpv1u_bearer_t * rntiData_t)).
Hypothesis Hrep : represents e A.

Lemma rep_key_inj r b x d r' b' x' d' :
  A !! (r, b) = Some (x, d) -> A !! (r', b') = Some (x', d') ->
  te_key (teid_incoming x) = te_key (teid_incoming x') -> (r, b) = (r', b').
Proof.
  intros H H' E. eapply (rep_inj e A Hrep); [done..|].
  apply te_key_inj; [| |done]; [apply (rep_ok e A Hrep) in H|apply (rep_ok e A Hrep) in H']; lia.
Qed.

(** A TEID is free in the map of TEIDs exactly when no tunnel has it. *)
Lemma rep_unused t : 0 <= t < 2 ^ 32 -> te2ue_mapping e !! te_key t = None <-> unused A t.
Proof.
  intros Ht. split.
  - intros H [r b] x d HA E. assert (te2ue_mapping e !! te_key t = Some d); [|congruence].
    apply (rep_te e A Hrep). exists r, b, x. by rewrite E.
  - intros H. destruct (te2ue_mapping e !! te_key t) as [d|] eqn:E; [|done].
    apply (rep_te e A Hrep) in E as (r & b & x & HA & E). exfalso. apply (H _ _ _ HA).
    apply te_key_inj; [|done..]. apply (rep_ok e A Hrep) in HA. lia.
Qed.

Lemma rep_lookup_te t : 0 <= t < 2 ^ 32 ->
  forall d, te2ue_mapping e !! te_key t = Some d <-> exists r b x, A !! (r, b) = Some (x, d) /\ teid_incoming x = t.
Proof.
  intros Ht d. rewrite (rep_te e A Hrep). split; intros (r & b & x & HA & E); exists r, b, x; (split; [done|]).
  - apply te_key_inj; [|done..]. apply (rep_ok e A Hrep) in HA. lia.
  - by rewrite E.
Qed.

Lemma rep_set_ue r b x r' m : ue2te_mapping (set_bearer e r b x) !! r' = Some m -> m <> ∅.
Proof.
  unfold set_bearer. cbn. destruct (decide (r' = r)) as [->|Hr].
  - rewrite lookup_insert_eq. intros [= <-]. apply insert_non_empty.
  - rewrite lookup_insert_ne by done. apply (rep_ue e A Hrep).
Qed.

(** The outgoing side of a tunnel changes. *)
Lemma rep_modify r b x d x' :
  A !! (r, b) = Some (x, d) -> teid_incoming x' = teid_incoming x ->
  represents (set_bearer e r b x') (<[(r, b) := (x', d)]> A).
Proof.
  intros HA Ht. split.
  - intros r' b'. rewrite find_set_bearer. destruct (decide _) as [[= -> ->]|Hne].
    + by rewrite lookup_insert_eq.
    + rewrite lookup_insert_ne by done. apply (rep_bearer e A Hrep).
  - apply rep_set_ue.
  - intros k d'. change (te2ue_mapping (set_bearer e r b x')) with (te2ue_mapping e). rewrite (rep_te e A Hrep). split.
    + intros (r' & b' & y & HA' & E). destruct (decide ((r', b') = (r, b))) as [[= -> ->]|Hne].
      * exists r, b, x'. rewrite lookup_insert_eq, Ht. split; congruence.
      * exists r', b', y. rewrite lookup_insert_ne; done.
    + intros (r' & b' & y & HA' & E). destruct (decide ((r', b') = (r, b))) as [[= -> ->]|Hne].
      * rewrite lookup_insert_eq in HA'. injection HA' as <- <-. exists r, b, x. by rewrite <- Ht.
      * rewrite lookup_insert_ne in HA' by done. eauto.
  - intros r' b' y d' HA'. destruct (decide ((r', b') = (r, b))) as [[= -> ->]|Hne].
    + rewrite lookup_insert_eq in HA'. injection HA' as <- <-. rewrite Ht. by apply (rep_ok e A Hrep) in HA.
    + rewrite lookup_insert_ne in HA' by done. by apply (rep_ok e A Hrep) in HA'.
  - intros p q y dy z dz Hp Hq E.
    assert (Hold : forall p0 y0 d0, <[(r, b) := (x', d)]> A !! p0 = Some (y0, d0) ->
      exists y1, A !! p0 = Some (y1, d0) /\ teid_incoming y1 = teid_incoming y0).
    { intros p0 y0 d0 H0. destruct (decide (p0 = (r, b))) as [->|Hne].
      - rewrite lookup_insert_eq in H0. injection H0 as <- <-. eauto.
      - rewrite lookup_insert_ne in H0 by done. eauto. }
    apply Hold in Hp as (y1 & Hp & E1). apply Hold in Hq as (z1 & Hq & E2).
    eapply (rep_inj e A Hrep); [done..|congruence].
Qed.

(** A new tunnel. *)
Lemma rep_create r b x d :
  A !! (r, b) = None -> unused A (teid_incoming x) -> 0 < teid_incoming x < 2 ^ 32 -> te_rnti d = r ->
  represents (set_bearer (e <| te2ue_mapping := <[te_key (teid_incoming x) := d]> (te2ue_mapping e) |>) r b x)
    (<[(r, b) := (x, d)]> A).
Proof.
  intros HA Hun Ht Hd. split.
  - intros r' b'. rewrite find_set_bearer. destruct (decide _) as [[= -> ->]|Hne].
    + by rewrite lookup_insert_eq.
    + rewrite lookup_insert_ne by done. apply (rep_bearer e A Hrep).
  - apply rep_set_ue.
  - intros k d'. cbn. destruct (decide (k = te_key (teid_incoming x))) as [->|Hk].
    + rewrite lookup_insert_eq. split.
      * intros [= <-]. exists r, b, x. by rewrite lookup_insert_eq.
      * intros (r' & b' & y & HA' & E). destruct (decide ((r', b') = (r, b))) as [[= -> ->]|Hne].
        -- rewrite lookup_insert_eq in HA'. congruence.
        -- rewrite lookup_insert_ne in HA' by done. exfalso. apply (Hun _ _ _ HA').
           apply te_key_inj; [|lia|done]. apply (rep_ok e A Hrep) in HA'. lia.
    + rewrite lookup_insert_ne, (rep_te e A Hrep) by done.
      split; intros (r' & b' & y & HA' & E); exists r', b', y.
      * rewrite lookup_insert_ne by congruence. done.
      * rewrite lookup_insert_ne in HA'; [done|]. intros [= -> ->]. rewrite lookup_insert_eq in HA'. congruence.
  - intros r' b' y d' HA'. destruct (decide ((r', b') = (r, b))) as [[= -> ->]|Hne].
    + rewrite lookup_insert_eq in HA'. by injection HA' as <- <-.
    + rewrite lookup_insert_ne in HA' by done. by apply (rep_ok e A Hrep) in HA'.
  - intros p q y dy z dz Hp Hq E.
    destruct (decide (p = (r, b))) as [->|Hp'], (decide (q = (r, b))) as [->|Hq']; [done| | |];
      rewrite ?lookup_insert_eq, ?lookup_insert_ne in Hp by done;
      rewrite ?lookup_insert_eq, ?lookup_insert_ne in Hq by done.
    + injection Hp as <- <-. by destruct (Hun _ _ _ Hq).
    + injection Hq as <- <-. by destruct (Hun _ _ _ Hp).
    + eapply (rep_inj e A Hrep); done.
Qed.

(** The tunnels of a UE are removed. *)
Definition without_ue (r : Z) (A : gmap (Z * Z) (gtpv1u_bearer_t * rntiData_t))
  : gmap (Z * Z) (gtpv1u_bearer_t * rntiData_t) :=
  filter (fun p => fst (fst p) <> r) A.

Lemma without_ue_lookup r r' b' v : without_ue r A !! (r', b') = Some v <-> A !! (r', b') = Some v /\ r' <> r.
Proof. unfold without_ue. by rewrite map_lookup_filter_Some. Qed.

Lemma erased_keys r m k :
  ue2te_mapping e !! r = Some m ->
  Exists (fun b => te_key (teid_incoming b) = k) (snd <$> map_to_list m) <->
  exists b x d, A !! (r, b) = Some (x, d) /\ te_key (teid_incoming x) = k.
Proof.
  intros Hm. rewrite list.Exists_exists. split.
  - intros (x & Hx & E). apply list_elem_of_fmap in Hx as ([b y] & -> & Hx). apply elem_of_map_to_list in Hx.
    assert (Hf : find_bearer e r b = Some y) by (unfold find_bearer; by rewrite Hm).
    rewrite (rep_bearer e A Hrep) in Hf. destruct (A !! (r, b)) as [[x d]|] eqn:HA; [|done].
    injection Hf as ->. exists b, y, d. done.
  - intros (b & x & d & HA & E). exists x. split; [|done]. apply list_elem_of_fmap. exists (b, x). split; [done|].
    apply elem_of_map_to_list. pose proof (rep_bearer e A Hrep r b) as Hf. unfold find_bearer in Hf.
    rewrite Hm, HA in Hf. done.
Qed.

Lemma rep_delete r m :
  ue2te_mapping e !! r = Some m ->
  represents (e <| te2ue_mapping := fold_left erase_incoming (snd <$> map_to_list m) (te2ue_mapping e) |>
                <| ue2te_mapping := delete r (ue2te_mapping e) |>) (without_ue r A).
Proof.
  intros Hm. split.
  - intros r' b'. unfold find_bearer. cbn. destruct (decide (r' = r)) as [->|Hr].
    + rewrite lookup_delete_eq. destruct (without_ue r A !! (r, b')) eqn:E; [|done].
      apply without_ue_lookup in E as [_ E]. done.
    + rewrite lookup_delete_ne by done. pose proof (rep_bearer e A Hrep r' b') as Hf. unfold find_bearer in Hf.
      rewrite Hf. unfold without_ue. destruct (A !! (r', b')) eqn:E; cbn.
      * by rewrite (map_lookup_filter_Some_2 _ _ _ _ E).
      * by rewrite (map_lookup_filter_None_2 _ _ _ (or_introl E)).
  - intros r' m'. cbn. intros H. apply (rep_ue e A Hrep r'). by apply lookup_delete_Some in H as [_ H].
  - intros k d. cbn. rewrite fold_erase_lookup. destruct (decide _) as [He|He].
    + split; [done|]. intros (r' & b' & x & HA & E). apply without_ue_lookup in HA as [HA Hne].
      apply (erased_keys r m k Hm) in He as (b & y & d' & HA' & E').
      destruct Hne. eapply (rep_key_inj r' b' x d r b y d') in HA; [|done|congruence]. congruence.
    + rewrite (rep_te e A Hrep). split; intros (r' & b' & x & HA & E); exists r', b', x; (split; [|done]).
      * apply without_ue_lookup. split; [done|]. intros ->. apply He. apply (erased_keys r m k Hm). eauto.
      * by apply without_ue_lookup in HA as [HA _].
  - intros r' b' x d HA. apply without_ue_lookup in HA as [HA _]. by apply (rep_ok e A Hrep) in HA.
  - intros [p1 p2] [q1 q2] x d y d' Hp Hq E. apply without_ue_lookup in Hp as [Hp _], Hq as [Hq _].
    by eapply (rep_inj e A Hrep).
Qed.

(** A UE has an entry exactly when it has a tunnel. *)
Lemma rep_has_ue r : (exists m, ue2te_mapping e !! r = Some m) <-> exists b v, A !! (r, b) = Some v.
Proof.
  split.
  - intros [m Hm]. destruct (map_choose m) as (b & x & Hb); [by apply (rep_ue e A Hrep r)|].
    exists b. pose proof (rep_bearer e A Hrep r b) as Hf. unfold find_bearer in Hf. rewrite Hm in Hf. cbn in Hf.
    rewrite Hb in Hf. destruct (A !! (r, b)); [eauto|done].
  - intros (b & v & HA). pose proof (rep_bearer e A Hrep r b) as Hf. unfold find_bearer in Hf. rewrite HA in Hf.
    destruct (ue2te_mapping e !! r); [eauto|done].
Qed.

End Represents.

Lemma represents_empty e : ue2te_mapping e = ∅ -> te2ue_mapping e = ∅ -> represents e ∅.
Proof.
  intros Hu Ht. split; unfold find_bearer; rewrite ?Hu, ?Ht; try by intros; simplify_map_eq.
  intros k d. rewrite lookup_empty. split; [done|]. intros (r & b & x & H & _). by rewrite lookup_empty in H.
Qed.

(** ** Operations of one end point *)

Inductive gtp_op : Type :=
| OpCreate (rnti incoming_bearer_id outgoing_bearer_id outgoing_teid : Z) (remote : transport_layer_addr_t)
    (port : Z) (cb : gtpCallback) (rands : list (Z * Z))
| OpUpdate (rnti bearer_id newOutgoingTeid : Z)
| OpDeleteAll (rnti : Z)
| OpSend (req : tunnel_data_req) (seqNumFlag npduNumFlag : bool)
| OpGpdu (stack : list Z) (teid : Z) (Msg : list Z) (port ip : Z).

Inductive gtp_out : Type :=
| OutTeid (teid : Z)
| OutNone
| OutRet (ret : Z)
| OutEvents (ev : list gtp_event).

Section Operations.

Variable sendto : Z -> Z -> Z -> list Z -> Z.
(** The end point, and what its creator asked to be called with. *)
Variables (i origin : Z).

Definition gtp_step (g : gtpEndPoints) (op : gtp_op) : res (gtpEndPoints * gtp_out) :=
  match op with
  | OpCreate rnti inb outb teid remote port cb rands =>
    let* (g, t, _) := newGtpuCreateTunnel g i rnti inb outb teid remote port cb rands in Ok (g, OutTeid t)
  | OpUpdate rnti b teid => Ok (GtpuUpdateTunnelOutgoingTeid g i rnti b teid, OutNone)
  | OpDeleteAll rnti => let '(g, ret) := newGtpuDeleteAllTunnels g i rnti in Ok (g, OutRet ret)
  | OpSend req s n => let* (g, ev) := gtpv1uSend2 sendto g i req s n in Ok (g, OutEvents ev)
  | OpGpdu stack teid Msg port ip =>
    let dg := gpdu_bytes teid Msg false false 0 0 in
    let* (g, ev) := gtpv1uReceiver sendto g i stack dg (Z.of_nat (length dg)) port ip in Ok (g, OutEvents ev)
  end.

(** The bearer after one more packet with the flags. *)
Definition counted (s n : bool) (x : gtpv1u_bearer_t) : gtpv1u_bearer_t :=
  let x := if s then x <| seqNum := u16 (seqNum x + 1) |> else x in
  if n then x <| npduNum := u8 (npduNum x + 1) |> else x.

(** The specification: what each operation may answer and the tunnels it leaves. *)
Inductive spec_step (A : gmap (Z * Z) (gtpv1u_bearer_t * rntiData_t))
  : gtp_op -> gtp_out -> gmap (Z * Z) (gtpv1u_bearer_t * rntiData_t) -> Prop :=
| spec_create rnti inb outb teid remote port cb rands t x :
    A !! (rnti, outb) = None -> unused A t -> 0 < t < 2 ^ 32 -> set_remote zero_bearer remote = Ok x ->
    spec_step A (OpCreate rnti inb outb teid remote port cb rands) (OutTeid t)
      (<[(rnti, outb) :=
           (mk_bearer t teid (outgoing_ip_addr x) (outgoing_ip6_addr x) (u16 port) 0 0,
            mk_rntiData rnti (u8 inb) cb (u8 outb))]> A)
| spec_update rnti b teid x d :
    A !! (rnti, b) = Some (x, d) ->
    spec_step A (OpUpdate rnti b teid) OutNone (<[(rnti, b) := (x <| teid_outgoing := teid |>, d)]> A)
| spec_update_none rnti b teid :
    A !! (rnti, b) = None -> spec_step A (OpUpdate rnti b teid) OutNone A
| spec_delete rnti b v :
    A !! (rnti, b) = Some v -> spec_step A (OpDeleteAll rnti) (OutRet 0) (without_ue rnti A)
| spec_delete_none rnti :
    (forall b, A !! (rnti, b) = None) -> spec_step A (OpDeleteAll rnti) (OutRet (-1)) A
| spec_send req s n x d Msg :
    A !! (req_rnti req, req_rab_id req) = Some (x, d) -> req_bytes req = Ok Msg ->
    spec_step A (OpSend req s n)
      (OutEvents [SendTo i (outgoing_ip_addr x) (u16 (outgoing_port x))
         (gpdu_bytes (teid_outgoing x) Msg s n (seqNum (counted s n x)) (npduNum (counted s n x)))])
      (<[(req_rnti req, req_rab_id req) := (counted s n x, d)]> A)
| spec_send_none req s n :
    A !! (req_rnti req, req_rab_id req) = None -> spec_step A (OpSend req s n) (OutEvents []) A
| spec_gpdu stack teid Msg port ip r b x d :
    A !! (r, b) = Some (x, d) -> teid_incoming x = teid ->
    spec_step A (OpGpdu stack teid Msg port ip)
      (OutEvents [CallBack (callBack d) origin r (incoming_rb_id d) (Z.of_nat (length Msg)) Msg]) A
| spec_gpdu_none stack teid Msg port ip :
    unused A teid -> spec_step A (OpGpdu stack teid Msg port ip) (OutEvents []) A.

(** What the callers have to respect: a tunnel is created once, to an IPv4 or an IPv6 address,
    and one of the values that [random] gives is a TEID that is not in use. *)
Definition op_ok (A : gmap (Z * Z) (gtpv1u_bearer_t * rntiData_t)) (op : gtp_op) : Prop :=
  match op with
  | OpCreate rnti _ outb _ remote _ _ rands =>
    A !! (rnti, outb) = None /\ tla_length remote / 8 ∈ [4; 16] /\ drawn rands /\
    Exists (fun r => unused A (gtpv1uNewTeid r)) rands
  | OpSend req _ _ => is_ok (req_bytes req) = true
  | OpGpdu _ teid Msg _ _ => 0 <= teid < 2 ^ 32 /\ Z.of_nat (length Msg) <= 65524
  | _ => True
  end.

(** The state of the component and the tunnels of end point [i]. *)
Definition state_of (g : gtpEndPoints) (A : gmap (Z * Z) (gtpv1u_bearer_t * rntiData_t)) : Prop :=
  represents (get_inst g i) A /\ originInstance (addr (get_inst g i)) = origin /\ compatInst g i = i.

Lemma set_remote_ok x remote :
  tla_length remote / 8 ∈ [4; 16] -> exists ip ip6, set_remote x remote = Ok (x <| outgoing_ip_addr := ip |> <| outgoing_ip6_addr := ip6 |>).
Proof.
  unfold set_remote. intros [->|[->|[]%not_elem_of_nil]%elem_of_cons]%elem_of_cons; destruct x as [a b c d e f h].
  - exists (of_le32 (tla_buffer remote)), d. reflexivity.
  - exists c, (take 16 (tla_buffer remote)). reflexivity.
Qed.

Lemma create_step g A rnti inb outb teid remote port cb rands :
  state_of g A -> op_ok A (OpCreate rnti inb outb teid remote port cb rands) ->
  exists g' out A', gtp_step g (OpCreate rnti inb outb teid remote port cb rands) = Ok (g', out) /\
    spec_step A (OpCreate rnti inb outb teid remote port cb rands) out A' /\ state_of g' A'.
Proof.
  intros (Hrep & Ho & Hc) (HA & Hrem & Hd & Hex). cbn [gtp_step]. unfold newGtpuCreateTunnel. rewrite Hc.
  destruct (draw_teid_spec (te2ue_mapping (get_inst g i)) rands Hd) as (t & rest & -> & Ht & Hfree).
  { eapply List.Exists_impl; [|exact Hex]. intros r Hr. apply (rep_unused _ _ Hrep); [|done]. unfold gtpv1uNewTeid. apply u32_bound. }
  apply (rep_unused _ _ Hrep) in Hfree; [|lia]. cbn [rbind].
  change (find_bearer _ rnti outb) with (find_bearer (get_inst g i) rnti outb).
  rewrite (rep_bearer _ _ Hrep), HA. cbn [fmap option_fmap option_map default].
  destruct (set_remote_ok zero_bearer remote Hrem) as (ip & ip6 & Er). rewrite Er. cbn [rbind].
  do 3 eexists. split; [reflexivity|]. split; [by apply (spec_create A) with (2 := Hfree)|].
  unfold state_of. rewrite get_set_inst, compat_set_inst. split; [|done].
  apply rep_create; done.
Qed.

Lemma state_touch g A : state_of g A -> state_of (touch_inst g i) A.
Proof. unfold state_of. by rewrite get_touch_inst. Qed.

Lemma state_modify g A r b x d x' :
  state_of g A -> A !! (r, b) = Some (x, d) -> teid_incoming x' = teid_incoming x ->
  state_of (set_inst g i (set_bearer (get_inst g i) r b x')) (<[(r, b) := (x', d)]> A).
Proof.
  intros (Hrep & Ho & Hc) HA Ht. unfold state_of. rewrite get_set_inst, compat_set_inst.
  split; [|done]. by apply (rep_modify _ _ Hrep) with x.
Qed.

Lemma update_step g A rnti b teid :
  state_of g A -> exists g' out A', gtp_step g (OpUpdate rnti b teid) = Ok (g', out) /\
    spec_step A (OpUpdate rnti b teid) out A' /\ state_of g' A'.
Proof.
  intros H. pose proof H as (Hrep & Ho & Hc). cbn [gtp_step]. unfold GtpuUpdateTunnelOutgoingTeid.
  rewrite Hc, (rep_bearer _ _ Hrep). destruct (A !! (rnti, b)) as [[x d]|] eqn:HA; cbn [fmap option_fmap option_map fst].
  - do 3 eexists. split; [reflexivity|]. split; [by apply spec_update|]. by eapply state_modify.
  - do 3 eexists. split; [reflexivity|]. split; [by apply spec_update_none|]. by apply state_touch.
Qed.

Lemma delete_step g A rnti :
  state_of g A -> exists g' out A', gtp_step g (OpDeleteAll rnti) = Ok (g', out) /\
    spec_step A (OpDeleteAll rnti) out A' /\ state_of g' A'.
Proof.
  intros H. pose proof H as (Hrep & Ho & Hc). cbn [gtp_step]. unfold newGtpuDeleteAllTunnels. rewrite Hc.
  destruct (ue2te_mapping (get_inst g i) !! rnti) as [m|] eqn:Hm.
  - destruct (proj1 (rep_has_ue _ _ Hrep rnti) ltac:(eauto)) as (b & v & HA).
    do 3 eexists. split; [reflexivity|]. split; [by eapply spec_delete|].
    unfold state_of. rewrite get_set_inst, compat_set_inst. split; [|done]. by apply rep_delete.
  - do 3 eexists. split; [reflexivity|]. split; [|by apply state_touch]. apply spec_delete_none. intros b.
    destruct (A !! (rnti, b)) eqn:HA; [|done].
    destruct (proj2 (rep_has_ue _ _ Hrep rnti) ltac:(eauto)) as [m Hm']. congruence.
Qed.

Lemma send_step g A req s n :
  state_of g A -> op_ok A (OpSend req s n) -> exists g' out A', gtp_step g (OpSend req s n) = Ok (g', out) /\
    spec_step A (OpSend req s n) out A' /\ state_of g' A'.
Proof.
  intros H Hok. pose proof H as (Hrep & Ho & Hc). cbn [gtp_step op_ok] in *. unfold gtpv1uSend2, gtpv1u_send_on.
  rewrite Hc, (rep_bearer _ _ Hrep).
  destruct (A !! (req_rnti req, req_rab_id req)) as [[x d]|] eqn:HA; cbn [fmap option_fmap option_map fst].
  - destruct (req_bytes req) as [Msg| |] eqn:Hm; [|done..]. cbn [rbind]. fold (counted s n x).
    rewrite compat_set_inst, Hc.
    destruct (created_msg sendto i (outgoing_ip_addr (counted s n x)) (outgoing_port (counted s n x)) GTP_GPDU
      (teid_outgoing (counted s n x)) Msg s n (seqNum (counted s n x)) (npduNum (counted s n x))) as [ret ->].
    cbn [rbind]. do 3 eexists. split; [reflexivity|]. split; [|eapply state_modify; [done..|by destruct s, n]].
    replace (outgoing_ip_addr (counted s n x)) with (outgoing_ip_addr x) by by destruct s, n.
    replace (outgoing_port (counted s n x)) with (outgoing_port x) by by destruct s, n.
    replace (teid_outgoing (counted s n x)) with (teid_outgoing x) by by destruct s, n.
    by apply spec_send.
  - do 3 eexists. split; [reflexivity|]. split; [by apply spec_send_none|]. by apply state_touch.
Qed.

Lemma gpdu_step g A stack teid Msg port ip :
  state_of g A -> op_ok A (OpGpdu stack teid Msg port ip) ->
  exists g' out A', gtp_step g (OpGpdu stack teid Msg port ip) = Ok (g', out) /\
    spec_step A (OpGpdu stack teid Msg port ip) out A' /\ state_of g' A'.
Proof.
  intros H [Ht Hlen]. pose proof H as (Hrep & Ho & Hc). cbn [gtp_step]. rewrite receive_gpdu by done. cbn [rbind].
  do 3 eexists. split; [reflexivity|]. split; [|by apply state_touch].
  destruct (te2ue_mapping (get_inst g i) !! te_key teid) as [d|] eqn:E.
  - apply (rep_lookup_te _ _ Hrep teid Ht) in E as (r & b & x & HA & E). rewrite Ho.
    rewrite (proj2 (rep_ok _ _ Hrep _ _ _ _ HA)). by apply spec_gpdu with b x.
  - apply spec_gpdu_none. by apply (rep_unused _ _ Hrep).
Qed.

Lemma gtp_step_refines g A op :
  state_of g A -> op_ok A op ->
  exists g' out A', gtp_step g op = Ok (g', out) /\ spec_step A op out A' /\ state_of g' A'.
Proof.
  destruct op; intros H Hok; [by apply create_step|by apply update_step|by apply delete_step|by apply send_step|by apply gpdu_step].
Qed.

(** ** Sequences of operations *)

Fixpoint gtp_run (g : gtpEndPoints) (ops : list gtp_op) : res (gtpEndPoints * list gtp_out) :=
  match ops with
  | [] => Ok (g, [])
  | op :: tl =>
    let* (g, out) := gtp_step g op in
    let* (g, outs) := gtp_run g tl in
    Ok (g, out :: outs)
  end.

Inductive spec_run : gmap (Z * Z) (gtpv1u_bearer_t * rntiData_t) -> list gtp_op -> list gtp_out ->
  gmap (Z * Z) (gtpv1u_bearer_t * rntiData_t) -> Prop :=
| spec_nil A : spec_run A [] [] A
| spec_cons A op out A' ops outs A'' :
    spec_step A op out A' -> spec_run A' ops outs A'' -> spec_run A (op :: ops) (out :: outs) A''.

(** Every operation respects [op_ok], whatever TEIDs the earlier ones have given. *)
Fixpoint ops_ok (A : gmap (Z * Z) (gtpv1u_bearer_t * rntiData_t)) (ops : list gtp_op) : Prop :=
  match ops with
  | [] => True
  | op :: tl => op_ok A op /\ forall out A', spec_step A op out A' -> ops_ok A' tl
  end.

Lemma gtp_run_refines ops : forall g A, state_of g A -> ops_ok A ops ->
  exists g' outs A', gtp_run g ops = Ok (g', outs) /\ spec_run A ops outs A' /\ state_of g' A'.
Proof.
  induction ops as [|op ops IH]; intros g A H Hok.
  - exists g, [], A. split; [done|]. split; [constructor|done].
  - destruct Hok as [Hop Hops]. destruct (gtp_step_refines g A op H Hop) as (g1 & out & A1 & E1 & S1 & H1).
    destruct (IH g1 A1 H1 (Hops _ _ S1)) as (g2 & outs & A2 & E2 & S2 & H2).
    exists g2, (out :: outs), A2. cbn. rewrite E1. cbn. rewrite E2. cbn. split; [done|]. split; [|done].
    by econstructor.
Qed.

End Operations.

(** ** Tunnels that stay *)

(** The operation is not on the tunnel of [r] and [b]: it does not remove it and does not
    change where its packets go. *)
Definition leaves (r b : Z) (op : gtp_op) : Prop :=
  match op with
  | OpUpdate r' b' _ => (r', b') <> (r, b)
  | OpDeleteAll r' => r' <> r
  | _ => True
  end.

(** Two bearers that differ in their counters only. *)
Definition same_route (x y : gtpv1u_bearer_t) : Prop :=
  teid_incoming x = teid_incoming y /\ teid_outgoing x = teid_outgoing y /\
  outgoing_ip_addr x = outgoing_ip_addr y /\ outgoing_port x = outgoing_port y.

#[export] Instance same_route_equiv : Equivalence same_route.
Proof.
  split; unfold same_route; [intros x; done|intros x y; intuition congruence|intros x y z; intuition congruence].
Qed.

Lemma counted_route s n x : same_route x (counted s n x).
Proof. by destruct s, n. Qed.

Lemma spec_step_keeps i origin A op out A' r b x d :
  spec_step i origin A op out A' -> leaves r b op -> A !! (r, b) = Some (x, d) ->
  exists x', A' !! (r, b) = Some (x', d) /\ same_route x x'.
Proof.
  assert (Hkeep : forall p v, p <> (r, b) -> A !! (r, b) = Some (x, d) ->
    exists x', (<[p := v]> A) !! (r, b) = Some (x', d) /\ same_route x x').
  { intros p v Hne HA. exists x. rewrite lookup_insert_ne by done. done. }
  destruct 1 as [r' inb outb t re port cb rs t' y Hnone|r' b' t y d' HA'|r' b' t|r' b' v HA'|r'|req s n y d' M HA'|req s n|
    st t M port ip r' b' y d'|st t M port ip]; intros Hl HA; try (by exists x); cbn in Hl.
  - apply Hkeep; [congruence|done].
  - by apply Hkeep.
  - exists x. rewrite without_ue_lookup. done.
  - destruct (decide ((req_rnti req, req_rab_id req) = (r, b))) as [Heq|Hne]; [|by apply Hkeep].
    rewrite Heq in *. rewrite HA in HA'. injection HA' as <- <-. eexists. rewrite lookup_insert_eq.
    split; [done|]. apply counted_route.
Qed.

Lemma spec_run_keeps i origin A ops outs A' r b x d :
  spec_run i origin A ops outs A' -> Forall (leaves r b) ops -> A !! (r, b) = Some (x, d) ->
  exists x', A' !! (r, b) = Some (x', d) /\ same_route x x'.
Proof.
  intros H. revert x. induction H as [A|A op out A1 ops outs A2 H1 H2 IH]; intros x Hl HA; [by exists x|].
  apply list.Forall_cons in Hl as [Hop Hl]. destruct (spec_step_keeps _ _ _ _ _ _ _ _ _ _ H1 Hop HA) as (y & Hy & Ey).
  destruct (IH y Hl Hy) as (z & Hz & Ez). exists z. split; [done|]. by transitivity y.
Qed.

(** ** A packet from one end point to another *)

(** A packet of the UE and bearer given to end point [i] leaves as one datagram to [ip] and
    [port], and end point [j] that gets it calls [cb] with the packet. *)
Definition conveys (sendto sendto' : Z -> Z -> Z -> list Z -> Z) (g : gtpEndPoints) (i : Z)
  (g' : gtpEndPoints) (j r b ip port : Z) (cb : gtpCallback) (origin r' rb : Z) : Prop :=
  forall Msg, Z.of_nat (length Msg) <= 65524 ->
  exists g1 dg,
    gtpv1uSend2 sendto g i (mk_data_req Msg (Z.of_nat (length Msg)) 0 r b) false false =
      Ok (g1, [SendTo i ip port dg]) /\
    forall stack sin_port s_addr, exists g2,
      gtpv1uReceiver sendto' g' j stack dg (Z.of_nat (length dg)) sin_port s_addr =
        Ok (g2, [CallBack cb origin r' rb (Z.of_nat (length Msg)) Msg]).

Lemma tunnels_convey sendto sendto' i o g A j o' g' A' r b x d r' b' x' d' :
  state_of i o g A -> state_of j o' g' A' -> A !! (r, b) = Some (x, d) -> A' !! (r', b') = Some (x', d') ->
  teid_outgoing x = teid_incoming x' ->
  conveys sendto sendto' g i g' j r b (outgoing_ip_addr x) (u16 (outgoing_port x)) (callBack d') o' r' (incoming_rb_id d').
Proof.
  intros H (Hrep' & Ho' & Hc') HA HA' Et Msg Hlen.
  set (req := mk_data_req Msg (Z.of_nat (length Msg)) 0 r b).
  assert (Hreq : req_bytes req = Ok Msg).
  { unfold req_bytes, req. cbn. rewrite Z.leb_refl, Nat2Z.id, firstn_all. done. }
  pose proof (rep_ok _ _ Hrep' _ _ _ _ HA') as [Ht Hr].
  destruct (send_step sendto i o g A req false false H) as (g1 & out & A1 & E & Hs & _); [cbn; by rewrite Hreq|].
  cbn [gtp_step] in E. bind_ok E. destruct x0 as [g2 ev]. injection E as -> <-.
  inversion Hs as [| | | | |? ? ? y dy M HA2 HM| | |]; subst; [|cbn in *; congruence].
  cbn [req_rnti req_rab_id req] in HA2. rewrite HA in HA2. injection HA2 as <- <-. rewrite Hreq in HM. injection HM as <-.
  eexists g1, _. split; [exact E0|]. intros stack sp sa. eexists. rewrite Et, receive_gpdu by (done || lia).
  rewrite (proj2 (rep_lookup_te _ _ Hrep' (teid_incoming x') ltac:(lia) d')) by eauto. done.
Qed.

(** An IPv4 address of 32 bits. *)
Definition ipv4 (a : transport_layer_addr_t) : Prop := tla_length a / 8 = 4.

Lemma created i o g A r inb b t remote port cb rands :
  state_of i o g A -> op_ok A (OpCreate r inb b t remote port cb rands) -> ipv4 remote ->
  exists g' t' rest x, newGtpuCreateTunnel g i r inb b t remote port cb rands = Ok (g', t', rest) /\
    x = mk_bearer t' t (of_le32 (tla_buffer remote)) (replicate 16 0) (u16 port) 0 0 /\
    state_of i o g' (<[(r, b) := (x, mk_rntiData r (u8 inb) cb (u8 b))]> A).
Proof.
  intros H Hok Hip. destruct (create_step (fun _ _ _ _ => 0) i o g A r inb b t remote port cb rands H Hok) as (g' & out & A' & E & Hs & H').
  cbn [gtp_step] in E. bind_ok E. destruct x as [[g1 t1] rest]. injection E as -> <-.
  inversion Hs as [? ? ? ? ? ? ? ? ? x Hn Hu Ht Hr| | | | | | | |]. subst.
  unfold set_remote in Hr. rewrite Hip in Hr. injection Hr as <-. eexists _, _, _, _. split; [exact E0|].
  split; [done|]. exact H'.
Qed.

(** A bearer keeps its routes during operations that leave it. *)
Lemma run_keeps sendto i o g A ops r b x d :
  state_of i o g A -> ops_ok i o A ops -> Forall (leaves r b) ops -> A !! (r, b) = Some (x, d) ->
  exists g' outs A' x', gtp_run sendto i g ops = Ok (g', outs) /\ state_of i o g' A' /\
    A' !! (r, b) = Some (x', d) /\ same_route x x'.
Proof.
  intros H Hok Hl HA. destruct (gtp_run_refines sendto i o ops g A H Hok) as (g' & outs & A' & E & Hs & H').
  destruct (spec_run_keeps _ _ _ _ _ _ _ _ _ _ Hs Hl HA) as (x' & Hx' & Ex). eauto 8.
Qed.

(** ** Theorems *)

(** C23. An end point of GTP-U, from its socket on, implements a map from UEs and bearers to
    tunnels for every sequence of tunnels created, redirected to another TEID and removed with
    their UE, packets sent and G-PDUs received, in which a tunnel is created only for a UE and
    bearer that have none, to an IPv4 or IPv6 address, the random source gives a TEID that is not
    in use, the buffer of a packet to send is valid and a received G-PDU has at most 65524 bytes
    of data: the end point never faults, every TEID it gives is not 0 and not in use, a G-PDU is
    handed to the UE and bearer whose tunnel has its TEID and dropped when there is none, a packet
    leaves on the tunnel of its UE and bearer, and removing a UE removes its tunnels and no other.
    Creating a tunnel again for the same bearer is excluded because the TEID of the first stays
    behind ([recreated_tunnel_leaks]), and the removal of single sessions with
    [newGtpuDeleteTunnels] is not among the operations because it leaves the bearers of the
    session in place ([released_session_sends], [released_session_takes_other]). *)
Theorem gtp_tunnels_refine (sendto : Z -> Z -> Z -> list Z -> Z) (g g0 : gtpEndPoints) (a : openAddr_t)
  (servinfo : option (list addrinfo)) (i : Z) (ops : list gtp_op) :
  gtpv1Init g a servinfo = Ok (g0, i) -> 0 < i -> i <> INSTANCE_DEFAULT -> instances g !! i = None ->
  ops_ok i (originInstance a) ∅ ops ->
  exists g' outs A', gtp_run sendto i g0 ops = Ok (g', outs) /\
    spec_run i (originInstance a) ∅ ops outs A' /\ represents (get_inst g' i) A'.
Proof.
  intros Hinit Hi Hd Hnew Hok.
  assert (H0 : state_of i (originInstance a) g0 ∅).
  { unfold gtpv1Init, udpServerSocket in Hinit. destruct (servinfo ≫= bind_first) as [p|]; [|injection Hinit; lia].
    assert (Hg : get_inst g (socket_result p) = zero_endpoint \/ socket_result p <> i).
    { destruct (decide (socket_result p = i)) as [->|]; [left|by right]. unfold get_inst. by rewrite Hnew. }
    destruct (family p); [| |done]; injection Hinit as <- <-; destruct Hg as [Hg|[]]; [|done| |done];
      unfold state_of; rewrite get_set_inst, compat_set_inst, Hg;
      (split; [by apply represents_empty|]; split; [done|]);
      unfold compatInst; replace (socket_result p =? 0) with false by (symmetry; apply Z.eqb_neq; lia);
      by replace (socket_result p =? INSTANCE_DEFAULT) with false by (symmetry; apply Z.eqb_neq; done). }
  destruct (gtp_run_refines sendto i (originInstance a) ops g0 ∅ H0 Hok) as (g' & outs & A' & E & Hs & H' & _).
  by exists g', outs, A'.
Qed.

(** The set-up of a tunnel of the F1-U interface: the CU creates its side with a dummy
    TEID, the DU creates its side with the TEID of the CU, and the CU replaces the dummy by the
    TEID of the DU.  After any further operations on other tunnels at both sides, every packet
    that the CU sends on the bearer is handed to RLC at the DU, and every packet that the DU
    sends is handed to PDCP at the CU, unchanged and for the same UE and bearer. *)
Theorem f1u_tunnel (sendto sendto' : Z -> Z -> Z -> list Z -> Z) (i o j o' : Z) (gc gd : gtpEndPoints)
  (Ac Ad : gmap (Z * Z) (gtpv1u_bearer_t * rntiData_t)) (r b : Z) (du_addr cu_addr : transport_layer_addr_t)
  (du_port cu_port : Z) (rc rd : list (Z * Z)) :
  state_of i o gc Ac -> state_of j o' gd Ad -> ipv4 du_addr -> ipv4 cu_addr ->
  op_ok Ac (OpCreate r b b 0xFFFF du_addr du_port Cb_cu_f1u_data_req rc) ->
  op_ok Ad (OpCreate r b b 0 cu_addr cu_port Cb_DURecvCb rd) ->
  exists gc1 tc rc' gd1 td rd' Ac1 Ad1,
    newGtpuCreateTunnel gc i r b b 0xFFFF du_addr du_port Cb_cu_f1u_data_req rc = Ok (gc1, tc, rc') /\
    newGtpuCreateTunnel gd j r b b tc cu_addr cu_port Cb_DURecvCb rd = Ok (gd1, td, rd') /\
    state_of i o (GtpuUpdateTunnelOutgoingTeid gc1 i r b td) Ac1 /\ state_of j o' gd1 Ad1 /\
    forall opsc opsd, ops_ok i o Ac1 opsc -> ops_ok j o' Ad1 opsd ->
      Forall (leaves r b) opsc -> Forall (leaves r b) opsd ->
      exists gc2 outc gd2 outd,
        gtp_run sendto i (GtpuUpdateTunnelOutgoingTeid gc1 i r b td) opsc = Ok (gc2, outc) /\
        gtp_run sendto' j gd1 opsd = Ok (gd2, outd) /\
        conveys sendto sendto' gc2 i gd2 j r b (of_le32 (tla_buffer du_addr)) (u16 (u16 du_port))
          Cb_DURecvCb o' r (u8 b) /\
        conveys sendto' sendto gd2 j gc2 i r b (of_le32 (tla_buffer cu_addr)) (u16 (u16 cu_port))
          Cb_cu_f1u_data_req o r (u8 b).
Proof.
  intros Hc Hd Hdu Hcu Hokc Hokd.
  destruct (created i o gc Ac r b b 0xFFFF du_addr du_port Cb_cu_f1u_data_req rc Hc Hokc Hdu) as (gc1 & tc & rc' & xc & Ec & Hxc & Hc1).
  destruct (created j o' gd Ad r b b tc cu_addr cu_port Cb_DURecvCb rd Hd Hokd Hcu) as (gd1 & td & rd' & xd & Ed & Hxd & Hd1).
  destruct (update_step sendto i o gc1 _ r b td Hc1) as (gc2 & out & Ac2 & E & Hs & Hc2).
  cbn [gtp_step] in E. injection E as Egc <-.
  inversion Hs as [|? ? ? x d HA| ? ? ? HA | | | | | |]; subst; rewrite lookup_insert_eq in HA; [|done].
  injection HA as <- <-.
  eexists gc1, tc, rc', gd1, td, rd', _, _. split; [done|]. split; [done|]. split; [exact Hc2|]. split; [exact Hd1|].
  intros opsc opsd Hopc Hopd Hlc Hld.
  destruct (run_keeps sendto i o _ _ opsc r b _ _ Hc2 Hopc Hlc (lookup_insert_eq _ _ _)) as (gc3 & outc & Ac3 & x & Erc & Hsc & HAc & Rc).
  destruct (run_keeps sendto' j o' _ _ opsd r b _ _ Hd1 Hopd Hld (lookup_insert_eq _ _ _)) as (gd3 & outd & Ad3 & y & Erd & Hsd & HAd & Rd).
  exists gc3, outc, gd3, outd. split; [done|]. split; [done|].
  destruct Rc as (R1 & R2 & R3 & R4), Rd as (Q1 & Q2 & Q3 & Q4). cbn in R1, R2, R3, R4, Q1, Q2, Q3, Q4. split.
  - rewrite R3, R4. eapply (tunnels_convey _ _ _ _ _ _ _ _ _ _ _ _ _ _ _ _ _ _ Hsc Hsd HAc HAd). congruence.
  - rewrite Q3, Q4. eapply (tunnels_convey _ _ _ _ _ _ _ _ _ _ _ _ _ _ _ _ _ _ Hsd Hsc HAd HAc). congruence.
Qed.

(** ** Datagrams that end too early *)

(** All the bytes that the handlers read before the payload are in the datagram. *)
Definition complete (dg : list Z) : bool :=
  let n := Z.of_nat (length dg) in
  let hd := header_of dg in
  let flags := negb ((E_ hd =? 0) && (S_ hd =? 0) && (PN hd =? 0)) in
  let container := flags && (E_ hd =? 1) && (buf_get dg 11 =? PDU_SESSION_CONTAINER) in
  let '(offset, _, _) := gpdu_offset dg in
  (8 <=? n) && (negb flags || (12 <=? n)) && (negb container || (15 <=? n)) && (offset <=? n).

Lemma complete_spec dg :
  complete dg = true ->
  let flags := negb ((E_ (header_of dg) =? 0) && (S_ (header_of dg) =? 0) && (PN (header_of dg) =? 0)) in
  8 <= Z.of_nat (length dg) /\ (flags = true -> 12 <= Z.of_nat (length dg)) /\
  (flags && (E_ (header_of dg) =? 1) && (buf_get dg 11 =? PDU_SESSION_CONTAINER) = true -> 15 <= Z.of_nat (length dg)) /\
  fst (fst (gpdu_offset dg)) <= Z.of_nat (length dg).
Proof.
  unfold complete. cbv zeta. destruct (gpdu_offset dg) as [[off q] r]. cbn [fst].
  set (none := (_ =? 0) && (_ =? 0) && (_ =? 0)). set (cont := negb none && (_ =? 1) && _).
  rewrite !andb_true_iff, !orb_true_iff, !Z.leb_le. intros (((H1 & H2) & H3) & H4).
  destruct none, cont; cbn in *; intuition congruence.
Qed.

Lemma buf_get_app dg tail k : 0 <= k < Z.of_nat (length dg) -> buf_get (dg ++ tail) k = buf_get dg k.
Proof. intros H. unfold buf_get. rewrite lookup_app_l by lia. done. Qed.

Lemma buf_get_drop n l k : 0 <= k -> buf_get (drop n l) k = buf_get l (Z.of_nat n + k).
Proof. intros H. unfold buf_get. rewrite lookup_drop. do 2 f_equal. lia. Qed.

Lemma of_le16_app n dg tail :
  Z.of_nat n + 2 <= Z.of_nat (length dg) -> of_le16 (drop n (dg ++ tail)) = of_le16 (drop n dg).
Proof. intros H. unfold of_le16. rewrite !buf_get_drop, !buf_get_app by lia. done. Qed.

Lemma of_le32_app n dg tail :
  Z.of_nat n + 4 <= Z.of_nat (length dg) -> of_le32 (drop n (dg ++ tail)) = of_le32 (drop n dg).
Proof. intros H. unfold of_le32. rewrite !buf_get_drop, !buf_get_app by lia. done. Qed.

Lemma header_of_app dg tail : 8 <= Z.of_nat (length dg) -> header_of (dg ++ tail) = header_of dg.
Proof. intros H. unfold header_of. rewrite !buf_get_app, of_le16_app, of_le32_app by lia. done. Qed.

Lemma gpdu_offset_app dg tail :
  complete dg = true -> gpdu_offset (dg ++ tail) = gpdu_offset dg /\ fst (fst (gpdu_offset dg)) <= Z.of_nat (length dg).
Proof.
  intros (H8 & H12 & H15 & Hoff)%complete_spec. split; [|done]. unfold gpdu_offset. rewrite header_of_app by done.
  destruct ((E_ (header_of dg) =? 0) && (S_ (header_of dg) =? 0) && (PN (header_of dg) =? 0)); [done|].
  specialize (H12 eq_refl). unfold GTPV1U_HEADER_SIZE. change (8 + 3) with 11. change (8 + 4) with 12. change (12 + 2) with 14.
  cbn [negb andb] in H15. rewrite (buf_get_app dg tail 11) by lia.
  destruct ((E_ (header_of dg) =? 1) && (buf_get dg 11 =? PDU_SESSION_CONTAINER)); [|done].
  specialize (H15 eq_refl). rewrite !buf_get_app by lia. done.
Qed.

(** The size and the bytes handed to a callback. *)
Definition handed_over (ev : gtp_event) : option (Z * list Z) :=
  match ev with
  | SendTo _ _ _ _ => None
  | CallBack _ _ _ _ size sdu => Some (size, sdu)
  | CallBackSDAP _ _ _ size sdu _ _ _ => Some (size, sdu)
  end.

Lemma gpdu_offset_nonneg l : Forall is_byte l -> 0 <= fst (fst (gpdu_offset l)).
Proof.
  intros Hl. unfold gpdu_offset.
  assert (0 <= buf_get l (GTPV1U_HEADER_SIZE + 4)).
  { unfold buf_get. destruct (l !! _) as [z|] eqn:E; cbn; [|lia]. apply (Forall_lookup_1 _ _ _ _ Hl) in E. apply E. }
  destruct (_ && _ && _); [done|]. destruct (_ && _); cbn [fst]; unfold GTPV1U_HEADER_SIZE, EXT_HDR_LNTH_OCTET_UNITS in *; lia.
Qed.

Lemma gpdu_handed_over g h dg tail :
  complete dg = true -> Forall is_byte dg -> Z.of_nat (length dg) <= 65536 ->
  Gtpv1uHandleGpdu g h (dg ++ tail) (Z.of_nat (length dg)) = Gtpv1uHandleGpdu g h dg (Z.of_nat (length dg)) /\
  Forall (fun ev => exists k, handed_over ev = Some (Z.of_nat (length (drop k dg)), drop k dg))
    (snd (Gtpv1uHandleGpdu g h dg (Z.of_nat (length dg)))).
Proof.
  intros Hc Hb Hlen. destruct (gpdu_offset_app dg tail Hc) as [Eo Hoff]. pose proof (gpdu_offset_nonneg dg Hb) as H0.
  pose proof (proj1 (complete_spec dg Hc)) as H8.
  unfold Gtpv1uHandleGpdu. rewrite header_of_app, Eo by done. destruct (is_gtp (header_of dg)); [|split; [done|constructor]].
  cbn [negb]. destruct (te2ue_mapping _ !! _) as [d|]; [|split; [done|constructor]].
  destruct (gpdu_offset dg) as [[off q] rq]. cbn [fst] in *.
  rewrite u32_small, i32_small by lia.
  assert (Es : take (Z.to_nat (Z.of_nat (length dg) - off)) (drop (Z.to_nat off) (dg ++ tail)) = drop (Z.to_nat off) dg).
  { rewrite drop_app_le, take_app_le, take_ge by (rewrite ?length_drop; lia). done. }
  assert (Es' : take (Z.to_nat (Z.of_nat (length dg) - off)) (drop (Z.to_nat off) dg) = drop (Z.to_nat off) dg)
    by (rewrite take_ge by (rewrite length_drop; lia); done).
  rewrite Es, Es'. split; [done|].
  assert (Hsz : Z.of_nat (length dg) - off = Z.of_nat (length (drop (Z.to_nat off) dg))) by (rewrite length_drop; lia).
  destruct (_ && _); cbn [snd]; (constructor; [|constructor]); exists (Z.to_nat off); cbn; by rewrite <- Hsz.
Qed.

(** A datagram that contains the bytes its header announces before the payload is handled
    from its own bytes alone, whatever the receive buffer of the thread held before, and what
    is handed to the layers above is a suffix of the datagram with its length. *)
Theorem receiver_reads_datagram (sendto : Z -> Z -> Z -> list Z -> Z) (g : gtpEndPoints) (h : Z)
  (stack dg : list Z) (port ip : Z) :
  complete dg = true -> Forall is_byte dg -> Z.of_nat (length dg) <= 65536 ->
  exists g' ev,
    gtpv1uReceiver sendto g h stack dg (Z.of_nat (length dg)) port ip = Ok (g', ev) /\
    gtpv1uReceiver sendto g h [] dg (Z.of_nat (length dg)) port ip = Ok (g', ev) /\
    Forall (fun e => forall size sdu, handed_over e = Some (size, sdu) ->
      size = Z.of_nat (length sdu) /\ sdu `suffix_of` dg) ev.
Proof.
  intros Hc Hb Hlen. destruct (gpdu_handed_over g h dg (drop (length dg) stack) Hc Hb Hlen) as [Eg Hg].
  destruct (complete_spec dg Hc) as (H8 & H12 & _ & _).
  unfold gtpv1uReceiver. rewrite !buf_write_0, drop_nil, app_nil_r. replace (_ <=? 0) with false by (symmetry; apply Z.leb_gt; lia).
  rewrite (buf_get_app _ _ 1) by lia.
  destruct (buf_get dg 1 =? GTP_ECHO_RSP); [by do 2 eexists|].
  destruct (buf_get dg 1 =? GTP_ECHO_REQ).
  { unfold Gtpv1uHandleEchoReq. rewrite header_of_app by done.
    destruct (negb (is_gtp _)); [by do 2 eexists|].
    destruct (Z.eqb_spec (S_ (header_of dg)) 1) as [Hs|]; cbn [negb]; [|by do 2 eexists].
    rewrite of_le16_app.
    2: { rewrite Hs, andb_false_r in H12. specialize (H12 eq_refl). change (Z.of_nat (Z.to_nat GTPV1U_HEADER_SIZE)) with 8. lia. }
    destruct (created_msg sendto h ip port GTP_ECHO_RSP (htonl (hdr_teid (header_of dg))) [14; 0] true false
      (htons (of_le16 (drop (Z.to_nat GTPV1U_HEADER_SIZE) dg))) 0) as [ret ->].
    cbn [rbind]. do 2 eexists. split; [done|]. split; [done|]. by repeat constructor. }
  destruct (buf_get dg 1 =? GTP_ERROR_INDICATION); [by do 2 eexists|].
  destruct (buf_get dg 1 =? GTP_SUPPORTED_EXTENSION_HEADER_INDICATION); [by do 2 eexists|].
  destruct (buf_get dg 1 =? GTP_END_MARKER).
  { unfold Gtpv1uHandleEndMarker. rewrite header_of_app by done. destruct (negb (is_gtp _)); [by do 2 eexists|].
    destruct (te2ue_mapping _ !! _); [|by do 2 eexists]. do 2 eexists. split; [done|]. split; [done|].
    constructor; [|done]. intros size sdu [= <- <-]. split; [done|]. apply suffix_nil. }
  destruct (buf_get dg 1 =? GTP_GPDU); [|by do 2 eexists].
  rewrite Eg. destruct (Gtpv1uHandleGpdu g h dg _) as [[g' ret] ev]. do 2 eexists. split; [done|]. split; [done|].
  eapply List.Forall_impl; [|exact Hg]. intros e [k Hk] size sdu E. rewrite Hk in E. injection E as <- <-.
  split; [done|]. exists (take k dg). by rewrite take_drop.
Qed.

(** ** Witnesses *)

Definition no_sendto (h ip port : Z) (dg : list Z) : Z := Z.of_nat (length dg).

Definition a_local : openAddr_t := mk_openAddr [49; 50; 55] [50; 49; 53; 50] [] [50; 49; 53; 50] 3.
Definition an_info : option (list addrinfo) :=
  Some [mk_addrinfo AF_INET6 (replicate 16 0) (-1) 0; mk_addrinfo AF_INET [127; 0; 0; 1] 7 0].
Definition gtp_start : gtpEndPoints := mk_gtp ∅ 0 false.
Definition gtp_up : gtpEndPoints :=
  set_inst gtp_start 7 (mk_endpoint a_local ([127; 0; 0; 1] ++ replicate 16 0) 4 4 ∅ ∅).
Definition a_remote : transport_layer_addr_t := mk_tla 32 ([10; 0; 0; 2] ++ replicate 16 0).

Lemma gtp_tunnels_refine_witness :
  exists g' outs A',
    gtp_run no_sendto 7 gtp_up
      [OpCreate 0x1234 1 5 99 a_remote 2152 Cb_pdcp_data_req [(41, 7)];
       OpSend (mk_data_req [1; 2; 3] 3 0 0x1234 5) true false; OpDeleteAll 0x1234] = Ok (g', outs) /\
    spec_run 7 3 ∅
      [OpCreate 0x1234 1 5 99 a_remote 2152 Cb_pdcp_data_req [(41, 7)];
       OpSend (mk_data_req [1; 2; 3] 3 0 0x1234 5) true false; OpDeleteAll 0x1234] outs A' /\
    represents (get_inst g' 7) A'.
Proof.
  apply (gtp_tunnels_refine no_sendto gtp_start gtp_up a_local an_info 7); try (reflexivity || lia || discriminate).
  repeat split; try done.
  - apply elem_of_cons. by left.
  - repeat constructor; cbn; unfold RAND_MAX; lia.
  - apply Exists_cons_hd. intros p x d H. by rewrite lookup_empty in H.
Defined.

Lemma gtp_up_state : state_of 7 3 gtp_up ∅.
Proof. split; [|done]. unfold gtp_up. rewrite get_set_inst. by apply represents_empty. Qed.

Lemma a_create_ok rnti b t cb r : drawn [r] -> op_ok ∅ (OpCreate rnti b b t a_remote 2152 cb [r]).
Proof.
  intros Hd. repeat split; [apply elem_of_cons; by left|done|]. apply Exists_cons_hd. intros p x d H.
  by rewrite lookup_empty in H.
Qed.

Lemma f1u_tunnel_witness :
  exists gc1 tc rc' gd1 td rd' Ac1 Ad1,
    newGtpuCreateTunnel gtp_up 7 0x1234 2 2 0xFFFF a_remote 2152 Cb_cu_f1u_data_req [(41, 7)] = Ok (gc1, tc, rc') /\
    newGtpuCreateTunnel gtp_up 7 0x1234 2 2 tc a_remote 2152 Cb_DURecvCb [(5, 6)] = Ok (gd1, td, rd') /\
    state_of 7 3 (GtpuUpdateTunnelOutgoingTeid gc1 7 0x1234 2 td) Ac1 /\ state_of 7 3 gd1 Ad1 /\
    forall opsc opsd, ops_ok 7 3 Ac1 opsc -> ops_ok 7 3 Ad1 opsd ->
      Forall (leaves 0x1234 2) opsc -> Forall (leaves 0x1234 2) opsd ->
      exists gc2 outc gd2 outd,
        gtp_run no_sendto 7 (GtpuUpdateTunnelOutgoingTeid gc1 7 0x1234 2 td) opsc = Ok (gc2, outc) /\
        gtp_run no_sendto 7 gd1 opsd = Ok (gd2, outd) /\
        conveys no_sendto no_sendto gc2 7 gd2 7 0x1234 2 (of_le32 (tla_buffer a_remote)) (u16 (u16 2152))
          Cb_DURecvCb 3 0x1234 (u8 2) /\
        conveys no_sendto no_sendto gd2 7 gc2 7 0x1234 2 (of_le32 (tla_buffer a_remote)) (u16 (u16 2152))
          Cb_cu_f1u_data_req 3 0x1234 (u8 2).
Proof.
  apply (f1u_tunnel no_sendto no_sendto 7 3 7 3 gtp_up gtp_up ∅ ∅ 0x1234 2 a_remote a_remote 2152 2152 [(41, 7)] [(5, 6)]);
    [apply gtp_up_state|apply gtp_up_state|reflexivity|reflexivity| |];
    apply a_create_ok; repeat constructor; cbn; unfold RAND_MAX; lia.
Defined.

(** A G-PDU with a PDU session container of QFI 9. *)
Definition a_gpdu : list Z := [0x34; 255; 0; 12; 0; 0; 0; 49; 0; 0; 0; 0x85; 1; 0; 9; 0; 1; 2; 3; 4].

Lemma receiver_reads_datagram_witness :
  exists g' ev,
    gtpv1uReceiver no_sendto gtp_up 7 (replicate 100 170) a_gpdu (Z.of_nat (length a_gpdu)) 2152 1 = Ok (g', ev) /\
    gtpv1uReceiver no_sendto gtp_up 7 [] a_gpdu (Z.of_nat (length a_gpdu)) 2152 1 = Ok (g', ev) /\
    Forall (fun e => forall size sdu, handed_over e = Some (size, sdu) ->
      size = Z.of_nat (length sdu) /\ sdu `suffix_of` a_gpdu) ev.
Proof.
  apply (receiver_reads_datagram no_sendto gtp_up 7 (replicate 100 170) a_gpdu 2152 1);
    [reflexivity| |cbn; lia]. repeat constructor; lia.
Defined.
