(* ===== verification/N3.v ===== *)
(** The user plane of the CU between the core network and PDCP: a G-PDU of the UPF with a PDU
    session container is read by GTP-U and handed to SDAP, which maps its QoS flow to a DRB;
    a packet that SDAP takes from PDCP is sent to the UPF on the tunnel of its PDU session. *)

From S2P Require Import Prelude.
From S2P Require Import Sdap.
From S2P Require Import GtpU.
From S2P Require Import GtpTunnels.

(** [callBackSDAP], and the direct call of [pdcp_data_req] for a packet without QFI. *)
Definition handle_event (pdcp_takes : Z -> list Z -> bool) (l : sdap_info) (ev : gtp_event)
  : res (bool * list sdap_event) :=
  match ev with
  | CallBackSDAP _ rnti rb_id _ sdu qfi rqi pdusession_id =>
    sdap_data_req pdcp_takes l rnti true rb_id sdu qfi rqi pdusession_id
  | CallBack Cb_pdcp_data_req _ _ rb_id _ sdu => Ok (pdcp_takes rb_id sdu, [PdcpDataReq rb_id sdu])
  | _ => Ok (true, [])
  end.

(** The message that [nr_sdap_rx_entity] fills: the packet follows GTPU_HEADER_OVERHEAD_MAX free
    bytes. *)
Definition GTPU_HEADER_OVERHEAD_MAX : Z := 64.
Definition to_gtpu (room : list Z) (ev : sdap_event) : option tunnel_data_req :=
  match ev with
  | GtpuDataReq rnti pdusession_id buf =>
    Some (mk_data_req (take (Z.to_nat GTPU_HEADER_OVERHEAD_MAX) room ++ buf) (Z.of_nat (length buf))
            GTPU_HEADER_OVERHEAD_MAX rnti pdusession_id)
  | _ => None
  end.

(** A G-PDU of the UPF: optional fields, and a PDU session container of one unit with QFI and RQI. *)
Definition upf_header (teid : Z) (Msg : list Z) : Gtpv1uMsgHeader :=
  mk_hdr 0 0 1 0 1 1 GTP_GPDU (htons (Z.of_nat (length Msg) + 8)) (htonl teid).
Definition upf_gpdu (teid qfi rqi : Z) (Msg : list Z) : list Z :=
  header_bytes (upf_header teid Msg) ++ [0; 0; 0; PDU_SESSION_CONTAINER; 1; 0; qfi + 64 * rqi; 0] ++ Msg.

Lemma upf_header_ok teid Msg : 0 <= teid < 2 ^ 32 -> header_ok (upf_header teid Msg).
Proof.
  intros H. unfold header_ok, upf_header, is_byte, GTP_GPDU. cbn [PN S_ E_ spare PT version msgType msgLength hdr_teid].
  pose proof (htons_bound (Z.of_nat (length Msg) + 8)). pose proof (proj2 (htonl_involutive teid H)). lia.
Qed.

Lemma upf_offset teid q rq Msg tail :
  0 <= teid < 2 ^ 32 -> 0 <= q < 64 -> 0 <= rq < 2 ->
  gpdu_offset (upf_gpdu teid q rq Msg ++ tail) = (16, q, rq).
Proof.
  intros Ht Hq Hr. unfold gpdu_offset, upf_gpdu. rewrite <- !app_assoc, header_roundtrip by by apply upf_header_ok.
  cbn [upf_header E_ S_ PN Z.eqb andb Pos.eqb].
  change (buf_get _ (GTPV1U_HEADER_SIZE + 3)) with PDU_SESSION_CONTAINER.
  change (buf_get _ (GTPV1U_HEADER_SIZE + 4)) with 1.
  change (buf_get _ (GTPV1U_HEADER_SIZE + 4 + 2)) with (q + 64 * rq).
  rewrite Z.eqb_refl. cbn [andb].
  replace ((q + 64 * rq) mod 64) with q by (Z.div_mod_to_equations; lia).
  replace ((q + 64 * rq) / 64 mod 2) with rq by (Z.div_mod_to_equations; lia). done.
Qed.

Lemma upf_received sendto g h stack teid q rq Msg port ip d :
  0 <= teid < 2 ^ 32 -> 0 < q < 64 -> 0 <= rq < 2 -> Z.of_nat (length Msg) <= 65520 -> is_gnb g = true ->
  te2ue_mapping (get_inst g h) !! te_key teid = Some d ->
  gtpv1uReceiver sendto g h stack (upf_gpdu teid q rq Msg) (Z.of_nat (length (upf_gpdu teid q rq Msg))) port ip =
  Ok (touch_inst g h,
      [CallBackSDAP (originInstance (addr (get_inst g h))) (te_rnti d) (incoming_rb_id d) (Z.of_nat (length Msg)) Msg
         q rq (te_pdusession_id d)]).
Proof.
  intros Ht Hq Hr Hlen Hg Hd.
  pose proof (upf_header_ok teid Msg Ht) as Hh.
  assert (El : Z.of_nat (length (upf_gpdu teid q rq Msg)) = 16 + Z.of_nat (length Msg)).
  { unfold upf_gpdu. rewrite !length_app, length_header. cbn [length]. lia. }
  rewrite receive_dispatch; [|lia|unfold upf_gpdu; by rewrite <- !app_assoc, msg_type_byte].
  rewrite El, buf_write_0. set (tail := drop _ stack).
  unfold Gtpv1uHandleGpdu. rewrite upf_offset by lia.
  replace (header_of (upf_gpdu teid q rq Msg ++ tail)) with (upf_header teid Msg).
  2: { unfold upf_gpdu. by rewrite <- app_assoc, header_roundtrip. }
  cbn [is_gtp upf_header version PT hdr_teid Z.eqb Pos.eqb andb negb]. rewrite (proj1 (htonl_involutive teid Ht)), Hd.
  change (is_gnb (touch_inst g h)) with (is_gnb g). rewrite Hg.
  replace (q =? 0) with false by (symmetry; apply Z.eqb_neq; lia). cbn [negb andb].
  replace (16 + Z.of_nat (length Msg) - 16) with (Z.of_nat (length Msg)) by lia.
  rewrite u32_small, i32_small, Nat2Z.id by lia. do 4 f_equal. change (Z.to_nat 16) with 16%nat.
  unfold upf_gpdu. rewrite <- !app_assoc. change (drop 16 _) with (Msg ++ tail). by rewrite take_app_length.
Qed.

Lemma mapped_tx pdcp_takes e rb Msg q rq tq :
  table_get e q = Ok tq -> drb_id tq <> 0 -> 0 <= q < 64 -> 0 <= rq < 2 -> (1 <= length Msg)%nat ->
  Z.of_nat (length Msg) <= 8999 ->
  let pdu := if hasSdap tq then dl_byte (mk_dl_hdr q rq 0) :: Msg else Msg in
  nr_sdap_tx_entity pdcp_takes e true rb Msg q rq = Ok (pdcp_takes (drb_id tq) pdu, [PdcpDataReq (drb_id tq) pdu]).
Proof.
  intros Ht Hd Hq Hr Hn Hlen. unfold nr_sdap_tx_entity, nr_sdap_qfi2drb_map. rewrite Ht. cbn [rbind].
  replace (drb_id tq =? 0) with false by (symmetry; by apply Z.eqb_neq). cbn [negb rbind].
  replace (drb_id tq =? 0) with false by (symmetry; by apply Z.eqb_neq). cbn [negb rbind].
  destruct (hasSdap tq); cbn [negb]; [|done].
  replace (Z.of_nat (length Msg) =? 0) with false by (symmetry; apply Z.eqb_neq; lia).
  replace (Z.of_nat (length Msg) >? 8999) with false by (symmetry; rewrite Z.gtb_ltb; apply Z.ltb_ge; lia).
  cbn [orb]. by rewrite (Z.mod_small q), (Z.mod_small rq) by lia.
Qed.


(** A UE with PDU session 5 whose QoS flow 9 is mapped to DRB 2 with SDAP header. *)
Definition n3_start : gtpEndPoints := gtp_up <| is_gnb := true |> <| legacyInstanceMapping := 7 |>.
Definition n3_up : gtpEndPoints :=
  match newGtpuCreateTunnel n3_start 7 0x1234 1 5 99 a_remote 2152 Cb_pdcp_data_req [(41, 7)] with
  | Ok (g, _, _) => g
  | _ => n3_start
  end.
Definition n3_bearer : gtpv1u_bearer_t := mk_bearer 49 99 (of_le32 (tla_buffer a_remote)) (replicate 16 0) 2152 0 0.
Definition n3_data : rntiData_t := mk_rntiData 0x1234 1 Cb_pdcp_data_req 5.
Definition n3_sdap : nr_sdap_entity_t :=
  mk_sdap 0x1234 1 5 (<[9%nat := mk_qfi2drb 2 true]> (replicate 64 (mk_qfi2drb 0 false))).

Lemma n3_up_state : state_of 7 3 n3_up (<[(0x1234, 5) := (n3_bearer, n3_data)]> ∅).
Proof.
  assert (H : state_of 7 3 n3_start ∅).
  { destruct gtp_up_state as (H & Ho & Hc). split; [done|]. done. }
  destruct (created 7 3 n3_start ∅ 0x1234 1 5 99 a_remote 2152 Cb_pdcp_data_req [(41, 7)] H) as (g' & t & rest & x & E & -> & Hs).
  - repeat split; [apply elem_of_cons; by left|repeat constructor; cbn; unfold RAND_MAX; lia|].
    apply Exists_cons_hd. intros p y dd Hp. by rewrite lookup_empty in Hp.
  - reflexivity.
  - assert (Et : t = 49).
    { change (Ok (n3_up, 49, @nil (Z * Z)) = Ok (g', t, rest)) in E. by injection E. }
    unfold n3_up. rewrite E. subst t. exact Hs.
Qed.

