(* ===== verification/NrTbs.v ===== *)
(** The size of transport blocks: [nr_compute_tbs_common.c], the search of the scheduler for the
    number of resource blocks ([nr_find_nb_rb] of [gNB_scheduler_primitives.c]) and the division
    of the coded bits over code blocks ([nr_tbs_tools.c]).

    The products of [nr_compute_tbs] are of type [int]: an overflow is a fault of the model.
    [log2] is that of the C library on an integer below 2^32, where it is exact enough for its
    integral part to be that of the true logarithm. *)

From S2P Require Import Prelude.
From Stdlib Require Import Sorting.Sorted.

(** ** Arithmetic *)

(** A product of two [int]s. *)
Definition mul_int (a b : Z) : res Z :=
  if (- 2 ^ 31 <=? a * b) && (a * b <? 2 ^ 31) then Ok (a * b) else Fault SignedOverflow.

Definition CEILIDIV (a b : Z) : Z := u32 (a + b - 1) / b.
Definition ROUNDIDIV (a b : Z) : Z := u32 (u32 (2 * a) + b) / (2 * b).

Definition NR_NB_SC_PER_RB : Z := 12.

Definition Tbstable_nr : list Z :=
  [24; 32; 40; 48; 56; 64; 72; 80; 88; 96; 104; 112; 120; 128; 136; 144; 152; 160; 168; 176; 184; 192; 208; 224; 240;
   256; 272; 288; 304; 320; 336; 352; 368; 384; 408; 432; 456; 480; 504; 528; 552; 576; 608; 640; 672; 704; 736; 768;
   808; 848; 888; 928; 984; 1032; 1064; 1128; 1160; 1192; 1224; 1256; 1288; 1320; 1352; 1416; 1480; 1544; 1608; 1672;
   1736; 1800; 1864; 1928; 2024; 2088; 2152; 2216; 2280; 2408; 2472; 2536; 2600; 2664; 2728; 2792; 2856; 2976; 3104;
   3240; 3368; 3496; 3624; 3752; 3824].

Definition NPRB_LBRM : list Z := [32; 66; 107; 135; 162; 217; 273].

(** The first entry of a table that is not below [x], 0 when there is none. *)
Fixpoint first_from (l : list Z) (x : Z) : Z :=
  match l with
  | [] => 0
  | t :: tl => if t >=? x then t else first_from tl x
  end.

(** ** Transport block size *)

(** The branch up to 3824 bits. *)
Definition small_tbs (Ninfo : Z) : Z :=
  let n := Z.max 3 (Z.log2 Ninfo - 6) in
  let Np_info := Z.max 24 (Z.shiftl (Z.shiftr Ninfo n) n) in
  first_from Tbstable_nr Np_info.

(** The quantised number of bits above. *)
Definition quantised (Ninfo : Z) : Z :=
  let n := Z.log2 (Ninfo - 24) - 5 in
  Z.max 3840 (u32 (Z.shiftl (ROUNDIDIV (Ninfo - 24) (Z.shiftl 1 n)) n)).

Definition in_blocks (Np_info C : Z) : Z :=
  u32 (u32 (u32 (Z.shiftl C 3) * CEILIDIV (Np_info + 24) (u32 (Z.shiftl C 3))) - 24).

(** [limit] is the code rate up to which base graph 2 is used. *)
Definition large_tbs (Ninfo R limit : Z) : Z :=
  let Np_info := quantised Ninfo in
  if R <=? limit then
    let C := CEILIDIV (Np_info + 24) 3816 in in_blocks Np_info C
  else if Np_info >? 8424 then
    let C := CEILIDIV (Np_info + 24) 8424 in in_blocks Np_info C
  else u32 (Z.shiftl (CEILIDIV (Np_info + 24) 8) 3 - 24).

Definition tbs_of (Ninfo R limit : Z) : Z :=
  if Ninfo <=? 3824 then small_tbs Ninfo else large_tbs Ninfo R limit.

Definition nr_compute_tbs (Qm R nb_rb nb_symb_sch nb_dmrs_prb nb_rb_oh tb_scaling Nl : Z) : res Z :=
  let nbp_re := u16 (NR_NB_SC_PER_RB * nb_symb_sch - nb_dmrs_prb - nb_rb_oh) in
  let* re := mul_int (Z.min 156 nbp_re) nb_rb in
  let nb_re := u16 re in
  let* a := mul_int nb_re R in
  let* a := mul_int a Qm in
  let* a := mul_int a Nl in
  let Ninfo := Z.shiftr (Z.shiftr (a / 10) 10) tb_scaling in
  Ok (tbs_of Ninfo R 2560).

Definition nr_compute_tbslbrm (table nb_rb Nl : Z) : res Z :=
  let nb_rb_lbrm := first_from NPRB_LBRM nb_rb in
  let Qm := if table =? 1 then 8 else 6 in
  let R := 948 in
  let nb_re := u16 (156 * nb_rb_lbrm) in
  let* a := mul_int nb_re R in
  let* a := mul_int a Qm in
  let* a := mul_int a Nl in
  let Ninfo := Z.shiftr a 10 in
  Ok (tbs_of Ninfo R 256).

(** ** The number of resource blocks for a number of bytes *)

Section FindRb.

Variables (Qm R nrOfLayers nb_symb_sch nb_dmrs_prb bytes : Z).

Definition tbs_bytes (nb_rb : Z) : res Z :=
  let* tbs := nr_compute_tbs Qm R nb_rb nb_symb_sch nb_dmrs_prb 0 0 nrOfLayers in Ok (Z.shiftr tbs 3).

(** The loop, from the two ends: the upper end when it stops. *)
Fixpoint find_loop (fuel : nat) (lo hi : Z) : res Z :=
  if lo + 1 <? hi then
    match fuel with
    | O => Fault FuelExhausted
    | S fuel =>
      let p := (hi + lo) / 2 in
      let* TBS := tbs_bytes p in
      if bytes =? TBS then Ok p
      else if bytes <? TBS then find_loop fuel lo p
      else find_loop fuel p hi
    end
  else Ok hi.

(** The result, [*tbs] and [*nb_rb]. *)
Definition nr_find_nb_rb (nb_rb_min nb_rb_max : Z) : res (bool * Z * Z) :=
  let* tbs := tbs_bytes nb_rb_max in
  if bytes >? tbs then Ok (false, tbs, nb_rb_max)
  else if bytes =? tbs then Ok (true, tbs, nb_rb_max)
  else
    let* tbs := tbs_bytes nb_rb_min in
    if bytes <=? tbs then Ok (true, tbs, nb_rb_min)
    else
      let* hi := find_loop (Z.to_nat (nb_rb_max - nb_rb_min)) nb_rb_min nb_rb_max in
      let* tbs := tbs_bytes (u16 hi) in
      Ok ((tbs >=? bytes) && (u16 hi <=? nb_rb_max), tbs, u16 hi).

End FindRb.

(** ** Coded bits *)

Definition nr_get_G (nb_rb nb_symb_sch nb_re_dmrs length_dmrs Qm Nl : Z) : res Z :=
  let* a := mul_int (NR_NB_SC_PER_RB * nb_symb_sch - nb_re_dmrs * length_dmrs) nb_rb in
  let* a := mul_int a Qm in
  let* a := mul_int a Nl in
  Ok (u32 a).

(** Two assertions; a number of blocks 0 is a division by 0. *)
Definition nr_get_E (G C Qm Nl r : Z) : res Z :=
  let Cprime := u8 C in
  if (Nl <=? 0) || (Qm <=? 0) then Exit
  else if Cprime =? 0 then Fault Inconsistent
  else if r <=? u32 (Cprime - (G / (Nl * Qm)) mod Cprime - 1)
  then Ok (u32 (Nl * Qm * (G / (Nl * Qm * Cprime))))
  else Ok (u32 (Nl * Qm * (G / (Nl * Qm * Cprime) + 1))).

(** ** Lemmas *)

Lemma mul_int_ok a b : - 2 ^ 31 <= a * b < 2 ^ 31 -> mul_int a b = Ok (a * b).
Proof.
  intros H. unfold mul_int. replace (_ && _) with true; [done|].
  symmetry. apply andb_true_iff. split; [apply Z.leb_le|apply Z.ltb_lt]; lia.
Qed.

Lemma mul_int_inv a b c : mul_int a b = Ok c -> c = a * b /\ - 2 ^ 31 <= c < 2 ^ 31.
Proof. unfold mul_int. destruct (_ && _) eqn:E; [|done]. intros [= <-]. b2p. lia. Qed.

(** The entry of a sorted table. *)
Lemma first_from_spec l x :
  StronglySorted Z.lt l -> Exists (fun t => x <= t) l ->
  first_from l x ∈ l /\ x <= first_from l x /\ forall t, t ∈ l -> x <= t -> first_from l x <= t.
Proof.
  induction 1 as [|t l Hs IH Hall]; intros He; [by inversion He|]. cbn. destruct (Z.geb_spec t x) as [Hx|Hx].
  - split; [by left|]. split; [done|]. intros u [->|Hu]%elem_of_cons _; [lia|].
    rewrite Forall_forall in Hall. specialize (Hall u (proj1 (list_elem_of_In _ _) Hu)). lia.
  - inversion He as [? ? Ht|? ? Ht]; subst; [lia|]. destruct (IH Ht) as (H1 & H2 & H3).
    split; [by right|]. split; [done|]. intros u [->|Hu]%elem_of_cons Hxu; [lia|auto].
Qed.

Lemma table_sorted : StronglySorted Z.lt Tbstable_nr.
Proof. apply Sorted_StronglySorted; [exact Z.lt_trans|]. repeat constructor. Qed.

Lemma table_entry_from x : x <= 3824 -> Exists (fun t => x <= t) Tbstable_nr.
Proof. intros H. apply list.Exists_exists. exists 3824. split; [|done]. unfold Tbstable_nr. set_solver. Qed.

Lemma table_entries t : t ∈ Tbstable_nr -> 24 <= t <= 3824 /\ t mod 8 = 0.
Proof.
  assert (H : Forall (fun t => 24 <= t <= 3824 /\ t mod 8 = 0) Tbstable_nr) by (repeat constructor; lia).
  rewrite Forall_forall in H. intros Ht. apply H. by apply list_elem_of_In.
Qed.

(** Rounding down to the bits from position [max 3 (log2 x - 6)] on is monotone. *)
Definition floor_to (x : Z) : Z := Z.shiftl (Z.shiftr x (Z.max 3 (Z.log2 x - 6))) (Z.max 3 (Z.log2 x - 6)).

Lemma floor_shift x n : 0 <= n -> Z.shiftl (Z.shiftr x n) n = x / 2 ^ n * 2 ^ n.
Proof. intros. by rewrite Z.shiftl_mul_pow2, Z.shiftr_div_pow2. Qed.

Lemma floor_to_le x : 0 <= x -> floor_to x <= x.
Proof.
  intros H. unfold floor_to. rewrite floor_shift by lia. set (n := Z.max _ _).
  assert (0 < 2 ^ n) by (apply Z.pow_pos_nonneg; lia). rewrite Z.mul_comm. apply Z.mul_div_le. lia.
Qed.

Lemma floor_to_mono x y : 0 <= x <= y -> floor_to x <= floor_to y.
Proof.
  intros H. pose proof (Z.log2_le_mono x y ltac:(lia)) as Hlog.
  destruct (decide (Z.max 3 (Z.log2 x - 6) = Z.max 3 (Z.log2 y - 6))) as [E|E].
  - unfold floor_to. rewrite <- E, !floor_shift by lia. set (n := Z.max _ _).
    assert (0 < 2 ^ n) by (apply Z.pow_pos_nonneg; lia).
    apply Z.mul_le_mono_nonneg_r; [lia|]. apply Z.div_le_mono; lia.
  - assert (Hy : Z.log2 x < Z.log2 y /\ 9 < Z.log2 y) by lia.
    assert (Hx : x < 2 ^ Z.log2 y).
    { destruct (decide (x = 0)) as [->|]; [apply Z.pow_pos_nonneg; lia|].
      pose proof (Z.log2_spec x ltac:(lia)). assert (2 ^ Z.succ (Z.log2 x) <= 2 ^ Z.log2 y) by (apply Z.pow_le_mono_r; lia). lia. }
    transitivity x; [apply floor_to_le; lia|]. transitivity (2 ^ Z.log2 y); [lia|].
    unfold floor_to. rewrite floor_shift by lia. set (n := Z.max 3 (Z.log2 y - 6)) in *.
    assert (Hpos : 0 < y) by (destruct (Z.le_gt_cases y 0) as [Hy0|]; [rewrite (Z.log2_nonpos y Hy0) in Hy; lia|done]).
    assert (Hn : 3 <= n <= Z.log2 y) by lia. clearbody n.
    replace (2 ^ Z.log2 y) with (2 ^ (Z.log2 y - n) * 2 ^ n) by (rewrite <- Z.pow_add_r by lia; f_equal; lia).
    assert (0 < 2 ^ n) by (apply Z.pow_pos_nonneg; lia).
    apply Z.mul_le_mono_nonneg_r; [lia|]. apply Z.div_le_lower_bound; [lia|]. rewrite <- Z.pow_add_r by lia.
    replace (n + (Z.log2 y - n)) with (Z.log2 y) by lia. apply Z.log2_spec. lia.
Qed.

Lemma small_tbs_spec N :
  0 <= N <= 3824 ->
  small_tbs N ∈ Tbstable_nr /\ floor_to N <= small_tbs N /\
  forall t, t ∈ Tbstable_nr -> floor_to N <= t -> small_tbs N <= t.
Proof.
  intros H. change (small_tbs N) with (first_from Tbstable_nr (Z.max 24 (floor_to N))).
  pose proof (floor_to_le N ltac:(lia)).
  destruct (first_from_spec Tbstable_nr (Z.max 24 (floor_to N)) table_sorted) as (H1 & H2 & H3);
    [apply table_entry_from; lia|].
  split; [done|]. split; [lia|]. intros t Ht Hle. apply H3; [done|]. apply table_entries in Ht. lia.
Qed.

Lemma small_tbs_mono x y : 0 <= x <= y -> y <= 3824 -> small_tbs x <= small_tbs y.
Proof.
  intros H Hy. destruct (small_tbs_spec x ltac:(lia)) as (_ & _ & Hx).
  destruct (small_tbs_spec y ltac:(lia)) as (Hin & Hge & _). apply Hx; [done|].
  pose proof (floor_to_mono x y H). lia.
Qed.

(** The unit to which a number of bits is rounded. *)
Definition unit_of (N : Z) : Z := 2 ^ (Z.log2 (N - 24) - 5).

Lemma unit_range N : 3824 < N -> 64 <= unit_of N /\ 32 * unit_of N <= N - 24 < 64 * unit_of N.
Proof.
  intros H. unfold unit_of. pose proof (Z.log2_spec (N - 24) ltac:(lia)) as [H1 H2].
  assert (11 <= Z.log2 (N - 24)) by (apply Z.log2_le_pow2; lia). set (n := Z.log2 (N - 24)) in *. clearbody n.
  replace (2 ^ n) with (32 * 2 ^ (n - 5)) in H1 by (change 32 with (2 ^ 5); rewrite <- Z.pow_add_r by lia; f_equal; lia).
  replace (2 ^ Z.succ n) with (64 * 2 ^ (n - 5)) in H2 by (change 64 with (2 ^ 6); rewrite <- Z.pow_add_r by lia; f_equal; lia).
  split; [|lia]. change 64 with (2 ^ 6). apply Z.pow_le_mono_r; lia.
Qed.

Lemma quantised_eq N :
  3824 < N < 2 ^ 21 -> quantised N = Z.max 3840 ((2 * (N - 24) + unit_of N) / (2 * unit_of N) * unit_of N).
Proof.
  intros H. pose proof (unit_range N ltac:(lia)) as [H1 H2]. unfold quantised, ROUNDIDIV.
  assert (11 <= Z.log2 (N - 24)) by (apply Z.log2_le_pow2; lia).
  rewrite !Z.shiftl_mul_pow2, Z.mul_1_l by lia. fold (unit_of N). set (p := unit_of N) in *. clearbody p.
  rewrite (u32_small (2 * (N - 24))), (u32_small (_ + p)) by lia. f_equal. apply u32_small.
  assert (Hd : (2 * (N - 24) + p) / (2 * p) * (2 * p) <= 2 * (N - 24) + p) by (rewrite Z.mul_comm; apply Z.mul_div_le; lia).
  assert (0 <= (2 * (N - 24) + p) / (2 * p)) by (apply Z.div_pos; lia). nia.
Qed.

Lemma unit_divides N M : 3824 < N <= M -> (unit_of N | unit_of M).
Proof.
  intros H. unfold unit_of. assert (11 <= Z.log2 (N - 24)) by (apply Z.log2_le_pow2; lia).
  pose proof (Z.log2_le_mono (N - 24) (M - 24) ltac:(lia)).
  exists (2 ^ (Z.log2 (M - 24) - Z.log2 (N - 24))). rewrite <- Z.pow_add_r by lia. f_equal. lia.
Qed.

Lemma quantised_range N : 3824 < N < 2 ^ 21 -> 3840 <= quantised N <= 64 * unit_of N.
Proof.
  intros H. rewrite quantised_eq by done. pose proof (unit_range N ltac:(lia)) as [H1 H2]. split; [lia|].
  apply Z.max_lub; [lia|]. apply Z.mul_le_mono_nonneg_r; [lia|].
  apply Z.lt_succ_r, Z.div_lt_upper_bound; lia.
Qed.

Lemma quantised_mono N M : 3824 < N <= M -> M < 2 ^ 21 -> quantised N <= quantised M.
Proof.
  intros H HM. rewrite !quantised_eq by lia.
  pose proof (unit_range N ltac:(lia)) as [H1 H2]. pose proof (unit_range M ltac:(lia)) as [H3 H4].
  apply Z.max_le_compat_l. destruct (decide (unit_of N = unit_of M)) as [E|E].
  - rewrite <- E. apply Z.mul_le_mono_nonneg_r; [lia|]. apply Z.div_le_mono; lia.
  - assert (Hu : 2 * unit_of N <= unit_of M).
    { destruct (unit_divides N M H) as [k Hk]. assert (k <> 1) by (intros ->; lia).
      assert (0 < k) by (apply (Z.mul_pos_cancel_r k (unit_of N)); lia). rewrite Hk. nia. }
    transitivity (64 * unit_of N).
    + apply Z.mul_le_mono_nonneg_r; [lia|]. apply Z.lt_succ_r, Z.div_lt_upper_bound; lia.
    + transitivity (32 * unit_of M); [lia|]. apply Z.mul_le_mono_nonneg_r; [lia|]. apply Z.div_le_lower_bound; lia.
Qed.

Lemma quantised_multiple N : 3824 < N < 2 ^ 21 -> (unit_of N | quantised N).
Proof.
  intros H. rewrite quantised_eq by done. pose proof (unit_range N ltac:(lia)) as [H1 H2].
  set (k := (2 * (N - 24) + unit_of N) / (2 * unit_of N)).
  assert (32 <= k) by (apply Z.div_le_lower_bound; lia).
  destruct (Z.max_spec 3840 (k * unit_of N)) as [[_ ->]|[Hlt ->]]; [by exists k|].
  assert (Hp : unit_of N = 64 \/ unit_of N >= 128).
  { unfold unit_of in *. assert (11 <= Z.log2 (N - 24)) by (apply Z.log2_le_pow2; lia).
    destruct (decide (Z.log2 (N - 24) = 11)) as [->|]; [by left|right].
    assert (2 ^ 7 <= 2 ^ (Z.log2 (N - 24) - 5)) by (apply Z.pow_le_mono_r; lia). lia. }
  destruct Hp as [->|Hp]; [by exists 60|]. nia.
Qed.

(** Two different quantised numbers are at least a unit apart. *)
Lemma quantised_step N M :
  3824 < N <= M -> M < 2 ^ 21 -> quantised N < quantised M -> quantised N + unit_of N <= quantised M.
Proof.
  intros H HM Hlt. destruct (quantised_multiple N ltac:(lia)) as [a Ha].
  destruct (Z.divide_trans _ _ _ (unit_divides N M H) (quantised_multiple M ltac:(lia))) as [b Hb].
  pose proof (unit_range N ltac:(lia)). assert (a < b) by (apply (Z.mul_lt_mono_pos_r (unit_of N)); lia). nia.
Qed.

(** ** Code blocks *)

(** The number of code blocks that a size is rounded for. *)
Definition block_count (Np R limit : Z) : Z :=
  if R <=? limit then (Np + 24 + 3815) / 3816 else if Np >? 8424 then (Np + 24 + 8423) / 8424 else 1.

Lemma in_blocks_eq N C :
  0 <= N < 2 ^ 22 -> 0 < C < 2 ^ 12 -> in_blocks N C = 8 * C * ((N + 24 + (8 * C - 1)) / (8 * C)) - 24.
Proof.
  intros HN HC. unfold in_blocks, CEILIDIV. rewrite Z.shiftl_mul_pow2 by lia. change (2 ^ 3) with 8.
  rewrite (u32_small (C * 8)), (u32_small (N + 24 + C * 8 - 1)) by lia.
  replace (N + 24 + C * 8 - 1) with (N + 24 + (8 * C - 1)) by lia. rewrite (Z.mul_comm C 8).
  set (d := 8 * C) in *. assert (Hd : 0 < d < 2 ^ 15) by lia. clearbody d.
  assert (d * ((N + 24 + (d - 1)) / d) <= N + 24 + (d - 1)) by (apply Z.mul_div_le; lia).
  assert (1 <= (N + 24 + (d - 1)) / d) by (apply Z.div_le_lower_bound; lia).
  assert (24 <= d * ((N + 24 + (d - 1)) / d)).
  { pose proof (Z.mul_succ_div_gt (N + 24 + (d - 1)) d ltac:(lia)). lia. }
  rewrite (u32_small (d * _)) by lia. apply u32_small. lia.
Qed.

Lemma in_blocks_bounds N C :
  0 <= N < 2 ^ 22 -> 0 < C < 2 ^ 12 -> N mod 8 = 0 ->
  N <= in_blocks N C <= N + 8 * (C - 1) /\ (in_blocks N C + 24) mod (8 * C) = 0.
Proof.
  intros HN HC H8. rewrite in_blocks_eq by done.
  replace (8 * C * ((N + 24 + (8 * C - 1)) / (8 * C)) - 24 + 24) with ((N + 24 + (8 * C - 1)) / (8 * C) * (8 * C)) by lia.
  rewrite Z.mod_mul by lia. split; [|done].
  pose proof (Z.div_mod (N + 24 + (8 * C - 1)) (8 * C) ltac:(lia)) as E.
  pose proof (Z.mod_pos_bound (N + 24 + (8 * C - 1)) (8 * C) ltac:(lia)) as Hm.
  set (k := (N + 24 + (8 * C - 1)) / (8 * C)) in *. set (r := (N + 24 + (8 * C - 1)) mod (8 * C)) in *.
  assert (r mod 8 = 7).
  { assert (Hr : r = N + 24 + (8 * C - 1) - 8 * (C * k)) by lia. rewrite Hr. clear - H8. Z.div_mod_to_equations. lia. }
  clearbody k r. Z.div_mod_to_equations. lia.
Qed.

Lemma block_count_range N R limit :
  3824 < N < 2 ^ 21 ->
  1 <= block_count (quantised N) R limit /\ 8 * (block_count (quantised N) R limit - 1) <= unit_of N.
Proof.
  intros H. pose proof (quantised_range N H) as Hq. pose proof (unit_range N ltac:(lia)) as Hu.
  unfold block_count. set (q := quantised N) in *. clearbody q.
  destruct (R <=? limit); [|destruct (q >? 8424); [|lia]].
  - pose proof (Z.mul_div_le (q + 24 + 3815) 3816 ltac:(lia)).
    assert (1 <= (q + 24 + 3815) / 3816) by (apply Z.div_le_lower_bound; lia). lia.
  - pose proof (Z.mul_div_le (q + 24 + 8423) 8424 ltac:(lia)).
    assert (1 <= (q + 24 + 8423) / 8424) by (apply Z.div_le_lower_bound; lia). lia.
Qed.

Lemma unit_bound N : 3824 < N < 2 ^ 21 -> unit_of N < 2 ^ 16.
Proof. intros H. pose proof (unit_range N ltac:(lia)). lia. Qed.

Lemma block_count_small N R limit : 3824 < N < 2 ^ 21 -> block_count (quantised N) R limit < 2 ^ 12.
Proof.
  intros H. pose proof (quantised_range N H) as Hq. pose proof (unit_bound N H).
  unfold block_count. destruct (R <=? limit); [apply Z.div_lt_upper_bound; lia|].
  destruct (_ >? _); [apply Z.div_lt_upper_bound; lia|lia].
Qed.

Lemma large_tbs_eq N R limit :
  3824 < N < 2 ^ 21 -> large_tbs N R limit = in_blocks (quantised N) (block_count (quantised N) R limit).
Proof.
  intros H. pose proof (quantised_range N H) as Hq. pose proof (unit_bound N H) as Hu.
  unfold large_tbs, block_count, CEILIDIV. destruct (R <=? limit).
  - rewrite u32_small by lia. do 2 f_equal. lia.
  - destruct (_ >? _); [rewrite u32_small by lia; do 2 f_equal; lia|].
    rewrite in_blocks_eq, Z.shiftl_mul_pow2, (u32_small (quantised N + 24 + 8 - 1)) by lia. change (2 ^ 3) with 8. rewrite (Z.mul_comm _ 8).
    replace (quantised N + 24 + 8 - 1) with (quantised N + 24 + (8 * 1 - 1)) by lia. rewrite Z.mul_1_r.
    pose proof (Z.mul_div_le (quantised N + 24 + (8 - 1)) 8 ltac:(lia)).
    assert (4 <= (quantised N + 24 + (8 - 1)) / 8) by (apply Z.div_le_lower_bound; lia).
    apply u32_small. lia.
Qed.

Lemma quantised_mod8 N : 3824 < N < 2 ^ 21 -> quantised N mod 8 = 0.
Proof.
  intros H. apply Z.mod_divide; [lia|]. apply Z.divide_trans with (unit_of N); [|by apply quantised_multiple].
  assert (11 <= Z.log2 (N - 24)) by (apply Z.log2_le_pow2; lia). unfold unit_of.
  exists (2 ^ (Z.log2 (N - 24) - 8)). change 8 with (2 ^ 3) at 2. rewrite <- Z.pow_add_r by lia. f_equal. lia.
Qed.

(** The size of a large block: whole bytes in each of its code blocks. *)
Lemma large_tbs_bounds N R limit :
  3824 < N < 2 ^ 21 ->
  let q := quantised N in let C := block_count q R limit in
  q <= large_tbs N R limit <= q + 8 * (C - 1) /\ (large_tbs N R limit + 24) mod (8 * C) = 0.
Proof.
  intros H q C. rewrite large_tbs_eq by done. subst q C.
  pose proof (block_count_range N R limit H). pose proof (block_count_small N R limit H).
  pose proof (quantised_range N H). pose proof (unit_bound N H).
  apply in_blocks_bounds; [lia|lia|by apply quantised_mod8].
Qed.

Lemma large_tbs_mono N M R limit :
  3824 < N <= M -> M < 2 ^ 21 -> large_tbs N R limit <= large_tbs M R limit.
Proof.
  intros H HM. destruct (large_tbs_bounds N R limit ltac:(lia)) as [HN _].
  destruct (large_tbs_bounds M R limit ltac:(lia)) as [HM' _].
  pose proof (quantised_mono N M H HM) as Hmono. destruct (decide (quantised N = quantised M)) as [E|E].
  - rewrite !large_tbs_eq, E by lia. lia.
  - pose proof (quantised_step N M H HM ltac:(lia)). pose proof (block_count_range N R limit ltac:(lia)). lia.
Qed.

Lemma tbs_of_mono N M R limit : 0 <= N <= M -> M < 2 ^ 21 -> tbs_of N R limit <= tbs_of M R limit.
Proof.
  intros H HM. unfold tbs_of. destruct (Z.leb_spec N 3824), (Z.leb_spec M 3824); [apply small_tbs_mono; lia| |lia|apply large_tbs_mono; lia].
  destruct (small_tbs_spec N ltac:(lia)) as (Hin & _). apply table_entries in Hin.
  pose proof (large_tbs_bounds M R limit ltac:(lia)) as [? _]. pose proof (quantised_range M ltac:(lia)). lia.
Qed.

(** What every size satisfies. *)
Definition tbs_ok (t R limit : Z) : Prop :=
  24 <= t < 2 ^ 23 /\ t mod 8 = 0 /\
  (3824 < t ->
   let K := if R <=? limit then 3816 else 8424 in
   exists C, (t + 24) mod (8 * C) = 0 /\
     if negb (R <=? limit) && (t + 24 <=? 8448) then C = 1 else 2 <= C /\ K * (C - 1) < t + 24 <= K * C).

Lemma ceil_le a b m : 0 < b -> a <= m * b -> (a + (b - 1)) / b <= m.
Proof. intros. apply Z.lt_succ_r, Z.div_lt_upper_bound; lia. Qed.

Lemma count_blocks q C m K :
  0 <= q < 2 ^ 22 -> 0 < C < 2 ^ 12 -> K = 8 * m -> 0 < m -> C = (q + 24 + (K - 1)) / K ->
  K * (C - 1) < q + 24 /\ in_blocks q C + 24 <= K * C.
Proof.
  intros Hq HC HK Hm EC.
  pose proof (Z.mul_div_le (q + 24 + (K - 1)) K ltac:(lia)) as H1.
  pose proof (Z.mul_succ_div_gt (q + 24 + (K - 1)) K ltac:(lia)) as H2. rewrite <- EC in *.
  split; [lia|]. rewrite in_blocks_eq by done.
  assert ((q + 24 + (8 * C - 1)) / (8 * C) <= m) by (apply ceil_le; lia). subst K. nia.
Qed.

Lemma large_tbs_ok N R limit : 3824 < N < 2 ^ 21 -> tbs_ok (large_tbs N R limit) R limit.
Proof.
  intros H. destruct (large_tbs_bounds N R limit H) as [Hb Hm].
  pose proof (quantised_range N H). pose proof (unit_bound N H). pose proof (block_count_range N R limit H).
  pose proof (block_count_small N R limit H) as Hs. pose proof (quantised_mod8 N H) as H8.
  rewrite (large_tbs_eq N R limit H) in *. set (q := quantised N) in *. set (C := block_count q R limit) in *.
  assert (Ht8 : in_blocks q C mod 8 = 0).
  { assert (E : (in_blocks q C + 24) mod 8 = 0).
    { apply Z.mod_divide in Hm; [|lia]. apply Z.mod_divide; [lia|]. apply Z.divide_trans with (8 * C); [|done].
      exists C. lia. }
    clear - E. Z.div_mod_to_equations. lia. }
  split; [lia|]. split; [done|]. intros Hbig. cbv zeta. exists C. split; [done|]. unfold C, block_count in *. clear Hm.
  destruct (R <=? limit); cbn [negb andb].
  - assert (2 <= (q + 24 + 3815) / 3816) by (apply Z.div_le_lower_bound; lia).
    destruct (count_blocks q ((q + 24 + 3815) / 3816) 477 3816) as [Hlo Hhi]; try reflexivity; lia.
  - destruct (Z.gtb_spec q 8424) as [Hq|Hq].
    + replace (_ <=? 8448) with false by (symmetry; apply Z.leb_gt; lia).
      assert (2 <= (q + 24 + 8423) / 8424) by (apply Z.div_le_lower_bound; lia).
      destruct (count_blocks q ((q + 24 + 8423) / 8424) 1053 8424) as [Hlo Hhi]; try reflexivity; lia.
    + replace (_ <=? 8448) with true by (symmetry; apply Z.leb_le; lia). done.
Qed.

Lemma tbs_of_ok N R limit : 0 <= N < 2 ^ 21 -> tbs_ok (tbs_of N R limit) R limit.
Proof.
  intros H. unfold tbs_of. destruct (Z.leb_spec N 3824); [|apply large_tbs_ok; lia].
  destruct (small_tbs_spec N ltac:(lia)) as (Hin & _). apply table_entries in Hin as [Hr H8].
  split; [lia|]. split; [done|]. lia.
Qed.

(** ** Sizes computed by the code *)

Section Compute.

Variables (Qm R nb_symb_sch nb_dmrs_prb nb_rb_oh tb_scaling Nl : Z).
Hypothesis Hnonneg : 0 <= Qm /\ 0 <= R /\ 0 <= Nl /\ 0 <= tb_scaling.

Let compute (nb_rb : Z) : res Z := nr_compute_tbs Qm R nb_rb nb_symb_sch nb_dmrs_prb nb_rb_oh tb_scaling Nl.

(** Resource elements of one resource block. *)
Definition re_per_rb : Z := Z.min 156 (u16 (NR_NB_SC_PER_RB * nb_symb_sch - nb_dmrs_prb - nb_rb_oh)).

Lemma re_per_rb_range : 0 <= re_per_rb <= 156.
Proof. unfold re_per_rb, u16. pose proof (Z.mod_pos_bound (NR_NB_SC_PER_RB * nb_symb_sch - nb_dmrs_prb - nb_rb_oh) (2 ^ 16) ltac:(lia)). lia. Qed.

Definition info_bits (nb_rb : Z) : Z :=
  Z.shiftr (Z.shiftr (re_per_rb * nb_rb * R * Qm * Nl / 10) 10) tb_scaling.

Lemma compute_spec nb_rb t :
  0 <= nb_rb <= 420 ->
  compute nb_rb = Ok t <->
  re_per_rb * nb_rb * R < 2 ^ 31 /\ re_per_rb * nb_rb * R * Qm < 2 ^ 31 /\ re_per_rb * nb_rb * R * Qm * Nl < 2 ^ 31 /\
  t = tbs_of (info_bits nb_rb) R 2560.
Proof.
  intros Hrb. pose proof re_per_rb_range as Hre. unfold compute, nr_compute_tbs. fold re_per_rb.
  assert (Hp : 0 <= re_per_rb * nb_rb <= 65520) by nia.
  rewrite (mul_int_ok re_per_rb) by lia. cbn [rbind]. replace (u16 (re_per_rb * nb_rb)) with (re_per_rb * nb_rb)
    by (symmetry; apply Z.mod_small; lia).
  set (e := re_per_rb * nb_rb) in *. assert (0 <= e * R) by nia. assert (0 <= e * R * Qm) by nia. assert (0 <= e * R * Qm * Nl) by nia.
  split.
  - intros H'. bind_ok H'. apply mul_int_inv in E as [-> E]. bind_ok H'. apply mul_int_inv in E0 as [-> E0].
    bind_ok H'. apply mul_int_inv in E1 as [-> E1]. injection H' as <-. repeat split; lia.
  - intros (L1 & L2 & L3 & ->). rewrite (mul_int_ok e R) by lia. cbn [rbind]. rewrite (mul_int_ok _ Qm) by lia. cbn [rbind].
    rewrite (mul_int_ok _ Nl) by lia. done.
Qed.

Lemma info_bits_mono rb rb' :
  0 <= rb <= rb' -> re_per_rb * rb' * R * Qm * Nl < 2 ^ 31 -> 0 <= info_bits rb <= info_bits rb' /\ info_bits rb' < 2 ^ 21.
Proof.
  intros H Hb. pose proof re_per_rb_range as Hre. unfold info_bits.
  assert (H0 : 0 <= re_per_rb * rb * R * Qm * Nl <= re_per_rb * rb' * R * Qm * Nl).
  { split; [repeat apply Z.mul_nonneg_nonneg; lia|]. repeat apply Z.mul_le_mono_nonneg_r; try lia.
    apply Z.mul_le_mono_nonneg_l; lia. }
  set (a := re_per_rb * rb * R * Qm * Nl) in *. set (b := re_per_rb * rb' * R * Qm * Nl) in *. clearbody a b.
  rewrite !Z.shiftr_div_pow2 by lia. assert (Hp : 1 <= 2 ^ tb_scaling) by (apply (Z.pow_le_mono_r 2 0); lia).
  assert (a / 10 / 2 ^ 10 <= b / 10 / 2 ^ 10) by (repeat apply Z.div_le_mono; lia).
  assert (0 <= a / 10 / 2 ^ 10) by (repeat apply Z.div_pos; lia).
  assert (b / 10 / 2 ^ 10 < 2 ^ 21) by (repeat apply Z.div_lt_upper_bound; lia).
  split; [split; [apply Z.div_pos; lia|apply Z.div_le_mono; lia]|].
  apply Z.div_lt_upper_bound; [lia|]. nia.
Qed.

Lemma compute_mono rb rb' t' :
  0 <= rb <= rb' -> rb' <= 420 -> compute rb' = Ok t' -> exists t, compute rb = Ok t /\ t <= t'.
Proof.
  intros H Hmax H'. apply compute_spec in H' as (H1 & H2 & H3 & ->); [|lia]. pose proof re_per_rb_range as Hre.
  assert (Hle : re_per_rb * rb <= re_per_rb * rb') by (apply Z.mul_le_mono_nonneg_l; lia).
  assert (Hle1 : re_per_rb * rb * R <= re_per_rb * rb' * R) by (apply Z.mul_le_mono_nonneg_r; lia).
  assert (Hle2 : re_per_rb * rb * R * Qm <= re_per_rb * rb' * R * Qm) by (apply Z.mul_le_mono_nonneg_r; lia).
  assert (Hle3 : re_per_rb * rb * R * Qm * Nl <= re_per_rb * rb' * R * Qm * Nl) by (apply Z.mul_le_mono_nonneg_r; lia).
  eexists. split; [apply compute_spec; [lia|]; repeat split; lia|].
  destruct (info_bits_mono rb rb' H H3). by apply tbs_of_mono.
Qed.

End Compute.

(** A transport block size that the code computes without overflow is at least 24 bits, a
    number of bytes, and above 3824 bits, with its CRC of 24 bits, divides into code blocks of
    equal numbers of bytes: as many as the segmentation for its code rate makes. *)
Theorem tbs_code_blocks (Qm R nb_rb nb_symb_sch nb_dmrs_prb nb_rb_oh tb_scaling Nl t : Z) :
  0 <= Qm -> 0 <= R -> 0 <= Nl -> 0 <= tb_scaling -> 0 <= nb_rb <= 420 ->
  nr_compute_tbs Qm R nb_rb nb_symb_sch nb_dmrs_prb nb_rb_oh tb_scaling Nl = Ok t ->
  tbs_ok t R 2560.
Proof.
  intros HQ HR HN Hs Hrb H. apply compute_spec in H as (_ & _ & H3 & ->); [|done|done].
  destruct (info_bits_mono Qm R nb_symb_sch nb_dmrs_prb nb_rb_oh tb_scaling Nl ltac:(done) nb_rb nb_rb ltac:(lia) H3).
  apply tbs_of_ok. lia.
Qed.

Section FindProof.

Variables (Qm R nrOfLayers nb_symb_sch nb_dmrs_prb bytes lo0 hi0 : Z) (f : Z -> Z).
Hypothesis Hf : forall p, lo0 <= p <= hi0 -> tbs_bytes Qm R nrOfLayers nb_symb_sch nb_dmrs_prb p = Ok (f p).

Lemma find_loop_spec fuel : forall lo hi,
  lo0 <= lo < hi -> hi <= hi0 -> hi - lo <= Z.of_nat fuel -> f lo < bytes < f hi ->
  exists h, find_loop Qm R nrOfLayers nb_symb_sch nb_dmrs_prb bytes fuel lo hi = Ok h /\ lo < h <= hi /\
    (f h = bytes \/ f (h - 1) < bytes < f h).
Proof.
  induction fuel as [|fuel IH]; intros lo hi Hlo Hhi Hfuel Hb; cbn [find_loop]; [lia|].
  destruct (Z.ltb_spec (lo + 1) hi) as [Hlt|Hge].
  - assert (Hp : lo < (hi + lo) / 2 < hi) by (Z.div_mod_to_equations; lia). set (p := (hi + lo) / 2) in *. clearbody p.
    rewrite Hf by lia. cbn [rbind]. destruct (Z.eqb_spec bytes (f p)) as [E|E]; [exists p; split; [done|]; lia|].
    destruct (Z.ltb_spec bytes (f p)) as [L|L].
    + destruct (IH lo p ltac:(lia) ltac:(lia) ltac:(lia) ltac:(lia)) as (h & -> & Hh & Hr). exists h. split; [done|]. lia.
    + destruct (IH p hi ltac:(lia) ltac:(lia) ltac:(lia) ltac:(lia)) as (h & -> & Hh & Hr). exists h. split; [done|]. lia.
  - exists hi. split; [done|]. split; [lia|]. right. replace (hi - 1) with lo by lia. done.
Qed.

End FindProof.

Lemma tbs_bytes_mono Qm R nrOfLayers nb_symb_sch nb_dmrs_prb k k' t' :
  0 <= Qm -> 0 <= R -> 0 <= nrOfLayers -> 0 <= k <= k' -> k' <= 420 ->
  tbs_bytes Qm R nrOfLayers nb_symb_sch nb_dmrs_prb k' = Ok t' ->
  exists t, tbs_bytes Qm R nrOfLayers nb_symb_sch nb_dmrs_prb k = Ok t /\ t <= t'.
Proof.
  intros HQ HR HN Hk Hk' H. unfold tbs_bytes in *. bind_ok H. injection H as <-.
  destruct (compute_mono Qm R nb_symb_sch nb_dmrs_prb 0 0 nrOfLayers ltac:(done) k k' x Hk Hk' E) as (y & -> & Hle).
  eexists. split; [done|]. rewrite !Z.shiftr_div_pow2 by lia. apply Z.div_le_mono; lia.
Qed.

(** The search for resource blocks ends, and answers with a number between the two limits and
    its transport block size: it succeeds exactly when the upper limit is enough, and then the
    bytes fit, and either fit exactly or no smaller number of blocks from the lower limit on is
    enough. *)
Theorem find_nb_rb_least (Qm R nrOfLayers nb_symb_sch nb_dmrs_prb bytes nb_rb_min nb_rb_max t : Z) :
  0 <= Qm -> 0 <= R -> 0 <= nrOfLayers -> 0 <= nb_rb_min <= nb_rb_max -> nb_rb_max <= 420 ->
  tbs_bytes Qm R nrOfLayers nb_symb_sch nb_dmrs_prb nb_rb_max = Ok t ->
  exists ok tbs nb_rb,
    nr_find_nb_rb Qm R nrOfLayers nb_symb_sch nb_dmrs_prb bytes nb_rb_min nb_rb_max = Ok (ok, tbs, nb_rb) /\
    nb_rb_min <= nb_rb <= nb_rb_max /\ tbs_bytes Qm R nrOfLayers nb_symb_sch nb_dmrs_prb nb_rb = Ok tbs /\
    (ok = true <-> bytes <= t) /\
    (ok = true -> bytes <= tbs /\
       (bytes = tbs \/ forall k, nb_rb_min <= k < nb_rb ->
          exists tk, tbs_bytes Qm R nrOfLayers nb_symb_sch nb_dmrs_prb k = Ok tk /\ tk < bytes)).
Proof.
  intros HQ HR HN Hmm Hmax Ht.
  set (T := fun k => match tbs_bytes Qm R nrOfLayers nb_symb_sch nb_dmrs_prb k with Ok x => x | _ => 0 end).
  assert (Hmono : forall k k', 0 <= k <= k' -> k' <= nb_rb_max ->
    tbs_bytes Qm R nrOfLayers nb_symb_sch nb_dmrs_prb k = Ok (T k) /\ T k <= T k').
  { intros k k' Hk Hk'.
    destruct (tbs_bytes_mono Qm R nrOfLayers nb_symb_sch nb_dmrs_prb k' nb_rb_max t) as (x' & Ex' & _); [lia..|done|].
    destruct (tbs_bytes_mono Qm R nrOfLayers nb_symb_sch nb_dmrs_prb k k' x') as (x & Ex & Hle); [lia..|done|].
    unfold T. by rewrite Ex, Ex'. }
  assert (HT : forall k, 0 <= k <= nb_rb_max -> tbs_bytes Qm R nrOfLayers nb_symb_sch nb_dmrs_prb k = Ok (T k))
    by (intros k Hk; apply (Hmono k k); lia).
  assert (Et : T nb_rb_max = t) by (unfold T; by rewrite Ht).
  unfold nr_find_nb_rb. rewrite Ht. cbn [rbind]. rewrite Z.gtb_ltb. destruct (Z.ltb_spec t bytes) as [L|L].
  { exists false, t, nb_rb_max. split; [done|]. split; [lia|]. split; [done|]. split; [split; [done|lia]|done]. }
  destruct (Z.eqb_spec bytes t) as [E|E].
  { exists true, t, nb_rb_max. split; [done|]. split; [lia|]. split; [done|]. split; [done|]. intros _. split; [lia|by left]. }
  rewrite (HT nb_rb_min) by lia. cbn [rbind]. destruct (Z.leb_spec bytes (T nb_rb_min)) as [M|M].
  { exists true, (T nb_rb_min), nb_rb_min. split; [done|]. split; [lia|]. split; [apply HT; lia|]. split; [done|].
    intros _. split; [lia|]. right. lia. }
  assert (nb_rb_min < nb_rb_max) by (destruct (decide (nb_rb_min = nb_rb_max)) as [Heq|]; [rewrite Heq in M; lia|lia]).
  destruct (find_loop_spec Qm R nrOfLayers nb_symb_sch nb_dmrs_prb bytes nb_rb_min nb_rb_max T
    ltac:(intros p Hp; apply HT; lia) (Z.to_nat (nb_rb_max - nb_rb_min)) nb_rb_min nb_rb_max) as (h & -> & Hh & Hr); try lia.
  cbn [rbind]. replace (u16 h) with h by (symmetry; apply Z.mod_small; lia). rewrite HT by lia. cbn [rbind].
  exists true, (T h), h. rewrite Z.geb_leb. replace (bytes <=? T h) with true by (symmetry; apply Z.leb_le; lia).
  replace (h <=? nb_rb_max) with true by (symmetry; apply Z.leb_le; lia).
  split; [done|]. split; [lia|]. split; [apply HT; lia|]. split; [done|]. intros _. split; [lia|].
  destruct Hr as [Hr|Hr]; [by left|right]. intros k Hk. exists (T k). destruct (Hmono k (h - 1)) as [Hk1 Hk2]; [lia|lia|].
  split; [done|lia].
Qed.

(** ** Coded bits of the code blocks *)

Lemma sumZ_const {A} (f : A -> Z) c l : Forall (fun x => f x = c) l -> sumZ f l = c * Z.of_nat (length l).
Proof. induction 1; cbn -[Z.of_nat Z.mul]; lia. Qed.

Lemma get_E_eq G C Qm Nl r :
  0 <= G < 2 ^ 32 -> 0 < C < 256 -> 0 < Qm -> 0 < Nl -> 0 <= r ->
  nr_get_E G C Qm Nl r =
  Ok (Nl * Qm * (G / (Nl * Qm) / C + (if r <=? C - (G / (Nl * Qm)) mod C - 1 then 0 else 1)) mod 2 ^ 32).
Proof.
  intros HG HC HQ HN Hr. unfold nr_get_E. unfold u8. rewrite (Z.mod_small C) by lia.
  destruct (Z.leb_spec Nl 0), (Z.leb_spec Qm 0), (Z.eqb_spec C 0); try lia. cbn [orb].
  rewrite <- (Z.div_div G (Nl * Qm) C) by nia. set (M := G / (Nl * Qm)). pose proof (Z.mod_pos_bound M C ltac:(lia)).
  rewrite (u32_small (C - M mod C - 1)) by lia. unfold u32. destruct (r <=? C - M mod C - 1); [by rewrite Z.add_0_r|done].
Qed.

Lemma seqZ_split C b : 0 <= b <= C -> seqZ 0 C = seqZ 0 (C - b) ++ seqZ (C - b) b.
Proof. intros H. rewrite <- (Z.add_0_l (C - b)) at 2. rewrite <- seqZ_app by lia. f_equal. lia. Qed.

(** The coded bits of a transport block are shared out completely: each code block gets a
    multiple of the bits of one resource element on all layers, the shares differ by at most one
    such unit, and together they are all whole units of G. *)
Theorem get_E_shares_G (G C Qm Nl : Z) :
  0 <= G < 2 ^ 31 -> 0 < C < 256 -> 0 < Qm < 2 ^ 8 -> 0 < Nl < 2 ^ 8 ->
  exists E : Z -> Z,
    (forall r, 0 <= r < C -> nr_get_E G C Qm Nl r = Ok (E r) /\ (Nl * Qm | E r) /\
       G / (Nl * Qm) / C * (Nl * Qm) <= E r <= G / (Nl * Qm) / C * (Nl * Qm) + Nl * Qm) /\
    sumZ E (seqZ 0 C) = G - G mod (Nl * Qm).
Proof.
  intros HG HC HQ HN. set (d := Nl * Qm). assert (Hd : 0 < d < 2 ^ 16) by (subst d; nia).
  set (M := G / d). assert (HM : d * M <= G) by (apply Z.mul_div_le; lia). assert (0 <= M) by (apply Z.div_pos; lia).
  pose proof (Z.mod_pos_bound M C ltac:(lia)) as Hb. pose proof (Z.div_mod M C ltac:(lia)) as EM.
  assert (Ha : 0 <= M / C <= M) by (split; [apply Z.div_pos; lia|apply Z.div_le_upper_bound; nia]).
  exists (fun r => d * (M / C + (if r <=? C - M mod C - 1 then 0 else 1))). split.
  - intros r Hr. rewrite get_E_eq by lia. fold d M.
    assert (0 <= d * (M / C + (if r <=? C - M mod C - 1 then 0 else 1)) < 2 ^ 32) by (destruct (_ <=? _); nia).
    replace (Nl * Qm * (M / C + _)) with (d * (M / C + (if r <=? C - M mod C - 1 then 0 else 1))) by done.
    rewrite Z.mod_small by done. split; [done|]. split; [apply Z.divide_factor_l|]. destruct (_ <=? _); lia.
  - rewrite (seqZ_split C (M mod C)), sumZ_app by lia.
    rewrite (sumZ_const _ (d * (M / C)) (seqZ 0 _)), (sumZ_const _ (d * (M / C + 1)) (seqZ (C - M mod C) _)).
    + rewrite !length_seqZ, !Z2Nat.id by lia. rewrite (Z.mod_eq G d) by lia. fold M.
      transitivity (d * (C * (M / C) + M mod C)); [ring|]. rewrite <- EM. ring.
    + apply List.Forall_forall. intros r Hr%list_elem_of_In%elem_of_seqZ.
      replace (_ <=? _) with false by (symmetry; apply Z.leb_gt; lia). done.
    + apply List.Forall_forall. intros r Hr%list_elem_of_In%elem_of_seqZ.
      replace (_ <=? _) with true by (symmetry; apply Z.leb_le; lia). lia.
Qed.

(** ** Witnesses *)

(** 64QAM with code rate 0.55 on one layer, 50 resource blocks. *)
Lemma tbs_code_blocks_witness :
  nr_compute_tbs 6 5670 50 12 12 0 0 1 = Ok 22032 /\ tbs_ok 22032 5670 2560.
Proof.
  split; [vm_compute; reflexivity|]. apply (tbs_code_blocks 6 5670 50 12 12 0 0 1 22032); try lia.
  vm_compute. reflexivity.
Defined.

Lemma find_nb_rb_least_witness :
  exists ok tbs nb_rb,
    nr_find_nb_rb 6 5670 1 12 12 1000 5 106 = Ok (ok, tbs, nb_rb) /\
    5 <= nb_rb <= 106 /\ tbs_bytes 6 5670 1 12 12 nb_rb = Ok tbs /\
    (ok = true <-> 1000 <= 5763) /\
    (ok = true -> 1000 <= tbs /\
       (1000 = tbs \/ forall k, 5 <= k < nb_rb -> exists tk, tbs_bytes 6 5670 1 12 12 k = Ok tk /\ tk < 1000)).
Proof. apply (find_nb_rb_least 6 5670 1 12 12 1000 5 106 5763); try lia. vm_compute. reflexivity. Defined.

Lemma get_E_shares_G_witness :
  exists E : Z -> Z,
    (forall r, 0 <= r < 7 -> nr_get_E 51840 7 6 2 r = Ok (E r) /\ (2 * 6 | E r) /\
       51840 / (2 * 6) / 7 * (2 * 6) <= E r <= 51840 / (2 * 6) / 7 * (2 * 6) + 2 * 6) /\
    sumZ E (seqZ 0 7) = 51840 - 51840 mod (2 * 6).
Proof. apply (get_E_shares_G 51840 7 6 2); lia. Defined.
