(* ===== verification/NrSegmentation.v ===== *)
(** Code block segmentation of NR transport blocks: [nr_segmentation.c], with the CRC and the base
    graph of the transport block as [nr_dlsch_encoding] ([nr_dlsch_coding.c]) chooses them, and the
    reassembly of the decoded code blocks ([nr_postDecode] of [phy_procedures_nr_gNB.c]).

    The tables of [crc_byte.c] are those of [crcTableInit].  A code rate is given in tenths of
    1/1024 like [targetCodeRate]: the comparisons of its [float] quotient with 0.25 and 0.6667 are
    comparisons of that integer with 2560 and 6827. *)

From S2P Require Import Prelude.
From S2P Require Import RlcPdu.
From S2P Require Import Gf2.
From S2P Require Import Crc.
From S2P Require Import NrTbs.

(** ** Segmentation *)

(** The size that the lifting size is rounded up to, in steps of 1, 2, 4, 8, 16 and 32. *)
Definition round_up (z k : Z) : Z :=
  let K := Z.shiftl (Z.shiftr z k) k in if K <? z then K + 2 ^ k else K.

Definition lifting_size (z : Z) : option Z :=
  if z <=? 2 then Some 2
  else if z <=? 16 then Some z
  else if z <=? 32 then Some (round_up z 1)
  else if z <=? 64 then Some (round_up z 2)
  else if z <=? 128 then Some (round_up z 3)
  else if z <=? 256 then Some (round_up z 4)
  else if z <=? 384 then Some (round_up z 5)
  else None.

(** The numbers of the segmentation. *)
Record seg_params := mk_seg_params {
  sp_L : Z;
  sp_C : Z;
  sp_Kprime : Z;
  sp_Kb : Z;
  sp_K : Z;
  sp_Z : Z;
  sp_F : Z
}.

Definition block_number (B Kcb : Z) : Z * Z :=
  if B <=? Kcb then (0, 1)
  else
    let L := 24 in
    let C := B / (Kcb - L) in
    (L, if (Kcb - L) * C <? B then C + 1 else C).

Definition info_columns (B BG : Z) : Z :=
  if BG =? 1 then 22 else if B >? 640 then 10 else if B >? 560 then 9 else if B >? 192 then 8 else 6.

Definition seg_numbers (B BG : Z) : option seg_params :=
  let Kcb := if BG =? 1 then 8448 else 3840 in
  let '(L, C) := block_number B Kcb in
  let Bprime := if B <=? Kcb then B else B + C * L in
  let Kprime := Bprime / C in
  let Kb := info_columns B BG in
  let z := if Kprime mod Kb >? 0 then Kprime / Kb + 1 else Kprime / Kb in
  match lifting_size z with
  | None => None
  | Some Zc =>
    let K := if BG =? 1 then Zc * 22 else Zc * 10 in
    Some (mk_seg_params L C Kprime Kb K Zc (K - Kprime))
  end.

(** [crc24b(...)>>8] as three bytes, most significant first. *)
Definition crc_bytes3 (crc : Z) : list Z := [Z.shiftr crc 16 mod 256; Z.shiftr crc 8 mod 256; crc mod 256].

(** One output buffer: the bytes copied from the input, the CRC, the filler bytes. *)
Definition fill_block (p : seg_params) (slice buf : list Z) : res (list Z) :=
  let n := Z.shiftr (sp_Kprime p - sp_L p) 3 in
  if (Z.of_nat (length slice) <? n) || (Z.of_nat (length buf) <? Z.max (Z.shiftr (sp_Kprime p) 3) (Z.shiftr (sp_K p) 3))
  then Fault OutOfBounds
  else
    let buf := buf_write buf 0 (take (Z.to_nat n) slice) in
    let* buf :=
      (if sp_C p >? 1 then
         let* crc := crc24b crcTableInit buf (sp_Kprime p - sp_L p) in
         Ok (buf_write buf (Z.to_nat n) (crc_bytes3 (Z.shiftr crc 8)))
       else Ok buf) in
    if sp_F p >? 0 then
      let from := Z.shiftr (sp_Kprime p) 3 in
      Ok (buf_write buf (Z.to_nat from) (replicate (Z.to_nat (Z.shiftr (sp_K p) 3 - from)) 0))
    else Ok buf.

(** The loop over the output buffers: [input] is what is left of the input buffer. *)
Fixpoint fill_blocks (p : seg_params) (input : list Z) (out : list (list Z)) : res (list (list Z)) :=
  match out with
  | [] => Ok []
  | buf :: tl =>
    let* c := fill_block p input buf in
    let* cs := fill_blocks p (drop (Z.to_nat (Z.shiftr (sp_Kprime p - sp_L p) 3)) input) tl in
    Ok (c :: cs)
  end.

(** [None] is the return value -1; the value [Kb] is in the numbers.  Without buffers only the
    numbers are computed. *)
Definition nr_segmentation (buffers : option (list Z * list (list Z))) (B BG : Z)
  : res (option (seg_params * list (list Z))) :=
  match seg_numbers B BG with
  | None => Ok None
  | Some p =>
    match buffers with
    | None => Ok (Some (p, []))
    | Some (input, out) =>
      if Z.of_nat (length out) <? sp_C p then Fault OutOfBounds
      else
        let* cs := fill_blocks p input (take (Z.to_nat (sp_C p)) out) in
        Ok (Some (p, cs ++ drop (Z.to_nat (sp_C p)) out))
    end
  end.

(** ** Transport blocks *)

Definition MAX_NUM_NR_DLSCH_SEGMENTS_PER_LAYER : Z := 36.

(** The payload [a] of [A] bits with its CRC, and the number of bits B; the copy into [harq->b]
    has to fit. *)
Definition attach_crc (a : list Z) (nrOfLayers : Z) : res (list Z * Z) :=
  let A := 8 * Z.of_nat (length a) in
  let max_bytes := MAX_NUM_NR_DLSCH_SEGMENTS_PER_LAYER * nrOfLayers * 1056 in
  if A >? 3824 then
    let* crc := crc24a crcTableInit a A in
    if A / 8 + 4 <=? max_bytes then Ok (a ++ crc_bytes3 (Z.shiftr crc 8), A + 24) else Exit
  else
    let* crc := crc16 crcTableInit a A in
    let crc := Z.shiftr crc 16 in
    if A / 8 + 3 <=? max_bytes then Ok (a ++ [Z.shiftr crc 8 mod 256; crc mod 256], A + 16) else Exit.

Definition select_BG (A R : Z) : Z :=
  if (A <=? 292) || ((A <=? 3824) && (R <=? 6827)) || (R <=? 2560) then 2 else 1.

(** The part of [nr_dlsch_encoding] up to the code blocks; [None] also when there are too many.
    [out] is [harq->c]. *)
Definition dlsch_segments (a : list Z) (R nrOfLayers : Z) (out : list (list Z)) : res (option (seg_params * list (list Z))) :=
  let* (b, B) := attach_crc a nrOfLayers in
  let* o := nr_segmentation (Some (b, out)) B (select_BG (8 * Z.of_nat (length a)) R) in
  match o with
  | Some (p, cs) => if sp_C p >? MAX_NUM_NR_DLSCH_SEGMENTS_PER_LAYER * nrOfLayers then Ok None else Ok (Some (p, cs))
  | None => Ok None
  end.

(** ** Reassembly *)

(** Bytes of a decoded code block that belong to the transport block. *)
Definition block_bytes (p : seg_params) : Z :=
  Z.shiftr (sp_K p) 3 - Z.shiftr (sp_F p) 3 - (if sp_C p >? 1 then 3 else 0).

(** The copies of [nr_postDecode] into [b], at the offsets of [nr_ulsch_decoding]. *)
Fixpoint reassemble (p : seg_params) (b : list Z) (offset : Z) (cs : list (list Z)) : list Z :=
  match cs with
  | [] => b
  | c :: tl =>
    reassemble p (buf_write b (Z.to_nat offset) (take (Z.to_nat (block_bytes p)) c)) (offset + block_bytes p) tl
  end.

(** ** CRCs that are attached *)

Lemma mod_byte x : is_word 8 (x mod 256).
Proof. unfold is_word. change (2 ^ 8) with 256. apply Z.mod_pos_bound. lia. Qed.

Lemma crc_bytes3_bits x : 0 <= x < 2 ^ 24 -> Z_of_bits (bytes_bits (crc_bytes3 x)) = x.
Proof.
  intros H. unfold crc_bytes3. rewrite !bytes_bits_cons. change (bytes_bits []) with (@nil bool).
  rewrite app_nil_r, !Z_of_bits_app, length_app, !length_bits_be, !Z_of_bits_small by apply mod_byte.
  change (2 ^ Z.of_nat (8 + 8)) with 65536. change (2 ^ Z.of_nat 8) with 256. rewrite !Z.shiftr_div_pow2 by lia.
  Z.div_mod_to_equations. lia.
Qed.

Lemma crc_bytes2_bits x : 0 <= x < 2 ^ 16 -> Z_of_bits (bytes_bits [Z.shiftr x 8 mod 256; x mod 256]) = x.
Proof.
  intros H. rewrite !bytes_bits_cons. change (bytes_bits []) with (@nil bool).
  rewrite app_nil_r, !Z_of_bits_app, !length_bits_be, !Z_of_bits_small by apply mod_byte.
  change (2 ^ Z.of_nat 8) with 256. rewrite !Z.shiftr_div_pow2 by lia. Z.div_mod_to_equations. lia.
Qed.

(** A message followed by the bytes of its CRC is accepted. *)
Lemma attached_accepted ty F msg c rest :
  0 <= ty <= 3 -> Forall (is_word 8) (msg ++ c ++ rest) -> Z.of_nat (length c) = crc_len ty ->
  Z_of_bits (bytes_bits c) = crc_spec (generator ty).1 (generator ty).2 (bytes_bits msg) ->
  check_crc crcTableInit (msg ++ c ++ rest) (8 * (Z.of_nat (length msg) + crc_len ty)) F ty = Ok true.
Proof.
  intros Hty Hb Hc Hz. assert (Hd : crc_len ty * 8 = (generator ty).1).
  { assert (Hcases : ty = 0 \/ ty = 1 \/ ty = 2 \/ ty = 3) by lia. destruct Hcases as [-> | [-> | [-> | ->]]]; reflexivity. }
  rewrite check_crc_residue by (done || (rewrite !length_app; lia)). do 2 f_equal. apply Z.eqb_eq.
  replace (take _ (bytes_bits (msg ++ c ++ rest))) with (bytes_bits msg ++ bytes_bits c).
  2: { rewrite !bytes_bits_app, app_assoc, take_app_length'; [done|]. rewrite length_app, !length_bytes_bits. lia. }
  pose proof (generator_ok ty) as Hg. destruct (generator ty) as [d g]. cbn [fst snd] in *.
  rewrite residue_app, Hz by (tauto || (rewrite ?length_bytes_bits; lia)). apply Z.lxor_nilpotent.
Qed.

(** The value of the routine at the top of its word. *)
Lemma routine_value ty msg rest :
  Forall (is_word 8) (msg ++ rest) ->
  let '(d, g) := generator ty in
  exists x, crc_routine crcTableInit ty (msg ++ rest) (8 * Z.of_nat (length msg)) = Ok x /\
    Z.shiftr x (32 - d) = crc_spec d g (bytes_bits msg) /\ is_word d (crc_spec d g (bytes_bits msg)).
Proof.
  intros Hb. pose proof (crc_routine_spec ty (msg ++ rest) (8 * Z.of_nat (length msg)) Hb) as Hr.
  pose proof (generator_ok ty) as Hg. destruct (generator ty) as [d g]. destruct Hg as (Hd & Hg & _).
  rewrite Hr by (rewrite length_app; lia). eexists. split; [done|].
  rewrite bytes_bits_app, take_app_length' by (rewrite length_bytes_bits; lia).
  rewrite Z.shiftr_shiftl_l, Z.sub_diag, Z.shiftl_0_r by lia. split; [done|]. apply crc_spec_word; [lia|done].
Qed.

(** ** The numbers of the segmentation *)

(** TS 38.212, table 5.3.2-1: the lifting sizes are a * 2^j up to 384. *)
Definition standard_sizes : list Z :=
  filter (fun z => z <= 384) (a ← [2; 3; 5; 7; 9; 11; 13; 15]; (fun j => a * 2 ^ j) <$> seqZ 0 8).

Lemma lifting_size_least z :
  1 <= z <= 384 ->
  exists c, lifting_size z = Some c /\ z <= c <= 384 /\ c ∈ standard_sizes /\ forall u, u ∈ standard_sizes -> z <= u -> c <= u.
Proof.
  intros Hz.
  assert (Hall : forallb (fun z => match lifting_size z with
      | Some c => (z <=? c) && (c <=? 384) && bool_decide (c ∈ standard_sizes) &&
                  forallb (fun u => negb (z <=? u) || (c <=? u)) standard_sizes
      | None => false end) (seqZ 1 384) = true) by (vm_compute; reflexivity).
  rewrite forallb_forall in Hall. specialize (Hall z). cbv beta in Hall.
  destruct (lifting_size z) as [c|]; [|discriminate Hall; apply list_elem_of_In, elem_of_seqZ; lia].
  exists c. split; [done|]. rewrite !andb_true_iff, !Z.leb_le, bool_decide_eq_true, forallb_forall in Hall.
  destruct Hall as (((H1 & H2) & H3) & H4); [apply list_elem_of_In, elem_of_seqZ; lia|].
  split; [lia|]. split; [done|]. intros u Hu Hle. apply list_elem_of_In, H4 in Hu.
  apply orb_true_iff in Hu as [Hu|Hu]; b2p; lia.
Qed.

Definition max_block (BG : Z) : Z := if BG =? 1 then 8448 else 3840.

Lemma block_number_spec B Kcb :
  24 < Kcb -> 0 < B ->
  let '(L, C) := block_number B Kcb in
  (B <= Kcb /\ L = 0 /\ C = 1) \/ (Kcb < B /\ L = 24 /\ 2 <= C /\ (Kcb - 24) * (C - 1) < B <= (Kcb - 24) * C).
Proof.
  intros HK HB. unfold block_number. destruct (Z.leb_spec B Kcb) as [Hle|Hgt]; [by left|right].
  pose proof (Z.mul_div_le B (Kcb - 24) ltac:(lia)) as H1. pose proof (Z.mul_succ_div_gt B (Kcb - 24) ltac:(lia)) as H2.
  assert (1 <= B / (Kcb - 24)) by (apply Z.div_le_lower_bound; lia). set (c := B / (Kcb - 24)) in *. clearbody c.
  destruct (Z.ltb_spec ((Kcb - 24) * c) B) as [Hlt|Hge]; (split; [done|]; split; [done|]).
  - split; [lia|]. split; [|lia]. replace (c + 1 - 1) with c by lia. done.
  - assert (c <> 1) by (intros ->; lia). split; [lia|]. nia.
Qed.

Lemma info_columns_range B BG : 6 <= info_columns B BG <= 22.
Proof. unfold info_columns. repeat destruct (_ =? _); repeat destruct (_ >? _); lia. Qed.

(** What a segmentation has. *)
Record seg_ok (B BG : Z) (p : seg_params) : Prop := mk_seg_ok {
  so_blocks : (B <= max_block BG /\ sp_L p = 0 /\ sp_C p = 1) \/
    (max_block BG < B /\ sp_L p = 24 /\ 2 <= sp_C p /\
     (max_block BG - 24) * (sp_C p - 1) < B <= (max_block BG - 24) * sp_C p);
  so_Kprime : sp_Kprime p = (B + sp_C p * sp_L p) / sp_C p;
  so_size : 0 < sp_Kprime p <= sp_K p;
  so_K : sp_K p <= max_block BG;
  so_F : sp_F p = sp_K p - sp_Kprime p;
  so_Z : sp_Z p ∈ standard_sizes
}.

Lemma ceil_div_spec a b : 0 < b -> 0 < a ->
  let z := if a mod b >? 0 then a / b + 1 else a / b in 1 <= z /\ a <= z * b /\ (z - 1) * b < a.
Proof.
  intros Hb Ha z. pose proof (Z.div_mod a b ltac:(lia)) as E. pose proof (Z.mod_pos_bound a b Hb) as Hm.
  assert (0 <= a / b) by (apply Z.div_pos; lia).
  subst z. destruct (Z.gtb_spec (a mod b) 0); nia.
Qed.

Lemma seg_numbers_spec B BG : 0 < B -> BG = 1 \/ BG = 2 -> exists p, seg_numbers B BG = Some p /\ seg_ok B BG p.
Proof.
  intros HB HBG. unfold seg_numbers. fold (max_block BG).
  assert (HK : 3840 <= max_block BG <= 8448) by (unfold max_block; destruct (BG =? 1); lia).
  pose proof (block_number_spec B (max_block BG) ltac:(lia) HB) as Hbn. destruct (block_number B (max_block BG)) as [L C].
  assert (EB : (if B <=? max_block BG then B else B + C * L) = B + C * L).
  { destruct (Z.leb_spec B (max_block BG)); [|done]. destruct Hbn as [(_ & -> & ->)|(? & _)]; lia. }
  rewrite EB. remember ((B + C * L) / C) as Kprime eqn:EK.
  assert (HKp : 0 < Kprime <= max_block BG /\ (max_block BG < B \/ Kprime = B)).
  { rewrite EK. destruct Hbn as [(Hle & -> & ->)|(Hgt & -> & HC & Hlo & Hhi)].
    - rewrite Z.div_1_r. lia.
    - split; [|by left]. split.
      + apply Z.lt_le_trans with 24; [lia|]. apply Z.div_le_lower_bound; nia.
      + apply Z.div_le_upper_bound; nia. }
  destruct (ceil_div_spec Kprime (info_columns B BG)) as (Hz1 & Hz2 & Hz3);
    [pose proof (info_columns_range B BG); lia|lia|].
  set (z := if Kprime mod info_columns B BG >? 0 then _ else _) in *. clearbody z.
  assert (Hz : z <= 384 /\ Kprime <= z * (if BG =? 1 then 22 else 10)).
  { unfold info_columns, max_block in *. destruct HBG as [-> | ->]; cbn [Z.eqb Pos.eqb] in *; [lia|].
    destruct (Z.gtb_spec B 640), (Z.gtb_spec B 560), (Z.gtb_spec B 192); lia. }
  destruct (lifting_size_least z) as (c & -> & Hc & Hin & _); [lia|]. eexists. split; [reflexivity|].
  split; cbn [sp_L sp_C sp_Kprime sp_K sp_F sp_Z]; [done|done| | |done|done]; unfold max_block in *; destruct (BG =? 1); lia.
Qed.

(** ** Blocks *)

Lemma buf_write_after pre rest src :
  buf_write (pre ++ rest) (length pre) src = pre ++ src ++ drop (length src) rest.
Proof.
  unfold buf_write. rewrite take_app_length. f_equal. f_equal. rewrite drop_app_ge by lia. f_equal. lia.
Qed.

(** The bytes of a block behind those of the transport block. *)
Definition block_tail (p : seg_params) (slice tl : list Z) : Prop :=
  if sp_C p >? 1 then length tl = 3%nat /\ Z_of_bits (bytes_bits tl) = crc_spec 24 0x800063 (bytes_bits slice)
  else tl = [].

Lemma block_crc p slice buf :
  Forall (is_word 8) (slice ++ buf) ->
  sp_Kprime p - sp_L p = 8 * Z.of_nat (length slice) -> (3 <= length buf)%nat \/ sp_C p <= 1 ->
  exists tl, Forall (is_word 8) tl /\ block_tail p slice tl /\
    (if sp_C p >? 1 then
       let* crc := crc24b crcTableInit (slice ++ buf) (sp_Kprime p - sp_L p) in
       Ok (buf_write (slice ++ buf) (length slice) (crc_bytes3 (Z.shiftr crc 8)))
     else Ok (slice ++ buf)) = Ok (slice ++ tl ++ drop (length tl) buf).
Proof.
  intros Hb HK Hlen. unfold block_tail. destruct (Z.gtb_spec (sp_C p) 1) as [HC|HC].
  - destruct (routine_value CRC24_B slice buf Hb) as (x & Ex & Es & Hw). rewrite HK.
    change (crc24b crcTableInit) with (crc_routine crcTableInit CRC24_B). rewrite Ex. cbn [rbind].
    change (32 - 24) with 8 in Es. rewrite Es. exists (crc_bytes3 (crc_spec 24 0x800063 (bytes_bits slice))).
    split; [repeat constructor; apply mod_byte|]. split; [split; [done|by apply crc_bytes3_bits]|].
    by rewrite buf_write_after.
  - exists []. split; [constructor|]. split; [done|]. by rewrite drop_0.
Qed.

Lemma shiftr3 n : Z.shiftr (8 * n) 3 = n.
Proof. rewrite Z.shiftr_div_pow2 by lia. change (2 ^ 3) with 8. rewrite Z.mul_comm. by apply Z.div_mul. Qed.

Lemma fill_block_spec B BG p n input buf :
  seg_ok B BG p -> sp_Kprime p - sp_L p = 8 * Z.of_nat n -> Forall (is_word 8) input -> Forall (is_word 8) buf ->
  (n <= length input)%nat -> (1056 <= length buf)%nat ->
  exists tl rest, fill_block p input buf = Ok (take n input ++ tl ++ rest) /\ Forall (is_word 8) (tl ++ rest) /\
    block_tail p (take n input) tl.
Proof.
  intros Hok HK Hin Hbuf Hn Hlen. pose proof (so_size _ _ _ Hok) as Hs. pose proof (so_K _ _ _ Hok) as HK8.
  assert (Hmax : max_block BG <= 8448) by (unfold max_block; destruct (_ =? _); lia).
  assert (HL : (sp_L p = 0 /\ sp_C p = 1) \/ (sp_L p = 24 /\ 2 <= sp_C p)) by (destruct (so_blocks _ _ _ Hok); lia).
  unfold fill_block. rewrite HK, shiftr3, Nat2Z.id.
  assert (Hk1 : Z.shiftr (sp_K p) 3 <= 1056) by (rewrite Z.shiftr_div_pow2 by lia; apply Z.div_le_upper_bound; lia).
  assert (Hk2 : Z.shiftr (sp_Kprime p) 3 <= 1056) by (rewrite Z.shiftr_div_pow2 by lia; apply Z.div_le_upper_bound; lia).
  replace (_ || _) with false by (symmetry; apply orb_false_iff; split; apply Z.ltb_ge; lia).
  rewrite buf_write_0. set (slice := take n input). assert (Hsl : length slice = n) by (unfold slice; rewrite length_take; lia).
  rewrite Hsl. assert (Hrest : Forall (is_word 8) (drop n buf)) by by apply Forall_drop.
  assert (Hslice : Forall (is_word 8) slice) by by apply Forall_take.
  destruct (block_crc p slice (drop n buf)) as (tl & Htl & Hbt & E);
    [by apply Forall_app|by rewrite Hsl|rewrite length_drop; lia|].
  rewrite Hsl, HK in E. rewrite E. cbn [rbind].
  assert (Hfrom : Z.to_nat (Z.shiftr (sp_Kprime p) 3) = length (slice ++ tl)).
  { rewrite length_app, Hsl. unfold block_tail in Hbt. destruct HL as [[HL HC]|[HL HC]], (Z.gtb_spec (sp_C p) 1); try lia.
    - rewrite Hbt. cbn [length]. replace (sp_Kprime p) with (8 * Z.of_nat n) by lia. rewrite shiftr3. lia.
    - destruct Hbt as [-> _]. replace (sp_Kprime p) with (8 * (Z.of_nat n + 3)) by lia. rewrite shiftr3. lia. }
  assert (Hr : Forall (is_word 8) (drop (length tl) (drop n buf))) by by apply Forall_drop.
  destruct (sp_F p >? 0).
  - rewrite Hfrom, app_assoc, buf_write_after, <- app_assoc. eexists tl, _. split; [done|]. split; [|done].
    apply Forall_app. split; [done|]. apply Forall_app. split; [|by apply Forall_drop].
    apply Forall_replicate. unfold is_word. lia.
  - eexists tl, _. split; [done|]. split; [by apply Forall_app|done].
Qed.

Fixpoint chunks (n m : nat) (l : list Z) : list (list Z) :=
  match m with
  | O => []
  | S m => take n l :: chunks n m (drop n l)
  end.

Lemma chunks_concat n m : forall l, concat (chunks n m l) = take (n * m) l.
Proof.
  induction m as [|m IH]; intros l; cbn [chunks concat]; [by rewrite Nat.mul_0_r|].
  rewrite IH, Nat.mul_succ_r, Nat.add_comm, take_take_drop. done.
Qed.

Lemma length_chunks n m : forall l, length (chunks n m l) = m.
Proof. induction m; intros l; cbn; auto. Qed.

Lemma chunks_lengths n m : forall l, (n * m <= length l)%nat -> Forall (fun s => length s = n) (chunks n m l).
Proof.
  induction m as [|m IH]; intros l H; cbn [chunks]; constructor; [rewrite length_take; lia|].
  apply IH. rewrite length_drop. lia.
Qed.

Definition block_of (p : seg_params) (slice c : list Z) : Prop :=
  exists tl rest, c = slice ++ tl ++ rest /\ Forall (is_word 8) (slice ++ tl ++ rest) /\ block_tail p slice tl.

Lemma fill_blocks_spec B BG p n out : forall input,
  seg_ok B BG p -> sp_Kprime p - sp_L p = 8 * Z.of_nat n -> Forall (is_word 8) input ->
  Forall (fun buf => Forall (is_word 8) buf /\ (1056 <= length buf)%nat) out -> (n * length out <= length input)%nat ->
  exists cs, fill_blocks p input out = Ok cs /\ Forall2 (block_of p) (chunks n (length out) input) cs.
Proof.
  induction out as [|buf out IH]; intros input Hok HK Hin Hout Hlen; [by exists []; split; [|constructor]|].
  apply list.Forall_cons in Hout as [[Hb1 Hb2] Hout]. cbn [length] in Hlen.
  destruct (fill_block_spec B BG p n input buf Hok HK Hin Hb1) as (tl & rest & E & Hw & Ht); [lia|done|].
  destruct (IH (drop n input) Hok HK) as (cs & Ecs & Hcs); [by apply Forall_drop|done|rewrite length_drop; lia|].
  eexists. cbn [fill_blocks chunks length]. rewrite E. cbn [rbind]. rewrite HK, shiftr3, Nat2Z.id, Ecs. cbn [rbind]. split; [done|].
  constructor; [|done]. exists tl, rest. split; [done|]. split; [|done]. apply Forall_app. split; [by apply Forall_take|done].
Qed.

Lemma block_bytes_eq B BG p n :
  seg_ok B BG p -> sp_Kprime p - sp_L p = 8 * Z.of_nat n -> block_bytes p = Z.of_nat n.
Proof.
  intros Hok HK. unfold block_bytes. rewrite (so_F _ _ _ Hok). pose proof (so_size _ _ _ Hok).
  rewrite !Z.shiftr_div_pow2 by lia. change (2 ^ 3) with 8.
  destruct (so_blocks _ _ _ Hok) as [(_ & HL & HC)|(_ & HL & HC & _)].
  - rewrite HC. cbn [Z.gtb Z.compare Pos.compare Pos.compare_cont]. Z.div_mod_to_equations. lia.
  - replace (sp_C p >? 1) with true by (symmetry; rewrite Z.gtb_ltb; apply Z.ltb_lt; lia). Z.div_mod_to_equations. lia.
Qed.

Lemma reassemble_spec p n slices cs :
  block_bytes p = Z.of_nat n -> Forall2 (block_of p) slices cs -> Forall (fun s => length s = n) slices ->
  forall b off, (off + n * length slices <= length b)%nat ->
  take (off + n * length slices) (reassemble p b (Z.of_nat off) cs) = take off b ++ concat slices.
Proof.
  intros Hbb. induction 1 as [|s c slices cs (tl & rest & -> & _ & _) _ IH]; intros Hlen b off Hb; cbn [reassemble concat length].
  - by rewrite app_nil_r, Nat.mul_0_r, Nat.add_0_r.
  - apply list.Forall_cons in Hlen as [Hs Hlen]. cbn [length] in Hb. rewrite Hbb, !Nat2Z.id.
    rewrite (take_app_length' s) by done.
    replace (Z.of_nat off + Z.of_nat n) with (Z.of_nat (off + n)) by lia.
    assert (Hw : length (buf_write b off s) = length b) by (unfold buf_write; rewrite !length_app, length_take, length_drop; lia).
    replace (off + n * S (length slices))%nat with (off + n + n * length slices)%nat by lia.
    rewrite (IH Hlen (buf_write b off s) (off + n)%nat) by lia. rewrite app_assoc. f_equal.
    unfold buf_write. rewrite app_assoc, take_app_length'; [done|]. rewrite length_app, length_take. lia.
Qed.

Lemma blocks_crc p n slices cs :
  1 < sp_C p -> sp_L p = 24 -> sp_Kprime p - sp_L p = 8 * Z.of_nat n ->
  Forall2 (block_of p) slices cs -> Forall (fun s => length s = n) slices ->
  Forall (fun c => check_crc crcTableInit c (sp_Kprime p) (sp_F p) CRC24_B = Ok true) cs.
Proof.
  intros HC HL HK. induction 1 as [|s c slices cs (tl & rest & -> & Hw & Ht) _ IH]; intros Hlen; constructor.
  - apply list.Forall_cons in Hlen as [Hs _]. unfold block_tail in Ht.
    replace (sp_C p >? 1) with true in Ht by (symmetry; rewrite Z.gtb_ltb; apply Z.ltb_lt; lia). destruct Ht as [Ht1 Ht2].
    replace (sp_Kprime p) with (8 * (Z.of_nat (length s) + crc_len CRC24_B)) by (change (crc_len CRC24_B) with 3; lia).
    apply attached_accepted; [unfold CRC24_B; lia|done|by rewrite Ht1|done].
  - apply list.Forall_cons in Hlen as [_ Hlen]. auto.
Qed.

(** Reassembly gives the input back, and the CRC of each block is accepted. *)
Lemma segmentation_reassembles B BG p input out :
  seg_numbers B BG = Some p -> seg_ok B BG p -> B mod (8 * sp_C p) = 0 -> 0 < B -> B <= 8 * Z.of_nat (length input) ->
  Forall (is_word 8) input -> Forall (fun buf => Forall (is_word 8) buf /\ (1056 <= length buf)%nat) out ->
  sp_C p <= Z.of_nat (length out) ->
  exists cs, nr_segmentation (Some (input, out)) B BG = Ok (Some (p, cs)) /\
    (forall b, B <= 8 * Z.of_nat (length b) ->
       take (Z.to_nat (B / 8)) (reassemble p b 0 (take (Z.to_nat (sp_C p)) cs)) = take (Z.to_nat (B / 8)) input) /\
    (1 < sp_C p -> Forall (fun c => check_crc crcTableInit c (sp_Kprime p) (sp_F p) CRC24_B = Ok true)
       (take (Z.to_nat (sp_C p)) cs)).
Proof.
  intros Hp Hok Hdiv HB Hin Hbytes Hout HC.
  assert (HC1 : 1 <= sp_C p) by (destruct (so_blocks _ _ _ Hok); lia).
  apply Z.mod_divide in Hdiv as [k Hk]; [|lia]. assert (Hk0 : 0 < k) by nia.
  set (m := Z.to_nat (sp_C p)). assert (Hm : Z.of_nat m = sp_C p) by lia. set (n := Z.to_nat k).
  assert (HK : sp_Kprime p - sp_L p = 8 * Z.of_nat n).
  { unfold n. rewrite (so_Kprime _ _ _ Hok), Hk, Z2Nat.id by lia.
    replace (k * (8 * sp_C p) + sp_C p * sp_L p) with ((8 * k + sp_L p) * sp_C p) by ring. rewrite Z.div_mul by lia. lia. }
  assert (HB8 : B / 8 = Z.of_nat (n * m)).
  { rewrite Hk. replace (k * (8 * sp_C p)) with (k * sp_C p * 8) by ring. rewrite Z.div_mul by lia. unfold n. lia. }
  assert (HBn : B = 8 * Z.of_nat (n * m)) by (rewrite <- HB8, Hk; Z.div_mod_to_equations; lia).
  assert (Hlen : length (take m out) = m) by (rewrite length_take; lia).
  destruct (fill_blocks_spec B BG p n (take m out) input Hok HK Hbytes) as (cs & Ecs & Hcs);
    [by apply Forall_take|rewrite Hlen; lia|].
  rewrite Hlen in Hcs. pose proof (Forall2_length Hcs) as Hcl. rewrite length_chunks in Hcl.
  pose proof (chunks_lengths n m input ltac:(lia)) as Hsl.
  exists (cs ++ drop m out). split.
  - unfold nr_segmentation. rewrite Hp. replace (_ <? _) with false by (symmetry; apply Z.ltb_ge; lia). fold m. by rewrite Ecs.
  - rewrite take_app_length' by done. split.
    + intros b Hb. rewrite HB8, Nat2Z.id, <- (chunks_concat n m input).
      pose proof (reassemble_spec p n _ _ (block_bytes_eq _ _ _ _ Hok HK) Hcs Hsl b 0) as Hr.
      rewrite length_chunks in Hr. apply Hr. lia.
    + intros HC2. assert (HL : sp_L p = 24) by (destruct (so_blocks _ _ _ Hok); lia). by eapply blocks_crc.
Qed.

(** ** Transport blocks *)

(** The CRC of a transport block. *)
Definition tb_crc (t : Z) : Z := if t >? 3824 then CRC24_A else CRC16.

Lemma attach_crc_spec a Nl :
  Forall (is_word 8) a -> Z.of_nat (length a) + 4 <= MAX_NUM_NR_DLSCH_SEGMENTS_PER_LAYER * Nl * 1056 ->
  let t := 8 * Z.of_nat (length a) in
  exists c, attach_crc a Nl = Ok (a ++ c, t + 8 * crc_len (tb_crc t)) /\ Forall (is_word 8) (a ++ c) /\
    Z.of_nat (length c) = crc_len (tb_crc t) /\
    forall F, check_crc crcTableInit (a ++ c) (t + 8 * crc_len (tb_crc t)) F (tb_crc t) = Ok true.
Proof.
  intros Ha Hfit t. assert (Ha' : Forall (is_word 8) (a ++ [])) by by rewrite app_nil_r.
  assert (Hacc : forall ty F c, 0 <= ty <= 3 -> Forall (is_word 8) (a ++ c) -> Z.of_nat (length c) = crc_len ty ->
    Z_of_bits (bytes_bits c) = crc_spec (generator ty).1 (generator ty).2 (bytes_bits a) ->
    check_crc crcTableInit (a ++ c) (t + 8 * crc_len ty) F ty = Ok true).
  { intros ty F c Hty Hb Hc Hz. replace (t + 8 * crc_len ty) with (8 * (Z.of_nat (length a) + crc_len ty)) by lia.
    pose proof (attached_accepted ty F a c [] Hty) as H. rewrite app_nil_r in H. auto. }
  unfold attach_crc, tb_crc. fold t.
  assert (Ht8 : t / 8 = Z.of_nat (length a)) by (unfold t; rewrite Z.mul_comm; apply Z.div_mul; lia). rewrite Ht8.
  destruct (t >? 3824).
  - destruct (routine_value CRC24_A a [] Ha') as (x & Ex & Es & Hw). rewrite app_nil_r in Ex.
    change (crc24a crcTableInit) with (crc_routine crcTableInit CRC24_A). unfold t at 1. rewrite Ex. cbn [rbind].
    replace (_ <=? _) with true by (symmetry; apply Z.leb_le; lia). change (32 - 24) with 8 in Es. rewrite Es. eexists. split; [done|].
    assert (Hb : Forall (is_word 8) (a ++ crc_bytes3 (crc_spec 24 0x864cfb (bytes_bits a))))
      by (apply Forall_app; split; [done|repeat constructor; apply mod_byte]).
    split; [done|]. split; [done|]. intros F. apply Hacc; [unfold CRC24_A; lia|done|done|by apply crc_bytes3_bits].
  - destruct (routine_value CRC16 a [] Ha') as (x & Ex & Es & Hw). rewrite app_nil_r in Ex.
    change (crc16 crcTableInit) with (crc_routine crcTableInit CRC16). unfold t at 1. rewrite Ex. cbn [rbind].
    replace (_ <=? _) with true by (symmetry; apply Z.leb_le; lia). change (32 - 16) with 16 in Es. rewrite Es. eexists. split; [done|].
    assert (Hb : Forall (is_word 8) (a ++ [Z.shiftr (crc_spec 16 0x1021 (bytes_bits a)) 8 mod 256; crc_spec 16 0x1021 (bytes_bits a) mod 256]))
      by (apply Forall_app; split; [done|repeat constructor; apply mod_byte]).
    split; [done|]. split; [done|]. intros F. apply Hacc; [unfold CRC16; lia|done|done|by apply crc_bytes2_bits].
Qed.

(** The number of blocks is determined by its bounds. *)
Lemma count_unique K B c c' : 0 < K -> K * (c - 1) < B <= K * c -> K * (c' - 1) < B <= K * c' -> c = c'.
Proof. intros HK H H'. assert (c - 1 < c') by nia. assert (c' - 1 < c) by nia. lia. Qed.

(** A transport block size of the standard divides evenly. *)
Lemma tbs_divides t R p :
  tbs_ok t R 2560 -> seg_ok (t + 8 * crc_len (tb_crc t)) (select_BG t R) p ->
  (t + 8 * crc_len (tb_crc t)) mod (8 * sp_C p) = 0.
Proof.
  intros (Hr & H8 & Hbig) Hok. pose proof (so_blocks _ _ _ Hok) as Hb. unfold tb_crc, select_BG in *.
  destruct (Z.gtb_spec t 3824) as [Ht|Ht].
  - change (8 * crc_len CRC24_A) with 24 in *. destruct (Hbig Ht) as (C & Hdiv & HC).
    replace (t <=? 292) with false in Hb by (symmetry; apply Z.leb_gt; lia).
    replace (t <=? 3824) with false in Hb by (symmetry; apply Z.leb_gt; lia). cbn [orb andb] in Hb.
    assert (EC : sp_C p = C); [|by rewrite EC].
    destruct (R <=? 2560); cbn [negb andb] in HC.
    + change (max_block 2) with 3840 in Hb. destruct Hb as [?|(_ & _ & _ & Hb)]; [lia|]. apply (count_unique 3816 (t + 24)); lia.
    + change (max_block 1) with 8448 in Hb. destruct (Z.leb_spec (t + 24) 8448); [destruct Hb; lia|].
      destruct Hb as [?|(_ & _ & _ & Hb)]; [lia|]. apply (count_unique 8424 (t + 24)); lia.
  - change (8 * crc_len CRC16) with 16 in *.
    assert (HC : sp_C p = 1) by (unfold max_block in Hb; destruct (_ =? 1); destruct Hb; lia).
    rewrite HC. clear - H8. Z.div_mod_to_equations. lia.
Qed.

Lemma select_BG_range t R : select_BG t R = 1 \/ select_BG t R = 2.
Proof. unfold select_BG. destruct (_ || _); auto. Qed.

(** C26. A transport block of a size that [nr_compute_tbs] gives, with its CRC, is cut into code
    blocks of the base graph chosen for its size and rate, within the limits of that graph, each
    with an own CRC that is accepted when there are several; reassembled as the receiver does it, the
    blocks are the transport block with its CRC, byte for byte. *)
Theorem transport_block_roundtrip (Qm R nb_rb nb_symb_sch nb_dmrs_prb nb_rb_oh tb_scaling Nl : Z) (a : list Z)
  (out : list (list Z)) :
  let t := 8 * Z.of_nat (length a) in
  let B := t + 8 * crc_len (tb_crc t) in
  0 <= Qm -> 0 <= R -> 0 <= Nl -> 0 <= tb_scaling -> 0 <= nb_rb <= 420 ->
  nr_compute_tbs Qm R nb_rb nb_symb_sch nb_dmrs_prb nb_rb_oh tb_scaling Nl = Ok t ->
  Forall (is_word 8) a -> Forall (fun buf => Forall (is_word 8) buf /\ (1056 <= length buf)%nat) out ->
  B / 3816 < MAX_NUM_NR_DLSCH_SEGMENTS_PER_LAYER * Nl <= Z.of_nat (length out) ->
  exists p cs, dlsch_segments a R Nl out = Ok (Some (p, cs)) /\ seg_ok B (select_BG t R) p /\
    (1 < sp_C p -> Forall (fun c => check_crc crcTableInit c (sp_Kprime p) (sp_F p) CRC24_B = Ok true)
       (take (Z.to_nat (sp_C p)) cs)) /\
    forall b, B <= 8 * Z.of_nat (length b) ->
      let tb := take (Z.to_nat (B / 8)) (reassemble p b 0 (take (Z.to_nat (sp_C p)) cs)) in
      take (length a) tb = a /\ check_crc crcTableInit tb B (sp_F p) (tb_crc t) = Ok true.
Proof.
  intros t B HQ HR HN Hs Hrb Ht Ha Hout Hnum.
  assert (Hok : tbs_ok t R 2560).
  { apply compute_spec in Ht as (_ & _ & H3 & E); [|done|done]. rewrite E.
    destruct (info_bits_mono Qm R nb_symb_sch nb_dmrs_prb nb_rb_oh tb_scaling Nl ltac:(done) nb_rb nb_rb ltac:(lia) H3).
    apply tbs_of_ok. lia. }
  unfold MAX_NUM_NR_DLSCH_SEGMENTS_PER_LAYER in Hnum. assert (HB0 : t + 16 <= B) by (unfold B, tb_crc; destruct (t >? 3824); cbn; lia).
  pose proof (Z.mul_succ_div_gt B 3816 ltac:(lia)).
  destruct (attach_crc_spec a Nl Ha) as (c & Ec & Hc & Hcl & Hacc); [unfold MAX_NUM_NR_DLSCH_SEGMENTS_PER_LAYER; lia|]. fold t in Ec, Hcl, Hacc. fold B in Ec, Hacc.
  assert (HB : 0 < B) by (destruct Hok; unfold B, tb_crc; destruct (t >? 3824); cbn; lia).
  destruct (seg_numbers_spec B (select_BG t R) HB (select_BG_range t R)) as (p & Ep & Hp).
  assert (HlB : B = 8 * Z.of_nat (length (a ++ c))) by (rewrite length_app; lia).
  assert (HC : sp_C p <= 36 * Nl).
  { assert (0 <= B / 3816) by (apply Z.div_pos; lia).
    assert (3840 <= max_block (select_BG t R)) by (unfold max_block; destruct (_ =? _); lia).
    destruct (so_blocks _ _ _ Hp) as [?|(_ & _ & _ & Hlo & _)]; [lia|]. nia. }
  destruct (segmentation_reassembles B (select_BG t R) p (a ++ c) out Ep Hp) as (cs & Es & Hre & Hcrc); [by apply (tbs_divides t R)|done|lia|done|done|lia|].
  exists p, cs. split.
  { unfold dlsch_segments. rewrite Ec. cbn [rbind]. fold t. rewrite Es. cbn [rbind]. unfold MAX_NUM_NR_DLSCH_SEGMENTS_PER_LAYER.
    by replace (_ >? _) with false by (symmetry; rewrite Z.gtb_ltb; apply Z.ltb_ge; lia). }
  split; [done|]. split; [done|].
  intros b Hb. cbv zeta. rewrite Hre by done.
  replace (Z.to_nat (B / 8)) with (length (a ++ c)) by (rewrite HlB, Z.mul_comm, Z.div_mul by lia; lia).
  rewrite firstn_all. split; [by rewrite take_app_length|]. apply Hacc.
Qed.

(** 2754 bytes in three code blocks of base graph 1. *)
Definition sample_tb : list Z := replicate 2754 7.
Definition sample_buffers : list (list Z) := replicate 36 (replicate 1056 0).

Lemma transport_block_roundtrip_witness :
  let t := 8 * Z.of_nat (length sample_tb) in
  exists p cs, dlsch_segments sample_tb 5670 1 sample_buffers = Ok (Some (p, cs)) /\
    seg_ok (t + 8 * crc_len (tb_crc t)) (select_BG t 5670) p.
Proof.
  destruct (transport_block_roundtrip 6 5670 50 12 12 0 0 1 sample_tb sample_buffers) as (p & cs & E & Hp & _);
    [lia..|vm_compute; reflexivity| | |by vm_compute|].
  - apply Forall_replicate. unfold is_word. lia.
  - apply Forall_replicate. split; [apply Forall_replicate; unfold is_word; lia|]. rewrite length_replicate. lia.
  - exists p, cs. split; [exact E|exact Hp].
Defined.
