(* ===== verification/NrRateMatching.v ===== *)
(** Rate matching of LDPC code blocks: [nr_rate_matching.c].

    The interleaver and its inverse, the selection of the coded bits that are sent and the
    accumulation of the soft values that are received.  Coded bits are numbers, with [NR_NULL]
    for a filler bit; the variant of the interleaver with vector instructions is not compiled
    ([#if 0]) and not modelled. *)

From S2P Require Import Prelude.

Definition NR_NULL : Z := 2.
Definition index_k0 : list (list Z) := [[0; 17; 33; 56]; [0; 13; 25; 43]].
Definition i16 (z : Z) : Z := (z + 2 ^ 15) mod 2 ^ 16 - 2 ^ 15.

(** ** Interleaving *)

(** Assignments to an array, in order. *)
Definition assign (ps : list (nat * Z)) (l : list Z) : list Z := fold_left (fun l p => <[fst p := snd p]> l) ps l.

(** The [switch] on the modulation order. *)
Definition known_order (Qm : Z) : bool := (Qm =? 2) || (Qm =? 4) || (Qm =? 6) || (Qm =? 8).

(** [fp[i] = ei[j]] for [fp = &f[j * Qm]] and [ei = e + i * EQm]. *)
Definition interleave_writes (EQm Qm : nat) (e : list Z) : list (nat * Z) :=
  j ← seq 0 EQm; (fun i => ((j * Qm + i)%nat, buf_get e (Z.of_nat (i * EQm + j)))) <$> seq 0 Qm.

(** [*ei++ = *f++] *)
Definition deinterleave_writes (EQm Qm : nat) (f : list Z) : list (nat * Z) :=
  j ← seq 0 EQm; (fun i => ((i * EQm + j)%nat, buf_get f (Z.of_nat (j * Qm + i)))) <$> seq 0 Qm.

(** [f] has room for [E] values. *)
Definition nr_interleaving_ldpc (E Qm : Z) (e f : list Z) : res (list Z) :=
  if Qm =? 0 then Fault Inconsistent
  else if (Z.of_nat (length e) <? E) || (Z.of_nat (length f) <? E) then Fault OutOfBounds
  else
    let EQm := E / Qm in
    let f := buf_write f 0 (replicate (Z.to_nat E) 0) in
    if known_order Qm then Ok (assign (interleave_writes (Z.to_nat EQm) (Z.to_nat Qm) e) f) else Exit.

Definition nr_deinterleaving_ldpc (E Qm : Z) (e f : list Z) : res (list Z) :=
  if known_order Qm then
    if negb (E mod Qm =? 0) then Exit
    else if (Z.of_nat (length e) <? E) || (Z.of_nat (length f) <? E) then Fault OutOfBounds
    else Ok (assign (deinterleave_writes (Z.to_nat (E / Qm)) (Z.to_nat Qm) f) e)
  else Exit.

(** ** Selection of coded bits *)

(** The size of the circular buffer and the first position. *)
Definition circular_buffer (Tbslbrm BG Zc C rvidx : Z) : res (Z * Z) :=
  let N := if BG =? 1 then 66 * Zc else 50 * Zc in
  let Ncb := if Tbslbrm =? 0 then N else Z.min N (u32 (3 * Tbslbrm) / (2 * C)) in
  match index_k0 !! Z.to_nat (BG - 1) ≫= (fun row => row !! Z.to_nat rvidx) with
  | None => Fault OutOfBounds
  | Some k => if N =? 0 then Fault Inconsistent else Ok (Ncb, u32 (u32 (k * Ncb) / N * Zc))
  end.

(** [memcpy(e + k, w + from, n)], the size being unsigned. *)
Definition slice (w : list Z) (from n : Z) : res (list Z) :=
  if from + u32 n <=? Z.of_nat (length w) then Ok (take (Z.to_nat (u32 n)) (drop (Z.to_nat from) w)) else Fault OutOfBounds.

(** The bits up to the end of the circular buffer. *)
Definition first_turn (w : list Z) (Ncb F Foffset ind E : Z) : res (list Z) :=
  let ind := if (ind >=? Foffset) && (ind <? F + Foffset) then F + Foffset else ind in
  if ind <? Foffset then
    let* before := slice w ind (Foffset - ind) in
    let* after :=
      (if E + F <=? u32 (Ncb - ind) then slice w (Foffset + F) (E - Foffset + ind)
       else slice w (Foffset + F) (Ncb - Foffset - F)) in
    Ok (before ++ after)
  else if E <=? u32 (Ncb - ind) then slice w ind E
  else slice w ind (Ncb - ind).

(** One turn of the loop of repetitions: the bits of [l] that are not filler bits, as long as
    [room] are missing. *)
Fixpoint repeat_turn (l : list Z) (room : nat) : list Z :=
  match l, room with
  | x :: tl, S r => if negb (x =? NR_NULL) then x :: repeat_turn tl r else repeat_turn tl room
  | _, _ => []
  end.

Fixpoint repetitions (fuel : nat) (l : list Z) (room : nat) : res (list Z) :=
  match room, fuel with
  | O, _ => Ok []
  | S _, O => Fault FuelExhausted
  | S _, S fuel =>
    let t := repeat_turn l room in
    let* rest := repetitions fuel l (room - length t) in
    Ok (t ++ rest)
  end.

(** The bits written to [e]; [None] is the return value -1. *)
Definition nr_rate_matching_ldpc (Tbslbrm BG Zc : Z) (w : list Z) (C F Foffset rvidx E : Z) : res (option (list Z)) :=
  if C =? 0 then Ok None
  else
    let* (Ncb, ind) := circular_buffer Tbslbrm BG Zc C rvidx in
    if Foffset >? E then Ok None
    else if Foffset >? Ncb then Ok None
    else
      let* e := first_turn w Ncb F Foffset ind E in
      let* more := repetitions (Z.to_nat E) (take (Z.to_nat Ncb) w) (Z.to_nat E - length e) in
      Ok (Some (e ++ more)).

(** ** Accumulation of soft values *)

(** The loop from position [from] over [n] positions: the values that are left. *)
Fixpoint accumulate (from n : nat) (w s : list Z) : list Z * list Z :=
  match n, s with
  | S n, x :: s => accumulate (S from) n (<[from := i16 (buf_get w (Z.of_nat from) + x)]> w) s
  | _, _ => (w, s)
  end.

(** The positions from [ind] on; [Foffset + F] follows the position before [Foffset]. *)
Definition first_turn_rx (w s : list Z) (Ncb F Foffset ind : Z) : list Z * list Z :=
  let '(w, s) := accumulate (Z.to_nat ind) (Z.to_nat (Foffset - ind)) w s in
  let ind := Z.max ind Foffset in
  let ind := if ind <? Foffset + F then Foffset + F else ind in
  accumulate (Z.to_nat ind) (Z.to_nat (Ncb - ind)) w s.

Fixpoint repetitions_rx (fuel : nat) (w s : list Z) (Ncb F Foffset : Z) : res (list Z) :=
  match s, fuel with
  | [], _ => Ok w
  | _ :: _, O => Fault FuelExhausted
  | _ :: _, S fuel =>
    let '(w, s) := accumulate 0 (Z.to_nat Foffset) w s in
    let '(w, s) := accumulate (Z.to_nat (Foffset + F)) (Z.to_nat (Ncb - (Foffset + F))) w s in
    repetitions_rx fuel w s Ncb F Foffset
  end.

(** The accumulated values; [None] is the return value -1. *)
Definition nr_rate_matching_ldpc_rx (Tbslbrm BG Zc : Z) (w soft_input : list Z) (C rvidx : Z) (clear : bool) (E F Foffset : Z)
  : res (option (list Z)) :=
  if C =? 0 then Ok None
  else
    let* (Ncb, ind) := circular_buffer Tbslbrm BG Zc C rvidx in
    if Foffset >? E then Ok None
    else if Foffset >? Ncb then Ok None
    else if (Z.of_nat (length w) <? Ncb) || (Z.of_nat (length soft_input) <? E) then Fault OutOfBounds
    else
      let w := if clear then buf_write w 0 (replicate (Z.to_nat Ncb) 0) else w in
      let s := take (Z.to_nat E) soft_input in
      let '(w, s) := first_turn_rx w s Ncb F Foffset ind in
      let* w := repetitions_rx (Z.to_nat E) w s Ncb F Foffset in
      Ok (Some w).

(** ** Lemmas: assignments *)

Lemma assign_length ps : forall l, length (assign ps l) = length l.
Proof. induction ps as [|p ps IH]; intros l; cbn; [done|]. rewrite IH. apply length_insert. Qed.

(** When the assignments to an index agree, the array has their value there. *)
Lemma assign_lookup ps : forall l k x,
  (forall y, (k, y) ∈ ps -> y = x) -> (k, x) ∈ ps \/ l !! k = Some x -> (k < length l)%nat -> assign ps l !! k = Some x.
Proof.
  induction ps as [|[i y] ps IH]; intros l k x Hfun Hin Hlt; cbn.
  - destruct Hin as [Hin|Hin]; [by apply not_elem_of_nil in Hin|done].
  - apply IH; [intros z Hz; apply Hfun; by right| |by rewrite length_insert].
    destruct (decide (i = k)) as [->|Hne].
    + right. rewrite list_lookup_insert_eq by done. f_equal. apply Hfun. by left.
    + rewrite list_lookup_insert_ne by done. destruct Hin as [[[= -> ->]|Hin]%elem_of_cons|Hin]; [done|by left|by right].
Qed.

Lemma interleave_writes_elem n Q e k x :
  (k, x) ∈ interleave_writes n Q e <->
  exists i j, (i < Q)%nat /\ (j < n)%nat /\ k = (j * Q + i)%nat /\ x = buf_get e (Z.of_nat (i * n + j)).
Proof.
  unfold interleave_writes. rewrite list_elem_of_bind. split.
  - intros (j & Hk & Hj). apply list_elem_of_fmap in Hk as (i & [= -> ->] & Hi). rewrite elem_of_seq in Hi, Hj.
    exists i, j. split; [lia|]. split; [lia|]. done.
  - intros (i & j & Hi & Hj & -> & ->). exists j. split; [|rewrite elem_of_seq; lia].
    apply list_elem_of_fmap. exists i. split; [done|]. rewrite elem_of_seq. lia.
Qed.

Lemma deinterleave_writes_elem n Q f k x :
  (k, x) ∈ deinterleave_writes n Q f <->
  exists i j, (i < Q)%nat /\ (j < n)%nat /\ k = (i * n + j)%nat /\ x = buf_get f (Z.of_nat (j * Q + i)).
Proof.
  unfold deinterleave_writes. rewrite list_elem_of_bind. split.
  - intros (j & Hk & Hj). apply list_elem_of_fmap in Hk as (i & [= -> ->] & Hi). rewrite elem_of_seq in Hi, Hj.
    exists i, j. split; [lia|]. split; [lia|]. done.
  - intros (i & j & Hi & Hj & -> & ->). exists j. split; [|rewrite elem_of_seq; lia].
    apply list_elem_of_fmap. exists i. split; [done|]. rewrite elem_of_seq. lia.
Qed.

(** Two digits determine a number and are determined by it. *)
Lemma digits_inj b i j i' j' : (i < b)%nat -> (i' < b)%nat -> (j * b + i = j' * b + i')%nat -> i = i' /\ j = j'.
Proof. intros. assert (j = j') by nia. split; nia. Qed.

Lemma interleave_at n Q e f i j :
  (i < Q)%nat -> (j < n)%nat -> (n * Q <= length f)%nat ->
  assign (interleave_writes n Q e) f !! (j * Q + i)%nat = Some (buf_get e (Z.of_nat (i * n + j))).
Proof.
  intros Hi Hj Hlen. apply assign_lookup; [| |nia].
  - intros y (i' & j' & Hi' & Hj' & E & ->)%interleave_writes_elem. apply digits_inj in E as [-> ->]; done.
  - left. apply interleave_writes_elem. eauto 6.
Qed.

Lemma deinterleave_at n Q f e i j :
  (i < Q)%nat -> (j < n)%nat -> (n * Q <= length e)%nat ->
  assign (deinterleave_writes n Q f) e !! (i * n + j)%nat = Some (buf_get f (Z.of_nat (j * Q + i))).
Proof.
  intros Hi Hj Hlen. apply assign_lookup; [| |nia].
  - intros y (i' & j' & Hi' & Hj' & E & ->)%deinterleave_writes_elem. apply digits_inj in E as [-> ->]; done.
  - left. apply deinterleave_writes_elem. eauto 6.
Qed.

(** Deinterleaving undoes interleaving, for every modulation order and every number of bits
    that is a multiple of it, also when each bit has become a soft value on the way; neither
    routine writes outside its E values. *)
Theorem interleaving_roundtrip (E Qm : Z) (e f : list Z) (g : Z -> Z) :
  Qm ∈ [2; 4; 6; 8] -> 0 <= E -> E mod Qm = 0 -> E <= Z.of_nat (length e) -> E <= Z.of_nat (length f) ->
  exists f', nr_interleaving_ldpc E Qm e f = Ok f' /\ length f' = length f /\
    forall e0, E <= Z.of_nat (length e0) ->
      exists e', nr_deinterleaving_ldpc E Qm e0 (g <$> f') = Ok e' /\ length e' = length e0 /\
        take (Z.to_nat E) e' = g <$> take (Z.to_nat E) e.
Proof.
  intros HQ HE Hdiv He Hf.
  assert (HQ' : known_order Qm = true /\ 0 < Qm).
  { repeat (apply elem_of_cons in HQ as [->|HQ]; [done|]). by apply not_elem_of_nil in HQ. }
  destruct HQ' as [Hk HQ0]. apply Z.mod_divide in Hdiv as [k Ek]; [|lia].
  assert (HEk : E / Qm = k) by (rewrite Ek; apply Z.div_mul; lia). assert (Hk0 : 0 <= k) by nia.
  set (n := Z.to_nat k). set (Q := Z.to_nat Qm). assert (HnQ : Z.to_nat E = (n * Q)%nat) by (rewrite Ek, Z2Nat.inj_mul by lia; done).
  unfold nr_interleaving_ldpc. replace (Qm =? 0) with false by (symmetry; apply Z.eqb_neq; lia).
  replace (_ || _) with false by (symmetry; apply orb_false_iff; split; apply Z.ltb_ge; lia). rewrite Hk, HEk. fold n Q.
  assert (Hlf : length (buf_write f 0 (replicate (Z.to_nat E) 0)) = length f).
  { unfold buf_write. rewrite !length_app, length_take, length_drop, length_replicate. lia. }
  eexists. split; [done|]. rewrite assign_length, Hlf. split; [done|]. intros e0 He0.
  unfold nr_deinterleaving_ldpc. rewrite Hk, HEk. replace (E mod Qm =? 0) with true by (symmetry; apply Z.eqb_eq; rewrite Ek; by apply Z.mod_mul; lia).
  cbn [negb]. rewrite length_fmap, assign_length, Hlf.
  replace (_ || _) with false by (symmetry; apply orb_false_iff; split; apply Z.ltb_ge; lia). fold n Q.
  eexists. split; [done|]. rewrite assign_length. split; [done|]. apply list_eq. intros q.
  rewrite list_lookup_fmap. destruct (decide (q < n * Q)%nat) as [Hq|Hq].
  - rewrite !lookup_take_lt by lia. assert (Hn : (0 < n)%nat) by nia.
    pose proof (Nat.div_mod q n ltac:(lia)) as Eq. pose proof (Nat.mod_upper_bound q n ltac:(lia)) as Hm.
    assert (Hd : (q / n < Q)%nat) by (apply Nat.Div0.div_lt_upper_bound; lia).
    replace q with (q / n * n + q mod n)%nat at 1 by lia. rewrite deinterleave_at by (done || lia).
    unfold buf_get at 1. rewrite list_lookup_fmap, Nat2Z.id, interleave_at by (done || lia). cbn [fmap option_fmap option_map default from_option id].
    replace (q / n * n + q mod n)%nat with q by lia. unfold buf_get. rewrite Nat2Z.id.
    destruct (lookup_lt_is_Some_2 e q) as [x ->]; [lia|]. done.
  - rewrite !lookup_take_ge by lia. done.
Qed.

Lemma interleaving_roundtrip_witness :
  exists f', nr_interleaving_ldpc 8 4 [1; 2; 3; 4; 5; 6; 7; 8; 9] (replicate 10 99) = Ok f' /\ f' = [1; 3; 5; 7; 2; 4; 6; 8; 99; 99] /\
    exists e', nr_deinterleaving_ldpc 8 4 (replicate 9 0) (Z.opp <$> f') = Ok e' /\ take 8 e' = [-1; -2; -3; -4; -5; -6; -7; -8].
Proof.
  destruct (interleaving_roundtrip 8 4 [1; 2; 3; 4; 5; 6; 7; 8; 9] (replicate 10 99) Z.opp) as (f' & Hf & _ & H);
    [set_solver|lia|done|cbn; lia|cbn; lia|].
  exists f'. split; [done|]. split; [vm_compute in Hf; by injection Hf|].
  destruct (H (replicate 9 0)) as (e' & He & _ & Ht); [cbn; lia|]. exists e'. done.
Defined.

(** ** Positions of the circular buffer *)

Definition at_pos (w : list Z) (p : nat) : Z := buf_get w (Z.of_nat p).

(** The positions that hold coded bits, and those from [ind] on. *)
Definition kept (Ncb F Foffset : nat) : list nat := seq 0 Foffset ++ seq (Foffset + F) (Ncb - (Foffset + F)).

Definition turn_from (Ncb F Foffset ind : nat) : list nat :=
  if decide (ind < Foffset)%nat then seq ind (Foffset - ind) ++ seq (Foffset + F) (Ncb - (Foffset + F))
  else seq (ind `max` (Foffset + F)) (Ncb - ind `max` (Foffset + F)).

(** The positions of the bits that are sent, in order: from [ind] to the end of the buffer, then
    the whole buffer again and again. *)
Definition positions (Ncb F Foffset ind E : nat) : list nat :=
  take E (turn_from Ncb F Foffset ind ++ concat (replicate E (kept Ncb F Foffset))).

Lemma take_drop_at (w : list Z) from : forall n,
  (from + n <= length w)%nat -> take n (drop from w) = at_pos w <$> seq from n.
Proof.
  intros n. revert from. induction n as [|n IH]; intros from H; [done|].
  destruct (lookup_lt_is_Some_2 w from) as [x Hx]; [lia|]. rewrite (drop_S _ _ _ Hx). cbn [take seq fmap list_fmap].
  rewrite IH by lia. f_equal. unfold at_pos, buf_get. by rewrite Nat2Z.id, Hx.
Qed.

Lemma slice_at w from n :
  0 <= from -> 0 <= n < 2 ^ 32 -> from + n <= Z.of_nat (length w) ->
  slice w from n = Ok (at_pos w <$> seq (Z.to_nat from) (Z.to_nat n)).
Proof.
  intros Hf Hn Hl. unfold slice. rewrite u32_small by done.
  replace (_ <=? _) with true by (symmetry; apply Z.leb_le; lia). by rewrite take_drop_at by lia.
Qed.

(** The parameters of a call that is not refused. *)
Record selection_ok (w : list Z) (Ncb F Foffset ind E : Z) : Prop := mk_selection_ok {
  sel_nonneg : 0 <= F /\ 0 <= Foffset /\ 0 <= ind;
  sel_E : Foffset <= E /\ E + F < 2 ^ 31;
  sel_Ncb : Foffset + F <= Ncb < 2 ^ 31 /\ ind < Ncb /\ Ncb <= Z.of_nat (length w);
  sel_bits : F < Ncb
}.

Lemma take_seq n a b : (n <= b)%nat -> take n (seq a b) = seq a n.
Proof. revert a b. induction n as [|n IH]; intros a [|b] H; cbn; [done|done|lia|]. f_equal. apply IH. lia. Qed.

Lemma first_turn_at w Ncb F Foffset ind E :
  selection_ok w Ncb F Foffset ind E ->
  first_turn w Ncb F Foffset ind E =
  Ok (at_pos w <$> take (Z.to_nat E) (turn_from (Z.to_nat Ncb) (Z.to_nat F) (Z.to_nat Foffset) (Z.to_nat ind))).
Proof.
  intros [(HF & HFo & Hi) (HE & HEF) (HN & Hind & Hw) _]. unfold first_turn, turn_from.
  destruct (decide (Z.to_nat ind < Z.to_nat Foffset)%nat) as [Hlt|Hge].
  - replace ((ind >=? Foffset) && _) with false by (symmetry; apply andb_false_iff; left; rewrite Z.geb_leb; apply Z.leb_gt; lia).
    replace (ind <? Foffset) with true by (symmetry; apply Z.ltb_lt; lia). rewrite slice_at by lia. cbn [rbind].
    rewrite u32_small by lia. rewrite take_app, fmap_app, length_seq, (take_ge (seq _ _)) by (rewrite length_seq; lia).
    replace (Z.to_nat (Foffset - ind)) with (Z.to_nat Foffset - Z.to_nat ind)%nat by lia.
    destruct (Z.leb_spec (E + F) (Ncb - ind)) as [Hle|Hgt]; rewrite slice_at by lia; cbn [rbind]; do 2 f_equal; f_equal.
    + rewrite take_seq by lia. f_equal; lia.
    + rewrite take_ge by (rewrite length_seq; lia). f_equal; lia.
  - set (ind' := if (ind >=? Foffset) && (ind <? F + Foffset) then F + Foffset else ind).
    assert (Hi' : ind' = Z.max ind (Foffset + F)).
    { unfold ind'. rewrite Z.geb_leb. replace (Foffset <=? ind) with true by (symmetry; apply Z.leb_le; lia). cbn [andb].
      destruct (Z.ltb_spec ind (F + Foffset)); lia. }
    rewrite Hi'. replace (_ <? Foffset) with false by (symmetry; apply Z.ltb_ge; lia). rewrite u32_small by lia.
    replace (Z.to_nat ind `max` (Z.to_nat Foffset + Z.to_nat F))%nat with (Z.to_nat (Z.max ind (Foffset + F))) by lia.
    destruct (Z.leb_spec E (Ncb - Z.max ind (Foffset + F))) as [Hle|Hgt]; rewrite slice_at by lia; do 2 f_equal.
    + rewrite take_seq by lia. done.
    + rewrite take_ge by (rewrite length_seq; lia). f_equal; lia.
Qed.

(** ** Repetitions *)

Definition coded (x : Z) : Prop := x <> NR_NULL.
#[export] Instance coded_dec x : Decision (coded x) := _.

Lemma repeat_turn_filter l : forall room, repeat_turn l room = take room (filter coded l).
Proof.
  induction l as [|x l IH]; intros room; cbn [repeat_turn]; [by rewrite list.filter_nil, take_nil|].
  destruct room as [|r]; [done|]. rewrite list.filter_cons. unfold coded at 1.
  destruct (Z.eqb_spec x NR_NULL) as [->|Hx]; cbn [negb].
  - rewrite decide_False by auto. apply IH.
  - rewrite decide_True by done. cbn [take]. by rewrite IH.
Qed.

Lemma repetitions_spec l kv : filter coded l = kv -> kv <> [] -> forall fuel room,
  (room <= fuel)%nat -> repetitions fuel l room = Ok (take room (concat (replicate fuel kv))).
Proof.
  intros Hkv Hne. induction fuel as [|fuel IH]; intros room H; [by replace room with 0%nat by lia|].
  destruct room as [|r]; [done|]. cbn [repetitions]. rewrite repeat_turn_filter, Hkv, length_take.
  assert (0 < length kv)%nat by (destruct kv; [done|cbn; lia]). rewrite IH by lia. cbn [rbind replicate concat]. f_equal.
  rewrite take_app. do 2 f_equal. lia.
Qed.

(** The coded bits of the circular buffer: filler bits are exactly those from [Foffset] on. *)
Definition fillers_at (w : list Z) (Ncb F Foffset : Z) : Prop :=
  exists a b, take (Z.to_nat Ncb) w = a ++ replicate (Z.to_nat F) NR_NULL ++ b /\
    length a = Z.to_nat Foffset /\ Forall coded a /\ Forall coded b.

Lemma kept_coded w Ncb F Foffset ind E :
  selection_ok w Ncb F Foffset ind E -> fillers_at w Ncb F Foffset ->
  filter coded (take (Z.to_nat Ncb) w) = at_pos w <$> kept (Z.to_nat Ncb) (Z.to_nat F) (Z.to_nat Foffset).
Proof.
  intros Hok (a & b & E1 & Ha & Hca & Hcb). pose proof (sel_Ncb _ _ _ _ _ _ Hok) as (HN & _ & Hw).
  pose proof (sel_nonneg _ _ _ _ _ _ Hok) as (HF & HFo & _).
  rewrite E1, !list.filter_app, (filter_all coded a), (filter_all coded b), (filter_none coded (replicate _ _)) by
    (done || (apply Forall_replicate; unfold coded; auto)).
  cbn [app]. unfold kept. rewrite fmap_app, <- !take_drop_at by lia. rewrite drop_0.
  assert (Hl : length (take (Z.to_nat Ncb) w) = (length a + (Z.to_nat F + length b))%nat)
    by (rewrite E1, !length_app, length_replicate; done).
  rewrite length_take in Hl.
  assert (Ew : w = a ++ replicate (Z.to_nat F) NR_NULL ++ b ++ drop (Z.to_nat Ncb) w).
  { rewrite <- (take_drop (Z.to_nat Ncb) w) at 1. rewrite E1, <- !app_assoc. done. }
  f_equal.
  - rewrite Ew, take_app_length' by done. done.
  - rewrite Ew, app_assoc, drop_app_length' by (rewrite length_app, length_replicate; lia).
    rewrite take_app_length' by lia. done.
Qed.

(** ** Sending *)

Lemma rate_matching_at w Ncb F Foffset ind E :
  selection_ok w Ncb F Foffset ind E -> fillers_at w Ncb F Foffset ->
  (let* e := first_turn w Ncb F Foffset ind E in
   let* more := repetitions (Z.to_nat E) (take (Z.to_nat Ncb) w) (Z.to_nat E - length e) in
   Ok (Some (e ++ more))) =
  Ok (Some (at_pos w <$> positions (Z.to_nat Ncb) (Z.to_nat F) (Z.to_nat Foffset) (Z.to_nat ind) (Z.to_nat E))).
Proof.
  intros Hok Hfill. rewrite first_turn_at by done. cbn [rbind].
  rewrite (repetitions_spec _ _ (kept_coded _ _ _ _ _ _ Hok Hfill)).
  - cbn [rbind]. do 2 f_equal. unfold positions. rewrite take_app, fmap_app. f_equal.
    rewrite length_fmap, length_take, fmap_take. f_equal; [lia|]. generalize (Z.to_nat E). intros n.
    induction n as [|n IH]; cbn [replicate concat]; [done|]. by rewrite fmap_app, IH.
  - pose proof (sel_bits _ _ _ _ _ _ Hok). pose proof (sel_nonneg _ _ _ _ _ _ Hok).
    intros Hnil%(f_equal length). rewrite length_fmap in Hnil. unfold kept in Hnil. rewrite length_app, !length_seq in Hnil. cbn in Hnil. lia.
  - rewrite length_fmap. lia.
Qed.

(** ** Receiving *)

(** Accumulation along a list of positions. *)
Fixpoint acc_at (ps : list nat) (w s : list Z) : list Z * list Z :=
  match ps, s with
  | p :: ps, x :: s => acc_at ps (<[p := i16 (at_pos w p + x)]> w) s
  | _, _ => (w, s)
  end.

Lemma accumulate_at n : forall from w s, accumulate from n w s = acc_at (seq from n) w s.
Proof. induction n as [|n IH]; intros from w [|x s]; cbn [accumulate acc_at seq]; first [done | apply IH]. Qed.

Lemma acc_at_app ps qs : forall w s, acc_at (ps ++ qs) w s = let '(w, s) := acc_at ps w s in acc_at qs w s.
Proof.
  induction ps as [|p ps IH]; intros w s; [done|]. destruct s as [|x s]; cbn [acc_at app].
  - by destruct qs.
  - apply IH.
Qed.

Lemma acc_at_nil ps w : acc_at ps w [] = (w, []).
Proof. by destruct ps. Qed.

Lemma acc_at_left ps : forall w s, length (snd (acc_at ps w s)) = (length s - length ps)%nat.
Proof. induction ps as [|p ps IH]; intros w [|x s]; cbn [acc_at snd length]; first [done | apply IH]. Qed.

Lemma first_turn_rx_at w0 w s Ncb F Foffset ind E :
  selection_ok w0 Ncb F Foffset ind E ->
  first_turn_rx w s Ncb F Foffset ind =
  acc_at (turn_from (Z.to_nat Ncb) (Z.to_nat F) (Z.to_nat Foffset) (Z.to_nat ind)) w s.
Proof.
  intros [(HF & HFo & Hi) _ (HN & Hind & _) _]. unfold first_turn_rx, turn_from. rewrite accumulate_at.
  destruct (decide (Z.to_nat ind < Z.to_nat Foffset)%nat) as [Hlt|Hge].
  - rewrite acc_at_app. replace (Z.to_nat (Foffset - ind)) with (Z.to_nat Foffset - Z.to_nat ind)%nat by lia.
    destruct (acc_at (seq (Z.to_nat ind) _) w s) as [w' s']. rewrite accumulate_at. f_equal.
    rewrite Z.max_r by lia. destruct (Z.ltb_spec Foffset (Foffset + F)); f_equal; lia.
  - replace (Z.to_nat (Foffset - ind)) with 0%nat by lia. cbn [seq acc_at]. rewrite accumulate_at. f_equal.
    rewrite Z.max_l by lia. destruct (Z.ltb_spec ind (Foffset + F)); f_equal; lia.
Qed.

Lemma repetitions_rx_at w0 Ncb F Foffset ind E fuel :
  selection_ok w0 Ncb F Foffset ind E -> forall w s, (length s <= fuel)%nat ->
  repetitions_rx fuel w s Ncb F Foffset =
  Ok (fst (acc_at (concat (replicate fuel (kept (Z.to_nat Ncb) (Z.to_nat F) (Z.to_nat Foffset)))) w s)).
Proof.
  intros Hok. pose proof (sel_nonneg _ _ _ _ _ _ Hok) as (HF & HFo & _). pose proof (sel_Ncb _ _ _ _ _ _ Hok) as (HN & _ & _).
  pose proof (sel_bits _ _ _ _ _ _ Hok) as HFN. set (V := kept _ _ _).
  assert (HV : (0 < length V)%nat) by (unfold V, kept; rewrite length_app, !length_seq; lia).
  induction fuel as [|fuel IH]; intros w s Hs; [by destruct s; [|cbn in Hs; lia]|].
  destruct s as [|x s]; [by rewrite acc_at_nil|]. cbn [repetitions_rx replicate concat].
  rewrite acc_at_app.
  assert (Ev : acc_at V w (x :: s) = let '(w, s) := accumulate 0 (Z.to_nat Foffset) w (x :: s) in
    accumulate (Z.to_nat (Foffset + F)) (Z.to_nat (Ncb - (Foffset + F))) w s).
  { unfold V, kept. rewrite acc_at_app, accumulate_at. destruct (acc_at (seq 0 _) w (x :: s)) as [w1 s1].
    rewrite accumulate_at. f_equal. f_equal; lia. }
  pose proof (acc_at_left V w (x :: s)) as Hleft. rewrite Ev in Hleft |- *.
  destruct (accumulate 0 (Z.to_nat Foffset) w (x :: s)) as [w1 s1].
  destruct (accumulate (Z.to_nat (Foffset + F)) _ w1 s1) as [w2 s2]. apply IH. cbn [snd length] in *. lia.
Qed.

(** Only as many positions are used as there are values. *)
Lemma acc_at_take ps : forall w s, fst (acc_at ps w s) = fst (acc_at (take (length s) ps) w s).
Proof.
  induction ps as [|p ps IH]; intros w s; [by rewrite take_nil|]. destruct s as [|x s]; [done|]. cbn [length take acc_at]. apply IH.
Qed.

Lemma i16_add a b : i16 (i16 a + b) = i16 (a + b).
Proof.
  unfold i16. replace ((a + 2 ^ 15) mod 2 ^ 16 - 2 ^ 15 + b + 2 ^ 15) with ((a + 2 ^ 15) mod 2 ^ 16 + b) by ring.
  rewrite Z.add_mod_idemp_l by lia. do 2 f_equal. ring.
Qed.

Lemma i16_idem a : i16 (i16 a) = i16 a.
Proof. pose proof (i16_add a 0) as H. by rewrite !Z.add_0_r in H. Qed.

Lemma at_pos_insert_eq w p x : (p < length w)%nat -> at_pos (<[p := x]> w) p = x.
Proof. intros H. unfold at_pos, buf_get. by rewrite Nat2Z.id, list_lookup_insert_eq. Qed.

Lemma at_pos_insert_ne w p q x : p <> q -> at_pos (<[p := x]> w) q = at_pos w q.
Proof. intros H. unfold at_pos, buf_get. by rewrite Nat2Z.id, list_lookup_insert_ne. Qed.

(** A position receives one value for each of its occurrences. *)
Lemma acc_at_count (h : nat -> Z) q ps : forall w,
  (q < length w)%nat -> i16 (at_pos w q) = at_pos w q ->
  at_pos (fst (acc_at ps w (h <$> ps))) q = i16 (at_pos w q + Z.of_nat (count_occ Nat.eq_dec ps q) * h q).
Proof.
  induction ps as [|p ps IH]; intros w Hq Hw; cbn [fmap list_fmap acc_at count_occ].
  - cbn [fst]. rewrite <- Hw at 1. f_equal. lia.
  - destruct (Nat.eq_dec p q) as [->|Hne].
    + rewrite IH; rewrite ?length_insert, ?at_pos_insert_eq, ?i16_idem by done; [|done|done]. rewrite i16_add. f_equal. lia.
    + rewrite IH; rewrite ?length_insert, ?at_pos_insert_ne by done; done.
Qed.

Lemma acc_at_length ps : forall w s, length (fst (acc_at ps w s)) = length w.
Proof. induction ps as [|p ps IH]; intros w [|x s]; cbn [acc_at fst]; first [done | rewrite IH; apply length_insert]. Qed.

(** ** The positions that are sent *)

Lemma turn_from_drop Ncb F Foffset ind :
  (Foffset + F <= Ncb)%nat -> exists d, turn_from Ncb F Foffset ind = drop d (kept Ncb F Foffset).
Proof.
  intros H. unfold turn_from, kept. destruct (decide (ind < Foffset)%nat) as [Hlt|Hge].
  - exists ind. rewrite drop_app_le by (rewrite length_seq; lia). f_equal. rewrite drop_seq. f_equal. 
  - exists (Foffset + (ind `max` (Foffset + F) - (Foffset + F)))%nat.
    rewrite drop_app_ge by (rewrite length_seq; lia). rewrite length_seq, drop_seq. f_equal; lia.
Qed.

Lemma elem_of_kept Ncb F Foffset p :
  p ∈ kept Ncb F Foffset <-> (p < Foffset \/ Foffset + F <= p < Ncb)%nat.
Proof. unfold kept. rewrite elem_of_app, !elem_of_seq. lia. Qed.

Lemma positions_kept Ncb F Foffset ind E p :
  (Foffset + F <= Ncb)%nat -> p ∈ positions Ncb F Foffset ind E -> p ∈ kept Ncb F Foffset.
Proof.
  intros H. unfold positions. destruct (turn_from_drop Ncb F Foffset ind H) as [d ->]. intros Hp.
  assert (Hp' : p ∈ drop d (kept Ncb F Foffset) ++ concat (replicate E (kept Ncb F Foffset)))
    by (rewrite <- (take_drop E (_ ++ _)); apply elem_of_app; by left).
  apply elem_of_app in Hp' as [Hp'|Hp'].
  - rewrite <- (take_drop d (kept _ _ _)). apply elem_of_app. by right.
  - apply list_elem_of_In, in_concat in Hp' as (l & Hl & Hin). apply list_elem_of_In, elem_of_replicate_inv in Hl as ->. by apply list_elem_of_In.
Qed.

(** Every position that holds a coded bit is sent when there is room for all. *)
Lemma kept_positions Ncb F Foffset ind E p :
  (Foffset + F <= Ncb)%nat -> (length (kept Ncb F Foffset) <= E)%nat -> p ∈ kept Ncb F Foffset -> p ∈ positions Ncb F Foffset ind E.
Proof.
  intros H HE Hp. unfold positions. destruct (turn_from_drop Ncb F Foffset ind H) as [d ->].
  destruct E as [|E]; [by destruct (kept _ _ _); [|cbn in HE; lia]|].
  rewrite take_app, take_ge by (rewrite length_drop; lia). rewrite length_drop. cbn [replicate concat]. rewrite take_app.
  rewrite <- (take_drop d (kept _ _ _)) in Hp. apply elem_of_app in Hp as [Hp|Hp]; [|apply elem_of_app; by left].
  apply elem_of_app. right. apply elem_of_app. left. apply elem_of_take in Hp as (i & Hi & Hlt).
  pose proof (lookup_lt_Some _ _ _ Hi). apply elem_of_take. exists i. split; [done|lia].
Qed.

(** ** The first position *)

Lemma index_k0_bound BG rvidx k :
  BG ∈ [1; 2] -> index_k0 !! Z.to_nat (BG - 1) ≫= (fun row => row !! Z.to_nat rvidx) = Some k ->
  0 <= k <= 56 /\ (BG = 2 -> k <= 43).
Proof.
  intros HBG. apply elem_of_cons in HBG as [->|[->|[]%not_elem_of_nil]%elem_of_cons]; intros H;
    destruct (Z.to_nat rvidx) as [|[|[|[|n]]]]; cbn in H; try done; vm_compute in H; simplify_eq; lia.
Qed.

(** The first position is in the circular buffer. *)
Lemma circular_buffer_ind Tbslbrm BG Zc C rvidx Ncb ind :
  circular_buffer Tbslbrm BG Zc C rvidx = Ok (Ncb, ind) -> BG ∈ [1; 2] -> 0 < Zc <= 384 -> 0 < Ncb ->
  Ncb <= 66 * 384 /\ 0 <= ind < Ncb.
Proof.
  unfold circular_buffer. intros H HBG HZ HN. destruct (_ ≫= _) as [k|] eqn:Ek; [|done].
  apply (index_k0_bound _ _ _ HBG) in Ek as [Hk Hk2]. set (N := if BG =? 1 then _ else _) in *.
  assert (HNb : 0 < N <= 66 * 384 /\ k * Zc < N).
  { unfold N. destruct (Z.eqb_spec BG 1); [nia|].
    apply elem_of_cons in HBG as [->|[->|[]%not_elem_of_nil]%elem_of_cons]; [done|]. specialize (Hk2 eq_refl). nia. }
  destruct (Z.eqb_spec N 0); [lia|]. injection H as H1 H2. rewrite H1 in H2.
  assert (HNcb : Ncb <= N) by (rewrite <- H1; destruct (Tbslbrm =? 0); lia). clear H1.
  rewrite (u32_small (k * Ncb)) in H2 by nia.
  assert (Hq : 0 <= k * Ncb / N /\ N * (k * Ncb / N) <= k * Ncb) by (split; [apply Z.div_pos|apply Z.mul_div_le]; nia).
  assert (Hb : k * Ncb / N * Zc < Ncb) by nia. rewrite u32_small in H2 by nia. lia.
Qed.

(** ** Sending, then receiving *)

Lemma length_concat_replicate {A} (l : list A) n : length (concat (replicate n l)) = (n * length l)%nat.
Proof. induction n as [|n IH]; cbn [replicate concat]; [done|]. rewrite length_app, IH. lia. Qed.

Lemma length_kept Ncb F Foffset : (Foffset + F <= Ncb)%nat -> length (kept Ncb F Foffset) = (Ncb - F)%nat.
Proof. intros H. unfold kept. rewrite length_app, !length_seq. lia. Qed.

Lemma length_positions Ncb F Foffset ind E :
  (Foffset + F <= Ncb)%nat -> (F < Ncb)%nat -> length (positions Ncb F Foffset ind E) = E.
Proof. intros H HF. unfold positions. rewrite length_take, length_app, length_concat_replicate, length_kept by done. nia. Qed.

Lemma rate_matching_guards {A} E Ncb Foffset (k : res (option A)) :
  Foffset <= E -> Foffset <= Ncb -> (if Foffset >? E then Ok None else if Foffset >? Ncb then Ok None else k) = k.
Proof.
  intros HE HN. replace (Foffset >? E) with false by (symmetry; rewrite Z.gtb_ltb; apply Z.ltb_ge; lia).
  replace (Foffset >? Ncb) with false by (symmetry; rewrite Z.gtb_ltb; apply Z.ltb_ge; lia). done.
Qed.

Lemma receiving_at w0 w s Ncb F Foffset ind E :
  selection_ok w0 Ncb F Foffset ind E -> length s = Z.to_nat E ->
  (let '(w, s) := first_turn_rx w s Ncb F Foffset ind in
   let* w := repetitions_rx (Z.to_nat E) w s Ncb F Foffset in
   Ok (Some w)) =
  Ok (Some (fst (acc_at (positions (Z.to_nat Ncb) (Z.to_nat F) (Z.to_nat Foffset) (Z.to_nat ind) (Z.to_nat E)) w s))).
Proof.
  intros Hok Hs. rewrite (first_turn_rx_at _ _ _ _ _ _ _ _ Hok). set (T := turn_from _ _ _ _).
  pose proof (acc_at_left T w s) as Hl. destruct (acc_at T w s) as [w1 s1] eqn:E1. cbn [snd] in Hl.
  rewrite (repetitions_rx_at _ _ _ _ _ _ _ Hok) by lia. cbn [rbind]. unfold positions. fold T.
  rewrite <- Hs at 2. rewrite <- acc_at_take, acc_at_app, E1. done.
Qed.

(** C27. Rate matching sends coded bits only, one for each of the E places, in the order of
    positions that starts at the first position of the redundancy version; when E leaves room for
    all coded bits every one of them is sent.  The receiver, given the soft values of these bits,
    accumulates at each position of the circular buffer exactly the values of the bit that was
    sent from there, as many times as it was sent, and leaves the filler positions at zero. *)
Theorem rate_matching_roundtrip (Tbslbrm BG Zc C rvidx E F Foffset Ncb ind : Z) (w w0 : list Z) (g : Z -> Z) :
  circular_buffer Tbslbrm BG Zc C rvidx = Ok (Ncb, ind) -> C <> 0 -> BG ∈ [1; 2] -> 0 < Zc <= 384 ->
  0 <= F < Ncb -> 0 <= Foffset <= E -> E + F < 2 ^ 31 -> Foffset + F <= Ncb ->
  Ncb <= Z.of_nat (length w) -> fillers_at w Ncb F Foffset -> Ncb <= Z.of_nat (length w0) ->
  exists ps w',
    nr_rate_matching_ldpc Tbslbrm BG Zc w C F Foffset rvidx E = Ok (Some (at_pos w <$> ps)) /\
    Z.of_nat (length ps) = E /\
    Forall (fun p => Z.of_nat p < Foffset \/ Foffset + F <= Z.of_nat p < Ncb) ps /\
    (Ncb - F <= E -> forall p : nat, Z.of_nat p < Foffset \/ Foffset + F <= Z.of_nat p < Ncb -> p ∈ ps) /\
    nr_rate_matching_ldpc_rx Tbslbrm BG Zc w0 (g <$> (at_pos w <$> ps)) C rvidx true E F Foffset = Ok (Some w') /\
    length w' = length w0 /\
    forall p : nat, Z.of_nat p < Ncb -> at_pos w' p = i16 (Z.of_nat (count_occ Nat.eq_dec ps p) * g (at_pos w p)).
Proof.
  intros Hcb HC HBG HZ HF HFo HE HN Hw Hfill Hw0.
  destruct (circular_buffer_ind _ _ _ _ _ _ _ Hcb HBG HZ) as [HNcb Hind]; [lia|].
  assert (Hok : selection_ok w Ncb F Foffset ind E) by (split; lia).
  set (ps := positions (Z.to_nat Ncb) (Z.to_nat F) (Z.to_nat Foffset) (Z.to_nat ind) (Z.to_nat E)).
  assert (Hlen : length ps = Z.to_nat E) by (apply length_positions; lia).
  set (wz := buf_write w0 0 (replicate (Z.to_nat Ncb) 0)).
  assert (Hwz : length wz = length w0).
  { unfold wz, buf_write. rewrite !length_app, length_take, length_drop, length_replicate. lia. }
  exists ps, (fst (acc_at ps wz (g <$> (at_pos w <$> ps)))).
  unfold nr_rate_matching_ldpc, nr_rate_matching_ldpc_rx.
  replace (C =? 0) with false by (symmetry; apply Z.eqb_neq; lia). rewrite Hcb. cbn [rbind].
  rewrite !rate_matching_guards by lia. rewrite (rate_matching_at _ _ _ _ _ _ Hok Hfill).
  split; [done|]. split; [lia|]. split; [|split; [|split; [|split]]].
  - apply list.Forall_forall. intros p Hp%positions_kept; [|lia]. apply elem_of_kept in Hp. lia.
  - intros HEN p Hp. apply kept_positions; [lia|rewrite length_kept; lia|]. apply elem_of_kept. lia.
  - rewrite !length_fmap, Hlen. replace (_ || _) with false by (symmetry; apply orb_false_iff; split; apply Z.ltb_ge; lia).
    rewrite take_ge by (rewrite !length_fmap; lia).
    apply (receiving_at w); [done|]. by rewrite !length_fmap.
  - by rewrite acc_at_length.
  - intros p Hp. assert (H0 : at_pos wz p = 0).
    { unfold wz, at_pos, buf_get. rewrite buf_write_0, lookup_app_l by (rewrite length_replicate; lia).
      rewrite lookup_replicate_2 by lia. done. }
    rewrite <- list_fmap_compose. rewrite (acc_at_count (g ∘ at_pos w)); rewrite ?H0, ?Hwz; [|lia|done]. done.
Qed.

Lemma rate_matching_roundtrip_witness :
  let w := replicate 16 1 ++ replicate 4 NR_NULL ++ replicate 80 0 in
  exists ps w',
    nr_rate_matching_ldpc 0 2 2 w 1 4 16 1 120 = Ok (Some (at_pos w <$> ps)) /\
    nr_rate_matching_ldpc_rx 0 2 2 (replicate 100 7) ((fun b => 100 - 200 * b) <$> (at_pos w <$> ps)) 1 1 true 120 4 16 = Ok (Some w') /\
    take 24 w' = replicate 16 (-100) ++ replicate 4 0 ++ replicate 4 100 /\ at_pos w' 30 = 200.
Proof.
  set (w := replicate 16 1 ++ replicate 4 NR_NULL ++ replicate 80 0).
  destruct (rate_matching_roundtrip 0 2 2 1 1 120 4 16 100 26 w (replicate 100 7) (fun b => 100 - 200 * b))
    as (ps & w' & H1 & _ & _ & _ & H2 & _ & _); [done|done|set_solver|lia|lia|lia|lia|lia|cbn; lia| |cbn; lia|].
  - exists (replicate 16 1), (replicate 80 0). split; [done|]. split; [done|]. split; apply Forall_replicate; done.
  - exists ps, w'. split; [done|]. split; [done|]. revert H1 H2. generalize (at_pos w <$> ps). intros bits H1 H2. vm_compute in H1. injection H1 as <-.
    vm_compute in H2. injection H2 as <-. done.
Defined.
