(* ===== verification/MacPdu.v ===== *)
(** MAC PDUs: the transport blocks that the gNB builds and the UE takes apart, and those of the
    other direction.  [gNB_scheduler_dlsch.c], [gNB_scheduler_ulsch.c], [nr_ue_procedures.c],
    [nr_ue_scheduler.c], [nr_mac.h].

    A transport block is a buffer and a position in it.  RLC is an argument of the routines that
    ask it for data: a function from its state, a logical channel and the buffer offered to the
    new state, the buffer and the number of bytes used.  The indications that MAC gives to RLC and
    RRC are events.  The bytes of a local variable that are sent without being set are an argument
    [garbage]. *)

From S2P Require Import Prelude.

Definition DL_SCH_LCID_CCCH : Z := 0x00.
Definition DL_SCH_LCID_DCCH : Z := 0x01.
Definition DL_SCH_LCID_RECOMMENDED_BITRATE : Z := 0x2F.
Definition DL_SCH_LCID_SP_ZP_CSI_RS_RES_SET_ACT : Z := 0x30.
Definition DL_SCH_LCID_PUCCH_SPATIAL_RELATION_ACT : Z := 0x31.
Definition DL_SCH_LCID_SP_SRS_ACTIVATION : Z := 0x32.
Definition DL_SCH_LCID_SP_CSI_REP_PUCCH_ACT : Z := 0x33.
Definition DL_SCH_LCID_TCI_STATE_IND_UE_SPEC_PDCCH : Z := 0x34.
Definition DL_SCH_LCID_TCI_STATE_ACT_UE_SPEC_PDSCH : Z := 0x35.
Definition DL_SCH_LCID_APERIODIC_CSI_TRI_STATE_SUBSEL : Z := 0x36.
Definition DL_SCH_LCID_SP_CSI_RS_CSI_IM_RES_SET_ACT : Z := 0x37.
Definition DL_SCH_LCID_DUPLICATION_ACT : Z := 0x38.
Definition DL_SCH_LCID_SCell_ACT_4_OCT : Z := 0x39.
Definition DL_SCH_LCID_SCell_ACT_1_OCT : Z := 0x3A.
Definition DL_SCH_LCID_L_DRX : Z := 0x3B.
Definition DL_SCH_LCID_DRX : Z := 0x3C.
Definition DL_SCH_LCID_TA_COMMAND : Z := 0x3D.
Definition DL_SCH_LCID_CON_RES_ID : Z := 0x3E.
Definition DL_SCH_LCID_PADDING : Z := 0x3F.

Definition UL_SCH_LCID_CCCH1 : Z := 0x00.
Definition UL_SCH_LCID_SRB1 : Z := 0x01.
Definition UL_SCH_LCID_SRB2 : Z := 0x02.
Definition UL_SCH_LCID_SRB3 : Z := 0x03.
Definition UL_SCH_LCID_DTCH : Z := 0x04.
Definition UL_SCH_LCID_CCCH : Z := 0x34.
Definition UL_SCH_LCID_RECOMMENDED_BITRATE_QUERY : Z := 0x35.
Definition UL_SCH_LCID_MULTI_ENTRY_PHR_4_OCT : Z := 0x36.
Definition UL_SCH_LCID_CONFIGURED_GRANT_CONFIRMATION : Z := 0x37.
Definition UL_SCH_LCID_MULTI_ENTRY_PHR_1_OCT : Z := 0x38.
Definition UL_SCH_LCID_SINGLE_ENTRY_PHR : Z := 0x39.
Definition UL_SCH_LCID_C_RNTI : Z := 0x3A.
Definition UL_SCH_LCID_S_TRUNCATED_BSR : Z := 0x3B.
Definition UL_SCH_LCID_L_TRUNCATED_BSR : Z := 0x3C.
Definition UL_SCH_LCID_S_BSR : Z := 0x3D.
Definition UL_SCH_LCID_L_BSR : Z := 0x3E.
Definition UL_SCH_LCID_PADDING : Z := 0x3F.

(** [LTE_maxDRB + 3] *)
Definition NB_RB_MAX : Z := 14.

(** ** Reading a PDU *)

Definition rd (pdu : list Z) (i : nat) : res Z :=
  match pdu !! i with Some b => Ok b | None => Fault OutOfBounds end.

(** The bytes at [pdu + from], all of which are read. *)
Definition rd_bytes (pdu : list Z) (from n : Z) : res (list Z) :=
  if from + n <=? Z.of_nat (length pdu) then Ok (take (Z.to_nat n) (drop (Z.to_nat from) pdu)) else Fault OutOfBounds.

(** [LCID] of a subheader. *)
Definition lcid_of (b : Z) : Z := b mod 64.

(** The length of the SDU and of its subheader; [None] is [false]. *)
Definition get_mac_len (pdu : list Z) (pdu_len : Z) : res (option (Z * Z)) :=
  if pdu_len <? 2 then Ok None
  else
    let* b := rd pdu 0 in
    if Z.testbit b 6 then
      if pdu_len <? 3 then Ok None
      else
        let* hi := rd pdu 1 in
        let* lo := rd pdu 2 in
        Ok (Some (256 * hi + lo, 3))
    else
      let* l := rd pdu 1 in
      Ok (Some (l, 2)).

(** What MAC hands over: to RRC on the CCCH, to RLC. *)
Inductive mac_ind :=
| rrc_data_ind (rnti : Z) (sdu : list Z)
| rlc_data_ind (rnti lcid : Z) (sdu : list Z).

(** Whether [pdu[0..n-1]] are all zero; it is read up to the first byte that is not. *)
Fixpoint all_zero (pdu : list Z) (n : nat) : res bool :=
  match n, pdu with
  | O, _ => Ok true
  | S _, [] => Fault OutOfBounds
  | S n, b :: tl => if b =? 0 then all_zero tl n else Ok false
  end.

(** ** The UE: downlink *)

Inductive RA_state_t := RA_UE_IDLE | GENERATE_PREAMBLE | WAIT_RAR | WAIT_CONTENTION_RESOLUTION | RA_SUCCEEDED | RA_FAILED.
#[export] Instance RA_state_eq_dec : EqDecision RA_state_t.
Proof. solve_decision. Defined.

(** The fields of [RA_config_t] that are used here. *)
Record RA_config_t := mk_RA_config {
  ra_state : RA_state_t;
  RA_active : bool;
  cfra : bool;
  RA_window_cnt : Z;
  RA_contention_resolution_timer_active : bool;
  t_crnti : Z;
  cont_res_id : list Z;
  generate_nr_prach : RA_state_t
}.
#[export] Instance eta_RA_config : Eta RA_config_t :=
  fun r => mk_RA_config (ra_state r) (RA_active r) (cfra r) (RA_window_cnt r) (RA_contention_resolution_timer_active r)
             (t_crnti r) (cont_res_id r) (generate_nr_prach r).

Record NR_UL_TIME_ALIGNMENT_t := mk_time_alignment { apply_ta : bool; ta_command : Z; tag_id : Z }.

Record ue_mac := mk_ue_mac {
  crnti : Z;
  ra : RA_config_t;
  ul_time_alignment : NR_UL_TIME_ALIGNMENT_t;
  ue_inds : list mac_ind
}.
#[export] Instance eta_ue_mac : Eta ue_mac :=
  fun r => mk_ue_mac (crnti r) (ra r) (ul_time_alignment r) (ue_inds r).

Definition ue_ind (mac : ue_mac) (i : mac_ind) : ue_mac := mac <| ue_inds := ue_inds mac ++ [i] |>.

Definition nr_ra_succeeded (mac : ue_mac) : ue_mac :=
  let mac :=
    if cfra (ra mac) then mac <| ra := (ra mac) <| RA_window_cnt := -1 |> |>
    else
      let mac := mac <| ra := (ra mac) <| RA_contention_resolution_timer_active := false |> |> <| crnti := t_crnti (ra mac) |> in
      mac <| ra := (ra mac) <| t_crnti := 0 |> |> in
  mac <| ra := (ra mac) <| RA_active := false |> <| generate_nr_prach := RA_UE_IDLE |> <| ra_state := RA_SUCCEEDED |> |>.

(** Control elements that are only skipped: their length. *)
Definition skipped_ce_len (lcid : Z) : option Z :=
  if lcid =? DL_SCH_LCID_RECOMMENDED_BITRATE then Some 2
  else if lcid =? DL_SCH_LCID_SP_ZP_CSI_RS_RES_SET_ACT then Some 2
  else if lcid =? DL_SCH_LCID_PUCCH_SPATIAL_RELATION_ACT then Some 3
  else if lcid =? DL_SCH_LCID_SP_CSI_REP_PUCCH_ACT then Some 2
  else if lcid =? DL_SCH_LCID_TCI_STATE_IND_UE_SPEC_PDCCH then Some 2
  else if lcid =? DL_SCH_LCID_DUPLICATION_ACT then Some 1
  else if lcid =? DL_SCH_LCID_SCell_ACT_4_OCT then Some 4
  else if lcid =? DL_SCH_LCID_SCell_ACT_1_OCT then Some 1
  else if lcid =? DL_SCH_LCID_L_DRX then Some 0
  else if lcid =? DL_SCH_LCID_DRX then Some 0
  else None.

(** The outcome of a sub-PDU: the state, the length of the subheader and of the SDU, and whether
    the PDU is done; or [return] from the function. *)
Definition sub_pdu (St R : Type) : Type := (St * Z * Z * bool) + R.

Definition ue_ccch (mac : ue_mac) (pdu : list Z) (pdu_len : Z) : res (sub_pdu ue_mac ue_mac) :=
  let* o := get_mac_len pdu pdu_len in
  match o with
  | None => Exit
  | Some (mac_len, sh) =>
    let* z := all_zero pdu (Z.to_nat (sh + mac_len)) in
    if z then Ok (inl (mac, sh, mac_len, true))
    else if mac_len >? 0 then
      let* sdu := rd_bytes pdu sh mac_len in
      Ok (inl (ue_ind mac (rrc_data_ind (crnti mac) sdu), sh, mac_len, false))
    else Ok (inl (mac, sh, mac_len, false))
  end.

Definition ue_con_res (mac : ue_mac) (pdu : list Z) : res ue_mac :=
  if decide (ra_state (ra mac) = WAIT_CONTENTION_RESOLUTION) then
    let* id := rd_bytes pdu 1 6 in
    let ra_success := bool_decide (cont_res_id (ra mac) = id) in
    if RA_active (ra mac) && ra_success then Ok (nr_ra_succeeded mac)
    else if negb ra_success then Ok (mac <| ra := (ra mac) <| ra_state := RA_UE_IDLE |> <| RA_active := false |> |>)
    else Ok mac
  else Ok mac.

Definition ue_sdu (mac : ue_mac) (pdu : list Z) (pdu_len rx_lcid : Z) : res (sub_pdu ue_mac ue_mac) :=
  let* o := get_mac_len pdu pdu_len in
  match o with
  | None => Ok (inr mac)
  | Some (mac_len, sh) =>
    if (rx_lcid <? NB_RB_MAX) && (rx_lcid >=? DL_SCH_LCID_DCCH) then
      let* sdu := rd_bytes pdu sh mac_len in
      Ok (inl (ue_ind mac (rlc_data_ind (crnti mac) rx_lcid sdu), sh, mac_len, false))
    else Ok (inl (mac, sh, mac_len, false))
  end.

Definition ue_sub_pdu (mac : ue_mac) (pdu : list Z) (pdu_len : Z) : res (sub_pdu ue_mac ue_mac) :=
  let* b := rd pdu 0 in
  let rx_lcid := lcid_of b in
  if rx_lcid =? DL_SCH_LCID_CCCH then ue_ccch mac pdu pdu_len
  else if (rx_lcid =? DL_SCH_LCID_TCI_STATE_ACT_UE_SPEC_PDSCH) || (rx_lcid =? DL_SCH_LCID_APERIODIC_CSI_TRI_STATE_SUBSEL)
       || (rx_lcid =? DL_SCH_LCID_SP_CSI_RS_CSI_IM_RES_SET_ACT) || (rx_lcid =? DL_SCH_LCID_SP_SRS_ACTIVATION) then
    let* o := get_mac_len pdu pdu_len in
    let '(mac_len, sh) := default (0, 1) o in
    Ok (inl (mac, sh, mac_len, false))
  else
    match skipped_ce_len rx_lcid with
    | Some n => Ok (inl (mac, 1, n, false))
    | None =>
      if rx_lcid =? DL_SCH_LCID_TA_COMMAND then
        let* ta := rd pdu 1 in
        Ok (inl (mac <| ul_time_alignment := mk_time_alignment true (ta mod 64) (ta / 64) |>, 1, 1, false))
      else if rx_lcid =? DL_SCH_LCID_CON_RES_ID then
        let* mac := ue_con_res mac pdu in
        Ok (inl (mac, 1, 6, false))
      else if rx_lcid =? DL_SCH_LCID_PADDING then Ok (inl (mac, 1, 0, true))
      else ue_sdu mac pdu pdu_len rx_lcid
    end.

(** The loop: every turn takes at least a byte. *)
Fixpoint nr_ue_process_loop (fuel : nat) (mac : ue_mac) (pdu : list Z) (pdu_len : Z) : res ue_mac :=
  if pdu_len >? 0 then
    match fuel with
    | O => Fault FuelExhausted
    | S fuel =>
      let* r := ue_sub_pdu mac pdu pdu_len in
      match r with
      | inr mac => Ok mac
      | inl (mac, sh, mac_len, done) =>
        if done then Ok mac
        else nr_ue_process_loop fuel mac (drop (Z.to_nat (sh + mac_len)) pdu) (pdu_len - (sh + mac_len))
      end
    end
  else Ok mac.

Definition nr_ue_process_mac_pdu (mac : ue_mac) (pdu : list Z) (pdu_len : Z) : res ue_mac :=
  nr_ue_process_loop (Z.to_nat pdu_len) mac pdu pdu_len.

(** ** The gNB: control elements of the downlink *)

Definition NR_MAC_SUBHEADER_FIXED (lcid : Z) : list Z := [lcid mod 64].
Definition NR_MAC_SUBHEADER_SHORT (lcid L : Z) : list Z := [lcid mod 64; u8 L].
Definition NR_MAC_SUBHEADER_LONG (lcid L : Z) : list Z := [64 + lcid mod 64; u16 L / 256; u16 L mod 256].

Record sp_zp_csirs_t := mk_sp_zp { zp_act_deact : bool; zp_serv_cell_id : Z; zp_bwpid : Z; zp_rsc_id : Z }.
Record csi_rs_im_t := mk_csi_im {
  im_act_deact : bool; im_serv_cellid : Z; im_bwp_id : Z; im_im : bool; csi_im_rsc_id : Z; nzp_csi_rsc_id : Z;
  im_tci_state_id : list Z
}.
Record pdcchStateInd_t := mk_pdcch_ind { pi_servingCellId : Z; pi_coresetId : Z; pi_tciStateId : Z }.
Record SPCSIReportingpucch_t := mk_sp_csi { sr_servingCellId : Z; sr_bwpId : Z; s0tos3_actDeact : list bool }.
(** [aperiodicCSI_triggerStateSelection_t] and [pdschTciStatesActDeact_t] *)
Record stateSelection_t := mk_selection { ss_servingCellId : Z; ss_bwpId : Z; ss_highest : Z; ss_states : list bool }.

(** A control element is [Some] when it is scheduled. *)
Record NR_UE_mac_ce_ctrl_t := mk_ce_ctrl {
  sp_zp_csi_rs : option sp_zp_csirs_t;
  csi_im : option csi_rs_im_t;
  pdcch_state_ind : option pdcchStateInd_t;
  SP_CSI_reporting_pucch : option SPCSIReportingpucch_t;
  aperi_CSI_trigger : option stateSelection_t;
  pdsch_TCI_States_ActDeact : option stateSelection_t
}.

(** What the writer reads of the scheduling control: the timing advance when it is due. *)
Record ce_input := mk_ce_input { ta_update : option Z; gNB_tag_Id : Z; UE_mac_ce_ctrl : NR_UE_mac_ce_ctrl_t }.

Definition bit (b : bool) : Z := Z.b2z b.
Definition nth_bit (l : list bool) (i : nat) : res bool :=
  match l !! i with Some b => Ok b | None => Fault OutOfBounds end.

(** The octet [T[k]] of the selected states. *)
Definition state_octet (states : list bool) (k : nat) : res Z :=
  foldr (fun i m => let* v := m in let* b := nth_bit states (8 * k + i) in Ok (v + bit b * 2 ^ Z.of_nat i)) (Ok 0) (seq 0 8).

Fixpoint state_octets (states : list bool) (ks : list nat) : res (list Z) :=
  match ks with
  | [] => Ok []
  | k :: ks => let* o := state_octet states k in let* os := state_octets states ks in Ok (o :: os)
  end.

Definition selection_ce (lcid : Z) (s : stateSelection_t) : res (list Z) :=
  let num_octects := u8 (ss_highest s / 8 + 1) in
  let* T := state_octets (ss_states s) (seq 0 (Z.to_nat num_octects)) in
  Ok (NR_MAC_SUBHEADER_SHORT lcid (1 + num_octects) ++ [ss_bwpId s mod 4 + 4 * (ss_servingCellId s mod 32)] ++ T).

Definition csi_im_ce (c : csi_rs_im_t) : list Z :=
  NR_MAC_SUBHEADER_FIXED DL_SCH_LCID_SP_CSI_RS_CSI_IM_RES_SET_ACT ++
  [im_bwp_id c mod 4 + 4 * (im_serv_cellid c mod 32) + 128 * bit (im_act_deact c); nzp_csi_rsc_id c mod 64 + 64 * bit (im_im c)] ++
  (if im_im c then [csi_im_rsc_id c mod 64] else []) ++
  (if im_act_deact c then (fun t => t mod 64) <$> im_tci_state_id c else []).

Definition opt_ce {A} (o : option A) (f : A -> res (list Z)) : res (list Z) :=
  match o with Some a => f a | None => Ok [] end.

(** [garbage ! 0]: the byte of [mac_header_control_elements] that takes the timing advance;
    [garbage ! 1]: the first byte of [nr_PUCCH_CSI_reportingActDeact], whose top bit is not set. *)
Definition nr_write_ce_dlsch_pdu (garbage : list Z) (c : ce_input) (drx_cmd : Z) (ue_cont_res_id : option (list Z))
  : res (list Z) :=
  let drx := if negb (drx_cmd =? 255) then NR_MAC_SUBHEADER_FIXED DL_SCH_LCID_DRX else [] in
  let* ta := opt_ce (ta_update c) (fun ta =>
    if ta <? 64 then
      let tag := if negb (gNB_tag_Id c =? 0) then gNB_tag_Id c mod 4 else buf_get garbage 0 / 64 in
      Ok (NR_MAC_SUBHEADER_FIXED DL_SCH_LCID_TA_COMMAND ++ [ta mod 64 + 64 * tag])
    else Exit) in
  let* con := opt_ce ue_cont_res_id (fun id =>
    let* id := rd_bytes id 0 6 in Ok (NR_MAC_SUBHEADER_FIXED DL_SCH_LCID_CON_RES_ID ++ id)) in
  let ctrl := UE_mac_ce_ctrl c in
  let* tci := opt_ce (pdcch_state_ind ctrl) (fun i =>
    Ok (NR_MAC_SUBHEADER_FIXED DL_SCH_LCID_TCI_STATE_IND_UE_SPEC_PDCCH ++
        [(pi_coresetId i mod 16) / 2 + 8 * (pi_servingCellId i mod 32); pi_tciStateId i mod 128 + 128 * (pi_coresetId i mod 2)])) in
  let* sp := opt_ce (SP_CSI_reporting_pucch ctrl) (fun i =>
    let* s0 := nth_bit (s0tos3_actDeact i) 0 in
    let* s1 := nth_bit (s0tos3_actDeact i) 1 in
    let* s2 := nth_bit (s0tos3_actDeact i) 2 in
    let* s3 := nth_bit (s0tos3_actDeact i) 3 in
    Ok (NR_MAC_SUBHEADER_FIXED DL_SCH_LCID_SP_CSI_REP_PUCCH_ACT ++
        [sr_bwpId i mod 4 + 4 * (sr_servingCellId i mod 32) + 128 * (buf_get garbage 1 / 128); bit s0 + 2 * bit s1 + 4 * bit s2 + 8 * bit s3])) in
  let* pdsch := opt_ce (pdsch_TCI_States_ActDeact ctrl) (selection_ce DL_SCH_LCID_TCI_STATE_ACT_UE_SPEC_PDSCH) in
  let* aper := opt_ce (aperi_CSI_trigger ctrl) (selection_ce DL_SCH_LCID_APERIODIC_CSI_TRI_STATE_SUBSEL) in
  let* zp := opt_ce (sp_zp_csi_rs ctrl) (fun i =>
    Ok (NR_MAC_SUBHEADER_FIXED DL_SCH_LCID_SP_ZP_CSI_RS_RES_SET_ACT ++
        [zp_bwpid i mod 4 + 4 * (zp_serv_cell_id i mod 32) + 128 * bit (zp_act_deact i); zp_rsc_id i mod 16])) in
  let* im := opt_ce (csi_im ctrl) (fun i => Ok (csi_im_ce i)) in
  Ok (drx ++ ta ++ con ++ tci ++ sp ++ pdsch ++ aper ++ zp ++ im).

(** ** The gNB: a transport block of the downlink *)

Section Dlsch.

Context {St : Type} (rlc_data_req : St -> Z -> list Z -> res (St * (list Z * Z))).

(** The loop over one logical channel, from position [buf] on. *)
Fixpoint dl_lc_loop (fuel : nat) (s : St) (lcid bytes_in_buffer : Z) (tb : list Z) (buf TBS : Z) : res (St * list Z * Z) :=
  if u64 (TBS - buf) >? 3 + 1 then
    match fuel with
    | O => Fault FuelExhausted
    | S fuel =>
      let ndata := Z.min (u64 bytes_in_buffer) (u64 (TBS - buf - 3)) in
      let* offered := rd_bytes tb (buf + 3) ndata in
      let* (s, (got, len)) := rlc_data_req s lcid offered in
      let tb := buf_write tb (Z.to_nat (buf + 3)) got in
      if len =? 0 then Ok (s, tb, buf)
      else
        let tb := buf_write tb (Z.to_nat buf) (NR_MAC_SUBHEADER_LONG lcid len) in
        dl_lc_loop fuel s lcid bytes_in_buffer tb (buf + len + 3) TBS
    end
  else Ok (s, tb, buf).

(** All activated logical channels, with what RLC reported for them. *)
Fixpoint dl_channels (s : St) (lcs : list (Z * Z)) (tb : list Z) (buf TBS : Z) : res (St * list Z * Z) :=
  match lcs with
  | [] => Ok (s, tb, buf)
  | (lcid, bytes_in_buffer) :: lcs =>
    if bytes_in_buffer =? 0 then dl_channels s lcs tb buf TBS
    else
      let* (s, tb, buf) := dl_lc_loop (Z.to_nat TBS) s lcid bytes_in_buffer tb buf TBS in
      dl_channels s lcs tb buf TBS
  end.

(** Without data, with [phy_test] or [do_ra]: random bytes ([draw]) behind a padding header. *)
Definition random_block (draw : nat -> Z) (tb : list Z) (buf TBS : Z) : list Z * Z :=
  if TBS - buf >? 3 then
    let n := TBS - buf - 3 in
    (buf_write (buf_write tb (Z.to_nat buf) (NR_MAC_SUBHEADER_LONG DL_SCH_LCID_PADDING n)) (Z.to_nat (buf + 3))
       (draw <$> seq 0 (Z.to_nat n)), TBS)
  else (tb, buf).

Definition dl_padding (tb : list Z) (buf TBS : Z) : list Z :=
  if TBS - buf >? 0 then
    buf_write tb (Z.to_nat buf) (NR_MAC_SUBHEADER_FIXED DL_SCH_LCID_PADDING ++ replicate (Z.to_nat (TBS - buf - 1)) 0)
  else tb.

(** The initial transmission of a transport block of [TBS] bytes, in the buffer [tb] of the HARQ
    process; [num_total_bytes] is what all channels have. *)
Definition dlsch_transport_block (garbage : list Z) (s : St) (c : ce_input) (num_total_bytes : Z) (lcs : list (Z * Z))
  (random : option (nat -> Z)) (tb : list Z) (TBS : Z) : res (St * list Z) :=
  let* ces := nr_write_ce_dlsch_pdu garbage c 255 None in
  if Z.of_nat (length tb) <? Z.max TBS (Z.of_nat (length ces)) then Fault OutOfBounds
  else
    let tb := buf_write tb 0 ces in
    let written := Z.of_nat (length ces) in
    if TBS >? written then
      let* (s, tb, buf) :=
        (if num_total_bytes >? 0 then dl_channels s lcs tb written TBS
         else
           match random with
           | Some draw => let '(tb, buf) := random_block draw tb written TBS in Ok (s, tb, buf)
           | None => Ok (s, tb, written)
           end) in
      Ok (s, dl_padding tb buf TBS)
    else Exit.

End Dlsch.
