(* ===== verification/MacLink.v ===== *)
(** The two ends of a transport block: what a UE makes of the blocks of the gNB, and the gNB of
    those of a UE. *)

From S2P Require Import Prelude.
From S2P Require Import MacPdu.

(** ** RLC as MAC sees it *)

(** RLC answers a request within the buffer that is offered. *)
Class RlcService {St : Type} (req : St -> Z -> list Z -> res (St * (list Z * Z))) : Prop :=
  req_bounded : forall s lcid buf s' b n,
    req s lcid buf = Ok (s', (b, n)) -> length b = length buf /\ 0 <= n <= Z.of_nat (length buf).

(** A routine over RLC does not fail but for a request that fails, and has the result [P]. *)
Definition unless_rlc_fails {St A : Type} (req : St -> Z -> list Z -> res (St * (list Z * Z))) (r : res A) (P : A -> Prop) : Prop :=
  match r with
  | Ok a => P a
  | Exit => exists s lcid buf, req s lcid buf = Exit
  | Fault f => exists s lcid buf, req s lcid buf = Fault f
  end.

Lemma unless_bind {St A B} (req : St -> Z -> list Z -> res (St * (list Z * Z))) (m : res A) (k : A -> res B) P Q :
  unless_rlc_fails req m P -> (forall a, P a -> unless_rlc_fails req (k a) Q) -> unless_rlc_fails req (rbind m k) Q.
Proof. destruct m; cbn; auto. Qed.

Lemma unless_impl {St A} (req : St -> Z -> list Z -> res (St * (list Z * Z))) (m : res A) (P Q : A -> Prop) :
  unless_rlc_fails req m P -> (forall a, P a -> Q a) -> unless_rlc_fails req m Q.
Proof. destruct m; cbn; auto. Qed.

(** The same service with a list of the PDUs it has given. *)
Definition logged {St} (req : St -> Z -> list Z -> res (St * (list Z * Z)))
  : St * list (Z * list Z) -> Z -> list Z -> res (St * list (Z * list Z) * (list Z * Z)) :=
  fun s lcid buf =>
    let* (s', (b, n)) := req (fst s) lcid buf in
    Ok ((s', if n =? 0 then snd s else snd s ++ [(lcid, take (Z.to_nat n) b)]), (b, n)).

(** The sub-PDU of an SDU. *)
Definition sdu_bytes (x : Z * list Z) : list Z := NR_MAC_SUBHEADER_LONG (fst x) (Z.of_nat (length (snd x))) ++ snd x.

Definition sdu_ok (x : Z * list Z) : Prop := 0 < Z.of_nat (length (snd x)) < 2 ^ 16.

Lemma length_long lcid n : length (NR_MAC_SUBHEADER_LONG lcid n) = 3%nat.
Proof. reflexivity. Qed.

Lemma length_sdu_bytes x : length (sdu_bytes x) = (3 + length (snd x))%nat.
Proof. reflexivity. Qed.

Lemma buf_write_app (a b c : list Z) : (length c <= length b)%nat -> buf_write (a ++ b) (length a) c = a ++ c ++ drop (length c) b.
Proof.
  intros H. unfold buf_write. rewrite take_app_length. do 2 f_equal. rewrite drop_app_ge by lia. f_equal. lia.
Qed.

(** The buffer offered lies three bytes behind [pre]. *)
Lemma buf_write_behind (pre rest b : list Z) : (3 + length b <= length rest)%nat ->
  buf_write (pre ++ rest) (length pre + 3) b = pre ++ (take 3 rest ++ b ++ drop (length b) (drop 3 rest)).
Proof.
  intros H. assert (E : pre ++ rest = (pre ++ take 3 rest) ++ drop 3 rest) by (rewrite <- app_assoc; f_equal; by rewrite take_drop).
  replace (length pre + 3)%nat with (length (pre ++ take 3 rest)) by (rewrite length_app, length_take; lia).
  rewrite E, buf_write_app, <- app_assoc by (rewrite length_drop; lia). done.
Qed.

(** The header in front of the bytes that RLC gave makes them a sub-PDU. *)
Lemma add_header lcid (pre rest b : list Z) n :
  (3 <= length rest)%nat -> 0 <= n <= Z.of_nat (length b) ->
  exists sdu, sdu = take (Z.to_nat n) b /\
    buf_write (pre ++ (take 3 rest ++ b ++ drop (length b) (drop 3 rest))) (length pre) (NR_MAC_SUBHEADER_LONG lcid n) =
    (pre ++ sdu_bytes (lcid, sdu)) ++ drop (Z.to_nat n) b ++ drop (length b) (drop 3 rest) /\
    Z.of_nat (length sdu) = n.
Proof.
  intros H Hn. set (sdu := take (Z.to_nat n) b). assert (Hsdu : Z.of_nat (length sdu) = n) by (unfold sdu; rewrite length_take; lia).
  exists sdu. split; [done|]. split; [|done]. rewrite buf_write_app by (rewrite length_long, !length_app, length_take; lia).
  rewrite drop_app_length' by (rewrite length_long, length_take; lia). rewrite <- !app_assoc. f_equal.
  unfold sdu_bytes. cbn [fst snd]. rewrite Hsdu, <- app_assoc, (app_assoc sdu). f_equal. f_equal. unfold sdu. by rewrite take_drop.
Qed.

(** ** The transport block of the gNB *)

(** One request of three bytes and more behind [pre], and the header when there is data. *)
Lemma logged_request {St} (req : St -> Z -> list Z -> res (St * (list Z * Z))) `{!RlcService req} {A} s log lcid pre rest nd
  (k : St * list (Z * list Z) * (list Z * Z) -> res A) P :
  0 <= nd -> nd + 3 <= Z.of_nat (length rest) ->
  (forall s' rest' b, length (pre ++ rest') = length (pre ++ rest) ->
     buf_write (pre ++ rest) (Z.to_nat (Z.of_nat (length pre) + 3)) b = pre ++ rest' -> unless_rlc_fails req (k ((s', log), (b, 0))) P) ->
  (forall s' rest' b n, 0 < n <= nd -> (exists off, req s lcid off = Ok (s', (b, n))) -> length ((pre ++ sdu_bytes (lcid, take (Z.to_nat n) b)) ++ rest') = length (pre ++ rest) ->
     Z.of_nat (length (take (Z.to_nat n) b)) = n ->
     buf_write (buf_write (pre ++ rest) (Z.to_nat (Z.of_nat (length pre) + 3)) b) (Z.to_nat (Z.of_nat (length pre))) (NR_MAC_SUBHEADER_LONG lcid n) =
       (pre ++ sdu_bytes (lcid, take (Z.to_nat n) b)) ++ rest' ->
     unless_rlc_fails req (k ((s', log ++ [(lcid, take (Z.to_nat n) b)]), (b, n))) P) ->
  unless_rlc_fails req (let* offered := rd_bytes (pre ++ rest) (Z.of_nat (length pre) + 3) nd in
                        let* x := logged req (s, log) lcid offered in k x) P.
Proof.
  intros Hnd Hr H0 H1. unfold rd_bytes. replace (_ <=? _) with true by (symmetry; apply Z.leb_le; rewrite length_app; lia).
  cbn [rbind]. set (off := take _ _). assert (Hoff : Z.of_nat (length off) = nd).
  { unfold off. rewrite length_take, length_drop, length_app. lia. }
  unfold logged. cbn [fst snd]. destruct (req s lcid off) as [[s' [b n]]| |f] eqn:E; cbn [rbind]; [|exists s, lcid, off; exact E..].
  destruct (req_bounded _ _ _ _ _ _ E) as [Hlb Hn].
  replace (Z.to_nat (Z.of_nat (length pre) + 3)) with (length pre + 3)%nat in * by lia.
  destruct (Z.eqb_spec n 0) as [->|Hn0].
  - eapply H0; [|apply buf_write_behind; lia]. rewrite !length_app, length_take, !length_drop. lia.
  - destruct (add_header lcid pre rest b n) as [sdu (Hsdu & Esdu & Hl)]; [lia..|]. rewrite Hsdu in Esdu, Hl.
    eapply H1; [lia|by exists off| |done|rewrite buf_write_behind, Nat2Z.id by lia; exact Esdu].
    rewrite !length_app, length_sdu_bytes, !length_drop. cbn [snd]. lia.
Qed.

Section Downlink.

Context {St : Type} (req : St -> Z -> list Z -> res (St * (list Z * Z))) `{!RlcService req}.

(** What a part of the block has become: [pre] is left alone, SDUs on the channels [C] follow,
    inside the first [TBS] bytes of the buffer of [n] bytes. *)
Definition filled (C : Z -> Prop) (pre : list Z) (n : nat) (TBS : Z) (log : list (Z * list Z))
  (r : St * list (Z * list Z) * list Z * Z) : Prop :=
  exists s new rest, r = (s, log ++ new, pre ++ concat (sdu_bytes <$> new) ++ rest,
                          Z.of_nat (length pre + length (concat (sdu_bytes <$> new)))) /\
    length (pre ++ concat (sdu_bytes <$> new) ++ rest) = n /\
    Z.of_nat (length pre + length (concat (sdu_bytes <$> new))) <= TBS /\ Forall (fun x => C (fst x) /\ sdu_ok x) new.

Lemma filled_none C s pre rest n TBS log :
  length (pre ++ rest) = n -> Z.of_nat (length pre) <= TBS ->
  filled C pre n TBS log (s, log, pre ++ rest, Z.of_nat (length pre)).
Proof. intros Hn Hl. exists s, [], rest. cbn. rewrite app_nil_r, Nat.add_0_r. done. Qed.

(** A part behind another part. *)
Lemma filled_after C pre new1 n TBS log r :
  filled C (pre ++ concat (sdu_bytes <$> new1)) n TBS (log ++ new1) r -> Forall (fun x => C (fst x) /\ sdu_ok x) new1 ->
  filled C pre n TBS log r.
Proof.
  intros (s & new2 & rest & -> & Hl & Hb & H2) H1. exists s, (new1 ++ new2), rest. rewrite fmap_app, concat_app, <- !app_assoc in *.
  rewrite !length_app in *. split; [f_equal; lia|]. split; [done|]. split; [lia|]. by apply Forall_app.
Qed.

Lemma dl_lc_loop_filled C lcid bytes TBS fuel : TBS < 2 ^ 16 -> 0 < bytes < 2 ^ 31 -> C lcid -> forall s log pre rest,
  Z.of_nat (length pre) <= TBS <= Z.of_nat (length (pre ++ rest)) -> TBS - Z.of_nat (length pre) <= Z.of_nat fuel ->
  unless_rlc_fails req (dl_lc_loop (logged req) fuel (s, log) lcid bytes (pre ++ rest) (Z.of_nat (length pre)) TBS)
    (filled C pre (length (pre ++ rest)) TBS log).
Proof.
  intros HT Hb HC. induction fuel as [|fuel IH]; intros s log pre rest HL Hf; rewrite length_app in HL.
  all: cbn [dl_lc_loop]; unfold u64; rewrite (Z.mod_small (TBS - _)) by lia.
  - replace (_ >? _) with false by (symmetry; rewrite Z.gtb_ltb; apply Z.ltb_ge; lia). apply filled_none; [done|lia].
  - rewrite Z.gtb_ltb. destruct (Z.ltb_spec (3 + 1) (TBS - Z.of_nat (length pre))) as [Hlt|Hge]; [|apply filled_none; [done|lia]].
    rewrite !Z.mod_small by lia. apply logged_request; [done|lia|lia|..].
    + intros s' rest' b Hlen ->. cbn [Z.eqb]. rewrite <- Hlen. apply filled_none; [done|lia].
    + intros s' rest' b n Hn _ Hlen Hsdu ->. set (x := (lcid, take (Z.to_nat n) b)) in *.
      replace (n =? 0) with false by (symmetry; apply Z.eqb_neq; lia).
      assert (Hpre : Z.of_nat (length pre) + n + 3 = Z.of_nat (length (pre ++ sdu_bytes x)))
        by (rewrite length_app, length_sdu_bytes; cbn [snd x]; lia).
      rewrite Hpre. assert (HL' : Z.of_nat (length pre) + n + 3 <= TBS) by lia.
      eapply unless_impl; [apply IH; rewrite ?Hlen, ?length_app in *; lia|]. intros r Hr. rewrite Hlen in Hr.
      apply (filled_after C pre [x]); [cbn [fmap list_fmap concat]; by rewrite app_nil_r|].
      constructor; [|done]. split; [done|]. unfold sdu_ok. cbn [snd x]. lia.
Qed.

Lemma dl_channels_filled C TBS : TBS < 2 ^ 16 -> forall lcs s log pre rest,
  Forall (fun lc => C (fst lc) /\ 0 <= snd lc < 2 ^ 31) lcs -> Z.of_nat (length pre) <= TBS <= Z.of_nat (length (pre ++ rest)) ->
  unless_rlc_fails req (dl_channels (logged req) (s, log) lcs (pre ++ rest) (Z.of_nat (length pre)) TBS)
    (filled C pre (length (pre ++ rest)) TBS log).
Proof.
  intros HT. induction lcs as [|[lcid bytes] lcs IH]; intros s log pre rest Hlc HL; cbn [dl_channels].
  - apply filled_none; [done|lia].
  - apply list.Forall_cons in Hlc as [[HC Hb] Hlc]. cbn [fst snd] in HC, Hb. destruct (Z.eqb_spec bytes 0) as [->|H0]; [by apply IH|].
    eapply unless_bind; [apply (dl_lc_loop_filled C); [done|lia|done|done|lia]|].
    intros r (s1 & new1 & r1 & -> & L1 & B1 & H1). rewrite app_assoc, <- length_app.
    eapply unless_impl; [apply IH; [done|rewrite <- app_assoc, L1, length_app; lia]|].
    intros r Hr. rewrite <- app_assoc, L1 in Hr. by apply (filled_after C pre new1).
Qed.

End Downlink.

(** ** The UE takes a block apart *)

(** The UE reads the sub-PDU [bytes] in one turn, with the effect [f]. *)
Definition ue_takes (bytes : list Z) (f : ue_mac -> ue_mac) : Prop :=
  forall mac rest fuel,
    nr_ue_process_loop (S fuel) mac (bytes ++ rest) (Z.of_nat (length (bytes ++ rest))) =
    nr_ue_process_loop fuel (f mac) rest (Z.of_nat (length rest)).

Lemma ue_takes_list l : Forall (fun x => ue_takes (fst x) (snd x)) l -> forall mac rest fuel,
  nr_ue_process_loop (length l + fuel) mac (concat (fst <$> l) ++ rest) (Z.of_nat (length (concat (fst <$> l) ++ rest))) =
  nr_ue_process_loop fuel (fold_left (fun m x => snd x m) l mac) rest (Z.of_nat (length rest)).
Proof.
  induction 1 as [|[b f] l Hx Hl IH]; intros mac rest fuel; [done|].
  cbn [length Nat.add fmap list_fmap concat fst snd fold_left]. rewrite <- app_assoc. rewrite (Hx mac). apply IH.
Qed.

(** One turn, from the outcome of the sub-PDU. *)
Lemma ue_takes_intro bytes f sh n :
  (0 < length bytes)%nat -> sh + n = Z.of_nat (length bytes) ->
  (forall mac rest, ue_sub_pdu mac (bytes ++ rest) (Z.of_nat (length (bytes ++ rest))) = Ok (inl (f mac, sh, n, false))) ->
  ue_takes bytes f.
Proof.
  intros H0 Hlen H mac rest fuel. cbn [nr_ue_process_loop].
  replace (_ >? 0) with true by (symmetry; rewrite Z.gtb_ltb; apply Z.ltb_lt; rewrite length_app; lia).
  rewrite H. cbn [rbind]. rewrite Hlen, Nat2Z.id, drop_app_length. f_equal. rewrite length_app. lia.
Qed.

Lemma lcid_long lcid : lcid_of (64 + lcid mod 64) = lcid mod 64.
Proof. unfold lcid_of. replace (64 + lcid mod 64) with (lcid mod 64 + 1 * 64) by lia. rewrite Z.mod_add, Z.mod_mod by lia. done. Qed.

Lemma long_format lcid : Z.testbit (64 + lcid mod 64) 6 = true.
Proof.
  pose proof (Z.mod_pos_bound lcid 64 ltac:(lia)). rewrite Z.testbit_true by lia. change (2 ^ 6) with 64.
  replace ((64 + lcid mod 64) / 64) with 1 by (apply (Z.div_unique _ _ _ (lcid mod 64)); lia). done.
Qed.

Lemma get_mac_len_long lcid n rest pdu_len :
  0 <= n < 2 ^ 16 -> 3 <= pdu_len -> get_mac_len (NR_MAC_SUBHEADER_LONG lcid n ++ rest) pdu_len = Ok (Some (n, 3)).
Proof.
  intros Hn Hl. unfold get_mac_len. replace (pdu_len <? 2) with false by (symmetry; apply Z.ltb_ge; lia).
  cbn [NR_MAC_SUBHEADER_LONG app rd lookup list_lookup rbind]. rewrite long_format.
  replace (pdu_len <? 3) with false by (symmetry; apply Z.ltb_ge; lia). cbn. do 2 f_equal. f_equal.
  unfold u16. rewrite Z.mod_small by done. pose proof (Z.div_mod n 256 ltac:(lia)). lia.
Qed.

Lemma rd_bytes_app (a b c : list Z) n : n = Z.of_nat (length b) -> rd_bytes (a ++ b ++ c) (Z.of_nat (length a)) n = Ok b.
Proof.
  intros ->. unfold rd_bytes. replace (_ <=? _) with true by (symmetry; apply Z.leb_le; rewrite !length_app; lia).
  rewrite !Nat2Z.id, drop_app_length, take_app_length. done.
Qed.

Lemma ue_takes_sdu x : 1 <= fst x < NB_RB_MAX -> sdu_ok x ->
  ue_takes (sdu_bytes x) (fun mac => ue_ind mac (rlc_data_ind (crnti mac) (fst x) (snd x))).
Proof.
  destruct x as [lcid p]. cbn [fst snd]. intros Hl Hok. unfold sdu_ok in Hok. cbn [snd] in Hok. unfold NB_RB_MAX in Hl.
  apply ue_takes_intro with (sh := 3) (n := Z.of_nat (length p)); [rewrite length_sdu_bytes; lia|rewrite length_sdu_bytes; cbn [snd]; lia|].
  intros mac rest. unfold ue_sub_pdu, sdu_bytes. cbn [fst snd]. rewrite <- app_assoc. set (tb := _ ++ p ++ rest).
  assert (Hrd : rd tb 0 = Ok (64 + lcid mod 64)) by done. rewrite Hrd. cbn [rbind]. rewrite lcid_long, Z.mod_small by lia.
  assert (Hne : forall c, c = 0 \/ 14 <= c -> (lcid =? c) = false) by (intros c Hc; apply Z.eqb_neq; lia).
  unfold skipped_ce_len. rewrite !Hne by first [by left | right; vm_compute; discriminate]. cbn [orb].
  unfold ue_sdu, tb. rewrite get_mac_len_long by (rewrite ?length_app, ?length_long; lia). cbn [rbind].
  replace ((lcid <? NB_RB_MAX) && _) with true by (symmetry; apply andb_true_iff; unfold NB_RB_MAX, DL_SCH_LCID_DCCH; split; [apply Z.ltb_lt|rewrite Z.geb_leb; apply Z.leb_le]; lia).
  change 3 with (Z.of_nat (length (NR_MAC_SUBHEADER_LONG lcid (Z.of_nat (length p))))) at 2. by rewrite rd_bytes_app.
Qed.

(** Control elements of a fixed length that the UE skips. *)
Lemma ue_takes_skipped lcid bytes :
  0 <= lcid < 64 -> skipped_ce_len lcid = Some (Z.of_nat (length bytes)) -> ue_takes (NR_MAC_SUBHEADER_FIXED lcid ++ bytes) id.
Proof.
  intros Hl Hs. apply ue_takes_intro with (sh := 1) (n := Z.of_nat (length bytes)); [cbn; lia|cbn [length app NR_MAC_SUBHEADER_FIXED]; lia|].
  intros mac rest. unfold ue_sub_pdu. cbn [NR_MAC_SUBHEADER_FIXED app rd lookup list_lookup rbind]. unfold lcid_of.
  rewrite Z.mod_mod, Z.mod_small by lia. rewrite Hs.
  assert (Hne : forall c, skipped_ce_len c = None -> (lcid =? c) = false)
    by (intros c Hc; apply Z.eqb_neq; intros ->; congruence).
  rewrite !Hne by reflexivity. done.
Qed.

Definition set_ta (ta tag : Z) (mac : ue_mac) : ue_mac := mac <| ul_time_alignment := mk_time_alignment true ta tag |>.

Lemma ue_takes_ta ta tag : 0 <= ta < 64 -> 
  ue_takes (NR_MAC_SUBHEADER_FIXED DL_SCH_LCID_TA_COMMAND ++ [ta mod 64 + 64 * tag]) (set_ta ta tag).
Proof.
  intros Ha. apply ue_takes_intro with (sh := 1) (n := 1); [cbn; lia|done|].
  intros mac rest. unfold ue_sub_pdu. cbn [NR_MAC_SUBHEADER_FIXED app rd lookup list_lookup rbind].
  change (lcid_of (DL_SCH_LCID_TA_COMMAND mod 64)) with DL_SCH_LCID_TA_COMMAND. cbn -[Z.mul Z.modulo Z.div]. unfold set_ta.
  rewrite (Z.mod_small ta) by done. replace (ta + 64 * tag) with (ta + tag * 64) by lia.
  rewrite Z.mod_add, Z.div_add, (Z.mod_small ta), (Z.div_small ta) by lia. done.
Qed.

Lemma get_mac_len_short lcid n rest pdu_len :
  0 <= n < 2 ^ 8 -> 2 <= pdu_len -> get_mac_len (NR_MAC_SUBHEADER_SHORT lcid n ++ rest) pdu_len = Ok (Some (n, 2)).
Proof.
  intros Hn Hl. unfold get_mac_len. replace (pdu_len <? 2) with false by (symmetry; apply Z.ltb_ge; lia).
  cbn [NR_MAC_SUBHEADER_SHORT app rd lookup list_lookup rbind].
  assert (Ht : Z.testbit (lcid mod 64) 6 = false).
  { change 64 with (2 ^ 6). rewrite Z.mod_pow2_bits_high by lia. done. }
  rewrite Ht. unfold u8. rewrite Z.mod_small by done. done.
Qed.

(** Control elements of a variable length that the UE skips. *)
Lemma ue_takes_variable lcid (bytes : list Z) :
  lcid = DL_SCH_LCID_TCI_STATE_ACT_UE_SPEC_PDSCH \/ lcid = DL_SCH_LCID_APERIODIC_CSI_TRI_STATE_SUBSEL ->
  Z.of_nat (length bytes) < 2 ^ 8 -> ue_takes (NR_MAC_SUBHEADER_SHORT lcid (Z.of_nat (length bytes)) ++ bytes) id.
Proof.
  intros Hl Hb. apply ue_takes_intro with (sh := 2) (n := Z.of_nat (length bytes)); [cbn; lia|cbn [length app NR_MAC_SUBHEADER_SHORT]; lia|].
  intros mac rest. unfold ue_sub_pdu. rewrite <- app_assoc. set (tb := _ ++ bytes ++ rest).
  assert (Hrd : rd tb 0 = Ok (lcid mod 64)) by done. rewrite Hrd. cbn [rbind].
  assert (Hget : get_mac_len tb (Z.of_nat (length tb)) = Ok (Some (Z.of_nat (length bytes), 2))).
  { apply get_mac_len_short; [lia|]. unfold tb. cbn [length app NR_MAC_SUBHEADER_SHORT]. lia. }
  clearbody tb. destruct Hl as [-> | ->]; cbn -[get_mac_len]; rewrite Hget; done.
Qed.

Lemma state_octets_length states ks : forall T, state_octets states ks = Ok T -> length T = length ks.
Proof.
  induction ks as [|k ks IH]; cbn [state_octets]; intros T H; [by injection H as <-|].
  bind_ok H. bind_ok H. injection H as <-. cbn [length]. f_equal. by apply IH.
Qed.

Lemma ue_takes_selection lcid s bytes :
  lcid = DL_SCH_LCID_TCI_STATE_ACT_UE_SPEC_PDSCH \/ lcid = DL_SCH_LCID_APERIODIC_CSI_TRI_STATE_SUBSEL ->
  0 <= ss_highest s < 128 -> selection_ce lcid s = Ok bytes -> ue_takes bytes id.
Proof.
  intros Hl Hh H. unfold selection_ce in H. set (n := u8 _) in H. assert (Hn : 0 <= n <= 16).
  { unfold n, u8. assert (0 <= ss_highest s / 8 < 16) by (split; [apply Z.div_pos|apply Z.div_lt_upper_bound]; lia).
    rewrite Z.mod_small by lia. lia. }
  bind_ok H. apply state_octets_length in E. rewrite length_seq in E. injection H as <-.
  set (body := _ :: x). replace (1 + n) with (Z.of_nat (length body)) by (unfold body; cbn [length]; lia).
  apply ue_takes_variable; [done|]. unfold body. cbn [length]. lia.
Qed.

(** The UE reads [bytes], a sequence of sub-PDUs, with the effect [f]. *)
Definition ue_reads (bytes : list Z) (f : ue_mac -> ue_mac) : Prop :=
  exists l, Forall (fun x => ue_takes (fst x) (snd x)) l /\ concat (fst <$> l) = bytes /\ (length l <= length bytes)%nat /\
    forall mac, fold_left (fun m x => snd x m) l mac = f mac.

Lemma ue_reads_nil : ue_reads [] id.
Proof. exists []. done. Qed.

Lemma ue_reads_one bytes f : (0 < length bytes)%nat -> ue_takes bytes f -> ue_reads bytes f.
Proof. intros H0 H. exists [(bytes, f)]. cbn. rewrite app_nil_r. split; [by constructor|]. split; [done|]. split; [lia|done]. Qed.

Lemma ue_reads_app b1 b2 f1 f2 : ue_reads b1 f1 -> ue_reads b2 f2 -> ue_reads (b1 ++ b2) (fun m => f2 (f1 m)).
Proof.
  intros (l1 & H1 & <- & L1 & E1) (l2 & H2 & <- & L2 & E2). exists (l1 ++ l2). rewrite fmap_app, concat_app, !length_app.
  split; [by apply Forall_app|]. split; [done|]. split; [lia|]. intros mac. by rewrite fold_left_app, E1, E2.
Qed.

Lemma ue_reads_opt {A} (o : option A) (f : A -> res (list Z)) bytes (g : option A -> ue_mac -> ue_mac) :
  opt_ce o f = Ok bytes -> (forall m, g None m = m) ->
  (forall a, o = Some a -> f a = Ok bytes -> (0 < length bytes)%nat /\ ue_takes bytes (g (Some a))) -> ue_reads bytes (g o).
Proof.
  intros H H0 Ha. destruct o as [a|]; cbn in H.
  - destruct (Ha a eq_refl H). by apply ue_reads_one.
  - injection H as <-. exists []. split; [done|]. split; [done|]. split; [done|]. intros m. by rewrite H0.
Qed.

(** The effect of the control elements of a block on the UE: the timing advance. *)
Definition sent_tag (garbage : list Z) (c : ce_input) : Z :=
  if negb (gNB_tag_Id c =? 0) then gNB_tag_Id c mod 4 else buf_get garbage 0 / 64.

Definition ta_effect (garbage : list Z) (c : ce_input) (mac : ue_mac) : ue_mac :=
  match ta_update c with Some ta => set_ta ta (sent_tag garbage c) mac | None => mac end.

Record ces_ok (c : ce_input) : Prop := mk_ces_ok {
  ok_ta : forall ta, ta_update c = Some ta -> 0 <= ta;
  ok_im : csi_im (UE_mac_ce_ctrl c) = None;
  ok_pdsch : forall s, pdsch_TCI_States_ActDeact (UE_mac_ce_ctrl c) = Some s -> 0 <= ss_highest s < 128;
  ok_aper : forall s, aperi_CSI_trigger (UE_mac_ce_ctrl c) = Some s -> 0 <= ss_highest s < 128
}.

Lemma selection_ce_nonempty lcid s bytes : selection_ce lcid s = Ok bytes -> (0 < length bytes)%nat.
Proof. unfold selection_ce. intros H. bind_ok H. injection H as <-. cbn. lia. Qed.

Ltac skipped_ce := split; [cbn; lia|]; apply (ue_takes_skipped); [by vm_compute|done].

(** The UE reads all control elements of the gNB but those of the CSI-IM resource sets. *)
Lemma ue_reads_ces garbage c ces :
  ces_ok c -> nr_write_ce_dlsch_pdu garbage c 255 None = Ok ces -> ue_reads ces (ta_effect garbage c).
Proof.
  intros [Hta Him Hpd Hap] H. unfold nr_write_ce_dlsch_pdu in H. cbn [Z.eqb negb opt_ce rbind] in H.
  rewrite Him in H. cbn [opt_ce rbind] in H.
  apply rbind_ok in H as (ta & E1 & H). apply rbind_ok in H as (tci & E2 & H). apply rbind_ok in H as (sp & E3 & H).
  apply rbind_ok in H as (pdsch & E4 & H). apply rbind_ok in H as (aper & E5 & H). apply rbind_ok in H as (zp & E6 & H).
  cbn [app] in H. rewrite !app_nil_r in H. injection H as <-.
  assert (Hid : forall (A : Type) (o : option A) f bytes, opt_ce o f = Ok bytes ->
    (forall a, o = Some a -> f a = Ok bytes -> (0 < length bytes)%nat /\ ue_takes bytes id) -> ue_reads bytes id).
  { intros A o f bytes E Ha. apply (ue_reads_opt o f bytes (fun _ => id)); auto. }
  assert (Rta : ue_reads ta (ta_effect garbage c)).
  { apply (ue_reads_opt _ _ _ (fun o mac => match o with Some t => set_ta t (sent_tag garbage c) mac | None => mac end)) in E1; [exact E1|done|].
    intros t Et Ht. destruct (Z.ltb_spec t 64); [|done]. injection Ht as <-. split; [cbn; lia|]. apply ue_takes_ta. specialize (Hta t Et). lia. }
  apply (Hid _ _ _ _) in E2; [|intros a _ [= <-]; skipped_ce].
  apply (Hid _ _ _ _) in E3; [|intros a _ Ha; do 4 bind_ok Ha; injection Ha as <-; skipped_ce].
  apply (Hid _ _ _ _) in E4; [|intros a Hs Ha; split; [by eapply selection_ce_nonempty|]; eapply ue_takes_selection; [|by apply Hpd|done]; by left].
  apply (Hid _ _ _ _) in E5; [|intros a Hs Ha; split; [by eapply selection_ce_nonempty|]; eapply ue_takes_selection; [|by apply Hap|done]; by right].
  apply (Hid _ _ _ _) in E6; [|intros a _ [= <-]; skipped_ce].
  exact (ue_reads_app _ _ _ _ Rta (ue_reads_app _ _ _ _ E2 (ue_reads_app _ _ _ _ E3 (ue_reads_app _ _ _ _ E4 (ue_reads_app _ _ _ _ E5 E6))))).
Qed.

Lemma ue_reads_sdus l : Forall (fun x => 1 <= fst x < NB_RB_MAX /\ sdu_ok x) l ->
  ue_reads (concat (sdu_bytes <$> l))
    (fun mac => mac <| ue_inds := ue_inds mac ++ ((fun x => rlc_data_ind (crnti mac) (fst x) (snd x)) <$> l) |>).
Proof.
  induction 1 as [|x l [Hx Hok] Hl IH].
  - exists []. split; [done|]. split; [done|]. split; [done|]. intros mac. cbn. rewrite app_nil_r. by destruct mac.
  - cbn [fmap list_fmap concat].
    pose proof (ue_reads_app _ _ _ _ (ue_reads_one _ _ ltac:(rewrite length_sdu_bytes; lia) (ue_takes_sdu x Hx Hok)) IH) as (L & H1 & H2 & H3 & H4).
    exists L. split; [done|]. split; [done|]. split; [done|]. intros mac. rewrite H4. unfold ue_ind. cbn. by rewrite <- app_assoc.
Qed.

(** The rest of the block: padding, or nothing. *)
Lemma ue_padding mac fuel pad : (pad = [] \/ exists tl, pad = DL_SCH_LCID_PADDING :: tl) -> (length pad <= fuel)%nat ->
  nr_ue_process_loop fuel mac pad (Z.of_nat (length pad)) = Ok mac.
Proof.
  intros [-> |[tl ->]] Hf; [by destruct fuel|]. destruct fuel as [|fuel]; [cbn in Hf; lia|]. cbn [nr_ue_process_loop].
  replace (_ >? 0) with true by (symmetry; rewrite Z.gtb_ltb; apply Z.ltb_lt; cbn [length]; lia). done.
Qed.

Lemma ue_reads_block bytes f mac pad : ue_reads bytes f -> (pad = [] \/ exists tl, pad = DL_SCH_LCID_PADDING :: tl) ->
  nr_ue_process_mac_pdu mac (bytes ++ pad) (Z.of_nat (length (bytes ++ pad))) = Ok (f mac).
Proof.
  intros (l & Hl & <- & Hlen & Hf) Hpad. unfold nr_ue_process_mac_pdu. rewrite Nat2Z.id.
  assert (Hn : length (concat (fst <$> l) ++ pad) = (length l + (length (concat (fst <$> l)) - length l + length pad))%nat)
    by (rewrite length_app; lia).
  rewrite Hn at 1. rewrite ue_takes_list, Hf by done. apply ue_padding; [done|lia].
Qed.

Definition block_indications (mac : ue_mac) (l : list (Z * list Z)) : list mac_ind :=
  (fun x => rlc_data_ind (crnti mac) (fst x) (snd x)) <$> l.

Lemma dl_padding_spec pre rest TBS :
  Z.of_nat (length pre) <= TBS <= Z.of_nat (length (pre ++ rest)) ->
  exists pad tl, dl_padding (pre ++ rest) (Z.of_nat (length pre)) TBS = pre ++ pad ++ tl /\
    Z.of_nat (length (pre ++ pad)) = TBS /\ length (pre ++ pad ++ tl) = length (pre ++ rest) /\ (pad = [] \/ exists p, pad = DL_SCH_LCID_PADDING :: p).
Proof.
  intros H. rewrite length_app in H. unfold dl_padding. rewrite Z.gtb_ltb.
  destruct (Z.ltb_spec 0 (TBS - Z.of_nat (length pre))) as [Hlt|Hge].
  - rewrite Nat2Z.id, buf_write_app by (rewrite length_app, length_replicate; cbn [length NR_MAC_SUBHEADER_FIXED]; lia).
    eexists _, _. split; [done|]. split; [|split; [|right; eexists; done]];
      rewrite !length_app, ?length_drop, ?length_app, length_replicate; cbn [length NR_MAC_SUBHEADER_FIXED]; lia.
  - exists [], rest. split; [done|]. rewrite app_nil_r. split; [lia|]. split; [done|by left].
Qed.

(** The block of the gNB, read by the UE. *)
Lemma dl_block_read (St : Type) (req : St -> Z -> list Z -> res (St * (list Z * Z))) (garbage ces tb : list Z) (s : St)
  (c : ce_input) (num_total_bytes TBS : Z) (lcs : list (Z * Z)) (mac : ue_mac) :
  RlcService req -> ces_ok c -> nr_write_ce_dlsch_pdu garbage c 255 None = Ok ces ->
  Z.of_nat (length ces) < TBS <= Z.of_nat (length tb) -> TBS < 2 ^ 16 ->
  Forall (fun lc => 1 <= fst lc < NB_RB_MAX /\ 0 <= snd lc < 2 ^ 31) lcs ->
  unless_rlc_fails req (dlsch_transport_block (logged req) garbage (s, []) c num_total_bytes lcs None tb TBS)
    (fun '(s', log, tb') =>
       (0 < num_total_bytes \/ log = []) /\ length tb' = length tb /\
       nr_ue_process_mac_pdu mac (take (Z.to_nat TBS) tb') TBS =
       Ok (ta_effect garbage c mac <| ue_inds := ue_inds mac ++ block_indications mac log |>)).
Proof.
  intros Hreq Hces Ec HT HT2 Hlcs. unfold dlsch_transport_block. rewrite Ec. cbn [rbind].
  replace (_ <? _) with false by (symmetry; apply Z.ltb_ge; lia).
  replace (TBS >? _) with true by (symmetry; rewrite Z.gtb_ltb; apply Z.ltb_lt; lia). rewrite buf_write_0.
  set (rest := drop (length ces) tb). assert (Hrest : length (ces ++ rest) = length tb) by (unfold rest; rewrite length_app, length_drop; lia).
  eapply (unless_bind req _ _ (fun r => filled (fun l => 1 <= l < NB_RB_MAX) ces (length tb) TBS [] r /\ (0 < num_total_bytes \/ r.1.1.2 = []))).
  { rewrite Z.gtb_ltb. destruct (Z.ltb_spec 0 num_total_bytes).
    - eapply unless_impl; [apply (dl_channels_filled req (fun l => 1 <= l < NB_RB_MAX)); [done|done|lia]|].
      intros r Hr. rewrite Hrest in Hr. split; [done|by left].
    - split; [by apply filled_none; [|lia]|by right]. }
  intros r [(s' & new & rest' & -> & Hlen & Hb & Hnew) Hnum]. cbn [fst snd app] in *. rewrite app_assoc, <- length_app.
  destruct (dl_padding_spec (ces ++ concat (sdu_bytes <$> new)) rest' TBS) as (pad & tl & Epad & Hpad & Hl & Hform).
  { rewrite length_app. rewrite <- app_assoc, Hlen. lia. }
  rewrite Epad. cbn [unless_rlc_fails]. split; [done|]. split; [by rewrite Hl, <- app_assoc, Hlen|].
  rewrite (app_assoc _ pad), <- Hpad, Nat2Z.id, take_app_length.
  rewrite (ue_reads_block _ _ _ _ (ue_reads_app _ _ _ _ (ue_reads_ces _ _ _ Hces Ec) (ue_reads_sdus _ Hnew)) Hform).
  f_equal. unfold block_indications, ta_effect. by destruct (ta_update c).
Qed.

(** C29. Downlink: whatever RLC answers, within the buffers offered, the gNB builds a transport
    block unless a request to RLC itself fails, and the UE that takes the block apart hands to RLC
    exactly the PDUs that the RLC of the gNB gave for it, on the logical channels they came from
    and in this order, and takes over the timing advance; nothing else of the UE changes. *)
Theorem dl_transport_block (St : Type) (req : St -> Z -> list Z -> res (St * (list Z * Z))) (garbage ces tb : list Z) (s : St)
  (c : ce_input) (num_total_bytes TBS : Z) (lcs : list (Z * Z)) (mac : ue_mac) :
  RlcService req -> ces_ok c -> nr_write_ce_dlsch_pdu garbage c 255 None = Ok ces ->
  Z.of_nat (length ces) < TBS <= Z.of_nat (length tb) -> TBS < 2 ^ 16 ->
  Forall (fun lc => 1 <= fst lc < NB_RB_MAX /\ 0 <= snd lc < 2 ^ 31) lcs ->
  unless_rlc_fails req (dlsch_transport_block (logged req) garbage (s, []) c num_total_bytes lcs None tb TBS)
    (fun '(s', log, tb') =>
       (0 < num_total_bytes \/ log = []) /\ length tb' = length tb /\
       nr_ue_process_mac_pdu mac (take (Z.to_nat TBS) tb') TBS =
       Ok (ta_effect garbage c mac <| ue_inds := ue_inds mac ++ block_indications mac log |>)).
Proof. apply dl_block_read. Qed.

(** An RLC that gives the PDUs of a queue, one for each request it fits in. *)
Definition queue_req (s : list (list Z)) (lcid : Z) (buf : list Z) : res (list (list Z) * (list Z * Z)) :=
  match s with
  | p :: tl => if (length p <=? length buf)%nat then Ok (tl, (p ++ drop (length p) buf, Z.of_nat (length p))) else Ok (s, (buf, 0))
  | [] => Ok (s, (buf, 0))
  end.

#[export] Instance queue_service : RlcService queue_req.
Proof.
  intros s lcid buf s' b n H. unfold queue_req in H. destruct s as [|p tl]; [injection H as <- <- <-; lia|].
  destruct (Nat.leb_spec (length p) (length buf)); injection H as <- <- <-; [|lia]. rewrite length_app, length_drop. lia.
Qed.

Definition no_ces : NR_UE_mac_ce_ctrl_t := mk_ce_ctrl None None None None None None.
Definition idle_ue : ue_mac :=
  mk_ue_mac 0x1234 (mk_RA_config RA_SUCCEEDED false false 0 false 0 [] RA_UE_IDLE) (mk_time_alignment false 0 0) [].

Lemma dl_transport_block_witness :
  exists s tb, dlsch_transport_block (logged queue_req) [] ([[1; 2; 3]; [4]; [5; 6; 7; 8]], []) (mk_ce_input (Some 31) 1 no_ces) 20 [(4, 20); (5, 0); (6, 9)]
      None (replicate 20 0xAA) 18 = Ok (s, [(4, [1; 2; 3]); (4, [4])], tb) /\
    nr_ue_process_mac_pdu idle_ue (take 18 tb) 18 =
    Ok (idle_ue <| ul_time_alignment := mk_time_alignment true 31 1 |>
                <| ue_inds := [rlc_data_ind 0x1234 4 [1; 2; 3]; rlc_data_ind 0x1234 4 [4]] |>).
Proof.
  opose proof* (dl_transport_block (list (list Z)) queue_req [] [61; 95] (replicate 20 0xAA) [[1; 2; 3]; [4]; [5; 6; 7; 8]]
    (mk_ce_input (Some 31) 1 no_ces) 20 18 [(4, 20); (5, 0); (6, 9)] idle_ue queue_service) as H;
    [split; [intros ta Hta; injection Hta as <-; lia|done|done|done]|done|cbn; lia|lia|repeat constructor; cbn; unfold NB_RB_MAX; lia|].
  destruct (dlsch_transport_block _ _ _ _ _ _ _ _ _) as [[[s log] tb]| |] eqn:E; [|vm_compute in E; discriminate..].
  destruct H as (_ & _ & H). assert (Hlog : log = [(4, [1; 2; 3]); (4, [4])]) by (vm_compute in E; by injection E as <- <-).
  rewrite Hlog in *. exists s, tb. split; [done|exact H].
Defined.
