(* ===== verification/MacUl.v ===== *)
(** MAC PDUs of the uplink: the transport block of a UE with its buffer status report, and what the
    gNB makes of it.  [nr_ue_scheduler.c], [nr_ue_procedures.c], [gNB_scheduler_ulsch.c].

    Values of ASN.1 enumerations are their numbers.  Random padding (RFSIM) is not modelled. *)

From S2P Require Import Prelude.
From S2P Require Import MacPdu.

Definition NR_SHORT_BSR_TABLE : list Z :=
  [0; 10; 14; 20; 28; 38; 53; 74; 102; 142; 198; 276; 384; 535; 745; 1038; 1446; 2014; 2806; 3909; 5446; 7587; 10570;
   14726; 20516; 28581; 39818; 55474; 77284; 107669; 150000; 300000].

Definition NR_LONG_BSR_TABLE : list Z :=
  [0; 10; 11; 12; 13; 14; 15; 16; 17; 18; 19; 20; 22; 23; 25; 26; 28; 30; 32; 34; 36; 38; 40; 43; 46; 49; 52; 55; 59;
   62; 66; 71; 75; 80; 85; 91; 97; 103; 110; 117; 124; 132; 141; 150; 160; 170; 181; 193; 205; 218; 233; 248; 264; 281;
   299; 318; 339; 361; 384; 409; 436; 464; 494; 526; 560; 597; 635; 677; 720; 767; 817; 870; 926; 987; 1051; 1119;
   1191; 1269; 1351; 1439; 1532; 1631; 1737; 1850; 1970; 2098; 2234; 2379; 2533; 2698; 2873; 3059; 3258; 3469; 3694;
   3934; 4189; 4461; 4751; 5059; 5387; 5737; 6109; 6506; 6928; 7378; 7857; 8367; 8910; 9488; 10104; 10760; 11458;
   12202; 12994; 13838; 14736; 15692; 16711; 17795; 18951; 20181; 21491; 22885; 24371; 25953; 27638; 29431; 31342;
   33376; 35543; 37850; 40307; 42923; 45709; 48676; 51836; 55200; 58784; 62599; 66663; 70990; 75598; 80505; 85730;
   91295; 97221; 103532; 110252; 117409; 125030; 133146; 141789; 150992; 160793; 171231; 182345; 194182; 206786;
   220209; 234503; 249725; 265935; 283197; 301579; 321155; 342002; 364202; 387842; 413018; 439827; 468377; 498780;
   531156; 565634; 602350; 641449; 683087; 727427; 774645; 824928; 878475; 935498; 996222; 1060888; 1129752; 1203085;
   1281179; 1364342; 1452903; 1547213; 1647644; 1754595; 1868488; 1989774; 2118933; 2256475; 2402946; 2558924; 2725027;
   2901912; 3090279; 3290873; 3504487; 3731968; 3974215; 4232186; 4506902; 4799451; 5110989; 5442750; 5796046; 6172275;
   6572925; 6999582; 7453933; 7937777; 8453028; 9001725; 9586039; 10208280; 10870913; 11576557; 12328006; 13128233;
   13980403; 14887889; 15854280; 16883401; 17979324; 19146385; 20389201; 21712690; 23122088; 24622972; 26221280;
   27923336; 29735875; 31666069; 33721553; 35910462; 38241455; 40723756; 43367187; 46182206; 49179951; 52372284;
   55771835; 59392055; 63247269; 67352729; 71724679; 76380419; 81338368; 162676736; 4294967295].

Definition NR_MAX_NUM_LCGID : nat := 8.
Definition NR_BSR_TRIGGER_PERIODIC : Z := 2.
Definition NR_BSR_TRIGGER_PADDING : Z := 4.
Definition MAC_UE_BSR_TIMER_NOT_RUNNING : Z := 0xFFFF.
Definition i16 (z : Z) : Z := (z + 2 ^ 15) mod 2 ^ 16 - 2 ^ 15.

(** ** Buffer sizes *)

(** The binary search in an array of unsigned numbers; the result is the lower end. *)
Fixpoint bsr_search (fuel : nat) (table : list Z) (value : Z) (ascend : bool) (jl ju : Z) : res Z :=
  if ju - jl >? 1 then
    match fuel with
    | O => Fault FuelExhausted
    | S fuel =>
      let jm := Z.shiftr (ju + jl) 1 in
      if Bool.eqb (u32 value >=? buf_get table jm) ascend then bsr_search fuel table value ascend jm ju
      else bsr_search fuel table value ascend jl jm
    end
  else Ok jl.

Definition nr_locate_BsrIndexByBufferSize (table : list Z) (size value : Z) : res Z :=
  if value =? 0 then Ok 0
  else
    let ju := u8 (size - 1) in
    let ascend := buf_get table ju >=? buf_get table 0 in
    let* jl := bsr_search (Z.to_nat ju) table value ascend 0 ju in
    Ok (if u32 value =? buf_get table jl then jl else u8 (jl + 1)).

Definition nr_get_sf_periodicBSRTimer (sf_offset : Z) : Z :=
  default 0xFFFF ([1; 5; 10; 16; 20; 32; 40; 64; 80; 128; 160; 320; 640; 1280; 2560] !! Z.to_nat sf_offset).

Definition periodicBSR_Timer_infinity : Z := 15.

Definition nr_get_sf_retxBSRTimer (sf_offset : Z) : Z :=
  default (-1) ([10; 20; 40; 80; 160; 320; 640; 1280; 2560; 5120; 10240] !! Z.to_nat sf_offset).

(** ** The state of a UE *)

(** Of [NR_UE_SCHEDULING_INFO], and [BSR_reporting_active]. *)
Record ue_sched := mk_ue_sched {
  BSR : list Z;
  BSR_bytes : list Z;
  LCID_buffer_remain : list Z;
  LCID_status : list Z;
  LCGID : list Z;
  SR_pending : Z;
  SR_COUNTER : Z;
  retxBSR_Timer : Z;
  retxBSR_SF : Z;
  periodicBSR_Timer : Z;
  periodicBSR_SF : Z;
  BSR_reporting_active : Z
}.
#[export] Instance eta_ue_sched : Eta ue_sched := fun s =>
  mk_ue_sched (BSR s) (BSR_bytes s) (LCID_buffer_remain s) (LCID_status s) (LCGID s) (SR_pending s) (SR_COUNTER s) (retxBSR_Timer s)
    (retxBSR_SF s) (periodicBSR_Timer s) (periodicBSR_SF s) (BSR_reporting_active s).

(** [NR_BSR_SHORT]: LCG and index. *)
Record NR_BSR_SHORT := mk_bsr_short { LcgID : Z; Buffer_size : Z }.

(** The pointers are to local variables. *)
Record NR_UE_MAC_CE_INFO := mk_ce_info {
  bsr_len : Z;
  bsr_ce_len : Z;
  bsr_header_len : Z;
  phr_len : Z;
  sdu_length_total : Z;
  bsr_s : option NR_BSR_SHORT;
  bsr_l : option (list Z);
  bsr_t : option NR_BSR_SHORT;
  tot_mac_ce_len : Z;
  total_mac_pdu_header_len : Z
}.
#[export] Instance eta_ce_info : Eta NR_UE_MAC_CE_INFO := fun c =>
  mk_ce_info (bsr_len c) (bsr_ce_len c) (bsr_header_len c) (phr_len c) (sdu_length_total c) (bsr_s c) (bsr_l c) (bsr_t c)
    (tot_mac_ce_len c) (total_mac_pdu_header_len c).

(** The number of LCGs with data. *)
Definition lcgs_with_data (s : ue_sched) : Z :=
  Z.of_nat (length (filter (fun b => b <> 0) (take NR_MAX_NUM_LCGID (BSR_bytes s)))).

Definition nr_ue_get_sdu_mac_ce_pre (s : ue_sched) (buflen : Z) (c : NR_UE_MAC_CE_INFO) : res (ue_sched * NR_UE_MAC_CE_INFO * Z) :=
  let c := c <| bsr_header_len := 0 |> in
  let num_lcg_id_with_data := lcgs_with_data s in
  let s := if negb (retxBSR_SF s =? MAC_UE_BSR_TIMER_NOT_RUNNING)
           then s <| retxBSR_SF := u16 (nr_get_sf_retxBSRTimer (u8 (retxBSR_Timer s))) |> else s in
  let s := if negb (periodicBSR_Timer s =? periodicBSR_Timer_infinity) && (periodicBSR_SF s =? 0)
           then s <| BSR_reporting_active := Z.lor (BSR_reporting_active s) NR_BSR_TRIGGER_PERIODIC |> else s in
  let* c :=
    (if negb (BSR_reporting_active s =? 0) then
       if negb (Z.land (BSR_reporting_active s) NR_BSR_TRIGGER_PADDING =? 0) then Exit
       else if num_lcg_id_with_data <=? 1 then
         if buflen >=? 3 then Ok (c <| bsr_ce_len := 1 |> <| bsr_header_len := 1 |>) else Ok c
       else if buflen >=? num_lcg_id_with_data + 1 + 2 + 1 then
         Ok (c <| bsr_ce_len := num_lcg_id_with_data + 1 |> <| bsr_header_len := 2 |>)
       else Ok c
     else Ok c) in
  let c := c <| bsr_len := u8 (bsr_ce_len c + bsr_header_len c) |> in
  Ok (s, c, bsr_len c + phr_len c).

(** The index of every LCG. *)
Fixpoint bsr_indices (table : list Z) (size : Z) (bytes : list Z) : res (list Z) :=
  match bytes with
  | [] => Ok []
  | b :: tl => let* i := nr_locate_BsrIndexByBufferSize table size b in let* l := bsr_indices table size tl in Ok (i :: l)
  end.

(** The last LCG with data. *)
Definition last_lcg (bytes : list Z) : Z :=
  fold_left (fun acc i => if negb (buf_get bytes (Z.of_nat i) =? 0) then Z.of_nat i else acc) (seq 0 NR_MAX_NUM_LCGID) 0.

(** The LCG of the last logical channel with data, for a truncated report. *)
Definition truncated_lcg (s : ue_sched) (lcg : Z) : Z :=
  fold_left (fun acc i => let l := buf_get (LCGID s) (Z.of_nat i) in
                          if (l <? Z.of_nat NR_MAX_NUM_LCGID) && negb (buf_get (BSR_bytes s) l =? 0) then l else acc) (seq 1 31) lcg.

(** A report in the padding. *)
Definition padding_bsr (s : ue_sched) (c : NR_UE_MAC_CE_INFO) (padding_len num lcg : Z) : ue_sched * NR_UE_MAC_CE_INFO * Z :=
  let '(s, c, lcg) :=
    if padding_len >=? num + 1 + 2 then
      (s <| BSR_reporting_active := Z.lor (BSR_reporting_active s) NR_BSR_TRIGGER_PADDING |>,
       c <| bsr_ce_len := num + 1 |> <| bsr_header_len := 2 |>, lcg)
    else if padding_len >=? 2 then
      let c := c <| bsr_ce_len := 1 |> <| bsr_header_len := 1 |> in
      let '(c, lcg) := if num >? 1 then (c, truncated_lcg s lcg) else (c <| bsr_t := None |>, lcg) in
      (s <| BSR_reporting_active := Z.lor (BSR_reporting_active s) NR_BSR_TRIGGER_PADDING |>, c, lcg)
    else (s, c, lcg) in
  let c := c <| bsr_len := u8 (bsr_header_len c + bsr_ce_len c) |> in
  let c := c <| tot_mac_ce_len := tot_mac_ce_len c + bsr_len c |> in
  (s, c <| total_mac_pdu_header_len := u8 (total_mac_pdu_header_len c + bsr_len c) |>, lcg).

(** Which of the reports is written. *)
Definition fill_bsr (s : ue_sched) (c : NR_UE_MAC_CE_INFO) (lcg : Z) : NR_UE_MAC_CE_INFO :=
  if bsr_ce_len c =? 0 then c <| bsr_s := None |> <| bsr_l := None |> <| bsr_t := None |>
  else if bsr_header_len c =? 2 then c <| bsr_s := None |> <| bsr_t := None |> <| bsr_l := Some (BSR s) |>
  else if bsr_header_len c =? 1 then
    let c := c <| bsr_l := None |> in
    let report := mk_bsr_short (lcg mod 8) (buf_get (BSR s) lcg mod 32) in
    if bool_decide (is_Some (bsr_t c)) && negb (Z.land (BSR_reporting_active s) NR_BSR_TRIGGER_PADDING =? 0)
    then c <| bsr_s := None |> <| bsr_t := Some report |>
    else c <| bsr_t := None |> <| bsr_s := Some report |>
  else c.

(** The scheduling request and the timers after the report. *)
Definition bsr_sent (s : ue_sched) (c : NR_UE_MAC_CE_INFO) : ue_sched :=
  let s := s <| SR_pending := 0 |> <| SR_COUNTER := 0 |> in
  if negb (bsr_ce_len c =? 0) then
    let s := s <| retxBSR_SF := u16 (nr_get_sf_retxBSRTimer (u8 (retxBSR_Timer s))) |> in
    let s := if bool_decide (bsr_t c = None) && negb (periodicBSR_Timer s =? periodicBSR_Timer_infinity)
             then s <| periodicBSR_SF := u16 (nr_get_sf_periodicBSRTimer (u8 (periodicBSR_Timer s))) |> else s in
    s <| BSR_reporting_active := 0 |>
  else s.

Definition nr_ue_get_sdu_mac_ce_post (s : ue_sched) (buflen : Z) (c : NR_UE_MAC_CE_INFO) : res (ue_sched * NR_UE_MAC_CE_INFO) :=
  let* idx := (if bsr_ce_len c =? 1 then bsr_indices NR_SHORT_BSR_TABLE 32 (take NR_MAX_NUM_LCGID (BSR_bytes s))
               else bsr_indices NR_LONG_BSR_TABLE 256 (take NR_MAX_NUM_LCGID (BSR_bytes s))) in
  let s := s <| BSR := idx |> in
  let num_lcg_id_with_data := lcgs_with_data s in
  let lcg := last_lcg (BSR_bytes s) in
  let padding_len := if negb (sdu_length_total c =? 0) then u16 (buflen - (total_mac_pdu_header_len c + sdu_length_total c)) else 0 in
  let '(s, c, lcg) :=
    if negb (padding_len =? 0) && (bsr_len c =? 0) then padding_bsr s c padding_len num_lcg_id_with_data lcg else (s, c, lcg) in
  let c := fill_bsr s c lcg in
  Ok (bsr_sent s c, c).

(** ** The buffer status of the UE *)

Definition LCID_EMPTY : Z := 0.
Definition LCID_NOT_EMPTY : Z := 1.
Definition NR_MAX_NUM_LCID : nat := 32.

(** The local variables of the loop over the logical channels. *)
Record bsr_scan := mk_bsr_scan {
  num_lcid_with_data : Z;
  lcgid_buffer_remain : list Z;
  lcid_bytes_in_buffer : list Z;
  lcid_reordered : list Z
}.
#[export] Instance eta_bsr_scan : Eta bsr_scan := fun b =>
  mk_bsr_scan (num_lcid_with_data b) (lcgid_buffer_remain b) (lcid_bytes_in_buffer b) (lcid_reordered b).

(** One logical channel; [status] is what RLC answers.  The channel is put in front of those with
    data. *)
Definition scan_lcid (status : Z -> Z) (exist : list bool) (x : ue_sched * bsr_scan) (i : nat) : ue_sched * bsr_scan :=
  let '(s, b) := x in
  let lcid := Z.of_nat i in
  if default false (exist !! i) then
    let lcgid := buf_get (LCGID s) lcid in
    let b := if lcgid <? Z.of_nat NR_MAX_NUM_LCGID
             then b <| lcgid_buffer_remain := alter (fun r => u32 (r + buf_get (LCID_buffer_remain s) lcid)) (Z.to_nat lcgid) (lcgid_buffer_remain b) |>
             else b in
    let bytes_in_buffer := status lcid in
    let b := b <| lcid_bytes_in_buffer := <[i := i32 bytes_in_buffer]> (lcid_bytes_in_buffer b) |> in
    if bytes_in_buffer >? 0 then
      let s := s <| LCID_status := <[i := LCID_NOT_EMPTY]> (LCID_status s) |> in
      if lcgid <? Z.of_nat NR_MAX_NUM_LCGID then
        (s <| BSR_bytes := alter (fun r => i32 (r + bytes_in_buffer)) (Z.to_nat lcgid) (BSR_bytes s) |>,
         b <| num_lcid_with_data := u8 (num_lcid_with_data b + 1) |> <| lcid_reordered := lcid :: lcid_reordered b |>)
      else (s, b)
    else (s, b)
  else (s, b).

(** The result says that a regular report is triggered: the first channel with data does it. *)
Definition nr_update_bsr (status : Z -> Z) (exist : list bool) (s : ue_sched) : ue_sched * bool :=
  let s := s <| LCID_status := take 1 (LCID_status s) ++ replicate (NR_MAX_NUM_LCID - 1) LCID_EMPTY |>
             <| BSR := replicate NR_MAX_NUM_LCGID 0 |> <| BSR_bytes := replicate NR_MAX_NUM_LCGID 0 |> in
  let b := mk_bsr_scan 0 (replicate NR_MAX_NUM_LCGID 0) (replicate NR_MAX_NUM_LCID 0) [] in
  let '(s, b) := fold_left (scan_lcid status exist) (seq 1 31) (s, b) in
  let triggered :=
    if negb (num_lcid_with_data b =? 0) then (0 <? num_lcid_with_data b) || (retxBSR_SF s =? 0) else false in
  (s <| LCID_buffer_remain := take 1 (LCID_buffer_remain s) ++ drop 1 (lcid_bytes_in_buffer b) |>, triggered).

Definition NR_BSR_TRIGGER_REGULAR : Z := 1.

(** Once in every slot: the timers and the regular report. *)
Definition bsr_tick (status : Z -> Z) (exist : list bool) (s : ue_sched) : ue_sched :=
  let s := if negb (retxBSR_SF s =? MAC_UE_BSR_TIMER_NOT_RUNNING) && negb (retxBSR_SF s =? 0)
           then s <| retxBSR_SF := retxBSR_SF s - 1 |> else s in
  let s := if negb (periodicBSR_SF s =? MAC_UE_BSR_TIMER_NOT_RUNNING) && negb (periodicBSR_SF s =? 0)
           then s <| periodicBSR_SF := periodicBSR_SF s - 1 |> else s in
  let '(s, triggered) := nr_update_bsr status exist s in
  if triggered then s <| SR_pending := 1 |> <| BSR_reporting_active := Z.lor (BSR_reporting_active s) NR_BSR_TRIGGER_REGULAR |> else s.

(** ** Control elements of the uplink *)

Definition short_bsr_bytes (lcid : Z) (b : NR_BSR_SHORT) : list Z :=
  NR_MAC_SUBHEADER_FIXED lcid ++ [Buffer_size b mod 32 + 32 * (LcgID b mod 8)].

(** The bitmap of the LCGs with a buffer size. *)
Fixpoint lcg_bitmap (sizes : list Z) (w : Z) : Z :=
  match sizes with
  | [] => 0
  | b :: tl => (if b =? 0 then 0 else w) + lcg_bitmap tl (2 * w)
  end.

Definition long_bsr_bytes (sizes : list Z) : list Z :=
  let present := filter (fun b => b <> 0) sizes in
  NR_MAC_SUBHEADER_SHORT UL_SCH_LCID_L_BSR (1 + Z.of_nat (length present)) ++ [lcg_bitmap sizes 1] ++ present.

(** The bytes written.  [crnti_ce] is the C-RNTI when it is to be sent: given, no standalone
    operation, random access configured and not yet succeeded. *)
Definition nr_write_ce_ulsch_pdu (power_headroom : Z) (crnti_ce : option Z) (truncated_bsr short_bsr : option NR_BSR_SHORT)
  (long_bsr : option (list Z)) : list Z :=
  (if negb (power_headroom =? 0) then NR_MAC_SUBHEADER_FIXED UL_SCH_LCID_SINGLE_ENTRY_PHR ++ [power_headroom mod 64; 0] else []) ++
  match crnti_ce with
  | Some crnti => NR_MAC_SUBHEADER_FIXED UL_SCH_LCID_C_RNTI ++ [crnti mod 256; crnti / 256 mod 256]
  | None => []
  end ++
  match truncated_bsr, short_bsr, long_bsr with
  | Some b, _, _ => short_bsr_bytes UL_SCH_LCID_S_TRUNCATED_BSR b
  | None, Some b, _ => short_bsr_bytes UL_SCH_LCID_S_BSR b
  | None, None, Some l => long_bsr_bytes l
  | None, None, None => []
  end.

(** ** The transport block of a UE *)

Section Ulsch.

Context {St : Type} (rlc_data_req : St -> Z -> list Z -> res (St * (list Z * Z))).

Record ul_state := mk_ul_state {
  us_rlc : St;
  us_sched : ue_sched;
  us_ce : NR_UE_MAC_CE_INFO;
  us_buf : list Z;
  us_pdu : Z;
  us_sdus : Z
}.
#[local] Instance eta_ul_state : Eta ul_state := fun u =>
  mk_ul_state (us_rlc u) (us_sched u) (us_ce u) (us_buf u) (us_pdu u) (us_sdus u).

Definition buflen_remain (u : ul_state) (buflen : Z) : Z :=
  i16 (buflen - (total_mac_pdu_header_len (us_ce u) + sdu_length_total (us_ce u) + 3)).

(** The bytes that RLC gave are no longer in its buffer. *)
Definition sdu_taken (s : ue_sched) (lcid sdu_length : Z) : res ue_sched :=
  match LCID_buffer_remain s !! Z.to_nat lcid, LCGID s !! Z.to_nat lcid with
  | Some r, Some g =>
    match BSR_bytes s !! Z.to_nat g with
    | Some b => Ok (s <| LCID_buffer_remain := <[Z.to_nat lcid := r - sdu_length]> (LCID_buffer_remain s) |>
                      <| BSR_bytes := <[Z.to_nat g := Z.max 0 (b - sdu_length)]> (BSR_bytes s) |>)
    | None => Fault OutOfBounds
    end
  | _, _ => Fault OutOfBounds
  end.

(** The loop over one logical channel. *)
Fixpoint ul_lc_loop (fuel : nat) (u : ul_state) (lcid buflen : Z) : res ul_state :=
  let remain := buflen_remain u buflen in
  if remain >? 0 then
    match fuel with
    | O => Fault FuelExhausted
    | S fuel =>
      let* offered := rd_bytes (us_buf u) (us_pdu u + 3) remain in
      let* (s, (got, len)) := rlc_data_req (us_rlc u) lcid offered in
      let sdu_length := u16 len in
      let buf := buf_write (us_buf u) (Z.to_nat (us_pdu u + 3)) got in
      if remain <? sdu_length then Exit
      else if sdu_length >? 0 then
        let* sched := sdu_taken (us_sched u) lcid sdu_length in
        let c := us_ce u in
        ul_lc_loop fuel
          (mk_ul_state s sched
             (c <| sdu_length_total := u16 (sdu_length_total c + sdu_length) |>
                <| total_mac_pdu_header_len := u8 (total_mac_pdu_header_len c + 3) |>)
             (buf_write buf (Z.to_nat (us_pdu u)) (NR_MAC_SUBHEADER_LONG lcid sdu_length))
             (us_pdu u + 3 + sdu_length) (us_sdus u + 1)) lcid buflen
      else Ok (u <| us_rlc := s |> <| us_buf := buf |>)
    end
  else Ok u.

Fixpoint ul_channels (u : ul_state) (lcids : list Z) (buflen : Z) : res ul_state :=
  match lcids with
  | [] => Ok u
  | lcid :: lcids => let* u := ul_lc_loop (length (us_buf u)) u lcid buflen in ul_channels u lcids buflen
  end.

(** Bytes written at a position, inside the buffer. *)
Definition put_bytes (buf : list Z) (at_ : Z) (bytes : list Z) : res (list Z) :=
  if at_ + Z.of_nat (length bytes) <=? Z.of_nat (length buf) then Ok (buf_write buf (Z.to_nat at_) bytes) else Fault OutOfBounds.

(** The result says whether the block has SDUs. *)
Definition nr_ue_get_sdu (s : St) (sched : ue_sched) (ulsch_buffer : list Z) (buflen : Z) : res (St * ue_sched * list Z * bool) :=
  let c := mk_ce_info 0 0 0 0 0 (Some (mk_bsr_short 0 0)) (Some []) (Some (mk_bsr_short 0 0)) 0 0 in
  let* (sched, c, tot) := nr_ue_get_sdu_mac_ce_pre sched buflen c in
  let c := c <| tot_mac_ce_len := tot |> <| total_mac_pdu_header_len := u8 tot |> in
  let* u := ul_channels (mk_ul_state s sched c ulsch_buffer 0 0) [1; 2; 3; 4; 5; 6; 7] buflen in
  let* (sched, c) := nr_ue_get_sdu_mac_ce_post (us_sched u) buflen (us_ce u) in
  let* (buf, pdu) :=
    (if tot_mac_ce_len c >? 0 then
       let* buf := put_bytes (us_buf u) (us_pdu u) (nr_write_ce_ulsch_pdu 0 None (bsr_t c) (bsr_s c) (bsr_l c)) in
       Ok (buf, us_pdu u + u8 (tot_mac_ce_len c))
     else Ok (us_buf u, us_pdu u)) in
  let remain := i16 (buflen - (total_mac_pdu_header_len c + sdu_length_total c)) in
  let* buf :=
    (if remain >? 0 then put_bytes buf pdu (NR_MAC_SUBHEADER_FIXED UL_SCH_LCID_PADDING ++ replicate (Z.to_nat (remain - 1)) 0) else Ok buf) in
  Ok (us_rlc u, sched, buf, us_sdus u >? 0).

End Ulsch.

(** ** The gNB *)

(** States of the random access in their order. *)
Definition WAIT_Msg3 : Z := 2.

Record NR_RA_t := mk_NR_RA { ra_state_gNB : Z; ra_rnti : Z; ra_crnti : Z; msg3_dcch_dtch : bool }.
#[export] Instance eta_NR_RA : Eta NR_RA_t := fun r => mk_NR_RA (ra_state_gNB r) (ra_rnti r) (ra_crnti r) (msg3_dcch_dtch r).

(** An entry of [UE_info]: active, RNTI and whether there is a cell group. *)
Record UE_entry := mk_UE_entry { ue_active : bool; ue_rnti : Z; CellGroup : bool }.

(** [sched_ctrl] and the statistics are those of the UE whose block is processed. *)
Record gnb_mac := mk_gnb_mac {
  UE_info : list UE_entry;
  ra_processes : list NR_RA_t;
  estimated_ul_buffer : Z;
  ph : Z;
  pcmax : Z;
  ul_lc_bytes : list Z;
  gnb_inds : list mac_ind
}.
#[export] Instance eta_gnb_mac : Eta gnb_mac := fun g =>
  mk_gnb_mac (UE_info g) (ra_processes g) (estimated_ul_buffer g) (ph g) (pcmax g) (ul_lc_bytes g) (gnb_inds g).

Definition rnti_of (g : gnb_mac) (UE_id : nat) : Z :=
  match UE_info g !! UE_id with Some e => ue_rnti e | None => 0 end.

Definition gnb_ind (g : gnb_mac) (i : mac_ind) : gnb_mac := g <| gnb_inds := gnb_inds g ++ [i] |>.

(** The number of the first active UE with this RNTI; [None] is -1. *)
Fixpoint find_nr_UE_id (l : list UE_entry) (rnti : Z) : option nat :=
  match l with
  | [] => None
  | e :: tl => if ue_active e && (ue_rnti e =? rnti) then Some 0%nat else S <$> find_nr_UE_id tl rnti
  end.

Definition in_msg3 (g : gnb_mac) (UE_id : nat) (r : NR_RA_t) : bool := (ra_state_gNB r >=? WAIT_Msg3) && (ra_rnti r =? rnti_of g UE_id).

(** The C-RNTI for the random access of this UE. *)
Fixpoint set_ra_crnti (g : gnb_mac) (UE_id : nat) (l : list NR_RA_t) (crnti : Z) : list NR_RA_t :=
  match l with
  | [] => []
  | r :: tl => if in_msg3 g UE_id r then r <| ra_crnti := crnti |> <| msg3_dcch_dtch := true |> :: tl else r :: set_ra_crnti g UE_id tl crnti
  end.

Definition bit_at (b : Z) (i : nat) : Z := Z.b2z (Z.testbit b (Z.of_nat i)).

(** The sum of the buffer sizes of a long report. *)
Fixpoint long_bsr_sum (pdu : list Z) (from : nat) (n : nat) (acc : Z) : res Z :=
  match n with
  | O => Ok acc
  | S n =>
    let* b := rd pdu from in
    long_bsr_sum pdu (S from) n (i32 (acc + buf_get NR_LONG_BSR_TABLE b))
  end.

(** The UE that a block with data in Msg3 belongs to: the C-RNTI in the next sub-PDU. *)
Fixpoint srb_owner (g : gnb_mac) (UE_id : nat) (l : list NR_RA_t) (pdu : list Z) (next : nat) : res (Z * option nat) :=
  match l with
  | [] => Ok (rnti_of g UE_id, Some UE_id)
  | r :: tl =>
    if in_msg3 g UE_id r then
      let* b := rd pdu next in
      if Z.land b 0x3F =? UL_SCH_LCID_C_RNTI then
        let* hi := rd pdu (next + 1) in
        let* lo := rd pdu (next + 2) in
        let crnti := 256 * hi + lo in
        Ok (crnti, find_nr_UE_id (UE_info g) crnti)
      else srb_owner g UE_id tl pdu next
    else srb_owner g UE_id tl pdu next
  end.

Definition gnb_srb (g : gnb_mac) (UE_id : nat) (pdu : list Z) (pdu_len rx_lcid : Z) : res (sub_pdu gnb_mac (gnb_mac * Z)) :=
  let* o := get_mac_len pdu pdu_len in
  match o with
  | None => Ok (inr (g, 0))
  | Some (mac_len, sh) =>
    let* (crnti, UE_idx) := srb_owner g UE_id (ra_processes g) pdu (Z.to_nat (sh + mac_len)) in
    match UE_idx ≫= (fun i => UE_info g !! i) with
    | None => Fault OutOfBounds
    | Some e =>
      if CellGroup e then
        let* sdu := rd_bytes pdu sh mac_len in
        Ok (inl (gnb_ind g (rlc_data_ind crnti rx_lcid sdu), sh, mac_len, false))
      else Exit
    end
  end.

Definition gnb_dtch (g : gnb_mac) (UE_id : nat) (pdu : list Z) (pdu_len rx_lcid : Z) : res (sub_pdu gnb_mac (gnb_mac * Z)) :=
  let* o := get_mac_len pdu pdu_len in
  match o with
  | None => Ok (inr (g, 0))
  | Some (mac_len, sh) =>
    let* sdu := rd_bytes pdu sh mac_len in
    let g := g <| ul_lc_bytes := <[Z.to_nat rx_lcid := u64 (buf_get (ul_lc_bytes g) rx_lcid + mac_len)]> (ul_lc_bytes g) |> in
    let g := gnb_ind g (rlc_data_ind (rnti_of g UE_id) rx_lcid sdu) in
    Ok (inl (g <| estimated_ul_buffer := (if estimated_ul_buffer g >=? mac_len then estimated_ul_buffer g - mac_len else 0) |>, sh, mac_len, false))
  end.

Definition gnb_ccch (g : gnb_mac) (UE_id : nat) (pdu : list Z) (rx_lcid : Z) : res (sub_pdu gnb_mac (gnb_mac * Z)) :=
  let mac_len := if rx_lcid =? UL_SCH_LCID_CCCH1 then 8 else 6 in
  let* z := (if rx_lcid =? UL_SCH_LCID_CCCH1 then all_zero pdu (Z.to_nat (1 + mac_len)) else Ok false) in
  if z then Ok (inl (g, 1, mac_len, true))
  else
    let* sdu := rd_bytes pdu 1 mac_len in
    Ok (inl (gnb_ind g (rrc_data_ind (rnti_of g UE_id) sdu), 1, mac_len, false)).

Definition gnb_short_bsr (g : gnb_mac) (pdu : list Z) : res (sub_pdu gnb_mac (gnb_mac * Z)) :=
  let* b := rd pdu 1 in
  Ok (inl (g <| estimated_ul_buffer := buf_get NR_SHORT_BSR_TABLE (b mod 32) |>, 1, 1, false)).

Definition gnb_long_bsr (g : gnb_mac) (pdu : list Z) (pdu_len : Z) : res (sub_pdu gnb_mac (gnb_mac * Z)) :=
  let* o := get_mac_len pdu pdu_len in
  match o with
  | None => Ok (inr (g, 0))
  | Some (mac_len, sh) =>
    let* b := rd pdu (Z.to_nat sh) in
    let n_Lcg := sumZ (bit_at b) (seq 0 8) in
    let* sum := long_bsr_sum pdu (Z.to_nat (sh + 1)) (Z.to_nat n_Lcg) 0 in
    Ok (inl (g <| estimated_ul_buffer := sum |>, sh, mac_len, false))
  end.

Definition gnb_phr (g : gnb_mac) (pdu : list Z) : res (sub_pdu gnb_mac (gnb_mac * Z)) :=
  let* b1 := rd pdu 1 in
  let* b2 := rd pdu 2 in
  let PH := b1 mod 64 in
  Ok (inl (g <| ph := (if PH <? 55 then PH - 32 else PH - 32 + (PH - 54)) |> <| pcmax := b2 mod 64 - 29 |>, 1, 2, false)).

Definition gnb_skip (g : gnb_mac) (pdu : list Z) (pdu_len : Z) : res (sub_pdu gnb_mac (gnb_mac * Z)) :=
  let* o := get_mac_len pdu pdu_len in
  match o with
  | None => Ok (inr (g, 0))
  | Some (mac_len, sh) => Ok (inl (g, sh, mac_len, false))
  end.

Definition gnb_crnti (g : gnb_mac) (UE_id : nat) (pdu : list Z) : res (sub_pdu gnb_mac (gnb_mac * Z)) :=
  if existsb (in_msg3 g UE_id) (ra_processes g) then
    let* hi := rd pdu 1 in
    let* lo := rd pdu 2 in
    Ok (inl (g <| ra_processes := set_ra_crnti g UE_id (ra_processes g) (256 * hi + lo) |>, 1, 2, false))
  else Ok (inl (g, 1, 2, false)).

Definition gnb_sub_pdu (g : gnb_mac) (UE_id : nat) (pdu : list Z) (pdu_len : Z) : res (sub_pdu gnb_mac (gnb_mac * Z)) :=
  let* b := rd pdu 0 in
  let rx_lcid := lcid_of b in
  if rx_lcid =? UL_SCH_LCID_RECOMMENDED_BITRATE_QUERY then Ok (inl (g, 1, 2, false))
  else if rx_lcid =? UL_SCH_LCID_CONFIGURED_GRANT_CONFIRMATION then Ok (inl (g, 1, 0, false))
  else if (rx_lcid =? UL_SCH_LCID_S_BSR) || (rx_lcid =? UL_SCH_LCID_S_TRUNCATED_BSR) then gnb_short_bsr g pdu
  else if (rx_lcid =? UL_SCH_LCID_L_BSR) || (rx_lcid =? UL_SCH_LCID_L_TRUNCATED_BSR) then gnb_long_bsr g pdu pdu_len
  else if rx_lcid =? UL_SCH_LCID_C_RNTI then gnb_crnti g UE_id pdu
  else if rx_lcid =? UL_SCH_LCID_SINGLE_ENTRY_PHR then gnb_phr g pdu
  else if (rx_lcid =? UL_SCH_LCID_MULTI_ENTRY_PHR_1_OCT) || (rx_lcid =? UL_SCH_LCID_MULTI_ENTRY_PHR_4_OCT) then gnb_skip g pdu pdu_len
  else if rx_lcid =? UL_SCH_LCID_PADDING then Ok (inl (g, 1, 0, true))
  else if (rx_lcid =? UL_SCH_LCID_SRB1) || (rx_lcid =? UL_SCH_LCID_SRB2) then gnb_srb g UE_id pdu pdu_len rx_lcid
  else if rx_lcid =? UL_SCH_LCID_SRB3 then Ok (inl (g, 1, 0, false))
  else if (rx_lcid =? UL_SCH_LCID_CCCH) || (rx_lcid =? UL_SCH_LCID_CCCH1) then gnb_ccch g UE_id pdu rx_lcid
  else if rx_lcid =? UL_SCH_LCID_DTCH then gnb_dtch g UE_id pdu pdu_len rx_lcid
  else Ok (inr (g, -1)).

(** A PDU that is too short for its last sub-PDU: the 20 bytes that follow are printed. *)
Fixpoint nr_process_loop (fuel : nat) (g : gnb_mac) (UE_id : nat) (pdu : list Z) (pdu_len : Z) : res (gnb_mac * Z) :=
  if pdu_len >? 0 then
    match fuel with
    | O => Fault FuelExhausted
    | S fuel =>
      let* r := gnb_sub_pdu g UE_id pdu pdu_len in
      match r with
      | inr r => Ok r
      | inl (g, sh, mac_len, done) =>
        let pdu := drop (Z.to_nat (sh + mac_len)) pdu in
        let pdu_len := pdu_len - (sh + mac_len) in
        if pdu_len <? 0 then let* _ := rd_bytes pdu 0 20 in Ok (g, 0)
        else if done then Ok (g, 0)
        else nr_process_loop fuel g UE_id pdu pdu_len
      end
    end
  else Ok (g, 0).

Definition nr_process_mac_pdu (g : gnb_mac) (UE_id : nat) (pdu : list Z) (pdu_len : Z) : res (gnb_mac * Z) :=
  if pdu_len <=? 0 then let* _ := rd pdu 0 in Ok (g, 0)
  else nr_process_loop (Z.to_nat pdu_len) g UE_id pdu pdu_len.
