(* ===== verification/MacUlLink.v ===== *)
(** The uplink from a UE to the gNB: buffer status reports and the blocks that carry them. *)

From S2P Require Import Prelude.
From S2P Require Import MacPdu.
From S2P Require Import MacLink.
From S2P Require Import MacUl.

(** ** The index of a buffer size *)

Definition table_ok (table : list Z) (size : Z) : Prop :=
  Z.of_nat (length table) = size /\ 2 <= size <= 256 /\ buf_get table 0 = 0 /\
  forall i j, 0 <= i < j -> j < size -> buf_get table i < buf_get table j.

(** Increasing from one entry to the next. *)
Fixpoint increasing (l : list Z) : bool :=
  match l with
  | a :: (b :: _) as tl => (a <? b) && increasing tl
  | _ => true
  end.

Lemma increasing_lt l : increasing l = true -> forall i j, (i < j < length l)%nat -> default 0 (l !! i) < default 0 (l !! j).
Proof.
  induction l as [|a l IH]; intros H i j Hij; [cbn in Hij; lia|]. destruct j as [|j]; [lia|]. cbn [length] in Hij.
  destruct l as [|b l]; [cbn in Hij; lia|]. cbn [increasing] in H. apply andb_true_iff in H as [Hab H]. apply Z.ltb_lt in Hab.
  destruct i as [|i]; [|apply (IH H i j); lia]. cbn [lookup list_lookup default from_option id] in *.
  destruct j as [|j]; [exact Hab|]. apply Z.lt_trans with b; [done|]. apply (IH H 0%nat (S j)). lia.
Qed.

Lemma table_ok_intro table size :
  Z.of_nat (length table) = size -> 2 <= size <= 256 -> buf_get table 0 = 0 -> increasing table = true -> table_ok table size.
Proof.
  intros Hl Hs H0 Hi. split; [done|]. split; [done|]. split; [done|]. intros i j Hij Hj. unfold buf_get. apply increasing_lt; [done|lia].
Qed.

Lemma short_table_ok : table_ok NR_SHORT_BSR_TABLE 32.
Proof. apply table_ok_intro; [done|lia|done|done]. Qed.

Lemma long_table_ok : table_ok NR_LONG_BSR_TABLE 256.
Proof. apply table_ok_intro; [done|lia|done|done]. Qed.

Section Index.

Variables (table : list Z) (size value : Z).
Hypotheses (Hok : table_ok table size) (Hv : 0 < value < 2 ^ 31).

Lemma bsr_search_spec fuel : forall jl ju,
  0 <= jl < ju -> ju < size -> ju - jl <= Z.of_nat fuel + 1 -> buf_get table jl <= value ->
  (value < buf_get table ju \/ ju = size - 1) ->
  exists j, bsr_search fuel table value true jl ju = Ok j /\ jl <= j < ju /\ buf_get table j <= value /\
    (value < buf_get table (j + 1) \/ j + 1 = size - 1).
Proof.
  induction fuel as [|fuel IH]; intros jl ju Hj Hs Hf Hlo Hhi; cbn [bsr_search]; rewrite Z.gtb_ltb; destruct (Z.ltb_spec 1 (ju - jl)) as [Hlt|Hge].
  1: lia.
  1,3: exists jl; split; [done|]; split; [lia|]; split; [done|]; replace (jl + 1) with ju by lia; done.
  rewrite u32_small, Z.geb_leb by lia. set (jm := Z.shiftr (ju + jl) 1).
  assert (Hm : jl < jm < ju) by (unfold jm; rewrite Z.shiftr_div_pow2 by lia; change (2 ^ 1) with 2; Z.div_mod_to_equations; lia).
  destruct (Z.leb_spec (buf_get table jm) value) as [Hle|Hgt]; cbn [Bool.eqb].
  - destruct (IH jm ju) as (j & E & H1 & H2 & H3); [lia|lia|lia|done|done|]. exists j. split; [done|]. split; [lia|done].
  - destruct (IH jl jm) as (j & E & H1 & H2 & H3); [lia|lia|lia|done|by left|]. exists j. split; [done|]. split; [lia|done].
Qed.

(** The index is that of the smallest entry that is at least the value, and the last one for
    values beyond the table. *)
Lemma nr_locate_spec :
  exists i, nr_locate_BsrIndexByBufferSize table size value = Ok i /\ 0 < i < size /\
    (value <= buf_get table i \/ i = size - 1) /\ buf_get table (i - 1) < value.
Proof.
  destruct Hok as (Hl & Hs & H0 & Hinc). unfold nr_locate_BsrIndexByBufferSize.
  replace (value =? 0) with false by (symmetry; apply Z.eqb_neq; lia). unfold u8. rewrite (Z.mod_small (size - 1)) by lia.
  replace (_ >=? _) with true by (symmetry; rewrite Z.geb_leb; apply Z.leb_le; apply Z.lt_le_incl; apply Hinc; lia).
  destruct (bsr_search_spec (Z.to_nat (size - 1)) 0 (size - 1)) as (j & E & Hj & Hlo & Hhi); [lia|lia|lia|lia|by right|].
  rewrite E. cbn [rbind]. rewrite u32_small by lia. eexists. split; [done|]. destruct (Z.eqb_spec value (buf_get table j)) as [Ev|Ev].
  - assert (j <> 0) by (intros ->; lia). split; [lia|]. split; [lia|]. rewrite Ev. apply Hinc; lia.
  - rewrite Z.mod_small by lia. split; [lia|]. replace (j + 1 - 1) with j by lia. split; [|lia].
    destruct Hhi as [Hhi|Hhi]; [lia|]. right. lia.
Qed.

End Index.

(** What the index of a buffer size says. *)
Definition index_of (table : list Z) (size b i : Z) : Prop :=
  0 <= i < size /\ (b = 0 <-> i = 0) /\ (b <= buf_get table i \/ i = size - 1) /\ (i = 0 \/ buf_get table (i - 1) < b).

Lemma bsr_indices_spec table size bytes : table_ok table size -> Forall (fun b => 0 <= b < 2 ^ 31) bytes ->
  exists idx, bsr_indices table size bytes = Ok idx /\ Forall2 (index_of table size) bytes idx.
Proof.
  intros Hok. induction 1 as [|b bytes Hb _ (idx & E & H)]; [by exists []|]. cbn [bsr_indices]. rewrite E.
  destruct (Z.eq_dec b 0) as [->|H0].
  - destruct Hok as (_ & Hs & Ht & _). exists (0 :: idx). split; [done|]. constructor; [|done]. split; [lia|]. split; [done|]. rewrite Ht. split; by left.
  - destruct (nr_locate_spec table size b Hok ltac:(lia)) as (i & -> & Hi & Hv & Hp). exists (i :: idx). split; [done|]. constructor; [|done].
    split; [lia|]. split; [lia|]. auto.
Qed.

Lemma indices_present table size bytes idx :
  Forall2 (index_of table size) bytes idx -> length (filter (fun b => b <> 0) idx) = length (filter (fun b => b <> 0) bytes).
Proof.
  induction 1 as [|b i bytes idx (_ & Hbi & _ & _) _ IH]; [done|]. rewrite !filter_cons.
  destruct (decide (b <> 0)), (decide (i <> 0)); cbn [length]; [by rewrite IH|tauto|tauto|done].
Qed.

(** ** The SDUs of a block *)

(** The channels whose data the gNB takes. *)
Definition ul_channel (lcid : Z) : Prop := lcid = 1 \/ lcid = 2 \/ lcid = 4.

(** What the UE knows of its buffers, of the sizes the code declares. *)
Record sched_ok (s : ue_sched) : Prop := mk_sched_ok {
  so_bytes : length (BSR_bytes s) = 8%nat;
  so_range : Forall (fun b => 0 <= b < 2 ^ 31) (BSR_bytes s);
  so_remain : length (LCID_buffer_remain s) = 32%nat;
  so_lcg : forall lcid, ul_channel lcid -> exists g, LCGID s !! Z.to_nat lcid = Some g /\ 0 <= g < 8;
  so_padding : Z.land (BSR_reporting_active s) NR_BSR_TRIGGER_PADDING = 0
}.

(** Later in the same block: the buffers have at most become smaller. *)
Definition later (s s' : ue_sched) : Prop :=
  sched_ok s' /\ BSR_reporting_active s' = BSR_reporting_active s /\ Forall2 (fun b b' => b' <= b) (BSR_bytes s) (BSR_bytes s').

Lemma sdu_taken_later s lcid n : sched_ok s -> ul_channel lcid -> 0 <= n -> exists s', sdu_taken s lcid n = Ok s' /\ later s s'.
Proof.
  intros Hok Hl Hn. destruct (so_lcg _ Hok _ Hl) as (g & Eg & Hg). unfold sdu_taken. rewrite Eg.
  destruct (lookup_lt_is_Some_2 (LCID_buffer_remain s) (Z.to_nat lcid)) as [r ->]; [rewrite (so_remain _ Hok); unfold ul_channel in Hl; lia|].
  destruct (lookup_lt_is_Some_2 (BSR_bytes s) (Z.to_nat g)) as [b Eb]; [rewrite (so_bytes _ Hok); lia|]. rewrite Eb.
  eexists. split; [done|]. pose proof (so_range _ Hok) as Hr. assert (Hb : 0 <= b < 2 ^ 31) by (by apply (Forall_lookup_1 _ _ _ _ Hr) in Eb).
  split; [|split; [done|]].
  - destruct Hok as [H1 H2 H3 H4 H5]. split; cbn; rewrite ?length_insert; try done. apply Forall_insert; [done|lia].
  - cbn. apply Forall2_same_length_lookup_2; [by rewrite length_insert|]. intros i x y Hx Hy.
    apply list_lookup_insert_Some in Hy as [(<- & <- & _)|[_ Hy]]; [simplify_eq; lia|simplify_eq; lia].
Qed.

Lemma later_refl s : sched_ok s -> later s s.
Proof. intros H. split; [done|]. split; [done|]. apply Forall_Forall2_diag, Forall_forall. lia. Qed.

Lemma later_trans s1 s2 s3 : later s1 s2 -> later s2 s3 -> later s1 s3.
Proof.
  intros (_ & A1 & B1) (O2 & A2 & B2). split; [done|]. split; [congruence|].
  eapply Forall2_trans; [|exact B1|exact B2]. intros x y z Hxy Hyz. cbn in *. lia.
Qed.

Section Uplink.

Context {St : Type} (req : St -> Z -> list Z -> res (St * (list Z * Z))) `{!RlcService req}.
(** RLC gives PDUs of [m] bytes and more, on the channels above. *)
Variables (m buflen tot : Z).
Hypotheses
  (Hmin : forall s lcid buf s' b n, req s lcid buf = Ok (s', (b, n)) -> n = 0 \/ m <= n /\ ul_channel lcid)
  (Hm : 0 < m) (Hblock : buflen < 2 ^ 15) (Hcount : 3 * (buflen / (m + 3)) + 11 <= 255) (Htot : 0 <= tot <= 2).

Definition block_of (log : list (Z * list Z)) : list Z := concat (sdu_bytes <$> log).
Definition pdu_ok (x : Z * list Z) : Prop := ul_channel (fst x) /\ m <= Z.of_nat (length (snd x)) < 2 ^ 16.

(** The lengths that the UE keeps, after the SDUs of [log]. *)
Definition with_sdus (c : NR_UE_MAC_CE_INFO) (log : list (Z * list Z)) : NR_UE_MAC_CE_INFO :=
  mk_ce_info (bsr_len c) (bsr_ce_len c) (bsr_header_len c) (phr_len c) (Z.of_nat (length (block_of log)) - 3 * Z.of_nat (length log))
    (bsr_s c) (bsr_l c) (bsr_t c) (tot_mac_ce_len c) (tot + 3 * Z.of_nat (length log)).

Definition ul_at (c : NR_UE_MAC_CE_INFO) (n : nat) (s0 : ue_sched) (u : ul_state (St := St * list (Z * list Z))) : Prop :=
  exists s log rest sched,
    u = mk_ul_state (s, log) sched (with_sdus c log) (block_of log ++ rest) (Z.of_nat (length (block_of log))) (Z.of_nat (length log)) /\
    length (block_of log ++ rest) = n /\ tot + Z.of_nat (length (block_of log)) <= buflen /\ Forall pdu_ok log /\ later s0 sched.

Lemma block_of_snoc log x : block_of (log ++ [x]) = block_of log ++ sdu_bytes x.
Proof. unfold block_of. rewrite fmap_app, concat_app. cbn. by rewrite app_nil_r. Qed.

(** There are few enough SDUs for their headers to be counted in a byte. *)
Lemma sdus_count log : Forall pdu_ok log -> Z.of_nat (length log) * (m + 3) <= Z.of_nat (length (block_of log)).
Proof.
  induction 1 as [|x log [_ Hx] _ IH]; [done|]. unfold block_of in *. cbn [fmap list_fmap concat length]. rewrite length_app, length_sdu_bytes. lia.
Qed.

Lemma headers_fit log : Forall pdu_ok log -> Z.of_nat (length (block_of log)) <= buflen -> 3 * Z.of_nat (length log) + 11 <= 255.
Proof.
  intros H Hl. pose proof (sdus_count _ H). assert (Z.of_nat (length log) <= buflen / (m + 3)) by (apply Z.div_le_lower_bound; lia). lia.
Qed.

Lemma i16_small z : - 2 ^ 15 <= z < 2 ^ 15 -> i16 z = z.
Proof. intros H. unfold i16. rewrite Z.mod_small; lia. Qed.

Lemma with_sdus_snoc c log x : pdu_ok x -> Forall pdu_ok log -> Z.of_nat (length (block_of (log ++ [x]))) <= buflen ->
  (with_sdus c log) <| sdu_length_total := u16 (sdu_length_total (with_sdus c log) + Z.of_nat (length (snd x))) |>
    <| total_mac_pdu_header_len := u8 (total_mac_pdu_header_len (with_sdus c log) + 3) |> = with_sdus c (log ++ [x]).
Proof.
  intros Hx Hlog Hl. pose proof (headers_fit (log ++ [x])) as Hf. rewrite Forall_app in Hf. specialize (Hf ltac:(split; [done|by apply Forall_singleton]) Hl).
  pose proof (sdus_count log Hlog) as Hc. rewrite block_of_snoc, !length_app, length_sdu_bytes in *. unfold with_sdus. cbn in *.
  unfold u16, u8. rewrite !Z.mod_small by nia. rewrite block_of_snoc, !length_app, length_sdu_bytes. unfold update. cbn. f_equal; lia.
Qed.

Lemma ul_lc_loop_at c n s0 lcid fuel : buflen <= Z.of_nat n -> forall u,
  ul_at c n s0 u -> buflen - us_pdu u <= Z.of_nat fuel ->
  unless_rlc_fails req (ul_lc_loop (logged req) fuel u lcid buflen) (ul_at c n s0).
Proof.
  intros Hn. induction fuel as [|fuel IH]; intros u Hu Hf; pose proof Hu as (s & log & rest & sched & -> & Hlen & Hfit & Hlog & Hs);
    pose proof (headers_fit log Hlog ltac:(lia)) as Hh; rewrite length_app in Hlen; cbn [us_pdu] in Hf.
  all: assert (Er : buflen_remain (mk_ul_state (s, log) sched (with_sdus c log) (block_of log ++ rest) (Z.of_nat (length (block_of log)))
       (Z.of_nat (length log))) buflen = buflen - (tot + Z.of_nat (length (block_of log)) + 3))
     by (unfold buflen_remain, with_sdus; cbn; rewrite i16_small; lia).
  all: cbn [ul_lc_loop]; rewrite Er, Z.gtb_ltb; destruct (Z.ltb_spec 0 (buflen - (tot + Z.of_nat (length (block_of log)) + 3))) as [Hlt|Hge]; [|done].
  - lia.
  - cbn [us_rlc us_buf us_pdu us_sched us_ce us_sdus]. apply logged_request; [done|lia|lia|..].
    + intros s' rest' b Hlen' ->. change (u16 0) with 0.
      replace (_ <? 0) with false by (symmetry; apply Z.ltb_ge; lia). cbn. exists s', log, rest', sched. rewrite length_app in Hlen'.
      split; [done|]. split; [rewrite length_app in *; lia|]. done.
    + intros s' rest' b k Hk [off Eoff] Hlen' Hsdu Ebuf. set (x := (lcid, take (Z.to_nat k) b)) in *.
      destruct (Hmin _ _ _ _ _ _ Eoff) as [|[Hmk Hch]]; [lia|].
      assert (Hx : pdu_ok x) by (split; [done|]; cbn [snd x]; lia).
      destruct (sdu_taken_later sched lcid k) as (sched' & Et & Hl); [apply Hs|done|lia|].
      unfold u16 at 1 2 3 4 5 6 7. rewrite (Z.mod_small k) by lia.
      replace (_ <? k) with false by (symmetry; apply Z.ltb_ge; lia). replace (k >? 0) with true by (symmetry; rewrite Z.gtb_ltb; apply Z.ltb_lt; lia).
      rewrite Et, Ebuf. cbn [rbind]. assert (Hpdu : Z.of_nat (length (block_of log)) + 3 + k = Z.of_nat (length (block_of (log ++ [x]))))
        by (rewrite block_of_snoc, length_app, length_sdu_bytes; cbn [snd x]; lia).
      apply IH; [|cbn [us_pdu]; lia]. exists s', (log ++ [x]), rest', sched'. rewrite Hpdu, <- block_of_snoc.
      pose proof (with_sdus_snoc c log x Hx Hlog ltac:(lia)) as Hw. cbn [snd x] in Hw. rewrite Hsdu in Hw. rewrite <- Hw, <- block_of_snoc in *.
      rewrite (length_app log). cbn [length]. split; [f_equal; lia|]. rewrite !length_app in *. split; [lia|]. split; [lia|].
      split; [apply Forall_app; split; [done|by apply Forall_singleton]|]. by eapply later_trans.
Qed.

Lemma ul_channels_at c n s0 lcids : buflen <= Z.of_nat n -> forall u,
  ul_at c n s0 u -> unless_rlc_fails req (ul_channels (logged req) u lcids buflen) (ul_at c n s0).
Proof.
  intros Hn. induction lcids as [|lcid lcids IH]; intros u Hu; cbn [ul_channels]; [done|].
  eapply unless_bind; [|exact IH]. apply ul_lc_loop_at; [done|done|].
  destruct Hu as (s & log & rest & sched & -> & Hlen & _). cbn [us_pdu us_buf]. lia.
Qed.

(** ** The report of a block *)

(** What the UE says of its buffers: a short report when one was due, in the padding a long one, or
    a short one, or none for want of room. *)
Definition report_of (s : ue_sched) (due : bool) (room : Z) (ce : list Z) : Prop :=
  if due then
    bsr_indices NR_SHORT_BSR_TABLE 32 (BSR_bytes s) = Ok (BSR s) /\
    ce = short_bsr_bytes UL_SCH_LCID_S_BSR (mk_bsr_short (last_lcg (BSR_bytes s) mod 8) (buf_get (BSR s) (last_lcg (BSR_bytes s)) mod 32))
  else if (0 <? room) && (lcgs_with_data s + 3 <=? room) then
    bsr_indices NR_LONG_BSR_TABLE 256 (BSR_bytes s) = Ok (BSR s) /\ ce = long_bsr_bytes (BSR s)
  else if 2 <=? room then exists lcid b, (lcid = UL_SCH_LCID_S_BSR \/ lcid = UL_SCH_LCID_S_TRUNCATED_BSR) /\ ce = short_bsr_bytes lcid b
  else ce = [].

(** The lengths after the first routine: a short report is due, or none. *)
Definition ce_ready (c : NR_UE_MAC_CE_INFO) (due : bool) : Prop :=
  bsr_ce_len c = Z.b2z due /\ bsr_header_len c = Z.b2z due /\ bsr_len c = 2 * Z.b2z due /\ tot_mac_ce_len c = 2 * Z.b2z due /\
  is_Some (bsr_t c) /\ is_Some (bsr_s c).

(** The room in the block behind the SDUs. *)
Definition room_behind (log : list (Z * list Z)) : Z := if log is [] then 0 else buflen - Z.of_nat (length (block_of log)).

Definition written (c : NR_UE_MAC_CE_INFO) : list Z :=
  if tot_mac_ce_len c >? 0 then nr_write_ce_ulsch_pdu 0 None (bsr_t c) (bsr_s c) (bsr_l c) else [].

Lemma lcgs_bound s : length (BSR_bytes s) = 8%nat -> 0 <= lcgs_with_data s <= 8.
Proof. intros H. unfold lcgs_with_data, NR_MAX_NUM_LCGID. pose proof (length_filter (fun b => b <> 0) (take 8 (BSR_bytes s))) as Hf. rewrite length_take in Hf. lia. Qed.

Definition short_report (s : ue_sched) (lcg : Z) : NR_BSR_SHORT := mk_bsr_short (lcg mod 8) (buf_get (BSR s) lcg mod 32).

Lemma written_long s c lcg :
  0 < bsr_ce_len c -> bsr_header_len c = 2 -> 0 < tot_mac_ce_len c -> written (fill_bsr s c lcg) = long_bsr_bytes (BSR s).
Proof.
  intros H1 H2 H3. unfold fill_bsr. rewrite H2. replace (bsr_ce_len c =? 0) with false by (symmetry; apply Z.eqb_neq; lia).
  unfold written. cbn. replace (_ >? 0) with true by (symmetry; rewrite Z.gtb_ltb; apply Z.ltb_lt; lia). done.
Qed.

Lemma written_short s c lcg :
  0 < bsr_ce_len c -> bsr_header_len c = 1 -> 0 < tot_mac_ce_len c ->
  written (fill_bsr s c lcg) =
  short_bsr_bytes (if bool_decide (is_Some (bsr_t c)) && negb (Z.land (BSR_reporting_active s) NR_BSR_TRIGGER_PADDING =? 0)
                   then UL_SCH_LCID_S_TRUNCATED_BSR else UL_SCH_LCID_S_BSR) (short_report s lcg).
Proof.
  intros H1 H2 H3. unfold fill_bsr. rewrite H2. replace (bsr_ce_len c =? 0) with false by (symmetry; apply Z.eqb_neq; lia).
  cbn [Z.eqb Pos.eqb]. change (bsr_t (c <| bsr_l := None |>)) with (bsr_t c). destruct (_ && _); unfold written; cbn;
    (replace (_ >? 0) with true by (symmetry; rewrite Z.gtb_ltb; apply Z.ltb_lt; lia)); done.
Qed.

Lemma length_long_bsr sizes : length (long_bsr_bytes sizes) = S (S (S (length (filter (fun b => b <> 0) sizes)))).
Proof. reflexivity. Qed.

(** A padding report: the routine with its lengths, and what is written. *)
Lemma padding_report s c room lcg :
  sched_ok s -> ce_ready c false -> 0 < room -> 0 <= total_mac_pdu_header_len c <= 244 ->
  length (filter (fun b => b <> 0) (BSR s)) = Z.to_nat (lcgs_with_data s) ->
  exists s' c' lcg' ce, padding_bsr s c room (lcgs_with_data s) lcg = (s', c', lcg') /\ written (fill_bsr s' c' lcg') = ce /\
    BSR s' = BSR s /\ BSR_bytes s' = BSR_bytes s /\ Z.of_nat (length ce) = tot_mac_ce_len c' /\ 0 <= tot_mac_ce_len c' <= room /\
    total_mac_pdu_header_len c' = total_mac_pdu_header_len c + tot_mac_ce_len c' /\ sdu_length_total c' = sdu_length_total c /\
    tot_mac_ce_len c' <= 11 /\ (s' = s \/ 0 < bsr_ce_len c' /\ LCGID s' = LCGID s /\ LCID_buffer_remain s' = LCID_buffer_remain s) /\
    if lcgs_with_data s + 3 <=? room then ce = long_bsr_bytes (BSR s)
    else if 2 <=? room then exists lcid b, (lcid = UL_SCH_LCID_S_BSR \/ lcid = UL_SCH_LCID_S_TRUNCATED_BSR) /\ ce = short_bsr_bytes lcid b
    else ce = [].
Proof.
  intros Hs (C1 & C2 & C3 & C4 & C5 & C6) Hr Ht Hf. pose proof (lcgs_bound s (so_bytes _ Hs)) as Hn.
  destruct c as [a1 a2 a3 a4 a5 a6 a7 a8 a9 a10]. cbn in C1, C2, C3, C4, C5, C6, Ht. subst a1 a2 a3 a9.
  unfold padding_bsr. rewrite !Z.geb_leb, Z.gtb_ltb. replace (lcgs_with_data s + 1 + 2) with (lcgs_with_data s + 3) by lia.
  generalize (truncated_lcg s lcg). intros t. unfold update, u8. destruct (Z.leb_spec (lcgs_with_data s + 3) room) as [H3|H3]; [|destruct (Z.leb_spec 2 room) as [H2|H2]].
  - cbn -[Z.add Z.pow Z.modulo]. rewrite !(Z.mod_small (2 + _)), (Z.mod_small (_ + (2 + _))) by lia.
    eexists _, _, _, _. split; [done|]. rewrite written_long by (cbn; lia).
    cbn -[long_bsr_bytes Z.add]. split; [done|]. split; [done|]. split; [done|]. split; [rewrite length_long_bsr, Hf; lia|]. split; [lia|]. split; [lia|]. split; [done|]. split; [lia|]. split; [right; split; [lia|done]|done].
  - destruct (1 <? lcgs_with_data s).
    all: cbn -[Z.add Z.pow Z.modulo]; change ((1 + 1) mod 2 ^ 8) with 2; rewrite (Z.mod_small (_ + 2)) by lia.
    all: eexists _, _, _, _; split; [done|]; rewrite written_short by done. all: cbn -[short_bsr_bytes Z.add].
    all: split; [done|]; split; [done|]; split; [done|]; split; [done|]; split; [lia|]; split; [lia|]; split; [done|]; split; [lia|]; split; [right; split; [lia|done]|].
    all: eexists _, _; split; [|done]; first [destruct (_ && _); by auto|by left].
  - cbn -[Z.add Z.pow Z.modulo]. change ((0 + 0) mod 2 ^ 8) with 0. rewrite (Z.mod_small (a10 + 0)) by lia.
    eexists s, _, _, []. split; [done|]. split; [done|]. split; [done|]. split; [done|]. split; [done|]. cbn. split; [lia|]. split; [lia|]. split; [done|]. split; [done|]. split; [by left|done].
Qed.

Lemma log_empty log : Forall pdu_ok log -> (Z.of_nat (length (block_of log)) - 3 * Z.of_nat (length log) =? 0) = bool_decide (log = []).
Proof.
  intros H. pose proof (sdus_count _ H). destruct log as [|x log]; [done|]. rewrite bool_decide_eq_false_2 by done.
  apply Z.eqb_neq. cbn [length] in *. nia.
Qed.

Lemma lcgs_same s s' : BSR_bytes s' = BSR_bytes s -> lcgs_with_data s' = lcgs_with_data s.
Proof. unfold lcgs_with_data. by intros ->. Qed.

Lemma bsr_sent_same s c : BSR_bytes (bsr_sent s c) = BSR_bytes s /\ BSR (bsr_sent s c) = BSR s.
Proof. unfold bsr_sent. by repeat case_match. Qed.

Lemma fill_bsr_same s c lcg :
  tot_mac_ce_len (fill_bsr s c lcg) = tot_mac_ce_len c /\ total_mac_pdu_header_len (fill_bsr s c lcg) = total_mac_pdu_header_len c /\
  sdu_length_total (fill_bsr s c lcg) = sdu_length_total c /\ bsr_ce_len (fill_bsr s c lcg) = bsr_ce_len c.
Proof. unfold fill_bsr. by repeat case_match. Qed.

(** Only a report that is sent may have been for the padding. *)
Lemma bsr_sent_ok s0 s c : sched_ok s0 -> BSR_bytes s = BSR_bytes s0 -> LCGID s = LCGID s0 -> LCID_buffer_remain s = LCID_buffer_remain s0 ->
  (0 < bsr_ce_len c \/ BSR_reporting_active s = BSR_reporting_active s0) -> sched_ok (bsr_sent s c).
Proof.
  intros [H1 H2 H3 H4 H5] E1 E2 E3 E4. unfold bsr_sent. destruct (Z.eqb_spec (bsr_ce_len c) 0) as [E0|E0]; cbn [negb].
  - split; cbn; try congruence; rewrite ?E2; [done|]. destruct E4 as [?|E4]; [lia|]. by rewrite E4.
  - case_match; split; cbn; try congruence; by rewrite ?E2.
Qed.

(** The routine after the SDUs. *)
Definition post_result (s : ue_sched) (log : list (Z * list Z)) (due : bool) (r : ue_sched * NR_UE_MAC_CE_INFO) : Prop :=
  let '(s', c') := r in
  BSR_bytes s' = BSR_bytes s /\ sched_ok s' /\ report_of s' due (room_behind log) (written c') /\
  Z.of_nat (length (written c')) = tot_mac_ce_len c' /\ tot_mac_ce_len c' <= 11 /\
  total_mac_pdu_header_len c' + sdu_length_total c' = Z.of_nat (length (block_of log)) + tot_mac_ce_len c' /\
  Z.of_nat (length (block_of log)) + tot_mac_ce_len c' <= buflen.

Lemma post_due s c log :
  sched_ok s -> ce_ready c true -> tot = 2 -> Forall pdu_ok log -> tot + Z.of_nat (length (block_of log)) <= buflen ->
  exists r, nr_ue_get_sdu_mac_ce_post s buflen (with_sdus c log) = Ok r /\ post_result s log true r.
Proof.
  intros Hs (C1 & C2 & C3 & C4 & C5 & C6) Ht Hlog Hb. unfold nr_ue_get_sdu_mac_ce_post.
  pose proof (so_range _ Hs) as Hr. rewrite take_ge by (rewrite (so_bytes _ Hs); done).
  pose proof (so_padding _ Hs) as Hp. cbn [bsr_ce_len sdu_length_total total_mac_pdu_header_len bsr_len with_sdus].
  destruct (bsr_indices_spec NR_SHORT_BSR_TABLE 32 _ short_table_ok Hr) as (idx & Ei & _).
  rewrite C1, C3. cbn [Z.b2z Z.eqb Pos.eqb Z.mul Pos.mul]. rewrite Ei, andb_false_r. cbn [rbind].
  set (s1 := s <| BSR := idx |>). set (lcg := last_lcg _). destruct (bsr_sent_same s1 (fill_bsr s1 (with_sdus c log) lcg)) as [Eb Ei'].
  destruct (fill_bsr_same s1 (with_sdus c log) lcg) as (F1 & F2 & F3 & F4).
  assert (Ew : written (fill_bsr s1 (with_sdus c log) lcg) = short_bsr_bytes UL_SCH_LCID_S_BSR (short_report s1 lcg)).
  { rewrite written_short by (unfold with_sdus; cbn; rewrite ?C1, ?C2, ?C4; done). unfold s1. cbn [BSR_reporting_active]. unfold update. cbn.
    rewrite Hp, andb_false_r. done. }
  eexists. split; [done|]. unfold post_result. split; [done|]. rewrite F1, F2, F3, Ew.
  split; [apply (bsr_sent_ok s); try done; right; done|].
  cbn [tot_mac_ce_len total_mac_pdu_header_len sdu_length_total with_sdus].
  rewrite C4. cbn [Z.b2z]. split; [|split; [done|]; lia]. unfold report_of. rewrite Eb, Ei'. done.
Qed.

Lemma post_padding s c log :
  sched_ok s -> ce_ready c false -> tot = 0 -> Forall pdu_ok log -> Z.of_nat (length (block_of log)) <= buflen ->
  exists r, nr_ue_get_sdu_mac_ce_post s buflen (with_sdus c log) = Ok r /\ post_result s log false r.
Proof.
  intros Hs Hc Ht Hlog Hb. pose proof (headers_fit log Hlog ltac:(lia)) as Hh. unfold nr_ue_get_sdu_mac_ce_post.
  pose proof (so_range _ Hs) as Hr. rewrite take_ge by (rewrite (so_bytes _ Hs); done).
  destruct (bsr_indices_spec NR_LONG_BSR_TABLE 256 _ long_table_ok Hr) as (idx & Ei & Hidx).
  cbn [bsr_ce_len sdu_length_total total_mac_pdu_header_len bsr_len with_sdus].
  pose proof Hc as (C1 & C2 & C3 & C4 & C5 & C6). rewrite log_empty, C1, C3 by done. cbn [Z.b2z Z.eqb Z.mul]. rewrite Ei, andb_true_r. cbn [rbind].
  set (s1 := s <| BSR := idx |>). set (lcg := last_lcg _).
  assert (Eroom : (if negb (bool_decide (log = [])) then u16 (buflen - (tot + 3 * Z.of_nat (length log) +
    (Z.of_nat (length (block_of log)) - 3 * Z.of_nat (length log)))) else 0) = room_behind log).
  { destruct log; [done|]. rewrite bool_decide_eq_false_2 by done. cbn [negb]. unfold u16. rewrite Z.mod_small by lia. unfold room_behind. lia. }
  rewrite Eroom. assert (Hroom : 0 <= room_behind log <= buflen - Z.of_nat (length (block_of log))) by (clear - Hb; unfold room_behind; destruct log; lia).
  assert (Hn : length (filter (fun b => b <> 0) (BSR s1)) = Z.to_nat (lcgs_with_data s1)).
  { unfold s1 at 1, lcgs_with_data. cbn. rewrite (indices_present _ _ _ _ Hidx), take_ge by (rewrite (so_bytes _ Hs); done). lia. }
  destruct (Z.eqb_spec (room_behind log) 0) as [E0|E0]; cbn [negb].
  - eexists. split; [done|]. destruct (bsr_sent_same s1 (fill_bsr s1 (with_sdus c log) lcg)) as [Eb _].
    destruct (fill_bsr_same s1 (with_sdus c log) lcg) as (F1 & F2 & F3 & F4). unfold post_result, report_of, written. rewrite F1, F2, F3, E0.
    cbn [tot_mac_ce_len total_mac_pdu_header_len sdu_length_total with_sdus]. rewrite C4. split; [done|]. split; [apply (bsr_sent_ok s); try done; right; done|]. split; [done|]. change (2 * Z.b2z false) with 0. split; [done|]. lia.
  - destruct (padding_report s1 (with_sdus c log) (room_behind log) lcg) as (s2 & c2 & lcg2 & ce & Ep & Ew & Ei2 & Eb2 & L1 & L2 & L3 & L4 & L5 & Hsame & Hce);
      [destruct Hs; by split|done|lia|cbn; lia|done|]. rewrite Ep. eexists. split; [done|].
    destruct (bsr_sent_same s2 (fill_bsr s2 c2 lcg2)) as [Eb Ei']. destruct (fill_bsr_same s2 c2 lcg2) as (F1 & F2 & F3 & F4).
    unfold post_result. rewrite F1, F2, F3, Ew. cbn [tot_mac_ce_len total_mac_pdu_header_len sdu_length_total with_sdus] in L3, L4.
    split; [by rewrite Eb, Eb2|].
    split; [destruct Hsame as [->|(Hpos & G1 & G2)]; apply (bsr_sent_ok s); try done; [by right|left; by rewrite F4]|]. split; [|split; [done|]; lia]. unfold report_of. rewrite Ei', Ei2, Eb, Eb2.
    rewrite (lcgs_same s1) by (by rewrite Eb, Eb2). replace (0 <? room_behind log) with true by (symmetry; apply Z.ltb_lt; lia). cbn [andb].
    destruct (_ <=? _); [by split|done].
Qed.

End Uplink.

(** A report is due: asked for, or by the periodic timer. *)
Definition bsr_triggered (s : ue_sched) : bool :=
  negb (BSR_reporting_active s =? 0) || (negb (periodicBSR_Timer s =? periodicBSR_Timer_infinity) && (periodicBSR_SF s =? 0)).

Definition report_due (s : ue_sched) (buflen : Z) : bool := bsr_triggered s && (3 <=? buflen).

Definition first_ce_info : NR_UE_MAC_CE_INFO := mk_ce_info 0 0 0 0 0 (Some (mk_bsr_short 0 0)) (Some []) (Some (mk_bsr_short 0 0)) 0 0.

Lemma pre_spec s buflen : sched_ok s -> (bsr_triggered s = true -> lcgs_with_data s <= 1) ->
  exists s1 c1, nr_ue_get_sdu_mac_ce_pre s buflen first_ce_info = Ok (s1, c1, 2 * Z.b2z (report_due s buflen)) /\
    sched_ok s1 /\ BSR_bytes s1 = BSR_bytes s /\ c1 <| tot_mac_ce_len := 2 * Z.b2z (report_due s buflen) |>
      <| total_mac_pdu_header_len := u8 (2 * Z.b2z (report_due s buflen)) |> =
    let d := Z.b2z (report_due s buflen) in
    mk_ce_info (2 * d) d d 0 0 (Some (mk_bsr_short 0 0)) (Some []) (Some (mk_bsr_short 0 0)) (2 * d) (2 * d).
Proof.
  intros Hs Hsafe. unfold nr_ue_get_sdu_mac_ce_pre.
  set (s1 := if negb (retxBSR_SF s =? _) then _ else s).
  assert (H1 : sched_ok s1 /\ BSR_bytes s1 = BSR_bytes s /\ BSR_reporting_active s1 = BSR_reporting_active s /\ periodicBSR_Timer s1 = periodicBSR_Timer s /\ periodicBSR_SF s1 = periodicBSR_SF s)
    by (unfold s1; destruct Hs; case_match; by repeat split).
  destruct H1 as (Hs1 & B1 & A1 & T1 & F1). cbv zeta. rewrite T1, F1.
  set (s2 := if _ && _ then _ else s1).
  assert (H2 : sched_ok s2 /\ BSR_bytes s2 = BSR_bytes s /\ negb (BSR_reporting_active s2 =? 0) = bsr_triggered s).
  { unfold s2, bsr_triggered. destruct (_ && _); cbn.
    - split; [|split; [done|]].
      + destruct Hs1 as [K1 K2 K3 K4 K5]. split; cbn; try done. by rewrite Z.land_lor_distr_l, K5.
      + rewrite orb_true_r. destruct (Z.eqb_spec (Z.lor (BSR_reporting_active s1) NR_BSR_TRIGGER_PERIODIC) 0) as [E|E]; [|done].
        apply Z.lor_eq_0_iff in E as [_ E]. done.
    - rewrite orb_false_r, A1. done. }
  destruct H2 as (Hs2 & B2 & A2). clearbody s2. rewrite A2, (so_padding _ Hs2). unfold report_due.
  destruct (bsr_triggered s); cbn [andb negb Z.eqb].
  - specialize (Hsafe eq_refl). replace (lcgs_with_data s <=? 1) with true by (symmetry; by apply Z.leb_le). rewrite Z.geb_leb.
    destruct (3 <=? buflen); by exists s2; eexists.
  - by exists s2; eexists.
Qed.

Lemma put_bytes_app (pre rest b : list Z) : (length b <= length rest)%nat ->
  put_bytes (pre ++ rest) (Z.of_nat (length pre)) b = Ok ((pre ++ b) ++ drop (length b) rest).
Proof.
  intros H. unfold put_bytes. replace (_ <=? _) with true by (symmetry; apply Z.leb_le; rewrite length_app; lia).
  rewrite Nat2Z.id, buf_write_app by done. by rewrite <- app_assoc.
Qed.

(** The report behind the SDUs, if there is one. *)
Lemma put_report c (pre rest : list Z) : Z.of_nat (length (written c)) = tot_mac_ce_len c -> tot_mac_ce_len c <= 11 -> (length (written c) <= length rest)%nat ->
  (if tot_mac_ce_len c >? 0 then
     let* buf := put_bytes (pre ++ rest) (Z.of_nat (length pre)) (nr_write_ce_ulsch_pdu 0 None (bsr_t c) (bsr_s c) (bsr_l c)) in
     Ok (buf, Z.of_nat (length pre) + u8 (tot_mac_ce_len c))
   else Ok (pre ++ rest, Z.of_nat (length pre))) =
  Ok ((pre ++ written c) ++ drop (length (written c)) rest, Z.of_nat (length (pre ++ written c))).
Proof.
  intros H1 H2 H3. rewrite length_app. unfold written in *. destruct (_ >? 0).
  - rewrite put_bytes_app by done. cbn [rbind]. unfold u8. rewrite Z.mod_small by lia. do 2 f_equal. lia.
  - rewrite app_nil_r. cbn. do 2 f_equal. lia.
Qed.

(** The padding behind all. *)
Lemma put_padding (pre rest : list Z) remain : 0 <= remain <= Z.of_nat (length rest) ->
  exists pad tl, (if remain >? 0 then put_bytes (pre ++ rest) (Z.of_nat (length pre))
                    (NR_MAC_SUBHEADER_FIXED UL_SCH_LCID_PADDING ++ replicate (Z.to_nat (remain - 1)) 0) else Ok (pre ++ rest)) = Ok (pre ++ pad ++ tl) /\
    Z.of_nat (length pad) = remain /\ length (pad ++ tl) = length rest /\ (pad = [] \/ exists p, pad = UL_SCH_LCID_PADDING :: p).
Proof.
  intros H. rewrite Z.gtb_ltb. destruct (Z.ltb_spec 0 remain) as [Hlt|Hge].
  - rewrite put_bytes_app by (rewrite length_app, length_replicate; cbn; lia). eexists _, _. split; [by rewrite <- app_assoc|].
    rewrite !length_app, length_drop, length_replicate. cbn [length NR_MAC_SUBHEADER_FIXED]. split; [lia|]. split; [lia|]. right. by eexists.
  - exists [], rest. split; [done|]. split; [cbn; lia|]. split; [done|by left].
Qed.

Section Block.

Context {St : Type} (req : St -> Z -> list Z -> res (St * (list Z * Z))) `{!RlcService req}.
Variables (m buflen : Z).
Hypotheses
  (Hmin : forall s lcid buf s' b n, req s lcid buf = Ok (s', (b, n)) -> n = 0 \/ m <= n /\ ul_channel lcid)
  (Hm : 0 < m) (Hblock : buflen < 2 ^ 15) (Hcount : 3 * (buflen / (m + 3)) + 11 <= 255).

(** The parts of a block of a UE. *)
Definition ul_parts (sched : ue_sched) (n : nat) (r : St * list (Z * list Z) * ue_sched * list Z * bool) : Prop :=
  let '(s', log, sched', buf, has_sdus) := r in
  exists ce pad tl,
    buf = block_of log ++ ce ++ pad ++ tl /\ length buf = n /\ Z.of_nat (length (block_of log ++ ce ++ pad)) = buflen /\
    (pad = [] \/ exists p, pad = UL_SCH_LCID_PADDING :: p) /\ Forall (pdu_ok m) log /\ has_sdus = negb (bool_decide (log = [])) /\
    report_of sched' (report_due sched buflen) (room_behind buflen log) ce /\
    Forall2 (fun b b' => 0 <= b' <= b) (BSR_bytes sched) (BSR_bytes sched') /\ sched_ok sched'.

Lemma ul_block s sched ulsch_buffer :
  sched_ok sched -> (bsr_triggered sched = true -> lcgs_with_data sched <= 1) -> 0 <= buflen <= Z.of_nat (length ulsch_buffer) ->
  unless_rlc_fails req (nr_ue_get_sdu (logged req) (s, []) sched ulsch_buffer buflen) (ul_parts sched (length ulsch_buffer)).
Proof.
  intros Hs Hsafe Hb. unfold nr_ue_get_sdu. fold first_ce_info. destruct (pre_spec sched buflen Hs Hsafe) as (s1 & c1 & -> & Hs1 & B1 & Ec1).
  cbn [rbind]. rewrite Ec1. set (due := report_due sched buflen) in *. cbv zeta. set (c := mk_ce_info _ _ _ _ _ _ _ _ _ _).
  assert (Hdue : 2 * Z.b2z due <= buflen) by (unfold due, report_due; destruct (bsr_triggered sched); [destruct (Z.leb_spec 3 buflen)|]; cbn; lia).
  assert (Ht : 0 <= 2 * Z.b2z due <= 2) by (destruct due; cbn; lia).
  eapply unless_bind. { apply (ul_channels_at req m buflen (2 * Z.b2z due)) with (c := c) (n := length ulsch_buffer) (s0 := s1); [done..|apply Hb|].
    exists s, [], ulsch_buffer, s1. split; [unfold with_sdus; cbn; by rewrite Z.add_0_r|]. split; [done|]. split; [cbn; lia|].
    split; [done|by apply later_refl]. }
  intros u (s2 & log & rest & sched2 & -> & Hlen & Hfit & Hlog & Hs2 & _ & Hsh). cbn [us_sched us_ce us_buf us_pdu us_sdus us_rlc].
  assert (Hpost : exists r, nr_ue_get_sdu_mac_ce_post sched2 buflen (with_sdus (2 * Z.b2z due) c log) = Ok r /\ post_result buflen sched2 log due r).
  { destruct due; cbn [Z.b2z Z.mul Pos.mul] in *; [apply (post_due m)|apply (post_padding m)]; try done; try lia; by repeat split; eexists. }
  destruct Hpost as ([sched3 c3] & -> & B3 & Hs3 & Hrep & L1 & L2 & L3 & L4). cbn [rbind]. rewrite length_app in Hlen.
  rewrite put_report by (done || lia). cbn [rbind]. rewrite L3, i16_small by lia.
  destruct (put_padding (block_of log ++ written c3) (drop (length (written c3)) rest) (buflen - (Z.of_nat (length (block_of log)) + tot_mac_ce_len c3)))
    as (pad & tl & -> & P1 & P2 & P3); [rewrite length_drop; lia|].
  cbn [rbind unless_rlc_fails ul_parts]. exists (written c3), pad, tl. rewrite <- app_assoc. split; [done|]. rewrite !length_app in *. rewrite length_drop in P2.
  split; [lia|]. split; [lia|]. split; [done|]. split; [done|]. split; [by destruct log|]. split; [done|]. split; [|exact Hs3]. rewrite B3.
  rewrite <- B1. apply Forall2_same_length_lookup_2; [by eapply Forall2_length|]. intros i x y Hx Hy.
  pose proof (Forall2_lookup_lr _ _ _ _ _ _ Hsh Hx Hy). pose proof (Forall_lookup_1 _ _ _ _ (so_range _ Hs2) Hy). cbn in *. lia.
Qed.

End Block.

(** ** The gNB takes a block apart *)

(** The UE is connected: it has a cell group and no random access. *)
Definition gnb_ready (UE_id : nat) (g : gnb_mac) : Prop :=
  (exists e, UE_info g !! UE_id = Some e /\ CellGroup e = true) /\ Forall (fun r => in_msg3 g UE_id r = false) (ra_processes g).

Definition gnb_took (UE_id : nat) (g : gnb_mac) (x : Z * list Z) : gnb_mac :=
  let g' := gnb_ind g (rlc_data_ind (rnti_of g UE_id) (fst x) (snd x)) in
  let n := Z.of_nat (length (snd x)) in
  if fst x =? UL_SCH_LCID_DTCH then
    g' <| ul_lc_bytes := <[Z.to_nat (fst x) := u64 (buf_get (ul_lc_bytes g) (fst x) + n)]> (ul_lc_bytes g) |>
       <| estimated_ul_buffer := (if estimated_ul_buffer g >=? n then estimated_ul_buffer g - n else 0) |>
  else g'.

Lemma srb_owner_ready g UE_id l pdu next : Forall (fun r => in_msg3 g UE_id r = false) l ->
  srb_owner g UE_id l pdu next = Ok (rnti_of g UE_id, Some UE_id).
Proof. induction 1 as [|r l Hr _ IH]; [done|]. cbn [srb_owner]. by rewrite Hr. Qed.

(** One turn of the gNB, from the outcome of the sub-PDU. *)
Lemma gnb_turn UE_id g g' bytes rest fuel sh n :
  (0 < length bytes)%nat -> sh + n = Z.of_nat (length bytes) ->
  gnb_sub_pdu g UE_id (bytes ++ rest) (Z.of_nat (length (bytes ++ rest))) = Ok (inl (g', sh, n, false)) ->
  nr_process_loop (S fuel) g UE_id (bytes ++ rest) (Z.of_nat (length (bytes ++ rest))) =
  nr_process_loop fuel g' UE_id rest (Z.of_nat (length rest)).
Proof.
  intros H0 Hlen H. cbn [nr_process_loop].
  replace (_ >? 0) with true by (symmetry; rewrite Z.gtb_ltb; apply Z.ltb_lt; rewrite length_app; lia).
  rewrite H. cbn [rbind]. rewrite Hlen, Nat2Z.id, drop_app_length. replace (_ - _) with (Z.of_nat (length rest)) by (rewrite length_app; lia).
  replace (_ <? 0) with false by (symmetry; apply Z.ltb_ge; lia). done.
Qed.

Lemma gnb_takes_sdu UE_id g x rest fuel : gnb_ready UE_id g -> ul_channel (fst x) -> sdu_ok x ->
  nr_process_loop (S fuel) g UE_id (sdu_bytes x ++ rest) (Z.of_nat (length (sdu_bytes x ++ rest))) =
  nr_process_loop fuel (gnb_took UE_id g x) UE_id rest (Z.of_nat (length rest)).
Proof.
  destruct x as [lcid p]. cbn [fst]. intros [(e & He & Hcg) Hra] Hl Hok. unfold sdu_ok in Hok. cbn [snd] in Hok.
  apply gnb_turn with (sh := 3) (n := Z.of_nat (length p)); [rewrite length_sdu_bytes; lia|rewrite length_sdu_bytes; cbn [snd]; lia|].
  unfold gnb_sub_pdu, sdu_bytes. cbn [fst snd]. rewrite <- app_assoc. set (tb := _ ++ p ++ rest).
  assert (Hrd : rd tb 0 = Ok (64 + lcid mod 64)) by done. rewrite Hrd. cbn [rbind]. rewrite lcid_long.
  assert (Hlen : get_mac_len tb (Z.of_nat (length tb)) = Ok (Some (Z.of_nat (length p), 3)))
    by (apply get_mac_len_long; unfold tb; rewrite ?length_app, ?length_long; lia).
  assert (Hsdu : rd_bytes tb 3 (Z.of_nat (length p)) = Ok p)
    by (change 3 with (Z.of_nat (length (NR_MAC_SUBHEADER_LONG lcid (Z.of_nat (length p))))); by apply rd_bytes_app).
  unfold gnb_took. destruct Hl as [-> |[-> | ->]].
  1: change (gnb_srb g UE_id tb (Z.of_nat (length tb)) 1 = Ok (inl (gnb_ind g (rlc_data_ind (rnti_of g UE_id) 1 p), 3, Z.of_nat (length p), false))).
  2: change (gnb_srb g UE_id tb (Z.of_nat (length tb)) 2 = Ok (inl (gnb_ind g (rlc_data_ind (rnti_of g UE_id) 2 p), 3, Z.of_nat (length p), false))).
  1,2: unfold gnb_srb; rewrite Hlen; cbn [rbind]; rewrite srb_owner_ready by done; cbn [rbind mbind option_bind]; by rewrite He, Hcg, Hsdu.
  match goal with |- _ = ?r => change (gnb_dtch g UE_id tb (Z.of_nat (length tb)) 4 = r) end.
  unfold gnb_dtch. rewrite Hlen. cbn [rbind]. by rewrite Hsdu.
Qed.

Lemma gnb_took_ready UE_id g x : gnb_ready UE_id g -> gnb_ready UE_id (gnb_took UE_id g x).
Proof. unfold gnb_took. by case_match. Qed.

Lemma gnb_takes_sdus UE_id log : Forall (fun x => ul_channel (fst x) /\ sdu_ok x) log -> forall g rest fuel, gnb_ready UE_id g ->
  nr_process_loop (length log + fuel) g UE_id (block_of log ++ rest) (Z.of_nat (length (block_of log ++ rest))) =
  nr_process_loop fuel (fold_left (gnb_took UE_id) log g) UE_id rest (Z.of_nat (length rest)).
Proof.
  induction 1 as [|x log [Hl Hok] _ IH]; intros g rest fuel Hg; [done|]. unfold block_of in *. cbn [length Nat.add fmap list_fmap concat fold_left].
  rewrite <- app_assoc, gnb_takes_sdu by done. by apply IH, gnb_took_ready.
Qed.

(** The SDUs are handed over in order; nothing else of the gNB changes but the counts. *)
Lemma gnb_took_log UE_id log : forall g, let g' := fold_left (gnb_took UE_id) log g in
  gnb_inds g' = gnb_inds g ++ ((fun x => rlc_data_ind (rnti_of g UE_id) (fst x) (snd x)) <$> log) /\
  UE_info g' = UE_info g /\ ra_processes g' = ra_processes g /\ ph g' = ph g /\ pcmax g' = pcmax g.
Proof.
  induction log as [|x log IH]; intros g; cbn [fold_left]; [by rewrite app_nil_r|]. destruct (IH (gnb_took UE_id g x)) as (E1 & E2 & E3 & E4 & E5).
  cbv zeta. rewrite E1, E2, E3, E4, E5. unfold gnb_took. case_match; cbn; by rewrite <- app_assoc.
Qed.

(** ** The gNB reads a report *)

Lemma gnb_takes_short UE_id g lcid b rest fuel : lcid = UL_SCH_LCID_S_BSR \/ lcid = UL_SCH_LCID_S_TRUNCATED_BSR ->
  nr_process_loop (S fuel) g UE_id (short_bsr_bytes lcid b ++ rest) (Z.of_nat (length (short_bsr_bytes lcid b ++ rest))) =
  nr_process_loop fuel (g <| estimated_ul_buffer := buf_get NR_SHORT_BSR_TABLE (Buffer_size b mod 32) |>) UE_id rest (Z.of_nat (length rest)).
Proof.
  intros Hl. apply gnb_turn with (sh := 1) (n := 1); [cbn; lia|done|].
  assert (E : gnb_sub_pdu g UE_id (short_bsr_bytes lcid b ++ rest) (Z.of_nat (length (short_bsr_bytes lcid b ++ rest))) = gnb_short_bsr g (short_bsr_bytes lcid b ++ rest))
    by (destruct Hl as [-> | ->]; done).
  rewrite E. unfold gnb_short_bsr. cbn [short_bsr_bytes NR_MAC_SUBHEADER_FIXED app rd lookup list_lookup rbind].
  rewrite (Z.mul_comm 32), Z.mod_add, Z.mod_mod by lia. done.
Qed.

(** The bits of the bitmap count the sizes that follow. *)
Lemma bitmap_count sizes : length sizes = 8%nat -> sumZ (bit_at (lcg_bitmap sizes 1)) (seq 0 8) = Z.of_nat (length (filter (fun b => b <> 0) sizes)).
Proof.
  intros H. set (marks := (fun b => Z.b2z (negb (b =? 0))) <$> sizes).
  assert (E1 : forall w, lcg_bitmap sizes w = lcg_bitmap marks w).
  { unfold marks. clear. induction sizes as [|b sizes IH]; intros w; [done|]. cbn [lcg_bitmap fmap list_fmap]. unfold fmap in IH. rewrite IH. by destruct (b =? 0). }
  assert (E2 : Z.of_nat (length (filter (fun b => b <> 0) sizes)) = sumZ (fun z => z) marks).
  { unfold marks. clear. induction sizes as [|b sizes IH]; [done|]. rewrite filter_cons. cbn [fmap list_fmap sumZ].
    destruct (Z.eqb_spec b 0) as [->|Hb]; [by rewrite decide_False by auto|]. rewrite decide_True by done. cbn [length]. rewrite Nat2Z.inj_succ, IH. cbn. lia. }
  rewrite E1, E2. assert (Hm : length marks = 8%nat) by (unfold marks; by rewrite length_fmap).
  assert (Hb : Forall (fun b => b = 0 \/ b = 1) marks) by (apply Forall_fmap, Forall_forall; intros b _; cbn; destruct (b =? 0); auto).
  clearbody marks. clear -Hm Hb. do 8 (destruct marks as [|? marks]; [done|]; apply list.Forall_cons in Hb as [[-> | ->] Hb]).
  all: destruct marks; [reflexivity|done].
Qed.

Lemma long_bsr_sum_spec present : forall pre rest acc,
  long_bsr_sum (pre ++ present ++ rest) (length pre) (length present) acc = Ok (fold_left (fun a b => i32 (a + buf_get NR_LONG_BSR_TABLE b)) present acc).
Proof.
  induction present as [|b l IH]; intros pre rest acc; [done|]. cbn [long_bsr_sum length fold_left]. unfold rd at 1. rewrite lookup_app_r, Nat.sub_diag by lia.
  cbn [lookup list_lookup app rbind]. specialize (IH (pre ++ [b]) rest). rewrite <- app_assoc, length_app, Nat.add_1_r in IH. apply IH.
Qed.

Definition long_estimate (sizes : list Z) : Z :=
  fold_left (fun a b => i32 (a + buf_get NR_LONG_BSR_TABLE b)) (filter (fun b => b <> 0) sizes) 0.

Lemma gnb_takes_long UE_id g sizes rest fuel : length sizes = 8%nat ->
  nr_process_loop (S fuel) g UE_id (long_bsr_bytes sizes ++ rest) (Z.of_nat (length (long_bsr_bytes sizes ++ rest))) =
  nr_process_loop fuel (g <| estimated_ul_buffer := long_estimate sizes |>) UE_id rest (Z.of_nat (length rest)).
Proof.
  intros Hl. set (present := filter (fun b => b <> 0) sizes). set (n := 1 + Z.of_nat (length present)).
  assert (Hn : 1 <= n <= 9) by (unfold n, present; pose proof (length_filter (fun b => b <> 0) sizes); lia).
  apply gnb_turn with (sh := 2) (n := n); [cbn; lia|rewrite length_long_bsr; fold present; lia|].
  set (tb := long_bsr_bytes sizes ++ rest).
  assert (E : gnb_sub_pdu g UE_id tb (Z.of_nat (length tb)) = gnb_long_bsr g tb (Z.of_nat (length tb))) by done.
  rewrite E. unfold gnb_long_bsr, get_mac_len. replace (_ <? 2) with false by (symmetry; apply Z.ltb_ge; unfold tb; rewrite length_app, length_long_bsr; lia).
  assert (R0 : rd tb 0 = Ok 62) by done. assert (R1 : rd tb 1 = Ok n) by (unfold n, present; cbn; unfold u8; by rewrite Z.mod_small by (unfold n, present in Hn; lia)).
  assert (R2 : rd tb 2 = Ok (lcg_bitmap sizes 1)) by done. rewrite R0. cbn [rbind]. change (Z.testbit 62 6) with false. rewrite R1.
  cbn [rbind]. change (Z.to_nat 2) with 2%nat. rewrite R2. cbn [rbind]. rewrite bitmap_count, Nat2Z.id by done. change (Z.to_nat (2 + 1)) with 3%nat.
  assert (Es : long_bsr_sum tb 3 (length present) 0 = Ok (long_estimate sizes)).
  { apply (long_bsr_sum_spec present [62; u8 n; lcg_bitmap sizes 1] rest 0). }
  fold present. rewrite Es. done.
Qed.

(** ** What the gNB knows after a report *)

Lemma sum_present (f : Z -> Z) l : f 0 = 0 -> sumZ f l = sumZ f (filter (fun b => b <> 0) l).
Proof.
  intros H0. induction l as [|b l IH]; [done|]. rewrite filter_cons. cbn [sumZ]. destruct (decide (b <> 0)); cbn [sumZ]; [lia|].
  assert (b = 0) as -> by lia. lia.
Qed.

Lemma last_lcg_spec bytes : length bytes = 8%nat -> 0 <= last_lcg bytes < 8 /\ (buf_get bytes (last_lcg bytes) = 0 -> Forall (fun b => b = 0) bytes).
Proof.
  intros Hl. assert (H : forall k, let r := fold_left (fun acc i => if negb (buf_get bytes (Z.of_nat i) =? 0) then Z.of_nat i else acc) (seq 0 k) 0 in
    (r = 0 /\ forall i, (i < k)%nat -> buf_get bytes (Z.of_nat i) = 0) \/ (0 <= r < Z.of_nat k /\ buf_get bytes r <> 0)).
  { induction k as [|k IH]; [left; split; [done|lia]|]. rewrite seq_S, fold_left_app. cbn [fold_left Nat.add].
    destruct (Z.eqb_spec (buf_get bytes (Z.of_nat k)) 0) as [E|E]; cbn [negb]; [|right; split; [lia|done]].
    destruct IH as [[E1 E2]|[E1 E2]]; [left; split; [done|]|right; split; [lia|done]]. intros i Hi. destruct (decide (i = k)) as [->|]; [done|]. apply E2. lia. }
  specialize (H 8%nat). cbv zeta in H. fold NR_MAX_NUM_LCGID in H. unfold last_lcg. set (r := fold_left _ _ _) in *.
  change (Z.of_nat NR_MAX_NUM_LCGID) with 8 in H. destruct H as [[-> H]|[H1 H2]]; [|split; [done|by intros E]].
  split; [lia|]. intros _. apply Forall_lookup_2. intros i x Hx. pose proof (lookup_lt_Some _ _ _ Hx) as Hix. rewrite Hl in Hix. specialize (H i Hix).
  unfold buf_get in H. rewrite Nat2Z.id, Hx in H. done.
Qed.

(** With data in one LCG at most, the sum is that of the LCG reported. *)
Lemma one_lcg_sum bytes : length bytes = 8%nat -> (length (filter (fun b => b <> 0%Z) bytes) <= 1)%nat ->
  sumZ (fun b => b) bytes = buf_get bytes (last_lcg bytes).
Proof.
  intros Hl H1. destruct (last_lcg_spec bytes Hl) as [Hr Hz]. rewrite sum_present by done. destruct (Z.eq_dec (buf_get bytes (last_lcg bytes)) 0) as [E|E].
  - rewrite E. specialize (Hz E). clear -Hz. induction Hz as [|b l -> _ IH]; [done|]. by rewrite filter_cons.
  - assert (Hin : buf_get bytes (last_lcg bytes) ∈ filter (fun b => b <> 0) bytes).
    { apply list_elem_of_filter. split; [done|]. unfold buf_get in *. destruct (bytes !! Z.to_nat (last_lcg bytes)) as [x|] eqn:Ex; [|done].
      by eapply list_elem_of_lookup_2. }
    destruct (filter _ bytes) as [|b [|]]; [by apply not_elem_of_nil in Hin| |cbn in H1; lia]. apply list_elem_of_singleton in Hin as ->. cbn. lia.
Qed.

Lemma short_estimate bytes idx : length bytes = 8%nat -> Forall (fun b => 0 <= b <= 300000) bytes ->
  (length (filter (fun b => b <> 0%Z) bytes) <= 1)%nat -> bsr_indices NR_SHORT_BSR_TABLE 32 bytes = Ok idx ->
  sumZ (fun b => b) bytes <= buf_get NR_SHORT_BSR_TABLE (buf_get idx (last_lcg bytes) mod 32 mod 32).
Proof.
  intros Hl Hb H1 Hi. rewrite one_lcg_sum by done. destruct (last_lcg_spec bytes Hl) as [Hr _].
  destruct (bsr_indices_spec NR_SHORT_BSR_TABLE 32 bytes short_table_ok) as (idx' & E & HF).
  { eapply list.Forall_impl; [exact Hb|]. intros x Hx. cbn in Hx. lia. }
  rewrite E in Hi. injection Hi as ->. destruct (lookup_lt_is_Some_2 bytes (Z.to_nat (last_lcg bytes))) as [b Eb]; [lia|].
  destruct (Forall2_lookup_l _ _ _ _ _ HF Eb) as (i & Ei & Hrange & _ & Hle & _). unfold buf_get at 1 3. rewrite Eb, Ei. cbn [default from_option id].
  rewrite Z.mod_mod, Z.mod_small by lia. pose proof (Forall_lookup_1 _ _ _ _ Hb Eb) as Hb300. cbn in Hb300. destruct Hle as [Hle| ->]; [done|].
  change (buf_get NR_SHORT_BSR_TABLE (32 - 1)) with 300000. lia.
Qed.

(** The entry of a size up to 300000 bytes. *)
Lemma long_entry b i : 0 <= b <= 300000 -> index_of NR_LONG_BSR_TABLE 256 b i -> b <= buf_get NR_LONG_BSR_TABLE i <= 301579.
Proof.
  intros Hb (Hi & Hz & Hle & Hp). destruct long_table_ok as (_ & _ & _ & Hinc).
  assert (E : buf_get NR_LONG_BSR_TABLE 164 = 301579) by done. assert (H164 : i <= 164).
  { destruct (Z.le_gt_cases i 164) as [|H]; [done|]. destruct Hp as [->|Hp]; [lia|]. destruct (Z.eq_dec i 165) as [->|].
    - change (165 - 1) with 164 in Hp. lia.
    - pose proof (Hinc 164 (i - 1) ltac:(lia) ltac:(lia)). lia. }
  split; [destruct Hle; lia|]. destruct (Z.eq_dec i 164) as [->|]; [lia|]. pose proof (Hinc i 164 ltac:(lia) ltac:(lia)). lia.
Qed.

Lemma long_estimate_sum bytes idx : length bytes = 8%nat -> Forall (fun b => 0 <= b <= 300000) bytes ->
  bsr_indices NR_LONG_BSR_TABLE 256 bytes = Ok idx -> length idx = 8%nat /\ sumZ (fun b => b) bytes <= long_estimate idx.
Proof.
  intros Hl Hb Hi. destruct (bsr_indices_spec NR_LONG_BSR_TABLE 256 bytes long_table_ok) as (idx' & E & HF).
  { eapply list.Forall_impl; [exact Hb|]. intros x Hx. cbn in Hx. lia. }
  rewrite E in Hi. injection Hi as ->. split; [by rewrite <- (Forall2_length HF)|].
  assert (Hs : forall l acc, Forall (fun i => 0 <= buf_get NR_LONG_BSR_TABLE i <= 301579) l -> 0 <= acc -> acc + 301579 * Z.of_nat (length l) < 2 ^ 31 ->
    fold_left (fun a b => i32 (a + buf_get NR_LONG_BSR_TABLE b)) l acc = acc + sumZ (buf_get NR_LONG_BSR_TABLE) l).
  { induction l as [|i l IH]; intros acc Hf H0 H31; [cbn; lia|]. apply list.Forall_cons in Hf as [Hi Hf]. cbn [fold_left sumZ length] in *.
    rewrite i32_small by lia. rewrite IH by (done || lia). lia. }
  assert (Hent : Forall2 (fun b i => b <= buf_get NR_LONG_BSR_TABLE i <= 301579) bytes idx).
  { clear -HF Hb. induction HF as [|b i bytes idx H _ IH]; [done|]. apply list.Forall_cons in Hb as [Hb1 Hb]. constructor; [by apply long_entry|by apply IH]. }
  assert (Hpos : Forall (fun i => 0 <= buf_get NR_LONG_BSR_TABLE i <= 301579) idx).
  { clear -Hent Hb. induction Hent as [|b i bytes idx H _ IH]; [done|]. apply list.Forall_cons in Hb as [Hb1 Hb]. constructor; [lia|by apply IH]. }
  unfold long_estimate. rewrite Hs, <- sum_present; [|done|apply list.Forall_forall; intros i [_ Hin]%list_elem_of_filter; by apply (proj1 (list.Forall_forall _ _) Hpos)|lia|].
  - clear -Hent. induction Hent; cbn [sumZ]; lia.
  - pose proof (length_filter (fun b => b <> 0) idx). rewrite <- (Forall2_length HF), Hl in *. lia.
Qed.

(** ** The block of a UE at the gNB *)

(** The report covers the buffers: it was due, or had room in the padding for a long one. *)
Definition report_covers (sched : ue_sched) (due : bool) (room : Z) : Prop :=
  (due = true /\ lcgs_with_data sched <= 1 \/ due = false /\ 0 < room /\ lcgs_with_data sched + 3 <= room) /\
  Forall (fun b => b <= 300000) (BSR_bytes sched).

Lemma gnb_takes_report UE_id g sched due room ce :
  report_of sched due room ce -> length (BSR_bytes sched) = 8%nat -> Forall (fun b => 0 <= b < 2 ^ 31) (BSR_bytes sched) ->
  exists est k, (k <= length ce)%nat /\
    (forall rest fuel, nr_process_loop (k + fuel) g UE_id (ce ++ rest) (Z.of_nat (length (ce ++ rest))) =
       nr_process_loop fuel (g <| estimated_ul_buffer := est |>) UE_id rest (Z.of_nat (length rest))) /\
    (report_covers sched due room -> sumZ (fun b => b) (BSR_bytes sched) <= est).
Proof.
  intros Hrep Hl Hr. unfold report_of in Hrep. assert (E8 : take NR_MAX_NUM_LCGID (BSR_bytes sched) = BSR_bytes sched) by (apply take_ge; by rewrite Hl).
  assert (H300 : Forall (fun b => b <= 300000) (BSR_bytes sched) -> Forall (fun b => 0 <= b <= 300000) (BSR_bytes sched)).
  { clear -Hr. induction Hr; intros Hb; [done|]. apply list.Forall_cons in Hb as [? ?]. constructor; [lia|auto]. }
  destruct due.
  - destruct Hrep as [Ei ->]. eexists _, 1%nat. split; [cbn; lia|]. split; [intros; apply gnb_takes_short; by left|]. cbn [Buffer_size].
    intros [[[_ H1]|[? _]] Hb]; [|done]. apply short_estimate; [done|by apply H300| |done]. unfold lcgs_with_data in H1. rewrite E8 in H1. lia.
  - destruct (_ && _) eqn:Ec.
    + destruct Hrep as [Ei ->]. exists (long_estimate (BSR sched)), 1%nat. split; [cbn; lia|].
      destruct (bsr_indices_spec NR_LONG_BSR_TABLE 256 (BSR_bytes sched) long_table_ok Hr) as (idx & E & HF). rewrite Ei in E. injection E as E.
      assert (Hli : length (BSR sched) = 8%nat) by (rewrite E, <- (Forall2_length HF); done).
      split; [intros; by apply gnb_takes_long|]. intros [_ Hb]. by apply (long_estimate_sum _ _ Hl (H300 Hb) Ei).
    + assert (Hno : ~ report_covers sched false room).
      { intros [[[? _]|(_ & H1 & H2)] _]; [done|]. apply andb_false_iff in Ec as [H|H]; [apply Z.ltb_ge in H|apply Z.leb_gt in H]; lia. }
      destruct (2 <=? room).
      * destruct Hrep as (lcid & b & Hlc & ->). eexists _, 1%nat. split; [cbn; lia|]. split; [intros; by apply gnb_takes_short|]. by intros.
      * subst ce. exists (estimated_ul_buffer g), 0%nat. split; [cbn; lia|]. split; [by destruct g|]. by intros.
Qed.

Lemma gnb_padding UE_id g fuel pad : (pad = [] \/ exists tl, pad = UL_SCH_LCID_PADDING :: tl) -> (length pad <= fuel)%nat ->
  nr_process_loop fuel g UE_id pad (Z.of_nat (length pad)) = Ok (g, 0).
Proof.
  intros [-> |[tl ->]] Hf; [by destruct fuel|]. destruct fuel as [|fuel]; [cbn in Hf; lia|]. cbn [nr_process_loop].
  replace (_ >? 0) with true by (symmetry; rewrite Z.gtb_ltb; apply Z.ltb_lt; cbn [length]; lia).
  assert (E : forall n, gnb_sub_pdu g UE_id (UL_SCH_LCID_PADDING :: tl) n = Ok (inl (g, 1, 0, true))) by done. rewrite E. cbn [rbind].
  replace (_ <? 0) with false by (symmetry; apply Z.ltb_ge; cbn [length]; lia). done.
Qed.

(** All of a block. *)
Lemma gnb_reads_block {St} m buflen sched n s' log sched' buf has g UE_id :
  0 < m -> 0 < buflen -> gnb_ready UE_id g -> ul_parts (St := St) m buflen sched n (s', log, sched', buf, has) ->
  exists est, nr_process_mac_pdu g UE_id (take (Z.to_nat buflen) buf) buflen =
    Ok ((fold_left (gnb_took UE_id) log g) <| estimated_ul_buffer := est |>, 0) /\
    (report_covers sched' (report_due sched buflen) (room_behind buflen log) -> sumZ (fun b => b) (BSR_bytes sched') <= est).
Proof.
  intros Hm Hb Hg (ce & pad & tl & -> & Hn & Hlen & Hpad & Hlog & _ & Hrep & Hsh & H8). pose proof (so_range _ H8) as Hr. apply so_bytes in H8. set (g1 := fold_left (gnb_took UE_id) log g).
  assert (Hlog' : Forall (fun x => ul_channel (fst x) /\ sdu_ok x) log).
  { eapply list.Forall_impl; [exact Hlog|]. intros x [Hx1 Hx2]. split; [done|]. unfold sdu_ok. lia. }
  assert (Hcount : (length log <= length (block_of log))%nat).
  { pose proof (sdus_count m log Hlog). nia. }
  destruct (gnb_takes_report UE_id g1 sched' _ _ ce Hrep H8 Hr) as (est & k & Hk & Hread & Hcov). exists est. split; [|done].
  unfold nr_process_mac_pdu. replace (buflen <=? 0) with false by (symmetry; apply Z.leb_gt; lia).
  rewrite !app_assoc, <- (app_assoc (block_of log)), <- Hlen, Nat2Z.id, take_app_length, app_assoc, <- app_assoc.
  replace (length (block_of log ++ ce ++ pad)) with (length log + (k + (length (block_of log) - length log + (length ce - k) + length pad)))%nat at 1
    by (rewrite !length_app; lia).
  rewrite gnb_takes_sdus, Hread by done. apply gnb_padding; [done|lia].
Qed.

Lemma lcgs_shrink s s' : Forall2 (fun b b' => 0 <= b' <= b) (BSR_bytes s) (BSR_bytes s') -> lcgs_with_data s' <= lcgs_with_data s.
Proof.
  unfold lcgs_with_data. intros H. generalize NR_MAX_NUM_LCGID as k. induction H as [|b b' l l' Hb _ IH]; intros k; [done|].
  destruct k as [|k]; [done|]. cbn [take]. rewrite !filter_cons. specialize (IH k).
  destruct (decide (b' <> 0)), (decide (b <> 0)); cbn [length]; lia.
Qed.

Definition ul_indications (g : gnb_mac) (UE_id : nat) (log : list (Z * list Z)) : list mac_ind :=
  (fun x => rlc_data_ind (rnti_of g UE_id) (fst x) (snd x)) <$> log.

(** What RLC of a UE is relied on for: PDUs of [m] bytes and more, on SRB1, SRB2 and the first DRB. *)
Definition ul_bearers {St} (m : Z) (req : St -> Z -> list Z -> res (St * (list Z * Z))) : Prop :=
  forall s lcid buf s' b n, req s lcid buf = Ok (s', (b, n)) -> n = 0 \/ m <= n /\ ul_channel lcid.

(** C30. Uplink transport blocks. For every RLC that answers within the buffers it is offered, on
    SRB1, SRB2 and the first DRB (LCIDs 1, 2 and 4) and with PDUs of at least m bytes: the UE
    builds a transport block of less than 32 KiB unless a request to RLC itself fails, says that
    it has SDUs exactly when RLC gave some, and a gNB to which the UE is connected, without a
    random access under way, takes the block apart and hands to RLC exactly the PDUs that the RLC
    of the UE gave, on the logical channels they came from and in this order; the UE is fit for
    the next block. The least size m has to be such that a block holds at most 81 SDUs, because
    the UE counts header bytes in eight bits ([header_count_wraps]); larger blocks are excluded by
    [block_of_40000_bytes], other bearers by [second_drb_ends_block] and [srb3_misread], and a
    report due with data in more than one LCG by [long_report_stale_byte]. *)
Theorem ul_transport_block (St : Type) (req : St -> Z -> list Z -> res (St * (list Z * Z))) (m buflen : Z) (s : St)
  (sched : ue_sched) (ulsch_buffer : list Z) (g : gnb_mac) (UE_id : nat) :
  RlcService req -> ul_bearers m req -> 0 < m -> 3 * (buflen / (m + 3)) + 11 <= 255 -> buflen < 2 ^ 15 ->
  0 < buflen <= Z.of_nat (length ulsch_buffer) -> sched_ok sched -> (bsr_triggered sched = true -> lcgs_with_data sched <= 1) ->
  gnb_ready UE_id g ->
  unless_rlc_fails req (nr_ue_get_sdu (logged req) (s, []) sched ulsch_buffer buflen)
    (fun '(s', log, sched', buf, has_sdus) =>
       length buf = length ulsch_buffer /\ has_sdus = negb (bool_decide (log = [])) /\ sched_ok sched' /\
       exists g', nr_process_mac_pdu g UE_id (take (Z.to_nat buflen) buf) buflen = Ok (g', 0) /\
         gnb_inds g' = gnb_inds g ++ ul_indications g UE_id log /\
         UE_info g' = UE_info g /\ ra_processes g' = ra_processes g /\ ph g' = ph g /\ pcmax g' = pcmax g).
Proof.
  intros Hreq Hmin Hm Hc Hb Hlen Hs Hsafe Hg. eapply unless_impl; [apply (ul_block req m buflen); try done; lia|].
  intros [[[[s' log] sched'] buf] has] Hp. pose proof Hp as (ce & pad & tl & _ & Hl & _ & _ & _ & Hhas & _ & _ & Hs'). split; [done|]. split; [done|]. split; [done|].
  destruct (gnb_reads_block m buflen sched _ _ _ _ _ _ g UE_id Hm ltac:(lia) Hg Hp) as (est & E & _). eexists. split; [exact E|].
  apply (gnb_took_log UE_id log g).
Qed.

(** A UE with data for its first DRB, in LCG 1; the gNB has it as its second UE. *)
Definition drb_req (s : list (list Z)) (lcid : Z) (buf : list Z) : res (list (list Z) * (list Z * Z)) :=
  if lcid =? 4 then queue_req s lcid buf else Ok (s, (buf, 0)).

#[export] Instance drb_service : RlcService drb_req.
Proof.
  intros s lcid buf s' b n H. unfold drb_req in H. destruct (lcid =? 4); [by eapply queue_service|]. injection H as <- <- <-. lia.
Qed.

Lemma drb_bearers : ul_bearers 1 drb_req.
Proof.
  intros s lcid buf s' b n H. unfold drb_req in H. destruct (Z.eqb_spec lcid 4) as [->|]; [|injection H as <- <- <-; by left].
  assert (0 <= n) by (apply (queue_service _ _ _ _ _ _ H)). destruct (Z.eq_dec n 0); [by left|]. right. split; [lia|]. unfold ul_channel. lia.
Qed.

Definition busy_sched : ue_sched :=
  mk_ue_sched [] [0; 40; 0; 0; 0; 0; 0; 0] (replicate 32 0) (replicate 32 0) ([8; 0; 0; 8; 1] ++ replicate 27 8) 1 0 0 0xFFFF 2 5 1.
Definition two_ues : gnb_mac :=
  mk_gnb_mac [mk_UE_entry true 0x1111 true; mk_UE_entry true 0x2222 true] [mk_NR_RA 0 0 0 false] 0 0 0 (replicate 8 0) [].

Lemma busy_sched_ok : sched_ok busy_sched.
Proof.
  split; [done|repeat constructor; done|done| |done].
  intros lcid [-> |[-> | ->]]; [exists 0|exists 0|exists 1]; split; (done || lia).
Qed.

Lemma two_ues_ready : gnb_ready 1 two_ues.
Proof. split; [by eexists|]. by repeat constructor. Qed.

Lemma ul_transport_block_witness :
  exists s sched buf g', nr_ue_get_sdu (logged drb_req) ([[1; 2; 3]; [4]; replicate 50 9], []) busy_sched (replicate 32 0xAA) 30 =
      Ok (s, [(4, [1; 2; 3]); (4, [4])], sched, buf, true) /\
    nr_process_mac_pdu two_ues 1 (take 30 buf) 30 = Ok (g', 0) /\
    gnb_inds g' = [rlc_data_ind 0x2222 4 [1; 2; 3]; rlc_data_ind 0x2222 4 [4]].
Proof.
  pose proof (ul_transport_block _ drb_req 1 30 [[1; 2; 3]; [4]; replicate 50 9] busy_sched (replicate 32 0xAA) two_ues 1 drb_service drb_bearers ltac:(lia) ltac:(vm_compute; discriminate) ltac:(lia)
    ltac:(rewrite length_replicate; lia) busy_sched_ok ltac:(intros _; vm_compute; discriminate) two_ues_ready) as H.
  destruct (nr_ue_get_sdu _ _ _ _ _) as [[[[[s log] sched] buf] has]| |] eqn:E; [|vm_compute in E; discriminate..].
  destruct H as (_ & _ & _ & g' & H1 & H2 & _). assert (Hlog : log = [(4, [1; 2; 3]); (4, [4])] /\ has = true) by (vm_compute in E; by injection E as <- <- <- <-).
  destruct Hlog as [-> ->]. clear E. exists s, sched, buf, g'. split; [reflexivity|]. split; [exact H1|exact H2].
Defined.


