(* ===== verification/MacBsr.v ===== *)
(** The buffer status that a UE keeps: what [nr_update_bsr] makes of the answers of RLC. *)

From S2P Require Import Prelude.
From S2P Require Import MacUl.
From S2P Require Import MacUlLink.

(** ** The scan of the logical channels *)

Section Scan.

Variables (status : Z -> Z) (exist : list bool) (lcgid : list Z).
Hypotheses (Hstatus : forall i, 0 <= status i) (Hsum : sumZ (fun i => status (Z.of_nat i)) (seq 1 31) < 2 ^ 31)
  (Hlcg : Forall (fun g => 0 <= g) lcgid).

Definition exists_lc (i : nat) : bool := default false (exist !! i).

(** The logical channels among the first [k] that count for the LCG [g]. *)
Definition counted (g : Z) (i : nat) : Z := if exists_lc i && (buf_get lcgid (Z.of_nat i) =? g) then status (Z.of_nat i) else 0.
Definition lcg_sum (k : nat) (g : Z) : Z := sumZ (counted g) (seq 1 k).

(** The channel has data for a report. *)
Definition reports (i : nat) : bool := exists_lc i && (buf_get lcgid (Z.of_nat i) <? 8) && (0 <? status (Z.of_nat i)).

Definition scanned (s0 : ue_sched) (k : nat) (x : ue_sched * bsr_scan) : Prop :=
  let '(s, b) := x in
  length (BSR_bytes s) = 8%nat /\ (forall g, (g < 8)%nat -> BSR_bytes s !! g = Some (lcg_sum k (Z.of_nat g))) /\
  LCGID s = lcgid /\ LCID_buffer_remain s = LCID_buffer_remain s0 /\ BSR_reporting_active s = BSR_reporting_active s0 /\
  num_lcid_with_data b = Z.of_nat (length (filter (fun i => reports i = true) (seq 1 k))) /\
  length (lcid_bytes_in_buffer b) = 32%nat /\
  forall i, (i < 32)%nat -> lcid_bytes_in_buffer b !! i = Some (if bool_decide (1 <= i <= k)%nat && exists_lc i then status (Z.of_nat i) else 0).

Lemma sum_seq_le k f g : (forall i, 0 <= f i <= g i) -> sumZ f (seq 1 k) <= sumZ g (seq 1 k).
Proof. intros H. generalize (seq 1 k). induction l as [|x l IH]; cbn; [lia|]. specialize (H x). lia. Qed.

Lemma sum_seq_S k f : sumZ f (seq 1 (S k)) = sumZ f (seq 1 k) + f (S k).
Proof. rewrite seq_S, sumZ_app. cbn. lia. Qed.

Lemma counted_bound g i : 0 <= counted g i <= status (Z.of_nat i).
Proof. unfold counted. pose proof (Hstatus (Z.of_nat i)). destruct (_ && _); lia. Qed.

Lemma lcg_sum_bound k g : (k <= 31)%nat -> 0 <= lcg_sum k g < 2 ^ 31.
Proof.
  intros Hk. split; [apply sumZ_nonneg, list.Forall_forall; intros i _; apply counted_bound|].
  assert (Hle : lcg_sum k g <= sumZ (fun i => status (Z.of_nat i)) (seq 1 k)) by (apply sum_seq_le; intros; apply counted_bound).
  assert (Hm : sumZ (fun i => status (Z.of_nat i)) (seq 1 k) <= sumZ (fun i => status (Z.of_nat i)) (seq 1 31)).
  { replace 31%nat with (k + (31 - k))%nat by lia. rewrite seq_app, sumZ_app.
    pose proof (sumZ_nonneg (fun i => status (Z.of_nat i)) (seq (1 + k) (31 - k)) ltac:(apply list.Forall_forall; intros; apply Hstatus)). lia. }
  lia.
Qed.

Lemma lcg_sum_S k g : lcg_sum (S k) g = lcg_sum k g + counted g (S k).
Proof. apply sum_seq_S. Qed.

Lemma count_S k : length (filter (fun i => reports i = true) (seq 1 (S k))) =
  (length (filter (fun i => reports i = true) (seq 1 k)) + if reports (S k) then 1 else 0)%nat.
Proof.
  rewrite seq_S, list.filter_app, length_app, filter_cons, filter_nil. cbn [Nat.add]. destruct (reports (S k)); [by rewrite decide_True|by rewrite decide_False].
Qed.

Definition bytes_upto (k : nat) (l : list Z) : Prop :=
  length l = 32%nat /\
  forall i, (i < 32)%nat -> l !! i = Some (if bool_decide (1 <= i <= k)%nat && exists_lc i then status (Z.of_nat i) else 0).

Lemma bytes_upto_S k l : (k < 31)%nat -> bytes_upto k l ->
  bytes_upto (S k) (if exists_lc (S k) then <[S k := status (Z.of_nat (S k))]> l else l).
Proof.
  intros Hk [Hl H]. split; [destruct (exists_lc _); by rewrite ?length_insert|]. intros i Hi. destruct (decide (i = S k)) as [->|Hne].
  - rewrite bool_decide_eq_true_2 by lia. cbn [andb]. destruct (exists_lc (S k)) eqn:E; [apply list_lookup_insert_eq; lia|]. rewrite H by lia.
    by rewrite E, andb_false_r.
  - replace (bool_decide (1 <= i <= S k)%nat) with (bool_decide (1 <= i <= k)%nat) by (apply bool_decide_ext; lia).
    rewrite <- H by done. destruct (exists_lc (S k)); [|done]. by apply list_lookup_insert_ne.
Qed.

(** The sums of the LCGs after one more channel. *)
Lemma sums_S k l : (k < 31)%nat -> length l = 8%nat -> (forall g, (g < 8)%nat -> l !! g = Some (lcg_sum k (Z.of_nat g))) ->
  let l' := if reports (S k) then alter (fun r => i32 (r + status (Z.of_nat (S k)))) (Z.to_nat (buf_get lcgid (Z.of_nat (S k)))) l else l in
  length l' = 8%nat /\ forall g, (g < 8)%nat -> l' !! g = Some (lcg_sum (S k) (Z.of_nat g)).
Proof.
  intros Hk Hl H. set (i := S k). assert (Hg0 : 0 <= buf_get lcgid (Z.of_nat i)).
  { unfold buf_get. destruct (lcgid !! _) as [x|] eqn:E; [|cbn; lia]. by apply (Forall_lookup_1 _ _ _ _ Hlcg) in E. }
  assert (Es : forall g, lcg_sum i g = lcg_sum k g + counted g i) by (intros; apply lcg_sum_S).
  cbv zeta. destruct (reports i) eqn:Er.
  - split; [by rewrite length_alter|]. intros g Hg. unfold reports in Er. apply andb_true_iff in Er as [Er _]. apply andb_true_iff in Er as [Ee El]. apply Z.ltb_lt in El.
    pose proof (lcg_sum_bound i (Z.of_nat g) ltac:(lia)) as Hb. rewrite Es in *. unfold counted in *. rewrite Ee in *. cbn [andb] in *.
    destruct (Z.eqb_spec (buf_get lcgid (Z.of_nat i)) (Z.of_nat g)) as [E|E].
    + rewrite E, Nat2Z.id, list_lookup_alter_eq, H by done. cbn [fmap option_fmap option_map]. by rewrite i32_small by lia.
    + rewrite list_lookup_alter_ne, H, Z.add_0_r by (done || lia). done.
  - split; [done|]. intros g Hg. rewrite Es, H by done. f_equal. unfold counted. destruct (exists_lc i) eqn:Ee; cbn [andb]; [|lia].
    destruct (Z.eqb_spec (buf_get lcgid (Z.of_nat i)) (Z.of_nat g)) as [E|E]; [|lia]. unfold reports in Er. rewrite Ee in Er. cbn [andb] in Er.
    apply andb_false_iff in Er as [Er|Er]; [apply Z.ltb_ge in Er; lia|apply Z.ltb_ge in Er]. pose proof (Hstatus (Z.of_nat i)). lia.
Qed.

Lemma status_small i : (1 <= i <= 31)%nat -> 0 <= status (Z.of_nat i) < 2 ^ 31.
Proof.
  intros Hi. split; [apply Hstatus|]. replace 31%nat with ((i - 1) + (1 + (31 - i)))%nat in Hsum by lia. rewrite seq_app, sumZ_app in Hsum.
  replace (1 + (i - 1))%nat with i in Hsum by lia. rewrite seq_app, sumZ_app in Hsum. cbn [seq sumZ] in Hsum.
  assert (Hn : forall l, 0 <= sumZ (fun i => status (Z.of_nat i)) l) by (intros l; apply sumZ_nonneg, list.Forall_forall; intros; apply Hstatus).
  pose proof (Hn (seq 1 (i - 1))). pose proof (Hn (seq (i + 1) (31 - i))). lia.
Qed.

Lemma scan_step s0 k x : (k < 31)%nat -> scanned s0 k x -> scanned s0 (S k) (scan_lcid status exist x (S k)).
Proof.
  destruct x as [s b]. intros Hk (H1 & H2 & H3 & H4 & H5 & H6 & H7 & H8). pose proof (sums_S k _ Hk H1 H2) as HS.
  pose proof (bytes_upto_S k _ Hk (conj H7 H8)) as HB. pose proof (status_small (S k) ltac:(lia)) as Hst.
  pose proof (length_filter (fun i => reports i = true) (seq 1 k)) as Hc. rewrite length_seq in Hc.
  pose proof (count_S k) as HC. unfold scan_lcid. set (i := S k) in *. fold (exists_lc i). rewrite H3. change (Z.of_nat NR_MAX_NUM_LCGID) with 8.
  assert (Er : reports i = exists_lc i && (buf_get lcgid (Z.of_nat i) <? 8) && (0 <? status (Z.of_nat i))) by done.
  unfold scanned. rewrite HC, Er in *. destruct HB as [HB1 HB2].
  rewrite i32_small, Z.gtb_ltb by lia. destruct (exists_lc i) eqn:Ee; cbn [andb] in *; [|destruct HS; by rewrite Nat.add_0_r].
  destruct (buf_get lcgid (Z.of_nat i) <? 8) eqn:El, (0 <? status (Z.of_nat i)) eqn:Es; cbn [andb] in *; destruct HS as [HS1 HS2]; unfold update; cbn -[length filter seq i32 u8 lcg_sum];
    rewrite ?Nat.add_0_r; try done.
  split; [done|]. split; [done|]. split; [done|]. split; [done|]. split; [done|]. split; [|done].
  rewrite H6. unfold u8. rewrite Z.mod_small by lia. lia.
Qed.

Lemma scan_all s0 x : scanned s0 0 x -> scanned s0 31 (fold_left (scan_lcid status exist) (seq 1 31) x).
Proof.
  intros H. assert (Hk : forall k, (k <= 31)%nat -> scanned s0 k (fold_left (scan_lcid status exist) (seq 1 k) x)).
  { induction k as [|k IH]; intros Hk; [done|]. rewrite seq_S, fold_left_app. cbn [fold_left]. apply scan_step; [lia|]. apply IH. lia. }
  by apply Hk.
Qed.

End Scan.

(** ** The state after a slot *)

Lemma update_bsr_spec status exist s :
  (forall i, 0 <= status i) -> sumZ (fun i => status (Z.of_nat i)) (seq 1 31) < 2 ^ 31 -> Forall (fun g => 0 <= g) (LCGID s) -> sched_ok s ->
  exists s', nr_update_bsr status exist s = (s', existsb (reports status exist (LCGID s)) (seq 1 31)) /\ sched_ok s' /\
    LCGID s' = LCGID s /\ BSR_reporting_active s' = BSR_reporting_active s /\
    (forall g, (g < 8)%nat -> BSR_bytes s' !! g = Some (lcg_sum status exist (LCGID s) 31 (Z.of_nat g))) /\
    (forall i, (1 <= i < 32)%nat -> LCID_buffer_remain s' !! i = Some (if exists_lc exist i then status (Z.of_nat i) else 0)).
Proof.
  intros Hst Hsum Hlcg Hs. unfold nr_update_bsr. set (s1 := _ <| BSR_bytes := _ |>). set (b := mk_bsr_scan _ _ _ _).
  assert (H0 : scanned status exist (LCGID s) s 0 (s1, b)).
  { split; [done|]. split; [intros g Hg; by apply lookup_replicate_2|]. do 5 (split; [done|]). intros i Hi.
    rewrite bool_decide_eq_false_2 by lia. by apply lookup_replicate_2. }
  apply (scan_all status exist (LCGID s) Hst Hsum Hlcg s) in H0. destruct (fold_left _ _ _) as [s2 b2].
  destruct H0 as (H1 & H2 & H3 & H4 & H5 & H6 & H7 & H8). eexists. split; [f_equal|].
  - rewrite H6. set (l := seq 1 31). clearbody l. clear. induction l as [|i l IH]; [done|]. rewrite filter_cons. cbn [existsb].
    destruct (reports status exist (LCGID s) i); [by rewrite decide_True|]. by rewrite decide_False.
  - assert (Hrem : length (take 1 (LCID_buffer_remain s2) ++ drop 1 (lcid_bytes_in_buffer b2)) = 32%nat)
      by (rewrite length_app, length_take, length_drop, H4, (so_remain _ Hs), H7; done).
    split; [|split; [exact H3|split; [exact H5|split; [exact H2|]]]].
    + destruct Hs as [K1 K2 K3 K4 K5]. split; unfold update; cbn; [done| |done|by rewrite H3|by rewrite H5].
      apply Forall_lookup_2. intros g x Hx. assert (Hg : (g < 8)%nat) by (rewrite <- H1; by eapply lookup_lt_Some).
      rewrite (H2 g Hg) in Hx. injection Hx as <-. by apply lcg_sum_bound.
    + intros i Hi. unfold update. cbn -[take drop]. rewrite lookup_app_r by (rewrite length_take, H4, (so_remain _ Hs); lia).
      rewrite length_take, H4, (so_remain _ Hs), lookup_drop. replace (1 + (i - Nat.min 1 32))%nat with i by lia. rewrite H8 by lia.
      by rewrite bool_decide_eq_true_2 by lia.
Qed.

(** Buffer status of a UE: after the tick of a slot, each LCG counts exactly the bytes that
    RLC has for its logical channels, each channel keeps its own count, and a regular report is
    pending exactly when one was or some channel of an LCG has data; the state stays fit for the
    next block. *)
Theorem bsr_tick_exact (status : Z -> Z) (exist : list bool) (s : ue_sched) :
  (forall i, 0 <= status i) -> sumZ (fun i => status (Z.of_nat i)) (seq 1 31) < 2 ^ 31 -> Forall (fun g => 0 <= g) (LCGID s) -> sched_ok s ->
  let s' := bsr_tick status exist s in
  sched_ok s' /\ LCGID s' = LCGID s /\
  (forall g, (g < 8)%nat -> BSR_bytes s' !! g = Some (lcg_sum status exist (LCGID s) 31 (Z.of_nat g))) /\
  (forall i, (1 <= i < 32)%nat -> LCID_buffer_remain s' !! i = Some (if exists_lc exist i then status (Z.of_nat i) else 0)) /\
  (Z.testbit (BSR_reporting_active s') 0 = true <->
   Z.testbit (BSR_reporting_active s) 0 = true \/ exists i, (1 <= i <= 31)%nat /\ reports status exist (LCGID s) i = true).
Proof.
  intros Hst Hsum Hlcg Hs. unfold bsr_tick.
  set (s1 := if _ && _ then s <| retxBSR_SF := _ |> else s). assert (E1 : sched_ok s1 /\ LCGID s1 = LCGID s /\ BSR_reporting_active s1 = BSR_reporting_active s)
    by (unfold s1; destruct Hs; case_match; by repeat split).
  cbv zeta. set (s2 := if _ && _ then s1 <| periodicBSR_SF := _ |> else s1).
  assert (E2 : sched_ok s2 /\ LCGID s2 = LCGID s /\ BSR_reporting_active s2 = BSR_reporting_active s)
    by (unfold s2; destruct E1 as ([] & ? & ?); case_match; by repeat split).
  clearbody s2. clear E1 s1. destruct E2 as (O2 & L2 & A2). rewrite <- L2, <- A2. rewrite <- L2 in Hlcg.
  destruct (update_bsr_spec status exist s2 Hst Hsum Hlcg O2) as (s' & -> & K1 & K2 & K3 & K4 & K5).
  assert (Hex : existsb (reports status exist (LCGID s2)) (seq 1 31) = true <-> exists i, (1 <= i <= 31)%nat /\ reports status exist (LCGID s2) i = true).
  { rewrite existsb_exists. split; intros (i & Hi & Hr); exists i; (split; [|done]); apply in_seq in Hi || apply in_seq; lia. }
  destruct (existsb _ _) eqn:Et.
  - split; [|split; [done|split; [done|split; [done|]]]].
    + destruct K1 as [J1 J2 J3 J4 J5]. split; try done. unfold update. cbn. by rewrite Z.land_lor_distr_l, J5.
    + unfold update. cbn [BSR_reporting_active]. rewrite Z.lor_spec, orb_true_r. split; [intros _; right; by apply Hex|done].
  - split; [done|]. split; [done|]. split; [done|]. split; [done|]. rewrite K3. split; [by left|]. intros [?|Hr]; [done|]. by apply Hex in Hr.
Qed.

Lemma bsr_tick_exact_witness :
  let status := fun i => if i =? 1 then 5 else if i =? 4 then 12 else 0 in
  let exist := [false; true; true; false; true] in
  let s' := bsr_tick status exist (busy_sched <| BSR_reporting_active := 0 |>) in
  sched_ok s' /\ BSR_bytes s' !! 1%nat = Some 12 /\ BSR_bytes s' !! 0%nat = Some 5 /\ Z.testbit (BSR_reporting_active s') 0 = true.
Proof.
  intros status exist s'. destruct (bsr_tick_exact status exist (busy_sched <| BSR_reporting_active := 0 |>)) as (H1 & _ & H2 & _ & H3).
  - intros i. unfold status. repeat case_match; lia.
  - vm_compute. reflexivity.
  - repeat constructor; vm_compute; discriminate.
  - destruct busy_sched_ok as [J1 J2 J3 J4 J5]. split; try done.
  - split; [exact H1|]. split; [exact (H2 1%nat ltac:(lia))|]. split; [exact (H2 0%nat ltac:(lia))|]. apply H3. right. exists 1%nat. split; [lia|reflexivity].
Defined.
