(* ===== verification/MacRlc.v ===== *)
(** RLC over MAC on the downlink: the RLC of the gNB as the service that the scheduler asks for
    PDUs, and the RLC of the UE behind the blocks it takes apart. *)

From S2P Require Import Prelude.
From S2P Require Import RlcPdu.
From S2P Require Import RlcSdu.
From S2P Require Import RlcUm.
From S2P Require Import RlcUmProps.
From S2P Require Import RlcUmLink.
From S2P Require Import RlcEntity.
From S2P Require Import RlcEvents.
From S2P Require Import UeManager.
From S2P Require Import Bearers.
From S2P Require Import RlcApi.
From S2P Require Import MacPdu.
From S2P Require Import MacLink.

(** ** RLC as the service of MAC *)

Definition rlc_of (rnti : Z) (st : rlc_module) (lcid : Z) (buf : list Z) : res (rlc_module * (list Z * Z)) :=
  mac_rlc_data_req st rnti lcid buf.

#[export] Instance rlc_service rnti : RlcService (rlc_of rnti).
Proof.
  intros st lcid buf st' b n H. unfold rlc_of, mac_rlc_data_req, call_rb in H. destruct (nr_rlc_manager_get_ue _ _) as [i m].
  destruct (ue_list m !! i) as [ue|]; [|done]. assert (Hnone : length buf = length buf /\ 0 <= 0 <= Z.of_nat (length buf)) by lia.
  destruct (channel_slot lcid) as [sl|]; [|by injection H as _ <- <-]. destruct (get_slot ue sl) as [rb|]; [|by injection H as _ <- <-].
  bind_ok H. bind_ok H. destruct x0 as [rb2 a]. bind_ok E0. destruct x0 as [[rb3 b3] n3]. injection E0 as <- <-. bind_ok H. injection H as _ <- <-.
  destruct (generate_bounded _ _ _ _ _ E1). done.
Qed.

(** The same with a list of the sizes that were offered. *)
Definition sized {St} (req : St -> Z -> list Z -> res (St * (list Z * Z)))
  : St * list nat -> Z -> list Z -> res (St * list nat * (list Z * Z)) :=
  fun s lcid buf => let* (s', x) := req (fst s) lcid buf in Ok ((s', snd s ++ [length buf]), x).

#[export] Instance sized_service {St} (req : St -> Z -> list Z -> res (St * (list Z * Z))) `{!RlcService req} : RlcService (sized req).
Proof. intros s lcid buf s' b n H. unfold sized in H. bind_ok H. destruct x as [s1 [b1 n1]]. injection H as _ <- <-. by eapply req_bounded. Qed.

(** What every request keeps, a block keeps. *)
Section Invariant.

Context {St : Type} (req : St -> Z -> list Z -> res (St * (list Z * Z))) (I : St -> Prop) (C : Z -> Prop).
Hypothesis keeps : forall s lcid buf s' x, C lcid -> I s -> req s lcid buf = Ok (s', x) -> I s'.

Lemma dl_lc_loop_keeps fuel : forall s lcid bytes tb pos TBS r, C lcid -> I s -> dl_lc_loop req fuel s lcid bytes tb pos TBS = Ok r -> I r.1.1.
Proof.
  induction fuel as [|fuel IH]; intros s lcid bytes tb pos TBS r HC HI H; cbn [dl_lc_loop] in H; (destruct (_ >? _); [|by injection H as <-]); [done|].
  bind_ok H. bind_ok H. destruct x0 as [s1 [got len]]. assert (I s1) by (by eapply keeps). destruct (len =? 0); [by injection H as <-|]. by eapply IH.
Qed.

Lemma dl_channels_keeps lcs : forall s tb pos TBS r, Forall (fun lc => C (fst lc)) lcs -> I s -> dl_channels req s lcs tb pos TBS = Ok r -> I r.1.1.
Proof.
  induction lcs as [|[lcid bytes] lcs IH]; intros s tb pos TBS r HC HI H; cbn [dl_channels] in H; [by injection H as <-|].
  apply list.Forall_cons in HC as [HC1 HC]. destruct (bytes =? 0); [by eapply IH|]. bind_ok H. destruct x as [[s1 tb1] pos1].
  apply dl_lc_loop_keeps in E; [|done|done]. by eapply IH.
Qed.

Lemma dl_block_keeps garbage s c total lcs draw tb TBS r :
  Forall (fun lc => C (fst lc)) lcs -> I s -> dlsch_transport_block req garbage s c total lcs draw tb TBS = Ok r -> I r.1.
Proof.
  intros HC HI H. unfold dlsch_transport_block in H. bind_ok H. destruct (_ <? _); [done|]. destruct (_ >? _); [|done].
  bind_ok H. destruct x0 as [[s1 tb1] pos]. injection H as <-. cbn [fst]. destruct (total >? 0); [by apply dl_channels_keeps in E0|].
  destruct draw as [draw|]; [|by injection E0 as <- _ _]. destruct (random_block _ _ _ _). by injection E0 as <- _ _.
Qed.

End Invariant.

(** ** A bearer in unacknowledged mode *)

(** What the UE does with an indication. *)
Definition to_rlc (su : rlc_module) (i : mac_ind) : res rlc_module :=
  match i with rlc_data_ind rnti lcid sdu => mac_rlc_data_ind su 0 rnti 0 false lcid sdu | _ => Ok su end.

Fixpoint all_to_rlc (su : rlc_module) (l : list mac_ind) : res rlc_module :=
  match l with
  | [] => Ok su
  | i :: l => let* su := to_rlc su i in all_to_rlc su l
  end.

Lemma all_to_rlc_app l1 : forall su su1 l2, all_to_rlc su l1 = Ok su1 -> all_to_rlc su (l1 ++ l2) = all_to_rlc su1 l2.
Proof.
  induction l1 as [|i l1 IH]; intros su su1 l2 H; cbn in H; [by injection H as ->|]. bind_ok H. cbn. rewrite E. cbn [rbind]. by apply IH.
Qed.

Definition at_time (e : nr_rlc_entity_um_t) (now : Z) : nr_rlc_entity_um_t := e <| um_t_current := now |>.

Lemma set_time_idle e now : um_t_reassembly_start e = 0 -> nr_rlc_entity_um_set_time e now = Ok (at_time e now).
Proof. intros H. destruct e. cbn in H. subst. reflexivity. Qed.

Lemma um_set_time_idle e now : um_t_reassembly_start e = 0 -> rlc_set_time (EntityUm e) now = Ok (EntityUm (at_time e now)).
Proof. intros H. change (rmap EntityUm (nr_rlc_entity_um_set_time e now) = Ok (EntityUm (at_time e now))). by rewrite set_time_idle. Qed.

Lemma um_generate_call e buf :
  generate_pdu_call buf (EntityUm e) = let* (e', b, n) := nr_rlc_entity_um_generate_pdu e buf in Ok (EntityUm e', (b, n)).
Proof.
  unfold generate_pdu_call.
  change (rlc_generate_pdu (EntityUm e) buf) with (rmap (fun '(e, b, n) => (EntityUm e, b, n)) (nr_rlc_entity_um_generate_pdu e buf)).
  by destruct (nr_rlc_entity_um_generate_pdu e buf) as [[[? ?] ?]| |].
Qed.

Lemma linked_sender_time s r now : linked s r -> linked (at_time s now) r.
Proof. intros [H1 H2 H3 H4]. constructor; [destruct H1; by constructor|done|done|done]. Qed.

Lemma linked_receiver_time s r now : linked s r -> linked s (at_time r now).
Proof.
  intros [H1 H2 H3 (S & k & Hio & H4)]. constructor; [done|done|done|]. exists S, k. split; [destruct Hio; by constructor|done].
Qed.

(** The timer of a sender that receives nothing stays off. *)
Lemma send_keeps_timer e sdu buffer e' b n :
  um_send_segment e sdu buffer = Ok (e', b, n) -> um_t_reassembly_start e' = um_t_reassembly_start e.
Proof. unfold um_send_segment. intros H. bind_ok H. destruct x. bind_ok H. destruct x. injection H as <- _ _. cbn. by destruct (_ && _). Qed.

Lemma generate_keeps_timer e buffer e' b n :
  nr_rlc_entity_um_generate_pdu e buffer = Ok (e', b, n) -> um_t_reassembly_start e' = um_t_reassembly_start e.
Proof.
  unfold nr_rlc_entity_um_generate_pdu, um_generate_tx_pdu. intros H. destruct (um_tx_list e) as [|x rest]; [by injection H as <- _ _|].
  destruct (_ >? _); [by injection H as <- _ _|]. set (e0 := match rest with [] => _ | _ => _ end) in H.
  assert (He0 : um_t_reassembly_start e0 = um_t_reassembly_start e) by (subst e0; by destruct rest). bind_ok H. destruct (_ >? _).
  - bind_ok H. destruct x1 as [o e1]. assert (E1 : um_t_reassembly_start e1 = um_t_reassembly_start e).
    { unfold um_resegment in E0. bind_ok E0. destruct (_ >? _); injection E0 as _ <-; exact He0. }
    destruct o as [[a nx]|]; [|by injection H as <- _ _]. apply send_keeps_timer in H. rewrite H. by destruct (um_tx_end _).
  - apply send_keeps_timer in H. rewrite H. exact He0.
Qed.

Section Bearer.

(** One bearer, on the logical channel [lcid], at the gNB and at the UE. *)
Variables (rnti crnti lcid : Z) (sl : slot).
Hypothesis Hslot : channel_slot lcid = Some sl.

Record radio (st su : rlc_module) (s r : nr_rlc_entity_um_t) : Prop := mk_radio {
  ra_gnb : module_wf st;
  ra_gnb_up : may_deliver st = true;
  ra_sender : bearer st rnti sl = Some (EntityUm s);
  ra_timer : um_t_reassembly_start s = 0;
  ra_ue : module_wf su;
  ra_ue_up : may_deliver su = true;
  ra_receiver : bearer su crnti sl = Some (EntityUm r);
  ra_linked : linked s r
}.

Lemma linked_timer s r : linked s r -> um_t_reassembly_start r = 0.
Proof. intros [_ _ _ (S & k & Hio & _)]. apply (io_timer _ _ _ _ Hio). Qed.

(** The bearer of the gNB is asked for a PDU. *)
Lemma radio_request st su s r buf st' b n : radio st su s r -> rlc_of rnti st lcid buf = Ok (st', (b, n)) ->
  exists s', nr_rlc_entity_um_generate_pdu (at_time s (nr_rlc_current_time st)) buf = Ok (s', b, n) /\
    module_wf st' /\ may_deliver st' = true /\ bearer st' rnti sl = Some (EntityUm s') /\ um_t_reassembly_start s' = 0.
Proof.
  intros [G1 G2 G3 G4 U1 U2 U3 L] H.
  assert (Hc : bearer_call st rnti (Some sl) (generate_pdu_call buf) (buf, 0) (rlc_of rnti st lcid buf)).
  { unfold rlc_of, mac_rlc_data_req. rewrite Hslot. apply call_rb_spec; [done|done|]. intros b0 rb Hb.
    eapply yields_bind; [by apply generate_pdu_calls|]. by intros [[? ?] ?]. }
  unfold bearer_call in Hc. cbn [mbind option_bind] in Hc. rewrite G3, H, (um_set_time_idle _ _ G4) in Hc. cbn [rbind] in Hc. rewrite um_generate_call in Hc.
  destruct (nr_rlc_entity_um_generate_pdu _ buf) as [[[s' b'] n']| |] eqn:E; cbn [rbind] in Hc; [|done..].
  destruct Hc as (st2 & new & Heq & Hwf & Hctx & _ & _ & Hb). injection Heq as <- <- <-. exists s'. split; [done|]. split; [done|].
  split; [by rewrite (may_deliver_same _ _ Hctx)|]. split; [|by rewrite (generate_keeps_timer _ _ _ _ _ E)]. rewrite Hb. by rewrite decide_True.
Qed.

(** The bearer of the UE gets a PDU. *)
Lemma radio_indication su r pdu r' : module_wf su -> may_deliver su = true -> bearer su crnti sl = Some (EntityUm r) -> um_t_reassembly_start r = 0 ->
  nr_rlc_entity_um_recv_pdu (at_time r (nr_rlc_current_time su)) pdu = Ok r' ->
  exists su' new, to_rlc su (rlc_data_ind crnti lcid pdu) = Ok su' /\ module_wf su' /\ same_context su su' /\
    bearer su' crnti sl = Some (EntityUm r') /\ um_events r' = um_events r ++ new /\
    messages su' = messages su ++ omap (upward su crnti sl) new.
Proof.
  intros U1 U2 U3 Ht E.
  assert (Hc : bearer_call su crnti (Some sl) (recv_pdu_call pdu) tt (call_rb su crnti (channel_slot lcid) (recv_pdu_call pdu) tt)).
  { rewrite Hslot. apply call_rb_spec; [done|done|]. intros b0 rb Hb. apply call_grows; [by apply recv_pdu_calls|]. intros rb'. by exists tt. }
  unfold bearer_call in Hc. cbn [mbind option_bind] in Hc. rewrite U3, (um_set_time_idle _ _ Ht) in Hc. cbn [rbind] in Hc.
  assert (Er : recv_pdu_call pdu (EntityUm (at_time r (nr_rlc_current_time su))) = Ok (EntityUm r', tt)).
  { unfold recv_pdu_call. change (rlc_recv_pdu (EntityUm (at_time r (nr_rlc_current_time su))) pdu)
      with (rmap EntityUm (nr_rlc_entity_um_recv_pdu (at_time r (nr_rlc_current_time su)) pdu)). by rewrite E. }
  rewrite Er in Hc.
  destruct Hc as (su2 & new & Heq & Hwf & Hctx & Hev & Hmsg & Hb). exists su2, new. split.
  { cbn [to_rlc]. unfold mac_rlc_data_ind. cbn [negb orb Z.eqb]. unfold recv_pdu_call in Heq. rewrite Heq. done. }
  split; [done|]. split; [done|]. split; [by rewrite Hb, decide_True|]. done.
Qed.

(** A request, and the indication of what it gave: the SDUs that leave the queue of the gNB are
    those that the UE hands upwards. *)
Lemma radio_step st su s r buf st' b n : radio st su s r -> Z.of_nat (length buf) <> 2 -> rlc_of rnti st lcid buf = Ok (st', (b, n)) ->
  exists su' s' r' sdus, (if n =? 0 then Ok su else to_rlc su (rlc_data_ind crnti lcid (take (Z.to_nat n) b))) = Ok su' /\
    radio st' su' s' r' /\ same_context su su' /\ messages su' = messages su ++ omap (upward su crnti sl) (deliver_sdu <$> sdus) /\
    queue_data s = sdus ++ queue_data s'.
Proof.
  intros HR Hne H. destruct (radio_request _ _ _ _ _ _ _ _ HR H) as (s' & E & G1 & G2 & G3 & G4). destruct HR as [_ _ _ _ U1 U2 U3 L].
  pose proof (linked_timer _ _ L) as Ht. set (s1 := at_time s (nr_rlc_current_time st)) in *. set (r1 := at_time r (nr_rlc_current_time su)) in *.
  assert (L1 : linked s1 r1) by (by apply linked_sender_time, linked_receiver_time).
  destruct (link_generate s1 r1 buf L1 Hne) as (s2 & b2 & n2 & r' & E2 & L' & Hr & Hev & _). rewrite E in E2. injection E2 as <- <- <-.
  destruct Hr as [(-> & -> & _)|[Hn Er]].
  - exists su, s1, r, []. split; [done|]. split; [|split; [done|]; split; [by rewrite app_nil_r|done]].
    constructor; try done. by apply linked_sender_time.
  - destruct (radio_indication su r _ r' U1 U2 U3 Ht Er) as (su' & new & Ei & W1 & W2 & W3 & W4 & W5).
    change (um_events r1) with (um_events r) in Hev. change (queue_data s1) with (queue_data s) in Hev. rewrite W4, <- app_assoc in Hev.
    apply app_inv_head in Hev. symmetry in Hev. apply fmap_app_inv in Hev as (sdus & rest & -> & Hq & Hs).
    assert (Hinj : Inj (=) (=) deliver_sdu) by (by intros ? ? [=]). apply (list_fmap_eq_inj deliver_sdu Hinj) in Hq. subst rest.
    exists su', s', r', sdus. split; [by rewrite (proj2 (Z.eqb_neq _ _) Hn)|]. split; [|done].
    constructor; try done. by rewrite (may_deliver_same _ _ W2).
Qed.

(** What a block has done when no request was for two bytes. *)
Definition radio_inv (su : rlc_module) (queue : list (list Z)) (x : rlc_module * list nat * list (Z * list Z)) : Prop :=
  let '(st, sizes, log) := x in
  2%nat ∈ sizes \/
  exists su' s r sdus, all_to_rlc su ((fun p => rlc_data_ind crnti (fst p) (snd p)) <$> log) = Ok su' /\ radio st su' s r /\
    same_context su su' /\ messages su' = messages su ++ omap (upward su crnti sl) (deliver_sdu <$> sdus) /\ queue = sdus ++ queue_data s.

Lemma radio_inv_keeps su queue x lc buf x' y :
  lc = lcid -> radio_inv su queue x -> logged (sized (rlc_of rnti)) x lc buf = Ok (x', y) -> radio_inv su queue x'.
Proof.
  intros -> HI H. destruct x as [[st sizes] log]. unfold logged in H. bind_ok H. destruct x as [[st' sizes'] [b n]]. injection H as <- <-.
  unfold sized in E. cbn [fst snd] in E. bind_ok E. destruct x as [st2 [b2 n2]]. injection E as <- <- <- <-. cbn [snd].
  destruct (decide (length buf = 2%nat)) as [H2|H2]; [left; rewrite H2; apply elem_of_app; right; by left|].
  destruct HI as [HI|(su1 & s & r & sdus & A1 & A2 & A3 & A4 & A5)]; [left; apply elem_of_app; by left|]. right.
  destruct (radio_step st su1 s r buf st2 b2 n2 A2 ltac:(lia) E0) as (su2 & s' & r' & sdus' & B1 & B2 & B3 & B4 & B5).
  exists su2, s', r', (sdus ++ sdus'). split; [|split; [done|]; split; [|split]].
  - destruct (n2 =? 0); [by injection B1 as <-|]. rewrite fmap_app, (all_to_rlc_app _ _ _ _ A1). cbn [fmap list_fmap fst snd all_to_rlc]. by rewrite B1.
  - destruct A3 as (? & ? & ?), B3 as (? & ? & ?). split; [congruence|]. split; congruence.
  - rewrite B4, A4, fmap_app, omap_app, <- app_assoc. do 2 f_equal. apply list_omap_ext, Forall_Forall2_diag, list.Forall_forall.
    intros ev _. by apply upward_same.
  - by rewrite A5, B5, app_assoc.
Qed.

End Bearer.

(** C28. Composition of RLC and MAC on the downlink. The gNB fills a transport block below 2^16
    bytes from the RLC bearer of a UE in unacknowledged mode, the UE takes it apart and gives
    every SDU of MAC to its own RLC. Unless RLC fails, or MAC offers RLC a room of exactly two
    bytes while it fills the block, the RLC SDUs that left the queue of the gNB are exactly those
    that the RLC of the UE hands upwards, complete and in order, and the two ends are in step for
    the next block. The case of two bytes is excluded because RLC then takes an SDU from its queue
    that is never delivered ([five_bytes_lose_sdu]). *)
Theorem dl_radio_um (rnti lcid : Z) (sl : slot) (garbage ces tb : list Z) (c : ce_input) (num_total_bytes TBS : Z)
  (lcs : list (Z * Z)) (mac : ue_mac) (st su : rlc_module) (s r : nr_rlc_entity_um_t) :
  channel_slot lcid = Some sl -> radio rnti (crnti mac) sl st su s r ->
  ces_ok c -> nr_write_ce_dlsch_pdu garbage c 255 None = Ok ces ->
  Z.of_nat (length ces) < TBS <= Z.of_nat (length tb) -> TBS < 2 ^ 16 ->
  Forall (fun lc => fst lc = lcid /\ 0 <= snd lc < 2 ^ 31) lcs ->
  unless_rlc_fails (sized (rlc_of rnti)) (dlsch_transport_block (logged (sized (rlc_of rnti))) garbage (st, [], []) c num_total_bytes lcs None tb TBS)
    (fun '(st', sizes, log, tb') =>
       2%nat ∈ sizes \/
       exists mac' inds su' s' r' sdus,
         nr_ue_process_mac_pdu mac (take (Z.to_nat TBS) tb') TBS = Ok mac' /\ ue_inds mac' = ue_inds mac ++ inds /\
         all_to_rlc su inds = Ok su' /\ radio rnti (crnti mac) sl st' su' s' r' /\
         messages su' = messages su ++ omap (upward su (crnti mac) sl) (deliver_sdu <$> sdus) /\
         queue_data s = sdus ++ queue_data s').
Proof.
  intros Hslot HR Hces Ec HT HT2 Hlcs.
  assert (Hlc : 1 <= lcid < NB_RB_MAX) by (unfold channel_slot in Hslot; unfold NB_RB_MAX; repeat (case_match; b2p); simplify_eq; b2p; lia).
  opose proof (dl_block_read _ (sized (rlc_of rnti)) garbage ces tb (st, []) c num_total_bytes TBS lcs mac _ Hces Ec HT HT2 _) as H.
  { eapply list.Forall_impl; [exact Hlcs|]. by intros x [-> ?]. }
  destruct (dlsch_transport_block _ _ _ _ _ _ _ _ _) as [[[[st' sizes] log] tb']| |] eqn:E; [|exact H..]. destruct H as (_ & _ & H).
  apply (dl_block_keeps _ (radio_inv rnti (crnti mac) sl su (queue_data s)) (fun l => l = lcid)) in E.
  - destruct E as [E|(su' & s' & r' & sdus & A1 & A2 & A3 & A4 & A5)]; [by left|]. right. eexists _, _, su', s', r', sdus. split; [exact H|].
    split; [by unfold ta_effect; destruct (ta_update c)|]. done.
  - intros x l buf x' y -> HI HX. by eapply radio_inv_keeps.
  - eapply list.Forall_impl; [exact Hlcs|]. by intros x [? _].
  - right. exists su, s, r, []. cbn. split; [done|]. split; [done|]. split; [done|]. split; [by rewrite app_nil_r|done].
Qed.

(** A gNB and a UE with one DRB and two SDUs that wait. *)
Definition um_ends : um_link_state :=
  let e := match new_nr_rlc_entity_um 1000 1000 35 6 with Ok e => e | _ => mk_um (mk_bstatus 0 0 0) 0 0 0 0 0 0 0 0 0 0 [] 0 0 [] None 0 0 empty_heap [] end in
  match um_run [Offer [1; 2; 3] 0; Offer (replicate 12 4) 1] (e, e, []) with Ok st => st | _ => (e, e, []) end.

Definition drb_module (is_gnb : bool) (rnti : Z) (e : nr_rlc_entity_um_t) : rlc_module :=
  mk_module (mk_manager [mk_ue rnti (replicate 3 None) [Some (EntityUm e); None; None; None; None]] is_gnb) 5 0 5 is_gnb (negb is_gnb) 2 [].

Lemma um_ends_linked : linked um_ends.1.1 um_ends.1.2.
Proof.
  assert (E : exists e, new_nr_rlc_entity_um 1000 1000 35 6 = Ok e) by (by eexists). destruct E as [e E].
  destruct (run_ok 1000 [Offer [1; 2; 3] 0; Offer (replicate 12 4) 1] (e, e, [])) as (x & Ex & Hx).
  - repeat constructor; cbn; unfold NR_SDU_MAX; lia.
  - by apply (new_link_ok 1000 1000 35 1000 1000 35 6).
  - unfold um_ends. rewrite E, Ex. destruct x as [[s r] acc]. apply Hx.
Qed.

Lemma ends_radio : radio 17 0x1234 (Drb 0) (drb_module true 17 um_ends.1.1) (drb_module false 0x1234 um_ends.1.2) um_ends.1.1 um_ends.1.2.
Proof.
  assert (Hwf : forall b n e, module_wf (drb_module b n e)) by (intros; split; [apply NoDup_singleton|]; repeat constructor).
  constructor; [apply Hwf|done| |by vm_compute|apply Hwf|done| |apply um_ends_linked].
  all: unfold bearer, bearer_of, drb_module; cbn; done.
Qed.

Lemma dl_radio_um_witness :
  exists st log tb mac' inds su' s' sdus, dlsch_transport_block (logged (sized (rlc_of 17))) [] (drb_module true 17 um_ends.1.1, [], []) (mk_ce_input None 1 no_ces)
      17 [(4, 17)] None (replicate 24 0xAA) 20 = Ok (st, [17%nat; 10%nat], log, tb) /\
    nr_ue_process_mac_pdu idle_ue (take 20 tb) 20 = Ok mac' /\ ue_inds mac' = inds /\
    all_to_rlc (drb_module false 0x1234 um_ends.1.2) inds = Ok su' /\
    messages su' = omap (upward (drb_module false 0x1234 um_ends.1.2) 0x1234 (Drb 0)) (deliver_sdu <$> sdus) /\
    [[1; 2; 3]; replicate 12 4] = sdus ++ queue_data s'.
Proof.
  pose proof (dl_radio_um 17 4 (Drb 0) [] [] (replicate 24 0xAA) (mk_ce_input None 1 no_ces) 17 20 [(4, 17)] idle_ue _ _ _ _ eq_refl ends_radio
    ltac:(by split) eq_refl ltac:(cbn; lia) ltac:(lia) ltac:(repeat constructor; cbn; lia)) as H.
  destruct (dlsch_transport_block _ _ _ _ _ _ _ _ _) as [[[[st sizes] log] tb]| |] eqn:E; [|vm_compute in E; discriminate..].
  assert (Hs : sizes = [17%nat; 10%nat]) by (vm_compute in E; by injection E as <- <- <-). clear E. subst sizes.
  destruct H as [H|(mac' & inds & su' & s' & r' & sdus & H1 & H2 & H3 & H4 & H5 & H6)].
  { exfalso. do 2 (apply elem_of_cons in H as [H|H]; [discriminate H|]). by apply not_elem_of_nil in H. }
  exists st, log, tb, mac', inds, su', s', sdus. split; [reflexivity|]. split; [exact H1|]. split; [exact H2|]. split; [exact H3|]. split; [exact H5|].
  rewrite <- H6. vm_compute. reflexivity.
Defined.
