(* ===== verification/CmHash.v ===== *)
(** The hash lists of the O-DU: [cm/cm_hash.c], with the hash function for 32-bit keys
    ([CM_HASH_KEYTYPE_UINT32_MOD]).

    A hash list does not own its entries: a bin is a list of pointers, and the key is read from
    the entry through the pointer that the list keeps, so an entry that changes its key while it
    is linked stays in the bin of its old key.  [key] is that read.  The build has neither the
    checks of parameters ([NO_ERRCLS]) nor the counters per bin ([CM_MT_HASH_BIN]). *)

From S2P Require Import Prelude.

Definition ROK : Z := 0.
Definition RFAILED : Z := 1.
Definition ROKDNA : Z := 2.
Definition ROUTRES : Z := 4.
Definition ROKDUP : Z := 12.
Definition CM_HASH_NOBITMASK : Z := 0x8000.

(** [hl] is empty when no bins are allocated. *)
Record CmHashListCp := mk_hlist {
  hl : list (list Z);
  nmbBins : Z;
  binBitMask : Z;
  nmbBinBits : Z;
  nmbEnt : Z;
  dupFlg : bool
}.
#[global] Instance hlist_eta : Eta CmHashListCp := fun r =>
  mk_hlist (hl r) (nmbBins r) (binBitMask r) (nmbBinBits r) (nmbEnt r) (dupFlg r).

(** The loop that counts the bits of the mask. *)
Fixpoint mask_bits (fuel : nat) (mask : Z) : Z :=
  match fuel with
  | O => 0
  | S f => if mask =? 0 then 0 else u16 (1 + mask_bits f (Z.shiftr mask 1))
  end.

(** [mem]: whether the memory for the bins is there. *)
Definition cmHashListInit (n : Z) (dup mem : bool) : CmHashListCp * Z :=
  let cp := mk_hlist [] 0 CM_HASH_NOBITMASK 0 0 dup in
  if n =? 0 then (cp, ROK)
  else if negb mem then (cp, RFAILED)
  else
    let cp := cp <| hl := replicate (Z.to_nat n) [] |> <| nmbBins := n |> in
    if Z.land n (n - 1) =? 0
    then (cp <| binBitMask := n - 1 |> <| nmbBinBits := mask_bits 16 (n - 1) |>, ROK)
    else (cp, ROK).

(** Without bins the code divides by zero. *)
Definition cmHashFuncU32Mod (cp : CmHashListCp) (k : Z) : res Z :=
  if negb (binBitMask cp =? CM_HASH_NOBITMASK) then Ok (u16 (Z.land k (binBitMask cp)))
  else if nmbBins cp =? 0 then Fault NullDeref
  else Ok (u16 (k mod nmbBins cp)).

Section Key.
Context (key : Z -> Z).

Fixpoint find_in_bin (dup : bool) (bin : list Z) (k seqNmb i : Z) (entry : option Z) : Z * option Z :=
  match bin with
  | [] => (RFAILED, entry)
  | e :: rest =>
    if key e =? k then
      if negb dup then (ROK, Some e)
      else if i =? seqNmb then (ROK, Some e)
      else find_in_bin dup rest k seqNmb (u16 (i + 1)) (Some e)
    else find_in_bin dup rest k seqNmb i entry
  end.

(** The result and what is left in [entry]. *)
Definition cmHashListFind (cp : CmHashListCp) (k seqNmb : Z) (entry : option Z) : res (Z * option Z) :=
  let* idx := cmHashFuncU32Mod cp k in
  match hl cp !! Z.to_nat idx with
  | None => Fault OutOfBounds
  | Some bin => Ok (find_in_bin (dupFlg cp) bin k seqNmb 0 entry)
  end.

Definition cmHashListInsert (cp : CmHashListCp) (entry : Z) : res (CmHashListCp * Z) :=
  let* found :=
    if dupFlg cp then Ok false
    else let* (ret, _) := cmHashListFind cp (key entry) 0 None in Ok (ret =? ROK) in
  if found : bool then Ok (cp, ROKDUP)
  else
    let* idx := cmHashFuncU32Mod cp (key entry) in
    match hl cp !! Z.to_nat idx with
    | None => Fault OutOfBounds
    | Some bin =>
      Ok (cp <| hl := <[Z.to_nat idx := bin ++ [entry]]> (hl cp) |> <| nmbEnt := u16 (nmbEnt cp + 1) |>, ROK)
    end.

End Key.

(** An entry that is in no list has null links. *)
Definition cmHashListDelete (cp : CmHashListCp) (entry : Z) : CmHashListCp * Z :=
  if existsb (fun bin => existsb (Z.eqb entry) bin) (hl cp)
  then (cp <| hl := (fun bin => List.filter (fun e => negb (e =? entry)) bin) <$> hl cp |>
           <| nmbEnt := u16 (nmbEnt cp - 1) |>, ROK)
  else (cp, ROK).

(** * The map that a hash list represents *)

(** [M] gives the entry of each key. *)
Record hash_rep (key : Z -> Z) (cp : CmHashListCp) (M : gmap Z Z) : Prop := mk_hash_rep {
  hr_bins : 0 < nmbBins cp <= 2 ^ 15 /\ length (hl cp) = Z.to_nat (nmbBins cp);
  hr_mask : binBitMask cp = CM_HASH_NOBITMASK \/
            binBitMask cp = nmbBins cp - 1 /\ exists p, 0 <= p /\ nmbBins cp = 2 ^ p;
  hr_dup : dupFlg cp = false;
  hr_entry : forall i bin e, hl cp !! i = Some bin -> e ∈ bin ->
             Z.of_nat i = key e mod nmbBins cp /\ M !! key e = Some e;
  hr_find : forall k e, M !! k = Some e ->
            key e = k /\ exists bin, hl cp !! Z.to_nat (k mod nmbBins cp) = Some bin /\ e ∈ bin;
  hr_nodup : Forall NoDup (hl cp);
  hr_size : nmbEnt cp = u16 (Z.of_nat (size M))
}.

Lemma u16_small z : 0 <= z < 2 ^ 16 -> u16 z = z.
Proof. apply Z.mod_small. Qed.

(** The bin of a key is its remainder, with or without a mask. *)
Lemma hash_bin key cp M k : hash_rep key cp M -> cmHashFuncU32Mod cp k = Ok (k mod nmbBins cp).
Proof.
  intros H. destruct (hr_bins _ _ _ H) as [Hn _]. unfold cmHashFuncU32Mod.
  pose proof (Z.mod_pos_bound k (nmbBins cp) ltac:(lia)) as Hk.
  destruct (hr_mask _ _ _ H) as [E|(E & p & Hp & E2)]; rewrite E.
  - cbn. replace (nmbBins cp =? 0) with false by (symmetry; apply Z.eqb_neq; lia). rewrite u16_small by lia. done.
  - replace (_ =? CM_HASH_NOBITMASK) with false by (symmetry; apply Z.eqb_neq; unfold CM_HASH_NOBITMASK; lia). cbn [negb].
    f_equal. rewrite E2, Z.sub_1_r, <- Z.ones_equiv, Z.land_ones by done. rewrite <- E2. apply u16_small. lia.
Qed.

Lemma hash_bin_lookup key cp M k : hash_rep key cp M ->
  exists bin, hl cp !! Z.to_nat (k mod nmbBins cp) = Some bin.
Proof.
  intros H. destruct (hr_bins _ _ _ H) as [Hn Hl]. pose proof (Z.mod_pos_bound k (nmbBins cp) ltac:(lia)) as Hk.
  apply lookup_lt_is_Some. lia.
Qed.

Lemma find_in_bin_spec key bin k entry :
  (forall e, find_in_bin key false bin k 0 0 entry = (ROK, Some e) -> e ∈ bin /\ key e = k) /\
  (Forall (fun e => key e <> k) bin -> find_in_bin key false bin k 0 0 entry = (RFAILED, entry)) /\
  (Exists (fun e => key e = k) bin -> exists e, find_in_bin key false bin k 0 0 entry = (ROK, Some e)).
Proof.
  induction bin as [|a bin (IH1 & IH2 & IH3)]; cbn; [repeat split; [done..|by intros ?%Exists_nil]|].
  destruct (key a =? k) eqn:E; b2p; cbn [negb].
  - split; [intros e [= <-]; split; [left|done]|]. split; [intros [? _]%list.Forall_cons; done|]. intros _. by exists a.
  - split; [intros e He; destruct (IH1 e He); split; [by right|done]|].
    split; [intros [_ H]%list.Forall_cons; by apply IH2|]. intros [H|H]%Exists_cons; [done|by apply IH3].
Qed.

Lemma hash_find_none key cp M k bin : hash_rep key cp M -> M !! k = None ->
  hl cp !! Z.to_nat (k mod nmbBins cp) = Some bin -> Forall (fun e => key e <> k) bin.
Proof.
  intros H Hk Hb. apply list.Forall_forall. intros e He Ek.
  destruct (hr_entry _ _ _ H _ _ _ Hb He) as [_ HM]. rewrite Ek, Hk in HM. done.
Qed.

(** Looking up a key finds its entry. *)
Lemma hash_find key cp M k entry : hash_rep key cp M ->
  cmHashListFind key cp k 0 entry =
  Ok (match M !! k with Some e => (ROK, Some e) | None => (RFAILED, entry) end).
Proof.
  intros H. unfold cmHashListFind. rewrite (hash_bin _ _ _ k H). cbn [rbind].
  destruct (hash_bin_lookup _ _ _ k H) as [bin Hb]. rewrite Hb, (hr_dup _ _ _ H). f_equal.
  destruct (find_in_bin_spec key bin k entry) as (F1 & F2 & F3).
  destruct (M !! k) as [e|] eqn:Hk.
  - destruct (hr_find _ _ _ H _ _ Hk) as (Ek & bin' & Hb' & He). rewrite Hb in Hb'. injection Hb' as <-.
    destruct (F3 (proj2 (list.Exists_exists _ _) (ex_intro _ e (conj He Ek)))) as [e' Ef]. rewrite Ef. destruct (F1 e' Ef) as [He' Ek'].
    destruct (hr_entry _ _ _ H _ _ _ Hb He') as [_ HM]. rewrite Ek', Hk in HM. injection HM as <-. done.
  - apply F2. by apply (hash_find_none _ _ _ _ _ H Hk).
Qed.

Lemma u16_succ a b : a = u16 b -> u16 (a + 1) = u16 (b + 1).
Proof. intros ->. unfold u16. by rewrite Zplus_mod_idemp_l. Qed.

Lemma u16_pred a b : a = u16 b -> u16 (a - 1) = u16 (b - 1).
Proof. intros ->. unfold u16. by rewrite Zminus_mod_idemp_l. Qed.

(** A second entry with the key is refused. *)
Lemma hash_insert_dup key cp M e e' : hash_rep key cp M -> M !! key e = Some e' ->
  cmHashListInsert key cp e = Ok (cp, ROKDUP).
Proof.
  intros H Hk. unfold cmHashListInsert. rewrite (hr_dup _ _ _ H), (hash_find _ _ _ _ _ H), Hk. reflexivity.
Qed.

Lemma hash_insert key cp M e : hash_rep key cp M -> M !! key e = None ->
  exists cp', cmHashListInsert key cp e = Ok (cp', ROK) /\ hash_rep key cp' (<[key e := e]> M).
Proof.
  intros H Hk. pose proof H as [Hb Hm Hd He Hf Hn Hs].
  unfold cmHashListInsert. rewrite Hd, (hash_find _ _ _ _ _ H), Hk. cbn [rbind Z.eqb RFAILED ROK].
  rewrite (hash_bin _ _ _ _ H). cbn [rbind]. destruct (hash_bin_lookup _ _ _ (key e) H) as [bin Ebin]. rewrite Ebin.
  eexists. split; [reflexivity|]. pose proof (lookup_lt_Some _ _ _ Ebin) as Hlt.
  pose proof (Z.mod_pos_bound (key e) (nmbBins cp) ltac:(lia)) as Hpos.
  pose proof (hash_find_none _ _ _ _ _ H Hk Ebin) as Hno.
  destruct cp as [L n mk nb ne du]. unfold update; cbn [hl nmbBins binBitMask dupFlg nmbEnt] in *.
  split; cbn [hl nmbBins binBitMask dupFlg nmbEnt]; [|done|done| | | |].
  - by rewrite length_insert.
  - intros i b e' Hi He'. apply list_lookup_insert_Some in Hi as [(<- & <- & _)|[Hne Hi]].
    + apply elem_of_app in He' as [He'|He']; [|apply list_elem_of_singleton in He' as ->; rewrite lookup_insert_eq; split; [lia|done]].
      destruct (He _ _ _ Ebin He') as [Hi HM]. split; [done|].
      rewrite lookup_insert_ne; [done|]. rewrite list.Forall_forall in Hno. intros Ek. by apply (Hno e' He').
    + destruct (He _ _ _ Hi He') as [Hix HM]. split; [done|]. rewrite lookup_insert_ne; [done|].
      intros Ek. rewrite <- Ek in HM. congruence.
  - intros k e' HM. apply lookup_insert_Some in HM as [[<- <-]|[Hne HM]].
    + split; [done|]. exists (bin ++ [e]). rewrite list_lookup_insert_eq by done. split; [done|]. apply elem_of_app. right. by left.
    + destruct (Hf _ _ HM) as (Ek & b & Hbk & Heb). split; [done|].
      destruct (decide (Z.to_nat (k mod n) = Z.to_nat (key e mod n))) as [Ei|Ni].
      * rewrite Ei in *. exists (bin ++ [e]). rewrite list_lookup_insert_eq by done. split; [done|].
        rewrite Ebin in Hbk. injection Hbk as <-. apply elem_of_app. by left.
      * exists b. rewrite list_lookup_insert_ne by done. done.
  - apply Forall_insert; [done|]. apply list.NoDup_app. split; [by apply (Forall_lookup_1 _ _ _ _ Hn Ebin)|].
    split; [|apply NoDup_singleton]. intros x Hx Hx'. apply list_elem_of_singleton in Hx' as ->.
    rewrite list.Forall_forall in Hno. by apply (Hno e Hx).
  - rewrite map_size_insert_None by done. rewrite (u16_succ _ _ Hs). f_equal. lia.
Qed.

Lemma elem_filter_neq (e x : Z) l : x ∈ List.filter (fun y => negb (y =? e)) l <-> x ∈ l /\ x <> e.
Proof. rewrite !list_elem_of_In, filter_In, negb_true_iff, Z.eqb_neq. done. Qed.

(** Deleting an entry removes its key. *)
Lemma hash_delete key cp M k e : hash_rep key cp M -> M !! k = Some e ->
  exists cp', cmHashListDelete cp e = (cp', ROK) /\ hash_rep key cp' (delete k M).
Proof.
  intros H Hk. pose proof H as [Hb Hm Hd He Hf Hn Hs]. destruct (Hf _ _ Hk) as (Ek & bin & Ebin & Hein).
  unfold cmHashListDelete.
  assert (existsb (fun b => existsb (Z.eqb e) b) (hl cp) = true) as ->.
  { apply existsb_exists. exists bin. split; [by apply list_elem_of_In, list_elem_of_lookup_2 with (Z.to_nat (k mod nmbBins cp))|].
    apply existsb_exists. exists e. split; [by apply list_elem_of_In|apply Z.eqb_refl]. }
  eexists. split; [reflexivity|]. destruct cp as [L n mk nb ne du].
  unfold update; cbn [hl nmbBins binBitMask dupFlg nmbEnt] in *.
  split; cbn [hl nmbBins binBitMask dupFlg nmbEnt]; [|done|done| | | |].
  - by rewrite length_fmap.
  - intros i b e' Hi He'. rewrite list_lookup_fmap in Hi. apply fmap_Some in Hi as (b0 & Hi & ->). apply elem_filter_neq in He' as [He' Hne].
    destruct (He _ _ _ Hi He') as [Hix HM]. split; [done|]. rewrite lookup_delete_ne; [done|]. intros E. rewrite <- E, Hk in HM. congruence.
  - intros k' e' HM. apply lookup_delete_Some in HM as [Hne HM]. destruct (Hf _ _ HM) as (Ek' & b & Hbk & Heb). split; [done|].
    eexists. rewrite list_lookup_fmap, Hbk. split; [reflexivity|]. apply elem_filter_neq. split; [done|]. intros ->. congruence.
  - apply list.Forall_fmap. eapply list.Forall_impl; [exact Hn|]. intros b Hnd. cbn.
    apply NoDup_ListNoDup, NoDup_filter, NoDup_ListNoDup, Hnd.
  - assert (Hsz : size (delete k M) = pred (size M)) by (apply map_size_delete_Some; by exists e).
    assert (size M <> 0%nat) by (intros E0; apply map_size_empty_inv in E0; subst M; by rewrite lookup_empty in Hk).
    rewrite (u16_pred _ _ Hs). f_equal. lia.
Qed.

Lemma land_pred_pow2 n : 0 < n -> Z.land n (n - 1) = 0 -> n = 2 ^ Z.log2 n.
Proof.
  intros Hn H. destruct (Z.log2_spec n Hn) as [H1 H2]. destruct (Z.eq_dec n (2 ^ Z.log2 n)) as [|Hne]; [done|].
  assert (E : Z.log2 (n - 1) = Z.log2 n) by (apply Z.log2_unique; [apply Z.log2_nonneg|lia]).
  assert (Ht : Z.testbit (Z.land n (n - 1)) (Z.log2 n) = true).
  { rewrite Z.land_spec, (Z.bit_log2 n Hn). rewrite <- E. apply Z.bit_log2.
    pose proof (Z.pow_pos_nonneg 2 (Z.log2 n) ltac:(lia) (Z.log2_nonneg n)). lia. }
  rewrite H, Z.bits_0 in Ht. done.
Qed.

Lemma cmHashListInit_rep key n : 0 < n <= 2 ^ 15 -> hash_rep key (fst (cmHashListInit n false true)) ∅.
Proof.
  intros Hn. unfold cmHashListInit. replace (n =? 0) with false by (symmetry; apply Z.eqb_neq; lia). cbn [negb].
  assert (Hall : forall i bin (e : Z), replicate (Z.to_nat n) [] !! i = Some bin -> e ∈ bin -> False).
  { intros i bin e Hi He. apply lookup_replicate in Hi as [-> _]. by apply not_elem_of_nil in He. }
  destruct (Z.land n (n - 1) =? 0) eqn:E; cbn [fst]; unfold update; cbn;
    (split; cbn; [split; [done|apply length_replicate]| |done|by intros ? ? ? H1 H2; destruct (Hall _ _ _ H1 H2)|intros k e H; by rewrite lookup_empty in H
      |apply Forall_replicate, NoDup_nil_2|done]); [right|by left].
  split; [done|]. b2p. exists (Z.log2 n). split; [apply Z.log2_nonneg|]. apply land_pred_pow2; [lia|assumption].
Qed.

(** Only the keys of the linked entries matter. *)
Lemma hash_rep_ext key key' cp M :
  (forall k e, M !! k = Some e -> key' e = k) -> hash_rep key cp M -> hash_rep key' cp M.
Proof.
  intros Hk [Hb Hm Hd He Hf Hn Hs]. split; try done.
  - intros i bin e Hi Hin. destruct (He _ _ _ Hi Hin) as [E HM]. by rewrite (Hk _ _ HM).
  - intros k e HM. destruct (Hf _ _ HM) as (_ & Hbin). split; [by apply Hk|done].
Qed.
