(* ===== verification/OduEgtp.v ===== *)
(** The GTP-U of the O-DU: [du_app/du_egtp.c], and the TEIDs in F1AP.

    The control block of each tunnel holds a header that is encoded once, when the tunnel is
    added: in an array of 40 bytes that is filled from its end, so that it is stored reversed,
    and [SAddPreMsgMult] puts it before the message byte by byte.  A message is the string of its
    bytes; [SRemPreMsg] leaves its destination as it is when the message is empty.  Blocks that
    [DU_ALLOC] returns come from a stream of addresses ([None]: no memory).  Datagrams that are
    handed to the socket are events. *)

From S2P Require Import Prelude GtpU CmHash.

Definition EGTP_RECVR_PORT : Z := 2152.
Definition EGTP_MAX_HDR_LEN : Z := 40.
Definition EGTP_EXT_HDR_UDP_TYPE : Z := 64.
Definition EGTP_EXT_HDR_PDCP_TYPE : Z := 192.
Definition EGTP_MASK_BIT1 : Z := 0x01.
Definition EGTP_MASK_BIT2 : Z := 0x02.
Definition EGTP_MASK_BIT3 : Z := 0x04.
Definition EGTP_MASK_BIT5 : Z := 0x10.
Definition EGTP_MASK_BIT6 : Z := 0x20.
Definition EGTPU_MSG_GPDU : Z := 255.
Definition EGTP_TNL_MGMT_ADD : Z := 1.
Definition EGTP_TNL_MGMT_MOD : Z := 2.
Definition EGTP_TNL_MGMT_DEL : Z := 3.
Definition LCM_PRIM_OK : Z := 0.
Definition LCM_PRIM_NOK : Z := 1.
Definition LCM_REASON_NOT_APPL : Z := 0.
Definition LCM_REASON_MEM_NOAVAIL : Z := 4.
Definition LCM_REASON_INVALID_ACTION : Z := 9.
Definition LCM_REASON_INVALID_PAR_VAL : Z := 13.
Definition LCM_REASON_HASHING_FAILED : Z := 20.

Definition GetHiByte (w : Z) : Z := Z.land (Z.shiftr (u16 w) 8) 0xff.
Definition GetLoByte (w : Z) : Z := Z.land (u16 w) 0xff.
Definition GetHiWord (l : Z) : Z := Z.land (Z.shiftr (u32 l) 16) 0xffff.
Definition GetLoWord (l : Z) : Z := Z.land (u32 l) 0xffff.

(** ** Data *)

(** [TknUInt8], [TknUInt16], [TknUInt32] *)
Record Tkn := mk_tkn { pres : bool; val : Z }.

Record EgtpMsgHdr := mk_emh {
  nPdu : Tkn;
  em_seqNum : Tkn;
  udpPort : Tkn;
  pdcpNmb : Tkn;
  em_teId : Z;
  em_msgType : Z
}.
#[global] Instance emh_eta : Eta EgtpMsgHdr := fun r =>
  mk_emh (nPdu r) (em_seqNum r) (udpPort r) (pdcpNmb r) (em_teId r) (em_msgType r).

Record EgtpMsg := mk_egtpMsg { msgHdr : EgtpMsgHdr; msg : list Z }.

Record EgtpTnlEvt := mk_tnlEvt { action : Z; lclTeid : Z; remTeid : Z }.

Record EgtpTeIdCb := mk_teidCb {
  cb_teId : Z;
  remTeId : Z;
  hdr : list Z;
  cnt : Z
}.
#[global] Instance teidCb_eta : Eta EgtpTeIdCb := fun r => mk_teidCb (cb_teId r) (remTeId r) (hdr r) (cnt r).

Record EgtpConfig := mk_egtpCfg {
  localIp : Z; localPort : Z; destIp : Z; destPort : Z; minTunnelId : Z; maxTunnelId : Z
}.

(** The global control block, with the memory of the tunnel control blocks. *)
Record EgtpGlobalCb := mk_egtpCb {
  egtpCfg : EgtpConfig;
  recvAddr : Z * Z;
  dstIp : Z;
  dstPort : Z;
  sendAddr : Z * Z;
  numTunn : Z;
  teIdLst : CmHashListCp;
  blocks : gmap Z EgtpTeIdCb
}.
#[global] Instance egtpCb_eta : Eta EgtpGlobalCb := fun r =>
  mk_egtpCb (egtpCfg r) (recvAddr r) (dstIp r) (dstPort r) (sendAddr r) (numTunn r) (teIdLst r) (blocks r).

(** What reaches the socket: the address, the port and the bytes. *)
Inductive egtp_event : Type :=
| UdpSend (ip port : Z) (datagram : list Z).

(** [DU_ALLOC]: the next block, or none. *)
Definition DU_ALLOC (mem : list (option Z)) : option Z * list (option Z) :=
  match mem with
  | [] => (None, [])
  | a :: rest => (a, rest)
  end.

(** The key that the hash list reads through its pointer into a control block. *)
Definition teid_key (bl : gmap Z EgtpTeIdCb) (p : Z) : Z :=
  match bl !! p with Some cb => cb_teId cb | None => 0 end.

(** ** TEIDs in F1AP *)

Definition TEID_BIT_SIZE : Z := 24.

Definition teIdStringToInt (buf : list Z) : Z :=
  let temp1 := u32 (Z.shiftl (buf_get buf 0) 24) in
  let temp2 := u32 (Z.shiftl (buf_get buf 1) 16) in
  let temp3 := u32 (Z.shiftl (buf_get buf 2) 8) in
  Z.lor (Z.lor (Z.lor temp1 temp2) temp3) (buf_get buf 3).

Fixpoint fill_teid_loop (fuel : nat) (bitPos bufSize v : Z) (buf : list Z) : list Z :=
  match fuel with
  | O => buf
  | S f =>
    if bitPos <? TEID_BIT_SIZE
    then fill_teid_loop f (bitPos + 8) (bufSize - 1) v (buf_set buf bufSize (Z.land (2 ^ 8 - 1) (Z.shiftr v bitPos)))
    else buf
  end.

(** Three bytes are written. *)
Definition fillTeIdString (bufSize v : Z) (buf : list Z) : list Z := fill_teid_loop 4 0 bufSize v buf.

(** The TEID of the answer of the DU, in the buffer that [DU_ALLOC] zeroes. *)
Definition fillGtpTunnelforDl (teId : Z) : list Z := fillTeIdString 3 teId (replicate 4 0).

(** The macros of the CU. *)
Definition INT32_TO_BUFFER (x : Z) : list Z :=
  [u8 (Z.shiftr x 24); u8 (Z.shiftr x 16); u8 (Z.shiftr x 8); u8 x].

Definition BUFFER_TO_INT32 (buf : list Z) : Z :=
  u32 (Z.lor (Z.lor (Z.lor (Z.shiftl (buf_get buf 0) 24) (Z.shiftl (buf_get buf 1) 16)) (Z.shiftl (buf_get buf 2) 8))
         (buf_get buf 3)).

(** ** Configuration *)

(** [CM_INET_NTOH_UINT32] is [ntohl]. *)
Definition egtpCfgReq (st : EgtpGlobalCb) (c : EgtpConfig) (mem : bool) : EgtpGlobalCb * (Z * Z) :=
  let '(lst, ret) := cmHashListInit 1024 false mem in
  let st := st <| egtpCfg := c |> <| recvAddr := (htonl (localIp c), EGTP_RECVR_PORT) |> <| dstIp := htonl (destIp c) |>
               <| dstPort := destPort c |> <| sendAddr := (htonl (localIp c), localPort c) |> <| numTunn := 0 |>
               <| teIdLst := lst |> in
  (st, if negb (ret =? ROK) then (LCM_PRIM_NOK, LCM_REASON_HASHING_FAILED) else (LCM_PRIM_OK, LCM_REASON_NOT_APPL)).

(** ** The header *)

(** [preEncodedHdr[--cnt] = v] *)
Definition push (b : list Z * Z) (v : Z) : list Z * Z :=
  let cnt := u8 (snd b - 1) in (buf_set (fst b) cnt v, cnt).

Definition first_byte (h : EgtpMsgHdr) : Z :=
  let tmpByte := Z.lor (Z.lor 0 EGTP_MASK_BIT6) EGTP_MASK_BIT5 in
  let tmpByte := if pres (udpPort h) || pres (pdcpNmb h) then Z.lor tmpByte EGTP_MASK_BIT3 else tmpByte in
  let tmpByte := if pres (em_seqNum h) then Z.lor tmpByte EGTP_MASK_BIT2 else tmpByte in
  if pres (nPdu h) then Z.lor tmpByte EGTP_MASK_BIT1 else tmpByte.

Definition has_bit (b m : Z) : bool := negb (Z.land b m =? 0).

(** The array and the index of its last byte written. *)
Definition egtpEncodeHdr (buf : list Z) (h : EgtpMsgHdr) : list Z * Z :=
  let tmpByte := first_byte h in
  let extPres := has_bit tmpByte EGTP_MASK_BIT1 || has_bit tmpByte EGTP_MASK_BIT2 || has_bit tmpByte EGTP_MASK_BIT3 in
  let b := push (push (buf, EGTP_MAX_HDR_LEN) tmpByte) (em_msgType h) in
  let b := push (push b 0) 0 in
  let b := push (push b (GetHiByte (GetHiWord (em_teId h)))) (GetLoByte (GetHiWord (em_teId h))) in
  let b := push (push b (GetHiByte (GetLoWord (em_teId h)))) (GetLoByte (GetLoWord (em_teId h))) in
  let b := if pres (em_seqNum h) then push (push b (GetHiByte (val (em_seqNum h)))) (GetLoByte (val (em_seqNum h)))
           else if extPres then push (push b 0) 0 else b in
  let b := if pres (nPdu h) then push b (val (nPdu h)) else if extPres then push b 0 else b in
  let b := if pres (udpPort h)
           then push (push (push (push b EGTP_EXT_HDR_UDP_TYPE) 1) (GetHiByte (val (udpPort h)))) (GetLoByte (val (udpPort h)))
           else b in
  let b := if pres (pdcpNmb h)
           then push (push (push (push b EGTP_EXT_HDR_PDCP_TYPE) 1) (GetHiByte (val (pdcpNmb h)))) (GetLoByte (val (pdcpNmb h)))
           else b in
  if has_bit tmpByte EGTP_MASK_BIT3 then push b 0 else if extPres then push b 0 else b.

(** ** Tunnels *)

(** The header given to [egtpEncodeHdr]: all else is zero. *)
Definition preDefHdr (remTeid : Z) : EgtpMsgHdr :=
  mk_emh (mk_tkn false 0) (mk_tkn false 0) (mk_tkn false 0) (mk_tkn false 0) remTeid EGTPU_MSG_GPDU.

Definition egtpTnlAdd (st : EgtpGlobalCb) (e : EgtpTnlEvt) (mem : list (option Z))
  : res (EgtpGlobalCb * Z * list (option Z)) :=
  match DU_ALLOC mem with
  | (None, mem) => Ok (st, LCM_REASON_MEM_NOAVAIL, mem)
  | (Some p, mem) =>
    let cb := mk_teidCb (lclTeid e) (remTeid e) (replicate 40 0) 0 in
    let bl := <[p := cb]> (blocks st) in
    let* (lst, ret) := cmHashListInsert (teid_key bl) (teIdLst st) p in
    if negb (ret =? ROK) then Ok (st <| teIdLst := lst |> <| blocks := delete p bl |>, LCM_REASON_HASHING_FAILED, mem)
    else
      let '(h, c) := egtpEncodeHdr (hdr cb) (preDefHdr (remTeId cb)) in
      Ok (st <| teIdLst := lst |> <| numTunn := u32 (numTunn st + 1) |>
             <| blocks := <[p := cb <| hdr := h |> <| cnt := c |>]> bl |>, ROK, mem)
  end.

(** The control block of a local TEID. *)
Definition find_tunnel (st : EgtpGlobalCb) (t : Z) : res (option (Z * EgtpTeIdCb)) :=
  let* (_, p) := cmHashListFind (teid_key (blocks st)) (teIdLst st) t 0 None in
  match p with
  | None => Ok None
  | Some p => match blocks st !! p with None => Fault UseAfterFree | Some cb => Ok (Some (p, cb)) end
  end.

Definition egtpTnlMod (st : EgtpGlobalCb) (e : EgtpTnlEvt) : res (EgtpGlobalCb * Z) :=
  let* r := find_tunnel st (lclTeid e) in
  match r with
  | None => Ok (st, RFAILED)
  | Some (p, cb) =>
    Ok (st <| blocks := <[p := cb <| cb_teId := remTeid e |> <| remTeId := remTeid e |>]> (blocks st) |>, ROK)
  end.

Definition egtpTnlDel (st : EgtpGlobalCb) (e : EgtpTnlEvt) : res (EgtpGlobalCb * Z) :=
  let* r := find_tunnel st (lclTeid e) in
  match r with
  | None => Ok (st, LCM_REASON_INVALID_PAR_VAL)
  | Some (p, cb) =>
    let '(lst, _) := cmHashListDelete (teIdLst st) p in
    Ok (st <| teIdLst := lst |> <| blocks := delete p (blocks st) |> <| numTunn := u32 (numTunn st - 1) |>, ROK)
  end.

(** The result, and the confirmation that the DU application gets. *)
Definition egtpTnlMgmtReq (st : EgtpGlobalCb) (e : EgtpTnlEvt) (mem : list (option Z))
  : res (EgtpGlobalCb * Z * (Z * Z) * list (option Z)) :=
  let* (st, ret, mem) :=
    if action e =? EGTP_TNL_MGMT_ADD then egtpTnlAdd st e mem
    else if action e =? EGTP_TNL_MGMT_MOD then let* (st, ret) := egtpTnlMod st e in Ok (st, ret, mem)
    else if action e =? EGTP_TNL_MGMT_DEL then let* (st, ret) := egtpTnlDel st e in Ok (st, ret, mem)
    else Ok (st, LCM_REASON_INVALID_ACTION, mem) in
  Ok (st, ret, if ret =? ROK then (LCM_PRIM_OK, LCM_REASON_NOT_APPL) else (LCM_PRIM_NOK, ret), mem).

(** ** Uplink *)

(** [SAddPreMsgMult]: the first byte of the source is put before the message first. *)
Definition add_pre_mult (src msg : list Z) : list Z := rev src ++ msg.

Definition egtpSendMsg (st : EgtpGlobalCb) (msg : list Z) : egtp_event := UdpSend (dstIp st) EGTP_RECVR_PORT msg.

(** The header in front of a message: what the control block keeps, and the index of its first
    byte to send.  [hdr[hdrLen]] is the last byte of the TEID. *)
Definition fill_header (cb : EgtpTeIdCb) (h : EgtpMsgHdr) (tPduSize : Z) : list Z * Z :=
  let hdrLen := cnt cb in
  let b := hdr cb in
  let '(b, hdrLen) :=
    if pres (pdcpNmb h) then
      let b := buf_set b (EGTP_MAX_HDR_LEN - 1) (Z.lor (buf_get b (EGTP_MAX_HDR_LEN - 1)) EGTP_MASK_BIT3) in
      let b := buf_set b hdrLen EGTP_EXT_HDR_PDCP_TYPE in
      push (push (push (push (b, hdrLen) 1) (GetHiByte (val (pdcpNmb h)))) (GetLoByte (val (pdcpNmb h)))) 0
    else (buf_set b (EGTP_MAX_HDR_LEN - 1) (Z.land (buf_get b (EGTP_MAX_HDR_LEN - 1)) (Z.lnot EGTP_MASK_BIT3)), hdrLen) in
  let msgLen := u32 (tPduSize + (EGTP_MAX_HDR_LEN - hdrLen) - 0x08) in
  let b := buf_set b (EGTP_MAX_HDR_LEN - 3) (GetHiByte msgLen) in
  let b := buf_set b (EGTP_MAX_HDR_LEN - 4) (GetLoByte msgLen) in
  let b :=
    if pres (em_seqNum h) then
      let b := buf_set b (EGTP_MAX_HDR_LEN - 1) (Z.lor (buf_get b (EGTP_MAX_HDR_LEN - 1)) EGTP_MASK_BIT2) in
      let b := buf_set b (EGTP_MAX_HDR_LEN - 9) (GetHiByte (val (em_seqNum h))) in
      buf_set b (EGTP_MAX_HDR_LEN - 10) (GetLoByte (val (em_seqNum h)))
    else buf_set b (EGTP_MAX_HDR_LEN - 1) (Z.land (buf_get b (EGTP_MAX_HDR_LEN - 1)) (Z.lnot EGTP_MASK_BIT2)) in
  (b, hdrLen).

Definition egtpHdlDatInd (st : EgtpGlobalCb) (m : EgtpMsg) : res (EgtpGlobalCb * Z * list egtp_event) :=
  let* r := find_tunnel st (em_teId (msgHdr m)) in
  match r with
  | None => Ok (st, LCM_REASON_INVALID_PAR_VAL, [])
  | Some (p, cb) =>
    let tPduSize := u16 (Z.of_nat (length (msg m))) in
    let '(b, hdrLen) := fill_header cb (msgHdr m) tPduSize in
    let st := st <| blocks := <[p := cb <| hdr := b |>]> (blocks st) |> in
    Ok (st, ROK, [egtpSendMsg st (add_pre_mult (drop (Z.to_nat hdrLen) b) (msg m))])
  end.

(** ** Downlink *)

(** [SRemPreMsg]: the byte that the destination has then, and the rest of the message. *)
Definition rem_pre (x : Z) (m : list Z) : Z * list Z :=
  match m with
  | [] => (x, [])
  | b :: m => (b, m)
  end.

(** Two bytes into [tmpByte[1]] and [tmpByte[2]], and their value. *)
Definition rem_two (t1 t2 : Z) (m : list Z) : Z * Z * Z * list Z :=
  let '(t1, m) := rem_pre t1 m in
  let '(t2, m) := rem_pre t2 m in
  (Z.lor (Z.shiftl t1 8) t2, t1, t2, m).

(** One turn of the loop over the extension headers. *)
Definition ext_turn (ty l t1 t2 : Z) (h : EgtpMsgHdr) (m : list Z) : Z * Z * Z * Z * EgtpMsgHdr * list Z :=
  let '(l, t1, t2, h, m) :=
    if ty =? EGTP_EXT_HDR_UDP_TYPE then
      let '(l, m) := rem_pre l m in
      if l =? 1 then let '(v, t1, t2, m) := rem_two t1 t2 m in (l, t1, t2, h <| udpPort := mk_tkn true v |>, m)
      else (l, t1, t2, h, m)
    else if ty =? EGTP_EXT_HDR_PDCP_TYPE then
      let '(l, m) := rem_pre l m in
      if l =? 1 then let '(v, t1, t2, m) := rem_two t1 t2 m in (l, t1, t2, h <| pdcpNmb := mk_tkn true v |>, m)
      else (l, t1, t2, h, m)
    else (l, t1, t2, h, m) in
  let '(ty, m) := rem_pre ty m in
  (ty, l, t1, t2, h, m).

Fixpoint ext_loop (fuel : nat) (ty l t1 t2 : Z) (h : EgtpMsgHdr) (m : list Z) : res (EgtpMsgHdr * list Z) :=
  if ty =? 0 then Ok (h, m)
  else
    match fuel with
    | O => Fault FuelExhausted
    | S f => let '(ty, l, t1, t2, h, m) := ext_turn ty l t1 t2 h m in ext_loop f ty l t1 t2 h m
    end.

(** [h] is the uninitialised header of the caller, [t0] to [t4] are the uninitialised [tmpByte]. *)
Definition egtpDecodeHdr (h : EgtpMsgHdr) (t0 t1 t2 t3 t4 : Z) (m : list Z) : res EgtpMsg :=
  let '(t0, m) := rem_pre t0 m in
  let '(ty, m) := rem_pre (em_msgType h) m in
  let h := h <| em_msgType := ty |> in
  let '(_, t1, t2, m) := rem_two t1 t2 m in
  let '(t1, m) := rem_pre t1 m in
  let '(t2, m) := rem_pre t2 m in
  let '(t3, m) := rem_pre t3 m in
  let '(t4, m) := rem_pre t4 m in
  let h := h <| em_teId := u32 (Z.lor (Z.lor (Z.lor (Z.shiftl t1 24) (Z.shiftl t2 16)) (Z.shiftl t3 8)) t4) |> in
  let extPres := has_bit t0 EGTP_MASK_BIT1 || has_bit t0 EGTP_MASK_BIT2 || has_bit t0 EGTP_MASK_BIT3 in
  let '(h, t1, t2, m) :=
    if has_bit t0 EGTP_MASK_BIT2 then
      let '(v, t1, t2, m) := rem_two t1 t2 m in (h <| em_seqNum := mk_tkn true v |>, t1, t2, m)
    else if extPres then
      let '(v, t1, t2, m) := rem_two t1 t2 m in (h <| em_seqNum := mk_tkn false v |>, t1, t2, m)
    else (h, t1, t2, m) in
  let '(h, m) :=
    if has_bit t0 EGTP_MASK_BIT1 || extPres then
      let '(v, m) := rem_pre (val (nPdu h)) m in (h <| nPdu := mk_tkn true v |>, m)
    else (h, m) in
  let* (h, m) :=
    if has_bit t0 EGTP_MASK_BIT3 then
      let '(ty, m) := rem_pre 0 m in ext_loop (S (length m)) ty 0 t1 t2 h m
    else if extPres then let '(_, m) := rem_pre 0 m in Ok (h, m)
    else Ok (h, m) in
  Ok (mk_egtpMsg h m).

(** * The header on the wire *)

Definition be16 (v : Z) : list Z := [v / 256 mod 256; v mod 256].
Definition be32 (v : Z) : list Z := [v / 2 ^ 24 mod 256; v / 2 ^ 16 mod 256; v / 2 ^ 8 mod 256; v mod 256].

Lemma land_255 v : Z.land v 0xff = v mod 256.
Proof. change 0xff with (Z.ones 8). by rewrite Z.land_ones. Qed.

Lemma HiByte_spec v : 0 <= v < 2 ^ 16 -> GetHiByte v = v / 256 mod 256.
Proof. intros H. unfold GetHiByte. by rewrite land_255, Z.shiftr_div_pow2, u16_small by lia. Qed.

Lemma LoByte_spec v : 0 <= v < 2 ^ 16 -> GetLoByte v = v mod 256.
Proof. intros H. unfold GetLoByte. by rewrite land_255, u16_small by lia. Qed.

Lemma HiWord_spec v : 0 <= v < 2 ^ 32 -> GetHiWord v = v / 2 ^ 16 /\ 0 <= GetHiWord v < 2 ^ 16.
Proof.
  intros H. unfold GetHiWord. change 0xffff with (Z.ones 16). rewrite Z.land_ones, Z.shiftr_div_pow2, u32_small by lia.
  rewrite Z.mod_small by (split; [apply Z.div_pos; lia|apply Z.div_lt_upper_bound; lia]).
  split; [done|]. split; [apply Z.div_pos; lia|apply Z.div_lt_upper_bound; lia].
Qed.

Lemma LoWord_spec v : 0 <= v < 2 ^ 32 -> GetLoWord v = v mod 2 ^ 16 /\ 0 <= GetLoWord v < 2 ^ 16.
Proof.
  intros H. unfold GetLoWord. change 0xffff with (Z.ones 16). rewrite Z.land_ones, u32_small by lia.
  split; [done|]. apply Z.mod_pos_bound. lia.
Qed.

Lemma u8_byte v : is_byte v -> u8 v = v.
Proof. unfold is_byte. intros. apply Z.mod_small. lia. Qed.

Lemma u8_mod v : u8 (v mod 256) = v mod 256.
Proof. apply Z.mod_small. pose proof (Z.mod_pos_bound v 256 ltac:(lia)). lia. Qed.

(** The four bytes of a TEID as the encoder takes them. *)
Lemma teid_bytes t : 0 <= t < 2 ^ 32 ->
  [u8 (GetHiByte (GetHiWord t)); u8 (GetLoByte (GetHiWord t)); u8 (GetHiByte (GetLoWord t)); u8 (GetLoByte (GetLoWord t))] = be32 t.
Proof.
  intros H. destruct (HiWord_spec t H) as [E1 B1], (LoWord_spec t H) as [E2 B2].
  rewrite !HiByte_spec, !LoByte_spec, !u8_mod by done. rewrite E1, E2. unfold be32.
  rewrite Z.div_div by lia. change (2 ^ 16 * 256) with (2 ^ 24).
  assert (E3 : t mod 2 ^ 16 / 256 mod 256 = t / 2 ^ 8 mod 256).
  { change (2 ^ 16) with (256 * 256). rewrite Z.rem_mul_r by lia.
    replace (t mod 256 + 256 * ((t / 256) mod 256)) with (((t / 256) mod 256) * 256 + t mod 256) by lia.
    rewrite Z.div_add_l, (Z.div_small (t mod 256)), Z.add_0_r, Z.mod_mod by (lia || (apply Z.mod_pos_bound; lia)). done. }
  assert (E4 : t mod 2 ^ 16 mod 256 = t mod 256).
  { change (2 ^ 16) with (256 * 256). rewrite Z.rem_mul_r by lia. rewrite Z.mul_comm, Z.mod_add, Z.mod_mod by lia. done. }
  by rewrite E3, E4.
Qed.

(** Reading four bytes gives back the TEID. *)
Lemma lor_bytes a b c d : is_byte a -> is_byte b -> is_byte c -> is_byte d ->
  Z.lor (Z.lor (Z.lor (Z.shiftl a 24) (Z.shiftl b 16)) (Z.shiftl c 8)) d = a * 2 ^ 24 + b * 2 ^ 16 + c * 2 ^ 8 + d.
Proof.
  unfold is_byte. intros Ha Hb Hc Hd. rewrite <- !Z.lor_assoc.
  rewrite (lor_shiftl_add c d), (lor_shiftl_add b), (lor_shiftl_add a) by lia. lia.
Qed.

Lemma be32_value t : 0 <= t < 2 ^ 32 ->
  t / 2 ^ 24 mod 256 * 2 ^ 24 + t / 2 ^ 16 mod 256 * 2 ^ 16 + t / 2 ^ 8 mod 256 * 2 ^ 8 + t mod 256 = t.
Proof. intros H. rewrite (Z.mod_small (t / 2 ^ 24)) by (split; [apply Z.div_pos; lia|apply Z.div_lt_upper_bound; lia]).
  Z.to_euclidean_division_equations. lia.
Qed.

Lemma is_byte_mod v : is_byte (v mod 256).
Proof. apply Z.mod_pos_bound. lia. Qed.

Lemma be32_read t : 0 <= t < 2 ^ 32 ->
  Z.lor (Z.lor (Z.lor (Z.shiftl (t / 2 ^ 24 mod 256) 24) (Z.shiftl (t / 2 ^ 16 mod 256) 16)) (Z.shiftl (t / 2 ^ 8 mod 256) 8))
    (t mod 256) = t.
Proof. intros H. rewrite lor_bytes by apply is_byte_mod. by apply be32_value. Qed.

Lemma be16_read v : 0 <= v < 2 ^ 16 -> Z.lor (Z.shiftl (v / 256 mod 256) 8) (v mod 256) = v.
Proof.
  intros H. rewrite lor_shiftl_add by (lia || apply Z.mod_pos_bound; lia). Z.to_euclidean_division_equations. lia.
Qed.

(** ** What the encoder writes *)

Lemma push_spec k l v : (k <= 39)%nat ->
  push (replicate (S k) 0 ++ l, Z.of_nat (S k)) v = (replicate k 0 ++ (u8 v :: l), Z.of_nat k).
Proof.
  intros Hk. unfold push. cbn [fst snd]. replace (u8 (Z.of_nat (S k) - 1)) with (Z.of_nat k).
  2:{ unfold u8. rewrite Z.mod_small; lia. }
  f_equal. unfold buf_set. rewrite Nat2Z.id. change (S k) with (1 + k)%nat. rewrite Nat.add_comm, replicate_add, <- app_assoc.
  rewrite insert_app_r_alt by (rewrite length_replicate; lia). rewrite length_replicate, Nat.sub_diag. done.
Qed.

(** The flags and the optional fields, in the order of the datagram. *)
Definition any_opt (h : EgtpMsgHdr) : bool := pres (udpPort h) || pres (pdcpNmb h) || pres (em_seqNum h) || pres (nPdu h).

Definition opt_bytes (h : EgtpMsgHdr) : list Z :=
  if any_opt h then
    (if pres (em_seqNum h) then be16 (val (em_seqNum h)) else [0; 0]) ++
    [if pres (nPdu h) then val (nPdu h) else 0] ++
    (if pres (udpPort h) then EGTP_EXT_HDR_UDP_TYPE :: 1 :: be16 (val (udpPort h)) else []) ++
    (if pres (pdcpNmb h) then EGTP_EXT_HDR_PDCP_TYPE :: 1 :: be16 (val (pdcpNmb h)) else []) ++ [0]
  else [].

Definition flag_byte (h : EgtpMsgHdr) : Z :=
  48 + (if pres (udpPort h) || pres (pdcpNmb h) then 4 else 0) + (if pres (em_seqNum h) then 2 else 0) +
  (if pres (nPdu h) then 1 else 0).

Definition wire_header (h : EgtpMsgHdr) (len : Z) : list Z :=
  [flag_byte h; em_msgType h] ++ be16 len ++ be32 (em_teId h) ++ opt_bytes h.

Record header_wf (h : EgtpMsgHdr) : Prop := mk_header_wf {
  wf_teid : 0 <= em_teId h < 2 ^ 32;
  wf_type : is_byte (em_msgType h);
  wf_npdu : is_byte (val (nPdu h));
  wf_seq : 0 <= val (em_seqNum h) < 2 ^ 16;
  wf_udp : 0 <= val (udpPort h) < 2 ^ 16;
  wf_pdcp : 0 <= val (pdcpNmb h) < 2 ^ 16
}.

Lemma flag_bits h :
  has_bit (flag_byte h) EGTP_MASK_BIT1 = pres (nPdu h) /\ has_bit (flag_byte h) EGTP_MASK_BIT2 = pres (em_seqNum h) /\
  has_bit (flag_byte h) EGTP_MASK_BIT3 = (pres (udpPort h) || pres (pdcpNmb h)) /\ u8 (flag_byte h) = flag_byte h /\
  first_byte h = flag_byte h.
Proof.
  unfold flag_byte, first_byte. by destruct (pres (nPdu h)), (pres (em_seqNum h)), (pres (udpPort h)), (pres (pdcpNmb h)).
Qed.

Lemma egtpEncodeHdr_spec h : header_wf h ->
  exists k, (k <= 32)%nat /\ egtpEncodeHdr (replicate 40 0) h = (replicate k 0 ++ rev (wire_header h 0), Z.of_nat k).
Proof.
  intros [Ht Hy Hn Hs Hu Hp]. destruct (flag_bits h) as (F1 & F2 & F3 & F4 & F5).
  unfold egtpEncodeHdr, wire_header. rewrite F5, F1, F2, F3. clear F1 F2 F3 F5. revert F4. generalize (flag_byte h). intros fb F4.
  unfold opt_bytes, any_opt. pose proof (teid_bytes _ Ht) as Eb. unfold be32 in Eb. injection Eb as E1 E2 E3 E4.
  destruct h as [[pn vn] [ps vs] [pu vu] [pp vp] t y]. cbn [pres val nPdu em_seqNum udpPort pdcpNmb em_teId em_msgType] in *.
  change (replicate 40 0, EGTP_MAX_HDR_LEN) with (replicate 40 0 ++ [], Z.of_nat 40).
  destruct ps, pn, pu, pp; cbn [orb]; rewrite !push_spec by lia;
    rewrite F4, E1, E2, E3, E4, ?HiByte_spec, ?LoByte_spec, ?u8_mod, ?(u8_byte _ Hy), ?(u8_byte _ Hn) by done;
    (eexists; split; [|reflexivity]; lia).
Qed.

(** ** What the decoder reads *)

(** The decoder marks the N-PDU number present whenever the optional fields are there; a field
    that is not in the message keeps what the caller's structure held. *)
Definition decoded (h h0 : EgtpMsgHdr) : EgtpMsgHdr :=
  mk_emh (if any_opt h then mk_tkn true (if pres (nPdu h) then val (nPdu h) else 0) else nPdu h0)
         (if any_opt h then mk_tkn (pres (em_seqNum h)) (if pres (em_seqNum h) then val (em_seqNum h) else 0) else em_seqNum h0)
         (if pres (udpPort h) then udpPort h else udpPort h0)
         (if pres (pdcpNmb h) then pdcpNmb h else pdcpNmb h0)
         (em_teId h) (em_msgType h).

Lemma egtpDecodeHdr_spec h0 t0 t1 t2 t3 t4 h len M : header_wf h ->
  egtpDecodeHdr h0 t0 t1 t2 t3 t4 (wire_header h len ++ M) = Ok (mk_egtpMsg (decoded h h0) M).
Proof.
  intros [Ht Hy Hn Hs Hu Hp]. destruct (flag_bits h) as (F1 & F2 & F3 & _ & _).
  unfold wire_header, decoded. revert F1 F2 F3. generalize (flag_byte h). intros fb F1 F2 F3.
  unfold egtpDecodeHdr, opt_bytes, any_opt in *. cbn [app rem_pre rem_two be16 be32].
  rewrite F1, F2, F3, (be32_read _ Ht), u32_small by done.
  destruct h as [[pn vn] [ps vs] [pu vu] [pp vp] t y], h0 as [n0 s0 u0 p0 te0 y0].
  cbn [pres val nPdu em_seqNum udpPort pdcpNmb em_teId em_msgType] in *.
  destruct ps, pn, pu, pp; cbv beta iota zeta delta [orb app be16 rem_pre rem_two ext_loop ext_turn length rbind update
    nPdu em_seqNum udpPort pdcpNmb em_teId em_msgType val pres EGTP_EXT_HDR_UDP_TYPE EGTP_EXT_HDR_PDCP_TYPE];
    cbn [Z.eqb Pos.eqb]; rewrite ?be16_read by done; reflexivity.
Qed.

(** Encoding a header and decoding it: the header that [egtpEncodeHdr] leaves in the array, put
    before a message with [SAddPreMsgMult], is read back by [egtpDecodeHdr] with the same type, TEID,
    sequence number, N-PDU number, UDP port and PDCP number, for every combination of the optional
    fields, and what is left is the message. *)
Theorem egtp_header_roundtrip (h h0 : EgtpMsgHdr) (t0 t1 t2 t3 t4 : Z) (M : list Z) :
  header_wf h ->
  let '(b, c) := egtpEncodeHdr (replicate 40 0) h in
  egtpDecodeHdr h0 t0 t1 t2 t3 t4 (add_pre_mult (drop (Z.to_nat c) b) M) = Ok (mk_egtpMsg (decoded h h0) M).
Proof.
  intros H. destruct (egtpEncodeHdr_spec h H) as (k & _ & ->). rewrite Nat2Z.id.
  rewrite drop_app_length' by (by rewrite length_replicate). unfold add_pre_mult. rewrite rev_involutive.
  by apply egtpDecodeHdr_spec.
Qed.

Definition a_full_header : EgtpMsgHdr :=
  mk_emh (mk_tkn true 7) (mk_tkn true 0x1234) (mk_tkn true 2152) (mk_tkn true 99) 0xdeadbeef EGTPU_MSG_GPDU.

Lemma egtp_header_roundtrip_witness :
  let '(b, c) := egtpEncodeHdr (replicate 40 0) a_full_header in
  egtpDecodeHdr (preDefHdr 0) 0 0 0 0 0 (add_pre_mult (drop (Z.to_nat c) b) [1; 2; 3]) =
    Ok (mk_egtpMsg (decoded a_full_header (preDefHdr 0)) [1; 2; 3]).
Proof.
  apply (egtp_header_roundtrip a_full_header (preDefHdr 0) 0 0 0 0 0 [1; 2; 3]).
  split; cbn; unfold is_byte, EGTPU_MSG_GPDU; lia.
Defined.

(** ** Messages that end inside an extension header *)

(** When the message is used up, the type of the next extension header is not written any more:
    a turn of the loop changes nothing, and the loop does not end. *)
Lemma ext_loop_diverges fuel ty l t1 t2 h : ty <> 0 -> ext_loop fuel ty l t1 t2 h [] = Fault FuelExhausted.
Proof.
  intros Hty. revert l h t1 t2. induction fuel as [|f IH]; intros l h t1 t2; cbn [ext_loop];
    (replace (ty =? 0) with false by (symmetry; by apply Z.eqb_neq)); [done|].
  unfold ext_turn. cbn [rem_pre rem_two]. destruct (ty =? EGTP_EXT_HDR_UDP_TYPE), (ty =? EGTP_EXT_HDR_PDCP_TYPE), (l =? 1); apply IH.
Qed.
