(* ===== verification/OduTunnels.v ===== *)
(** The tunnels of the O-DU: the table of the DU application ([du_app/du_ue_mgr.c],
    [du_app/du_msg_hdl.c]) on top of EGTP.

    The table [upTnlCfg] holds pointers to blocks of memory; a pointer to a freed block faults when
    it is followed.  What the application hands to RLC and to the socket are events. *)

From S2P Require Import Prelude GtpU CmHash OduEgtp.

(** ** Data *)

(** [MAX_NUM_DRB * MAX_NUM_UE] *)
Definition MAX_TEID : Z := 29 * 3.

Inductive ConfigType : Type := CONFIG_UNKNOWN | CONFIG_ADD | CONFIG_MOD | CONFIG_DEL.
#[global] Instance configType_dec : EqDecision ConfigType.
Proof. solve_decision. Defined.

Record GtpTnlCfg := mk_gtpTnl { ulTnlAddress : Z; dlTnlAddress : Z; tnl_teId : Z }.

(** [tnlCfg2] is never set. *)
Record UpTnlCfg := mk_upTnl {
  configType : ConfigType;
  up_cellId : Z;
  up_ueId : Z;
  up_drbId : Z;
  tnlCfg1 : option GtpTnlCfg
}.
#[global] Instance upTnl_eta : Eta UpTnlCfg := fun r =>
  mk_upTnl (configType r) (up_cellId r) (up_ueId r) (up_drbId r) (tnlCfg1 r).

(** The part of [duCb] that concerns tunnels, the memory of the table and EGTP. *)
Record DuCb := mk_du {
  upTnlCfg : list (option Z);
  numTeId : Z;
  tnlMem : gmap Z UpTnlCfg;
  egtp : EgtpGlobalCb
}.
#[global] Instance du_eta : Eta DuCb := fun r => mk_du (upTnlCfg r) (numTeId r) (tnlMem r) (egtp r).

Inductive du_event : Type :=
| DlUserData (cellId ueId rbId msgLen : Z) (dlMsg : list Z)
| Egtp (e : egtp_event).

(** The block behind a pointer. *)
Definition deref {A} (m : gmap Z A) (p : option Z) : res A :=
  match p with
  | None => Fault NullDeref
  | Some p => match m !! p with None => Fault UseAfterFree | Some v => Ok v end
  end.

(** The pointer in slot [i] of the table. *)
Definition slot (du : DuCb) (i : Z) : res (option Z) :=
  match upTnlCfg du !! Z.to_nat i with None => Fault OutOfBounds | Some p => Ok p end.

(** ** The table *)

(** The slot, given by its content [p], becomes a copy of [f1]: the memory, the content of the
    slot, the blocks left and the result. *)
Definition fillTnlCfgToAddMod (m : gmap Z UpTnlCfg) (p : option Z) (f1 : UpTnlCfg) (mem : list (option Z))
  : res (gmap Z UpTnlCfg * option Z * list (option Z) * Z) :=
  let* m := match p with
            | None => Ok m
            | Some a => match m !! a with None => Fault UseAfterFree | Some _ => Ok (delete a m) end
            end in
  match DU_ALLOC mem with
  | (None, mem) => Ok (m, None, mem, RFAILED)
  | (Some a, mem) =>
    let c := mk_upTnl (configType f1) (up_cellId f1) (up_ueId f1) (up_drbId f1) None in
    match tnlCfg1 f1 with
    | None => Ok (<[a := c]> m, Some a, mem, ROK)
    | Some t =>
      match DU_ALLOC mem with
      | (None, mem) => Ok (<[a := c]> m, Some a, mem, RFAILED)
      | (Some _, mem) => Ok (<[a := c <| tnlCfg1 := Some t |>]> m, Some a, mem, ROK)
      end
    end
  end.

Definition duSendEgtpTnlMgmtReq (st : EgtpGlobalCb) (act teIdTobeMod : Z) (t : GtpTnlCfg) (mem : list (option Z))
  : res (EgtpGlobalCb * Z * list (option Z)) :=
  let e := mk_tnlEvt act (if negb (act =? EGTP_TNL_MGMT_ADD) then teIdTobeMod else tnl_teId t) (tnl_teId t) in
  let* (st, ret, _, mem) := egtpTnlMgmtReq st e mem in
  Ok (st, ret, mem).

(** The loop that moves the entries behind the deleted one forward; the index where it ends. *)
Fixpoint shift_loop (fuel : nat) (du : DuCb) (delIdx : Z) (mem : list (option Z))
  : res (DuCb * Z * list (option Z) * Z) :=
  match fuel with
  | O => Fault FuelExhausted
  | S f =>
    if delIdx <? numTeId du then
      let* p := slot du delIdx in
      let* q := slot du (delIdx + 1) in
      let* next := deref (tnlMem du) q in
      let* (m, p, mem, ret) := fillTnlCfgToAddMod (tnlMem du) p next mem in
      let du := du <| tnlMem := m |> <| upTnlCfg := <[Z.to_nat delIdx := p]> (upTnlCfg du) |> in
      if negb (ret =? ROK) then Ok (du, delIdx, mem, ret)
      else let* (du, i, mem, ret') := shift_loop f du (delIdx + 1) mem in Ok (du, i, mem, ret')
    else Ok (du, delIdx, mem, ROK)
  end.

(** [duTnlCfg] is a copy of the caller's pointer: what [fillTnlCfgToAddMod] stores into it does
    not reach the table. *)
Definition duProcEgtpTunnelCfg (du : DuCb) (ueCbIdx : Z) (duTnlCfg : option Z) (f1 : UpTnlCfg) (mem : list (option Z))
  : res (DuCb * Z * list (option Z)) :=
  match tnlCfg1 f1 with
  | None => Ok (du, RFAILED, mem)
  | Some t =>
    if decide (configType f1 = CONFIG_ADD) then
      let* (st, ret, mem) := duSendEgtpTnlMgmtReq (egtp du) EGTP_TNL_MGMT_ADD 0 t mem in
      let du := du <| egtp := st |> in
      if negb (ret =? ROK) then Ok (du, RFAILED, mem)
      else
        let* p := slot du (numTeId du) in
        let* (m, p, mem, ret) := fillTnlCfgToAddMod (tnlMem du) p f1 mem in
        let du := du <| tnlMem := m |> <| upTnlCfg := <[Z.to_nat (numTeId du) := p]> (upTnlCfg du) |> in
        if ret =? ROK then Ok (du <| numTeId := u8 (numTeId du + 1) |>, ROK, mem) else Ok (du, RFAILED, mem)
    else if decide (configType f1 = CONFIG_MOD) then
      let* c := deref (tnlMem du) duTnlCfg in
      match tnlCfg1 c with
      | None => Fault NullDeref
      | Some t0 =>
        let* (st, ret, mem) := duSendEgtpTnlMgmtReq (egtp du) EGTP_TNL_MGMT_MOD (tnl_teId t0) t mem in
        let du := du <| egtp := st |> in
        if negb (ret =? ROK) then Ok (du, RFAILED, mem)
        else
          let* (m, _, mem, ret) := fillTnlCfgToAddMod (tnlMem du) duTnlCfg f1 mem in
          Ok (du <| tnlMem := m |>, if ret =? ROK then ROK else RFAILED, mem)
      end
    else if decide (configType f1 = CONFIG_DEL) then
      let* c := deref (tnlMem du) duTnlCfg in
      match tnlCfg1 c with
      | None => Fault NullDeref
      | Some t0 =>
        let* (st, ret, mem) := duSendEgtpTnlMgmtReq (egtp du) EGTP_TNL_MGMT_DEL (tnl_teId t0) t mem in
        let du := du <| egtp := st |> in
        if negb (ret =? ROK) then Ok (du, RFAILED, mem)
        else
          let du := du <| numTeId := u8 (numTeId du - 1) |> in
          let moved := ueCbIdx <? numTeId du in
          let* (du, delIdx, mem, ret) := shift_loop (S (length (upTnlCfg du))) du ueCbIdx mem in
          if negb (ret =? ROK) then Ok (du, ret, mem)
          else
            let* p := slot du delIdx in
            let* du :=
              match p with
              | None => Ok du
              | Some a => match tnlMem du !! a with
                          | None => Fault UseAfterFree
                          | Some _ => Ok (du <| tnlMem := delete a (tnlMem du) |>
                                             <| upTnlCfg := <[Z.to_nat delIdx := None]> (upTnlCfg du) |>)
                          end
              end in
            Ok (du, if moved then ROK else RFAILED, mem)
      end
    else Ok (du, RFAILED, mem)
  end.

(** The search for the tunnel of a UE and DRB, from index [teIdx]; [drbFound] as the loop leaves it. *)
Fixpoint find_drb (fuel : nat) (du : DuCb) (teIdx : Z) (ueId drbId : Z) (drbFound : bool) : res (bool * option Z) :=
  match fuel with
  | O => Fault FuelExhausted
  | S f =>
    if teIdx <? numTeId du then
      let* p := slot du teIdx in
      let* c := deref (tnlMem du) p in
      if (up_ueId c =? ueId) && (up_drbId c =? drbId) then Ok (true, Some teIdx)
      else find_drb f du (teIdx + 1) ueId drbId false
    else Ok (drbFound, None)
  end.

Fixpoint update_loop (du : DuCb) (ueId cellId : Z) (tnls : list UpTnlCfg) (ret : Z) (drbFound : bool) (mem : list (option Z))
  : res (DuCb * Z * list (option Z)) :=
  match tnls with
  | [] => Ok (du, ret, mem)
  | f1 :: rest =>
    let f1 := f1 <| up_cellId := cellId |> <| up_ueId := ueId |> in
    let* (drbFound, at_) := find_drb (S (length (upTnlCfg du))) du 0 ueId (up_drbId f1) drbFound in
    let* (du, ret, mem) :=
      match at_ with
      | None => Ok (du, ret, mem)
      | Some i =>
        let* p := slot du i in
        let* (du, r, mem) := duProcEgtpTunnelCfg du i p f1 mem in
        Ok (du, if negb (r =? ROK) then RFAILED else ret, mem)
      end in
    if negb drbFound && (ret =? ROK) then
      let* (du, r, mem) := duProcEgtpTunnelCfg du 0 None f1 mem in
      if negb (r =? ROK) then Ok (du, RFAILED, mem) else update_loop du ueId cellId rest ret drbFound mem
    else Ok (du, ret, mem)
  end.

Definition duUpdateTunnelCfgDb (du : DuCb) (ueId cellId : Z) (tnls : list UpTnlCfg) (mem : list (option Z)) :=
  update_loop du ueId cellId tnls ROK false mem.

(** The loop of [deleteUeCfg] over the tunnels of a UE. *)
Fixpoint delete_tunnels (fuel : nat) (du : DuCb) (tnlIdx ueId : Z) (mem : list (option Z)) : res (DuCb * list (option Z)) :=
  if tnlIdx <? numTeId du then
    match fuel with
    | O => Fault FuelExhausted
    | S f =>
      let* p := slot du tnlIdx in
      let* c := deref (tnlMem du) p in
      if up_ueId c =? ueId then
        let c := c <| configType := CONFIG_DEL |> in
        let du := du <| tnlMem := match p with Some a => <[a := c]> (tnlMem du) | None => tnlMem du end |> in
        let* (du, _, mem) := duProcEgtpTunnelCfg du tnlIdx p c mem in
        delete_tunnels f du tnlIdx ueId mem
      else delete_tunnels f du (tnlIdx + 1) ueId mem
    end
  else Ok (du, mem).

(** ** Packets *)

Fixpoint fill_dl_loop (fuel : nat) (du : DuCb) (teIdx teId : Z) : res (option (Z * Z * Z)) :=
  match fuel with
  | O => Fault FuelExhausted
  | S f =>
    if teIdx <? numTeId du then
      let* p := slot du teIdx in
      match p with
      | None => fill_dl_loop f du (teIdx + 1) teId
      | Some _ =>
        let* c := deref (tnlMem du) p in
        match tnlCfg1 c with
        | Some t => if tnl_teId t =? teId then Ok (Some (up_cellId c, up_ueId c, up_drbId c))
                    else fill_dl_loop f du (teIdx + 1) teId
        | None => fill_dl_loop f du (teIdx + 1) teId
        end
      end
    else Ok None
  end.

(** The cell, UE and DRB of a TEID. *)
Definition fillDlUserDataInfo (du : DuCb) (teId : Z) : res (option (Z * Z * Z)) :=
  fill_dl_loop (S (length (upTnlCfg du))) du 0 teId.

(** [shr]: whether there is shared memory; RLC takes what it is sent. *)
Definition duBuildAndSendDlUserDataToRlc (du : DuCb) (msgLen : Z) (m : EgtpMsg) (shr : bool) : res (Z * list du_event) :=
  if negb shr then Ok (RFAILED, [])
  else
    let* r := fillDlUserDataInfo du (em_teId (msgHdr m)) in
    match r with
    | Some (cellId, ueId, rbId) => Ok (ROK, [DlUserData cellId ueId rbId msgLen (msg m)])
    | None => Ok (RFAILED, [])
    end.

Definition duHdlEgtpDlData (du : DuCb) (m : EgtpMsg) (shr : bool) : res (Z * list du_event) :=
  let* (ret, ev) := duBuildAndSendDlUserDataToRlc du (u16 (Z.of_nat (length (msg m)))) m shr in
  Ok (if negb (ret =? ROK) then RFAILED else ROK, ev).

(** [h] and [t0] to [t4]: the uninitialised structures of [egtpHdlRecvData] and the decoder. *)
Definition egtpHdlRecvData (du : DuCb) (h : EgtpMsgHdr) (t0 t1 t2 t3 t4 : Z) (mBuf : list Z) (shr : bool)
  : res (Z * list du_event) :=
  let* m := egtpDecodeHdr h t0 t1 t2 t3 t4 mBuf in
  let* (_, ev) := duHdlEgtpDlData du m shr in
  Ok (ROK, ev).

Fixpoint ul_teid_loop (fuel : nat) (du : DuCb) (teIdx ueId rbId teId0 : Z) : res Z :=
  match fuel with
  | O => Fault FuelExhausted
  | S f =>
    if teIdx <? numTeId du then
      let* p := slot du teIdx in
      match p with
      | None => ul_teid_loop f du (teIdx + 1) ueId rbId teId0
      | Some _ =>
        let* c := deref (tnlMem du) p in
        if (up_ueId c =? ueId) && (up_drbId c =? rbId) then
          match tnlCfg1 c with
          | Some t => Ok (tnl_teId t)
          | None => ul_teid_loop f du (teIdx + 1) ueId rbId teId0
          end
        else ul_teid_loop f du (teIdx + 1) ueId rbId teId0
      end
    else Ok teId0
  end.

(** [buf]: whether there is a message buffer; [teId0] is the TEID of the uninitialised structure,
    which is used when the UE and DRB have no tunnel. *)
Definition DuProcRlcUlUserDataTrans (du : DuCb) (ueId rbId : Z) (userData : list Z) (teId0 : Z) (buf : bool)
  : res (DuCb * Z * list du_event) :=
  let* teId := ul_teid_loop (S (length (upTnlCfg du))) du 0 ueId rbId teId0 in
  if negb buf then Ok (du, RFAILED, [])
  else
    let h := mk_emh (mk_tkn false 0) (mk_tkn false 0) (mk_tkn false 0) (mk_tkn false 0) teId EGTPU_MSG_GPDU in
    let* (st, _, ev) := egtpHdlDatInd (egtp du) (mk_egtpMsg h userData) in
    Ok (du <| egtp := st |>, ROK, Egtp <$> ev).
