(* ===== verification/OduF1u.v ===== *)
(** The F1-U tunnels between the O-DU and the CU: the table of the DU application and the hash list
    of EGTP hold the same tunnels through additions, releases and traffic, and packets of a bearer
    cross both ways between the GTP-U of the CU and that of the O-DU. *)

From S2P Require Import Prelude GtpU GtpTunnels CmHash OduEgtp OduTunnels.

(** ** Datagrams *)

(** The header without options is that of the CU. *)
Lemma preDefHdr_wf t : 0 <= t < 2 ^ 32 -> header_wf (preDefHdr t).
Proof. intros H. split; cbn; unfold is_byte, EGTPU_MSG_GPDU; lia. Qed.

Lemma le16_htons v : 0 <= v < 2 ^ 16 -> le16 (htons v) = be16 v.
Proof.
  intros H. unfold htons, be16. rewrite u16_small by done. unfold le16, of_le16. cbn [rev app buf_get].
  change (buf_get [v / 256 mod 256; v mod 256] 0) with (v / 256 mod 256).
  change (buf_get [v / 256 mod 256; v mod 256] 1) with (v mod 256).
  pose proof (Z.mod_pos_bound v 256 ltac:(lia)) as H1. pose proof (Z.mod_pos_bound (v / 256) 256 ltac:(lia)) as H2.
  f_equal; [|f_equal]; [rewrite (Z.mul_comm 256), Z.mod_add, Z.mod_small by lia; done|].
  rewrite (Z.mul_comm 256), Z.div_add, (Z.div_small (v / 256 mod 256)), Z.mod_small by lia. lia.
Qed.

Lemma le32_htonl t : 0 <= t < 2 ^ 32 -> le32 (htonl t) = be32 t.
Proof.
  intros H. destruct (le32_digits t H) as (a & b & c & d & -> & Ha & Hb & Hc & Hd).
  unfold htonl. rewrite u32_small, le32_bytes by done. cbn [rev app]. rewrite of_le32_bytes, le32_bytes by done.
  unfold be32, is_byte in *. f_equal; [|f_equal; [|f_equal; [|f_equal]]]; Z.div_mod_to_equations; lia.
Qed.

Lemma gpdu_wire t Msg : 0 <= t < 2 ^ 32 -> Z.of_nat (length Msg) < 2 ^ 16 ->
  gpdu_bytes t Msg false false 0 0 = wire_header (preDefHdr t) (Z.of_nat (length Msg)) ++ Msg.
Proof.
  intros Ht Hl. unfold gpdu_bytes, header_bytes, sent_header, sent_optional, wire_header.
  cbn [orb PN S_ E_ spare PT version msgType msgLength hdr_teid Z.b2z app].
  rewrite le16_htons, le32_htonl by lia. reflexivity.
Qed.

(** ** EGTP *)

(** The control block of the tunnel with TEID [t] after a packet of length [len]. *)
Definition tunnel_cb (t len : Z) : EgtpTeIdCb := mk_teidCb t t (replicate 32 0 ++ rev (wire_header (preDefHdr t) len)) 32.

Definition egtp_inv (st : EgtpGlobalCb) (M : gmap Z Z) : Prop :=
  hash_rep (teid_key (blocks st)) (teIdLst st) M /\
  forall t p, M !! t = Some p -> 0 <= t < 2 ^ 32 /\ exists len, blocks st !! p = Some (tunnel_cb t len).

Lemma block_key bl p t len : bl !! p = Some (tunnel_cb t len) -> teid_key bl p = t.
Proof. intros E. unfold teid_key. by rewrite E. Qed.

Lemma egtp_block_key st M t p : egtp_inv st M -> M !! t = Some p -> teid_key (blocks st) p = t.
Proof. intros [_ H] Hp. destruct (H _ _ Hp) as (_ & len & E). exact (block_key _ _ _ _ E). Qed.

Lemma egtp_inj st M t t' p : egtp_inv st M -> M !! t = Some p -> M !! t' = Some p -> t = t'.
Proof. intros H H1 H2. rewrite <- (egtp_block_key _ _ _ _ H H1). by apply (egtp_block_key _ _ _ _ H). Qed.

Lemma find_tunnel_spec st M t : egtp_inv st M ->
  match M !! t with
  | Some p => exists len, find_tunnel st t = Ok (Some (p, tunnel_cb t len)) /\ blocks st !! p = Some (tunnel_cb t len)
  | None => find_tunnel st t = Ok None
  end.
Proof.
  intros [Hr Hb]. unfold find_tunnel. rewrite (hash_find _ _ _ _ _ Hr). cbn [rbind].
  destruct (M !! t) as [p|] eqn:E; [|done]. destruct (Hb _ _ E) as (_ & len & Ep). exists len. by rewrite Ep.
Qed.

Lemma encode_tunnel t : 0 <= t < 2 ^ 32 ->
  egtpEncodeHdr (replicate 40 0) (preDefHdr t) = (replicate 32 0 ++ rev (wire_header (preDefHdr t) 0), 32).
Proof.
  intros Ht. destruct (egtpEncodeHdr_spec _ (preDefHdr_wf t Ht)) as (k & Hk & E).
  assert (Hl : forall b h, length (fst (push b h)) = length (fst b)) by (intros [b c] h; cbn; apply length_insert).
  assert (Hk' : k = 32%nat).
  { assert (length (fst (egtpEncodeHdr (replicate 40 0) (preDefHdr t))) = 40%nat).
    { unfold egtpEncodeHdr. cbn [pres preDefHdr nPdu em_seqNum udpPort pdcpNmb first_byte orb].
      change (has_bit _ _ || has_bit _ _ || has_bit _ _) with false. change (has_bit _ _) with false. cbv iota. by rewrite !Hl. }
    rewrite E in H. cbn [fst] in H. rewrite length_app, length_replicate, length_rev in H.
    change (length (wire_header (preDefHdr t) 0)) with 8%nat in H. lia. }
  rewrite E, Hk'. reflexivity.
Qed.

Lemma egtpTnlAdd_spec st M t p mem : egtp_inv st M -> 0 <= t < 2 ^ 32 -> M !! t = None -> blocks st !! p = None ->
  exists st', egtpTnlAdd st (mk_tnlEvt EGTP_TNL_MGMT_ADD t t) (Some p :: mem) = Ok (st', ROK, mem) /\
    egtp_inv st' (<[t := p]> M) /\ dstIp st' = dstIp st /\
    (forall q, q <> p -> blocks st !! q = None -> blocks st' !! q = None).
Proof.
  intros [Hr Hb] Ht Hn Hp. unfold egtpTnlAdd. cbn [DU_ALLOC lclTeid remTeid].
  set (bl := <[p := mk_teidCb t t (replicate 40 0) 0]> (blocks st)).
  assert (Hk : teid_key bl p = t) by (unfold teid_key, bl; by rewrite lookup_insert_eq).
  assert (Hr1 : hash_rep (teid_key bl) (teIdLst st) M).
  { apply (hash_rep_ext (teid_key (blocks st))); [|done]. intros k e Hke. destruct (Hb _ _ Hke) as (_ & len & Ee).
    unfold teid_key, bl. rewrite lookup_insert_ne by (intros ->; congruence). by rewrite Ee. }
  destruct (hash_insert (teid_key bl) _ _ p Hr1) as (lst & Ei & Hr2); [by rewrite Hk|]. rewrite Ei. cbn [rbind Z.eqb ROK negb].
  cbn [hdr remTeId]. rewrite (encode_tunnel t Ht). eexists. split; [reflexivity|]. rewrite Hk in Hr2.
  assert (Hb' : forall t' q, <[t := p]> M !! t' = Some q -> 0 <= t' < 2 ^ 32 /\
                  exists len, <[p := tunnel_cb t 0]> bl !! q = Some (tunnel_cb t' len)).
  { intros t' q [[<- <-]|[Hne Hq]]%lookup_insert_Some; [split; [done|]; exists 0; by rewrite lookup_insert_eq|].
    destruct (Hb _ _ Hq) as (Ht' & len & Eq). split; [done|]. exists len. unfold bl.
    rewrite !lookup_insert_ne by (intros ->; congruence). done. }
  destruct st as [cf ra di dp sa nt lst0 bl0]. unfold update; cbn [teIdLst blocks] in *. split; [split; [|exact Hb']|split; [done|]].
  2:{ intros q Hq Hqn. unfold bl. by rewrite !lookup_insert_ne. }
  apply (hash_rep_ext (teid_key bl)); [|done]. intros k e Hke. destruct (Hb' _ _ Hke) as (_ & len & E). exact (block_key _ _ _ _ E).
Qed.

Lemma egtpTnlDel_spec st M t p r : egtp_inv st M -> M !! t = Some p ->
  exists st', egtpTnlDel st (mk_tnlEvt EGTP_TNL_MGMT_DEL t r) = Ok (st', ROK) /\ egtp_inv st' (delete t M) /\
    dstIp st' = dstIp st /\ (forall q, blocks st !! q = None -> blocks st' !! q = None).
Proof.
  intros H Hp. pose proof H as [Hr Hb]. pose proof (find_tunnel_spec st M t H) as Hf. rewrite Hp in Hf.
  destruct Hf as (len & Ef & _). unfold egtpTnlDel. cbn [lclTeid]. rewrite Ef. cbn [rbind].
  destruct (hash_delete _ _ _ _ _ Hr Hp) as (lst & -> & Hr'). eexists. split; [reflexivity|].
  assert (Hb' : forall t' q, delete t M !! t' = Some q -> 0 <= t' < 2 ^ 32 /\
                  exists len, delete p (blocks st) !! q = Some (tunnel_cb t' len)).
  { intros t' q [Hne Hq]%lookup_delete_Some. destruct (Hb _ _ Hq) as (Ht' & l & Eq). split; [done|]. exists l.
    rewrite lookup_delete_ne; [done|]. intros ->. apply Hne. by apply (egtp_inj st M t t' q H). }
  destruct st as [cf ra di dp sa nt lst0 bl0]. unfold update; cbn [teIdLst blocks] in *. split; [split; [|exact Hb']|split; [done|]].
  - apply (hash_rep_ext (teid_key bl0)); [|done]. intros k e Hke. destruct (Hb' _ _ Hke) as (_ & l & E). exact (block_key _ _ _ _ E).
  - intros q Hq. apply lookup_delete_None. by right.
Qed.

Lemma fill_header_spec t len n : 0 <= n < 2 ^ 16 ->
  fill_header (tunnel_cb t len) (preDefHdr t) n = (replicate 32 0 ++ rev (wire_header (preDefHdr t) n), 32).
Proof.
  intros Hn. unfold fill_header, tunnel_cb. cbn [cnt hdr pres preDefHdr pdcpNmb em_seqNum].
  replace (u32 _) with n by (unfold EGTP_MAX_HDR_LEN; rewrite u32_small; lia).
  rewrite HiByte_spec, LoByte_spec by done. unfold buf_set. rewrite !u8_mod. reflexivity.
Qed.

(** A packet on a tunnel leaves as the datagram that the CU expects. *)
Lemma egtpHdlDatInd_spec st M t p Msg : egtp_inv st M -> M !! t = Some p -> Z.of_nat (length Msg) < 2 ^ 16 ->
  exists st', egtpHdlDatInd st (mk_egtpMsg (preDefHdr t) Msg) =
      Ok (st', ROK, [UdpSend (dstIp st) EGTP_RECVR_PORT (gpdu_bytes t Msg false false 0 0)]) /\
    egtp_inv st' M /\ dstIp st' = dstIp st /\ (forall q, blocks st !! q = None -> blocks st' !! q = None).
Proof.
  intros H Hp Hl. pose proof H as [Hr Hb]. pose proof (find_tunnel_spec st M t H) as Hf. rewrite Hp in Hf.
  destruct Hf as (len & Ef & Ebl). destruct (Hb _ _ Hp) as (Ht & _).
  unfold egtpHdlDatInd. cbn [msgHdr msg em_teId preDefHdr]. rewrite Ef. cbn [rbind].
  change (mk_emh _ _ _ _ _ _) with (preDefHdr t). rewrite u16_small by lia. rewrite fill_header_spec by lia.
  change (drop (Z.to_nat 32)) with (drop (A := Z) 32). rewrite drop_app_length' by (by rewrite length_replicate).
  unfold add_pre_mult. rewrite rev_involutive, <- gpdu_wire by done. eexists. split; [reflexivity|].
  set (bl := <[p := _]> (blocks st)).
  assert (Hb' : forall t' q, M !! t' = Some q -> 0 <= t' < 2 ^ 32 /\ exists len, bl !! q = Some (tunnel_cb t' len)).
  { intros t' q Hq. destruct (Hb _ _ Hq) as (Ht' & l & Eq). split; [done|]. destruct (decide (q = p)) as [->|Hne].
    - rewrite <- (egtp_inj st M t t' p H Hp Hq). exists (Z.of_nat (length Msg)). unfold bl. by rewrite lookup_insert_eq.
    - exists l. unfold bl. by rewrite lookup_insert_ne. }
  destruct st as [cf ra di dp sa nt lst0 bl0]. unfold update; cbn [teIdLst blocks dstIp] in *. split; [split; [|exact Hb']|split; [done|]].
  - apply (hash_rep_ext (teid_key bl0)); [|done]. intros k e Hke. destruct (Hb' _ _ Hke) as (_ & l & E). exact (block_key _ _ _ _ E).
  - intros q Hq. unfold bl. rewrite lookup_insert_ne by (intros ->; congruence). done.
Qed.

(** ** The table of the DU application *)

Definition teid_of (c : UpTnlCfg) : Z := match tnlCfg1 c with Some t => tnl_teId t | None => 0 end.
Definition drb_of (c : UpTnlCfg) : Z * Z := (up_ueId c, up_drbId c).

(** The table holds the tunnels [T], in order, each in a block of its own. *)
Record table (du : DuCb) (P : list Z) (T : list UpTnlCfg) : Prop := mk_table {
  tb_slots : upTnlCfg du = (Some <$> P) ++ replicate (87 - length P) None;
  tb_mem : Forall2 (fun a c => tnlMem du !! a = Some c) P T;
  tb_nodup : NoDup P;
  tb_len : (length P <= 87)%nat;
  tb_num : numTeId du = Z.of_nat (length P)
}.

(** The table and EGTP hold the same tunnels; no two have the same TEID or the same DRB. *)
Record tunnels (du : DuCb) (T : list UpTnlCfg) : Prop := mk_tunnels {
  tu_table : exists P, table du P T;
  tu_cfg : Forall (fun c => is_Some (tnlCfg1 c)) T;
  tu_teid : NoDup (teid_of <$> T);
  tu_drb : NoDup (drb_of <$> T);
  tu_egtp : exists M, egtp_inv (egtp du) M /\ forall t, is_Some (M !! t) <-> t ∈ teid_of <$> T
}.

Lemma table_slot du P T i a : table du P T -> P !! i = Some a -> slot du (Z.of_nat i) = Ok (Some a).
Proof.
  intros H Hi. unfold slot. rewrite Nat2Z.id, (tb_slots _ _ _ H), lookup_app_l, list_lookup_fmap, Hi; [done|].
  rewrite length_fmap. by apply lookup_lt_Some in Hi.
Qed.

Lemma table_lookup du P T i c : table du P T -> T !! i = Some c -> exists a, P !! i = Some a /\ tnlMem du !! a = Some c.
Proof. intros H Hi. destruct (Forall2_lookup_r _ _ _ _ _ (tb_mem _ _ _ H) Hi) as (a & Ha & E). eauto. Qed.

Lemma table_length du P T : table du P T -> length P = length T /\ length (upTnlCfg du) = 87%nat.
Proof.
  intros H. split; [by apply Forall2_length with (1 := tb_mem _ _ _ H)|].
  rewrite (tb_slots _ _ _ H), length_app, length_fmap, length_replicate. pose proof (tb_len _ _ _ H). lia.
Qed.

(** Blocks outside of [P] may change. *)
Lemma mem_insert (m : gmap Z UpTnlCfg) P T b v :
  Forall2 (fun a c => m !! a = Some c) P T -> b ∉ P -> Forall2 (fun a c => <[b := v]> m !! a = Some c) P T.
Proof.
  intros H Hb. induction H as [|a c P T E H IH]; constructor.
  - rewrite lookup_insert_ne; [done|]. intros ->. apply Hb. by left.
  - apply IH. intros ?. apply Hb. by right.
Qed.

Lemma mem_delete (m : gmap Z UpTnlCfg) P T b :
  Forall2 (fun a c => m !! a = Some c) P T -> b ∉ P -> Forall2 (fun a c => delete b m !! a = Some c) P T.
Proof.
  intros H Hb. induction H as [|a c P T E H IH]; constructor.
  - rewrite lookup_delete_ne; [done|]. intros ->. apply Hb. by left.
  - apply IH. intros ?. apply Hb. by right.
Qed.

Lemma mem_fresh (m : gmap Z UpTnlCfg) P T b : Forall2 (fun a c => m !! a = Some c) P T -> m !! b = None -> b ∉ P.
Proof.
  intros H Hb Hin. apply list_elem_of_lookup in Hin as [i Hi]. destruct (Forall2_lookup_l _ _ _ _ _ H Hi) as (c & _ & E). congruence.
Qed.

(** Filling a slot with fresh blocks. *)
Lemma fill_spec (m : gmap Z UpTnlCfg) p f1 t b b' mem :
  tnlCfg1 f1 = Some t -> match p with Some a => is_Some (m !! a) | None => True end ->
  fillTnlCfgToAddMod m p f1 (Some b :: Some b' :: mem) =
  Ok (<[b := f1]> match p with Some a => delete a m | None => m end, Some b, mem, ROK).
Proof.
  intros Hf Hp. unfold fillTnlCfgToAddMod.
  assert (E : mk_upTnl (configType f1) (up_cellId f1) (up_ueId f1) (up_drbId f1) (Some t) = f1) by (destruct f1; cbn in *; congruence).
  destruct p as [a|]; [destruct Hp as [v ->]|]; cbn [rbind DU_ALLOC]; rewrite Hf; unfold update; cbn; by rewrite E.
Qed.

(** Blocks of memory that are not in use. *)
Definition unused_mem (du : DuCb) (l : list Z) : Prop :=
  NoDup l /\ Forall (fun a => blocks (egtp du) !! a = None /\ tnlMem du !! a = None) l.

Lemma mgmt_add st M t g p mem : egtp_inv st M -> tnl_teId g = t -> 0 <= t < 2 ^ 32 -> M !! t = None -> blocks st !! p = None ->
  exists st', duSendEgtpTnlMgmtReq st EGTP_TNL_MGMT_ADD 0 g (Some p :: mem) = Ok (st', ROK, mem) /\
    egtp_inv st' (<[t := p]> M) /\ dstIp st' = dstIp st /\
    (forall q, q <> p -> blocks st !! q = None -> blocks st' !! q = None).
Proof.
  intros H <- Ht Hn Hp. unfold duSendEgtpTnlMgmtReq, egtpTnlMgmtReq. cbn [action].
  destruct (egtpTnlAdd_spec st M (tnl_teId g) p mem H Ht Hn Hp) as (st' & E & Hi & Hd).
  change (EGTP_TNL_MGMT_ADD =? EGTP_TNL_MGMT_ADD) with true. cbn [negb]. rewrite E. cbn [rbind]. eauto.
Qed.

Lemma mgmt_del st M t t0 g p mem : egtp_inv st M -> M !! t = Some p -> t0 = t ->
  exists st', duSendEgtpTnlMgmtReq st EGTP_TNL_MGMT_DEL t0 g mem = Ok (st', ROK, mem) /\ egtp_inv st' (delete t M) /\
    dstIp st' = dstIp st /\ (forall q, blocks st !! q = None -> blocks st' !! q = None).
Proof.
  intros H Hp ->. unfold duSendEgtpTnlMgmtReq, egtpTnlMgmtReq. cbn [action].
  destruct (egtpTnlDel_spec st M t p (tnl_teId g) H Hp) as (st' & E & Hi & Hd).
  change (EGTP_TNL_MGMT_DEL =? EGTP_TNL_MGMT_ADD) with false. change (EGTP_TNL_MGMT_DEL =? EGTP_TNL_MGMT_MOD) with false.
  change (EGTP_TNL_MGMT_DEL =? EGTP_TNL_MGMT_DEL) with true. cbn [negb]. rewrite E. cbn [rbind]. eauto.
Qed.

Lemma slots_append (P : list Z) b : (length P < 87)%nat ->
  <[length P := Some b]> ((Some <$> P) ++ replicate (87 - length P) None) =
  (Some <$> (P ++ [b])) ++ replicate (87 - length (P ++ [b])) None.
Proof.
  intros H. rewrite length_app. cbn [length]. replace (87 - length P)%nat with (S (87 - (length P + 1))) by lia.
  rewrite insert_app_r_alt by (rewrite length_fmap; lia). rewrite length_fmap, Nat.sub_diag, fmap_app, <- app_assoc. done.
Qed.

Lemma NoDup_snoc {A} (l : list A) x : NoDup l -> x ∉ l -> NoDup (l ++ [x]).
Proof.
  intros H Hx. apply list.NoDup_app. split; [done|]. split; [|apply NoDup_singleton].
  intros y Hy Hy'. apply list_elem_of_singleton in Hy' as ->. done.
Qed.

(** A new tunnel. *)
Lemma add_tunnel du T f1 g i p a b b' mem :
  tunnels du T -> (length T < 87)%nat -> tnlCfg1 f1 = Some g -> configType f1 = CONFIG_ADD ->
  0 <= teid_of f1 < 2 ^ 32 -> teid_of f1 ∉ teid_of <$> T -> drb_of f1 ∉ drb_of <$> T ->
  blocks (egtp du) !! a = None -> tnlMem du !! b = None ->
  exists du', duProcEgtpTunnelCfg du i p f1 (Some a :: Some b :: Some b' :: mem) = Ok (du', ROK, mem) /\
    tunnels du' (T ++ [f1]) /\ dstIp (egtp du') = dstIp (egtp du) /\
    (forall x, x <> a -> blocks (egtp du) !! x = None -> blocks (egtp du') !! x = None) /\
    (forall x, x <> b -> tnlMem du !! x = None -> tnlMem du' !! x = None).
Proof.
  intros [(P & Ht) Hcfg Hte Hdr (M & Hi & HM)] Hlt Hg Hct Hr Hnew Hnd Ha Hb.
  assert (Eg : teid_of f1 = tnl_teId g) by (unfold teid_of; by rewrite Hg).
  assert (Hn : M !! teid_of f1 = None).
  { destruct (M !! teid_of f1) eqn:E; [|done]. destruct Hnew. apply HM. eauto. }
  unfold duProcEgtpTunnelCfg. rewrite Hg, Hct. cbn [decide]. rewrite decide_True by done.
  destruct (mgmt_add (egtp du) M (teid_of f1) g a (Some b :: Some b' :: mem) Hi (eq_sym Eg) Hr Hn Ha) as (st & -> & Hi' & Hd & Hfr).
  cbn [rbind Z.eqb ROK negb]. destruct (table_length _ _ _ Ht) as [Hl _].
  assert (Hs : slot du (numTeId du) = Ok None).
  { unfold slot. rewrite (tb_num _ _ _ Ht), Nat2Z.id, (tb_slots _ _ _ Ht).
    rewrite lookup_app_r by (by rewrite length_fmap). rewrite length_fmap, Nat.sub_diag, lookup_replicate_2 by lia. done. }
  destruct du as [U n m e]. unfold update in *; cbn [upTnlCfg numTeId tnlMem egtp] in *.
  change (slot (mk_du U n m st) n) with (slot (mk_du U n m e) n). rewrite Hs. cbn [rbind].
  rewrite (fill_spec m None f1 g b b' mem Hg I). cbn [rbind Z.eqb ROK]. eexists. split; [reflexivity|].
  pose proof Ht as [Hsl Hmem Hnp Hle Hnum]. cbn [upTnlCfg numTeId tnlMem egtp] in *.
  split; [split; cbn [upTnlCfg numTeId tnlMem egtp]|split; [done|split]].
  - exists (P ++ [b]). split; cbn [upTnlCfg numTeId tnlMem egtp].
    + rewrite Hnum, Nat2Z.id, Hsl. apply slots_append. lia.
    + apply Forall2_app; [by apply mem_insert, (mem_fresh m P T)|]. constructor; [apply lookup_insert_eq|constructor].
    + apply NoDup_snoc; [done|by apply (mem_fresh m P T)].
    + rewrite length_app. cbn. lia.
    + rewrite length_app, Hnum. cbn [length]. unfold u8. rewrite Z.mod_small; lia.
  - apply Forall_app. split; [done|]. constructor; [by exists g|constructor].
  - rewrite fmap_app. by apply NoDup_snoc.
  - rewrite fmap_app. by apply NoDup_snoc.
  - exists (<[teid_of f1 := a]> M). split; [done|]. intros t. rewrite fmap_app, elem_of_app, <- HM.
    rewrite lookup_insert_is_Some'. cbn. rewrite list_elem_of_singleton. split; intros [H|H]; auto.
  - done.
  - intros x Hx Hxn. by rewrite lookup_insert_ne.
Qed.

Lemma slot_at du (l : list (option Z)) i p : upTnlCfg du = l -> l !! i = Some p -> slot du (Z.of_nat i) = Ok p.
Proof. intros <- H. unfold slot. by rewrite Nat2Z.id, H. Qed.

Lemma lookup_middle_fmap (P1 : list Z) p P2 R : ((Some <$> (P1 ++ p :: P2)) ++ R) !! length P1 = Some (Some p).
Proof.
  rewrite lookup_app_l by (rewrite length_fmap, length_app; cbn; lia).
  by rewrite list_lookup_fmap, list_lookup_middle.
Qed.

(** One turn: the block of the slot is freed and a new one gets the next entry. *)
Lemma shift_turn (m : gmap Z UpTnlCfg) P1 p q P2 T1 c d T2 b :
  Forall2 (fun a c => m !! a = Some c) (P1 ++ p :: q :: P2) (T1 ++ c :: d :: T2) -> length P1 = length T1 ->
  NoDup (P1 ++ p :: q :: P2) -> m !! b = None ->
  Forall2 (fun a c => <[b := d]> (delete p m) !! a = Some c) ((P1 ++ [b]) ++ q :: P2) ((T1 ++ [d]) ++ d :: T2) /\
  NoDup ((P1 ++ [b]) ++ q :: P2).
Proof.
  intros Hm Hl Hnd Hb. pose proof (mem_fresh _ _ _ _ Hm Hb) as Hbn. apply Forall2_app_inv in Hm as [Hm1 Hm2]; [|done].
  apply Forall2_cons_1 in Hm2 as [Hp Hm2]. apply list.NoDup_app in Hnd as (Hn1 & Hd & Hn2). apply list.NoDup_cons in Hn2 as [Hpq Hn2].
  rewrite elem_of_app, elem_of_cons in Hbn. split.
  - rewrite <- !app_assoc. cbn [app]. apply Forall2_app; [|constructor; [apply lookup_insert_eq|]]; apply mem_insert.
    + apply mem_delete; [done|]. intros Hin. apply (Hd p Hin). by left.
    + tauto.
    + by apply mem_delete.
    + tauto.
  - rewrite <- app_assoc. cbn [app]. apply list.NoDup_app. split; [done|]. split; [|apply list.NoDup_cons; tauto].
    intros x Hx Hx'. apply elem_of_cons in Hx' as [->|Hx']; [tauto|]. apply (Hd x Hx). by right.
Qed.

(** The loop that moves the entries forward leaves the last slot to be freed. *)
Lemma shift_spec fuel : forall du P1 T1 p c P2 T2 R l,
  upTnlCfg du = (Some <$> (P1 ++ p :: P2)) ++ R -> NoDup (P1 ++ p :: P2) ->
  Forall2 (fun a c => tnlMem du !! a = Some c) (P1 ++ p :: P2) (T1 ++ c :: T2) -> length P1 = length T1 ->
  Forall (fun c => is_Some (tnlCfg1 c)) T2 -> numTeId du = Z.of_nat (length P1 + length P2) ->
  NoDup l -> Forall (fun a => tnlMem du !! a = None) l -> (2 * length P2 <= length l)%nat -> (length P2 < fuel)%nat ->
  exists du' P2' q v, shift_loop fuel du (Z.of_nat (length P1)) (Some <$> l) =
      Ok (du', Z.of_nat (length P1 + length P2), Some <$> drop (2 * length P2) l, ROK) /\
    upTnlCfg du' = (Some <$> (P1 ++ P2' ++ [q])) ++ R /\ NoDup (P1 ++ P2' ++ [q]) /\ length P2' = length P2 /\
    Forall2 (fun a c => tnlMem du' !! a = Some c) (P1 ++ P2' ++ [q]) (T1 ++ T2 ++ [v]) /\
    numTeId du' = numTeId du /\ egtp du' = egtp du /\ (forall a, a ∈ drop (2 * length P2) l -> tnlMem du' !! a = None).
Proof.
  induction fuel as [|f IH]; intros du P1 T1 p c P2 T2 R l Hu Hnd Hm Hl Hc Hn Hnl Hfr Hen Hfu; [lia|].
  cbn [shift_loop]. rewrite Hn. pose proof (Forall2_length Hm) as Hlen. rewrite !length_app in Hlen. cbn [length] in Hlen.
  destruct P2 as [|q P2].
  - replace (_ <? _) with false by (symmetry; apply Z.ltb_ge; cbn [length]; lia). cbn [length] in *. rewrite Nat.add_0_r.
    destruct T2; [|cbn [length] in *; lia]. exists du, [], p, c. rewrite list.Forall_forall in Hfr. repeat split; try done. lia.
  - replace (_ <? _) with true by (symmetry; apply Z.ltb_lt; cbn [length]; lia). cbn [length] in *.
    destruct T2 as [|d T2]; [cbn [length] in *; lia|]. destruct l as [|b [|b' l]]; [cbn [length] in *; lia..|].
    apply list.Forall_cons in Hc as [[g Hg] Hc]. apply list.Forall_cons in Hfr as [Hb Hfr]. apply list.Forall_cons in Hfr as [Hb' Hfr].
    apply list.NoDup_cons in Hnl as [Hbl Hnl]. apply list.NoDup_cons in Hnl as [Hbl' Hnl].
    destruct (shift_turn _ _ _ _ _ _ _ _ _ b Hm Hl Hnd Hb) as [Hm' Hnd'].
    pose proof Hm as Hm0. apply Forall2_app_inv in Hm0 as [_ Hm0]; [|done]. apply Forall2_cons_1 in Hm0 as [Hp Hm0].
    apply Forall2_cons_1 in Hm0 as [Hq _].
    rewrite (slot_at _ _ _ (Some p) Hu (lookup_middle_fmap _ _ _ _)). cbn [rbind].
    replace (Z.of_nat (length P1) + 1) with (Z.of_nat (length (P1 ++ [p]))) by (rewrite length_app; cbn [length]; lia).
    rewrite (slot_at _ _ (length (P1 ++ [p])) (Some q) Hu).
    2:{ change (p :: q :: P2) with ([p] ++ q :: P2). rewrite app_assoc. apply lookup_middle_fmap. }
    cbn [rbind deref]. rewrite Hq. cbn [rbind fmap list_fmap].
    rewrite (fill_spec (tnlMem du) (Some p) d g b b' (Some <$> l) Hg (ex_intro _ _ Hp)). cbn [rbind Z.eqb ROK negb].
    destruct du as [U n m e]. unfold update; cbn [upTnlCfg numTeId tnlMem egtp] in *.
    set (du1 := mk_du _ _ _ e).
    replace (length (P1 ++ [p])) with (length (P1 ++ [b])) by (rewrite !length_app; done).
    destruct (IH du1 (P1 ++ [b]) (T1 ++ [d]) q d P2 T2 R l) as (du' & P2' & q' & v & E & Hu' & H1 & H2 & H3 & H4 & H5 & H6); try done.
    + unfold du1; cbn [upTnlCfg]. rewrite Nat2Z.id, Hu. rewrite insert_app_l by (rewrite length_fmap, length_app; cbn; lia). f_equal.
      rewrite <- list_fmap_insert. f_equal. rewrite <- app_assoc. cbn [app].
      rewrite insert_app_r_alt by lia. by rewrite Nat.sub_diag.
    + rewrite !length_app. cbn [length]. lia.
    + unfold du1; cbn [numTeId]. rewrite length_app. cbn [length]. lia.
    + unfold du1; cbn [tnlMem]. rewrite list.Forall_forall in Hfr |- *. intros x Hx.
      rewrite lookup_insert_ne by (intros ->; apply Hbl; by right). apply lookup_delete_None. right. by apply Hfr.
    + cbn [length] in Hen; lia.
    + lia.
    + exists du', (b :: P2'), q', v. rewrite E. cbn [rbind].
      rewrite length_app in *. cbn [length] in *. rewrite <- !app_assoc in *. cbn [app] in *.
      replace (length P1 + 1 + length P2)%nat with (length P1 + S (length P2))%nat by lia.
      replace (2 * S (length P2))%nat with (S (S (2 * length P2))) by lia. cbn [drop].
      repeat split; try done; [by rewrite H2|]. by rewrite H4.
Qed.

Lemma NoDup_remove_mid {A} (l1 : list A) x l2 : NoDup (l1 ++ x :: l2) -> NoDup (l1 ++ l2) /\ x ∉ l1 ++ l2.
Proof.
  intros H. apply list.NoDup_app in H as (H1 & H2 & H3). apply list.NoDup_cons in H3 as [H3 H4]. split.
  - apply list.NoDup_app. repeat split; try done. intros y Hy Hy'. apply (H2 y Hy). by right.
  - intros [Hx|Hx]%elem_of_app; [|done]. apply (H2 x Hx). by left.
Qed.

(** Deleting a tunnel: the others keep their order. *)
Lemma del_tunnel du T1 c T2 p l f1 :
  tunnels du (T1 ++ c :: T2) -> slot du (Z.of_nat (length T1)) = Ok p -> configType f1 = CONFIG_DEL -> is_Some (tnlCfg1 f1) ->
  NoDup l -> Forall (fun a => tnlMem du !! a = None) l -> (2 * length T2 <= length l)%nat ->
  exists du' ret, duProcEgtpTunnelCfg du (Z.of_nat (length T1)) p f1 (Some <$> l) = Ok (du', ret, Some <$> drop (2 * length T2) l) /\
    tunnels du' (T1 ++ T2) /\ dstIp (egtp du') = dstIp (egtp du) /\
    (forall x, blocks (egtp du) !! x = None -> blocks (egtp du') !! x = None) /\
    (forall x, x ∈ drop (2 * length T2) l -> tnlMem du' !! x = None).
Proof.
  intros [(P & Ht) Hcfg Hte Hdr (M & Hi & HM)] Hs Hct [g Hg] Hnl Hfr Hen.
  destruct (table_lookup _ _ _ (length T1) c Ht (list_lookup_middle _ _ _ _ eq_refl)) as (a & Ha & Ea).
  rewrite (table_slot _ _ _ _ _ Ht Ha) in Hs. injection Hs as <-.
  apply list.Forall_app in Hcfg as [Hc1 Hc2].
  apply list.Forall_cons in Hc2 as [[g0 Hg0] Hc2]. rewrite fmap_app, fmap_cons in Hte. rewrite fmap_app, fmap_cons in Hdr.
  destruct (NoDup_remove_mid _ _ _ Hte) as [Hte' Hnt]. destruct (NoDup_remove_mid _ _ _ Hdr) as [Hdr' _].
  assert (Et : teid_of c = tnl_teId g0) by (unfold teid_of; by rewrite Hg0).
  destruct (proj2 (HM (teid_of c))) as [q Hq].
  { rewrite fmap_app, fmap_cons. apply elem_of_app. right. by left. }
  unfold duProcEgtpTunnelCfg. rewrite Hg, Hct. rewrite decide_False, decide_False, decide_True by done.
  cbn [deref]. rewrite Ea. cbn [rbind]. rewrite Hg0.
  destruct (mgmt_del (egtp du) M (teid_of c) (tnl_teId g0) g q (Some <$> l) Hi Hq (eq_sym Et)) as (st & -> & Hi' & Hd & Hfr').
  cbn [rbind Z.eqb ROK negb]. pose proof (table_length _ _ _ Ht) as [Hl H87]. pose proof Ht as [Hsl Hmem Hnp Hle Hnum].
  destruct (list_elem_of_split_length P (length T1) a Ha) as (P1 & P2 & -> & Hl1).
  rewrite length_app in Hle, Hnum. rewrite !length_app in Hl. cbn [length] in Hl, Hle, Hnum.
  destruct du as [U n m e]. unfold update; cbn [upTnlCfg numTeId tnlMem egtp] in *.
  assert (Hn' : u8 (n - 1) = Z.of_nat (length P1 + length P2)) by (unfold u8; rewrite Z.mod_small; lia). rewrite Hn'.
  set (R := replicate (87 - _) None) in Hsl. set (du2 := mk_du _ _ _ _). rewrite Hl1.
  assert (Hl2 : length P2 = length T2) by lia. rewrite <- Hl2 in *.
  destruct (shift_spec (S (length U)) du2 P1 T1 a c P2 T2 R l) as (du' & P2' & q' & v & E & Hu' & H1 & H2 & H3 & H4 & H5 & H6); try done; [lia|].
  rewrite E. cbn [rbind Z.eqb ROK negb].
  assert (Hq' : (Some <$> (P1 ++ P2' ++ [q'])) ++ R = (Some <$> ((P1 ++ P2') ++ q' :: [])) ++ R) by (by rewrite <- app_assoc).
  rewrite Hq' in Hu'. replace (length P1 + length P2)%nat with (length (P1 ++ P2')) by (rewrite length_app; lia).
  rewrite (slot_at _ _ _ (Some q') Hu' (lookup_middle_fmap _ _ _ _)). cbn [rbind].
  rewrite (app_assoc P1) in H1, H3. rewrite (app_assoc T1) in H3. pose proof H3 as H3'. apply Forall2_app_inv in H3' as [Hm1 Hm2];
    [|rewrite (length_app P1), (length_app T1); lia].
  apply Forall2_cons_1 in Hm2 as [Hv _]. rewrite Hv. cbn [rbind]. eexists _, _. split; [reflexivity|].
  apply list.NoDup_app in H1 as (Hn1 & Hn2 & _).
  assert (Hqn : q' ∉ P1 ++ P2') by (intros Hin; apply (Hn2 q' Hin); by left).
  destruct du' as [U' n2 m2 e2]. cbn [upTnlCfg numTeId tnlMem egtp] in *. subst n2 e2.
  split; [split; cbn [upTnlCfg numTeId tnlMem egtp]|split; [done|split; [done|]]].
  - exists (P1 ++ P2'). split; cbn [upTnlCfg numTeId tnlMem egtp].
    + rewrite Nat2Z.id, Hu', fmap_app. cbn [fmap list_fmap]. rewrite <- app_assoc.
      rewrite insert_app_r_alt by (rewrite length_fmap; lia). rewrite length_fmap, Nat.sub_diag. cbn [app insert list_insert].
      f_equal. unfold R. rewrite !length_app. cbn [length].
      replace (87 - (length P1 + length P2'))%nat with (S (87 - (length P1 + S (length P2))))%nat by lia. done.
    + by apply mem_delete.
    + done.
    + rewrite length_app. lia.
    + unfold du2. cbn [numTeId]. rewrite length_app. lia.
  - by apply list.Forall_app.
  - by rewrite fmap_app.
  - by rewrite fmap_app.
  - exists (delete (teid_of c) M). split; [done|]. intros t. rewrite lookup_delete_is_Some, HM, !fmap_app, fmap_cons, !elem_of_app, elem_of_cons.
    rewrite elem_of_app in Hnt. split; [intros (Hne & [H|[H|H]]); auto; congruence|].
    intros H. split; [intros <-; tauto|tauto].
  - intros x Hx. apply lookup_delete_None. right. by apply H6.
Qed.

(** What a loop over the table reads at index [length T1]. *)
Lemma table_read du T1 c T2 : tunnels du (T1 ++ c :: T2) ->
  exists a, slot du (Z.of_nat (length T1)) = Ok (Some a) /\ tnlMem du !! a = Some c /\
    (Z.of_nat (length T1) <? numTeId du) = true /\ (length T2 < length (upTnlCfg du))%nat.
Proof.
  intros [(P & Ht) _ _ _ _]. destruct (table_lookup _ _ _ (length T1) c Ht (list_lookup_middle _ _ _ _ eq_refl)) as (a & Ha & Ea).
  destruct (table_length _ _ _ Ht) as [Hl H87]. rewrite length_app in Hl. cbn [length] in Hl. pose proof (tb_len _ _ _ Ht).
  exists a. repeat split; [by apply (table_slot _ _ _ _ _ Ht)|done| |lia]. apply Z.ltb_lt. rewrite (tb_num _ _ _ Ht). lia.
Qed.

Lemma table_end du T : tunnels du T -> (Z.of_nat (length T) <? numTeId du) = false.
Proof.
  intros [(P & Ht) _ _ _ _]. destruct (table_length _ _ _ Ht) as [Hl _]. apply Z.ltb_ge. rewrite (tb_num _ _ _ Ht). lia.
Qed.

Lemma table_room du T : tunnels du T -> length (upTnlCfg du) = 87%nat /\ (length T <= 87)%nat.
Proof. intros [(P & Ht) _ _ _ _]. destruct (table_length _ _ _ Ht) as [Hl H]. pose proof (tb_len _ _ _ Ht). lia. Qed.

(** Marking an entry for deletion. *)
Lemma mark_deleted du T1 c T2 a ct : tunnels du (T1 ++ c :: T2) -> slot du (Z.of_nat (length T1)) = Ok (Some a) ->
  tunnels (du <| tnlMem := <[a := c <| configType := ct |>]> (tnlMem du) |>) (T1 ++ c <| configType := ct |> :: T2).
Proof.
  intros [(P & Ht) Hcfg Hte Hdr He] Hs.
  destruct (table_lookup _ _ _ (length T1) c Ht (list_lookup_middle _ _ _ _ eq_refl)) as (a' & Ha & Ea).
  rewrite (table_slot _ _ _ _ _ Ht Ha) in Hs. injection Hs as ->.
  destruct (list_elem_of_split_length P (length T1) a Ha) as (P1 & P2 & -> & Hl1). destruct Ht as [Hsl Hmem Hnp Hle Hnum].
  apply Forall2_app_inv in Hmem as [Hm1 Hm2]; [|done]. apply Forall2_cons_1 in Hm2 as [_ Hm2].
  destruct (NoDup_remove_mid _ _ _ Hnp) as [_ Hn]. rewrite elem_of_app in Hn.
  assert (Ef : forall A (f : UpTnlCfg -> A), f (c <| configType := ct |>) = f c ->
    f <$> (T1 ++ c <| configType := ct |> :: T2) = f <$> (T1 ++ c :: T2)).
  { intros A f E. by rewrite !fmap_app, !fmap_cons, E. }
  destruct du as [U n m e]. unfold update in *; cbn [upTnlCfg numTeId tnlMem egtp] in *.
  split; cbn [upTnlCfg numTeId tnlMem egtp].
  - exists (P1 ++ a :: P2). split; cbn [upTnlCfg numTeId tnlMem egtp]; try done.
    apply Forall2_app; [apply mem_insert; tauto|]. constructor; [apply lookup_insert_eq|apply mem_insert; tauto].
  - apply list.Forall_app in Hcfg as [H1 H2]. apply list.Forall_cons in H2 as [H2 H3]. apply list.Forall_app. split; [done|].
    by apply list.Forall_cons.
  - by rewrite Ef.
  - by rewrite Ef.
  - destruct He as (M & Hi & HM). exists M. split; [done|]. intros t. by rewrite Ef.
Qed.

Lemma NoDup_dropped {A} n (l : list A) : NoDup l -> NoDup (drop n l).
Proof. intros H. rewrite <- (take_drop n l) in H. by apply list.NoDup_app in H as (_ & _ & H). Qed.

(** The release of a UE leaves the tunnels of the others. *)
Lemma delete_tunnels_spec ueId T2 : forall fuel du T1 l,
  tunnels du (T1 ++ T2) -> NoDup l -> Forall (fun a => tnlMem du !! a = None) l ->
  (2 * length T2 * length T2 <= length l)%nat -> (length T2 <= fuel)%nat ->
  exists du' mem, delete_tunnels fuel du (Z.of_nat (length T1)) ueId (Some <$> l) = Ok (du', mem) /\
    tunnels du' (T1 ++ List.filter (fun c => negb (up_ueId c =? ueId)) T2) /\ dstIp (egtp du') = dstIp (egtp du).
Proof.
  induction T2 as [|c T2 IH]; intros fuel du T1 l Ht Hnl Hfr Hen Hfu.
  - cbn [List.filter]. rewrite app_nil_r in *. exists du, (Some <$> l).
    destruct fuel; cbn [delete_tunnels]; rewrite (table_end _ _ Ht); done.
  - destruct fuel as [|f]; [cbn [length] in *; lia|]. cbn [length] in *. destruct (table_read _ _ _ _ Ht) as (a & Hs & Ea & Hlt & _).
    cbn [delete_tunnels List.filter]. rewrite Hlt, Hs. cbn [rbind deref]. rewrite Ea. cbn [rbind].
    destruct (up_ueId c =? ueId) eqn:Eu; cbn [negb].
    + pose proof (mark_deleted _ _ _ _ _ CONFIG_DEL Ht Hs) as Ht1. set (c' := c <| configType := CONFIG_DEL |>) in *.
      set (du1 := du <| tnlMem := _ |>) in *.
      assert (Hcf : is_Some (tnlCfg1 c')).
      { pose proof (tu_cfg _ _ Ht1) as Hc. apply list.Forall_app in Hc as [_ Hc]. by apply list.Forall_cons in Hc as [Hc _]. }
      assert (Hfr1 : Forall (fun x => tnlMem du1 !! x = None) l).
      { eapply list.Forall_impl; [exact Hfr|]. intros x Hx. unfold du1. destruct du. unfold update; cbn in *.
        rewrite lookup_insert_ne; [done|]. intros ->. congruence. }
      destruct (del_tunnel du1 T1 c' T2 (Some a) l c' Ht1 Hs eq_refl Hcf Hnl Hfr1 ltac:(lia)) as (du2 & ret & E & Ht2 & Hd & _ & Hfr2).
      rewrite E. cbn [rbind].
      destruct (IH f du2 T1 (drop (2 * length T2) l) Ht2) as (du3 & mem & E3 & Ht3 & Hd3); [by apply NoDup_dropped| | |lia|].
      * by apply list.Forall_forall.
      * rewrite length_drop. lia.
      * exists du3, mem. split; [done|]. split; [done|]. rewrite Hd3, Hd. unfold du1. by destruct du.
    + replace (Z.of_nat (length T1) + 1) with (Z.of_nat (length (T1 ++ [c]))) by (rewrite length_app; cbn; lia).
      destruct (IH f du (T1 ++ [c]) l) as (du3 & mem & E3 & Ht3 & Hd3); [by rewrite <- app_assoc|done|done|lia|lia|].
      exists du3, mem. split; [done|]. rewrite <- app_assoc in Ht3. done.
Qed.

(** ** The loops over the table *)

Lemma find_drb_none ueId drbId T2 : forall fuel du T1 found,
  tunnels du (T1 ++ T2) -> (ueId, drbId) ∉ drb_of <$> T2 -> (length T2 < fuel)%nat ->
  find_drb fuel du (Z.of_nat (length T1)) ueId drbId found = Ok (match T2 with [] => found | _ => false end, None).
Proof.
  induction T2 as [|c T2 IH]; intros fuel du T1 found Ht Hn Hf; (destruct fuel as [|f]; [lia|]); cbn [find_drb].
  - rewrite app_nil_r in Ht. by rewrite (table_end _ _ Ht).
  - destruct (table_read _ _ _ _ Ht) as (a & Hs & Ea & Hlt & _). rewrite Hlt, Hs. cbn [rbind deref]. rewrite Ea. cbn [rbind].
    rewrite fmap_cons, elem_of_cons in Hn.
    destruct ((up_ueId c =? ueId) && (up_drbId c =? drbId)) eqn:E; b2p; [destruct Hn; left; unfold drb_of; by subst|].
    replace (Z.of_nat (length T1) + 1) with (Z.of_nat (length (T1 ++ [c]))) by (rewrite length_app; cbn; lia).
    rewrite IH; [by destruct T2|by rewrite <- app_assoc|tauto|cbn [length] in *; lia].
Qed.

(** What the DU adds for a DRB. *)
Definition placed (ueId cellId : Z) (f1 : UpTnlCfg) : UpTnlCfg := f1 <| up_cellId := cellId |> <| up_ueId := ueId |>.

(** New tunnels for DRBs that have none: the TEIDs are not in use, there is room and memory. *)
Record add_ok (T : list UpTnlCfg) (ueId : Z) (tnls : list UpTnlCfg) : Prop := mk_add_ok {
  ao_cfg : Forall (fun f => configType f = CONFIG_ADD /\ is_Some (tnlCfg1 f) /\ 0 <= teid_of f < 2 ^ 32) tnls;
  ao_teid : NoDup (teid_of <$> (T ++ tnls));
  ao_drb : NoDup ((drb_of <$> T) ++ ((fun f => (ueId, up_drbId f)) <$> tnls));
  ao_room : (length T + length tnls <= 87)%nat
}.

Lemma update_loop_spec ueId cellId tnls : forall du T l,
  tunnels du T -> add_ok T ueId tnls -> unused_mem du l -> (3 * length tnls <= length l)%nat ->
  exists du' mem, update_loop du ueId cellId tnls ROK false (Some <$> l) = Ok (du', ROK, mem) /\
    tunnels du' (T ++ (placed ueId cellId <$> tnls)) /\ dstIp (egtp du') = dstIp (egtp du).
Proof.
  induction tnls as [|f tnls IH]; intros du T l Ht [Hcfg Hte Hdr Hro] [Hnl Hfr] Hen.
  - exists du, (Some <$> l). cbn [update_loop fmap list_fmap]. by rewrite app_nil_r.
  - apply list.Forall_cons in Hcfg as [(Hct & [g Hg] & Hr) Hcfg]. cbn [length] in *.
    destruct l as [|a [|b [|b' l]]]; [cbn [length] in *; lia..|].
    rewrite !list.NoDup_cons, !list.Forall_cons in *. destruct Hnl as (Ha1 & Hb1 & Hc1 & Hnl), Hfr as ([Ha _] & [_ Hb] & _ & Hfr).
    rewrite fmap_app, fmap_cons in Hte. rewrite fmap_cons in Hdr. pose proof Hte as Hte0. pose proof Hdr as Hdr0.
    apply NoDup_remove_mid in Hte as [_ Hnt]. apply NoDup_remove_mid in Hdr as [_ Hnd]. rewrite elem_of_app in Hnt. rewrite elem_of_app in Hnd.
    cbn [update_loop]. fold (placed ueId cellId f). destruct (table_room _ _ Ht) as [H87 _].
    assert (Ef : teid_of (placed ueId cellId f) = teid_of f /\ drb_of (placed ueId cellId f) = (ueId, up_drbId f) /\
                 tnlCfg1 (placed ueId cellId f) = Some g /\ configType (placed ueId cellId f) = CONFIG_ADD /\
                 up_drbId (placed ueId cellId f) = up_drbId f) by (destruct f; by cbn in *).
    destruct Ef as (E1 & E2 & E3 & E4 & E5). rewrite E5.
    pose proof (find_drb_none ueId (up_drbId f) T (S (length (upTnlCfg du))) du [] false Ht ltac:(tauto) ltac:(lia)) as Ed.
    cbn [length] in Ed. change (Z.of_nat 0) with 0 in Ed. rewrite Ed. cbn [rbind].
    replace (match T with [] => false | _ => false end) with false by (by destruct T). cbn [negb andb Z.eqb ROK fmap list_fmap].
    destruct (add_tunnel du T (placed ueId cellId f) g 0 None a b b' (Some <$> l) Ht) as (du1 & Ea & Ht1 & Hd1 & Hf1 & Hf2); try done;
      [lia|rewrite E1; tauto|rewrite E2; tauto|]. rewrite Ea. cbn [rbind Z.eqb ROK negb].
    destruct (IH du1 (T ++ [placed ueId cellId f]) l Ht1) as (du' & mem & Er & Ht' & Hd').
    + split; [done| | |rewrite length_app; cbn [length]; lia].
      * rewrite !fmap_app, <- app_assoc. cbn [fmap list_fmap app]. by rewrite E1.
      * rewrite !fmap_app, <- app_assoc. cbn [fmap list_fmap app]. by rewrite E2.
    + split; [done|]. rewrite list.Forall_forall in Hfr |- *. intros x Hx. destruct (Hfr x Hx) as [Hx1 Hx2].
      rewrite !elem_of_cons in Ha1. rewrite !elem_of_cons in Hb1. split; [apply Hf1|apply Hf2]; try done; intros ->; tauto.
    + cbn [length] in Hen. lia.
    + exists du', mem. split; [done|]. rewrite <- app_assoc in Ht'. split; [done|]. by rewrite Hd'.
Qed.

Definition dl_target (t : Z) (T : list UpTnlCfg) : option (Z * Z * Z) :=
  (fun c => (up_cellId c, up_ueId c, up_drbId c)) <$> List.find (fun c => teid_of c =? t) T.

Lemma fill_dl_spec t T2 : forall fuel du T1, tunnels du (T1 ++ T2) -> (length T2 < fuel)%nat ->
  fill_dl_loop fuel du (Z.of_nat (length T1)) t = Ok (dl_target t T2).
Proof.
  induction T2 as [|c T2 IH]; intros fuel du T1 Ht Hf; (destruct fuel as [|f]; [lia|]); cbn [fill_dl_loop].
  - rewrite app_nil_r in Ht. by rewrite (table_end _ _ Ht).
  - destruct (table_read _ _ _ _ Ht) as (a & Hs & Ea & Hlt & _). rewrite Hlt, Hs. cbn [rbind deref]. rewrite Ea. cbn [rbind].
    pose proof (tu_cfg _ _ Ht) as Hc. apply list.Forall_app in Hc as [_ Hc]. apply list.Forall_cons in Hc as [[g Hg] _].
    unfold dl_target. cbn [List.find]. unfold teid_of at 1. rewrite Hg. destruct (tnl_teId g =? t); [done|].
    replace (Z.of_nat (length T1) + 1) with (Z.of_nat (length (T1 ++ [c]))) by (rewrite length_app; cbn; lia).
    apply IH; [by rewrite <- app_assoc|cbn [length] in *; lia].
Qed.

Definition ul_teid (ueId rbId teId0 : Z) (T : list UpTnlCfg) : Z :=
  match List.find (fun c => (up_ueId c =? ueId) && (up_drbId c =? rbId)) T with Some c => teid_of c | None => teId0 end.

Lemma ul_teid_spec ueId rbId teId0 T2 : forall fuel du T1, tunnels du (T1 ++ T2) -> (length T2 < fuel)%nat ->
  ul_teid_loop fuel du (Z.of_nat (length T1)) ueId rbId teId0 = Ok (ul_teid ueId rbId teId0 T2).
Proof.
  induction T2 as [|c T2 IH]; intros fuel du T1 Ht Hf; (destruct fuel as [|f]; [lia|]); cbn [ul_teid_loop].
  - rewrite app_nil_r in Ht. by rewrite (table_end _ _ Ht).
  - destruct (table_read _ _ _ _ Ht) as (a & Hs & Ea & Hlt & _). rewrite Hlt, Hs. cbn [rbind deref]. rewrite Ea. cbn [rbind].
    pose proof (tu_cfg _ _ Ht) as Hc. apply list.Forall_app in Hc as [_ Hc]. apply list.Forall_cons in Hc as [[g Hg] _].
    unfold ul_teid. cbn [List.find]. destruct (_ && _); [unfold teid_of; by rewrite Hg|].
    replace (Z.of_nat (length T1) + 1) with (Z.of_nat (length (T1 ++ [c]))) by (rewrite length_app; cbn; lia).
    apply IH; [by rewrite <- app_assoc|cbn [length] in *; lia].
Qed.

(** ** Operations of the DU *)

Inductive du_op : Type :=
| DuAdd (ueId cellId : Z) (tnls : list UpTnlCfg) (l : list Z)
| DuRelease (ueId : Z) (l : list Z)
| DuUl (ueId rbId : Z) (data : list Z) (teId0 : Z)
| DuDl (h : EgtpMsgHdr) (len : Z) (Msg : list Z) (h0 : EgtpMsgHdr) (t0 t1 t2 t3 t4 : Z).

Definition du_step (du : DuCb) (op : du_op) : res (DuCb * list du_event) :=
  match op with
  | DuAdd ueId cellId tnls l => let* (du, _, _) := duUpdateTunnelCfgDb du ueId cellId tnls (Some <$> l) in Ok (du, [])
  | DuRelease ueId l => let* (du, _) := delete_tunnels (length (upTnlCfg du)) du 0 ueId (Some <$> l) in Ok (du, [])
  | DuUl ueId rbId data teId0 => let* (du, _, ev) := DuProcRlcUlUserDataTrans du ueId rbId data teId0 true in Ok (du, ev)
  | DuDl h len Msg h0 t0 t1 t2 t3 t4 =>
    let* (_, ev) := egtpHdlRecvData du h0 t0 t1 t2 t3 t4 (wire_header h len ++ Msg) true in Ok (du, ev)
  end.

(** The specification: a list of tunnels. *)
Definition du_spec (ip : Z) (T : list UpTnlCfg) (op : du_op) : list UpTnlCfg * list du_event :=
  match op with
  | DuAdd ueId cellId tnls _ => (T ++ (placed ueId cellId <$> tnls), [])
  | DuRelease ueId _ => (List.filter (fun c => negb (up_ueId c =? ueId)) T, [])
  | DuUl ueId rbId data _ =>
    (T, match List.find (fun c => (up_ueId c =? ueId) && (up_drbId c =? rbId)) T with
        | Some c => [Egtp (UdpSend ip EGTP_RECVR_PORT (gpdu_bytes (teid_of c) data false false 0 0))]
        | None => []
        end)
  | DuDl h _ Msg _ _ _ _ _ _ =>
    (T, match dl_target (em_teId h) T with
        | Some (cell, ue, drb) => [DlUserData cell ue drb (u16 (Z.of_nat (length Msg))) Msg]
        | None => []
        end)
  end.

(** What the operations need: the stale TEID of a packet without a tunnel is not in use. *)
Definition du_ok (du : DuCb) (T : list UpTnlCfg) (op : du_op) : Prop :=
  match op with
  | DuAdd ueId _ tnls l => add_ok T ueId tnls /\ unused_mem du l /\ (3 * length tnls <= length l)%nat
  | DuRelease _ l => unused_mem du l /\ (2 * length T * length T <= length l)%nat
  | DuUl ueId rbId data teId0 =>
    Z.of_nat (length data) < 2 ^ 16 /\ ((ueId, rbId) ∈ drb_of <$> T \/ teId0 ∉ teid_of <$> T)
  | DuDl h _ _ _ _ _ _ _ _ => header_wf h
  end.

Lemma find_drb_tunnel T ueId rbId : (ueId, rbId) ∈ drb_of <$> T ->
  exists c, List.find (fun c => (up_ueId c =? ueId) && (up_drbId c =? rbId)) T = Some c /\ c ∈ T.
Proof.
  intros (c & E & Hin)%list_elem_of_fmap. unfold drb_of in E. injection E as -> ->.
  induction Hin as [x l|x y l Hin IH]; cbn [List.find].
  - rewrite !Z.eqb_refl. cbn [andb]. eexists. split; [done|]. by left.
  - destruct (_ && _); [eexists; split; [done|]; by left|]. destruct IH as (c & E & Hc). exists c. split; [done|]. by right.
Qed.

Lemma ul_step du T ueId rbId data teId0 :
  tunnels du T -> du_ok du T (DuUl ueId rbId data teId0) ->
  exists du', du_step du (DuUl ueId rbId data teId0) = Ok (du', snd (du_spec (dstIp (egtp du)) T (DuUl ueId rbId data teId0))) /\
    tunnels du' T /\ dstIp (egtp du') = dstIp (egtp du).
Proof.
  intros Ht [Hlen Hid]. cbn [du_step du_spec snd]. unfold DuProcRlcUlUserDataTrans. destruct (table_room _ _ Ht) as [H87 Hle].
  pose proof (ul_teid_spec ueId rbId teId0 T (S (length (upTnlCfg du))) du [] Ht ltac:(lia)) as Eu.
  cbn [length] in Eu. change (Z.of_nat 0) with 0 in Eu. rewrite Eu. cbn [rbind negb]. clear Eu. unfold ul_teid.
  pose proof Ht as [Htab Hcfg Hte Hdr (M & Hi & HM)].
  change (mk_emh _ _ _ _ ?t _) with (preDefHdr t).
  destruct (List.find _ T) as [c|] eqn:Ef.
  - apply find_some in Ef as [Hin _]. destruct (proj2 (HM (teid_of c))) as [p Hp].
    { apply list_elem_of_fmap. exists c. split; [done|]. by apply list_elem_of_In. }
    destruct (egtpHdlDatInd_spec (egtp du) M (teid_of c) p data Hi Hp Hlen) as (st & -> & Hi' & Hd & _). cbn [rbind].
    eexists. split; [reflexivity|]. destruct du as [U n m e]. unfold update; cbn [egtp upTnlCfg numTeId tnlMem] in *.
    split; [|done]. split; try done. + by destruct Htab as (P & []); exists P. + by exists M.
  - assert (Hno : M !! teId0 = None).
    { destruct (M !! teId0) eqn:E; [|done]. destruct Hid as [Hid|Hid]; [|destruct Hid; apply HM; by eexists].
      apply find_drb_tunnel in Hid as (c & E' & _). congruence. }
    unfold egtpHdlDatInd. cbn [msgHdr em_teId preDefHdr]. pose proof (find_tunnel_spec _ _ teId0 Hi) as Hf. rewrite Hno in Hf.
    rewrite Hf. cbn [rbind]. eexists. split; [reflexivity|]. destruct du. done.
Qed.

(** Each operation does what the specification says. *)
Lemma du_step_refines du T op : tunnels du T -> du_ok du T op ->
  exists du', du_step du op = Ok (du', snd (du_spec (dstIp (egtp du)) T op)) /\
    tunnels du' (fst (du_spec (dstIp (egtp du)) T op)) /\ dstIp (egtp du') = dstIp (egtp du).
Proof.
  intros Ht Hok. destruct op as [ueId cellId tnls l|ueId l|ueId rbId data teId0|h len Msg h0 t0 t1 t2 t3 t4].
  - destruct Hok as (Ha & Hm & Hl). destruct (update_loop_spec ueId cellId tnls du T l Ht Ha Hm Hl) as (du' & mem & E & Ht' & Hd).
    exists du'. cbn [du_step du_spec fst snd]. unfold duUpdateTunnelCfgDb. by rewrite E.
  - destruct Hok as ([Hnl Hfr] & Hl). destruct (table_room _ _ Ht) as [H87 Hle].
    destruct (delete_tunnels_spec ueId T (length (upTnlCfg du)) du [] l Ht Hnl) as (du' & mem & E & Ht' & Hd); [|done|lia|].
    { eapply list.Forall_impl; [exact Hfr|]. by intros x [_ Hx]. }
    exists du'. cbn [du_step du_spec fst snd]. cbn [length] in E. change (Z.of_nat 0) with 0 in E. by rewrite E.
  - by apply ul_step.
  - exists du. cbn [du_step du_spec fst snd]. unfold egtpHdlRecvData. rewrite (egtpDecodeHdr_spec h0 t0 t1 t2 t3 t4 h len Msg Hok).
    cbn [rbind]. unfold duHdlEgtpDlData, duBuildAndSendDlUserDataToRlc, fillDlUserDataInfo. cbn [negb msgHdr msg decoded em_teId].
    destruct (table_room _ _ Ht) as [H87 Hle].
    pose proof (fill_dl_spec (em_teId h) T (S (length (upTnlCfg du))) du [] Ht ltac:(lia)) as Ed.
    cbn [length] in Ed. change (Z.of_nat 0) with 0 in Ed. rewrite Ed. cbn [rbind].
    destruct (dl_target (em_teId h) T) as [[[cell ue] drb]|]; done.
Qed.

Fixpoint du_run (du : DuCb) (ops : list du_op) : res (DuCb * list du_event) :=
  match ops with
  | [] => Ok (du, [])
  | op :: ops => let* (du, ev) := du_step du op in let* (du, ev') := du_run du ops in Ok (du, ev ++ ev')
  end.

Fixpoint du_spec_run (ip : Z) (T : list UpTnlCfg) (ops : list du_op) : list UpTnlCfg * list du_event :=
  match ops with
  | [] => (T, [])
  | op :: ops => let '(T, ev) := du_spec ip T op in let '(T, ev') := du_spec_run ip T ops in (T, ev ++ ev')
  end.

(** The conditions along a run. *)
Fixpoint du_ops_ok (du : DuCb) (T : list UpTnlCfg) (ops : list du_op) : Prop :=
  match ops with
  | [] => True
  | op :: ops => du_ok du T op /\
    match du_step du op with Ok (du', _) => du_ops_ok du' (fst (du_spec 0 T op)) ops | _ => False end
  end.

Lemma du_spec_state ip ip' T op : fst (du_spec ip T op) = fst (du_spec ip' T op).
Proof. by destruct op. Qed.

Lemma du_run_refines ops : forall du T, tunnels du T -> du_ops_ok du T ops ->
  exists du', du_run du ops = Ok (du', snd (du_spec_run (dstIp (egtp du)) T ops)) /\
    tunnels du' (fst (du_spec_run (dstIp (egtp du)) T ops)) /\ dstIp (egtp du') = dstIp (egtp du).
Proof.
  induction ops as [|op ops IH]; intros du T Ht Hok; [by exists du|]. cbn [du_ops_ok du_run du_spec_run] in *.
  destruct Hok as [Hop Hok]. destruct (du_step_refines du T op Ht Hop) as (du1 & E & Ht1 & Hd1). rewrite E in Hok |- *. cbn [rbind].
  rewrite (du_spec_state 0 (dstIp (egtp du))) in Hok. destruct (du_spec _ T op) as [T1 ev]. cbn [fst snd] in *.
  destruct (IH du1 T1 Ht1 Hok) as (du2 & E2 & Ht2 & Hd2). rewrite E2. cbn [rbind]. rewrite Hd1 in *.
  destruct (du_spec_run _ T1 ops) as [T2 ev2]. cbn [fst snd] in *. exists du2. split; [done|]. split; [done|congruence].
Qed.

(** ** TEIDs in F1AP *)

Lemma u8_shiftr t k : 0 <= k -> u8 (Z.shiftr t k) = t / 2 ^ k mod 256.
Proof. intros H. unfold u8. by rewrite Z.shiftr_div_pow2. Qed.

Lemma teid_to_du t : 0 <= t < 2 ^ 32 -> teIdStringToInt (INT32_TO_BUFFER t) = t.
Proof.
  intros Ht. unfold teIdStringToInt, INT32_TO_BUFFER. rewrite !u8_shiftr by lia. change (u8 t) with (t mod 256).
  unfold buf_get. change (Z.to_nat 0) with 0%nat. change (Z.to_nat 1) with 1%nat. change (Z.to_nat 2) with 2%nat.
  change (Z.to_nat 3) with 3%nat. cbn [lookup list_lookup default]. unfold id.
  rewrite !u32_small; [by apply be32_read|..]; rewrite Z.shiftl_mul_pow2 by lia;
    match goal with |- context [?x mod 256] => pose proof (is_byte_mod x) as Hb; unfold is_byte in Hb; lia end.
Qed.

(** The answer of the DU has the lower 24 bits of its TEID. *)
Lemma teid_to_cu t : 0 <= t < 2 ^ 32 -> BUFFER_TO_INT32 (fillGtpTunnelforDl t) = t mod 2 ^ 24.
Proof.
  intros Ht. assert (E : fillGtpTunnelforDl t = [0; t / 2 ^ 16 mod 256; t / 2 ^ 8 mod 256; t mod 256]).
  { unfold fillGtpTunnelforDl, fillTeIdString. cbn [fill_teid_loop Z.ltb Z.compare Pos.compare Pos.compare_cont TEID_BIT_SIZE Z.add Pos.add].
    change (2 ^ 8 - 1) with 255. rewrite !(Z.land_comm 255), !land_255. unfold buf_set. rewrite !u8_mod, !Z.shiftr_div_pow2, Z.div_1_r by lia.
    reflexivity. }
  rewrite E. unfold BUFFER_TO_INT32, buf_get. change (Z.to_nat 0) with 0%nat. change (Z.to_nat 1) with 1%nat. change (Z.to_nat 2) with 2%nat.
  change (Z.to_nat 3) with 3%nat. cbn [lookup list_lookup default]. unfold id.
  rewrite lor_bytes by (apply is_byte_mod || done). rewrite u32_small.
  - Z.to_euclidean_division_equations. lia.
  - pose proof (is_byte_mod t). pose proof (is_byte_mod (t / 2 ^ 8)). pose proof (is_byte_mod (t / 2 ^ 16)). unfold is_byte in *. lia.
Qed.

(** ** Keeping a tunnel *)

Definition du_leaves (ueId : Z) (op : du_op) : Prop := match op with DuRelease u _ => u <> ueId | _ => True end.

Lemma du_spec_keeps ip T ops c : Forall (du_leaves (up_ueId c)) ops -> c ∈ T -> c ∈ fst (du_spec_run ip T ops).
Proof.
  revert T. induction ops as [|op ops IH]; intros T Hl Hc; [done|]. apply list.Forall_cons in Hl as [Hop Hl]. cbn [du_spec_run].
  destruct (du_spec ip T op) as [T1 ev] eqn:E. destruct (du_spec_run ip T1 ops) as [T2 ev2] eqn:E2. cbn [fst].
  change T2 with (fst (T2, ev2)). rewrite <- E2. apply IH; [done|]. destruct op; cbn in E; injection E as <- <-; try done.
  - apply elem_of_app. by left.
  - apply list_elem_of_In, filter_In. split; [by apply list_elem_of_In|]. cbn in Hop. apply negb_true_iff, Z.eqb_neq. congruence.
Qed.

Lemma find_unique {A} (f : A -> bool) (l : list A) c : c ∈ l -> f c = true ->
  (forall x, x ∈ l -> f x = true -> x = c) -> List.find f l = Some c.
Proof.
  intros Hc Hf Hu. destruct (List.find f l) as [x|] eqn:E.
  - apply find_some in E as [Hx Fx]. f_equal. apply Hu; [by apply list_elem_of_In|done].
  - apply list_elem_of_In in Hc. by rewrite (find_none _ _ E c Hc) in Hf.
Qed.

Lemma dl_target_tunnel du T c : tunnels du T -> c ∈ T -> dl_target (teid_of c) T = Some (up_cellId c, up_ueId c, up_drbId c).
Proof.
  intros Ht Hc. unfold dl_target. rewrite (find_unique _ T c); [done|done|apply Z.eqb_refl|].
  intros x Hx E%Z.eqb_eq. by apply (NoDup_fmap_elem teid_of T x c (tu_teid _ _ Ht)).
Qed.

Lemma ul_tunnel du T c : tunnels du T -> c ∈ T ->
  List.find (fun x => (up_ueId x =? up_ueId c) && (up_drbId x =? up_drbId c)) T = Some c.
Proof.
  intros Ht Hc. apply find_unique; [done|by rewrite !Z.eqb_refl|]. intros x Hx [E1%Z.eqb_eq E2%Z.eqb_eq]%andb_prop.
  apply (NoDup_fmap_elem drb_of T x c (tu_drb _ _ Ht)); [done..|]. unfold drb_of. congruence.
Qed.

Lemma ul_returns_ok du ueId rbId m t d r ev : DuProcRlcUlUserDataTrans du ueId rbId m t true = Ok (d, r, ev) -> r = ROK.
Proof. unfold DuProcRlcUlUserDataTrans. intros H. bind_ok H. cbn [negb] in H. bind_ok H. destruct x0 as [[st ?] ?]. by injection H. Qed.

(** What the DU does with a packet of the tunnel. *)
Lemma du_uplink du T c Msg teId0 : tunnels du T -> c ∈ T -> Z.of_nat (length Msg) < 2 ^ 16 ->
  exists du', DuProcRlcUlUserDataTrans du (up_ueId c) (up_drbId c) Msg teId0 true =
    Ok (du', ROK, [Egtp (UdpSend (dstIp (egtp du)) EGTP_RECVR_PORT (gpdu_bytes (teid_of c) Msg false false 0 0))]).
Proof.
  intros Ht Hc Hl. destruct (ul_step du T (up_ueId c) (up_drbId c) Msg teId0 Ht) as (du' & E & _).
  { split; [done|]. left. apply list_elem_of_fmap. by exists c. }
  cbn [du_step du_spec snd] in E. rewrite (ul_tunnel _ _ _ Ht Hc) in E. bind_ok E. destruct x as [[d r] ev].
  injection E as -> ->. exists du'. by rewrite (ul_returns_ok _ _ _ _ _ _ _ _ E0) in E0.
Qed.

Lemma du_downlink du T c Msg h0 t0 t1 t2 t3 t4 : tunnels du T -> c ∈ T -> 0 <= teid_of c < 2 ^ 32 -> Z.of_nat (length Msg) < 2 ^ 16 ->
  egtpHdlRecvData du h0 t0 t1 t2 t3 t4 (gpdu_bytes (teid_of c) Msg false false 0 0) true =
  Ok (ROK, [DlUserData (up_cellId c) (up_ueId c) (up_drbId c) (Z.of_nat (length Msg)) Msg]).
Proof.
  intros Ht Hc Hr Hl. rewrite gpdu_wire by done.
  destruct (du_step_refines du T (DuDl (preDefHdr (teid_of c)) (Z.of_nat (length Msg)) Msg h0 t0 t1 t2 t3 t4) Ht) as (du' & E & _);
    [by apply preDefHdr_wf|].
  cbn [du_step du_spec snd em_teId preDefHdr] in E. change (mk_emh _ _ _ _ _ _) with (preDefHdr (teid_of c)) in E.
  rewrite (dl_target_tunnel _ _ _ Ht Hc), u16_small in E by lia. bind_ok E. destruct x as [r ev]. injection E as _ ->.
  assert (Er : r = ROK).
  { unfold egtpHdlRecvData in E0. bind_ok E0. bind_ok E0. destruct x0. by injection E0. }
  by rewrite <- Er.
Qed.

(** Packets of a bearer between the CU and the DU: those that the CU sends for the UE [r] and the
    bearer [b] reach RLC at the DU for [ueId], and the other way PDCP at the CU. *)
Definition f1u_conveys (sendto : Z -> Z -> Z -> list Z -> Z) (g : gtpEndPoints) (i o r b ip port : Z)
  (du : DuCb) (cellId ueId du_ip : Z) : Prop :=
  forall Msg, Z.of_nat (length Msg) <= 65524 ->
  (exists g1 dg, gtpv1uSend2 sendto g i (mk_data_req Msg (Z.of_nat (length Msg)) 0 r b) false false = Ok (g1, [SendTo i ip port dg]) /\
     forall h0 t0 t1 t2 t3 t4, egtpHdlRecvData du h0 t0 t1 t2 t3 t4 dg true =
       Ok (ROK, [DlUserData cellId ueId b (Z.of_nat (length Msg)) Msg])) /\
  (forall teId0, exists du1 dg, DuProcRlcUlUserDataTrans du ueId b Msg teId0 true =
       Ok (du1, ROK, [Egtp (UdpSend du_ip EGTP_RECVR_PORT dg)]) /\
     forall stack sin_port s_addr, exists g2, gtpv1uReceiver sendto g i stack dg (Z.of_nat (length dg)) sin_port s_addr =
       Ok (g2, [CallBack Cb_cu_f1u_data_req o r (u8 b) (Z.of_nat (length Msg)) Msg])).

Lemma tunnels_convey_du sendto i o g A r b x d du T c :
  state_of i o g A -> tunnels du T -> A !! (r, b) = Some (x, d) -> c ∈ T -> up_drbId c = b ->
  teid_outgoing x = teid_of c -> teid_incoming x = teid_of c -> callBack d = Cb_cu_f1u_data_req -> incoming_rb_id d = u8 b ->
  f1u_conveys sendto g i o r b (outgoing_ip_addr x) (u16 (outgoing_port x)) du (up_cellId c) (up_ueId c) (dstIp (egtp du)).
Proof.
  intros H Ht HA Hc Hb Eo Ei Ecb Erb Msg Hlen. pose proof H as (Hrep & Ho & Hco).
  pose proof (rep_ok _ _ Hrep _ _ _ _ HA) as [Htr Hrn]. split.
  - set (req := mk_data_req Msg (Z.of_nat (length Msg)) 0 r b).
    assert (Hreq : req_bytes req = Ok Msg) by (unfold req_bytes, req; cbn; by rewrite Z.leb_refl, Nat2Z.id, firstn_all).
    destruct (send_step sendto i o g A req false false H) as (g1 & out & A1 & E & Hs & _); [cbn; by rewrite Hreq|].
    cbn [gtp_step] in E. bind_ok E. destruct x0 as [g2 ev]. injection E as -> <-.
    inversion Hs as [| | | | |? ? ? y dy M HA2 HM| | |]; subst; [|cbn in *; congruence].
    cbn [req_rnti req_rab_id req] in HA2. rewrite HA in HA2. injection HA2 as <- <-. rewrite Hreq in HM. injection HM as <-.
    eexists g1, _. split; [exact E0|]. intros. rewrite Eo. cbn [counted]. apply du_downlink with T; try done; lia.
  - intros teId0. rewrite <- Hb. destruct (du_uplink du T c Msg teId0 Ht Hc ltac:(lia)) as [du1 E]. eexists du1, _. split; [exact E|].
    intros stack sp sa. eexists. rewrite receive_gpdu by (lia || (rewrite <- Ei; lia)).
    rewrite (proj2 (rep_lookup_te _ _ Hrep (teid_of c) ltac:(lia) d)) by (exists r, b, x; by rewrite Ei).
    rewrite Ecb, Ho, Hrn, Erb, Hb. done.
Qed.

(** The tunnel of the CU after it has created it and taken over the TEID of the answer. *)
Lemma cu_tunnel sendto i o gc Ac r b du_addr du_port rc :
  state_of i o gc Ac -> ipv4 du_addr -> op_ok Ac (OpCreate r b b 0xFFFF du_addr du_port Cb_cu_f1u_data_req rc) ->
  exists gc1 tc rc', newGtpuCreateTunnel gc i r b b 0xFFFF du_addr du_port Cb_cu_f1u_data_req rc = Ok (gc1, tc, rc') /\
    0 <= tc < 2 ^ 32 /\
    forall td, exists Ac1, state_of i o (GtpuUpdateTunnelOutgoingTeid gc1 i r b td) Ac1 /\
      Ac1 !! (r, b) = Some (mk_bearer tc td (of_le32 (tla_buffer du_addr)) (replicate 16 0) (u16 du_port) 0 0,
                            mk_rntiData r (u8 b) Cb_cu_f1u_data_req (u8 b)) /\
      forall ops, ops_ok i o Ac1 ops -> Forall (leaves r b) ops ->
        exists gc2 outs A2 x, gtp_run sendto i (GtpuUpdateTunnelOutgoingTeid gc1 i r b td) ops = Ok (gc2, outs) /\ state_of i o gc2 A2 /\
          A2 !! (r, b) = Some (x, mk_rntiData r (u8 b) Cb_cu_f1u_data_req (u8 b)) /\
          teid_incoming x = tc /\ teid_outgoing x = td /\ outgoing_ip_addr x = of_le32 (tla_buffer du_addr) /\ outgoing_port x = u16 du_port.
Proof.
  intros Hc Hip Hok. destruct (created i o gc Ac r b b 0xFFFF du_addr du_port Cb_cu_f1u_data_req rc Hc Hok Hip) as (gc1 & tc & rc' & x & E & Hx & Hs).
  exists gc1, tc, rc'. split; [done|].
  pose proof (rep_ok _ _ (proj1 Hs) _ _ _ _ (lookup_insert_eq _ _ _)) as [Ht _]. rewrite Hx in Ht. cbn [teid_incoming] in Ht.
  split; [lia|]. intros td. destruct (update_step sendto i o gc1 _ r b td Hs) as (gc2 & out & A & Eu & Hsp & Hs2).
  cbn [gtp_step] in Eu. injection Eu as Eg <-.
  inversion Hsp as [|? ? ? y d HA| ? ? ? HA | | | | | |]; subst; rewrite lookup_insert_eq in HA; [|done]. injection HA as <- <-.
  eexists. split; [exact Hs2|]. split; [by rewrite lookup_insert_eq|]. intros ops Hops Hl.
  destruct (run_keeps sendto i o _ _ ops r b _ _ Hs2 Hops Hl (lookup_insert_eq _ _ _)) as (gc3 & outs & A3 & z & Er & Hs3 & HA3 & (R1 & R2 & R3 & R4)).
  cbn in R1, R2, R3, R4. exists gc3, outs, A3, z.
  split; [exact Er|]. split; [exact Hs3|]. split; [exact HA3|]. repeat split; congruence.
Qed.

(** C20. The set-up of a bearer between the CU of OAI and the O-DU. The CU creates a tunnel and
    sends its TEID in F1AP, the DU reads it, adds the tunnel to its table and to EGTP and answers
    with its TEID, and the CU takes over the answer. If the TEID of the CU is below 2^24
    ([large_teid_dl_lost]) and not in use at the DU, then every packet that the CU sends on the
    bearer is handed to RLC for the cell, UE and DRB, and every packet that RLC hands to the DU is
    handed to PDCP at the CU for the UE and bearer, unchanged. This holds at once and stays true
    after further operations that leave the bearer alone: at the CU tunnels of other bearers
    created once each and redirected, other UEs removed, packets sent and received; at the DU
    tunnels of other bearers added, other UEs released, packets in both directions. Not among
    them: releasing, redirecting or creating anew this bearer, [newGtpuDeleteTunnels] at the CU,
    and CONFIG_MOD at the DU, which breaks its tables ([modified_entry_dangles],
    [modified_tunnel_not_found]). *)
Theorem odu_f1u (sendto : Z -> Z -> Z -> list Z -> Z) (i o : Z) (gc : gtpEndPoints)
  (Ac : gmap (Z * Z) (gtpv1u_bearer_t * rntiData_t)) (r b : Z) (du_addr : transport_layer_addr_t) (du_port : Z) (rc : list (Z * Z))
  (du : DuCb) (T : list UpTnlCfg) (cellId ueId ul dl : Z) (l : list Z) :
  state_of i o gc Ac -> ipv4 du_addr -> op_ok Ac (OpCreate r b b 0xFFFF du_addr du_port Cb_cu_f1u_data_req rc) ->
  tunnels du T -> (length T < 87)%nat -> (ueId, b) ∉ drb_of <$> T -> unused_mem du l -> (3 <= length l)%nat ->
  exists gc1 tc rc',
    newGtpuCreateTunnel gc i r b b 0xFFFF du_addr du_port Cb_cu_f1u_data_req rc = Ok (gc1, tc, rc') /\
    (tc < 2 ^ 24 -> tc ∉ teid_of <$> T ->
     let t := teIdStringToInt (INT32_TO_BUFFER tc) in
     let gc2 := GtpuUpdateTunnelOutgoingTeid gc1 i r b (BUFFER_TO_INT32 (fillGtpTunnelforDl t)) in
     exists du1 mem Ac1 T1,
       duUpdateTunnelCfgDb du ueId cellId [mk_upTnl CONFIG_ADD 0 0 b (Some (mk_gtpTnl ul dl t))] (Some <$> l) = Ok (du1, ROK, mem) /\
       state_of i o gc2 Ac1 /\ tunnels du1 T1 /\
       forall opsc opsd, ops_ok i o Ac1 opsc -> du_ops_ok du1 T1 opsd -> Forall (leaves r b) opsc -> Forall (du_leaves ueId) opsd ->
         exists gc3 outc du2 outd,
           gtp_run sendto i gc2 opsc = Ok (gc3, outc) /\ du_run du1 opsd = Ok (du2, outd) /\
           f1u_conveys sendto gc3 i o r b (of_le32 (tla_buffer du_addr)) (u16 (u16 du_port)) du2 cellId ueId (dstIp (egtp du))).
Proof.
  intros Hc Hip Hok Ht Hlt Hnd Hm Hl.
  destruct (cu_tunnel sendto i o gc Ac r b du_addr du_port rc Hc Hip Hok) as (gc1 & tc & rc' & E & Htc & Hcu).
  exists gc1, tc, rc'. split; [done|]. intros H24 Hnew. cbv zeta. rewrite (teid_to_du tc Htc), (teid_to_cu tc Htc), Z.mod_small by lia.
  set (f1 := mk_upTnl _ _ _ _ _). set (c := placed ueId cellId f1).
  destruct (update_loop_spec ueId cellId [f1] du T l Ht) as (du1 & mem & Eu & Ht1 & Hd1); [|done|cbn [length]; lia|].
  { split.
    - constructor; [|constructor]. split; [done|]. split; [by eexists|]. unfold f1, teid_of; cbn; lia.
    - rewrite fmap_app. apply NoDup_snoc; [apply (tu_teid _ _ Ht)|done].
    - apply NoDup_snoc; [apply (tu_drb _ _ Ht)|done].
    - cbn [length]. lia. }
  destruct (Hcu tc) as (Ac1 & Hs1 & HA1 & Hrun). exists du1, mem, Ac1, (T ++ [c]). split; [done|]. split; [done|]. split; [done|].
  intros opsc opsd Hopc Hopd Hlc Hld. destruct (Hrun opsc Hopc Hlc) as (gc3 & outc & A3 & x & Er & Hs3 & HA3 & R1 & R2 & R3 & R4).
  destruct (du_run_refines opsd du1 _ Ht1 Hopd) as (du2 & Ed & Ht2 & Hd2). eexists gc3, outc, du2, _. split; [done|]. split; [exact Ed|].
  rewrite <- R3, <- R4, <- Hd1, <- Hd2.
  apply (tunnels_convey_du sendto i o gc3 A3 r b x _ du2 _ c Hs3 Ht2 HA3); try done.
  apply du_spec_keeps; [done|]. apply elem_of_app. right. by left.
Qed.

Lemma tunnels_start st cfg : tunnels (mk_du (replicate 87 None) 0 ∅ (fst (egtpCfgReq st cfg true))) [].
Proof.
  split; [|constructor|constructor|constructor|].
  - exists []. split; [done|constructor|by apply NoDup_nil_2|cbn; lia|done].
  - exists ∅. split; [|intros t; rewrite lookup_empty; split; [by intros []|by intros ?%not_elem_of_nil]]. split.
    + unfold egtpCfgReq. cbn [egtp]. pose proof (cmHashListInit_rep (teid_key (blocks st)) 1024 ltac:(lia)) as Hr.
      destruct (cmHashListInit 1024 false true) as [lst ret]. exact Hr.
    + intros t p Hp. by rewrite lookup_empty in Hp.
Qed.


(** ** Witnesses *)

Definition a_cfg : EgtpConfig := mk_egtpCfg 0x7f000001 39001 0x0a000001 39002 1 10.
Definition egtp_zero : EgtpGlobalCb :=
  mk_egtpCb (mk_egtpCfg 0 0 0 0 0 0) (0, 0) 0 0 (0, 0) 0 (mk_hlist [] 0 CM_HASH_NOBITMASK 0 0 false) ∅.
Definition a_du : DuCb := mk_du (replicate 87 None) 0 ∅ (fst (egtpCfgReq egtp_zero a_cfg true)).

Lemma odu_f1u_witness :
  exists gc3 du2,
    f1u_conveys no_sendto gc3 7 3 0x1234 2 (of_le32 (tla_buffer a_remote)) (u16 (u16 2152)) du2 1 5 (dstIp (egtp a_du)).
Proof.
  destruct (odu_f1u no_sendto 7 3 gtp_up ∅ 0x1234 2 a_remote 2152 [(41, 7)] a_du [] 1 5 0 0 [100; 200; 300]) as (gc1 & tc & rc' & E & H).
  - apply gtp_up_state.
  - reflexivity.
  - apply a_create_ok. repeat constructor; cbn; unfold RAND_MAX; lia.
  - apply tunnels_start.
  - cbn. lia.
  - apply not_elem_of_nil.
  - split; [apply (bool_decide_unpack _); vm_compute; exact I|]. repeat constructor.
  - cbn. lia.
  - assert (Etc : tc = 49) by (vm_compute in E; congruence). subst tc. clear E.
    destruct (H ltac:(lia) (not_elem_of_nil _)) as (du1 & mem & Ac1 & T1 & _ & _ & _ & Hops).
    destruct (Hops [] [] I I (list.Forall_nil_2 _) (list.Forall_nil_2 _)) as (gc3 & outc & du2 & outd & _ & _ & Hcv).
    exists gc3, du2. exact Hcv.
Defined.

Definition a_tnl : UpTnlCfg := mk_upTnl CONFIG_ADD 0 0 2 (Some (mk_gtpTnl 0 0 49)).
Definition a_run : list du_op := [DuAdd 5 1 [a_tnl] [100; 200; 300]; DuUl 5 2 [1; 2; 3] 0; DuRelease 5 [400; 500]].

(** Evaluate the step that the conditions of a run look at. *)
Ltac eval_step :=
  match goal with |- match ?s with _ => _ end => let v := eval vm_compute in s in change s with v; cbv iota beta end.

