(* ===== verification/OduMsg.v ===== *)
(** The message buffers of the O-DU: [mt/ss_msg.c].

    A message is a chain of message blocks, each a window into a data block.  Data blocks are
    counted and shared between messages ([DupMsg]), so they are in a memory that all messages use.
    The address of a data block is that of the message block that it was allocated with.  What the
    allocator returns comes from a stream: an address with the content of the data buffer, or
    nothing.  The build has no checks of parameters ([NO_ERRCLS]), [SS_MULTICORE_SUPPORT] and
    [SS_M_PROTO_REGION] are set and [LONG_MSG] is not, so that a length has 16 bits.  A lock per
    data block protects its counter; the operations are translated as they run under it. *)

From S2P Require Import Prelude CmHash.

(** Conversion to a 16-bit signed integer. *)
Definition i16 (z : Z) : Z := (z + 2 ^ 15) mod 2 ^ 16 - 2 ^ 15.

(** ** Data *)

(** [db_base] to [db_lim], the counter (8 bits) and whether the block was ever shared. *)
Record SsDblk := mk_dblk { db_data : list Z; db_ref : Z; shared : bool }.

(** [b_rptr] and [b_wptr] as offsets from [db_base]. *)
Record SsMblk := mk_mblk { b_id : Z; b_datap : Z; b_rptr : nat; b_wptr : nat }.
#[global] Instance mblk_eta : Eta SsMblk := fun r => mk_mblk (b_id r) (b_datap r) (b_rptr r) (b_wptr r).

Record Mem := mk_mem { dblks : gmap Z SsDblk; avail : list (option (Z * list Z)) }.

(** The message header with its [SsMsgInfo]; the chain is the list of the blocks behind [b_cont]. *)
Record Msg := mk_msg { region : Z; b_cont : list SsMblk; len : Z; endptr : option Z }.
#[global] Instance msg_eta : Eta Msg := fun r => mk_msg (region r) (b_cont r) (len r) (endptr r).

Definition dblk (m : Mem) (b : SsMblk) : res SsDblk :=
  match dblks m !! b_datap b with None => Fault UseAfterFree | Some d => Ok d end.

Definition set_dblk (m : Mem) (a : Z) (d : SsDblk) : Mem := mk_mem (<[a := d]> (dblks m)) (avail m).

(** The size of a window. *)
Definition b_size (b : SsMblk) : nat := b_wptr b - b_rptr b.

Definition window (d : SsDblk) (b : SsMblk) : list Z := take (b_size b) (drop (b_rptr b) (db_data d)).

(** [SMemCpy] of [src] to offset [off] of a data block. *)
Definition put_bytes (d : SsDblk) (off : nat) (src : list Z) : SsDblk := mk_dblk (buf_write (db_data d) off src) (db_ref d) (shared d).

(** ** Blocks *)

Definition SAlloc (m : Mem) : option (Z * list Z) * Mem :=
  match avail m with
  | [] => (None, m)
  | a :: rest => (a, mk_mem (dblks m) rest)
  end.

Definition SGetDBuf (m : Mem) : option SsMblk * Mem :=
  match SAlloc m with
  | (None, m) => (None, m)
  | (Some (a, buf), m) => (Some (mk_mblk a a 0 0), set_dblk m a (mk_dblk buf 1 false))
  end.

(** The block of a message block that [DupMsg] made is freed with its own, unused, data block. *)
Definition SPutDBuf (m : Mem) (b : SsMblk) : res Mem :=
  let* d := dblk m b in
  if negb (shared d) then
    (* what is freed is the message block, with the size of the data block *)
    if b_id b =? b_datap b then Ok (mk_mem (delete (b_datap b) (dblks m)) (avail m)) else Fault Inconsistent
  else
    let ref := u8 (db_ref d - 1) in
    if ref =? 0 then Ok (mk_mem (delete (b_datap b) (dblks m)) (avail m))
    else Ok (set_dblk m (b_datap b) (mk_dblk (db_data d) ref (shared d))).

Definition DupMsg (m : Mem) (b : SsMblk) : res (option SsMblk * Mem) :=
  match SAlloc m with
  | (None, m) => Ok (None, m)
  | (Some (a, _), m) =>
    let* d := dblk m b in
    Ok (Some (b <| b_id := a |>), set_dblk m (b_datap b) (mk_dblk (db_data d) (u8 (db_ref d + 1)) true))
  end.

Fixpoint put_blocks (m : Mem) (l : list SsMblk) : res Mem :=
  match l with
  | [] => Ok m
  | b :: rest => let* m := SPutDBuf m b in put_blocks m rest
  end.

(** The block with the given address, and the blocks before and behind it. *)
Fixpoint split_at_id (e : Z) (l : list SsMblk) : option (list SsMblk * SsMblk * list SsMblk) :=
  match l with
  | [] => None
  | b :: rest =>
    if b_id b =? e then Some ([], b, rest)
    else match split_at_id e rest with None => None | Some (l1, x, l2) => Some (b :: l1, x, l2) end
  end.

(** The last block, through [endptr]. *)
Definition last_block (mb : Msg) : res (option (list SsMblk * SsMblk * list SsMblk)) :=
  match endptr mb with
  | None => Ok None
  | Some e => match split_at_id e (b_cont mb) with None => Fault UseAfterFree | Some r => Ok (Some r) end
  end.

(** The address of the last block of a chain. *)
Definition last_id (l : list SsMblk) : option Z := match list.last l with None => None | Some b => Some (b_id b) end.

(** ** Messages *)

Definition SGetMsg (m : Mem) (reg : Z) : option Msg * Mem :=
  match SAlloc m with
  | (None, m) => (None, m)
  | (Some _, m) => (Some (mk_msg reg [] 0 None), m)
  end.

Definition SPutMsg (m : Mem) (mb : Msg) : res Mem := put_blocks m (b_cont mb).

Definition SFndLenMsg (mb : Msg) : Z := len mb.

(** [*--tmp->b_rptr = data] for the first block. *)
Definition write_front (m : Mem) (mb : Msg) (x : Z) : res (Mem * Msg * Z) :=
  match b_cont mb with
  | [] => Fault NullDeref
  | b :: rest =>
    let* d := dblk m b in
    if (b_rptr b =? 0)%nat then Fault OutOfBounds
    else
      let off := (b_rptr b - 1)%nat in
      Ok (set_dblk m (b_datap b) (put_bytes d off [u8 x]),
          mb <| b_cont := b <| b_rptr := off |> :: rest |> <| len := i16 (len mb + 1) |>, ROK)
  end.

(** Whether the first block has room in front of it and is not shared. *)
Definition front_room (m : Mem) (mb : Msg) : res bool :=
  match b_cont mb with
  | [] => Ok false
  | b :: _ => let* d := dblk m b in Ok (negb ((db_ref d >? 1) || (b_rptr b =? 0)%nat))
  end.

Definition SAddPreMsg (m : Mem) (x : Z) (mb : Msg) : res (Mem * Msg * Z) :=
  if len mb =? 0x7FFF then Ok (m, mb, ROUTRES)
  else
    let* room := front_room m mb in
    if room : bool then write_front m mb x
    else
      match SGetDBuf m with
      | (None, m) => Ok (m, mb, ROUTRES)
      | (Some newb, m) =>
        let* d := dblk m newb in
        let newb := newb <| b_wptr := length (db_data d) |> <| b_rptr := length (db_data d) |> in
        write_front m (mb <| b_cont := newb :: b_cont mb |>
                          <| endptr := match b_cont mb with [] => Some (b_id newb) | _ => endptr mb end |>) x
      end.

(** [*tmp->b_wptr++ = data] for the last block. *)
Definition write_back (m : Mem) (mb : Msg) (x : Z) : res (Mem * Msg * Z) :=
  let* lb := last_block mb in
  match lb with
  | None => Fault NullDeref
  | Some (l1, b, l2) =>
    let* d := dblk m b in
    if (b_wptr b <? length (db_data d))%nat
    then Ok (set_dblk m (b_datap b) (put_bytes d (b_wptr b) [u8 x]),
             mb <| b_cont := l1 ++ b <| b_wptr := S (b_wptr b) |> :: l2 |> <| len := i16 (len mb + 1) |>, ROK)
    else Fault OutOfBounds
  end.

Definition SAddPstMsg (m : Mem) (x : Z) (mb : Msg) : res (Mem * Msg * Z) :=
  let* lb := last_block mb in
  let* room := match lb with
               | None => Ok false
               | Some (_, b, _) => let* d := dblk m b in Ok (negb ((db_ref d >? 1) || (b_wptr b =? length (db_data d))%nat))
               end in
  if room : bool then write_back m mb x
  else
    match SGetDBuf m with
    | (None, m) => Ok (m, mb, ROUTRES)
    | (Some newb, m) =>
      let l := match lb with Some (l1, b, _) => l1 ++ [b] | None => [] end in
      write_back m (mb <| b_cont := l ++ [newb] |> <| endptr := Some (b_id newb) |>) x
    end.

(** The loop of [SAddPreMsgMult] over new blocks: each is filled from its end, and they are
    stacked; without memory those allocated so far are freed. *)
Fixpoint alloc_pre (fuel : nat) (m : Mem) (src : list Z) (stack : list SsMblk) : res (option (list SsMblk) * Mem) :=
  match src with
  | [] => Ok (Some stack, m)
  | _ =>
    match fuel with
    | O => Fault FuelExhausted
    | S f =>
      match SGetDBuf m with
      | (None, m) => let* m := put_blocks m stack in Ok (None, m)
      | (Some cur, m) =>
        let* d := dblk m cur in
        let lim := length (db_data d) in
        let n := Nat.min (length src) lim in
        let m := set_dblk m (b_datap cur) (put_bytes d (lim - n) (rev (take n src))) in
        alloc_pre f m (drop n src) (cur <| b_wptr := lim |> <| b_rptr := (lim - n)%nat |> :: stack)
      end
    end
  end.

(** The first block takes what fits in front of it: the memory, the block, and what is left. *)
Definition fill_front (m : Mem) (b : SsMblk) (src : list Z) : res (Mem * SsMblk * list Z * nat) :=
  let* d := dblk m b in
  if (db_ref d =? 1) && negb (b_rptr b =? 0)%nat then
    let n := Nat.min (length src) (b_rptr b) in
    Ok (set_dblk m (b_datap b) (put_bytes d (b_rptr b - n) (rev (take n src))), b <| b_rptr := (b_rptr b - n)%nat |>, drop n src, b_rptr b)
  else Ok (m, b, src, 0%nat).

(** [tmp->b_rptr = tmp->b_datap->db_base + offset] for the first block, if there is one. *)
Definition set_front (offset : nat) (blocks : list SsMblk) : list SsMblk :=
  match blocks with [] => [] | b :: l => b <| b_rptr := offset |> :: l end.

(** The bytes are put before the message one after the other.  If there is no memory the read
    pointer of the first block is set to [offset], which is 0 when the block was not written to. *)
Definition SAddPreMsgMult (m : Mem) (src : list Z) (mb : Msg) : res (Mem * Msg * Z) :=
  let cnt := Z.of_nat (length src) in
  let* (m, blocks, rest, offset) :=
    match b_cont mb return res (Mem * list SsMblk * list Z * nat) with
    | [] => Ok (m, [], src, 0%nat)
    | b :: l => let* (m, b, rest, offset) := fill_front m b src in Ok (m, b :: l, rest, offset)
    end in
  if negb (offset =? 0)%nat && (length rest =? 0)%nat
  then Ok (m, mb <| b_cont := blocks |> <| len := i16 (len mb + cnt) |>, ROK)
  else
    let* (stack, m) := alloc_pre (length rest) m rest [] in
    match stack with
    | None => Ok (m, mb <| b_cont := set_front offset blocks |>, ROUTRES)
    | Some [] => Fault NullDeref (* [newblk->b_cont] without bytes to add *)
    | Some (b :: l) =>
      let e := match blocks with [] => last_id (b :: l) | _ => endptr mb end in
      Ok (m, mb <| b_cont := (b :: l) ++ blocks |> <| endptr := e |> <| len := i16 (len mb + cnt) |>, ROK)
    end.

(** The same with the bytes in the order of the source, through which [revSrc] goes backwards: the
    bytes still to be put are those before it. *)
Fixpoint alloc_pre_in_order (fuel : nat) (m : Mem) (src : list Z) (stack : list SsMblk) : res (option (list SsMblk) * Mem) :=
  match src with
  | [] => Ok (Some stack, m)
  | _ =>
    match fuel with
    | O => Fault FuelExhausted
    | S f =>
      match SGetDBuf m with
      | (None, m) => let* m := put_blocks m stack in Ok (None, m)
      | (Some cur, m) =>
        let* d := dblk m cur in
        let lim := length (db_data d) in
        let n := Nat.min (length src) lim in
        let revSrc := (length src - n)%nat in
        let m := set_dblk m (b_datap cur) (put_bytes d (lim - n) (drop revSrc src)) in
        alloc_pre_in_order f m (take revSrc src) (cur <| b_wptr := lim |> <| b_rptr := (lim - n)%nat |> :: stack)
      end
    end
  end.

Definition fill_front_in_order (m : Mem) (b : SsMblk) (src : list Z) : res (Mem * SsMblk * list Z * nat) :=
  let* d := dblk m b in
  if (db_ref d =? 1) && negb (b_rptr b =? 0)%nat then
    let n := Nat.min (length src) (b_rptr b) in
    let revSrc := (length src - n)%nat in
    Ok (set_dblk m (b_datap b) (put_bytes d (b_rptr b - n) (drop revSrc src)), b <| b_rptr := (b_rptr b - n)%nat |>, take revSrc src, b_rptr b)
  else Ok (m, b, src, 0%nat).

Definition SAddPreMsgMultInOrder (m : Mem) (src : list Z) (mb : Msg) : res (Mem * Msg * Z) :=
  let cnt := Z.of_nat (length src) in
  let* (m, blocks, rest, offset) :=
    match b_cont mb return res (Mem * list SsMblk * list Z * nat) with
    | [] => Ok (m, [], src, 0%nat)
    | b :: l => let* (m, b, rest, offset) := fill_front_in_order m b src in Ok (m, b :: l, rest, offset)
    end in
  if negb (offset =? 0)%nat && (length rest =? 0)%nat
  then Ok (m, mb <| b_cont := blocks |> <| len := i16 (len mb + cnt) |>, ROK)
  else
    let* (stack, m) := alloc_pre_in_order (length rest) m rest [] in
    match stack with
    | None => Ok (m, mb <| b_cont := set_front offset blocks |>, ROUTRES)
    | Some [] => Fault NullDeref
    | Some (b :: l) =>
      let e := match blocks with [] => last_id (b :: l) | _ => endptr mb end in
      Ok (m, mb <| b_cont := (b :: l) ++ blocks |> <| endptr := e |> <| len := i16 (len mb + cnt) |>, ROK)
    end.

Fixpoint alloc_pst (fuel : nat) (m : Mem) (src : list Z) (chain : list SsMblk) : res (option (list SsMblk) * Mem) :=
  match src with
  | [] => Ok (Some chain, m)
  | _ =>
    match fuel with
    | O => Fault FuelExhausted
    | S f =>
      match SGetDBuf m with
      | (None, m) => let* m := put_blocks m chain in Ok (None, m)
      | (Some cur, m) =>
        let* d := dblk m cur in
        let n := Nat.min (length src) (length (db_data d)) in
        let m := set_dblk m (b_datap cur) (put_bytes d 0 (take n src)) in
        alloc_pst f m (drop n src) (chain ++ [cur <| b_wptr := n |>])
      end
    end
  end.

Definition fill_back (m : Mem) (b : SsMblk) (src : list Z) : res (Mem * SsMblk * list Z * nat) :=
  let* d := dblk m b in
  let room := (length (db_data d) - b_wptr b)%nat in
  if (db_ref d =? 1) && negb (room =? 0)%nat then
    let n := Nat.min (length src) room in
    Ok (set_dblk m (b_datap b) (put_bytes d (b_wptr b) (take n src)), b <| b_wptr := (b_wptr b + n)%nat |>, drop n src, room)
  else Ok (m, b, src, 0%nat).

(** If there is no memory the write pointer of the last block is set to [offset] before its end. *)
Definition SAddPstMsgMult (m : Mem) (src : list Z) (mb : Msg) : res (Mem * Msg * Z) :=
  let cnt := Z.of_nat (length src) in
  let* lb := last_block mb in
  match lb with
  | None =>
    let* (chain, m) := alloc_pst (length src) m src [] in
    match chain with
    | None => Ok (m, mb, ROUTRES)
    | Some chain => Ok (m, mb <| b_cont := chain |> <| endptr := last_id chain |> <| len := i16 (len mb + cnt) |>, ROK)
    end
  | Some (l1, b, l2) =>
    let* (m, b, rest, offset) := fill_back m b src in
    if negb (offset =? 0)%nat && (length rest =? 0)%nat
    then Ok (m, mb <| b_cont := l1 ++ b :: l2 |> <| len := i16 (len mb + cnt) |>, ROK)
    else
      let* (chain, m) := alloc_pst (length rest) m rest [] in
      match chain with
      | None =>
        let* d := dblk m b in
        Ok (m, mb <| b_cont := l1 ++ b <| b_wptr := (length (db_data d) - offset)%nat |> :: l2 |>, ROUTRES)
      | Some chain =>
        Ok (m, mb <| b_cont := l1 ++ b :: chain |> <| endptr := last_id chain |> <| len := i16 (len mb + cnt) |>, ROK)
      end
  end.

(** The result has the byte that was removed. *)
Definition SRemPreMsg (m : Mem) (mb : Msg) : res (Mem * Msg * Z * list Z) :=
  match b_cont mb with
  | [] => Ok (m, mb, ROKDNA, [])
  | b :: rest =>
    let* d := dblk m b in
    match db_data d !! b_rptr b with
    | None => Fault OutOfBounds
    | Some x =>
      let b := b <| b_rptr := S (b_rptr b) |> in
      let* (m, l) := if (b_rptr b =? b_wptr b)%nat then let* m := SPutDBuf m b in Ok (m, rest) else Ok (m, b :: rest) in
      let n := i16 (len mb - 1) in
      Ok (m, mb <| b_cont := l |> <| len := n |> <| endptr := if n =? 0 then None else endptr mb |>, ROK, [x])
    end
  end.

Definition SRemPstMsg (m : Mem) (mb : Msg) : res (Mem * Msg * Z * list Z) :=
  let* lb := last_block mb in
  match lb with
  | None => Ok (m, mb, ROKDNA, [])
  | Some (l1, b, l2) =>
    let* d := dblk m b in
    if (b_wptr b =? 0)%nat then Fault OutOfBounds
    else
      let b := b <| b_wptr := (b_wptr b - 1)%nat |> in
      match db_data d !! b_wptr b with
      | None => Fault OutOfBounds
      | Some x =>
        let* (m, l, e) :=
          if (b_rptr b =? b_wptr b)%nat
          then let* m := SPutDBuf m b in Ok (m, l1, last_id l1)
          else Ok (m, l1 ++ b :: l2, endptr mb) in
        Ok (m, mb <| b_cont := l |> <| len := i16 (len mb - 1) |> <| endptr := e |>, ROK, [x])
      end
  end.

(** The loop of [SRemPreMsgMult]: a block that is not used up ends it. *)
Fixpoint rem_pre_loop (m : Mem) (l : list SsMblk) (cnt : nat) : res (Mem * list SsMblk * list Z) :=
  match cnt with
  | O => Ok (m, l, [])
  | _ =>
    match l with
    | [] => Fault NullDeref
    | b :: rest =>
      let* d := dblk m b in
      let n := Nat.min cnt (b_size b) in
      let out := take n (drop (b_rptr b) (db_data d)) in
      let b' := b <| b_rptr := (b_rptr b + n)%nat |> in
      if (b_rptr b' =? b_wptr b')%nat then
        let* m := SPutDBuf m b' in
        let* (m, l, out') := rem_pre_loop m rest (cnt - n) in
        Ok (m, l, out ++ out')
      else Ok (m, b' :: rest, out)
    end
  end.

Definition SRemPreMsgMult (m : Mem) (cnt : Z) (mb : Msg) : res (Mem * Msg * Z * list Z) :=
  if len mb <? cnt then Ok (m, mb, ROKDNA, [])
  else
    let n := i16 (len mb - cnt) in
    let* (m, l, out) := rem_pre_loop m (b_cont mb) (Z.to_nat cnt) in
    Ok (m, mb <| b_cont := l |> <| len := n |> <| endptr := if n =? 0 then None else endptr mb |>, ROK, out).

(** [FIND_OFFSET_AND_PREV]: the blocks before the one with the offset, that one and the rest, and
    the offset in it. *)
Fixpoint find_offset (l : list SsMblk) (idx : nat) : res (list SsMblk * list SsMblk * nat) :=
  match idx with
  | O => Ok ([], l, 0%nat)
  | _ =>
    match l with
    | [] => Fault NullDeref
    | b :: rest =>
      if (idx <? b_size b)%nat then Ok ([], l, idx)
      else let* (l1, l2, i) := find_offset rest (idx - b_size b) in Ok (b :: l1, l2, i)
    end
  end.

(** The loop of [SRemPstMsgMult]: all blocks from the one with the offset on lose what is behind
    [count]; the bytes are written backwards into the destination. *)
Fixpoint rem_pst_loop (m : Mem) (l : list SsMblk) (count cnt : nat) (out : list Z) : res (Mem * list SsMblk * list Z) :=
  match cnt with
  | O => Ok (m, l, out)
  | _ =>
    match l with
    | [] => Fault NullDeref
    | b :: rest =>
      let* d := dblk m b in
      let n := Nat.min cnt (b_size b - count) in
      let b' := b <| b_wptr := (b_wptr b - n)%nat |> in
      let out := rev (take n (drop (b_wptr b') (db_data d))) ++ out in
      if (b_rptr b' =? b_wptr b')%nat then
        let* m := SPutDBuf m b' in rem_pst_loop m rest 0 (cnt - n) out
      else
        let* (m, rest, out) := rem_pst_loop m rest 0 (cnt - n) out in
        Ok (m, b' :: rest, out)
    end
  end.

Definition SRemPstMsgMult (m : Mem) (cnt : Z) (mb : Msg) : res (Mem * Msg * Z * list Z) :=
  if len mb <? cnt then Ok (m, mb, ROKDNA, [])
  else
    let n := i16 (len mb - cnt) in
    let* (l1, l2, count) := find_offset (b_cont mb) (Z.to_nat n) in
    let* (m, l2, out) := rem_pst_loop m l2 count (Z.to_nat cnt) [] in
    Ok (m, mb <| b_cont := l1 ++ l2 |> <| len := n |> <| endptr := last_id (l1 ++ l2) |>, ROK, out).

Definition SExamMsg (m : Mem) (mb : Msg) (idx : Z) : res (Z * list Z) :=
  if len mb <=? idx then Ok (ROKDNA, [])
  else
    let* (_, l, i) := find_offset (b_cont mb) (Z.to_nat idx) in
    match l with
    | [] => Fault NullDeref
    | b :: _ => let* d := dblk m b in
                match db_data d !! (b_rptr b + i)%nat with None => Fault OutOfBounds | Some x => Ok (ROK, [x]) end
    end.

(** The loop of [SCpyMsgFix], from offset [i] of the first block on. *)
Fixpoint copy_loop (m : Mem) (l : list SsMblk) (i cnt : nat) : res (list Z) :=
  match cnt, l with
  | O, _ => Ok []
  | _, [] => Ok []
  | _, b :: rest =>
    let* d := dblk m b in
    let n := Nat.min cnt (b_size b - i) in
    let* out := copy_loop m rest 0 (cnt - n) in
    Ok (take n (drop (b_rptr b + i) (db_data d)) ++ out)
  end.

Definition SCpyMsgFix (m : Mem) (mb : Msg) (srcIdx cnt : Z) : res (Z * list Z) :=
  if len mb <? srcIdx + cnt then Ok (ROKDNA, [])
  else
    let* (_, l, i) := find_offset (b_cont mb) (Z.to_nat srcIdx) in
    match l with
    | [] => Fault NullDeref
    | _ => let* out := copy_loop m l i (Z.to_nat cnt) in Ok (ROK, out)
    end.

(** The loop of [SCpyMsgMsg]: without memory the copies are freed. *)
Fixpoint dup_chain (m : Mem) (l done_ : list SsMblk) : res (option (list SsMblk) * Mem) :=
  match l with
  | [] => Ok (Some done_, m)
  | b :: rest =>
    let* (c, m) := DupMsg m b in
    match c with
    | None => let* m := put_blocks m done_ in Ok (None, m)
    | Some c => dup_chain m rest (done_ ++ [c])
    end
  end.

Definition SCpyMsgMsg (m : Mem) (src : Msg) (reg : Z) : res (Mem * option Msg * Z) :=
  match SGetMsg m reg with
  | (None, m) => Ok (m, None, RFAILED)
  | (Some dst, m) =>
    let* (l, m) := dup_chain m (b_cont src) [] in
    match l with
    | None => let* m := SPutMsg m dst in Ok (m, None, ROUTRES)
    | Some l => Ok (m, Some (dst <| len := len src |> <| endptr := last_id l |> <| b_cont := l |>), ROK)
    end
  end.

(** The chain and [endptr] of the first message with the blocks of the second attached; [M1M2] is 0
    and [M2M1] is 1, another order is refused. *)
Definition link_chains (mb1 newb : Msg) (order : Z) : res (option (list SsMblk * option Z)) :=
  match b_cont mb1 with
  | [] => Ok (Some (b_cont newb, endptr newb))
  | l =>
    if order =? 0 then
      let* lb := last_block mb1 in
      match lb with None => Fault NullDeref | Some (l1, b, _) => Ok (Some (l1 ++ b :: b_cont newb, endptr newb)) end
    else if order =? 1 then
      let* lb := last_block newb in
      match lb with None => Fault NullDeref | Some (l1, b, _) => Ok (Some (l1 ++ b :: l, endptr mb1)) end
    else Ok None
  end.

(** The result is the two messages. *)
Definition SCatMsg (m : Mem) (mb1 mb2 : Msg) (order : Z) : res (Mem * Msg * Msg * Z) :=
  match b_cont mb2 with
  | [] => Ok (m, mb1, mb2, ROK)
  | _ =>
    let* (m, newb, copied) :=
      if region mb1 =? region mb2 then Ok (m, Some mb2, false)
      else let* (m, c, ret) := SCpyMsgMsg m mb2 (region mb1) in Ok (m, c, true) in
    match newb with
    | None => Ok (m, mb1, mb2, RFAILED)
    | Some newb =>
      let* r := link_chains mb1 newb order in
      match r with
      | None => let* m := if copied : bool then SPutMsg m newb else Ok m in Ok (m, mb1, mb2, RFAILED)
      | Some (l, e) =>
        let mb1 := mb1 <| b_cont := l |> <| endptr := e |> <| len := i16 (len mb1 + len newb) |> in
        let* m := if copied : bool then put_blocks m (b_cont mb2) else Ok m in
        Ok (m, mb1, mb2 <| b_cont := [] |> <| endptr := None |> <| len := 0 |>, ROK)
      end
    end
  end.

(** The second message has what is behind the index. *)
Definition SSegMsg (m : Mem) (mb1 : Msg) (idx : Z) : res (Mem * Msg * option Msg * Z) :=
  if len mb1 <=? idx then Ok (m, mb1, None, ROKDNA)
  else
    match SGetMsg m (region mb1) with
    | (None, m) => Ok (m, mb1, None, RFAILED)
    | (Some mb2, m) =>
      let n2 := i16 (len mb1 - idx) in
      if idx =? 0 then
        Ok (m, mb1 <| len := idx |> <| endptr := None |> <| b_cont := [] |>,
            Some (mb2 <| len := n2 |> <| endptr := endptr mb1 |> <| b_cont := b_cont mb1 |>), ROK)
      else
        let* (l1, l2, i) := find_offset (b_cont mb1) (Z.to_nat idx) in
        if (i =? 0)%nat then
          Ok (m, mb1 <| len := idx |> <| b_cont := l1 |> <| endptr := last_id l1 |>,
              Some (mb2 <| len := n2 |> <| b_cont := l2 |> <| endptr := endptr mb1 |>), ROK)
        else
          match l2 with
          | [] => Fault NullDeref
          | tmp :: rest =>
            let* (next, m) := DupMsg m tmp in
            match next with
            | None => Ok (m, mb1 <| len := i16 (idx + n2) |>, None, ROUTRES)
            | Some next =>
              let tmp' := tmp <| b_wptr := (b_rptr tmp + i)%nat |> in
              let next := next <| b_rptr := (b_rptr next + i)%nat |> in
              Ok (m, mb1 <| len := idx |> <| b_cont := l1 ++ [tmp'] |>
                         <| endptr := match rest with [] => endptr mb1 | _ => Some (b_id tmp') end |>,
                  Some (mb2 <| len := n2 |> <| b_cont := next :: rest |>
                            <| endptr := match rest with [] => Some (b_id next) | _ => endptr mb1 end |>), ROK)
            end
          end
    end.

(** Insertion of a fixed buffer at an index: reversed at the front, in order elsewhere. *)
Definition SCpyFixMsg (m : Mem) (src : list Z) (mb : Msg) (dstIdx : Z) : res (Mem * Msg * Z) :=
  if len mb <? dstIdx then Ok (m, mb, RFAILED)
  else if dstIdx =? 0 then SAddPreMsgMult m src mb
  else if len mb =? dstIdx then SAddPstMsgMult m src mb
  else
    let* (m, mb, rgt, ret) := SSegMsg m mb dstIdx in
    match rgt with
    | None => Ok (m, mb, ret)
    | Some rgt =>
      let* (m, mb, ret) := SAddPstMsgMult m src mb in
      if negb (ret =? ROK) then let* m := SPutMsg m rgt in Ok (m, mb, ret)
      else
        let* (m, mb, rgt, ret) := SCatMsg m mb rgt 0 in
        let* m := SPutMsg m rgt in Ok (m, mb, ret)
    end.

(** [common_def.c]: the buffer is reversed in place before it is copied, [n] exchanges from [idx]
    on. *)
Fixpoint rev_loop (n idx : nat) (fixBuf : list Z) : list Z :=
  match n with
  | O => fixBuf
  | S n' =>
    let revIdx := (length fixBuf - 1 - idx)%nat in
    rev_loop n' (S idx) (<[revIdx := fixBuf !!! idx]> (<[idx := fixBuf !!! revIdx]> fixBuf))
  end.

Definition oduCpyFixBufToMsg (m : Mem) (fixBuf : list Z) (mb : Msg) : res (Mem * Msg * list Z) :=
  let fixBuf := rev_loop (length fixBuf / 2) 0 fixBuf in
  let* (m, mb, _) := SCpyFixMsg m fixBuf mb 0 in
  Ok (m, mb, fixBuf).
