(* ===== verification/OduMsgInv.v ===== *)
(** What the message buffers of the O-DU keep: every message block has a window into a data block
    that is allocated, and the counter of a data block is the number of message blocks that refer
    to it.  The lemmas give the effect of each primitive on the blocks of a message together with
    all other live blocks, the frame, whose bytes stay the same. *)

From S2P Require Import Prelude CmHash OduMsg.

(** ** Bytes of blocks *)

Definition wbytes (m : Mem) (b : SsMblk) : list Z :=
  match dblks m !! b_datap b with None => [] | Some d => window d b end.

Definition bytes (m : Mem) (l : list SsMblk) : list Z := flat_map (wbytes m) l.

(** The content of the data block of a block. *)
Definition ddata (m : Mem) (b : SsMblk) : option (list Z) :=
  match dblks m !! b_datap b with None => None | Some d => Some (db_data d) end.

Definition frame (m m' : Mem) (F : list SsMblk) : Prop := forall b, b ∈ F -> ddata m' b = ddata m b.

(** The number of blocks that refer to a data block. *)
Definition refs (a : Z) (B : list SsMblk) : nat := length (filter (fun b => b_datap b = a) B).

#[global] Arguments refs : simpl never.
#[global] Arguments bytes : simpl never.

(** The addresses that the allocator still returns. *)
Definition new_addrs (l : list (option (Z * list Z))) : list Z := flat_map (fun o => match o with Some (a, _) => [a] | None => [] end) l.

Definition same_block (b b' : SsMblk) : Prop := b_id b' = b_id b /\ b_datap b' = b_datap b.

(** A block with its window in a data block. *)
Definition in_window (d : SsDblk) (b : SsMblk) : Prop := (b_rptr b < b_wptr b <= length (db_data d))%nat.

Record inv (m : Mem) (B : list SsMblk) : Prop := {
  inv_ids : NoDup (map b_id B);
  inv_blk b : b ∈ B -> exists d, dblks m !! b_datap b = Some d /\ in_window d b /\ (shared d = false -> b_id b = b_datap b);
  inv_ref a d : dblks m !! a = Some d ->
    db_ref d = Z.of_nat (refs a B) /\ 1 <= db_ref d <= 255 /\ (shared d = false -> db_ref d = 1);
  inv_nodup : NoDup (new_addrs (avail m));
  inv_new a : a ∈ new_addrs (avail m) -> dblks m !! a = None /\ a ∉ map b_id B;
  inv_buf a buf : Some (a, buf) ∈ avail m -> buf <> [];
}.

(** ** Lists of blocks *)

Lemma bytes_app m l1 l2 : bytes m (l1 ++ l2) = bytes m l1 ++ bytes m l2.
Proof. apply flat_map_app. Qed.

Lemma bytes_cons m b l : bytes m (b :: l) = wbytes m b ++ bytes m l.
Proof. done. Qed.

Lemma wbytes_ddata m m' b : ddata m' b = ddata m b -> wbytes m' b = wbytes m b.
Proof.
  unfold ddata, wbytes, window. destruct (dblks m' !! _) as [d'|], (dblks m !! _) as [d|]; congruence.
Qed.

Lemma frame_bytes m m' F l : frame m m' F -> l ⊆ F -> bytes m' l = bytes m l.
Proof.
  intros HF. induction l as [|b l IH]; intros Hl; [done|]. rewrite !bytes_cons, (wbytes_ddata m m' b), IH by set_solver. done.
Qed.

Lemma frame_trans m1 m2 m3 F : frame m1 m2 F -> frame m2 m3 F -> frame m1 m3 F.
Proof. intros H1 H2 b Hb. by rewrite H2, H1. Qed.

Lemma frame_sub m m' F F' : frame m m' F -> F' ⊆ F -> frame m m' F'.
Proof. intros H Hs b Hb. apply H. set_solver. Qed.

Lemma blk_refs_cons a b B : refs a (b :: B) = ((if decide (b_datap b = a) then 1 else 0) + refs a B)%nat.
Proof. unfold refs. rewrite list.filter_cons. destruct (decide _); done. Qed.

Lemma blk_refs_app a B1 B2 : refs a (B1 ++ B2) = (refs a B1 + refs a B2)%nat.
Proof. unfold refs. by rewrite list.filter_app, length_app. Qed.

Lemma refs_perm a B B' : B ≡ₚ B' -> refs a B = refs a B'.
Proof. intros H. unfold refs. by rewrite H. Qed.

Lemma refs_0 a B b : refs a B = 0%nat -> b ∈ B -> b_datap b <> a.
Proof.
  intros H Hb Ha. apply length_zero_iff_nil in H.
  assert (b ∈ filter (fun b => b_datap b = a) B) as Hin by (apply list_elem_of_filter; done).
  rewrite H in Hin. set_solver.
Qed.

Lemma inv_perm m B B' : B ≡ₚ B' -> inv m B -> inv m B'.
Proof.
  intros HP []. split.
  - by rewrite <- (Permutation_map b_id HP).
  - intros b Hb. apply inv_blk0. by rewrite HP.
  - intros a d Hd. rewrite <- (refs_perm a _ _ HP). by apply inv_ref0.
  - done.
  - intros a Ha. destruct (inv_new0 a Ha) as [? Hn]. split; [done|].
    intros Hin. apply Hn. apply (elem_of_Permutation_proper a _ _ (Permutation_map b_id HP)). done.
  - done.
Qed.

(** ** Primitives *)

(** The read and write pointers of a block move. *)
Lemma inv_move m b b' d F :
  inv m (b :: F) -> dblks m !! b_datap b = Some d -> same_block b b' -> in_window d b' -> inv m (b' :: F).
Proof.
  intros [] Hd [Hi Hp] Hw. split; try done.
  - cbn in *. by rewrite Hi.
  - intros x [->|Hx]%elem_of_cons; [|apply inv_blk0; by right].
    exists d. rewrite Hp, Hi. split; [done|]. split; [done|].
    destruct (inv_blk0 b) as (d' & Hd' & _ & ?); [by left|]. by simplify_eq.
  - intros a e He. rewrite blk_refs_cons, Hp, <- blk_refs_cons. by apply inv_ref0.
  - intros a Ha. cbn. rewrite Hi. by apply inv_new0.
Qed.

(** The content of a data block with one reference changes. *)
Lemma inv_write m b d data F :
  inv m (b :: F) -> dblks m !! b_datap b = Some d -> db_ref d = 1 -> length data = length (db_data d) ->
  let m' := set_dblk m (b_datap b) (mk_dblk data (db_ref d) (shared d)) in
  inv m' (b :: F) /\ frame m m' F.
Proof.
  intros [] Hd Hr Hl m'. split; [split|]; try done.
  - intros x Hx. destruct (inv_blk0 x Hx) as (e & He & Hw & Hs). unfold m', set_dblk. cbn.
    destruct (decide (b_datap x = b_datap b)) as [Heq|Hne].
    + rewrite Heq, lookup_insert_eq. rewrite Heq in He. simplify_eq. eexists. split; [done|]. cbn.
      unfold in_window in *. cbn. rewrite Hl, <- Heq. done.
    + rewrite lookup_insert_ne by done. eauto.
  - intros a e. unfold m', set_dblk. cbn. destruct (decide (a = b_datap b)) as [->|Hne].
    + rewrite lookup_insert_eq. intros [= <-]. cbn. by apply inv_ref0.
    + rewrite lookup_insert_ne by done. apply inv_ref0.
  - intros a Ha. destruct (inv_new0 a Ha) as [Hn ?]. unfold m', set_dblk. cbn. split; [|done].
    rewrite lookup_insert_ne by congruence. done.
  - intros x Hx. unfold m', ddata, set_dblk. cbn. rewrite lookup_insert_ne; [done|].
    destruct (inv_ref0 _ _ Hd) as (Hc & _). rewrite blk_refs_cons, decide_True in Hc by done.
    intros He. eapply (refs_0 (b_datap b) F x); [lia|done|done].
Qed.

Lemma avail_inv m B o rest m' :
  inv m B -> avail m = o :: rest -> dblks m' = dblks m -> avail m' = rest -> inv m' B.
Proof.
  intros [] Ha Hd Hr. rewrite Ha in *. cbn in inv_nodup0, inv_new0. apply list.NoDup_app in inv_nodup0 as (_ & _ & ?).
  split; rewrite ?Hd, ?Hr; try done.
  - intros a Hin. apply inv_new0. apply list.elem_of_app. by right.
  - intros a buf Hin. apply (inv_buf0 a). by right.
Qed.

(** A block is allocated, its data block filled and its window set. *)
Lemma SGetDBuf_ok m F :
  inv m F ->
  match SGetDBuf m with
  | (None, m') => inv m' F /\ dblks m' = dblks m
  | (Some nb, m') =>
    exists buf, nb = mk_mblk (b_id nb) (b_id nb) 0 0 /\ buf <> [] /\ dblks m' !! b_id nb = Some (mk_dblk buf 1 false) /\
    forall data b', length data = length buf -> same_block nb b' -> (b_rptr b' < b_wptr b' <= length buf)%nat ->
    let m2 := set_dblk m' (b_id nb) (mk_dblk data 1 false) in inv m2 (b' :: F) /\ frame m m2 F
  end.
Proof.
  intros HI. unfold SGetDBuf, SAlloc. destruct (avail m) as [|[[a buf]|] rest] eqn:Ha; [done| |].
  2: { split; [|done]. by eapply avail_inv. }
  exists buf. cbn. split; [done|]. split; [apply (inv_buf m F HI a); rewrite Ha; by left|].
  split; [apply lookup_insert_eq|]. intros data b' Hl [Hi Hp] Hw.
  destruct (inv_new m F HI a) as [Hn Hid]; [rewrite Ha; by left|].
  assert (Ha2 : inv (mk_mem (dblks m) rest) F) by by eapply avail_inv.
  destruct HI as [_ _ _ Hnd _ _]. rewrite Ha in Hnd. cbn in Hnd. apply list.NoDup_cons in Hnd as [Hna _].
  destruct Ha2. unfold set_dblk. cbn in *. rewrite insert_insert_eq.
  assert (Hfr : forall b, b ∈ F -> b_datap b <> a).
  { intros b Hb He. destruct (inv_blk0 b Hb) as (d & Hd & _). congruence. }
  split; [split|]; cbn.
  - apply list.NoDup_cons. by rewrite Hi.
  - intros b [->|Hb]%elem_of_cons.
    + rewrite Hp, Hi, lookup_insert_eq. eexists. split; [done|]. split; [|done]. red. cbn. lia.
    + rewrite lookup_insert_ne by (intros He; by apply (Hfr b Hb)). by apply inv_blk0.
  - intros x d Hd. rewrite blk_refs_cons, Hp. destruct (decide (x = a)) as [->|Hne].
    + rewrite lookup_insert_eq in Hd. injection Hd as <-. rewrite decide_True by done. cbn.
      destruct (refs a F) eqn:Hrf; [lia|]. exfalso. unfold refs in Hrf.
      destruct (filter (fun b => b_datap b = a) F) as [|b l] eqn:Hf; [done|].
      assert (Hb : b ∈ filter (fun b => b_datap b = a) F) by (rewrite Hf; by left).
      apply list_elem_of_filter in Hb as [? ?]. by apply (Hfr b).
    + rewrite lookup_insert_ne in Hd by done. rewrite decide_False by congruence. by apply inv_ref0.
  - done.
  - intros x Hx. destruct (inv_new0 x Hx) as [? ?]. rewrite lookup_insert_ne by congruence. split; [done|].
    rewrite Hi. apply not_elem_of_cons. split; [|done]. congruence.
  - done.
  - intros b Hb. unfold ddata. cbn. rewrite lookup_insert_ne by (intros He; by apply (Hfr b Hb)). done.
Qed.

(** A block is put back; it may have been used up. *)
Lemma SPutDBuf_ok m b b' F :
  inv m (b :: F) -> same_block b b' -> exists m', SPutDBuf m b' = Ok m' /\ inv m' F /\ frame m m' F.
Proof.
  intros HI [Hi Hp]. destruct HI. destruct (inv_blk0 b) as (d & Hd & _ & Hsh); [by left|].
  destruct (inv_ref0 _ _ Hd) as (Hr & Hr255 & Hns). rewrite blk_refs_cons, decide_True in Hr by done.
  cbn in inv_ids0. apply list.NoDup_cons in inv_ids0 as [_ Hids].
  unfold SPutDBuf, dblk. rewrite Hp, Hd. cbn [rbind]. rewrite Hi.
  assert (Hdel : refs (b_datap b) F = 0%nat -> inv (mk_mem (delete (b_datap b) (dblks m)) (avail m)) F /\
                 frame m (mk_mem (delete (b_datap b) (dblks m)) (avail m)) F).
  { intros H0. assert (Hne : forall x, x ∈ F -> b_datap b <> b_datap x) by (intros x Hx He; by eapply (refs_0 _ F x H0)).
    split; [split; try done|]; cbn.
    - intros x Hx. rewrite lookup_delete_ne by by apply Hne. apply inv_blk0. by right.
    - intros a e [Hae He]%lookup_delete_Some. destruct (inv_ref0 a e He) as (H1 & ?). rewrite blk_refs_cons, decide_False in H1 by done. done.
    - intros a Ha. destruct (inv_new0 a Ha) as [Hn Hni]. split; [by apply lookup_delete_None; right|].
      intros ?. apply Hni. by right.
    - intros x Hx. unfold ddata. cbn. by rewrite lookup_delete_ne by by apply Hne. }
  destruct (shared d) eqn:Hs; cbn [negb].
  - replace (u8 (db_ref d - 1)) with (db_ref d - 1) by (unfold u8; rewrite Z.mod_small; lia).
    destruct (Z.eqb_spec (db_ref d - 1) 0) as [H0|H0]; [eexists; split; [done|]; apply Hdel; lia|].
    eexists. split; [done|]. unfold set_dblk. split; [split; try done|]; cbn.
    + intros x Hx. destruct (inv_blk0 x) as (e & He & Hw & He2); [by right|].
      destruct (decide (b_datap x = b_datap b)) as [Heq|Hne].
      * rewrite Heq, lookup_insert_eq. rewrite Heq in He. simplify_eq. eexists. split; [done|]. split; [exact Hw|done].
      * rewrite lookup_insert_ne by done. eauto.
    + intros a e He. destruct (decide (a = b_datap b)) as [->|Hne].
      * rewrite lookup_insert_eq in He. injection He as <-. cbn. lia.
      * rewrite lookup_insert_ne in He by done. destruct (inv_ref0 a e He) as (H1 & ?).
        rewrite blk_refs_cons, decide_False in H1 by done. done.
    + intros a Ha. destruct (inv_new0 a Ha) as [Hn Hni]. rewrite lookup_insert_ne by congruence. split; [done|].
      intros ?. apply Hni. by right.
    + intros x Hx. unfold ddata. cbn. destruct (decide (b_datap x = b_datap b)) as [Heq|Hne].
      * by rewrite Heq, lookup_insert_eq, Hd.
      * by rewrite lookup_insert_ne.
  - rewrite Hsh, Z.eqb_refl by done. eexists. split; [done|]. apply Hdel. specialize (Hns eq_refl). lia.
Qed.

(** A block of the messages is duplicated. *)
Lemma DupMsg_ok m b B :
  inv m B -> b ∈ B -> (refs (b_datap b) B < 255)%nat ->
  exists c m', DupMsg m b = Ok (c, m') /\
  match c with
  | None => inv m' B /\ dblks m' = dblks m
  | Some c => inv m' (c :: B) /\ frame m m' B /\ wbytes m' c = wbytes m b /\
              b_datap c = b_datap b /\ b_rptr c = b_rptr b /\ b_wptr c = b_wptr b
  end.
Proof.
  intros HI Hb Hlt. unfold DupMsg, SAlloc. destruct (avail m) as [|[[a buf]|] rest] eqn:Ha; [by do 2 eexists| |].
  2: { do 2 eexists. split; [done|]. split; [|done]. by eapply avail_inv. }
  destruct (inv_blk m B HI b Hb) as (d & Hd & Hw & Hsh). destruct (inv_ref m B HI _ _ Hd) as (Hr & Hr255 & _).
  destruct (inv_new m B HI a) as [Hn Hid]; [rewrite Ha; by left|].
  assert (Ha2 : inv (mk_mem (dblks m) rest) B) by by eapply avail_inv.
  destruct HI as [_ _ _ Hnd _ _]. rewrite Ha in Hnd. cbn in Hnd. apply list.NoDup_cons in Hnd as [Hna _].
  unfold dblk. cbn [dblks avail]. rewrite Hd. cbn [rbind]. do 2 eexists. split; [done|].
  replace (u8 (db_ref d + 1)) with (db_ref d + 1) by (unfold u8; rewrite Z.mod_small; lia).
  assert (Hwb : forall x, ddata (set_dblk (mk_mem (dblks m) rest) (b_datap b) (mk_dblk (db_data d) (db_ref d + 1) true)) x = ddata m x).
  { intros x. unfold ddata, set_dblk. cbn. destruct (decide (b_datap x = b_datap b)) as [Heq|Hne].
    - by rewrite Heq, lookup_insert_eq, Hd.
    - by rewrite lookup_insert_ne. }
  split; [|split; [intros x _; apply Hwb|split; [rewrite <- (wbytes_ddata _ _ _ (Hwb b)); by destruct b|by destruct b]]].
  destruct Ha2. unfold set_dblk. destruct b as [bi bp br bw]; unfold update; cbn in *. split; cbn.
  - apply list.NoDup_cons. done.
  - intros x Hx. assert (Hx2 : x = mk_mblk a bp br bw \/ (exists e, dblks m !! b_datap x = Some e /\ in_window e x)).
    { apply elem_of_cons in Hx as [->|Hx]; [by left|]. right. destruct (inv_blk0 x Hx) as (e & ? & ? & _). eauto. }
    destruct Hx2 as [->|(e & He & Hew)]; cbn; [rewrite lookup_insert_eq; eexists; split; [done|]; done|].
    destruct (decide (b_datap x = bp)) as [Heq|Hne].
    + rewrite Heq, lookup_insert_eq. rewrite Heq in He. simplify_eq. eexists. split; [done|]. split; [exact Hew|done].
    + rewrite lookup_insert_ne by done. apply elem_of_cons in Hx as [->|Hx]; [done|]. by apply inv_blk0.
  - intros x e He. rewrite blk_refs_cons. cbn. destruct (decide (x = bp)) as [->|Hne].
    + rewrite lookup_insert_eq in He. injection He as <-. rewrite decide_True by done. cbn. split; [lia|]. split; [lia|done].
    + rewrite lookup_insert_ne in He by done. rewrite decide_False by congruence. by apply inv_ref0.
  - done.
  - intros x Hx. destruct (inv_new0 x Hx) as [? ?]. rewrite lookup_insert_ne by congruence. split; [done|].
    apply not_elem_of_cons. split; [|done]. congruence.
  - done.
Qed.

(** Chains are put back block by block. *)
Lemma put_blocks_ok l : forall m F, inv m (l ++ F) -> exists m', put_blocks m l = Ok m' /\ inv m' F /\ frame m m' F.
Proof.
  induction l as [|b l IH]; intros m F HI; cbn [put_blocks].
  - exists m. split; [done|]. split; [done|]. by intros ??.
  - destruct (SPutDBuf_ok m b b (l ++ F) HI) as (m1 & -> & HI1 & HF1); [done|]. cbn [rbind].
    destruct (IH m1 F HI1) as (m2 & -> & HI2 & HF2). exists m2. split; [done|]. split; [done|].
    eapply frame_trans; [|done]. eapply frame_sub; [done|]. intros x Hx. apply list.elem_of_app. by right.
Qed.

(** ** Windows *)

Lemma wbytes_window m b d : dblks m !! b_datap b = Some d -> wbytes m b = window d b.
Proof. intros H. unfold wbytes. by rewrite H. Qed.

Lemma inv_dblk m B b : inv m B -> b ∈ B -> exists d, dblk m b = Ok d /\ dblks m !! b_datap b = Some d /\ in_window d b.
Proof. intros HI Hb. destruct (inv_blk m B HI b Hb) as (d & Hd & Hw & _). exists d. unfold dblk. by rewrite Hd. Qed.

Lemma inv_size m B b : inv m B -> b ∈ B -> length (wbytes m b) = b_size b /\ (0 < b_size b)%nat.
Proof.
  intros HI Hb. destruct (inv_dblk m B b HI Hb) as (d & _ & Hd & Hw). rewrite (wbytes_window _ _ _ Hd).
  unfold window, b_size, in_window in *. rewrite length_take, length_drop. lia.
Qed.

Lemma length_buf_write dst off src : (off + length src <= length dst)%nat -> length (buf_write dst off src) = length dst.
Proof. intros H. unfold buf_write. rewrite !length_app, length_take, length_drop. lia. Qed.

Lemma window_before data src r w :
  (length src <= r <= w)%nat -> (w <= length data)%nat ->
  take (w - (r - length src)) (drop (r - length src) (buf_write data (r - length src) src)) = src ++ take (w - r) (drop r data).
Proof.
  intros H1 H2. unfold buf_write. rewrite drop_app_length' by (rewrite length_take; lia).
  replace (r - length src + length src)%nat with r by lia.
  rewrite take_app_ge by lia. do 2 f_equal. lia.
Qed.

Lemma window_behind data src r w :
  (r <= w)%nat -> (w + length src <= length data)%nat ->
  take (w + length src - r) (drop r (buf_write data w src)) = take (w - r) (drop r data) ++ src.
Proof.
  intros H1 H2. unfold buf_write. rewrite drop_app_le by (rewrite length_take; lia).
  rewrite <- skipn_firstn_comm.
  assert (Hl : length (drop r (take w data)) = (w - r)%nat) by (rewrite length_drop, length_take; lia).
  rewrite take_app_ge by lia. rewrite Hl. replace (w + length src - r - (w - r))%nat with (length src) by lia.
  rewrite take_app_length. done.
Qed.

(** ** Writing *)

(** Bytes are written in front of the window of a block whose data block has one reference. *)
Lemma write_before m b d src F :
  inv m (b :: F) -> dblks m !! b_datap b = Some d -> db_ref d = 1 -> (length src <= b_rptr b)%nat ->
  let m' := set_dblk m (b_datap b) (put_bytes d (b_rptr b - length src) src) in
  let b' := b <| b_rptr := (b_rptr b - length src)%nat |> in
  inv m' (b' :: F) /\ frame m m' F /\ wbytes m' b' = src ++ wbytes m b.
Proof.
  intros HI Hd Hr Hn m' b'. destruct (inv_blk m _ HI b) as (d0 & Hd0 & Hw & _); [by left|]. simplify_eq.
  unfold in_window in Hw. assert (Hl : length (buf_write (db_data d) (b_rptr b - length src) src) = length (db_data d))
    by (apply length_buf_write; lia).
  destruct (inv_write m b d _ F HI Hd Hr Hl) as [HI' HF]. fold (put_bytes d (b_rptr b - length src) src) in HI', HF. fold m' in HI', HF.
  assert (Hd' : dblks m' !! b_datap b = Some (put_bytes d (b_rptr b - length src) src)) by apply lookup_insert_eq.
  split; [|split; [done|]].
  - apply (inv_move m' b b' _ F HI' Hd'); destruct b; [done|]. unfold b', in_window, put_bytes, update. cbn in *. lia.
  - rewrite (wbytes_window m b d Hd), (wbytes_window m' b' (put_bytes d (b_rptr b - length src) src)) by (by destruct b).
    unfold window, b_size, put_bytes, b', update. destruct b. cbn in *. apply window_before; lia.
Qed.

Lemma write_behind m b d src F :
  inv m (b :: F) -> dblks m !! b_datap b = Some d -> db_ref d = 1 -> (b_wptr b + length src <= length (db_data d))%nat ->
  let m' := set_dblk m (b_datap b) (put_bytes d (b_wptr b) src) in
  let b' := b <| b_wptr := (b_wptr b + length src)%nat |> in
  inv m' (b' :: F) /\ frame m m' F /\ wbytes m' b' = wbytes m b ++ src.
Proof.
  intros HI Hd Hr Hn m' b'. destruct (inv_blk m _ HI b) as (d0 & Hd0 & Hw & _); [by left|]. simplify_eq.
  unfold in_window in Hw. assert (Hl : length (buf_write (db_data d) (b_wptr b) src) = length (db_data d))
    by (apply length_buf_write; lia).
  destruct (inv_write m b d _ F HI Hd Hr Hl) as [HI' HF]. fold (put_bytes d (b_wptr b) src) in HI', HF. fold m' in HI', HF.
  assert (Hd' : dblks m' !! b_datap b = Some (put_bytes d (b_wptr b) src)) by apply lookup_insert_eq.
  split; [|split; [done|]].
  - apply (inv_move m' b b' _ F HI' Hd'); destruct b; [done|]. unfold b', in_window, put_bytes, update. cbn in *. lia.
  - rewrite (wbytes_window m b d Hd), (wbytes_window m' b' (put_bytes d (b_wptr b) src)) by (by destruct b).
    unfold window, b_size, put_bytes, b', update. destruct b. cbn in *. apply window_behind; lia.
Qed.

(** A new block is filled from an offset on. *)
Lemma SGetDBuf_fill m F :
  inv m F ->
  match SGetDBuf m with
  | (None, m') => inv m' F /\ frame m m' F
  | (Some nb, m') =>
    exists d, nb = mk_mblk (b_id nb) (b_id nb) 0 0 /\ dblk m' nb = Ok d /\ (0 < length (db_data d))%nat /\
    forall off src, src <> [] -> (off + length src <= length (db_data d))%nat ->
    let m2 := set_dblk m' (b_id nb) (put_bytes d off src) in
    let b' := mk_mblk (b_id nb) (b_id nb) off (off + length src) in
    inv m2 (b' :: F) /\ frame m m2 F /\ wbytes m2 b' = src
  end.
Proof.
  intros HI. pose proof (SGetDBuf_ok m F HI) as H. destruct (SGetDBuf m) as [[nb|] m'].
  2: { destruct H as [? Hd]. split; [done|]. intros b _. unfold ddata. by rewrite Hd. }
  destruct H as (buf & Hnb & Hne & Hd & Hk). exists (mk_dblk buf 1 false). split; [done|].
  assert (Hp : b_datap nb = b_id nb) by by rewrite Hnb. split; [unfold dblk; by rewrite Hp, Hd|].
  split; [destruct buf; [done|cbn; lia]|]. intros off src Hs Hl m2 b'. cbn in Hl.
  destruct (Hk (buf_write buf off src) b') as [HI2 HF]; [by apply length_buf_write|by rewrite Hnb| |].
  { destruct src; [done|]. cbn in *. lia. }
  split; [exact HI2|]. split; [exact HF|].
  rewrite (wbytes_window m2 b' (put_bytes (mk_dblk buf 1 false) off src)) by apply lookup_insert_eq.
  unfold window, b_size, put_bytes, buf_write. cbn. rewrite drop_app_length' by (rewrite length_take; lia).
  apply take_app_length'. lia.
Qed.

(** ** Messages *)

(** The message has the bytes [s]. *)
Record msg_rep (m : Mem) (mb : Msg) (s : list Z) : Prop := {
  rep_bytes : bytes m (b_cont mb) = s;
  rep_len : len mb = Z.of_nat (length s);
  rep_max : len mb <= 0x7FFF;
  rep_end : endptr mb = last_id (b_cont mb);
}.

Lemma rep_frame m m' mb s F : msg_rep m mb s -> frame m m' F -> b_cont mb ⊆ F -> msg_rep m' mb s.
Proof. intros [] HF Hs. split; try done. by rewrite (frame_bytes _ _ _ _ HF Hs). Qed.

Lemma last_id_app l1 b l2 : last_id (l1 ++ b :: l2) = last_id (b :: l2).
Proof. unfold last_id. rewrite last_app, last_cons. destruct (list.last l2); done. Qed.

Lemma last_id_cons b c l : last_id (b :: c :: l) = last_id (c :: l).
Proof. apply (last_id_app [b]). Qed.

Lemma last_id_snoc l b : last_id (l ++ [b]) = Some (b_id b).
Proof. unfold last_id. by rewrite last_snoc. Qed.

Lemma last_id_head b b' l : b_id b' = b_id b -> last_id (b' :: l) = last_id (b :: l).
Proof. intros H. unfold last_id. rewrite !last_cons. destruct (list.last l); [done|]. by rewrite H. Qed.

Lemma split_at_id_app l1 b l2 : b_id b ∉ map b_id l1 -> split_at_id (b_id b) (l1 ++ b :: l2) = Some (l1, b, l2).
Proof.
  induction l1 as [|x l1 IH]; cbn; intros H; [by rewrite Z.eqb_refl|].
  apply not_elem_of_cons in H as [H1 H2]. destruct (Z.eqb_spec (b_id x) (b_id b)); [congruence|]. by rewrite IH.
Qed.

(** [endptr] is the last block. *)
Lemma last_block_ok m mb s F :
  inv m (b_cont mb ++ F) -> msg_rep m mb s ->
  (b_cont mb = [] /\ last_block mb = Ok None) \/
  (exists l1 b, b_cont mb = l1 ++ [b] /\ last_block mb = Ok (Some (l1, b, []))).
Proof.
  intros HI []. unfold last_block. rewrite rep_end0. destruct (b_cont mb) as [|c l] eqn:Hc using rev_ind; [by left|].
  right. exists l, c. split; [done|]. rewrite last_id_snoc. rewrite split_at_id_app; [done|].
  pose proof (inv_ids _ _ HI) as Hn. rewrite !map_app in Hn. cbn in Hn. rewrite <- app_assoc in Hn. cbn in Hn.
  apply list.NoDup_app in Hn as (_ & Hd & _). intros Hin. apply (Hd _ Hin). by left.
Qed.

Lemma rep_nil m mb s F : inv m (b_cont mb ++ F) -> msg_rep m mb s -> s = [] <-> b_cont mb = [].
Proof.
  intros HI [<- _ _ _]. destruct (b_cont mb) as [|b l]; [done|]. rewrite bytes_cons.
  destruct (inv_size m _ b HI) as [H1 H2]; [by left|]. split; [|done].
  intros H%app_eq_nil. destruct H as [H _]. rewrite H in H1. cbn in H1. lia.
Qed.
