(* ===== verification/OduMsgOps.v ===== *)
(** The operations on messages of the O-DU, on the bytes of the messages.

    Every operation takes a message among other live blocks, the frame.  It never leaves the data
    blocks of the message, keeps the invariant of the memory, leaves the bytes of the frame, also
    where it shares data blocks with the message, and changes the bytes of the message as it is
    to. *)

From S2P Require Import Prelude CmHash OduMsg OduMsgInv.

Definition result (F : list SsMblk) (m : Mem) (mb : Msg) (r : res (Mem * Msg * Z)) (Q : Mem -> Msg -> Z -> Prop) : Prop :=
  exists m' mb' ret, r = Ok (m', mb', ret) /\ inv m' (b_cont mb' ++ F) /\ frame m m' F /\ region mb' = region mb /\ Q m' mb' ret.

(** The results of an operation that found no memory. *)
Definition failed (ret : Z) : bool := (ret =? RFAILED) || (ret =? ROUTRES).

Lemma msglen_small z : - 2 ^ 15 <= z < 2 ^ 15 -> i16 z = z.
Proof. intros H. unfold i16. rewrite Z.mod_small; lia. Qed.

Lemma frame_refl m F : frame m m F.
Proof. by intros ??. Qed.

Lemma frame_app_l m m' l F : frame m m' (l ++ F) -> frame m m' l.
Proof. intros H. eapply frame_sub; [done|]. intros x Hx. apply list.elem_of_app. by left. Qed.

Lemma frame_app_r m m' l F : frame m m' (l ++ F) -> frame m m' F.
Proof. intros H. eapply frame_sub; [done|]. intros x Hx. apply list.elem_of_app. by right. Qed.

Lemma frame_bytes_l m m' l F : frame m m' (l ++ F) -> bytes m' l = bytes m l.
Proof. intros H. apply (frame_bytes m m' (l ++ F)); [done|]. intros x Hx. apply list.elem_of_app. by left. Qed.

(** ** Adding *)

Lemma inv_one_ref m b d F : inv m (b :: F) -> dblks m !! b_datap b = Some d -> (db_ref d >? 1) = false -> db_ref d = 1.
Proof. intros HI Hd H. destruct (inv_ref _ _ HI _ _ Hd) as (_ & ? & _). lia. Qed.

(** The result of an operation is given: the invariant, the frame and the bytes are left. *)
Ltac give := do 3 eexists; split; [reflexivity|]; split; [|split; [|split; [reflexivity|]]].

(** A new block in front of the message takes the byte. *)
Lemma add_pre_new m x l n e s F rg :
  inv m (l ++ F) -> msg_rep m (mk_msg rg l n e) s -> n <> 0x7FFF ->
  result F m (mk_msg rg l n e)
    (match SGetDBuf m with
     | (None, m') => Ok (m', mk_msg rg l n e, ROUTRES)
     | (Some newb, m') =>
       let* d := dblk m' newb in
       write_front m' (mk_msg rg (newb <| b_wptr := length (db_data d) |> <| b_rptr := length (db_data d) |> :: l) n
         match l with [] => Some (b_id newb) | _ => e end) x
     end)
    (fun m' mb' ret => (ret = ROK /\ msg_rep m' mb' (u8 x :: s)) \/ (ret = ROUTRES /\ msg_rep m' mb' s)).
Proof.
  intros HI [Hb Hn Hm He] Hne. cbn in *. pose proof (SGetDBuf_fill m (l ++ F) HI) as H. destruct (SGetDBuf m) as [[nb|] m'].
  2: { destruct H as [H1 H2]. give; [done|by apply frame_app_r in H2|]. right. split; [done|].
       split; try done. cbn. by rewrite (frame_bytes_l m m' l F). }
  destruct H as (d & Hnb & Hd & Hl & Hk). rewrite Hd. cbn [rbind]. rewrite Hnb in Hd |- *. unfold write_front, update. cbn in Hd |- *.
  assert (Hd2 : dblk m' (mk_mblk (b_id nb) (b_id nb) (length (db_data d)) (length (db_data d))) = Ok d) by exact Hd.
  rewrite Hd2. cbn [rbind]. destruct (Nat.eqb_spec (length (db_data d)) 0); [lia|].
  destruct (Hk (length (db_data d) - 1)%nat [u8 x]) as (HI2 & HF2 & Hw2); [done|cbn; lia|]. cbn [length] in *.
  replace (length (db_data d) - 1 + 1)%nat with (length (db_data d)) in * by lia.
  give; [exact HI2|by apply frame_app_r in HF2|]. left. split; [done|].
  split; cbn [b_cont len endptr]; [|rewrite msglen_small; cbn; lia|rewrite msglen_small; cbn; lia|].
  - rewrite bytes_cons, Hw2. rewrite (frame_bytes_l _ _ _ _ HF2), Hb. done.
  - destruct l; [done|]. rewrite He. by rewrite last_id_cons.
Qed.

Lemma SAddPreMsg_ok m x mb s F :
  inv m (b_cont mb ++ F) -> msg_rep m mb s ->
  result F m mb (SAddPreMsg m x mb) (fun m' mb' ret =>
    (ret = ROK /\ msg_rep m' mb' (u8 x :: s)) \/ (ret = ROUTRES /\ msg_rep m' mb' s)).
Proof.
  intros HI HR. destruct mb as [rg l n e]. pose proof HR as [Hb Hn Hm He]. cbn in *. unfold SAddPreMsg. cbn [len].
  destruct (Z.eqb_spec n 0x7FFF) as [|Hne]; [give; [done|apply frame_refl|by right]|].
  pose proof (add_pre_new m x l n e s F rg HI HR Hne) as Hnew. unfold front_room. cbn [b_cont].
  destruct l as [|b l]; cbn [rbind]; [exact Hnew|].
  destruct (inv_dblk _ _ b HI) as (d & Hd & Hd' & Hw); [by left|]. rewrite Hd. cbn [rbind].
  destruct (db_ref d >? 1) eqn:Hr; cbn [orb negb]; [exact Hnew|].
  destruct (Nat.eqb_spec (b_rptr b) 0) as [|H0]; cbn [negb]; [exact Hnew|].
  destruct (write_before m b d [u8 x] (l ++ F)) as (HI2 & HF2 & Hw2); [done|done|by eapply inv_one_ref|cbn; lia|].
  unfold write_front. cbn [b_cont]. rewrite Hd. cbn [rbind]. destruct (Nat.eqb_spec (b_rptr b) 0); [done|]. unfold update. cbn.
  give; [exact HI2|by apply frame_app_r in HF2|]. left. split; [done|].
  split; cbn [b_cont len endptr]; [|rewrite msglen_small; cbn; lia|rewrite msglen_small; cbn; lia|rewrite He; by apply last_id_head].
  rewrite bytes_cons. cbn [length] in *. unfold update in Hw2. cbn in Hw2. rewrite Hw2, (frame_bytes_l _ _ _ _ HF2), <- Hb, bytes_cons. done.
Qed.

(** The last block, or a part of the chain, is brought to the front. *)
Lemma inv_rot m l1 l2 F : inv m ((l1 ++ l2) ++ F) <-> inv m (l2 ++ l1 ++ F).
Proof. split; apply inv_perm; rewrite <- ?app_assoc; solve_Permutation. Qed.

Lemma write_back_eq m x rg l1 b n d :
  b_id b ∉ map b_id l1 -> dblk m b = Ok d -> (b_wptr b < length (db_data d))%nat ->
  write_back m (mk_msg rg (l1 ++ [b]) n (Some (b_id b))) x =
  Ok (set_dblk m (b_datap b) (put_bytes d (b_wptr b) [u8 x]),
      mk_msg rg (l1 ++ [mk_mblk (b_id b) (b_datap b) (b_rptr b) (b_wptr b + 1)]) (i16 (n + 1)) (Some (b_id b)), ROK).
Proof.
  intros Hn Hd Hw. unfold write_back, last_block. cbn [endptr b_cont]. rewrite split_at_id_app by done.
  cbn [rbind]. rewrite Hd. cbn [rbind]. destruct (Nat.ltb_spec (b_wptr b) (length (db_data d))); [|lia].
  rewrite Nat.add_1_r. by unfold update.
Qed.

Lemma inv_head_id m b l F : inv m (b :: l ++ F) -> b_id b ∉ map b_id l.
Proof.
  intros HI Hin. pose proof (inv_ids _ _ HI) as Hnd. cbn in Hnd. apply list.NoDup_cons in Hnd as [Hnd _].
  apply Hnd. rewrite map_app. apply list.elem_of_app. by left.
Qed.

(** The message after a byte was put behind it, from the last block. *)
Lemma rep_back m' rg l1 b' n s x F :
  inv m' (b' :: l1 ++ F) -> n = Z.of_nat (length s) -> n < 0x7FFF -> bytes m' l1 ++ wbytes m' b' = s ++ [x] ->
  inv m' ((l1 ++ [b']) ++ F) /\ msg_rep m' (mk_msg rg (l1 ++ [b']) (i16 (n + 1)) (Some (b_id b'))) (s ++ [x]).
Proof.
  intros HI Hn Hm Hb. split; [by apply inv_rot|].
  split; cbn [b_cont len endptr]; [|rewrite msglen_small; rewrite ?length_app; cbn; lia|rewrite msglen_small; cbn; lia|by rewrite last_id_snoc].
  rewrite bytes_app, bytes_cons. unfold bytes at 2. cbn. by rewrite app_nil_r.
Qed.

Lemma add_pst_new m x l n e s F rg :
  inv m (l ++ F) -> msg_rep m (mk_msg rg l n e) s -> n < 0x7FFF ->
  result F m (mk_msg rg l n e)
    (match SGetDBuf m with
     | (None, m') => Ok (m', mk_msg rg l n e, ROUTRES)
     | (Some newb, m') => write_back m' (mk_msg rg (l ++ [newb]) n (Some (b_id newb))) x
     end)
    (fun m' mb' ret => (ret = ROK /\ msg_rep m' mb' (s ++ [u8 x])) \/ (ret = ROUTRES /\ msg_rep m' mb' s)).
Proof.
  intros HI [Hb Hn Hm He] Hlt. cbn in *. pose proof (SGetDBuf_fill m (l ++ F) HI) as H. destruct (SGetDBuf m) as [[nb|] m'].
  2: { destruct H as [H1 H2]. give; [done|by apply frame_app_r in H2|]. right. split; [done|].
       split; try done. cbn. by rewrite (frame_bytes_l m m' l F). }
  destruct H as (d & Hnb & Hd & Hl & Hk). destruct (Hk 0%nat [u8 x]) as (HI2 & HF2 & Hw2); [done|cbn; lia|]. cbn [length] in *.
  pose proof (inv_head_id _ _ _ _ HI2) as Hid. cbn [b_id] in Hid.
  rewrite (write_back_eq m' x rg l nb n d) by (done || (rewrite Hnb; cbn; lia)). rewrite Hnb. cbn [b_id b_datap b_rptr b_wptr].
  destruct (rep_back _ rg l _ n s (u8 x) F HI2) as [HI3 HR3]; [done|done|by rewrite Hw2, (frame_bytes_l _ _ _ _ HF2), Hb|].
  give; [exact HI3|by apply frame_app_r in HF2|]. left. split; [done|]. exact HR3.
Qed.

Lemma SAddPstMsg_ok m x mb s F :
  inv m (b_cont mb ++ F) -> msg_rep m mb s -> len mb < 0x7FFF ->
  result F m mb (SAddPstMsg m x mb) (fun m' mb' ret =>
    (ret = ROK /\ msg_rep m' mb' (s ++ [u8 x])) \/ (ret = ROUTRES /\ msg_rep m' mb' s)).
Proof.
  intros HI HR Hlt. pose proof (last_block_ok _ _ _ _ HI HR) as Hlb. destruct mb as [rg l n e]. pose proof HR as [Hb Hn Hm He]. cbn in *.
  pose proof (add_pst_new m x l n e s F rg HI HR Hlt) as Hnew.
  unfold SAddPstMsg. destruct Hlb as [[-> ->]|(l1 & b & -> & ->)]; cbn [rbind]; [exact Hnew|].
  assert (HI' : inv m (b :: l1 ++ F)) by (by apply inv_rot in HI).
  destruct (inv_dblk _ _ b HI') as (d & Hd & Hd' & Hw); [by left|]. rewrite Hd. cbn [rbind].
  destruct (db_ref d >? 1) eqn:Hr; cbn [orb negb]; [exact Hnew|].
  destruct (Nat.eqb_spec (b_wptr b) (length (db_data d))) as [|H0]; cbn [negb]; [exact Hnew|]. unfold in_window in Hw.
  rewrite last_id_snoc in He. rewrite He, (write_back_eq m x rg l1 b n d); [|by eapply inv_head_id|done|lia].
  destruct (write_behind m b d [u8 x] (l1 ++ F)) as (HI2 & HF2 & Hw2); [done|done|by eapply inv_one_ref|cbn; lia|]. cbn [length] in *.
  destruct (rep_back _ rg l1 _ n s (u8 x) F HI2) as [HI3 HR3]; [done|done| |].
  { rewrite Hw2, (frame_bytes_l _ _ _ _ HF2), <- Hb, bytes_app, bytes_cons. unfold bytes at 3. cbn. by rewrite app_nil_r, app_assoc. }
  give; [exact HI3|by apply frame_app_r in HF2|]. left. split; [done|]. exact HR3.
Qed.

(** ** Adding several bytes *)

Lemma alloc_pre_ok fuel : forall m src stack F,
  (length src <= fuel)%nat -> inv m (stack ++ F) ->
  exists o m', alloc_pre fuel m src stack = Ok (o, m') /\ frame m m' F /\
  match o with
  | None => inv m' F
  | Some st => inv m' (st ++ F) /\ bytes m' st = rev src ++ bytes m stack /\ exists l, st = l ++ stack /\ (src <> [] -> l <> [])
  end.
Proof.
  induction fuel as [|f IH]; intros m src stack F Hf HI.
  { destruct src; [|cbn in Hf; lia]. do 2 eexists. split; [done|]. split; [apply frame_refl|]. split; [done|]. split; [done|]. by exists []. }
  destruct src as [|x xs]; [do 2 eexists; split; [done|]; split; [apply frame_refl|]; split; [done|]; split; [done|]; by exists []|].
  cbn [alloc_pre]. set (src := x :: xs) in *. pose proof (SGetDBuf_fill m (stack ++ F) HI) as H. destruct (SGetDBuf m) as [[nb|] m1].
  2: { destruct H as [H1 H2]. destruct (put_blocks_ok stack m1 F H1) as (m2 & -> & HI2 & HF2). cbn [rbind].
       do 2 eexists. split; [done|]. split; [|done]. eapply frame_trans; [|done]. by apply frame_app_r in H2. }
  destruct H as (d & Hnb & Hd & Hl & Hk). rewrite Hd. cbn [rbind].
  set (lim := length (db_data d)) in *. set (n := Nat.min (length src) lim).
  assert (Hlen : (1 <= length src)%nat) by (unfold src; cbn; lia).
  assert (Hn1 : (1 <= n <= lim)%nat /\ (n <= length src)%nat) by (unfold n; lia).
  assert (Hn : length (rev (take n src)) = n) by (rewrite length_rev, length_take; lia).
  destruct (Hk (lim - n)%nat (rev (take n src))) as (HI2 & HF2 & Hw2); [intros Hx; rewrite Hx in Hn; change (0%nat = n) in Hn; lia|rewrite Hn; lia|].
  rewrite Hn in HI2, Hw2. replace (lim - n + n)%nat with lim in * by lia.
  rewrite Hnb. unfold update. cbn [b_id b_datap b_rptr b_wptr].
  destruct (IH (set_dblk m1 (b_id nb) (put_bytes d (lim - n) (rev (take n src)))) (drop n src) (mk_mblk (b_id nb) (b_id nb) (lim - n) lim :: stack) F) as (o & m3 & Heq & HF3 & Ho); [rewrite length_drop; lia|exact HI2|].
  rewrite Heq. do 2 eexists. split; [done|]. split; [eapply frame_trans; [|done]; by apply frame_app_r in HF2|].
  destruct o as [st|]; [|done]. destruct Ho as (HI3 & Hb3 & l & -> & _). split; [done|]. split.
  - rewrite Hb3, bytes_cons, Hw2, (frame_bytes_l _ _ _ _ HF2). rewrite <- (take_drop n src) at 3. by rewrite rev_app_distr, <- app_assoc.
  - exists (l ++ [mk_mblk (b_id nb) (b_id nb) (lim - n) lim]). rewrite <- app_assoc. split; [done|]. intros _ H%app_eq_nil. by destruct H.
Qed.

Lemma fill_front_ok m b src G :
  inv m (b :: G) ->
  exists m' b' rest off used, fill_front m b src = Ok (m', b', rest, off) /\ same_block b b' /\ inv m' (b' :: G) /\ frame m m' G /\
  src = used ++ rest /\ wbytes m' b' = rev used ++ wbytes m b /\ (off < b_wptr b')%nat /\
  (off = 0 -> rest = src)%nat.
Proof.
  intros HI. destruct (inv_dblk _ _ b HI) as (d & Hd & Hd' & Hw); [by left|]. unfold fill_front. rewrite Hd. cbn [rbind]. unfold in_window in Hw.
  destruct (Z.eqb_spec (db_ref d) 1) as [Hr|]; cbn [andb].
  2: { do 4 eexists. exists []. split; [done|]. split_and!; try done. lia. }
  destruct (Nat.eqb_spec (b_rptr b) 0) as [H0|H0]; cbn [negb].
  { do 4 eexists. exists []. split; [done|]. split_and!; try done. lia. }
  set (n := Nat.min (length src) (b_rptr b)).
  assert (Hn : length (rev (take n src)) = n) by (rewrite length_rev, length_take; lia).
  destruct (write_before m b d (rev (take n src)) G) as (HI2 & HF2 & Hw2); [done|done|done|lia|]. rewrite Hn in *.
  do 4 eexists. exists (take n src). split; [done|]. split; [by destruct b|]. split; [exact HI2|]. split; [exact HF2|].
  split; [by rewrite take_drop|]. split; [exact Hw2|]. split; [destruct b; cbn in *; lia|lia].
Qed.

(** If there is no memory the invariant holds, but the message may have other bytes. *)
Definition mult_post (m' : Mem) (mb' : Msg) (s' : list Z) (ret : Z) : Prop := (ret = ROK /\ msg_rep m' mb' s') \/ ret = ROUTRES.

Lemma set_front_inv m off l F :
  inv m (l ++ F) -> match l with [] => True | b :: _ => (off < b_wptr b)%nat end -> inv m (set_front off l ++ F).
Proof.
  destruct l as [|b l]; [done|]. intros HI Ho. destruct (inv_dblk _ _ b HI) as (d & _ & Hd & Hin); [by left|].
  cbn [set_front app]. eapply inv_move; [exact HI|exact Hd|by destruct b|].
  unfold in_window, update in *. destruct b. cbn in *. lia.
Qed.

(** The first part of [SAddPreMsgMult], for all messages. *)
Lemma front_ok m l src F :
  inv m (l ++ F) ->
  exists m' l' rest off used,
  match l return res (Mem * list SsMblk * list Z * nat) with
  | [] => Ok (m, [], src, 0%nat)
  | b :: l => let* (m, b, rest, offset) := fill_front m b src in Ok (m, b :: l, rest, offset)
  end = Ok (m', l', rest, off) /\ inv m' (l' ++ F) /\ frame m m' F /\ match l' with [] => True | b :: _ => (off < b_wptr b)%nat end /\
  src = used ++ rest /\ bytes m' l' = rev used ++ bytes m l /\ (l = [] <-> l' = []) /\ last_id l' = last_id l /\ (off = 0 -> rest = src)%nat.
Proof.
  intros HI. destruct l as [|b l].
  { do 4 eexists. exists []. split; [done|]. split_and!; try done. }
  destruct (fill_front_ok m b src (l ++ F) HI) as (m' & b' & rest & off & used & -> & Hs & HI' & HF & Hsrc & Hw & Hoff & H0).
  cbn [rbind]. do 4 eexists. exists used. split; [done|]. split; [exact HI'|].
  split; [by apply frame_app_r in HF|]. split; [done|]. split; [done|]. rewrite !bytes_cons, Hw, (frame_bytes_l _ _ _ _ HF), <- app_assoc.
  split; [done|]. split; [done|]. split; [|done]. apply last_id_head, Hs.
Qed.

Lemma SAddPreMsgMult_ok m src mb s F :
  inv m (b_cont mb ++ F) -> msg_rep m mb s -> src <> [] -> Z.of_nat (length src + length s) <= 0x7FFF ->
  result F m mb (SAddPreMsgMult m src mb) (fun m' mb' ret => mult_post m' mb' (rev src ++ s) ret).
Proof.
  intros HI [Hb Hn Hm He] Hne Hmax. destruct mb as [rg l n e]. cbn in *. unfold SAddPreMsgMult. cbn [b_cont].
  destruct (front_ok m l src F HI) as (m1 & l' & rest & off & used & -> & HI1 & HF1 & Hoff & Hsrc & Hb1 & Hnil & Hlast & H0). cbn [rbind].
  assert (Hi : i16 (n + Z.of_nat (length src)) = Z.of_nat (length (rev src ++ s)) /\ Z.of_nat (length (rev src ++ s)) <= 0x7FFF).
  { rewrite msglen_small, length_app, length_rev; lia. }
  destruct Hi as [Hi Hi2]. destruct (negb (off =? 0)%nat && (length rest =? 0)%nat) eqn:Hc.
  { apply andb_prop in Hc as [_ Hc]. apply Nat.eqb_eq, length_zero_iff_nil in Hc. subst rest. rewrite app_nil_r in Hsrc. subst used.
    unfold update. cbn. give; [exact HI1|done|]. left. split; [done|]. split; cbn; [by rewrite Hb1, Hb|done|by rewrite Hi|congruence]. }
  assert (Hrest : rest <> []).
  { intros ->. destruct (Nat.eqb_spec off 0) as [Ho|]; [|done]. by rewrite <- (H0 Ho) in Hne. }
  destruct (alloc_pre_ok (length rest) m1 rest [] (l' ++ F)) as (o & m2 & -> & HF2 & Ho); [lia|exact HI1|]. cbn [rbind].
  assert (HF : frame m m2 F) by (eapply frame_trans; [exact HF1|by apply frame_app_r in HF2]).
  destruct o as [st|]; [|unfold update; cbn; give; [by apply set_front_inv|done|by right]].
  destruct Ho as (HI2 & Hb2 & st' & -> & Hst). rewrite app_nil_r in *. destruct st' as [|b st']; [by destruct (Hst Hrest)|].
  unfold update. cbn [b_cont len endptr region].
  rewrite app_assoc in HI2. give; [exact HI2|done|]. left. split; [done|]. split; cbn [b_cont len endptr]; [|done|by rewrite Hi|].
  - rewrite bytes_app, Hb2, (frame_bytes_l _ _ _ _ HF2), Hb1, Hb, Hsrc, rev_app_distr. cbn. by rewrite app_nil_r, app_assoc.
  - destruct l' as [|b' l']; [by rewrite app_nil_r|]. by rewrite last_id_app, Hlast.
Qed.

(** The bytes in order are the reversed bytes one after the other. *)
Lemma alloc_pre_rev fuel : forall m src stack, alloc_pre_in_order fuel m src stack = alloc_pre fuel m (rev src) stack.
Proof.
  induction fuel as [|f IH]; intros m src stack.
  - destruct src as [|x xs]; [done|]. cbn. destruct (rev xs); done.
  - assert (Hx : forall (A : Type) (u v : A), match src with [] => u | _ => v end = match rev src with [] => u | _ => v end).
    { intros A u v. destruct src as [|x xs]; [done|]. cbn. by destruct (rev xs). }
    cbn [alloc_pre alloc_pre_in_order]. rewrite Hx. destruct (rev src) eqn:Hr; [done|]. rewrite <- Hr.
    destruct (SGetDBuf m) as [[nb|] m1]; [|done]. destruct (dblk m1 nb) as [d| |]; cbn [rbind]; [|done|done].
    rewrite IH, length_rev, firstn_rev, skipn_rev, rev_involutive. done.
Qed.

Lemma fill_front_rev m b src :
  fill_front m b (rev src) = let* (m, b, rest, off) := fill_front_in_order m b src in Ok (m, b, rev rest, off).
Proof.
  unfold fill_front, fill_front_in_order. destruct (dblk m b) as [d| |]; cbn [rbind]; [|done|done].
  destruct ((db_ref d =? 1) && negb (b_rptr b =? 0)%nat); cbn [rbind]; [|done].
  by rewrite length_rev, firstn_rev, skipn_rev, rev_involutive.
Qed.

Lemma SAddPreMsgMultInOrder_rev m src mb : SAddPreMsgMultInOrder m src mb = SAddPreMsgMult m (rev src) mb.
Proof.
  unfold SAddPreMsgMultInOrder, SAddPreMsgMult. rewrite length_rev.
  destruct (b_cont mb) as [|b l]; cbn [rbind]; [by rewrite length_rev, alloc_pre_rev|].
  rewrite fill_front_rev. destruct (fill_front_in_order m b src) as [[[[m1 b1] rest] off]| |]; cbn [rbind]; [|done|done].
  by rewrite length_rev, alloc_pre_rev.
Qed.

Lemma alloc_pst_ok fuel : forall m src chain F,
  (length src <= fuel)%nat -> inv m (chain ++ F) ->
  exists o m', alloc_pst fuel m src chain = Ok (o, m') /\ frame m m' F /\
  match o with
  | None => inv m' F
  | Some st => inv m' (st ++ F) /\ bytes m' st = bytes m chain ++ src /\ exists l, st = chain ++ l /\ (src <> [] -> l <> [])
  end.
Proof.
  induction fuel as [|f IH]; intros m src chain F Hf HI.
  { destruct src; [|cbn in Hf; lia]. do 2 eexists. split; [done|]. split; [apply frame_refl|]. split; [done|].
    split; [by rewrite app_nil_r|]. exists []. by rewrite app_nil_r. }
  destruct src as [|x xs].
  { do 2 eexists. split; [done|]. split; [apply frame_refl|]. split; [done|]. split; [by rewrite app_nil_r|]. exists []. by rewrite app_nil_r. }
  cbn [alloc_pst]. set (src := x :: xs) in *. pose proof (SGetDBuf_fill m (chain ++ F) HI) as H. destruct (SGetDBuf m) as [[nb|] m1].
  2: { destruct H as [H1 H2]. destruct (put_blocks_ok chain m1 F H1) as (m2 & -> & HI2 & HF2). cbn [rbind].
       do 2 eexists. split; [done|]. split; [|done]. eapply frame_trans; [|done]. by apply frame_app_r in H2. }
  destruct H as (d & Hnb & Hd & Hl & Hk). rewrite Hd. cbn [rbind].
  assert (Hlen : (1 <= length src)%nat) by (unfold src; cbn; lia).
  set (lim := length (db_data d)) in *. set (n := Nat.min (length src) lim).
  assert (Hn1 : (1 <= n <= lim)%nat /\ (n <= length src)%nat) by (unfold n; lia).
  assert (Hn : length (take n src) = n) by (rewrite length_take; lia).
  destruct (Hk 0%nat (take n src)) as (HI2 & HF2 & Hw2); [intros Hx; rewrite Hx in Hn; change (0%nat = n) in Hn; lia|rewrite Hn; lia|].
  rewrite Hn in HI2, Hw2. change (0 + n)%nat with n in *. rewrite Hnb. unfold update. cbn [b_id b_datap b_rptr b_wptr].
  assert (HI3 : inv (set_dblk m1 (b_id nb) (put_bytes d 0 (take n src))) ((chain ++ [mk_mblk (b_id nb) (b_id nb) 0 n]) ++ F)) by by apply inv_rot.
  destruct (IH (set_dblk m1 (b_id nb) (put_bytes d 0 (take n src))) (drop n src) (chain ++ [mk_mblk (b_id nb) (b_id nb) 0 n]) F) as (o & m3 & Heq & HF3 & Ho); [rewrite length_drop; lia|exact HI3|].
  rewrite Heq. do 2 eexists. split; [done|]. split; [eapply frame_trans; [|done]; by apply frame_app_r in HF2|].
  destruct o as [st|]; [|done]. destruct Ho as (HI4 & Hb4 & l & -> & _). split; [done|]. split.
  - rewrite Hb4, bytes_app, (frame_bytes_l _ _ _ _ HF2), <- app_assoc. f_equal. rewrite bytes_cons, Hw2. unfold bytes. cbn [flat_map].
    by rewrite app_nil_r, take_drop.
  - exists ([mk_mblk (b_id nb) (b_id nb) 0 n] ++ l). by rewrite <- app_assoc.
Qed.

Lemma fill_back_ok m b src G :
  inv m (b :: G) ->
  exists m' b' rest off used, fill_back m b src = Ok (m', b', rest, off) /\ same_block b b' /\ inv m' (b' :: G) /\ frame m m' G /\
  src = used ++ rest /\ wbytes m' b' = wbytes m b ++ used /\ (off = 0 -> rest = src)%nat /\
  forall d, dblks m' !! b_datap b' = Some d -> (b_rptr b' < length (db_data d) - off)%nat.
Proof.
  intros HI. destruct (inv_dblk _ _ b HI) as (d & Hd & Hd' & Hw); [by left|]. unfold fill_back. rewrite Hd. cbn [rbind]. unfold in_window in Hw.
  destruct ((db_ref d =? 1) && negb (length (db_data d) - b_wptr b =? 0)%nat) eqn:Hc.
  2: { do 4 eexists. exists []. split; [done|]. split_and!; try done; [by rewrite app_nil_r|]. intros d0 H0. simplify_eq. lia. }
  apply andb_prop in Hc as [Hr%Z.eqb_eq H0%negb_true_iff%Nat.eqb_neq].
  set (n := Nat.min (length src) (length (db_data d) - b_wptr b)).
  assert (Hn : length (take n src) = n) by (rewrite length_take; lia).
  destruct (write_behind m b d (take n src) G) as (HI2 & HF2 & Hw2); [done|done|done|lia|]. rewrite Hn in HI2, Hw2.
  do 4 eexists. exists (take n src). split; [done|]. split; [by destruct b|]. split; [exact HI2|]. split; [exact HF2|].
  split; [by rewrite take_drop|]. split; [exact Hw2|]. split; [lia|].
  intros d0. unfold set_dblk, update. destruct b. cbn in *. rewrite lookup_insert_eq. intros [= <-]. cbn.
  rewrite length_buf_write by lia. lia.
Qed.

(** What does not fit behind the last block goes into new blocks. *)
Lemma pst_rest_ok m mb rest l1 b off s' cnt F :
  inv m ((l1 ++ [b]) ++ F) -> rest <> [] ->
  (forall d, dblks m !! b_datap b = Some d -> (b_rptr b < length (db_data d) - off)%nat) ->
  bytes m (l1 ++ [b]) ++ rest = s' -> i16 (len mb + cnt) = Z.of_nat (length s') -> Z.of_nat (length s') <= 0x7FFF ->
  result F m mb
    (let* (chain, m) := alloc_pst (length rest) m rest [] in
     match chain with
     | None =>
       let* d := dblk m b in
       Ok (m, mb <| b_cont := l1 ++ b <| b_wptr := (length (db_data d) - off)%nat |> :: [] |>, ROUTRES)
     | Some chain =>
       Ok (m, mb <| b_cont := l1 ++ b :: chain |> <| endptr := last_id chain |> <| len := i16 (len mb + cnt) |>, ROK)
     end)
    (fun m' mb' ret => mult_post m' mb' s' ret).
Proof.
  intros HI Hrest Hoff Hb Hi Hi2. destruct mb as [rg l0 n e]. cbn in *.
  destruct (alloc_pst_ok (length rest) m rest [] ((l1 ++ [b]) ++ F)) as (o & m2 & -> & HF & Ho); [lia|exact HI|]. cbn [rbind].
  pose proof HF as HF'. apply frame_app_r in HF'. destruct o as [st|].
  - destruct Ho as (HI2 & Hb2 & l & -> & Hl). cbn in *. unfold update. cbn.
    give; [eapply inv_perm; [|exact HI2]; cbn; rewrite <- !app_assoc; cbn; solve_Permutation|done|].
    left. split; [done|]. split; cbn [b_cont len endptr]; [|done|by rewrite Hi|].
    + replace (l1 ++ b :: l) with ((l1 ++ [b]) ++ l) by by rewrite <- app_assoc. by rewrite bytes_app, (frame_bytes_l _ _ _ _ HF), Hb2.
    + destruct l as [|c l]; [by destruct (Hl Hrest)|]. by rewrite last_id_app, last_id_cons.
  - apply inv_rot in Ho. cbn in Ho. destruct (inv_dblk _ _ b Ho) as (d & Hd & Hd' & Hw); [by left|]. rewrite Hd. cbn [rbind].
    assert (Hx : ddata m2 b = ddata m b) by (apply HF; rewrite !list.elem_of_app; left; right; by left).
    unfold update. cbn. give; [|done|by right]. cbn [b_cont]. apply inv_rot. cbn. eapply inv_move; [exact Ho|exact Hd'|done|].
    unfold ddata in Hx. rewrite Hd' in Hx. destruct (dblks m !! b_datap b) as [d0|] eqn:Hd0; [|done]. injection Hx as Hx.
    specialize (Hoff d0 eq_refl). unfold in_window in *. cbn. rewrite Hx in *. lia.
Qed.

Lemma SAddPstMsgMult_ok m src mb s F :
  inv m (b_cont mb ++ F) -> msg_rep m mb s -> src <> [] -> Z.of_nat (length src + length s) <= 0x7FFF ->
  result F m mb (SAddPstMsgMult m src mb) (fun m' mb' ret => mult_post m' mb' (s ++ src) ret).
Proof.
  intros HI HR Hne Hmax. pose proof (last_block_ok _ _ _ _ HI HR) as Hlb. destruct mb as [rg l n e]. destruct HR as [Hb Hn Hm He]. cbn in *.
  assert (Hi : i16 (n + Z.of_nat (length src)) = Z.of_nat (length (s ++ src)) /\ Z.of_nat (length (s ++ src)) <= 0x7FFF).
  { rewrite msglen_small, length_app; lia. }
  destruct Hi as [Hi Hi2]. unfold SAddPstMsgMult. destruct Hlb as [[-> ->]|(l1 & b & -> & ->)]; cbn [rbind].
  - destruct (alloc_pst_ok (length src) m src [] F) as (o & m2 & -> & HF & Ho); [lia|exact HI|]. cbn [rbind].
    destruct o as [st|]; [|give; [done|done|by right]]. destruct Ho as (HI2 & Hb2 & l & -> & Hl). unfold update. cbn in *.
    give; [exact HI2|done|]. left. split; [done|]. split; cbn [b_cont len endptr]; [|done|by rewrite Hi|done].
    rewrite Hb2, <- Hb. done.
  - apply inv_rot in HI. cbn in HI.
    destruct (fill_back_ok m b src (l1 ++ F) HI) as (m1 & b' & rest & off & used & -> & [Hs1 Hs2] & HI1 & HF1 & Hsrc & Hw1 & H0 & Hoff). cbn [rbind].
    assert (Hb1 : bytes m1 (l1 ++ [b']) = s ++ used).
    { rewrite bytes_app, (frame_bytes_l _ _ _ _ HF1), bytes_cons, Hw1, <- Hb, bytes_app, bytes_cons. unfold bytes at 2 4. cbn. by rewrite !app_nil_r, app_assoc. }
    assert (HI1' : inv m1 ((l1 ++ [b']) ++ F)) by by apply inv_rot. apply frame_app_r in HF1.
    destruct (negb (off =? 0)%nat && (length rest =? 0)%nat) eqn:Hc.
    { apply andb_prop in Hc as [_ Hc]. apply Nat.eqb_eq, length_zero_iff_nil in Hc. subst rest. rewrite app_nil_r in Hsrc. subst used.
      unfold update. cbn. give; [exact HI1'|done|]. left. split; [done|]. split; cbn; [done|done|by rewrite Hi|].
      rewrite He, !last_id_snoc. congruence. }
    assert (Hrest : rest <> []).
    { intros ->. destruct (Nat.eqb_spec off 0) as [Ho|]; [|done]. by rewrite <- (H0 Ho) in Hne. }
    destruct (pst_rest_ok m1 (mk_msg rg (l1 ++ [b]) n e) rest l1 b' off (s ++ src) (Z.of_nat (length src)) F)
      as (m2 & mb2 & ret & Heq & HI2 & HF2 & Hrg & Hq); [exact HI1'|done|done| |done|done|].
    { by rewrite Hb1, Hsrc, app_assoc. }
    exists m2, mb2, ret. split; [exact Heq|]. split; [exact HI2|]. split; [by eapply frame_trans|]. by split.
Qed.

(** ** Removing *)

Definition removed (F : list SsMblk) (m : Mem) (mb : Msg) (r : res (Mem * Msg * Z * list Z)) (s' : list Z) (ret : Z) (out : list Z) : Prop :=
  exists m' mb', r = Ok (m', mb', ret, out) /\ inv m' (b_cont mb' ++ F) /\ frame m m' F /\ region mb' = region mb /\ msg_rep m' mb' s'.

Lemma last_id_none l : last_id l = None -> l = [].
Proof. destruct l as [|b l]; [done|]. unfold last_id. rewrite last_cons. by destruct (list.last l). Qed.

(** The first bytes of a block are dropped. *)
Lemma drop_front m b d n G :
  inv m (b :: G) -> dblks m !! b_datap b = Some d -> (n <= b_size b)%nat ->
  take n (drop (b_rptr b) (db_data d)) = take n (wbytes m b) /\
  ((n < b_size b)%nat -> let b' := b <| b_rptr := (b_rptr b + n)%nat |> in inv m (b' :: G) /\ wbytes m b' = drop n (wbytes m b)).
Proof.
  intros HI Hd Hn. destruct (inv_blk m _ HI b) as (d0 & Hd0 & Hw & _); [by left|]. simplify_eq. rewrite (wbytes_window m b d Hd).
  split; [unfold window; by rewrite take_take, Nat.min_l|]. intros Hlt b'. unfold window, b_size, in_window in *. split.
  - apply (inv_move m b b' d G HI Hd); [by destruct b|]. unfold b', in_window, update. destruct b. cbn in *. lia.
  - rewrite (wbytes_window m b' d) by by destruct b. unfold window, b', b_size, update. destruct b as [? ? r w]. cbn in *.
    rewrite skipn_firstn_comm, drop_drop. f_equal. lia.
Qed.

(** The last bytes of a block are dropped. *)
Lemma drop_back m b d n G :
  inv m (b :: G) -> dblks m !! b_datap b = Some d -> (n <= b_size b)%nat ->
  take n (drop (b_wptr b - n) (db_data d)) = drop (b_size b - n) (wbytes m b) /\
  ((n < b_size b)%nat -> let b' := b <| b_wptr := (b_wptr b - n)%nat |> in inv m (b' :: G) /\ wbytes m b' = take (b_size b - n) (wbytes m b)).
Proof.
  intros HI Hd Hn. destruct (inv_blk m _ HI b) as (d0 & Hd0 & Hw & _); [by left|]. simplify_eq. rewrite (wbytes_window m b d Hd).
  split.
  - unfold window, b_size, in_window in *. rewrite skipn_firstn_comm, drop_drop. f_equal; [lia|]. f_equal. lia.
  - intros Hlt b'. unfold window, b_size, in_window in *. split.
    + apply (inv_move m b b' d G HI Hd); [by destruct b|]. unfold b', in_window, update. destruct b. cbn in *. lia.
    + rewrite (wbytes_window m b' d) by by destruct b. unfold window, b', b_size, update. destruct b as [? ? r w]. cbn in *.
      rewrite take_take. f_equal. lia.
Qed.

Lemma rem_pre_loop_ok l : forall m cnt F,
  inv m (l ++ F) -> (cnt <= length (bytes m l))%nat ->
  exists m' l', rem_pre_loop m l cnt = Ok (m', l', take cnt (bytes m l)) /\ inv m' (l' ++ F) /\ frame m m' F /\
  bytes m' l' = drop cnt (bytes m l) /\ (l' = [] \/ last_id l' = last_id l).
Proof.
  induction l as [|b l IH]; intros m cnt F HI Hc.
  { change (cnt <= 0)%nat in Hc. destruct cnt; [|lia]. do 2 eexists. split; [done|]. split; [done|]. split; [apply frame_refl|]. split; [done|]. by left. }
  destruct cnt as [|c]; [do 2 eexists; split; [done|]; split; [done|]; split; [apply frame_refl|]; split; [done|]; by right|].
  cbn [rem_pre_loop]. set (cnt := S c) in *. destruct (inv_dblk _ _ b HI) as (d & Hd & Hd' & Hw); [by left|]. rewrite Hd. cbn [rbind].
  destruct (inv_size m _ b HI) as [Hsz Hpos]; [by left|]. rewrite bytes_cons, length_app, Hsz in Hc.
  destruct (drop_front m b d (Nat.min cnt (b_size b)) (l ++ F) HI Hd') as [Hout Hmove]; [lia|]. rewrite Hout, bytes_cons.
  destruct (Nat.eqb_spec (b_rptr (b <| b_rptr := (b_rptr b + Nat.min cnt (b_size b))%nat |>)) (b_wptr (b <| b_rptr := (b_rptr b + Nat.min cnt (b_size b))%nat |>))) as [He|He];
    unfold update, in_window, b_size in *; destruct b as [bi bp br bw]; cbn [b_id b_datap b_rptr b_wptr] in *.
  - assert (Hle : (bw - br <= cnt)%nat) by lia. rewrite Nat.min_r in * by lia.
    destruct (SPutDBuf_ok m _ (mk_mblk bi bp (br + (bw - br)) bw) (l ++ F) HI) as (m1 & -> & HI1 & HF1); [done|]. cbn [rbind].
    destruct (IH m1 (cnt - (bw - br))%nat F) as (m2 & l2 & -> & HI2 & HF2 & Hb2 & Hl2); [done|rewrite (frame_bytes_l _ _ _ _ HF1); lia|]. cbn [rbind].
    rewrite (frame_bytes_l _ _ _ _ HF1) in *. do 2 eexists. split.
    { rewrite (firstn_all2 (wbytes _ _)) by lia. rewrite take_app, (firstn_all2 (n := cnt)) by lia. rewrite Hsz. done. }
    split; [done|]. split; [eapply frame_trans; [|done]; by apply frame_app_r in HF1|].
    split; [rewrite Hb2, drop_app, (skipn_all2 (n := cnt)) by lia; by rewrite Hsz|].
    destruct Hl2 as [->|Hl2]; [by left|]. destruct l as [|x l]; [|by right; rewrite last_id_cons].
    left. by apply last_id_none.
  - assert (Hle : (cnt < bw - br)%nat) by lia. rewrite Nat.min_l in * by lia. destruct Hmove as [HI2 Hw2]; [lia|].
    do 2 eexists. split; [rewrite take_app_le by lia; done|]. split; [exact HI2|]. split; [apply frame_refl|].
    split; [rewrite bytes_cons, Hw2, drop_app_le by lia; done|]. right. by apply last_id_head.
Qed.

Lemma SRemPreMsgMult_ok m cnt mb s F :
  inv m (b_cont mb ++ F) -> msg_rep m mb s -> 0 <= cnt ->
  if Z.of_nat (length s) <? cnt then SRemPreMsgMult m cnt mb = Ok (m, mb, ROKDNA, [])
  else removed F m mb (SRemPreMsgMult m cnt mb) (drop (Z.to_nat cnt) s) ROK (take (Z.to_nat cnt) s).
Proof.
  intros HI [Hb Hn Hm He] Hc. unfold SRemPreMsgMult. rewrite Hn. destruct (Z.ltb_spec (Z.of_nat (length s)) cnt); [done|].
  destruct (rem_pre_loop_ok (b_cont mb) m (Z.to_nat cnt) F HI) as (m1 & l1 & -> & HI1 & HF1 & Hb1 & Hl1); [rewrite Hb; lia|]. cbn [rbind].
  rewrite Hb in *. do 2 eexists. split; [done|]. destruct mb as [rg l n e]. unfold update. cbn in *.
  split; [exact HI1|]. split; [done|]. split; [done|].
  assert (Hlen : i16 (Z.of_nat (length s) - cnt) = Z.of_nat (length (drop (Z.to_nat cnt) s))) by (rewrite msglen_small, length_drop; lia).
  split; cbn [b_cont len endptr]; [done|done|rewrite Hlen, length_drop; lia|].
  destruct (Z.eqb_spec (i16 (Z.of_nat (length s) - cnt)) 0) as [H0|H0].
  - destruct l1 as [|b l1]; [done|]. rewrite Hlen, <- Hb1, bytes_cons, length_app in H0.
    destruct (inv_size _ _ b HI1); [by left|]. lia.
  - destruct Hl1 as [->|Hl1]; [|congruence]. rewrite Hlen, <- Hb1 in H0. by cbn in H0.
Qed.

Lemma SRemPreMsg_mult m mb s F :
  inv m (b_cont mb ++ F) -> msg_rep m mb s -> s <> [] -> SRemPreMsg m mb = SRemPreMsgMult m 1 mb.
Proof.
  intros HI HR Hne. pose proof (rep_nil _ _ _ _ HI HR) as Hnil. destruct HR as [Hb Hn Hm He].
  unfold SRemPreMsg, SRemPreMsgMult. destruct (Z.ltb_spec (len mb) 1) as [|_]; [destruct s; [done|cbn in Hn; lia]|].
  destruct (b_cont mb) as [|b l] eqn:Hl; [tauto|]. destruct (inv_dblk _ _ b HI) as (d & Hd & Hd' & Hw); [by left|].
  destruct (inv_size _ _ b HI) as [_ Hpos]; [by left|]. change (Z.to_nat 1) with 1%nat. cbn [rem_pre_loop].
  rewrite Hd. cbn [rbind]. rewrite Nat.min_l by lia. unfold in_window in Hw.
  destruct (db_data d !! b_rptr b) as [x|] eqn:Hx; [|apply lookup_ge_None in Hx; lia].
  rewrite (drop_S _ _ _ Hx). cbn [take]. rewrite take_0, Nat.add_1_r.
  destruct (Nat.eqb_spec (b_rptr (b <| b_rptr := S (b_rptr b) |>)) (b_wptr (b <| b_rptr := S (b_rptr b) |>))); cbn [rbind]; [|done].
  destruct (SPutDBuf m (b <| b_rptr := S (b_rptr b) |>)); cbn [rbind]; [|done|done]. by destruct l.
Qed.

Lemma SRemPreMsg_ok m mb s F :
  inv m (b_cont mb ++ F) -> msg_rep m mb s ->
  match s with
  | [] => SRemPreMsg m mb = Ok (m, mb, ROKDNA, [])
  | x :: s' => removed F m mb (SRemPreMsg m mb) s' ROK [x]
  end.
Proof.
  intros HI HR. pose proof (rep_nil _ _ _ _ HI HR) as Hnil. destruct s as [|x s'].
  - unfold SRemPreMsg. by rewrite (proj1 Hnil eq_refl).
  - rewrite (SRemPreMsg_mult m mb (x :: s') F) by done. pose proof (SRemPreMsgMult_ok m 1 mb (x :: s') F HI HR) as H.
    destruct (Z.ltb_spec (Z.of_nat (length (x :: s'))) 1); [cbn in *; lia|]. by apply H.
Qed.

(** The block with an offset is found. *)
Lemma find_offset_ok l : forall m idx F,
  inv m (l ++ F) -> (idx <= length (bytes m l))%nat ->
  exists l1 l2 i, find_offset l idx = Ok (l1, l2, i) /\ l = l1 ++ l2 /\ idx = (length (bytes m l1) + i)%nat /\
  (i = 0%nat \/ exists b r, l2 = b :: r /\ (i < b_size b)%nat).
Proof.
  induction l as [|b l IH]; intros m idx F HI Hc.
  { change (idx <= 0)%nat in Hc. assert (idx = 0%nat) as -> by lia. exists [], [], 0%nat. split; [done|]. split; [done|]. split; [done|]. by left. }
  destruct idx as [|k]; [exists [], (b :: l), 0%nat; split; [done|]; split; [done|]; split; [done|]; by left|].
  destruct (inv_size _ _ b HI) as [Hsz Hpos]; [by left|]. rewrite bytes_cons, length_app, Hsz in Hc.
  cbn [find_offset]. destruct (Nat.ltb_spec (S k) (b_size b)) as [Hlt|Hge].
  { exists [], (b :: l), (S k). split; [done|]. split; [done|]. split; [done|]. right. by do 2 eexists. }
  destruct (IH m (S k - b_size b)%nat (b :: F)) as (l1 & l2 & i & -> & -> & Hi & Hor); [|lia|].
  { eapply inv_perm; [|exact HI]. cbn. solve_Permutation. }
  cbn [rbind]. exists (b :: l1), l2, i. split; [done|]. split; [done|]. split; [rewrite bytes_cons, length_app; lia|done].
Qed.

(** All that is behind the offset goes, in reverse order. *)
Lemma rem_pst_loop_ok l : forall m count cnt out F,
  inv m (l ++ F) -> (count + cnt = length (bytes m l))%nat -> (count = 0%nat \/ exists b r, l = b :: r /\ (count < b_size b)%nat) ->
  exists m' l', rem_pst_loop m l count cnt out = Ok (m', l', rev (drop count (bytes m l)) ++ out) /\ inv m' (l' ++ F) /\ frame m m' F /\
  bytes m' l' = take count (bytes m l).
Proof.
  induction l as [|b l IH]; intros m count cnt out F HI Hc Hor.
  { change (count + cnt = 0)%nat in Hc. assert (cnt = 0%nat) as -> by lia. assert (count = 0%nat) as -> by lia. do 2 eexists. split; [done|].
    split; [done|]. split; [apply frame_refl|]. done. }
  destruct (inv_size _ _ b HI) as [Hsz Hpos]; [by left|]. rewrite bytes_cons, length_app, Hsz in Hc.
  assert (Hlt : (count < b_size b)%nat) by (destruct Hor as [->|(? & ? & [= <- <-] & ?)]; lia). clear Hor.
  destruct cnt as [|c]; [lia|]. cbn [rem_pst_loop]. destruct (inv_dblk _ _ b HI) as (d & Hd & Hd' & Hw); [by left|]. rewrite Hd. cbn [rbind].
  rewrite Nat.min_r by lia. destruct (drop_back m b d (b_size b - count) (l ++ F) HI Hd') as [Hout Hmove]; [lia|].
  replace (b_size b - (b_size b - count))%nat with count in * by lia. cbn [b_wptr b_rptr update].
  replace (b_wptr (b <| b_wptr := (b_wptr b - (b_size b - count))%nat |>)) with (b_wptr b - (b_size b - count))%nat by by destruct b.
  replace (b_rptr (b <| b_wptr := (b_wptr b - (b_size b - count))%nat |>)) with (b_rptr b) by by destruct b.
  rewrite Hout, bytes_cons, drop_app_le by lia.
  destruct (Nat.eqb_spec (b_rptr b) (b_wptr b - (b_size b - count))) as [He|He].
  - assert (count = 0%nat) as -> by (unfold b_size, in_window in *; lia).
    destruct (SPutDBuf_ok m b (b <| b_wptr := (b_wptr b - (b_size b - 0))%nat |>) (l ++ F) HI) as (m1 & -> & HI1 & HF1); [by destruct b|]. cbn [rbind].
    destruct (IH m1 0%nat (S c - (b_size b - 0))%nat (rev (drop 0 (wbytes m b)) ++ out) F) as (m2 & l2 & -> & HI2 & HF2 & Hb2); [done|rewrite (frame_bytes_l _ _ _ _ HF1); lia|by left|].
    rewrite (frame_bytes_l _ _ _ _ HF1) in *. do 2 eexists. split; [by rewrite rev_app_distr, <- app_assoc|]. split; [done|].
    split; [eapply frame_trans; [|done]; by apply frame_app_r in HF1|]. by rewrite Hb2, !take_0.
  - destruct Hmove as [HI1 Hw1]; [unfold b_size, in_window in *; lia|].
    assert (HI1' : inv m (l ++ (b <| b_wptr := (b_wptr b - (b_size b - count))%nat |>) :: F)).
    { eapply inv_perm; [|exact HI1]. cbn. solve_Permutation. }
    destruct (IH m 0%nat (S c - (b_size b - count))%nat (rev (drop count (wbytes m b)) ++ out) _ HI1') as (m2 & l2 & -> & HI2 & HF2 & Hb2); [lia|by left|].
    cbn [rbind]. do 2 eexists. split; [by rewrite rev_app_distr, <- app_assoc|].
    split; [eapply inv_perm; [|exact HI2]; cbn; solve_Permutation|].
    split; [eapply frame_sub; [exact HF2|]; intros x Hx; by right|].
    rewrite bytes_cons, Hb2, take_0, app_nil_r, take_app_le by lia. rewrite <- Hw1. apply wbytes_ddata, HF2. by left.
Qed.

Lemma SRemPstMsgMult_ok m cnt mb s F :
  inv m (b_cont mb ++ F) -> msg_rep m mb s -> 0 <= cnt ->
  if Z.of_nat (length s) <? cnt then SRemPstMsgMult m cnt mb = Ok (m, mb, ROKDNA, [])
  else removed F m mb (SRemPstMsgMult m cnt mb) (take (length s - Z.to_nat cnt) s) ROK (rev (drop (length s - Z.to_nat cnt) s)).
Proof.
  intros HI [Hb Hn Hm He] Hc. unfold SRemPstMsgMult. rewrite Hn. destruct (Z.ltb_spec (Z.of_nat (length s)) cnt); [done|].
  rewrite msglen_small by lia. replace (Z.to_nat (Z.of_nat (length s) - cnt)) with (length s - Z.to_nat cnt)%nat by lia.
  set (k := (length s - Z.to_nat cnt)%nat). destruct mb as [rg l n e]. cbn in *.
  destruct (find_offset_ok l m k F HI) as (l1 & l2 & i & -> & -> & Hi & Hor); [rewrite Hb; lia|]. cbn [rbind].
  rewrite bytes_app in Hb. assert (HI2 : inv m (l2 ++ l1 ++ F)) by by apply inv_rot.
  assert (Hls : length s = (length (bytes m l1) + length (bytes m l2))%nat) by by rewrite <- Hb, length_app.
  destruct (rem_pst_loop_ok l2 m i (Z.to_nat cnt) [] (l1 ++ F)) as (m1 & l2' & -> & HI1 & HF1 & Hb1); [done|unfold k in Hi; lia|done|].
  cbn [rbind]. rewrite app_nil_r. assert (Hd : drop i (bytes m l2) = drop k s) by (rewrite Hi, <- Hb; by rewrite drop_app_add).
  assert (Ht : bytes m1 (l1 ++ l2') = take k s) by (rewrite bytes_app, (frame_bytes_l _ _ _ _ HF1), Hb1, Hi, <- Hb; by rewrite take_app_add).
  rewrite Hd. do 2 eexists. split; [done|]. unfold update. cbn. split; [by apply inv_rot|]. split; [by apply frame_app_r in HF1|]. split; [done|].
  split; cbn [b_cont len endptr]; [done|rewrite length_take; lia|lia|done].
Qed.

Lemma SRemPstMsg_ok m mb s F :
  inv m (b_cont mb ++ F) -> msg_rep m mb s ->
  (s = [] /\ SRemPstMsg m mb = Ok (m, mb, ROKDNA, [])) \/
  (exists s' x, s = s' ++ [x] /\ removed F m mb (SRemPstMsg m mb) s' ROK [x]).
Proof.
  intros HI HR. pose proof (last_block_ok _ _ _ _ HI HR) as Hlb. pose proof (rep_nil _ _ _ _ HI HR) as Hnil.
  destruct mb as [rg l n e]. destruct HR as [Hb Hn Hm He]. cbn in *. unfold SRemPstMsg.
  destruct Hlb as [[-> ->]|(l1 & b & -> & ->)]; cbn [rbind]; [left; tauto|right].
  apply inv_rot in HI. cbn in HI. destruct (inv_dblk _ _ b HI) as (d & Hd & Hd' & Hw); [by left|]. rewrite Hd. cbn [rbind].
  destruct (inv_size _ _ b HI) as [Hsz Hpos]; [by left|]. unfold in_window in Hw.
  destruct (Nat.eqb_spec (b_wptr b) 0); [lia|]. destruct (drop_back m b d 1 (l1 ++ F) HI Hd') as [Hout Hmove]; [lia|].
  destruct (db_data d !! (b_wptr b - 1)%nat) as [x|] eqn:Hx; [|apply lookup_ge_None in Hx; lia].
  rewrite (drop_S _ _ _ Hx) in Hout. cbn [take] in Hout. rewrite take_0 in Hout.
  assert (Hs : s = (bytes m l1 ++ take (b_size b - 1) (wbytes m b)) ++ [x]).
  { rewrite <- Hb, bytes_app, bytes_cons. unfold bytes at 2. cbn [flat_map]. by rewrite app_nil_r, <- app_assoc, Hout, take_drop. }
  exists (bytes m l1 ++ take (b_size b - 1) (wbytes m b)), x. split; [exact Hs|].
  replace (b_wptr (b <| b_wptr := (b_wptr b - 1)%nat |>)) with (b_wptr b - 1)%nat by by destruct b.
  replace (b_rptr (b <| b_wptr := (b_wptr b - 1)%nat |>)) with (b_rptr b) by by destruct b. rewrite Hx.
  assert (Hlen : i16 (n - 1) = Z.of_nat (length (bytes m l1 ++ take (b_size b - 1) (wbytes m b))) /\ i16 (n - 1) <= 0x7FFF).
  { rewrite Hs, (length_app _ [x]) in Hn. cbn in Hn. rewrite msglen_small; lia. }
  destruct (Nat.eqb_spec (b_rptr b) (b_wptr b - 1)) as [Heq|Hneq].
  - destruct (SPutDBuf_ok m b (b <| b_wptr := (b_wptr b - 1)%nat |>) (l1 ++ F) HI) as (m1 & -> & HI1 & HF1); [by destruct b|]. cbn [rbind].
    assert (Hz : take (b_size b - 1) (wbytes m b) = []) by (replace (b_size b - 1)%nat with 0%nat by (unfold b_size; lia); apply take_0).
    rewrite Hz, app_nil_r in *. unfold update. cbn. do 2 eexists. split; [done|]. split; [exact HI1|]. split; [by apply frame_app_r in HF1|].
    split; [done|]. split; cbn; [apply (frame_bytes_l _ _ _ _ HF1)|tauto|tauto|done].
  - destruct Hmove as [HI1 Hw1]; [unfold b_size in *; lia|]. cbn [rbind]. unfold update in *. cbn in *. do 2 eexists. split; [done|].
    split; [by apply inv_rot|]. split; [apply frame_refl|]. split; [done|]. split; cbn; [|tauto|tauto|by rewrite He, !last_id_snoc].
    rewrite bytes_app, bytes_cons, Hw1. unfold bytes at 2. cbn. by rewrite app_nil_r.
Qed.

(** ** Reading *)

Lemma find_in m l idx F :
  inv m (l ++ F) -> (idx < length (bytes m l))%nat ->
  exists l1 b r i, find_offset l idx = Ok (l1, b :: r, i) /\ l = l1 ++ b :: r /\ idx = (length (bytes m l1) + i)%nat /\ (i < b_size b)%nat.
Proof.
  intros HI Hlt. destruct (find_offset_ok l m idx F HI) as (l1 & l2 & i & -> & -> & Hi & Hor); [lia|].
  destruct Hor as [->|(b & r & -> & Hb)]; [|by exists l1, b, r, i].
  destruct l2 as [|b r]; [rewrite app_nil_r in Hlt; lia|]. exists l1, b, r, 0%nat. split_and!; try done.
  destruct (inv_size _ _ b HI); [|lia]. rewrite !list.elem_of_app. left. right. by left.
Qed.

Lemma SExamMsg_ok m mb s idx F :
  inv m (b_cont mb ++ F) -> msg_rep m mb s -> 0 <= idx ->
  SExamMsg m mb idx = match s !! Z.to_nat idx with None => Ok (ROKDNA, []) | Some x => Ok (ROK, [x]) end.
Proof.
  intros HI [Hb Hn Hm He] Hi. unfold SExamMsg. rewrite Hn. destruct (Z.leb_spec (Z.of_nat (length s)) idx) as [Hge|Hlt].
  { by rewrite (proj2 (lookup_ge_None s (Z.to_nat idx))) by lia. }
  destruct (find_in m (b_cont mb) (Z.to_nat idx) F HI) as (l1 & b & r & i & -> & Hl & Hidx & Hsz); [rewrite Hb; lia|]. cbn [rbind].
  destruct (inv_dblk _ _ b HI) as (d & Hd & Hd' & Hw); [rewrite Hl, !list.elem_of_app; left; right; by left|]. rewrite Hd. cbn [rbind].
  rewrite Hidx, <- Hb, Hl, bytes_app, bytes_cons, lookup_app_r by lia.
  replace (length (bytes m l1) + i - length (bytes m l1))%nat with i by lia.
  rewrite (wbytes_window _ _ _ Hd'). unfold window, in_window, b_size in *.
  rewrite lookup_app_l by (rewrite length_take, length_drop; lia). rewrite lookup_take_lt by lia. rewrite lookup_drop.
  destruct (db_data d !! (b_rptr b + i)%nat) eqn:Hx; [done|]. apply lookup_ge_None in Hx. lia.
Qed.

Lemma copy_loop_ok l : forall m i cnt F,
  inv m (l ++ F) -> (i = 0%nat \/ exists b r, l = b :: r /\ (i < b_size b)%nat) -> (i + cnt <= length (bytes m l))%nat ->
  copy_loop m l i cnt = Ok (take cnt (drop i (bytes m l))).
Proof.
  induction l as [|b l IH]; intros m i cnt F HI Hor Hc.
  { change (i + cnt <= 0)%nat in Hc. assert (cnt = 0%nat) as -> by lia. by rewrite take_0. }
  destruct cnt as [|c]; [by rewrite take_0|]. destruct (inv_size _ _ b HI) as [Hsz Hpos]; [by left|].
  rewrite bytes_cons, length_app, Hsz in Hc. cbn [copy_loop]. destruct (inv_dblk _ _ b HI) as (d & Hd & Hd' & Hw); [by left|].
  assert (Hi : (i < b_size b)%nat) by (destruct Hor as [->|(? & ? & [= <- <-] & ?)]; lia).
  rewrite Hd. cbn [rbind]. rewrite (IH m 0%nat (S c - Nat.min (S c) (b_size b - i))%nat (b :: F)); [|eapply inv_perm; [|exact HI]; cbn; solve_Permutation|by left|lia].
  cbn [rbind]. rewrite drop_0, bytes_cons, drop_app_le by lia. rewrite take_app, length_drop, Hsz. f_equal. f_equal; [|f_equal; lia].
  rewrite (wbytes_window _ _ _ Hd'). unfold window. rewrite skipn_firstn_comm, take_take, drop_drop. done.
Qed.

Lemma SCpyMsgFix_ok m mb s idx cnt F :
  inv m (b_cont mb ++ F) -> msg_rep m mb s -> 0 <= idx -> 0 < cnt ->
  SCpyMsgFix m mb idx cnt =
  if Z.of_nat (length s) <? idx + cnt then Ok (ROKDNA, []) else Ok (ROK, take (Z.to_nat cnt) (drop (Z.to_nat idx) s)).
Proof.
  intros HI [Hb Hn Hm He] Hi Hc. unfold SCpyMsgFix. rewrite Hn. destruct (Z.ltb_spec (Z.of_nat (length s)) (idx + cnt)) as [|Hle]; [done|].
  destruct (find_in m (b_cont mb) (Z.to_nat idx) F HI) as (l1 & b & r & i & -> & Hl & Hidx & Hsz); [rewrite Hb; lia|]. cbn [rbind].
  assert (Hs : s = bytes m l1 ++ bytes m (b :: r)) by by rewrite <- Hb, Hl, bytes_app.
  rewrite (copy_loop_ok (b :: r) m i (Z.to_nat cnt) (l1 ++ F)); [|rewrite Hl in HI; by apply inv_rot|right; by do 2 eexists|].
  - cbn [rbind]. rewrite Hidx, Hs. by rewrite drop_app_add.
  - rewrite Hs, length_app in Hle. lia.
Qed.
