(* ===== verification/OduMsgChain.v ===== *)
(** The operations of the O-DU that share, join and split messages.  A copy of a message shares its
    data blocks; what is later done to the one is not seen in the other. *)

From S2P Require Import Prelude CmHash OduMsg OduMsgInv OduMsgOps.

(** No data block has so many references that a copy of all blocks overflows its counter. *)
Definition few (B : list SsMblk) : Prop := forall a, (refs a B <= 127)%nat.

Lemma few_perm B B' : B ≡ₚ B' -> few B -> few B'.
Proof. intros HP H a. rewrite <- (refs_perm a _ _ HP). apply H. Qed.

Lemma SGetMsg_ok m reg F :
  inv m F -> exists o m', SGetMsg m reg = (o, m') /\ inv m' F /\ frame m m' F /\ (o = None \/ o = Some (mk_msg reg [] 0 None)).
Proof.
  intros HI. unfold SGetMsg, SAlloc. destruct (avail m) as [|[[a buf]|] rest] eqn:Ha.
  - do 2 eexists. split; [done|]. split; [done|]. split; [apply frame_refl|]. by left.
  - do 2 eexists. split; [done|]. split; [by eapply avail_inv|]. split; [by intros ??|]. by right.
  - do 2 eexists. split; [done|]. split; [by eapply avail_inv|]. split; [by intros ??|]. by left.
Qed.

Lemma rep_empty m reg : msg_rep m (mk_msg reg [] 0 None) [].
Proof. split; try done. Qed.

Lemma SPutMsg_ok m mb F : inv m (b_cont mb ++ F) -> exists m', SPutMsg m mb = Ok m' /\ inv m' F /\ frame m m' F.
Proof. apply put_blocks_ok. Qed.

(** ** Copies *)

Lemma dup_chain_ok l : forall m done_ B,
  inv m (done_ ++ B) -> l ⊆ B -> (forall a, (refs a (done_ ++ B) + refs a l <= 255)%nat) ->
  exists o m', dup_chain m l done_ = Ok (o, m') /\ frame m m' B /\
  match o with
  | None => inv m' B
  | Some st => inv m' (st ++ B) /\ bytes m' st = bytes m done_ ++ bytes m l
  end.
Proof.
  induction l as [|b l IH]; intros m dn B HI Hsub Href; cbn [dup_chain].
  { do 2 eexists. split; [done|]. split; [apply frame_refl|]. split; [done|]. by rewrite app_nil_r. }
  assert (HbB : b ∈ B) by (apply Hsub; by left).
  destruct (DupMsg_ok m b (dn ++ B) HI) as (c & m1 & -> & Hc); [apply list.elem_of_app; by right| |].
  { specialize (Href (b_datap b)). rewrite blk_refs_cons, decide_True in Href by done. lia. }
  cbn [rbind]. destruct c as [c|].
  - destruct Hc as (HI1 & HF1 & Hw & Hdp & Hrp & Hwp).
    assert (HI1' : inv m1 ((dn ++ [c]) ++ B)) by by apply inv_rot.
    destruct (IH m1 (dn ++ [c]) B HI1') as (o & m2 & -> & HF2 & Ho); [intros x Hx; apply Hsub; by right| |].
    { intros a. specialize (Href a). rewrite !blk_refs_app in *. rewrite blk_refs_cons in *. rewrite Hdp. unfold refs at 2. cbn. lia. }
    do 2 eexists. split; [done|]. split; [eapply frame_trans; [|exact HF2]; by apply frame_app_r in HF1|].
    destruct o as [st|]; [|done]. destruct Ho as [HI2 Hb2]. split; [done|].
    rewrite Hb2, bytes_app, (frame_bytes_l _ _ _ _ HF1), <- app_assoc, !bytes_cons, Hw.
    unfold bytes at 2. cbn [flat_map]. rewrite app_nil_r. rewrite (frame_bytes m m1 (dn ++ B) l HF1); [done|].
    intros x Hx. apply list.elem_of_app. right. apply Hsub. by right.
  - destruct Hc as [HI1 Hd1]. destruct (put_blocks_ok dn m1 B HI1) as (m2 & -> & HI2 & HF2). cbn [rbind].
    do 2 eexists. split; [done|]. split; [|done]. intros x Hx. rewrite (HF2 x Hx). unfold ddata. by rewrite Hd1.
Qed.

Lemma SCpyMsgMsg_ok m mb s reg F :
  inv m (b_cont mb ++ F) -> msg_rep m mb s -> few (b_cont mb ++ F) ->
  exists m' o ret, SCpyMsgMsg m mb reg = Ok (m', o, ret) /\ frame m m' (b_cont mb ++ F) /\
  match o with
  | None => inv m' (b_cont mb ++ F) /\ failed ret = true
  | Some dst => inv m' (b_cont dst ++ b_cont mb ++ F) /\ msg_rep m' dst s /\ region dst = reg /\ ret = ROK
  end.
Proof.
  intros HI [Hb Hn Hm He] Hf. unfold SCpyMsgMsg. destruct (SGetMsg_ok m reg _ HI) as (o & m1 & -> & HI1 & HF1 & [->| ->]).
  { do 3 eexists. split; [done|]. by split. }
  destruct (dup_chain_ok (b_cont mb) m1 [] (b_cont mb ++ F) HI1) as (o & m2 & -> & HF2 & Ho); [set_solver| |].
  { intros a. pose proof (Hf a). cbn. rewrite blk_refs_app in *. lia. }
  cbn [rbind]. assert (HF : frame m m2 (b_cont mb ++ F)) by (by eapply frame_trans).
  destruct o as [st|]; [|do 3 eexists; split; [done|]; by split].
  destruct Ho as [HI2 Hb2]. unfold update. cbn. do 3 eexists. split; [done|]. split; [done|].
  split; [exact HI2|]. split; [|done]. split; cbn; try done. rewrite Hb2. cbn. by rewrite (frame_bytes_l _ _ _ _ HF1).
Qed.

(** ** Joining *)

Definition joined (order : Z) (s1 s2 : list Z) : list Z := if order =? 0 then s1 ++ s2 else s2 ++ s1.

Lemma link_chains_ok m mb1 newb s1 s2 order F :
  inv m (b_cont mb1 ++ b_cont newb ++ F) -> msg_rep m mb1 s1 -> msg_rep m newb s2 -> b_cont newb <> [] -> order = 0 \/ order = 1 ->
  exists l e, link_chains mb1 newb order = Ok (Some (l, e)) /\ l ≡ₚ b_cont newb ++ b_cont mb1 /\ bytes m l = joined order s1 s2 /\ e = last_id l.
Proof.
  intros HI HR1 HR2 Hne Ho. assert (HI2 : inv m (b_cont newb ++ b_cont mb1 ++ F)) by (eapply inv_perm; [|exact HI]; solve_Permutation).
  pose proof (last_block_ok _ _ _ _ HI HR1) as Hl1. pose proof (last_block_ok _ _ _ _ HI2 HR2) as Hl2.
  destruct HR1 as [Hb1 _ _ He1], HR2 as [Hb2 _ _ He2]. unfold link_chains, joined.
  destruct (b_cont mb1) as [|c l1'] eqn:Hc1.
  { do 2 eexists. split; [done|]. split; [by rewrite app_nil_r|]. change (bytes m []) with (@nil Z) in Hb1. subst s1.
    rewrite app_nil_r. split; [by destruct (order =? 0)|done]. }
  destruct Hl1 as [[? _]|(k1 & x1 & Hk1 & ->)]; [done|]. destruct Hl2 as [[? _]|(k2 & x2 & Hk2 & ->)]; [done|].
  destruct Ho as [->| ->]; cbn [Z.eqb rbind].
  - do 2 eexists. split; [done|]. replace (k1 ++ x1 :: b_cont newb) with ((c :: l1') ++ b_cont newb) by (rewrite Hk1, <- app_assoc; done).
    split; [solve_Permutation|]. split; [by rewrite bytes_app, Hb1, Hb2|].
    rewrite He2. destruct (b_cont newb); [done|]. by rewrite last_id_app.
  - do 2 eexists. split; [done|]. replace (k2 ++ x2 :: c :: l1') with (b_cont newb ++ c :: l1') by (rewrite Hk2, <- app_assoc; done).
    split; [done|]. split; [by rewrite bytes_app, Hb1, Hb2|]. rewrite He1. by rewrite last_id_app.
Qed.

Lemma link_rep m mb1 newb s1 s2 order G :
  inv m (b_cont mb1 ++ b_cont newb ++ G) -> msg_rep m mb1 s1 -> msg_rep m newb s2 -> b_cont newb <> [] -> order = 0 \/ order = 1 ->
  Z.of_nat (length s1 + length s2) <= 0x7FFF ->
  exists l e, link_chains mb1 newb order = Ok (Some (l, e)) /\ inv m (l ++ G) /\
  msg_rep m (mk_msg (region mb1) l (i16 (len mb1 + len newb)) e) (joined order s1 s2).
Proof.
  intros HI HR1 HR2 Hne Ho Hmax. destruct (link_chains_ok m mb1 newb s1 s2 order G) as (l & e & Heq & HP & Hb & He); [done..|].
  exists l, e. split; [done|]. split; [eapply inv_perm; [|exact HI]; rewrite HP; solve_Permutation|].
  destruct HR1 as [_ Hn1 _ _], HR2 as [_ Hn2 _ _].
  assert (Hl : length (joined order s1 s2) = (length s1 + length s2)%nat) by (unfold joined; destruct (order =? 0); rewrite length_app; lia).
  split; cbn [b_cont len endptr]; [done|rewrite msglen_small; lia|rewrite msglen_small; lia|done].
Qed.

(** The second message is moved into the first; from another region it is copied and put back. *)
Definition cat_post (m' : Mem) (mb1 mb2 mb1' mb2' : Msg) (s1 s2 : list Z) (order ret : Z) : Prop :=
  (ret = ROK /\ msg_rep m' mb1' (joined order s1 s2) /\ msg_rep m' mb2' []) \/
  (failed ret = true /\ region mb1 <> region mb2 /\ msg_rep m' mb1' s1 /\ msg_rep m' mb2' s2).

Lemma SCatMsg_ok m mb1 mb2 s1 s2 order F :
  inv m (b_cont mb1 ++ b_cont mb2 ++ F) -> msg_rep m mb1 s1 -> msg_rep m mb2 s2 ->
  order = 0 \/ order = 1 -> Z.of_nat (length s1 + length s2) <= 0x7FFF -> few (b_cont mb1 ++ b_cont mb2 ++ F) \/ region mb1 = region mb2 ->
  exists m' mb1' mb2' ret, SCatMsg m mb1 mb2 order = Ok (m', mb1', mb2', ret) /\ inv m' (b_cont mb1' ++ b_cont mb2' ++ F) /\
  frame m m' F /\ region mb1' = region mb1 /\ region mb2' = region mb2 /\ cat_post m' mb1 mb2 mb1' mb2' s1 s2 order ret.
Proof.
  intros HI HR1 HR2 Ho Hmax Hf. unfold SCatMsg. destruct (b_cont mb2) as [|c l2'] eqn:Hc2.
  { do 4 eexists. split; [done|]. rewrite Hc2. split; [done|]. split; [apply frame_refl|]. split; [done|]. split; [done|].
    assert (s2 = []) as -> by (destruct HR2 as [H _ _ _]; by rewrite Hc2 in H).
    left. split; [done|]. split; [|done]. unfold joined. rewrite app_nil_r. by destruct (order =? 0). }
  rewrite <- Hc2 in *. assert (Hne : b_cont mb2 <> []) by (by rewrite Hc2). clear Hc2.
  destruct (Z.eqb_spec (region mb1) (region mb2)) as [Hreg|Hreg]; cbn [rbind].
  - destruct (link_rep m mb1 mb2 s1 s2 order F) as (l & e & -> & HI' & HR'); [done..|]. cbn [rbind]. unfold update. cbn.
    do 4 eexists. split; [done|]. split; [exact HI'|]. split; [apply frame_refl|]. split; [done|]. split; [done|].
    left. split; [done|]. split; [exact HR'|]. split; done.
  - destruct Hf as [Hf|]; [|done]. assert (HI2 : inv m (b_cont mb2 ++ b_cont mb1 ++ F)) by (eapply inv_perm; [|exact HI]; solve_Permutation).
    destruct (SCpyMsgMsg_ok m mb2 s2 (region mb1) (b_cont mb1 ++ F)) as (m1 & o & ret & -> & HF1 & Hcp); [done|done| |].
    { eapply few_perm; [|exact Hf]. solve_Permutation. }
    cbn [rbind]. assert (HF1' : frame m m1 (b_cont mb1 ++ F)) by (by apply frame_app_r in HF1).
    assert (HR1' : msg_rep m1 mb1 s1) by (eapply rep_frame; [exact HR1|exact HF1'|set_solver]).
    destruct o as [dst|].
    2: { destruct Hcp as [HI3 Hret]. do 4 eexists. split; [done|]. split; [eapply inv_perm; [|exact HI3]; solve_Permutation|].
         split; [by apply frame_app_r in HF1'|]. split; [done|]. split; [done|]. right. split; [done|]. split; [done|]. split; [done|].
         eapply rep_frame; [exact HR2|exact HF1|set_solver]. }
    destruct Hcp as (HI3 & HRd & Hrd & _). assert (Hdne : b_cont dst <> []).
    { rewrite <- (rep_nil _ _ _ _ HI3 HRd). by rewrite (rep_nil _ _ _ _ HI2 HR2). }
    destruct (link_rep m1 mb1 dst s1 s2 order (b_cont mb2 ++ F)) as (l & e & -> & HI4 & HR4); [|done..|].
    { eapply inv_perm; [|exact HI3]. solve_Permutation. }
    cbn [rbind]. destruct (put_blocks_ok (b_cont mb2) m1 (l ++ F)) as (m2 & -> & HI5 & HF5).
    { eapply inv_perm; [|exact HI4]. solve_Permutation. }
    cbn [rbind]. unfold update. cbn. do 4 eexists. split; [done|]. split; [exact HI5|].
    split; [eapply frame_trans; [by apply frame_app_r in HF1'|by apply frame_app_r in HF5]|]. split; [done|]. split; [done|].
    left. split; [done|]. split; [|by split]. eapply rep_frame; [exact HR4|exact HF5|]. cbn. set_solver.
Qed.

(** ** Splitting *)

(** A block is split: its duplicate has what is behind the offset. *)
Lemma dup_split m b i B :
  inv m (b :: B) -> (0 < i < b_size b)%nat -> few (b :: B) ->
  exists c m', DupMsg m b = Ok (c, m') /\ frame m m' (b :: B) /\
  match c with
  | None => inv m' (b :: B)
  | Some c =>
    let b' := b <| b_wptr := (b_rptr b + i)%nat |> in let c' := c <| b_rptr := (b_rptr c + i)%nat |> in
    inv m' (c' :: b' :: B) /\ wbytes m' b' = take i (wbytes m b) /\ wbytes m' c' = drop i (wbytes m b)
  end.
Proof.
  intros HI Hi Hf. destruct (DupMsg_ok m b (b :: B) HI) as (c & m1 & -> & Hc); [by left|specialize (Hf (b_datap b)); lia|].
  do 2 eexists. split; [done|]. destruct c as [c|].
  2: { destruct Hc as [? Hd]. split; [intros x _; unfold ddata; by rewrite Hd|done]. }
  destruct Hc as (HI1 & HF1 & Hw & Hdp & Hrp & Hwp). split; [done|].
  destruct (inv_dblk _ _ c HI1) as (d & _ & Hd & Hin); [by left|].
  assert (Hsz : b_size c = b_size b) by (unfold b_size; congruence).
  destruct (drop_front m1 c d i _ HI1 Hd) as [_ Hm1]; [lia|]. destruct Hm1 as [HI2 Hw2]; [lia|].
  set (c' := c <| b_rptr := (b_rptr c + i)%nat |>) in *.
  assert (HI3 : inv m1 (b :: c' :: B)) by (eapply inv_perm; [|exact HI2]; solve_Permutation).
  assert (Hd' : dblks m1 !! b_datap b = Some d) by by rewrite <- Hdp.
  destruct (drop_back m1 b d (b_size b - i) _ HI3 Hd') as [_ Hm2]; [lia|]. destruct Hm2 as [HI4 Hw4]; [lia|].
  replace (b_wptr b - (b_size b - i))%nat with (b_rptr b + i)%nat in * by (unfold b_size in *; lia).
  replace (b_size b - (b_size b - i))%nat with i in * by lia.
  assert (Hwb : wbytes m1 b = wbytes m b) by (apply wbytes_ddata, HF1; by left).
  rewrite Hwb in Hw4. rewrite Hw in Hw2. intros b' c2. split; [eapply inv_perm; [|exact HI4]; apply perm_swap|]. by split.
Qed.

Definition seg_post (m' : Mem) (mb mb' : Msg) (o : option Msg) (s : list Z) (idx : nat) (ret : Z) (F : list SsMblk) : Prop :=
  match o with
  | None => inv m' (b_cont mb' ++ F) /\ msg_rep m' mb' s /\ failed ret = true
  | Some mb2 => inv m' (b_cont mb' ++ b_cont mb2 ++ F) /\ msg_rep m' mb' (take idx s) /\ msg_rep m' mb2 (drop idx s) /\
                region mb2 = region mb /\ ret = ROK
  end.

Lemma rep_parts m rg l1 l2 s idx e1 e2 :
  bytes m l1 = take (Z.to_nat idx) s -> bytes m l2 = drop (Z.to_nat idx) s -> 0 <= idx <= Z.of_nat (length s) ->
  Z.of_nat (length s) <= 0x7FFF -> e1 = last_id l1 -> e2 = last_id l2 ->
  msg_rep m (mk_msg rg l1 idx e1) (take (Z.to_nat idx) s) /\
  msg_rep m (mk_msg rg l2 (Z.of_nat (length s) - idx) e2) (drop (Z.to_nat idx) s).
Proof.
  intros H1 H2 Hi Hm He1 He2. split; split; cbn; try done; rewrite ?length_take, ?length_drop; lia.
Qed.

Lemma last_id_two l1 l2 : l2 <> [] -> last_id (l1 ++ l2) = last_id l2.
Proof. destruct l2; [done|]. intros _. apply last_id_app. Qed.

(** The block that has the offset is split. *)
Lemma seg_in_block m l1 tmp rest i n rg idx s F :
  inv m ((l1 ++ tmp :: rest) ++ F) -> (0 < i < b_size tmp)%nat -> few ((l1 ++ tmp :: rest) ++ F) ->
  bytes m (l1 ++ tmp :: rest) = s -> Z.to_nat idx = (length (bytes m l1) + i)%nat -> 0 <= idx -> n = Z.of_nat (length s) -> n <= 0x7FFF ->
  exists m' mb' o ret,
    (let* (next, m) := DupMsg m tmp in
     match next with
     | None => Ok (m, mk_msg rg (l1 ++ tmp :: rest) (i16 (idx + (n - idx))) (last_id (l1 ++ tmp :: rest)), None, ROUTRES)
     | Some next =>
       let tmp' := tmp <| b_wptr := (b_rptr tmp + i)%nat |> in
       let next := next <| b_rptr := (b_rptr next + i)%nat |> in
       Ok (m, mk_msg rg (l1 ++ [tmp']) idx (match rest with [] => last_id (l1 ++ tmp :: rest) | _ => Some (b_id tmp') end),
           Some (mk_msg rg (next :: rest) (n - idx) (match rest with [] => Some (b_id next) | _ => last_id (l1 ++ tmp :: rest) end)), ROK)
     end) = Ok (m', mb', o, ret) /\ frame m m' F /\ region mb' = rg /\
    seg_post m' (mk_msg rg (l1 ++ tmp :: rest) n (last_id (l1 ++ tmp :: rest))) mb' o s (Z.to_nat idx) ret F.
Proof.
  intros HI Hi Hf Hb Hidx H0 Hn Hm. assert (HP : (l1 ++ tmp :: rest) ++ F ≡ₚ tmp :: l1 ++ rest ++ F) by (rewrite <- app_assoc; cbn; solve_Permutation).
  destruct (dup_split m tmp i (l1 ++ rest ++ F)) as (c & m1 & -> & HF & Hc); [by eapply inv_perm|done|by eapply few_perm|]. cbn [rbind].
  assert (HFF : frame m m1 F) by (eapply frame_sub; [exact HF|]; set_solver).
  destruct c as [c|]; do 4 eexists; (split; [done|]); (split; [done|]); (split; [done|]).
  - destruct Hc as (HI' & Hw1 & Hw2). unfold seg_post. cbn [b_cont region]. split.
    { eapply inv_perm; [|exact HI']. rewrite <- !app_assoc. cbn. solve_Permutation. }
    assert (Hl1 : bytes m1 l1 = bytes m l1) by (eapply frame_bytes; [exact HF|set_solver]).
    assert (Hr : bytes m1 rest = bytes m rest) by (eapply frame_bytes; [exact HF|set_solver]).
    destruct (inv_size m _ tmp HI) as [Hsz _]; [rewrite !list.elem_of_app; left; right; by left|].
    rewrite bytes_app, bytes_cons in Hb. rewrite Hn in *.
    destruct (rep_parts m1 rg (l1 ++ [tmp <| b_wptr := (b_rptr tmp + i)%nat |>]) (c <| b_rptr := (b_rptr c + i)%nat |> :: rest) s idx
      (match rest with [] => last_id (l1 ++ tmp :: rest) | _ => Some (b_id (tmp <| b_wptr := (b_rptr tmp + i)%nat |>)) end)
      (match rest with [] => Some (b_id (c <| b_rptr := (b_rptr c + i)%nat |>)) | _ => last_id (l1 ++ tmp :: rest) end)) as [R1 R2]; [..|by split_and!].
    + rewrite bytes_app, bytes_cons, Hw1, Hl1, Hidx, <- Hb, take_app_add. unfold bytes at 2. cbn. by rewrite app_nil_r, take_app_le by lia.
    + rewrite bytes_cons, Hw2, Hr, Hidx, <- Hb, drop_app_add. by rewrite drop_app_le by lia.
    + rewrite <- Hb, !length_app. lia.
    + done.
    + rewrite last_id_snoc. destruct rest; [|done]. rewrite last_id_snoc. by destruct tmp.
    + destruct rest; [done|]. by rewrite last_id_app, !last_id_cons.
  - unfold seg_post. cbn [b_cont]. split; [by eapply inv_perm|]. split; [|done].
    split; cbn; [|rewrite msglen_small; lia|rewrite msglen_small; lia|done]. rewrite <- Hb. eapply frame_bytes; [exact HF|]. set_solver.
Qed.

Lemma SSegMsg_ok m mb s idx F :
  inv m (b_cont mb ++ F) -> msg_rep m mb s -> 0 <= idx -> few (b_cont mb ++ F) ->
  if Z.of_nat (length s) <=? idx then SSegMsg m mb idx = Ok (m, mb, None, ROKDNA)
  else exists m' mb' o ret, SSegMsg m mb idx = Ok (m', mb', o, ret) /\ frame m m' F /\ region mb' = region mb /\
       seg_post m' mb mb' o s (Z.to_nat idx) ret F.
Proof.
  intros HI HR Hi Hf. pose proof HR as [Hb Hn Hm He]. unfold SSegMsg. rewrite Hn. destruct (Z.leb_spec (Z.of_nat (length s)) idx) as [|Hlt]; [done|].
  destruct (SGetMsg_ok m (region mb) _ HI) as (o & m1 & -> & HI1 & HF1 & [->| ->]).
  { do 4 eexists. split; [done|]. split; [by apply frame_app_r in HF1|]. split; [done|]. split; [done|]. split; [|done].
    eapply rep_frame; [exact HR|exact HF1|set_solver]. }
  assert (Hb1 : bytes m1 (b_cont mb) = s) by (by rewrite (frame_bytes_l _ _ _ _ HF1)).
  apply frame_app_r in HF1. clear HR Hb HI. destruct mb as [rg l n e]. cbn in *. rewrite (msglen_small (Z.of_nat (length s) - idx)) by lia.
  destruct (Z.eqb_spec idx 0) as [->|H0].
  { unfold update. cbn. do 4 eexists. split; [done|]. split; [done|]. split; [done|]. split; [exact HI1|]. cbn.
    split; [by split|]. split; [|done]. change (Z.to_nat 0) with 0%nat. rewrite drop_0. split; cbn; [done|lia|lia|done]. }
  destruct (find_offset_ok l m1 (Z.to_nat idx) F HI1) as (l1 & l2 & i & -> & -> & Hidx & Hor); [rewrite Hb1; lia|]. cbn [rbind].
  rewrite bytes_app in Hb1. destruct (Nat.eqb_spec i 0) as [->|Hi0].
  { unfold update. cbn. do 4 eexists. split; [done|]. split; [done|]. split; [done|]. unfold seg_post. cbn [b_cont region].
    split; [by rewrite <- app_assoc in HI1|]. assert (Hl2 : l2 <> []) by (intros ->; rewrite <- Hb1 in Hlt; cbn in Hlt; rewrite app_nil_r in Hlt; lia).
    destruct (rep_parts m1 rg l1 l2 s idx (last_id l1) e) as [R1 R2]; [..|by split_and!].
    - rewrite Hidx, <- Hb1, Nat.add_0_r. by rewrite take_app_length.
    - rewrite Hidx, <- Hb1, Nat.add_0_r. by rewrite drop_app_length.
    - lia.
    - lia.
    - done.
    - by rewrite He, last_id_two. }
  destruct Hor as [?|(tmp & rest & -> & Hsz)]; [done|].
  destruct (seg_in_block m1 l1 tmp rest i n rg idx s F) as (m2 & mb2 & o & ret & Heq & HF & Hrg & Hp); [done|lia|done|by rewrite bytes_app|done|done|lia|lia|].
  exists m2, mb2, o, ret. rewrite <- Heq, <- Hn, He. unfold update. cbn.
  split; [reflexivity|]. split; [by eapply frame_trans|]. by split.
Qed.

(** ** Inserting *)

Definition insert_at (idx : nat) (src s : list Z) : list Z :=
  if (idx =? 0)%nat then rev src ++ s else take idx s ++ src ++ drop idx s.

Definition insert_post (m' : Mem) (mb' : Msg) (s' : list Z) (ret : Z) : Prop := (ret = ROK /\ msg_rep m' mb' s') \/ failed ret = true.

Lemma SCpyFixMsg_ok m src mb s idx F :
  inv m (b_cont mb ++ F) -> msg_rep m mb s -> src <> [] -> 0 <= idx <= Z.of_nat (length s) ->
  Z.of_nat (length src + length s) <= 0x7FFF -> few (b_cont mb ++ F) ->
  result F m mb (SCpyFixMsg m src mb idx) (fun m' mb' ret => insert_post m' mb' (insert_at (Z.to_nat idx) src s) ret).
Proof.
  intros HI HR Hne Hidx Hmax Hf. pose proof HR as [Hb Hn Hm He]. unfold SCpyFixMsg. rewrite Hn.
  destruct (Z.ltb_spec (Z.of_nat (length s)) idx); [lia|]. unfold insert_at.
  assert (Hmult : forall r s', result F m mb r (fun m' mb' ret => mult_post m' mb' s' ret) ->
    result F m mb r (fun m' mb' ret => insert_post m' mb' s' ret)).
  { intros r s' (m' & mb' & ret & ? & ? & ? & ? & [?| ->]); do 3 eexists; split_and!; try done; [by left|by right]. }
  destruct (Z.eqb_spec idx 0) as [->|H0]; [apply Hmult; by apply SAddPreMsgMult_ok|].
  destruct (Nat.eqb_spec (Z.to_nat idx) 0); [lia|]. destruct (Z.eqb_spec (Z.of_nat (length s)) idx) as [<-|Hneq].
  { rewrite Nat2Z.id, firstn_all2, skipn_all2, app_nil_r by lia. apply Hmult. by apply SAddPstMsgMult_ok. }
  pose proof (SSegMsg_ok m mb s idx F HI HR (proj1 Hidx) Hf) as Hseg. destruct (Z.leb_spec (Z.of_nat (length s)) idx); [lia|].
  destruct Hseg as (m1 & mb1 & o & ret & -> & HF1 & Hrg1 & Hp). cbn [rbind]. destruct o as [rgt|].
  2: { destruct Hp as (HI1 & _ & Hret). do 3 eexists. split; [done|]. split; [done|]. split; [done|]. split; [done|]. by right. }
  destruct Hp as (HI1 & HR1 & HR2 & Hrg2 & _).
  destruct (SAddPstMsgMult_ok m1 src mb1 _ (b_cont rgt ++ F) HI1 HR1 Hne) as (m2 & mb2 & ret2 & -> & HI2 & HF2 & Hrg3 & Hq); [rewrite length_take; lia|].
  cbn [rbind]. assert (HF2' : frame m m2 F) by (eapply frame_trans; [exact HF1|by apply frame_app_r in HF2]).
  destruct Hq as [[-> HR3]| ->]; cbn [Z.eqb negb ROK ROUTRES].
  2: { destruct (SPutMsg_ok m2 rgt (b_cont mb2 ++ F)) as (m3 & -> & HI3 & HF3); [eapply inv_perm; [|exact HI2]; solve_Permutation|].
       cbn [rbind]. do 3 eexists. split; [done|]. split; [done|]. split; [eapply frame_trans; [exact HF2'|by apply frame_app_r in HF3]|]. split; [congruence|]. by right. }
  assert (HR2' : msg_rep m2 rgt (drop (Z.to_nat idx) s)) by (eapply rep_frame; [exact HR2|exact HF2|set_solver]).
  destruct (SCatMsg_ok m2 mb2 rgt _ _ 0 F HI2 HR3 HR2') as (m3 & mb3 & rgt3 & ret3 & -> & HI3 & HF3 & Hrg4 & _ & Hcat); [by left| |right; congruence|].
  { rewrite length_app, length_take, length_drop. lia. }
  cbn [rbind]. destruct (SPutMsg_ok m3 rgt3 (b_cont mb3 ++ F)) as (m4 & -> & HI4 & HF4); [eapply inv_perm; [|exact HI3]; solve_Permutation|].
  cbn [rbind]. do 3 eexists. split; [done|]. split; [done|].
  split; [eapply frame_trans; [eapply frame_trans; [exact HF2'|exact HF3]|by apply frame_app_r in HF4]|]. split; [congruence|].
  destruct Hcat as [(-> & HR4 & _)|(_ & Hx & _)]; [|congruence]. left. split; [done|].
  unfold joined in HR4. cbn in HR4. rewrite <- app_assoc in HR4. eapply rep_frame; [exact HR4|exact HF4|set_solver].
Qed.

Lemma insert_middle (l1 l2 : list Z) x y n : n = length l1 -> <[n := y]> (l1 ++ x :: l2) = l1 ++ y :: l2.
Proof. intros ->. rewrite <- (Nat.add_0_r (length l1)). by rewrite insert_app_r. Qed.

(** The exchange of the outermost elements. *)
Lemma exchange (l1 l2 mid : list Z) x y :
  let l := l1 ++ (x :: mid ++ [y]) ++ l2 in
  length l1 = length l2 ->
  let r := (length l - 1 - length l1)%nat in
  <[r := l !!! length l1]> (<[length l1 := l !!! r]> l) = (l1 ++ [y]) ++ mid ++ x :: l2.
Proof.
  intros l Hl r. assert (Hr : r = (length l1 + S (length mid))%nat) by (unfold r, l; rewrite !length_app; cbn; rewrite length_app; cbn; lia).
  assert (Hx : l !!! length l1 = x) by (apply list_lookup_total_correct; unfold l; by rewrite lookup_app_r, Nat.sub_diag by lia).
  assert (Hy : l !!! r = y).
  { apply list_lookup_total_correct. replace l with ((l1 ++ x :: mid) ++ y :: l2) by (unfold l; rewrite <- !app_assoc; cbn; by rewrite <- app_assoc).
    apply list_lookup_middle. rewrite Hr, length_app. done. }
  rewrite Hx, Hy, Hr. replace l with (l1 ++ x :: (mid ++ [y]) ++ l2) by done. rewrite insert_middle by done.
  replace (l1 ++ y :: (mid ++ [y]) ++ l2) with ((l1 ++ y :: mid) ++ y :: l2) by (rewrite <- !app_assoc; done).
  rewrite insert_middle by (rewrite length_app; done). by rewrite <- !app_assoc.
Qed.

Lemma rev_loop_ok n : forall l1 mid l2,
  length l1 = length l2 -> (length mid / 2 = n)%nat -> rev_loop n (length l1) (l1 ++ mid ++ l2) = l1 ++ rev mid ++ l2.
Proof.
  induction n as [|n IH]; intros l1 mid l2 Hl Hn.
  - apply Nat.div_small_iff in Hn; [|done]. destruct mid as [|x [|y mid]]; [done|done|]. cbn in Hn. lia.
  - destruct mid as [|x mid]; [done|]. destruct mid as [|y mid _] using rev_ind; [done|].
    cbn [rev_loop]. rewrite exchange by done. replace (S (length l1)) with (length (l1 ++ [y])) by (rewrite length_app; cbn; lia).
    rewrite IH; [|rewrite length_app; cbn; lia|].
    + cbn. rewrite rev_app_distr. cbn. by rewrite <- !app_assoc.
    + change (length (x :: mid ++ [y])) with (S (length (mid ++ [y]))) in Hn. rewrite length_app in Hn.
      change (length [y]) with 1%nat in Hn. replace (S (length mid + 1))%nat with (length mid + 1 * 2)%nat in Hn by lia.
      rewrite Nat.div_add in Hn by done. lia.
Qed.

(** The buffer is put before the message in its order. *)
Lemma oduCpyFixBufToMsg_ok m fixBuf mb s F :
  inv m (b_cont mb ++ F) -> msg_rep m mb s -> fixBuf <> [] -> Z.of_nat (length fixBuf + length s) <= 0x7FFF -> few (b_cont mb ++ F) ->
  exists m' mb', oduCpyFixBufToMsg m fixBuf mb = Ok (m', mb', rev fixBuf) /\ inv m' (b_cont mb' ++ F) /\ frame m m' F /\
  region mb' = region mb /\ (msg_rep m' mb' (fixBuf ++ s) \/ exists ret, SCpyFixMsg m (rev fixBuf) mb 0 = Ok (m', mb', ret) /\ failed ret = true).
Proof.
  intros HI HR Hne Hmax Hf. unfold oduCpyFixBufToMsg.
  pose proof (rev_loop_ok _ [] fixBuf [] eq_refl eq_refl) as Hrev. cbn [length app] in Hrev. rewrite !app_nil_r in Hrev. rewrite Hrev.
  destruct (SCpyFixMsg_ok m (rev fixBuf) mb s 0 F) as (m' & mb' & ret & -> & HI' & HF & Hrg & Hp); [done|done| |lia|by rewrite length_rev|done|].
  { intros H. apply Hne. by rewrite <- (rev_involutive fixBuf), H. }
  cbn [rbind]. do 2 eexists. split; [done|]. split; [done|]. split; [done|]. split; [done|].
  destruct Hp as [[_ HR']|Hret]; [left|right; by exists ret]. unfold insert_at in HR'. cbn in HR'. by rewrite rev_involutive in HR'.
Qed.
