(* ===== verification/OduMsgPool.v ===== *)
(** The message buffers of the O-DU implement byte strings.

    The specification is a table of byte strings under the handles of the callers, on which the
    operations do what they say.  The implementation is the memory with the table of the messages,
    whose data blocks are shared after copies and splits.  Every sequence of operations gives the
    results of the specification, as long as there is memory and no data block is shared so often
    that its counter overflows. *)

From S2P Require Import Prelude CmHash OduMsg OduMsgInv OduMsgOps OduMsgChain.

(** ** Operations *)

Inductive op :=
  | Get (h : nat) (reg : Z)
  | Put (h : nat)
  | AddPre (h : nat) (x : Z)
  | AddPst (h : nat) (x : Z)
  | AddPreMult (h : nat) (src : list Z)
  | AddPreMultInOrder (h : nat) (src : list Z)
  | AddPstMult (h : nat) (src : list Z)
  | RemPre (h : nat)
  | RemPst (h : nat)
  | RemPreMult (h : nat) (cnt : Z)
  | RemPstMult (h : nat) (cnt : Z)
  | FndLen (h : nat)
  | Exam (h : nat) (idx : Z)
  | CpyMsgFix (h : nat) (idx cnt : Z)
  | CpyMsgMsg (h h2 : nat) (reg : Z)
  | CatMsg (h h2 : nat) (order : Z)
  | SegMsg (h h2 : nat) (idx : Z)
  | CpyFixMsg (h : nat) (src : list Z) (idx : Z).

Definition with_msg {A} (P : gmap nat Msg) (h : nat) (k : Msg -> res A) : res A :=
  match P !! h with None => Fault NullDeref | Some mb => k mb end.

(** A message is changed in its place. *)
Definition change_msg (P : gmap nat Msg) (h : nat) (r : res (Mem * Msg * Z)) : res (Mem * gmap nat Msg * Z * list Z) :=
  let* (m, mb, ret) := r in Ok (m, <[h := mb]> P, ret, []).

Definition change_msg_out (P : gmap nat Msg) (h : nat) (r : res (Mem * Msg * Z * list Z)) : res (Mem * gmap nat Msg * Z * list Z) :=
  let* (m, mb, ret, out) := r in Ok (m, <[h := mb]> P, ret, out).

Definition new_msg (P : gmap nat Msg) (h : nat) (o : option Msg) : gmap nat Msg := match o with None => P | Some mb => <[h := mb]> P end.

(** The operation on the message buffers, with what it returns and the bytes it gives out. *)
Definition step (m : Mem) (P : gmap nat Msg) (o : op) : res (Mem * gmap nat Msg * Z * list Z) :=
  match o with
  | Get h reg => let (mb, m) := SGetMsg m reg in Ok (m, new_msg P h mb, match mb with None => ROUTRES | Some _ => ROK end, [])
  | Put h => with_msg P h (fun mb => let* m := SPutMsg m mb in Ok (m, delete h P, ROK, []))
  | AddPre h x => with_msg P h (fun mb => change_msg P h (SAddPreMsg m x mb))
  | AddPst h x => with_msg P h (fun mb => change_msg P h (SAddPstMsg m x mb))
  | AddPreMult h src => with_msg P h (fun mb => change_msg P h (SAddPreMsgMult m src mb))
  | AddPreMultInOrder h src => with_msg P h (fun mb => change_msg P h (SAddPreMsgMultInOrder m src mb))
  | AddPstMult h src => with_msg P h (fun mb => change_msg P h (SAddPstMsgMult m src mb))
  | RemPre h => with_msg P h (fun mb => change_msg_out P h (SRemPreMsg m mb))
  | RemPst h => with_msg P h (fun mb => change_msg_out P h (SRemPstMsg m mb))
  | RemPreMult h cnt => with_msg P h (fun mb => change_msg_out P h (SRemPreMsgMult m cnt mb))
  | RemPstMult h cnt => with_msg P h (fun mb => change_msg_out P h (SRemPstMsgMult m cnt mb))
  | FndLen h => with_msg P h (fun mb => Ok (m, P, ROK, [SFndLenMsg mb]))
  | Exam h idx => with_msg P h (fun mb => let* (ret, out) := SExamMsg m mb idx in Ok (m, P, ret, out))
  | CpyMsgFix h idx cnt => with_msg P h (fun mb => let* (ret, out) := SCpyMsgFix m mb idx cnt in Ok (m, P, ret, out))
  | CpyMsgMsg h h2 reg => with_msg P h (fun mb => let* (m, c, ret) := SCpyMsgMsg m mb reg in Ok (m, new_msg P h2 c, ret, []))
  | CatMsg h h2 order => with_msg P h (fun mb1 => with_msg P h2 (fun mb2 =>
      let* (m, mb1, mb2, ret) := SCatMsg m mb1 mb2 order in Ok (m, <[h := mb1]> (<[h2 := mb2]> P), ret, [])))
  | SegMsg h h2 idx => with_msg P h (fun mb =>
      let* (m, mb, r, ret) := SSegMsg m mb idx in Ok (m, new_msg (<[h := mb]> P) h2 r, ret, []))
  | CpyFixMsg h src idx => with_msg P h (fun mb => change_msg P h (SCpyFixMsg m src mb idx))
  end.

(** ** Specification *)

Definition fits (n : nat) : bool := Z.of_nat n <=? 0x7FFF.

(** What the operation does to the byte strings, what it returns and gives out.  [None] is a call that
    is not allowed: a handle that has no message or already has one, no bytes to add, a message that
    gets too long, a negative index or count. *)
Definition spec_step (A : gmap nat (list Z)) (o : op) : option (gmap nat (list Z) * Z * list Z) :=
  match o with
  | Get h _ => match A !! h with None => Some (<[h := []]> A, ROK, []) | Some _ => None end
  | Put h => match A !! h with None => None | Some _ => Some (delete h A, ROK, []) end
  | AddPre h x =>
    match A !! h with None => None | Some s => if fits (S (length s)) then Some (<[h := u8 x :: s]> A, ROK, []) else None end
  | AddPst h x =>
    match A !! h with None => None | Some s => if fits (S (length s)) then Some (<[h := s ++ [u8 x]]> A, ROK, []) else None end
  | AddPreMult h src =>
    match A !! h, src with
    | Some s, _ :: _ => if fits (length src + length s) then Some (<[h := rev src ++ s]> A, ROK, []) else None
    | _, _ => None
    end
  | AddPreMultInOrder h src =>
    match A !! h, src with
    | Some s, _ :: _ => if fits (length src + length s) then Some (<[h := src ++ s]> A, ROK, []) else None
    | _, _ => None
    end
  | AddPstMult h src =>
    match A !! h, src with
    | Some s, _ :: _ => if fits (length src + length s) then Some (<[h := s ++ src]> A, ROK, []) else None
    | _, _ => None
    end
  | RemPre h =>
    match A !! h with None => None | Some [] => Some (A, ROKDNA, []) | Some (x :: s) => Some (<[h := s]> A, ROK, [x]) end
  | RemPst h =>
    match A !! h with
    | None => None
    | Some s => match list.last s with None => Some (A, ROKDNA, []) | Some x => Some (<[h := removelast s]> A, ROK, [x]) end
    end
  | RemPreMult h cnt =>
    match A !! h with
    | None => None
    | Some s => if cnt <? 0 then None else if Z.of_nat (length s) <? cnt then Some (A, ROKDNA, [])
                else Some (<[h := drop (Z.to_nat cnt) s]> A, ROK, take (Z.to_nat cnt) s)
    end
  | RemPstMult h cnt =>
    match A !! h with
    | None => None
    | Some s => if cnt <? 0 then None else if Z.of_nat (length s) <? cnt then Some (A, ROKDNA, [])
                else Some (<[h := take (length s - Z.to_nat cnt) s]> A, ROK, rev (drop (length s - Z.to_nat cnt) s))
    end
  | FndLen h => match A !! h with None => None | Some s => Some (A, ROK, [Z.of_nat (length s)]) end
  | Exam h idx =>
    match A !! h with
    | None => None
    | Some s => if idx <? 0 then None
                else match s !! Z.to_nat idx with None => Some (A, ROKDNA, []) | Some x => Some (A, ROK, [x]) end
    end
  | CpyMsgFix h idx cnt =>
    match A !! h with
    | None => None
    | Some s => if (idx <? 0) || (cnt <=? 0) then None else if Z.of_nat (length s) <? idx + cnt then Some (A, ROKDNA, [])
                else Some (A, ROK, take (Z.to_nat cnt) (drop (Z.to_nat idx) s))
    end
  | CpyMsgMsg h h2 _ => match A !! h, A !! h2 with Some s, None => Some (<[h2 := s]> A, ROK, []) | _, _ => None end
  | CatMsg h h2 order =>
    match A !! h, A !! h2 with
    | Some s1, Some s2 =>
      if (h =? h2)%nat || negb ((order =? 0) || (order =? 1)) || negb (fits (length s1 + length s2)) then None
      else Some (<[h := joined order s1 s2]> (<[h2 := []]> A), ROK, [])
    | _, _ => None
    end
  | SegMsg h h2 idx =>
    match A !! h, A !! h2 with
    | Some s, None =>
      if idx <? 0 then None else if Z.of_nat (length s) <=? idx then Some (A, ROKDNA, [])
      else Some (<[h2 := drop (Z.to_nat idx) s]> (<[h := take (Z.to_nat idx) s]> A), ROK, [])
    | _, _ => None
    end
  | CpyFixMsg h src idx =>
    match A !! h, src with
    | Some s, _ :: _ =>
      if (idx <? 0) || (Z.of_nat (length s) <? idx) || negb (fits (length src + length s)) then None
      else Some (<[h := insert_at (Z.to_nat idx) src s]> A, ROK, [])
    | _, _ => None
    end
  end.

(** The operations that ask for memory. *)
Definition may_fail (o : op) : bool :=
  match o with
  | Put _ | RemPre _ | RemPst _ | RemPreMult _ _ | RemPstMult _ _ | FndLen _ | Exam _ _ | CpyMsgFix _ _ _ => false
  | _ => true
  end.

(** ** Refinement *)

Definition blocks (P : gmap nat Msg) : list SsMblk := flat_map (fun p => b_cont (snd p)) (map_to_list P).

Definition reps (m : Mem) (P : gmap nat Msg) (A : gmap nat (list Z)) : Prop := forall h, option_Forall2 (msg_rep m) (P !! h) (A !! h).

Record refines (m : Mem) (P : gmap nat Msg) (A : gmap nat (list Z)) : Prop := {
  ref_inv : inv m (blocks P);
  ref_reps : reps m P A;
}.

Lemma blocks_insert P h mb : P !! h = None -> blocks (<[h := mb]> P) ≡ₚ b_cont mb ++ blocks P.
Proof. intros H. unfold blocks. rewrite (map_to_list_insert P h mb H). done. Qed.

Lemma blocks_delete P h mb : P !! h = Some mb -> blocks P ≡ₚ b_cont mb ++ blocks (delete h P).
Proof. intros H. unfold blocks. rewrite <- (map_to_list_delete P h mb H). done. Qed.

Lemma blocks_update P h mb : blocks (<[h := mb]> P) ≡ₚ b_cont mb ++ blocks (delete h P).
Proof. rewrite <- insert_delete_eq. apply blocks_insert. apply lookup_delete_eq. Qed.

Lemma blocks_sub P h mb : P !! h = Some mb -> b_cont mb ⊆ blocks P.
Proof. intros H. rewrite (blocks_delete P h mb H). intros x Hx. apply list.elem_of_app. by left. Qed.

Lemma reps_lookup m P A h mb : reps m P A -> P !! h = Some mb -> exists s, A !! h = Some s /\ msg_rep m mb s.
Proof. intros HR Hh. pose proof (HR h) as H. rewrite Hh in H. inversion H; subst. eauto. Qed.

Lemma reps_string m P A h s : reps m P A -> A !! h = Some s -> exists mb, P !! h = Some mb /\ msg_rep m mb s.
Proof. intros HR Hh. pose proof (HR h) as H. rewrite Hh in H. inversion H; subst. eauto. Qed.

Lemma reps_none m P A h : reps m P A -> A !! h = None -> P !! h = None.
Proof. intros HR Hh. pose proof (HR h) as H. rewrite Hh in H. by inversion H. Qed.

Lemma reps_frame m m' P A : reps m P A -> frame m m' (blocks P) -> reps m' P A.
Proof.
  intros HR HF h. pose proof (HR h) as H. destruct (P !! h) as [mb|] eqn:Hh; inversion H; subst; [|constructor].
  constructor. eapply rep_frame; [done|exact HF|by eapply blocks_sub].
Qed.

Lemma reps_insert m P A h mb s : reps m P A -> msg_rep m mb s -> reps m (<[h := mb]> P) (<[h := s]> A).
Proof.
  intros HR Hm k. destruct (decide (k = h)) as [->|Hne]; [rewrite !lookup_insert_eq; by constructor|].
  rewrite !lookup_insert_ne by done. apply HR.
Qed.

Lemma reps_delete m P A h : reps m P A -> reps m (delete h P) (delete h A).
Proof.
  intros HR k. destruct (decide (k = h)) as [->|Hne]; [rewrite !lookup_delete_eq; constructor|].
  rewrite !lookup_delete_ne by done. apply HR.
Qed.

(** A message of the table with all others as its frame. *)
Lemma refines_focus m P A h s :
  refines m P A -> A !! h = Some s ->
  exists mb, P !! h = Some mb /\ msg_rep m mb s /\ inv m (b_cont mb ++ blocks (delete h P)).
Proof.
  intros [HI HR] Hh. destruct (reps_string _ _ _ _ _ HR Hh) as (mb & HP & Hm). exists mb. split; [done|]. split; [done|].
  eapply inv_perm; [by apply blocks_delete|done].
Qed.

Lemma refines_update m m' P A h mb' s' :
  refines m P A -> inv m' (b_cont mb' ++ blocks (delete h P)) -> frame m m' (blocks (delete h P)) -> msg_rep m' mb' s' ->
  refines m' (<[h := mb']> P) (<[h := s']> A).
Proof.
  intros [HI HR] HI' HF Hm. split; [eapply inv_perm; [symmetry; apply blocks_update|done]|].
  rewrite <- (insert_delete_eq P), <- (insert_delete_eq A). apply reps_insert; [|done].
  eapply reps_frame; [by apply reps_delete|done].
Qed.

(** The operation does what the specification says, or finds no memory. *)
Definition step_ok (m : Mem) (P : gmap nat Msg) (o : op) (A' : gmap nat (list Z)) (r : Z) (out : list Z) : Prop :=
  exists m' P' ret out', step m P o = Ok (m', P', ret, out') /\
  ((ret = r /\ out' = out /\ refines m' P' A') \/ (failed ret = true /\ may_fail o = true)).

(** An operation that adds to one message. *)
Lemma change_ok m P A h s s' o op_f :
  refines m P A -> A !! h = Some s -> may_fail o = true ->
  (forall mb, step m (<[h := mb]> P) o = change_msg (<[h := mb]> P) h (op_f mb)) ->
  (forall mb F, inv m (b_cont mb ++ F) -> msg_rep m mb s ->
     blocks P ≡ₚ b_cont mb ++ F ->
     result F m mb (op_f mb) (fun m' mb' ret => (ret = ROK /\ msg_rep m' mb' s') \/ failed ret = true)) ->
  step_ok m P o (<[h := s']> A) ROK [].
Proof.
  intros HR Hh Hf Hs Hop. destruct (refines_focus m P A h s HR Hh) as (mb & HP & Hm & HI).
  destruct (Hop mb _ HI Hm) as (m' & mb' & ret & He & HI' & HF' & _ & Hor); [by apply blocks_delete|].
  specialize (Hs mb). rewrite (insert_id P h mb HP) in Hs. unfold step_ok. rewrite Hs, He. cbn.
  do 4 eexists. split; [done|]. destruct Hor as [[-> Hm']|Hr]; [left|by right].
  split; [done|]. split; [done|]. by eapply refines_update.
Qed.

(** An operation that removes from one message. *)
Lemma change_out_ok m P A h s s' r out o op_f :
  refines m P A -> A !! h = Some s ->
  (forall mb, step m (<[h := mb]> P) o = change_msg_out (<[h := mb]> P) h (op_f mb)) ->
  (forall mb F, inv m (b_cont mb ++ F) -> msg_rep m mb s -> removed F m mb (op_f mb) s' r out) ->
  step_ok m P o (<[h := s']> A) r out.
Proof.
  intros HR Hh Hs Hop. destruct (refines_focus m P A h s HR Hh) as (mb & HP & Hm & HI).
  destruct (Hop mb _ HI Hm) as (m' & mb' & He & HI' & HF' & _ & Hm').
  specialize (Hs mb). rewrite (insert_id P h mb HP) in Hs. unfold step_ok. rewrite Hs, He. cbn.
  do 4 eexists. split; [done|]. left. split; [done|]. split; [done|]. by eapply refines_update.
Qed.

(** An operation that leaves everything, also one that finds nothing to remove. *)
Lemma same_ok m P A h s r out o :
  refines m P A -> A !! h = Some s ->
  (forall mb F, inv m (b_cont mb ++ F) -> msg_rep m mb s -> P !! h = Some mb -> step m P o = Ok (m, P, r, out)) ->
  step_ok m P o A r out.
Proof.
  intros HR Hh Hop. destruct (refines_focus m P A h s HR Hh) as (mb & HP & Hm & HI).
  unfold step_ok. rewrite (Hop mb _ HI Hm HP). do 4 eexists. split; [done|]. by left.
Qed.

Lemma step_at A (P : gmap nat Msg) h (mb : Msg) (k : Msg -> res A) : with_msg (<[h := mb]> P) h k = k mb.
Proof. unfold with_msg. by rewrite lookup_insert_eq. Qed.

Lemma fits_le n : fits n = true -> Z.of_nat n <= 0x7FFF.
Proof. unfold fits. lia. Qed.

(** Adding to a message. *)
Lemma add_step_ok m P A o A' r out :
  refines m P A -> few (blocks P) -> spec_step A o = Some (A', r, out) ->
  match o with
  | AddPre _ _ | AddPst _ _ | AddPreMult _ _ | AddPreMultInOrder _ _ | AddPstMult _ _ | CpyFixMsg _ _ _ => step_ok m P o A' r out
  | _ => True
  end.
Proof.
  intros HR Hfew. destruct o as [| |h x|h x|h src|h src|h src| | | | | | | | | | |h src idx]; try done; cbn [spec_step];
    destruct (A !! h) as [s|] eqn:Hh; try done.
  - destruct (fits (S (length s))) eqn:Hf; [|done]. intros [= <- <- <-]. eapply (change_ok m P A h s _ _ (SAddPreMsg m x)); [done|done|done|intros mb; apply step_at|].
    intros mb F HI Hm _. destruct (SAddPreMsg_ok m x mb s F HI Hm) as (m' & mb' & ret & ? & ? & ? & ? & [?|[-> ?]]);
      do 3 eexists; split_and!; try done; [by left|by right].
  - destruct (fits (S (length s))) eqn:Hf; [|done]. intros [= <- <- <-]. apply fits_le in Hf. eapply (change_ok m P A h s _ _ (SAddPstMsg m x)); [done|done|done|intros mb; apply step_at|].
    intros mb F HI Hm _. destruct (SAddPstMsg_ok m x mb s F HI Hm) as (m' & mb' & ret & ? & ? & ? & ? & [?|[-> ?]]); [rewrite (rep_len _ _ _ Hm); lia|..];
      do 3 eexists; split_and!; try done; [by left|by right].
  - destruct src as [|b src]; [done|]. destruct (fits _) eqn:Hf; [|done]. intros [= <- <- <-]. apply fits_le in Hf.
    eapply (change_ok m P A h s _ _ (SAddPreMsgMult m (b :: src))); [done|done|done|intros mb; apply step_at|]. intros mb F HI Hm _.
    destruct (SAddPreMsgMult_ok m (b :: src) mb s F HI Hm) as (m' & mb' & ret & ? & ? & ? & ? & [?| ->]); [done|done|..]; do 3 eexists; split_and!; try done; [by left|by right].
  - destruct src as [|b src]; [done|]. destruct (fits _) eqn:Hf; [|done]. intros [= <- <- <-]. apply fits_le in Hf.
    eapply (change_ok m P A h s _ _ (SAddPreMsgMultInOrder m (b :: src))); [done|done|done|intros mb; apply step_at|]. intros mb F HI Hm _. rewrite SAddPreMsgMultInOrder_rev.
    destruct (SAddPreMsgMult_ok m (rev (b :: src)) mb s F HI Hm) as (m' & mb' & ret & ? & ? & ? & ? & [?| ->]); [cbn; by destruct (rev src)|by rewrite length_rev|..];
      do 3 eexists; split_and!; try done; [left; by rewrite rev_involutive in *|by right].
  - destruct src as [|b src]; [done|]. destruct (fits _) eqn:Hf; [|done]. intros [= <- <- <-]. apply fits_le in Hf.
    eapply (change_ok m P A h s _ _ (SAddPstMsgMult m (b :: src))); [done|done|done|intros mb; apply step_at|]. intros mb F HI Hm _.
    destruct (SAddPstMsgMult_ok m (b :: src) mb s F HI Hm) as (m' & mb' & ret & ? & ? & ? & ? & [?| ->]); [done|done|..]; do 3 eexists; split_and!; try done; [by left|by right].
  - destruct src as [|b src]; [done|]. destruct (_ || _) eqn:Hf; [done|]. intros [= <- <- <-].
    apply orb_false_iff in Hf as [[H1 H2]%orb_false_iff H3%negb_false_iff]. apply fits_le in H3.
    eapply (change_ok m P A h s _ _ (fun mb => SCpyFixMsg m (b :: src) mb idx)); [done|done|done|intros mb; apply step_at|]. intros mb F HI Hm HP.
    apply SCpyFixMsg_ok; try done; [lia|]. by eapply few_perm.
Qed.

(** Removing from a message and reading it. *)
Lemma read_step_ok m P A o A' r out :
  refines m P A -> spec_step A o = Some (A', r, out) ->
  match o with
  | RemPre _ | RemPst _ | RemPreMult _ _ | RemPstMult _ _ | FndLen _ | Exam _ _ | CpyMsgFix _ _ _ => step_ok m P o A' r out
  | _ => True
  end.
Proof.
  intros HR. destruct o as [| | | | | | |h|h|h cnt|h cnt|h|h idx|h idx cnt| | | |]; try done; cbn [spec_step];
    destruct (A !! h) as [s|] eqn:Hh; try done.
  - destruct s as [|x s]; intros [= <- <- <-].
    + eapply same_ok; [done|done|]. intros mb F HI Hm HP. cbn. unfold with_msg. rewrite HP.
      rewrite (SRemPreMsg_ok m mb [] F HI Hm). cbn. by rewrite insert_id.
    + eapply (change_out_ok m P A h _ _ _ _ _ (SRemPreMsg m)); [done|done|intros mb; apply step_at|]. intros mb F HI Hm. apply (SRemPreMsg_ok m mb (x :: s) F HI Hm).
  - destruct s as [|x s _] using rev_ind.
    + intros [= <- <- <-]. eapply same_ok; [done|done|]. intros mb F HI Hm HP. cbn. unfold with_msg. rewrite HP.
      destruct (SRemPstMsg_ok m mb [] F HI Hm) as [[_ ->]|([|] & ? & ? & _)]; [|done|done]. cbn. by rewrite insert_id.
    + rewrite last_snoc, removelast_last. intros [= <- <- <-].
      eapply (change_out_ok m P A h _ _ _ _ _ (SRemPstMsg m)); [done|done|intros mb; apply step_at|]. intros mb F HI Hm.
      destruct (SRemPstMsg_ok m mb (s ++ [x]) F HI Hm) as [[? _]|(s' & x' & [<- <-]%app_inj_tail & ?)]; [by destruct s|done].
  - destruct (Z.ltb_spec cnt 0) as [|Hc]; [done|]. destruct (Z.ltb_spec (Z.of_nat (length s)) cnt) as [Hl|Hl]; intros [= <- <- <-].
    + eapply same_ok; [done|done|]. intros mb F HI Hm HP. cbn. unfold with_msg. rewrite HP.
      pose proof (SRemPreMsgMult_ok m cnt mb s F HI Hm Hc) as H. destruct (Z.ltb_spec (Z.of_nat (length s)) cnt); [|lia]. rewrite H. cbn. by rewrite insert_id.
    + eapply (change_out_ok m P A h _ _ _ _ _ (SRemPreMsgMult m cnt)); [done|done|intros mb; apply step_at|]. intros mb F HI Hm.
      pose proof (SRemPreMsgMult_ok m cnt mb s F HI Hm Hc) as H. destruct (Z.ltb_spec (Z.of_nat (length s)) cnt); [lia|done].
  - destruct (Z.ltb_spec cnt 0) as [|Hc]; [done|]. destruct (Z.ltb_spec (Z.of_nat (length s)) cnt) as [Hl|Hl]; intros [= <- <- <-].
    + eapply same_ok; [done|done|]. intros mb F HI Hm HP. cbn. unfold with_msg. rewrite HP.
      pose proof (SRemPstMsgMult_ok m cnt mb s F HI Hm Hc) as H. destruct (Z.ltb_spec (Z.of_nat (length s)) cnt); [|lia]. rewrite H. cbn. by rewrite insert_id.
    + eapply (change_out_ok m P A h _ _ _ _ _ (SRemPstMsgMult m cnt)); [done|done|intros mb; apply step_at|]. intros mb F HI Hm.
      pose proof (SRemPstMsgMult_ok m cnt mb s F HI Hm Hc) as H. destruct (Z.ltb_spec (Z.of_nat (length s)) cnt); [lia|done].
  - intros [= <- <- <-]. eapply same_ok; [done|done|]. intros mb F HI Hm HP. cbn. unfold with_msg, SFndLenMsg. by rewrite HP, (rep_len _ _ _ Hm).
  - destruct (Z.ltb_spec idx 0) as [|Hi]; [done|]. intros Hs. eapply (same_ok m P A' h s); [by destruct (s !! Z.to_nat idx); simplify_eq|by destruct (s !! Z.to_nat idx); simplify_eq|].
    intros mb F HI Hm HP. cbn. unfold with_msg. rewrite HP, (SExamMsg_ok m mb s idx F HI Hm Hi). by destruct (s !! Z.to_nat idx); simplify_eq.
  - destruct ((idx <? 0) || (cnt <=? 0)) eqn:Hc; [done|]. apply orb_false_iff in Hc as [H1 H2]. intros Hs.
    assert (A' = A) as -> by (destruct (Z.of_nat (length s) <? idx + cnt); by simplify_eq).
    eapply (same_ok m P A h s); [done|done|]. intros mb F HI Hm HP. cbn. unfold with_msg. rewrite HP, (SCpyMsgFix_ok m mb s idx cnt F HI Hm) by lia.
    by destruct (Z.of_nat (length s) <? idx + cnt); simplify_eq.
Qed.

Lemma refines_new m m' P A h mb s :
  refines m P A -> A !! h = None -> inv m' (b_cont mb ++ blocks P) -> frame m m' (blocks P) -> msg_rep m' mb s ->
  refines m' (<[h := mb]> P) (<[h := s]> A).
Proof.
  intros [HI HR] Hh HI' HF Hm. pose proof (reps_none _ _ _ _ HR Hh) as HP.
  split; [eapply inv_perm; [symmetry; by apply blocks_insert|done]|]. apply reps_insert; [by eapply reps_frame|done].
Qed.

Lemma get_put_step_ok m P A o A' r out :
  refines m P A -> spec_step A o = Some (A', r, out) -> match o with Get _ _ | Put _ => step_ok m P o A' r out | _ => True end.
Proof.
  intros HR. destruct o as [h reg|h| | | | | | | | | | | | | | | |]; try done; cbn [spec_step]; destruct (A !! h) as [s|] eqn:Hh; try done; intros [= <- <- <-].
  - unfold step_ok. cbn [step]. destruct (SGetMsg_ok m reg _ (ref_inv _ _ _ HR)) as (o & m1 & -> & HI1 & HF1 & [->| ->]).
    + do 4 eexists. split; [done|]. by right.
    + do 4 eexists. split; [done|]. left. split; [done|]. split; [done|]. eapply refines_new; [exact HR|done|done|done|apply rep_empty].
  - destruct (refines_focus m P A h s HR Hh) as (mb & HP & Hm & HI). unfold step_ok. cbn [step]. unfold with_msg. rewrite HP.
    destruct (SPutMsg_ok m mb _ HI) as (m' & -> & HI' & HF). cbn [rbind]. do 4 eexists. split; [done|]. left. split; [done|]. split; [done|].
    split; [done|]. eapply reps_frame; [by apply reps_delete, ref_reps|done].
Qed.

(** Sharing, joining and splitting. *)
Lemma copy_step_ok m P A h h2 reg A' r out :
  refines m P A -> few (blocks P) -> spec_step A (CpyMsgMsg h h2 reg) = Some (A', r, out) -> step_ok m P (CpyMsgMsg h h2 reg) A' r out.
Proof.
  intros HR Hf. cbn [spec_step]. destruct (A !! h) as [s|] eqn:Hh; [|done]. destruct (A !! h2) eqn:Hh2; [done|]. intros [= <- <- <-].
  destruct (refines_focus m P A h s HR Hh) as (mb & HP & Hm & HI). unfold step_ok. cbn [step]. unfold with_msg. rewrite HP.
  assert (HB : b_cont mb ++ blocks (delete h P) ≡ₚ blocks P) by by rewrite <- blocks_delete.
  destruct (SCpyMsgMsg_ok m mb s reg _ HI Hm) as (m1 & o & ret & -> & HF1 & Hp); [by eapply few_perm|]. cbn [rbind].
  do 4 eexists. split; [done|]. destruct o as [dst|]; [|right; tauto]. destruct Hp as (HI1 & Hm1 & _ & ->). left. split; [done|]. split; [done|].
  eapply refines_new; [done|done|eapply inv_perm; [|exact HI1]; by rewrite HB| |done]. eapply frame_sub; [exact HF1|]. intros x Hx. by rewrite HB.
Qed.

Lemma seg_step_ok m P A h h2 idx A' r out :
  refines m P A -> few (blocks P) -> spec_step A (SegMsg h h2 idx) = Some (A', r, out) -> step_ok m P (SegMsg h h2 idx) A' r out.
Proof.
  intros HR Hf. cbn [spec_step]. destruct (A !! h) as [s|] eqn:Hh; [|done]. destruct (A !! h2) eqn:Hh2; [done|].
  destruct (Z.ltb_spec idx 0) as [|Hi]; [done|]. destruct (refines_focus m P A h s HR Hh) as (mb & HP & Hm & HI).
  unfold step_ok. cbn [step]. unfold with_msg. rewrite HP.
  assert (HB : b_cont mb ++ blocks (delete h P) ≡ₚ blocks P) by by rewrite <- blocks_delete.
  pose proof (SSegMsg_ok m mb s idx _ HI Hm Hi) as Hseg. destruct (Z.leb_spec (Z.of_nat (length s)) idx) as [Hl|Hl]; intros [= <- <- <-].
  - rewrite Hseg by by eapply few_perm. cbn [rbind new_msg]. rewrite insert_id by done. do 4 eexists. split; [done|]. by left.
  - destruct Hseg as (m1 & mb1 & o & ret & -> & HF1 & _ & Hp); [by eapply few_perm|]. cbn [rbind]. do 4 eexists. split; [done|].
    destruct o as [mb2|]; [|right; by destruct Hp as (_ & _ & ?)]. destruct Hp as (HI1 & Hm1 & Hm2 & _ & ->). left. split; [done|]. split; [done|].
    cbn [new_msg]. assert (Hne : h <> h2) by congruence. split.
    + eapply inv_perm; [|exact HI1]. rewrite blocks_insert, blocks_update; [solve_Permutation|].
      rewrite lookup_insert_ne by done. apply (reps_none m P A); [apply HR|done].
    + apply reps_insert; [|done]. rewrite <- (insert_delete_eq P), <- (insert_delete_eq A). apply reps_insert; [|done].
      eapply reps_frame; [by apply reps_delete, ref_reps|done].
Qed.

Lemma cat_step_ok m P A h h2 order A' r out :
  refines m P A -> few (blocks P) -> spec_step A (CatMsg h h2 order) = Some (A', r, out) -> step_ok m P (CatMsg h h2 order) A' r out.
Proof.
  intros HR Hf. cbn [spec_step]. destruct (A !! h) as [s1|] eqn:Hh; [|done]. destruct (A !! h2) as [s2|] eqn:Hh2; [|done].
  destruct (_ || _) eqn:Hc; [done|]. intros [= <- <- <-]. apply orb_false_iff in Hc as [[Hne%Nat.eqb_neq Ho%negb_false_iff]%orb_false_iff Hfit%negb_false_iff].
  apply fits_le in Hfit. assert (Ho' : order = 0 \/ order = 1) by lia.
  destruct (refines_focus m P A h s1 HR Hh) as (mb1 & HP1 & Hm1 & HI). destruct (reps_string m P A h2 s2 (ref_reps _ _ _ HR) Hh2) as (mb2 & HP2 & Hm2).
  unfold step_ok. cbn [step]. unfold with_msg. rewrite HP1, HP2. set (Q := delete h2 (delete h P)).
  assert (HB : b_cont mb1 ++ b_cont mb2 ++ blocks Q ≡ₚ blocks P).
  { rewrite (blocks_delete P h mb1) by done. unfold Q. rewrite <- (blocks_delete (delete h P) h2 mb2) by by rewrite lookup_delete_ne. done. }
  destruct (SCatMsg_ok m mb1 mb2 s1 s2 order (blocks Q)) as (m' & mb1' & mb2' & ret & -> & HI' & HF & _ & _ & Hp);
    [eapply inv_perm; [symmetry; exact HB|apply HR]|done|done|done|done|left; by eapply few_perm|].
  cbn [rbind]. do 4 eexists. split; [done|]. destruct Hp as [(-> & HR1 & HR2)|(Hr & _)]; [left|by right]. split; [done|]. split; [done|].
  assert (HQ : <[h := mb1']> (<[h2 := mb2']> P) = <[h := mb1']> (<[h2 := mb2']> Q)).
  { unfold Q. rewrite insert_delete_eq, <- (insert_delete_eq (<[h2 := mb2']> P)). by rewrite delete_insert_ne. }
  assert (HA : <[h := joined order s1 s2]> (<[h2 := []]> A) = <[h := joined order s1 s2]> (<[h2 := []]> (delete h2 (delete h A)))).
  { rewrite insert_delete_eq, <- (insert_delete_eq (<[h2 := []]> A)). by rewrite delete_insert_ne. }
  rewrite HQ, HA. split.
  - eapply inv_perm; [|exact HI']. rewrite !blocks_insert; [done|by apply lookup_delete_eq|].
    rewrite lookup_insert_ne by done. unfold Q. rewrite lookup_delete_ne by done. apply lookup_delete_eq.
  - apply reps_insert; [|done]. apply reps_insert; [|done]. eapply reps_frame; [|exact HF]. apply reps_delete, reps_delete, HR.
Qed.

Lemma step_refines m P A o A' r out :
  refines m P A -> few (blocks P) -> spec_step A o = Some (A', r, out) -> step_ok m P o A' r out.
Proof.
  intros HR Hf Hs. pose proof (add_step_ok _ _ _ _ _ _ _ HR Hf Hs) as H1. pose proof (read_step_ok _ _ _ _ _ _ _ HR Hs) as H2.
  pose proof (get_put_step_ok _ _ _ _ _ _ _ HR Hs) as H3.
  destruct o; try done; [by eapply copy_step_ok|by eapply cat_step_ok|by eapply seg_step_ok].
Qed.

(** ** Runs *)

(** No counter is above 127, half of what it can hold. *)
Definition few_references (B : list SsMblk) : bool := forallb (fun b => (refs (b_datap b) B <=? 127)%nat) B.

Lemma few_references_few B : few_references B = true -> few B.
Proof.
  intros H a. unfold few_references in H. rewrite forallb_forall in H. destruct (refs a B) eqn:Hr; [lia|]. unfold refs in Hr.
  destruct (filter (fun b => b_datap b = a) B) as [|b l] eqn:Hf; [done|].
  assert (Hb : b ∈ filter (fun b => b_datap b = a) B) by (rewrite Hf; by left). apply list_elem_of_filter in Hb as [<- Hb].
  apply list_elem_of_In in Hb. specialize (H b Hb). apply Nat.leb_le in H. unfold refs in H. rewrite Hf in H. lia.
Qed.

Inductive stop := Done | NoMemory | ManyReferences.

(** The operations one after the other, up to one that finds no memory. *)
Fixpoint run (m : Mem) (P : gmap nat Msg) (ops : list op) : res (stop * list (Z * list Z)) :=
  match ops with
  | [] => Ok (Done, [])
  | o :: ops =>
    if negb (few_references (blocks P)) then Ok (ManyReferences, [])
    else
      let* (m, P, ret, out) := step m P o in
      if failed ret then Ok (NoMemory, [])
      else let* (why, outs) := run m P ops in Ok (why, (ret, out) :: outs)
  end.

Fixpoint spec_run (A : gmap nat (list Z)) (ops : list op) : option (list (Z * list Z)) :=
  match ops with
  | [] => Some []
  | o :: ops =>
    match spec_step A o with
    | None => None
    | Some (A, ret, out) => match spec_run A ops with None => None | Some outs => Some ((ret, out) :: outs) end
    end
  end.

Lemma spec_step_ret A o A' r out : spec_step A o = Some (A', r, out) -> failed r = false.
Proof. destruct o; cbn [spec_step]; intros H; repeat (case_match; try done); by simplify_eq. Qed.

Lemma pool_run_ok ops : forall m P A outs,
  refines m P A -> spec_run A ops = Some outs ->
  exists why outs', run m P ops = Ok (why, outs') /\ outs' `prefix_of` outs /\ (why = Done -> outs' = outs) /\
  (why = NoMemory -> exists o, ops !! length outs' = Some o /\ may_fail o = true).
Proof.
  induction ops as [|o ops IH]; intros m P A outs HR Hs; cbn [run spec_run] in *.
  { injection Hs as <-. do 2 eexists. split; [done|]. split; [done|]. by split. }
  destruct (spec_step A o) as [[[A' r] out]|] eqn:Ho; [|done]. destruct (spec_run A' ops) as [outs1|] eqn:Hr; [|done]. injection Hs as <-.
  destruct (few_references (blocks P)) eqn:Hf; cbn [negb].
  2: { do 2 eexists. split; [done|]. split; [apply prefix_nil|]. by split. }
  destruct (step_refines m P A o A' r out HR (few_references_few _ Hf) Ho) as (m' & P' & ret & out' & -> & Hor). cbn [rbind].
  destruct Hor as [(-> & -> & HR')|[Hfail Hmay]].
  2: { rewrite Hfail. do 2 eexists. split; [done|]. split; [apply prefix_nil|]. split; [done|]. intros _. by exists o. }
  rewrite (spec_step_ret _ _ _ _ _ Ho). destruct (IH m' P' A' outs1 HR' Hr) as (why & outs' & -> & Hpre & Hd & Hn). cbn [rbind].
  do 2 eexists. split; [done|]. split; [by apply prefix_cons|]. split; [intros Hw; by rewrite Hd|done].
Qed.

Lemma refines_empty av :
  NoDup (new_addrs av) -> (forall a buf, Some (a, buf) ∈ av -> buf <> []) -> refines (mk_mem ∅ av) ∅ ∅.
Proof.
  intros Hnd Hbuf. split; [split|]; cbn; try done.
  - apply NoDup_nil_2.
  - intros b Hb. by apply elem_of_nil in Hb.
  - intros a _. split; [done|]. apply not_elem_of_nil.
  - intros h. rewrite !lookup_empty. constructor.
Qed.

(** C22. The message buffers of the O-DU implement byte strings.  From an empty table, with an allocator
    that returns distinct addresses with buffers of at least one byte or nothing, every sequence of
    allowed operations on messages runs without a fault (no access to a block that was freed, behind a
    buffer or through a null pointer), and returns and gives out what the specification says of the
    byte strings, whatever blocks the messages share: adding to, removing from, splitting or freeing
    one message never shows in another.  It stops early only when a data block has more than 127
    references or an operation that allocates finds no memory. *)
Theorem msg_pool_refines av ops outs :
  NoDup (new_addrs av) -> (forall a buf, Some (a, buf) ∈ av -> buf <> []) -> spec_run ∅ ops = Some outs ->
  exists why outs', run (mk_mem ∅ av) ∅ ops = Ok (why, outs') /\ outs' `prefix_of` outs /\ (why = Done -> outs' = outs) /\
  (why = NoMemory -> exists o, ops !! length outs' = Some o /\ may_fail o = true).
Proof. intros Hnd Hbuf. apply pool_run_ok. by apply refines_empty. Qed.

(** Buffers of four bytes. *)
Definition demo_memory : list (option (Z * list Z)) := map (fun a => Some (Z.of_nat a, [0; 0; 0; 0])) (seq 1 30).

Definition demo_ops : list op :=
  [Get 0 0; AddPstMult 0 [1; 2; 3; 4; 5; 6]; CpyMsgMsg 0 1 0; AddPre 0 9; AddPst 1 7; SegMsg 1 2 3; AddPstMult 1 [8; 8]; RemPst 2;
   CatMsg 2 0 0; CpyFixMsg 2 [10; 11] 1; RemPreMult 2 3; CpyMsgFix 2 0 9; CpyMsgFix 1 0 5; FndLen 0; Put 1; RemPstMult 2 2; Exam 2 2; RemPre 0].

Lemma msg_pool_refines_witness :
  spec_run ∅ demo_ops = Some
    [(ROK, []); (ROK, []); (ROK, []); (ROK, []); (ROK, []); (ROK, []); (ROK, []); (ROK, [7]);
     (ROK, []); (ROK, []); (ROK, [4; 10; 11]); (ROK, [5; 6; 9; 1; 2; 3; 4; 5; 6]); (ROK, [1; 2; 3; 8; 8]); (ROK, [0]); (ROK, []);
     (ROK, [6; 5]); (ROK, [9]); (ROKDNA, [])] /\
  (exists outs, run (mk_mem ∅ demo_memory) ∅ demo_ops = Ok (Done, outs)) /\
  exists why outs', run (mk_mem ∅ demo_memory) ∅ demo_ops = Ok (why, outs') /\ outs' `prefix_of` default [] (spec_run ∅ demo_ops).
Proof.
  split; [vm_compute; reflexivity|]. split; [eexists; vm_compute; reflexivity|].
  destruct (msg_pool_refines demo_memory demo_ops (default [] (spec_run ∅ demo_ops))) as (why & outs' & H1 & H2 & _).
  - apply (bool_decide_unpack _). vm_compute. exact I.
  - intros a buf Hin. apply list_elem_of_In, in_map_iff in Hin as (n & Heq & _). congruence.
  - vm_compute. reflexivity.
  - exists why, outs'. split; assumption.
Defined.
