(* ===== verification/OduMac.v ===== *)
(** MAC PDUs of the O-DU: [5gnrmac/mac_mux.c] and [5gnrmac/mac_demux.c].

    A PDU is a list of bytes.  Positions are those of the code: [bytePos] in the buffer and [bitPos],
    the next free bit of that byte, counted from its least significant.  The indications that MAC
    gives to RLC, the DU application and the scheduler are events; what their handlers return is
    returned by the caller and not looked at.  Whether an allocation succeeds comes from a stream. *)

From S2P Require Import Prelude.

Definition MAC_LCID_CCCH : Z := 0.
Definition MAC_LCID_MIN : Z := 1.
Definition MAC_LCID_MAX : Z := 32.
Definition MAC_LCID_LONG_TRUNC_BSR : Z := 60.
Definition MAC_LCID_SHORT_BSR : Z := 61.
Definition MAC_LCID_LONG_BSR : Z := 62.
Definition MAC_LCID_CRI : Z := 62.
Definition MAC_LCID_PADDING : Z := 63.
Definition MAX_CRI_SIZE : nat := 6.
Definition RAR_PAYLOAD_SIZE : nat := 10.
Definition FREQ_RSRC_ALLOC_SIZE : Z := 14.

(** ** Packing bits *)

(** [buf[pos] |= v]. *)
Definition or_byte (buf : list Z) (pos : nat) (v : Z) : res (list Z) :=
  match buf !! pos with
  | None => Fault OutOfBounds
  | Some b => Ok (<[pos := Z.lor b v]> buf)
  end.

(** The value goes into the free bits of the byte; what does not fit goes into the next.  A shift by
    32 or more is not defined. *)
Fixpoint packBytes (fuel : nat) (buf : list Z) (bytePos : nat) (bitPos val valSize : Z) : res (list Z * nat * Z) :=
  if bitPos - valSize + 1 >=? 0 then
    let bytePart1 := u8 (Z.shiftl (u8 val) (bitPos - valSize + 1)) in
    let* buf := or_byte buf bytePos bytePart1 in
    if bitPos - valSize <? 0 then Ok (buf, S bytePos, 7) else Ok (buf, bytePos, bitPos - valSize)
  else
    match fuel with
    | O => Fault FuelExhausted
    | S fuel =>
      let bytePart1Size := bitPos + 1 in
      let bytePart2Size := valSize - bytePart1Size in
      if bytePart2Size >=? 32 then Fault SignedOverflow
      else
        let bytePart1 := u8 (Z.shiftl (Z.shiftr val bytePart2Size) (bitPos - bytePart1Size + 1)) in
        let bytePart2 := Z.land (Z.ones bytePart2Size) val in
        let* buf := or_byte buf bytePos bytePart1 in
        packBytes fuel buf (S bytePos) 7 bytePart2 bytePart2Size
    end.

(** The fields in their order, each a value with its size in bits. *)
Fixpoint pack_fields (buf : list Z) (bytePos : nat) (bitPos : Z) (fields : list (Z * Z)) : res (list Z * nat * Z) :=
  match fields with
  | [] => Ok (buf, bytePos, bitPos)
  | (val, valSize) :: fields =>
    let* (buf, bytePos, bitPos) := packBytes (Z.to_nat valSize) buf bytePos bitPos val valSize in
    pack_fields buf bytePos bitPos fields
  end.

(** ** Random access response *)

Record Msg3UlGrant := mk_Msg3UlGrant {
  freqHopFlag : Z;
  bwpSize : Z;
  startPrb : Z;
  numPrb : Z;
  k2Index : Z;
  mcs : Z;
  tpc : Z;
  csiReq : Z
}.

Record RarInfo := mk_RarInfo { RAPID : Z; ta : Z; ulGrant : Msg3UlGrant; tcrnti : Z }.

(** The allocation in the frequency domain as one number; 0 if it is not one. *)
Definition msg3FreqResource (g : Msg3UlGrant) : Z :=
  let bwp := bwpSize g in
  if (numPrb g >=? 1) && (numPrb g <=? bwp - startPrb g) then
    if numPrb g - 1 <=? bwp / 2 then u16 (bwp * (numPrb g - 1) + startPrb g)
    else u16 (bwp * (bwp - numPrb g + 1) + (bwp - 1 - startPrb g))
  else 0.

(** The fields of the allocation.  The logarithm is rounded up below 180 blocks and cut off above;
    with frequency hopping nothing is packed there.  A size is a number of 8 bits. *)
Definition freq_fields (g : Msg3UlGrant) : res (list (Z * Z)) :=
  let n := bwpSize g * (bwpSize g + 1) / 2 in
  if n <=? 0 then Fault SignedOverflow
  else if bwpSize g <? 180 then
    let actualFreqRsrcAllocSize := Z.log2_up n in
    Ok [(0, u8 (FREQ_RSRC_ALLOC_SIZE - actualFreqRsrcAllocSize)); (msg3FreqResource g, actualFreqRsrcAllocSize)]
  else if freqHopFlag g =? 0 then
    let actualFreqRsrcAllocSize := Z.log2 n in
    Ok [(0, 1); (0, u8 (actualFreqRsrcAllocSize - FREQ_RSRC_ALLOC_SIZE)); (msg3FreqResource g, actualFreqRsrcAllocSize - 1)]
  else Ok [].

(** The sub-header, the payload and the two bytes of padding. *)
Definition fillRarPdu (r : RarInfo) : res (list Z) :=
  let g := ulGrant r in
  let* freq := freq_fields g in
  let* (rarPdu, _, _) :=
    pack_fields (repeat 0 RAR_PAYLOAD_SIZE) 0 7
      ([(0, 1); (1, 1); (RAPID r, 6); (0, 1); (ta r, 12); (freqHopFlag g, 1)] ++ freq ++
       [(k2Index g, 4); (mcs g, 4); (tpc g, 3); (csiReq g, 1); (tcrnti r, 16); (0, 2); (63, 6); (0, 8)]) in
  Ok rarPdu.

(** ** Multiplexing *)

(** [memcpy] of [n] bytes into the PDU, which is an array of [tbSize] bytes. *)
Definition copy_in (macPdu : list Z) (bytePos : nat) (src : list Z) (n : nat) : res (list Z) :=
  if (n <=? length src)%nat && (bytePos + n <=? length macPdu)%nat then Ok (buf_write macPdu bytePos (take n src)) else Fault OutOfBounds.

Record MacCe := mk_MacCe { macCeLcid : Z; macCeValue : list Z }.
(** A PDU of RLC with its length; the buffer may be longer. *)
Record MacDlInfo := mk_MacDlInfo { lcId : Z; pduLen : Z; dlPdu : list Z }.

Definition fillMsg4DlData (dlData : list MacDlInfo) (msg4PduLen : Z) (msg4Pdu : list Z) : list MacDlInfo :=
  dlData ++ [mk_MacDlInfo MAC_LCID_CCCH msg4PduLen (take (Z.to_nat msg4PduLen) msg4Pdu)].

Definition fillMacCe (msg3Pdu : list Z) : list MacCe := [mk_MacCe MAC_LCID_CRI (take MAX_CRI_SIZE msg3Pdu)].

Fixpoint mux_ces (macPdu : list Z) (bytePos : nat) (bitPos : Z) (ces : list MacCe) : res (list Z * nat * Z) :=
  match ces with
  | [] => Ok (macPdu, bytePos, bitPos)
  | ce :: ces =>
    if u8 (macCeLcid ce) =? MAC_LCID_CRI then
      let* (macPdu, bytePos, bitPos) := pack_fields macPdu bytePos bitPos [(0, 2); (u8 (macCeLcid ce), 6)] in
      let* macPdu := copy_in macPdu bytePos (macCeValue ce) MAX_CRI_SIZE in
      mux_ces macPdu (bytePos + MAX_CRI_SIZE) bitPos ces
    else mux_ces macPdu bytePos bitPos ces
  end.

Fixpoint mux_sdus (macPdu : list Z) (bytePos : nat) (bitPos : Z) (dlData : list MacDlInfo) : res (list Z * nat * Z) :=
  match dlData with
  | [] => Ok (macPdu, bytePos, bitPos)
  | p :: dlData =>
    let lcid := u8 (lcId p) in
    if (lcid =? MAC_LCID_CCCH) || ((MAC_LCID_MIN <=? lcid) && (lcid <=? MAC_LCID_MAX)) then
      let '(FBit, lenFieldSize) := if pduLen p >? 255 then (1, 16) else (0, 8) in
      let* (macPdu, bytePos, bitPos) := pack_fields macPdu bytePos bitPos [(0, 1); (FBit, 1); (lcid, 6); (pduLen p, lenFieldSize)] in
      let* macPdu := copy_in macPdu bytePos (dlPdu p) (Z.to_nat (pduLen p)) in
      mux_sdus macPdu (bytePos + Z.to_nat (pduLen p)) bitPos dlData
    else mux_sdus macPdu bytePos bitPos dlData
  end.

Definition macMuxPdu (dlData : list MacDlInfo) (macCeData : list MacCe) (tbSize : nat) : res (list Z) :=
  let* (macPdu, bytePos, bitPos) := mux_ces (repeat 0 tbSize) 0 7 macCeData in
  let* (macPdu, bytePos, bitPos) := mux_sdus macPdu bytePos bitPos dlData in
  if (bytePos <? tbSize)%nat then
    let* (macPdu, _, _) := pack_fields macPdu bytePos bitPos [(0, 2); (MAC_LCID_PADDING, 6)] in Ok macPdu
  else Ok macPdu.

(** ** Demultiplexing *)

Definition ODU_START_CRNTI : Z := 100.
Definition MAX_NUM_LOGICAL_CHANNEL_GROUPS : nat := 8.
Definition MAX_LONG_BSR_TABLE_ENTRIES : Z := 256.

Definition shortBsrBytesTable : list Z :=
  [0; 10; 14; 20; 28; 38; 53; 74; 102; 142; 198; 276; 384; 535; 745; 1038; 1446; 2014; 2806; 3909; 5446; 7587; 10570; 14726;
   20516; 28581; 39818; 55474; 77284; 107669; 150000; 150001].

Definition longBsrBytesTable : list Z :=
  [0; 10; 11; 12; 13; 14; 15; 16; 17; 18; 19; 20; 22; 23; 25; 26; 28; 30; 32; 34; 36; 38; 40; 43; 46; 49; 52; 55; 59; 62; 66; 71;
   75; 80; 85; 91; 97; 103; 110; 117; 124; 132; 141; 150; 160; 170; 181; 193; 205; 218; 233; 248; 264; 281; 299; 318; 339; 361;
   384; 409; 436; 464; 494; 526; 560; 597; 635; 677; 720; 767; 817; 870; 926; 987; 1051; 1119; 1191; 1269; 1351; 1439; 1532; 1631;
   1737; 1850; 1970; 2098; 2234; 2379; 2533; 2698; 2873; 3059; 3258; 3469; 3694; 3934; 4189; 4461; 4751; 5059; 5387; 5737; 6109;
   6506; 6928; 7378; 7857; 8367; 8910; 9488; 10104; 10760; 11458; 12202; 12994; 13838; 14736; 15692; 16711; 17795; 18951; 20181;
   21491; 22885; 24371; 25953; 27638; 29431; 31342; 33376; 35543; 37850; 40307; 42923; 45709; 48676; 51836; 55200; 58784; 62599;
   66663; 70990; 75598; 80505; 85730; 91295; 97221; 103532; 110252; 117409; 125030; 133146; 141789; 150992; 160793; 171231; 182345;
   194182; 206786; 220209; 234503; 249725; 265935; 283197; 301579; 321155; 342002; 364202; 387842; 413018; 439827; 468377; 498780;
   531156; 565634; 602350; 641449; 683087; 727427; 774645; 824928; 878475; 935498; 996222; 1060888; 1129752; 1203085; 1281179;
   1364342; 1452903; 1547213; 1647644; 1754595; 1868488; 1989774; 2118933; 2256475; 2402946; 2558924; 2725027; 2901912; 3090279;
   3290873; 3504487; 3731968; 3974215; 4232186; 4506902; 4799451; 5110989; 5442750; 5796046; 6172275; 6572925; 6999582; 7453933;
   7937777; 8453028; 9001725; 9586039; 10208280; 10870913; 11576557; 12328006; 13128233; 13980403; 14887889; 15854280; 16883401;
   17979324; 19146385; 20389201; 21712690; 23122088; 24622972; 26221280; 27923336; 29735875; 31666069; 33721553; 35910462; 38241455;
   40723756; 43367187; 46182206; 49179951; 52372284; 55771835; 59392055; 63247269; 67352729; 71724679; 76380419; 81338368; 81338368; 0].

(** The indications: to the DU application, to RLC and to the scheduler. *)
Inductive odu_ind :=
  | macProcUlCcchInd (crnti : Z) (pdu : list Z)
  | macProcUlData (rnti lcId : Z) (pdu : list Z)
  | macProcShortBsr (crnti lcgId bufferSize : Z)
  | macProcLongBsr (crnti : Z) (dataVol : list (Z * Z)).

(** The control block of random access of a UE, as far as it is used here. *)
Record MacRaCbInfo := mk_MacRaCbInfo { rcb_crnti : Z; msg3Pdu : list Z; msg4Pdu : option (list Z) }.

Record mac_st := mk_mac_st { macRaCb : list MacRaCbInfo; mem : list bool; odu_inds : list odu_ind }.
#[export] Instance eta_mac_st : Eta mac_st := fun r => mk_mac_st (macRaCb r) (mem r) (odu_inds r).

Definition odu_event (i : odu_ind) (s : mac_st) : mac_st := s <| odu_inds := odu_inds s ++ [i] |>.

Definition MAC_ALLOC (s : mac_st) : bool * mac_st :=
  match mem s with [] => (false, s) | b :: m => (b, s <| mem := m |>) end.

(** A byte of the received PDU, and a run of bytes; the index has 8 bits. *)
Definition rx (pdu : list Z) (i : Z) : res Z := match pdu !! Z.to_nat i with None => Fault OutOfBounds | Some b => Ok b end.
Definition rx_bytes (pdu : list Z) (i n : Z) : res (list Z) :=
  if (Z.to_nat i + Z.to_nat n <=? length pdu)%nat then Ok (take (Z.to_nat n) (drop (Z.to_nat i) pdu)) else Fault OutOfBounds.

Definition ra_cb (s : mac_st) (ueIdx : Z) : res MacRaCbInfo :=
  match macRaCb s !! Z.to_nat ueIdx with None => Fault OutOfBounds | Some r => Ok r end.

(** The turn of the loop: the state, the index and what is left of the length; [None] is a return
    with [RFAILED]. *)
Definition demux_ccch (s : mac_st) (rnti ueIdx : Z) (pdu : list Z) (idx plen : Z) : res (option (mac_st * Z * Z)) :=
  let '(ok, s) := MAC_ALLOC s in
  if ok : bool then
    let idx := u8 (idx + 1) in
    let* sdu := rx_bytes pdu idx 6 in
    let* cb := ra_cb s ueIdx in
    let s := s <| macRaCb := <[Z.to_nat ueIdx := mk_MacRaCbInfo (rcb_crnti cb) sdu (msg4Pdu cb)]> (macRaCb s) |> in
    Ok (Some (odu_event (macProcUlCcchInd rnti sdu) s, u8 (idx + 6), u16 (u16 (plen - 1) - 6)))
  else Ok None.

(** The F bit is taken from bit 7, and the second byte of the length is combined by [&]. *)
Definition demux_sdu (s : mac_st) (rnti ueIdx : Z) (pdu : list Z) (idx plen : Z) : res (option (mac_st * Z * Z)) :=
  let* b := rx pdu idx in
  let fBit := Z.land (Z.shiftl 1 7) b in
  let lcid := b mod 64 in
  let plen := u16 (plen - 1) in
  let idx := u8 (idx + 1) in
  let* length1 := rx pdu idx in
  let* (length_, idx, plen) :=
    if negb (fBit =? 0) then
      let idx := u8 (idx + 1) in
      let* b2 := rx pdu idx in Ok (Z.land (u16 (Z.shiftl length1 8)) b2, idx, u16 (plen - 1))
    else Ok (length1, idx, plen) in
  let '(ok, s) := MAC_ALLOC s in
  if ok : bool then
    let plen := u16 (plen - 1) in
    let idx := u8 (idx + 1) in
    let* sdu := rx_bytes pdu idx length_ in
    let* cb := ra_cb s ueIdx in
    let s := if rcb_crnti cb =? rnti then s <| macRaCb := <[Z.to_nat ueIdx := mk_MacRaCbInfo 0 (repeat 0 6) None]> (macRaCb s) |> else s in
    Ok (Some (odu_event (macProcUlData rnti lcid sdu) s, u8 (idx + length_), u16 (plen - length_)))
  else Ok None.

(** The C-RNTI is kept in a byte. *)
Definition demux_short_bsr (s : mac_st) (rnti : Z) (pdu : list Z) (idx plen : Z) : res (option (mac_st * Z * Z)) :=
  let idx := u8 (idx + 1) in
  let* b := rx pdu idx in
  Ok (Some (odu_event (macProcShortBsr (u8 rnti) (Z.shiftr b 5) (buf_get shortBsrBytesTable (b mod 32))) s, u8 (idx + 1), u16 (u16 (plen - 1) - 1))).

Fixpoint long_bsr_loop (n lcgIdx : nat) (pdu : list Z) (bits idx plen : Z) (vol : list (Z * Z)) : res (list (Z * Z) * Z * Z) :=
  match n with
  | O => Ok (vol, idx, plen)
  | S n =>
    if Z.testbit bits (Z.of_nat lcgIdx) then
      let* b := rx pdu idx in
      let vol := if (b >? 0) && (b <? MAX_LONG_BSR_TABLE_ENTRIES) then vol ++ [(Z.of_nat lcgIdx, buf_get longBsrBytesTable b)] else vol in
      long_bsr_loop n (S lcgIdx) pdu bits (u8 (idx + 1)) (u16 (plen - 1)) vol
    else long_bsr_loop n (S lcgIdx) pdu bits idx plen vol
  end.

Definition demux_long_bsr (s : mac_st) (rnti : Z) (pdu : list Z) (idx plen : Z) : res (option (mac_st * Z * Z)) :=
  let lcgIdxPos := u8 (idx + 1) in
  let* bits := rx pdu lcgIdxPos in
  let* (vol, idx, plen) :=
    long_bsr_loop MAX_NUM_LOGICAL_CHANNEL_GROUPS 0 pdu bits (u8 (lcgIdxPos + 1)) (u16 (u16 (plen - 1) - 1)) [] in
  Ok (Some (odu_event (macProcLongBsr (u8 rnti) vol) s, idx, plen)).

(** The other LCIDs up to 60 leave the switch without taking a byte. *)
Definition demux_turn (s : mac_st) (rnti ueIdx : Z) (pdu : list Z) (idx plen : Z) : res (option (mac_st * Z * Z)) :=
  let* b := rx pdu idx in
  let lcid := b mod 64 in
  if lcid =? MAC_LCID_CCCH then demux_ccch s rnti ueIdx pdu idx plen
  else if lcid <=? MAC_LCID_MAX then demux_sdu s rnti ueIdx pdu idx plen
  else if lcid <=? MAC_LCID_LONG_TRUNC_BSR then Ok (Some (s, idx, plen))
  else if lcid =? MAC_LCID_SHORT_BSR then demux_short_bsr s rnti pdu idx plen
  else if lcid =? MAC_LCID_LONG_BSR then demux_long_bsr s rnti pdu idx plen
  else Ok (Some (s, idx, plen)).

Fixpoint demux_loop (fuel : nat) (s : mac_st) (rnti ueIdx : Z) (pdu : list Z) (idx plen : Z) : res (mac_st * bool) :=
  if plen >? 0 then
    match fuel with
    | O => Fault FuelExhausted
    | S fuel =>
      let* b := rx pdu idx in
      let* r := demux_turn s rnti ueIdx pdu idx plen in
      match r with
      | None => Ok (s, false)
      | Some (s, idx, plen) => if b mod 64 =? MAC_LCID_PADDING then Ok (s, true) else demux_loop fuel s rnti ueIdx pdu idx plen
      end
    end
  else Ok (s, true).

(** The cell, if it was created, and the indication, if there is one: RNTI, bytes and length.
    [GET_UE_ID] of the RNTI, less one, is the index of the UE.  [true] stands for what the handler of the
    last indication returned. *)
Definition unpackRxData (cell : option mac_st) (rxDataIndPdu : option (Z * list Z * Z)) : res (option mac_st * bool) :=
  match rxDataIndPdu, cell with
  | None, _ | _, None => Ok (cell, false)
  | Some (rnti, pduData, pduLength), Some s =>
    let ueId := u8 (rnti - ODU_START_CRNTI + 1) in
    let* (s, ok) := demux_loop (S (Z.to_nat pduLength)) s rnti (u8 (ueId - 1)) pduData 0 pduLength in
    Ok (Some s, ok)
  end.
