(* ===== verification/OduMacBits.v ===== *)
(** Packing of bits in the MAC of the O-DU: the buffer is a number, and packing a field appends its
    bits to those that were packed before. *)

From S2P Require Import Prelude OduMac.

(** The buffer as a number, most significant byte first. *)
Fixpoint be (l : list Z) : Z := match l with [] => 0 | b :: l => b * 2 ^ (8 * Z.of_nat (length l)) + be l end.

Definition is_byte (b : Z) : Prop := 0 <= b < 256.

Lemma be_bound l : Forall is_byte l -> 0 <= be l < 2 ^ (8 * Z.of_nat (length l)).
Proof.
  induction 1 as [|b l Hb _ IH]; cbn [be length]; [done|]. unfold is_byte in Hb.
  replace (8 * Z.of_nat (S (length l))) with (8 + 8 * Z.of_nat (length l)) by lia.
  rewrite Z.pow_add_r by lia. change (2 ^ 8) with 256. nia.
Qed.

(** Numbers of the same length are the same bytes. *)
Lemma be_inj l1 : forall l2, Forall is_byte l1 -> Forall is_byte l2 -> length l1 = length l2 -> be l1 = be l2 -> l1 = l2.
Proof.
  induction l1 as [|b l1 IH]; intros [|c l2] H1 H2 Hl He; try done. apply list.Forall_cons in H1 as [Hb H1]. apply list.Forall_cons in H2 as [Hc H2].
  cbn in Hl. injection Hl as Hl. cbn [be] in He. rewrite <- Hl in He.
  pose proof (be_bound l1 H1). pose proof (be_bound l2 H2) as B2. rewrite <- Hl in B2. set (P := 2 ^ (8 * Z.of_nat (length l1))) in *.
  assert (b = c) as -> by nia. f_equal. apply IH; [done|done|done|lia].
Qed.

(** The weight of a byte. *)
Definition weight (l : list Z) (i : nat) : Z := 2 ^ (8 * (Z.of_nat (length l) - 1 - Z.of_nat i)).

Lemma be_lookup l i b : Forall is_byte l -> l !! i = Some b -> b = be l / weight l i mod 256.
Proof.
  revert i. induction l as [|c l IH]; intros i Hl Hi; [done|]. apply list.Forall_cons in Hl as [Hc Hl]. pose proof (be_bound l Hl). unfold is_byte in Hc.
  unfold weight. destruct i as [|i]; cbn in Hi; [injection Hi as <-|].
  - cbn [be length]. replace (8 * (Z.of_nat (S (length l)) - 1 - Z.of_nat 0)) with (8 * Z.of_nat (length l)) by lia.
    rewrite Z.div_add_l, Z.div_small, Z.add_0_r, Z.mod_small by lia. done.
  - pose proof (lookup_lt_Some _ _ _ Hi) as Hlt. rewrite (IH i Hl Hi) at 1. unfold weight. cbn [be length].
    replace (8 * (Z.of_nat (S (length l)) - 1 - Z.of_nat (S i))) with (8 * (Z.of_nat (length l) - 1 - Z.of_nat i)) by lia.
    set (w := 8 * (Z.of_nat (length l) - 1 - Z.of_nat i)). pose proof (Z.pow_pos_nonneg 2 w ltac:(lia) ltac:(lia)) as Hw.
    replace (8 * Z.of_nat (length l)) with (w + 8 * (1 + Z.of_nat i)) by lia. rewrite Z.pow_add_r by lia.
    replace (c * (2 ^ w * 2 ^ (8 * (1 + Z.of_nat i)))) with (c * 2 ^ (8 * (1 + Z.of_nat i)) * 2 ^ w) by ring. rewrite Z.div_add_l by lia.
    replace (8 * (1 + Z.of_nat i)) with (8 * Z.of_nat i + 8) by lia. rewrite Z.pow_add_r by lia. change (2 ^ 8) with 256.
    replace (c * (2 ^ (8 * Z.of_nat i) * 256)) with (c * 2 ^ (8 * Z.of_nat i) * 256) by ring. rewrite Z.add_comm, Z_mod_plus_full. done.
Qed.

Lemma be_insert l i b x : l !! i = Some b -> be (<[i := b + x]> l) = be l + x * weight l i.
Proof.
  revert i. induction l as [|c l IH]; intros i Hi; [done|]. unfold weight. destruct i as [|i]; cbn in Hi |- *; [injection Hi as ->|].
  - replace (8 * (Z.of_nat (S (length l)) - 1 - Z.of_nat 0)) with (8 * Z.of_nat (length l)) by lia. ring.
  - change (c * 2 ^ (8 * Z.of_nat (length (<[i := b + x]> l))) + be (<[i := b + x]> l) = c * 2 ^ (8 * Z.of_nat (length l)) + be l + x * 2 ^ (8 * (Z.of_nat (S (length l)) - 1 - Z.of_nat (S i)))).
    rewrite IH by done. rewrite length_insert. unfold weight.
    replace (8 * (Z.of_nat (S (length l)) - 1 - Z.of_nat (S i))) with (8 * (Z.of_nat (length l) - 1 - Z.of_nat i)) by lia. lia.
Qed.

(** The first [n] bits of the buffer are the number [N], the others are free. *)
Record packed (buf : list Z) (N n : Z) : Prop := {
  packed_bytes : Forall is_byte buf;
  packed_range : 0 <= n <= 8 * Z.of_nat (length buf);
  packed_value : be buf = N * 2 ^ (8 * Z.of_nat (length buf) - n);
}.

(** Bits in the free part of the current byte. *)
Lemma packed_or buf N n s v :
  packed buf N n -> 0 <= s -> s <= 8 - n mod 8 -> n + s <= 8 * Z.of_nat (length buf) -> n < 8 * Z.of_nat (length buf) -> 0 <= v < 2 ^ s ->
  exists buf', or_byte buf (Z.to_nat (n / 8)) (v * 2 ^ (8 - n mod 8 - s)) = Ok buf' /\ length buf' = length buf /\ packed buf' (N * 2 ^ s + v) (n + s).
Proof.
  intros [Hb Hr Hv] Hs0 Hs Hns Hn Hvs. pose proof (Z.div_mod n 8 ltac:(lia)) as Hdm. pose proof (Z.mod_pos_bound n 8 ltac:(lia)) as Hm.
  set (i := n / 8) in *. set (r := n mod 8) in *. unfold or_byte.
  destruct (buf !! Z.to_nat i) as [b|] eqn:Hi; [|apply lookup_ge_None in Hi; lia].
  pose proof (be_lookup buf (Z.to_nat i) b Hb Hi) as Hbv. unfold weight in Hbv. rewrite Z2Nat.id in Hbv by lia.
  set (w := 8 * (Z.of_nat (length buf) - 1 - i)) in *. assert (Hw : 8 * Z.of_nat (length buf) - n = (8 - r) + w) by lia.
  pose proof (Z.pow_pos_nonneg 2 w ltac:(lia) ltac:(lia)). pose proof (Z.pow_pos_nonneg 2 r ltac:(lia) ltac:(lia)).
  pose proof (Z.pow_pos_nonneg 2 (8 - r) ltac:(lia) ltac:(lia)). pose proof (Z.pow_pos_nonneg 2 (8 - r - s) ltac:(lia) ltac:(lia)).
  rewrite Hw, Z.pow_add_r in Hv by lia.
  assert (Hq : b = (N mod 2 ^ r) * 2 ^ (8 - r)).
  { rewrite Hbv, Hv. replace (N * (2 ^ (8 - r) * 2 ^ w)) with (N * 2 ^ (8 - r) * 2 ^ w) by ring. rewrite Z.div_mul by lia.
    replace 256 with (2 ^ r * 2 ^ (8 - r)) by (rewrite <- Z.pow_add_r by lia; by replace (r + (8 - r)) with 8 by lia).
    rewrite Z.mul_mod_distr_r by lia. done. }
  assert (Hp : 2 ^ (8 - r) = 2 ^ s * 2 ^ (8 - r - s)) by (rewrite <- Z.pow_add_r by lia; f_equal; lia).
  assert (Hx : 0 <= v * 2 ^ (8 - r - s) < 2 ^ (8 - r)).
  { rewrite Hp. nia. }
  assert (Hor : Z.lor b (v * 2 ^ (8 - r - s)) = b + v * 2 ^ (8 - r - s)).
  { rewrite Hq, <- Z.shiftl_mul_pow2 by lia. rewrite lor_shiftl_add by lia. rewrite Z.shiftl_mul_pow2 by lia. done. }
  exists (<[Z.to_nat i := b + v * 2 ^ (8 - r - s)]> buf). rewrite Hor. split; [done|]. split; [apply length_insert|]. split.
  - apply Forall_insert; [done|]. unfold is_byte. pose proof (Z.mod_pos_bound N (2 ^ r) ltac:(lia)).
    assert (2 ^ r * 2 ^ (8 - r) = 256) by (rewrite <- Z.pow_add_r by lia; by replace (r + (8 - r)) with 8 by lia). rewrite Hq. nia.
  - rewrite length_insert. lia.
  - rewrite length_insert, (be_insert buf _ b) by done. unfold weight. rewrite Z2Nat.id by lia. fold w. rewrite Hv.
    replace (8 * Z.of_nat (length buf) - (n + s)) with (8 - r - s + w) by lia. rewrite Z.pow_add_r by lia.
    rewrite Hp. ring.
Qed.

Lemma next_byte n s : 0 <= n -> n mod 8 + s = 8 -> Z.to_nat ((n + s) / 8) = S (Z.to_nat (n / 8)) /\ 7 - (n + s) mod 8 = 7.
Proof.
  intros Hn Hs. pose proof (Z.div_mod n 8 ltac:(lia)). pose proof (Z.div_pos n 8 ltac:(lia) ltac:(lia)). replace (n + s) with ((n / 8 + 1) * 8) by lia.
  rewrite Z.div_mul, Z.mod_mul by lia. lia.
Qed.

Lemma same_byte n s : 0 <= n -> 0 <= s -> n mod 8 + s < 8 -> Z.to_nat ((n + s) / 8) = Z.to_nat (n / 8) /\ 7 - (n + s) mod 8 = 7 - n mod 8 - s.
Proof.
  intros Hn Hs0 Hs. pose proof (Z.div_mod n 8 ltac:(lia)). pose proof (Z.mod_pos_bound n 8 ltac:(lia)).
  replace (n + s) with (n mod 8 + s + n / 8 * 8) by lia. rewrite Z.div_add, Z.mod_add, Z.div_small, (Z.mod_small (n mod 8 + s)) by lia. lia.
Qed.

(** [packBytes] appends the bits of the value. *)
Lemma packBytes_ok fuel : forall buf N n val s,
  packed buf N n -> 0 <= s <= 32 -> s <= Z.of_nat fuel -> n + s <= 8 * Z.of_nat (length buf) -> n < 8 * Z.of_nat (length buf) -> 0 <= val < 2 ^ s ->
  exists buf', packBytes fuel buf (Z.to_nat (n / 8)) (7 - n mod 8) val s = Ok (buf', Z.to_nat ((n + s) / 8), 7 - (n + s) mod 8) /\
  length buf' = length buf /\ packed buf' (N * 2 ^ s + val) (n + s).
Proof.
  induction fuel as [|fuel IH]; intros buf N n val s HP Hs Hf Hfit Hn Hval; pose proof (packed_range _ _ _ HP);
    pose proof (Z.div_mod n 8 ltac:(lia)) as Hdm; pose proof (Z.mod_pos_bound n 8 ltac:(lia)) as Hm; cbn [packBytes];
    destruct (Z.geb_spec (7 - n mod 8 - s + 1) 0) as [Hge|Hlt]; try lia.
  1, 2: assert (Hsmall : 2 ^ s <= 256) by (change 256 with (2 ^ 8); apply Z.pow_le_mono_r; lia);
    assert (Hu : u8 (Z.shiftl (u8 val) (7 - n mod 8 - s + 1)) = val * 2 ^ (8 - n mod 8 - s))
      by (unfold u8; rewrite (Z.mod_small val) by lia; rewrite Z.shiftl_mul_pow2 by lia; replace (7 - n mod 8 - s + 1) with (8 - n mod 8 - s) by lia;
          apply Z.mod_small; assert (2 ^ (8 - n mod 8 - s) * 2 ^ s <= 256) by (rewrite <- Z.pow_add_r by lia; change 256 with (2 ^ 8); apply Z.pow_le_mono_r; lia);
          pose proof (Z.pow_pos_nonneg 2 (8 - n mod 8 - s) ltac:(lia) ltac:(lia)); nia);
    destruct (packed_or buf N n s val HP) as (buf' & Ho & Hl & HP'); try lia; rewrite Hu, Ho; cbn [rbind]; exists buf';
    (split; [|done]); destruct (Z.ltb_spec (7 - n mod 8 - s) 0) as [H0|H0];
      [destruct (next_byte n s) as [-> ->]; [lia|lia|done]|destruct (same_byte n s) as [-> ->]; [lia|lia|lia|done]].
  assert (Hs2 : 0 <= s - (7 - n mod 8 + 1) < 32) by lia. destruct (Z.geb_spec (s - (7 - n mod 8 + 1)) 32); [lia|].
  set (k := 8 - n mod 8) in *. replace (s - (7 - n mod 8 + 1)) with (s - k) in * by lia.
  replace (7 - n mod 8 - (7 - n mod 8 + 1) + 1) with 0 by lia. rewrite Z.shiftl_0_r, Z.shiftr_div_pow2 by lia.
  assert (Hpk : 2 ^ s = 2 ^ k * 2 ^ (s - k)) by (rewrite <- Z.pow_add_r by lia; f_equal; lia).
  pose proof (Z.pow_pos_nonneg 2 (s - k) ltac:(lia) ltac:(lia)) as Hpos.
  assert (Hv1 : 0 <= val / 2 ^ (s - k) < 2 ^ k) by (split; [apply Z.div_pos; lia|apply Z.div_lt_upper_bound; lia]).
  assert (H256 : 2 ^ k <= 256) by (change 256 with (2 ^ 8); apply Z.pow_le_mono_r; lia).
  assert (Hu : u8 (val / 2 ^ (s - k)) = val / 2 ^ (s - k) * 2 ^ (8 - n mod 8 - k)) by (replace (8 - n mod 8 - k) with 0 by lia; unfold u8; rewrite Z.mod_small by lia; lia).
  destruct (packed_or buf N n k (val / 2 ^ (s - k)) HP) as (buf1 & Ho & Hl & HP1); try lia. rewrite Hu, Ho. cbn [rbind].
  rewrite (Z.land_comm (Z.ones _)), Z.land_ones by lia.
  destruct (IH buf1 (N * 2 ^ k + val / 2 ^ (s - k)) (n + k) (val mod 2 ^ (s - k)) (s - k)) as (buf2 & He & Hl2 & HP2); [done|lia|lia|lia|lia|apply Z.mod_pos_bound; lia|].
  assert (Hnk : (n + k) / 8 = n / 8 + 1 /\ (n + k) mod 8 = 0) by (unfold k; replace (n + (8 - n mod 8)) with ((n / 8 + 1) * 8) by lia; rewrite Z.div_mul, Z.mod_mul by lia; done).
  destruct Hnk as [Hd1 Hd2]. rewrite Hd1, Hd2 in He. replace (Z.to_nat (n / 8 + 1)) with (S (Z.to_nat (n / 8))) in He by lia. change (7 - 0) with 7 in He.
  rewrite He. replace (n + k + (s - k)) with (n + s) in * by lia. exists buf2. split; [done|]. split; [lia|].
  replace (N * 2 ^ s + val) with ((N * 2 ^ k + val / 2 ^ (s - k)) * 2 ^ (s - k) + val mod 2 ^ (s - k)); [done|].
  rewrite Hpk. pose proof (Z.div_mod val (2 ^ (s - k)) ltac:(lia)). lia.
Qed.

Definition field_ok (f : Z * Z) : Prop := 0 <= snd f <= 32 /\ 0 <= fst f < 2 ^ snd f.
Definition bits_of (fields : list (Z * Z)) : Z := sumZ snd fields.
Definition number_of (N : Z) (fields : list (Z * Z)) : Z := fold_left (fun N f => N * 2 ^ snd f + fst f) fields N.

(** The last field is not empty, so that no byte behind the buffer is touched. *)
Definition ends_full (fields : list (Z * Z)) : Prop := match list.last fields with None => True | Some f => 0 < snd f end.

Lemma pack_fields_ok fields : forall buf N n,
  packed buf N n -> Forall field_ok fields -> ends_full fields -> n + bits_of fields <= 8 * Z.of_nat (length buf) ->
  exists buf', pack_fields buf (Z.to_nat (n / 8)) (7 - n mod 8) fields
    = Ok (buf', Z.to_nat ((n + bits_of fields) / 8), 7 - (n + bits_of fields) mod 8) /\
  length buf' = length buf /\ packed buf' (number_of N fields) (n + bits_of fields).
Proof.
  unfold bits_of. induction fields as [|[v s] fields IH]; intros buf N n HP Hok Hend Hfit; cbn [pack_fields sumZ number_of fold_left].
  { exists buf. change (sumZ snd []) with 0. rewrite Z.add_0_r. done. }
  apply list.Forall_cons in Hok as [[Hs Hv] Hok]. cbn [fst snd] in *.
  change (sumZ snd ((v, s) :: fields)) with (s + sumZ snd fields) in *.
  assert (Hpos : 0 <= sumZ snd fields /\ (0 < s \/ 0 < sumZ snd fields)).
  { assert (Hnn : forall l, Forall field_ok l -> 0 <= sumZ snd l).
    { induction 1 as [|f l [Hf _] _ IHl]; [done|]. change (sumZ snd (f :: l)) with (snd f + sumZ snd l). lia. }
    split; [by apply Hnn|]. unfold ends_full in Hend. clear IH Hfit. revert Hend. induction fields as [|f l _] using rev_ind; [by left|].
    rewrite last_cons, last_snoc. intros Hf. right. rewrite sumZ_app. apply list.Forall_app in Hok as [Hok _]. pose proof (Hnn l Hok).
    change (sumZ snd [f]) with (snd f + 0). lia. }
  destruct (packBytes_ok (Z.to_nat s) buf N n v s) as (buf1 & -> & Hl1 & HP1); try done; try lia. cbn [rbind].
  destruct (IH buf1 (N * 2 ^ s + v) (n + s)) as (buf2 & -> & Hl2 & HP2); [done|done| |lia|].
  { unfold ends_full in *. rewrite last_cons in Hend. by destruct (list.last fields). }
  exists buf2. rewrite Z.add_assoc. split; [done|]. split; [lia|done].
Qed.
