(* ===== verification/OduMacLink.v ===== *)
(** Transport blocks of the O-DU: what [macMuxPdu] writes is what the UE of OAI reads. *)

From S2P Require Import Prelude MacPdu MacLink OduMac OduMacBits.

(** ** Writing behind what was written *)

Lemma be_app a b : be (a ++ b) = be a * 2 ^ (8 * Z.of_nat (length b)) + be b.
Proof.
  induction a as [|x a IH]; cbn [be app length]; [lia|]. rewrite IH, length_app.
  replace (8 * Z.of_nat (length a + length b)) with (8 * Z.of_nat (length a) + 8 * Z.of_nat (length b)) by lia. rewrite Z.pow_add_r by lia. ring.
Qed.

Lemma be_zeros n : be (repeat 0 n) = 0.
Proof. induction n as [|n IH]; [done|]. cbn [repeat be]. by rewrite IH. Qed.

Lemma zeros_bytes n : Forall is_byte (repeat 0 n).
Proof. induction n as [|n IH]; constructor; [unfold is_byte; lia|done]. Qed.

Lemma number_of_app fields : Forall field_ok fields -> forall N, number_of N fields = N * 2 ^ bits_of fields + number_of 0 fields.
Proof.
  induction 1 as [|[v s] l [Hs _] Hl IH]; intros N; [cbn; lia|]. cbn [fst snd] in Hs. unfold number_of. cbn [fold_left fst snd].
  change (fold_left _ l ?n) with (number_of n l). rewrite IH, (IH (0 * 2 ^ s + v)).
  change (bits_of ((v, s) :: l)) with (s + bits_of l). assert (0 <= bits_of l).
  { clear IH. induction Hl as [|f l' [Hf _] _ IHl]; [done|]. change (bits_of (f :: l')) with (snd f + bits_of l'). lia. }
  rewrite Z.pow_add_r by lia. ring.
Qed.

(** Fields that fill whole bytes. *)
Lemma pack_append pre k fields bytes :
  Forall is_byte pre -> Forall is_byte bytes -> Forall field_ok fields -> ends_full fields ->
  bits_of fields = 8 * Z.of_nat (length bytes) -> number_of 0 fields = be bytes -> (length bytes <= k)%nat ->
  pack_fields (pre ++ repeat 0 k) (length pre) 7 fields = Ok ((pre ++ bytes) ++ repeat 0 (k - length bytes), length (pre ++ bytes), 7).
Proof.
  intros Hp Hb Hf He Hbits Hnum Hk.
  destruct (pack_fields_ok fields (pre ++ repeat 0 k) (be pre) (8 * Z.of_nat (length pre))) as (buf & E & Hl & HP).
  - split; [apply list.Forall_app; split; [done|apply zeros_bytes]|rewrite length_app; lia|].
    rewrite be_app, be_zeros, length_app, repeat_length. replace (8 * Z.of_nat (length pre + k) - 8 * Z.of_nat (length pre)) with (8 * Z.of_nat k) by lia. lia.
  - done.
  - done.
  - rewrite length_app, repeat_length. lia.
  - replace (8 * Z.of_nat (length pre)) with (Z.of_nat (length pre) * 8) in E by lia. rewrite Hbits in E.
    replace (Z.of_nat (length pre) * 8 + 8 * Z.of_nat (length bytes)) with (Z.of_nat (length (pre ++ bytes)) * 8) in E by (rewrite length_app; lia).
    rewrite !Z.div_mul, !Z.mod_mul, !Nat2Z.id in E by lia. change (7 - 0) with 7 in E. rewrite E. f_equal. f_equal. f_equal.
    destruct HP as [HB _ HV]. rewrite length_app, repeat_length in Hl. apply be_inj; [done| | |].
    + apply list.Forall_app. split; [by apply list.Forall_app|apply zeros_bytes].
    + rewrite !length_app, repeat_length. lia.
    + rewrite HV, Hl, Hbits, number_of_app, Hnum by done. rewrite Hbits, (be_app (pre ++ bytes)), be_zeros, be_app, repeat_length.
      replace (8 * Z.of_nat (length pre + k) - (8 * Z.of_nat (length pre) + 8 * Z.of_nat (length bytes))) with (8 * Z.of_nat (k - length bytes)) by lia. ring.
Qed.

Lemma copy_append pre k src n :
  (n <= length src)%nat -> (n <= k)%nat -> copy_in (pre ++ repeat 0 k) (length pre) src n = Ok ((pre ++ take n src) ++ repeat 0 (k - n)).
Proof.
  intros Hs Hk. unfold copy_in. rewrite (proj2 (Nat.leb_le n (length src))) by done.
  rewrite (proj2 (Nat.leb_le (length pre + n) _)) by (rewrite length_app, repeat_length; lia). cbn [andb]. f_equal.
  rewrite buf_write_app by (rewrite length_take, repeat_length; lia). rewrite length_take, Nat.min_l by done. rewrite app_assoc. f_equal.
  replace k with (n + (k - n))%nat at 1 by lia. by rewrite repeat_app, drop_app_length' by (by rewrite repeat_length).
Qed.

(** ** The sub-PDUs *)

Definition ce_bytes (ce : MacCe) : list Z := MAC_LCID_CRI :: take MAX_CRI_SIZE (macCeValue ce).
Definition ce_sent (ce : MacCe) : Prop := macCeLcid ce = MAC_LCID_CRI /\ (MAX_CRI_SIZE <= length (macCeValue ce))%nat /\ Forall is_byte (macCeValue ce).

Definition sdu_of (p : MacDlInfo) : list Z := take (Z.to_nat (pduLen p)) (dlPdu p).
Definition header_of (p : MacDlInfo) : list Z := if pduLen p >? 255 then NR_MAC_SUBHEADER_LONG (lcId p) (pduLen p) else NR_MAC_SUBHEADER_SHORT (lcId p) (pduLen p).
Definition dl_bytes (p : MacDlInfo) : list Z := header_of p ++ sdu_of p.

(** A PDU on the CCCH or on one of the channels that the UE has. *)
Definition dl_sent (p : MacDlInfo) : Prop :=
  0 <= lcId p < NB_RB_MAX /\ 0 < pduLen p < 2 ^ 16 /\ pduLen p <= Z.of_nat (length (dlPdu p)) /\ Forall is_byte (dlPdu p).

Lemma length_sdu_of p : dl_sent p -> Z.of_nat (length (sdu_of p)) = pduLen p.
Proof. intros (_ & H1 & H2 & _). unfold sdu_of. rewrite length_take. lia. Qed.

Lemma ce_bytes_ok ce : ce_sent ce -> length (ce_bytes ce) = 7%nat /\ Forall is_byte (ce_bytes ce).
Proof.
  intros (H1 & H2 & H3). unfold ce_bytes. cbn [length]. rewrite length_take. split; [unfold MAX_CRI_SIZE in *; lia|].
  constructor; [done|by apply Forall_take].
Qed.

Lemma dl_bytes_ok p : dl_sent p -> Forall is_byte (dl_bytes p).
Proof.
  intros (H1 & H2 & H3 & H4). apply list.Forall_app. split; [|by apply Forall_take].
  pose proof (Z.mod_pos_bound (lcId p) 64 ltac:(lia)). pose proof (Z.mod_pos_bound (pduLen p) 256 ltac:(lia)). pose proof (Z.div_mod (pduLen p) 256 ltac:(lia)).
  unfold header_of, NR_MAC_SUBHEADER_LONG, NR_MAC_SUBHEADER_SHORT. destruct (Z.gtb_spec (pduLen p) 255);
    unfold u16, u8; rewrite (Z.mod_small (pduLen p)) by lia; repeat (apply list.Forall_cons; split; [unfold is_byte; lia|]); constructor.
Qed.

Lemma mux_ces_bytes ces : Forall ce_sent ces -> forall pre k, Forall is_byte pre -> (length (concat (ce_bytes <$> ces)) <= k)%nat ->
  let out := pre ++ concat (ce_bytes <$> ces) in
  mux_ces (pre ++ repeat 0 k) (length pre) 7 ces = Ok (out ++ repeat 0 (k - length (concat (ce_bytes <$> ces))), length out, 7).
Proof.
  induction 1 as [|ce ces Hce _ IH]; intros pre k Hp Hk; cbn [fmap list_fmap concat mux_ces].
  { rewrite app_nil_r, Nat.sub_0_r. done. }
  cbn [fmap list_fmap concat] in Hk. rewrite length_app in Hk. destruct (ce_bytes_ok ce Hce) as [Hl Hb]. destruct Hce as (He & Hv & Hvb). rewrite He.
  change (u8 MAC_LCID_CRI) with MAC_LCID_CRI. rewrite Z.eqb_refl.
  rewrite (pack_append pre k _ [MAC_LCID_CRI]); [|done|by repeat constructor|by repeat constructor|done|done|done|cbn [length]; lia]. cbn [rbind length].
  rewrite copy_append by (unfold MAX_CRI_SIZE in *; lia). cbn [rbind].
  assert (Hlt : length (take MAX_CRI_SIZE (macCeValue ce)) = MAX_CRI_SIZE) by (rewrite length_take; unfold MAX_CRI_SIZE in *; lia).
  assert (Hq : (pre ++ [MAC_LCID_CRI]) ++ take MAX_CRI_SIZE (macCeValue ce) = pre ++ ce_bytes ce) by (by rewrite <- app_assoc).
  assert (Hlen : (length (pre ++ [MAC_LCID_CRI]) + MAX_CRI_SIZE = length (pre ++ ce_bytes ce))%nat) by (rewrite !length_app, Hl; unfold MAX_CRI_SIZE; cbn [length]; lia).
  rewrite Hlen, Hq. rewrite IH; [|apply list.Forall_app; split; [done|done]|unfold MAX_CRI_SIZE; lia].
  rewrite <- (app_assoc pre (ce_bytes ce)). do 5 f_equal. rewrite length_app, Hl. unfold MAX_CRI_SIZE. lia.
Qed.

(** The sub-header of an SDU. *)
Lemma header_packed p pre k :
  dl_sent p -> Forall is_byte pre -> (length (header_of p) <= k)%nat ->
  let '(FBit, lenFieldSize) := if pduLen p >? 255 then (1, 16) else (0, 8) in
  pack_fields (pre ++ repeat 0 k) (length pre) 7 [(0, 1); (FBit, 1); (u8 (lcId p), 6); (pduLen p, lenFieldSize)]
  = Ok ((pre ++ header_of p) ++ repeat 0 (k - length (header_of p)), length (pre ++ header_of p), 7).
Proof.
  intros Hs Hp Hk. pose proof (dl_bytes_ok p Hs) as Hb. apply list.Forall_app in Hb as [Hb _]. destruct Hs as (H1 & H2 & _). unfold NB_RB_MAX in H1.
  assert (Hl : u8 (lcId p) = lcId p /\ lcId p mod 64 = lcId p) by (unfold u8; rewrite !Z.mod_small by lia; done). destruct Hl as [-> Hl].
  pose proof (Z.div_mod (pduLen p) 256 ltac:(lia)). unfold header_of in *.
  destruct (Z.gtb_spec (pduLen p) 255); (apply pack_append; [done|done| | |done| |done]); try (unfold ends_full; cbn; lia);
    try (repeat (apply list.Forall_cons; split; [split; cbn [fst snd]; cbn; lia|]); constructor).
  - unfold NR_MAC_SUBHEADER_LONG, u16. rewrite Hl, (Z.mod_small (pduLen p) (2 ^ 16)) by lia. cbn. lia.
  - unfold NR_MAC_SUBHEADER_SHORT, u8. rewrite Hl, (Z.mod_small (pduLen p)) by lia. cbn. lia.
Qed.

Lemma mux_sdus_bytes l : Forall dl_sent l -> forall pre k, Forall is_byte pre -> (length (concat (dl_bytes <$> l)) <= k)%nat ->
  let out := pre ++ concat (dl_bytes <$> l) in
  mux_sdus (pre ++ repeat 0 k) (length pre) 7 l = Ok (out ++ repeat 0 (k - length (concat (dl_bytes <$> l))), length out, 7).
Proof.
  induction 1 as [|p l Hs _ IH]; intros pre k Hp Hk; cbn [fmap list_fmap concat mux_sdus].
  { rewrite app_nil_r, Nat.sub_0_r. done. }
  cbn [fmap list_fmap concat] in Hk. rewrite length_app in Hk. pose proof (dl_bytes_ok p Hs) as Hb. pose proof (length_sdu_of p Hs) as Hlen.
  assert (Hld : length (dl_bytes p) = (length (header_of p) + length (sdu_of p))%nat) by apply length_app.
  pose proof (header_packed p pre k Hs Hp ltac:(lia)) as HH. pose proof Hs as (H1 & H2 & H3 & _). unfold NB_RB_MAX in H1.
  assert (Hu : u8 (lcId p) = lcId p) by (unfold u8; rewrite Z.mod_small by lia; done). rewrite Hu in *.
  assert (Hc : (lcId p =? MAC_LCID_CCCH) || ((MAC_LCID_MIN <=? lcId p) && (lcId p <=? MAC_LCID_MAX)) = true).
  { unfold MAC_LCID_CCCH, MAC_LCID_MIN, MAC_LCID_MAX. destruct (Z.eqb_spec (lcId p) 0); [done|]. cbn [orb]. apply andb_true_iff. rewrite !Z.leb_le. lia. }
  rewrite Hc. destruct (if pduLen p >? 255 then _ else _) as [FBit size]. rewrite HH. cbn [rbind].
  rewrite copy_append by lia. cbn [rbind]. change (take (Z.to_nat (pduLen p)) (dlPdu p)) with (sdu_of p).
  assert (Hq : (pre ++ header_of p) ++ sdu_of p = pre ++ dl_bytes p) by (by rewrite <- app_assoc).
  assert (Hl2 : (length (pre ++ header_of p) + Z.to_nat (pduLen p) = length (pre ++ dl_bytes p))%nat) by (rewrite !length_app; lia).
  rewrite Hq, Hl2. rewrite IH; [|apply list.Forall_app; split; done|lia].
  rewrite <- (app_assoc pre (dl_bytes p)). do 5 f_equal. rewrite length_app. lia.
Qed.

(** The block: control elements, SDUs, padding. *)
Lemma macMuxPdu_bytes l ces tbSize :
  Forall ce_sent ces -> Forall dl_sent l -> (length (concat (ce_bytes <$> ces) ++ concat (dl_bytes <$> l)) <= tbSize)%nat ->
  exists pad, macMuxPdu l ces tbSize = Ok ((concat (ce_bytes <$> ces) ++ concat (dl_bytes <$> l)) ++ pad) /\
  (pad = [] \/ exists tl, pad = DL_SCH_LCID_PADDING :: tl) /\
  length ((concat (ce_bytes <$> ces) ++ concat (dl_bytes <$> l)) ++ pad) = tbSize.
Proof.
  intros Hc Hd Hfit. set (C := concat (ce_bytes <$> ces)) in *. set (D := concat (dl_bytes <$> l)) in *. rewrite length_app in Hfit.
  assert (HC : Forall is_byte C) by (apply Forall_concat, Forall_fmap; eapply list.Forall_impl; [exact Hc|]; intros ce H; by apply ce_bytes_ok).
  assert (HD : Forall is_byte D) by (apply Forall_concat, Forall_fmap; eapply list.Forall_impl; [exact Hd|]; intros p H; by apply dl_bytes_ok).
  unfold macMuxPdu. change (repeat 0 tbSize) with ([] ++ repeat 0 tbSize). change (mux_ces _ 0%nat) with (mux_ces ([] ++ repeat 0 tbSize) (length (@nil Z))).
  rewrite mux_ces_bytes by (done || (fold C; lia)). fold C. cbn [rbind app]. rewrite mux_sdus_bytes by (done || (fold D; lia)). fold D. cbn [rbind].
  destruct (Nat.ltb_spec (length (C ++ D)) tbSize) as [Hlt|Hge]; rewrite length_app in *.
  - rewrite <- length_app. rewrite (pack_append (C ++ D) _ _ [MAC_LCID_PADDING]);
      [|by apply list.Forall_app|by repeat constructor|by repeat constructor|done|done|done|cbn [length]; lia].
    cbn [rbind length]. rewrite <- app_assoc. eexists. split; [reflexivity|]. split; [right; eexists; reflexivity|].
    rewrite !length_app, repeat_length. cbn [length]. lia.
  - exists []. replace (tbSize - length C - length D)%nat with 0%nat by lia. cbn [repeat]. split; [done|]. split; [by left|]. rewrite app_nil_r, length_app. lia.
Qed.

(** ** The UE *)

(** What the UE does with a contention resolution identity. *)
Definition resolved (mac : ue_mac) (ce : MacCe) : ue_mac :=
  if decide (ra_state (ra mac) = WAIT_CONTENTION_RESOLUTION) then
    let ra_success := bool_decide (cont_res_id (ra mac) = take MAX_CRI_SIZE (macCeValue ce)) in
    if RA_active (ra mac) && ra_success then nr_ra_succeeded mac
    else if negb ra_success then mac <| ra := (ra mac) <| ra_state := RA_UE_IDLE |> <| RA_active := false |> |>
    else mac
  else mac.

(** What it does with an SDU. *)
Definition received (mac : ue_mac) (p : MacDlInfo) : ue_mac :=
  ue_ind mac (if lcId p =? DL_SCH_LCID_CCCH then rrc_data_ind (crnti mac) (sdu_of p) else rlc_data_ind (crnti mac) (lcId p) (sdu_of p)).

Lemma ue_takes_ce ce : ce_sent ce -> ue_takes (ce_bytes ce) (fun mac => resolved mac ce).
Proof.
  intros Hs. destruct (ce_bytes_ok ce Hs) as [Hl _]. apply ue_takes_intro with (sh := 1) (n := 6); [lia|lia|]. intros mac rest.
  assert (Hc : ue_con_res mac (ce_bytes ce ++ rest) = Ok (resolved mac ce)).
  { unfold ue_con_res, resolved. case_decide; [|done]. change (ce_bytes ce ++ rest) with ([MAC_LCID_CRI] ++ take MAX_CRI_SIZE (macCeValue ce) ++ rest).
  change 1 with (Z.of_nat (length [MAC_LCID_CRI])). rewrite rd_bytes_app by (unfold ce_bytes in Hl; cbn [length] in Hl; lia). cbn [rbind].
  destruct (bool_decide _); by destruct (RA_active (ra mac)). }
  assert (Hrd : rd (ce_bytes ce ++ rest) 0 = Ok MAC_LCID_CRI) by done. unfold ue_sub_pdu. rewrite Hrd. cbn [rbind].
  change (lcid_of MAC_LCID_CRI) with DL_SCH_LCID_CON_RES_ID. set (tb := ce_bytes ce ++ rest) in *. clearbody tb. cbn -[ue_con_res]. by rewrite Hc.
Qed.

(** The length of an SDU as the UE finds it. *)
Lemma header_read p rest : dl_sent p ->
  get_mac_len (dl_bytes p ++ rest) (Z.of_nat (length (dl_bytes p ++ rest))) = Ok (Some (pduLen p, Z.of_nat (length (header_of p)))) /\
  (exists b, rd (dl_bytes p ++ rest) 0 = Ok b /\ lcid_of b = lcId p) /\
  rd_bytes (dl_bytes p ++ rest) (Z.of_nat (length (header_of p))) (pduLen p) = Ok (sdu_of p).
Proof.
  intros Hs. pose proof (length_sdu_of p Hs) as Hl. destruct Hs as (H1 & H2 & _). unfold NB_RB_MAX in H1. unfold dl_bytes. rewrite <- app_assoc. split; [|split].
  - unfold header_of. destruct (Z.gtb_spec (pduLen p) 255); [apply get_mac_len_long|apply get_mac_len_short]; cbn [length app NR_MAC_SUBHEADER_LONG NR_MAC_SUBHEADER_SHORT]; lia.
  - unfold header_of. destruct (pduLen p >? 255); eexists; (split; [reflexivity|]); [rewrite lcid_long|unfold lcid_of; rewrite Z.mod_mod by lia]; rewrite Z.mod_small by lia; done.
  - by apply rd_bytes_app.
Qed.

(** A sub-PDU on the CCCH is not all zero: its length is not. *)
Lemma ccch_not_zero p rest n : dl_sent p -> (length (header_of p) <= n)%nat -> all_zero (dl_bytes p ++ rest) n = Ok false.
Proof.
  intros (H1 & H2 & _) Hn. unfold NB_RB_MAX in H1. pose proof (Z.div_mod (pduLen p) 256 ltac:(lia)). unfold dl_bytes, header_of in *.
  destruct (Z.gtb_spec (pduLen p) 255); cbn [NR_MAC_SUBHEADER_LONG NR_MAC_SUBHEADER_SHORT app length] in *.
  - destruct n; [lia|]. cbn [all_zero]. pose proof (Z.mod_pos_bound (lcId p) 64 ltac:(lia)). by destruct (Z.eqb_spec (64 + lcId p mod 64) 0); [lia|].
  - destruct n as [|[|n]]; [lia|lia|]. cbn [all_zero]. destruct (lcId p mod 64 =? 0); [|done]. unfold u8. rewrite Z.mod_small by lia. by destruct (Z.eqb_spec (pduLen p) 0); [lia|].
Qed.

Lemma ue_takes_dl p : dl_sent p -> ue_takes (dl_bytes p) (fun mac => received mac p).
Proof.
  intros Hs. pose proof (length_sdu_of p Hs) as Hl. assert (Hld : length (dl_bytes p) = (length (header_of p) + length (sdu_of p))%nat) by apply length_app.
  apply ue_takes_intro with (sh := Z.of_nat (length (header_of p))) (n := pduLen p); [destruct Hs as (_ & H2 & _); lia|lia|]. intros mac rest.
  destruct (header_read p rest Hs) as (Hg & (b & Hb & Hlc) & Hr). unfold ue_sub_pdu. rewrite Hb. cbn [rbind]. rewrite Hlc. unfold received.
  destruct (Z.eqb_spec (lcId p) DL_SCH_LCID_CCCH) as [H0|H0].
  - unfold ue_ccch. rewrite Hg. cbn [rbind]. rewrite ccch_not_zero by (done || lia). cbn [rbind]. destruct Hs as (_ & H2 & _).
    destruct (Z.gtb_spec (pduLen p) 0); [|lia]. rewrite Hr. done.
  - destruct Hs as (H1 & H2 & _). unfold NB_RB_MAX in H1. unfold DL_SCH_LCID_CCCH in H0.
    assert (Hne : forall c, 14 <= c -> (lcId p =? c) = false) by (intros c Hc; apply Z.eqb_neq; lia).
    unfold skipped_ce_len. rewrite !Hne by (vm_compute; discriminate). cbn [orb]. unfold ue_sdu. rewrite Hg. cbn [rbind].
    replace ((lcId p <? NB_RB_MAX) && _) with true by (symmetry; apply andb_true_iff; unfold NB_RB_MAX, DL_SCH_LCID_DCCH; split; [apply Z.ltb_lt|rewrite Z.geb_leb; apply Z.leb_le]; lia).
    rewrite Hr. done.
Qed.

Lemma ue_reads_fold {A} (P : A -> Prop) (bytes : A -> list Z) (f : ue_mac -> A -> ue_mac) l :
  (forall a, P a -> (0 < length (bytes a))%nat /\ ue_takes (bytes a) (fun mac => f mac a)) -> Forall P l ->
  ue_reads (concat (bytes <$> l)) (fun mac => fold_left f l mac).
Proof.
  intros HP. induction 1 as [|a l Ha _ IH]; [apply ue_reads_nil|]. destruct (HP a Ha) as [H0 Ht]. cbn [fmap list_fmap concat fold_left].
  apply (ue_reads_app _ _ _ _ (ue_reads_one _ _ H0 Ht) IH).
Qed.

Lemma block_read mac l ces tbSize :
  Forall ce_sent ces -> Forall dl_sent l -> (length (concat (ce_bytes <$> ces) ++ concat (dl_bytes <$> l)) <= tbSize)%nat ->
  exists tb, macMuxPdu l ces tbSize = Ok tb /\ length tb = tbSize /\
  nr_ue_process_mac_pdu mac tb (Z.of_nat tbSize) = Ok (fold_left received l (fold_left resolved ces mac)).
Proof.
  intros Hc Hd Hfit. destruct (macMuxPdu_bytes l ces tbSize Hc Hd Hfit) as (pad & E & Hpad & Hlen). eexists. split; [exact E|]. split; [exact Hlen|].
  rewrite <- Hlen. apply (ue_reads_block _ (fun mac => fold_left received l (fold_left resolved ces mac))); [|done].
  apply (ue_reads_app _ _ (fun mac => fold_left resolved ces mac) (fun mac => fold_left received l mac)).
  - apply (ue_reads_fold ce_sent); [|done]. intros ce H. split; [destruct (ce_bytes_ok ce H); lia|by apply ue_takes_ce].
  - apply (ue_reads_fold dl_sent); [|done]. intros p H. split; [|by apply ue_takes_dl]. pose proof (length_sdu_of p H). destruct H as (_ & H & _).
    unfold dl_bytes. rewrite length_app. lia.
Qed.

(** The UE waits for the resolution of the contention of this message. *)
Definition waits_for (mac : ue_mac) (msg3 : list Z) : Prop :=
  ra_state (ra mac) = WAIT_CONTENTION_RESOLUTION /\ RA_active (ra mac) = true /\ cfra (ra mac) = false /\ cont_res_id (ra mac) = take MAX_CRI_SIZE msg3.

(** C32. A transport block that [macMuxPdu] of the O-DU writes is read by [nr_ue_process_mac_pdu] of the UE
    of OAI as what went in: if the control elements and PDUs fit, the block has its size, and the UE
    takes every contention resolution identity and then every PDU, in order and with its channel.  With
    the block of Msg4, which [fillMacCe] makes of the UE's own Msg3 and [fillMsg4DlData] of the message of
    the CU, random access succeeds: the UE takes its temporary RNTI, and RRC gets the message under it.
    A UE that sent another Msg3 gives up. *)
Theorem odu_block_read (mac : ue_mac) :
  (forall l ces tbSize, Forall ce_sent ces -> Forall dl_sent l -> (length (concat (ce_bytes <$> ces) ++ concat (dl_bytes <$> l)) <= tbSize)%nat ->
    exists tb, macMuxPdu l ces tbSize = Ok tb /\ length tb = tbSize /\
    nr_ue_process_mac_pdu mac tb (Z.of_nat tbSize) = Ok (fold_left received l (fold_left resolved ces mac))) /\
  (forall msg3 msg4 tbSize, (6 <= length msg3)%nat -> Forall is_byte msg3 -> Forall is_byte msg4 -> 0 < Z.of_nat (length msg4) < 2 ^ 16 ->
    (10 + length msg4 <= tbSize)%nat ->
    exists tb mac', macMuxPdu (fillMsg4DlData [] (Z.of_nat (length msg4)) msg4) (fillMacCe msg3) tbSize = Ok tb /\
    nr_ue_process_mac_pdu mac tb (Z.of_nat tbSize) = Ok mac' /\
    (waits_for mac msg3 -> crnti mac' = t_crnti (ra mac) /\ ra_state (ra mac') = RA_SUCCEEDED /\ ue_inds mac' = ue_inds mac ++ [rrc_data_ind (t_crnti (ra mac)) msg4]) /\
    (ra_state (ra mac) = WAIT_CONTENTION_RESOLUTION -> cont_res_id (ra mac) <> take MAX_CRI_SIZE msg3 -> ra_state (ra mac') = RA_UE_IDLE /\ RA_active (ra mac') = false)).
Proof.
  split; [intros; by apply block_read|]. intros msg3 msg4 tbSize H3 B3 B4 H4 Hfit.
  assert (Hce : Forall ce_sent (fillMacCe msg3)).
  { repeat constructor; [|by apply Forall_take]. cbn [macCeValue]. rewrite length_take. unfold MAX_CRI_SIZE. lia. }
  assert (Hdl : Forall dl_sent (fillMsg4DlData [] (Z.of_nat (length msg4)) msg4)).
  { unfold fillMsg4DlData. cbn [app]. rewrite Nat2Z.id, take_ge by done. constructor; [|constructor]. unfold dl_sent, NB_RB_MAX, MAC_LCID_CCCH. cbn. split; [lia|]. split; [lia|]. done. }
  destruct (block_read mac _ _ tbSize Hce Hdl) as (tb & E & _ & R).
  { rewrite length_app. unfold fillMacCe, fillMsg4DlData, dl_bytes, sdu_of, header_of. cbn [app fmap list_fmap concat pduLen dlPdu lcId]. rewrite !app_nil_r.
    destruct (ce_bytes_ok _ (Forall_inv Hce)) as [-> _]. rewrite length_app, length_take. destruct (_ >? 255); cbn [length NR_MAC_SUBHEADER_LONG NR_MAC_SUBHEADER_SHORT]; rewrite ?length_take; lia. }
  exists tb, (fold_left received (fillMsg4DlData [] (Z.of_nat (length msg4)) msg4) (fold_left resolved (fillMacCe msg3) mac)). split; [done|]. split; [done|].
  unfold fillMacCe, fillMsg4DlData, received, resolved, sdu_of. cbn [app fold_left pduLen dlPdu lcId macCeValue]. rewrite take_take, Nat.min_id, Nat2Z.id, !(take_ge msg4) by done.
  change (MAC_LCID_CCCH =? DL_SCH_LCID_CCCH) with true. cbv iota. split.
  - intros (W1 & W2 & W3 & W4). rewrite decide_True by done. rewrite W2, bool_decide_true by done. cbn [andb]. unfold nr_ra_succeeded. rewrite W3. done.
  - intros W1 W4. rewrite decide_True by done. rewrite bool_decide_false by done. rewrite andb_false_r. done.
Qed.

Definition ex_waiting : ue_mac := mk_ue_mac 0 (mk_RA_config WAIT_CONTENTION_RESOLUTION true false 0 true 18000 [1; 2; 3; 4; 5; 6] RA_UE_IDLE) (mk_time_alignment false 0 0) [].

Lemma odu_block_read_witness :
  (exists tb, macMuxPdu [mk_MacDlInfo 4 3 [7; 8; 9]] [] 20 = Ok tb /\ nr_ue_process_mac_pdu ex_waiting tb 20 = Ok (ex_waiting <| ue_inds := [rlc_data_ind 0 4 [7; 8; 9]] |>)) /\
  exists tb mac', macMuxPdu (fillMsg4DlData [] 300 (repeat 9 300)) (fillMacCe [1; 2; 3; 4; 5; 6]) 310 = Ok tb /\
  nr_ue_process_mac_pdu ex_waiting tb 310 = Ok mac' /\ crnti mac' = 18000 /\ ue_inds mac' = [rrc_data_ind 18000 (repeat 9 300)].
Proof.
  destruct (odu_block_read ex_waiting) as [HA HB]. split.
  - destruct (HA [mk_MacDlInfo 4 3 [7; 8; 9]] [] 20%nat) as (tb & E & _ & R);
      [by apply Forall_nil_2| |vm_compute; lia|exists tb; split; [exact E|exact R]].
    constructor; [|constructor]. unfold dl_sent, NB_RB_MAX. cbn [lcId pduLen dlPdu length]. split; [lia|]. split; [lia|]. split; [lia|].
    repeat (apply list.Forall_cons; split; [unfold is_byte; lia|]). constructor.
  - assert (B3 : Forall is_byte [1; 2; 3; 4; 5; 6]) by (repeat (apply list.Forall_cons; split; [unfold is_byte; lia|]); constructor).
    assert (B4 : Forall is_byte (repeat 9 300)) by (apply list.Forall_forall; intros x Hx; apply list_elem_of_In, repeat_spec in Hx; subst; unfold is_byte; lia).
    assert (L4 : length (repeat 9 300) = 300%nat) by apply repeat_length.
    destruct (HB [1; 2; 3; 4; 5; 6] (repeat 9 300) 310%nat) as (tb & mac' & E & R & W & _); [cbn; lia|done|done|rewrite L4; lia|rewrite L4; lia|].
    rewrite L4 in E. exists tb, mac'. split; [exact E|]. split; [exact R|]. destruct W as (W1 & _ & W3); [done|]. done.
Defined.
