(* ===== verification/Rar.v ===== *)
(** The random access response of OAI: how the gNB writes it ([nr_fill_rar] of
    [gNB_scheduler_RA.c]), how the UE reads it ([nr_ue_process_rar] of [nr_ue_procedures.c]), and what
    both make of the grant for Msg3 in frequency ([nr_config_pusch_pdu]) and time
    ([nr_get_Msg3alloc], [nr_ue_pusch_scheduler]).

    The bit-fields of the structures are those of the ABI: the first field is in the least
    significant bits.  The uplink request of a slot is an argument: the number of PDUs that it holds,
    or nothing when the slot is not one of the uplink.  L1 is not emulated. *)

From S2P Require Import Prelude MacPdu NrCommon.

(** ** Writing *)

(** The fields of [NR_RA_t] and of the PUSCH PDU that the response takes. *)
Record rar_input := mk_rar_input {
  preamble_index : Z;
  timing_offset : Z;
  rar_rnti : Z;
  msg3_nb_rb : Z;
  msg3_first_rb : Z;
  Msg3_tda_id : Z;
  pusch_bwp_size : Z;
  frequency_hopping : bool;
  mcs_index : Z
}.

Definition rar_tpc_command : Z := 3.

(** The seven bytes of [NR_MAC_RAR]. *)
Definition rar_payload (timing ul_grant rnti : Z) : list Z :=
  [Z.shiftr timing 5 mod 128;
   Z.land timing 0x1f * 8 + Z.land (u8 (Z.shiftr ul_grant 24)) 0x07;
   u8 (Z.shiftr ul_grant 16);
   u8 (Z.shiftr ul_grant 8);
   u8 ul_grant;
   u8 (Z.shiftr rnti 8);
   Z.land rnti 0xff].

(** The response; [ra->msg3_TPC] is set to [rar_tpc_command]. *)
Definition nr_fill_rar (r : rar_input) : res (list Z) :=
  let* prb_alloc := PRBalloc_to_locationandbandwidth0 (msg3_nb_rb r) (msg3_first_rb r) (pusch_bwp_size r) in
  if pusch_bwp_size r >? 180 then Exit
  else
    let valid_bits := Z.log2_up (Z.shiftr (pusch_bwp_size r * (pusch_bwp_size r + 1)) 1) in
    if frequency_hopping r then Exit
    else
      let f_alloc := Z.land (u16 prb_alloc) (u16 (Z.ones valid_bits)) in
      let ul_grant := u32 (Z.lor (Z.lor (Z.lor (Z.lor 0 (Z.shiftl rar_tpc_command 1)) (Z.shiftl (mcs_index r) 4)) (Z.shiftl (Msg3_tda_id r) 8))
                                 (Z.shiftl f_alloc 12)) in
      (* E = 1, T = 0 and the back-off index 0; then E = 0, T = 1 and the preamble *)
      Ok ([128; 64 + preamble_index r mod 64] ++ rar_payload (timing_offset r) ul_grant (rar_rnti r)).

(** ** Reading *)

Definition table_7_2_1 : list Z := [5; 10; 20; 30; 40; 60; 80; 120; 160; 240; 320; 480; 960; 1920; 0; 0].

Record RAR_grant_t := mk_RAR_grant { grant_mcs : Z; Msg3_t_alloc : Z; Msg3_f_alloc : Z; freq_hopping : Z }.

(** The fields of [RA_config_t] that the response changes. *)
Record ra_rar := mk_ra_rar {
  ra_PreambleIndex : Z;
  ra_cfra : bool;
  RA_RAPID_found : bool;
  RA_BI_found : bool;
  RA_backoff_indicator : Z;
  Msg3_TPC : Z;
  ra_t_crnti : Z
}.
#[export] Instance eta_ra_rar : Eta ra_rar :=
  fun r => mk_ra_rar (ra_PreambleIndex r) (ra_cfra r) (RA_RAPID_found r) (RA_BI_found r) (RA_backoff_indicator r) (Msg3_TPC r) (ra_t_crnti r).

(** The loop over the sub-headers: the state and, if the preamble was found, the place of its payload. *)
Fixpoint rar_loop (fuel : nat) (ra : ra_rar) (buf : list Z) (rarh n_subheaders n_subPDUs : Z) : res (ra_rar * option Z) :=
  match fuel with
  | O => Fault FuelExhausted
  | S fuel =>
    let* h := rd buf (Z.to_nat rarh) in
    let n_subheaders := u8 (n_subheaders + 1) in
    if Z.testbit h 6 then
      let n_subPDUs := u8 (n_subPDUs + 1) in
      if h mod 64 =? u8 (ra_PreambleIndex ra) then Ok (ra <| RA_RAPID_found := true |>, Some (n_subheaders + (n_subPDUs - 1) * 7))
      else if Z.testbit h 7 then rar_loop fuel ra buf (rarh + 8) n_subheaders n_subPDUs
      else Ok (ra, None)
    else
      let ra := ra <| RA_backoff_indicator := buf_get table_7_2_1 (h mod 16) |> <| RA_BI_found := true |> in
      if Z.testbit h 7 then rar_loop fuel ra buf (rarh + 1) n_subheaders n_subPDUs else Ok (ra, None)
  end.

(** What the UE does with the response: the state, the timing advance and the PUSCH it configures,
    with the RNTI and the slot. *)
Record rar_outcome := mk_rar_outcome { rar_ra : ra_rar; rar_ta : Z; rar_pusch : option (Z * RAR_grant_t * (Z * Z)); rar_ret : Z }.

Definition nr_slots_per_frame : list Z := [10; 20; 40; 80; 160].
Definition DURATION_RX_TO_TX : Z := 5.
Definition FAPI_NR_UL_CONFIG_LIST_NUM : Z := 10.

(** The slot of Msg3 or of another PUSCH, from the time allocations of the cell; for the other the
    offset [k2] is that of [get_k2]. *)
Definition nr_ue_pusch_scheduler (mu : Z) (k2s : list Z) (is_Msg3 : bool) (get_k2 current_frame current_slot tda_id : Z) : res (option (Z * Z)) :=
  let n := buf_get nr_slots_per_frame mu in
  if is_Msg3 then
    match k2s !! Z.to_nat tda_id with
    | None => Fault OutOfBounds
    | Some k2 =>
      let delta := if mu =? 0 then 2 else if mu =? 1 then 3 else if mu =? 2 then 4 else if mu =? 3 then 6 else 0 in
      if k2 + delta >=? DURATION_RX_TO_TX then
        let slot_tx := cmod (current_slot + k2 + delta) n in
        let frame_tx := if current_slot + k2 + delta >? n then cmod (current_frame + 1) 1024 else current_frame in
        Ok (Some (frame_tx, slot_tx))
      else Exit
    end
  else if get_k2 <? 0 then Ok None
  else
    let slot_tx := cmod (current_slot + get_k2) n in
    let frame_tx := if current_slot + get_k2 >? n - 1 then cmod (current_frame + 1) 1024 else current_frame in
    Ok (Some (frame_tx, slot_tx)).

Definition tpc_of (tpc_command : Z) : Z := buf_get [-6; -4; -2; 0; 2; 4; 6; 8] tpc_command.

Section ue.

Variables (mu : Z) (k2s : list Z) (ul_config : Z -> option Z).

Definition nr_ue_process_rar (ra : ra_rar) (mac_crnti ta0 : Z) (ack_nack : bool) (frame slot : Z) (buf : list Z) : res rar_outcome :=
  if negb ack_nack then Ok (mk_rar_outcome ra ta0 None 0)
  else
    let* (ra, place) := rar_loop (length buf) ra buf 0 0 0 in
    if RA_RAPID_found ra then
      (* a flag that is still set from an earlier response is read at the start of the buffer *)
      let at_ := Z.to_nat (default 1 place) in
      let* b1 := rd buf at_ in
      let* b2 := rd buf (S at_) in
      let* g2 := rd buf (2 + at_) in
      let* g3 := rd buf (3 + at_) in
      let* g4 := rd buf (4 + at_) in
      let '(TA1, TA2, g1) := (b1 mod 128, b2 / 8, b2 mod 8) in
      let ta := 31 + TA2 + Z.shiftl TA1 5 in
      let ra := ra <| Msg3_TPC := tpc_of (Z.land (Z.shiftr g4 1) 0x07) |> in
      let grant := mk_RAR_grant (Z.shiftr g4 4) (Z.land g3 0x07)
                     (u16 (Z.lor (Z.lor (Z.shiftr g3 4) (Z.shiftl g2 4)) (Z.shiftl (Z.land g1 0x03) 12))) (Z.shiftr g1 2) in
      let* tx := nr_ue_pusch_scheduler mu k2s true 0 frame slot (Msg3_t_alloc grant) in
      match tx with
      | None => Ok (mk_rar_outcome ra ta None (-1))
      | Some (frame_tx, slot_tx) =>
        match ul_config slot_tx with
        | None => Ok (mk_rar_outcome ra ta None (-1))
        | Some number_pdus =>
          if number_pdus >=? FAPI_NR_UL_CONFIG_LIST_NUM then Exit
          else if ra_cfra ra then Ok (mk_rar_outcome ra ta (Some (mac_crnti, grant, (frame_tx, slot_tx))) 0)
          else
            let* c1 := rd buf (5 + at_) in
            let* c2 := rd buf (6 + at_) in
            let ra := ra <| ra_t_crnti := c2 + Z.shiftl c1 8 |> in
            Ok (mk_rar_outcome ra ta (Some (ra_t_crnti ra, grant, (frame_tx, slot_tx))) 0)
        end
      end
    else Ok (mk_rar_outcome (ra <| ra_t_crnti := 0 |>) 0xffff None 0).

End ue.

(** ** The grant *)

Definition nr_ue_process_dci_freq_dom_resource_assignment (n_RB_ULBWP riv : Z) : option (Z * Z) :=
  let rb_size := NRRIV2BW riv n_RB_ULBWP in
  let rb_start := NRRIV2PRBOFFSET riv n_RB_ULBWP in
  if (rb_size <? 1) || (rb_size >? n_RB_ULBWP - rb_start) then None else Some (rb_start, rb_size).

(** The blocks of Msg3 from the grant. *)
Definition msg3_blocks (ibwp_size f_alloc : Z) : option (Z * Z) :=
  let bits := Z.log2_up (Z.shiftr (ibwp_size * (ibwp_size + 1)) 1) in
  let mask := Z.shiftl 1 (if ibwp_size <? 180 then bits else 28 - bits) - 1 in
  nr_ue_process_dci_freq_dom_resource_assignment ibwp_size (u16 (Z.land f_alloc mask)).

(** The frame and the slot in which the gNB expects Msg3. *)
Definition DELTA : list Z := [2; 3; 4; 6].
Definition msg3_time (mu k2 current_frame current_slot : Z) : Z * Z :=
  let n_slots_frame := buf_get nr_slots_per_frame mu in
  let temp_slot := current_slot + k2 + buf_get DELTA mu in
  (if n_slots_frame >? temp_slot then current_frame else cmod (current_frame + Z.quot temp_slot n_slots_frame) 1024,
   cmod temp_slot n_slots_frame).
