(* ===== verification/RarLink.v ===== *)
(** Random access responses: what the O-DU and the gNB of OAI write is what the UE of OAI reads. *)

From S2P Require Import Prelude MacPdu NrCommon OduMac OduMacBits Rar.

(** ** The response as bytes *)

(** The payload: timing advance, hopping, frequency and time allocation, MCS, TPC, CSI request, RNTI. *)
Definition rar_body (ta hop f t mcs tpc csi rnti : Z) : list Z :=
  [ta / 32; ta mod 32 * 8 + hop * 4 + f / 4096; f / 16 mod 256; f mod 16 * 16 + t; mcs * 16 + tpc * 2 + csi; rnti / 256; rnti mod 256].

Record grant_ok (ta hop f t mcs tpc csi rnti : Z) : Prop := {
  gok_ta : 0 <= ta < 4096;
  gok_hop : 0 <= hop < 2;
  gok_f : 0 <= f < 2 ^ 14;
  gok_t : 0 <= t < 16;
  gok_mcs : 0 <= mcs < 16;
  gok_tpc : 0 <= tpc < 8;
  gok_csi : 0 <= csi < 2;
  gok_rnti : 0 <= rnti < 65536;
}.

Lemma dm x n : 0 < n -> x = n * (x / n) + x mod n /\ 0 <= x mod n < n.
Proof. intros H. split; [apply Z.div_mod; lia|by apply Z.mod_pos_bound]. Qed.

Lemma rar_body_bytes ta hop f t mcs tpc csi rnti : grant_ok ta hop f t mcs tpc csi rnti -> Forall is_byte (rar_body ta hop f t mcs tpc csi rnti).
Proof.
  intros []. destruct (dm ta 32 ltac:(lia)), (dm f 4096 ltac:(lia)), (dm f 16 ltac:(lia)), (dm (f / 16) 256 ltac:(lia)), (dm rnti 256 ltac:(lia)).
  unfold rar_body, is_byte. repeat (apply list.Forall_cons; split; [lia|]). constructor.
Qed.

(** ** The O-DU *)

Definition blocks_ok (g : Msg3UlGrant) : Prop := 0 <= startPrb g /\ 1 <= numPrb g /\ startPrb g + numPrb g <= bwpSize g /\ bwpSize g <= 180.

(** The number of an allocation is below the number of allocations. *)
Lemma riv_bound g : blocks_ok g -> 0 <= msg3FreqResource g < bwpSize g * (bwpSize g + 1) / 2.
Proof.
  intros (Hs & Hn & Hf & Hb). unfold msg3FreqResource.
  destruct (Z.geb_spec (numPrb g) 1); [|lia]. destruct (Z.leb_spec (numPrb g) (bwpSize g - startPrb g)); [|lia]. cbn [andb].
  set (N := bwpSize g) in *. set (L := numPrb g) in *. set (S := startPrb g) in *. clearbody N L S.
  destruct (dm N 2 ltac:(lia)) as [H2 H2'].
  assert (Hk : exists k, N * (N + 1) = k * 2).
  { destruct (Z.eq_dec (N mod 2) 0) as [He|He]; [exists (N / 2 * (N + 1))|exists (N * (N / 2 + 1))]; nia. }
  destruct Hk as [k Hk]. rewrite Hk, Z.div_mul by lia.
  assert (Hlt : forall x, 0 <= x -> 2 * x < N * (N + 1) -> 0 <= u16 x < k).
  { intros x Hx0 Hx. unfold u16. rewrite Z.mod_small; nia. }
  destruct (Z.leb_spec (L - 1) (N / 2)); apply Hlt; nia.
Qed.

(** The bits of the allocation are 14 in all. *)
Lemma freq_fields_ok g :
  blocks_ok g -> bwpSize g < 180 -> exists s, freq_fields g = Ok [(0, 14 - s); (msg3FreqResource g, s)] /\ 0 <= s <= 14 /\ 0 <= msg3FreqResource g < 2 ^ s.
Proof.
  intros Hg Hlt. pose proof (riv_bound g Hg) as Hriv. destruct Hg as (Hs & Hn & Hf & Hb). unfold freq_fields.
  set (n := bwpSize g * (bwpSize g + 1) / 2) in *. assert (Hn14 : n <= 2 ^ 14) by (apply Z.div_le_upper_bound; nia).
  destruct (Z.leb_spec n 0); [lia|]. destruct (Z.ltb_spec (bwpSize g) 180); [|lia].
  assert (Hup : n <= 2 ^ Z.log2_up n) by (apply Z.log2_up_le_pow2; lia). assert (H14 : Z.log2_up n <= 14) by (apply Z.log2_up_le_pow2; lia).
  pose proof (Z.log2_up_nonneg n). exists (Z.log2_up n). unfold FREQ_RSRC_ALLOC_SIZE, u8. rewrite Z.mod_small by lia. split; [done|]. split; [lia|]. lia.
Qed.

Definition rar_ok (r : RarInfo) : Prop :=
  0 <= RAPID r < 64 /\ blocks_ok (ulGrant r) /\ bwpSize (ulGrant r) < 180 /\
  grant_ok (ta r) (freqHopFlag (ulGrant r)) 0 (k2Index (ulGrant r)) (mcs (ulGrant r)) (tpc (ulGrant r)) (csiReq (ulGrant r)) (tcrnti r).

Lemma packed_zeros n : packed (repeat 0 n) 0 0.
Proof.
  split; [apply list.Forall_forall; intros x Hx; apply list_elem_of_In, repeat_spec in Hx; subst; unfold is_byte; lia|lia|].
  induction n as [|n IH]; [done|]. cbn [repeat be]. rewrite IH. lia.
Qed.

Lemma fillRarPdu_bytes r :
  rar_ok r ->
  let g := ulGrant r in
  fillRarPdu r = Ok ([64 + RAPID r] ++ rar_body (ta r) (freqHopFlag g) (msg3FreqResource g) (k2Index g) (mcs g) (tpc g) (csiReq g) (tcrnti r) ++ [63; 0]).
Proof.
  intros (HR & Hg & H180 & Hk) g. destruct (freq_fields_ok g Hg H180) as (s & Hfq & Hs & Hriv). unfold fillRarPdu. fold g. rewrite Hfq. cbn [rbind].
  assert (Hr14 : 0 <= msg3FreqResource g < 2 ^ 14) by (pose proof (Z.pow_le_mono_r 2 s 14 ltac:(lia) ltac:(lia)); lia).
  destruct Hk as [K1 K2 _ K3 K4 K5 K6 K7]. fold g in K2, K3, K4, K5, K6.
  match goal with |- context [pack_fields _ _ _ ?l] => set (fields := l) end.
  assert (Hbits : bits_of fields = 80) by (unfold bits_of, fields; cbn; lia).
  destruct (pack_fields_ok fields (repeat 0 RAR_PAYLOAD_SIZE) 0 0) as (buf & He & Hl & HP).
  - apply packed_zeros.
  - unfold fields, field_ok. cbn [app]. repeat (apply list.Forall_cons; split; [cbn [fst snd]; cbn; lia|]). constructor.
  - unfold ends_full, fields. cbn. lia.
  - rewrite Hbits. done.
  - change (Z.to_nat (0 / 8)) with 0%nat in He. change (7 - 0 mod 8) with 7 in He. rewrite He. cbn [rbind]. f_equal.
    destruct HP as [HB _ HV]. rewrite Hl, Hbits in HV. change (8 * Z.of_nat (length (repeat 0 RAR_PAYLOAD_SIZE)) - (0 + 80)) with 0 in HV.
    change (2 ^ 0) with 1 in HV. rewrite Z.mul_1_r in HV. apply be_inj; [done| |done|].
    + cbn [app]. apply list.Forall_cons. split; [unfold is_byte; lia|]. apply list.Forall_app. split; [by apply rar_body_bytes|].
      repeat (apply list.Forall_cons; split; [unfold is_byte; lia|]). constructor.
    + rewrite HV. unfold fields, number_of. cbn [app fold_left fst snd].
      assert (Hp : forall x, (x * 2 ^ (14 - s) + 0) * 2 ^ s + msg3FreqResource g = x * 2 ^ 14 + msg3FreqResource g).
      { intros x. rewrite Z.add_0_r, <- Z.mul_assoc, <- Z.pow_add_r by lia. by replace (14 - s + s) with 14 by lia. }
      rewrite Hp. cbn [app rar_body be length Z.of_nat].
      destruct (dm (ta r) 32 ltac:(lia)), (dm (msg3FreqResource g) 4096 ltac:(lia)), (dm (msg3FreqResource g) 16 ltac:(lia)), (dm (msg3FreqResource g / 16) 256 ltac:(lia)), (dm (tcrnti r) 256 ltac:(lia)).
      assert (msg3FreqResource g / 16 / 256 = msg3FreqResource g / 4096) by (by rewrite Z.div_div by lia). cbn. lia.
Qed.

(** ** The gNB of OAI *)

Definition oai_rar_ok (r : rar_input) : Prop :=
  0 <= preamble_index r < 64 /\ 0 <= timing_offset r < 4096 /\ 0 <= rar_rnti r < 65536 /\
  1 <= msg3_nb_rb r /\ 0 <= msg3_first_rb r /\ msg3_first_rb r + msg3_nb_rb r <= pusch_bwp_size r <= 180 /\
  0 <= Msg3_tda_id r < 16 /\ 0 <= mcs_index r < 16 /\ frequency_hopping r = false.

(** The same number of an allocation. *)
Lemma oai_riv g : blocks_ok g -> PRBalloc_to_locationandbandwidth0 (numPrb g) (startPrb g) (bwpSize g) = Ok (msg3FreqResource g).
Proof.
  intros Hg. pose proof (riv_bound g Hg) as Hr. destruct Hg as (Hs & Hn & Hf & Hb). unfold PRBalloc_to_locationandbandwidth0, msg3FreqResource in *.
  destruct (Z.gtb_spec (numPrb g) 0); [|lia]. destruct (Z.leb_spec (numPrb g + startPrb g) (bwpSize g)); [|lia]. cbn [andb negb].
  destruct (Z.geb_spec (numPrb g) 1); [|lia]. destruct (Z.leb_spec (numPrb g) (bwpSize g - startPrb g)); [|lia]. cbn [andb] in *.
  rewrite Z.shiftr_div_pow2 by lia. change (2 ^ 1) with 2.
  destruct (Z.leb_spec (numPrb g) (1 + bwpSize g / 2)), (Z.leb_spec (numPrb g - 1) (bwpSize g / 2)); try lia; unfold u16; rewrite Z.mod_small; [done|nia| |nia].
  f_equal. lia.
Qed.

Lemma lor_add a b k : 0 <= k -> 0 <= a < 2 ^ k -> Z.lor a (Z.shiftl b k) = b * 2 ^ k + a.
Proof. intros Hk Ha. rewrite Z.lor_comm. by apply lor_shiftl_add. Qed.

(** The grant as four bytes. *)
Lemma grant_bytes ta f t mcs rnti :
  0 <= ta < 4096 -> 0 <= f < 2 ^ 14 -> 0 <= t < 16 -> 0 <= mcs < 16 -> 0 <= rnti < 65536 ->
  rar_payload ta (f * 4096 + t * 256 + mcs * 16 + 6) rnti = rar_body ta 0 f t mcs rar_tpc_command 0 rnti.
Proof.
  intros Ha Hf Ht Hm Hr. unfold rar_payload, rar_body, rar_tpc_command, u8.
  change 0x1f with (2 ^ 5 - 1). change 7 with (2 ^ 3 - 1). change 255 with (2 ^ 8 - 1). rewrite !land_ones_mod by lia.
  rewrite !Z.shiftr_div_pow2 by lia. set (u := f * 4096 + t * 256 + mcs * 16 + 6).
  destruct (dm f 4096 ltac:(lia)), (dm f 16 ltac:(lia)), (dm (f / 16) 256 ltac:(lia)), (dm ta 32 ltac:(lia)), (dm rnti 256 ltac:(lia)).
  assert (f / 16 / 256 = f / 4096) by (by rewrite Z.div_div by lia).
  assert (H24 : u / 2 ^ 24 = f / 4096) by (symmetry; apply (Z.div_unique u (2 ^ 24) _ (u - 2 ^ 24 * (f / 4096))); unfold u; lia).
  assert (H16 : u / 2 ^ 16 = f / 16) by (symmetry; apply (Z.div_unique u (2 ^ 16) _ (u - 2 ^ 16 * (f / 16))); unfold u; lia).
  assert (Hb1 : u / 2 ^ 8 = f * 16 + t) by (symmetry; apply (Z.div_unique u (2 ^ 8) _ (mcs * 16 + 6)); unfold u; lia).
  rewrite H24, H16, Hb1. change (2 ^ 8) with 256. change (2 ^ 5) with 32. change (2 ^ 3) with 8.
  rewrite (Z.mod_small (ta / 32)), (Z.mod_small (rnti / 256)) by lia. rewrite (Z.mod_small (f / 4096) 256), (Z.mod_small (f / 4096) 8) by lia.
  assert (Hu8 : u mod 256 = mcs * 16 + 6) by (symmetry; apply (Z.mod_unique u 256 (f * 16 + t)); unfold u; lia).
  assert (Hf8 : (f * 16 + t) mod 256 = f mod 16 * 16 + t) by (symmetry; apply (Z.mod_unique _ 256 (f / 16)); lia).
  rewrite Hu8, Hf8. repeat (f_equal; try lia).
Qed.

Lemma nr_fill_rar_bytes r :
  oai_rar_ok r ->
  let g := mk_Msg3UlGrant 0 (pusch_bwp_size r) (msg3_first_rb r) (msg3_nb_rb r) 0 0 0 0 in
  nr_fill_rar r = Ok ([128; 64 + preamble_index r] ++
    rar_body (timing_offset r) 0 (msg3FreqResource g) (Msg3_tda_id r) (mcs_index r) rar_tpc_command 0 (rar_rnti r)).
Proof.
  intros (H1 & H2 & H3 & H4 & H5 & H6 & H7 & H8 & Hh) g. assert (Hg : blocks_ok g) by (unfold blocks_ok, g; cbn; lia).
  pose proof (riv_bound g Hg) as Hriv. pose proof (oai_riv g Hg) as Hr. unfold g in Hr at 1 2 3. cbn [numPrb startPrb bwpSize] in Hr.
  unfold nr_fill_rar. rewrite Hr. cbn [rbind]. destruct (Z.gtb_spec (pusch_bwp_size r) 180); [lia|]. rewrite Hh.
  rewrite Z.shiftr_div_pow2 by lia. change (2 ^ 1) with 2. change (pusch_bwp_size r) with (bwpSize g). set (n := bwpSize g * (bwpSize g + 1) / 2) in *.
  assert (Hn14 : n <= 2 ^ 14) by (apply Z.div_le_upper_bound; unfold g; cbn; nia). set (f := msg3FreqResource g) in *.
  assert (Hup : n <= 2 ^ Z.log2_up n) by (apply Z.log2_up_le_pow2; lia). assert (H14 : Z.log2_up n <= 14) by (apply Z.log2_up_le_pow2; lia).
  pose proof (Z.log2_up_nonneg n). assert (Hones : u16 (Z.ones (Z.log2_up n)) = Z.ones (Z.log2_up n)).
  { pose proof (Z.pow_le_mono_r 2 (Z.log2_up n) 14 ltac:(lia) ltac:(lia)). unfold u16. apply Z.mod_small. rewrite Z.ones_equiv. lia. }
  assert (Hf : Z.land (u16 f) (u16 (Z.ones (Z.log2_up n))) = f).
  { rewrite Hones, Z.land_ones by lia. unfold u16. rewrite (Z.mod_small f (2 ^ 16)) by lia. apply Z.mod_small. lia. }
  rewrite Hf. change (Z.lor 0 (Z.shiftl rar_tpc_command 1)) with 6.
  rewrite (lor_add 6) by lia. rewrite (lor_add (_ + 6)) by lia. rewrite (lor_add (_ + _)) by lia.
  clearbody f. clear Hf Hones Hr Hh.
  set (u := _ + (_ + _)). assert (Hu : u = f * 4096 + Msg3_tda_id r * 256 + mcs_index r * 16 + 6) by (unfold u; lia). clearbody u.
  unfold u32. rewrite (Z.mod_small u) by lia. f_equal. rewrite (Z.mod_small (preamble_index r)) by lia. rewrite Hu, grant_bytes by lia. done.
Qed.

(** ** The UE *)

(** The bytes of the payload as the UE takes them apart. *)
Lemma read_body ta hop f t mcs tpc csi rnti :
  grant_ok ta hop f t mcs tpc csi rnti -> t < 8 ->
  let g1 := ta mod 32 * 8 + hop * 4 + f / 4096 in
  let g2 := f / 16 mod 256 in
  let g3 := f mod 16 * 16 + t in
  let g4 := mcs * 16 + tpc * 2 + csi in
  31 + g1 / 8 + Z.shiftl (ta / 32 mod 128) 5 = 31 + ta /\
  tpc_of (Z.land (Z.shiftr g4 1) 0x07) = 2 * tpc - 6 /\
  mk_RAR_grant (Z.shiftr g4 4) (Z.land g3 0x07)
    (u16 (Z.lor (Z.lor (Z.shiftr g3 4) (Z.shiftl g2 4)) (Z.shiftl (Z.land (g1 mod 8) 0x03) 12))) (Z.shiftr (g1 mod 8) 2) = mk_RAR_grant mcs t f hop /\
  rnti mod 256 + Z.shiftl (rnti / 256) 8 = rnti.
Proof.
  intros [] Ht g1 g2 g3 g4. change 3 with (2 ^ 2 - 1). change 7 with (2 ^ 3 - 1). rewrite !land_ones_mod by lia.
  rewrite !Z.shiftr_div_pow2, !Z.shiftl_mul_pow2 by lia. rewrite <- (Z.shiftl_mul_pow2 g2), <- (Z.shiftl_mul_pow2 (g1 mod 8 mod _)) by lia.
  destruct (dm ta 32 ltac:(lia)), (dm f 4096 ltac:(lia)), (dm f 16 ltac:(lia)), (dm (f / 16) 256 ltac:(lia)), (dm rnti 256 ltac:(lia)).
  assert (f / 16 / 256 = f / 4096) by (by rewrite Z.div_div by lia).
  assert (E1 : g1 / 8 = ta mod 32) by (symmetry; apply (Z.div_unique g1 8 _ (hop * 4 + f / 4096)); unfold g1; lia).
  assert (E2 : g1 mod 8 = hop * 4 + f / 4096) by (symmetry; apply (Z.mod_unique g1 8 (ta mod 32)); unfold g1; lia).
  assert (E3 : g4 / 2 ^ 1 = mcs * 8 + tpc) by (symmetry; apply (Z.div_unique g4 2 _ csi); unfold g4; lia).
  assert (E4 : g4 / 2 ^ 4 = mcs) by (symmetry; apply (Z.div_unique g4 16 _ (tpc * 2 + csi)); unfold g4; lia).
  assert (E5 : g3 mod 2 ^ 3 = t) by (symmetry; apply (Z.mod_unique g3 8 (f mod 16 * 2)); unfold g3; lia).
  assert (E6 : g3 / 2 ^ 4 = f mod 16) by (symmetry; apply (Z.div_unique g3 16 _ t); unfold g3; lia).
  assert (E7 : (mcs * 8 + tpc) mod 2 ^ 3 = tpc) by (symmetry; apply (Z.mod_unique _ 8 mcs); lia).
  assert (E8 : (hop * 4 + f / 4096) mod 2 ^ 2 = f / 4096) by (symmetry; apply (Z.mod_unique _ 4 hop); lia).
  assert (E9 : (hop * 4 + f / 4096) / 2 ^ 2 = hop) by (symmetry; apply (Z.div_unique _ 4 _ (f / 4096)); lia).
  rewrite E1, E2, E3, E4, E5, E6, E7, E8, E9. rewrite (Z.mod_small (ta / 32)) by lia.
  assert (E10 : 0 <= g2 < 256) by (unfold g2; lia).
  rewrite (lor_add (f mod 16)) by lia. rewrite lor_add by lia. unfold u16. rewrite (Z.mod_small (_ * 2 ^ 12 + _)) by lia.
  split; [lia|]. split; [|split; [|lia]].
  - assert (tpc = 0 \/ tpc = 1 \/ tpc = 2 \/ tpc = 3 \/ tpc = 4 \/ tpc = 5 \/ tpc = 6 \/ tpc = 7) as HT by lia.
    by repeat destruct HT as [->|HT]; [..|subst tpc].
  - f_equal. unfold g2. lia.
Qed.

(** The blocks of an allocation from its number. *)
Lemma msg3_blocks_ok g : blocks_ok g -> msg3_blocks (bwpSize g) (msg3FreqResource g) = Some (startPrb g, numPrb g).
Proof.
  intros Hg. pose proof (riv_bound g Hg) as Hr. pose proof (oai_riv g Hg) as Ho. destruct Hg as (Hs & Hn & Hf & Hb).
  destruct (proj1 allocation_roundtrip _ _ _ _ Hs Ho) as [HB HO]. unfold msg3_blocks.
  rewrite Z.shiftr_div_pow2 by lia. change (2 ^ 1) with 2. set (n := bwpSize g * (bwpSize g + 1) / 2) in *.
  assert (Hn14 : n <= 2 ^ 14) by (apply Z.div_le_upper_bound; nia). assert (Hup : n <= 2 ^ Z.log2_up n) by (apply Z.log2_up_le_pow2; lia).
  assert (H14 : Z.log2_up n <= 14) by (apply Z.log2_up_le_pow2; lia). pose proof (Z.log2_up_nonneg n).
  assert (Hbits : (if bwpSize g <? 180 then Z.log2_up n else 28 - Z.log2_up n) = Z.log2_up n).
  { destruct (Z.ltb_spec (bwpSize g) 180); [done|]. assert (HN : bwpSize g = 180) by lia. unfold n. by rewrite HN. }
  rewrite Hbits, Z.shiftl_1_l, land_ones_mod by lia. rewrite (Z.mod_small (msg3FreqResource g)) by lia.
  unfold u16. rewrite Z.mod_small by lia. unfold nr_ue_process_dci_freq_dom_resource_assignment. rewrite HB, HO.
  destruct (Z.ltb_spec (numPrb g) 1); [lia|]. destruct (Z.gtb_spec (numPrb g) (bwpSize g - startPrb g)); [lia|]. done.
Qed.

Section link.

Variables (mu : Z) (k2s : list Z) (ul_config : Z -> option Z).

(** Msg3 is due in an uplink slot of the time allocation [t], which the UE has the time to reach; it is
    not the first slot of the next frame, and its request has room. *)
Definition msg3_due (t k2 frame slot : Z) : Prop :=
  let n := buf_get nr_slots_per_frame mu in
  let temp_slot := slot + k2 + buf_get DELTA mu in
  0 <= mu <= 3 /\ k2s !! Z.to_nat t = Some k2 /\ DURATION_RX_TO_TX <= k2 + buf_get DELTA mu /\ 0 <= slot /\ temp_slot < 2 * n /\ temp_slot <> n /\
  exists number_pdus, ul_config (snd (msg3_time mu k2 frame slot)) = Some number_pdus /\ number_pdus < FAPI_NR_UL_CONFIG_LIST_NUM.

(** The UE and the gNB mean the same slot. *)
Lemma same_time t k2 frame slot :
  msg3_due t k2 frame slot -> nr_ue_pusch_scheduler mu k2s true 0 frame slot t = Ok (Some (msg3_time mu k2 frame slot)).
Proof.
  intros (Hmu & Hk & Hd & Hs & Ht & Hne & _). unfold nr_ue_pusch_scheduler, msg3_time. rewrite Hk.
  assert (HD : (if mu =? 0 then 2 else if mu =? 1 then 3 else if mu =? 2 then 4 else if mu =? 3 then 6 else 0) = buf_get DELTA mu).
  { assert (mu = 0 \/ mu = 1 \/ mu = 2 \/ mu = 3) as HM by lia. by repeat destruct HM as [->|HM]; [..|subst mu]. }
  assert (Hn : 0 < buf_get nr_slots_per_frame mu).
  { assert (mu = 0 \/ mu = 1 \/ mu = 2 \/ mu = 3) as HM by lia. by repeat destruct HM as [->|HM]; [..|subst mu]. }
  rewrite HD. set (n := buf_get nr_slots_per_frame mu) in *. set (d := buf_get DELTA mu) in *. clearbody n d.
  destruct (Z.geb_spec (k2 + d) DURATION_RX_TO_TX); [|lia].
  destruct (Z.gtb_spec (slot + k2 + d) n), (Z.gtb_spec n (slot + k2 + d)); try lia; [|done].
  rewrite Z.quot_div_nonneg by (unfold DURATION_RX_TO_TX in *; lia). by rewrite <- (Z.div_unique (slot + k2 + d) n 1 (slot + k2 + d - n)) by lia.
Qed.

(** What the sender of the response means and the UE understands. *)
Record understood (ra : ra_rar) (mac_crnti ta hop mcs tpc rnti bwp first nb : Z) (when : Z * Z) (o : rar_outcome) : Prop := {
  un_ret : rar_ret o = 0;
  un_found : RA_RAPID_found (rar_ra o) = true;
  un_ta : rar_ta o = 31 + ta;
  un_tpc : Msg3_TPC (rar_ra o) = 2 * tpc - 6;
  un_rnti : ra_cfra ra = false -> ra_t_crnti (rar_ra o) = rnti;
  un_pusch : exists grant, rar_pusch o = Some (if ra_cfra ra then mac_crnti else rnti, grant, when) /\
    grant_mcs grant = mcs /\ freq_hopping grant = hop /\ msg3_blocks bwp (Msg3_f_alloc grant) = Some (first, nb);
}.

(** A response whose sub-headers lead to the payload. *)
Lemma ue_reads_body ra ra' crnti ta0 frame slot g ta_ hop t mcs_ tpc_ csi rnti k2 hdrs rest :
  let body := rar_body ta_ hop (msg3FreqResource g) t mcs_ tpc_ csi rnti in
  blocks_ok g -> grant_ok ta_ hop (msg3FreqResource g) t mcs_ tpc_ csi rnti -> t < 8 -> msg3_due t k2 frame slot ->
  rar_loop (length (hdrs ++ body ++ rest)) ra (hdrs ++ body ++ rest) 0 0 0 = Ok (ra', Some (Z.of_nat (length hdrs))) ->
  RA_RAPID_found ra' = true -> ra_cfra ra' = ra_cfra ra ->
  exists o, nr_ue_process_rar mu k2s ul_config ra crnti ta0 true frame slot (hdrs ++ body ++ rest) = Ok o /\
  understood ra crnti ta_ hop mcs_ tpc_ rnti (bwpSize g) (startPrb g) (numPrb g) (msg3_time mu k2 frame slot) o.
Proof.
  intros body Hg Hk Ht Hdue Hloop Hfound Hcf. destruct (read_body _ _ _ _ _ _ _ _ Hk Ht) as (R1 & R2 & R3 & R4).
  unfold nr_ue_process_rar. cbn [negb]. rewrite Hloop. cbn [rbind]. rewrite Hfound. unfold default, id. rewrite Nat2Z.id.
  assert (Hrd : forall i b, body !! i = Some b -> rd (hdrs ++ body ++ rest) (i + length hdrs) = Ok b).
  { intros i b Hi. unfold rd. rewrite lookup_app_r by lia. replace (i + length hdrs - length hdrs)%nat with i by lia. by erewrite lookup_app_l_Some. }
  pose proof (Hrd 0%nat _ eq_refl : rd _ (length hdrs) = _) as Hrd0. pose proof (Hrd 1%nat _ eq_refl : rd _ (S (length hdrs)) = _) as Hrd1. rewrite Hrd0, Hrd1, (Hrd 2%nat _ eq_refl), (Hrd 3%nat _ eq_refl), (Hrd 4%nat _ eq_refl).
  cbn [rbind]. rewrite R1, R2, R3. cbn [Msg3_t_alloc].
  rewrite (same_time t k2 frame slot Hdue). cbn [rbind]. destruct Hdue as (_ & _ & _ & _ & _ & _ & np & Hul & Hnp).
  destruct (msg3_time mu k2 frame slot) as [fr sl] eqn:Hmt. cbn [snd] in Hul. rewrite Hul.
  destruct (Z.geb_spec np FAPI_NR_UL_CONFIG_LIST_NUM); [lia|]. rewrite (Hrd 5%nat _ eq_refl), (Hrd 6%nat _ eq_refl). cbn [rbind]. rewrite R4. unfold update. cbn.
  rewrite Hcf. destruct (ra_cfra ra) eqn:Hc; eexists; (split; [reflexivity|]); (split; cbn; rewrite ?Hc; try done);
    eexists; (split; [done|]); cbn; (split; [done|]); (split; [done|]); by apply msg3_blocks_ok.
Qed.

Lemma rapid_header p : 0 <= p < 64 -> Z.testbit (64 + p) 6 = true /\ Z.testbit (64 + p) 7 = false /\ (64 + p) mod 64 = p.
Proof.
  intros Hp. rewrite !Z.testbit_eqb by lia. rewrite (Z.div_small _ (2 ^ 7)) by lia.
  rewrite <- (Z.div_unique (64 + p) (2 ^ 6) 1 p) by lia. split; [done|]. split; [done|]. symmetry. apply (Z.mod_unique _ 64 1); lia.
Qed.

(** The sub-headers of the O-DU: the preamble. *)
Lemma odu_headers fuel ra p rest :
  0 <= p < 64 ->
  rar_loop (S fuel) ra ((64 + p) :: rest) 0 0 0 = Ok (if p =? u8 (ra_PreambleIndex ra) then (ra <| RA_RAPID_found := true |>, Some 1) else (ra, None)).
Proof.
  intros Hp. destruct (rapid_header p Hp) as (H1 & H2 & H3). cbn [rar_loop]. change (rd ((64 + p) :: rest) (Z.to_nat 0)) with (Ok (64 + p)). cbn [rbind].
  rewrite H1, H2, H3. by destruct (p =? u8 (ra_PreambleIndex ra)).
Qed.

Definition backed_off (ra : ra_rar) : ra_rar := ra <| RA_backoff_indicator := 5 |> <| RA_BI_found := true |>.

(** The sub-headers of the gNB of OAI: a back-off and the preamble. *)
Lemma oai_headers fuel ra p rest :
  0 <= p < 64 ->
  rar_loop (S (S fuel)) ra (128 :: (64 + p) :: rest) 0 0 0
  = Ok (if p =? u8 (ra_PreambleIndex ra) then (backed_off ra <| RA_RAPID_found := true |>, Some 2) else (backed_off ra, None)).
Proof.
  intros Hp. destruct (rapid_header p Hp) as (H1 & H2 & H3). cbn [rar_loop]. change (rd (128 :: (64 + p) :: rest) (Z.to_nat 0)) with (Ok 128). cbn [rbind].
  change (Z.testbit 128 6) with false. change (Z.testbit 128 7) with true. cbv iota.
  change (rd (128 :: (64 + p) :: rest) (Z.to_nat (0 + 1))) with (Ok (64 + p)). cbn [rbind]. rewrite H1, H2, H3.
  change (ra_PreambleIndex (_ <| RA_BI_found := true |>)) with (ra_PreambleIndex ra). by destruct (p =? u8 (ra_PreambleIndex ra)).
Qed.

(** C33. A random access response that [fillRarPdu] of the O-DU or [nr_fill_rar] of the gNB of OAI
    writes is understood by [nr_ue_process_rar] of OAI. The UE whose preamble it names takes its
    timing advance, its power command, its RNTI and its MCS, sends Msg3 in the resource blocks
    that were granted, and in the frame and slot in which the gNB of OAI expects it, provided that
    the time allocation is one of the first eight (others are cut to three bits,
    [msg3_time_allocation_cut]), that the slot of Msg3 is an uplink slot the UE has the time to
    reach and is not the first slot of the next frame (there the frames differ,
    [msg3_frame_differs]). A UE that sent another preamble, and has no RAPID flag left from an
    earlier response, sends nothing. The bandwidth part has at most 179 blocks for the O-DU
    ([odu_rar_180_blocks]) and 180 for OAI, and there is no frequency hopping in the response of
    OAI. *)
Theorem rar_understood ra mac_crnti ta0 frame slot k2 :
  (forall r, rar_ok r ->
    let g := ulGrant r in
    exists pdu, fillRarPdu r = Ok pdu /\
    (RAPID r = u8 (ra_PreambleIndex ra) -> k2Index g < 8 -> msg3_due (k2Index g) k2 frame slot ->
      exists o, nr_ue_process_rar mu k2s ul_config ra mac_crnti ta0 true frame slot pdu = Ok o /\
      understood ra mac_crnti (ta r) (freqHopFlag g) (mcs g) (tpc g) (tcrnti r) (bwpSize g) (startPrb g) (numPrb g) (msg3_time mu k2 frame slot) o) /\
    (RAPID r <> u8 (ra_PreambleIndex ra) -> RA_RAPID_found ra = false ->
      exists o, nr_ue_process_rar mu k2s ul_config ra mac_crnti ta0 true frame slot pdu = Ok o /\ rar_pusch o = None)) /\
  (forall r, oai_rar_ok r ->
    exists pdu, nr_fill_rar r = Ok pdu /\
    (preamble_index r = u8 (ra_PreambleIndex ra) -> Msg3_tda_id r < 8 -> msg3_due (Msg3_tda_id r) k2 frame slot ->
      exists o, nr_ue_process_rar mu k2s ul_config ra mac_crnti ta0 true frame slot pdu = Ok o /\
      understood ra mac_crnti (timing_offset r) 0 (mcs_index r) rar_tpc_command (rar_rnti r) (pusch_bwp_size r) (msg3_first_rb r) (msg3_nb_rb r) (msg3_time mu k2 frame slot) o) /\
    (preamble_index r <> u8 (ra_PreambleIndex ra) -> RA_RAPID_found ra = false ->
      exists o, nr_ue_process_rar mu k2s ul_config ra mac_crnti ta0 true frame slot pdu = Ok o /\ rar_pusch o = None)).
Proof.
  split; intros r Hr.
  - intros g. eexists. split; [by apply fillRarPdu_bytes|]. fold g. destruct Hr as (HR & Hg & H180 & Hk). fold g in Hg, H180, Hk. destruct (freq_fields_ok g Hg H180) as (s & _ & Hs & Hriv).
    pose proof (Z.pow_le_mono_r 2 s 14 ltac:(lia) ltac:(lia)) as H14. split.
    + intros Hp Ht Hdue. apply (ue_reads_body ra (ra <| RA_RAPID_found := true |>) _ _ _ _ _ _ _ _ _ _ _ _ _ [64 + RAPID r]); try done.
      * destruct Hk. split; try done. lia.
      * change (rar_loop ?f ra ([?a] ++ ?l) 0 0 0) with (rar_loop f ra (a :: l) 0 0 0). cbn [length app]. rewrite odu_headers by done. by rewrite (proj2 (Z.eqb_eq _ _) Hp).
    + intros Hp Hf. unfold nr_ue_process_rar. cbn [negb app length]. rewrite odu_headers by done. rewrite (proj2 (Z.eqb_neq _ _) Hp). cbn [rbind]. rewrite Hf. by eexists.
  - eexists. split; [by apply nr_fill_rar_bytes|]. destruct Hr as (H1 & H2 & H3 & H4 & H5 & H6 & H7 & H8 & Hh). set (g := mk_Msg3UlGrant _ _ _ _ _ _ _ _).
    assert (Hg : blocks_ok g) by (unfold blocks_ok, g; cbn; lia). pose proof (riv_bound g Hg) as Hriv. split.
    + intros Hp Ht Hdue. rewrite <- (app_nil_r (rar_body _ _ _ _ _ _ _ _)).
      apply (ue_reads_body ra (backed_off ra <| RA_RAPID_found := true |>) _ _ _ _ g _ _ _ _ _ _ _ _ [128; 64 + preamble_index r]); try done.
      * assert (msg3FreqResource g < 2 ^ 14). { pose proof (Z.div_le_upper_bound (bwpSize g * (bwpSize g + 1)) 2 (2 ^ 14)). unfold g in *. cbn [bwpSize] in *. nia. }
        split; try (done || lia).
      * cbn [length app]. rewrite oai_headers by done. by rewrite (proj2 (Z.eqb_eq _ _) Hp).
    + intros Hp Hf. unfold nr_ue_process_rar. cbn [negb app length]. rewrite oai_headers by done. rewrite (proj2 (Z.eqb_neq _ _) Hp). cbn [rbind].
      change (RA_RAPID_found (backed_off ra)) with (RA_RAPID_found ra). rewrite Hf. by eexists.
Qed.

End link.

Definition ex_rar : RarInfo := mk_RarInfo 17 300 (mk_Msg3UlGrant 0 106 20 60 2 4 3 0) 18000.
Definition ex_oai_rar : rar_input := mk_rar_input 17 300 18000 60 20 2 106 false 4.
Definition ex_ra : ra_rar := mk_ra_rar 17 false false false 0 0 0.

Lemma rar_understood_witness :
  exists pdu1 pdu2 o1 o2,
    fillRarPdu ex_rar = Ok pdu1 /\ nr_fill_rar ex_oai_rar = Ok pdu2 /\ pdu1 <> pdu2 /\
    nr_ue_process_rar 1 [4; 5; 6] (fun _ => Some 0) ex_ra 0 0 true 100 8 pdu1 = Ok o1 /\
    nr_ue_process_rar 1 [4; 5; 6] (fun _ => Some 0) ex_ra 0 0 true 100 8 pdu2 = Ok o2 /\
    understood ex_ra 0 300 0 4 3 18000 106 20 60 (100, 17) o1 /\ understood ex_ra 0 300 0 4 3 18000 106 20 60 (100, 17) o2.
Proof.
  assert (Hdue : msg3_due 1 [4; 5; 6] (fun _ => Some 0) 2 6 100 8) by (unfold msg3_due, DURATION_RX_TO_TX, FAPI_NR_UL_CONFIG_LIST_NUM; cbn; repeat split; try (done || lia); exists 0; done).
  destruct (rar_understood 1 [4; 5; 6] (fun _ => Some 0) ex_ra 0 0 100 8 6) as [HA HB].
  destruct (HA ex_rar) as (pdu1 & E1 & (o1 & F1 & U1) & _); [unfold rar_ok, blocks_ok; cbn; repeat split; (done || lia)|done|done|done|].
  destruct (HB ex_oai_rar) as (pdu2 & E2 & (o2 & F2 & U2) & _); [unfold oai_rar_ok; cbn; repeat split; (done || lia)|done|done|done|].
  exists pdu1, pdu2, o1, o2. split; [done|]. split; [done|]. split; [|by auto].
  intros ->. vm_compute in E1, E2. congruence.
Defined.
