(* ===== verification/OduUm.v ===== *)
(** RLC of the O-DU in unacknowledged mode: [5gnrrlc/rlc_umm_dl.c] and [5gnrrlc/rlc_umm_ul.c].

    Messages are lists of bytes (see OduMsgPool), and there is room for a new one.  The buffers of
    reception have addresses.  What RLC hands to MAC and to the DU application are events; the time, and
    whether memory runs low, are arguments; whether an allocation succeeds is an argument or comes from a
    stream, and one that fails gives a null pointer.  The build has no checks of resources ([NO_ERRCLS]);
    the measurements (LTE_L2_MEAS) and statistics are left out.  Every bearer is an SRB or a DRB. *)

From S2P Require Import Prelude.

Definition RLC_UM_CFG_6BIT_SN_LEN : Z := 1.
Definition RLC_SI_FIRST_SEG : Z := 1.
Definition RLC_SI_LAST_SEG : Z := 2.
Definition RLC_SI_MID_SEG : Z := 3.
Definition RLC_MIN_HDRSZ : Z := 1.
Definition RLC_MAX_HDRSZ : Z := 5.
Definition RLC_MAC_HDR_SZ2 : Z := 2.
Definition RLC_MAC_HDR_SZ3 : Z := 3.
Definition RLC_MAX_PDU : nat := 16.
Definition RGU_MAX_PDU : nat := 16.
Definition RLC_RCV_BUF_BIN_SIZE : Z := 512.

(** ** Downlink *)

Record RlcSdu := mk_RlcSdu { mBuf : list Z; sduSz : Z; actSz : Z; sduId : Z; isSegmented : bool; arrTime : Z }.

(** [RlcUmDl] with the fields of the bearer that it uses, the buffer occupancies reported to MAC, and
    the SDUs that the instance has to free. *)
Record RlcUmDl := mk_RlcUmDl {
  sduQ : list RlcSdu;
  dl_snLen : Z;
  bo : Z;
  txNext : Z;
  dl_modBitMask : Z;
  discTmrInt : Z;
  is_drb : bool;
  reestInProgress : bool;
  boStatus : list Z;
  toBeFreed : list RlcSdu
}.
#[export] Instance eta_RlcUmDl : Eta RlcUmDl :=
  fun r => mk_RlcUmDl (sduQ r) (dl_snLen r) (bo r) (txNext r) (dl_modBitMask r) (discTmrInt r) (is_drb r) (reestInProgress r) (boStatus r) (toBeFreed r).

Definition i16 (z : Z) : Z := (z + 2 ^ 15) mod 2 ^ 16 - 2 ^ 15.

(** The configuration of the bearer. *)
Definition um_dl_config (snLen discTmr : Z) (drb : bool) : RlcUmDl :=
  mk_RlcUmDl [] snLen 0 0 (if snLen =? RLC_UM_CFG_6BIT_SN_LEN then 0x3f else 0xfff) discTmr drb false [] [].

Definition rlcUmmQSdu (rb : RlcUmDl) (alloc : bool) (now sduId : Z) (msg : list Z) : res RlcUmDl :=
  if negb alloc then Fault NullDeref
  else
    let len := i16 (Z.of_nat (length msg)) in
    let rb := rb <| bo := i32 (i32 (bo rb + len) + RLC_MAX_HDRSZ) |> <| sduQ := sduQ rb ++ [mk_RlcSdu msg len len sduId false now] |> in
    Ok (if negb (reestInProgress rb) then rb <| boStatus := boStatus rb ++ [bo rb] |> else rb).

(** The header in front of the PDU. *)
Definition rlcUmmCreatePdu (rb : RlcUmDl) (pdu : list Z) (si so : Z) : RlcUmDl * list Z :=
  if si =? 0 then (rb, 0 :: pdu)
  else
    let sn := txNext rb in
    let hdr := (if dl_snLen rb =? RLC_UM_CFG_6BIT_SN_LEN then [u8 (Z.lor (Z.shiftl si 6) sn)]
                else [u8 (Z.lor (Z.shiftl si 6) (Z.shiftr sn 8)); Z.land sn 0xff])
               ++ (if (si =? RLC_SI_MID_SEG) || (si =? RLC_SI_LAST_SEG) then [u8 (Z.shiftr so 8); Z.land so 0xff] else []) in
    let rb := if si =? RLC_SI_LAST_SEG then rb <| txNext := Z.land (txNext rb + 1) (dl_modBitMask rb) |> else rb in
    (rb, hdr ++ pdu).

(** The unsigned minimum of what the SDU needs and of what there is. *)
Definition rlc_pdu_size (pduSz sduSz rlcHdrSz macHdrSz : Z) : Z :=
  if u32 (u32 sduSz + rlcHdrSz) <? u32 (pduSz - macHdrSz) then u32 (u32 sduSz + rlcHdrSz) else u32 (pduSz - macHdrSz).

Definition mac_header (rlcPduSz : Z) : Z := if rlcPduSz >? 255 then RLC_MAC_HDR_SZ3 else RLC_MAC_HDR_SZ2.

(** The sizes of the headers of RLC and MAC. *)
Definition header_sizes (snLen : Z) (sdu : RlcSdu) (pduSz : Z) : Z * Z :=
  let rlcHdrSz := if isSegmented sdu then snLen + 2 else RLC_MIN_HDRSZ in
  let rlcPduSz := rlc_pdu_size pduSz (sduSz sdu) rlcHdrSz RLC_MAC_HDR_SZ2 in
  let macHdrSz := mac_header rlcPduSz in
  let rlcPduSz := if macHdrSz =? RLC_MAC_HDR_SZ2 then rlcPduSz else rlc_pdu_size pduSz (sduSz sdu) rlcHdrSz macHdrSz in
  let macHdrSz := mac_header rlcPduSz in
  if negb (isSegmented sdu) && (u32 (rlcPduSz - rlcHdrSz) <? u32 (sduSz sdu)) then
    (snLen, mac_header (rlc_pdu_size pduSz (sduSz sdu) snLen macHdrSz))
  else (rlcHdrSz, macHdrSz).

Definition RLC_TIME_DIFF (t1 t2 : Z) : Z := if t1 <? t2 then u32 (0xffffffff - t2 + t1) else t1 - t2.

(** An SDU that was not segmented yet and has waited for too long. *)
Definition sdu_expired (rb : RlcUmDl) (curTime : Z) (sdu : RlcSdu) : bool :=
  negb (isSegmented sdu) && (discTmrInt rb >? 0) && is_drb rb && (i16 (RLC_TIME_DIFF curTime (arrTime sdu)) >=? discTmrInt rb).

(** The loop over the SDUs.  Every turn takes an SDU from the queue or is the last one. *)
Fixpoint um_dl_loop (fuel : nat) (rb : RlcUmDl) (curTime pduSz : Z) (pdus : list (list Z)) : res (RlcUmDl * list (list Z)) :=
  match sduQ rb with
  | [] => Ok (rb, pdus)
  | sdu :: rest =>
    if (pduSz >? 0) && (length pdus <? RLC_MAX_PDU)%nat then
      match fuel with
      | O => Fault FuelExhausted
      | S fuel =>
        if sdu_expired rb curTime sdu then um_dl_loop fuel (rb <| bo := i32 (bo rb - sduSz sdu) |> <| sduQ := rest |>) curTime pduSz pdus
        else
          let '(rlcHdrSz, macHdrSz) := header_sizes (dl_snLen rb) sdu pduSz in
          let pduSz := i16 (pduSz - (rlcHdrSz + macHdrSz)) in
          if pduSz <=? 0 then Ok (rb, pdus)
          else if sduSz sdu <=? pduSz then
            let rb := rb <| bo := i32 (i32 (bo rb - sduSz sdu) - RLC_MAX_HDRSZ) |> <| sduQ := rest |> in
            let '(si, so) := if isSegmented sdu then (RLC_SI_LAST_SEG, u16 (actSz sdu - sduSz sdu)) else (0, 0) in
            let '(rb, pdu) := rlcUmmCreatePdu rb (mBuf sdu) si so in
            um_dl_loop fuel rb curTime (i16 (pduSz - sduSz sdu)) (pdus ++ [pdu])
          else
            let '(si, so) := if isSegmented sdu then (RLC_SI_MID_SEG, u16 (actSz sdu - sduSz sdu)) else (RLC_SI_FIRST_SEG, 0) in
            let n := Z.to_nat pduSz in
            let sdu' := mk_RlcSdu (drop n (mBuf sdu)) (i16 (sduSz sdu - pduSz)) (actSz sdu) (sduId sdu) true (arrTime sdu) in
            let rb := rb <| bo := i32 (bo rb - pduSz) |> <| sduQ := sdu' :: rest |> in
            let '(rb, pdu) := rlcUmmCreatePdu rb (take n (mBuf sdu)) si so in
            um_dl_loop fuel rb curTime 0 (pdus ++ [pdu])
      end
    else Ok (rb, pdus)
  end.

(** The PDUs for an opportunity of [pduSz] bytes, with the occupancy and the arrival of the oldest SDU. *)
Definition rlcUmmProcessSdus (rb : RlcUmDl) (curTime pduSz : Z) : res (RlcUmDl * list (list Z) * Z * option Z) :=
  let* (rb, pdus) := um_dl_loop (S (length (sduQ rb))) rb curTime pduSz [] in
  Ok (rb, pdus, bo rb, arrTime <$> head (sduQ rb)).

Definition rlcUmmFreeDlRbCb (rb : RlcUmDl) : RlcUmDl := rb <| toBeFreed := toBeFreed rb ++ sduQ rb |> <| sduQ := [] |>.

Definition rlcDlUmmReEstablish (rb : RlcUmDl) : RlcUmDl := rlcUmmFreeDlRbCb rb <| txNext := 0 |> <| reestInProgress := false |>.

Definition rlcUmmDiscSdu (rb : RlcUmDl) (id : Z) : RlcUmDl :=
  match sduQ rb with
  | [] => rb
  | sdu :: rest => if (sduId sdu =? id) && negb (isSegmented sdu) then rb <| sduQ := rest |> else rb
  end.

(** ** Uplink *)

Record RlcUmHdr := mk_RlcUmHdr { si : Z; sn : Z; so : Z }.
Record RlcUmSeg := mk_RlcUmSeg { seg : list Z; segSz : Z; soEnd : Z; seg_umHdr : RlcUmHdr }.

Record RlcUmRecBuf := mk_RlcUmRecBuf {
  rec_sn : Z;
  allSegRcvd : bool;
  noMissingSeg : bool;
  segLst : list RlcUmSeg;
  rec_expSo : Z;
  rec_umHdr : RlcUmHdr
}.
#[export] Instance eta_RlcUmRecBuf : Eta RlcUmRecBuf :=
  fun r => mk_RlcUmRecBuf (rec_sn r) (allSegRcvd r) (noMissingSeg r) (segLst r) (rec_expSo r) (rec_umHdr r).

(** A message pointer: null, a message, or a message that was freed. *)
Inductive msg_ptr := NoMsg | Msg (m : list Z) | FreedMsg.

(** [RlcUmUl]; the lists of [recBufLst] as one, each buffer with its address and bin.  The last fields are
    the SDUs sent upwards, and the number of indications that the re-establishment is complete. *)
Record RlcUmUl := mk_RlcUmUl {
  snLen : Z;
  recBufLst : list (Z * (Z * RlcUmRecBuf));
  umWinSz : Z;
  modBitMask : Z;
  vrUr : Z;
  vrUh : Z;
  vrUx : Z;
  reAsmblTmr : bool;
  assembleSdu : msg_ptr;
  expSo : Z;
  expSn : Z;
  freshAddr : Z;
  ul_mem : list bool;
  ulData : list (list Z);
  reEstCmpInd : nat
}.
#[export] Instance eta_RlcUmUl : Eta RlcUmUl :=
  fun r => mk_RlcUmUl (snLen r) (recBufLst r) (umWinSz r) (modBitMask r) (vrUr r) (vrUh r) (vrUx r) (reAsmblTmr r) (assembleSdu r) (expSo r) (expSn r)
             (freshAddr r) (ul_mem r) (ulData r) (reEstCmpInd r).

Definition um_ul_config (snLen : Z) (mem : list bool) : RlcUmUl :=
  let umWinSz := 2 ^ (snLen * 6 - 1) in
  mk_RlcUmUl snLen [] umWinSz (Z.shiftl umWinSz 1 - 1) 0 0 0 false NoMsg 0 0 0 mem [] 0.

Definition RLC_UM_GET_VALUE (v : Z) (u : RlcUmUl) : Z := Z.land (v - (vrUh u - umWinSz u)) (modBitMask u).

Definition rlc_alloc (u : RlcUmUl) : bool * RlcUmUl :=
  match ul_mem u with [] => (false, u) | b :: m => (b, u <| ul_mem := m |>) end.

(** *** The buffers of reception *)

Fixpoint find_rec (l : list (Z * (Z * RlcUmRecBuf))) (k : Z) : option Z :=
  match l with
  | [] => None
  | (a, (bin, b)) :: l => if (bin =? k mod RLC_RCV_BUF_BIN_SIZE) && (sn (rec_umHdr b) =? k) then Some a else find_rec l k
  end.

Definition rlcUtlGetUmRecBuf (u : RlcUmUl) (k : Z) : option Z := find_rec (recBufLst u) k.

Fixpoint rec_lookup (l : list (Z * (Z * RlcUmRecBuf))) (a : Z) : option RlcUmRecBuf :=
  match l with [] => None | (a', (_, b)) :: l => if a' =? a then Some b else rec_lookup l a end.

Definition rec_at (u : RlcUmUl) (a : Z) : res RlcUmRecBuf :=
  match rec_lookup (recBufLst u) a with None => Fault UseAfterFree | Some b => Ok b end.

Definition set_rec (u : RlcUmUl) (a : Z) (b : RlcUmRecBuf) : RlcUmUl :=
  u <| recBufLst := (fun x => if fst x =? a then (a, (fst (snd x), b)) else x) <$> recBufLst u |>.

Definition rlcUtlStoreUmRecBuf (u : RlcUmUl) (k : Z) : Z * RlcUmUl :=
  let a := freshAddr u in
  (a, u <| freshAddr := a + 1 |>
        <| recBufLst := recBufLst u ++ [(a, (k mod RLC_RCV_BUF_BIN_SIZE, mk_RlcUmRecBuf 0 false false [] 0 (mk_RlcUmHdr 0 0 0)))] |>).

Definition rlcUmmRelAllSegs (u : RlcUmUl) (a : Z) : res RlcUmUl :=
  let* b := rec_at u a in Ok (set_rec u a (b <| segLst := [] |>)).

Definition rlcUtlDelUmRecBuf (u : RlcUmUl) (a : Z) : res RlcUmUl :=
  let* _ := rec_at u a in Ok (u <| recBufLst := filter (fun x => fst x <> a) (recBufLst u) |>).

(** Both, if there is a buffer. *)
Definition drop_rec (u : RlcUmUl) (o : option Z) : res RlcUmUl :=
  match o with None => Ok u | Some a => let* u := rlcUmmRelAllSegs u a in rlcUtlDelUmRecBuf u a end.

Fixpoint find_next (fuel : nat) (u : RlcUmUl) (ur nextSn nextSnToCompare : Z) (recBuf prevRecBuf : option Z) : res RlcUmUl :=
  if ur <? nextSnToCompare then
    match fuel with
    | O => Fault FuelExhausted
    | S fuel =>
      if ur + 1 =? nextSnToCompare then
        let* missing := match recBuf with None => Ok true | Some a => let* b := rec_at u a in Ok (negb (allSegRcvd b)) end in
        if missing then drop_rec (u <| vrUr := nextSn |>) prevRecBuf
        else
          let* u := drop_rec u prevRecBuf in
          let prevRecBuf := rlcUtlGetUmRecBuf u nextSn in
          let nextSn := Z.land (nextSn + 1) (modBitMask u) in
          find_next fuel u ur nextSn (RLC_UM_GET_VALUE nextSn u) (rlcUtlGetUmRecBuf u nextSn) prevRecBuf
      else
        let u := u <| vrUr := u32 (vrUr u + 1) |> in
        let ur := RLC_UM_GET_VALUE (vrUr u) u in
        let* u := drop_rec u prevRecBuf in
        find_next fuel u ur nextSn nextSnToCompare recBuf (rlcUtlGetUmRecBuf u (vrUr u))
    end
  else Ok u.

(** Every turn moves [vrUr] or [nextSn] by one, within the window. *)
Definition rlcUmmFindRxNextReassembly (u : RlcUmUl) (nextSn : Z) : res RlcUmUl :=
  find_next (Z.to_nat (4 * umWinSz u)) u (RLC_UM_GET_VALUE (vrUr u) u) nextSn (RLC_UM_GET_VALUE nextSn u)
    (rlcUtlGetUmRecBuf u nextSn) (rlcUtlGetUmRecBuf u (vrUr u)).

Definition rlcUmmCheckSnInReassemblyWindow (k : Z) (u : RlcUmUl) : bool := RLC_UM_GET_VALUE k u <? RLC_UM_GET_VALUE (vrUh u) u.

(** *** Storing segments *)

(** Over the segments behind the new one, as long as they follow each other: the next offset, whether
    the last segment was among them, and whether the end of the list was reached. *)
Fixpoint exp_segs (l : list RlcUmSeg) (newExpSo : Z) (lstRcvd : bool) : Z * bool * bool :=
  match l with
  | [] => (newExpSo, lstRcvd, true)
  | s :: l =>
    let lstRcvd := lstRcvd || (si (seg_umHdr s) =? RLC_SI_LAST_SEG) in
    if so (seg_umHdr s) =? newExpSo then exp_segs l (u16 (soEnd s + 1)) lstRcvd else (newExpSo, lstRcvd, false)
  end.

Definition rlcUmmUpdExpByteSeg (b : RlcUmRecBuf) (s : RlcUmSeg) (next : list RlcUmSeg) : RlcUmRecBuf :=
  if negb (so (seg_umHdr s) =? rec_expSo b) then b
  else
    let '(newExpSo, lstRcvd, at_end) := exp_segs next (u16 (soEnd s + 1)) (si (seg_umHdr s) =? RLC_SI_LAST_SEG) in
    let b := b <| noMissingSeg := at_end |> <| rec_expSo := newExpSo |> in
    if at_end && lstRcvd then b <| allSegRcvd := true |> else b.

(** The segments below the offset, the expected offset behind them, and the others. *)
Fixpoint split_segs (l : list RlcUmSeg) (k exp : Z) : list RlcUmSeg * Z * list RlcUmSeg :=
  match l with
  | [] => ([], exp, [])
  | s :: tl =>
    if so (seg_umHdr s) <? k then let '(pre, exp, post) := split_segs tl k (u16 (so (seg_umHdr s) + segSz s)) in (s :: pre, exp, post)
    else ([], exp, l)
  end.

(** Whether the segment was stored. *)
Definition rlcUmmAddRcvdSeg (u : RlcUmUl) (h : RlcUmHdr) (pdu : list Z) (pduSz : Z) : res (bool * RlcUmUl) :=
  let soEnd := u16 (so h + pduSz - 1) in
  let* (o, u) :=
    match rlcUtlGetUmRecBuf u (sn h) with
    | None => let '(ok, u) := rlc_alloc u in if ok : bool then let '(a, u) := rlcUtlStoreUmRecBuf u (sn h) in Ok (Some a, u) else Ok (None, u)
    | Some a => let* b := rec_at u a in Ok (if allSegRcvd b then None else Some a, u)
    end in
  match o with
  | None => Ok (false, u)
  | Some a =>
    let* b := rec_at u a in
    let '(pre, exp, post) := split_segs (segLst b) (so h) 0 in
    if exp >? so h then Ok (false, u)
    else if match post with s :: _ => so (seg_umHdr s) <=? soEnd | [] => false end then Ok (false, u)
    else
      let '(ok, u) := rlc_alloc u in
      if negb ok then Ok (false, u)
      else
        let tseg := mk_RlcUmSeg pdu (i16 pduSz) soEnd h in
        let b := b <| rec_umHdr := h |> <| rec_sn := sn h |> <| segLst := pre ++ [tseg] ++ post |> in
        Ok (true, set_rec u a (rlcUmmUpdExpByteSeg b tseg post))
  end.

(** *** Reassembly *)

Definition rlcUtlSendUlDataToDu (u : RlcUmUl) (sdu : list Z) : RlcUmUl :=
  let '(ok1, u) := rlc_alloc u in
  if ok1 : bool then
    let '(ok2, u) := rlc_alloc u in
    if ok2 : bool then u <| ulData := ulData u ++ [sdu] |> else u
  else u.

Definition put_msg (m : msg_ptr) : res unit := match m with FreedMsg => Fault UseAfterFree | _ => Ok tt end.

(** A null message is not joined, and [assembleSdu] keeps its value when it is freed. *)
Definition rlcUmmProcSeg (u : RlcUmUl) (h : RlcUmHdr) (pdu : list Z) : res (RlcUmUl * bool) :=
  if negb (expSn u =? sn h) || negb (expSo u =? so h) then
    let* _ := put_msg (assembleSdu u) in
    Ok (u <| assembleSdu := match assembleSdu u with Msg _ => FreedMsg | p => p end |>, false)
  else if si h =? RLC_SI_FIRST_SEG then
    let* _ := put_msg (assembleSdu u) in Ok (u <| assembleSdu := Msg pdu |>, true)
  else
    let* joined := match assembleSdu u with FreedMsg => Fault UseAfterFree | Msg m => Ok (m ++ pdu) | NoMsg => Ok pdu end in
    if si h =? RLC_SI_MID_SEG then Ok (u <| assembleSdu := match assembleSdu u with Msg _ => Msg joined | p => p end |>, true)
    else Ok (rlcUtlSendUlDataToDu (u <| assembleSdu := NoMsg |>) (if si h =? RLC_SI_LAST_SEG then joined else pdu), true).

Fixpoint reassemble_segs (u : RlcUmUl) (l : list RlcUmSeg) : res RlcUmUl :=
  match l with
  | [] => Ok u
  | s :: l =>
    let* (u, ok) := rlcUmmProcSeg u (seg_umHdr s) (seg s) in
    if ok : bool then reassemble_segs (u <| expSo := u16 (soEnd s + 1) |>) l else Ok u
  end.

Definition rlcUmmReAssembleSdus (u : RlcUmUl) (a : Z) : res RlcUmUl :=
  let* b := rec_at u a in
  let* u := reassemble_segs (u <| expSn := rec_sn b |> <| expSo := 0 |>) (segLst b) in
  let u := set_rec u a (b <| segLst := [] |>) in
  Ok (u <| expSn := Z.land (sn (rec_umHdr b) + 1) (modBitMask u) |> <| expSo := 0 |>).

(** *** Reception *)

Definition rlcUmmExtractHdr (snLen : Z) (pdu : list Z) : option (RlcUmHdr * list Z) :=
  match pdu with
  | [] => None
  | d :: pdu =>
    let si := Z.shiftr d 6 in
    if si =? 0 then Some (mk_RlcUmHdr 0 0 0, pdu)
    else
      let r :=
        if snLen =? RLC_UM_CFG_6BIT_SN_LEN then Some (Z.land d 0x3F, pdu)
        else match pdu with [] => None | e :: pdu => Some (Z.lor (Z.shiftl (Z.land d 0x0F) 8) e, pdu) end in
      match r with
      | None => None
      | Some (sn, pdu) =>
        if (si =? RLC_SI_LAST_SEG) || (si =? RLC_SI_MID_SEG) then
          match pdu with
          | e :: f :: pdu => Some (mk_RlcUmHdr si sn (Z.lor (Z.shiftl e 8) f), pdu)
          | _ => None
          end
        else Some (mk_RlcUmHdr si sn 0, pdu)
      end
  end.

(** Buffers that fall out of the window. *)
Fixpoint discard_below (packetCount : nat) (u : RlcUmUl) (k : Z) : res RlcUmUl :=
  match packetCount with
  | O => Ok u
  | S n => let* u := drop_rec u (rlcUtlGetUmRecBuf u k) in discard_below n u (Z.land (k + 1) (modBitMask u))
  end.

(** An SDU that is complete goes upwards, a PDU above the window moves it. *)
Definition um_ul_window (u : RlcUmUl) (curSn seqNum ur a : Z) : res RlcUmUl :=
  let* b := rec_at u a in
  if allSegRcvd b then
    let* u := rlcUmmReAssembleSdus u a in
    if seqNum =? ur then rlcUmmFindRxNextReassembly u (Z.land (vrUr u + 1) (modBitMask u)) else Ok u
  else if negb (rlcUmmCheckSnInReassemblyWindow curSn u) then
    let u := u <| vrUh := Z.land (curSn + 1) (modBitMask u) |> in
    if negb (rlcUmmCheckSnInReassemblyWindow (vrUr u) u) then
      let k := vrUr u in
      let u := u <| vrUr := Z.land (vrUh u - umWinSz u) (modBitMask u) |> in
      let* u := discard_below (Z.to_nat (Z.land (vrUr u - k) (modBitMask u))) u k in
      match rlcUtlGetUmRecBuf u (vrUr u) with
      | None => Ok u
      | Some a =>
        let* b := rec_at u a in
        if allSegRcvd b then rlcUmmFindRxNextReassembly u (Z.land (vrUr u + 1) (modBitMask u)) else Ok u
      end
    else Ok u
  else Ok u.

(** Whether there is a buffer whose flag is [v]. *)
Definition no_missing (u : RlcUmUl) (k : Z) (v : bool) : res bool :=
  match rlcUtlGetUmRecBuf u k with
  | None => Ok false
  | Some a => let* b := rec_at u a in Ok (Bool.eqb (noMissingSeg b) v)
  end.

Definition um_ul_timer (u : RlcUmUl) (curSn : Z) : res RlcUmUl :=
  let tRxNextReassembly := RLC_UM_GET_VALUE (vrUr u) u in
  let tRxNextHighest := RLC_UM_GET_VALUE (vrUh u) u in
  let tRxNextReassemblyNxt := RLC_UM_GET_VALUE (Z.land (vrUr u + 1) (modBitMask u)) u in
  let* u :=
    if reAsmblTmr u then
      let tRxTimerTigger := RLC_UM_GET_VALUE (vrUx u) u in
      let* full := no_missing u (vrUr u) true in
      if (tRxTimerTigger <=? tRxNextReassembly)
         || (negb (rlcUmmCheckSnInReassemblyWindow (vrUx u) u) && negb (tRxTimerTigger =? tRxNextHighest))
         || ((tRxNextHighest =? tRxNextReassemblyNxt) && full) then Ok (u <| reAsmblTmr := false |>)
      else Ok u
    else Ok u in
  if negb (reAsmblTmr u) then
    let* hole := no_missing u curSn false in
    if (tRxNextHighest >? tRxNextReassemblyNxt) || ((tRxNextHighest =? tRxNextReassemblyNxt) && hole)
    then Ok (u <| reAsmblTmr := true |> <| vrUx := vrUh u |>)
    else Ok u
  else Ok u.

(** One PDU; it is dropped when memory runs low. *)
Definition um_ul_pdu (u : RlcUmUl) (mem_low : bool) (pdu : list Z) : res RlcUmUl :=
  if mem_low then Ok u
  else
    match rlcUmmExtractHdr (snLen u) pdu with
    | None => Ok u
    | Some (h, pdu) =>
      if si h =? 0 then Ok (rlcUtlSendUlDataToDu u pdu)
      else
        let curSn := u16 (sn h) in
        let ur := RLC_UM_GET_VALUE (vrUr u) u in
        let seqNum := RLC_UM_GET_VALUE curSn u in
        if seqNum <? ur then Ok u
        else
          let* (ok, u) := rlcUmmAddRcvdSeg u h pdu (u16 (Z.of_nat (length pdu))) in
          if ok : bool then
            match rlcUtlGetUmRecBuf u (sn h) with
            | None => Ok u
            | Some a => let* u := um_ul_window u curSn seqNum ur a in um_ul_timer u curSn
            end
          else Ok u
    end.

Fixpoint um_ul_loop (u : RlcUmUl) (mem_low : bool) (pdus : list (list Z)) : res RlcUmUl :=
  match pdus with
  | [] => Ok u
  | pdu :: pdus => let* u := um_ul_pdu u mem_low pdu in um_ul_loop u mem_low pdus
  end.

Definition rlcUmmProcessPdus (u : RlcUmUl) (mem_low : bool) (pdus : list (list Z)) : res RlcUmUl := um_ul_loop u mem_low (take RGU_MAX_PDU pdus).

Definition rlcUmmReAsmblTmrExp (u : RlcUmUl) : res RlcUmUl :=
  let* u := rlcUmmFindRxNextReassembly (u <| reAsmblTmr := false |>) (vrUx u) in
  let tRxNextHighest := RLC_UM_GET_VALUE (vrUh u) u in
  let tRxNextReassembly := RLC_UM_GET_VALUE (Z.land (vrUr u + 1) (modBitMask u)) u in
  let* hole := no_missing u (vrUr u) false in
  if (tRxNextHighest >? tRxNextReassembly) || ((tRxNextHighest =? tRxNextReassembly) && hole)
  then Ok (u <| reAsmblTmr := true |> <| vrUx := vrUh u |>)
  else Ok u.

(** [allRcvd] of a buffer is never set, so that nothing is reassembled here. *)
Fixpoint reest_loop (fuel : nat) (u : RlcUmUl) (curSn vrUh : Z) : res RlcUmUl :=
  if RLC_UM_GET_VALUE curSn u <? vrUh then
    match fuel with
    | O => Fault FuelExhausted
    | S fuel =>
      let* u := drop_rec u (rlcUtlGetUmRecBuf u curSn) in
      reest_loop fuel u (Z.land (curSn + 1) (modBitMask u)) vrUh
    end
  else Ok u.

Definition rlcUmmUlReEstablish (u : RlcUmUl) : res RlcUmUl :=
  let* u := reest_loop (Z.to_nat (umWinSz u)) (u <| reAsmblTmr := false |>) (vrUr u) (RLC_UM_GET_VALUE (vrUh u) u) in
  Ok (u <| vrUr := 0 |> <| vrUh := 0 |> <| vrUx := 0 |> <| reEstCmpInd := S (reEstCmpInd u) |>).

(** The buffers that are found under the numbers of the bins. *)
Fixpoint free_bins (n : nat) (u : RlcUmUl) (curSn : Z) : res RlcUmUl :=
  match n with
  | O => Ok u
  | S n => let* u := drop_rec u (rlcUtlGetUmRecBuf u curSn) in free_bins n u (curSn + 1)
  end.

(** The array of lists is freed, and what is still in it is lost. *)
Definition rlcUmmFreeUlRbCb (u : RlcUmUl) : res RlcUmUl :=
  let* u := free_bins (Z.to_nat RLC_RCV_BUF_BIN_SIZE) (u <| reAsmblTmr := false |>) 0 in
  let* _ := put_msg (assembleSdu u) in
  Ok (u <| assembleSdu := match assembleSdu u with Msg _ => FreedMsg | p => p end |>).
