(* ===== verification/OduUmDl.v ===== *)
(** Unacknowledged mode from the O-DU to a UE of OAI: the PDUs of [rlcUmmProcessSdus] are received by
    [nr_rlc_entity_um_recv_pdu], in order and completely. *)

From S2P Require Import Prelude RlcPdu RlcSdu RlcSegs RlcAm RlcAmRx RlcUm RlcAmTx RlcUmProps RlcUmLink OduUm.

(** ** Headers *)

Lemma bits_be_app n m v : 0 <= v -> bits_be (n + m) v = bits_be n (v / 2 ^ Z.of_nat m) ++ bits_be m v.
Proof.
  intros Hv. induction n as [|n IH]; [done|]. cbn [Nat.add bits_be app]. rewrite IH. f_equal.
  rewrite Z.div_pow2_bits by lia. f_equal. lia.
Qed.

(** Two fields in a number. *)
Lemma bits_be_pair n m a b : 0 <= a -> 0 <= b < 2 ^ Z.of_nat m -> bits_be (n + m) (a * 2 ^ Z.of_nat m + b) = bits_be n a ++ bits_be m b.
Proof.
  intros Ha Hb. rewrite bits_be_app by nia. f_equal.
  - f_equal. rewrite Z.div_add_l by lia. rewrite Z.div_small by lia. lia.
  - rewrite <- (bits_be_mod m m) by lia. f_equal. rewrite Z.add_comm, Z.mod_add by lia. by apply Z.mod_small.
Qed.

(** The segmentation information of a segment. *)
Definition si_of (a : nr_rlc_sdu_segment_t) : Z := 2 * (1 - Z.b2z (seg_is_first a)) + (1 - Z.b2z (seg_is_last a)).

(** The header that both implementations write. *)
Definition um_header (len sn : Z) (a : nr_rlc_sdu_segment_t) : list Z :=
  if whole a then [0]
  else (if len =? 6 then [si_of a * 64 + sn] else [si_of a * 64 + sn / 256; sn mod 256]) ++
       (if seg_is_first a then [] else [seg_so a / 256; seg_so a mod 256]).

Lemma um_header_bits r sn a s :
  um_conf r -> um_sn_range r sn -> seg_ok s a ->
  bytes_bits (um_header (um_sn_field_length r) sn a) = fields_bits (um_fields r sn a) /\
  Z.of_nat (length (um_header (um_sn_field_length r) sn a)) = um_compute_pdu_header_size r a.
Proof.
  intros Hc Hsn (Hso & _). unfold um_sn_range in Hsn. pose proof (Z.div_pos sn 256 ltac:(lia) ltac:(lia)). pose proof (Z.div_pos (seg_so a) 256 ltac:(lia) ltac:(lia)).
  pose proof (Z.mod_pos_bound sn 256 ltac:(lia)). pose proof (Z.mod_pos_bound (seg_so a) 256 ltac:(lia)).
  pose proof (Z.div_mod sn 256 ltac:(lia)). pose proof (Z.div_mod (seg_so a) 256 ltac:(lia)).
  assert (Hso16 : bits_be 16 (seg_so a) = bits_be 8 (seg_so a / 256) ++ bits_be 8 (seg_so a mod 256)).
  { rewrite <- (bits_be_pair 8 8) by (change (2 ^ Z.of_nat 8) with 256; lia). f_equal. change (2 ^ Z.of_nat 8) with 256. lia. }
  assert (Hsn12 : bits_be 12 sn = bits_be 4 (sn / 256) ++ bits_be 8 (sn mod 256)).
  { rewrite <- (bits_be_pair 4 8) by (change (2 ^ Z.of_nat 8) with 256; lia). f_equal. change (2 ^ Z.of_nat 8) with 256. lia. }
  unfold um_header, um_fields, um_compute_pdu_header_size, whole, si_of.
  destruct Hc as [[HL HM]|[HL HM]]; rewrite HL in *; rewrite HM in Hsn; cbn [Z.eqb Pos.eqb].
  - assert (Hb : forall c, 0 <= c -> bits_be 8 (c * 64 + sn) = bits_be 2 c ++ bits_be 6 sn).
    { intros c Hc0. rewrite <- (bits_be_pair 2 6) by (change (2 ^ Z.of_nat 6) with 64; lia). done. }
    destruct (seg_is_first a), (seg_is_last a); cbn [andb negb Z.b2z app]; (split; [|done]); unfold bytes_bits, fields_bits; cbn [flat_map app fst snd];
      change (Z.to_nat 6) with 6%nat; change (Z.to_nat 16) with 16%nat; rewrite ?Hb, ?Hso16, ?app_nil_r by lia; done.
  - assert (Hb : forall c, 0 <= c -> bits_be 8 (c * 64 + sn / 256) = bits_be 4 (c * 4) ++ bits_be 4 (sn / 256)).
    { intros c Hc0. rewrite <- (bits_be_pair 4 4) by (change (2 ^ Z.of_nat 4) with 16; lia). f_equal. change (2 ^ Z.of_nat 4) with 16. lia. }
    destruct (seg_is_first a), (seg_is_last a); cbn [andb negb Z.b2z app]; (split; [|done]); unfold bytes_bits, fields_bits; cbn [flat_map app fst snd];
      change (Z.to_nat 12) with 12%nat; change (Z.to_nat 16) with 16%nat; rewrite ?Hb, ?Hso16, ?Hsn12, ?app_nil_r by lia; done.
Qed.

(** ** Reception *)

(** Bytes [k] to [k + n] of an SDU. *)
Definition part (S : list Z) (k n : Z) : nr_rlc_sdu_segment_t := mk_seg xH xH n k (k =? 0) (k + n =? Z.of_nat (length S)).
Definition part_bytes (S : list Z) (k n : Z) : list Z := take (Z.to_nat n) (drop (Z.to_nat k) S).
Definition part_pdu (len sn : Z) (S : list Z) (k n : Z) : list Z := um_header len sn (part S k n) ++ part_bytes S k n.

Lemma length_part S k n : 0 <= k -> 0 <= n -> k + n <= Z.of_nat (length S) -> Z.of_nat (length (part_bytes S k n)) = n.
Proof. intros Hk Hn Hl. unfold part_bytes. rewrite length_take, length_drop. lia. Qed.

Lemma part_recv r sn S k n :
  in_order r sn S k -> 0 <= k -> 0 < n -> k + n <= Z.of_nat (length S) -> Z.of_nat (length S) <= um_rx_maxsize r -> Z.of_nat (length S) <= NR_SDU_MAX ->
  exists r', nr_rlc_entity_um_recv_pdu r (part_pdu (um_sn_field_length r) sn S k n) = Ok r' /\
    um_rx_maxsize r' = um_rx_maxsize r /\ um_sn_field_length r' = um_sn_field_length r /\
    if k + n =? Z.of_nat (length S)
    then um_events r' = um_events r ++ [deliver_sdu S] /\ forall S', in_order r' (if k =? 0 then sn else cmod (sn + 1) (um_sn_modulus r)) S' 0
    else um_events r' = um_events r /\ in_order r' sn S (k + n).
Proof.
  intros Hio Hk Hn Hfit Hmax Hmax'. set (a := part S k n). set (s := mk_sdu sn 0 S (Z.of_nat (length S)) 0 0 0).
  assert (Hok : seg_ok s a).
  { unfold seg_ok, a, part. cbn [seg_so seg_size seg_is_first seg_is_last sdu_data s]. unfold NR_SDU_MAX in *. rewrite !Z.eqb_eq. lia. }
  pose proof (io_conf _ _ _ _ Hio) as Hc. pose proof (io_sn _ _ _ _ Hio) as Hsn. destruct (um_header_bits r sn a s Hc Hsn Hok) as [Hb Hl].
  pose proof (length_part S k n Hk ltac:(lia) Hfit) as Hpl. unfold part_pdu. fold a.
  rewrite (um_recv_fields r sn a s _ (part_bytes S k n) Hc Hsn Hok); [|intros E; rewrite E in Hpl; cbn in Hpl; lia|done|done].
  unfold whole. unfold a at 1 2, part. cbn [seg_is_first seg_is_last].
  set (h := mk_header _ _ _ _ _). set (pdu := um_header _ _ _ ++ _).
  assert (Hseg : segment_of S (pdu_of pdu h)) by (exact (sent_segment s a sn _ _ Hok Hl)).
  assert (Hsz : pdu_size (pdu_of pdu h) = n).
  { unfold pdu_of, nr_rlc_new_pdu, h, pdu. cbn [pdu_size ph_byte]. rewrite length_app, Nat2Z.inj_add, Hpl, Hl. lia. }
  assert (Hlast : pdu_is_last (pdu_of pdu h) = (k + n =? Z.of_nat (length S))) by done.
  destruct (Z.eqb_spec k 0) as [Hk0|Hk0], (Z.eqb_spec (k + n) (Z.of_nat (length S))) as [He|He]; cbn [andb].
  - exists (um_emit r (deliver_sdu (part_bytes S k n))). split; [done|]. split; [done|]. split; [done|].
    assert (Hp : part_bytes S k n = S) by (unfold part_bytes; subst k; rewrite drop_0; apply take_ge; lia). rewrite Hp. split; [done|].
    intros S'. apply in_order_emit. subst k. by apply (in_order_fresh r sn S).
  - destruct (in_order_recv r pdu h sn S k Hio eq_refl eq_refl Hseg Hmax Hmax') as (r' & E & H1 & H2 & H3); [by rewrite Hlast|].
    rewrite Hlast, Hsz in H3. by exists r'.
  - destruct (in_order_recv r pdu h sn S k Hio eq_refl eq_refl Hseg Hmax Hmax') as (r' & E & H1 & H2 & H3); [intros _; lia|].
    rewrite Hlast in H3. by exists r'.
  - destruct (in_order_recv r pdu h sn S k Hio eq_refl eq_refl Hseg Hmax Hmax') as (r' & E & H1 & H2 & H3); [by rewrite Hlast|].
    rewrite Hlast, Hsz in H3. by exists r'.
Qed.

(** ** The PDUs of the O-DU *)

(** The two configurations, with the length of the SN at the UE. *)
Definition dl_conf (rb : RlcUmDl) (len : Z) : Prop :=
  (dl_snLen rb = 1 /\ dl_modBitMask rb = 0x3f /\ len = 6) \/ (dl_snLen rb = 2 /\ dl_modBitMask rb = 0xfff /\ len = 12).

Lemma create_part rb len S k n :
  dl_conf rb len -> 0 <= txNext rb <= dl_modBitMask rb -> 0 <= k < 65536 ->
  let a := part S k n in
  rlcUmmCreatePdu rb (part_bytes S k n) (if whole a then 0 else si_of a) (if seg_is_first a then 0 else k)
  = (if negb (seg_is_first a) && seg_is_last a then rb <| txNext := cmod (txNext rb + 1) (dl_modBitMask rb + 1) |> else rb, part_pdu len (txNext rb) S k n).
Proof.
  intros Hc Hn Hk a. unfold rlcUmmCreatePdu, part_pdu, um_header. fold a.
  pose proof (Z.div_mod (txNext rb) 256 ltac:(lia)). pose proof (Z.mod_pos_bound (txNext rb) 256 ltac:(lia)). pose proof (Z.div_pos k 256 ltac:(lia) ltac:(lia)).
  pose proof (Z.div_mod k 256 ltac:(lia)). pose proof (Z.mod_pos_bound k 256 ltac:(lia)).
  assert (Hnext : Z.land (txNext rb + 1) (dl_modBitMask rb) = cmod (txNext rb + 1) (dl_modBitMask rb + 1)).
  { rewrite cmod_pos by lia. destruct Hc as [(_ & E & _)|(_ & E & _)]; rewrite E in *; [change 0x3f with (2 ^ 6 - 1)|change 0xfff with (2 ^ 12 - 1)]; rewrite land_ones_mod by lia; done. }
  assert (Hso : [u8 (Z.shiftr k 8); Z.land k 0xff] = [k / 256; k mod 256]).
  { change 0xff with (2 ^ 8 - 1). rewrite land_ones_mod, Z.shiftr_div_pow2 by lia. change (2 ^ 8) with 256. unfold u8. by rewrite Z.mod_small by lia. }
  assert (H6 : forall c, 0 <= c < 4 -> 0 <= txNext rb < 64 -> u8 (Z.lor (Z.shiftl c 6) (txNext rb)) = c * 64 + txNext rb).
  { intros c Hc0 Ht. rewrite lor_shiftl_add by lia. change (2 ^ 6) with 64. unfold u8. by rewrite Z.mod_small by lia. }
  assert (H12 : forall c, 0 <= c < 4 -> 0 <= txNext rb < 4096 ->
    [u8 (Z.lor (Z.shiftl c 6) (Z.shiftr (txNext rb) 8)); Z.land (txNext rb) 0xff] = [c * 64 + txNext rb / 256; txNext rb mod 256]).
  { intros c Hc0 Ht. change 0xff with (2 ^ 8 - 1). rewrite land_ones_mod, Z.shiftr_div_pow2 by lia. change (2 ^ 8) with 256.
    rewrite lor_shiftl_add by lia. unfold u8. by rewrite Z.mod_small by lia. }
  rewrite Hnext. unfold whole, si_of, RLC_UM_CFG_6BIT_SN_LEN, RLC_SI_MID_SEG, RLC_SI_LAST_SEG.
  unfold a, part. cbn [seg_is_first seg_is_last seg_so].
  destruct Hc as [(E1 & E2 & ->)|(E1 & E2 & ->)]; rewrite E1, E2 in *; destruct (k =? 0), (_ =? Z.of_nat (length S)); cbn -[Z.lor Z.shiftl Z.shiftr Z.land u8 cmod];
    rewrite ?H6, ?Hso by lia; try done; (match goal with |- context [Z.lor (Z.shiftl ?c 6)] => specialize (H12 c ltac:(lia) ltac:(lia)); injection H12 as -> -> end); done.
Qed.

(** The bytes of a PDU with the sub-header of MAC. *)
Definition mac_bytes (pdu : list Z) : Z := Z.of_nat (length pdu) + mac_header (Z.of_nat (length pdu)).

(** The rest of the SDU [S] from byte [k] on. *)
Record sdu_rel (x : RlcSdu) (S : list Z) (k : Z) : Prop := {
  sr_act : actSz x = Z.of_nat (length S);
  sr_size : sduSz x = Z.of_nat (length S) - k;
  sr_bytes : mBuf x = drop (Z.to_nat k) S;
  sr_seg : isSegmented x = negb (k =? 0);
  sr_k : 0 <= k < Z.of_nat (length S);
  sr_max : Z.of_nat (length S) <= NR_SDU_MAX;
}.

(** The size of the header of a part. *)
Definition part_header (l : Z) (S : list Z) (k n : Z) : Z := if k =? 0 then (if n =? Z.of_nat (length S) then 1 else l) else l + 2.

(** Cases of the sizes. *)
Ltac size_cases Hmac :=
  repeat match goal with
  | |- context [mac_header (Z.min ?a ?b)] => destruct (Hmac (Z.min a b)) as [[? ->]|[? ->]]
  end;
  (split; [lia|]); (split; [lia|]); intros ? ?; cbn zeta;
  repeat match goal with
  | |- context [?a <=? ?b] => destruct (Z.leb_spec a b)
  | |- context [?a =? ?b] => destruct (Z.eqb_spec a b)
  | |- context [mac_header ?q] => destruct (Hmac q) as [[? ->]|[? ->]]
  end; lia.

Lemma header_sizes_ok l x S k p :
  sdu_rel x S k -> 1 <= l <= 2 -> 0 < p < 2 ^ 15 ->
  let '(h, m) := header_sizes l x p in
  let rest := p - (h + m) in
  1 <= h <= 4 /\ 2 <= m <= 3 /\
  (p <> 258 \/ k = 0 -> 0 < rest ->
    let n := if sduSz x <=? rest then sduSz x else rest in
    part_header l S k n + mac_header (part_header l S k n + n) <= h + m).
Proof.
  intros [Ha Hs _ Hg Hk Hm] Hl Hp. unfold NR_SDU_MAX in Hm. unfold header_sizes. rewrite Hg, Hs. set (s := Z.of_nat (length S) - k).
  assert (Hps : forall h m, 1 <= h <= 4 -> 2 <= m <= 3 -> 4 <= p -> rlc_pdu_size p s h m = Z.min (s + h) (p - m)).
  { intros h m Hh Hmm H4. unfold rlc_pdu_size, u32. rewrite (Z.mod_small s), (Z.mod_small (s + h)), (Z.mod_small (p - m)) by lia. destruct (Z.ltb_spec (s + h) (p - m)); lia. }
  assert (Hmac : forall q, (q <= 255 /\ mac_header q = 2) \/ (255 < q /\ mac_header q = 3)).
  { intros q. unfold mac_header. destruct (Z.gtb_spec q 255); [right|left]; split; done || lia. }
  assert (Hhd : 1 <= (if negb (k =? 0) then l + 2 else RLC_MIN_HDRSZ) <= 4) by (unfold RLC_MIN_HDRSZ; destruct (negb _); lia).
  destruct (Z.lt_ge_cases p 4) as [Hp4|Hp4].
  { set (hd := if negb (k =? 0) then _ else _) in *. clearbody hd. set (q := if _ =? RLC_MAC_HDR_SZ2 then _ else _).
    destruct (negb _ && _).
    - destruct (Hmac (rlc_pdu_size p s l (mac_header q))) as [[_ ->]|[_ ->]]; lia.
    - destruct (Hmac q) as [[_ ->]|[_ ->]]; lia. }
  unfold part_header, RLC_MIN_HDRSZ, RLC_MAC_HDR_SZ2 in *. destruct (Z.eqb_spec k 0) as [->|Hk0]; cbn [negb andb].
  - rewrite (Hps 1 2) by lia. destruct (Hmac (Z.min (s + 1) (p - 2))) as [[Hq ->]|[Hq ->]]; cbn [Z.eqb Pos.eqb].
    + unfold u32. rewrite (Z.mod_small (Z.min _ _ - 1)), (Z.mod_small s) by lia.
      destruct (Hmac (Z.min (s + 1) (p - 2))) as [[_ ->]|[? _]]; [|lia].
      destruct (Z.ltb_spec (Z.min (s + 1) (p - 2) - 1) s); [rewrite (Hps l 2) by lia|]; size_cases Hmac.
    + rewrite (Hps 1 3) by lia. unfold u32. rewrite (Z.mod_small (Z.min _ _ - 1)), (Z.mod_small s) by lia.
      destruct (Hmac (Z.min (s + 1) (p - 3))) as [[? ->]|[? ->]]; destruct (Z.ltb_spec (Z.min (s + 1) (p - 3) - 1) s); rewrite ?Hps by lia; size_cases Hmac.
  - rewrite (Hps (l + 2) 2) by lia. destruct (Hmac (Z.min (s + (l + 2)) (p - 2))) as [[Hq ->]|[Hq ->]]; cbn [Z.eqb Pos.eqb].
    + destruct (Hmac (Z.min (s + (l + 2)) (p - 2))) as [[_ ->]|[? _]]; [|lia]. size_cases Hmac.
    + rewrite (Hps (l + 2) 3) by lia. destruct (Hmac (Z.min (s + (l + 2)) (p - 3))) as [[? ->]|[? ->]]; size_cases Hmac.
Qed.

(** ** The link *)

Fixpoint recv_all (r : nr_rlc_entity_um_t) (pdus : list (list Z)) : res nr_rlc_entity_um_t :=
  match pdus with [] => Ok r | p :: l => let* r := nr_rlc_entity_um_recv_pdu r p in recv_all r l end.

(** The queue holds the SDUs [pend], the first of them from byte [k] on. *)
Definition queue_is (q : list RlcSdu) (pend : list (list Z)) (S : list Z) (k : Z) : Prop :=
  match q, pend with
  | [], [] => k = 0
  | x :: q, S' :: pend => S' = S /\ sdu_rel x S k /\ Forall2 (fun x S => sdu_rel x S 0) q pend
  | _, _ => False
  end.

(** The bytes that are waiting, with the largest header for every SDU. *)
Definition occupancy (rb : RlcUmDl) : Z := sumZ (fun x => sduSz x + RLC_MAX_HDRSZ) (sduQ rb).

Lemma i32_i32_add a b : i32 (i32 a + b) = i32 (a + b).
Proof. unfold i32. f_equal. replace (_ - 2 ^ 31 + b + 2 ^ 31) with ((a + 2 ^ 31) mod 2 ^ 32 + b) by lia. rewrite Z.add_mod_idemp_l by lia. f_equal. lia. Qed.

Lemma i32_i32_sub a b : i32 (i32 a - b) = i32 (a - b).
Proof. exact (i32_i32_add a (- b)). Qed.

Lemma bo_less rb rb' d b : bo rb = i32 (occupancy rb) -> occupancy rb' = occupancy rb - d -> b = i32 (bo rb - d) -> b = i32 (occupancy rb').
Proof. intros E1 E2 ->. by rewrite E1, E2, i32_i32_sub. Qed.

Record dl_inv (rb : RlcUmDl) (r : nr_rlc_entity_um_t) (pend : list (list Z)) : Prop := {
  di_conf : dl_conf rb (um_sn_field_length r);
  di_disc : discTmrInt rb <= 0;
  di_max : Forall (fun S => Z.of_nat (length S) <= um_rx_maxsize r) pend;
  di_bo : bo rb = i32 (occupancy rb);
  di_rx : exists S k, in_order r (txNext rb) S k /\ queue_is (sduQ rb) pend S k;
}.

Definition queued (rb : RlcUmDl) : Z := sumZ sduSz (sduQ rb).

Lemma dl_modulus rb r : dl_conf rb (um_sn_field_length r) -> um_conf r -> um_sn_modulus r = dl_modBitMask rb + 1.
Proof. intros [(_ & -> & E)|(_ & -> & E)] [[E' ->]|[E' ->]]; rewrite E in E'; done. Qed.

(** SDUs that were not touched yet. *)
Lemma queue_fresh q pend S : Forall2 (fun x S => sdu_rel x S 0) q pend -> exists S', queue_is q pend S' 0 /\ (pend = [] -> S' = S).
Proof. destruct 1 as [|x S' q pend Hx Hq]; [by exists S|]. by exists S'. Qed.

Lemma rest_fits i j : 0 < i < 2 ^ 15 -> 1 <= j <= 7 -> i16 (i - j) = i - j.
Proof. intros Hi Hj. unfold i16. rewrite Z.mod_small; lia. Qed.

Lemma length_part_pdu rb len sn S k n : dl_conf rb len -> 0 <= k -> 0 < n -> k + n <= Z.of_nat (length S) ->
  Z.of_nat (length (part_pdu len sn S k n)) = part_header (dl_snLen rb) S k n + n.
Proof.
  intros Hc Hk Hn Hf. unfold part_pdu. rewrite length_app, Nat2Z.inj_add, length_part by lia. f_equal. unfold um_header, whole, part, part_header. cbn [seg_is_first seg_is_last].
  destruct (Z.eqb_spec k 0) as [->|]; cbn [andb].
  - rewrite Z.add_0_l. destruct (n =? _); [done|]. destruct Hc as [(-> & _ & ->)|(-> & _ & ->)]; done.
  - destruct Hc as [(-> & _ & ->)|(-> & _ & ->)]; done.
Qed.

(** One PDU: bytes [k] to [k + n] of the first SDU reach the UE. *)
Lemma send_part rb rb1 r S pend k n :
  dl_conf rb (um_sn_field_length r) -> dl_conf rb1 (um_sn_field_length r) -> txNext rb1 = txNext rb ->
  in_order r (txNext rb) S k -> 0 <= k -> 0 < n -> k + n <= Z.of_nat (length S) <= NR_SDU_MAX ->
  Forall (fun S => Z.of_nat (length S) <= um_rx_maxsize r) (S :: pend) ->
  let a := part S k n in
  exists rb2 pdu r2, rlcUmmCreatePdu rb1 (part_bytes S k n) (if whole a then 0 else si_of a) (if k =? 0 then 0 else k) = (rb2, pdu) /\
  nr_rlc_entity_um_recv_pdu r pdu = Ok r2 /\ Z.of_nat (length pdu) = part_header (dl_snLen rb) S k n + n /\
  um_rx_maxsize r2 = um_rx_maxsize r /\ um_sn_field_length r2 = um_sn_field_length r /\
  (exists t, rb2 = rb1 <| txNext := t |> /\
    if k + n =? Z.of_nat (length S) then um_events r2 = um_events r ++ [deliver_sdu S] /\ forall S', in_order r2 t S' 0
    else um_events r2 = um_events r /\ in_order r2 t S (k + n)).
Proof.
  intros Hc Hc1 Ht Hio Hk Hn Hf Hmax a. apply list.Forall_cons in Hmax as [Hm _]. pose proof (io_sn _ _ _ _ Hio) as Hsn. pose proof (io_conf _ _ _ _ Hio) as Hcr.
  unfold um_sn_range in Hsn. rewrite (dl_modulus rb1 r Hc1 Hcr) in Hsn.
  pose proof (create_part rb1 (um_sn_field_length r) S k n Hc1) as Hcp. rewrite Ht in Hcp. unfold NR_SDU_MAX in Hf. specialize (Hcp ltac:(lia) ltac:(lia)).
  destruct (part_recv r (txNext rb) S k n Hio Hk Hn) as (r2 & E & H1 & H2 & H3); [lia|done|unfold NR_SDU_MAX; lia|].
  eexists _, _, r2. split; [exact Hcp|]. split; [exact E|]. split; [apply (length_part_pdu rb); [done|lia|lia|lia]|]. split; [done|]. split; [done|].
  unfold part. cbn [seg_is_first seg_is_last]. rewrite (dl_modulus rb1 r Hc1 Hcr) in H3. destruct (Z.eqb_spec k 0), (Z.eqb_spec (k + n) (Z.of_nat (length S))); cbn [negb andb].
  1, 2, 4: exists (txNext rb); split; [unfold update; destruct rb1; cbn in *; by rewrite Ht|done].
  exists (cmod (txNext rb + 1) (dl_modBitMask rb1 + 1)). split; [done|]. exact H3.
Qed.

(** What an opportunity of [pduSz] bytes does. *)
Record served (rb : RlcUmDl) (r : nr_rlc_entity_um_t) (pend : list (list Z)) (pduSz : Z) (room : bool) (rb' : RlcUmDl) (new : list (list Z)) (r' : nr_rlc_entity_um_t) (pend' : list (list Z)) : Prop := {
  sv_recv : recv_all r new = Ok r';
  sv_inv : dl_inv rb' r' pend';
  sv_max : um_rx_maxsize r' = um_rx_maxsize r;
  sv_order : um_events r' ++ (deliver_sdu <$> pend') = um_events r ++ (deliver_sdu <$> pend);
  sv_fits : pduSz <> 258 \/ Forall (fun x => isSegmented x = false) (sduQ rb) -> 0 < pduSz -> sumZ mac_bytes new <= pduSz;
  sv_less : queued rb' <= queued rb;
  sv_progress : 8 <= pduSz -> room = true -> sduQ rb <> [] -> queued rb' < queued rb;
}.

Lemma served_nothing rb r pend pduSz room : dl_inv rb r pend -> (8 <= pduSz -> room = true -> sduQ rb <> [] -> False) -> served rb r pend pduSz room rb [] r pend.
Proof. intros Hi Hp. split; try done. - cbn. lia. - intros H1 H2 H3. destruct (Hp H1 H2 H3). Qed.

Lemma loop_stops fuel rb now pduSz pdus : pduSz <= 0 -> um_dl_loop fuel rb now pduSz pdus = Ok (rb, pdus).
Proof. intros Hp. destruct fuel; cbn [um_dl_loop]; destruct (sduQ rb); try done; by destruct (Z.gtb_spec pduSz 0); [lia|]. Qed.

Lemma untouched q pend : Forall2 (fun x S => sdu_rel x S 0) q pend -> Forall (fun x => isSegmented x = false) q.
Proof. induction 1 as [|x S q pend [] _ IH]; constructor; done. Qed.

(** The first SDU goes out as a whole or up to its end, and the rest of the opportunity is served. *)
Lemma served_cons rb r S pend pduSz room x q k rest pdu rb1 r1 rb' new r' pend' room' :
  sduQ rb = x :: q -> sdu_rel x S k -> dl_inv rb r (S :: pend) ->
  nr_rlc_entity_um_recv_pdu r pdu = Ok r1 -> um_rx_maxsize r1 = um_rx_maxsize r -> um_events r1 = um_events r ++ [deliver_sdu S] ->
  sduQ rb1 = q -> Forall2 (fun x S => sdu_rel x S 0) q pend -> served rb1 r1 pend rest room' rb' new r' pend' ->
  (pduSz <> 258 \/ k = 0 -> mac_bytes pdu <= pduSz - rest) -> 0 <= rest -> (rest = 0 -> new = []) ->
  served rb r (S :: pend) pduSz room rb' (pdu :: new) r' pend'.
Proof.
  intros Hq Hx Hi E Hm He Hq1 Hfresh [S1 S2 S3 S4 S5 S6 S7] Hb Hr Hnil. split.
  - cbn [recv_all]. by rewrite E.
  - done.
  - by rewrite S3.
  - rewrite S4, He, <- app_assoc. done.
  - intros Hc Hp. change (sumZ mac_bytes (pdu :: new)) with (mac_bytes pdu + sumZ mac_bytes new).
    assert (Hk : pduSz <> 258 \/ k = 0).
    { destruct Hc as [Hc|Hc]; [by left|right]. rewrite Hq in Hc. apply list.Forall_cons in Hc as [Hc _]. rewrite (sr_seg _ _ _ Hx) in Hc. by destruct (Z.eqb_spec k 0). }
    specialize (Hb Hk). destruct (Z.eq_dec rest 0) as [H0|H0]; [rewrite (Hnil H0); cbn; lia|].
    assert (sumZ mac_bytes new <= rest); [|lia]. apply S5; [right; rewrite Hq1; by eapply untouched|lia].
  - unfold queued in *. rewrite Hq. rewrite Hq1 in S6. cbn [sumZ foldr] in *. change (sumZ sduSz (x :: q)) with (sduSz x + sumZ sduSz q). destruct Hx. lia.
  - intros _ _ _. unfold queued in *. rewrite Hq. rewrite Hq1 in S6. change (sumZ sduSz (x :: q)) with (sduSz x + sumZ sduSz q). destruct Hx. lia.
Qed.

Lemma um_dl_loop_ok fuel : forall rb r pend now pduSz pdus,
  dl_inv rb r pend -> (length (sduQ rb) < fuel)%nat -> pduSz < 2 ^ 15 ->
  exists rb' new r' pend', um_dl_loop fuel rb now pduSz pdus = Ok (rb', pdus ++ new) /\ served rb r pend pduSz (length pdus <? RLC_MAX_PDU)%nat rb' new r' pend' /\ (pduSz <= 0 -> new = []).
Proof.
  induction fuel as [|fuel IH]; intros rb r pend now pduSz pdus Hi Hf Hp; [lia|]. pose proof Hi as [Hc Hd Hmax Hbo (S & k & Hio & Hq)]. cbn [um_dl_loop].
  destruct (sduQ rb) as [|x q] eqn:Eq.
  { exists rb, [], r, pend. rewrite app_nil_r. split; [done|]. split; [|done]. apply served_nothing; [done|]. intros _ _ H. by rewrite Eq in H. }
  destruct pend as [|S' pend]; [done|]. destruct Hq as (-> & Hx & Hfresh).
  destruct (Z.gtb_spec pduSz 0) as [Hpos|Hneg]; cbn [andb].
  2: { exists rb, [], r, (S :: pend). rewrite app_nil_r. split; [done|]. split; [|done]. apply served_nothing; [done|lia]. }
  destruct (Nat.ltb_spec (length pdus) RLC_MAX_PDU) as [Hroom|Hroom].
  2: { exists rb, [], r, (S :: pend). rewrite app_nil_r. split; [done|]. split; [|done]. by apply served_nothing. }
  assert (Hexp : sdu_expired rb now x = false) by (unfold sdu_expired; destruct (Z.gtb_spec (discTmrInt rb) 0); [lia|]; by rewrite !andb_false_r).
  rewrite Hexp. assert (Hl : 1 <= dl_snLen rb <= 2) by (destruct Hc as [(-> & _)|(-> & _)]; lia).
  pose proof (header_sizes_ok (dl_snLen rb) x S k pduSz Hx Hl ltac:(lia)) as Hh. destruct (header_sizes _ _ _) as [h m]. destruct Hh as (Hh1 & Hm1 & Hbytes).
  rewrite rest_fits by lia. set (rest := pduSz - (h + m)) in *. cbn [negb].
  destruct (Z.leb_spec rest 0) as [Hr0|Hr0].
  { exists rb, [], r, (S :: pend). rewrite app_nil_r. split; [done|]. split; [|lia]. apply served_nothing; [done|lia]. }
  pose proof Hx as [X1 X2 X3 X4 X5 X6]. unfold NR_SDU_MAX in X6. cbn zeta in Hbytes.
  assert (Hso : u16 (actSz x - sduSz x) = k) by (unfold u16; rewrite X1, X2, Z.mod_small; lia).
  destruct (Z.leb_spec (sduSz x) rest) as [Hle|Hgt].
  - assert (Hb : mBuf x = part_bytes S k (sduSz x)) by (rewrite X3; unfold part_bytes; rewrite take_ge; [done|rewrite length_drop; lia]).
    set (rb1 := rb <| bo := _ |> <| sduQ := q |>).
    destruct (send_part rb rb1 r S pend k (sduSz x)) as (rb2 & pdu & r2 & Ec & Er & Hlen & M1 & M2 & t & -> & Hres); try done; [lia|lia|unfold NR_SDU_MAX; lia|].
    rewrite (proj2 (Z.eqb_eq (k + sduSz x) (Z.of_nat (length S)))) in Hres by lia. destruct Hres as [Hev Hio2].
    assert (Ea : (if isSegmented x then (RLC_SI_LAST_SEG, u16 (actSz x - sduSz x)) else (0, 0)) = (if whole (part S k (sduSz x)) then 0 else si_of (part S k (sduSz x)), if k =? 0 then 0 else k)).
    { rewrite Hso, X4. unfold whole, si_of, part. cbn [seg_is_first seg_is_last]. rewrite (proj2 (Z.eqb_eq (k + sduSz x) (Z.of_nat (length S)))) by lia. by destruct (k =? 0). }
    rewrite Ea, Hb, Ec. apply list.Forall_cons in Hmax as [Hm0 Hmax].
    assert (Hi2 : dl_inv (rb1 <| txNext := t |>) r2 pend).
    { split; [by rewrite M2|done|by rewrite M1| |]; [apply (bo_less rb _ (sduSz x + RLC_MAX_HDRSZ) _ Hbo); [unfold occupancy; rewrite Eq; cbn; lia|cbn; rewrite i32_i32_sub; f_equal; lia]|]. destruct (queue_fresh q pend [] Hfresh) as (S2 & Hq2 & _). exists S2, 0. split; [apply Hio2|exact Hq2]. }
    assert (Hi16 : i16 (rest - sduSz x) = rest - sduSz x) by (unfold i16; rewrite Z.mod_small; lia). rewrite Hi16.
    destruct (IH (rb1 <| txNext := t |>) r2 pend now (rest - sduSz x) (pdus ++ [pdu]) Hi2) as (rb' & new & r' & pend' & E & Hsv & Hnil); [cbn in Hf |- *; lia|lia|].
    exists rb', (pdu :: new), r', pend'. rewrite E, <- app_assoc. split; [done|]. split; [|lia].
    apply (served_cons _ _ _ _ _ _ x q k (rest - sduSz x) pdu (rb1 <| txNext := t |>) r2 rb' new r' pend' (length (pdus ++ [pdu]) <? RLC_MAX_PDU)%nat); try done; [|lia|intros H0; apply Hnil; lia].
    intros Hk. specialize (Hbytes Hk Hr0). unfold mac_bytes. rewrite Hlen. lia.
  - set (rb1 := rb <| bo := _ |> <| sduQ := _ |>). set (x' := mk_RlcSdu _ _ _ _ _ _) in rb1.
    destruct (send_part rb rb1 r S pend k rest) as (rb2 & pdu & r2 & Ec & Er & Hlen & M1 & M2 & t & -> & Hres); try done; [lia|unfold NR_SDU_MAX; lia|].
    rewrite (proj2 (Z.eqb_neq (k + rest) (Z.of_nat (length S)))) in Hres by lia. destruct Hres as [Hev Hio2].
    assert (Ea : (if isSegmented x then (RLC_SI_MID_SEG, u16 (actSz x - sduSz x)) else (RLC_SI_FIRST_SEG, 0)) = (if whole (part S k rest) then 0 else si_of (part S k rest), if k =? 0 then 0 else k)).
    { rewrite Hso, X4. unfold whole, si_of, part. cbn [seg_is_first seg_is_last]. rewrite (proj2 (Z.eqb_neq (k + rest) (Z.of_nat (length S)))) by lia. by destruct (k =? 0). }
    assert (Hb : take (Z.to_nat rest) (mBuf x) = part_bytes S k rest) by (by rewrite X3). rewrite Ea, Hb, Ec. rewrite loop_stops by lia.
    assert (Hx' : sdu_rel x' S (k + rest)).
    { assert (Hi16 : i16 (sduSz x - rest) = sduSz x - rest) by (unfold i16; rewrite Z.mod_small; lia).
      split; unfold x'; cbn; [done|rewrite Hi16; lia|rewrite X3, drop_drop; f_equal; lia|by destruct (Z.eqb_spec (k + rest) 0); [lia|]|lia|unfold NR_SDU_MAX; lia]. }
    exists (rb1 <| txNext := t |>), [pdu], r2, (S :: pend). split; [done|]. split; [|lia]. split.
    + cbn [recv_all]. by rewrite Er.
    + split; [by rewrite M2|done|by rewrite M1| |]; [apply (bo_less rb _ rest _ Hbo); [unfold occupancy; rewrite Eq; change (sduSz x' + RLC_MAX_HDRSZ + occupancy (rb <| sduQ := q |>) = sduSz x + RLC_MAX_HDRSZ + occupancy (rb <| sduQ := q |>) - rest); destruct Hx'; lia|done]|]. exists S, (k + rest). split; [exact Hio2|]. cbn. done.
    + done.
    + by rewrite Hev.
    + intros Hcond _. change (sumZ mac_bytes [pdu]) with (mac_bytes pdu + 0). assert (Hk : pduSz <> 258 \/ k = 0).
      { destruct Hcond as [Hcond|Hcond]; [by left|right]. rewrite Eq in Hcond. apply list.Forall_cons in Hcond as [Hcond _]. rewrite X4 in Hcond. by destruct (Z.eqb_spec k 0). }
      specialize (Hbytes Hk Hr0). unfold mac_bytes. rewrite Hlen. lia.
    + unfold queued. cbn [sduQ]. rewrite Eq. change (sumZ sduSz (x' :: q) <= sumZ sduSz (x :: q)). change (sduSz x' + sumZ sduSz q <= sduSz x + sumZ sduSz q). destruct Hx'. lia.
    + intros _ _ _. unfold queued. rewrite Eq. change (sduSz x' + sumZ sduSz q < sduSz x + sumZ sduSz q). destruct Hx'. lia.
Qed.

(** ** Runs *)

(** PDCP hands over an SDU, for which there is memory, or MAC grants [size] bytes and carries
    the PDUs to the UE. *)
Inductive dl_action : Type :=
| DlOffer (now id : Z) (sdu : list Z)
| DlGrant (now size : Z).

Definition dl_state : Type := RlcUmDl * nr_rlc_entity_um_t * list (list Z).

Definition dl_act (a : dl_action) (st : dl_state) : res dl_state :=
  let '(rb, r, acc) := st in
  match a with
  | DlOffer now id sdu => let* rb := rlcUmmQSdu rb true now id sdu in Ok (rb, r, acc ++ [sdu])
  | DlGrant now size =>
    let* (rb, pdus, _, _) := rlcUmmProcessSdus rb now size in
    let* r := recv_all r pdus in Ok (rb, r, acc)
  end.

Fixpoint dl_run (acts : list dl_action) (st : dl_state) : res dl_state :=
  match acts with [] => Ok st | a :: acts => let* st := dl_act a st in dl_run acts st end.

Definition dl_allowed (rx_max : Z) (a : dl_action) : Prop :=
  match a with
  | DlOffer _ _ sdu => 0 < Z.of_nat (length sdu) <= NR_SDU_MAX /\ Z.of_nat (length sdu) <= rx_max
  | DlGrant _ size => size < 2 ^ 15
  end.

Lemma queue_snoc q pend S k x S' : queue_is q pend S k -> sdu_rel x S' 0 -> exists S, queue_is (q ++ [x]) (pend ++ [S']) S k /\ (q <> [] -> queue_is q pend S k).
Proof.
  intros Hq Hx. destruct q as [|y q], pend as [|S1 pend]; try done; cbn in *.
  - subst k. exists S'. split; [|done]. split; [done|]. split; [done|constructor].
  - destruct Hq as (-> & Hy & Hf). exists S. split; [|done]. split; [done|]. split; [done|]. by apply Forall2_app; [|constructor].
Qed.

(** An SDU at the end of the queue. *)
Lemma queue_sdu rb r pend now id S :
  dl_inv rb r pend -> 0 < Z.of_nat (length S) <= NR_SDU_MAX -> Z.of_nat (length S) <= um_rx_maxsize r ->
  exists rb', rlcUmmQSdu rb true now id S = Ok rb' /\ dl_inv rb' r (pend ++ [S]).
Proof.
  intros [Hc Hd Hmax Hbo (S0 & k & Hio & Hq)] HS Hm. unfold rlcUmmQSdu. cbn [negb]. unfold NR_SDU_MAX in HS.
  assert (Hl : i16 (Z.of_nat (length S)) = Z.of_nat (length S)) by (unfold i16; rewrite Z.mod_small; lia). rewrite Hl.
  set (x := mk_RlcSdu _ _ _ _ _ _). set (rb1 := rb <| bo := _ |> <| sduQ := _ |>).
  assert (Hx : sdu_rel x S 0) by (split; unfold x; cbn; rewrite ?drop_0; try done; unfold NR_SDU_MAX; lia).
  assert (H1 : dl_inv rb1 r (pend ++ [S])).
  { split; [done|done|apply list.Forall_app; split; [done|by apply Forall_singleton]| |].
    - change (bo rb1) with (i32 (i32 (bo rb + Z.of_nat (length S)) + RLC_MAX_HDRSZ)). rewrite i32_i32_add, Hbo. unfold rb1, occupancy. cbn. rewrite <- Z.add_assoc, i32_i32_add, sumZ_app. cbn. f_equal. lia.
    - destruct (queue_snoc _ _ _ _ x S Hq Hx) as (S1 & Hq1 & Hsame). exists S1, k. split; [|exact Hq1].
      destruct (sduQ rb) as [|y q]; [destruct pend; [|done]; cbn in Hq; subst k; by eapply in_order_fresh|].
      specialize (Hsame ltac:(done)). destruct pend; [done|]. cbn in Hq, Hsame. destruct Hq as (E1 & _), Hsame as (E2 & _). by rewrite <- E2, E1. }
  eexists. split; [done|]. destruct (negb (reestInProgress rb1)); [|done]. destruct H1 as [G1 G2 G3 G4 G5]. by split.
Qed.

Lemma grant_ok rb r pend now size :
  dl_inv rb r pend -> size < 2 ^ 15 ->
  exists rb' new r' pend' first, rlcUmmProcessSdus rb now size = Ok (rb', new, bo rb', first) /\ served rb r pend size true rb' new r' pend'.
Proof.
  intros Hi Hs. destruct (um_dl_loop_ok (S (length (sduQ rb))) rb r pend now size [] Hi) as (rb' & new & r' & pend' & E & H & _); [lia|done|].
  unfold rlcUmmProcessSdus. rewrite E. by eexists rb', new, r', pend', _.
Qed.

Definition dl_ok (rx_max : Z) (st : dl_state) : Prop :=
  let '(rb, r, acc) := st in
  exists pend, dl_inv rb r pend /\ um_rx_maxsize r = rx_max /\ um_events r ++ (deliver_sdu <$> pend) = deliver_sdu <$> acc.

Lemma dl_run_ok rx_max acts : forall st, Forall (dl_allowed rx_max) acts -> dl_ok rx_max st -> exists st', dl_run acts st = Ok st' /\ dl_ok rx_max st'.
Proof.
  induction acts as [|a acts IH]; intros st Hf Hst; [by exists st|]. apply list.Forall_cons in Hf as [Ha Hf]. cbn [dl_run].
  enough (H : exists st1, dl_act a st = Ok st1 /\ dl_ok rx_max st1) by (destruct H as (st1 & -> & H1); by apply IH).
  destruct st as [[rb r] acc], Hst as (pend & Hi & Hm & Hev), a as [now id S|now size]; cbn [dl_act dl_allowed] in Ha |- *.
  - destruct (queue_sdu rb r pend now id S Hi) as (rb' & -> & Hi'); [apply Ha|rewrite Hm; apply Ha|]. eexists. split; [done|].
    exists (pend ++ [S]). split; [done|]. split; [done|]. by rewrite !fmap_app, app_assoc, Hev.
  - destruct (grant_ok rb r pend now size Hi Ha) as (rb' & new & r' & pend' & first & -> & [S1 S2 S3 S4 _ _ _]). cbn [rbind]. rewrite S1.
    eexists. split; [done|]. exists pend'. split; [done|]. split; [by rewrite S3|by rewrite S4].
Qed.

Lemma new_dl_ok rx_max tx_max tr snLen disc drb r :
  snLen = 1 \/ snLen = 2 -> disc <= 0 -> new_nr_rlc_entity_um rx_max tx_max tr (6 * snLen) = Ok r -> dl_ok rx_max (um_dl_config snLen disc drb, r, []).
Proof.
  intros Hs Hd Er. pose proof (new_link_ok rx_max tx_max tr rx_max tx_max tr _ r r Er Er) as (Hl & Hm & _). destruct (lk_rx _ _ Hl) as (S & k & Hio & Hk).
  assert (Hr : um_tx_list r = [] /\ um_tx_next r = 0 /\ um_events r = [] /\ um_sn_field_length r = 6 * snLen).
  { unfold new_nr_rlc_entity_um in Er. destruct (_ || _); [|done]. by injection Er as <-. }
  destruct Hr as (H1 & H2 & H3 & H4). rewrite H1 in Hk. rewrite H2 in Hio. exists []. split; [|by rewrite H3]. split; [|done|constructor|done|].
  - unfold dl_conf. rewrite H4. destruct Hs as [-> | ->]; [left|right]; done.
  - exists S, k. done.
Qed.

(** What is waiting are the ends of the SDUs. *)
Lemma queue_suffix q pend S k : queue_is q pend S k -> Forall2 (fun x S => mBuf x `suffix_of` S) q pend.
Proof.
  assert (Hx : forall x S k, sdu_rel x S k -> mBuf x `suffix_of` S) by (intros x S1 k1 []; exists (take (Z.to_nat k1) S1); rewrite sr_bytes0; by rewrite take_drop).
  destruct q as [|x q], pend as [|S' pend]; try done. intros (-> & H & Hf). constructor; [by eapply Hx|]. eapply Forall2_impl; [|exact Hf]. intros y S1. apply Hx.
Qed.

(** C19. Unacknowledged mode from the O-DU to a UE of OAI. A bearer that was just configured with
    an SN of 6 or 12 bits and without a discard timer feeds a new entity of the UE with the same
    SN length; the channel keeps the order and loses nothing. For every run of SDUs handed over by
    PDCP (of 1 to NR_SDU_MAX bytes, for which the UE has room) and of grants below 2^15 bytes: no
    call fails on either side; the SDUs that the UE delivered, followed by the ones waiting in the
    O-DU (the first of them may have been sent in part), are the accepted ones, in order; and the
    occupancy reported to MAC is the waiting bytes with five bytes for each SDU (with a discard
    timer it drifts, [discarded_occupancy]). The next grant, if it is from 1 to 2^15 - 1 bytes and
    not 258 bytes, gives PDUs that fit into it with their MAC sub-headers; 258 bytes are exceeded
    by one ([grant_exceeded]). It makes progress if it has eight bytes or more and something
    waits. *)
Theorem odu_um_downlink rx_max tx_max tr snLen disc drb r0 acts :
  snLen = 1 \/ snLen = 2 -> disc <= 0 -> new_nr_rlc_entity_um rx_max tx_max tr (6 * snLen) = Ok r0 -> Forall (dl_allowed rx_max) acts ->
  exists rb r acc pend, dl_run acts (um_dl_config snLen disc drb, r0, []) = Ok (rb, r, acc) /\
    um_events r ++ (deliver_sdu <$> pend) = deliver_sdu <$> acc /\ Forall2 (fun x S => mBuf x `suffix_of` S) (sduQ rb) pend /\ bo rb = i32 (occupancy rb) /\
    forall now size, 0 < size < 2 ^ 15 -> size <> 258 ->
      exists rb' pdus first, rlcUmmProcessSdus rb now size = Ok (rb', pdus, bo rb', first) /\ sumZ mac_bytes pdus <= size /\
        (8 <= size -> sduQ rb <> [] -> queued rb' < queued rb).
Proof.
  intros Hs Hd Er Hf. destruct (dl_run_ok rx_max acts _ Hf (new_dl_ok rx_max tx_max tr snLen disc drb r0 Hs Hd Er)) as ([[rb r] acc] & E & pend & Hi & _ & Hev).
  exists rb, r, acc, pend. split; [exact E|]. split; [exact Hev|]. split; [destruct (di_rx _ _ _ Hi) as (S & k & _ & Hq); by eapply queue_suffix|].
  split; [apply Hi|]. intros now size Hsz H258. destruct (grant_ok rb r pend now size Hi ltac:(lia)) as (rb' & new & r' & pend' & first & E' & [_ _ _ _ Hfit _ Hprog]).
  exists rb', new, first. split; [exact E'|]. split; [apply Hfit; [by left|lia]|]. intros H8. by apply Hprog.
Qed.

Definition dl_example : list dl_action :=
  [DlOffer 0 0 (seqZ 0 20); DlOffer 1 2 [7; 8]; DlGrant 2 12; DlGrant 3 10; DlGrant 4 20].

Lemma odu_um_downlink_witness :
  exists r0 rb r acc pend, new_nr_rlc_entity_um 1000 1000 35 6 = Ok r0 /\ dl_run dl_example (um_dl_config 1 0 true, r0, []) = Ok (rb, r, acc) /\
    um_events r ++ (deliver_sdu <$> pend) = deliver_sdu <$> acc /\ sduQ rb = [] /\ um_events r = [deliver_sdu (seqZ 0 20); deliver_sdu [7; 8]].
Proof.
  assert (Ha : Forall (dl_allowed 1000) dl_example) by (repeat (apply Forall_cons_2; [vm_compute; intuition discriminate|]); apply Forall_nil_2).
  eexists. destruct (odu_um_downlink 1000 1000 35 1 0 true _ dl_example (or_introl eq_refl) ltac:(lia) eq_refl Ha) as (rb & r & acc & pend & E & H & _).
  exists rb, r, acc, pend. split; [reflexivity|]. split; [exact E|]. split; [exact H|]. vm_compute in E. injection E as <- <- _. vm_compute. by split.
Defined.
