(* ===== verification/OduUmUl.v ===== *)
(** Unacknowledged mode from a UE of OAI to the O-DU: the PDUs of [nr_rlc_entity_um_generate_pdu] are
    received by [rlcUmmProcessPdus], in order and completely. *)

From S2P Require Import Prelude RlcPdu RlcSdu RlcSegs RlcAm RlcUm RlcAmTx RlcUmProps RlcUmLink OduUm OduUmDl.

(** ** Headers *)

(** The two configurations, with the length of the SN at the UE. *)
Definition ul_conf (u : RlcUmUl) (len : Z) : Prop :=
  (snLen u = 1 /\ umWinSz u = 32 /\ modBitMask u = 63 /\ len = 6) \/ (snLen u = 2 /\ umWinSz u = 2048 /\ modBitMask u = 4095 /\ len = 12).

Lemma extract_part u len S k n x :
  ul_conf u len -> 0 <= x <= modBitMask u -> 0 <= k < 65536 -> whole (part S k n) = false ->
  rlcUmmExtractHdr (snLen u) (part_pdu len x S k n) = Some (mk_RlcUmHdr (si_of (part S k n)) x k, part_bytes S k n).
Proof.
  intros Hc Hx Hk Hw. unfold part_pdu, um_header. rewrite Hw. unfold whole, si_of, part in *. cbn [seg_is_first seg_is_last seg_so] in *.
  pose proof (Z.div_mod x 256 ltac:(lia)). pose proof (Z.mod_pos_bound x 256 ltac:(lia)). pose proof (Z.div_pos x 256 ltac:(lia) ltac:(lia)).
  pose proof (Z.div_mod k 256 ltac:(lia)). pose proof (Z.mod_pos_bound k 256 ltac:(lia)).
  assert (Hsi : forall c y, 0 <= y < 64 -> Z.shiftr (c * 64 + y) 6 = c).
  { intros c y Hy. rewrite Z.shiftr_div_pow2 by lia. change (2 ^ 6) with 64. rewrite Z.div_add_l, Z.div_small by lia. lia. }
  assert (H6 : forall c y, 0 <= y < 64 -> Z.land (c * 64 + y) 0x3F = y).
  { intros c y Hy. change 0x3F with (2 ^ 6 - 1). rewrite land_ones_mod by lia. change (2 ^ 6) with 64. rewrite Z.add_comm, Z.mod_add by lia. by apply Z.mod_small. }
  assert (H4 : forall c y, 0 <= y < 16 -> Z.land (c * 64 + y) 0x0F = y).
  { intros c y Hy. change 0x0F with (2 ^ 4 - 1). rewrite land_ones_mod by lia. change (2 ^ 4) with 16. replace (c * 64 + y) with (y + (4 * c) * 16) by lia.
    rewrite Z.mod_add by lia. by apply Z.mod_small. }
  assert (Hso : Z.lor (Z.shiftl (k / 256) 8) (k mod 256) = k) by (rewrite lor_shiftl_add by lia; change (2 ^ 8) with 256; lia).
  assert (H12 : Z.lor (Z.shiftl (x / 256) 8) (x mod 256) = x) by (rewrite lor_shiftl_add by lia; change (2 ^ 8) with 256; lia).
  unfold rlcUmmExtractHdr, RLC_UM_CFG_6BIT_SN_LEN, RLC_SI_LAST_SEG, RLC_SI_MID_SEG.
  destruct Hc as [(-> & _ & E & ->)|(-> & _ & E & ->)]; rewrite E in Hx; destruct (Z.eqb_spec k 0) as [->|], (_ =? Z.of_nat (length S)); try discriminate Hw;
    cbn [Z.eqb Pos.eqb app]; rewrite Hsi by lia; cbn [Z.b2z Z.sub Z.mul Z.add Z.opp Pos.mul Pos.add Z.eqb Pos.eqb Z.pos_sub orb app];
    rewrite ?H6, ?H4, ?H12, ?Hso by lia; done.
Qed.

(** Bytes as the air interface carries them. *)
Lemma same_bits l1 : forall l2, bytes_bits l1 = bytes_bits l2 -> u8 <$> l1 = u8 <$> l2.
Proof.
  induction l1 as [|x l1 IH]; intros [|y l2] E; [done| | |]; try (apply (f_equal length) in E; rewrite !length_bytes_bits in E; cbn in E; lia).
  rewrite !bytes_bits_cons in E. apply app_inj_1 in E as [E1 E2]; [|by rewrite !length_bits_be]. rewrite !fmap_cons. f_equal; [|by apply IH].
  apply (f_equal Z_of_bits) in E1. rewrite !Z_of_bits_be in E1. exact E1.
Qed.

Definition is_byte (z : Z) : Prop := 0 <= z < 256.

Lemma u8_bytes l : Forall is_byte l -> u8 <$> l = l.
Proof. induction 1 as [|x l Hx _ IH]; [done|]. rewrite fmap_cons, IH. unfold u8. by rewrite Z.mod_small by exact Hx. Qed.

Lemma header_bytes u len x S k n : ul_conf u len -> 0 <= x <= modBitMask u -> 0 <= k < 65536 -> Forall is_byte (um_header len x (part S k n)).
Proof.
  intros Hc Hx Hk. pose proof (Z.div_mod x 256 ltac:(lia)). pose proof (Z.mod_pos_bound x 256 ltac:(lia)). pose proof (Z.div_pos x 256 ltac:(lia) ltac:(lia)).
  pose proof (Z.div_mod k 256 ltac:(lia)). pose proof (Z.mod_pos_bound k 256 ltac:(lia)). unfold um_header, is_byte, whole, si_of, part. cbn [seg_is_first seg_is_last seg_so].
  destruct Hc as [(_ & _ & E & ->)|(_ & _ & E & ->)]; rewrite E in Hx; cbn [Z.eqb Pos.eqb]; destruct (k =? 0), (_ =? Z.of_nat _); cbn [andb app Z.b2z];
    repeat (apply Forall_cons_2; [lia|]); apply Forall_nil_2.
Qed.

(** ** The window *)

Lemma get_value u len v d : ul_conf u len -> (v - vrUh u) mod (modBitMask u + 1) = d mod (modBitMask u + 1) -> - umWinSz u <= d < umWinSz u -> RLC_UM_GET_VALUE v u = umWinSz u + d.
Proof.
  intros Hc Hd Hr. unfold RLC_UM_GET_VALUE. replace (v - (vrUh u - umWinSz u)) with (umWinSz u + (v - vrUh u)) by lia.
  destruct Hc as [(_ & Ew & Em & _)|(_ & Ew & Em & _)]; rewrite Ew, Em in *; [change 63 with (2 ^ 6 - 1)|change 4095 with (2 ^ 12 - 1)]; rewrite land_ones_mod by lia;
    [change (63 + 1) with (2 ^ 6) in Hd|change (4095 + 1) with (2 ^ 12) in Hd]; rewrite <- Z.add_mod_idemp_r, Hd, Z.add_mod_idemp_r by lia; apply Z.mod_small; lia.
Qed.

(** The next SN. *)
Definition next_sn (u : RlcUmUl) (x : Z) : Z := (x + 1) mod (modBitMask u + 1).

Lemma mask_next u len x : ul_conf u len -> Z.land (x + 1) (modBitMask u) = next_sn u x.
Proof.
  intros Hc. unfold next_sn. destruct Hc as [(_ & _ & -> & _)|(_ & _ & -> & _)]; [change 63 with (2 ^ 6 - 1)|change 4095 with (2 ^ 12 - 1)]; by rewrite land_ones_mod by lia.
Qed.

Lemma next_range u len x : ul_conf u len -> 0 <= next_sn u x <= modBitMask u.
Proof. intros Hc. unfold next_sn. assert (0 < modBitMask u + 1) by (destruct Hc as [(_ & _ & -> & _)|(_ & _ & -> & _)]; lia). pose proof (Z.mod_pos_bound (x + 1) (modBitMask u + 1)). lia. Qed.

Section Values.

Variables (u : RlcUmUl) (len x : Z).
Hypothesis Hc : ul_conf u len.
Hypothesis Hx : 0 <= x <= modBitMask u.

Let Hw : 1 < umWinSz u.
Proof. destruct Hc as [(_ & -> & _)|(_ & -> & _)]; lia. Qed.

(** Before and after the first segment of [x]. *)
Lemma values_before : vrUh u = x -> RLC_UM_GET_VALUE x u = umWinSz u /\ RLC_UM_GET_VALUE (next_sn u x) u = umWinSz u + 1.
Proof.
  intros E. split; [replace (umWinSz u) with (umWinSz u + 0) by lia|]; apply (get_value _ _ _ _ Hc); rewrite ?E; try lia; [by rewrite Z.sub_diag|].
  unfold next_sn. rewrite Zminus_mod_idemp_l. f_equal. lia.
Qed.

Lemma values_after : vrUh u = next_sn u x -> RLC_UM_GET_VALUE x u = umWinSz u - 1 /\ RLC_UM_GET_VALUE (next_sn u x) u = umWinSz u.
Proof.
  intros E. split; [replace (umWinSz u - 1) with (umWinSz u + -1) by lia|replace (umWinSz u) with (umWinSz u + 0) by lia]; apply (get_value _ _ _ _ Hc); rewrite ?E; try lia; [|by rewrite Z.sub_diag].
  unfold next_sn. rewrite Zminus_mod_idemp_r. f_equal. lia.
Qed.

End Values.

(** ** Segments *)

(** The segments of an SDU from byte [j] to byte [k]. *)
Fixpoint parts (x : Z) (S : list Z) (j : Z) (l : list RlcUmSeg) (k : Z) : Prop :=
  match l with
  | [] => j = k
  | s :: l =>
    0 < segSz s /\ j + segSz s <= Z.of_nat (length S) /\ soEnd s = j + segSz s - 1 /\ seg s = part_bytes S j (segSz s) /\
    seg_umHdr s = mk_RlcUmHdr (si_of (part S j (segSz s))) x j /\ whole (part S j (segSz s)) = false /\ parts x S (j + segSz s) l k
  end.

Lemma parts_snoc x S l s k : forall j, parts x S j l k -> parts x S k [s] (k + segSz s) -> parts x S j (l ++ [s]) (k + segSz s).
Proof. induction l as [|t l IH]; intros j Hl Hs; cbn [parts app] in *; [by subst j|]. destruct Hl as (H1 & H2 & H3 & H4 & H5 & H6 & Hl). do 6 (split; [done|]). by apply IH. Qed.

Lemma parts_end x S l k : forall j, parts x S j l k -> j <= Z.of_nat (length S) -> j <= k <= Z.of_nat (length S) /\ (l <> [] -> j < k).
Proof.
  induction l as [|s l IH]; intros j Hl Hj; cbn in Hl; [subst; split; [lia|done]|]. destruct Hl as (H1 & H2 & _ & _ & _ & _ & Hl).
  destruct (IH _ Hl H2) as [H _]. split; lia.
Qed.

(** Everything lies below the end. *)
Lemma parts_split x S l k : forall j, parts x S j l k -> 0 <= j -> Z.of_nat (length S) < 65536 -> j <= Z.of_nat (length S) -> split_segs l k j = (l, k, []).
Proof.
  induction l as [|s l IH]; intros j Hl Hj Hm Hle; cbn [split_segs]; [by cbn in Hl; subst|]. pose proof (parts_end _ _ _ _ _ Hl Hle) as [_ Hlt]. specialize (Hlt ltac:(done)).
  destruct Hl as (H1 & H2 & _ & _ & H5 & _ & Hl). rewrite H5. cbn [so]. rewrite (proj2 (Z.ltb_lt j k)) by lia. unfold u16. rewrite Z.mod_small by lia.
  by rewrite (IH _ Hl) by lia.
Qed.

(** Segmentation informations that are known. *)
Ltac si_value :=
  cbn [Z.b2z];
  repeat match goal with |- context [2 * (1 - ?a) + (1 - ?b)] => let v := eval vm_compute in (2 * (1 - a) + (1 - b)) in change (2 * (1 - a) + (1 - b)) with v end.

(** Reassembly: the message holds the first [j] bytes. *)
Lemma parts_reassemble x S l : forall u j,
  parts x S j l (Z.of_nat (length S)) -> l <> [] -> 0 <= j -> Z.of_nat (length S) < 65535 ->
  expSn u = x -> expSo u = j -> assembleSdu u = (if j =? 0 then NoMsg else Msg (take (Z.to_nat j) S)) ->
  (exists m, ul_mem u = true :: true :: m) ->
  exists o, reassemble_segs u l = Ok (u <| expSo := o |> <| assembleSdu := NoMsg |> <| ul_mem := drop 2 (ul_mem u) |> <| ulData := ulData u ++ [S] |>).
Proof.
  induction l as [|s l IH]; intros u j Hl Hne Hj Hm Esn Eso Ea (m & Emem); [done|]. destruct Hl as (H1 & H2 & H3 & H4 & H5 & H6 & Hl). cbn [reassemble_segs].
  unfold rlcUmmProcSeg. rewrite H5, Esn, Eso, Ea. cbn [sn so si]. rewrite !Z.eqb_refl. cbn [negb orb].
  assert (Hend : u16 (soEnd s + 1) = j + segSz s) by (rewrite H3; unfold u16; rewrite Z.mod_small; lia).
  assert (Hcat : take (Z.to_nat j) S ++ seg s = take (Z.to_nat (j + segSz s)) S).
  { rewrite H4. unfold part_bytes. replace (Z.to_nat (j + segSz s)) with (Z.to_nat j + Z.to_nat (segSz s))%nat by lia. by rewrite take_take_drop. }
  unfold whole, si_of, part, RLC_SI_FIRST_SEG, RLC_SI_MID_SEG, RLC_SI_LAST_SEG in *. cbn [seg_is_first seg_is_last] in *.
  destruct (Z.eqb_spec (j + segSz s) (Z.of_nat (length S))) as [He|He].
  - destruct (Z.eqb_spec j 0) as [->|Hj0]; [done|]. si_value; cbn [Z.eqb Pos.eqb orb rbind].
    assert (l = []) as -> by (destruct l; [done|]; destruct (parts_end _ _ _ _ _ Hl ltac:(lia)) as [_ H]; specialize (H ltac:(done)); lia).
    exists (j + segSz s). unfold rlcUtlSendUlDataToDu, rlc_alloc. unfold update; cbn. rewrite Emem. cbn [reassemble_segs]. unfold update; cbn. rewrite Hend, Hcat, take_ge by lia. done.
  - assert (Hne' : l <> []) by (intros ->; cbn in Hl; lia).
    destruct (Z.eqb_spec j 0) as [->|Hj0]; si_value; cbn [Z.eqb Pos.eqb orb rbind put_msg]; rewrite Hend.
    + match goal with |- context [reassemble_segs ?u1 l] => destruct (IH u1 (0 + segSz s) Hl Hne') as (o & ->) end; try done; [lia| |by exists m|by exists o].
      change (Msg (seg s) = if 0 + segSz s =? 0 then NoMsg else Msg (take (Z.to_nat (0 + segSz s)) S)).
      destruct (Z.eqb_spec (0 + segSz s) 0); [lia|]. by rewrite <- Hcat.
    + match goal with |- context [reassemble_segs ?u1 l] => destruct (IH u1 (j + segSz s) Hl Hne') as (o & ->) end; try done; [lia| |by exists m|by exists o].
      cbn. destruct (Z.eqb_spec (j + segSz s) 0); [lia|]. by rewrite Hcat.
Qed.

(** ** Reception *)

(** The buffer of an SDU of which the first [k] bytes are there. *)
Record rec_ok (b : RlcUmRecBuf) (x : Z) (S : list Z) (k : Z) : Prop := {
  rk_sn : rec_sn b = x;
  rk_hdr : sn (rec_umHdr b) = x;
  rk_all : allSegRcvd b = (k =? Z.of_nat (length S));
  rk_hole : noMissingSeg b = true;
  rk_exp : rec_expSo b = k;
  rk_segs : parts x S 0 (segLst b) k;
  rk_some : segLst b <> [];
}.

(** SNs below [x] were all delivered, and of the SDU [S] of SN [x] the first [k] bytes are there. *)
Record ul_order (u : RlcUmUl) (len x : Z) (S : list Z) (k : Z) : Prop := {
  uo_conf : ul_conf u len;
  uo_sn : 0 <= x <= modBitMask u;
  uo_ur : vrUr u = x;
  uo_tmr : reAsmblTmr u = false;
  uo_asm : assembleSdu u = NoMsg;
  uo_rec : (k = 0 /\ recBufLst u = [] /\ vrUh u = x) \/
           (0 < k < Z.of_nat (length S) /\ vrUh u = next_sn u x /\ exists a b, recBufLst u = [(a, (x mod RLC_RCV_BUF_BIN_SIZE, b))] /\ rec_ok b x S k);
}.

(** The segment at byte [k]. *)
Definition seg_at (x : Z) (S : list Z) (k n : Z) : RlcUmSeg := mk_RlcUmSeg (part_bytes S k n) n (k + n - 1) (mk_RlcUmHdr (si_of (part S k n)) x k).

Lemma parts_one x S k n : 0 < n -> k + n <= Z.of_nat (length S) -> whole (part S k n) = false -> parts x S k [seg_at x S k n] (k + n).
Proof. intros Hn Hf Hw. cbn. by split_and!. Qed.

(** The buffer after a segment that joins. *)
Lemma rec_join b x S k n :
  0 <= k -> 0 < n -> k + n <= Z.of_nat (length S) -> Z.of_nat (length S) < 65535 -> whole (part S k n) = false ->
  parts x S 0 (segLst b) k -> allSegRcvd b = false -> rec_expSo b = k ->
  rec_ok (rlcUmmUpdExpByteSeg (b <| rec_umHdr := mk_RlcUmHdr (si_of (part S k n)) x k |> <| rec_sn := x |> <| segLst := segLst b ++ [seg_at x S k n] |>) (seg_at x S k n) []) x S (k + n).
Proof.
  intros Hk Hn Hf Hm Hw Hp Ha He. unfold rlcUmmUpdExpByteSeg. unfold update; cbn [seg_at seg_umHdr so soEnd si rec_expSo exp_segs]. rewrite He, Z.eqb_refl. cbn [negb].
  assert (E : u16 (k + n - 1 + 1) = k + n) by (unfold u16; rewrite Z.mod_small; lia). rewrite E.
  assert (Hp' : parts x S 0 (segLst b ++ [seg_at x S k n]) (k + n)) by (apply (parts_snoc x S _ (seg_at x S k n)); [done|by apply parts_one]).
  assert (Hlast : (si_of (part S k n) =? RLC_SI_LAST_SEG) = (k + n =? Z.of_nat (length S))).
  { unfold whole, si_of, part, RLC_SI_LAST_SEG in *. cbn [seg_is_first seg_is_last] in *. by destruct (k =? 0), (k + n =? _). }
  rewrite Hlast. cbn [andb]. destruct (Z.eqb_spec (k + n) (Z.of_nat (length S))) as [El|El]; split; cbn; try done; try (by destruct (segLst b)).
  - symmetry. by apply Z.eqb_eq.
  - rewrite Ha. symmetry. by apply Z.eqb_neq.
Qed.

Lemma add_seg u len x S k n m :
  ul_order u len x S k -> 0 < n -> k + n <= Z.of_nat (length S) -> Z.of_nat (length S) <= NR_SDU_MAX -> whole (part S k n) = false ->
  ul_mem u = replicate m true -> (2 <= m)%nat ->
  exists a b f m1, rlcUmmAddRcvdSeg u (mk_RlcUmHdr (si_of (part S k n)) x k) (part_bytes S k n) n
    = Ok (true, u <| freshAddr := f |> <| ul_mem := replicate m1 true |> <| recBufLst := [(a, (x mod RLC_RCV_BUF_BIN_SIZE, b))] |>) /\
    rec_ok b x S (k + n) /\ (m - 2 <= m1)%nat.
Proof.
  intros [Hc Hx _ _ _ Hr] Hn Hf Hmax Hw Hmem Hm. unfold NR_SDU_MAX in Hmax. unfold rlcUmmAddRcvdSeg. cbn [so sn].
  assert (Hi : i16 n = n) by (unfold i16; rewrite Z.mod_small; destruct Hr as [(-> & _)|(? & _)]; lia).
  assert (He : u16 (k + n - 1) = k + n - 1) by (unfold u16; rewrite Z.mod_small; destruct Hr as [(-> & _)|(? & _)]; lia).
  rewrite Hi, He. change (mk_RlcUmSeg (part_bytes S k n) n (k + n - 1) (mk_RlcUmHdr (si_of (part S k n)) x k)) with (seg_at x S k n).
  unfold rlcUtlGetUmRecBuf, rlc_alloc. destruct m as [|[|m]]; [lia|lia|]. destruct Hr as [(-> & El & Eh)|(Hk & Eh & a & b & El & Hb)]; rewrite El, Hmem; cbn [find_rec replicate].
  - unfold rlcUtlStoreUmRecBuf, rec_at. unfold update; cbn. rewrite El. cbn [app rec_lookup]. rewrite Z.eqb_refl. cbn. unfold update, set_rec; cbn. rewrite Z.eqb_refl.
    set (b0 := mk_RlcUmRecBuf 0 false false [] 0 _).
    eexists _, _, _, m. split; [reflexivity|]. split; [|lia]. exact (rec_join b0 x S 0 n ltac:(lia) Hn Hf ltac:(lia) Hw eq_refl eq_refl eq_refl).
  - pose proof Hb as [B1 B2 B3 B4 B5 B6 B7]. rewrite B2, !Z.eqb_refl. cbn [andb]. unfold rec_at. rewrite El. cbn [rec_lookup]. rewrite Z.eqb_refl. cbn [rbind].
    rewrite B3, (proj2 (Z.eqb_neq k _)) by lia. cbn [rbind]. rewrite El. cbn [rec_lookup]. rewrite Z.eqb_refl. cbn [rbind].
    rewrite (parts_split x S (segLst b) k 0 B6) by lia. destruct (Z.gtb_spec k k); [lia|]. rewrite Hmem. cbn [replicate negb]. unfold set_rec, update; cbn. rewrite El. cbn. rewrite Z.eqb_refl.
    eexists _, _, _, (1 + m)%nat. split; [reflexivity|]. split; [|lia]. apply (rec_join b x S k n); try done; try lia. rewrite B3. apply Z.eqb_neq. lia.
Qed.

Lemma next_other u len x : ul_conf u len -> 0 <= x <= modBitMask u -> x <> next_sn u x.
Proof.
  intros Hc Hx. unfold next_sn. assert (1 < modBitMask u + 1) by (destruct Hc as [(_ & _ & -> & _)|(_ & _ & -> & _)]; lia).
  destruct (Z.eq_dec x (modBitMask u)) as [->|]; [rewrite Z.mod_same by lia; lia|rewrite Z.mod_small by lia; lia].
Qed.

Lemma find_one a x b y : sn (rec_umHdr b) = x -> find_rec [(a, (x mod RLC_RCV_BUF_BIN_SIZE, b))] y = if x =? y then Some a else None.
Proof. intros E. cbn. rewrite E. destruct (Z.eqb_spec x y) as [->|]; [by rewrite Z.eqb_refl|by rewrite andb_false_r]. Qed.

(** A buffer is freed. *)
Lemma drop_one u a x b : recBufLst u = [(a, (x, b))] -> drop_rec u (Some a) = Ok (u <| recBufLst := [] |>).
Proof.
  intros E. unfold drop_rec, rlcUmmRelAllSegs, rlcUtlDelUmRecBuf, rec_at, set_rec. rewrite E. cbn [rec_lookup]. rewrite Z.eqb_refl. cbn [rbind]. unfold update; cbn.
  rewrite !Z.eqb_refl. cbn. rewrite decide_False by (intros H; by apply H). done.
Qed.

(** The window moves behind an SDU that was delivered. *)
Lemma next_found u len x a b :
  ul_conf u len -> 0 <= x <= modBitMask u -> vrUr u = x -> vrUh u = next_sn u x -> recBufLst u = [(a, (x mod RLC_RCV_BUF_BIN_SIZE, b))] -> sn (rec_umHdr b) = x ->
  rlcUmmFindRxNextReassembly u (Z.land (vrUr u + 1) (modBitMask u)) = Ok (u <| vrUr := next_sn u x |> <| recBufLst := [] |>).
Proof.
  intros Hc Hx Hur Huh El Hb. rewrite (mask_next u len _ Hc), Hur. unfold rlcUmmFindRxNextReassembly. destruct (values_after u len x Hc Huh) as [V1 V2].
  unfold rlcUtlGetUmRecBuf. rewrite Hur, El, !find_one by done. rewrite (proj2 (Z.eqb_neq x (next_sn u x))) by (by apply (next_other u len)). rewrite !Z.eqb_refl, V1, V2.
  destruct (Z.to_nat (4 * umWinSz u)) as [|fuel] eqn:Ef; [destruct Hc as [(_ & E & _)|(_ & E & _)]; rewrite E in Ef; discriminate Ef|]. cbn [find_next].
  rewrite (proj2 (Z.ltb_lt _ _)) by lia. rewrite (proj2 (Z.eqb_eq (umWinSz u - 1 + 1) _)) by lia. cbn [rbind]. by rewrite (drop_one _ a (x mod RLC_RCV_BUF_BIN_SIZE) b).
Qed.

(** No timer is started as long as there is no hole. *)
Lemma timer_idle u len x y :
  ul_conf u len -> 0 <= x <= modBitMask u -> reAsmblTmr u = false -> vrUr u = x -> vrUh u = x \/ vrUh u = next_sn u x -> no_missing u y false = Ok false ->
  um_ul_timer u y = Ok u.
Proof.
  intros Hc Hx Ht Hur Huh Hh. unfold um_ul_timer. rewrite Ht. cbn [rbind]. rewrite Ht, Hh. cbn [negb rbind]. rewrite Hur, (mask_next u len _ Hc).
  destruct Huh as [Huh|Huh]; [destruct (values_before u len x Hc Huh) as [V1 V2]|destruct (values_after u len x Hc Huh) as [V1 V2]]; rewrite Huh, ?V1, V2.
  - destruct (Z.gtb_spec (umWinSz u) (umWinSz u + 1)); [lia|]. by rewrite andb_false_r.
  - destruct (Z.gtb_spec (umWinSz u) (umWinSz u)); [lia|]. by rewrite andb_false_r.
Qed.

(** The window after a segment that does not complete the SDU. *)
Lemma window_open u len x a b v w :
  ul_conf u len -> 0 <= x <= modBitMask u -> vrUr u = x -> vrUh u = x \/ vrUh u = next_sn u x ->
  recBufLst u = [(a, (x mod RLC_RCV_BUF_BIN_SIZE, b))] -> allSegRcvd b = false ->
  um_ul_window u x v w a = Ok (u <| vrUh := next_sn u x |>).
Proof.
  intros Hc Hx Hur Huh El Hb. unfold um_ul_window, rec_at. rewrite El. cbn [rec_lookup]. rewrite Z.eqb_refl. cbn [rbind]. rewrite Hb. unfold rlcUmmCheckSnInReassemblyWindow.
  destruct Huh as [Huh|Huh].
  - destruct (values_before u len x Hc Huh) as [V1 _]. rewrite Huh, Z.ltb_irrefl. cbn [negb]. rewrite (mask_next u len _ Hc). set (u1 := u <| vrUh := next_sn u x |>).
    destruct (values_after u1 len x Hc eq_refl) as [W1 W2]. change (vrUr u1) with (vrUr u). rewrite Hur, W1. change (vrUh u1) with (next_sn u1 x). rewrite W2.
    by rewrite (proj2 (Z.ltb_lt _ _)) by lia.
  - destruct (values_after u len x Hc Huh) as [V1 V2]. rewrite Huh, V1, V2, (proj2 (Z.ltb_lt _ _)) by lia. cbn [negb]. f_equal. rewrite <- Huh. by destruct u.
Qed.

(** States with the same fields. *)
Lemma ul_ext u v :
  snLen u = snLen v -> recBufLst u = recBufLst v -> umWinSz u = umWinSz v -> modBitMask u = modBitMask v -> vrUr u = vrUr v -> vrUh u = vrUh v -> vrUx u = vrUx v ->
  reAsmblTmr u = reAsmblTmr v -> assembleSdu u = assembleSdu v -> expSo u = expSo v -> expSn u = expSn v -> freshAddr u = freshAddr v -> ul_mem u = ul_mem v ->
  ulData u = ulData v -> reEstCmpInd u = reEstCmpInd v -> u = v.
Proof. destruct u, v; cbn; intros; by subst. Qed.

(** The SDU of a complete buffer goes upwards. *)
Lemma reassembled u x S a y b m :
  assembleSdu u = NoMsg -> Z.of_nat (length S) <= NR_SDU_MAX -> recBufLst u = [(a, (y, b))] -> rec_ok b x S (Z.of_nat (length S)) -> ul_mem u = true :: true :: m ->
  exists s, rlcUmmReAssembleSdus u a
    = Ok (u <| expSo := 0 |> <| expSn := s |> <| ul_mem := m |> <| ulData := ulData u ++ [S] |> <| recBufLst := [(a, (y, b <| segLst := [] |>))] |>).
Proof.
  intros Ha HS El [B1 B2 B3 B4 B5 B6 B7] Hm. unfold NR_SDU_MAX in HS. unfold rlcUmmReAssembleSdus, rec_at. rewrite El. cbn [rec_lookup]. rewrite Z.eqb_refl. cbn [rbind]. rewrite B1.
  set (u1 := u <| expSn := x |> <| expSo := 0 |>).
  destruct (parts_reassemble x S (segLst b) u1 0 B6 B7) as (o & ->); try done; [lia|by eexists|]. cbn [rbind]. eexists. f_equal. apply ul_ext; try reflexivity.
  - etransitivity; [exact (eq_refl ((fun z => if fst z =? a then (a, (fst (snd z), b <| segLst := [] |>)) else z) <$> recBufLst u))|]. rewrite El. cbn. by rewrite Z.eqb_refl.
  - symmetry. exact Ha.
  - change (drop 2 (ul_mem u) = m). by rewrite Hm.
Qed.

(** The window after the last segment. *)
Lemma window_done u len x S a b v m :
  ul_conf u len -> 0 <= x <= modBitMask u -> vrUr u = x -> vrUh u = next_sn u x -> assembleSdu u = NoMsg -> Z.of_nat (length S) <= NR_SDU_MAX ->
  recBufLst u = [(a, (x mod RLC_RCV_BUF_BIN_SIZE, b))] -> rec_ok b x S (Z.of_nat (length S)) -> ul_mem u = true :: true :: m ->
  exists s, um_ul_window u x v v a
    = Ok (u <| expSo := 0 |> <| expSn := s |> <| ul_mem := m |> <| ulData := ulData u ++ [S] |> <| vrUr := next_sn u x |> <| recBufLst := [] |>).
Proof.
  intros Hc Hx Hur Huh Ha HS El Hb Hm. unfold um_ul_window, rec_at. rewrite El. cbn [rec_lookup]. rewrite Z.eqb_refl. cbn [rbind].
  rewrite (rk_all _ _ _ _ Hb), Z.eqb_refl. destruct (reassembled u x S a _ b m Ha HS El Hb Hm) as (s & ->). cbn [rbind]. rewrite Z.eqb_refl.
  set (u1 := u <| expSo := 0 |> <| expSn := s |> <| ul_mem := m |> <| ulData := ulData u ++ [S] |> <| recBufLst := _ |>).
  rewrite (next_found u1 len x a (b <| segLst := [] |>) Hc Hx Hur Huh eq_refl (rk_hdr _ _ _ _ Hb)). exists s. subst u1. by destruct u.
Qed.

(** A whole SDU. *)
Lemma whole_received u len x S S' m k :
  ul_order u len x S' k -> ul_mem u = replicate m true -> (2 <= m)%nat ->
  exists u', um_ul_pdu u false (0 :: S) = Ok u' /\ ulData u' = ulData u ++ [S] /\ ul_mem u' = replicate (m - 2) true /\ ul_order u' len x S' k.
Proof.
  intros Ho Hm H2. unfold um_ul_pdu. cbn. unfold rlcUtlSendUlDataToDu, rlc_alloc. destruct m as [|[|m]]; [lia|lia|]. rewrite Hm. cbn. eexists. split; [reflexivity|].
  split; [done|]. split; [by rewrite Nat.sub_0_r|]. destruct Ho. by split.
Qed.

(** A segment, at the place where the SDU goes on. *)
Lemma part_received u len x S k n m :
  ul_order u len x S k -> 0 < n -> k + n <= Z.of_nat (length S) -> Z.of_nat (length S) <= NR_SDU_MAX -> whole (part S k n) = false ->
  ul_mem u = replicate m true -> (4 <= m)%nat ->
  exists u' m', um_ul_pdu u false (part_pdu len x S k n) = Ok u' /\ ul_mem u' = replicate m' true /\ (m - 4 <= m')%nat /\
    if k + n =? Z.of_nat (length S) then ulData u' = ulData u ++ [S] /\ forall S', ul_order u' len (next_sn u x) S' 0
    else ulData u' = ulData u /\ ul_order u' len x S (k + n).
Proof.
  intros Ho Hn Hf Hmax Hw Hmem Hm. pose proof Ho as [Hc Hx Hur Ht Ha Hr]. unfold NR_SDU_MAX in Hmax.
  assert (Hk : 0 <= k) by (destruct Hr as [(-> & _)|(? & _)]; lia).
  destruct (add_seg u len x S k n m Ho Hn Hf Hmax Hw Hmem ltac:(lia)) as (a & b & f & m1 & Eadd & Hb & Hm1).
  unfold um_ul_pdu. rewrite (extract_part u len S k n x Hc Hx ltac:(lia) Hw). cbn [si sn].
  assert (Hsi : (si_of (part S k n) =? 0) = false) by (unfold whole, si_of, part in *; cbn [seg_is_first seg_is_last] in *; by destruct (k =? 0), (k + n =? _)).
  assert (Hx16 : u16 x = x) by (unfold u16; rewrite Z.mod_small; [done|]; destruct Hc as [(_ & _ & E & _)|(_ & _ & E & _)]; rewrite E in Hx; lia).
  assert (Hlen : u16 (Z.of_nat (length (part_bytes S k n))) = n) by (rewrite length_part by lia; unfold u16; rewrite Z.mod_small; lia).
  rewrite Hsi, Hx16, Hur, Z.ltb_irrefl, Hlen, Eadd. cbn [rbind]. set (u1 := u <| freshAddr := f |> <| ul_mem := _ |> <| recBufLst := _ |>).
  assert (Eget : forall y, rlcUtlGetUmRecBuf u1 y = if x =? y then Some a else None) by (intros y; apply (find_one a x b y (rk_hdr _ _ _ _ Hb))).
  rewrite Eget, Z.eqb_refl. assert (Hcase : vrUh u1 = x \/ vrUh u1 = next_sn u1 x) by (destruct Hr as [(_ & _ & E)|(_ & E & _)]; [by left|by right]).
  destruct (Z.eqb_spec (k + n) (Z.of_nat (length S))) as [He|He].
  - assert (Huh : vrUh u = next_sn u x).
    { destruct Hr as [(-> & _)|(_ & E & _)]; [|done]. unfold whole, part in Hw. cbn [seg_is_first seg_is_last] in Hw. by rewrite (proj2 (Z.eqb_eq (0 + n) _) He) in Hw. }
    rewrite He in Hb. destruct m1 as [|[|m1]]; [lia|lia|].
    destruct (window_done u1 len x S a b (RLC_UM_GET_VALUE x u) (replicate m1 true) Hc Hx Hur Huh Ha ltac:(unfold NR_SDU_MAX; lia) eq_refl Hb eq_refl) as (s & ->). cbn [rbind].
    set (u2 := u1 <| expSo := 0 |> <| expSn := s |> <| ul_mem := _ |> <| ulData := _ |> <| vrUr := _ |> <| recBufLst := _ |>). pose proof (next_range u len x Hc) as Hx'.
    rewrite (timer_idle u2 len (next_sn u x) x Hc Hx' Ht eq_refl (or_introl Huh) eq_refl). exists u2, m1.
    split; [done|]. split; [done|]. split; [lia|]. split; [done|]. intros S'. split; try done. by left.
  - rewrite (window_open u1 len x a b _ _ Hc Hx Hur Hcase eq_refl); [|rewrite (rk_all _ _ _ _ Hb); by apply Z.eqb_neq]. cbn [rbind]. set (u2 := u1 <| vrUh := _ |>).
    assert (Hh : no_missing u2 x false = Ok false).
    { unfold no_missing. change (rlcUtlGetUmRecBuf u2 x) with (rlcUtlGetUmRecBuf u1 x). rewrite Eget, Z.eqb_refl. unfold rec_at, u2, u1. unfold update; cbn. by rewrite Z.eqb_refl; cbn; rewrite (rk_hole _ _ _ _ Hb). }
    rewrite (timer_idle u2 len x x Hc Hx Ht Hur (or_intror eq_refl) Hh). exists u2, m1. split; [done|]. split; [done|]. split; [lia|]. split; [done|].
    split; try done. right. split; [lia|]. split; [done|]. by exists a, b.
Qed.

(** ** The link *)

Lemma header_part len x t a : seg_ok t a -> um_header len x a = um_header len x (part (sdu_data t) (seg_so a) (seg_size a)) /\ whole a = whole (part (sdu_data t) (seg_so a) (seg_size a)).
Proof.
  intros (_ & _ & _ & H4 & H5). assert (E1 : seg_is_first a = (seg_so a =? 0)) by (apply eq_true_iff_eq; rewrite Z.eqb_eq; tauto).
  assert (E2 : seg_is_last a = (seg_so a + seg_size a =? Z.of_nat (length (sdu_data t)))) by (apply eq_true_iff_eq; rewrite Z.eqb_eq; tauto).
  unfold um_header, whole, si_of, part. cbn [seg_is_first seg_is_last seg_so]. by rewrite E1, E2.
Qed.

Lemma ul_modulus s u : um_conf s -> ul_conf u (um_sn_field_length s) -> um_sn_modulus s = modBitMask u + 1.
Proof. intros [[E ->]|[E ->]] [(_ & _ & -> & E')|(_ & _ & -> & E')]; rewrite E in E'; done. Qed.

(** The bytes of a PDU of the UE. *)
Lemma carried_bytes s u t x a buffer n :
  um_carries s t x a buffer n -> um_conf s -> ul_conf u (um_sn_field_length s) -> Forall is_byte (sdu_data t) -> Z.of_nat (length (sdu_data t)) <= NR_SDU_MAX ->
  n <> 0 /\ u8 <$> take (Z.to_nat n) buffer = part_pdu (um_sn_field_length s) x (sdu_data t) (seg_so a) (seg_size a).
Proof.
  intros (Hseg & Hsn & Hn & _ & hb & Hp & Hb & _) Hcs Hcu Hbytes Hmax. unfold NR_SDU_MAX in Hmax. split.
  - rewrite <- um_pdu_bytes_eq in Hn. pose proof (um_header_size_pos s a). destruct Hseg as (_ & ? & _). lia.
  - rewrite Hp, fmap_app. destruct (um_header_bits s x a t Hcs Hsn Hseg) as [Hbits _]. rewrite <- Hb in Hbits. unfold part_pdu.
    destruct (header_part (um_sn_field_length s) x t a Hseg) as [Eh _]. unfold um_sn_range in Hsn. rewrite (ul_modulus s u Hcs Hcu) in Hsn.
    rewrite <- (same_bits _ _ Hbits), Eh, u8_bytes; [|apply (header_bytes u); [done|lia|destruct Hseg as (? & ? & ? & _); lia]].
    f_equal. apply u8_bytes. apply Forall_take, Forall_drop, Hbytes.
Qed.

(** The receiver is as far as the sender. *)
Definition head_at (s : nr_rlc_entity_um_t) (S : list Z) (k : Z) : Prop :=
  match um_tx_list s with
  | x :: _ => k = seg_so x /\ (seg_is_first x = false -> S = addr_data (um_heap s) (seg_sdu x))
  | [] => k = 0
  end.

Record ul_linked (s : nr_rlc_entity_um_t) (u : RlcUmUl) : Prop := {
  ul_wf : um_wf s;
  ul_bytes : Forall (Forall is_byte) (queue_data s);
  ul_rx : exists S k, ul_order u (um_sn_field_length s) (um_tx_next s) S k /\ head_at s S k;
}.

Lemma ul_order_fresh u len x S S' : ul_order u len x S 0 -> ul_order u len x S' 0.
Proof. intros [H1 H2 H3 H4 H5 [H|(H & _)]]; [|lia]. split; try done. by left. Qed.

Lemma whole_queue_head s S rest : um_wf s -> um_tx_list s = rest -> Forall (fun y => whole y = true) rest -> head_at s S 0.
Proof.
  intros Hwf Ht Hw. unfold head_at. rewrite Ht. destruct rest as [|y rest]; [done|]. apply list.Forall_cons in Hw as [Hy _]. unfold whole in Hy. apply andb_true_iff in Hy as [Hf _].
  destruct (head_live s y rest Hwf Ht) as (t & _ & (_ & _ & _ & Hi & _) & _). pose proof (proj1 Hi Hf). split; [done|]. congruence.
Qed.

(** A transmission opportunity moves the receiver with the sender. *)
Lemma ul_sent s u s' buffer n m :
  ul_linked s u -> um_wf s' -> keeps_data (um_heap s) (um_heap s') -> um_sn_field_length s' = um_sn_field_length s -> um_sent s s' buffer n ->
  ul_mem u = replicate m true -> (4 <= m)%nat ->
  n <> 0 /\ exists u' m', um_ul_pdu u false (u8 <$> take (Z.to_nat n) buffer) = Ok u' /\ ul_linked s' u' /\ ul_mem u' = replicate m' true /\ (m - 4 <= m')%nat /\
    ulData u' ++ queue_data s' = ulData u ++ queue_data s /\ sumZ seg_size (um_tx_list s') < sumZ seg_size (um_tx_list s).
Proof.
  intros [Hwf Hby (S0 & k & Ho & Hhead)] Hwf' Hkeep Hlen' (x & rest & t & a & Ht & Hs & Ea & Eo & Hcar & _ & _ & Hrest) Hmem Hm.
  destruct (head_live s x rest Hwf Ht) as (t0 & Ht0 & Hokx & Hdata & Hbound). rewrite Hs in Ht0. injection Ht0 as <-.
  unfold head_at in Hhead. rewrite Ht in Hhead. destruct Hhead as [-> Hcont].
  assert (Hqx : queue_data s = sdu_data t :: ((fun y => addr_data (um_heap s) (seg_sdu y)) <$> rest)) by (unfold queue_data; rewrite Ht, fmap_cons, Hdata; done).
  rewrite Hqx in Hby. apply list.Forall_cons in Hby as [Hbt Hbr]. pose proof (uo_conf _ _ _ _ _ Ho) as Hcu.
  destruct (carried_bytes s u t _ a buffer n Hcar (umw_conf s Hwf) Hcu Hbt Hbound) as [Hn0 Hpdu]. split; [done|]. rewrite Hpdu.
  assert (Hok : seg_ok t a) by apply Hcar. destruct (header_part (um_sn_field_length s) (um_tx_next s) t a Hok) as [_ Hwh].
  assert (Hk0 : seg_so x = 0 <-> seg_is_first x = true) by (destruct Hokx as (_ & _ & _ & H & _); tauto).
  assert (Ho' : ul_order u (um_sn_field_length s) (um_tx_next s) (sdu_data t) (seg_so a)).
  { rewrite Eo. destruct (seg_is_first x) eqn:Ef; [|by rewrite <- Hdata, <- Hcont]. rewrite (proj2 Hk0 eq_refl) in *. by eapply ul_order_fresh. }
  destruct Hok as (H1 & Hapos & Hafit & Hai & Hal). pose proof (umw_queue s Hwf) as Hq. rewrite Ht in Hq. destruct Hq as (_ & _ & Hwr).
  assert (Hnext : cmod (um_tx_next s + 1) (um_sn_modulus s) = next_sn u (um_tx_next s)).
  { pose proof (umw_next s Hwf) as Hr. unfold um_sn_range in Hr. rewrite cmod_pos by lia. unfold next_sn. by rewrite (ul_modulus s u (umw_conf s Hwf) Hcu). }
  destruct (seg_is_last a) eqn:El.
  - destruct Hrest as (Ht' & Esz & Enext). pose proof (queue_rest s s' rest Hwf' Hkeep (eq_sym Ht')) as Hq'. assert (Eend : seg_so a + seg_size a = Z.of_nat (length (sdu_data t))) by tauto.
    assert (Hsum : sumZ seg_size (um_tx_list s') < sumZ seg_size (um_tx_list s)) by (rewrite Ht, Ht'; cbn; lia).
    assert (Hlink : forall u', (forall S', ul_order u' (um_sn_field_length s) (um_tx_next s') S' 0) -> ul_linked s' u').
    { intros u' Hu. split; [done|by rewrite Hq'|]. exists [], 0. rewrite Hlen'. split; [apply Hu|by apply (whole_queue_head s' [] rest)]. }
    destruct (seg_is_first a) eqn:Ef.
    + assert (E0 : seg_so a = 0) by tauto. rewrite E0 in *. assert (Ep : part_pdu (um_sn_field_length s) (um_tx_next s) (sdu_data t) 0 (seg_size a) = 0 :: sdu_data t).
      { unfold part_pdu, um_header. rewrite <- Hwh. unfold whole. rewrite Ef, El. cbn [andb app]. f_equal. unfold part_bytes. rewrite drop_0. apply take_ge. lia. }
      rewrite Ep. destruct (whole_received u _ _ (sdu_data t) _ m _ Ho' Hmem ltac:(lia)) as (u' & E & Hd & Hm' & Hu). exists u', (m - 2)%nat.
      split; [exact E|]. split; [apply Hlink; intros S'; rewrite Enext; by eapply ul_order_fresh|]. split; [done|]. split; [lia|]. split; [by rewrite Hd, Hq', Hqx, <- app_assoc|done].
    + destruct (part_received u _ _ (sdu_data t) (seg_so a) (seg_size a) m Ho' Hapos Hafit Hbound) as (u' & m' & E & Hm' & Hle & Hres); [rewrite <- Hwh; unfold whole; by rewrite Ef|done|lia|].
      rewrite (proj2 (Z.eqb_eq _ _) Eend) in Hres. destruct Hres as [Hd Hu]. exists u', m'. split; [exact E|]. split; [apply Hlink; rewrite Enext, Hnext; exact Hu|]. split; [done|].
      split; [lia|]. split; [by rewrite Hd, Hq', Hqx, <- app_assoc|done].
  - destruct Hrest as (b & Ht' & Eb & Ebo & Ebs & Enext). pose proof (queue_rest s s' (b :: rest) Hwf' Hkeep (eq_sym Ht')) as Hq'. rewrite fmap_cons, Eb, Hdata in Hq'.
    assert (Eend : seg_so a + seg_size a <> Z.of_nat (length (sdu_data t))) by (intros E; apply Hal in E; discriminate).
    destruct (part_received u _ _ (sdu_data t) (seg_so a) (seg_size a) m Ho' Hapos Hafit Hbound) as (u' & m' & E & Hm' & Hle & Hres);
      [rewrite <- Hwh; unfold whole; by rewrite El, andb_false_r|done|lia|].
    rewrite (proj2 (Z.eqb_neq _ _) Eend) in Hres. destruct Hres as [Hd Hu]. exists u', m'. split; [exact E|]. split; [|split; [done|split; [lia|split]]].
    + split; [done|rewrite Hq'; by apply Forall_cons_2|]. exists (sdu_data t), (seg_so b). rewrite Hlen', Enext, Ebo. split; [exact Hu|]. unfold head_at. rewrite Ht', Ebo. split; [done|]. intros _.
      destruct (head_live s' b rest Hwf' Ht') as (t' & Hs' & _ & Hd' & _). rewrite Hd'. rewrite Eb in Hs'. destruct (Hkeep _ _ Hs') as (t1 & Ht1 & ->). rewrite Hs in Ht1. by injection Ht1 as ->.
    + by rewrite Hd, Hq', Hqx.
    + rewrite Ht, Ht'. cbn. lia.
Qed.

(** ** Runs *)

(** The UE, the O-DU, and the SDUs that the UE accepted; the PDU of an opportunity reaches the O-DU. *)
Definition ul_state : Type := nr_rlc_entity_um_t * RlcUmUl * list (list Z).

Definition ul_act (a : um_action) (st : ul_state) : res ul_state :=
  let '(s, u, acc) := st in
  match a with
  | Offer sdu id =>
    let* s' := nr_rlc_entity_um_recv_sdu s sdu id in
    Ok (s', u, if um_tx_size s + Z.of_nat (length sdu) <=? um_tx_maxsize s then acc ++ [sdu] else acc)
  | Opportunity size =>
    let* (s, buffer, n) := nr_rlc_entity_um_generate_pdu s (replicate size 0) in
    if n =? 0 then Ok (s, u, acc)
    else let* u := rlcUmmProcessPdus u false [u8 <$> take (Z.to_nat n) buffer] in Ok (s, u, acc)
  end.

Fixpoint ul_run (acts : list um_action) (st : ul_state) : res ul_state :=
  match acts with [] => Ok st | a :: acts => let* st := ul_act a st in ul_run acts st end.

Definition ul_allowed (a : um_action) : Prop :=
  match a with
  | Offer sdu _ => 0 < Z.of_nat (length sdu) <= NR_SDU_MAX /\ Forall is_byte sdu
  | Opportunity size => size <> 2%nat
  end.

Lemma ul_offer s u acc b id :
  ul_linked s u -> 0 < Z.of_nat (length b) <= NR_SDU_MAX -> Forall is_byte b ->
  exists s' acc', ul_act (Offer b id) (s, u, acc) = Ok (s', u, acc') /\ ul_linked s' u /\
    ((acc' = acc /\ queue_data s' = queue_data s) \/ (acc' = acc ++ [b] /\ queue_data s' = queue_data s ++ [b])).
Proof.
  intros Hl Hb Hby. pose proof Hl as [Hwf Hq0 (S & k & Ho & Hhead)]. destruct (um_recv_sdu_spec s b id Hwf Hb) as (s' & E & Hwf' & H). unfold ul_act. rewrite E. cbn [rbind].
  destruct (_ <=? _); [|subst s'; exists s, acc; split; [done|]; split; [done|by left]].
  destruct H as (x & t & Ht & Hw & Hs & Hd & _). destruct (offer_keeps s b id s' (umw_segs s Hwf) E) as (L1 & L2 & Hheap).
  assert (Hdata : forall y, y ∈ um_tx_list s -> addr_data (um_heap s') (seg_sdu y) = addr_data (um_heap s) (seg_sdu y)).
  { intros y Hy. destruct (segs_live _ _ (umw_segs s Hwf) y Hy) as (v & Hv & _). unfold addr_data. by rewrite Hv, (Hheap _ _ Hv). }
  assert (Hq : queue_data s' = queue_data s ++ [b]).
  { unfold queue_data. rewrite Ht, fmap_app. f_equal; [|cbn; unfold addr_data; by rewrite Hs, Hd]. apply list_fmap_ext. intros i y Hy. apply Hdata. by eapply list_elem_of_lookup_2. }
  exists s', (acc ++ [b]). split; [done|]. split; [|by right]. split; [done|rewrite Hq; apply list.Forall_app; split; [done|by apply Forall_singleton]|].
  rewrite L1, L2. exists S, k. split; [done|]. unfold head_at in *. rewrite Ht. destruct (um_tx_list s) as [|y l]; cbn [app].
  - subst k. apply (whole_queue_head s' S [x] Hwf') in Ht as Hh; [|by apply Forall_singleton]. unfold head_at in Hh. by rewrite Ht in Hh.
  - destruct Hhead as [Hk Hc]. split; [done|]. intros Hf. rewrite Hdata by left. by apply Hc.
Qed.

Lemma ul_opportunity s u acc size m :
  ul_linked s u -> size <> 2%nat -> ul_mem u = replicate m true -> (4 <= m)%nat ->
  exists s' u' m', ul_act (Opportunity size) (s, u, acc) = Ok (s', u', acc) /\ ul_linked s' u' /\ ul_mem u' = replicate m' true /\ (m - 4 <= m')%nat /\
    ulData u' ++ queue_data s' = ulData u ++ queue_data s /\
    ((5 <= size)%nat -> um_tx_list s <> [] -> sumZ seg_size (um_tx_list s') < sumZ seg_size (um_tx_list s)).
Proof.
  intros Hl Hne Hmem Hm. pose proof (ul_wf _ _ Hl) as Hwf. destruct (um_generate_spec s (replicate size 0) Hwf) as (s' & b & n & E & Hwf' & H); [rewrite length_replicate; lia|].
  unfold ul_act. rewrite E. cbn [rbind]. rewrite length_replicate in H. destruct (um_can_send s (Z.of_nat size)) eqn:Hcan.
  - destruct H as (Hsent & _). destruct (keeps_generate _ _ _ _ _ E) as [Hk Hlen]. destruct (ul_sent s u s' b n m Hl Hwf' Hk Hlen Hsent Hmem Hm) as (Hn & u' & m' & Eu & H1 & H2 & H3 & H4 & H5).
    exists s', u', m'. rewrite (proj2 (Z.eqb_neq _ _) Hn). unfold rlcUmmProcessPdus. cbn [take RGU_MAX_PDU um_ul_loop]. rewrite Eu. by split_and!.
  - destruct H as (-> & -> & ->). exists s, u, m. split_and!; try done; [lia|]. intros Hs Ht. unfold um_can_send in Hcan. destruct (um_tx_list s) as [|x l]; [done|].
    pose proof (um_header_size_pos s x). lia.
Qed.

(** What was delivered, then what is queued, is what was accepted; there is memory for [j] PDUs. *)
Definition ul_ok (j : nat) (st : ul_state) : Prop :=
  let '(s, u, acc) := st in
  ul_linked s u /\ ulData u ++ queue_data s = acc /\ exists m, ul_mem u = replicate m true /\ (4 * j <= m)%nat.

Lemma ul_act_ok j a st : ul_allowed a -> ul_ok (S j) st -> exists st', ul_act a st = Ok st' /\ ul_ok j st'.
Proof.
  destruct st as [[s u] acc]. intros Ha (Hl & Hev & m & Hm & Hj). destruct a as [b id|size]; cbn in Ha.
  - destruct (ul_offer s u acc b id Hl) as (s' & acc' & E & Hl' & H); [apply Ha|apply Ha|]. exists (s', u, acc'). split; [done|]. split; [done|].
    split; [|exists m; split; [done|lia]]. destruct H as [(-> & ->)|(-> & ->)]; [done|]. by rewrite app_assoc, Hev.
  - destruct (ul_opportunity s u acc size m Hl Ha Hm ltac:(lia)) as (s' & u' & m' & E & Hl' & Hm' & Hle & Hq & _). exists (s', u', acc). split; [done|]. split; [done|].
    split; [by rewrite Hq|]. exists m'. split; [done|lia].
Qed.

Lemma ul_run_ok j acts : forall st, Forall ul_allowed acts -> ul_ok (length acts + j) st -> exists st', ul_run acts st = Ok st' /\ ul_ok j st'.
Proof.
  induction acts as [|a acts IH]; intros st Hf Hst; [by exists st|]. apply list.Forall_cons in Hf as [Ha Hf]. cbn [ul_run].
  destruct (ul_act_ok (length acts + j) a st Ha Hst) as (st1 & -> & H1). by apply IH.
Qed.

Lemma new_ul_ok rx_max tx_max tr L s m j :
  L = 1 \/ L = 2 -> new_nr_rlc_entity_um rx_max tx_max tr (6 * L) = Ok s -> (4 * j <= m)%nat -> ul_ok j (s, um_ul_config L (replicate m true), []).
Proof.
  intros HL Es Hm. pose proof (new_um_wf _ _ _ _ _ Es) as Hws.
  assert (Hs : um_tx_list s = [] /\ um_tx_next s = 0 /\ um_sn_field_length s = 6 * L) by (unfold new_nr_rlc_entity_um in Es; destruct (_ || _); [|done]; by injection Es as <-).
  destruct Hs as (H1 & H2 & H3). split; [|split; [unfold queue_data; by rewrite H1|by exists m]].
  split; [done|unfold queue_data; rewrite H1; constructor|]. exists [], 0. split; [|unfold head_at; by rewrite H1]. rewrite H2, H3.
  destruct HL as [-> | ->]; (split; [first [by left | by right]|vm_compute; by split|done|done|done|by left]).
Qed.

(** C18. Unacknowledged mode from a UE of OAI to the O-DU. A new entity of the UE feeds a bearer
    of the O-DU that was just configured with the same SN length (6 or 12 bits); the channel keeps
    the order and loses nothing, and in the O-DU memory can be allocated whenever it is needed.
    For every run of SDUs of 1 to NR_SDU_MAX bytes offered to the UE and of opportunities of sizes
    other than two bytes (with two the UE can lose an SDU, [um_small_buffer_loses_sdu]): no call
    fails on either side, no memory is used after it was freed, and the SDUs that the O-DU sent
    upwards, followed by the ones waiting in the UE, are the accepted ones, in order, over
    segmentation and wrap-around of the SNs; the O-DU keeps a reception buffer only for an SDU
    that is partly received and has not started its reassembly timer. Another opportunity, of five
    bytes or more, does not fail and makes progress if something waits; smaller ones need not. *)
Theorem odu_um_uplink rx_max tx_max tr L s0 acts m :
  L = 1 \/ L = 2 -> new_nr_rlc_entity_um rx_max tx_max tr (6 * L) = Ok s0 -> Forall ul_allowed acts -> (4 * (length acts + 1) <= m)%nat ->
  exists s u acc, ul_run acts (s0, um_ul_config L (replicate m true), []) = Ok (s, u, acc) /\ ulData u ++ queue_data s = acc /\
    (length (recBufLst u) <= 1)%nat /\ (um_tx_list s = [] -> recBufLst u = []) /\ reAsmblTmr u = false /\
    forall size, (5 <= size)%nat -> exists s' u', ul_act (Opportunity size) (s, u, acc) = Ok (s', u', acc) /\
      (um_tx_list s <> [] -> sumZ seg_size (um_tx_list s') < sumZ seg_size (um_tx_list s)).
Proof.
  intros HL Es Hf Hm. destruct (ul_run_ok 1 acts _ Hf (new_ul_ok rx_max tx_max tr L s0 m _ HL Es Hm)) as ([[s u] acc] & E & Hl & Hev & m' & Hm' & Hj).
  exists s, u, acc. split; [exact E|]. split; [exact Hev|]. destruct (ul_rx _ _ Hl) as (S & k & Ho & Hh). split; [|split; [|split; [apply Ho|]]].
  - destruct (uo_rec _ _ _ _ _ Ho) as [(_ & -> & _)|(_ & _ & a & b & -> & _)]; cbn; lia.
  - intros Ht. unfold head_at in Hh. rewrite Ht in Hh. subst k. destruct (uo_rec _ _ _ _ _ Ho) as [(_ & -> & _)|(Hk & _)]; [done|lia].
  - intros size Hs. destruct (ul_opportunity s u acc size m' Hl ltac:(lia) Hm' ltac:(lia)) as (s' & u' & _ & E' & _ & _ & _ & _ & Hp). exists s', u'. split; [exact E'|]. by apply Hp.
Qed.

Definition ul_example : list um_action := [Offer (seqZ 0 20) 0; Offer [7; 8] 1; Opportunity 12; Opportunity 10; Opportunity 20; Opportunity 9].

Lemma odu_um_uplink_witness :
  exists s0 s u acc, new_nr_rlc_entity_um 1000 1000 35 6 = Ok s0 /\ ul_run ul_example (s0, um_ul_config 1 (replicate 28 true), []) = Ok (s, u, acc) /\
    ulData u ++ queue_data s = acc /\ ulData u = [seqZ 0 20; [7; 8]] /\ queue_data s = [] /\ vrUr u = 1.
Proof.
  assert (Ha : Forall ul_allowed ul_example).
  { repeat (apply Forall_cons_2; [first [split; [vm_compute; intuition discriminate|repeat (apply Forall_cons_2; [vm_compute; intuition discriminate|]); apply Forall_nil_2]|discriminate]|]). apply Forall_nil_2. }
  eexists. destruct (odu_um_uplink 1000 1000 35 1 _ ul_example 28 (or_introl eq_refl) eq_refl Ha ltac:(vm_compute; lia)) as (s & u & acc & E & H & _).
  exists s, u, acc. split; [reflexivity|]. split; [exact E|]. split; [exact H|]. vm_compute in E. injection E as <- <- _. vm_compute. by split_and!.
Defined.
