(* ===== verification/Findings.v ===== *)
(** Executions of the model that show behaviours the code, its comments or its
    configuration do not mean to have.  Each theorem runs the operations of the
    component on concrete inputs and states what comes out. *)

From S2P Require Import Prelude.
From S2P Require Import RlcPdu.
From S2P Require Import RlcSdu.
From S2P Require Import RlcAm.
From S2P Require Import RlcUm.
From S2P Require Import RlcEntity.
From S2P Require Import Pdcp.
From S2P Require Import PdcpProps.
From S2P Require Import Sdap.
From S2P Require Import Asn1Utils.
From S2P Require Import NasStream.
From S2P Require Import Crc.
From S2P Require Import RlcApi.
From S2P Require Import PdcpQueue.
From S2P Require Import PdcpApi.
From S2P Require Import F1apIds.
From S2P Require Import Nnsf.
From S2P Require Import NrCommon.
From S2P Require Import GtpU.
From S2P Require Import GtpTunnels.
From S2P Require Import N3.
From S2P Require Import NrTbs.

(** ** Acknowledged mode *)

(** Three SDUs of three bytes, each sent as a whole and waiting for its status. *)
Fixpoint send_sdus (ids : list Z) (e : nr_rlc_entity_am_t) : res nr_rlc_entity_am_t :=
  match ids with
  | [] => Ok e
  | i :: tl =>
    let* e := nr_rlc_entity_am_recv_sdu e [1; 2; 3] i in
    let* (e, _, _) := nr_rlc_entity_am_generate_pdu e (repeat 0 10) in
    send_sdus tl e
  end.

Definition three_sent : res nr_rlc_entity_am_t :=
  let* e := new_nr_rlc_entity_am 100000 100000 45 35 0 4 (-1) 3 12 in send_sdus [0; 1; 2] e.

Definition next_pdu (e : nr_rlc_entity_am_t) : res nr_rlc_entity_am_t :=
  let* (e, _, _) := nr_rlc_entity_am_generate_pdu e (repeat 0 10) in Ok e.

(** When a segment is acknowledged while a NACK is processed, the code compares the
    segment after it with [wait_end]: the end pointer of a list that is not empty
    becomes NULL, and a later append dereferences it. *)
Theorem wait_end_lost :
  (let* e := three_sent in
   let* e := nr_rlc_entity_am_recv_pdu e [0; 2; 128; 0; 8; 0; 16] in
   let* e := next_pdu e in
   let* e := nr_rlc_entity_am_recv_pdu e [0; 2; 128; 0; 16] in
   next_pdu e) = Fault NullDeref.
Proof. vm_compute. reflexivity. Qed.

(** The shortcut that appends the rest of the retransmit list does not advance the end
    of the new list, which is cut again at the end of the function: the segment of SN 1
    is in no list any more, so it is never sent again, yet it is counted in the
    buffer status and in the transmit buffer. *)
Theorem retransmit_list_lost :
  exists e, (let* e := three_sent in
   let* e := nr_rlc_entity_am_recv_pdu e [0; 3; 128; 0; 16] in
   nr_rlc_entity_am_recv_pdu e [0; 1; 128; 0; 20; 0; 10; 0; 20]) = Ok e /\
  retransmit_list e = [] /\ wait_list e = [] /\ bs_retx_size (bstatus e) = 5 /\ tx_size e = 3.
Proof. eexists. split; [vm_compute; reflexivity|]. repeat split. Qed.

(** A last segment at offset 100 followed by a complete SDU of five bytes under the same
    SN: reassembly copies 100 bytes from 95 bytes before the data of that segment. *)
Theorem reassembly_out_of_range :
  (let* e := three_sent in
   let* e := nr_rlc_entity_am_recv_pdu e [176; 0; 0; 100; 1; 1; 1; 1; 1] in
   nr_rlc_entity_am_recv_pdu e [128; 0; 1; 2; 3; 4; 5]) = Fault OutOfBounds.
Proof. vm_compute. reflexivity. Qed.

(** A status PDU that is cut after its first NACK leaves the wait list half updated. *)
Theorem truncated_status_corrupts :
  (let* e := three_sent in
   nr_rlc_entity_am_recv_pdu e [0; 2; 128; 0; 8]) = Fault Inconsistent.
Proof. vm_compute. reflexivity. Qed.

(** "do we need to check for cur == NULL?", asks [check_t_poll_retransmit].  It has to: a
    poll in a segment that is not the last one of its SDU sets POLL_SN to the SN before
    that SDU, so an acknowledgement of everything does not stop the timer.  Here SDU 0 is
    sent in two PDUs, the first with a poll (pollByte is 5), SDU 1 is discarded, SN 0 is
    acknowledged, and t-PollRetransmit expires with an empty wait list. *)
Theorem poll_retransmit_null :
  (let* e := new_nr_rlc_entity_am 100000 100000 45 35 0 (-1) 5 3 12 in
   let* e := nr_rlc_entity_am_set_time e 1 in
   let* e := nr_rlc_entity_am_recv_sdu e (replicate 8 1) 0 in
   let* (e, _, _) := nr_rlc_entity_am_generate_pdu e (repeat 0 7) in
   let* e := nr_rlc_entity_am_recv_sdu e (replicate 8 2) 1 in
   let* (e, _, _) := nr_rlc_entity_am_generate_pdu e (repeat 0 7) in
   let* e := nr_rlc_entity_am_discard_sdu e 1 in
   let* e := nr_rlc_entity_am_recv_pdu e [0; 1; 0] in
   nr_rlc_entity_am_set_time e 100) = Fault NullDeref.
Proof. vm_compute. reflexivity. Qed.

(** ** Unacknowledged mode *)

Definition um_one (size : nat) : res nr_rlc_entity_um_t :=
  let* e := new_nr_rlc_entity_um 1000 1000 50 12 in
  nr_rlc_entity_um_recv_sdu e (replicate size 1) 0.

(** Discarding an SDU does not give its bytes back to the transmit buffer. *)
Theorem um_discard_keeps_tx_size :
  exists e, (let* e := um_one 100 in nr_rlc_entity_um_discard_sdu e 0) = Ok e /\
  um_tx_list e = [] /\ um_tx_size e = 100.
Proof. eexists. split; [vm_compute; reflexivity|]. repeat split. Qed.

(** A buffer of two bytes passes the test for a header of one byte and a byte of data,
    but the header of a first segment takes two: the SDU is taken off the list and
    nothing is sent. *)
Theorem um_small_buffer_loses_sdu :
  exists e, (let* e := um_one 100 in nr_rlc_entity_um_generate_pdu e [0; 0]) = Ok (e, [0; 0], 0) /\
  um_tx_list e = [] /\ um_tx_size e = 100.
Proof. eexists. split; [vm_compute; reflexivity|]. repeat split. Qed.

(** ** PDCP *)

Definition no_ctr (k t d : list Z) : list Z := d.
Definition zero_mac (k d : list Z) : list Z := replicate 16 0.

(** An entity with integrity protection by NIA2, and no ciphering. *)
Definition protected_pdcp : res nr_pdcp_entity_t :=
  new_nr_pdcp_entity NR_PDCP_DRB_AM true 1 1 0 0 0 12 100 (-1) 0 2
    (Some (replicate 16 0)) (Some (replicate 16 0)).

(** A PDU whose MAC-I is wrong is delivered like any other: the [return] after
    "discard NR PDU, integrity failed" is commented out. *)
Theorem integrity_failure_delivered :
  exists e, (let* e := protected_pdcp in
             nr_pdcp_entity_recv_pdu no_ctr zero_mac e [128; 0; 7; 8; 9; 1; 2; 3; 4]) = Ok e /\
  p_events e = [pdcp_deliver_sdu [7; 8; 9]].
Proof. eexists. split; [vm_compute; reflexivity|]. reflexivity. Qed.

(** At the start, an SN of the upper half is taken for one of the previous hyperframe:
    HFN 0 minus 1 wraps, the COUNT is close to 2^32, and RX_NEXT follows it. *)
Theorem hfn_underflow :
  exists e, nr_pdcp_entity_recv_pdu no_ctr zero_mac (plain_pdcp true) [139; 184; 7] = Ok e /\
  p_rx_next e = 2 ^ 32 - 4096 + 3000 + 1 /\ p_events e = [].
Proof. eexists. split; [vm_compute; reflexivity|]. repeat split. Qed.

(** The size of the receive list counts the MAC-I when a PDU is stored and not when it
    is delivered, so it grows by four bytes per PDU. *)
Theorem pdcp_rx_size_drifts :
  exists e, (let* e := protected_pdcp in
             nr_pdcp_entity_recv_pdu no_ctr zero_mac e [128; 0; 7; 8; 9; 0; 0; 0; 0]) = Ok e /\
  p_rx_list e = [] /\ p_rx_size e = 4.
Proof. eexists. split; [vm_compute; reflexivity|]. repeat split. Qed.

(** A new key given with algorithm -1 ("keep the current algorithm") is stored, but the
    context of the running algorithm still holds the old one. *)
Theorem new_key_not_used :
  exists e, (let* e := protected_pdcp in
             nr_pdcp_entity_set_security e (-1) (Some (replicate 16 7)) (-1) None) = Ok e /\
  p_integrity_key e = replicate 16 7 /\ p_integrity_context e = Some (replicate 16 0).
Proof. eexists. split; [vm_compute; reflexivity|]. repeat split. Qed.

(** ** RRC enumerations *)

(** A comma is missing before the last entry of the table: the value 65536 decodes as
    65535 and "infinity" as 0. *)
Theorem poll_pdu_infinity : decode_poll_pdu 22 = Ok 65535 /\ decode_poll_pdu 23 = Ok 0.
Proof. by vm_compute. Qed.

(** With the value decoded for "infinity" every new PDU is polled. *)
Theorem poll_pdu_infinity_polls_always e seg :
  poll_pdu e = 0 -> 0 <= pdu_without_poll e -> snd (poll_for_new_pdu e seg) = true.
Proof.
  intros H1 H2. unfold poll_for_new_pdu, apply_force_poll. cbn. rewrite H1.
  replace (pdu_without_poll e + 1 >=? 0) with true by (symmetry; apply Z.geb_le; lia).
  cbn. by destruct (force_poll e).
Qed.

(** The table of pollByte is in bytes already; multiplied by 1024 once more, the
    entries from 3000 KB on overflow a 32-bit integer (8 MB becomes 0 where signed
    arithmetic wraps). *)
Theorem poll_byte_scaled_twice :
  decode_poll_byte 0 = Ok (1024 * 1024) /\ decode_poll_byte 18 = Ok (1024 * 1024 * 2000) /\
  decode_poll_byte 19 = Ok (1024 * 1024 * 3000 - 2 ^ 32) /\
  decode_poll_byte 28 = Ok 0.
Proof. by vm_compute. Qed.

(** ** SDAP *)

Definition session (rnti id : Z) : nr_sdap_entity_t :=
  mk_sdap rnti 0 id (replicate 64 (mk_qfi2drb 0 false)).

(** A second PDU session of a UE is never found: the search stops at the RNTI. *)
Theorem second_session_hidden :
  nr_sdap_get_entity [session 1 11; session 1 10] 1 10 = None.
Proof. by vm_compute. Qed.

(** Behind the head of the list, deletion unlinks the last entity when the RNTI is
    absent and nothing when it is there. *)
Theorem delete_inverted :
  delete_nr_sdap_entity [session 1 10; session 2 10] 2 = Ok [session 1 10; session 2 10] /\
  delete_nr_sdap_entity [session 1 10; session 2 10] 3 = Ok [session 1 10].
Proof. by vm_compute. Qed.

(** With an empty list, or a single entity of another UE, deletion dereferences NULL. *)
Theorem delete_null :
  delete_nr_sdap_entity [] 1 = Fault NullDeref /\
  delete_nr_sdap_entity [session 1 10] 2 = Fault NullDeref.
Proof. by vm_compute. Qed.

(** ** EEA1 and EIA1 *)

(** A message of 15 bytes, 120 bits, is accessed behind its end. *)
Theorem eea1_past_the_end :
  nas_stream_encrypt_eea1 eea1_set_3 (repeat 0 15) = Fault OutOfBounds.
Proof. by vm_compute. Qed.

(** The integrity of an empty message reads before it. *)
Theorem eia1_empty_message :
  nas_stream_encrypt_eia1 (eia1_set_1 <| blength := 0 |>) = Fault OutOfBounds.
Proof. by vm_compute. Qed.

(** ** CRC *)

(** A block of unknown type is accepted whatever it holds. *)
Theorem check_crc_unknown_type : check_crc crcTableInit [1; 2; 3] 24 0 4 = Ok true.
Proof. by vm_compute. Qed.

(** ** PDCP configuration *)

Definition drb_request (id : Z) (a : cnAssociation_t) : NR_DRB_ToAddMod :=
  mk_drb_mod id (Some 0) (Some 0) (Some 15) None false false (Some a).

Definition configure_drbs (st : pdcp_module) (drbs : list NR_DRB_ToAddMod) (bearers : list NR_RLC_BearerConfig)
  : res pdcp_module :=
  nr_rrc_pdcp_config_asn1_req st (mk_ctxt 0 true 0 17 0 false) None (Some drbs) 0 None None None None false (Some bearers).

(** The identity of a DRB is from 1 to 32 and the array has five elements: with identity 6
    the element behind it is read before anything checks the identity. *)
Theorem drb_id_unchecked :
  configure_drbs sample_pdcp [drb_request 6 (eps_BearerIdentity 10)] [RlcApi.default_drb] = Fault OutOfBounds.
Proof. vm_compute. reflexivity. Qed.

(** A DRB with an SDAP configuration: the debug message, when it is enabled, dereferences a
    pointer that is null; without it the DRB is added. *)
Theorem debug_message_null :
  let drb := drb_request 2 (sdap_Config (Some (mk_sdap_config 10 true true))) in
  configure_drbs (sample_pdcp <| log_d := true |>) [drb] [RlcApi.default_drb] = Fault NullDeref /\
  exists st, configure_drbs sample_pdcp [drb] [RlcApi.default_drb] = Ok st.
Proof. split; [vm_compute; reflexivity|]. eexists. vm_compute. reflexivity. Qed.

(** The RLC configuration of a DRB is taken at the index of the DRB in its own list: with two
    DRBs and one new RLC bearer (the other is configured already) the list is read past its
    end. *)
Theorem rlc_bearer_index :
  configure_drbs sample_pdcp [drb_request 2 (eps_BearerIdentity 10); drb_request 3 (eps_BearerIdentity 10)]
    [RlcApi.default_drb] = Fault OutOfBounds.
Proof. vm_compute. reflexivity. Qed.

(** ** UE identities of F1 *)

Definition f1ap_run (st : f1ap_state) (ops : list (f1ap_state -> res (f1ap_state * Z))) : res f1ap_state :=
  fold_left (fun r op => let* st := r in let* (st, _) := op st in Ok st) ops (Ok st).

(** Removing a UE that is not there counts: after one UE was added, removed, and removed once
    more, the number of UEs is 65535. *)
Theorem num_ues_underflow :
  exists st, (let* st := createF1inst f1ap_example CUtype 0 7 in
    f1ap_run st [fun st => f1ap_add_osc_ue st CUtype 0 100 1; fun st => f1ap_remove_ue st CUtype 0 100;
                 fun st => f1ap_remove_ue st CUtype 0 100]) = Ok st /\
    num_ues <$> cu_inst st 0 = Some 65535.
Proof. eexists. split; [vm_compute; reflexivity|]. reflexivity. Qed.

(** A DU that is told an identity of the CU which a released UE had: the entry of the released
    UE is found first, and the search gives RNTI 0 instead of 200. *)
Theorem released_ue_shadows :
  (let* st := createF1inst f1ap_example DUtype 0 7 in
   let* st := f1ap_run st [fun st => f1ap_add_ue st DUtype 0 100; fun st => f1ap_add_ue st DUtype 0 200;
                           fun st => f1ap_du_add_cu_ue_id st 0 100 1; fun st => f1ap_remove_ue st DUtype 0 100;
                           fun st => f1ap_du_add_cu_ue_id st 0 200 1] in
   f1ap_get_rnti_by_cu_id st DUtype 0 1) = Ok 0.
Proof. vm_compute. reflexivity. Qed.

(** ** Selection of an AMF *)

(** An AMF set has ten bits, the parameter eight: with set 260 the AMF of set 4 is taken. *)
Theorem amf_set_truncated :
  exists a, ngap_gNB_nnsf_select_amf_by_amf_setid nnsf_example NGAP_RRC_CAUSE_MO_SIGNALLING 0 260 = Ok (Some a) /\
    amf_assoc_id a = 1.
Proof. eexists. split; [vm_compute; reflexivity|]. reflexivity. Qed.

(** An AMF that only permits emergency sessions and mobile terminated services is taken for a
    voice call. *)
Theorem overload_lets_calls_through :
  amf_available NGAP_RRC_CAUSE_MO_VOICECALL (mk_amf 1 [] 10 NGAP_OVERLOAD_ONLY_EMERGENCY_AND_MT NGAP_GNB_OVERLOAD) = true.
Proof. reflexivity. Qed.

(** The only AMF, connected, with relative capacity 0, is never selected. *)
Theorem zero_capacity_refused :
  select_for_first_req
    (mk_ngap_instance [mk_amf 1 [mk_guami [mk_plmn 208 93] [1] [4] [0]] 0 NGAP_NO_OVERLOAD NGAP_GNB_STATE_CONNECTED]
       ∅ [208; 0; 0; 0; 0; 0] [93; 0; 0; 0; 0; 0])
    (mk_first_req 7 0 NGAP_RRC_CAUSE_MO_DATA None None) = Ok None.
Proof. vm_compute. reflexivity. Qed.

(** ** Bands *)

(** The row of an FR2 band is computed and the row before it is used: 32 blocks at 120 kHz
    are not found. *)
Theorem fr2_row_unused : get_supported_band_index 3 257 32 = Ok (-1) /\ get_supported_band_index 4 257 32 = Ok 0.
Proof. split; vm_compute; reflexivity. Qed.

(** Band 1 is the first entry of the table and is refused. *)
Theorem band_1_refused : get_nr_table_idx 1 0 = Exit /\ get_nr_table_idx 2 0 = Ok 1.
Proof. split; vm_compute; reflexivity. Qed.

(** The limits of the table of subband sizes: 72 and 144 blocks get the size of the next row,
    275 ends the program. *)
Theorem subband_limits : get_subband_size 72 0 = Ok 8 /\ get_subband_size 144 0 = Ok 16 /\ get_subband_size 275 0 = Exit.
Proof. repeat split. Qed.

(** The lowest frequency of band 48 gets a number below the first one of the band, which the
    conversion back refuses. *)
Theorem band_48_edge : to_nrarfcn 48 3550000000 0 0 = Ok 636666 /\ from_nrarfcn 48 0 636666 = Exit.
Proof. split; vm_compute; reflexivity. Qed.

(** ** GTP-U *)

(** The answer to an echo request: 4 is added to the length in network order, and the header
    announces 1026 bytes where 6 follow. *)
Theorem echo_response_length :
  exists ret dg, Gtpv1uHandleEchoReq no_sendto 7 [0x32; 1; 0; 4; 0; 0; 0; 0; 0; 1; 0; 0] 2152 1 = Ok (ret, [SendTo 7 1 2152 dg]) /\
    buf_get dg 2 * 256 + buf_get dg 3 = 1026 /\ Z.of_nat (length dg) - 8 = 6.
Proof. eexists _, _. split; [vm_compute; reflexivity|]. split; reflexivity. Qed.

(** A G-PDU of 16 bytes whose extension header has 255 units is handed to SDAP with a negative
    size. *)
Theorem gpdu_negative_size :
  exists g', gtpv1uReceiver no_sendto n3_up 7 []
    [0x34; 255; 0; 8; 0; 0; 0; 49; 0; 0; 0; 0x85; 255; 0; 9; 0] 16 2152 1 =
    Ok (g', [CallBackSDAP 3 0x1234 1 (-1016) [] 9 0 5]).
Proof. eexists. vm_compute. reflexivity. Qed.

(** The release of a PDU session erases its TEID and keeps its bearer: packets still leave on it. *)
Definition released : gtpEndPoints := fst (newGtpuDeleteTunnels n3_up 7 0x1234 [5]).

Theorem released_session_sends :
  te2ue_mapping (get_inst released 7) = ∅ /\
  exists g' dg, gtpv1uSend2 no_sendto released 7 (mk_data_req [1; 2] 2 0 0x1234 5) false false =
    Ok (g', [SendTo 7 (outgoing_ip_addr n3_bearer) 2152 dg]).
Proof. split; [vm_compute; reflexivity|]. eexists _, _. vm_compute. reflexivity. Qed.

(** The bearer that was kept still names its TEID: when another UE gets this TEID, the removal of
    the first UE takes the tunnel of the other one. *)
Theorem released_session_takes_other :
  exists g1 rest, newGtpuCreateTunnel released 7 0x4321 1 1 98 a_remote 2152 Cb_pdcp_data_req [(41, 7)] = Ok (g1, 49, rest) /\
    te_rnti <$> te2ue_mapping (get_inst g1 7) !! 49 = Some 0x4321 /\
    te2ue_mapping (get_inst (fst (newGtpuDeleteAllTunnels g1 7 0x1234)) 7) !! 49 = None.
Proof. eexists _, _. split; [vm_compute; reflexivity|]. split; vm_compute; reflexivity. Qed.

(** A second tunnel for the same UE and bearer keeps the TEID of the first: after the removal of
    the UE, packets on it are still handed over for the UE. *)
Theorem recreated_tunnel_leaks :
  exists g1 rest, newGtpuCreateTunnel n3_up 7 0x1234 1 5 99 a_remote 2152 Cb_pdcp_data_req [(50, 7)] = Ok (g1, 58, rest) /\
    te_rnti <$> te2ue_mapping (get_inst (fst (newGtpuDeleteAllTunnels g1 7 0x1234)) 7) !! 49 = Some 0x1234.
Proof. eexists _, _. split; [vm_compute; reflexivity|]. vm_compute. reflexivity. Qed.

(** The update of an S1-U tunnel to a new RNTI: with tunnels under the old RNTI it creates new
    ones and leaves the old, without them it reads the end of the map. *)
Definition no_resp : create_tunnel_resp := mk_create_resp 0 0 0 [] [] (replicate 20 0) 0.

Theorem update_s1u_inverted :
  (exists g' rest, gtpv1u_update_s1u_tunnel n3_up 7 (mk_create_req 0x4321 [mk_tunnel_req 98 6 0 a_remote]) 0x1234 no_resp [(1, 2)] = Ok (g', 0, rest) /\
     find_bearer (get_inst g' 7) 0x1234 5 = Some n3_bearer) /\
  gtpv1u_update_s1u_tunnel n3_up 7 (mk_create_req 0x4321 [mk_tunnel_req 98 6 0 a_remote]) 0x1111 no_resp [(1, 2)] = Fault OutOfBounds.
Proof.
  split; [|vm_compute; reflexivity]. eexists _, _. split; [vm_compute; reflexivity|]. vm_compute. reflexivity.
Qed.

(** A remote address with both an IPv4 and an IPv6 part ends the program. *)
Theorem dual_stack_exits :
  newGtpuCreateTunnel n3_up 7 0x1234 1 6 99 (mk_tla 160 (replicate 20 1)) 2152 Cb_pdcp_data_req [(50, 7)] = Exit.
Proof. vm_compute. reflexivity. Qed.

(** ** Transport block size *)

(** Over 273 resource blocks with 256-QAM at the highest code rate the product of one layer is
    computed in an [int] and overflows. *)
Theorem tbs_product_overflows :
  nr_compute_tbs 8 9480 273 13 12 0 0 1 = Fault SignedOverflow /\ nr_compute_tbs 8 9480 160 13 12 0 0 1 = Ok 172176.
Proof. split; vm_compute; reflexivity. Qed.
