(* ===== verification/MacFindings.v ===== *)
(** Executions of the MAC PDU routines that show behaviours the code does not mean to have, as in
    the file Findings. *)

From S2P Require Import Prelude.
From S2P Require Import RlcUmLink.
From S2P Require Import RlcUm.
From S2P Require Import RlcEntity.
From S2P Require Import UeManager.
From S2P Require Import Bearers.
From S2P Require Import RlcApi.
From S2P Require Import MacPdu.
From S2P Require Import MacLink.
From S2P Require Import MacUl.
From S2P Require Import MacUlLink.
From S2P Require Import MacRlc.

(** ** The UE *)

(** The length of the sub-headers is counted in a byte: with SDUs of one byte in a block of 380
    bytes the count wraps and the UE goes on behind the block. *)
Theorem header_count_wraps :
  nr_ue_get_sdu drb_req (replicate 200 [7]) busy_sched (replicate 380 0) 380 = Fault OutOfBounds.
Proof. vm_compute. reflexivity. Qed.

(** The room of a block of 40000 bytes is negative in an [int16_t]: neither SDUs nor padding are
    written, and the buffer leaves as it was. *)
Definition idle_sched : ue_sched := busy_sched <| BSR_reporting_active := 0 |>.

Theorem block_of_40000_bytes :
  match nr_ue_get_sdu drb_req [[1; 2; 3]] idle_sched (replicate (Z.to_nat 40000) 0xAA) 40000 with
  | Ok (s, _, buf, has_sdus) => s = [[1; 2; 3]] /\ take 3 buf = [0xAA; 0xAA; 0xAA] /\ has_sdus = false
  | _ => False
  end.
Proof.
  assert (H : (match nr_ue_get_sdu drb_req [[1; 2; 3]] idle_sched (replicate (Z.to_nat 40000) 0xAA) 40000 with
    | Ok (s, _, buf, has_sdus) => Some (s, take 3 buf, has_sdus)
    | _ => None
    end) = Some ([[1; 2; 3]], [0xAA; 0xAA; 0xAA], false)) by (vm_compute; reflexivity).
  destruct (nr_ue_get_sdu _ _ _ _ _) as [[[[s sched] buf] has]| |]; [|done..]. by injection H as -> -> ->.
Qed.

(** A short report in the padding takes the index of the table for long reports, and its lower five
    bits: of 1000 bytes the gNB believes 198. *)
Theorem padding_report_understates :
  exists s sched buf g, nr_ue_get_sdu drb_req [[1; 2; 3; 4; 5]] (idle_sched <| BSR_bytes := [0; 1005; 0; 0; 0; 0; 0; 0] |>) (replicate 10 0) 10 =
      Ok (s, sched, buf, true) /\ BSR_bytes sched = [0; 1000; 0; 0; 0; 0; 0; 0] /\
    nr_process_mac_pdu two_ues 1 buf 10 = Ok (g, 0) /\ estimated_ul_buffer g = 198.
Proof. eexists _, _, _, _. split; [vm_compute; reflexivity|]. split; [reflexivity|]. split; [vm_compute; reflexivity|]. vm_compute. reflexivity. Qed.

(** The length of a long report is fixed before the SDUs are taken: when they empty an LCG, a byte
    of the report is not written, and the gNB gives up the block at what was there. *)
Theorem long_report_stale_byte :
  exists s sched buf g, nr_ue_get_sdu drb_req [[1; 2; 3]] (busy_sched <| BSR_bytes := [30; 3; 0; 0; 0; 0; 0; 0] |>) (replicate 20 0xAA) 20 =
      Ok (s, sched, buf, true) /\ take 12 buf = [68; 0; 3; 1; 2; 3; 62; 2; 1; 17; 0xAA; 63] /\
    nr_process_mac_pdu two_ues 1 buf 20 = Ok (g, -1).
Proof. eexists _, _, _, _. split; [vm_compute; reflexivity|]. split; vm_compute; reflexivity. Qed.

(** ** The gNB *)

(** SDUs of a second DRB end the block: the SDU of the first DRB behind it is lost. *)
Theorem second_drb_ends_block :
  nr_process_mac_pdu two_ues 1 (sdu_bytes (5, [1; 2]) ++ sdu_bytes (4, [3; 4])) 10 = Ok (two_ues, -1).
Proof. vm_compute. reflexivity. Qed.

(** An SDU of SRB3 is skipped by one byte only: its length and content are taken for sub-PDUs. *)
Theorem srb3_misread :
  exists g, nr_process_mac_pdu two_ues 1 (sdu_bytes (3, [9; 9; 9; 9; 9; 9; 9])) 10 = Ok (g, 0) /\
    gnb_inds g = [rrc_data_ind 0x2222 [7; 9; 9; 9; 9; 9; 9; 9]].
Proof. eexists. split; [vm_compute; reflexivity|]. reflexivity. Qed.

(** The C-RNTI is written with the low byte first and read with the high byte first. *)
Definition in_random_access : gnb_mac :=
  two_ues <| ra_processes := [mk_NR_RA WAIT_Msg3 0x2222 0 false] |>.

Theorem crnti_swapped :
  nr_process_mac_pdu in_random_access 1 (nr_write_ce_ulsch_pdu 0 (Some 0x1234) None None None) 3 =
  Ok (in_random_access <| ra_processes := [mk_NR_RA WAIT_Msg3 0x2222 0x3412 true] |>, 0).
Proof. vm_compute. reflexivity. Qed.

(** A length beyond the PDU is not refused: both parsers read behind the end. *)
Theorem length_not_checked :
  nr_process_mac_pdu two_ues 1 [68; 0; 200; 1; 2; 3] 6 = Fault OutOfBounds /\
  nr_ue_process_mac_pdu idle_ue [68; 0; 200; 1; 2; 3] 6 = Fault OutOfBounds.
Proof. split; vm_compute; reflexivity. Qed.

(** For the first timing advance group the upper two bits of the command are those of memory that
    was never written. *)
Theorem tag_not_written :
  nr_write_ce_dlsch_pdu [0xC0] (mk_ce_input (Some 31) 0 no_ces) 255 None = Ok [61; 0xDF] /\
  exists mac, nr_ue_process_mac_pdu idle_ue [61; 0xDF] 2 = Ok mac /\ ul_time_alignment mac = mk_time_alignment true 31 3.
Proof. split; [vm_compute; reflexivity|]. eexists. split; vm_compute; reflexivity. Qed.

(** The control element of the CSI-IM resource sets has no length field, and the UE reads one: of
    the SDU of DRB 1 behind it, SRB2 gets one byte. *)
Definition im_ce : NR_UE_mac_ce_ctrl_t := mk_ce_ctrl None (Some (mk_csi_im false 0 3 false 0 60 [])) None None None None.

Theorem csi_im_misread :
  exists ces mac, nr_write_ce_dlsch_pdu [] (mk_ce_input None 1 im_ce) 255 None = Ok ces /\ length ces = 3%nat /\
    nr_ue_process_mac_pdu idle_ue (ces ++ sdu_bytes (4, [1; 2])) 8 = Ok mac /\ ue_inds mac = [rlc_data_ind 0x1234 2 [2]].
Proof. eexists _, _. split; [vm_compute; reflexivity|]. split; [reflexivity|]. split; vm_compute; reflexivity. Qed.

(** ** RLC below MAC *)

(** Five bytes of a block are left, MAC offers two of them to RLC, and a bearer in unacknowledged
    mode with sequence numbers of 12 bits loses its SDU: it is neither sent nor queued. *)
Definition um12_sender : nr_rlc_entity_um_t :=
  match (let* e := new_nr_rlc_entity_um 1000 1000 35 12 in nr_rlc_entity_um_recv_sdu e [1; 2; 3] 0) with Ok e => e | _ => um_ends.1.1 end.

Theorem five_bytes_lose_sdu :
  exists st tb e, dlsch_transport_block (logged (rlc_of 17)) [] (drb_module true 17 um12_sender, []) (mk_ce_input None 1 no_ces) 4 [(4, 4)] None
      (replicate 5 0) 5 = Ok (st, [], tb) /\
    queue_data um12_sender = [[1; 2; 3]] /\ bearer st 17 (Drb 0) = Some (EntityUm e) /\ queue_data e = [].
Proof. eexists _, _, _. split; [vm_compute; reflexivity|]. split; [vm_compute; reflexivity|]. split; vm_compute; reflexivity. Qed.
