(* ===== verification/OduFindings.v ===== *)
(** Defects of the tunnels of the O-DU, each shown by a run of the translated code. *)

From S2P Require Import Prelude GtpU GtpTunnels CmHash OduEgtp OduTunnels OduF1u.

(** One tunnel, TEID 49, for DRB 2 of UE 5. *)
Definition one_tunnel : DuCb :=
  match du_step a_du (DuAdd 5 1 [a_tnl] [100; 200; 300]) with Ok (du, _) => du | _ => a_du end.

Definition change_to (t drb : Z) : UpTnlCfg := mk_upTnl CONFIG_MOD 0 0 drb (Some (mk_gtpTnl 0 0 t)).

Definition events {A B C} (r : res (A * B * C)) : option C := match r with Ok (_, _, ev) => Some ev | _ => None end.

(** The answer of the DU loses the upper byte of its TEID: for a TEID of 2^24 or more the CU sends
    to another one, and the DU drops the packets of the bearer unless that one is in use. *)
Theorem large_teid_dl_lost (du : DuCb) (T : list UpTnlCfg) (t : Z) (Msg : list Z) (h0 : EgtpMsgHdr) (t0 t1 t2 t3 t4 : Z) :
  tunnels du T -> 2 ^ 24 <= t < 2 ^ 32 -> Z.of_nat (length Msg) < 2 ^ 16 ->
  let td := BUFFER_TO_INT32 (fillGtpTunnelforDl t) in
  td <> t /\ (td ∉ teid_of <$> T ->
    egtpHdlRecvData du h0 t0 t1 t2 t3 t4 (gpdu_bytes td Msg false false 0 0) true = Ok (ROK, [])).
Proof.
  intros Ht Hr Hl. cbv zeta. rewrite teid_to_cu by lia. pose proof (Z.mod_pos_bound t (2 ^ 24) ltac:(lia)) as Hm.
  split; [lia|]. intros Hn. rewrite gpdu_wire by lia.
  destruct (du_step_refines du T (DuDl (preDefHdr (t mod 2 ^ 24)) (Z.of_nat (length Msg)) Msg h0 t0 t1 t2 t3 t4) Ht) as (du' & E & _);
    [apply preDefHdr_wf; lia|].
  cbn [du_step du_spec snd em_teId preDefHdr] in E. change (mk_emh _ _ _ _ _ _) with (preDefHdr (t mod 2 ^ 24)) in E.
  assert (Ed : dl_target (t mod 2 ^ 24) T = None).
  { unfold dl_target. destruct (List.find _ T) as [c|] eqn:Ef; [|done]. apply find_some in Ef as [Hin Ec%Z.eqb_eq].
    destruct Hn. apply list_elem_of_fmap. exists c. split; [done|]. by apply list_elem_of_In. }
  rewrite Ed in E. bind_ok E. destruct x as [r ev]. injection E as _ ->.
  assert (Er : r = ROK) by (unfold egtpHdlRecvData in E0; bind_ok E0; bind_ok E0; destruct x0; by injection E0). by rewrite <- Er.
Qed.

(** After the modification of a tunnel the table keeps the pointer to the freed block: when the
    allocator returns another block, the next packet follows a dangling pointer. *)
Theorem modified_entry_dangles :
  match duUpdateTunnelCfgDb one_tunnel 5 1 [change_to 50 2] [Some 600; Some 700] with
  | Ok (du, ret, _) => ret = ROK /\ DuProcRlcUlUserDataTrans du 5 2 [1; 2; 3] 0 true = Fault UseAfterFree
  | _ => False
  end.
Proof. vm_compute. by split. Qed.

(** When it returns the same block, the control block of the tunnel is in the bin of the old TEID
    under the new one: uplink packets find no tunnel, and the release of the UE does not end. *)
Definition modified_tunnel : DuCb :=
  match duUpdateTunnelCfgDb one_tunnel 5 1 [change_to 50 2] [Some 200; Some 300] with Ok (du, _, _) => du | _ => a_du end.

Theorem modified_tunnel_not_found :
  events (DuProcRlcUlUserDataTrans modified_tunnel 5 2 [1; 2; 3] 0 true) = Some [].
Proof. vm_compute. reflexivity. Qed.

(** A turn that leaves the table as it is, with the entry marked, is repeated for ever. *)
Lemma delete_stuck du c fuel :
  (0 <? numTeId du) = true -> slot du 0 = Ok (Some 200) -> tnlMem du !! 200 = Some c -> up_ueId c = 5 ->
  duProcEgtpTunnelCfg (du <| tnlMem := <[200 := c <| configType := CONFIG_DEL |>]> (tnlMem du) |>) 0 (Some 200)
    (c <| configType := CONFIG_DEL |>) [] =
    Ok (du <| tnlMem := <[200 := c <| configType := CONFIG_DEL |>]> (tnlMem du) |>, RFAILED, []) ->
  delete_tunnels fuel du 0 5 [] = Fault FuelExhausted.
Proof.
  revert du c. induction fuel as [|f IH]; intros du c Hn Hs Hm Hu E; cbn [delete_tunnels]; rewrite Hn; [done|].
  rewrite Hs. cbn [rbind deref]. rewrite Hm. cbn [rbind]. rewrite Hu, Z.eqb_refl, E. cbn [rbind].
  destruct du as [U n m e], c as [ct ce ue dr t1]. unfold update in *; cbn [upTnlCfg numTeId tnlMem egtp configType up_cellId up_ueId up_drbId tnlCfg1] in *.
  apply (IH _ (mk_upTnl CONFIG_DEL ce ue dr t1)); [done|done|apply lookup_insert_eq|done|].
  unfold update; cbn [upTnlCfg numTeId tnlMem egtp configType up_cellId up_ueId up_drbId tnlCfg1].
  rewrite insert_insert_eq. exact E.
Qed.

Theorem release_does_not_end fuel : delete_tunnels fuel modified_tunnel 0 5 [] = Fault FuelExhausted.
Proof.
  apply (delete_stuck _ (mk_upTnl CONFIG_MOD 1 5 2 (Some (mk_gtpTnl 0 0 50)))); [by vm_compute..|].
  vm_compute. reflexivity.
Qed.

(** With TEIDs in the same bin the tunnel is found, but its packets keep the old remote TEID. *)
Definition modified_in_bin : DuCb :=
  match duUpdateTunnelCfgDb one_tunnel 5 1 [change_to (49 + 1024) 2] [Some 200; Some 300] with Ok (du, _, _) => du | _ => a_du end.

Theorem modified_tunnel_old_header :
  events (DuProcRlcUlUserDataTrans modified_in_bin 5 2 [1; 2; 3] 0 true) =
  Some [Egtp (UdpSend (dstIp (egtp a_du)) EGTP_RECVR_PORT (gpdu_bytes 49 [1; 2; 3] false false 0 0))].
Proof. vm_compute. reflexivity. Qed.

(** A request to modify a DRB without a tunnel dereferences a null pointer. *)
Theorem modify_unknown_drb : duUpdateTunnelCfgDb one_tunnel 5 1 [change_to 50 3] [] = Fault NullDeref.
Proof. vm_compute. reflexivity. Qed.

(** Deleting the last tunnel of the table succeeds and reports a failure. *)
Theorem delete_last_reports_failure :
  match duUpdateTunnelCfgDb one_tunnel 5 1 [mk_upTnl CONFIG_DEL 0 0 2 (Some (mk_gtpTnl 0 0 49))] [] with
  | Ok (du, ret, _) => ret = RFAILED /\ numTeId du = 0
  | _ => False
  end.
Proof. vm_compute. by split. Qed.

(** A request for a DRB that has a tunnel ends the loop: the DRBs behind it are not set up. *)
Theorem later_drbs_skipped :
  match duUpdateTunnelCfgDb one_tunnel 5 1 [change_to (49 + 1024) 2; mk_upTnl CONFIG_ADD 0 0 3 (Some (mk_gtpTnl 0 0 60))]
          [Some 200; Some 300; Some 400; Some 500; Some 600] with
  | Ok (du, ret, _) => ret = ROK /\ numTeId du = 1
  | _ => False
  end.
Proof. vm_compute. by split. Qed.

(** An uplink packet of a DRB without a tunnel leaves on the tunnel whose TEID is left on the stack. *)
Theorem stale_teid_used :
  events (DuProcRlcUlUserDataTrans one_tunnel 9 9 [1; 2; 3] 49 true) =
  Some [Egtp (UdpSend (dstIp (egtp a_du)) EGTP_RECVR_PORT (gpdu_bytes 49 [1; 2; 3] false false 0 0))].
Proof. vm_compute. reflexivity. Qed.

(** The type of a message is not looked at: an end marker is handed to RLC as an empty packet. *)
Theorem end_marker_taken_for_data :
  egtpHdlRecvData one_tunnel (preDefHdr 0) 0 0 0 0 0 [0x30; 254; 0; 0; 0; 0; 0; 49] true = Ok (ROK, [DlUserData 1 5 2 0 []]).
Proof. vm_compute. reflexivity. Qed.

(** With a PDCP number the type of the extension overwrites the last byte of the TEID, also for the
    packets that follow. *)
Definition with_pdcp : EgtpMsgHdr :=
  mk_emh (mk_tkn false 0) (mk_tkn false 0) (mk_tkn false 0) (mk_tkn true 7) 49 EGTPU_MSG_GPDU.

Theorem pdcp_number_overwrites_teid :
  match egtpHdlDatInd (egtp one_tunnel) (mk_egtpMsg with_pdcp [1; 2; 3]) with
  | Ok (st, ret, ev) =>
    ev = [UdpSend (dstIp (egtp a_du)) EGTP_RECVR_PORT [0x34; 255; 0; 7; 0; 0; 0; 192; 1; 0; 7; 0; 1; 2; 3]] /\
    events (egtpHdlDatInd st (mk_egtpMsg (preDefHdr 49) [4; 5])) =
      Some [UdpSend (dstIp (egtp a_du)) EGTP_RECVR_PORT (gpdu_bytes 192 [4; 5] false false 0 0)]
  | _ => False
  end.
Proof. vm_compute. by split. Qed.

(** With a sequence number the flag is set and the number is not sent: the receiver takes the first
    four bytes of the packet for it. *)
Definition with_seq : EgtpMsgHdr :=
  mk_emh (mk_tkn false 0) (mk_tkn true 7) (mk_tkn false 0) (mk_tkn false 0) 49 EGTPU_MSG_GPDU.

Theorem sequence_number_not_sent :
  events (egtpHdlDatInd (egtp one_tunnel) (mk_egtpMsg with_seq [1; 2; 3; 4; 5])) =
  Some [UdpSend (dstIp (egtp a_du)) EGTP_RECVR_PORT [0x32; 255; 0; 5; 0; 0; 0; 49; 1; 2; 3; 4; 5]].
Proof. vm_compute. reflexivity. Qed.

(** An extension header of another type is not skipped by its length: its bytes are taken for types
    of extension headers, up to the first zero, and the rest is left in the packet. *)
Theorem unknown_extension_misread :
  egtpHdlRecvData one_tunnel (preDefHdr 0) 0 0 0 0 0
    ([0x34; 255; 0; 11; 0; 0; 0; 49; 0; 0; 0; 0x84] ++ [1; 0; 5; 0] ++ [1; 2; 3]) true = Ok (ROK, [DlUserData 1 5 2 5 [5; 0; 1; 2; 3]]).
Proof. vm_compute. reflexivity. Qed.

(** A message that ends inside the extension headers keeps the receiver in its loop. *)
Theorem truncated_extension_loops :
  egtpDecodeHdr (preDefHdr 0) 0 0 0 0 0 [0x34; 255; 0; 4; 0; 0; 0; 49; 0; 0; 0; 0x84] = Fault FuelExhausted /\
  forall fuel l t1 t2 h, ext_loop fuel 0x84 l t1 t2 h [] = Fault FuelExhausted.
Proof. split; [reflexivity|]. intros. by apply ext_loop_diverges. Qed.
