(* ===== verification/OduMsgFindings.v ===== *)
(** What the message buffers of the O-DU do where it is not what they mean to do. *)

From S2P Require Import Prelude CmHash OduMsg OduMsgInv.

(** A message of six bytes in two blocks of four, and a copy of it that shares the blocks; from its
    front one byte was removed. *)
Definition shared_setup (left : list (option (Z * list Z))) : res (Mem * Msg * Msg) :=
  match SGetMsg (mk_mem ∅ (map (fun a => Some (Z.of_nat a, [0; 0; 0; 0])) (seq 1 6))) 0 with
  | (Some mb, m) =>
    let* (m, mb, _) := SAddPstMsgMult m [1; 2; 3; 4; 5; 6] mb in
    let* (m, c, _) := SCpyMsgMsg m mb 0 in
    let* (m, mb, _, _) := SRemPreMsg m mb in
    match c with Some c => Ok (mk_mem (dblks m) left, mb, c) | None => Fault NullDeref end
  | _ => Fault NullDeref
  end.

(** When [SAddPreMsgMult] finds no memory and its first block is shared, the read pointer of the block
    is set to the start of the data block although nothing was written: the byte that was removed
    before is part of the message again, and its length does not count it. *)
Lemma failed_prepend_adds_bytes :
  match (let* (m, mb, _) := shared_setup [] in SAddPreMsgMult m [9] mb) with
  | Ok (m, mb, ret) => ret = ROUTRES /\ len mb = 5 /\ bytes m (b_cont mb) = [1; 2; 3; 4; 5; 6]
  | _ => False
  end.
Proof. vm_compute. done. Qed.

(** In the same way [SAddPstMsgMult] sets the write pointer of a shared last block to the end of the
    data block: the message has bytes that were never written. *)
Lemma failed_append_adds_bytes :
  match (let* (m, mb, _) := shared_setup [] in SAddPstMsgMult m [9] mb) with
  | Ok (m, mb, ret) => ret = ROUTRES /\ len mb = 5 /\ bytes m (b_cont mb) = [2; 3; 4; 5; 6; 0; 0]
  | _ => False
  end.
Proof. vm_compute. done. Qed.

Fixpoint copies (n : nat) (m : Mem) (mb : Msg) : res (Mem * option Msg) :=
  match n with
  | O => Ok (m, None)
  | S n => let* (m, c, _) := SCpyMsgMsg m mb 0 in
           match n with O => Ok (m, c) | _ => copies n m mb end
  end.

(** The counter of a data block has 8 bits and is not checked.  After 256 copies of a message it is
    back at one: a byte that is then put behind the message is written into the block that all copies
    share, and a copy that is freed frees the block of all. *)
Lemma reference_counter_wraps :
  match SGetMsg (mk_mem ∅ (map (fun a => Some (Z.of_nat a, [0; 0; 0; 0])) (seq 1 520))) 0 with
  | (Some mb, m) =>
    match (let* (m, mb, _) := SAddPstMsgMult m [1; 2; 3] mb in
           let* (m, c) := copies 256 m mb in
           match c with
           | None => Fault NullDeref
           | Some c =>
             let* (m1, mb1, _) := SAddPstMsg m 9 mb in
             let* (m2, c2, _) := SAddPstMsg m1 7 c in
             let* m3 := SPutMsg m2 c2 in
             Ok (bytes m2 (b_cont mb1), bytes m3 (b_cont mb1), SExamMsg m3 mb1 0)
           end) with
    | Ok (before, after, read) => before = [1; 2; 3; 7] /\ after = [] /\ read = Fault UseAfterFree
    | _ => False
    end
  | _ => False
  end.
Proof. vm_compute. done. Qed.

(** [SAddPreMsg] refuses a byte when the length is the largest it can hold; [SAddPstMsg] does not
    look, and the length becomes negative. *)
Lemma append_overflows_length m mb d b :
  b_cont mb = [b] -> endptr mb = Some (b_id b) -> len mb = 0x7FFF -> dblks m !! b_datap b = Some d -> db_ref d = 1 ->
  (b_wptr b < length (db_data d))%nat ->
  SAddPreMsg m 0 mb = Ok (m, mb, ROUTRES) /\
  exists m' mb', SAddPstMsg m 0 mb = Ok (m', mb', ROK) /\ len mb' = - 0x8000.
Proof.
  intros Hc He Hl Hd Hr Hw. split; [unfold SAddPreMsg; by rewrite Hl|].
  assert (Hdb : dblk m b = Ok d) by (unfold dblk; by rewrite Hd).
  unfold SAddPstMsg, write_back, last_block. rewrite He, Hc. cbn [split_at_id]. rewrite Z.eqb_refl. cbn [rbind]. rewrite Hdb. cbn [rbind].
  rewrite Hr. cbn [Z.gtb Z.compare Pos.compare Pos.compare_cont orb]. destruct (Nat.eqb_spec (b_wptr b) (length (db_data d))) as [|_]; [lia|]. cbn [negb rbind].
  destruct (Nat.ltb_spec (b_wptr b) (length (db_data d))) as [_|]; [|lia].
  do 2 eexists. split; [done|]. destruct mb. unfold update. cbn in *. by rewrite Hl.
Qed.
