(* ===== verification/OduMacFindings.v ===== *)
(** Flaws of the MAC of the O-DU, and of random access in OAI, that the models show. *)

From S2P Require Import Prelude MacPdu MacLink MacUl NrCommon OduMac Rar.

Definition one_ue : mac_st := mk_mac_st [mk_MacRaCbInfo 0 [] None] (repeat true 8) [].

(** The two bytes of a long length are combined by [&]: every length is 0. *)
Theorem odu_long_length_zero (hi lo : Z) : 0 <= hi < 256 -> 0 <= lo < 256 -> Z.land (u16 (Z.shiftl hi 8)) lo = 0.
Proof.
  intros Hh Hl. rewrite Z.shiftl_mul_pow2 by lia. unfold u16. rewrite Z.mod_small by lia. change (2 ^ 8) with 256.
  replace lo with (lo mod 2 ^ 8) by (apply Z.mod_small; lia). rewrite <- Z.land_ones, Z.land_comm, <- Z.land_assoc by lia. rewrite (Z.land_comm (Z.ones 8)), Z.land_ones by lia.
  change (2 ^ 8) with 256. rewrite Z.mod_mul by lia. apply Z.land_0_r.
Qed.

(** An SDU of the UE of OAI, which always has two length bytes behind its sub-header: bit 7 is taken for
    the format, so that the SDU is found to be empty and its bytes are read as sub-headers. *)
Theorem odu_misreads_oai_sdu :
  match demux_turn one_ue 100 0 (sdu_bytes (4, [7; 8; 9])) 0 6 with
  | Ok (Some (s, idx, _)) => odu_inds s = [macProcUlData 100 4 []] /\ idx = 2
  | _ => False
  end.
Proof. vm_compute. done. Qed.

(** A sub-header with an LCID of 33 to 60 takes no byte: the loop does not end.  52 is the CCCH on which
    the UE of OAI sends Msg3. *)
Theorem odu_demux_hangs s rnti ueIdx pdu idx plen b :
  pdu !! Z.to_nat idx = Some b -> MAC_LCID_MAX < b mod 64 <= MAC_LCID_LONG_TRUNC_BSR -> 0 < plen ->
  forall fuel, demux_loop fuel s rnti ueIdx pdu idx plen = Fault FuelExhausted.
Proof.
  intros Hb Hl Hp fuel. induction fuel as [|fuel IH]; cbn [demux_loop]; (destruct (Z.gtb_spec plen 0); [|lia]); [done|].
  unfold demux_turn, rx. rewrite Hb. cbn [rbind]. unfold MAC_LCID_MAX, MAC_LCID_LONG_TRUNC_BSR, MAC_LCID_CCCH, MAC_LCID_PADDING in *.
  destruct (Z.eqb_spec (b mod 64) 0); [lia|]. destruct (Z.leb_spec (b mod 64) 32); [lia|]. destruct (Z.leb_spec (b mod 64) 60); [|lia].
  cbn [rbind]. destruct (Z.eqb_spec (b mod 64) 63); [lia|]. exact IH.
Qed.

(** The index has 8 bits: behind 255 bytes the PDU is read from its start again. *)
Theorem odu_index_wraps :
  match unpackRxData (Some one_ue) (Some (100, [1; 200] ++ repeat 1 200 ++ [2; 80] ++ repeat 2 80 ++ [MAC_LCID_PADDING], 285)) with
  | Ok (Some s, ok) => drop 2 (odu_inds s) = repeat (macProcUlData 100 1 [1]) 6 /\ ok = false
  | _ => False
  end.
Proof. vm_compute. done. Qed.

(** The length byte of a long buffer status report is taken for its bitmap. *)
Theorem odu_long_bsr_misread :
  match demux_turn one_ue 100 0 (long_bsr_bytes [0; 0; 5; 0; 0; 0; 0; 0] ++ [MAC_LCID_PADDING]) 0 5 with
  | Ok (Some (s, idx, _)) => long_bsr_bytes [0; 0; 5; 0; 0; 0; 0; 0] = [MAC_LCID_LONG_BSR; 2; 4; 5] /\ odu_inds s = [macProcLongBsr 100 [(1, 13)]] /\ idx = 3
  | _ => False
  end.
Proof. vm_compute. done. Qed.

(** 180 blocks: a field of 13 - 14 bits, as a number of 8 bits. *)
Theorem odu_rar_180_blocks : fillRarPdu (mk_RarInfo 17 300 (mk_Msg3UlGrant 0 180 20 60 2 4 3 0) 18000) = Fault SignedOverflow.
Proof. vm_compute. done. Qed.

(** Msg3 in the first slot of the next frame: the UE stays in the frame, the gNB does not. *)
Theorem msg3_frame_differs :
  nr_ue_pusch_scheduler 1 [7] true 0 100 10 0 = Ok (Some (100, 0)) /\ msg3_time 1 7 100 10 = (101, 0).
Proof. vm_compute. done. Qed.

(** The time allocation has four bits; the UE takes three. *)
Theorem msg3_time_allocation_cut :
  match nr_fill_rar (mk_rar_input 17 300 18000 60 20 9 106 false 4) with
  | Ok pdu =>
    match nr_ue_process_rar 1 (repeat 4 16) (fun _ => Some 0) (mk_ra_rar 17 false false false 0 0 0) 0 0 true 100 8 pdu with
    | Ok o => match rar_pusch o with Some (_, grant, _) => Msg3_t_alloc grant = 1 | None => False end
    | _ => False
    end
  | _ => False
  end.
Proof. vm_compute. done. Qed.
