(* ===== verification/OduUmFindings.v ===== *)
(** Findings in the unacknowledged mode of the O-DU, each with a concrete run. *)

From S2P Require Import Prelude RlcUmLink OduUm OduUmDl OduUmUl.

(** ** Downlink *)

(** A bearer with a 6-bit SN where an SDU of 400 bytes was sent in part. *)
Definition segmented_bearer : res RlcUmDl :=
  let* rb := rlcUmmQSdu (um_dl_config 1 0 true) true 0 0 (replicate 400 7) in
  let* (rb, _, _, _) := rlcUmmProcessSdus rb 0 20 in Ok rb.

(** A grant of 258 bytes for an SDU that is segmented: the second estimate of the size takes the three
    bytes of the longer MAC sub-header off, finds 255 bytes, and goes back to the shorter sub-header, so
    that the PDU has 256 bytes and needs the longer one: 259 bytes in all. *)
Lemma grant_exceeded :
  match segmented_bearer with
  | Ok rb => match rlcUmmProcessSdus rb 0 258 with Ok (_, pdus, _, _) => sumZ mac_bytes pdus = 259 | _ => False end
  | _ => False
  end.
Proof. vm_compute. reflexivity. Qed.

(** An SDU that is discarded after its time leaves the bytes for its header in the occupancy. *)
Lemma discarded_occupancy :
  match let* rb := rlcUmmQSdu (um_dl_config 1 10 true) true 0 0 (replicate 30 7) in rlcUmmProcessSdus rb 20 100 with
  | Ok (rb, pdus, reported, _) => pdus = [] /\ sduQ rb = [] /\ reported = RLC_MAX_HDRSZ
  | _ => False
  end.
Proof. vm_compute. by split. Qed.

(** Neither the discard of an SDU by PDCP nor the re-establishment changes the occupancy. *)
Lemma occupancy_kept rb id : bo (rlcUmmDiscSdu rb id) = bo rb /\ bo (rlcDlUmmReEstablish rb) = bo rb /\ occupancy (rlcDlUmmReEstablish rb) = 0.
Proof. split; [|done]. unfold rlcUmmDiscSdu. destruct (sduQ rb); [done|]. by destruct (_ && _). Qed.

(** ** Uplink *)

(** The two segments of an SDU of six bytes. *)
Definition seg_pair (S : list Z) (x : Z) : list (list Z) := [part_pdu 6 x S 0 3; part_pdu 6 x S 3 3].

(** 62 SDUs, then only the first segments of SN 62 and of SN 0, and t-Reassembly expires. *)
Definition before_wrap : res RlcUmUl :=
  let* u := um_ul_loop (um_ul_config 1 (replicate 1000 true)) false (flat_map (seg_pair [1; 2; 3; 4; 5; 6]) (seqZ 0 62)) in
  let* u := um_ul_loop u false [part_pdu 6 62 [1; 2; 3; 4; 5; 6] 0 3; part_pdu 6 0 [11; 12; 13; 14; 15; 16] 0 3] in
  rlcUmmReAsmblTmrExp u.

(** Then SNs 1 to 63 arrive, and an SDU with SN 0. *)
Definition after_wrap : res RlcUmUl :=
  let* u := before_wrap in
  um_ul_loop u false (flat_map (seg_pair [1; 2; 3; 4; 5; 6]) (seqZ 1 63) ++ seg_pair [21; 22; 23; 24; 25; 26] 0).

(** The loop that gives up SNs increments [vrUr] past the largest SN, and does not find the buffer of
    SN 0: it stays. *)
Lemma buffer_left : match before_wrap with Ok u => reAsmblTmr u = false /\ vrUr u = 1 /\ length (recBufLst u) = 1%nat /\ rlcUtlGetUmRecBuf u 0 <> None | _ => False end.
Proof. vm_compute. by split_and!. Qed.

(** The next SDU with this SN is delivered with the segment of the old one in it. *)
Lemma sdu_mixed : match after_wrap with Ok u => list.last (ulData u) = Some [11; 12; 13; 24; 25; 26] | _ => False end.
Proof. vm_compute. reflexivity. Qed.

(** The release of a bearer frees the buffers of the SNs below 512 only. *)
Lemma buffers_leaked :
  match let* u := um_ul_pdu (um_ul_config 2 [true; true]) false (part_pdu 12 600 [1; 2; 3; 4; 5; 6] 0 3) in rlcUmmFreeUlRbCb u with
  | Ok u => length (recBufLst u) = 1%nat
  | _ => False
  end.
Proof. vm_compute. reflexivity. Qed.
